(* ===== verification/_CoqProject ===== *)
-Q . S2P
Prelude.v
Layout.v
Rand.v
Spinlock.v
Held.v
CString.v
Bytes.v
Kalloc.v
Vm.v
VmSpec.v
VmUser.v
VmThms.v
Bio.v
Memide.v
Block.v
Log.v
LogThms.v
LogBlocks.v
Fs.v
FsBlocks.v
Icache.v
FsFile.v
FsRw.v
FsInode.v
FsWrite.v
Pipe.v
PipeThms.v
File.v
FsThms.v
FileThms.v
Syscall.v
Sysfile.v
SysfileThms.v
IcacheThms.v
Dir.v
Mkfs.v
MkfsThms.v
Mount.v
Exec.v
ExecSpace.v
ExecStack.v
ExecThms.v
Bootmain.v
Mp.v
Ulib.v
Umalloc.v
UmallocThms.v
Kbd.v
Console.v
ConsoleThms.v
Grep.v
Sh.v
ShParse.v
ShPrint.v
ShRun.v
ShOrder.v
ShPlumb.v
ShMain.v
ShTyped.v
Proc.v
ProcSpec.v
Table.v
ProcSim.v
ProcOps.v
KernelInv.v
Lottery.v
KernelThms.v
Thread.v
ProcDump.v
SysProc.v
Trap.v
Segments.v
Devices.v
Ide.v
Programs.v
