(* ===== verification/Prelude.v ===== *)
(** * A verification of the xv6 kernel with a lottery scheduler

    The program is the xv6 teaching kernel for the x86 ([src/]), with a lottery
    scheduler, [getppid], [cps] and [renice] added, its file system builder and
    its user programs.  The C code is translated function by function; names are
    those of the source.

    ** How the code is modelled

    A C function is a function in the monad [M] below: state passing with the
    outcomes [Ok], [Panic] (a call of [panic()]), [Fault] (a memory access the
    code does not guard) and [Spin] (a wait for somebody else).  Machine integers
    are [Z], with the wrap-around written out ([u8], [u16], [u32], [s32]).
    Pointers into static tables are indices, memory is a map from addresses to
    bytes where the code does pointer arithmetic.

    Concurrency follows the locks of the code.  A critical section of the process
    code is one step of one CPU, and the CPUs' steps interleave freely
    ([ProcSim]); code that switches stacks is cut at the switch.  Spin locks
    themselves are verified at the level of single instructions ([Spinlock]).
    A thread that parks and is woken ([Pipe], [Console], [Thread]) is cut at its
    sleeps.  The processes of the shell ([ShRun]) are programs of system calls, and
    a system of them takes one call at a time, of any process.  The file system, log and buffer cache follow one process at a time;
    having to wait for another one is [Spin].

    Loops that are not structural have fuel.  Where a theorem says that the code
    returns ([runs]) the fuel the definition passes, or the bound in the statement,
    is shown to be enough: it is the length of the input for the parsers and text
    loops, the number of blocks, pages or table entries for the kernel's loops,
    and for polling loops the time at which the device is ready.

    Code outside [src/] and hardware are parameters: the drive ([Bootmain], [Ide]),
    the BIOS tables ([Mp]), what device registers return ([Devices]), whether
    [sbrk] is granted ([Umalloc]), the generated entry points ([Segments]).
    Components meet at interfaces: [Block.blocks_spec] between the file system and
    the log (discharged in [LogBlocks], and used by [Mount] on the disk [mkfs]
    made), [Proc.procenv] between processes and memory and files,
    [SysProc.sysenv] and [Trap.trapenv], and [Programs.usys] with its laws
    [usys_ok] between the user programs and the kernel.

    ** The parts, and what is shown

    Processes.  [Rand], [Spinlock], [Held] ([rand.c], [spinlock.c]) and [Proc]
    ([proc.c], [proc.h]); [ProcSpec] is the abstract process system, [Table],
    [ProcOps], [ProcSim] and [KernelInv] prove that the code refines it, [Lottery]
    is about the draw, and [KernelThms] has the theorems: refinement for any number
    of CPUs and any interleaving, no panic, each running process on one CPU, no
    lost wakeup between [exit] and [wait], the process tree, fairness of the lottery
    and that nobody starves; and two defects, a lock order that can deadlock and a
    [kill(0)] that dooms the next child.  [ProcDump] is what [procdump], [cps] and
    [panic] print.

    Entering the kernel.  [Thread] is code of one process between the moves of the
    others; [SysProc] ([sysproc.c]) and [Trap] ([syscall.c], [trap.c]) are written in
    it: a killed process does not get back to user space, [sleep] lasts as long as
    it was asked to, also when the counter of ticks wraps around, a fault is fatal to the process or a panic.  [Segments]
    ([mmu.h], [seginit], [tvinit]) decodes the tables as the processor does: user
    code enters the kernel only through the gate of the system calls.

    Memory.  [CString] ([string.c]), [Bytes], [Kalloc] ([kalloc.c]), [Vm] ([vm.c]);
    [VmSpec], [VmUser] and [VmThms] show that no page is lost or handed out twice,
    that [fork]'s copy equals the original and that running out of memory leaves
    everything as it was.

    Disk and log.  [Bio] ([bio.c], [ide.c], [sleeplock.c]), [Ide] (the ports of the
    driver, and that they ask the drive for what [Bio] says), [Memide] ([memide.c],
    which agrees with [ide.c]), [Log] ([log.c]): [LogThms] shows that transactions
    are atomic across a crash after any write to the disk, that recovery is too, and
    that the reservation of [begin_op] is one block too large.

    Files.  [Fs] ([fs.c]), with [FsBlocks], [FsFile], [FsRw], [FsInode], [FsWrite],
    [FsThms] on reading and writing, [Icache], [IcacheThms] and [Dir] on inodes and
    names; [Pipe], [PipeThms] ([pipe.c]); [File], [FileThms] ([file.c]); [Syscall],
    [Sysfile], [SysfileThms] ([sysfile.c]): the bytes of a file are the splice of
    what was written, a write fits the log, every reference count is exact through
    every system call, a pipe is a queue with no lost wakeup.  [Mkfs], [MkfsThms]
    ([mkfs.c]) and [Mount]: the image that [mkfs] builds is well formed and the
    kernel reads back from it the files that went in.

    Programs.  [Exec], [ExecSpace], [ExecStack], [ExecThms] ([exec.c]): a new program
    finds its segments and arguments where it should, and no page or inode is lost
    on any path: a success gives the old address space back to the allocator.
    [Ulib], [Umalloc], [UmallocThms] are the user library; [Sh], [ShParse], [ShPrint],
    [ShRun], [ShOrder], [ShPlumb], [ShMain], [ShTyped] the shell: its parser
    terminates and reads back what is printed, its main loop terminates on every
    input, and in every interleaving of its processes the commands that are typed
    are the programs that are started, each with the descriptors its command asks
    for and not before the programs that its command waits for have ended.  A
    program there is one that ends and does not read the input of the shell.
    [Grep] is the matcher of [grep] against the meaning of
    patterns; [Programs] has [grep], [wc], [cat] and [echo] against what they should
    print, and the other small programs.

    Machine.  [Bootmain] loads the kernel as its ELF header says; [Mp] finds the
    processors; [Devices] has the interrupt controllers (only what was enabled comes
    through), the clock (a date that was shown, although its registers hold anything
    while the chip updates them) and the serial
    port; [Kbd], [Console], [ConsoleThms] the keyboard and the console, a line editor
    in front of a queue: what is typed is what is read.

    [Layout] has the constants that more than one component uses.  This file has the
    monad with its rules ([runs], [leads], [yields], [wp]), the frame conditions
    [keeps] and [keeps_inv] with the databases that prove them, and lemmas on lists
    and numbers.

    ** Not modelled

    Assembly ([bootasm.S], [entry.S], [entryother.S], [swtch.S], [trapasm.S],
    [vectors.pl], [initcode.S], [usys.S]) and [main.c], which calls the
    initialisations in turn and starts the other processors; [consoleinit], which
    fills the device table; [init.c] and the tests and demonstrations
    ([usertests.c], [forktest.c], [stressfs.c], [mult.c] and the like),
    which have no contract of their own; the scheduler that [LOTTERY] replaces.  The
    weak ordering of the x86 is not either: memory is sequentially consistent. *)

From stdpp Require Export base list gmap strings numbers relations.
From Stdlib Require Export ZArith Lia.

#[global] Open Scope Z_scope.

(** ** Machine integers

    The kernel is compiled with [-m32]: [int], [uint] and [unsigned long]
    are 32 bits wide.  A C value of these types is a [Z] in range; every
    operation that can leave the range is followed by the conversion the
    compiler performs. *)

Definition u8 (x : Z) : Z := x mod 2 ^ 8.
Definition u16 (x : Z) : Z := x mod 2 ^ 16.
Definition u32 (x : Z) : Z := x mod 2 ^ 32.
Definition s32 (x : Z) : Z := (x + 2 ^ 31) mod 2 ^ 32 - 2 ^ 31.

Definition INT_MAX : Z := 2 ^ 31 - 1.

Lemma u32_range x : 0 <= u32 x < 2 ^ 32.
Proof. apply Z.mod_pos_bound. lia. Qed.

Lemma u32_small x : 0 <= x < 2 ^ 32 -> u32 x = x.
Proof. apply Z.mod_small. Qed.

Lemma s32_small x : - 2 ^ 31 <= x < 2 ^ 31 -> s32 x = x.
Proof. intros H. unfold s32. rewrite Z.mod_small; lia. Qed.

Lemma s32_range x : - 2 ^ 31 <= s32 x < 2 ^ 31.
Proof.
  unfold s32. pose proof (Z.mod_pos_bound (x + 2 ^ 31) (2 ^ 32) ltac:(lia)). lia.
Qed.

(** ** Outcomes of kernel code

    [Panic] is a call of [panic()], which never returns.  [Fault] is a
    memory access the code does not guard (a null or wild pointer).  [Spin]
    is a busy wait on a spin lock that another CPU holds: the call has not
    returned and another CPU has to move first. *)

Inductive outcome (A : Type) : Type :=
| Ok (a : A)
| Panic (msg : string)
| Fault (msg : string)
| Spin.
Arguments Ok {A} a.
Arguments Panic {A} msg.
Arguments Fault {A} msg.
Arguments Spin {A}.

Definition M (S A : Type) : Type := S -> outcome (A * S).

Definition ret {S A} (a : A) : M S A := fun s => Ok (a, s).
Definition bind {S A B} (m : M S A) (k : A -> M S B) : M S B := fun s =>
  match m s with
  | Ok (a, s') => k a s'
  | Panic msg => Panic msg
  | Fault msg => Fault msg
  | Spin => Spin
  end.

(** Sequencing, as in C: [x ← m; k] and [m;; k]. *)
Declare Scope kernel_scope.
Notation "x ← y ; z" := (bind y (fun x => z))
  (at level 20, y at level 100, z at level 200, only parsing) : kernel_scope.
Notation "' x ← y ; z" := (bind y (fun x => z))
  (at level 20, x pattern, y at level 100, z at level 200, only parsing) : kernel_scope.
Notation "x ;; z" := (bind x (fun _ => z))
  (at level 100, z at level 200, only parsing, right associativity) : kernel_scope.
#[global] Open Scope kernel_scope.

(** ** Combinators of the monad *)

Definition panic {S A} (msg : string) : M S A := fun _ => Panic msg.
Definition fault {S A} (msg : string) : M S A := fun _ => Fault msg.
Definition spin {S A} : M S A := fun _ => Spin.
Definition gets {S A} (f : S -> A) : M S A := fun s => Ok (f s, s).
Definition modify {S} (f : S -> S) : M S () := fun s => Ok ((), f s).

(** A value read through a pointer that may be null or out of range. *)
Definition deref {S A} (msg : string) (o : option A) : M S A :=
  match o with Some a => ret a | None => fault msg end.

Definition when {S} (b : bool) (m : M S ()) : M S () := if b then m else ret ().

(** [for(j = i; j < i + n; j++) body]. *)
Fixpoint for_ {T} (i n : nat) (body : nat -> M T ()) : M T () :=
  match n with
  | O => ret ()
  | S n => bind (body i) (fun _ => for_ (S i) n body)
  end.

(** A computation on a component of the state. *)
Definition zoom {S T A} (get : S -> T) (put : T -> S -> S) (m : M T A) : M S A :=
  fun s => match m (get s) with
           | Ok (a, t) => Ok (a, put t s)
           | Panic msg => Panic msg
           | Fault msg => Fault msg
           | Spin => Spin
           end.

(** [runs m s Q]: [m] returns from [s], in a state and with a value that
    satisfy [Q].  [leads m s Q]: if [m] returns, then [Q] holds. *)
Definition runs {S A} (m : M S A) (s : S) (Q : A -> S -> Prop) : Prop :=
  match m s with Ok (a, s') => Q a s' | _ => False end.
Definition leads {S A} (m : M S A) (s : S) (Q : A -> S -> Prop) : Prop :=
  match m s with Ok (a, s') => Q a s' | _ => True end.

Section monad_rules.
Context {S A B : Type}.
Implicit Types (m : M S A) (k : A -> M S B) (s : S).

Lemma bind_Ok m k s a s' : m s = Ok (a, s') -> (bind m k) s = k a s'.
Proof. unfold bind. by intros ->. Qed.

Lemma bind_inv m k s b s' :
  bind m k s = Ok (b, s') -> exists a s1, m s = Ok (a, s1) /\ k a s1 = Ok (b, s').
Proof. unfold bind. destruct (m s) as [[a s1]| | |]; try done. eauto. Qed.

Lemma bind_Panic m k s msg : m s = Panic msg -> (bind m k) s = Panic msg.
Proof. unfold bind. by intros ->. Qed.

Lemma runs_bind m k s Q :
  runs m s (fun a s' => runs (k a) s' Q) -> runs (bind m k) s Q.
Proof. unfold runs, bind. by destruct (m s) as [[a s']| | |]. Qed.

Lemma leads_bind m k s Q :
  leads m s (fun a s' => leads (k a) s' Q) -> leads (bind m k) s Q.
Proof. unfold leads, bind. by destruct (m s) as [[a s']| | |]. Qed.

Lemma runs_mono m s (Q Q' : A -> S -> Prop) :
  runs m s Q -> (forall a s', Q a s' -> Q' a s') -> runs m s Q'.
Proof. unfold runs. destruct (m s) as [[a s']| | |]; auto. Qed.

Lemma leads_mono m s (Q Q' : A -> S -> Prop) :
  leads m s Q -> (forall a s', Q a s' -> Q' a s') -> leads m s Q'.
Proof. unfold leads. destruct (m s) as [[a s']| | |]; auto. Qed.

Lemma runs_leads m s Q : runs m s Q -> leads m s Q.
Proof. unfold runs, leads. by destruct (m s) as [[a s']| | |]. Qed.

Lemma leads_Ok m s Q a s' : leads m s Q -> m s = Ok (a, s') -> Q a s'.
Proof. unfold leads. intros H Heq. by rewrite Heq in H. Qed.

Lemma runs_inv m s Q : runs m s Q -> exists a s', m s = Ok (a, s') /\ Q a s'.
Proof. unfold runs. destruct (m s) as [[a s']| | |]; [eauto|done..]. Qed.

Lemma runs_Ok m s Q a s' : m s = Ok (a, s') -> Q a s' -> runs m s Q.
Proof. unfold runs. by intros ->. Qed.
End monad_rules.

(** [yields tol m s Q]: [m] returns with [Q], or else [tol] holds.  [yields False]
    is [runs] and [yields True] is [leads]. *)
Definition yields {S A} (tol : Prop) (m : M S A) (s : S) (Q : A -> S -> Prop) : Prop :=
  match m s with Ok (a, s') => Q a s' | _ => tol end.

Section yields_rules.
Context {S : Type} (tol : Prop).

Lemma yields_Ok {A} (m : M S A) s Q a s' : m s = Ok (a, s') -> Q a s' -> yields tol m s Q.
Proof. unfold yields. by intros ->. Qed.

Lemma yields_bind {A B} (m : M S A) (k : A -> M S B) s Q :
  yields tol m s (fun a s' => yields tol (k a) s' Q) -> yields tol (bind m k) s Q.
Proof. unfold yields, bind. by destruct (m s) as [[a s']| | |]. Qed.

Lemma yields_mono {A} (m : M S A) s (Q Q' : A -> S -> Prop) :
  yields tol m s Q -> (forall a s', Q a s' -> Q' a s') -> yields tol m s Q'.
Proof. unfold yields. destruct (m s) as [[a s']| | |]; auto. Qed.

Lemma yields_runs {A} (m : M S A) s Q : runs m s Q -> yields tol m s Q.
Proof. unfold runs, yields. by destruct (m s) as [[a s']| | |]. Qed.

Lemma yields_zoom {T A} (get : S -> T) (put : T -> S -> S) (m : M T A) s Q :
  yields tol m (get s) (fun a t => Q a (put t s)) -> yields tol (zoom get put m) s Q.
Proof. unfold yields, zoom. by destruct (m (get s)) as [[a t]| | |]. Qed.
End yields_rules.

(** An invariant of a loop. *)
Lemma runs_for {T} (I : nat -> T -> Prop) (body : nat -> M T ()) n : forall i s,
  I i s -> (forall j t, (i <= j < i + n)%nat -> I j t -> runs (body j) t (fun _ t' => I (S j) t')) ->
  runs (for_ i n body) s (fun _ s' => I (i + n)%nat s').
Proof.
  induction n as [|n IH]; intros i s Hi Hb; cbn [for_].
  { unfold runs. cbn. by rewrite Nat.add_0_r. }
  apply runs_bind. eapply runs_mono; [apply Hb; [lia|done]|]. intros [] s1 H1.
  rewrite Nat.add_succ_r. apply (IH (S i) s1 H1). intros j t Hj. apply Hb. lia.
Qed.

(** [wp tol m s Q]: [m] returns with [Q] or busy-waits; it panics or faults
    only if [tol] allows that.  [wp False] is safety, [wp True] is partial
    correctness. *)
Definition wp {S A} (tol : Prop) (m : M S A) (s : S) (Q : A -> S -> Prop) : Prop :=
  match m s with Ok (a, s') => Q a s' | Spin => True | Panic _ | Fault _ => tol end.

Section wp_rules.
Context {S : Type} (tol : Prop).

Lemma wp_ret {A} (a : A) s (Q : A -> S -> Prop) : Q a s -> wp tol (ret a) s Q.
Proof. done. Qed.

Lemma wp_gets {A} (f : S -> A) s Q : Q (f s) s -> wp tol (gets f) s Q.
Proof. done. Qed.

Lemma wp_modify (f : S -> S) s Q : Q () (f s) -> wp tol (modify f) s Q.
Proof. done. Qed.

Lemma wp_deref {A} msg (a : A) s (Q : A -> S -> Prop) : Q a s -> wp tol (deref msg (Some a)) s Q.
Proof. done. Qed.

Lemma wp_bind {A B} (m : M S A) (k : A -> M S B) s Q :
  wp tol m s (fun a s' => wp tol (k a) s' Q) -> wp tol (bind m k) s Q.
Proof. unfold wp, bind. by destruct (m s) as [[a s']| | |]. Qed.

Lemma wp_mono {A} (m : M S A) s (Q Q' : A -> S -> Prop) :
  wp tol m s Q -> (forall a s', Q a s' -> Q' a s') -> wp tol m s Q'.
Proof. unfold wp. destruct (m s) as [[a s']| | |]; auto. Qed.

Lemma wp_eq {A} (m : M S A) s a s' Q : m s = Ok (a, s') -> Q a s' -> wp tol m s Q.
Proof. unfold wp. by intros ->. Qed.

Lemma wp_Ok {A} (m : M S A) s Q a s' : wp tol m s Q -> m s = Ok (a, s') -> Q a s'.
Proof. unfold wp. intros H Heq. by rewrite Heq in H. Qed.

Lemma wp_when (b : bool) (m : M S ()) s Q :
  (b = true -> wp tol m s Q) -> (b = false -> Q () s) -> wp tol (when b m) s Q.
Proof. intros H1 H2. destruct b; [by apply H1|by apply H2]. Qed.

Lemma wp_zoom {T A} (get : S -> T) (put : T -> S -> S) (m : M T A) s Q :
  wp tol m (get s) (fun a t => Q a (put t s)) -> wp tol (zoom get put m) s Q.
Proof. unfold wp, zoom. by destruct (m (get s)) as [[a t]| | |]. Qed.
End wp_rules.

(** [keeps f m]: when [m] returns, the part [f] of the state is as before. *)
Definition keeps {S A T} (f : S -> T) (m : M S A) : Prop :=
  forall s a s', m s = Ok (a, s') -> f s' = f s.

Create HintDb keeps.

Section keeps.
Context {S T : Type} (f : S -> T).

Lemma keeps_ret {A} (a : A) : keeps f (ret a).
Proof. intros s a' s' H. unfold ret in H. by simplify_eq. Qed.
Lemma keeps_gets {A} (g : S -> A) : keeps f (gets g).
Proof. intros s a' s' H. unfold gets in H. by simplify_eq. Qed.
Lemma keeps_panic {A} msg : keeps f (panic (A:=A) msg).
Proof. by intros s a' s' H. Qed.
Lemma keeps_fault {A} msg : keeps f (fault (A:=A) msg).
Proof. by intros s a' s' H. Qed.
Lemma keeps_spin {A} : keeps f (spin (A:=A)).
Proof. by intros s a' s' H. Qed.
Lemma keeps_deref {A} msg (o : option A) : keeps f (deref msg o).
Proof. destruct o; [apply keeps_ret|apply keeps_fault]. Qed.
Lemma keeps_modify (g : S -> S) : (forall s, f (g s) = f s) -> keeps f (modify g).
Proof. intros Hg s a' s' H. unfold modify in H. by simplify_eq. Qed.
Lemma keeps_bind {A B} (m : M S A) (k : A -> M S B) :
  keeps f m -> (forall a, keeps f (k a)) -> keeps f (bind m k).
Proof.
  intros Hm Hk s b s' H. unfold bind in H. destruct (m s) as [[a s1]| | |] eqn:E; try done.
  rewrite (Hk _ _ _ _ H). eauto.
Qed.
Lemma keeps_if {A} (b : bool) (m1 m2 : M S A) :
  keeps f m1 -> keeps f m2 -> keeps f (if b then m1 else m2).
Proof. by destruct b. Qed.
Lemma keeps_when (b : bool) (m : M S ()) : keeps f m -> keeps f (when b m).
Proof. intros. destruct b; [done|apply keeps_ret]. Qed.
Lemma keeps_option {A B} (o : option B) (m1 : B -> M S A) (m2 : M S A) :
  (forall b, keeps f (m1 b)) -> keeps f m2 ->
  keeps f (match o with Some b => m1 b | None => m2 end).
Proof. by destruct o. Qed.
End keeps.

#[export] Hint Resolve keeps_ret keeps_gets keeps_panic keeps_fault keeps_spin keeps_deref
  keeps_when : keeps.
#[export] Hint Resolve keeps_bind keeps_if keeps_option : keeps.
#[export] Hint Extern 1 (keeps _ (modify _)) => apply keeps_modify; done : keeps.
#[export] Hint Extern 0 (forall _, keeps _ _) => intros ? : keeps.
#[export] Hint Extern 1 (keeps _ (match ?x with _ => _ end)) => destruct x : keeps.
Ltac solve_keeps := auto 40 with keeps.


(** [keeps_inv P m]: if [m] returns, it has kept [P]. *)
Definition keeps_inv {S A} (P : S -> Prop) (m : M S A) : Prop := forall s, P s -> leads m s (fun _ s' => P s').

Create HintDb inv.

Section keeps_inv.
Context {S : Type} (P : S -> Prop).

Lemma inv_ret {A} (a : A) : keeps_inv P (ret a).
Proof. by intros s. Qed.
Lemma inv_gets {A} (g : S -> A) : keeps_inv P (gets g).
Proof. by intros s. Qed.
Lemma inv_panic {A} msg : keeps_inv P (panic (A := A) msg).
Proof. by intros s. Qed.
Lemma inv_spin {A} : keeps_inv P (spin (A := A)).
Proof. by intros s. Qed.
Lemma inv_deref {A} msg (o : option A) : keeps_inv P (deref msg o).
Proof. destruct o; by intros s. Qed.
Lemma inv_bind {A B} (m : M S A) (k : A -> M S B) :
  keeps_inv P m -> (forall a, keeps_inv P (k a)) -> keeps_inv P (bind m k).
Proof.
  intros Hm Hk s Hs. apply leads_bind. eapply leads_mono; [by apply Hm|]. intros a s' Hs'. by apply Hk.
Qed.
Lemma inv_if {A} (b : bool) (m1 m2 : M S A) : keeps_inv P m1 -> keeps_inv P m2 -> keeps_inv P (if b then m1 else m2).
Proof. by destruct b. Qed.
Lemma inv_when (b : bool) (m : M S ()) : keeps_inv P m -> keeps_inv P (when b m).
Proof. intros Hm. destruct b; [done|apply inv_ret]. Qed.
End keeps_inv.

#[export] Hint Resolve inv_ret inv_gets inv_panic inv_spin inv_deref inv_when inv_bind inv_if : inv.
#[export] Hint Extern 0 (forall _, keeps_inv _ _) => intros ? : inv.
#[export] Hint Extern 1 (keeps_inv _ (match ?x with _ => _ end)) => destruct x : inv.

Ltac solve_inv := auto 40 with inv.

Lemma keeps_leads {S A T} (f : S -> T) (m : M S A) s : keeps f m -> leads m s (fun _ s' => f s' = f s).
Proof. intros Hm. unfold leads. destruct (m s) as [[a s']| | |] eqn:E; try done. by apply (Hm s a s'). Qed.

(** ** Lists *)

Lemma list_alter_lookup {A} (f : A -> A) (l : list A) i x :
  l !! i = Some x -> alter f i l = <[i := f x]> l.
Proof.
  intros Hx. rewrite list_insert_alter. apply list_eq. intros j.
  destruct (decide (i = j)) as [->|Hne].
  - by rewrite !list_lookup_alter_eq, Hx.
  - by rewrite !list_lookup_alter_ne.
Qed.

(** ** Counting uses

    [delta] with [n] more at [f]. *)
Definition more (f : nat) (n : Z) (delta : nat -> Z) (i : nat) : Z := delta i + (if decide (i = f) then n else 0).

Lemma more_cancel f d i : more f (-1) (more f 1 d) i = d i.
Proof. unfold more. case_decide; lia. Qed.

(** ** Counting

    How many of [lo, lo + 1, ..., lo + n - 1] satisfy [P]. *)
Fixpoint countZ (P : Z -> bool) (lo : Z) (n : nat) : Z :=
  match n with
  | O => 0
  | S n => countZ P lo n + (if P (lo + Z.of_nat n) then 1 else 0)
  end.

Lemma countZ_ext P Q lo n :
  (forall x, lo <= x < lo + Z.of_nat n -> P x = Q x) -> countZ P lo n = countZ Q lo n.
Proof.
  induction n as [|n IH]; intros H; [done|]. cbn. rewrite IH by (intros; apply H; lia).
  by rewrite H by lia.
Qed.

Lemma countZ_interval a b n :
  0 <= a <= b ->
  countZ (fun t => (a <? t) && (t <=? b)) 1 n = Z.min b (Z.of_nat n) - Z.min a (Z.of_nat n).
Proof.
  intros Hab. induction n as [|n IH]; cbn [countZ]; [lia|]. rewrite IH.
  destruct (Z.ltb_spec a (1 + Z.of_nat n)), (Z.leb_spec (1 + Z.of_nat n) b); cbn [andb]; lia.
Qed.

(** Residues modulo [T] in an interval: every full period has [w] of them. *)
Lemma countZ_mod a w T n :
  0 <= a -> 0 <= w -> a + w <= T -> 0 < T ->
  countZ (fun r => (a <=? r mod T) && (r mod T <? a + w)) 0 n =
  w * (Z.of_nat n / T) + (Z.min (a + w) (Z.of_nat n mod T) - Z.min a (Z.of_nat n mod T)).
Proof.
  intros Ha Hw HT HT0. induction n as [|n IH].
  { cbn [countZ]. rewrite Z.div_0_l, Z.mod_0_l by lia. lia. }
  cbn [countZ]. rewrite IH, Z.add_0_l, Nat2Z.inj_succ. unfold Z.succ.
  pose proof (Z.mod_pos_bound (Z.of_nat n) T HT0) as Hm.
  pose proof (Z.div_mod (Z.of_nat n) T ltac:(lia)) as Hd.
  set (q := Z.of_nat n / T) in *. set (s := Z.of_nat n mod T) in *.
  destruct (decide (s + 1 = T)) as [He|Hne].
  - assert (Hq : (Z.of_nat n + 1) / T = q + 1) by (symmetry; apply (Z.div_unique_pos _ _ _ 0); lia).
    assert (Hr : (Z.of_nat n + 1) mod T = 0) by (symmetry; apply (Z.mod_unique_pos _ _ (q + 1)); lia).
    rewrite Hq, Hr. destruct (Z.leb_spec a s), (Z.ltb_spec s (a + w)); cbn [andb]; lia.
  - assert (Hq : (Z.of_nat n + 1) / T = q) by (symmetry; apply (Z.div_unique_pos _ _ _ (s + 1)); lia).
    assert (Hr : (Z.of_nat n + 1) mod T = s + 1) by (symmetry; apply (Z.mod_unique_pos _ _ q); lia).
    rewrite Hq, Hr. destruct (Z.leb_spec a s), (Z.ltb_spec s (a + w)); cbn [andb]; lia.
Qed.
