(* ===== verification/Rand.v ===== *)
(** The pseudo random numbers of [rand.c]. *)

From S2P Require Import Prelude.

(** [rand.h]: [RAND_MAX] is [(1<<31)], an [int]: the shift lands on the
    sign bit. *)
Definition RAND_MAX : Z := s32 (Z.shiftl 1 31).

(** [srand] replaces the static [next]. *)
Definition srand (seed : Z) : Z := u32 seed.

(** [rand] advances [next] and returns its upper half; the pair is the
    returned [int] and the new [next]. *)
Definition rand (next : Z) : Z * Z :=
  let next' := u32 (next * 1103515245 + 12345) in
  (s32 (u32 (next' / 65536) mod u32 RAND_MAX), next').

(** The recurrence on [next] alone. *)
Definition rand_next (next : Z) : Z := u32 (next * 1103515245 + 12345).

Lemma rand_snd next : snd (rand next) = rand_next next.
Proof. reflexivity. Qed.

Lemma rand_fst next : fst (rand next) = rand_next next / 65536.
Proof.
  unfold rand, rand_next; cbn [fst].
  pose proof (u32_range (next * 1103515245 + 12345)) as Hr.
  set (y := u32 (next * 1103515245 + 12345)) in *.
  assert (0 <= y / 65536 < 65536) by (split; [apply Z.div_pos | apply Z.div_lt_upper_bound]; lia).
  change (u32 RAND_MAX) with 2147483648.
  rewrite (u32_small (y / 65536)) by lia.
  rewrite (Z.mod_small (y / 65536)) by lia.
  apply s32_small; lia.
Qed.

Lemma rand_bounds next : 0 <= fst (rand next) < 65536.
Proof.
  rewrite rand_fst. pose proof (u32_range (next * 1103515245 + 12345)).
  unfold rand_next. split; [apply Z.div_pos | apply Z.div_lt_upper_bound]; lia.
Qed.

(** ** The generator has full period

    For a multiplier [a] with [a mod 4 = 1] and an odd increment [c], the
    recurrence [x := a * x + c] modulo [2 ^ k] visits all of [2 ^ k] residues.
    The differences of the orbit are multiples of the geometric sums
    [1 + a + ... + a ^ (d-1)], and such a sum is divisible by [2 ^ k] only
    when [d] is. *)

Lemma odd_pow2_divide (k : nat) (x q : Z) :
  (2 ^ Z.of_nat k | (2 * q + 1) * x) -> (2 ^ Z.of_nat k | x).
Proof.
  revert x. induction k as [|k IH]; intros x [z Hz]; [exists x; cbn; lia|].
  rewrite Nat2Z.inj_succ, Z.pow_succ_r in Hz |- * by lia.
  assert (exists y, x = 2 * y) as [y ->].
  { exists (z * 2 ^ Z.of_nat k - q * x). nia. }
  destruct (IH y) as [w Hw]; [exists z; nia|]. exists w. nia.
Qed.

Section geometric_sums.
Context (a : Z) (Ha : a mod 4 = 1).

Fixpoint geom (n : nat) : Z :=
  match n with O => 0 | S n => a * geom n + 1 end.

Lemma geom_add m n : geom (m + n) = geom m + a ^ Z.of_nat m * geom n.
Proof.
  induction m as [|m IH]; [cbn [geom Nat.add]; change (a ^ Z.of_nat 0) with 1; lia|].
  cbn [Nat.add geom]. rewrite IH, Nat2Z.inj_succ, Z.pow_succ_r by lia. ring.
Qed.

Lemma pow_mod4 n : a ^ Z.of_nat n mod 4 = 1.
Proof.
  induction n as [|n IH]; [done|].
  rewrite Nat2Z.inj_succ, Z.pow_succ_r, Z.mul_mod, IH, Ha by lia. done.
Qed.

Lemma geom_mod2 n : geom n mod 2 = Z.of_nat n mod 2.
Proof.
  induction n as [|n IH]; [done|]. cbn [geom].
  assert (Ha2 : a mod 2 = 1) by (revert Ha; Z.div_mod_to_equations; lia).
  rewrite Z.add_mod, Z.mul_mod, Ha2, IH, Nat2Z.inj_succ by lia.
  Z.div_mod_to_equations; lia.
Qed.

Lemma geom_divide (k d : nat) :
  (2 ^ Z.of_nat k | geom d) -> (2 ^ Z.of_nat k | Z.of_nat d).
Proof.
  revert k. induction (lt_wf d) as [d _ IH]. intros k Hdiv.
  destruct k as [|k]; [exists (Z.of_nat d); cbn; lia|].
  rewrite Nat2Z.inj_succ, Z.pow_succ_r in Hdiv |- * by lia.
  destruct (decide (d = 0%nat)) as [->|Hd0]; [exists 0; lia|].
  assert (Heven : Z.of_nat d mod 2 = 0).
  { rewrite <- geom_mod2. apply Z.mod_divide; [lia|].
    etrans; [|exact Hdiv]. exists (2 ^ Z.of_nat k). lia. }
  apply Z.mod_divide in Heven as [e He]; [|lia].
  set (h := Z.to_nat e). assert (Hd : d = (h + h)%nat) by lia.
  rewrite Hd, geom_add in Hdiv.
  assert (exists q, 1 + a ^ Z.of_nat h = 2 * (2 * q + 1)) as [q Hq].
  { pose proof (pow_mod4 h). exists ((a ^ Z.of_nat h) / 4).
    Z.div_mod_to_equations; lia. }
  assert (Hk : (2 ^ Z.of_nat k | geom h)).
  { apply (odd_pow2_divide _ _ q). destruct Hdiv as [z Hz]. exists z. nia. }
  apply (IH h) in Hk as [z Hz]; [|lia]. exists z. nia.
Qed.
End geometric_sums.

Section full_period.
Context (a c : Z) (Ha : a mod 4 = 1) (Hc : c mod 2 = 1).

(** One step of the recurrence modulo [2 ^ k], and without the modulus. *)
Definition lcg (k : nat) (x : Z) : Z := (x * a + c) mod 2 ^ Z.of_nat k.
Definition lin (x : Z) : Z := x * a + c.

Lemma lin_iter d x : Nat.iter d lin x = x + geom a d * ((a - 1) * x + c).
Proof.
  induction d as [|d IH]; [cbn; lia|].
  change (Nat.iter (S d) lin x) with (lin (Nat.iter d lin x)).
  rewrite IH. unfold lin. cbn [geom]. ring.
Qed.

Lemma lcg_iter k d x :
  0 <= x < 2 ^ Z.of_nat k -> Nat.iter d (lcg k) x = Nat.iter d lin x mod 2 ^ Z.of_nat k.
Proof.
  intros Hx. induction d as [|d IH]; [symmetry; by apply Z.mod_small|].
  change (lcg k (Nat.iter d (lcg k) x) = lin (Nat.iter d lin x) mod 2 ^ Z.of_nat k).
  rewrite IH. unfold lcg, lin.
  rewrite Z.add_mod, Z.mul_mod_idemp_l, <- Z.add_mod by lia. done.
Qed.

(** Two orbit points coincide only at a distance that is a multiple of
    the modulus. *)
Lemma lcg_orbit_inj k m d x :
  0 <= x < 2 ^ Z.of_nat k ->
  Nat.iter (m + d) (lcg k) x = Nat.iter m (lcg k) x ->
  (2 ^ Z.of_nat k | Z.of_nat d).
Proof.
  intros Hx. rewrite !lcg_iter, Nat.add_comm by done.
  rewrite Nat.iter_add. set (y := Nat.iter m lin x). rewrite lin_iter. intros Heq.
  assert (Hdiv : (2 ^ Z.of_nat k | geom a d * ((a - 1) * y + c))).
  { apply Z.mod_divide; [lia|].
    replace (geom a d * ((a - 1) * y + c)) with ((y + geom a d * ((a - 1) * y + c)) - y) by ring.
    rewrite Zminus_mod, Heq, Z.sub_diag. apply Z.mod_0_l. lia. }
  apply (geom_divide a Ha).
  apply (odd_pow2_divide _ _ ((a / 4) * 2 * y + c / 2)).
  replace (2 * (a / 4 * 2 * y + c / 2) + 1) with ((a - 1) * y + c)
    by (Z.div_mod_to_equations; nia).
  by rewrite Z.mul_comm.
Qed.

Lemma lcg_iter_range k d x :
  0 <= x < 2 ^ Z.of_nat k -> 0 <= Nat.iter d (lcg k) x < 2 ^ Z.of_nat k.
Proof. intros Hx. rewrite lcg_iter by done. apply Z.mod_pos_bound. lia. Qed.

(** The orbit of any [x] meets every residue within one period. *)
Lemma lcg_full k x y :
  0 <= x < 2 ^ Z.of_nat k -> 0 <= y < 2 ^ Z.of_nat k ->
  exists n : nat, Z.of_nat n < 2 ^ Z.of_nat k /\ Nat.iter n (lcg k) x = y.
Proof.
  intros Hx Hy. set (P := Z.to_nat (2 ^ Z.of_nat k)).
  set (orbit := (fun n => Nat.iter n (lcg k) x) <$> seq 0 P).
  assert (Hnd : NoDup orbit).
  { apply NoDup_fmap_2_strong; [|apply NoDup_seq].
    intros i j Hi%elem_of_seq Hj%elem_of_seq Heq.
    destruct (Nat.le_ge_cases i j).
    - replace j with (i + (j - i))%nat in Heq by lia.
      symmetry in Heq. apply lcg_orbit_inj in Heq as [z Hz]; [|done].
      assert (z = 0) by nia. lia.
    - replace i with (j + (i - j))%nat in Heq by lia.
      apply lcg_orbit_inj in Heq as [z Hz]; [|done].
      assert (z = 0) by nia. lia. }
  assert (Hin : y ∈ orbit).
  { apply list_elem_of_In.
    apply (NoDup_length_incl (l := orbit) (l' := seqZ 0 (2 ^ Z.of_nat k))).
    - by apply NoDup_ListNoDup.
    - unfold orbit. rewrite length_seqZ, length_fmap, length_seq. done.
    - intros z. rewrite <- !list_elem_of_In, elem_of_seqZ. unfold orbit.
      intros (n & -> & _)%list_elem_of_fmap. pose proof (lcg_iter_range k n x Hx). lia.
    - rewrite <- list_elem_of_In, elem_of_seqZ. lia. }
  apply list_elem_of_fmap in Hin as (n & -> & Hn%elem_of_seq). exists n. split; [lia|done].
Qed.
End full_period.

Lemma rand_next_lcg : forall x, rand_next x = lcg 1103515245 12345 32 x.
Proof. reflexivity. Qed.

(** Whatever its state, the generator comes to every value in [0 .. 65535]
    within its period. *)
Lemma rand_reaches (x r : Z) :
  0 <= r < 65536 ->
  exists n : nat, Z.of_nat n < 2 ^ 32 /\ fst (rand (Nat.iter n rand_next x)) = r.
Proof.
  intros Hr.
  destruct (lcg_full 1103515245 12345 eq_refl eq_refl 32 (rand_next x) (r * 65536))
    as (n & Hn & Heq); [apply u32_range|cbn; lia|].
  exists n. split; [done|].
  rewrite rand_fst, <- Nat.iter_succ, Nat.iter_succ_r.
  change (rand_next) with (lcg 1103515245 12345 32) at 1. rewrite Heq. by apply Z.div_mul.
Qed.
