(* ===== verification/Spinlock.v ===== *)
(** Spin locks, the [pushcli]/[popcli] nesting and the per-CPU state:
    [spinlock.c] and the CPU part of [proc.c]. *)

From S2P Require Import Prelude.

(** ** State *)

(** The statically allocated spin locks of the kernel, one lock per pipe
    and the inner lock of each sleep lock. *)
Inductive lockid : Type :=
| ptable_lock | tickslock | kmem_lock | log_lock | bcache_lock
| icache_lock | ftable_lock | cons_lock | idelock
| pipe_lock (p : Z) | sleep_lk (l : Z).

#[global] Instance lockid_eq_dec : EqDecision lockid.
Proof. solve_decision. Defined.

Definition lockid_code (l : lockid) : Z * Z :=
  match l with
  | ptable_lock => (0, 0) | tickslock => (1, 0) | kmem_lock => (2, 0)
  | log_lock => (3, 0) | bcache_lock => (4, 0) | icache_lock => (5, 0)
  | ftable_lock => (6, 0) | cons_lock => (7, 0) | idelock => (8, 0)
  | pipe_lock p => (9, p) | sleep_lk p => (10, p)
  end.
Definition lockid_decode (x : Z * Z) : lockid :=
  match x.1 with
  | 0 => ptable_lock | 1 => tickslock | 2 => kmem_lock | 3 => log_lock
  | 4 => bcache_lock | 5 => icache_lock | 6 => ftable_lock | 7 => cons_lock
  | 8 => idelock | 9 => pipe_lock x.2 | _ => sleep_lk x.2
  end.
#[global] Instance lockid_countable : Countable lockid.
Proof. refine (inj_countable' lockid_code lockid_decode _). by intros []. Defined.

(** [struct spinlock] without the [pcs] array, which is only printed by the
    debugger.  [cpu] is the index in [cpus] of the holder, or null. *)
Record spinlock := Spinlock { locked : Z; lname : string; lcpu : option nat }.

(** The static locks start out as zeroed memory. *)
Definition spinlock0 : spinlock := Spinlock 0 "" None.

Definition FL_IF : Z := 512.

(** [struct cpu], with the registers of the CPU the kernel code touches:
    the interrupt flag of [eflags], the local APIC id, [cr3], and the
    fields of the task state segment that [switchuvm] writes. *)
Record cpu := Cpu {
  apicid : Z;
  ncli : Z;
  intena : Z;
  cproc : option nat;
  iflag : bool;
  lapic_id : Z;
  cr3 : Z;
  ts_esp0 : Z;
  ts_ss0 : Z;
  ts_iomb : Z
}.

(** What the trace records: lock acquisitions and releases, in order. *)
Inductive lockop : Type := Acq (l : lockid) | Rel (l : lockid).

#[global] Instance lockop_eq_dec : EqDecision lockop.
Proof. solve_decision. Defined.

Record mach := Mach {
  cpus : list cpu;
  locks : gmap lockid spinlock;
  trace : list (nat * lockop)
}.

Definition getlock (m : mach) (l : lockid) : spinlock := default spinlock0 (locks m !! l).
Definition setlock (l : lockid) (k : spinlock) (m : mach) : mach :=
  Mach (cpus m) (<[l := k]> (locks m)) (trace m).
Definition setcpu (c : nat) (k : cpu) (m : mach) : mach :=
  Mach (<[c := k]> (cpus m)) (locks m) (trace m).
Definition log_op (c : nat) (o : lockop) (m : mach) : mach :=
  Mach (cpus m) (locks m) (trace m ++ [(c, o)]).

Definition set_ncli (n : Z) (k : cpu) : cpu :=
  Cpu (apicid k) n (intena k) (cproc k) (iflag k) (lapic_id k) (cr3 k) (ts_esp0 k) (ts_ss0 k) (ts_iomb k).
Definition set_intena (n : Z) (k : cpu) : cpu :=
  Cpu (apicid k) (ncli k) n (cproc k) (iflag k) (lapic_id k) (cr3 k) (ts_esp0 k) (ts_ss0 k) (ts_iomb k).
Definition set_cproc (p : option nat) (k : cpu) : cpu :=
  Cpu (apicid k) (ncli k) (intena k) p (iflag k) (lapic_id k) (cr3 k) (ts_esp0 k) (ts_ss0 k) (ts_iomb k).
Definition set_iflag (b : bool) (k : cpu) : cpu :=
  Cpu (apicid k) (ncli k) (intena k) (cproc k) b (lapic_id k) (cr3 k) (ts_esp0 k) (ts_ss0 k) (ts_iomb k).
Definition set_cr3 (v : Z) (k : cpu) : cpu :=
  Cpu (apicid k) (ncli k) (intena k) (cproc k) (iflag k) (lapic_id k) v (ts_esp0 k) (ts_ss0 k) (ts_iomb k).
Definition set_ts (ss0 esp0 iomb : Z) (k : cpu) : cpu :=
  Cpu (apicid k) (ncli k) (intena k) (cproc k) (iflag k) (lapic_id k) (cr3 k) esp0 ss0 iomb.

(** ** Instructions of the CPU *)

(** The code runs on the CPU with index [c]. *)
Definition this_cpu (c : nat) : M mach cpu :=
  k ← gets (fun m => cpus m !! c); deref "no such cpu" k.

Definition upd_cpu (c : nat) (f : cpu -> cpu) : M mach () :=
  k ← this_cpu c; modify (setcpu c (f k)).

(** [readeflags() & FL_IF] *)
Definition read_if (c : nat) : M mach Z :=
  k ← this_cpu c; ret (if iflag k then FL_IF else 0).
Definition cli (c : nat) : M mach () := upd_cpu c (set_iflag false).
Definition sti (c : nat) : M mach () := upd_cpu c (set_iflag true).

(** ** [mycpu] and [cpuid] *)

(** The loop of [mycpu] over [cpus[0..ncpu-1]]. *)
Fixpoint find_apicid (id : Z) (i : nat) (ks : list cpu) : option nat :=
  match ks with
  | [] => None
  | k :: ks => if apicid k =? id then Some i else find_apicid id (S i) ks
  end.

Definition mycpu (c : nat) : M mach nat :=
  f ← read_if c;
  if negb (f =? 0) then panic "mycpu called with interrupts enabled\n" else
  k ← this_cpu c;
  ks ← gets cpus;
  match find_apicid (lapic_id k) 0 ks with
  | Some i => ret i
  | None => panic "unknown apicid\n"
  end.

Definition cpuid (c : nat) : M mach nat := mycpu c.

(** ** Interrupt nesting *)

Definition pushcli (c : nat) : M mach () :=
  eflags ← read_if c;
  cli c;;
  i ← mycpu c;
  k ← this_cpu i;
  when (ncli k =? 0) (upd_cpu i (set_intena eflags));;
  upd_cpu i (fun k => set_ncli (ncli k + 1) k).

Definition popcli (c : nat) : M mach () :=
  f ← read_if c;
  if negb (f =? 0) then panic "popcli - interruptible" else
  i ← mycpu c;
  upd_cpu i (fun k => set_ncli (ncli k - 1) k);;
  k ← this_cpu i;
  if ncli k <? 0 then panic "popcli" else
  when ((ncli k =? 0) && negb (intena k =? 0)) (sti c).

(** [myproc] reads [c->proc] with interrupts off. *)
Definition myproc (c : nat) : M mach (option nat) :=
  pushcli c;;
  i ← mycpu c;
  k ← this_cpu i;
  popcli c;;
  ret (cproc k).

(** ** Locks *)

Definition initlock (l : lockid) (name : string) : M mach () :=
  modify (setlock l (Spinlock 0 name None)).

Definition holding (c : nat) (l : lockid) : M mach bool :=
  pushcli c;;
  i ← mycpu c;
  r ← gets (fun m => negb (locked (getlock m l) =? 0)
                     && bool_decide (lcpu (getlock m l) = Some i));
  popcli c;;
  ret r.

(** The [xchg] loop: on a free lock it leaves with the lock taken, on a
    taken one it keeps spinning. *)
Definition xchg_loop (c : nat) (l : lockid) : M mach () :=
  k ← gets (fun m => getlock m l);
  if locked k =? 0
  then modify (fun m => log_op c (Acq l) (setlock l (Spinlock 1 (lname k) (lcpu k)) m))
  else spin.

Definition acquire (c : nat) (l : lockid) : M mach () :=
  pushcli c;;
  h ← holding c l;
  if h then panic "acquire" else
  xchg_loop c l;;
  i ← mycpu c;
  modify (fun m => setlock l (Spinlock (locked (getlock m l)) (lname (getlock m l)) (Some i)) m).

Definition release (c : nat) (l : lockid) : M mach () :=
  h ← holding c l;
  if negb h then panic "release" else
  modify (fun m => setlock l (Spinlock (locked (getlock m l)) (lname (getlock m l)) None) m);;
  modify (fun m => log_op c (Rel l)
                     (setlock l (Spinlock 0 (lname (getlock m l)) (lcpu (getlock m l))) m));;
  popcli c.

(** ** Well-formed machines *)

(** [mpinit] has entered every CPU once, under its own APIC id. *)
Definition mach_wf (m : mach) : Prop :=
  NoDup (apicid <$> cpus m) /\ Forall (fun k => apicid k = lapic_id k) (cpus m).

(** Interrupts are off while the nesting depth is positive. *)
Definition cpu_ok (k : cpu) : Prop :=
  0 <= ncli k /\ (0 < ncli k -> iflag k = false).

(** The effect of [pushcli] and [popcli] on the CPU that runs them. *)
Definition pushed (k : cpu) : cpu :=
  let k1 := set_iflag false k in
  let k2 := if ncli k =? 0 then set_intena (if iflag k then FL_IF else 0) k1 else k1 in
  set_ncli (ncli k + 1) k2.
Definition popped (k : cpu) : cpu :=
  let k1 := set_ncli (ncli k - 1) k in
  if (ncli k - 1 =? 0) && negb (intena k =? 0) then set_iflag true k1 else k1.

Definition held_by (m : mach) (c : nat) (l : lockid) : bool :=
  negb (locked (getlock m l) =? 0) && bool_decide (lcpu (getlock m l) = Some c).

Create Rewrite HintDb mach.

Lemma setcpu_setcpu c k1 k2 m : setcpu c k2 (setcpu c k1 m) = setcpu c k2 m.
Proof. unfold setcpu; cbn. by rewrite list_insert_insert_eq. Qed.

Lemma setcpu_id c k m : cpus m !! c = Some k -> setcpu c k m = m.
Proof. intros H. unfold setcpu. rewrite list_insert_id by done. by destruct m. Qed.

Lemma lookup_setcpu c k k' m : cpus m !! c = Some k -> cpus (setcpu c k' m) !! c = Some k'.
Proof. intros H. apply list_lookup_insert_eq. by eapply lookup_lt_Some. Qed.

Lemma lookup_setcpu_ne c c' k m : c <> c' -> cpus (setcpu c k m) !! c' = cpus m !! c'.
Proof. intros H. by apply list_lookup_insert_ne. Qed.

Lemma getlock_setlock l k m : getlock (setlock l k m) l = k.
Proof. unfold getlock, setlock; cbn. by rewrite lookup_insert_eq. Qed.

Lemma getlock_setlock_ne l l' k m : l <> l' -> getlock (setlock l k m) l' = getlock m l'.
Proof. intros H. unfold getlock, setlock; cbn. by rewrite lookup_insert_ne. Qed.

Lemma setlock_setlock l k1 k2 m : setlock l k2 (setlock l k1 m) = setlock l k2 m.
Proof. unfold setlock; cbn. by rewrite insert_insert_eq. Qed.

Lemma getlock_setcpu c k l m : getlock (setcpu c k m) l = getlock m l.
Proof. done. Qed.
Lemma getlock_log_op c o l m : getlock (log_op c o m) l = getlock m l.
Proof. done. Qed.

#[export] Hint Rewrite getlock_setlock setlock_setlock getlock_setcpu getlock_log_op
  setcpu_setcpu : mach.

Lemma mach_wf_setcpu c k k' m :
  mach_wf m -> cpus m !! c = Some k -> apicid k' = apicid k -> lapic_id k' = lapic_id k ->
  mach_wf (setcpu c k' m).
Proof.
  intros [Hnd Hall] Hk H1 H2. unfold mach_wf, setcpu; cbn. split.
  - rewrite list_fmap_insert, H1, list_insert_id; [done|].
    by rewrite list_lookup_fmap, Hk.
  - apply Forall_insert; [done|]. rewrite H1, H2.
    rewrite Forall_lookup in Hall. eauto.
Qed.

Lemma pushed_ids k : apicid (pushed k) = apicid k /\ lapic_id (pushed k) = lapic_id k.
Proof. unfold pushed. by destruct (ncli k =? 0). Qed.
Lemma popped_ids k : apicid (popped k) = apicid k /\ lapic_id (popped k) = lapic_id k.
Proof. unfold popped. by destruct (_ && _). Qed.

Lemma find_apicid_correct ks i c k :
  NoDup (apicid <$> ks) -> ks !! c = Some k -> find_apicid (apicid k) i ks = Some (i + c)%nat.
Proof.
  revert i c. induction ks as [|k0 ks IH]; intros i c Hnd Hk; [done|].
  cbn in *. apply NoDup_cons in Hnd as [Hnin Hnd]. destruct c as [|c]; cbn in Hk.
  - simplify_eq. rewrite Z.eqb_refl. f_equal; lia.
  - destruct (Z.eqb_spec (apicid k0) (apicid k)) as [Heq|_].
    + exfalso. apply Hnin. rewrite Heq. apply list_elem_of_fmap. exists k. split; [done|].
      by eapply list_elem_of_lookup_2.
    + rewrite (IH (S i) c); [f_equal; lia|done..].
Qed.

Lemma this_cpu_eq c k m : cpus m !! c = Some k -> this_cpu c m = Ok (k, m).
Proof. intros H. unfold this_cpu, bind, gets. by rewrite H. Qed.

Lemma upd_cpu_eq c f k m : cpus m !! c = Some k -> upd_cpu c f m = Ok ((), setcpu c (f k) m).
Proof. intros H. unfold upd_cpu, bind. by rewrite (this_cpu_eq c k). Qed.

Lemma read_if_eq c k m : cpus m !! c = Some k -> read_if c m = Ok (if iflag k then FL_IF else 0, m).
Proof. intros H. unfold read_if, bind. by rewrite (this_cpu_eq c k). Qed.

Lemma mycpu_eq c k m :
  mach_wf m -> cpus m !! c = Some k -> iflag k = false -> mycpu c m = Ok (c, m).
Proof.
  intros [Hnd Hall] Hk Hif. unfold mycpu.
  erewrite bind_Ok by (by apply read_if_eq). rewrite Hif. cbn.
  erewrite bind_Ok by (by apply this_cpu_eq). unfold bind, gets.
  rewrite Forall_lookup in Hall. rewrite <- (Hall _ _ Hk).
  by rewrite (find_apicid_correct _ _ c).
Qed.

Lemma mycpu_interruptible c k m :
  cpus m !! c = Some k -> iflag k = true ->
  mycpu c m = Panic "mycpu called with interrupts enabled\n".
Proof.
  intros Hk Hif. unfold mycpu. erewrite bind_Ok by (by apply read_if_eq). by rewrite Hif.
Qed.

Lemma pushcli_eq c k m :
  mach_wf m -> cpus m !! c = Some k -> pushcli c m = Ok ((), setcpu c (pushed k) m).
Proof.
  intros Hwf Hk. unfold pushcli.
  erewrite bind_Ok by (by apply read_if_eq).
  erewrite bind_Ok by (by apply upd_cpu_eq).
  assert (Hk1 := lookup_setcpu c k (set_iflag false k) m Hk).
  erewrite bind_Ok by (eapply mycpu_eq; [by eapply mach_wf_setcpu|done|done]).
  erewrite bind_Ok by (by apply this_cpu_eq).
  unfold pushed. change (ncli (set_iflag false k)) with (ncli k).
  destruct (ncli k =? 0); cbn [when].
  - erewrite bind_Ok by (by apply upd_cpu_eq).
    erewrite upd_cpu_eq by (by eapply lookup_setcpu). by autorewrite with mach.
  - erewrite bind_Ok by reflexivity.
    erewrite upd_cpu_eq by done. by autorewrite with mach.
Qed.

Lemma popcli_eq c k m :
  mach_wf m -> cpus m !! c = Some k -> iflag k = false -> 1 <= ncli k ->
  popcli c m = Ok ((), setcpu c (popped k) m).
Proof.
  intros Hwf Hk Hif Hn. unfold popcli.
  erewrite bind_Ok by (by apply read_if_eq). rewrite Hif. cbn [negb Z.eqb].
  erewrite bind_Ok by (by eapply mycpu_eq).
  erewrite bind_Ok by (by apply upd_cpu_eq).
  assert (Hk1 := lookup_setcpu c k (set_ncli (ncli k - 1) k) m Hk).
  erewrite bind_Ok by (by apply this_cpu_eq).
  unfold popped. change (ncli (set_ncli (ncli k - 1) k)) with (ncli k - 1).
  change (intena (set_ncli (ncli k - 1) k)) with (intena k).
  rewrite (proj2 (Z.ltb_ge _ _)) by lia.
  destruct (_ && _); cbn [when]; [|done].
  unfold sti. erewrite upd_cpu_eq by done. by autorewrite with mach.
Qed.

(** [popcli] panics when it is not matched by a [pushcli]. *)
Lemma popcli_unmatched c k m :
  mach_wf m -> cpus m !! c = Some k -> iflag k = false -> ncli k <= 0 ->
  popcli c m = Panic "popcli".
Proof.
  intros Hwf Hk Hif Hn. unfold popcli.
  erewrite bind_Ok by (by apply read_if_eq). rewrite Hif. cbn [negb Z.eqb].
  erewrite bind_Ok by (by eapply mycpu_eq).
  erewrite bind_Ok by (by apply upd_cpu_eq).
  erewrite bind_Ok by (apply this_cpu_eq; by eapply lookup_setcpu).
  change (ncli (set_ncli (ncli k - 1) k)) with (ncli k - 1).
  by rewrite (proj2 (Z.ltb_lt _ _)) by lia.
Qed.

Lemma pushed_off k : iflag (pushed k) = false.
Proof. unfold pushed. by destruct (ncli k =? 0). Qed.
Lemma pushed_ncli k : ncli (pushed k) = ncli k + 1.
Proof. unfold pushed. by destruct (ncli k =? 0). Qed.
Lemma pushed_cproc k : cproc (pushed k) = cproc k.
Proof. unfold pushed. by destruct (ncli k =? 0). Qed.
Lemma popped_ncli k : ncli (popped k) = ncli k - 1.
Proof. unfold popped. by destruct (_ && _). Qed.
Lemma popped_cproc k : cproc (popped k) = cproc k.
Proof. unfold popped. by destruct (_ && _). Qed.

#[export] Hint Rewrite pushed_off pushed_ncli pushed_cproc popped_ncli popped_cproc : mach.

(** With interrupts already off by an outer [pushcli], a matched pair
    changes nothing. *)
Lemma popped_pushed k : cpu_ok k -> 0 < ncli k -> popped (pushed k) = k.
Proof.
  intros [_ Hoff] Hn. specialize (Hoff Hn). unfold popped. autorewrite with mach.
  rewrite (proj2 (Z.eqb_neq _ _)) by lia. cbn [andb].
  unfold pushed. rewrite (proj2 (Z.eqb_neq _ _)) by lia.
  destruct k; cbn in *; subst. unfold set_ncli, set_iflag; cbn. f_equal; lia.
Qed.

(** At depth zero the pair restores the interrupt flag; only the scratch
    field [intena] remembers it. *)
Lemma popped_pushed_0 k :
  ncli k = 0 -> popped (pushed k) = set_intena (if iflag k then FL_IF else 0) k.
Proof.
  intros Hn. destruct k as [aa n i cp f li r e s b]; cbn in *; subst n.
  by destruct f.
Qed.

Lemma cpu_ok_pushed k : cpu_ok k -> cpu_ok (pushed k).
Proof. intros [H0 _]. unfold cpu_ok. autorewrite with mach. split; [lia|done]. Qed.

Lemma cpu_ok_popped k : cpu_ok k -> 1 <= ncli k -> cpu_ok (popped k).
Proof.
  intros [H0 Hoff] Hn. unfold cpu_ok. autorewrite with mach. split; [lia|].
  intros Hpos. unfold popped. rewrite (proj2 (Z.eqb_neq _ _)) by lia. cbn. apply Hoff; lia.
Qed.

Lemma holding_eq c l k m :
  mach_wf m -> cpus m !! c = Some k -> cpu_ok k ->
  holding c l m = Ok (held_by m c l, setcpu c (popped (pushed k)) m).
Proof.
  intros Hwf Hk Hok. unfold holding.
  erewrite bind_Ok by (by apply pushcli_eq).
  assert (Hwf1 : mach_wf (setcpu c (pushed k) m))
    by (eapply mach_wf_setcpu; [done|done|apply pushed_ids..]).
  assert (Hk1 := lookup_setcpu c k (pushed k) m Hk).
  erewrite bind_Ok by (eapply mycpu_eq; [done|done|apply pushed_off]).
  erewrite bind_Ok by reflexivity.
  erewrite bind_Ok by (eapply popcli_eq; [done|done|apply pushed_off|];
    rewrite pushed_ncli; destruct Hok; lia).
  by autorewrite with mach.
Qed.

(** Inside an outer [pushcli] the test has no side effect. *)
Lemma holding_nested c l k m :
  mach_wf m -> cpus m !! c = Some k -> cpu_ok k -> 0 < ncli k ->
  holding c l m = Ok (held_by m c l, m).
Proof.
  intros Hwf Hk Hok Hn. erewrite holding_eq by done.
  by rewrite popped_pushed, setcpu_id.
Qed.

(** ** What [acquire] and [release] do *)

Definition acquired (c : nat) (l : lockid) (k : cpu) (m : mach) : mach :=
  log_op c (Acq l)
    (setlock l (Spinlock 1 (lname (getlock m l)) (Some c)) (setcpu c (pushed k) m)).
Definition released (c : nat) (l : lockid) (k : cpu) (m : mach) : mach :=
  log_op c (Rel l)
    (setlock l (Spinlock 0 (lname (getlock m l)) None) (setcpu c (popped k) m)).

Section lock_ops.
Context (c : nat) (l : lockid) (k : cpu) (m : mach).
Context (Hwf : mach_wf m) (Hk : cpus m !! c = Some k) (Hok : cpu_ok k).

Let m1 := setcpu c (pushed k) m.

Lemma acquire_enter : 
  acquire c l m =
  (if held_by m c l then panic "acquire" else
   xchg_loop c l;; i ← mycpu c;
   modify (fun m => setlock l (Spinlock (locked (getlock m l)) (lname (getlock m l)) (Some i)) m)) m1.
Proof.
  unfold acquire. erewrite bind_Ok by (by apply pushcli_eq). fold m1.
  erewrite bind_Ok; [|apply (holding_nested c l (pushed k))]; [reflexivity|..].
  - eapply mach_wf_setcpu; [done|done|apply pushed_ids..].
  - by eapply lookup_setcpu.
  - by apply cpu_ok_pushed.
  - rewrite pushed_ncli. destruct Hok; lia.
Qed.

Lemma acquire_free : locked (getlock m l) = 0 -> acquire c l m = Ok ((), acquired c l k m).
Proof.
  intros Hfree. rewrite acquire_enter. unfold held_by. rewrite Hfree. cbn [Z.eqb negb andb].
  assert (Hx : xchg_loop c l m1 =
    Ok ((), log_op c (Acq l)
              (setlock l (Spinlock 1 (lname (getlock m l)) (lcpu (getlock m l))) m1))).
  { unfold xchg_loop, bind, gets. unfold m1. autorewrite with mach. by rewrite Hfree. }
  erewrite bind_Ok by exact Hx.
  erewrite bind_Ok.
  2: { apply (mycpu_eq c (pushed k)); [|by eapply (lookup_setcpu c k)|apply pushed_off].
       eapply mach_wf_setcpu; [done|done|apply pushed_ids..]. }
  unfold modify, acquired. autorewrite with mach. cbn [locked lname].
  do 2 f_equal. unfold m1, log_op, setlock, setcpu; cbn.
  by rewrite insert_insert_eq.
Qed.

Lemma acquire_self : held_by m c l = true -> acquire c l m = Panic "acquire".
Proof. intros Hh. rewrite acquire_enter. by rewrite Hh. Qed.

Lemma acquire_busy :
  locked (getlock m l) <> 0 -> lcpu (getlock m l) <> Some c -> acquire c l m = Spin.
Proof.
  intros Hl Hc. rewrite acquire_enter. unfold held_by.
  rewrite bool_decide_eq_false_2, andb_false_r by done.
  unfold bind, xchg_loop, gets, m1. autorewrite with mach.
  unfold bind. autorewrite with mach.
  by rewrite (proj2 (Z.eqb_neq _ _)).
Qed.

Lemma release_held :
  held_by m c l = true -> 0 < ncli k -> release c l m = Ok ((), released c l k m).
Proof.
  intros Hh Hn. unfold release.
  erewrite bind_Ok by (by eapply holding_nested). rewrite Hh. cbn [negb].
  erewrite bind_Ok by reflexivity. erewrite bind_Ok by reflexivity.
  destruct Hok as [_ Hoff].
  erewrite popcli_eq; [|exact Hwf|exact Hk|auto|lia].
  unfold released. autorewrite with mach. cbn [lname lcpu].
  by do 2 f_equal.
Qed.

Lemma release_not_held : held_by m c l = false -> release c l m = Panic "release".
Proof.
  intros Hh. unfold release. erewrite bind_Ok by (by eapply holding_eq). by rewrite Hh.
Qed.
End lock_ops.

(** ** Matched [pushcli]/[popcli] *)

Inductive cliop : Type := Push | Pop.

Fixpoint run_cli (c : nat) (ops : list cliop) : M mach () :=
  match ops with
  | [] => ret ()
  | Push :: ops => pushcli c;; run_cli c ops
  | Pop :: ops => popcli c;; run_cli c ops
  end.

(** The nesting depth after [ops], if no prefix of it pops too much. *)
Fixpoint depth_after (d : nat) (ops : list cliop) : option nat :=
  match ops with
  | [] => Some d
  | Push :: ops => depth_after (S d) ops
  | Pop :: ops => match d with O => None | S d => depth_after d ops end
  end.

(** A CPU that entered the outermost [pushcli] with interrupt flag [b] and
    is now at depth [d]. *)
Definition nested_at (b : bool) (d : nat) (k : cpu) : Prop :=
  ncli k = Z.of_nat d /\
  match d with
  | O => iflag k = b
  | S _ => iflag k = false /\ intena k = if b then FL_IF else 0
  end.

Lemma nested_at_pushed b d k : nested_at b d k -> nested_at b (S d) (pushed k).
Proof.
  intros [Hn Hd]. split; [rewrite pushed_ncli; lia|].
  split; [apply pushed_off|]. unfold pushed. destruct d as [|d].
  - rewrite Hn. cbn. by rewrite Hd.
  - rewrite (proj2 (Z.eqb_neq _ _)) by lia. cbn. apply Hd.
Qed.

Lemma nested_at_popped b d k : nested_at b (S d) k -> nested_at b d (popped k).
Proof.
  intros (Hn & Hf & Hi). split; [rewrite popped_ncli; lia|].
  unfold popped. rewrite Hi. destruct d as [|d].
  - rewrite Hn. by destruct b.
  - rewrite (proj2 (Z.eqb_neq _ _)) by lia. by split.
Qed.

(** Matched [pushcli] and [popcli] nest: after any sequence that never pops
    below its start the depth is the number of open pushes, interrupts are off
    while it is positive, and at depth zero the interrupt flag is what it was.
    *)
Lemma run_cli_nested c ops b d d' k m :
  mach_wf m -> cpus m !! c = Some k -> nested_at b d k -> depth_after d ops = Some d' ->
  exists k', run_cli c ops m = Ok ((), setcpu c k' m) /\ nested_at b d' k'.
Proof.
  revert d k m. induction ops as [|[] ops IH]; intros d k m Hwf Hk Hd Hdepth; cbn in *.
  - exists k. simplify_eq. by rewrite setcpu_id.
  - erewrite bind_Ok by (by apply pushcli_eq).
    destruct (IH (S d) (pushed k) (setcpu c (pushed k) m)) as (k' & Hrun & Hk');
      [eapply mach_wf_setcpu; [done|done|apply pushed_ids..]|by eapply lookup_setcpu
      |by apply nested_at_pushed|done|].
    exists k'. rewrite Hrun. by autorewrite with mach.
  - destruct d as [|d]; [done|]. destruct (Hd) as (Hn & Hf & _).
    erewrite bind_Ok by (apply popcli_eq; [done|done|done|lia]).
    destruct (IH d (popped k) (setcpu c (popped k) m)) as (k' & Hrun & Hk');
      [eapply mach_wf_setcpu; [done|done|apply popped_ids..]|by eapply lookup_setcpu
      |by apply nested_at_popped|done|].
    exists k'. rewrite Hrun. by autorewrite with mach.
Qed.

(** ** Interleavings of the CPUs

    Each CPU executes a sequence of lock operations.  [acquire] is the
    prologue up to the [xchg] loop, the successful [xchg], and the store to
    [lk->cpu]; [release] is the store to [lk->cpu] and the store that frees
    the lock.  Between any two of these steps other CPUs move. *)

Inductive lphase : Type :=
| Computing | Spinning (l : lockid) | Taken (l : lockid) | Releasing (l : lockid).

(** [held] is the set of locks whose critical section the CPU is in: from
    the successful [xchg] to the store that frees the lock. *)
Record core := Core { prog : list lockop; ph : lphase; held : list lockid }.

Definition acquire_prologue (c : nat) (l : lockid) : M mach bool :=
  pushcli c;; holding c l.

Definition set_lcpu (l : lockid) (o : option nat) (m : mach) : mach :=
  setlock l (Spinlock (locked (getlock m l)) (lname (getlock m l)) o) m.
Definition free_lock (l : lockid) (m : mach) : mach :=
  setlock l (Spinlock 0 (lname (getlock m l)) (lcpu (getlock m l))) m.

Inductive lstep : mach * list core -> mach * list core -> Prop :=
| L_enter c l r h m m' ks :
    ks !! c = Some (Core (Acq l :: r) Computing h) ->
    acquire_prologue c l m = Ok (false, m') ->
    lstep (m, ks) (m', <[c := Core (Acq l :: r) (Spinning l) h]> ks)
| L_spin c l r h m ks :
    ks !! c = Some (Core r (Spinning l) h) ->
    xchg_loop c l m = Spin ->
    lstep (m, ks) (m, ks)
| L_take c l r h m m' ks :
    ks !! c = Some (Core r (Spinning l) h) ->
    xchg_loop c l m = Ok ((), m') ->
    lstep (m, ks) (m', <[c := Core r (Taken l) (l :: h)]> ks)
| L_record c l o r h m ks :
    ks !! c = Some (Core (o :: r) (Taken l) h) ->
    lstep (m, ks) (set_lcpu l (Some c) m, <[c := Core r Computing h]> ks)
| L_unrecord c l r h m m' ks :
    ks !! c = Some (Core (Rel l :: r) Computing h) ->
    holding c l m = Ok (true, m') ->
    lstep (m, ks) (set_lcpu l None m', <[c := Core (Rel l :: r) (Releasing l) h]> ks)
| L_free c l o r h m m' ks :
    ks !! c = Some (Core (o :: r) (Releasing l) h) ->
    popcli c (log_op c (Rel l) (free_lock l m)) = Ok ((), m') ->
    lstep (m, ks) (m', <[c := Core r Computing (filter (fun x => x <> l) h)]> ks).

Lemma acquire_split c l m :
  acquire c l m =
  (h ← acquire_prologue c l;
   if h then panic "acquire" else
   xchg_loop c l;; i ← mycpu c; modify (set_lcpu l (Some i))) m.
Proof.
  unfold acquire, acquire_prologue, bind. by destruct (pushcli c m) as [[]| | |].
Qed.

(** ** Mutual exclusion *)

Lemma keeps_this_cpu {T} (f : mach -> T) c : keeps f (this_cpu c).
Proof. unfold this_cpu. auto with keeps. Qed.
Lemma keeps_upd_cpu c g : keeps locks (upd_cpu c g).
Proof. unfold upd_cpu. auto using keeps_this_cpu with keeps. Qed.
#[export] Hint Resolve keeps_this_cpu keeps_upd_cpu : keeps.

Lemma keeps_mycpu c : keeps locks (mycpu c).
Proof. unfold mycpu, read_if. auto 8 with keeps. Qed.
#[export] Hint Resolve keeps_mycpu : keeps.
Lemma keeps_pushcli c : keeps locks (pushcli c).
Proof. unfold pushcli, read_if, cli. auto 12 with keeps. Qed.
Lemma keeps_popcli c : keeps locks (popcli c).
Proof. unfold popcli, read_if, sti. auto 12 with keeps. Qed.
#[export] Hint Resolve keeps_pushcli keeps_popcli : keeps.
Lemma keeps_holding c l : keeps locks (holding c l).
Proof. unfold holding. auto 12 with keeps. Qed.
#[export] Hint Resolve keeps_holding : keeps.
Lemma keeps_prologue c l : keeps locks (acquire_prologue c l).
Proof. unfold acquire_prologue. auto with keeps. Qed.

(** The APIC ids, which no lock operation changes. *)
Definition ids (m : mach) : list (Z * Z) := (fun k => (apicid k, lapic_id k)) <$> cpus m.

Lemma mach_wf_ids m m' : ids m' = ids m -> mach_wf m -> mach_wf m'.
Proof.
  unfold ids, mach_wf. intros Heq [Hnd Hall].
  assert (H1 : apicid <$> cpus m' = apicid <$> cpus m).
  { apply (f_equal (fmap fst)) in Heq. by rewrite <- !list_fmap_compose in Heq. }
  rewrite H1. split; [done|].
  rewrite Forall_lookup in Hall |- *. intros i k Hk.
  apply (f_equal (.!! i)) in Heq. rewrite !list_lookup_fmap, Hk in Heq.
  destruct (cpus m !! i) as [k0|] eqn:E; [|done]. cbn in Heq. simplify_eq.
  specialize (Hall _ _ E). congruence.
Qed.

Lemma keeps_ids_upd_cpu c g :
  (forall k, apicid (g k) = apicid k /\ lapic_id (g k) = lapic_id k) -> keeps ids (upd_cpu c g).
Proof.
  intros Hg m [] m' H. unfold upd_cpu, bind, this_cpu, bind, gets, deref in H.
  destruct (cpus m !! c) as [k|] eqn:E; [|done]. unfold modify in H. cbn in H. simplify_eq.
  unfold ids, setcpu; cbn. rewrite list_fmap_insert. apply list_insert_id.
  rewrite list_lookup_fmap, E. cbn. destruct (Hg k) as [-> ->]. done.
Qed.
#[export] Hint Extern 1 (keeps ids (upd_cpu _ _)) => apply keeps_ids_upd_cpu; done : keeps.

Lemma keeps_ids_mycpu c : keeps ids (mycpu c).
Proof. unfold mycpu, read_if. auto 8 with keeps. Qed.
#[export] Hint Resolve keeps_ids_mycpu : keeps.
Lemma keeps_ids_pushcli c : keeps ids (pushcli c).
Proof. unfold pushcli, read_if, cli. auto 12 with keeps. Qed.
Lemma keeps_ids_popcli c : keeps ids (popcli c).
Proof. unfold popcli, read_if, sti. auto 12 with keeps. Qed.
#[export] Hint Resolve keeps_ids_pushcli keeps_ids_popcli : keeps.
Lemma keeps_ids_holding c l : keeps ids (holding c l).
Proof. unfold holding. auto 12 with keeps. Qed.
#[export] Hint Resolve keeps_ids_holding : keeps.
Lemma keeps_ids_prologue c l : keeps ids (acquire_prologue c l).
Proof. unfold acquire_prologue. auto with keeps. Qed.

Lemma mycpu_inv c m i m' : mach_wf m -> mycpu c m = Ok (i, m') -> i = c /\ m' = m.
Proof.
  intros Hwf H. destruct (cpus m !! c) as [k|] eqn:Hk.
  - destruct (iflag k) eqn:Hif.
    + by rewrite (mycpu_interruptible c k) in H.
    + rewrite (mycpu_eq c k) in H by done. by simplify_eq.
  - unfold mycpu, bind, read_if, bind, this_cpu, bind, gets, deref in H. by rewrite Hk in H.
Qed.

Lemma holding_true c l m m' :
  mach_wf m -> holding c l m = Ok (true, m') ->
  locked (getlock m l) <> 0 /\ lcpu (getlock m l) = Some c.
Proof.
  intros Hwf H. unfold holding, bind in H.
  destruct (pushcli c m) as [[[] m1]| | |] eqn:E1; try done.
  assert (Hl : locks m1 = locks m) by (by eapply keeps_pushcli).
  assert (Hwf1 : mach_wf m1) by (eapply mach_wf_ids; [by eapply keeps_ids_pushcli|done]).
  destruct (mycpu c m1) as [[i m2]| | |] eqn:E2; try done.
  apply mycpu_inv in E2 as [-> ->]; [|done]. unfold gets in H.
  destruct (popcli c m1) as [[[] m3]| | |]; try done. unfold ret in H. simplify_eq.
  unfold getlock in *. rewrite Hl in *.
  apply andb_prop in H as [H1 H2]. apply bool_decide_eq_true in H2. split; [|done].
  intros H0. by rewrite H0 in H1.
Qed.

Record lock_inv (m : mach) (ks : list core) : Prop := {
  li_wf : mach_wf m;
  li_locked : forall c k l, ks !! c = Some k -> l ∈ held k -> locked (getlock m l) <> 0;
  li_excl : forall c1 c2 k1 k2 l, ks !! c1 = Some k1 -> ks !! c2 = Some k2 ->
    l ∈ held k1 -> l ∈ held k2 -> c1 = c2;
  li_owner : forall c l, lcpu (getlock m l) = Some c -> exists k, ks !! c = Some k /\ l ∈ held k;
  li_taken : forall c k l, ks !! c = Some k -> ph k = Taken l -> l ∈ held k;
  li_releasing : forall c k l, ks !! c = Some k -> ph k = Releasing l ->
    l ∈ held k /\ lcpu (getlock m l) = None
}.

(** A step of CPU [c] that only changes the machine outside the locks and
    the phase of [c] keeps the invariant. *)
Lemma lock_inv_phase m m' ks c r p h r' p' :
  lock_inv m ks -> ids m' = ids m -> locks m' = locks m ->
  ks !! c = Some (Core r p h) ->
  (forall l, p' = Taken l -> l ∈ h) ->
  (forall l, p' = Releasing l -> l ∈ h /\ lcpu (getlock m l) = None) ->
  lock_inv m' (<[c := Core r' p' h]> ks).
Proof.
  intros [Hwf Hlk Hex Hown Htk Hrl] Hids Hlocks Hc Htk' Hrl'.
  assert (Hg : forall l, getlock m' l = getlock m l) by (intros; unfold getlock; by rewrite Hlocks).
  assert (Hh : forall c0 k0, <[c := Core r' p' h]> ks !! c0 = Some k0 ->
             exists k1, ks !! c0 = Some k1 /\ held k0 = held k1 /\
             (c0 = c /\ k0 = Core r' p' h \/ c0 <> c /\ k0 = k1)).
  { intros c0 k0 [(<- & <- & _)|[Hne H0]]%list_lookup_insert_Some.
    - exists (Core r p h). auto.
    - exists k0. auto. }
  split.
  - by eapply mach_wf_ids.
  - intros c0 k l (k1 & Hk1 & -> & _)%Hh Hin. rewrite Hg. eauto.
  - intros c1 c2 k1 k2 l (k1' & Hk1 & -> & _)%Hh (k2' & Hk2 & -> & _)%Hh. eauto.
  - intros c0 l Hl. rewrite Hg in Hl. destruct (Hown _ _ Hl) as (k & Hk & Hin).
    destruct (decide (c0 = c)) as [->|Hne].
    + simplify_eq. exists (Core r' p' h). split; [|done].
      apply list_lookup_insert_eq. by eapply lookup_lt_Some.
    + exists k. split; [|done]. by rewrite list_lookup_insert_ne.
  - intros c0 k l (k1 & Hk1 & _ & [[-> ->]|[Hne ->]])%Hh; eauto.
  - intros c0 k l (k1 & Hk1 & _ & [[-> ->]|[Hne ->]])%Hh; rewrite Hg; eauto.
Qed.

(** A step of CPU [c] on lock [l], which no other CPU is inside of. *)
Lemma lock_inv_lock m m' ks c l r p h r' p' h' :
  lock_inv m ks -> ids m' = ids m ->
  (forall l', l' <> l -> getlock m' l' = getlock m l') ->
  ks !! c = Some (Core r p h) ->
  (forall l', l' <> l -> l' ∈ h' <-> l' ∈ h) ->
  (forall c' k, c' <> c -> ks !! c' = Some k -> l ∉ held k) ->
  (l ∈ h' -> locked (getlock m' l) <> 0) ->
  (forall c', lcpu (getlock m' l) = Some c' -> c' = c /\ l ∈ h') ->
  (forall l', p' = Taken l' -> l' ∈ h') ->
  (forall l', p' = Releasing l' -> l' ∈ h' /\ lcpu (getlock m' l') = None) ->
  lock_inv m' (<[c := Core r' p' h']> ks).
Proof.
  intros [Hwf Hlk Hex Hown Htk Hrl] Hids Hne Hc Hh Hothers Hlocked Hcpu Htk' Hrl'.
  assert (Hupd : forall c0 k0, <[c := Core r' p' h']> ks !! c0 = Some k0 ->
             c0 = c /\ k0 = Core r' p' h' \/ c0 <> c /\ ks !! c0 = Some k0).
  { intros c0 k0 [(<- & <- & _)|[Hn H0]]%list_lookup_insert_Some; auto. }
  assert (Hother : forall c0 k0 l0, c0 <> c -> ks !! c0 = Some k0 -> l0 ∈ held k0 ->
             getlock m' l0 = getlock m l0 /\ l0 <> l).
  { intros c0 k0 l0 Hn Hk0 Hin. assert (l0 <> l) by (intros ->; by eapply Hothers). auto. }
  split.
  - by eapply mach_wf_ids.
  - intros c0 k0 l0 [[-> ->]|[Hn Hk0]]%Hupd Hin; cbn in Hin.
    + destruct (decide (l0 = l)) as [->|Hl]; [auto|]. rewrite Hne by done.
      eapply Hlk; [exact Hc|]. by apply Hh.
    + destruct (Hother c0 k0 l0) as [-> _]; eauto.
  - intros c1 c2 k1 k2 l0 [[-> ->]|[Hn1 Hk1]]%Hupd [[-> ->]|[Hn2 Hk2]]%Hupd H1 H2; cbn in *;
      [done| | |by eapply Hex].
    + destruct (Hother c2 k2 l0) as [_ Hl]; [done..|].
      eapply (Hex c c2); [exact Hc|exact Hk2|by apply Hh|done].
    + destruct (Hother c1 k1 l0) as [_ Hl]; [done..|].
      eapply (Hex c1 c); [exact Hk1|exact Hc|done|by apply Hh].
  - intros c0 l0 Hl0. destruct (decide (l0 = l)) as [->|Hl].
    + destruct (Hcpu _ Hl0) as [-> Hin]. exists (Core r' p' h'). split; [|done].
      apply list_lookup_insert_eq. by eapply lookup_lt_Some.
    + rewrite Hne in Hl0 by done. destruct (Hown _ _ Hl0) as (k0 & Hk0 & Hin).
      destruct (decide (c0 = c)) as [->|Hc0].
      * simplify_eq. exists (Core r' p' h'). split; [|by apply Hh].
        apply list_lookup_insert_eq. by eapply lookup_lt_Some.
      * exists k0. split; [|done]. by rewrite list_lookup_insert_ne.
  - intros c0 k0 l0 [[-> ->]|[Hn Hk0]]%Hupd Hp; eauto.
  - intros c0 k0 l0 [[-> ->]|[Hn Hk0]]%Hupd Hp; [auto|].
    destruct (Hrl _ _ _ Hk0 Hp) as [Hin Hl0]. split; [done|].
    destruct (Hother c0 k0 l0) as [-> _]; done.
Qed.

Lemma lock_inv_others m ks c k l :
  lock_inv m ks -> ks !! c = Some k -> l ∈ held k ->
  forall c' k', c' <> c -> ks !! c' = Some k' -> l ∉ held k'.
Proof. intros Hinv Hk Hin c' k' Hne Hk' Hin'. apply Hne. by eapply (li_excl _ _ Hinv). Qed.

Lemma set_lcpu_other l o m l' : l' <> l -> getlock (set_lcpu l o m) l' = getlock m l'.
Proof. intros. by apply getlock_setlock_ne. Qed.

Lemma lock_inv_take m ks c l r h m' :
  lock_inv m ks -> ks !! c = Some (Core r (Spinning l) h) -> xchg_loop c l m = Ok ((), m') ->
  lock_inv m' (<[c := Core r (Taken l) (l :: h)]> ks).
Proof.
  intros Hinv Hc Hx. unfold xchg_loop, bind, gets in Hx.
  destruct (Z.eqb_spec (locked (getlock m l)) 0) as [Hfree|]; [|done].
  unfold modify in Hx. simplify_eq.
  eapply (lock_inv_lock m _ ks c l); [done|done| |exact Hc|..].
  - intros l' Hl. rewrite getlock_log_op. by apply getlock_setlock_ne.
  - intros l' Hl. rewrite elem_of_cons. naive_solver.
  - intros c' k Hne Hk Hin. by eapply (li_locked _ _ Hinv).
  - intros _. by autorewrite with mach.
  - intros c' Hl. autorewrite with mach in Hl. cbn in Hl.
    destruct (li_owner _ _ Hinv _ _ Hl) as (k & Hk & Hin).
    exfalso. by eapply (li_locked _ _ Hinv).
  - intros l' [= ->]. left.
  - done.
Qed.

Lemma lock_inv_step m ks m' ks' : lock_inv m ks -> lstep (m, ks) (m', ks') -> lock_inv m' ks'.
Proof.
  intros Hinv Hstep. inversion Hstep; subst; clear Hstep.
  - eapply lock_inv_phase; [done|by eapply keeps_ids_prologue|by eapply keeps_prologue
      |done|done|done].
  - done.
  - by eapply lock_inv_take.
  - pose proof (li_taken _ _ Hinv c _ l ltac:(eassumption) eq_refl) as Hin.
    eapply (lock_inv_lock m _ ks c l); [done|done|intros; by apply set_lcpu_other|done|done
      |by eapply lock_inv_others| | |done|done].
    + intros _. unfold set_lcpu. autorewrite with mach. by eapply (li_locked _ _ Hinv).
    + intros c'. unfold set_lcpu. autorewrite with mach. cbn. intros [= ->]. done.
  - destruct (holding_true c l m m'0) as [Hl Ho]; [by apply Hinv|done|].
    destruct (li_owner _ _ Hinv _ _ Ho) as (k & Hk & Hin). simplify_eq. cbn in Hin.
    assert (Hlocks : locks m'0 = locks m) by (by eapply keeps_holding).
    assert (Hids : ids m'0 = ids m) by (by eapply keeps_ids_holding).
    assert (Hg : forall l', getlock m'0 l' = getlock m l')
      by (intros; unfold getlock; by rewrite Hlocks).
    eapply (lock_inv_lock m _ ks c l); [done|exact Hids| |done|done
      |by eapply lock_inv_others| | |done|].
    + intros l' Hne. by rewrite set_lcpu_other.
    + intros _. unfold set_lcpu. autorewrite with mach. cbn. by rewrite Hg.
    + intros c'. unfold set_lcpu. by autorewrite with mach.
    + intros l' [= <-]. split; [done|]. unfold set_lcpu. by autorewrite with mach.
  - destruct (li_releasing _ _ Hinv c _ l ltac:(eassumption) eq_refl) as [Hin Hnone].
    cbn in Hin.
    assert (Hlocks : locks m' = locks (free_lock l m))
      by (match goal with H : popcli _ _ = _ |- _ => apply keeps_popcli in H end; done).
    assert (Hg : forall l', getlock m' l' = getlock (free_lock l m) l')
      by (intros; unfold getlock; by rewrite Hlocks).
    eapply (lock_inv_lock m _ ks c l); [done| | |done| |by eapply lock_inv_others| | |done|done].
    + match goal with H : popcli _ _ = _ |- _ => apply keeps_ids_popcli in H end. done.
    + intros l' Hne. rewrite Hg. by apply getlock_setlock_ne.
    + intros l' Hne. rewrite list_elem_of_filter. naive_solver.
    + rewrite list_elem_of_filter. naive_solver.
    + intros c'. rewrite Hg. unfold free_lock. autorewrite with mach. cbn. by rewrite Hnone.
Qed.

Definition lock_init (m : mach) (ks : list core) : Prop :=
  mach_wf m /\ (forall l, lcpu (getlock m l) = None) /\
  Forall (fun k => held k = [] /\ ph k = Computing) ks.

Lemma lock_inv_init m ks : lock_init m ks -> lock_inv m ks.
Proof.
  intros (Hwf & Hnone & Hks). rewrite Forall_lookup in Hks. split.
  - done.
  - intros c k l Hk Hin. destruct (Hks _ _ Hk) as [Hh _]. rewrite Hh in Hin. by apply elem_of_nil in Hin.
  - intros c1 c2 k1 k2 l Hk _ Hin. destruct (Hks _ _ Hk) as [Hh _]. rewrite Hh in Hin.
    by apply elem_of_nil in Hin.
  - intros c l Hl. by rewrite Hnone in Hl.
  - intros c k l Hk Hp. destruct (Hks _ _ Hk) as [_ Hr]. congruence.
  - intros c k l Hk Hp. destruct (Hks _ _ Hk) as [_ Hr]. congruence.
Qed.

Lemma lock_inv_reachable x y : rtc lstep x y -> lock_inv x.1 x.2 -> lock_inv y.1 y.2.
Proof.
  induction 1 as [|[m1 k1] [m2 k2] z Hs _ IH]; [done|].
  intros Hi. apply IH. by eapply lock_inv_step.
Qed.

(** C9. At most one CPU is between the successful [xchg] of [acquire] and the
    store of [release] that frees the lock, for every interleaving of the
    instructions of [acquire] and [release] of any number of CPUs. *)
Theorem spinlock_mutual_exclusion m ks m' ks' c1 c2 k1 k2 l :
  lock_init m ks -> rtc lstep (m, ks) (m', ks') ->
  ks' !! c1 = Some k1 -> ks' !! c2 = Some k2 -> l ∈ held k1 -> l ∈ held k2 -> c1 = c2.
Proof.
  intros Hi Hr. apply (lock_inv_reachable _ _) in Hr; [|by apply lock_inv_init].
  by apply (li_excl _ _ Hr).
Qed.

(** Two CPUs, one of which takes the table lock. *)
Definition two_cpus : mach :=
  Mach [Cpu 0 0 0 None true 0 0 0 0 0; Cpu 1 0 0 None true 1 0 0 0 0] ∅ [].
Definition two_cores : list core := [Core [Acq ptable_lock] Computing []; Core [Acq ptable_lock] Computing []].

Lemma spinlock_mutual_exclusion_witness :
  exists m' ks', rtc lstep (two_cpus, two_cores) (m', ks') /\
    (exists k, ks' !! 0%nat = Some k /\ ptable_lock ∈ held k) /\
    forall c2 k2, ks' !! c2 = Some k2 -> ptable_lock ∈ held k2 -> c2 = 0%nat.
Proof.
  assert (Hrun : exists m' ks' k, rtc lstep (two_cpus, two_cores) (m', ks') /\
    ks' !! 0%nat = Some k /\ ptable_lock ∈ held k).
  { eexists _, _, _. split; [|split].
    - eapply rtc_l; [eapply (L_enter 0); vm_compute; reflexivity|].
      eapply rtc_l; [eapply (L_take 0); vm_compute; reflexivity|]. reflexivity.
    - reflexivity.
    - by left. }
  destruct Hrun as (m' & ks' & k & Hr & Hk & Hh). exists m', ks'. split_and!; [done|eauto|].
  intros c2 k2 Hk2 Hh2. eapply (spinlock_mutual_exclusion two_cpus two_cores); [|exact Hr|done..].
  split; [|split].
  - split; [repeat constructor; set_solver|by repeat constructor].
  - done.
  - by repeat constructor.
Defined.

Lemma run_cli_nested_witness :
  exists k', run_cli 0 [Push; Push; Pop] two_cpus = Ok ((), setcpu 0 k' two_cpus) /\ nested_at true 1 k'.
Proof.
  eapply (run_cli_nested 0 [Push; Push; Pop] true 0); [|reflexivity|by repeat split|reflexivity].
  split; [repeat constructor; set_solver|by repeat constructor].
Defined.

(** ** Deadlock *)

(** When every CPU spins on a lock that is taken, nothing moves any more. *)
Definition stuck (m : mach) (ks : list core) : Prop :=
  Forall (fun k => exists l, ph k = Spinning l /\ locked (getlock m l) <> 0) ks.

Lemma stuck_step m ks y : stuck m ks -> lstep (m, ks) y -> y = (m, ks).
Proof.
  unfold stuck. rewrite Forall_lookup. intros Hs Hstep.
  inversion Hstep as [c l r h ? ? ? Hk|c l r h ? ? Hk|c l r h ? ? ? Hk Hx|c l o r h ? ? Hk|
    c l r h ? ? ? Hk|c l o r h ? ? ? Hk]; subst; destruct (Hs _ _ Hk) as (l' & Hp & Hl); cbn in Hp;
    try done.
  simplify_eq. exfalso. unfold xchg_loop, bind, gets in Hx.
  by rewrite (proj2 (Z.eqb_neq _ _) Hl) in Hx.
Qed.

Lemma stuck_forever m ks y : stuck m ks -> rtc lstep (m, ks) y -> y = (m, ks).
Proof.
  intros Hs Hr. remember (m, ks) as x eqn:Hx. induction Hr as [|x x' y Hxy _ IH]; [done|].
  subst x. apply stuck_step in Hxy; [|done]. subst x'. by apply IH.
Qed.
