(* ===== verification/Held.v ===== *)
(** The lock layer seen from its callers: which CPU holds which locks, and
    what [acquire], [release] and the CPU accessors do to that. *)

From S2P Require Import Prelude Spinlock.

(** The locks each CPU holds. *)
Definition holds := nat -> list lockid.
Definition hadd (c : nat) (l : lockid) (H : holds) : holds :=
  fun c' => if decide (c' = c) then l :: H c' else H c'.
Definition hdel (c : nat) (l : lockid) (H : holds) : holds :=
  fun c' => if decide (c' = c) then filter (fun l' => l' <> l) (H c') else H c'.

(** [mrep m H cps]: in [m], CPU [c] holds the locks [H c], its interrupt
    nesting depth is their number, interrupts are off while it holds one, and
    it runs process [cps !! c]. *)
Record mrep (m : mach) (H : holds) (cps : list (option nat)) : Prop := {
  mr_wf : mach_wf m;
  mr_cpu : forall c k, cpus m !! c = Some k ->
    ncli k = Z.of_nat (length (H c)) /\ (H c <> [] -> iflag k = false);
  mr_lock : forall c l, l ∈ H c <-> held_by m c l = true;
  mr_nodup : forall c, NoDup (H c);
  mr_procs : cproc <$> cpus m = cps
}.

Lemma hadd_same c l H : hadd c l H c = l :: H c.
Proof. unfold hadd. by rewrite decide_True. Qed.
Lemma hadd_other c c' l H : c' <> c -> hadd c l H c' = H c'.
Proof. intros. unfold hadd. by rewrite decide_False. Qed.
Lemma hdel_same c l H : hdel c l H c = filter (fun l' => l' <> l) (H c).
Proof. unfold hdel. by rewrite decide_True. Qed.
Lemma hdel_other c c' l H : c' <> c -> hdel c l H c' = H c'.
Proof. intros. unfold hdel. by rewrite decide_False. Qed.

Lemma filter_ne_id (l : lockid) (ls : list lockid) : l ∉ ls -> filter (fun l' => l' <> l) ls = ls.
Proof.
  induction ls as [|x ls IH]; intros Hn; [done|]. rewrite filter_cons, decide_True by set_solver.
  f_equal. apply IH. set_solver.
Qed.

Lemma length_filter_ne (l : lockid) (ls : list lockid) :
  NoDup ls -> l ∈ ls -> S (length (filter (fun l' => l' <> l) ls)) = length ls.
Proof.
  induction 1 as [|x ls Hx Hnd IH]; intros Hin; [set_solver|]. rewrite filter_cons.
  destruct (decide (x <> l)) as [Hne|Heq]; cbn [length].
  - rewrite IH; [done|set_solver].
  - apply dec_stable in Heq as ->. by rewrite filter_ne_id.
Qed.

(** Taking a lock and giving it back leaves the CPU with what it had. *)
Lemma hdel_hadd c l H c' : l ∉ H c -> hdel c l (hadd c l H) c' = H c'.
Proof.
  intros Hn. destruct (decide (c' = c)) as [->|Hne].
  - rewrite hdel_same, hadd_same, filter_cons, decide_False by auto. by apply filter_ne_id.
  - by rewrite hdel_other, hadd_other.
Qed.

Lemma mrep_ext m H H' cps : mrep m H cps -> (forall c, H c = H' c) -> mrep m H' cps.
Proof.
  intros [? Hc Hl Hn ?] He. split; try done; intros; rewrite <- He; auto.
Qed.

Section mrep.
Context {m : mach} {H : holds} {cps : list (option nat)} (Hm : mrep m H cps).

Lemma mrep_cpu c o : cps !! c = Some o ->
  exists k, cpus m !! c = Some k /\ cproc k = o /\ cpu_ok k /\
    ncli k = Z.of_nat (length (H c)) /\ (H c <> [] -> iflag k = false).
Proof.
  intros Ho. rewrite <- (mr_procs _ _ _ Hm), list_lookup_fmap in Ho.
  destruct (cpus m !! c) as [k|] eqn:Hk; [|done]. injection Ho as <-.
  destruct (mr_cpu _ _ _ Hm c k Hk) as [Hn Hi]. exists k. split_and!; try done.
  split; [lia|]. intros Hpos. apply Hi. intros Hnil. rewrite Hnil in Hn. cbn in Hn. lia.
Qed.

(** Updates of a CPU that keep its identity, process, depth and interrupt
    flag. *)
Lemma mrep_setcpu c k k' :
  cpus m !! c = Some k -> apicid k' = apicid k -> lapic_id k' = lapic_id k ->
  ncli k' = ncli k -> (H c <> [] -> iflag k' = false) ->
  mrep (setcpu c k' m) H (<[c := cproc k']> cps).
Proof.
  intros Hk Ha Hl Hn Hi. destruct Hm as [Hwf Hc Hlk Hnd Hp]. split.
  - by eapply mach_wf_setcpu.
  - intros c' k2 Hk2. destruct (decide (c' = c)) as [->|Hne].
    + rewrite (lookup_setcpu c k) in Hk2 by done. injection Hk2 as <-.
      split; [|done]. rewrite Hn. by apply Hc.
    + rewrite lookup_setcpu_ne in Hk2 by done. by apply Hc.
  - intros c' l. unfold held_by. rewrite getlock_setcpu. apply Hlk.
  - done.
  - cbn. rewrite list_fmap_insert. by rewrite Hp.
Qed.

Lemma mrep_setcpu_same c k k' :
  cpus m !! c = Some k -> apicid k' = apicid k -> lapic_id k' = lapic_id k ->
  ncli k' = ncli k -> (H c <> [] -> iflag k' = false) -> cproc k' = cproc k ->
  mrep (setcpu c k' m) H cps.
Proof.
  intros Hk Ha Hl Hn Hi Hcp.
  assert (Heq : <[c := cproc k']> cps = cps).
  { rewrite Hcp. apply list_insert_id. by rewrite <- (mr_procs _ _ _ Hm), list_lookup_fmap, Hk. }
  rewrite <- Heq. by eapply mrep_setcpu.
Qed.
End mrep.

(** ** Rules for the lock operations *)

Section lock_rules.
Context {m : mach} {H : holds} {cps : list (option nat)} (Hm : mrep m H cps).
Context (tol : Prop) (c : nat) (o : option nat) (Hc : cps !! c = Some o).

Lemma held_by_acquired l k c' l' :
  locked (getlock m l) = 0 ->
  held_by (acquired c l k m) c' l' = true <-> (l' = l /\ c' = c) \/ held_by m c' l' = true.
Proof.
  intros Hfree. unfold acquired, held_by. rewrite getlock_log_op.
  destruct (decide (l' = l)) as [->|Hne].
  - rewrite getlock_setlock, Hfree. cbn [locked lcpu Z.eqb negb andb].
    rewrite bool_decide_eq_true. naive_solver.
  - rewrite getlock_setlock_ne, getlock_setcpu by done. naive_solver.
Qed.

Lemma held_by_released l k c' l' :
  held_by m c l = true ->
  held_by (released c l k m) c' l' = true <-> l' <> l /\ held_by m c' l' = true.
Proof.
  intros Hh. unfold released, held_by. rewrite getlock_log_op.
  destruct (decide (l' = l)) as [->|Hne].
  - rewrite getlock_setlock. cbn. naive_solver.
  - rewrite getlock_setlock_ne, getlock_setcpu by done. naive_solver.
Qed.

Lemma held_by_unique c1 c2 l : held_by m c1 l = true -> held_by m c2 l = true -> c1 = c2.
Proof.
  unfold held_by. rewrite !andb_true_iff, !bool_decide_eq_true. naive_solver congruence.
Qed.

Lemma mrep_acquired l k :
  cpus m !! c = Some k -> cpu_ok k -> locked (getlock m l) = 0 ->
  mrep (acquired c l k m) (hadd c l H) cps.
Proof.
  intros Hk Hok Hfree. destruct Hm as [Hwf Hcp Hlk Hnd Hp].
  assert (Hcpus : cpus (acquired c l k m) = cpus (setcpu c (pushed k) m)) by done.
  split.
  - unfold mach_wf. rewrite Hcpus. eapply mach_wf_setcpu; [done|done|apply pushed_ids..].
  - intros c' k2. rewrite Hcpus. intros Hk2. destruct (decide (c' = c)) as [->|Hne].
    + rewrite (lookup_setcpu c k) in Hk2 by done. injection Hk2 as <-.
      rewrite hadd_same, pushed_ncli, (proj1 (Hcp _ _ Hk)). cbn [length].
      split; [lia|]. intros _. apply pushed_off.
    + rewrite lookup_setcpu_ne in Hk2 by done. rewrite hadd_other by done. by apply Hcp.
  - intros c' l'. rewrite held_by_acquired by done. rewrite <- Hlk.
    destruct (decide (c' = c)) as [->|Hne].
    + rewrite hadd_same. set_solver.
    + rewrite hadd_other by done. naive_solver.
  - intros c'. destruct (decide (c' = c)) as [->|Hne]; [|by rewrite hadd_other].
    rewrite hadd_same. constructor; [|done]. rewrite Hlk. unfold held_by. by rewrite Hfree.
  - rewrite Hcpus. cbn. rewrite list_fmap_insert, pushed_cproc, Hp.
    apply list_insert_id. by rewrite <- Hp, list_lookup_fmap, Hk.
Qed.

Lemma wp_acquire l Q :
  l ∉ H c -> (forall m', mrep m' (hadd c l H) cps -> Q () m') -> wp tol (acquire c l) m Q.
Proof.
  intros Hn HQ. destruct (mrep_cpu Hm c o Hc) as (k & Hk & _ & Hok & _).
  pose proof (mr_wf _ _ _ Hm) as Hwf.
  destruct (decide (locked (getlock m l) = 0)) as [Hfree|Hbusy].
  - eapply wp_eq; [by apply (acquire_free c l k)|]. apply HQ. by apply mrep_acquired.
  - unfold wp. rewrite (acquire_busy c l k); try done.
    intros Hl. apply Hn. apply (mr_lock _ _ _ Hm). unfold held_by.
    rewrite Hl, bool_decide_eq_true_2, andb_true_r by done.
    by rewrite (proj2 (Z.eqb_neq _ _)).
Qed.

Lemma mrep_released l k :
  cpus m !! c = Some k -> cpu_ok k -> held_by m c l = true ->
  mrep (released c l k m) (hdel c l H) cps.
Proof.
  intros Hk Hok Hh. destruct Hm as [Hwf Hcp Hlk Hnd Hp].
  assert (Hcpus : cpus (released c l k m) = cpus (setcpu c (popped k) m)) by done.
  assert (Hin : l ∈ H c) by by apply Hlk.
  pose proof (length_filter_ne l (H c) (Hnd c) Hin) as Hlen.
  split.
  - unfold mach_wf. rewrite Hcpus. eapply mach_wf_setcpu; [done|done|apply popped_ids..].
  - intros c' k2. rewrite Hcpus. intros Hk2. destruct (decide (c' = c)) as [->|Hne].
    + rewrite (lookup_setcpu c k) in Hk2 by done. injection Hk2 as <-.
      rewrite hdel_same, popped_ncli, (proj1 (Hcp _ _ Hk)). split; [lia|].
      intros Hnil. destruct (cpu_ok_popped k) as [_ Hoff]; [done|rewrite (proj1 (Hcp _ _ Hk)); lia|].
      apply Hoff. rewrite popped_ncli, (proj1 (Hcp _ _ Hk)).
      destruct (filter _ (H c)); [done|cbn in Hlen; lia].
    + rewrite lookup_setcpu_ne in Hk2 by done. rewrite hdel_other by done. by apply Hcp.
  - intros c' l'. rewrite held_by_released, <- Hlk by done.
    destruct (decide (c' = c)) as [->|Hne].
    + rewrite hdel_same, list_elem_of_filter. done.
    + rewrite hdel_other by done. split; [|tauto]. intros Hl'. split; [|done]. intros ->.
      apply Hne. apply (held_by_unique c' c l); [by apply Hlk|done].
  - intros c'. destruct (decide (c' = c)) as [->|Hne]; [|by rewrite hdel_other].
    rewrite hdel_same. by apply NoDup_filter.
  - rewrite Hcpus. cbn. rewrite list_fmap_insert, popped_cproc, Hp.
    apply list_insert_id. by rewrite <- Hp, list_lookup_fmap, Hk.
Qed.

Lemma wp_release l Q :
  l ∈ H c -> (forall m', mrep m' (hdel c l H) cps -> Q () m') -> wp tol (release c l) m Q.
Proof.
  intros Hin HQ. destruct (mrep_cpu Hm c o Hc) as (k & Hk & _ & Hok & Hn & _).
  pose proof (mr_wf _ _ _ Hm) as Hwf.
  assert (Hh : held_by m c l = true) by by apply (mr_lock _ _ _ Hm).
  assert (0 < ncli k) by (rewrite Hn; destruct (H c); [set_solver|cbn; lia]).
  eapply wp_eq; [by apply (release_held c l k)|]. apply HQ. by apply mrep_released.
Qed.
End lock_rules.

(** ** Rules for the CPU accessors *)

Section cpu_rules.
Context {m : mach} {H : holds} {cps : list (option nat)} (Hm : mrep m H cps).
Context (tol : Prop) (c : nat) (o : option nat) (Hc : cps !! c = Some o).

(** A [pushcli] with its [popcli]. *)
Lemma mrep_pushed_popped k k' :
  cpus m !! c = Some k -> cpu_ok k ->
  apicid k' = apicid k -> lapic_id k' = lapic_id k -> cproc k' = cproc k ->
  ncli k' = ncli k + 1 -> iflag k' = false ->
  mrep (setcpu c (popped k') m) H cps.
Proof.
  intros Hk Hok Ha Hl Hp Hn Hi. destruct (mr_cpu _ _ _ Hm c k Hk) as [Hnc Hoff].
  eapply (mrep_setcpu_same Hm c k); try done.
  - by rewrite (proj1 (popped_ids k')).
  - by rewrite (proj2 (popped_ids k')).
  - rewrite popped_ncli. lia.
  - intros Hne. unfold popped. rewrite Hn.
    rewrite (proj2 (Z.eqb_neq _ _)); [done|].
    rewrite Hnc. destruct (H c); [done|cbn; lia].
  - by rewrite popped_cproc.
Qed.

Lemma wp_this_cpu Q :
  (forall k, cpus m !! c = Some k -> cproc k = o -> ncli k = Z.of_nat (length (H c)) -> Q k m) ->
  wp tol (this_cpu c) m Q.
Proof.
  intros HQ. destruct (mrep_cpu Hm c o Hc) as (k & Hk & Ho & _ & Hn & _).
  eapply wp_eq; [by apply this_cpu_eq|]. auto.
Qed.

Lemma wp_mycpu Q : H c <> [] -> Q c m -> wp tol (mycpu c) m Q.
Proof.
  intros Hne HQ. destruct (mrep_cpu Hm c o Hc) as (k & Hk & _ & _ & _ & Hi).
  eapply wp_eq; [|exact HQ]. eapply mycpu_eq; [apply (mr_wf _ _ _ Hm)|done|auto].
Qed.

Lemma wp_read_if Q : H c <> [] -> Q 0 m -> wp tol (read_if c) m Q.
Proof.
  intros Hne HQ. destruct (mrep_cpu Hm c o Hc) as (k & Hk & _ & _ & _ & Hi).
  eapply wp_eq; [by apply read_if_eq|]. by rewrite Hi.
Qed.

Lemma wp_upd_cpu f Q :
  (forall k, apicid (f k) = apicid k /\ lapic_id (f k) = lapic_id k /\ ncli (f k) = ncli k /\
     cproc (f k) = cproc k /\ (H c <> [] -> iflag (f k) = iflag k)) ->
  (forall m', mrep m' H cps -> Q () m') -> wp tol (upd_cpu c f) m Q.
Proof.
  intros Hf HQ. destruct (mrep_cpu Hm c o Hc) as (k & Hk & _ & _ & _ & Hi).
  eapply wp_eq; [by apply upd_cpu_eq|]. apply HQ.
  destruct (Hf k) as (Ha & Hl & Hn & Hp & Hfl). eapply (mrep_setcpu_same Hm c k); try done.
  intros Hne. rewrite Hfl by done. auto.
Qed.

Lemma wp_upd_cproc o' Q :
  (forall m', mrep m' H (<[c := o']> cps) -> Q () m') -> wp tol (upd_cpu c (set_cproc o')) m Q.
Proof.
  intros HQ. destruct (mrep_cpu Hm c o Hc) as (k & Hk & _ & _ & _ & Hi).
  eapply wp_eq; [by apply upd_cpu_eq|]. apply HQ.
  by apply (mrep_setcpu Hm c k (set_cproc o' k)).
Qed.

Lemma wp_holding l Q :
  H c <> [] -> Q (bool_decide (l ∈ H c)) m -> wp tol (holding c l) m Q.
Proof.
  intros Hne HQ. destruct (mrep_cpu Hm c o Hc) as (k & Hk & _ & Hok & Hn & _).
  eapply wp_eq.
  - apply (holding_nested c l k); [apply (mr_wf _ _ _ Hm)|done|done|].
    rewrite Hn. destruct (H c); [done|cbn; lia].
  - replace (held_by m c l) with (bool_decide (l ∈ H c)); [done|].
    apply Bool.eq_iff_eq_true. rewrite bool_decide_eq_true. apply (mr_lock _ _ _ Hm).
Qed.

(** Code between [pushcli] and [popcli] that only sets other fields of its
    CPU. *)
Definition frame (f : cpu -> cpu) : Prop := forall k,
  apicid (f k) = apicid k /\ lapic_id (f k) = lapic_id k /\ ncli (f k) = ncli k /\
  cproc (f k) = cproc k /\ iflag (f k) = iflag k.

Lemma wp_cli_section (f g : cpu -> cpu) Q :
  frame f -> frame g -> (forall m', mrep m' H cps -> Q () m') ->
  wp tol (pushcli c;; i ← mycpu c; upd_cpu i f;; upd_cpu c g;; popcli c) m Q.
Proof.
  intros Hf Hg HQ. destruct (mrep_cpu Hm c o Hc) as (k & Hk & Ho & Hok & Hn & _).
  pose proof (mr_wf _ _ _ Hm) as Hwf. destruct (pushed_ids k) as [Hpa Hpl].
  destruct (Hf (pushed k)) as (Ha & Hl & Hnc & Hp & Hi).
  destruct (Hg (f (pushed k))) as (Ha' & Hl' & Hnc' & Hp' & Hi').
  assert (Hk1 := lookup_setcpu c k (pushed k) m Hk).
  assert (Hk2 := lookup_setcpu c k (f (pushed k)) m Hk).
  assert (Hk3 := lookup_setcpu c k (g (f (pushed k))) m Hk).
  apply wp_bind. eapply wp_eq; [by apply pushcli_eq|].
  apply wp_bind. eapply wp_eq.
  { apply (mycpu_eq c (pushed k)); [|done|apply pushed_off]. by eapply mach_wf_setcpu. }
  apply wp_bind. eapply wp_eq; [by apply (upd_cpu_eq c f (pushed k))|]. rewrite setcpu_setcpu.
  apply wp_bind. eapply wp_eq; [by apply (upd_cpu_eq c g (f (pushed k)))|]. rewrite setcpu_setcpu.
  eapply wp_eq.
  { apply (popcli_eq c (g (f (pushed k)))); [|done|by rewrite Hi', Hi, pushed_off|].
    - eapply mach_wf_setcpu; [done|done|congruence..].
    - rewrite Hnc', Hnc, pushed_ncli. destruct Hok. lia. }
  rewrite setcpu_setcpu. apply HQ.
  pose proof (pushed_cproc k). pose proof (pushed_ncli k). pose proof (pushed_off k).
  eapply (mrep_pushed_popped k); congruence.
Qed.

Lemma wp_myproc Q : (forall m', mrep m' H cps -> Q o m') -> wp tol (myproc c) m Q.
Proof.
  intros HQ. destruct (mrep_cpu Hm c o Hc) as (k & Hk & Ho & Hok & Hn & _).
  pose proof (mr_wf _ _ _ Hm) as Hwf. destruct (pushed_ids k) as [Hpa Hpl].
  assert (Hk1 := lookup_setcpu c k (pushed k) m Hk).
  assert (Hwf1 : mach_wf (setcpu c (pushed k) m)) by by eapply mach_wf_setcpu.
  apply wp_bind. eapply wp_eq; [by apply pushcli_eq|].
  apply wp_bind. eapply wp_eq; [apply (mycpu_eq c (pushed k)); [done|done|apply pushed_off]|].
  apply wp_bind. eapply wp_eq; [by apply (this_cpu_eq c (pushed k))|].
  apply wp_bind. eapply wp_eq.
  { apply (popcli_eq c (pushed k)); [done|done|apply pushed_off|].
    rewrite pushed_ncli. destruct Hok. lia. }
  apply wp_ret. rewrite pushed_cproc, Ho, setcpu_setcpu. apply HQ.
  pose proof (pushed_cproc k). pose proof (pushed_ncli k). pose proof (pushed_off k).
  eapply (mrep_pushed_popped k); congruence.
Qed.
End cpu_rules.
