(* ===== verification/CString.v ===== *)
(** Memory and string routines of [string.c].

    The [mem*] routines work on memory, a map from addresses to bytes, so
    that overlapping regions are modelled.  The [str*] routines work on the
    buffers their callers pass, lists of bytes that never overlap; reading
    or writing past the end of a buffer is [None]. *)

From S2P Require Import Prelude.

(** ** Memory *)

Definition mem : Type := Z -> Z.
Definition store (m : mem) (a v : Z) : mem := fun x => if x =? a then v else m x.
(** The [n] bytes at [a]. *)
Definition mbytes (m : mem) (a : Z) (n : nat) : list Z := (fun i => m (a + Z.of_nat i)) <$> seq 0 n.

(** [rep stosb]: [cnt] times the low byte of [data]. *)
Fixpoint stosb (m : mem) (a data : Z) (cnt : nat) : mem :=
  match cnt with
  | O => m
  | S cnt => stosb (store m a (u8 data)) (a + 1) data cnt
  end.

(** One 32-bit store, least significant byte first. *)
Definition store32 (m : mem) (a w : Z) : mem :=
  store (store (store (store m a (u8 w)) (a + 1) (u8 (Z.shiftr w 8)))
           (a + 2) (u8 (Z.shiftr w 16))) (a + 3) (u8 (Z.shiftr w 24)).

(** [rep stosl]: [cnt] times the word [data]. *)
Fixpoint stosl (m : mem) (a data : Z) (cnt : nat) : mem :=
  match cnt with
  | O => m
  | S cnt => stosl (store32 m a data) (a + 4) data cnt
  end.

Definition memset (m : mem) (dst c n : Z) : mem :=
  if (Z.rem (s32 dst) 4 =? 0) && (n mod 4 =? 0) then
    let c := Z.land c 255 in
    stosl m dst (Z.lor (Z.lor (Z.lor (Z.shiftl c 24) (Z.shiftl c 16)) (Z.shiftl c 8)) c)
      (Z.to_nat (n / 4))
  else stosb m dst c (Z.to_nat n).

Fixpoint memcmp (m : mem) (s1 s2 : Z) (n : nat) : Z :=
  match n with
  | O => 0
  | S n => if negb (m s1 =? m s2) then m s1 - m s2 else memcmp m (s1 + 1) (s2 + 1) n
  end.

(** The two copying loops of [memmove]: downwards from the ends, upwards
    from the starts. *)
Fixpoint copy_down (m : mem) (d s : Z) (n : nat) : mem :=
  match n with
  | O => m
  | S n => let d := d - 1 in let s := s - 1 in copy_down (store m d (m s)) d s n
  end.
Fixpoint copy_up (m : mem) (d s : Z) (n : nat) : mem :=
  match n with
  | O => m
  | S n => copy_up (store m d (m s)) (d + 1) (s + 1) n
  end.

Definition memmove (m : mem) (dst src n : Z) : mem :=
  if (src <? dst) && (dst <? src + n)
  then copy_down m (dst + n) (src + n) (Z.to_nat n)
  else copy_up m dst src (Z.to_nat n).

Definition memcpy (m : mem) (dst src n : Z) : mem := memmove m dst src n.

(** ** Strings *)

Definition write_at (s : list Z) (i : nat) (c : Z) : option (list Z) :=
  if decide (i < length s)%nat then Some (<[i := c]> s) else None.

(** [while(n > 0 && *p && *p == *q) n--, p++, q++; ...] *)
Fixpoint strncmp (p q : list Z) (n : nat) : option Z :=
  match n with
  | O => Some 0
  | S n =>
      match p, q with
      | a :: p, b :: q =>
          if negb (a =? 0) && (a =? b) then strncmp p q n else Some (u8 a - u8 b)
      | _, _ => None
      end
  end.

(** [while(n-- > 0 && ( *s++ = *t++ ) != 0)]: the remaining [n], the position
    of [s] and the buffer when the loop ends. *)
Fixpoint strncpy_copy (s t : list Z) (i n : nat) : option (nat * nat * list Z) :=
  match n with
  | O => Some (O, i, s)
  | S n =>
      match t !! i with
      | None => None
      | Some c =>
          match write_at s i c with
          | None => None
          | Some s => if c =? 0 then Some (n, S i, s) else strncpy_copy s t (S i) n
          end
      end
  end.

(** [while(n-- > 0) *s++ = 0;] *)
Fixpoint strncpy_fill (s : list Z) (i n : nat) : option (list Z) :=
  match n with
  | O => Some s
  | S n => match write_at s i 0 with
           | None => None
           | Some s => strncpy_fill s (S i) n
           end
  end.

Definition strncpy (s t : list Z) (n : Z) : option (list Z) :=
  match strncpy_copy s t 0 (Z.to_nat n) with
  | None => None
  | Some (n, i, s) => strncpy_fill s i n
  end.

Definition safestrcpy (s t : list Z) (n : Z) : option (list Z) :=
  if n <=? 0 then Some s else
  match strncpy_copy s t 0 (Z.to_nat (n - 1)) with
  | None => None
  | Some (_, i, s) => write_at s i 0
  end.

Fixpoint strlen (s : list Z) : option Z :=
  match s with
  | [] => None
  | c :: s => if c =? 0 then Some 0 else (fun n => n + 1) <$> strlen s
  end.

(** ** The memory routines *)

Lemma copy_up_spec n : forall m d s x,
  d <= s \/ s + Z.of_nat n <= d ->
  copy_up m d s n x = if (d <=? x) && (x <? d + Z.of_nat n) then m (s + (x - d)) else m x.
Proof.
  induction n as [|n IH]; intros m d s x Hov; cbn [copy_up].
  { destruct (Z.leb_spec d x), (Z.ltb_spec x (d + Z.of_nat 0)); cbn; lia || done. }
  rewrite IH by lia. unfold store.
  destruct (Z.leb_spec (d + 1) x), (Z.leb_spec d x),
    (Z.ltb_spec x (d + 1 + Z.of_nat n)), (Z.ltb_spec x (d + Z.of_nat (S n))),
    (Z.eqb_spec x d), (Z.eqb_spec (s + 1 + (x - (d + 1))) d); cbn; try lia; f_equal; lia.
Qed.

Lemma copy_down_spec n : forall m d s x,
  s <= d ->
  copy_down m d s n x =
  if (d - Z.of_nat n <=? x) && (x <? d) then m (s + (x - d)) else m x.
Proof.
  induction n as [|n IH]; intros m d s x Hov; cbn [copy_down].
  { destruct (Z.leb_spec (d - Z.of_nat 0) x), (Z.ltb_spec x d); cbn; lia || done. }
  rewrite IH by lia. unfold store.
  destruct (Z.leb_spec (d - 1 - Z.of_nat n) x), (Z.leb_spec (d - Z.of_nat (S n)) x),
    (Z.ltb_spec x (d - 1)), (Z.ltb_spec x d),
    (Z.eqb_spec x (d - 1)), (Z.eqb_spec (s - 1 + (x - (d - 1))) (d - 1)); cbn; try lia; f_equal; lia.
Qed.

Lemma memmove_spec (m : mem) (dst src n x : Z) :
  0 <= n ->
  memmove m dst src n x =
  if (dst <=? x) && (x <? dst + n) then m (src + (x - dst)) else m x.
Proof.
  intros Hn. unfold memmove.
  destruct (Z.ltb_spec src dst), (Z.ltb_spec dst (src + n)); cbn [andb];
    try (rewrite copy_up_spec by lia; by rewrite Z2Nat.id by lia).
  rewrite copy_down_spec by lia. rewrite Z2Nat.id by lia.
  replace (dst + n - n) with dst by lia.
  replace (src + n + (x - (dst + n))) with (src + (x - dst)) by lia. done.
Qed.

(** [memmove] copies as if through a temporary buffer, for all overlaps of
    source and destination. *)
Theorem memmove_correct (m : mem) (dst src n x : Z) :
  0 <= n ->
  memmove m dst src n x =
  if (dst <=? x) && (x <? dst + n) then m (src + (x - dst)) else m x.
Proof. apply memmove_spec. Qed.

Lemma stosb_spec n : forall m d c x,
  stosb m d c n x = if (d <=? x) && (x <? d + Z.of_nat n) then u8 c else m x.
Proof.
  induction n as [|n IH]; intros m d c x; cbn [stosb].
  { destruct (Z.leb_spec d x), (Z.ltb_spec x (d + Z.of_nat 0)); cbn; lia || done. }
  rewrite IH. unfold store.
  destruct (Z.leb_spec (d + 1) x), (Z.leb_spec d x),
    (Z.ltb_spec x (d + 1 + Z.of_nat n)), (Z.ltb_spec x (d + Z.of_nat (S n))),
    (Z.eqb_spec x d); cbn; lia || done.
Qed.

(** The word with four copies of a byte. *)
Definition splat (c : Z) : Z :=
  Z.lor (Z.lor (Z.lor (Z.shiftl c 24) (Z.shiftl c 16)) (Z.shiftl c 8)) c.

Lemma splat_bytes c :
  0 <= c < 256 ->
  u8 (splat c) = c /\ u8 (Z.shiftr (splat c) 8) = c /\
  u8 (Z.shiftr (splat c) 16) = c /\ u8 (Z.shiftr (splat c) 24) = c.
Proof.
  intros Hc.
  assert (Hall : forallb (fun c => (u8 (splat c) =? c) && (u8 (Z.shiftr (splat c) 8) =? c) &&
    (u8 (Z.shiftr (splat c) 16) =? c) && (u8 (Z.shiftr (splat c) 24) =? c)) (seqZ 0 256) = true)
    by (vm_compute; done).
  rewrite forallb_forall in Hall. specialize (Hall c).
  rewrite <- list_elem_of_In, elem_of_seqZ in Hall. specialize (Hall ltac:(lia)). lia.
Qed.

Lemma stosl_spec n : forall m d w c x,
  u8 w = c -> u8 (Z.shiftr w 8) = c -> u8 (Z.shiftr w 16) = c -> u8 (Z.shiftr w 24) = c ->
  stosl m d w n x = if (d <=? x) && (x <? d + 4 * Z.of_nat n) then c else m x.
Proof.
  induction n as [|n IH]; intros m d w c x H0 H1 H2 H3; cbn [stosl].
  { destruct (Z.leb_spec d x), (Z.ltb_spec x (d + 4 * Z.of_nat 0)); cbn; lia || done. }
  rewrite (IH _ _ _ c) by done. unfold store32, store. rewrite H0, H1, H2, H3.
  destruct (Z.leb_spec (d + 4) x), (Z.leb_spec d x),
    (Z.ltb_spec x (d + 4 + 4 * Z.of_nat n)), (Z.ltb_spec x (d + 4 * Z.of_nat (S n)));
    cbn; try lia; try done;
  destruct (Z.eqb_spec x (d + 3)), (Z.eqb_spec x (d + 2)), (Z.eqb_spec x (d + 1)),
    (Z.eqb_spec x d); lia || done.
Qed.

Lemma memset_correct (m : mem) (dst c n x : Z) :
  0 <= n ->
  memset m dst c n x = if (dst <=? x) && (x <? dst + n) then u8 c else m x.
Proof.
  intros Hn. unfold memset.
  destruct (Z.rem (s32 dst) 4 =? 0); cbn [andb].
  2: { rewrite stosb_spec. by rewrite Z2Nat.id by lia. }
  destruct (Z.eqb_spec (n mod 4) 0) as [H4|_].
  2: { rewrite stosb_spec. by rewrite Z2Nat.id by lia. }
  assert (Hc : Z.land c 255 = u8 c) by (apply (Z.land_ones c 8); lia).
  fold (splat (Z.land c 255)). rewrite Hc.
  assert (0 <= u8 c < 256) by (apply Z.mod_pos_bound; lia).
  destruct (splat_bytes (u8 c)) as (H0 & H1 & H2 & H3); [done|].
  rewrite (stosl_spec _ _ _ _ (u8 c)) by done.
  rewrite Z2Nat.id by (apply Z.div_pos; lia).
  replace (4 * (n / 4)) with n by (Z.div_mod_to_equations; lia). done.
Qed.

Lemma memcmp_zero (m : mem) (n : nat) : forall s1 s2,
  memcmp m s1 s2 n = 0 <-> forall i, 0 <= i < Z.of_nat n -> m (s1 + i) = m (s2 + i).
Proof.
  induction n as [|n IH]; intros s1 s2; cbn [memcmp].
  { split; [intros _ i Hi; lia|done]. }
  destruct (Z.eqb_spec (m s1) (m s2)) as [Heq|Hne]; cbn [negb].
  - rewrite IH. split; intros H i Hi.
    + destruct (decide (i = 0)) as [->|Hi0]; [by rewrite !Z.add_0_r|].
      specialize (H (i - 1)).
      replace (s1 + 1 + (i - 1)) with (s1 + i) in H by lia.
      replace (s2 + 1 + (i - 1)) with (s2 + i) in H by lia. apply H. lia.
    + replace (s1 + 1 + i) with (s1 + (i + 1)) by lia.
      replace (s2 + 1 + i) with (s2 + (i + 1)) by lia. apply H. lia.
  - split; [lia|]. intros H. specialize (H 0). rewrite !Z.add_0_r in H.
    exfalso. apply Hne, H. lia.
Qed.

(** ** The string routines *)

(** A buffer that holds the NUL terminated string [str]. *)
Definition holds_str (t str : list Z) : Prop :=
  (exists rest, t = str ++ 0 :: rest) /\ Forall (fun c => c <> 0 /\ 0 <= c < 256) str.

Lemma strlen_str t str : holds_str t str -> strlen t = Some (Z.of_nat (length str)).
Proof.
  intros [[rest ->] Hall]. induction Hall as [|c str [Hc _] _ IH]; [done|].
  cbn [app strlen length]. rewrite (proj2 (Z.eqb_neq _ _) Hc), IH. cbn. f_equal. lia.
Qed.

(** The string in the first [n] bytes of a buffer, which need not be
    terminated when it fills all of them. *)
Fixpoint cstr (n : nat) (t : list Z) : list Z :=
  match n, t with
  | S n, c :: t => if c =? 0 then [] else c :: cstr n t
  | _, _ => []
  end.

(** Reading [t] until a NUL or [n] bytes stays inside the buffer. *)
Definition readable (t : list Z) (n : nat) : Prop := (n <= length t)%nat \/ 0 ∈ t.

Lemma readable_cons c t n : c <> 0 -> readable (c :: t) (S n) -> readable t n.
Proof. intros Hc [H|H]; [left; cbn in H; lia|right]. apply elem_of_cons in H. naive_solver. Qed.

Lemma readable_nil n : ~ readable [] (S n).
Proof. intros [H|H]; [cbn in H; lia|by apply elem_of_nil in H]. Qed.

Lemma length_cstr n t : (length (cstr n t) <= n)%nat.
Proof.
  revert t. induction n as [|n IH]; intros [|c t]; cbn; try lia.
  destruct (c =? 0); cbn; [lia|]. specialize (IH t). lia.
Qed.

Lemma write_at_app s1 x s2 c : write_at (s1 ++ x :: s2) (length s1) c = Some (s1 ++ c :: s2).
Proof.
  unfold write_at. rewrite decide_True by (rewrite length_app; cbn; lia).
  replace (length s1) with (length s1 + 0)%nat by lia. by rewrite insert_app_r.
Qed.

Lemma strncpy_copy_spec n : forall s1 s2 t1 t2,
  length t1 = length s1 -> (n <= length s2)%nat -> readable t2 n ->
  strncpy_copy (s1 ++ s2) (t1 ++ t2) (length s1) n =
  let c := cstr n t2 in
  if decide (length c = n) then Some (O, (length s1 + n)%nat, s1 ++ c ++ drop n s2)
  else Some ((n - S (length c))%nat, (length s1 + S (length c))%nat,
             s1 ++ c ++ 0 :: drop (S (length c)) s2).
Proof.
  induction n as [|n IH]; intros s1 s2 t1 t2 Hlen Hs Ht; cbn [strncpy_copy cstr].
  { cbn. by rewrite drop_0, Nat.add_0_r. }
  destruct t2 as [|c t2]; [by apply readable_nil in Ht|].
  destruct s2 as [|x s2]; [cbn in Hs; lia|].
  rewrite <- Hlen, list_lookup_middle by done. rewrite Hlen, write_at_app.
  destruct (Z.eqb_spec c 0) as [->|Hc].
  { cbn. f_equal. repeat f_equal; lia. }
  change (s1 ++ c :: s2) with (s1 ++ [c] ++ s2). change (t1 ++ c :: t2) with (t1 ++ [c] ++ t2).
  rewrite !(assoc_L (++)). replace (S (length s1)) with (length (s1 ++ [c])) by (rewrite length_app; cbn; lia).
  rewrite IH; [|rewrite !length_app; cbn; lia|cbn in Hs; lia|by eapply readable_cons].
  cbn [length]. rewrite length_app. cbn [length Nat.add].
  destruct (decide (length (cstr n t2) = n)), (decide (S (length (cstr n t2)) = S n));
    try lia; cbn; rewrite <- !(assoc_L (++)); apply (f_equal Some), f_equal2;
    [f_equal; lia|done|f_equal; lia|done].
Qed.

Lemma strncpy_copy_0 n s t :
  (n <= length s)%nat -> readable t n ->
  strncpy_copy s t 0 n =
  let c := cstr n t in
  if decide (length c = n) then Some (O, n, c ++ drop n s)
  else Some ((n - S (length c))%nat, S (length c), c ++ 0 :: drop (S (length c)) s).
Proof. intros Hs Ht. exact (strncpy_copy_spec n [] s [] t eq_refl Hs Ht). Qed.

Lemma strncpy_fill_spec n : forall s1 s2,
  (n <= length s2)%nat ->
  strncpy_fill (s1 ++ s2) (length s1) n = Some (s1 ++ replicate n 0 ++ drop n s2).
Proof.
  induction n as [|n IH]; intros s1 s2 Hs; cbn [strncpy_fill].
  { cbn. by rewrite drop_0. }
  destruct s2 as [|x s2]; [cbn in Hs; lia|]. rewrite write_at_app.
  change (s1 ++ 0 :: s2) with (s1 ++ [0] ++ s2). rewrite (assoc_L (++)).
  replace (S (length s1)) with (length (s1 ++ [0])) by (rewrite length_app; cbn; lia).
  rewrite IH by (cbn in Hs; lia). by rewrite <- (assoc_L (++)).
Qed.

Lemma strncpy_fill_at n i s1 s2 :
  i = length s1 -> (n <= length s2)%nat ->
  strncpy_fill (s1 ++ s2) i n = Some (s1 ++ replicate n 0 ++ drop n s2).
Proof. intros ->. apply strncpy_fill_spec. Qed.

Lemma strncpy_correct (s t : list Z) (n : nat) :
  (n <= length s)%nat -> readable t n ->
  strncpy s t (Z.of_nat n) =
  Some (cstr n t ++ replicate (n - length (cstr n t)) 0 ++ drop n s).
Proof.
  intros Hs Ht. unfold strncpy. rewrite Nat2Z.id.
  rewrite strncpy_copy_0 by done.
  pose proof (length_cstr n t) as Hl. cbv zeta.
  destruct (decide (length (cstr n t) = n)) as [->|Hne].
  - cbn. by rewrite Nat.sub_diag.
  - change (0 :: drop (S (length (cstr n t))) s) with ([0] ++ drop (S (length (cstr n t))) s).
    rewrite (assoc_L (++)).
    rewrite (strncpy_fill_at _ _ (cstr n t ++ [0]))
      by (rewrite ?length_drop, ?length_app; cbn; lia).
    rewrite drop_drop, <- (assoc_L (++)).
    replace (n - length (cstr n t))%nat with (S (n - S (length (cstr n t)))) by lia. cbn.
    do 5 f_equal. lia.
Qed.

Lemma cstr_app n u r : Forall (fun c => c <> 0) u -> (length u <= n)%nat ->
  (length u = n \/ exists r', r = 0 :: r') -> cstr n (u ++ r) = u.
Proof.
  intros Hu. revert n. induction Hu as [|c u Hc _ IH]; intros n Hn Hr.
  - destruct n; [done|]. destruct Hr as [|[r' ->]]; [cbn in *; lia|done].
  - destruct n as [|n]; [cbn in Hn; lia|]. cbn. rewrite (proj2 (Z.eqb_neq _ _) Hc).
    rewrite IH; [done|cbn in Hn; lia|]. destruct Hr as [Hr|Hr]; [left; cbn in Hr; lia|by right].
Qed.

Lemma cstr_nonzero n t : Forall (fun c => c <> 0) (cstr n t).
Proof.
  revert t. induction n as [|n IH]; intros [|c t]; cbn; try constructor.
  destruct (Z.eqb_spec c 0); constructor; auto.
Qed.

(** Reading back what [strncpy] stored gives the string that was copied,
    cut to the size of the field; the rest of the destination is unchanged in
    length. *)
Theorem strncpy_roundtrip (s t : list Z) (n : nat) :
  (n <= length s)%nat -> readable t n ->
  exists s', strncpy s t (Z.of_nat n) = Some s' /\ length s' = length s /\ cstr n s' = cstr n t.
Proof.
  intros Hs Ht. eexists. split; [by apply strncpy_correct|].
  pose proof (length_cstr n t). split.
  - rewrite !length_app, length_replicate, length_drop. lia.
  - apply cstr_app; [apply cstr_nonzero|done|].
    destruct (decide (length (cstr n t) = n)) as [|Hne]; [by left|right].
    replace (n - length (cstr n t))%nat with (S (n - S (length (cstr n t)))) by lia.
    cbn. eauto.
Qed.

(** [safestrcpy] always terminates the destination. *)
Lemma safestrcpy_spec (s t : list Z) (n : nat) :
  (0 < n <= length s)%nat -> readable t (n - 1) ->
  exists s', safestrcpy s t (Z.of_nat n) = Some s' /\ length s' = length s /\
    cstr n s' = cstr (n - 1) t /\ drop n s' = drop n s.
Proof.
  intros Hn Ht. unfold safestrcpy. rewrite (proj2 (Z.leb_gt _ _)) by lia.
  replace (Z.to_nat (Z.of_nat n - 1)) with (n - 1)%nat by lia.
  rewrite strncpy_copy_0 by (done || lia).
  pose proof (length_cstr (n - 1) t) as Hl. pose proof (cstr_nonzero (n - 1) t) as Hnz.
  set (c := cstr (n - 1) t) in *. cbv zeta.
  destruct (decide (length c = (n - 1)%nat)) as [He|Hne].
  - destruct (drop (n - 1) s) as [|x r] eqn:Hd;
      [apply (f_equal length) in Hd; rewrite length_drop in Hd; cbn in Hd; lia|].
    rewrite <- He, write_at_app. eexists; split; [done|]. split.
    { apply (f_equal length) in Hd. rewrite length_drop in Hd. rewrite length_app. cbn in *. lia. }
    split; [apply cstr_app; [done|lia|right; eauto]|].
    replace n with (length c + 1)%nat at 1 by lia.
    rewrite <- drop_drop, drop_app_length. cbn. rewrite drop_0.
    replace n with ((n - 1) + 1)%nat by lia. by rewrite <- drop_drop, Hd.
  - destruct (drop (S (length c)) s) as [|x r] eqn:Hd;
      [apply (f_equal length) in Hd; rewrite length_drop in Hd; cbn in Hd; lia|].
    change (c ++ 0 :: x :: r) with (c ++ [0] ++ x :: r). rewrite (assoc_L (++)).
    replace (S (length c)) with (length (c ++ [0])) by (rewrite length_app; cbn; lia).
    rewrite write_at_app. eexists; split; [done|].
    assert (Hlr : (S (length r) = length s - S (length c))%nat)
      by (rewrite <- length_drop, Hd; done).
    split; [rewrite !length_app; cbn; lia|].
    rewrite <- (assoc_L (++)). split; [apply cstr_app; [done|lia|right; cbn; eauto]|].
    replace n with (length c + (2 + (n - length c - 2)))%nat at 1 by lia.
    rewrite <- drop_drop, drop_app_length. cbn.
    replace n with (S (length c) + (1 + (n - length c - 2)))%nat at 2 by lia.
    by rewrite <- (drop_drop s), Hd.
Qed.

Lemma strncmp_correct (n : nat) : forall (p q : list Z),
  Forall (fun c => 0 <= c < 256) p -> Forall (fun c => 0 <= c < 256) q ->
  readable p n -> readable q n ->
  exists r, strncmp p q n = Some r /\ (r = 0 <-> cstr n p = cstr n q).
Proof.
  induction n as [|n IH]; intros p q Hp Hq Hlp Hlq; [by exists 0; destruct p, q|].
  destruct p as [|a p]; [by apply readable_nil in Hlp|]. destruct q as [|b q]; [by apply readable_nil in Hlq|].
  inversion Hp; inversion Hq; subst. cbn [strncmp cstr].
  unfold u8. rewrite !Z.mod_small by lia.
  destruct (Z.eqb_spec a 0) as [->|Ha]; cbn [negb andb].
  - eexists; split; [done|]. destruct (Z.eqb_spec b 0) as [->|Hb]; [done|].
    split; [lia|done].
  - destruct (Z.eqb_spec a b) as [->|Hab].
    + destruct (IH p q) as (r & -> & Hr); [done|done|by eapply readable_cons..|].
      exists r. split; [done|]. rewrite (proj2 (Z.eqb_neq b 0)) by done. rewrite Hr.
      split; [by intros ->|by intros [= ->]].
    + eexists; split; [done|]. split; [lia|].
      destruct (Z.eqb_spec b 0); intros; congruence.
Qed.

(** ** Instances *)

Lemma memmove_correct_witness :
  memmove (fun a => a) 12 10 4 13 =
  if (12 <=? 13) && (13 <? 12 + 4) then (fun a => a) (10 + (13 - 12)) else (fun a => a) 13.
Proof. apply (memmove_correct (fun a => a) 12 10 4 13). lia. Defined.

Lemma strncpy_roundtrip_witness :
  exists s', strncpy (replicate 14 7) [108; 115; 0; 9] (Z.of_nat 14) = Some s' /\ length s' = 14%nat /\
    cstr 14 s' = cstr 14 [108; 115; 0; 9].
Proof.
  apply (strncpy_roundtrip (replicate 14 7) [108; 115; 0; 9] 14); [cbn; lia|right; set_solver].
Defined.
