(* ===== verification/Bytes.v ===== *)
(** Little-endian integers in byte arrays, as the on-disk structures use
    them. *)

From S2P Require Import Prelude.

(** The bytes of a 32-bit and of a 16-bit value. *)
Definition le32 (v : Z) : list Z :=
  [u8 v; u8 (v / 2 ^ 8); u8 (v / 2 ^ 16); u8 (v / 2 ^ 24)].
Definition le16 (v : Z) : list Z := [u8 v; u8 (v / 2 ^ 8)].

Definition byte_at (d : list Z) (i : nat) : Z := default 0 (d !! i).
Definition rd32 (d : list Z) (i : nat) : Z :=
  byte_at d i + byte_at d (i + 1) * 2 ^ 8 + byte_at d (i + 2) * 2 ^ 16 + byte_at d (i + 3) * 2 ^ 24.
Definition rd16 (d : list Z) (i : nat) : Z := byte_at d i + byte_at d (i + 1) * 2 ^ 8.

(** Storing bytes at an offset. *)
Definition wr (d : list Z) (i : nat) (bs : list Z) : list Z :=
  take i d ++ bs ++ drop (i + length bs) d.
Definition wr32 (d : list Z) (i : nat) (v : Z) : list Z := wr d i (le32 v).
Definition wr16 (d : list Z) (i : nat) (v : Z) : list Z := wr d i (le16 v).

Definition bytes_ok (d : list Z) : Prop := Forall (fun b => 0 <= b < 256) d.

Lemma u8_range x : 0 <= u8 x < 256.
Proof. unfold u8. apply Z.mod_pos_bound. lia. Qed.

Lemma length_wr d i bs : (i + length bs <= length d)%nat -> length (wr d i bs) = length d.
Proof. intros H. unfold wr. rewrite !length_app, length_take, length_drop. lia. Qed.

Lemma byte_at_wr_in d i bs j b :
  (i + length bs <= length d)%nat -> bs !! j = Some b -> byte_at (wr d i bs) (i + j) = b.
Proof.
  intros H Hb. unfold byte_at, wr. apply lookup_lt_Some in Hb as Hlt.
  rewrite lookup_app_r by (rewrite length_take; lia). rewrite length_take_le by lia.
  replace (i + j - i)%nat with j by lia. rewrite lookup_app_l by done. by rewrite Hb.
Qed.

Lemma byte_at_wr_out d i bs j :
  (i + length bs <= length d)%nat -> (j < i \/ i + length bs <= j)%nat ->
  byte_at (wr d i bs) j = byte_at d j.
Proof.
  intros H Hj. unfold byte_at, wr. f_equal. destruct Hj as [Hj|Hj].
  - rewrite lookup_app_l by (rewrite length_take; lia). by rewrite lookup_take_lt.
  - rewrite lookup_app_r by (rewrite length_take; lia). rewrite length_take_le by lia.
    rewrite lookup_app_r by lia. rewrite lookup_drop. f_equal. lia.
Qed.

Lemma u8_sum v :
  0 <= v < 2 ^ 32 ->
  u8 v + u8 (v / 2 ^ 8) * 2 ^ 8 + u8 (v / 2 ^ 16) * 2 ^ 16 + u8 (v / 2 ^ 24) * 2 ^ 24 = v.
Proof.
  intros Hv. unfold u8.
  pose proof (Z.div_mod v 256 ltac:(lia)). pose proof (Z.mod_pos_bound v 256 ltac:(lia)).
  change (2 ^ 8) with 256. change (2 ^ 16) with (256 * 256). change (2 ^ 24) with (256 * 256 * 256).
  rewrite <- !Z.div_div by lia.
  set (q := v / 256) in *.
  pose proof (Z.div_mod q 256 ltac:(lia)). pose proof (Z.mod_pos_bound q 256 ltac:(lia)).
  set (q2 := q / 256) in *.
  pose proof (Z.div_mod q2 256 ltac:(lia)). pose proof (Z.mod_pos_bound q2 256 ltac:(lia)).
  set (q3 := q2 / 256) in *.
  assert (0 <= q3 < 256) by lia. rewrite (Z.mod_small q3 256) by lia. lia.
Qed.

Lemma rd32_wr32 d i v :
  (i + 4 <= length d)%nat -> 0 <= v < 2 ^ 32 -> rd32 (wr32 d i v) i = v.
Proof.
  intros Hi Hv. unfold rd32, wr32.
  pose proof (byte_at_wr_in d i (le32 v) 0 (u8 v) Hi eq_refl) as H0. rewrite Nat.add_0_r in H0.
  rewrite H0, (byte_at_wr_in d i (le32 v) 1 _ Hi eq_refl), (byte_at_wr_in d i (le32 v) 2 _ Hi eq_refl),
    (byte_at_wr_in d i (le32 v) 3 _ Hi eq_refl). by apply u8_sum.
Qed.

Lemma rd32_wr_ne d i bs j :
  (i + length bs <= length d)%nat -> (j + 4 <= i \/ i + length bs <= j)%nat ->
  rd32 (wr d i bs) j = rd32 d j.
Proof. intros Hi Hj. unfold rd32. by rewrite !byte_at_wr_out by lia. Qed.

Lemma rd32_wr32_ne d i v j :
  (i + 4 <= length d)%nat -> (j + 4 <= i \/ i + 4 <= j)%nat -> rd32 (wr32 d i v) j = rd32 d j.
Proof. intros Hi Hj. by apply rd32_wr_ne. Qed.

Lemma length_wr32 d i v : (i + 4 <= length d)%nat -> length (wr32 d i v) = length d.
Proof. apply (length_wr d i (le32 v)). Qed.

Lemma length_wr16 d i v : (i + 2 <= length d)%nat -> length (wr16 d i v) = length d.
Proof. apply (length_wr d i (le16 v)). Qed.

Lemma rd16_wr16 d i v :
  (i + 2 <= length d)%nat -> 0 <= v < 2 ^ 16 -> rd16 (wr16 d i v) i = v.
Proof.
  intros Hi Hv. unfold rd16, wr16.
  pose proof (byte_at_wr_in d i (le16 v) 0 (u8 v) Hi eq_refl) as H0. rewrite Nat.add_0_r in H0.
  rewrite H0, (byte_at_wr_in d i (le16 v) 1 _ Hi eq_refl). unfold u8.
  pose proof (Z.div_mod v 256 ltac:(lia)). pose proof (Z.mod_pos_bound v 256 ltac:(lia)).
  change (2 ^ 8) with 256. assert (0 <= v / 256 < 256) by lia.
  rewrite (Z.mod_small (v / 256) 256) by lia. lia.
Qed.

Lemma rd16_wr_ne d i bs j :
  (i + length bs <= length d)%nat -> (j + 2 <= i \/ i + length bs <= j)%nat ->
  rd16 (wr d i bs) j = rd16 d j.
Proof. intros Hi Hj. unfold rd16. by rewrite !byte_at_wr_out by lia. Qed.

Lemma le32_ok v : bytes_ok (le32 v).
Proof. repeat constructor; apply u8_range. Qed.

Lemma le16_ok v : bytes_ok (le16 v).
Proof. repeat constructor; apply u8_range. Qed.

Lemma wr_ok d i bs : bytes_ok d -> bytes_ok bs -> bytes_ok (wr d i bs).
Proof.
  intros Hd Hb. unfold bytes_ok, wr. rewrite !Forall_app. split_and!; [by apply Forall_take|done|].
  by apply Forall_drop.
Qed.

Lemma byte_at_range d i : bytes_ok d -> 0 <= byte_at d i < 256.
Proof.
  intros Hd. unfold byte_at. destruct (d !! i) as [b|] eqn:Hb; cbn; [|lia].
  by apply (Forall_lookup_1 _ _ _ _ Hd Hb).
Qed.

Lemma rd32_range d i : bytes_ok d -> 0 <= rd32 d i < 2 ^ 32.
Proof.
  intros Hd. unfold rd32.
  pose proof (byte_at_range d i Hd). pose proof (byte_at_range d (i + 1) Hd).
  pose proof (byte_at_range d (i + 2) Hd). pose proof (byte_at_range d (i + 3) Hd). lia.
Qed.

(** ** Fields of a structure *)

Lemma byte_at_wr_at d i bs j :
  (i + length bs <= length d)%nat -> (j < length bs)%nat -> byte_at (wr d i bs) (i + j) = byte_at bs j.
Proof.
  intros Hi Hj. destruct (lookup_lt_is_Some_2 bs j Hj) as [b Hb].
  rewrite (byte_at_wr_in d i bs j b Hi Hb). unfold byte_at. by rewrite Hb.
Qed.

Lemma rd32_wr_at d i bs j :
  (i + length bs <= length d)%nat -> (j + 4 <= length bs)%nat -> rd32 (wr d i bs) (i + j) = rd32 bs j.
Proof. intros Hi Hj. unfold rd32. rewrite <- !Nat.add_assoc. by rewrite !byte_at_wr_at by lia. Qed.

Lemma rd16_wr_at d i bs j :
  (i + length bs <= length d)%nat -> (j + 2 <= length bs)%nat -> rd16 (wr d i bs) (i + j) = rd16 bs j.
Proof. intros Hi Hj. unfold rd16. rewrite <- !Nat.add_assoc. by rewrite !byte_at_wr_at by lia. Qed.

Lemma byte_at_app_l l r i : (i < length l)%nat -> byte_at (l ++ r) i = byte_at l i.
Proof. intros Hi. unfold byte_at. by rewrite lookup_app_l. Qed.
Lemma byte_at_app_r l r i : byte_at (l ++ r) (length l + i) = byte_at r i.
Proof. unfold byte_at. rewrite lookup_app_r by lia. do 2 f_equal. lia. Qed.

Lemma rd32_app_r l r i : rd32 (l ++ r) (length l + i) = rd32 r i.
Proof. unfold rd32. by rewrite <- !Nat.add_assoc, !byte_at_app_r. Qed.
Lemma rd16_app_r l r i : rd16 (l ++ r) (length l + i) = rd16 r i.
Proof. unfold rd16. by rewrite <- !Nat.add_assoc, !byte_at_app_r. Qed.

Lemma rd32_le32 v r : 0 <= v < 2 ^ 32 -> rd32 (le32 v ++ r) 0 = v.
Proof. intros Hv. exact (u8_sum v Hv). Qed.

Lemma rd16_le16 v r : rd16 (le16 v ++ r) 0 = u16 v.
Proof.
  unfold rd16, le16, byte_at. cbn. unfold u8, u16. change (2 ^ 16) with (2 ^ 8 * 2 ^ 8).
  rewrite Z.rem_mul_r by lia. lia.
Qed.

Lemma length_le32s l : length (concat (le32 <$> l)) = (4 * length l)%nat.
Proof. induction l as [|v l IH]; [done|]. cbn [fmap list_fmap concat]. rewrite length_app, IH. cbn. lia. Qed.

Lemma rd32_le32s l : forall i v, l !! i = Some v -> 0 <= v < 2 ^ 32 -> rd32 (concat (le32 <$> l)) (4 * i) = v.
Proof.
  induction l as [|w l IH]; intros i v Hi Hv; [done|]. cbn [fmap list_fmap concat]. destruct i as [|i].
  - injection Hi as ->. by apply rd32_le32.
  - replace (4 * S i)%nat with (length (le32 w) + 4 * i)%nat by (cbn; lia). rewrite rd32_app_r. by apply IH.
Qed.
