(* ===== verification/Kalloc.v ===== *)
(** The physical page allocator ([kalloc.c]).

    Memory is that of [CString], addressed as the kernel addresses it: a
    physical address [pa] is at [KERNBASE + pa].  The free list runs through
    the free pages themselves. *)

From S2P Require Import Prelude Layout CString Bytes.

(** The linker's [end] and [data] are where the kernel image ends and where
    its writable part starts. *)
Class linked := Linked {
  end_ : Z;
  data_ : Z
}.

(** A 32-bit load. *)
Definition load32 (m : mem) (a : Z) : Z :=
  m a + m (a + 1) * 2 ^ 8 + m (a + 2) * 2 ^ 16 + m (a + 3) * 2 ^ 24.

(** [kmem] and memory. *)
Record vst := Vst {
  use_lock : Z;
  freelist : Z;
  vmem : mem
}.
Definition set_use_lock (v : Z) (s : vst) : vst := Vst v (freelist s) (vmem s).
Definition set_freelist (v : Z) (s : vst) : vst := Vst (use_lock s) v (vmem s).
Definition set_vmem (v : mem) (s : vst) : vst := Vst (use_lock s) (freelist s) v.

Definition V (A : Type) : Type := M vst A.

Definition on_mem (f : mem -> mem) : V () := modify (fun s => set_vmem (f (vmem s)) s).
Definition ld (a : Z) : V Z := gets (fun s => load32 (vmem s) a).
Definition st (a v : Z) : V () := on_mem (fun m => store32 m a v).

(** ** Operations *)

Section kalloc.
Context `{linked}.

Definition kfree (v : Z) : V () :=
  if negb (v mod PGSIZE =? 0) || (v <? end_) || (PHYSTOP <=? V2P v) then panic "kfree" else
  on_mem (fun m => memset m v 1 PGSIZE);;
  f ← gets freelist;
  st v f;;
  modify (set_freelist v).

Definition kalloc : V Z :=
  r ← gets freelist;
  when (negb (r =? 0)) (n ← ld r; modify (set_freelist n));;
  ret r.

(** [p + PGSIZE <= vend]; every round but the last moves [p] up a page, so
    there are at most [(vend - p) / PGSIZE + 1] rounds. *)
Fixpoint freerange_loop (fuel : nat) (p vend : Z) : V () :=
  match fuel with
  | O => spin
  | S fuel =>
      if vend <? u32 (p + PGSIZE) then ret ()
      else kfree p;; freerange_loop fuel (u32 (p + PGSIZE)) vend
  end.
Definition freerange (vstart vend : Z) : V () :=
  let p := PGROUNDUP vstart in
  freerange_loop (S (Z.to_nat ((vend - p) / PGSIZE))) p vend.

Definition kinit1 (vstart vend : Z) : V () :=
  modify (set_use_lock 0);;
  freerange vstart vend.
Definition kinit2 (vstart vend : Z) : V () :=
  freerange vstart vend;;
  modify (set_use_lock 1).
End kalloc.

(** ** Words and pages *)

Lemma load32_ext m m' a : (forall i, 0 <= i < 4 -> m' (a + i) = m (a + i)) -> load32 m' a = load32 m a.
Proof.
  intros Hm. unfold load32. rewrite <- (Z.add_0_r a) at 1 5. by rewrite !Hm by lia.
Qed.

Lemma store32_at m a v x :
  store32 m a v x = if (a <=? x) && (x <? a + 4) then u8 (Z.shiftr v (8 * (x - a))) else m x.
Proof.
  unfold store32, store.
  destruct (Z.eqb_spec x (a + 3)) as [->|]; [by rewrite (proj2 (Z.leb_le _ _)), (proj2 (Z.ltb_lt _ _)), Z.add_simpl_l by lia|].
  destruct (Z.eqb_spec x (a + 2)) as [->|]; [by rewrite (proj2 (Z.leb_le _ _)), (proj2 (Z.ltb_lt _ _)), Z.add_simpl_l by lia|].
  destruct (Z.eqb_spec x (a + 1)) as [->|]; [by rewrite (proj2 (Z.leb_le _ _)), (proj2 (Z.ltb_lt _ _)), Z.add_simpl_l by lia|].
  destruct (Z.eqb_spec x a) as [->|]; [by rewrite (proj2 (Z.leb_le _ _)), (proj2 (Z.ltb_lt _ _)), Z.sub_diag, Z.shiftr_0_r by lia|].
  destruct (Z.leb_spec a x), (Z.ltb_spec x (a + 4)); cbn; done || lia.
Qed.

Lemma store32_out m a v x : x < a \/ a + 4 <= x -> store32 m a v x = m x.
Proof. intros Hx. rewrite store32_at. destruct (Z.leb_spec a x), (Z.ltb_spec x (a + 4)); cbn; done || lia. Qed.

Lemma load32_store32 m a v : 0 <= v < 2 ^ 32 -> load32 (store32 m a v) a = v.
Proof.
  intros Hv. unfold load32. rewrite !store32_at.
  do 4 (rewrite (proj2 (Z.leb_le _ _)) by lia; rewrite (proj2 (Z.ltb_lt _ _)) by lia; cbn [andb]).
  replace (8 * (a - a)) with 0 by lia. replace (8 * (a + 1 - a)) with 8 by lia.
  replace (8 * (a + 2 - a)) with 16 by lia. replace (8 * (a + 3 - a)) with 24 by lia.
  rewrite Z.shiftr_0_r, !Z.shiftr_div_pow2 by lia. apply (u8_sum v Hv).
Qed.

Lemma load32_store32_ne m a v b : b + 4 <= a \/ a + 4 <= b -> load32 (store32 m a v) b = load32 m b.
Proof. intros Hb. apply load32_ext. intros i Hi. apply store32_out. lia. Qed.

(** ** The free list *)

(** What the linker script guarantees. *)
Class linked_ok `{linked} : Prop := Linked_ok {
  data_above : KERNLINK < data_;
  data_aligned : data_ mod PGSIZE = 0;
  end_above : data_ <= end_;
  end_below : end_ < KERNBASE + PHYSTOP
}.

Definition in_page (p x : Z) : Prop := p <= x < p + PGSIZE.

(** Nothing outside the pages [ps] was written. *)
Definition only_pages (ps : list Z) (m m' : mem) : Prop :=
  forall x, (forall p, p ∈ ps -> ~ in_page p x) -> m' x = m x.

Section freelist.
Context `{linked} {Hlk : linked_ok}.

(** The pages the allocator hands out. *)
Definition page (a : Z) : Prop := a mod PGSIZE = 0 /\ end_ <= a < KERNBASE + PHYSTOP.

Lemma page_range a : page a -> KERNLINK <= a /\ a + PGSIZE <= KERNBASE + PHYSTOP /\ a mod PGSIZE = 0.
Proof.
  intros [Ha Hr]. pose proof data_above. pose proof end_above. split_and!; [lia| |done].
  unfold PGSIZE, KERNBASE, PHYSTOP in *. apply Z.mod_divide in Ha as [k ->]; lia.
Qed.

Lemma page_disjoint p q x : page p -> page q -> in_page p x -> in_page q x -> p = q.
Proof.
  intros [Hp _] [Hq _]. unfold in_page, PGSIZE in *.
  apply Z.mod_divide in Hp as [k ->], Hq as [l ->]; lia.
Qed.

Lemma page_word p i : page p -> 0 <= i < 1024 -> forall j, 0 <= j < 4 -> in_page p (p + 4 * i + j).
Proof. intros _ Hi j Hj. unfold in_page, PGSIZE. lia. Qed.

Fixpoint chain (m : mem) (head : Z) (l : list Z) : Prop :=
  match l with
  | [] => head = 0
  | p :: l => head = p /\ chain m (load32 m p) l
  end.

(** [free] is the free list: distinct pages, linked through their first word. *)
Record kok (s : vst) (free : list Z) : Prop := Kok {
  kok_chain : chain (vmem s) (freelist s) free;
  kok_nodup : NoDup free;
  kok_page : Forall page free
}.

Lemma chain_ext m m' head l :
  Forall page l -> (forall p x, p ∈ l -> in_page p x -> m' x = m x) -> chain m head l -> chain m' head l.
Proof.
  revert head. induction l as [|p l IH]; intros head Hl Hm; cbn; [done|]. intros [-> Hc]. split; [done|].
  apply Forall_cons in Hl as [Hp Hl].
  assert (load32 m' p = load32 m p) as ->.
  { apply load32_ext. intros i Hi. apply (Hm p); [left|]. unfold in_page, PGSIZE. lia. }
  apply IH; [done| |done]. intros q x Hq. apply Hm. by right.
Qed.

(** Writes to pages that are not free leave the free list alone. *)
Lemma kok_frame s free ps m' :
  kok s free -> Forall page ps -> (forall p, p ∈ ps -> p ∉ free) -> only_pages ps (vmem s) m' ->
  kok (set_vmem m' s) free.
Proof.
  intros [Hc Hnd Hp] Hps Hdis Hm. constructor; [|done|done]. cbn.
  eapply chain_ext; [done| |exact Hc]. intros q x Hq Hx. apply Hm. intros p Hin Hpx.
  rewrite Forall_forall in Hps. rewrite Forall_forall in Hp.
  assert (p = q) as -> by (eapply page_disjoint; eauto). by apply (Hdis q).
Qed.

Lemma page_nonzero p : page p -> p <> 0.
Proof. intros Hp. apply page_range in Hp. unfold KERNLINK, KERNBASE, EXTMEM in Hp. lia. Qed.

Lemma kalloc_spec s free :
  kok s free ->
  match free with
  | [] => kalloc s = Ok (0, s)
  | p :: free' => exists s', kalloc s = Ok (p, s') /\ kok s' free' /\ vmem s' = vmem s /\ use_lock s' = use_lock s
  end.
Proof.
  intros [Hc Hnd Hp]. unfold kalloc, bind, gets, when. destruct free as [|p free]; cbn in Hc.
  - rewrite Hc. cbn. done.
  - destruct Hc as [-> Hc]. apply Forall_cons in Hp as [Hpp Hp]. apply NoDup_cons in Hnd as [_ Hnd].
    rewrite (proj2 (Z.eqb_neq p 0)) by by apply page_nonzero. cbn.
    eexists. split; [done|]. done.
Qed.

Lemma V2P_page p : page p -> V2P p = p - KERNBASE.
Proof.
  intros Hp. apply page_range in Hp. unfold V2P. apply u32_small.
  unfold KERNLINK, KERNBASE, PHYSTOP, EXTMEM, PGSIZE in *. lia.
Qed.

Lemma P2V_V2P p : page p -> P2V (V2P p) = p.
Proof.
  intros Hp. rewrite (V2P_page p Hp). apply page_range in Hp. unfold P2V. rewrite u32_small;
    unfold KERNLINK, KERNBASE, PHYSTOP, EXTMEM, PGSIZE in *; lia.
Qed.

Lemma only_pages_set p m c : page p -> only_pages [p] m (memset m p c PGSIZE).
Proof.
  intros Hp x Hx. rewrite memset_correct by (unfold PGSIZE; lia).
  specialize (Hx p ltac:(left)). unfold in_page in Hx.
  destruct (Z.leb_spec p x), (Z.ltb_spec x (p + PGSIZE)); cbn; done || lia.
Qed.

Lemma only_pages_store p m a v : p <= a -> a + 4 <= p + PGSIZE -> only_pages [p] m (store32 m a v).
Proof.
  intros Ha Hb x Hx. apply store32_out. specialize (Hx p ltac:(left)). unfold in_page in Hx. lia.
Qed.

Lemma only_pages_trans ps m1 m2 m3 : only_pages ps m1 m2 -> only_pages ps m2 m3 -> only_pages ps m1 m3.
Proof. intros H1 H2 x Hx. by rewrite H2, H1. Qed.

Lemma only_pages_mono ps qs m m' : (forall p, p ∈ ps -> p ∈ qs) -> only_pages ps m m' -> only_pages qs m m'.
Proof. intros Hsub Hm x Hx. apply Hm. intros p Hp. by apply Hx, Hsub. Qed.

Lemma only_pages_refl ps m : only_pages ps m m.
Proof. done. Qed.

Lemma kfree_spec s free p :
  kok s free -> page p -> p ∉ free ->
  exists s', kfree p s = Ok ((), s') /\ kok s' (p :: free) /\ only_pages [p] (vmem s) (vmem s') /\
    use_lock s' = use_lock s.
Proof.
  intros Hk Hp Hpf. assert (Hr := page_range p Hp). destruct Hr as (Hr1 & Hr2 & Hr3).
  unfold kfree. rewrite Hr3, (V2P_page p Hp). cbn [negb Z.eqb].
  destruct Hp as [Hp1 Hp2].
  rewrite (proj2 (Z.ltb_ge p end_)), (proj2 (Z.leb_gt PHYSTOP _)) by (unfold PGSIZE in *; lia). cbn [orb].
  set (m1 := memset (vmem s) p 1 PGSIZE). set (m2 := store32 m1 p (freelist s)).
  assert (Hm : only_pages [p] (vmem s) m2).
  { eapply only_pages_trans; [by apply only_pages_set|]. apply only_pages_store; unfold PGSIZE; lia. }
  exists (set_freelist p (set_vmem m2 s)). split; [done|split; [|done]].
  destruct (kok_frame s free [p] m2 Hk) as [Hc Hnd Hpg]; [by apply Forall_singleton| |done|].
  { by intros q ->%list_elem_of_singleton. }
  constructor; [|by constructor|by constructor]. cbn. split; [done|]. unfold m2.
  rewrite load32_store32; [exact Hc|].
  destruct Hk as [Hc0 _ Hpg0]. destruct free as [|q free]; cbn in Hc0; [lia|]. destruct Hc0 as [-> _].
  apply Forall_cons in Hpg0 as [Hq _]. apply page_range in Hq.
  unfold KERNLINK, KERNBASE, PHYSTOP, EXTMEM, PGSIZE in *. lia.
Qed.
End freelist.

(** ** Initialisation *)

Section init.
Context `{linked} {Hlk : linked_ok}.

Lemma ldiff_pow2 x : Z.ldiff x (PGSIZE - 1) = PGSIZE * (x / PGSIZE).
Proof.
  change (PGSIZE - 1) with (Z.ones 12). rewrite Z.ldiff_ones_r by lia.
  rewrite Z.shiftr_div_pow2, Z.shiftl_mul_pow2 by lia. change (2 ^ 12) with PGSIZE. apply Z.mul_comm.
Qed.

Lemma PGROUNDUP_spec a : 0 <= a <= 2 ^ 32 - PGSIZE ->
  PGROUNDUP a mod PGSIZE = 0 /\ a <= PGROUNDUP a < a + PGSIZE.
Proof.
  intros Ha. unfold PGROUNDUP. rewrite ldiff_pow2, u32_small by (unfold PGSIZE in *; lia).
  unfold PGSIZE in *. split; [by rewrite Z.mul_comm, Z_mod_mult|].
  pose proof (Z.mul_div_le (a + 4096 - 1) 4096 ltac:(lia)).
  pose proof (Z.mul_succ_div_gt (a + 4096 - 1) 4096 ltac:(lia)). lia.
Qed.

Lemma freerange_loop_spec n : forall p s free,
  p mod PGSIZE = 0 -> end_ <= p -> p + PGSIZE * Z.of_nat n <= KERNBASE + PHYSTOP -> kok s free ->
  (forall q, q ∈ free -> ~ p <= q < p + PGSIZE * Z.of_nat n) ->
  forall vend, p + PGSIZE * Z.of_nat n <= vend < p + PGSIZE * Z.of_nat n + PGSIZE ->
  runs (freerange_loop (S n) p vend) s (fun _ s' => exists free', kok s' free' /\ use_lock s' = use_lock s /\
    forall q, q ∈ free' <-> q ∈ free \/ (q mod PGSIZE = 0 /\ p <= q < p + PGSIZE * Z.of_nat n)).
Proof.
  pose proof end_above. pose proof data_above.
  induction n as [|n IH]; intros p s free Hp Hlo Hhi Hk Hfree vend Hv; cbn [freerange_loop].
  - rewrite u32_small by (unfold PGSIZE, KERNLINK, KERNBASE, PHYSTOP, EXTMEM in *; lia).
    rewrite (proj2 (Z.ltb_lt vend _)) by lia. exists free. split_and!; [done|done|]. intros q. split; [auto|].
    intros [?|?]; [done|lia].
  - unfold PGSIZE, KERNLINK, KERNBASE, PHYSTOP, EXTMEM in *.
    rewrite u32_small by lia. rewrite (proj2 (Z.ltb_ge vend _)) by lia.
    assert (Hpg : page p) by (split; unfold PGSIZE, KERNBASE, PHYSTOP; lia).
    destruct (kfree_spec s free p Hk Hpg) as (s1 & Hs1 & Hk1 & _ & Hul).
    { intros Hin. apply (Hfree p Hin). lia. }
    apply runs_bind. eapply runs_Ok; [exact Hs1|].
    eapply runs_mono; [apply (IH (p + 4096) s1 (p :: free))|].
    + rewrite Z.add_mod, Hp by lia. done.
    + lia.
    + lia.
    + done.
    + intros q [->|Hq]%elem_of_cons; [lia|]. specialize (Hfree q Hq). lia.
    + lia.
    + intros [] s2 (free' & Hk2 & Hul2 & Hin). exists free'. split_and!; [done|congruence|].
      intros q. rewrite Hin, elem_of_cons. split; [intros [[->|?]|?]; [right; lia|auto|right; lia]|].
      intros [?|[Hq1 Hq2]]; [auto|]. destruct (decide (q = p)) as [->|Hne]; [auto|right]. split; [done|].
      assert (p + 4096 <= q); [|lia]. apply Z.mod_divide in Hp as [k ->], Hq1 as [l ->]; lia.
Qed.

(** The pages from [vstart] to [vend] are put on the free list. *)
Lemma freerange_spec vstart vend s free :
  end_ <= vstart -> vstart <= vend <= KERNBASE + PHYSTOP -> vend mod PGSIZE = 0 -> kok s free ->
  (forall q, q ∈ free -> ~ vstart <= q < vend) ->
  runs (freerange vstart vend) s (fun _ s' => exists free', kok s' free' /\ use_lock s' = use_lock s /\
    forall q, q ∈ free' <-> q ∈ free \/ (q mod PGSIZE = 0 /\ vstart <= q < vend)).
Proof.
  intros Hlo Hhi Hv Hk Hfree. pose proof end_above. pose proof data_above.
  unfold KERNLINK, KERNBASE, PHYSTOP, EXTMEM in *.
  destruct (PGROUNDUP_spec vstart) as [Hp1 Hp2]; [unfold PGSIZE; lia|].
  unfold freerange. cbn zeta. set (p := PGROUNDUP vstart) in *.
  assert (Hpv : p <= vend).
  { unfold PGSIZE in *. apply Z.mod_divide in Hp1 as [k ->], Hv as [l ->]; lia. }
  set (n := Z.to_nat ((vend - p) / PGSIZE)).
  assert (Hn : vend = p + PGSIZE * Z.of_nat n).
  { unfold n. rewrite Z2Nat.id by (apply Z.div_pos; unfold PGSIZE; lia).
    unfold PGSIZE in *. apply Z.mod_divide in Hp1 as [k ->], Hv as [l ->]; try lia.
    replace (l * 4096 - k * 4096) with ((l - k) * 4096) by lia. rewrite Z.div_mul by lia. lia. }
  eapply runs_mono; [apply (freerange_loop_spec n p s free); try done; try (unfold PGSIZE, KERNBASE, PHYSTOP in *; lia)|].
  - intros q Hq. specialize (Hfree q Hq). lia.
  - intros [] s' (free' & Hk' & Hul & Hin). exists free'. split_and!; [done|done|].
    intros q. rewrite Hin. split; (intros [?|[Hq1 Hq2]]; [auto|right]); (split; [done|]); [lia|].
    unfold PGSIZE in *. apply Z.mod_divide in Hp1 as [k Hk1], Hq1 as [l ->]; lia.
Qed.

(** The memory of a machine that has just loaded the kernel. *)
Definition boot_vst (m : mem) : vst := Vst 0 0 m.

(** Every page the kernel image does not occupy is on the free list, once. *)
(** After [kinit1] and [kinit2] every page between the end of the kernel
    image and the top of physical memory is on the free list, exactly once, and
    nothing else is. *)
Theorem kinit_frees_all m :
  end_ <= KERNBASE + 4 * 1024 * 1024 ->
  runs (kinit1 end_ (P2V (4 * 1024 * 1024));; kinit2 (P2V (4 * 1024 * 1024)) (P2V PHYSTOP)) (boot_vst m)
    (fun _ s => exists free, kok s free /\ use_lock s = 1 /\ forall p, p ∈ free <-> page p).
Proof.
  intros He. pose proof end_above. pose proof data_above. unfold kinit1, kinit2.
  change (P2V (4 * 1024 * 1024)) with (KERNBASE + 4194304). change (P2V PHYSTOP) with (KERNBASE + PHYSTOP).
  unfold KERNLINK, KERNBASE, PHYSTOP, EXTMEM in *.
  apply runs_bind, runs_bind. eapply runs_Ok; [done|].
  eapply runs_mono; [apply (freerange_spec end_ _ _ [])|]; cbn; try (unfold KERNBASE, PHYSTOP; lia); try done.
  { constructor; [done|constructor|constructor]. }
  { intros q Hq. by apply not_elem_of_nil in Hq. }
  intros [] s1 (free1 & Hk1 & Hul1 & Hin1).
  apply runs_bind. eapply runs_mono; [apply (freerange_spec _ _ s1 free1)|]; try (unfold KERNBASE, PHYSTOP; lia); try done.
  { intros q [Hq|[_ Hq]]%Hin1; [by apply not_elem_of_nil in Hq|lia]. }
  intros [] s2 (free2 & [Hc Hnd Hpg] & Hul2 & Hin2). eapply runs_Ok; [done|].
  exists free2. split_and!; [by constructor|done|]. intros p. rewrite Hin2, Hin1.
  unfold page, KERNBASE, PHYSTOP, PGSIZE. rewrite elem_of_nil. lia.
Qed.
End init.

(** A kernel image for examples. *)
#[export] Instance demo_linked : linked := Linked (KERNBASE + 0x114000) (KERNBASE + 0x109000).
#[export] Instance demo_linked_ok : linked_ok.
Proof. constructor; cbn; unfold KERNLINK, KERNBASE, EXTMEM, PHYSTOP, PGSIZE; lia || done. Qed.

Lemma kinit_frees_all_witness :
  runs (kinit1 end_ (P2V (4 * 1024 * 1024));; kinit2 (P2V (4 * 1024 * 1024)) (P2V PHYSTOP)) (boot_vst (fun _ => 0))
    (fun _ s => exists free, kok s free /\ use_lock s = 1 /\ forall p, p ∈ free <-> page p).
Proof. apply (kinit_frees_all (fun _ => 0)). cbn. unfold KERNBASE. lia. Defined.
