(* ===== verification/Vm.v ===== *)
(** Page tables and user memory ([vm.c], with the macros of [mmu.h]).

    A page directory or page table is a page of memory; the kernel reads and
    writes its entries through the kernel mapping, at [P2V] of the physical
    address. *)

From S2P Require Import Prelude Layout CString Kalloc.

Section vm.
Context `{linked}.

(** ** Walking and mapping *)

(** The address of the entry for [va], or 0. *)
Definition walkpgdir (pgdir va : Z) (alloc : bool) : V Z :=
  let pde := pgdir + 4 * PDX va in
  e ← ld pde;
  if present e then ret (P2V (PTE_ADDR e) + 4 * PTX va) else
  if negb alloc then ret 0 else
  pgtab ← kalloc;
  if pgtab =? 0 then ret 0 else
  on_mem (fun m => memset m pgtab 0 PGSIZE);;
  st pde (Z.lor (Z.lor (Z.lor (V2P pgtab) PTE_P) PTE_W) PTE_U);;
  ret (pgtab + 4 * PTX va).

(** The loop of [mappages]; [fuel] is the number of pages from [a] to [last]. *)
Fixpoint mappages_loop (fuel : nat) (pgdir a last pa perm : Z) : V Z :=
  match fuel with
  | O => spin
  | S fuel =>
      pte ← walkpgdir pgdir a true;
      if pte =? 0 then ret (-1) else
      e ← ld pte;
      if present e then panic "remap" else
      st pte (Z.lor (Z.lor pa perm) PTE_P);;
      if a =? last then ret 0
      else mappages_loop fuel pgdir (u32 (a + PGSIZE)) last (u32 (pa + PGSIZE)) perm
  end.
Definition mappages (pgdir va size pa perm : Z) : V Z :=
  let a := PGROUNDDOWN va in
  let last := PGROUNDDOWN (u32 (va + size - 1)) in
  mappages_loop (S (Z.to_nat ((u32 (last - a)) / PGSIZE))) pgdir a last pa perm.

(** ** Shrinking and freeing *)

Fixpoint deallocuvm_loop (fuel : nat) (pgdir a oldsz : Z) : V () :=
  match fuel with
  | O => spin
  | S fuel =>
      if a <? oldsz then
        pte ← walkpgdir pgdir a false;
        if pte =? 0 then
          deallocuvm_loop fuel pgdir (u32 (u32 (PGADDR (PDX a + 1) 0 0 - PGSIZE) + PGSIZE)) oldsz
        else
          e ← ld pte;
          when (present e) (
            let pa := PTE_ADDR e in
            if pa =? 0 then panic "kfree" else
            kfree (P2V pa);;
            st pte 0);;
          deallocuvm_loop fuel pgdir (u32 (a + PGSIZE)) oldsz
      else ret ()
  end.

(** Every round moves [a] up by a page at least. *)
Definition deallocuvm (pgdir oldsz newsz : Z) : V Z :=
  if oldsz <=? newsz then ret (s32 oldsz) else
  let a := PGROUNDUP newsz in
  deallocuvm_loop (S (Z.to_nat ((oldsz - a + PGSIZE - 1) / PGSIZE))) pgdir a oldsz;;
  ret (s32 newsz).

Definition freevm (pgdir : Z) : V () :=
  if pgdir =? 0 then panic "freevm: no pgdir" else
  deallocuvm pgdir KERNBASE 0;;
  for_ 0 NPDENTRIES (fun i =>
    e ← ld (pgdir + 4 * Z.of_nat i);
    when (present e) (kfree (P2V (PTE_ADDR e))));;
  kfree pgdir.

(** ** The kernel part *)

Record kmap_entry := Kmap { km_virt : Z; km_start : Z; km_end : Z; km_perm : Z }.
Definition kmap : list kmap_entry :=
  [Kmap KERNBASE 0 EXTMEM PTE_W;
   Kmap KERNLINK (V2P KERNLINK) (V2P data_) 0;
   Kmap data_ (V2P data_) PHYSTOP PTE_W;
   Kmap DEVSPACE DEVSPACE 0 PTE_W].

Fixpoint setupkvm_loop (pgdir : Z) (ks : list kmap_entry) : V Z :=
  match ks with
  | [] => ret pgdir
  | k :: ks =>
      r ← mappages pgdir (km_virt k) (u32 (km_end k - km_start k)) (km_start k) (km_perm k);
      if r <? 0 then freevm pgdir;; ret 0
      else setupkvm_loop pgdir ks
  end.
Definition setupkvm : V Z :=
  pgdir ← kalloc;
  if pgdir =? 0 then ret 0 else
  on_mem (fun m => memset m pgdir 0 PGSIZE);;
  if DEVSPACE <? P2V PHYSTOP then panic "PHYSTOP too high" else
  setupkvm_loop pgdir kmap.

(** ** User memory *)

Definition inituvm (pgdir init sz : Z) : V () :=
  if PGSIZE <=? sz then panic "inituvm: more than a page" else
  mem ← kalloc;
  on_mem (fun m => memset m mem 0 PGSIZE);;
  mappages pgdir 0 PGSIZE (V2P mem) (Z.lor PTE_W PTE_U);;
  on_mem (fun m => memmove m mem init sz).

(** [readi dst off n] reads from the file that is loaded; it works on the file
    system and on memory, of which [on_vm] reaches the memory. *)
Section load.
Context {W : Type} (on_vm : forall A, V A -> M W A) (readi : Z -> Z -> Z -> M W Z).
Arguments on_vm {A} _.

Fixpoint loaduvm_loop (fuel : nat) (pgdir addr offset sz i : Z) : M W Z :=
  match fuel with
  | O => spin
  | S fuel =>
      if i <? sz then
        pte ← on_vm (walkpgdir pgdir (u32 (addr + i)) false);
        if pte =? 0 then panic "loaduvm: address should exist" else
        e ← on_vm (ld pte);
        let n := if sz - i <? PGSIZE then sz - i else PGSIZE in
        r ← readi (P2V (PTE_ADDR e)) (u32 (offset + i)) n;
        if negb (r =? n) then ret (-1)
        else loaduvm_loop fuel pgdir addr offset sz (u32 (i + PGSIZE))
      else ret 0
  end.
Definition loaduvm (pgdir addr offset sz : Z) : M W Z :=
  if negb (addr mod PGSIZE =? 0) then panic "loaduvm: addr must be page aligned" else
  loaduvm_loop (S (Z.to_nat ((sz + PGSIZE - 1) / PGSIZE))) pgdir addr offset sz 0.
End load.

Fixpoint allocuvm_loop (fuel : nat) (pgdir a oldsz newsz : Z) : V Z :=
  match fuel with
  | O => spin
  | S fuel =>
      if a <? newsz then
        mem ← kalloc;
        if mem =? 0 then deallocuvm pgdir newsz oldsz;; ret 0 else
        on_mem (fun m => memset m mem 0 PGSIZE);;
        r ← mappages pgdir a PGSIZE (V2P mem) (Z.lor PTE_W PTE_U);
        if r <? 0 then deallocuvm pgdir newsz oldsz;; kfree mem;; ret 0
        else allocuvm_loop fuel pgdir (u32 (a + PGSIZE)) oldsz newsz
      else ret (s32 newsz)
  end.
Definition allocuvm (pgdir oldsz newsz : Z) : V Z :=
  if KERNBASE <=? newsz then ret 0 else
  if newsz <? oldsz then ret (s32 oldsz) else
  let a := PGROUNDUP oldsz in
  allocuvm_loop (S (Z.to_nat ((newsz - a + PGSIZE - 1) / PGSIZE))) pgdir a oldsz newsz.

Definition clearpteu (pgdir uva : Z) : V () :=
  pte ← walkpgdir pgdir uva false;
  if pte =? 0 then panic "clearpteu" else
  e ← ld pte;
  st pte (Z.ldiff e PTE_U).

Fixpoint copyuvm_loop (fuel : nat) (pgdir d sz i : Z) : V Z :=
  match fuel with
  | O => spin
  | S fuel =>
      if i <? sz then
        pte ← walkpgdir pgdir i false;
        if pte =? 0 then panic "copyuvm: pte should exist" else
        e ← ld pte;
        if negb (present e) then panic "copyuvm: page not present" else
        let pa := PTE_ADDR e in
        let flags := PTE_FLAGS e in
        mem ← kalloc;
        if mem =? 0 then freevm d;; ret 0 else
        on_mem (fun m => memmove m mem (P2V pa) PGSIZE);;
        r ← mappages d i PGSIZE (V2P mem) flags;
        if r <? 0 then kfree mem;; freevm d;; ret 0
        else copyuvm_loop fuel pgdir d sz (u32 (i + PGSIZE))
      else ret d
  end.
Definition copyuvm (pgdir sz : Z) : V Z :=
  d ← setupkvm;
  if d =? 0 then ret 0 else
  copyuvm_loop (S (Z.to_nat ((sz + PGSIZE - 1) / PGSIZE))) pgdir d sz 0.

(** ** From user to kernel addresses *)

Definition uva2ka (pgdir uva : Z) : V Z :=
  pte ← walkpgdir pgdir uva false;
  if pte =? 0 then fault "uva2ka: no page table" else
  e ← ld pte;
  if negb (present e) then ret 0 else
  if Z.land e PTE_U =? 0 then ret 0 else
  ret (P2V (PTE_ADDR e)).

Fixpoint copyout_loop (fuel : nat) (pgdir va buf len : Z) : V Z :=
  match fuel with
  | O => spin
  | S fuel =>
      if 0 <? len then
        let va0 := PGROUNDDOWN va in
        pa0 ← uva2ka pgdir va0;
        if pa0 =? 0 then ret (-1) else
        let n := PGSIZE - (va - va0) in
        let n := if len <? n then len else n in
        on_mem (fun m => memmove m (pa0 + (va - va0)) buf n);;
        copyout_loop fuel pgdir (u32 (va0 + PGSIZE)) (buf + n) (len - n)
      else ret 0
  end.
Definition copyout (pgdir va p len : Z) : V Z :=
  copyout_loop (S (S (Z.to_nat (len / PGSIZE + 1)))) pgdir va p len.
End vm.
