(* ===== verification/VmSpec.v ===== *)
(** Invariants of page tables and the behaviour of the operations of [Vm]. *)

From S2P Require Import Prelude Layout CString Kalloc Vm.

(** ** Entries *)

(** A page-aligned address with flags. *)
Lemma aligned_land a f : a mod PGSIZE = 0 -> 0 <= f < PGSIZE -> Z.land a f = 0.
Proof.
  intros Ha Hf. apply Z.bits_inj'. intros n Hn. rewrite Z.land_spec, Z.bits_0.
  destruct (decide (n < 12)) as [Hlt|Hge].
  - assert (Hb : Z.testbit a n = false); [|by rewrite Hb].
    change PGSIZE with (2 ^ 12) in Ha. apply Z.mod_divide in Ha as [k ->]; [|lia].
    rewrite Z.mul_pow2_bits by lia. apply Z.testbit_neg_r. lia.
  - rewrite andb_comm, (Z.bits_above_log2 f n); [done|lia|].
    destruct (decide (f = 0)) as [->|]; [cbn; lia|]. apply Z.log2_lt_pow2; [lia|].
    apply (Z.lt_le_trans _ (2 ^ 12)); [unfold PGSIZE in Hf; lia|]. apply Z.pow_le_mono_r; lia.
Qed.

Lemma lor_flags a f : a mod PGSIZE = 0 -> 0 <= f < PGSIZE -> Z.lor a f = a + f.
Proof.
  intros Ha Hf. rewrite (Z.add_nocarry_lxor a f) by by apply aligned_land.
  symmetry. apply Z.lxor_lor. by apply aligned_land.
Qed.

Lemma PTE_ADDR_flags a f : a mod PGSIZE = 0 -> 0 <= f < PGSIZE -> PTE_ADDR (a + f) = a.
Proof.
  intros Ha Hf. unfold PTE_ADDR. change 4095 with (PGSIZE - 1). rewrite ldiff_pow2.
  unfold PGSIZE in *. apply Z.mod_divide in Ha as [k ->]; [|lia].
  rewrite Z.div_add_l by lia. rewrite Z.div_small by lia. lia.
Qed.

Lemma PTE_FLAGS_flags a f : a mod PGSIZE = 0 -> 0 <= f < PGSIZE -> PTE_FLAGS (a + f) = f.
Proof.
  intros Ha Hf. unfold PTE_FLAGS. change 4095 with (Z.ones 12). rewrite Z.land_ones by lia.
  change (2 ^ 12) with PGSIZE. rewrite Z.add_mod by (unfold PGSIZE; lia). rewrite Ha, Z.add_0_l, Z.mod_mod by (unfold PGSIZE; lia).
  by apply Z.mod_small.
Qed.

Lemma land_flags a f b : a mod PGSIZE = 0 -> 0 <= f < PGSIZE -> 0 <= b < PGSIZE -> Z.land (a + f) b = Z.land f b.
Proof.
  intros Ha Hf Hb. rewrite <- lor_flags by done. rewrite Z.land_lor_distr_l.
  by rewrite (aligned_land a b).
Qed.

Lemma present_flags a f : a mod PGSIZE = 0 -> 0 <= f < PGSIZE -> present (a + f) = present f.
Proof. intros Ha Hf. unfold present. rewrite land_flags by (unfold PTE_P, PGSIZE in *; done || lia). done. Qed.

Lemma PDX_div va : 0 <= va < 2 ^ 32 -> PDX va = va / PGSIZE / 1024 /\ 0 <= PDX va < 1024.
Proof.
  intros Hva. unfold PDX. change 1023 with (Z.ones 10). rewrite Z.land_ones, Z.shiftr_div_pow2 by lia.
  rewrite Z.mod_small.
  - unfold PGSIZE. rewrite Z.div_div by lia. split; [done|]. split; [apply Z.div_pos; lia|apply Z.div_lt_upper_bound; lia].
  - split; [apply Z.div_pos; lia|apply Z.div_lt_upper_bound; lia].
Qed.

Lemma PTX_div va : 0 <= va -> PTX va = (va / PGSIZE) mod 1024.
Proof.
  intros Hva. unfold PTX. change 1023 with (Z.ones 10). by rewrite Z.land_ones, Z.shiftr_div_pow2 by lia.
Qed.

(** ** Page tables *)

Section spec.
Context `{linked} {Hlk : linked_ok}.

Definition pde (m : mem) (d i : Z) : Z := load32 m (d + 4 * i).

(** The entry for page number [v] of the address space, 0 if there is no
    table for it. *)
Definition pte (m : mem) (d v : Z) : Z :=
  let e := pde m d (v / 1024) in
  if present e then load32 m (P2V (PTE_ADDR e) + 4 * (v mod 1024)) else 0.

(** Page numbers of a 32-bit address space. *)
Definition vpn (v : Z) : Prop := 0 <= v < 2 ^ 20.

Definition own (T : gmap Z Z) : list Z := (map_to_list T).*2.

(** [T] gives the page table for each directory entry that is in use. *)
Record pt_ok (m : mem) (d : Z) (T : gmap Z Z) : Prop := Pt_ok {
  pt_some : forall i t, T !! i = Some t -> 0 <= i < 1024 /\ pde m d i = V2P t + 7;
  pt_none : forall i, 0 <= i < 1024 -> T !! i = None -> present (pde m d i) = false
}.

(** [K] are the pages the kernel holds for this address space: the free list,
    the directory and the tables. *)
Record vmc (K : list Z) (s : vst) (free : list Z) (d : Z) (T : gmap Z Z) : Prop := Vmc {
  vmc_kok : kok s free;
  vmc_pt : pt_ok (vmem s) d T;
  vmc_perm : free ++ d :: own T ≡ₚ K;
  vmc_nodup : NoDup K;
  vmc_page : Forall page K
}.

Lemma elem_of_own T t : t ∈ own T <-> exists i, T !! i = Some t.
Proof.
  unfold own. rewrite list_elem_of_fmap. split.
  - intros ([i u] & -> & Hin). exists i. by apply elem_of_map_to_list.
  - intros [i Hi]. exists (i, t). split; [done|]. by apply elem_of_map_to_list.
Qed.

Lemma own_insert T i t : T !! i = None -> own (<[i := t]> T) ≡ₚ t :: own T.
Proof. intros Hi. unfold own. by rewrite map_to_list_insert. Qed.

Lemma own_inj T i j t : NoDup (own T) -> T !! i = Some t -> T !! j = Some t -> i = j.
Proof.
  intros Hnd Hi Hj. destruct (decide (i = j)) as [|Hne]; [done|]. exfalso.
  rewrite <- (insert_delete_id T i t Hi) in Hnd. rewrite own_insert in Hnd by apply lookup_delete_eq.
  apply NoDup_cons in Hnd as [Hn _]. apply Hn. apply elem_of_own. exists j. by rewrite lookup_delete_ne.
Qed.

Lemma own_delete T i t : T !! i = Some t -> own T ≡ₚ t :: own (delete i T).
Proof. intros Hi. rewrite <- (insert_delete_id T i t Hi) at 1. by rewrite own_insert by apply lookup_delete_eq. Qed.

Lemma own_empty : own ∅ = [].
Proof. unfold own. by rewrite map_to_list_empty. Qed.

Lemma V2P_aligned t : page t -> V2P t mod PGSIZE = 0 /\ 0 <= V2P t /\ V2P t + PGSIZE <= PHYSTOP.
Proof.
  intros Ht. rewrite (V2P_page t Ht). apply page_range in Ht as (H1 & H2 & H3).
  unfold KERNLINK, KERNBASE, PHYSTOP, EXTMEM, PGSIZE in *. split_and!; [|lia|lia].
  rewrite Zminus_mod, H3. done.
Qed.

Lemma tab_addr t f : page t -> 0 <= f < PGSIZE -> P2V (PTE_ADDR (V2P t + f)) = t.
Proof.
  intros Ht Hf. rewrite PTE_ADDR_flags by (done || by apply V2P_aligned). by apply P2V_V2P.
Qed.

(** Loads within a page see only that page. *)
Lemma load_page m m' p i :
  0 <= i < 1024 -> (forall x, in_page p x -> m' x = m x) -> load32 m' (p + 4 * i) = load32 m (p + 4 * i).
Proof. intros Hi Hm. apply load32_ext. intros j Hj. apply Hm. unfold in_page, PGSIZE. lia. Qed.

Lemma only_pages_at ps m m' q x :
  Forall page ps -> page q -> q ∉ ps -> only_pages ps m m' -> in_page q x -> m' x = m x.
Proof.
  intros Hps Hq Hn Hm Hx. apply Hm. intros p Hp Hpx. rewrite Forall_forall in Hps.
  assert (p = q) as -> by (eapply page_disjoint; eauto). done.
Qed.

Section core.
Context (K : list Z) (s : vst) (free : list Z) (d : Z) (T : gmap Z Z) (Hc : vmc K s free d T).

Lemma vmc_in p : p ∈ free \/ p = d \/ p ∈ own T -> p ∈ K.
Proof. intros Hp. rewrite <- (vmc_perm _ _ _ _ _ Hc). set_solver. Qed.

Lemma vmc_pages p : p ∈ free \/ p = d \/ p ∈ own T -> page p.
Proof. intros Hp%vmc_in. pose proof (vmc_page _ _ _ _ _ Hc) as Hf. rewrite Forall_forall in Hf. auto. Qed.

Lemma vmc_nd : NoDup (free ++ d :: own T).
Proof. rewrite (vmc_perm _ _ _ _ _ Hc). apply Hc. Qed.

Lemma vmc_tab i t : T !! i = Some t -> page t /\ t <> d /\ (t ∉ free) /\ 0 <= i < 1024 /\ pde (vmem s) d i = V2P t + 7.
Proof.
  intros Hi. assert (Ht : t ∈ own T) by (apply elem_of_own; eauto).
  assert (Hnd := vmc_nd). apply NoDup_app in Hnd as (_ & Hdis & [Hd _]%NoDup_cons).
  destruct (pt_some _ _ _ (vmc_pt _ _ _ _ _ Hc) i t Hi) as [Hr He].
  split_and!; [apply vmc_pages; auto|congruence| |lia|lia|done].
  intros Hf. apply (Hdis t Hf). by right.
Qed.

Lemma vmc_dir : page d /\ d ∉ free.
Proof.
  assert (Hnd := vmc_nd). apply NoDup_app in Hnd as (_ & Hdis & _).
  split; [apply vmc_pages; auto|]. intros Hf. apply (Hdis d Hf). left.
Qed.

Lemma pte_some v t : T !! (v / 1024) = Some t -> pte (vmem s) d v = load32 (vmem s) (t + 4 * (v mod 1024)).
Proof.
  intros Hi. destruct (vmc_tab _ _ Hi) as (Ht & _ & _ & _ & He). unfold pte. rewrite He.
  rewrite present_flags by (unfold PGSIZE; lia || by apply V2P_aligned). cbn [present].
  change (present 7) with true. cbv iota. by rewrite tab_addr by (done || unfold PGSIZE; lia).
Qed.

Lemma vpn_dir v : vpn v -> 0 <= v / 1024 < 1024.
Proof. intros Hv. unfold vpn in Hv. split; [apply Z.div_pos; lia|apply Z.div_lt_upper_bound; lia]. Qed.

Lemma pte_none v : vpn v -> T !! (v / 1024) = None -> pte (vmem s) d v = 0.
Proof.
  intros Hv Hi. unfold pte. by rewrite (pt_none _ _ _ (vmc_pt _ _ _ _ _ Hc)) by (done || by apply vpn_dir).
Qed.

(** Writes elsewhere do not change the address space. *)
Lemma vmc_frame m' ps :
  Forall page ps -> (forall p, p ∈ ps -> p ∉ K) -> only_pages ps (vmem s) m' ->
  vmc K (set_vmem m' s) free d T /\ forall v, vpn v -> pte m' d v = pte (vmem s) d v.
Proof.
  intros Hps Hdis Hm.
  assert (Hsame : forall p x, p ∈ K -> in_page p x -> m' x = vmem s x).
  { intros p x Hp Hx. eapply only_pages_at; [exact Hps| |by intros Hin; apply (Hdis p)|exact Hm|exact Hx].
    pose proof (vmc_page _ _ _ _ _ Hc) as Hf. rewrite Forall_forall in Hf. auto. }
  assert (Hpde : forall i, 0 <= i < 1024 -> pde m' d i = pde (vmem s) d i).
  { intros i Hi. apply load_page; [done|]. intros x. apply Hsame, vmc_in. auto. }
  destruct Hc as [H1 [H2a H2b] H3 H4 H5]. split.
  - constructor; [|constructor|done|done|done]; cbn.
    + eapply kok_frame; [done|exact Hps| |exact Hm]. intros p Hp Hf. apply (Hdis p Hp), vmc_in. auto.
    + intros i t Hi. destruct (H2a i t Hi). split; [done|]. by rewrite Hpde.
    + intros i Hi Hn. rewrite Hpde by done. by apply H2b.
  - intros v Hv. unfold pte. rewrite Hpde by by apply vpn_dir.
    destruct (present (pde (vmem s) d (v / 1024))) eqn:Hp; [|done].
    destruct (T !! (v / 1024)) as [t|] eqn:Ht; [|by rewrite H2b in Hp by (done || by apply vpn_dir)].
    destruct (H2a _ _ Ht) as [_ He]. rewrite He.
    assert (Htp : page t) by (apply vmc_pages; right; right; apply elem_of_own; eauto).
    rewrite tab_addr by (done || unfold PGSIZE; lia). apply load_page; [apply Z.mod_pos_bound; lia|].
    intros x. apply Hsame, vmc_in. right; right. apply elem_of_own. eauto.
Qed.

Definition tab_entry (t v : Z) : Z := t + 4 * (v mod 1024).

(** Storing an entry of an existing table. *)
Lemma vmc_store v t e :
  vpn v -> T !! (v / 1024) = Some t -> 0 <= e < 2 ^ 32 ->
  let m' := store32 (vmem s) (tab_entry t v) e in
  vmc K (set_vmem m' s) free d T /\ only_pages [t] (vmem s) m' /\
  forall w, vpn w -> pte m' d w = if decide (w = v) then e else pte (vmem s) d w.
Proof.
  intros Hv Ht He m'. destruct (vmc_tab _ _ Ht) as (Htp & Htd & Htf & _ & _).
  assert (Hmod : 0 <= v mod 1024 < 1024) by (apply Z.mod_pos_bound; lia).
  assert (Hm : only_pages [t] (vmem s) m').
  { apply only_pages_store; unfold tab_entry, PGSIZE; lia. }
  assert (Hps : Forall page [t]) by by apply Forall_singleton.
  assert (Hdir := vmc_dir). destruct Hdir as [Hdp Hdf].
  assert (Hpde : forall i, 0 <= i < 1024 -> pde m' d i = pde (vmem s) d i).
  { intros i Hi. apply load_page; [done|]. intros x. eapply only_pages_at; [exact Hps|done|set_solver|exact Hm]. }
  assert (Hc' := Hc). destruct Hc' as [H1 [H2a H2b] H3 H4 H5]. split_and!; [|done|].
  - constructor; [|constructor|done|done|done]; cbn.
    + eapply kok_frame; [done|exact Hps| |exact Hm]. by intros p ->%list_elem_of_singleton.
    + intros i u Hi. destruct (H2a i u Hi). split; [done|]. by rewrite Hpde.
    + intros i Hi Hn. rewrite Hpde by done. by apply H2b.
  - intros w Hw. assert (Hpw : pte m' d w = match T !! (w / 1024) with
        | Some u => load32 m' (tab_entry u w) | None => 0 end).
    { unfold pte. rewrite Hpde by by apply vpn_dir. destruct (T !! (w / 1024)) as [u|] eqn:Hu.
      - destruct (vmc_tab _ _ Hu) as (Hup & _ & _ & _ & Heu). rewrite Heu.
        rewrite present_flags by (unfold PGSIZE; lia || by apply V2P_aligned). change (present 7) with true. cbv iota.
        by rewrite tab_addr by (done || unfold PGSIZE; lia).
      - by rewrite H2b by (done || by apply vpn_dir). }
    rewrite Hpw. case_decide as Hwv.
    + subst w. rewrite Ht. unfold m'. by apply load32_store32.
    + destruct (T !! (w / 1024)) as [u|] eqn:Hu; [|by rewrite pte_none].
      rewrite (pte_some w u Hu). unfold m', tab_entry.
      assert (Hmodw : 0 <= w mod 1024 < 1024) by (apply Z.mod_pos_bound; lia).
      destruct (decide (u = t)) as [->|Hut].
      * assert (w / 1024 = v / 1024).
        { eapply own_inj; [|exact Hu|exact Ht]. assert (Hnd := vmc_nd). apply NoDup_app in Hnd as (_ & _ & [_ ?]%NoDup_cons). done. }
        apply load32_store32_ne. pose proof (Z.div_mod w 1024). pose proof (Z.div_mod v 1024). lia.
      * apply load_page; [done|]. intros x. destruct (vmc_tab _ _ Hu) as (Hup & _).
        eapply only_pages_at; [exact Hps|done|set_solver|exact Hm].
Qed.
End core.

(** ** walkpgdir *)

Lemma vpn_of va : 0 <= va < 2 ^ 32 -> vpn (va / PGSIZE) /\ PDX va = va / PGSIZE / 1024 /\ PTX va = (va / PGSIZE) mod 1024.
Proof.
  intros Hva. destruct (PDX_div va Hva) as [H1 _]. split; [|split; [done|apply PTX_div; lia]].
  unfold vpn, PGSIZE. split; [apply Z.div_pos; lia|apply Z.div_lt_upper_bound; lia].
Qed.

(** With no table and without [alloc] or memory, 0. *)
Lemma walk_found K s free d T va alloc t :
  vmc K s free d T -> 0 <= va < 2 ^ 32 -> T !! PDX va = Some t ->
  walkpgdir d va alloc s = Ok (tab_entry t (va / PGSIZE), s).
Proof.
  intros Hc Hva Ht. destruct (vmc_tab _ _ _ _ _ Hc _ _ Ht) as (Htp & _ & _ & _ & He).
  unfold walkpgdir, bind, ld, gets. fold (pde (vmem s) d (PDX va)). rewrite He.
  rewrite present_flags by (unfold PGSIZE; lia || by apply V2P_aligned). change (present 7) with true. cbv iota.
  rewrite tab_addr by (done || unfold PGSIZE; lia). unfold ret, tab_entry. by rewrite PTX_div by lia.
Qed.

Lemma walk_missing K s free d T va :
  vmc K s free d T -> 0 <= va < 2 ^ 32 -> T !! PDX va = None -> walkpgdir d va false s = Ok (0, s).
Proof.
  intros Hc Hva Ht. unfold walkpgdir, bind, ld, gets. fold (pde (vmem s) d (PDX va)).
  by rewrite (pt_none _ _ _ (vmc_pt _ _ _ _ _ Hc) _ (proj2 (PDX_div va Hva)) Ht).
Qed.

(** A new table: nothing is mapped that was not. *)
Lemma vmc_new_table K s p free d T i m' :
  vmc K s free d T -> page p -> p ∉ K -> 0 <= i < 1024 -> T !! i = None ->
  m' = store32 (memset (vmem s) p 0 PGSIZE) (d + 4 * i) (V2P p + 7) ->
  vmc (p :: K) (set_vmem m' s) free d (<[i := p]> T) /\ only_pages [p; d] (vmem s) m' /\
  forall v, vpn v -> pte m' d v = pte (vmem s) d v.
Proof.
  intros Hc Hp HpK Hi HTi ->. set (m1 := memset (vmem s) p 0 PGSIZE). set (m' := store32 m1 (d + 4 * i) (V2P p + 7)).
  destruct (vmc_dir _ _ _ _ _ Hc) as [Hdp Hdf].
  assert (Hpd : p <> d) by (intros ->; apply HpK, (vmc_in _ _ _ _ _ Hc); auto).
  assert (Hm1 : only_pages [p] (vmem s) m1) by by apply only_pages_set.
  assert (Hm2 : only_pages [d] m1 m') by (apply only_pages_store; unfold PGSIZE; lia).
  assert (Hm : only_pages [p; d] (vmem s) m').
  { eapply only_pages_trans; eapply only_pages_mono; [|exact Hm1| |exact Hm2]; set_solver. }
  assert (Hpds : Forall page [p; d]) by (apply Forall_cons; split; [done|by apply Forall_singleton]).
  destruct (V2P_aligned p Hp) as (Hal & Hv0 & Hv1).
  assert (Hpde : forall j, 0 <= j < 1024 -> pde m' d j = if decide (j = i) then V2P p + 7 else pde (vmem s) d j).
  { intros j Hj. unfold pde. case_decide as Hji.
    - subst j. apply load32_store32. unfold PHYSTOP, PGSIZE in *. lia.
    - unfold m'. rewrite load32_store32_ne by lia. apply load_page; [done|]. intros x.
      eapply only_pages_at; [|done| |exact Hm1]; [by apply Forall_singleton|set_solver]. }
  assert (Hzero : forall j, 0 <= j < 1024 -> load32 m' (p + 4 * j) = 0).
  { intros j Hj. transitivity (load32 m1 (p + 4 * j)).
    - apply load_page; [done|]. intros x. eapply only_pages_at; [|done| |exact Hm2]; [by apply Forall_singleton|set_solver].
    - unfold load32, m1. rewrite !memset_correct by (unfold PGSIZE; lia).
      repeat (rewrite (proj2 (Z.leb_le _ _)) by lia; rewrite (proj2 (Z.ltb_lt _ _)) by (unfold PGSIZE; lia)). done. }
  assert (Htab : forall j u, T !! j = Some u -> forall k, 0 <= k < 1024 -> load32 m' (u + 4 * k) = load32 (vmem s) (u + 4 * k)).
  { intros j u Hu k Hk. destruct (vmc_tab _ _ _ _ _ Hc _ _ Hu) as (Hup & Hud & _).
    apply load_page; [done|]. intros x. eapply only_pages_at; [exact Hpds|done| |exact Hm].
    assert (u <> p) by (intros ->; apply HpK, (vmc_in _ _ _ _ _ Hc); right; right; apply elem_of_own; eauto). set_solver. }
  assert (Hc' := Hc). destruct Hc' as [H1 [H2a H2b] H3 H4 H5]. split_and!; [|done|].
  - constructor; [|constructor| |by constructor|by constructor]; cbn.
    + eapply kok_frame; [done|exact Hpds| |exact Hm].
      intros q [->|[->|Hq]%elem_of_cons]%elem_of_cons; [|done|by apply not_elem_of_nil in Hq].
      intros Hf. apply HpK, (vmc_in _ _ _ _ _ Hc). auto.
    + intros j u. destruct (decide (j = i)) as [->|Hji].
      * rewrite lookup_insert_eq. intros [= <-]. rewrite Hpde, decide_True by done. done.
      * rewrite lookup_insert_ne by done. intros Hu. destruct (H2a j u Hu). rewrite Hpde, decide_False by done. done.
    + intros j Hj. destruct (decide (j = i)) as [->|Hji]; [by rewrite lookup_insert_eq|].
      rewrite lookup_insert_ne by done. intros Hn. rewrite Hpde, decide_False by done. by apply H2b.
    + rewrite own_insert by done. rewrite <- H3. solve_Permutation.
  - intros v Hv. assert (Hvd := vpn_dir v Hv). unfold pte. rewrite Hpde by done.
    assert (Hmod : 0 <= v mod 1024 < 1024) by (apply Z.mod_pos_bound; lia).
    case_decide as Hvi.
    + rewrite present_flags by (done || unfold PGSIZE; lia). change (present 7) with true. cbv iota.
      rewrite tab_addr by (done || unfold PGSIZE; lia). rewrite Hzero by done.
      rewrite Hvi. by rewrite (H2b i Hi HTi).
    + destruct (present (pde (vmem s) d (v / 1024))) eqn:Hpr; [|done].
      destruct (T !! (v / 1024)) as [u|] eqn:Hu; [|by rewrite H2b in Hpr].
      destruct (vmc_tab _ _ _ _ _ Hc _ _ Hu) as (Hup & _ & _ & _ & He). rewrite He.
      rewrite tab_addr by (done || unfold PGSIZE; lia). by eapply Htab.
Qed.

Lemma vmc_kalloc K s p free d T :
  vmc K s (p :: free) d T ->
  exists s1 K1, kalloc s = Ok (p, s1) /\ vmem s1 = vmem s /\ vmc K1 s1 free d T /\ K ≡ₚ p :: K1 /\ page p /\ p ∉ K1.
Proof.
  intros Hc. assert (Hnd := vmc_nd _ _ _ _ _ Hc). assert (Hperm := vmc_perm _ _ _ _ _ Hc).
  destruct (kalloc_spec s (p :: free) (vmc_kok _ _ _ _ _ Hc)) as (s1 & Hs1 & Hk1 & Hm1 & _).
  cbn in Hnd, Hperm. apply NoDup_cons in Hnd as [Hp Hnd].
  exists s1, (free ++ d :: own T). split_and!; try done.
  - destruct Hc as [H1 H2 H3 H4 H5]. constructor; [done|by rewrite Hm1|done|done|].
    rewrite <- Hperm in H5. by apply Forall_cons in H5 as [_ ?].
  - apply (vmc_pages _ _ _ _ _ Hc). left. left.
Qed.

Lemma pte_bits p : page p -> Z.lor (Z.lor (Z.lor (V2P p) PTE_P) PTE_W) PTE_U = V2P p + 7.
Proof.
  intros Hp. rewrite <- !Z.lor_assoc. change (Z.lor PTE_P (Z.lor PTE_W PTE_U)) with 7.
  apply lor_flags; [by apply V2P_aligned|unfold PGSIZE; lia].
Qed.

Lemma vmc_permute K K' s free d T : K ≡ₚ K' -> vmc K s free d T -> vmc K' s free d T.
Proof. intros HK [H1 H2 H3 H4 H5]. constructor; [done|done|by rewrite H3|by rewrite <- HK|by rewrite <- HK]. Qed.

Lemma zero_then_store p a e r s :
  (on_mem (fun m => memset m p 0 PGSIZE);; st a e;; ret r) s =
  Ok (r, set_vmem (store32 (memset (vmem s) p 0 PGSIZE) a e) s) :> outcome (Z * vst).
Proof. reflexivity. Qed.

(** What a call that may allocate tables leaves behind. *)
Definition grown (K : list Z) (d : Z) (s s' : vst) (free' : list Z) (T' : gmap Z Z) : Prop :=
  vmc K s' free' d T' /\ only_pages K (vmem s) (vmem s').

Lemma walk_alloc K s free d T va :
  vmc K s free d T -> 0 <= va < 2 ^ 32 ->
  runs (walkpgdir d va true) s (fun r s' =>
    (r = 0 /\ s' = s /\ free = []) \/
    (exists t free' T', r = tab_entry t (va / PGSIZE) /\ r <> 0 /\ T' !! (va / PGSIZE / 1024) = Some t /\
       grown K d s s' free' T' /\ forall v, vpn v -> pte (vmem s') d v = pte (vmem s) d v)).
Proof.
  intros Hc Hva. destruct (vpn_of va Hva) as (Hv & Hpdx & Hptx).
  assert (Hnz : forall t, page t -> tab_entry t (va / PGSIZE) <> 0).
  { intros t Ht. apply page_range in Ht. unfold tab_entry, KERNLINK, KERNBASE, EXTMEM in *.
    pose proof (Z.mod_pos_bound (va / PGSIZE) 1024 ltac:(lia)). lia. }
  destruct (T !! PDX va) as [t|] eqn:Ht.
  - eapply runs_Ok; [by apply (walk_found K s free d T va true t)|]. right. exists t, free, T.
    destruct (vmc_tab _ _ _ _ _ Hc _ _ Ht) as (Htp & _).
    split_and!; [done|by apply Hnz|by rewrite <- Hpdx|split; [done|apply only_pages_refl]|done].
  - unfold runs, walkpgdir. unfold bind at 1. unfold ld, gets. fold (pde (vmem s) d (PDX va)).
    rewrite (pt_none _ _ _ (vmc_pt _ _ _ _ _ Hc) _ (proj2 (PDX_div va Hva)) Ht). cbn [negb].
    destruct free as [|p free].
    + rewrite (bind_Ok _ _ _ _ _ (kalloc_spec s [] (vmc_kok _ _ _ _ _ Hc))). cbn. by left.
    + destruct (vmc_kalloc _ _ _ _ _ _ Hc) as (s1 & K1 & Hs1 & Hm1 & Hc1 & HK & Hpp & HpK).
      rewrite (bind_Ok _ _ _ _ _ Hs1). rewrite (proj2 (Z.eqb_neq p 0)) by by apply page_nonzero.
      rewrite zero_then_store, pte_bits by done.
      right. destruct (vmc_new_table K1 s1 p free d T (PDX va)
        (store32 (memset (vmem s1) p 0 PGSIZE) (d + 4 * PDX va) (V2P p + 7))) as (Hc2 & Hm2 & Hp2); try done.
      { by apply PDX_div. }
      exists p, free, (<[PDX va := p]> T). rewrite Hm1 in Hm2, Hp2.
      split_and!; [unfold tab_entry; by rewrite Hptx|rewrite Hptx; by apply Hnz|by rewrite <- Hpdx, lookup_insert_eq|split|].
      * eapply vmc_permute; [symmetry; exact HK|]. exact Hc2.
      * cbn [vmem set_vmem]. rewrite Hm1. eapply only_pages_mono; [|exact Hm2].
        intros q [->|[->|Hq]%elem_of_cons]%elem_of_cons; rewrite HK; [left| |by apply not_elem_of_nil in Hq].
        right. apply (vmc_in _ _ _ _ _ Hc1). auto.
      * intros v Hv'. cbn [vmem set_vmem]. rewrite Hm1. by apply Hp2.
Qed.

(** ** mappages *)

(** Pages [v0 .. v0 + k - 1] map to the frames from [pa] on. *)
Definition mapped (v0 : Z) (k : nat) (pa perm : Z) (f : Z -> Z) (v : Z) : Z :=
  if decide (v0 <= v < v0 + Z.of_nat k) then pa + (v - v0) * PGSIZE + Z.lor perm PTE_P else f v.

Lemma lor_perm perm : 0 <= perm < PGSIZE -> 0 <= Z.lor perm PTE_P < PGSIZE.
Proof.
  intros Hp. assert (Hs : Z.lor perm PTE_P = Z.lor PTE_P perm) by apply Z.lor_comm.
  assert (H0 : 0 <= Z.lor perm PTE_P) by (apply Z.lor_nonneg; unfold PTE_P; lia). split; [done|].
  change PGSIZE with (2 ^ 12) in *.
  destruct (decide (Z.lor perm PTE_P = 0)) as [->|Hne]; [lia|]. apply Z.log2_lt_pow2; [lia|].
  rewrite Z.log2_lor by (unfold PTE_P; lia). apply Z.max_lub_lt; [|done].
  destruct (decide (perm = 0)) as [->|]; [cbn; lia|]. apply Z.log2_lt_pow2; lia.
Qed.

Lemma present_perm a perm : a mod PGSIZE = 0 -> 0 <= perm < PGSIZE -> present (a + Z.lor perm PTE_P) = true.
Proof.
  intros Ha Hp. rewrite present_flags by (done || by apply lor_perm). unfold present.
  assert (Hb : Z.testbit (Z.land (Z.lor perm PTE_P) PTE_P) 0 = true).
  { rewrite Z.land_spec, Z.lor_spec. cbn. by rewrite orb_true_r. }
  destruct (Z.eqb_spec (Z.land (Z.lor perm PTE_P) PTE_P) 0) as [He|]; [|done]. by rewrite He in Hb.
Qed.

(** One round of [mappages]. *)
Lemma map_one K s free d T v0 e (k : V Z) Q :
  vmc K s free d T -> vpn v0 -> 0 <= e < 2 ^ 32 -> present (pte (vmem s) d v0) = false ->
  Q (-1) s ->
  (forall s' free' T', grown K d s s' free' T' ->
     (forall v, vpn v -> pte (vmem s') d v = if decide (v = v0) then e else pte (vmem s) d v) -> runs k s' Q) ->
  runs (pt ← walkpgdir d (PGSIZE * v0) true;
        if pt =? 0 then ret (-1) else
        x ← ld pt;
        if present x then panic "remap" else
        st pt e;; k) s Q.
Proof.
  intros Hc Hv0 He Hnp Hfail Hk.
  assert (Hva : 0 <= PGSIZE * v0 < 2 ^ 32) by (unfold vpn, PGSIZE in *; lia).
  assert (Hdiv : PGSIZE * v0 / PGSIZE = v0) by (rewrite Z.mul_comm; apply Z.div_mul; unfold PGSIZE; lia).
  apply runs_bind. eapply runs_mono; [by apply (walk_alloc K s free d T)|]. rewrite Hdiv.
  intros r s1 [(-> & -> & _)|(t & free1 & T1 & -> & Hnz & Ht & [Hc1 Hm1] & Hp1)]; [exact Hfail|].
  rewrite (proj2 (Z.eqb_neq _ _)) by done. apply runs_bind. eapply runs_Ok; [done|].
  assert (Hld : load32 (vmem s1) (tab_entry t v0) = pte (vmem s) d v0).
  { rewrite <- Hp1 by done. symmetry. by apply (pte_some K s1 free1 d T1). }
  rewrite Hld, Hnp. apply runs_bind. eapply runs_Ok; [done|].
  destruct (vmc_store K s1 free1 d T1 Hc1 v0 t e Hv0 Ht He) as (Hc2 & Hm2 & Hp2).
  eapply Hk; [split; [exact Hc2|]|].
  - eapply only_pages_trans; [exact Hm1|]. eapply only_pages_mono; [|exact Hm2].
    intros q ->%list_elem_of_singleton. apply (vmc_in _ _ _ _ _ Hc1). right; right. apply elem_of_own. eauto.
  - intros v Hv. cbn [vmem set_vmem]. rewrite Hp2 by done. case_decide; [done|]. by apply Hp1.
Qed.

Lemma mappages_loop_spec n : forall K s free d T v0 pa perm,
  vmc K s free d T -> 0 <= v0 -> v0 + Z.of_nat n < 2 ^ 20 ->
  pa mod PGSIZE = 0 -> 0 <= pa -> pa + PGSIZE * Z.of_nat n < 2 ^ 32 -> 0 <= perm < PGSIZE ->
  (forall v, v0 <= v <= v0 + Z.of_nat n -> present (pte (vmem s) d v) = false) ->
  runs (mappages_loop (S n) d (PGSIZE * v0) (PGSIZE * (v0 + Z.of_nat n)) pa perm) s (fun r s' =>
    exists free' T' k, grown K d s s' free' T' /\ (r = 0 /\ k = S n \/ r = -1 /\ (k <= n)%nat) /\
      forall v, vpn v -> pte (vmem s') d v = mapped v0 k pa perm (pte (vmem s) d) v).
Proof.
  induction n as [|n IH]; intros K s free d T v0 pa perm Hc Hv0 Hvn Hpa Hpa0 Hpan Hperm Hnp;
    unfold mappages_loop; fold mappages_loop; assert (Hlp := lor_perm perm Hperm);
    assert (He : Z.lor (Z.lor pa perm) PTE_P = pa + Z.lor perm PTE_P) by (rewrite <- Z.lor_assoc; by apply lor_flags);
    (eapply map_one; [exact Hc|unfold vpn; lia| |apply Hnp; lia| |]);
    try (rewrite He; unfold PGSIZE in *; apply Z.mod_divide in Hpa as [q ->]; lia);
    try (exists free, T, 0%nat; split_and!; [by split|right; lia|];
         intros v Hv; unfold mapped; by rewrite decide_False by lia).
  - intros s1 free1 T1 Hg Hp1. rewrite Z.add_0_r, Z.eqb_refl. exists free1, T1, 1%nat.
    split_and!; [done|by left|]. intros v Hv. rewrite Hp1, He by done. unfold mapped. case_decide.
    + subst v. rewrite decide_True by lia. lia.
    + by rewrite decide_False by lia.
  - intros s1 free1 T1 [Hc1 Hm1] Hp1. rewrite (proj2 (Z.eqb_neq _ _)) by (unfold PGSIZE; lia).
    replace (u32 (PGSIZE * v0 + PGSIZE)) with (PGSIZE * (v0 + 1)) by (rewrite u32_small; unfold PGSIZE; lia).
    replace (u32 (pa + PGSIZE)) with (pa + PGSIZE) by (rewrite u32_small; unfold PGSIZE in *; lia).
    replace (v0 + Z.of_nat (S n)) with (v0 + 1 + Z.of_nat n) by lia.
    eapply runs_mono; [apply (IH K s1 free1 d T1 (v0 + 1) (pa + PGSIZE) perm Hc1)|]; try (unfold PGSIZE in *; lia).
    + rewrite Z.add_mod, Hpa by (unfold PGSIZE; lia). done.
    + intros v Hv. rewrite Hp1, decide_False by (unfold vpn; lia). apply Hnp. lia.
    + intros r' s3 (free3 & T3 & k & [Hc3 Hm3] & Hr & Hp3). exists free3, T3, (S k). split_and!.
      * split; [done|]. by eapply only_pages_trans.
      * destruct Hr as [[-> ->]|[-> ?]]; [by left|right; split; [done|lia]].
      * intros v Hv. rewrite Hp3 by done. unfold mapped. rewrite Hp1, He by done.
        repeat case_decide; subst; lia || done.
Qed.

(** [mappages] on whole pages. *)
Lemma mappages_spec K s free d T v0 n pa perm :
  vmc K s free d T -> 0 <= v0 -> v0 + Z.of_nat n < 2 ^ 20 ->
  pa mod PGSIZE = 0 -> 0 <= pa -> pa + PGSIZE * Z.of_nat n < 2 ^ 32 -> 0 <= perm < PGSIZE ->
  (forall v, v0 <= v <= v0 + Z.of_nat n -> present (pte (vmem s) d v) = false) ->
  runs (mappages d (PGSIZE * v0) (PGSIZE * Z.of_nat (S n)) pa perm) s (fun r s' =>
    exists free' T' k, grown K d s s' free' T' /\ (r = 0 /\ k = S n \/ r = -1 /\ (k <= n)%nat) /\
      forall v, vpn v -> pte (vmem s') d v = mapped v0 k pa perm (pte (vmem s) d) v).
Proof.
  intros Hc Hv0 Hvn Hpa Hpa0 Hpan Hperm Hnp. unfold mappages, PGROUNDDOWN. rewrite !ldiff_pow2.
  rewrite (u32_small (PGSIZE * v0 + PGSIZE * Z.of_nat (S n) - 1)) by (unfold PGSIZE; lia).
  assert (H1 : PGSIZE * v0 / PGSIZE = v0) by (rewrite Z.mul_comm; apply Z.div_mul; unfold PGSIZE; lia).
  assert (H2 : (PGSIZE * v0 + PGSIZE * Z.of_nat (S n) - 1) / PGSIZE = v0 + Z.of_nat n).
  { symmetry. apply (Z.div_unique_pos _ _ _ 4095); unfold PGSIZE; lia. }
  rewrite H1, H2. replace (Z.to_nat _) with n; [by apply (mappages_loop_spec n K s free d T)|].
  rewrite u32_small by (unfold PGSIZE; lia).
  replace (PGSIZE * (v0 + Z.of_nat n) - PGSIZE * v0) with (Z.of_nat n * PGSIZE) by lia.
  rewrite Z.div_mul by (unfold PGSIZE; lia). lia.
Qed.

(** ** User pages *)

Definition UPAGES : Z := KERNBASE / PGSIZE.

(** [U] gives the frame of each user page that is mapped. *)
Definition umap (m : mem) (d : Z) (U : gmap Z Z) : Prop :=
  (forall v f, U !! v = Some f -> 0 <= v < UPAGES /\
     exists fl, 0 <= fl < PGSIZE /\ present fl = true /\ pte m d v = V2P f + fl) /\
  (forall v, 0 <= v < UPAGES -> U !! v = None -> present (pte m d v) = false).

Record vmu (K : list Z) (s : vst) (free : list Z) (d : Z) (T U : gmap Z Z) : Prop := Vmu {
  vmu_core : vmc K s free d T;
  vmu_map : umap (vmem s) d U;
  vmu_nodup : NoDup (K ++ own U);
  vmu_page : Forall page (own U)
}.

Lemma vpn_user v : 0 <= v < UPAGES -> vpn v.
Proof. unfold vpn, UPAGES. change (KERNBASE / PGSIZE) with 524288. lia. Qed.

Lemma umap_ext m m' d U : (forall v, vpn v -> pte m' d v = pte m d v) -> umap m d U -> umap m' d U.
Proof.
  intros Hp [H1 H2]. split.
  - intros v f Hv. destruct (H1 v f Hv) as [Hr Hfl]. split; [done|]. by rewrite Hp by by apply vpn_user.
  - intros v Hv Hn. rewrite Hp by by apply vpn_user. by apply H2.
Qed.

Lemma vmu_frame K s free d T U v f : vmu K s free d T U -> U !! v = Some f -> page f /\ f ∉ K.
Proof.
  intros [_ _ Hnd Hpg] Hv. assert (Hin : f ∈ own U) by (apply elem_of_own; eauto). split.
  - rewrite Forall_forall in Hpg. auto.
  - intros HK. apply NoDup_app in Hnd as (_ & Hdis & _). by apply (Hdis f).
Qed.

(** A page given back. *)
Lemma vmc_kfree K s free d T f :
  vmc K s free d T -> page f -> f ∉ K ->
  exists s1, kfree f s = Ok ((), s1) /\ vmc (f :: K) s1 (f :: free) d T /\ only_pages [f] (vmem s) (vmem s1) /\
    forall v, vpn v -> pte (vmem s1) d v = pte (vmem s) d v.
Proof.
  intros Hc Hf HfK.
  destruct (kfree_spec s free f (vmc_kok _ _ _ _ _ Hc) Hf) as (s1 & Hs1 & Hk1 & Hm1 & _).
  { intros Hin. apply HfK, (vmc_in _ _ _ _ _ Hc). auto. }
  destruct (vmc_frame K s free d T Hc (vmem s1) [f]) as [[_ Hpt _ _ _] Hp1];
    [by apply Forall_singleton|by intros p ->%list_elem_of_singleton|done|].
  exists s1. split_and!; [done| |done|done]. destruct Hc as [H1 H2 H3 H4 H5].
  constructor; [done|done|cbn; by rewrite H3|by constructor|by constructor].
Qed.

(** Unmapping page [v] and freeing its frame. *)
Lemma unmap_one K s free d T U v f (k0 k : V ()) Q :
  vmu K s free d T U -> U !! v = Some f ->
  (forall s', vmu (f :: K) s' (f :: free) d T (delete v U) -> only_pages (f :: K) (vmem s) (vmem s') ->
     (forall w, vpn w -> pte (vmem s') d w = if decide (w = v) then 0 else pte (vmem s) d w) -> runs k s' Q) ->
  runs (pt ← walkpgdir d (PGSIZE * v) false;
        if pt =? 0 then k0 else
        e ← ld pt;
        when (present e) (let pa := PTE_ADDR e in
          if pa =? 0 then panic "kfree" else kfree (P2V pa);; st pt 0);; k) s Q.
Proof.
  intros Hu Hv Hk. destruct (vmu_map _ _ _ _ _ _ Hu) as [Hmap1 Hmap2].
  destruct (Hmap1 v f Hv) as (Hvr & fl & Hfl & Hpr & He). assert (Hvp := vpn_user v Hvr).
  destruct (vmu_frame _ _ _ _ _ _ _ _ Hu Hv) as [Hf HfK]. assert (Hc := vmu_core _ _ _ _ _ _ Hu).
  destruct (V2P_aligned f Hf) as (Hal & Hf0 & Hf1).
  assert (Hva : 0 <= PGSIZE * v < 2 ^ 32) by (unfold vpn, PGSIZE in *; lia).
  assert (Hdiv : PGSIZE * v / PGSIZE = v) by (rewrite Z.mul_comm; apply Z.div_mul; unfold PGSIZE; lia).
  destruct (vpn_of _ Hva) as (_ & Hpdx & _). rewrite Hdiv in Hpdx.
  assert (Hpe : present (pte (vmem s) d v) = true) by by rewrite He, present_flags.
  destruct (T !! (v / 1024)) as [t|] eqn:Ht; [|by rewrite (pte_none _ _ _ _ _ Hc v Hvp Ht) in Hpe].
  destruct (vmc_tab _ _ _ _ _ Hc _ _ Ht) as (Htp & _).
  unfold runs. rewrite (bind_Ok _ _ _ _ _ (walk_found K s free d T _ false t Hc Hva ltac:(by rewrite Hpdx))), Hdiv.
  rewrite (proj2 (Z.eqb_neq _ _)).
  2: { apply page_range in Htp. unfold tab_entry, KERNLINK, KERNBASE, EXTMEM in *.
       pose proof (Z.mod_pos_bound v 1024 ltac:(lia)). lia. }
  unfold bind at 1. unfold ld, gets. unfold tab_entry. rewrite <- (pte_some K s free d T Hc v t Ht), Hpe. cbn [when].
  rewrite He, PTE_ADDR_flags, P2V_V2P by done. cbv zeta.
  rewrite (proj2 (Z.eqb_neq _ _)).
  2: { rewrite (V2P_page f Hf). apply page_range in Hf. unfold KERNLINK, KERNBASE, EXTMEM in *. lia. }
  destruct (vmc_kfree K s free d T f Hc Hf HfK) as (s1 & Hs1 & Hc1 & Hm1 & Hp1).
  change (runs ((kfree f;; st (t + 4 * (v mod 1024)) 0);; k) s Q).
  apply runs_bind, runs_bind. eapply runs_Ok; [exact Hs1|]. eapply runs_Ok; [done|].
  destruct (vmc_store _ s1 _ d T Hc1 v t 0 Hvp Ht ltac:(lia)) as (Hc2 & Hm2 & Hp2).
  fold (tab_entry t v). apply Hk.
  - constructor; [done| | |].
    + split.
      * intros w g. rewrite lookup_delete_Some. intros [Hne Hw]. destruct (Hmap1 w g Hw) as [Hr Hx].
        split; [done|]. cbn [vmem set_vmem]. rewrite Hp2, decide_False, Hp1 by (done || by apply vpn_user). done.
      * intros w Hw. cbn [vmem set_vmem]. rewrite Hp2 by by apply vpn_user. case_decide as Hwv; [done|].
        rewrite lookup_delete_ne by done. rewrite Hp1 by by apply vpn_user. by apply Hmap2.
    + pose proof (vmu_nodup _ _ _ _ _ _ Hu) as Hnd. rewrite (own_delete U v f Hv) in Hnd.
      cbn. rewrite <- Permutation_middle in Hnd. done.
    + pose proof (vmu_page _ _ _ _ _ _ Hu) as Hpg. rewrite (own_delete U v f Hv) in Hpg. by apply Forall_cons in Hpg as [_ ?].
  - eapply only_pages_trans; eapply only_pages_mono; [|exact Hm1| |exact Hm2].
    + intros q ->%list_elem_of_singleton. left.
    + intros q ->%list_elem_of_singleton. right. apply (vmc_in _ _ _ _ _ Hc). right; right. apply elem_of_own. eauto.
  - intros w Hw. cbn [vmem set_vmem]. rewrite Hp2 by done. case_decide; [done|]. by apply Hp1.
Qed.

(** What is left after the pages [v .. hi - 1] have been unmapped and freed. *)
Definition shrunk (K : list Z) (d : Z) (T U : gmap Z Z) (v hi : Z) (s s' : vst) : Prop :=
  exists K' free' U', vmu K' s' free' d T U' /\ K' ++ own U' ≡ₚ K ++ own U /\ (forall p, p ∈ K -> p ∈ K') /\
    only_pages K' (vmem s) (vmem s') /\
    (forall w, U' !! w = if decide (v <= w < hi) then None else U !! w) /\
    (forall w, vpn w -> ~ v <= w < hi -> pte (vmem s') d w = pte (vmem s) d w).

Lemma shrunk_step K d T U v v' hi s s' :
  v <= v' -> (forall w, v <= w < v' -> U !! w = None) -> v' <= hi \/ v' = v ->
  shrunk K d T U v' hi s s' -> shrunk K d T U v hi s s'.
Proof.
  intros Hvv Hn Hhi (K' & free' & U' & H1 & H2 & H3 & H4 & H5 & H6). exists K', free', U'. split_and!; try done.
  - intros w. rewrite H5. repeat case_decide; try lia || done. rewrite Hn by lia. done.
  - intros w Hw Hnot. apply H6; [done|]. lia.
Qed.

Lemma PGADDR_next v : 0 <= v < UPAGES ->
  u32 (u32 (PGADDR (PDX (PGSIZE * v) + 1) 0 0 - PGSIZE) + PGSIZE) = PGSIZE * (1024 * (v / 1024 + 1)).
Proof.
  intros Hv. change UPAGES with 524288 in Hv.
  assert (Hd : 0 <= v / 1024 < 512) by (split; [apply Z.div_pos; lia|apply Z.div_lt_upper_bound; lia]).
  destruct (PDX_div (PGSIZE * v)) as [-> _]; [unfold PGSIZE; lia|].
  replace (PGSIZE * v / PGSIZE) with v by (rewrite Z.mul_comm, Z.div_mul; unfold PGSIZE; lia).
  unfold PGADDR. rewrite Z.shiftl_0_l, !Z.lor_0_r, Z.shiftl_mul_pow2 by lia. unfold PGSIZE.
  rewrite (u32_small ((v / 1024 + 1) * 2 ^ 22)) by lia. rewrite (u32_small (_ - 4096)) by lia.
  rewrite u32_small by lia. lia.
Qed.

Lemma dealloc_loop_spec d T oldsz hi n : forall v K s free U,
  PGSIZE * (hi - 1) < oldsz <= PGSIZE * hi -> hi <= UPAGES -> 0 <= v -> hi - v <= Z.of_nat n ->
  vmu K s free d T U ->
  runs (deallocuvm_loop (S n) d (PGSIZE * v) oldsz) s (fun _ s' => shrunk K d T U v hi s s').
Proof.
  induction n as [|n IH]; intros v K s free U Hold Hhi Hv Hn Hu; unfold deallocuvm_loop; fold deallocuvm_loop.
  all: destruct (Z.ltb_spec (PGSIZE * v) oldsz) as [Hlt|Hge];
    [|exists K, free, U; split_and!; [done|done|done|apply only_pages_refl| |done];
      intros w; rewrite decide_False by (unfold PGSIZE in *; lia); done].
  { unfold PGSIZE in *. lia. }
  assert (Hvu : 0 <= v < UPAGES) by (unfold PGSIZE in *; lia). assert (Hvp := vpn_user v Hvu).
  assert (Hva : 0 <= PGSIZE * v < 2 ^ 32) by (unfold vpn, PGSIZE in *; lia).
  assert (Hdiv : PGSIZE * v / PGSIZE = v) by (rewrite Z.mul_comm; apply Z.div_mul; unfold PGSIZE; lia).
  destruct (vpn_of _ Hva) as (_ & Hpdx & _). rewrite Hdiv in Hpdx.
  assert (Hc := vmu_core _ _ _ _ _ _ Hu). destruct (vmu_map _ _ _ _ _ _ Hu) as [Hmap1 Hmap2].
  assert (Hnext : u32 (PGSIZE * v + PGSIZE) = PGSIZE * (v + 1))
    by (change UPAGES with 524288 in Hvu; rewrite u32_small; unfold PGSIZE; lia).
  destruct (U !! v) as [f|] eqn:HUv.
  - eapply unmap_one; [exact Hu|exact HUv|]. intros s1 Hu1 Hm1 Hp1. rewrite Hnext.
    eapply runs_mono; [apply (IH (v + 1) (f :: K) s1 (f :: free) (delete v U)); done || lia|].
    intros [] s2 (K' & free' & U' & H1 & H2 & H3 & H4 & H5 & H6). exists K', free', U'. split_and!; [done| | | | |].
    + rewrite H2, (own_delete U v f HUv). cbn. by rewrite Permutation_middle.
    + intros p Hp. apply H3. by right.
    + eapply only_pages_trans; [|exact H4]. eapply only_pages_mono; [|exact Hm1]. done.
    + intros w. rewrite H5. destruct (decide (w = v)) as [->|Hne].
      * rewrite decide_False, decide_True by (unfold PGSIZE in *; lia). apply lookup_delete_eq.
      * rewrite lookup_delete_ne by done. repeat case_decide; lia || done.
    + intros w Hw Hnot. rewrite H6, Hp1, decide_False by (done || unfold PGSIZE in *; lia). done.
  - destruct (T !! (v / 1024)) as [t|] eqn:Ht.
    + destruct (vmc_tab _ _ _ _ _ Hc _ _ Ht) as (Htp & _). unfold runs.
      rewrite (bind_Ok _ _ _ _ _ (walk_found K s free d T _ false t Hc Hva ltac:(by rewrite Hpdx))), Hdiv.
      rewrite (proj2 (Z.eqb_neq _ _)).
      2: { apply page_range in Htp. unfold tab_entry, KERNLINK, KERNBASE, EXTMEM in *.
           pose proof (Z.mod_pos_bound v 1024 ltac:(lia)). lia. }
      unfold bind at 1. unfold ld, gets, tab_entry.
      rewrite <- (pte_some K s free d T Hc v t Ht), (Hmap2 v Hvu HUv), Hnext. cbn [when].
      change (runs (deallocuvm_loop (S n) d (PGSIZE * (v + 1)) oldsz) s (fun _ s' => shrunk K d T U v hi s s')).
      eapply runs_mono; [apply (IH (v + 1) K s free U); done || lia|]. intros [] s2.
      apply shrunk_step; [lia| |unfold PGSIZE in *; lia]. intros w Hw. assert (w = v) as -> by lia. done.
    + unfold runs. rewrite (bind_Ok _ _ _ _ _ (walk_missing K s free d T _ Hc Hva ltac:(by rewrite Hpdx))).
      cbn [Z.eqb]. rewrite PGADDR_next by done.
      change (runs (deallocuvm_loop (S n) d (PGSIZE * (1024 * (v / 1024 + 1))) oldsz) s (fun _ s' => shrunk K d T U v hi s s')).
      set (v' := 1024 * (v / 1024 + 1)). assert (Hv' : v < v') by (unfold v'; pose proof (Z.mul_succ_div_gt v 1024 ltac:(lia)); lia).
      assert (Hnone : forall w, v <= w < v' -> w < UPAGES -> U !! w = None).
      { intros w Hw Hwu. destruct (U !! w) as [g|] eqn:Hg; [|done]. destruct (Hmap1 w g Hg) as (Hwr & fl & Hfl & Hpr & He).
        assert (Hwd : w / 1024 = v / 1024).
        { symmetry. apply Z.div_unique_pos with (w - 1024 * (v / 1024)); [|lia]. pose proof (Z.mul_div_le v 1024 ltac:(lia)). unfold v' in Hw. lia. }
        rewrite (pte_none _ _ _ _ _ Hc w (vpn_user _ Hwr)) in He by by rewrite Hwd.
        destruct (vmu_frame _ _ _ _ _ _ _ _ Hu Hg) as [Hgp _]. destruct (V2P_aligned g Hgp) as (_ & Hg0 & _).
        assert (fl = 0) as -> by lia. done. }
      destruct (decide (v' <= hi)) as [Hvh|Hvh].
      * eapply runs_mono; [apply (IH v' K s free U); done || lia|]. intros [] s2.
        apply shrunk_step; [lia| |by left]. intros w Hw. apply Hnone; lia.
      * unfold deallocuvm_loop; fold deallocuvm_loop.
        rewrite (proj2 (Z.ltb_ge _ _)) by (unfold PGSIZE in *; lia).
        exists K, free, U. split_and!; [done|done|done|apply only_pages_refl| |done].
        intros w. case_decide as Hw; [|done]. apply Hnone; lia.
Qed.

(** ** deallocuvm and freevm *)

(** The pages it takes to hold [x] bytes. *)
Definition npages (x : Z) : Z := (x + PGSIZE - 1) / PGSIZE.

Lemma PGROUNDUP_npages x : 0 <= x <= KERNBASE -> PGROUNDUP x = PGSIZE * npages x.
Proof.
  intros Hx. unfold PGROUNDUP, npages. rewrite ldiff_pow2, u32_small; [done|].
  unfold PGSIZE, KERNBASE in *. lia.
Qed.

Lemma npages_range x : 0 <= x <= KERNBASE -> 0 <= npages x <= UPAGES /\ PGSIZE * (npages x - 1) < x <= PGSIZE * npages x.
Proof.
  intros Hx. unfold npages. change UPAGES with 524288. unfold PGSIZE, KERNBASE in *.
  pose proof (Z.mul_div_le (x + 4096 - 1) 4096 ltac:(lia)).
  pose proof (Z.mul_succ_div_gt (x + 4096 - 1) 4096 ltac:(lia)). lia.
Qed.

Lemma npages_mono x y : x <= y -> npages x <= npages y.
Proof. intros Hxy. unfold npages, PGSIZE. apply Z.div_le_mono; lia. Qed.

Lemma deallocuvm_spec K s free d T U oldsz newsz :
  vmu K s free d T U -> 0 <= newsz < oldsz -> oldsz <= KERNBASE ->
  runs (deallocuvm d oldsz newsz) s (fun r s' => r = newsz /\ shrunk K d T U (npages newsz) (npages oldsz) s s').
Proof.
  intros Hu Hsz Hk. unfold deallocuvm. rewrite (proj2 (Z.leb_gt _ _)) by lia.
  destruct (npages_range newsz ltac:(lia)) as [Hn1 Hn2]. destruct (npages_range oldsz ltac:(lia)) as [Ho1 Ho2].
  assert (Hmono := npages_mono newsz oldsz ltac:(lia)).
  rewrite PGROUNDUP_npages by lia. cbv zeta.
  replace (oldsz - PGSIZE * npages newsz + PGSIZE - 1) with (oldsz + PGSIZE - 1 + (- npages newsz) * PGSIZE) by lia.
  rewrite Z.div_add by (unfold PGSIZE; lia). fold (npages oldsz).
  apply runs_bind. eapply runs_mono; [apply (dealloc_loop_spec d T oldsz (npages oldsz) _ (npages newsz) K s free U); lia || done|].
  intros [] s' Hs. eapply runs_Ok; [done|]. split; [|done]. apply s32_small. unfold KERNBASE in *. lia.
Qed.

Lemma own_none U : (forall v, U !! v = None) -> own U = [].
Proof. intros HU. assert (U = ∅) as -> by by apply map_eq. apply own_empty. Qed.

(** The loop of [freevm] over the directory. *)
Lemma free_tables K s free d T :
  vmc K s free d T ->
  runs (for_ 0 NPDENTRIES (fun i => e ← ld (d + 4 * Z.of_nat i); when (present e) (kfree (P2V (PTE_ADDR e))))) s
    (fun _ s' => exists free', kok s' free' /\ (d ∉ free') /\ d :: free' ≡ₚ K /\ only_pages K (vmem s) (vmem s')).
Proof.
  intros Hc. destruct (vmc_dir _ _ _ _ _ Hc) as [Hdp Hdf].
  eapply runs_mono; [apply (runs_for (fun i t => exists free' T', kok t free' /\ free' ++ d :: own T' ≡ₚ K /\
    (forall j, T' !! j = if decide (j < Z.of_nat i) then None else T !! j) /\
    (forall j, 0 <= j < 1024 -> pde (vmem t) d j = pde (vmem s) d j) /\ only_pages K (vmem s) (vmem t)))|].
  - exists free, T. split_and!; [apply Hc|apply Hc| |done|apply only_pages_refl].
    intros j. case_decide; [|done]. destruct (T !! j) eqn:Hj; [|done].
    destruct (pt_some _ _ _ (vmc_pt _ _ _ _ _ Hc) _ _ Hj). lia.
  - intros i t Hi (free1 & T1 & Hk1 & Hp1 & HT1 & Hd1 & Hm1). unfold NPDENTRIES in Hi.
    apply runs_bind. eapply runs_Ok; [done|]. fold (pde (vmem t) d (Z.of_nat i)). rewrite Hd1 by lia.
    assert (HTi : T1 !! Z.of_nat i = T !! Z.of_nat i) by by rewrite HT1, decide_False by lia.
    destruct (T !! Z.of_nat i) as [u|] eqn:Hu.
    + destruct (vmc_tab _ _ _ _ _ Hc _ _ Hu) as (Hup & Hud & _ & _ & He). rewrite He.
      rewrite present_flags, tab_addr by (done || unfold PGSIZE; lia || by apply V2P_aligned).
      change (present 7) with true. cbn [when].
      assert (Hnd1 : NoDup (free1 ++ d :: own T1)) by (rewrite Hp1; apply Hc).
      assert (Huf : u ∉ free1).
      { intros Hin. apply NoDup_app in Hnd1 as (_ & Hdis & _). apply (Hdis u Hin). right. apply elem_of_own. eauto. }
      destruct (kfree_spec t free1 u Hk1 Hup Huf) as (t2 & Ht2 & Hk2 & Hm2 & _).
      eapply runs_Ok; [exact Ht2|]. exists (u :: free1), (delete (Z.of_nat i) T1). split_and!; [done| | | |].
      * rewrite (own_delete T1 (Z.of_nat i) u) in Hp1 by congruence. rewrite <- Hp1. cbn. solve_Permutation.
      * intros j. destruct (decide (j = Z.of_nat i)) as [->|Hne].
        -- rewrite lookup_delete_eq, decide_True by lia. done.
        -- rewrite lookup_delete_ne, HT1 by done. repeat case_decide; lia || done.
      * intros j Hj. rewrite <- Hd1 by done. apply load_page; [done|]. intros x.
        eapply only_pages_at; [by apply Forall_singleton|exact Hdp|set_solver|exact Hm2].
      * eapply only_pages_trans; [exact Hm1|]. eapply only_pages_mono; [|exact Hm2].
        intros q ->%list_elem_of_singleton. apply (vmc_in _ _ _ _ _ Hc). right; right. apply elem_of_own. eauto.
    + rewrite (pt_none _ _ _ (vmc_pt _ _ _ _ _ Hc)) by (done || lia). cbn [when]. eapply runs_Ok; [done|].
      exists free1, T1. split_and!; try done. intros j. rewrite HT1.
      destruct (decide (j = Z.of_nat i)) as [->|Hne]; [|repeat case_decide; lia || done].
      rewrite decide_False, decide_True by lia. done.
  - intros [] t (free1 & T1 & Hk1 & Hp1 & HT1 & Hd1 & Hm1). exists free1.
    assert (Ho : own T1 = []).
    { apply own_none. intros j. rewrite HT1. case_decide as Hj; [done|]. destruct (T !! j) eqn:HTj; [|done].
      destruct (pt_some _ _ _ (vmc_pt _ _ _ _ _ Hc) _ _ HTj). unfold NPDENTRIES in Hj. lia. }
    rewrite Ho in Hp1. assert (Hnd1 : NoDup (free1 ++ [d])) by (rewrite Hp1; apply Hc).
    split_and!; [done| | |done].
    + intros Hin. apply NoDup_app in Hnd1 as (_ & Hdis & _). apply (Hdis d Hin). left.
    + rewrite <- Hp1. solve_Permutation.
Qed.

(** [freevm] gives back the whole address space. *)
Lemma freevm_spec K s free d T U :
  vmu K s free d T U ->
  runs (freevm d) s (fun _ s' => exists free', kok s' free' /\ free' ≡ₚ K ++ own U /\
    only_pages (K ++ own U) (vmem s) (vmem s')).
Proof.
  intros Hu. destruct (vmc_dir _ _ _ _ _ (vmu_core _ _ _ _ _ _ Hu)) as [Hdp _].
  unfold freevm. rewrite (proj2 (Z.eqb_neq d 0)) by by apply page_nonzero.
  apply runs_bind. eapply runs_mono; [apply (deallocuvm_spec K s free d T U KERNBASE 0); done || (unfold KERNBASE; lia)|].
  intros r s1 (_ & K1 & free1 & U1 & Hu1 & Hp1 & HK1 & Hm1 & HU1 & _).
  assert (Ho : own U1 = []).
  { apply own_none. intros w. rewrite HU1. case_decide as Hw; [done|]. destruct (U !! w) as [f|] eqn:Hf; [|done].
    destruct (vmu_map _ _ _ _ _ _ Hu) as [Hmap _]. destruct (Hmap w f Hf) as [Hr _].
    change (npages 0) with 0 in Hw. change (npages KERNBASE) with UPAGES in Hw. lia. }
  rewrite Ho, app_nil_r in Hp1.
  apply runs_bind. eapply runs_mono; [apply (free_tables K1 s1 free1 d T); apply Hu1|].
  intros [] s2 (free2 & Hk2 & Hd2 & Hp2 & Hm2).
  destruct (kfree_spec s2 free2 d Hk2 Hdp Hd2) as (s3 & Hs3 & Hk3 & Hm3 & _).
  eapply runs_Ok; [exact Hs3|]. exists (d :: free2). split_and!; [done|by rewrite Hp2, Hp1|].
  eapply only_pages_mono; [intros p Hp; rewrite <- Hp1; exact Hp|].
  eapply only_pages_trans; [exact Hm1|]. eapply only_pages_trans; [exact Hm2|].
  eapply only_pages_mono; [|exact Hm3]. intros q ->%list_elem_of_singleton. rewrite <- Hp2. left.
Qed.

(** ** setupkvm *)

Lemma vmu_empty K s free d T :
  vmc K s free d T -> (forall v, 0 <= v < UPAGES -> present (pte (vmem s) d v) = false) -> vmu K s free d T ∅.
Proof.
  intros Hc Hn. constructor; [done| | |].
  - split; [intros v f Hv; by rewrite lookup_empty in Hv|]. intros v Hv _. by apply Hn.
  - rewrite own_empty, app_nil_r. apply Hc.
  - rewrite own_empty. constructor.
Qed.

Lemma mapped_user v0 k pa perm f v : UPAGES <= v0 -> v < UPAGES -> mapped v0 k pa perm f v = f v.
Proof. intros H0 Hv. unfold mapped. by rewrite decide_False by lia. Qed.

(** One row of [kmap]. *)
Lemma kmap_step K s free d T k ks v0 n pa Q :
  vmc K s free d T -> (forall v, 0 <= v < UPAGES -> present (pte (vmem s) d v) = false) ->
  km_virt k = PGSIZE * v0 -> u32 (km_end k - km_start k) = PGSIZE * Z.of_nat (S n) -> km_start k = pa ->
  UPAGES <= v0 -> v0 + Z.of_nat n < 2 ^ 20 -> pa mod PGSIZE = 0 -> 0 <= pa -> pa + PGSIZE * Z.of_nat n < 2 ^ 32 ->
  0 <= km_perm k < PGSIZE ->
  (forall v, v0 <= v <= v0 + Z.of_nat n -> present (pte (vmem s) d v) = false) ->
  (forall s' free', kok s' free' -> free' ≡ₚ K -> only_pages K (vmem s) (vmem s') -> Q 0 s') ->
  (forall s' free' T', grown K d s s' free' T' ->
    (forall v, vpn v -> pte (vmem s') d v = mapped v0 (S n) pa (km_perm k) (pte (vmem s) d) v) ->
    runs (setupkvm_loop d ks) s' Q) ->
  runs (setupkvm_loop d (k :: ks)) s Q.
Proof.
  intros Hc Huser Hvirt Hsize Hstart Hv0 Hvn Hpa Hpa0 Hpan Hperm Hnp Hfail Hok.
  cbn [setupkvm_loop]. rewrite Hvirt, Hsize, Hstart. apply runs_bind.
  assert (Hup : 0 <= UPAGES) by (change UPAGES with 524288; lia).
  eapply runs_mono; [apply (mappages_spec K s free d T v0 n pa (km_perm k)); done || lia|].
  intros r s1 (free1 & T1 & j & [Hc1 Hm1] & [[-> ->]|[-> Hj]] & Hp1); cbn [Z.ltb Z.compare].
  - by apply (Hok s1 free1 T1).
  - apply runs_bind. eapply runs_mono; [apply (freevm_spec K s1 free1 d T1 ∅), vmu_empty; [done|]|].
    + intros v Hv. rewrite Hp1, mapped_user by (by apply vpn_user || lia). by apply Huser.
    + rewrite own_empty, app_nil_r. intros [] s2 (free2 & Hk2 & Hf2 & Hm2). eapply runs_Ok; [done|].
      eapply Hfail; [done|done|by eapply only_pages_trans].
Qed.

(** The kernel part of every address space, row by row. *)
Definition kpages : nat := Z.to_nat ((data_ - KERNLINK) / PGSIZE).
Definition kpte : Z -> Z :=
  mapped (DEVSPACE / PGSIZE) (Z.to_nat 8192) DEVSPACE PTE_W
  (mapped (data_ / PGSIZE) (Z.to_nat (PHYSTOP / PGSIZE) - 256 - kpages) (data_ - KERNBASE) PTE_W
  (mapped (KERNLINK / PGSIZE) kpages EXTMEM 0
  (mapped (KERNBASE / PGSIZE) 256 0 PTE_W (fun _ => 0)))).

Lemma fresh_dir s p free :
  kok s free -> page p -> p ∉ free -> NoDup free -> Forall page free ->
  let m := memset (vmem s) p 0 PGSIZE in
  vmc (p :: free) (set_vmem m s) free p ∅ /\ only_pages [p] (vmem s) m /\ forall v, vpn v -> pte m p v = 0.
Proof.
  intros Hk Hp Hpf Hnd Hpg m.
  assert (Hm : only_pages [p] (vmem s) m) by by apply only_pages_set.
  assert (Hpde : forall i, 0 <= i < 1024 -> pde m p i = 0).
  { intros i Hi. unfold pde, load32, m. rewrite !memset_correct by (unfold PGSIZE; lia).
    repeat (rewrite (proj2 (Z.leb_le _ _)) by lia; rewrite (proj2 (Z.ltb_lt _ _)) by (unfold PGSIZE; lia)). done. }
  split_and!; [|done|].
  - constructor; [|constructor| |by constructor|by constructor].
    + eapply kok_frame; [done|by apply Forall_singleton| |exact Hm]. by intros q ->%list_elem_of_singleton.
    + intros i t. by rewrite lookup_empty.
    + intros i Hi _. cbn [vmem set_vmem]. by rewrite Hpde.
    + rewrite own_empty. solve_Permutation.
  - intros v Hv. unfold pte. by rewrite Hpde by by apply vpn_dir.
Qed.

Lemma kernel_pages :
  data_ / PGSIZE = KERNLINK / PGSIZE + Z.of_nat kpages /\ (0 < kpages)%nat /\
  data_ = KERNLINK + PGSIZE * Z.of_nat kpages /\ Z.of_nat kpages < PHYSTOP / PGSIZE - 256.
Proof.
  pose proof data_above as H1. pose proof data_aligned as H2. pose proof end_above as H3. pose proof end_below as H4.
  unfold kpages. change (KERNLINK / PGSIZE) with 524544. change (PHYSTOP / PGSIZE) with 57344.
  unfold KERNLINK, KERNBASE, EXTMEM, PGSIZE, PHYSTOP in *. apply Z.mod_divide in H2 as [q Hq]; [|lia]. rewrite Hq in *.
  replace (q * 4096 - (2147483648 + 1048576)) with ((q - 524544) * 4096) by lia. rewrite !Z.div_mul by lia. lia.
Qed.

(** A new address space with the kernel part only, or nothing. *)
Definition new_space (free : list Z) (s : vst) (r : Z) (s' : vst) : Prop :=
  only_pages free (vmem s) (vmem s') /\
  ((r = 0 /\ exists free', kok s' free' /\ free' ≡ₚ free) \/
   (r <> 0 /\ exists free' T, vmc free s' free' r T /\ forall v, vpn v -> pte (vmem s') r v = kpte v)).

Lemma setupkvm_spec s free :
  kok s free -> runs setupkvm s (new_space free s).
Proof.
  intros Hk. unfold setupkvm. apply runs_bind. destruct free as [|p free].
  { eapply runs_Ok; [apply (kalloc_spec s [] Hk)|]. eapply runs_Ok; [done|].
    split; [apply only_pages_refl|]. left. split; [done|]. by exists []. }
  destruct (kalloc_spec s (p :: free) Hk) as (s0 & Hs0 & Hk0 & Hm0 & _). eapply runs_Ok; [exact Hs0|].
  destruct Hk as [_ Hnd Hpg]. apply NoDup_cons in Hnd as [Hpf Hnd]. apply Forall_cons in Hpg as [Hp Hpg].
  rewrite (proj2 (Z.eqb_neq p 0)) by by apply page_nonzero.
  destruct (fresh_dir s0 p free Hk0 Hp Hpf Hnd Hpg) as (Hc1 & Hm1 & Hp1).
  apply runs_bind. eapply runs_Ok; [reflexivity|]. change (DEVSPACE <? P2V PHYSTOP) with false. cbv iota.
  set (K := p :: free) in *. set (s1 := set_vmem (memset (vmem s0) p 0 PGSIZE) s0) in *.
  change (memset (vmem s0) p 0 PGSIZE) with (vmem s1) in Hm1, Hp1.
  assert (Hmk : only_pages K (vmem s) (vmem s1)).
  { rewrite <- Hm0. eapply only_pages_mono; [|exact Hm1]. intros q ->%list_elem_of_singleton. left. }
  assert (HQ : forall t t' free', kok t' free' -> free' ≡ₚ K -> only_pages K (vmem s) (vmem t) ->
    only_pages K (vmem t) (vmem t') -> new_space K s 0 t').
  { intros t t' free' Hk' Hp' Hmt Hmt'. split; [by eapply only_pages_trans|]. left. split; [done|]. by exists free'. }
  destruct kernel_pages as (Hkp1 & Hkp2 & Hkp3 & Hkp4).
  change (KERNLINK / PGSIZE) with 524544 in Hkp1. change (PHYSTOP / PGSIZE) with 57344 in Hkp4.
  assert (Hdata : data_ = 2148532224 + 4096 * Z.of_nat kpages) by exact Hkp3.
  assert (HV2Pd : V2P data_ = data_ - KERNBASE) by (apply u32_small; unfold KERNBASE; lia).
  assert (Hup : UPAGES = 524288) by done.
  unfold kmap.
  (* the I/O space *)
  eapply (kmap_step K s1 free p ∅ _ _ 524288 255 0);
    [exact Hc1| |reflexivity|reflexivity|reflexivity|lia|lia|reflexivity|lia|unfold PGSIZE; lia
    |cbn [km_perm]; unfold PTE_W, PGSIZE; lia| |by intros; eapply HQ|].
  { intros v Hv. by rewrite Hp1 by by apply vpn_user. }
  { intros v Hv. rewrite Hp1; [done|unfold vpn; lia]. }
  intros s2 free2 T2 [Hc2 Hm2] Hp2. cbn [km_perm] in Hp2.
  assert (Hmk2 : only_pages K (vmem s) (vmem s2)) by by eapply only_pages_trans.
  (* the text *)
  eapply (kmap_step K s2 free2 p T2 _ _ 524544 (kpages - 1) EXTMEM);
    [exact Hc2| |reflexivity| |reflexivity|lia|lia|reflexivity|unfold EXTMEM; lia|unfold EXTMEM, PGSIZE; lia
    |cbn [km_perm]; unfold PGSIZE; lia| |by intros; eapply HQ|].
  { intros v Hv. rewrite Hp2, mapped_user, Hp1 by (by apply vpn_user || lia). done. }
  { cbn [km_start km_end]. rewrite HV2Pd. change (V2P KERNLINK) with EXTMEM.
    rewrite u32_small by (unfold EXTMEM, KERNBASE; lia). unfold EXTMEM, KERNBASE, PGSIZE. lia. }
  { intros v Hv. rewrite Hp2 by (unfold vpn; lia). unfold mapped. rewrite decide_False, Hp1 by (unfold vpn; lia). done. }
  intros s3 free3 T3 [Hc3 Hm3] Hp3. cbn [km_perm] in Hp3.
  assert (Hmk3 : only_pages K (vmem s) (vmem s3)) by by eapply only_pages_trans.
  replace (S (kpages - 1)) with kpages in Hp3 by lia.
  (* data and memory *)
  set (n3 := (Z.to_nat (PHYSTOP / PGSIZE) - 256 - kpages)%nat).
  assert (Hn3 : Z.of_nat n3 = 57088 - Z.of_nat kpages /\ (0 < n3)%nat)
    by (unfold n3; change (PHYSTOP / PGSIZE) with 57344; lia).
  eapply (kmap_step K s3 free3 p T3 _ _ (data_ / PGSIZE) (n3 - 1) (data_ - KERNBASE));
    [exact Hc3| | | |exact HV2Pd|lia|lia| |unfold KERNBASE; lia|unfold KERNBASE, PGSIZE; lia
    |cbn [km_perm]; unfold PTE_W, PGSIZE; lia| |by intros; eapply HQ|].
  { intros v Hv. rewrite Hp3, mapped_user, Hp2, mapped_user, Hp1 by (by apply vpn_user || lia). done. }
  { cbn [km_virt]. rewrite Hkp1. unfold PGSIZE. lia. }
  { cbn [km_start km_end]. rewrite HV2Pd. rewrite u32_small by (unfold PHYSTOP, KERNBASE; lia).
    unfold PHYSTOP, KERNBASE, PGSIZE. lia. }
  { rewrite Hdata. unfold KERNBASE, PGSIZE.
    replace (2148532224 + 4096 * Z.of_nat kpages - 2147483648) with ((256 + Z.of_nat kpages) * 4096) by lia. apply Z.mod_mul. lia. }
  { intros v Hv. rewrite Hp3 by (unfold vpn; lia). unfold mapped at 1. rewrite decide_False by lia.
    rewrite Hp2 by (unfold vpn; lia). unfold mapped. rewrite decide_False, Hp1 by (unfold vpn; lia). done. }
  intros s4 free4 T4 [Hc4 Hm4] Hp4. cbn [km_perm] in Hp4.
  assert (Hmk4 : only_pages K (vmem s) (vmem s4)) by by eapply only_pages_trans.
  replace (S (n3 - 1)) with n3 in Hp4 by lia.
  assert (Hext : forall v0 k pa perm f g w, f w = g w -> mapped v0 k pa perm f w = mapped v0 k pa perm g w).
  { intros v0 k pa perm f g w Hfg. unfold mapped. by case_decide. }
  assert (Hp4' : forall v, vpn v -> pte (vmem s4) p v = mapped (data_ / PGSIZE) n3 (data_ - KERNBASE) PTE_W
    (mapped 524544 kpages EXTMEM 0 (mapped 524288 256 0 PTE_W (fun _ => 0))) v).
  { intros v Hv. rewrite Hp4 by done. apply Hext. rewrite Hp3 by done. apply Hext. rewrite Hp2 by done. apply Hext. by apply Hp1. }
  (* the devices *)
  eapply (kmap_step K s4 free4 p T4 _ _ (DEVSPACE / PGSIZE) (Z.to_nat 8192 - 1) DEVSPACE);
    [exact Hc4| |reflexivity|reflexivity|reflexivity|change (DEVSPACE / PGSIZE) with 1040384; lia
    |change (DEVSPACE / PGSIZE) with 1040384; lia|reflexivity|unfold DEVSPACE; lia|unfold DEVSPACE, PGSIZE; lia
    |cbn [km_perm]; unfold PTE_W, PGSIZE; lia| |by intros; eapply HQ|]; change (DEVSPACE / PGSIZE) with 1040384.
  { intros v Hv. rewrite Hp4', !mapped_user by (by apply vpn_user || lia). done. }
  { intros v Hv. rewrite Hp4' by (unfold vpn; lia). unfold mapped. rewrite !decide_False by lia. done. }
  intros s5 free5 T5 [Hc5 Hm5] Hp5. cbn [km_perm] in Hp5. eapply runs_Ok; [reflexivity|].
  split; [by eapply only_pages_trans|]. right. split; [by apply page_nonzero|].
  exists free5, T5. split; [done|]. intros v Hv. rewrite Hp5 by done.
  replace (S (Z.to_nat 8192 - 1)) with (Z.to_nat 8192) by lia. unfold kpte. fold n3.
  change (DEVSPACE / PGSIZE) with 1040384. apply Hext. by apply Hp4'.
Qed.

(** ** allocuvm *)

Lemma vmu_permute K K' s free d T U : K ≡ₚ K' -> vmu K s free d T U -> vmu K' s free d T U.
Proof. intros HK [H1 H2 H3 H4]. constructor; [by eapply vmc_permute|done|by rewrite <- HK|done]. Qed.

(** Taking a page off the free list and filling it. *)
Lemma vmu_take K s f free d T U :
  vmu K s (f :: free) d T U ->
  exists s1 K1, kalloc s = Ok (f, s1) /\ vmem s1 = vmem s /\ K ≡ₚ f :: K1 /\ page f /\ (f ∉ K1) /\ (f ∉ own U) /\
    forall m', only_pages [f] (vmem s) m' ->
      vmu K1 (set_vmem m' s1) free d T U /\ forall v, vpn v -> pte m' d v = pte (vmem s) d v.
Proof.
  intros Hu. destruct (vmc_kalloc K s f free d T (vmu_core _ _ _ _ _ _ Hu)) as (s1 & K1 & Hs1 & Hm1 & Hc1 & HK & Hf & HfK).
  exists s1, K1. assert (Hnd := vmu_nodup _ _ _ _ _ _ Hu). rewrite HK in Hnd. cbn in Hnd.
  apply NoDup_cons in Hnd as [Hfn Hnd].
  split_and!; [done|done|done|done|done|by intros Hin; apply Hfn, elem_of_app; right|].
  intros m' Hm'. rewrite <- Hm1 in Hm'.
  destruct (vmc_frame K1 s1 free d T Hc1 m' [f]) as [Hc2 Hp2];
    [by apply Forall_singleton|by intros p ->%list_elem_of_singleton|done|].
  rewrite Hm1 in Hp2. split; [|done]. constructor; [done| |done|apply Hu].
  eapply umap_ext; [exact Hp2|apply Hu].
Qed.

(** Mapping frame [f] at the free user page [v]. *)
Lemma vmu_map_page K s free d T U v f fl :
  vmu K s free d T U -> 0 <= v < UPAGES -> U !! v = None -> page f -> f ∉ K -> f ∉ own U -> 0 <= fl < PGSIZE ->
  runs (mappages d (PGSIZE * v) PGSIZE (V2P f) fl) s (fun r s' => exists free' T',
    only_pages K (vmem s) (vmem s') /\
    ((r = 0 /\ vmu K s' free' d T' (<[v := f]> U) /\
        forall w, vpn w -> pte (vmem s') d w = if decide (w = v) then V2P f + Z.lor fl PTE_P else pte (vmem s) d w) \/
     (r = -1 /\ vmu K s' free' d T' U /\ forall w, vpn w -> pte (vmem s') d w = pte (vmem s) d w))).
Proof.
  intros Hu Hv HUv Hf HfK HfU Hfl. destruct (vmu_map _ _ _ _ _ _ Hu) as [Hmap1 Hmap2].
  destruct (V2P_aligned f Hf) as (Hal & Hf0 & Hf1). assert (Hlp := lor_perm fl Hfl).
  replace PGSIZE with (PGSIZE * Z.of_nat 1) at 2 by (unfold PGSIZE; lia).
  assert (Hvp := vpn_user v Hv).
  eapply runs_mono; [apply (mappages_spec K s free d T v 0 (V2P f) fl (vmu_core _ _ _ _ _ _ Hu)); try done; try lia|].
  { unfold vpn in Hvp. lia. }
  { unfold PHYSTOP, PGSIZE in *. lia. }
  { intros w Hw. assert (w = v) as -> by lia. by apply Hmap2. }
  intros r s1 (free1 & T1 & k & [Hc1 Hm1] & Hr & Hp1). exists free1, T1. split; [done|].
  destruct Hr as [[-> ->]|[-> Hk]]; [left|right]; (split; [done|]).
  - assert (Hp : forall w, vpn w -> pte (vmem s1) d w = if decide (w = v) then V2P f + Z.lor fl PTE_P else pte (vmem s) d w).
    { intros w Hw. rewrite Hp1 by done. unfold mapped. repeat case_decide; subst; lia || done. }
    split; [|done]. constructor; [done| | |].
    + split.
      * intros w g. rewrite lookup_insert_Some. intros [[<- <-]|[Hne Hg]].
        -- split; [done|]. exists (Z.lor fl PTE_P). rewrite Hp, decide_True by done. split_and!; [lia|lia| |done].
           rewrite <- (Z.add_0_l (Z.lor fl PTE_P)). by apply present_perm.
        -- destruct (Hmap1 w g Hg) as [Hwr Hx]. split; [done|].
           by rewrite Hp, decide_False by (by apply vpn_user || done).
      * intros w Hw. rewrite lookup_insert_None. intros [Hn Hne].
        rewrite Hp, decide_False by (by apply vpn_user || done). by apply Hmap2.
    + rewrite own_insert by done. rewrite <- Permutation_middle. apply NoDup_cons. split; [|apply Hu].
      rewrite elem_of_app. tauto.
    + rewrite own_insert by done. apply Forall_cons. split; [done|apply Hu].
  - assert (k = 0%nat) as -> by lia.
    assert (Hp : forall w, vpn w -> pte (vmem s1) d w = pte (vmem s) d w).
    { intros w Hw. rewrite Hp1 by done. unfold mapped. by rewrite decide_False by lia. }
    split; [|done]. constructor; [done| |apply Hu|apply Hu]. eapply umap_ext; [exact Hp|apply Hu].
Qed.

(** Pages [lo .. hi - 1] are new, zeroed, writable user pages; everything
    else is as it was. *)
Definition extended (K : list Z) (d : Z) (U : gmap Z Z) (lo hi : Z) (s s' : vst)
    (K' free' : list Z) (T' U' : gmap Z Z) : Prop :=
  vmu K' s' free' d T' U' /\ K' ++ own U' ≡ₚ K ++ own U /\ (forall p, p ∈ K' -> p ∈ K) /\
  only_pages K (vmem s) (vmem s') /\
  (forall w, ~ lo <= w < hi -> U' !! w = U !! w /\ (vpn w -> pte (vmem s') d w = pte (vmem s) d w)) /\
  (forall w, lo <= w < hi -> exists f, U' !! w = Some f /\ f ∈ K /\ pte (vmem s') d w = V2P f + 7 /\
     forall x, in_page f x -> vmem s' x = 0).

(** Nothing was changed but the pages of [K]. *)
Definition undone (K : list Z) (d : Z) (U : gmap Z Z) (s s' : vst) : Prop :=
  exists free' T', vmu K s' free' d T' U /\ only_pages K (vmem s) (vmem s').
End spec.
