(* ===== verification/VmUser.v ===== *)
(** Growing, shrinking, copying and writing user memory: what [allocuvm],
    [deallocuvm], [copyuvm], [freevm] and [copyout] promise their callers. *)

From S2P Require Import Prelude Layout CString Kalloc Vm VmSpec.

Section user.
Context `{linked} {Hlk : linked_ok}.

(** ** allocuvm *)

(** Shrinking back takes away what was added. *)
Lemma alloc_undo K d U s0 oldsz newsz v K1 s free1 T1 U1 :
  extended K d U (npages oldsz) v s0 s K1 free1 T1 U1 ->
  (forall w, npages oldsz <= w < npages newsz -> U !! w = None) ->
  0 <= oldsz < newsz -> newsz < KERNBASE -> v <= npages newsz ->
  runs (deallocuvm d newsz oldsz) s (fun _ s' => undone K d U s0 s').
Proof.
  intros (Hu & Hperm & Hsub & Hm & Hout & Hin) HUn Hsz Hk Hv.
  eapply runs_mono; [apply (deallocuvm_spec K1 s free1 d T1 U1 newsz oldsz Hu); lia|].
  intros r s' (_ & K' & free' & U' & Hu' & Hperm' & Hsub' & Hm' & HU' & _).
  assert (U' = U) as ->.
  { apply map_eq. intros w. rewrite HU'. case_decide as Hw; [by rewrite HUn|]. apply Hout. lia. }
  assert (HK : K' ≡ₚ K) by (rewrite Hperm in Hperm'; by apply (Permutation_app_inv_r (own U))).
  exists free', T1. split; [by eapply vmu_permute|]. eapply only_pages_trans; [exact Hm|].
  eapply only_pages_mono; [|exact Hm']. intros p. by rewrite HK.
Qed.

Lemma extended_step K d U s0 lo v K1 s free1 T1 U1 f K2 s2 free2 T2 :
  extended K d U lo v s0 s K1 free1 T1 U1 -> lo <= v -> vpn v -> K1 ≡ₚ f :: K2 -> f ∈ K ->
  vmu K2 s2 free2 d T2 (<[v := f]> U1) -> U1 !! v = None -> page f -> f ∉ K2 ->
  only_pages (f :: K2) (vmem s) (vmem s2) -> (forall x, in_page f x -> vmem s2 x = 0) ->
  (forall w, vpn w -> pte (vmem s2) d w = if decide (w = v) then V2P f + 7 else pte (vmem s) d w) ->
  extended K d U lo (v + 1) s0 s2 K2 free2 T2 (<[v := f]> U1).
Proof.
  intros (Hu & Hperm & Hsub & Hm & Hout & Hin) Hlv Hvp HK1 HfK Hu2 HUv Hf HfK2 Hm2 Hz Hp2.
  split_and!.
  - done.
  - rewrite own_insert by done. rewrite <- Permutation_middle, <- Hperm, HK1. done.
  - intros p Hp. apply Hsub. rewrite HK1. by right.
  - eapply only_pages_trans; [exact Hm|]. eapply only_pages_mono; [|exact Hm2]. intros p Hp. apply Hsub. by rewrite HK1.
  - intros w Hw. destruct (Hout w ltac:(lia)) as [H1 H2]. split; [by rewrite lookup_insert_ne by lia|].
    intros Hwp. rewrite Hp2, decide_False by (done || lia). by apply H2.
  - intros w Hw. destruct (decide (w = v)) as [->|Hne].
    + exists f. split_and!; [apply lookup_insert_eq|done|by rewrite Hp2, decide_True|done].
    + destruct (Hin w ltac:(lia)) as (g & Hg & HgK & Hpg & Hzg). exists g. rewrite lookup_insert_ne by done.
      destruct (vmu_map _ _ _ _ _ _ Hu) as [Hmap1 _]. destruct (Hmap1 w g Hg) as [Hwr _].
      destruct (vmu_frame _ _ _ _ _ _ _ _ Hu Hg) as [Hgp HgK1].
      split_and!; [done|done|by rewrite Hp2, decide_False by (by apply vpn_user || done)|].
      intros x Hx. rewrite <- (Hzg x Hx). eapply only_pages_at; [|exact Hgp| |exact Hm2|exact Hx].
      * apply Forall_cons. split; [done|]. apply (vmc_page _ _ _ _ _ (vmu_core _ _ _ _ _ _ Hu2)).
      * by rewrite <- HK1.
Qed.

Lemma allocuvm_loop_spec K d U s0 oldsz newsz n : forall v K1 s free1 T1 U1,
  extended K d U (npages oldsz) v s0 s K1 free1 T1 U1 ->
  (forall w, npages oldsz <= w < npages newsz -> U !! w = None) ->
  0 <= oldsz <= newsz -> newsz < KERNBASE -> npages oldsz <= v -> v + Z.of_nat n = npages newsz ->
  runs (allocuvm_loop (S n) d (PGSIZE * v) oldsz newsz) s (fun r s' =>
    (r = newsz /\ exists K' free' T' U', extended K d U (npages oldsz) (npages newsz) s0 s' K' free' T' U') \/
    (r = 0 /\ undone K d U s0 s')).
Proof.
  induction n as [|n IH]; intros v K1 s free1 T1 U1 Hext HUn Hsz Hk Hlv Hvn;
    unfold allocuvm_loop; fold allocuvm_loop; destruct (npages_range newsz ltac:(lia)) as [Hn1 Hn2].
  { rewrite (proj2 (Z.ltb_ge _ _)) by (unfold PGSIZE in *; lia). eapply runs_Ok; [done|]. left.
    split; [apply s32_small; unfold KERNBASE in *; lia|]. rewrite <- Hvn, Z.add_0_r. eauto. }
  rewrite (proj2 (Z.ltb_lt _ _)) by (unfold PGSIZE in *; lia).
  assert (Hvu : 0 <= v < UPAGES) by (destruct (npages_range oldsz ltac:(lia)); lia). assert (Hvp := vpn_user v Hvu).
  assert (Hsz' : oldsz < newsz) by (destruct (npages_range oldsz ltac:(lia)); unfold PGSIZE in *; lia).
  assert (Hext' := Hext). destruct Hext' as (Hu & Hperm & Hsub & Hm & Hout & Hin).
  assert (HUv : U1 !! v = None) by (destruct (Hout v ltac:(lia)) as [-> _]; apply HUn; lia).
  apply runs_bind. destruct free1 as [|f free1].
  { eapply runs_Ok; [apply (kalloc_spec s [] (vmc_kok _ _ _ _ _ (vmu_core _ _ _ _ _ _ Hu)))|]. cbn [Z.eqb].
    apply runs_bind. eapply runs_mono; [apply (alloc_undo K d U s0 oldsz newsz v K1 s _ _ _ Hext HUn); lia|].
    intros r s' Hun. eapply runs_Ok; [done|]. by right. }
  destruct (vmu_take K1 s f free1 d T1 U1 Hu) as (s1 & K2 & Hs1 & Hm1 & HK1 & Hf & HfK2 & HfU & Htake).
  eapply runs_Ok; [exact Hs1|]. rewrite (proj2 (Z.eqb_neq f 0)) by by apply page_nonzero.
  destruct (Htake (memset (vmem s) f 0 PGSIZE) ltac:(by apply only_pages_set)) as [Hu2 Hp2].
  apply runs_bind. eapply runs_Ok; [reflexivity|]. rewrite Hm1.
  set (s2 := set_vmem (memset (vmem s) f 0 PGSIZE) s1) in *.
  apply runs_bind. eapply runs_mono.
  { apply (vmu_map_page K2 s2 free1 d T1 U1 v f (Z.lor PTE_W PTE_U) Hu2 Hvu HUv Hf HfK2 HfU). change (Z.lor PTE_W PTE_U) with 6. unfold PGSIZE. lia. }
  intros r s3 (free3 & T3 & Hm3 & Hr).
  assert (HfK : f ∈ K) by (apply Hsub; rewrite HK1; left).
  assert (Hm23 : only_pages (f :: K2) (vmem s) (vmem s3)).
  { eapply only_pages_trans; eapply only_pages_mono; [|by apply (only_pages_set f (vmem s) 0 Hf)| |exact Hm3];
      [intros q ->%list_elem_of_singleton; left|intros q Hq; by right]. }
  assert (Hpf : forall q, q ∈ f :: K2 -> page q).
  { intros q [->|Hq]%elem_of_cons; [done|]. pose proof (vmc_page _ _ _ _ _ (vmu_core _ _ _ _ _ _ Hu2)) as Hfa.
    rewrite Forall_forall in Hfa. auto. }
  destruct Hr as [(-> & Hu3 & Hp3)|(-> & Hu3 & Hp3)]; cbn [Z.ltb Z.compare].
  - replace (u32 (PGSIZE * v + PGSIZE)) with (PGSIZE * (v + 1))
      by (change UPAGES with 524288 in Hvu; rewrite u32_small; unfold PGSIZE; lia).
    apply (IH (v + 1) K2 s3 free3 T3 (<[v := f]> U1)); [|done|lia|lia|lia|lia].
    eapply extended_step; [exact Hext|lia|done|done|done|done|done|done|done|done| |].
    + intros x Hx. transitivity (vmem s2 x).
      * eapply only_pages_at; [|exact Hf|exact HfK2|exact Hm3|exact Hx]. apply Forall_forall. intros q Hq. apply Hpf. by right.
      * unfold s2. cbn [vmem set_vmem]. rewrite memset_correct by (unfold PGSIZE; lia). unfold in_page in Hx.
        by rewrite (proj2 (Z.leb_le _ _)), (proj2 (Z.ltb_lt _ _)) by lia.
    + intros w Hw. rewrite Hp3 by done. change (Z.lor (Z.lor PTE_W PTE_U) PTE_P) with 7. case_decide; [done|]. by apply Hp2.
  - (* no page table: undo, then give the frame back *)
    apply runs_bind. eapply runs_mono; [apply (deallocuvm_spec K2 s3 free3 d T3 U1 newsz oldsz Hu3); lia|].
    intros r' s4 (_ & K4 & free4 & U4 & Hu4 & Hperm4 & Hsub4 & Hm4 & HU4 & _).
    assert (U4 = U) as ->.
    { apply map_eq. intros w. rewrite HU4. case_decide as Hw; [by rewrite HUn|]. apply Hout. lia. }
    assert (HfK4 : (f ∉ K4) /\ (f ∉ own U)).
    { assert (Hnd : NoDup ((f :: K2) ++ own U1)) by (rewrite <- HK1; apply Hu).
      apply NoDup_cons in Hnd as [Hnin _]. rewrite <- Hperm4, elem_of_app in Hnin. tauto. }
    destruct (vmc_kfree K4 s4 free4 d T3 f (vmu_core _ _ _ _ _ _ Hu4) Hf (proj1 HfK4)) as (s5 & Hs5 & Hc5 & Hm5 & Hp5).
    apply runs_bind. eapply runs_Ok; [exact Hs5|]. eapply runs_Ok; [done|]. right. split; [done|].
    assert (HK5 : f :: K4 ≡ₚ K).
    { apply (Permutation_app_inv_r (own U)). cbn. rewrite Hperm4, <- Hperm, HK1. done. }
    exists (f :: free4), T3. split.
    + eapply vmu_permute; [exact HK5|]. constructor; [done| | |apply Hu4].
      * eapply umap_ext; [exact Hp5|apply Hu4].
      * cbn. apply NoDup_cons. split; [|apply Hu4]. rewrite elem_of_app. tauto.
    + eapply only_pages_trans; [exact Hm|]. eapply only_pages_mono; [intros p Hp; rewrite <- HK5; exact Hp|].
      eapply only_pages_trans; [|eapply only_pages_trans].
      * eapply only_pages_mono; [|exact Hm23]. intros q [->|Hq]%elem_of_cons; [left|right; by apply Hsub4].
      * eapply only_pages_mono; [|exact Hm4]. intros q Hq. by right.
      * eapply only_pages_mono; [|exact Hm5]. intros q ->%list_elem_of_singleton. left.
Qed.

(** ** The address space of another process *)

(** A walk that only looks. *)
Lemma walk_pte s d T v :
  pt_ok (vmem s) d T -> Forall page (own T) -> vpn v -> present (pte (vmem s) d v) = true ->
  exists a, walkpgdir d (PGSIZE * v) false s = Ok (a, s) /\ a <> 0 /\ load32 (vmem s) a = pte (vmem s) d v.
Proof.
  intros [Hs Hn] Hpg Hv Hpr. assert (Hva : 0 <= PGSIZE * v < 2 ^ 32) by (unfold vpn, PGSIZE in *; lia).
  assert (Hdiv : PGSIZE * v / PGSIZE = v) by (rewrite Z.mul_comm; apply Z.div_mul; unfold PGSIZE; lia).
  destruct (vpn_of _ Hva) as (_ & Hpdx & Hptx). rewrite Hdiv in Hpdx, Hptx.
  unfold pte in *. cbv zeta in *. destruct (present (pde (vmem s) d (v / 1024))) eqn:Hd; [|done].
  destruct (T !! (v / 1024)) as [t|] eqn:Ht; [|by rewrite Hn in Hd by (done || by apply vpn_dir)].
  assert (Htp : page t) by (rewrite Forall_forall in Hpg; apply Hpg, elem_of_own; eauto).
  destruct (Hs _ _ Ht) as [_ He]. rewrite He, tab_addr in * by (done || unfold PGSIZE; lia).
  exists (t + 4 * (v mod 1024)). split_and!; [|apply page_range in Htp; unfold KERNLINK, KERNBASE, EXTMEM in *; pose proof (Z.mod_pos_bound v 1024 ltac:(lia)); lia|done].
  unfold walkpgdir, bind, ld, gets. rewrite Hpdx. fold (pde (vmem s) d (v / 1024)). rewrite He, Hd, Hptx.
  by rewrite tab_addr by (done || unfold PGSIZE; lia).
Qed.

(** It does not change when only free pages do. *)
Lemma pt_frame m m' d T :
  pt_ok m d T -> Forall page (own T) -> (forall p x, p ∈ d :: own T -> in_page p x -> m' x = m x) ->
  pt_ok m' d T /\ forall v, vpn v -> pte m' d v = pte m d v.
Proof.
  intros [H1 H2] Hpg Hm.
  assert (Hpde : forall i, 0 <= i < 1024 -> pde m' d i = pde m d i).
  { intros i Hi. apply load_page; [done|]. intros x. apply Hm. left. }
  split.
  - constructor.
    + intros i t Hi. destruct (H1 i t Hi). split; [done|]. by rewrite Hpde.
    + intros i Hi Hn. rewrite Hpde by done. by apply H2.
  - intros v Hv. unfold pte. rewrite Hpde by by apply vpn_dir.
    destruct (present (pde m d (v / 1024))) eqn:Hp; [|done].
    destruct (T !! (v / 1024)) as [t|] eqn:Ht; [|by rewrite H2 in Hp by (done || by apply vpn_dir)].
    assert (Hto : t ∈ own T) by (apply elem_of_own; eauto).
    destruct (H1 _ _ Ht) as [_ He]. rewrite He, tab_addr by (unfold PGSIZE; lia || (rewrite Forall_forall in Hpg; auto)).
    apply load_page; [apply Z.mod_pos_bound; lia|]. intros x. apply Hm. by right.
Qed.

Lemma vmu_apart_mem K s free d T U p :
  vmu K s free d T U -> p ∈ d :: own T ++ own U -> page p /\ p ∉ free.
Proof.
  intros Hu Hp. assert (Hc := vmu_core _ _ _ _ _ _ Hu).
  assert (Hnd := vmu_nodup _ _ _ _ _ _ Hu). rewrite <- (vmc_perm _ _ _ _ _ Hc), <- app_assoc in Hnd.
  apply NoDup_app in Hnd as (_ & Hdis & _). split.
  - destruct (proj1 (elem_of_app (d :: own T) (own U) p) Hp) as [Hd|Hd].
    + apply (vmc_pages _ _ _ _ _ Hc). right. by apply elem_of_cons.
    + pose proof (vmu_page _ _ _ _ _ _ Hu) as Hf. rewrite Forall_forall in Hf. auto.
  - intros Hf. by apply (Hdis p Hf).
Qed.

(** When only pages outside an address space are written, it is what it was. *)
Lemma vmu_move K s free d T U s' free' W :
  vmu K s free d T U -> only_pages W (vmem s) (vmem s') -> Forall page W -> kok s' free' ->
  (forall p, p ∈ W \/ p ∈ free' -> p ∉ d :: own T ++ own U) ->
  vmu (free' ++ d :: own T) s' free' d T U /\ (forall v, vpn v -> pte (vmem s') d v = pte (vmem s) d v) /\
  forall v f x, U !! v = Some f -> in_page f x -> vmem s' x = vmem s x.
Proof.
  intros Hu Hm HW Hk Hsub. assert (Hc := vmu_core _ _ _ _ _ _ Hu).
  assert (Hsame : forall p x, p ∈ d :: own T ++ own U -> in_page p x -> vmem s' x = vmem s x).
  { intros p x Hp Hx. destruct (vmu_apart_mem _ _ _ _ _ _ _ Hu Hp) as [Hpp _].
    eapply only_pages_at; [exact HW|exact Hpp| |exact Hm|exact Hx]. intros Hin. apply (Hsub p); auto. }
  destruct (pt_frame (vmem s) (vmem s') d T (vmc_pt _ _ _ _ _ Hc)) as [Hpt Hp].
  { apply Forall_forall. intros t Ht. apply (vmc_pages _ _ _ _ _ Hc). auto. }
  { intros p x Hin. apply Hsame. apply (elem_of_app (d :: own T) (own U)). by left. }
  assert (Hnd : NoDup ((free' ++ d :: own T) ++ own U)).
  { assert (Hn := vmu_nodup _ _ _ _ _ _ Hu). rewrite <- (vmc_perm _ _ _ _ _ Hc), <- app_assoc in Hn.
    rewrite <- app_assoc. apply NoDup_app in Hn as (_ & _ & Hn). apply NoDup_app. split_and!; [apply Hk| |done].
    intros p Hpf. by apply Hsub; right. }
  split; [|split; [done|]].
  - constructor; [|by eapply umap_ext; [exact Hp|apply Hu]|done|apply Hu].
    constructor; [done|done|done|by apply NoDup_app in Hnd as (? & _)|].
    apply Forall_app. split; [apply Hk|]. apply Forall_forall. intros p Hpd. apply (vmc_pages _ _ _ _ _ Hc).
    right. by apply elem_of_cons.
  - intros v f x Hf. apply Hsame. right. apply elem_of_app. right. apply elem_of_own. eauto.
Qed.

(** When only pages that were free are written, and the free list shrinks. *)
Lemma vmu_apart K s free d T U s' free' :
  vmu K s free d T U -> only_pages free (vmem s) (vmem s') -> kok s' free' -> (forall p, p ∈ free' -> p ∈ free) ->
  vmu (free' ++ d :: own T) s' free' d T U /\ (forall v, vpn v -> pte (vmem s') d v = pte (vmem s) d v) /\
  forall v f x, U !! v = Some f -> in_page f x -> vmem s' x = vmem s x.
Proof.
  intros Hu Hm Hk Hsub. apply (vmu_move K s free d T U s' free' free); try done.
  - apply (kok_page _ _ (vmc_kok _ _ _ _ _ (vmu_core _ _ _ _ _ _ Hu))).
  - intros p Hp Hin. destruct (vmu_apart_mem _ _ _ _ _ _ _ Hu Hin) as [_ Hn]. destruct Hp; auto.
Qed.

(** ** copyuvm *)

Lemma only_pages_move p m src : only_pages [p] m (memmove m p src PGSIZE).
Proof.
  intros x Hx. rewrite memmove_spec by (unfold PGSIZE; lia). specialize (Hx p ltac:(left)). unfold in_page in Hx.
  destruct (Z.leb_spec p x), (Z.ltb_spec x (p + PGSIZE)); cbn [andb]; done || lia.
Qed.

Lemma lor_present fl : present fl = true -> Z.lor fl PTE_P = fl.
Proof.
  unfold present, PTE_P. change 1 with (Z.ones 1). rewrite Z.land_ones by lia. change (2 ^ 1) with 2.
  intros Hp. apply Z.bits_inj'. intros i Hi. rewrite Z.lor_spec, Z.testbit_ones_nonneg by lia.
  destruct (Z.ltb_spec i 1); [|by rewrite orb_false_r]. assert (i = 0) as -> by lia.
  rewrite orb_true_r, Z.bit0_odd, Zodd_mod. destruct (Z.eqb_spec (fl mod 2) 0); [done|].
  pose proof (Z.mod_pos_bound fl 2 ltac:(lia)). symmetry. by assert (fl mod 2 = 1) as -> by lia.
Qed.

(** The first [v] pages of the parent [pd] have been copied to the child [d],
    whose pages all come from the parent's free list. *)
Record copied (free : list Z) (pd : Z) (PU : gmap Z Z) (s0 : vst) (v : Z)
    (K : list Z) (s : vst) (free' : list Z) (d : Z) (T U : gmap Z Z) : Prop := Copied {
  cp_vmu : vmu K s free' d T U;
  cp_perm : K ++ own U ≡ₚ free;
  cp_only : only_pages free (vmem s0) (vmem s);
  cp_none : forall w, ~ 0 <= w < v -> U !! w = None;
  cp_kern : forall w, vpn w -> UPAGES <= w -> pte (vmem s) d w = kpte w;
  cp_user : forall w, 0 <= w < v -> exists f g fl, PU !! w = Some f /\ U !! w = Some g /\ 0 <= fl < PGSIZE /\
    pte (vmem s0) pd w = V2P f + fl /\ pte (vmem s) d w = V2P g + fl /\
    forall i, 0 <= i < PGSIZE -> vmem s (g + i) = vmem s0 (f + i)
}.

Lemma copy_undo free pd PU s0 v K s free' d T U (Q : Z -> vst -> Prop) :
  copied free pd PU s0 v K s free' d T U ->
  (forall s' free', kok s' free' -> free' ≡ₚ free -> only_pages free (vmem s0) (vmem s') -> Q 0 s') ->
  runs (freevm d;; ret 0) s Q.
Proof.
  intros Hcp HQ. apply runs_bind. eapply runs_mono; [apply (freevm_spec K s free' d T U), (cp_vmu _ _ _ _ _ _ _ _ _ _ _ Hcp)|].
  intros [] s' (f' & Hk & Hf & Hm). eapply runs_Ok; [done|]. rewrite (cp_perm _ _ _ _ _ _ _ _ _ _ _ Hcp) in Hf.
  apply (HQ s' f'); [done|done|]. eapply only_pages_trans; [apply Hcp|].
  eapply only_pages_mono; [|exact Hm]. intros p. by rewrite (cp_perm _ _ _ _ _ _ _ _ _ _ _ Hcp).
Qed.

Section copy.
Context (K0 : list Z) (s0 : vst) (free : list Z) (pd : Z) (PT PU : gmap Z Z).
Context (Hpar : vmu K0 s0 free pd PT PU).

(** The parent, seen while the child is built. *)
Lemma copy_parent v K s free1 d T U :
  copied free pd PU s0 v K s free1 d T U ->
  pt_ok (vmem s) pd PT /\ (forall w, vpn w -> pte (vmem s) pd w = pte (vmem s0) pd w) /\
  forall w f x, PU !! w = Some f -> in_page f x -> vmem s x = vmem s0 x.
Proof.
  intros Hcp. assert (Hc1 := vmu_core _ _ _ _ _ _ (cp_vmu _ _ _ _ _ _ _ _ _ _ _ Hcp)).
  destruct (vmu_apart K0 s0 free pd PT PU s free1 Hpar (cp_only _ _ _ _ _ _ _ _ _ _ _ Hcp) (vmc_kok _ _ _ _ _ Hc1)) as (Hu & Hp & Hf).
  - intros p Hp. rewrite <- (cp_perm _ _ _ _ _ _ _ _ _ _ _ Hcp). apply elem_of_app. left. apply (vmc_in _ _ _ _ _ Hc1). auto.
  - split_and!; [apply Hu|done|done].
Qed.

(** Giving back a page that could not be mapped. *)
Lemma copied_kfree v K1 K s s1 free1 d T1 T U g :
  copied free pd PU s0 v K1 s1 free1 d T1 U -> K1 ≡ₚ g :: K -> page g -> g ∉ K -> g ∉ own U ->
  only_pages (g :: K) (vmem s1) (vmem s) ->
  (exists free2, vmu K s free2 d T U /\ forall w, vpn w -> pte (vmem s) d w = pte (vmem s1) d w) ->
  exists s' free', kfree g s = Ok ((), s') /\ copied free pd PU s0 v (g :: K) s' free' d T U.
Proof.
  intros [Hu Hperm Hm Hno Hke Hus] HK Hg HgK HgU Hm1 (free2 & Hu2 & Hp2).
  destruct (vmc_kfree K s free2 d T g (vmu_core _ _ _ _ _ _ Hu2) Hg HgK) as (s' & Hs' & Hc' & Hm' & Hp').
  exists s', (g :: free2). split; [done|].
  assert (Hm01 : only_pages (g :: K) (vmem s1) (vmem s')).
  { eapply only_pages_trans; [exact Hm1|]. eapply only_pages_mono; [|exact Hm']. intros q ->%list_elem_of_singleton. left. }
  constructor.
  - constructor; [done| | |apply Hu2].
    + eapply umap_ext; [exact Hp'|apply Hu2].
    + cbn. apply NoDup_cons. split; [|apply Hu2]. rewrite elem_of_app. tauto.
  - by rewrite <- HK.
  - eapply only_pages_trans; [exact Hm|]. eapply only_pages_mono; [|exact Hm01].
    intros q Hq. rewrite <- Hperm, HK. apply elem_of_app. by left.
  - done.
  - intros w Hw Hu'. rewrite Hp', Hp2 by done. by apply Hke.
  - intros w Hw. destruct (Hus w Hw) as (f & g' & fl & H1 & H2 & H3 & H4 & H5 & H6).
    exists f, g', fl. destruct (vmu_map _ _ _ _ _ _ Hu) as [Hmap _]. destruct (Hmap _ _ H2) as [Hwr _].
    rewrite Hp', Hp2 by by apply vpn_user. do 5 (split; [done|]). intros i Hi. rewrite <- H6 by done.
    destruct (vmu_frame _ _ _ _ _ _ _ _ Hu H2) as [Hg' HgK'].
    eapply only_pages_at; [|exact Hg'| |exact Hm01|unfold in_page; lia].
    + rewrite <- HK. apply (vmc_page _ _ _ _ _ (vmu_core _ _ _ _ _ _ Hu)).
    + by rewrite <- HK.
Qed.

(** One more page copied. *)
Lemma copied_step v K1 K s s1 free1 free2 d T1 T U f g fl :
  copied free pd PU s0 v K1 s1 free1 d T1 U -> 0 <= v < UPAGES -> K1 ≡ₚ g :: K -> page g -> g ∉ K ->
  PU !! v = Some f -> 0 <= fl < PGSIZE -> pte (vmem s0) pd v = V2P f + fl ->
  vmu K s free2 d T (<[v := g]> U) -> only_pages (g :: K) (vmem s1) (vmem s) ->
  (forall w, vpn w -> pte (vmem s) d w = if decide (w = v) then V2P g + fl else pte (vmem s1) d w) ->
  (forall i, 0 <= i < PGSIZE -> vmem s (g + i) = vmem s0 (f + i)) ->
  copied free pd PU s0 (v + 1) K s free2 d T (<[v := g]> U).
Proof.
  intros [Hu Hperm Hm Hno Hke Hus] Hv HK Hg HgK HPU Hfl Hpf Hu2 Hm1 Hp2 Hcopy.
  constructor.
  - done.
  - rewrite own_insert by (apply Hno; lia). rewrite <- Permutation_middle, <- Hperm, HK. done.
  - eapply only_pages_trans; [exact Hm|]. eapply only_pages_mono; [|exact Hm1].
    intros q Hq. rewrite <- Hperm, HK. apply elem_of_app. by left.
  - intros w Hw. rewrite lookup_insert_ne by lia. apply Hno. lia.
  - intros w Hw Hwu. rewrite Hp2, decide_False by (done || lia). by apply Hke.
  - intros w Hw. destruct (decide (w = v)) as [->|Hne].
    + exists f, g, fl. rewrite lookup_insert_eq, Hp2, decide_True by (done || by apply vpn_user). split_and!; done || lia.
    + destruct (Hus w ltac:(lia)) as (f' & g' & fl' & H1 & H2 & H3 & H4 & H5 & H6).
      destruct (vmu_map _ _ _ _ _ _ Hu) as [Hmap _]. destruct (Hmap _ _ H2) as [Hwr _].
      exists f', g', fl'. rewrite lookup_insert_ne, Hp2, decide_False by (done || by apply vpn_user).
      do 5 (split; [done|]). intros i Hi. rewrite <- H6 by done.
      destruct (vmu_frame _ _ _ _ _ _ _ _ Hu H2) as [Hg' HgK'].
      eapply only_pages_at; [|exact Hg'| |exact Hm1|unfold in_page; lia].
      * rewrite <- HK. apply (vmc_page _ _ _ _ _ (vmu_core _ _ _ _ _ _ Hu)).
      * by rewrite <- HK.
Qed.

Lemma copyuvm_loop_spec sz n : forall v K s free1 d T U,
  copied free pd PU s0 v K s free1 d T U ->
  0 <= sz <= KERNBASE -> (forall w, 0 <= w < npages sz -> is_Some (PU !! w)) -> 0 <= v -> v + Z.of_nat n = npages sz ->
  d <> 0 ->
  runs (copyuvm_loop (S n) pd d sz (PGSIZE * v)) s (fun r s' =>
    (r = 0 /\ only_pages free (vmem s0) (vmem s') /\ exists free', kok s' free' /\ free' ≡ₚ free) \/
    (r = d /\ exists K' free' T' U', copied free pd PU s0 (npages sz) K' s' free' d T' U')).
Proof.
  induction n as [|n IH]; intros v K s free1 d T U Hcp Hsz Hall Hv Hvn Hd;
    unfold copyuvm_loop; fold copyuvm_loop; destruct (npages_range sz ltac:(lia)) as [Hn1 Hn2].
  { rewrite (proj2 (Z.ltb_ge _ _)) by (unfold PGSIZE in *; lia). eapply runs_Ok; [done|]. right.
    split; [done|]. rewrite <- Hvn, Z.add_0_r. eauto. }
  rewrite (proj2 (Z.ltb_lt _ _)) by (unfold PGSIZE in *; lia).
  assert (Hvu : 0 <= v < UPAGES) by lia. assert (Hvp := vpn_user v Hvu).
  destruct (Hall v ltac:(lia)) as [f Hf]. destruct (vmu_map _ _ _ _ _ _ Hpar) as [Hmap _].
  destruct (Hmap v f Hf) as (_ & fl & Hfl & Hflp & Hpf). destruct (copy_parent _ _ _ _ _ _ _ Hcp) as (Hpt & Hpp & Hpm).
  destruct (vmu_frame _ _ _ _ _ _ _ _ Hpar Hf) as [Hfp _]. destruct (V2P_aligned f Hfp) as (Hal & Hf0 & Hf1).
  assert (Hpe : pte (vmem s) pd v = V2P f + fl) by by rewrite Hpp.
  destruct (walk_pte s pd PT v Hpt) as (a & Ha & Ha0 & Hla).
  { apply Forall_forall. intros t Ht. apply (vmc_pages _ _ _ _ _ (vmu_core _ _ _ _ _ _ Hpar)). auto. }
  { done. } { by rewrite Hpe, present_flags. }
  apply runs_bind. eapply runs_Ok; [exact Ha|]. rewrite (proj2 (Z.eqb_neq a 0)) by done.
  apply runs_bind. eapply runs_Ok; [reflexivity|]. rewrite Hla, Hpe, present_flags, Hflp by done. cbn [negb]. cbv zeta.
  rewrite PTE_ADDR_flags, PTE_FLAGS_flags, P2V_V2P by done.
  assert (Hu := cp_vmu _ _ _ _ _ _ _ _ _ _ _ Hcp). assert (HUv : U !! v = None) by (apply (cp_none _ _ _ _ _ _ _ _ _ _ _ Hcp); lia).
  apply runs_bind. destruct free1 as [|g free1].
  { eapply runs_Ok; [apply (kalloc_spec s [] (vmc_kok _ _ _ _ _ (vmu_core _ _ _ _ _ _ Hu)))|]. cbn [Z.eqb].
    eapply copy_undo; [exact Hcp|]. intros s' f' Hk' Hf' Hm'. left. eauto. }
  destruct (vmu_take K s g free1 d T U Hu) as (s1 & K2 & Hs1 & Hm1 & HK1 & Hg & HgK2 & HgU & Htake).
  eapply runs_Ok; [exact Hs1|]. rewrite (proj2 (Z.eqb_neq g 0)) by by apply page_nonzero.
  assert (Hmv : only_pages [g] (vmem s) (memmove (vmem s) g f PGSIZE)) by apply only_pages_move.
  destruct (Htake _ Hmv) as [Hu2 Hp2].
  apply runs_bind. eapply runs_Ok; [reflexivity|]. rewrite Hm1.
  set (s2 := set_vmem (memmove (vmem s) g f PGSIZE) s1) in *.
  apply runs_bind. eapply runs_mono; [apply (vmu_map_page K2 s2 free1 d T U v g fl Hu2 Hvu HUv Hg HgK2 HgU Hfl)|].
  intros r s3 (free3 & T3 & Hm3 & Hr).
  assert (Hm23 : only_pages (g :: K2) (vmem s) (vmem s3)).
  { eapply only_pages_trans; eapply only_pages_mono; [|exact Hmv| |exact Hm3];
      [intros q ->%list_elem_of_singleton; left|intros q Hq; by right]. }
  destruct Hr as [(-> & Hu3 & Hp3)|(-> & Hu3 & Hp3)]; cbn [Z.ltb Z.compare].
  - replace (u32 (PGSIZE * v + PGSIZE)) with (PGSIZE * (v + 1))
      by (change UPAGES with 524288 in Hvu; rewrite u32_small; unfold PGSIZE; lia).
    apply (IH (v + 1) K2 s3 free3 d T3 (<[v := g]> U)); [|done|done|lia|lia|done].
    eapply (copied_step v K K2 s3 s); try done.
    + intros w Hw. rewrite Hp3 by done. case_decide; [by rewrite lor_present|]. by apply Hp2.
    + intros i Hi. transitivity (vmem s2 (g + i)).
      * eapply only_pages_at; [apply (vmc_page _ _ _ _ _ (vmu_core _ _ _ _ _ _ Hu2))|exact Hg|exact HgK2|exact Hm3|unfold in_page; lia].
      * unfold s2. cbn [vmem set_vmem]. rewrite memmove_spec by (unfold PGSIZE; lia).
        rewrite (proj2 (Z.leb_le _ _)), (proj2 (Z.ltb_lt _ _)) by lia. cbn [andb].
        replace (f + (g + i - g)) with (f + i) by lia. apply (Hpm v f); [done|]. unfold in_page. lia.
  - destruct (copied_kfree v K K2 s3 s (g :: free1) d T T3 U g Hcp HK1 Hg HgK2 HgU Hm23) as (s4 & free4 & Hs4 & Hcp4).
    { exists free3. split; [done|]. intros w Hw. rewrite Hp3 by done. by apply Hp2. }
    apply runs_bind. eapply runs_Ok; [exact Hs4|].
    eapply copy_undo; [exact Hcp4|]. intros s' f' Hk' Hf' Hm'. left. eauto.
Qed.
End copy.

(** A new directory has no user pages. *)
Lemma kpte_user v : 0 <= v < UPAGES -> kpte v = 0.
Proof.
  intros Hv. destruct kernel_pages as (Hk1 & _). unfold kpte. change (KERNLINK / PGSIZE) with 524544 in *.
  change UPAGES with 524288 in *.
  rewrite !mapped_user; try done; change UPAGES with 524288; lia.
Qed.

Lemma copyuvm_spec K s free pd PT PU sz :
  vmu K s free pd PT PU -> 0 <= sz <= KERNBASE -> (forall w, 0 <= w < npages sz -> is_Some (PU !! w)) ->
  runs (copyuvm pd sz) s (fun r s' =>
    (r = 0 /\ only_pages free (vmem s) (vmem s') /\ exists free', kok s' free' /\ free' ≡ₚ free) \/
    (r <> 0 /\ exists K' free' T' U', copied free pd PU s (npages sz) K' s' free' r T' U')).
Proof.
  intros Hu Hsz Hall. unfold copyuvm. apply runs_bind.
  eapply runs_mono; [apply (setupkvm_spec s free), Hu|].
  intros r s1 [Hm [(-> & free1 & Hk1 & Hf1)|(Hr & free1 & T1 & Hc1 & Hp1)]]; [eapply runs_Ok; [done|]; left; eauto|].
  rewrite (proj2 (Z.eqb_neq r 0) Hr). fold (npages sz).
  replace 0 with (PGSIZE * 0) by lia.
  eapply runs_mono; [apply (copyuvm_loop_spec K s free pd PT PU Hu sz (Z.to_nat (npages sz)) 0 free s1 free1 r T1 ∅)|].
  - constructor.
    + apply vmu_empty; [done|]. intros v Hv. rewrite Hp1, kpte_user by (done || by apply vpn_user). done.
    + by rewrite own_empty, app_nil_r.
    + done.
    + intros w _. apply lookup_empty.
    + intros w Hw _. by apply Hp1.
    + intros w Hw. lia.
  - done.
  - done.
  - lia.
  - destruct (npages_range sz Hsz). lia.
  - done.
  - intros q s2 [(-> & Hm2 & Hf2)|[-> Hcp]]; [left; eauto|right; eauto].
Qed.

Lemma allocuvm_spec K s free d T U oldsz newsz :
  vmu K s free d T U -> (forall w, npages oldsz <= w < npages newsz -> U !! w = None) ->
  0 <= oldsz <= newsz -> newsz < KERNBASE ->
  runs (allocuvm d oldsz newsz) s (fun r s' =>
    (r = newsz /\ exists K' free' T' U', extended K d U (npages oldsz) (npages newsz) s s' K' free' T' U') \/
    (r = 0 /\ undone K d U s s')).
Proof.
  intros Hu HUn Hsz Hk. unfold allocuvm. rewrite (proj2 (Z.leb_gt _ _)), (proj2 (Z.ltb_ge _ _)) by lia.
  rewrite PGROUNDUP_npages by lia. cbv zeta. assert (Hmono := npages_mono oldsz newsz ltac:(lia)).
  replace (newsz - PGSIZE * npages oldsz + PGSIZE - 1) with (newsz + PGSIZE - 1 + (- npages oldsz) * PGSIZE) by lia.
  rewrite Z.div_add by done. fold (npages newsz).
  apply (allocuvm_loop_spec K d U s oldsz newsz _ (npages oldsz) K s free T U); try done; try lia.
  split_and!; try done. intros w Hw. lia.
Qed.

Lemma extended_none K d U lo s s' K' free' T' U' :
  extended K d U lo lo s s' K' free' T' U' -> undone K d U s s'.
Proof.
  intros (Hu & Hp & _ & Hm & Hout & _). assert (U' = U) as -> by (apply map_eq; intros w; apply Hout; lia).
  exists free', T'. split; [|done]. eapply vmu_permute; [|exact Hu]. by apply (Permutation_app_inv_r (own U)).
Qed.
End user.
