(* ===== verification/VmThms.v ===== *)
(** The theorems on physical and virtual memory: no page is lost or handed out
    twice, address spaces are built, grown, copied and taken down completely,
    and an operation that runs out of memory leaves everything as it was. *)

From S2P Require Import Prelude Layout CString Kalloc Vm VmSpec VmUser.

(** ** copyout *)

Section copyout.
Context `{linked} {Hlk : linked_ok}.
Context (K : list Z) (free : list Z) (d : Z) (T U : gmap Z Z).

(** Physical byte [x] is byte [i] of the user range that starts at [va]. *)
Definition user_byte (va i x : Z) : Prop :=
  exists f, U !! ((va + i) / PGSIZE) = Some f /\ x = f + (va + i) mod PGSIZE.

(** Page [v] is mapped and user code may use it. *)
Definition user_page (m : mem) (v : Z) : Prop := is_Some (U !! v) /\ Z.land (pte m d v) PTE_U <> 0.

Lemma uva2ka_user s v f :
  vmu K s free d T U -> U !! v = Some f -> Z.land (pte (vmem s) d v) PTE_U <> 0 ->
  uva2ka d (PGSIZE * v) s = Ok (f, s).
Proof.
  intros Hu Hf Hus. destruct (vmu_map _ _ _ _ _ _ Hu) as [Hmap _]. destruct (Hmap v f Hf) as (Hvu & fl & Hfl & Hflp & Hp).
  destruct (vmu_frame _ _ _ _ _ _ _ _ Hu Hf) as [Hfp _]. destruct (V2P_aligned f Hfp) as (Hal & _ & _).
  assert (Hc := vmu_core _ _ _ _ _ _ Hu).
  destruct (walk_pte s d T v (vmc_pt _ _ _ _ _ Hc)) as (a & Ha & Ha0 & Hla).
  { apply Forall_forall. intros t Ht. apply (vmc_pages _ _ _ _ _ Hc). auto. }
  { by apply vpn_user. } { by rewrite Hp, present_flags. }
  unfold uva2ka, bind. rewrite Ha, (proj2 (Z.eqb_neq a 0)) by done. unfold ld, gets. rewrite Hla.
  rewrite (proj2 (Z.eqb_neq _ 0) Hus), Hp, present_flags, Hflp by done. cbn [negb].
  by rewrite PTE_ADDR_flags, P2V_V2P by done.
Qed.

(** Writing into a user frame leaves the address space as it is. *)
Lemma vmu_write s v f m' :
  vmu K s free d T U -> U !! v = Some f -> only_pages [f] (vmem s) m' ->
  vmu K (set_vmem m' s) free d T U /\ forall w, vpn w -> pte m' d w = pte (vmem s) d w.
Proof.
  intros Hu Hf Hm. destruct (vmu_frame _ _ _ _ _ _ _ _ Hu Hf) as [Hfp HfK].
  destruct (vmc_frame K s free d T (vmu_core _ _ _ _ _ _ Hu) m' [f]) as [Hc Hp];
    [by apply Forall_singleton|by intros p ->%list_elem_of_singleton|done|].
  split; [|done]. constructor; [done| |apply Hu|apply Hu]. eapply umap_ext; [exact Hp|apply Hu].
Qed.

Definition copied_out (va buf len : Z) (s s' : vst) : Prop :=
  vmu K s' free d T U /\
  (forall i x, 0 <= i < len -> user_byte va i x -> vmem s' x = vmem s (buf + i)) /\
  (forall x, (forall i, 0 <= i < len -> ~ user_byte va i x) -> vmem s' x = vmem s x).

Lemma user_byte_inj s va i j x : vmu K s free d T U -> user_byte va i x -> user_byte va j x -> i = j.
Proof.
  intros Hu (f & Hf & ->) (g & Hg & Hx).
  destruct (vmu_frame _ _ _ _ _ _ _ _ Hu Hf) as [Hfp _]. destruct (vmu_frame _ _ _ _ _ _ _ _ Hu Hg) as [Hgp _].
  pose proof (Z.mod_pos_bound (va + i) PGSIZE ltac:(done)). pose proof (Z.mod_pos_bound (va + j) PGSIZE ltac:(done)).
  assert (f = g) as <-.
  { apply (page_disjoint f g (f + (va + i) mod PGSIZE)); [done|done|unfold in_page; lia|unfold in_page; lia]. }
  assert (Hnd : NoDup (own U)) by (pose proof (vmu_nodup _ _ _ _ _ _ Hu) as Hn; by apply NoDup_app in Hn as (_ & _ & ?)).
  pose proof (own_inj U _ _ f Hnd Hf Hg). pose proof (Z.div_mod (va + i) PGSIZE ltac:(done)).
  pose proof (Z.div_mod (va + j) PGSIZE ltac:(done)). nia.
Qed.

Lemma round_down va : PGROUNDDOWN va = PGSIZE * (va / PGSIZE) /\ va - PGSIZE * (va / PGSIZE) = va mod PGSIZE.
Proof. unfold PGROUNDDOWN. rewrite ldiff_pow2. split; [done|]. rewrite Z.mod_eq; done. Qed.

(** One [memmove] into the page of [va]. *)
Lemma copied_out_step va buf len n f s :
  vmu K s free d T U -> U !! (va / PGSIZE) = Some f -> 0 <= n -> va mod PGSIZE + n <= PGSIZE ->
  (forall g x j, g ∈ own U -> in_page g x -> 0 <= j < len -> x <> buf + j) ->
  n <= len ->
  let s1 := set_vmem (memmove (vmem s) (f + va mod PGSIZE) buf n) s in
  vmu K s1 free d T U /\ (forall w, vpn w -> pte (vmem s1) d w = pte (vmem s) d w) /\
  (forall i x, 0 <= i < n -> user_byte va i x -> vmem s1 x = vmem s (buf + i)) /\
  (forall x, (forall i, 0 <= i < n -> ~ user_byte va i x) -> vmem s1 x = vmem s x).
Proof.
  intros Hu Hf Hn Hfit Hsrc Hlen s1. pose proof (Z.mod_pos_bound va PGSIZE ltac:(done)) as Hmod.
  assert (Hby : forall i, 0 <= i < n -> (va + i) / PGSIZE = va / PGSIZE /\ (va + i) mod PGSIZE = va mod PGSIZE + i).
  { intros i Hi. assert (Heq : va + i = PGSIZE * (va / PGSIZE) + (va mod PGSIZE + i)) by (rewrite (Z.div_mod va PGSIZE) at 1 by done; lia).
    split; symmetry; [eapply Z.div_unique_pos|eapply Z.mod_unique_pos]; [|exact Heq| |exact Heq]; lia. }
  destruct (vmu_write s (va / PGSIZE) f (vmem s1) Hu Hf) as [Hu1 Hp1].
  { intros x Hx. unfold s1. cbn [vmem set_vmem]. rewrite memmove_spec by done. specialize (Hx f ltac:(left)). unfold in_page in Hx.
    destruct (Z.leb_spec (f + va mod PGSIZE) x), (Z.ltb_spec x (f + va mod PGSIZE + n)); cbn [andb]; done || lia. }
  split; [done|]. split; [done|]. split.
  - intros i x Hi (g & Hg & ->). destruct (Hby i Hi) as [H1 H2]. rewrite H1, Hf in Hg. injection Hg as <-. rewrite H2.
    unfold s1. cbn [vmem set_vmem]. rewrite memmove_spec by done.
    rewrite (proj2 (Z.leb_le _ _)), (proj2 (Z.ltb_lt _ _)) by lia. cbn [andb]. f_equal. lia.
  - intros x Hx. unfold s1. cbn [vmem set_vmem]. rewrite memmove_spec by done.
    destruct (Z.leb_spec (f + va mod PGSIZE) x), (Z.ltb_spec x (f + va mod PGSIZE + n)); cbn [andb]; try done.
    exfalso. apply (Hx (x - (f + va mod PGSIZE)) ltac:(lia)). destruct (Hby (x - (f + va mod PGSIZE)) ltac:(lia)) as [Hd Hm].
    exists f. rewrite Hd, Hm. split; [done|lia].
Qed.

(** The first page, then the rest. *)
Lemma copied_out_trans va buf len n va1 s s1 s' :
  vmu K s free d T U -> 0 < n <= len -> (n < len -> va1 = va + n) ->
  (forall g x j, g ∈ own U -> in_page g x -> 0 <= j < len -> x <> buf + j) ->
  (forall i x, 0 <= i < n -> user_byte va i x -> vmem s1 x = vmem s (buf + i)) ->
  (forall x, (forall i, 0 <= i < n -> ~ user_byte va i x) -> vmem s1 x = vmem s x) ->
  copied_out va1 (buf + n) (len - n) s1 s' -> copied_out va buf len s s'.
Proof.
  intros Hu Hn Hva1 Hsrc Hin1 Hout1 (Hu' & Hin & Hout).
  assert (Hub : forall i x, 0 <= i < len - n -> user_byte va1 i x <-> user_byte va (n + i) x).
  { intros i x Hi. unfold user_byte. rewrite Hva1 by lia. by rewrite Z.add_assoc. }
  split_and!; [done| |].
  - intros i x Hi Hx. destruct (Z_lt_dec i n) as [Hlt|Hge].
    + rewrite Hout; [apply Hin1; [lia|done]|]. intros j Hj Hxj%Hub; [|done].
      pose proof (user_byte_inj s va _ _ x Hu Hx Hxj). lia.
    + rewrite (Hin (i - n)); [|lia|apply Hub; [lia|]; by replace (n + (i - n)) with i by lia].
      replace (buf + n + (i - n)) with (buf + i) by lia. apply Hout1. intros j Hj (f & Hf & Hb).
      apply (Hsrc f (buf + i) i); [apply elem_of_own; eauto| |done|done].
      pose proof (Z.mod_pos_bound (va + j) PGSIZE ltac:(done)). unfold in_page. lia.
  - intros x Hx. rewrite Hout; [apply Hout1|].
    + intros i Hi. apply Hx. lia.
    + intros i Hi Hb%Hub; [|done]. apply (Hx (n + i)); [lia|done].
Qed.

Lemma copyout_loop_spec fuel : forall va buf len s,
  vmu K s free d T U -> 0 <= va -> 0 <= len -> va + len <= KERNBASE ->
  (forall i, 0 <= i < len -> user_page (vmem s) ((va + i) / PGSIZE)) ->
  (forall g x j, g ∈ own U -> in_page g x -> 0 <= j < len -> x <> buf + j) ->
  (va mod PGSIZE + len + PGSIZE - 1) / PGSIZE <= Z.of_nat fuel ->
  runs (copyout_loop (S fuel) d va buf len) s (fun r s' => r = 0 /\ copied_out va buf len s s').
Proof.
  induction fuel as [|fuel IH]; intros va buf len s Hu Hva Hlen Hfit Hup Hsrc Hfuel;
    unfold copyout_loop; fold copyout_loop; pose proof (Z.mod_pos_bound va PGSIZE ltac:(done)) as Hmod.
  { assert (len = 0) as ->.
    { destruct (Z.eq_dec len 0) as [|Hne]; [done|].
      assert (1 <= (va mod PGSIZE + len + PGSIZE - 1) / PGSIZE) by (apply Z.div_le_lower_bound; unfold PGSIZE in *; lia). lia. }
    eapply runs_Ok; [done|]. split; [done|]. split_and!; [done|lia|done]. }
  destruct (Z.ltb_spec 0 len) as [Hpos|Hz].
  2: { eapply runs_Ok; [done|]. split; [done|]. split_and!; [done|lia|done]. }
  destruct (round_down va) as [Hrd Hoff]. rewrite Hrd. cbv zeta. rewrite Hoff.
  destruct (Hup 0 ltac:(lia)) as [[f Hf] Hus]. rewrite Z.add_0_r in Hf, Hus.
  apply runs_bind. eapply runs_Ok; [by apply uva2ka_user|].
  destruct (vmu_frame _ _ _ _ _ _ _ _ Hu Hf) as [Hfp _].
  rewrite (proj2 (Z.eqb_neq f 0)) by by apply page_nonzero.
  set (n := if len <? PGSIZE - va mod PGSIZE then len else PGSIZE - va mod PGSIZE).
  assert (Hn : 0 < n <= len /\ va mod PGSIZE + n <= PGSIZE /\ (n < len -> n = PGSIZE - va mod PGSIZE)).
  { unfold n. destruct (Z.ltb_spec len (PGSIZE - va mod PGSIZE)); lia. }
  destruct (copied_out_step va buf len n f s Hu Hf ltac:(lia) ltac:(lia) Hsrc ltac:(lia)) as (Hu1 & Hp1 & Hin1 & Hout1).
  apply runs_bind. eapply runs_Ok; [reflexivity|].
  assert (Hva1 : n < len -> PGSIZE * (va / PGSIZE) + PGSIZE = va + n) by lia.
  rewrite u32_small by (assert (va / PGSIZE < UPAGES) by (change UPAGES with (KERNBASE / PGSIZE); apply Z.div_lt_upper_bound; [done|];
    change (PGSIZE * (KERNBASE / PGSIZE)) with KERNBASE; lia); change UPAGES with 524288 in *; unfold PGSIZE in *; lia).
  set (s1 := set_vmem _ s) in *.
  eapply runs_mono; [apply (IH _ _ _ s1); try done; try lia|].
  - change KERNBASE with (PGSIZE * UPAGES) in *.
    assert (va / PGSIZE < UPAGES) by (apply Z.div_lt_upper_bound; unfold PGSIZE in *; lia). nia.
  - intros i Hi. rewrite Hva1 by lia. destruct (Hup (n + i) ltac:(lia)) as [[g Hg] Hgu]. rewrite Z.add_assoc in Hg, Hgu.
    split; [by exists g|]. destruct (vmu_map _ _ _ _ _ _ Hu) as [Hmap _]. destruct (Hmap _ _ Hg) as [Hvu _].
    by rewrite Hp1 by by apply vpn_user.
  - intros g x j Hg Hx Hj. rewrite <- Z.add_assoc. apply (Hsrc g x (n + j)); [done|done|lia].
  - rewrite <- Z.mul_succ_r, Z.mul_comm, Z.mod_mul by done. destruct (Z.eq_dec n len) as [->|Hne].
    { rewrite Z.sub_diag, Z.div_small by done. lia. }
    replace (va mod PGSIZE + len + PGSIZE - 1) with (0 + (len - n) + PGSIZE - 1 + 1 * PGSIZE) in Hfuel by lia.
    rewrite Z.div_add in Hfuel by done. lia.
  - intros r s' [-> Hout]. split; [done|]. eapply (copied_out_trans va buf len n _ s s1 s'); [exact Hu|lia|exact Hva1|done|done|done|exact Hout].
Qed.

(** A call copies exactly the bytes of the range. *)
Lemma copyout_spec va p len s :
  vmu K s free d T U -> 0 <= va -> 0 <= len -> va + len <= KERNBASE ->
  (forall i, 0 <= i < len -> user_page (vmem s) ((va + i) / PGSIZE)) ->
  (forall g x j, g ∈ own U -> in_page g x -> 0 <= j < len -> x <> p + j) ->
  runs (copyout d va p len) s (fun r s' => r = 0 /\ copied_out va p len s s').
Proof.
  intros Hu Hva Hlen Hfit Hup Hsrc. apply copyout_loop_spec; try done.
  pose proof (Z.mod_pos_bound va PGSIZE ltac:(done)). pose proof (Z.div_pos len PGSIZE ltac:(lia) ltac:(done)).
  transitivity ((len + 2 * PGSIZE) / PGSIZE).
  - apply Z.div_le_mono; [done|]. lia.
  - rewrite Z.div_add by done. lia.
Qed.
End copyout.

(** ** The theorems *)

Section theorems.
Context `{linked} {Hlk : linked_ok}.

(** [setupkvm] returns a directory, made of pages that were free, in which
    exactly the kernel's part of the address space is mapped, row by row as
    [kmap] says; or it returns 0 and every page is back on the free list. *)
Theorem setupkvm_correct s free :
  kok s free ->
  runs setupkvm s (fun r s' => only_pages free (vmem s) (vmem s') /\
    ((r = 0 /\ exists free', kok s' free' /\ free' ≡ₚ free) \/
     (r <> 0 /\ exists free' T, vmc free s' free' r T /\ forall v, vpn v -> pte (vmem s') r v = kpte v))).
Proof. apply setupkvm_spec. Qed.

(** [allocuvm] either maps every page between the two sizes to a new zeroed
    frame, writable by the user, and changes no other mapping and no other
    frame; or it returns 0 and the mappings, and the pages the kernel holds, are
    those from before the call. *)
Theorem allocuvm_correct K s free d T U oldsz newsz :
  vmu K s free d T U -> (forall w, npages oldsz <= w < npages newsz -> U !! w = None) ->
  0 <= oldsz <= newsz -> newsz < KERNBASE ->
  runs (allocuvm d oldsz newsz) s (fun r s' =>
    (r = newsz /\ exists K' free' T' U', extended K d U (npages oldsz) (npages newsz) s s' K' free' T' U') \/
    (r = 0 /\ undone K d U s s')).
Proof. apply allocuvm_spec. Qed.

(** Growing an address space and shrinking it back restores the mappings
    and the set of pages the kernel holds, whether or not memory ran out. *)
Theorem alloc_dealloc_roundtrip K s free d T U oldsz newsz :
  vmu K s free d T U -> (forall w, npages oldsz <= w < npages newsz -> U !! w = None) ->
  0 <= oldsz <= newsz -> newsz < KERNBASE ->
  runs (r ← allocuvm d oldsz newsz; if r =? 0 then ret 0 else deallocuvm d newsz oldsz) s
    (fun _ s' => undone K d U s s').
Proof.
  intros Hu HUn Hsz Hk. apply runs_bind. eapply runs_mono; [by apply (allocuvm_spec K s free d T U)|].
  intros r s1 [(-> & K1 & free1 & T1 & U1 & Hext)|[-> Hun]]; [|by eapply runs_Ok].
  destruct (Z.eqb_spec newsz 0) as [Hz|Hz]; [|destruct (Z.eq_dec oldsz newsz) as [->|Hne]].
  - eapply runs_Ok; [done|]. assert (oldsz = newsz) as -> by lia. by eapply extended_none.
  - unfold deallocuvm. rewrite Z.leb_refl. eapply runs_Ok; [done|]. by eapply extended_none.
  - apply (alloc_undo K d U s oldsz newsz (npages newsz) K1 s1 _ _ _ Hext HUn); lia.
Qed.

(** [freevm] puts every page of an address space back on the free list: the
    user's frames, the page tables and the directory. *)
Theorem freevm_returns_all K s free d T U :
  vmu K s free d T U ->
  runs (freevm d) s (fun _ s' => exists free', kok s' free' /\ free' ≡ₚ free ++ d :: own T ++ own U).
Proof.
  intros Hu. eapply runs_mono; [by apply (freevm_spec K s free d T U)|].
  intros [] s' (free' & Hk & Hp & _). exists free'. split; [done|].
  rewrite Hp, <- (vmc_perm _ _ _ _ _ (vmu_core _ _ _ _ _ _ Hu)), <- app_assoc. done.
Qed.

(** C27. [copyuvm], the memory part of [fork]. On success the child has the
    pages of the parent, with the same flags and the same contents, each in a
    frame of its own that was free before; the kernel's part is mapped as
    always; the parent's mappings and memory are as they were. On failure it
    returns 0 with every page it took back on the free list. *)
Theorem copyuvm_correct K s free pd PT PU sz :
  vmu K s free pd PT PU -> 0 <= sz <= KERNBASE -> (forall w, 0 <= w < npages sz -> is_Some (PU !! w)) ->
  runs (copyuvm pd sz) s (fun r s' =>
    (exists K' free', vmu K' s' free' pd PT PU) /\
    (forall v, vpn v -> pte (vmem s') pd v = pte (vmem s) pd v) /\
    (forall v f x, PU !! v = Some f -> in_page f x -> vmem s' x = vmem s x) /\
    ((r = 0 /\ exists free', kok s' free' /\ free' ≡ₚ free) \/
     (r <> 0 /\ exists K' free' T' U', copied free pd PU s (npages sz) K' s' free' r T' U'))).
Proof.
  intros Hu Hsz Hall. eapply runs_mono; [by apply (copyuvm_spec K s free pd PT PU sz)|].
  intros r s' Hr.
  assert (Hfree : exists free', kok s' free' /\ only_pages free (vmem s) (vmem s') /\ forall p, p ∈ free' -> p ∈ free).
  { destruct Hr as [(_ & Hm & free' & Hk & Hp)|(_ & K' & free' & T' & U' & [Hu' Hp Hm _ _ _])].
    - exists free'. split_and!; [done|done|]. intros p. by rewrite Hp.
    - exists free'. split_and!; [apply Hu'|done|]. intros p Hpf. rewrite <- Hp. apply elem_of_app. left.
      apply (vmc_in _ _ _ _ _ (vmu_core _ _ _ _ _ _ Hu')). auto. }
  destruct Hfree as (free' & Hk & Hm & Hsub).
  destruct (vmu_apart K s free pd PT PU s' free' Hu Hm Hk Hsub) as (Hu' & Hp & Hf).
  split; [by eexists _, _|]. split; [done|]. split; [done|].
  destruct Hr as [(-> & _ & Hr)|[Hr0 Hr]]; [by left|by right].
Qed.

(** [copyout] writes the [len] bytes at [p] to the user addresses from [va]
    on, through the page table, and nothing else, when the range is mapped for
    the user and the source is not user memory. *)
Theorem copyout_correct K s free d T U va p len :
  vmu K s free d T U -> 0 <= va -> 0 <= len -> va + len <= KERNBASE ->
  (forall i, 0 <= i < len -> user_page d U (vmem s) ((va + i) / PGSIZE)) ->
  (forall g x j, g ∈ own U -> in_page g x -> 0 <= j < len -> x <> p + j) ->
  runs (copyout d va p len) s (fun r s' => r = 0 /\ vmu K s' free d T U /\
    (forall i x, 0 <= i < len -> user_byte U va i x -> vmem s' x = vmem s (p + i)) /\
    (forall x, (forall i, 0 <= i < len -> ~ user_byte U va i x) -> vmem s' x = vmem s x)).
Proof. apply copyout_spec. Qed.

(** [uva2ka] dereferences the null pointer [walkpgdir] returns for an address
    without a page table. *)
Lemma uva2ka_no_table K s free d T va :
  vmc K s free d T -> 0 <= va < 2 ^ 32 -> T !! PDX va = None ->
  uva2ka d va s = Fault "uva2ka: no page table".
Proof. intros Hc Hva Ht. unfold uva2ka, bind. by rewrite (walk_missing K s free d T). Qed.
End theorems.

(** ** A machine with five free pages and an empty directory *)

Definition demo_page (i : Z) : Z := KERNBASE + 0x200000 + PGSIZE * i.
Definition demo_free : list Z := demo_page <$> [1; 2; 3; 4; 5].
Fixpoint demo_links (l : list Z) : mem :=
  match l with
  | p :: l => store32 (demo_links l) p (hd 0 l)
  | [] => fun _ => 0
  end.
Definition demo_vst : vst := Vst 1 (demo_page 1) (demo_links demo_free).

Lemma demo_pages : Forall page (demo_free ++ [demo_page 0]).
Proof. repeat (apply Forall_cons; split; [split; [done|vm_compute; by split]|]). constructor. Qed.

Lemma demo_vmc : vmc (demo_free ++ [demo_page 0]) demo_vst demo_free (demo_page 0) ∅.
Proof.
  assert (Hnd : NoDup (demo_free ++ [demo_page 0])) by (apply (bool_decide_unpack _); vm_compute; exact I).
  constructor; [constructor| | |done|apply demo_pages].
  - repeat (split; [vm_compute; reflexivity|]). vm_compute; reflexivity.
  - by apply NoDup_app in Hnd as (? & _).
  - pose proof demo_pages as Hp. by apply Forall_app in Hp as [? _].
  - constructor; [by intros i t Hi; rewrite lookup_empty in Hi|]. intros i Hi _.
    unfold pde. replace (load32 _ _) with 0; [done|]. unfold load32, demo_vst, vmem.
    cbn [demo_free demo_links fmap list_fmap hd].
    rewrite !store32_out by (unfold demo_page, PGSIZE; lia). reflexivity.
  - by rewrite own_empty.
Qed.

Lemma demo_vmu : vmu (demo_free ++ [demo_page 0]) demo_vst demo_free (demo_page 0) ∅ ∅.
Proof.
  apply vmu_empty; [apply demo_vmc|]. intros v Hv.
  rewrite (pte_none _ _ _ _ _ demo_vmc); [done|by apply vpn_user|apply lookup_empty].
Qed.

Lemma demo_alloc_result :
  match allocuvm (demo_page 0) 0 5000 demo_vst with Ok (r, _) => r | _ => -1 end = 5000.
Proof. vm_compute. reflexivity. Qed.

(** Two pages mapped. *)
Lemma demo_grown : exists s1 K free T U,
  allocuvm (demo_page 0) 0 5000 demo_vst = Ok (5000, s1) /\
  extended (demo_free ++ [demo_page 0]) (demo_page 0) ∅ 0 2 demo_vst s1 K free T U.
Proof.
  destruct (runs_inv _ _ _ (allocuvm_spec _ _ _ _ _ _ 0 5000 demo_vmu (fun w _ => lookup_empty w) ltac:(lia) ltac:(done)))
    as (r & s1 & Hr & Hpost).
  pose proof demo_alloc_result as Hres. rewrite Hr in Hres. subst r.
  destruct Hpost as [(_ & K & free & T & U & Hext)|[Hz _]]; [|discriminate Hz].
  exists s1, K, free, T, U. split; [exact Hr|exact Hext].
Qed.

Lemma setupkvm_correct_witness :
  runs setupkvm demo_vst (fun r s' => only_pages demo_free (vmem demo_vst) (vmem s')).
Proof. eapply runs_mono; [apply (setupkvm_correct demo_vst demo_free), demo_vmc|]. by intros r s' [? _]. Defined.

Lemma allocuvm_correct_witness :
  runs (allocuvm (demo_page 0) 0 5000) demo_vst (fun r s' =>
    (r = 5000 /\ exists K' free' T' U',
       extended (demo_free ++ [demo_page 0]) (demo_page 0) ∅ 0 2 demo_vst s' K' free' T' U') \/
    (r = 0 /\ undone (demo_free ++ [demo_page 0]) (demo_page 0) ∅ demo_vst s')).
Proof. apply (allocuvm_correct _ _ _ _ _ _ 0 5000 demo_vmu); [intros w _; apply lookup_empty|lia|done]. Defined.

Lemma alloc_dealloc_roundtrip_witness :
  runs (r ← allocuvm (demo_page 0) 0 5000; if r =? 0 then ret 0 else deallocuvm (demo_page 0) 5000 0) demo_vst
    (fun _ s' => undone (demo_free ++ [demo_page 0]) (demo_page 0) ∅ demo_vst s').
Proof. apply (alloc_dealloc_roundtrip _ _ _ _ _ _ 0 5000 demo_vmu); [intros w _; apply lookup_empty|lia|done]. Defined.

Lemma freevm_returns_all_witness :
  runs (freevm (demo_page 0)) demo_vst
    (fun _ s' => exists free', kok s' free' /\ free' ≡ₚ demo_free ++ [demo_page 0]).
Proof.
  eapply runs_mono; [apply (freevm_returns_all _ _ _ _ _ _ demo_vmu)|].
  intros [] s' (free' & Hk & Hp). exists free'. split; [done|]. by rewrite Hp, own_empty.
Defined.

Lemma copyuvm_correct_witness : exists s1 K free T U,
  allocuvm (demo_page 0) 0 5000 demo_vst = Ok (5000, s1) /\ vmu K s1 free (demo_page 0) T U /\
  runs (copyuvm (demo_page 0) 5000) s1 (fun r s' => forall v f x, U !! v = Some f -> in_page f x -> vmem s' x = vmem s1 x).
Proof.
  destruct demo_grown as (s1 & K & free & T & U & Hr & Hu & _ & _ & _ & _ & Hin).
  exists s1, K, free, T, U. split; [exact Hr|]. split; [exact Hu|].
  eapply runs_mono; [apply (copyuvm_correct K s1 free (demo_page 0) T U 5000 Hu)|].
  - split; [lia|done].
  - intros w Hw. destruct (Hin w Hw) as (f & Hf & _). by exists f.
  - by intros r s' (_ & _ & Hf & _).
Defined.

Lemma copyout_correct_witness : exists s1 K free T U,
  allocuvm (demo_page 0) 0 5000 demo_vst = Ok (5000, s1) /\ vmu K s1 free (demo_page 0) T U /\
  runs (copyout (demo_page 0) 4090 KERNBASE 20) s1 (fun r s' => r = 0 /\
    forall i x, 0 <= i < 20 -> user_byte U 4090 i x -> vmem s' x = vmem s1 (KERNBASE + i)).
Proof.
  destruct demo_grown as (s1 & K & free & T & U & Hr & Hu & _ & _ & _ & _ & Hin).
  exists s1, K, free, T, U. split; [exact Hr|]. split; [exact Hu|].
  eapply runs_mono; [apply (copyout_correct K s1 free (demo_page 0) T U 4090 KERNBASE 20 Hu)|].
  - lia.
  - lia.
  - unfold KERNBASE. lia.
  - intros i Hi. destruct (Hin ((4090 + i) / PGSIZE)) as (f & Hf & HfK & Hp & _).
    { split; [apply Z.div_pos; unfold PGSIZE; lia|apply Z.div_lt_upper_bound; unfold PGSIZE; lia]. }
    split; [by exists f|]. rewrite Hp.
    destruct (vmu_frame _ _ _ _ _ _ _ _ Hu Hf) as [Hfp _]. destruct (V2P_aligned f Hfp) as (Hal & _ & _).
    rewrite land_flags; [discriminate|exact Hal|unfold PGSIZE; lia|unfold PTE_U, PGSIZE; lia].
  - intros g x j Hg Hx Hj. assert (Hgp : page g) by (pose proof (vmu_page _ _ _ _ _ _ Hu) as Hf; rewrite Forall_forall in Hf; auto).
    apply page_range in Hgp. unfold in_page, KERNLINK, KERNBASE, EXTMEM in *. lia.
  - intros r s' (-> & _ & Hb & _). by split.
Defined.
