(* ===== verification/Bio.v ===== *)
(** The buffer cache ([bio.c]), the disk driver ([ide.c]) and the sleep locks
    of the buffers ([sleeplock.c]).

    A buffer is an index in [bcache.buf]; the list head is one more index.
    The model follows one process; when it has to wait for a lock another
    process holds, the outcome is [Spin].  Every block written to the disk is
    also recorded, in order, so that a crash can be put between any two
    writes. *)

From S2P Require Import Prelude Bytes.

(** ** Data *)

Definition BSIZE : nat := 512.
Definition NBUF : nat := 30.
Definition FSSIZE : Z := 20000.
Definition B_VALID : Z := 2.
Definition B_DIRTY : Z := 4.

Record sleeplock := Sleeplock { sl_locked : Z; sl_pid : Z }.

Record buf := Buf {
  flags : Z;
  dev : Z;
  blockno : Z;
  lock : sleeplock;
  refcnt : Z;
  data : list Z
}.

Definition set_flags (v : Z) (b : buf) : buf := Buf v (dev b) (blockno b) (lock b) (refcnt b) (data b).
Definition set_dev (v : Z) (b : buf) : buf := Buf (flags b) v (blockno b) (lock b) (refcnt b) (data b).
Definition set_blockno (v : Z) (b : buf) : buf := Buf (flags b) (dev b) v (lock b) (refcnt b) (data b).
Definition set_lock (v : sleeplock) (b : buf) : buf := Buf (flags b) (dev b) (blockno b) v (refcnt b) (data b).
Definition set_refcnt (v : Z) (b : buf) : buf := Buf (flags b) (dev b) (blockno b) (lock b) v (data b).
Definition set_data (v : list Z) (b : buf) : buf := Buf (flags b) (dev b) (blockno b) (lock b) (refcnt b) v.

(** A block is named by its drive and its number on the drive. *)
Definition blockid : Type := Z * Z.
Definition zblock : list Z := replicate BSIZE 0.

Record bst := Bst {
  bufs : list buf;
  bnext : list nat;  (* next pointers; the last is that of the list head *)
  bprev : list nat;
  idequeue : list nat;
  havedisk1 : bool;
  diskfail : bool;  (* the drive reports an error *)
  disk : gmap blockid (list Z);
  wlog : list (blockid * list Z);  (* writes to the disk, oldest first *)
  mypid : Z
}.

Definition set_bufs (v : list buf) (s : bst) : bst :=
  Bst v (bnext s) (bprev s) (idequeue s) (havedisk1 s) (diskfail s) (disk s) (wlog s) (mypid s).
Definition set_bnext (v : list nat) (s : bst) : bst :=
  Bst (bufs s) v (bprev s) (idequeue s) (havedisk1 s) (diskfail s) (disk s) (wlog s) (mypid s).
Definition set_bprev (v : list nat) (s : bst) : bst :=
  Bst (bufs s) (bnext s) v (idequeue s) (havedisk1 s) (diskfail s) (disk s) (wlog s) (mypid s).
Definition set_idequeue (v : list nat) (s : bst) : bst :=
  Bst (bufs s) (bnext s) (bprev s) v (havedisk1 s) (diskfail s) (disk s) (wlog s) (mypid s).

Definition dread (d : gmap blockid (list Z)) (k : blockid) : list Z := default zblock (d !! k).
Definition disk_write (k : blockid) (v : list Z) (s : bst) : bst :=
  Bst (bufs s) (bnext s) (bprev s) (idequeue s) (havedisk1 s) (diskfail s)
    (<[k := v]> (disk s)) (wlog s ++ [(k, v)]) (mypid s).

Definition B (A : Type) : Type := M bst A.

Definition getbuf (i : nat) : B buf := bs ← gets bufs; deref "buf pointer" (bs !! i).
Definition updbuf (i : nat) (f : buf -> buf) : B () :=
  b ← getbuf i; modify (fun s => set_bufs (<[i := f b]> (bufs s)) s).

(** The list head, behind the buffers. *)
Definition HEAD : nat := NBUF.
Definition getnext (i : nat) : B nat := l ← gets bnext; deref "next" (l !! i).
Definition getprev (i : nat) : B nat := l ← gets bprev; deref "prev" (l !! i).
Definition setnext (i j : nat) : B () := modify (fun s => set_bnext (<[i := j]> (bnext s)) s).
Definition setprev (i j : nat) : B () := modify (fun s => set_bprev (<[i := j]> (bprev s)) s).

(** ** Sleep locks *)

Definition initsleeplock (i : nat) : B () := updbuf i (set_lock (Sleeplock 0 0)).

Definition acquiresleep (i : nat) : B () :=
  b ← getbuf i;
  if negb (sl_locked (lock b) =? 0) then spin else
  me ← gets mypid;
  updbuf i (set_lock (Sleeplock 1 me)).

Definition releasesleep (i : nat) : B () := updbuf i (set_lock (Sleeplock 0 0)).

Definition holdingsleep (i : nat) : B bool :=
  b ← getbuf i;
  me ← gets mypid;
  ret (negb (sl_locked (lock b) =? 0) && (sl_pid (lock b) =? me)).

(** ** The disk driver *)

(** [idestart]: a write transfers the data with the command. *)
Definition idestart (i : nat) : B () :=
  b ← getbuf i;
  if FSSIZE <=? blockno b then panic "incorrect blockno" else
  if Z.land (flags b) B_DIRTY =? 0 then ret ()
  else modify (disk_write (Z.land (dev b) 1, blockno b) (data b)).

(** [ideintr]: the request at the head of the queue is done. *)
Definition ideintr : B () :=
  q ← gets idequeue;
  match q with
  | [] => ret ()
  | i :: q =>
      modify (set_idequeue q);;
      b ← getbuf i;
      err ← gets diskfail;
      when ((Z.land (flags b) B_DIRTY =? 0) && negb err)
        (d ← gets disk; updbuf i (set_data (dread d (Z.land (dev b) 1, blockno b))));;
      updbuf i (fun b => set_flags (Z.lor (flags b) B_VALID) b);;
      updbuf i (fun b => set_flags (Z.ldiff (flags b) B_DIRTY) b);;
      match q with [] => ret () | j :: _ => idestart j end
  end.

(** The wait of [iderw]: the drive interrupts once for each request that is
    queued. *)
Fixpoint iderw_wait (i : nat) (requests : nat) : B () :=
  b ← getbuf i;
  if Z.land (flags b) (Z.lor B_VALID B_DIRTY) =? B_VALID then ret () else
  match requests with
  | O => spin
  | S requests => ideintr;; iderw_wait i requests
  end.

Definition iderw (i : nat) : B () :=
  h ← holdingsleep i;
  if negb h then panic "iderw: buf not locked" else
  b ← getbuf i;
  if Z.land (flags b) (Z.lor B_VALID B_DIRTY) =? B_VALID then panic "iderw: nothing to do" else
  hd ← gets havedisk1;
  if negb (dev b =? 0) && negb hd then panic "iderw: ide disk 1 not present" else
  q ← gets idequeue;
  modify (set_idequeue (q ++ [i]));;
  when (bool_decide (hd_error (q ++ [i]) = Some i)) (idestart i);;
  iderw_wait i (S (length q)).

(** ** The cache *)

Fixpoint binit_loop (bs : list nat) : B () :=
  match bs with
  | [] => ret ()
  | b :: bs =>
      n ← getnext HEAD;
      setnext b n;;
      setprev b HEAD;;
      initsleeplock b;;
      n ← getnext HEAD;
      setprev n b;;
      setnext HEAD b;;
      binit_loop bs
  end.
Definition binit : B () :=
  setprev HEAD HEAD;;
  setnext HEAD HEAD;;
  binit_loop (seq 0 NBUF).

(** The two searches of [bget]; a list that does not come back to its head
    within [fuel] links is a loop the code would never leave. *)
Fixpoint bget_cached (d n : Z) (fuel : nat) (b : nat) : B (option nat) :=
  match fuel with
  | O => spin
  | S fuel =>
      if Nat.eqb b HEAD then ret None else
      x ← getbuf b;
      if (dev x =? d) && (blockno x =? n) then
        updbuf b (fun x => set_refcnt (u32 (refcnt x + 1)) x);;
        ret (Some b)
      else b' ← getnext b; bget_cached d n fuel b'
  end.

Fixpoint bget_recycle (d n : Z) (fuel : nat) (b : nat) : B (option nat) :=
  match fuel with
  | O => spin
  | S fuel =>
      if Nat.eqb b HEAD then ret None else
      x ← getbuf b;
      if (refcnt x =? 0) && (Z.land (flags x) B_DIRTY =? 0) then
        updbuf b (set_dev d);;
        updbuf b (set_blockno n);;
        updbuf b (set_flags 0);;
        updbuf b (set_refcnt 1);;
        ret (Some b)
      else b' ← getprev b; bget_recycle d n fuel b'
  end.

Definition bget (d n : Z) : B nat :=
  b ← getnext HEAD;
  o ← bget_cached d n (S NBUF) b;
  match o with
  | Some b => acquiresleep b;; ret b
  | None =>
      b ← getprev HEAD;
      o ← bget_recycle d n (S NBUF) b;
      match o with
      | Some b => acquiresleep b;; ret b
      | None => panic "bget: no buffers"
      end
  end.

Definition bread (d n : Z) : B nat :=
  b ← bget d n;
  x ← getbuf b;
  when (Z.land (flags x) B_VALID =? 0) (iderw b);;
  ret b.

Definition bwrite (b : nat) : B () :=
  h ← holdingsleep b;
  if negb h then panic "bwrite" else
  updbuf b (fun x => set_flags (Z.lor (flags x) B_DIRTY) x);;
  iderw b.

(** Unlink [b] and put it behind the head. *)
Definition move_front (b : nat) : B () :=
  n ← getnext b; p ← getprev b; setprev n p;;
  p ← getprev b; n ← getnext b; setnext p n;;
  n ← getnext HEAD; setnext b n;;
  setprev b HEAD;;
  n ← getnext HEAD; setprev n b;;
  setnext HEAD b.

Definition brelse (b : nat) : B () :=
  h ← holdingsleep b;
  if negb h then panic "brelse" else
  releasesleep b;;
  updbuf b (fun x => set_refcnt (u32 (refcnt x - 1)) x);;
  x ← getbuf b;
  when (refcnt x =? 0) (move_front b).

(** ** The doubly linked list *)

(** The pointers link the indices of [l] one to the next and back. *)
Fixpoint links (nx pv : list nat) (l : list nat) : Prop :=
  match l with
  | x :: (y :: _) as l' => nx !! x = Some y /\ pv !! y = Some x /\ links nx pv l'
  | _ => True
  end.

(** The list through the head holds [ord], most recently used first. *)
Definition dll (nx pv : list nat) (ord : list nat) : Prop :=
  length nx = S NBUF /\ length pv = S NBUF /\
  NoDup ord /\ Forall (fun i => i < NBUF)%nat ord /\ links nx pv (HEAD :: ord ++ [HEAD]).

Lemma links_app nx pv l1 x l2 :
  links nx pv (l1 ++ x :: l2) <-> links nx pv (l1 ++ [x]) /\ links nx pv (x :: l2).
Proof.
  induction l1 as [|y l1 IH]; [cbn; tauto|]. destruct l1 as [|z l1]; cbn in *; tauto.
Qed.

Lemma links_next nx pv l a v :
  links nx pv l -> a ∉ removelast l -> links (<[a := v]> nx) pv l.
Proof.
  induction l as [|x [|y l] IH]; [done|done|]. intros (H1 & H2 & H3) Ha.
  change (removelast (x :: y :: l)) with (x :: removelast (y :: l)) in Ha.
  split_and!; [|done|apply IH; [done|set_solver]].
  rewrite list_lookup_insert_ne; [done|set_solver].
Qed.

Lemma links_prev nx pv l a v :
  links nx pv l -> a ∉ tail l -> links nx (<[a := v]> pv) l.
Proof.
  induction l as [|x [|y l] IH]; [done|done|]. intros (H1 & H2 & H3) Ha. cbn in Ha.
  split_and!; [done| |apply IH; [done|cbn; set_solver]].
  rewrite list_lookup_insert_ne; [done|set_solver].
Qed.

Lemma removelast_snoc {A} (l : list A) x : removelast (l ++ [x]) = l.
Proof. rewrite removelast_app by done. cbn. by rewrite app_nil_r. Qed.

Lemma HEAD_notin ord : Forall (fun i => i < NBUF)%nat ord -> HEAD ∉ ord.
Proof. intros Hf Hin. rewrite Forall_forall in Hf. specialize (Hf _ Hin). unfold HEAD in Hf. lia. Qed.

(** Linking [b] in behind the head. *)
Lemma dll_push nx pv ord b s0 :
  dll nx pv ord -> (b < NBUF)%nat -> b ∉ ord -> nx !! HEAD = Some s0 ->
  dll (<[HEAD := b]> (<[b := s0]> nx)) (<[s0 := b]> (<[b := HEAD]> pv)) (b :: ord).
Proof.
  intros (Hln & Hlp & Hnd & Hlt & Hl) Hb Hnb Hs0.
  assert (HH := HEAD_notin ord Hlt). assert (HbH : b <> HEAD) by (unfold HEAD; lia).
  assert (Hs : exists S0, ord ++ [HEAD] = s0 :: S0).
  { destruct ord as [|a ord]; cbn in Hl; destruct Hl as [Hx _]; rewrite Hs0 in Hx; simplify_eq; eauto. }
  destruct Hs as [S0 HS].
  assert (Hs0b : s0 <> b).
  { intros ->. assert (b ∈ ord ++ [HEAD]) by (rewrite HS; left). set_solver. }
  assert (Hs0lt : (s0 < S NBUF)%nat).
  { assert (Hin : s0 ∈ ord ++ [HEAD]) by (rewrite HS; left).
    apply elem_of_app in Hin as [Hin|Hin%list_elem_of_singleton]; [|unfold HEAD in *; lia].
    rewrite Forall_forall in Hlt. specialize (Hlt _ Hin). lia. }
  unfold dll. rewrite !length_insert. split_and!; [done|done|by constructor|by constructor|].
  change (HEAD :: (b :: ord) ++ [HEAD]) with (HEAD :: b :: (ord ++ [HEAD])). rewrite HS.
  assert (Htail : links nx pv (s0 :: S0)) by (rewrite <- HS; destruct ord; [done|apply Hl]).
  assert (Hrl : removelast (s0 :: S0) = ord) by (rewrite <- HS; apply removelast_snoc).
  assert (Htl : (s0 ∉ S0) /\ (b ∉ S0)).
  { assert (Hnd2 : NoDup (ord ++ [HEAD])).
    { apply NoDup_app. split_and!; [done| |apply NoDup_singleton].
      intros x Hx ->%list_elem_of_singleton. done. }
    rewrite HS in Hnd2. apply NoDup_cons in Hnd2 as [? _]. split; [done|].
    intros Hx. assert (b ∈ ord ++ [HEAD]) by (rewrite HS; by right). set_solver. }
  split_and!.
  - rewrite list_lookup_insert_eq; [done|]. rewrite length_insert. unfold HEAD. lia.
  - rewrite list_lookup_insert_ne by done. rewrite list_lookup_insert_eq; [done|lia].
  - split; [|split].
    { rewrite list_lookup_insert_ne by done. rewrite list_lookup_insert_eq; [done|lia]. }
    { rewrite list_lookup_insert_eq; [done|]. rewrite length_insert. lia. }
    apply links_next; [apply links_next; [apply links_prev; [apply links_prev|]|]|];
      rewrite ?Hrl; cbn; try done; apply Htl.
Qed.

(** Taking [b] out. *)
Lemma dll_unlink nx pv A b C n p :
  dll nx pv (A ++ b :: C) -> nx !! b = Some n -> pv !! b = Some p ->
  dll (<[p := n]> nx) (<[n := p]> pv) (A ++ C).
Proof.
  intros (Hln & Hlp & Hnd & Hlt & Hl) Hn Hp.
  assert (HH := HEAD_notin _ Hlt).
  apply NoDup_app in Hnd as Hnd3. destruct Hnd3 as (HndA & HndAb & HndbC).
  apply NoDup_cons in HndbC as [HbC HndC].
  assert (HndAC : NoDup (A ++ C)) by (apply NoDup_app; split_and!; [done|set_solver|done]).
  apply Forall_app in Hlt as [HltA Hlt]. apply Forall_cons in Hlt as [Hltb HltC].
  (* the list around b *)
  destruct (exists_last (l := HEAD :: A)) as (P & p' & HP); [done|].
  assert (HS : exists n' S0, C ++ [HEAD] = n' :: S0) by (destruct C; cbn; eauto).
  destruct HS as (n' & S0 & HS).
  assert (HL : HEAD :: (A ++ b :: C) ++ [HEAD] = P ++ p' :: b :: n' :: S0).
  { rewrite <- HS. change (HEAD :: (A ++ b :: C) ++ [HEAD]) with ((HEAD :: A ++ b :: C) ++ [HEAD]).
    rewrite app_comm_cons, HP, <- !app_assoc. done. }
  rewrite HL in Hl. apply links_app in Hl as [HlP (H1 & H2 & H3 & H4 & HlS)].
  assert (n' = n) as -> by congruence. assert (p' = p) as -> by congruence.
  assert (HinA : forall x, x ∈ P ++ [p] -> x = HEAD \/ x ∈ A).
  { intros x. rewrite <- HP. set_solver. }
  assert (HinC : forall x, x ∈ n :: S0 -> x = HEAD \/ x ∈ C).
  { intros x. rewrite <- HS. set_solver. }
  assert (Hplt : (p < S NBUF)%nat).
  { destruct (HinA p) as [->|Hx]; [set_solver|unfold HEAD; lia|].
    rewrite Forall_forall in HltA. specialize (HltA _ Hx). lia. }
  assert (Hnlt : (n < S NBUF)%nat).
  { destruct (HinC n) as [->|Hx]; [set_solver|unfold HEAD; lia|].
    rewrite Forall_forall in HltC. specialize (HltC _ Hx). lia. }
  unfold dll. rewrite !length_insert. split_and!; [done|done|done|by apply Forall_app|].
  assert (HL' : HEAD :: (A ++ C) ++ [HEAD] = P ++ p :: n :: S0).
  { rewrite <- HS, <- app_assoc, app_comm_cons, HP, <- !app_assoc. done. }
  rewrite HL'. apply links_app. split; [|split_and!].
  - apply links_next; [apply links_prev; [done|]|].
    + assert (Ht : tail (P ++ [p]) = A) by by rewrite <- HP.
      rewrite Ht. intros Hx. destruct (HinC n) as [->|Hy]; [set_solver|set_solver|].
      apply (HndAb n Hx). by right.
    + rewrite removelast_snoc. intros Hx.
      assert (Hnd4 : NoDup (P ++ [p])) by (rewrite <- HP; constructor; [set_solver|done]).
      apply NoDup_app in Hnd4 as (_ & Hd & _). apply (Hd p Hx). set_solver.
  - apply list_lookup_insert_eq. lia.
  - apply list_lookup_insert_eq. lia.
  - assert (Hrl : removelast (n :: S0) = C) by (rewrite <- HS; apply removelast_snoc).
    apply links_next; [apply links_prev; [done|]|]; rewrite ?Hrl.
    + cbn. assert (Hnd5 : NoDup (C ++ [HEAD])).
      { apply NoDup_app. split_and!; [done| |apply NoDup_singleton].
        intros x Hx ->%list_elem_of_singleton. set_solver. }
      rewrite HS in Hnd5. by apply NoDup_cons in Hnd5 as [? _].
    + intros Hx. destruct (HinA p) as [->|Hy]; [set_solver|set_solver|].
      apply (HndAb p Hy). by right.
Qed.

(** ** Small steps *)

Lemma getbuf_eq i b s : bufs s !! i = Some b -> getbuf i s = Ok (b, s).
Proof. intros Hb. unfold getbuf, bind, gets. by rewrite Hb. Qed.

Lemma updbuf_eq i f b s :
  bufs s !! i = Some b -> updbuf i f s = Ok ((), set_bufs (<[i := f b]> (bufs s)) s).
Proof. intros Hb. unfold updbuf. by rewrite (bind_Ok _ _ _ _ _ (getbuf_eq i b s Hb)). Qed.

Lemma getnext_eq i j s : bnext s !! i = Some j -> getnext i s = Ok (j, s).
Proof. intros Hj. unfold getnext, bind, gets. by rewrite Hj. Qed.

Lemma getprev_eq i j s : bprev s !! i = Some j -> getprev i s = Ok (j, s).
Proof. intros Hj. unfold getprev, bind, gets. by rewrite Hj. Qed.

(** ** The searches *)

Section search.
Context (s : bst) (Hlen : length (bufs s) = NBUF).

Lemma buf_lookup i : (i < NBUF)%nat -> exists b, bufs s !! i = Some b.
Proof. intros Hi. apply lookup_lt_is_Some_2. lia. Qed.

Lemma bget_cached_eq d n l : forall fuel cur,
  hd_error (l ++ [HEAD]) = Some cur -> links (bnext s) (bprev s) (l ++ [HEAD]) ->
  Forall (fun i => i < NBUF)%nat l -> (length l < fuel)%nat ->
  (exists i b, i ∈ l /\ bufs s !! i = Some b /\ dev b = d /\ blockno b = n /\
     bget_cached d n fuel cur s =
     Ok (Some i, set_bufs (<[i := set_refcnt (u32 (refcnt b + 1)) b]> (bufs s)) s)) \/
  ((forall i b, i ∈ l -> bufs s !! i = Some b -> ~ (dev b = d /\ blockno b = n)) /\
   bget_cached d n fuel cur s = Ok (None, s)).
Proof.
  induction l as [|i l IH]; intros fuel cur Hc Hl Hlt Hf; (destruct fuel as [|fuel]; [cbn in Hf; lia|]);
    cbn in Hc; injection Hc as <-; cbn [bget_cached].
  - right. split; [set_solver|]. by rewrite Nat.eqb_refl.
  - apply Forall_cons in Hlt as [Hi Hlt]. destruct (buf_lookup i Hi) as [b Hb].
    rewrite (proj2 (Nat.eqb_neq i HEAD)) by (unfold HEAD; lia).
    rewrite (bind_Ok _ _ _ _ _ (getbuf_eq i b s Hb)).
    destruct ((dev b =? d) && (blockno b =? n)) eqn:Hk.
    + left. apply andb_true_iff in Hk as [Hd%Z.eqb_eq Hn%Z.eqb_eq]. exists i, b.
      split_and!; [by left|done|done|done|]. by rewrite (bind_Ok _ _ _ _ _ (updbuf_eq i _ b s Hb)).
    + assert (Hnext : exists j, hd_error (l ++ [HEAD]) = Some j /\ bnext s !! i = Some j /\
        links (bnext s) (bprev s) (l ++ [HEAD])).
      { destruct l as [|j l]; cbn in Hl |- *; naive_solver. }
      destruct Hnext as (j & Hj & Hnx & Hl').
      rewrite (bind_Ok _ _ _ _ _ (getnext_eq i j s Hnx)).
      destruct (IH fuel j Hj Hl' Hlt) as [(i' & b' & Hin & Hb' & Hr)|[Hno Hr]]; [cbn in Hf; lia| |].
      * left. exists i', b'. split; [by right|]. done.
      * right. split; [|done]. intros i' b' [->|Hin]%elem_of_cons Hb'; [|by apply (Hno i')].
        rewrite Hb in Hb'. injection Hb' as <-. intros [Hd Hn].
        by rewrite Hd, Hn, !Z.eqb_refl in Hk.
Qed.

(** The state after [bget] has taken over buffer [i]. *)
Definition recycled (d n : Z) (b : buf) : buf :=
  set_refcnt 1 (set_flags 0 (set_blockno n (set_dev d b))).

Lemma recycle_eq d n i b :
  bufs s !! i = Some b ->
  (updbuf i (set_dev d);; updbuf i (set_blockno n);; updbuf i (set_flags 0);; updbuf i (set_refcnt 1);;
   ret (Some i)) s = Ok (Some i, set_bufs (<[i := recycled d n b]> (bufs s)) s).
Proof.
  intros Hb. assert (Hlt : (i < length (bufs s))%nat) by by eapply lookup_lt_Some.
  rewrite (bind_Ok _ _ _ _ _ (updbuf_eq i _ b s Hb)).
  erewrite bind_Ok by (apply updbuf_eq; by apply list_lookup_insert_eq).
  erewrite bind_Ok by (apply updbuf_eq; cbn; apply list_lookup_insert_eq; by rewrite length_insert).
  erewrite bind_Ok by (apply updbuf_eq; cbn; apply list_lookup_insert_eq; by rewrite !length_insert).
  unfold ret. cbn. by rewrite !list_insert_insert_eq.
Qed.

Lemma bget_recycle_eq d n l : forall fuel cur,
  last (HEAD :: l) = Some cur -> links (bnext s) (bprev s) (HEAD :: l) ->
  Forall (fun i => i < NBUF)%nat l -> (length l < fuel)%nat ->
  (exists i b, i ∈ l /\ bufs s !! i = Some b /\ refcnt b = 0 /\ Z.land (flags b) B_DIRTY = 0 /\
     bget_recycle d n fuel cur s = Ok (Some i, set_bufs (<[i := recycled d n b]> (bufs s)) s)) \/
  ((forall i b, i ∈ l -> bufs s !! i = Some b -> ~ (refcnt b = 0 /\ Z.land (flags b) B_DIRTY = 0)) /\
   bget_recycle d n fuel cur s = Ok (None, s)).
Proof.
  induction l as [|i l IH] using rev_ind; intros fuel cur Hc Hl Hlt Hf;
    (destruct fuel as [|fuel]; [cbn in Hf; lia|]).
  - cbn in Hc. injection Hc as <-. right. split; [set_solver|done].
  - rewrite app_comm_cons, last_snoc in Hc. injection Hc as <-.
    apply Forall_app in Hlt as [Hlt Hi]. apply Forall_cons in Hi as [Hi _]. rewrite length_app in Hf. cbn in Hf.
    destruct (buf_lookup i Hi) as [b Hb]. unfold bget_recycle; fold bget_recycle.
    rewrite (proj2 (Nat.eqb_neq i HEAD)) by (unfold HEAD; lia).
    rewrite (bind_Ok _ _ _ _ _ (getbuf_eq i b s Hb)).
    destruct ((refcnt b =? 0) && (Z.land (flags b) B_DIRTY =? 0)) eqn:Hk.
    + left. apply andb_true_iff in Hk as [Hd%Z.eqb_eq Hn%Z.eqb_eq]. exists i, b.
      split_and!; [set_solver|done|done|done|]. by apply recycle_eq.
    + destruct (last (HEAD :: l)) as [j|] eqn:Hj; [|by apply last_None in Hj].
      assert (Hprev : bprev s !! i = Some j /\ links (bnext s) (bprev s) (HEAD :: l)).
      { apply last_Some in Hj as [l' Hl']. rewrite Hl'.
        rewrite app_comm_cons, Hl', <- app_assoc in Hl. cbn in Hl. apply links_app in Hl as [? Hx].
        split; [apply Hx|done]. }
      destruct Hprev as [Hpv Hl']. rewrite (bind_Ok _ _ _ _ _ (getprev_eq i j s Hpv)).
      destruct (IH fuel j eq_refl Hl' Hlt) as [(i' & b' & Hin & Hb' & Hr)|[Hno Hr]]; [lia| |].
      * left. exists i', b'. split; [set_solver|]. done.
      * right. split; [|done]. intros i' b' [Hin| ->%list_elem_of_singleton]%elem_of_app Hb';
          [by apply (Hno i')|].
        rewrite Hb in Hb'. injection Hb' as <-. intros [Hd Hn].
        by rewrite Hd, Hn, !Z.eqb_refl in Hk.
Qed.
End search.

(** ** The driver on an idle queue *)

Lemma bind_gets {A C} (f : bst -> A) (k : A -> B C) s : bind (gets f) k s = k (f s) s.
Proof. done. Qed.
Lemma bind_modify {C} f (k : () -> B C) s : bind (modify f) k s = k () (f s).
Proof. done. Qed.
Lemma runs_bind_modify {C} f (k : () -> B C) s Q : runs (bind (modify f) k) s Q = runs (k ()) (f s) Q.
Proof. done. Qed.

Section driver.
Context (s : bst) (i : nat) (b : buf).
Hypothesis Hb : bufs s !! i = Some b.
Hypothesis Hlock : lock b = Sleeplock 1 (mypid s).

Lemma holdingsleep_eq : holdingsleep i s = Ok (true, s).
Proof.
  unfold holdingsleep. rewrite (bind_Ok _ _ _ _ _ (getbuf_eq i b s Hb)).
  unfold bind, gets, ret. rewrite Hlock. cbn. by rewrite Z.eqb_refl.
Qed.

Hypothesis Hidle : idequeue s = [].
Hypothesis Hdisk1 : havedisk1 s = true.
Hypothesis Hnofail : diskfail s = false.
Hypothesis Hblk : blockno b < FSSIZE.

(** The disk and the buffer after the request in [b] is done. *)
Definition transfer (dk : gmap blockid (list Z)) (b : buf) : buf :=
  set_flags B_VALID
    (if Z.land (flags b) B_DIRTY =? 0 then set_data (dread dk (Z.land (dev b) 1, blockno b)) b else b).
Definition started : bst :=
  if Z.land (flags b) B_DIRTY =? 0 then s
  else disk_write (Z.land (dev b) 1, blockno b) (data b) s.

Lemma idestart_eq q :
  idestart i (set_idequeue q s) = Ok ((), set_idequeue q started).
Proof.
  unfold idestart. rewrite (bind_Ok _ _ _ _ _ (getbuf_eq i b (set_idequeue q s) Hb)).
  rewrite (proj2 (Z.leb_gt FSSIZE (blockno b)) Hblk). unfold started.
  by destruct (Z.land (flags b) B_DIRTY =? 0).
Qed.

Lemma ideintr_eq s1 :
  bufs s1 !! i = Some b -> idequeue s1 = [i] -> diskfail s1 = false ->
  flags b = 0 \/ flags b = 6 ->
  ideintr s1 = Ok ((), set_idequeue [] (set_bufs (<[i := transfer (disk s1) b]> (bufs s1)) s1)).
Proof.
  intros Hb1 Hq Hf Hfl. assert (Hlt : (i < length (bufs s1))%nat) by by eapply lookup_lt_Some.
  unfold ideintr. rewrite bind_gets, Hq, bind_modify, (bind_Ok _ _ _ _ _ (getbuf_eq i b (set_idequeue [] s1) Hb1)), bind_gets.
  change (diskfail (set_idequeue [] s1)) with (diskfail s1). rewrite Hf, andb_true_r.
  set (s2 := set_idequeue [] s1).
  set (b1 := if Z.land (flags b) B_DIRTY =? 0
             then set_data (dread (disk s1) (Z.land (dev b) 1, blockno b)) b else b).
  assert (Hfl1 : flags b1 = flags b) by (unfold b1; by destruct (_ =? _)).
  assert (Hw : when (Z.land (flags b) B_DIRTY =? 0)
    (d ← gets disk; updbuf i (set_data (dread d (Z.land (dev b) 1, blockno b)))) s2 =
    Ok ((), set_bufs (<[i := b1]> (bufs s1)) s2)).
  { unfold b1. destruct (Z.land (flags b) B_DIRTY =? 0); cbn [when].
    - rewrite bind_gets. by rewrite (updbuf_eq i _ b s2 Hb1).
    - unfold ret. rewrite list_insert_id by done. by destruct s1. }
  rewrite (bind_Ok _ _ _ _ _ Hw).
  erewrite bind_Ok by (apply updbuf_eq; cbn; by apply list_lookup_insert_eq).
  erewrite bind_Ok by (apply updbuf_eq; cbn; apply list_lookup_insert_eq; by rewrite length_insert).
  unfold ret, transfer. fold b1. cbn. rewrite !list_insert_insert_eq.
  do 4 f_equal. unfold set_flags. cbn. rewrite Hfl1.
  by destruct Hfl as [-> | ->].
Qed.

Lemma iderw_eq :
  flags b = 0 \/ flags b = 6 ->
  iderw i s = Ok ((), set_bufs (<[i := transfer (disk s) b]> (bufs s)) started).
Proof.
  intros Hfl. unfold iderw. rewrite (bind_Ok _ _ _ _ _ holdingsleep_eq). cbn [negb].
  rewrite (bind_Ok _ _ _ _ _ (getbuf_eq i b s Hb)).
  assert (Hnb : (Z.land (flags b) (Z.lor B_VALID B_DIRTY) =? B_VALID) = false) by by destruct Hfl as [-> | ->].
  rewrite Hnb, bind_gets, Hdisk1, andb_false_r, bind_gets, bind_modify, Hidle. cbn [app length].
  rewrite bool_decide_true by done. cbn [when].
  rewrite (bind_Ok _ _ _ _ _ (idestart_eq [i])).
  assert (Hb1 : bufs (set_idequeue [i] started) !! i = Some b) by (unfold started; destruct (Z.land (flags b) B_DIRTY =? 0); exact Hb).
  unfold iderw_wait. rewrite (bind_Ok _ _ _ _ _ (getbuf_eq i b _ Hb1)), Hnb.
  assert (Hf1 : diskfail (set_idequeue [i] started) = false) by (unfold started; destruct (Z.land (flags b) B_DIRTY =? 0); exact Hnofail).
  rewrite (bind_Ok _ _ _ _ _ (ideintr_eq _ Hb1 eq_refl Hf1 Hfl)).
  erewrite bind_Ok by (apply getbuf_eq; cbn; apply list_lookup_insert_eq; by eapply lookup_lt_Some).
  cbn [flags transfer set_flags]. change (Z.land B_VALID (Z.lor B_VALID B_DIRTY) =? B_VALID) with true.
  unfold ret, started, transfer. cbv iota.
  destruct (Z.land (flags b) B_DIRTY =? 0); cbn; unfold set_idequeue, set_bufs, disk_write; cbn; by rewrite Hidle.
Qed.
End driver.

(** ** The cache as a map of blocks

    [look s n] is what a reader of block [n] of drive 1 gets; [pinned s n]
    says that the cached copy is marked dirty and so cannot be evicted. *)

Definition has_key (n : Z) (b : buf) : bool := (dev b =? 1) && (blockno b =? n).
Definition slot (s : bst) (n : Z) : option buf := find (has_key n) (bufs s).
Definition look (s : bst) (n : Z) : list Z :=
  match slot s n with Some b => data b | None => dread (disk s) (1, n) end.
Definition pinned (s : bst) (n : Z) : bool :=
  match slot s n with Some b => negb (Z.land (flags b) B_DIRTY =? 0) | None => false end.

(** A buffer between two calls of the cache: never used, clean or dirty;
    locked by the running process exactly if it is in [held]; and a copy of
    the disk if it is clean and nobody can be changing it. *)
Definition buf_ok (s : bst) (held : list nat) (i : nat) (b : buf) : Prop :=
  length (data b) = BSIZE /\
  (dev b = 0 /\ flags b = 0 \/
   dev b = 1 /\ (flags b = 2 \/ flags b = 6) /\ 0 <= blockno b < FSSIZE) /\
  (i ∈ held -> dev b = 1 /\ lock b = Sleeplock 1 (mypid s) /\ refcnt b = 1) /\
  (i ∉ held -> lock b = Sleeplock 0 0 /\ refcnt b = 0 /\
     (flags b = 2 -> data b = dread (disk s) (1, blockno b))).

Definition keys_ok (bs : list buf) : Prop := forall i j b c,
  bs !! i = Some b -> bs !! j = Some c -> dev b = 1 -> dev c = 1 -> blockno b = blockno c -> i = j.

Record bok (s : bst) (held : list nat) : Prop := Bok {
  bok_len : length (bufs s) = NBUF;
  bok_dll : exists ord, dll (bnext s) (bprev s) ord /\ ord ≡ₚ seq 0 NBUF;
  bok_idle : idequeue s = [];
  bok_disk1 : havedisk1 s = true;
  bok_nofail : diskfail s = false;
  bok_held : NoDup held;
  bok_buf : forall i b, bufs s !! i = Some b -> buf_ok s held i b;
  bok_keys : keys_ok (bufs s);
  bok_disk : forall k v, disk s !! k = Some v -> length v = BSIZE
}.

(** Nothing a reader could see has changed. *)
Definition same_blocks (s s' : bst) : Prop :=
  (forall n, look s' n = look s n) /\ (forall n, pinned s' n = pinned s n) /\
  disk s' = disk s /\ wlog s' = wlog s /\ mypid s' = mypid s.

(** Buffer [i] holds block [n]. *)
Definition holds_block (s : bst) (i : nat) (n : Z) (b : buf) : Prop :=
  bufs s !! i = Some b /\ dev b = 1 /\ blockno b = n.

(** [bget] can find a buffer to recycle. *)
Definition room (s : bst) : Prop :=
  exists i b, bufs s !! i = Some b /\ refcnt b = 0 /\ Z.land (flags b) B_DIRTY = 0.

Lemma has_key_true n b : has_key n b = true <-> dev b = 1 /\ blockno b = n.
Proof. unfold has_key. by rewrite andb_true_iff, !Z.eqb_eq. Qed.

Lemma slot_None s n :
  (forall i b, bufs s !! i = Some b -> ~ (dev b = 1 /\ blockno b = n)) -> slot s n = None.
Proof.
  intros Hno. unfold slot. destruct (find _ _) as [b|] eqn:Hf; [|done].
  apply find_some in Hf as [Hin Hk%has_key_true].
  apply list_elem_of_In, list_elem_of_lookup in Hin as [i Hi]. by destruct (Hno i b Hi).
Qed.

Lemma slot_inv s n b : slot s n = Some b -> exists i, holds_block s i n b.
Proof.
  intros [Hin Hk%has_key_true]%find_some. apply list_elem_of_In, list_elem_of_lookup in Hin as [i Hi].
  by exists i.
Qed.

Lemma slot_Some s i n b : keys_ok (bufs s) -> holds_block s i n b -> slot s n = Some b.
Proof.
  intros Hk (Hb & Hd & Hn). destruct (slot s n) as [c|] eqn:Hs.
  - apply slot_inv in Hs as (j & Hc & Hdc & Hnc).
    assert (i = j) as <- by (eapply Hk; [exact Hb|exact Hc|done|done|congruence]). congruence.
  - apply (find_none (has_key n) (bufs s)) with (x := b) in Hs; [|by apply list_elem_of_In, list_elem_of_lookup; eauto].
    assert (has_key n b = true) by by apply has_key_true. congruence.
Qed.

Lemma slot_ext s s' n :
  keys_ok (bufs s') -> (forall i b, holds_block s' i n b <-> holds_block s i n b) -> slot s' n = slot s n.
Proof.
  intros Hk He. destruct (slot s n) as [b|] eqn:Hs.
  - apply slot_inv in Hs as [i Hi%He]. by eapply slot_Some.
  - apply slot_None. intros i b Hb [Hd Hn]. assert (Hi : holds_block s' i n b) by done. apply He in Hi as (Hi & _).
    eapply (find_none (has_key n) (bufs s)) with (x := b) in Hs; [|by apply list_elem_of_In, list_elem_of_lookup; eauto].
    assert (has_key n b = true) by by apply has_key_true. congruence.
Qed.

(** Replacing the buffer in one place. *)
Lemma keys_ok_insert bs i b' :
  keys_ok bs -> (dev b' = 1 -> forall j c, j <> i -> bs !! j = Some c -> dev c = 1 -> blockno c <> blockno b') ->
  keys_ok (<[i := b']> bs).
Proof.
  intros Hk Hnew j k b c [(<- & <- & _)|[Hj Hb]]%list_lookup_insert_Some
    [(<- & <- & _)|[Hk' Hc]]%list_lookup_insert_Some Hdb Hdc Heq; [done| | |].
  - by destruct (Hnew Hdb k c (not_eq_sym Hk') Hc Hdc).
  - by destruct (Hnew Hdc j b (not_eq_sym Hj) Hb Hdb).
  - by eapply Hk.
Qed.

Lemma slot_insert s s' i b' m :
  keys_ok (bufs s') -> bufs s' = <[i := b']> (bufs s) -> (i < length (bufs s))%nat ->
  dev b' = 1 -> (m <> blockno b' -> forall b, bufs s !! i = Some b -> dev b = 1 -> blockno b <> m) ->
  slot s' m = if decide (m = blockno b') then Some b' else slot s m.
Proof.
  intros Hk Hbs Hi Hd Hold. case_decide as Hm.
  - eapply (slot_Some _ i); [done|]. split_and!; [|done|done]. rewrite Hbs. by apply list_lookup_insert_eq.
  - apply slot_ext; [done|]. intros j c. unfold holds_block. rewrite Hbs. split.
    + intros ([(<- & <- & _)|[Hj Hc]]%list_lookup_insert_Some & Hdc & Hnc); [congruence|done].
    + intros (Hc & Hdc & Hnc). rewrite list_lookup_insert_ne; [done|].
      intros ->. by destruct (Hold Hm c Hc Hdc).
Qed.

(** ** bread *)

Section cache.
Context (s : bst) (held : list nat) (Hok : bok s held).

(** Buffer [i], locked, with the flags and data given. *)
Definition mine (fl n : Z) (v : list Z) : buf := Buf fl 1 n (Sleeplock 1 (mypid s)) 1 v.
Definition with_buf (i : nat) (b : buf) : bst := set_bufs (<[i := b]> (bufs s)) s.

Lemma acquiresleep_eq i b :
  (i < NBUF)%nat -> sl_locked (lock b) = 0 ->
  acquiresleep i (with_buf i b) = Ok ((), with_buf i (set_lock (Sleeplock 1 (mypid s)) b)).
Proof.
  intros Hi Hl. assert (Hlen := bok_len _ _ Hok). unfold acquiresleep.
  assert (Hb : bufs (with_buf i b) !! i = Some b) by (apply list_lookup_insert_eq; lia).
  rewrite (bind_Ok _ _ _ _ _ (getbuf_eq i b _ Hb)), Hl. cbn [negb Z.eqb]. rewrite bind_gets.
  rewrite (updbuf_eq i _ b _ Hb). unfold with_buf. cbn. by rewrite list_insert_insert_eq.
Qed.

Lemma bget_eq n :
  (forall i b, i ∈ held -> bufs s !! i = Some b -> blockno b <> n) ->
  (exists i b, (i ∉ held) /\ holds_block s i n b /\
     bget 1 n s = Ok (i, with_buf i (mine (flags b) n (data b)))) \/
  ((forall i b, ~ holds_block s i n b) /\
   ((exists i b, (i ∉ held) /\ bufs s !! i = Some b /\ flags b <> 6 /\
     bget 1 n s = Ok (i, with_buf i (mine 0 n (data b)))) \/
    (~ room s /\ bget 1 n s = Panic "bget: no buffers"))).
Proof.
  intros Hnh. destruct Hok as [Hlen (ord & Hdll & Hperm) _ _ _ _ Hbuf _ _].
  destruct Hdll as (_ & _ & _ & Hlt & Hlk).
  assert (Hall : forall i b, bufs s !! i = Some b -> i ∈ ord).
  { intros i b Hb. rewrite Hperm. apply elem_of_seq. apply lookup_lt_Some in Hb. lia. }
  assert (Hlo : (length ord < S NBUF)%nat) by (rewrite Hperm, length_seq; lia).
  assert (Hnx : exists x, hd_error (ord ++ [HEAD]) = Some x /\ bnext s !! HEAD = Some x).
  { destruct ord; cbn in Hlk |- *; naive_solver. }
  destruct Hnx as (x & Hx & Hnx).
  assert (Hlk' : links (bnext s) (bprev s) (ord ++ [HEAD])).
  { destruct (ord ++ [HEAD]) as [|y l] eqn:E; [done|]. apply Hlk. }
  unfold bget. rewrite (bind_Ok _ _ _ _ _ (getnext_eq _ _ _ Hnx)).
  destruct (bget_cached_eq s Hlen 1 n ord (S NBUF) x Hx Hlk' Hlt Hlo) as
    [(i & b & Hi & Hb & Hd & Hn & Hr)|[Hno Hr]]; rewrite (bind_Ok _ _ _ _ _ Hr).
  - assert (Hih : i ∉ held) by (intros Hin; by apply (Hnh i b)).
    left. exists i, b. split_and!; [done|done|].
    destruct (Hbuf i b Hb) as (_ & _ & _ & Hun). destruct (Hun Hih) as (Hl & Hrc & _).
    rewrite Forall_forall in Hlt.
    erewrite bind_Ok by (apply acquiresleep_eq; [by apply Hlt|cbn; by rewrite Hl]).
    unfold ret, mine. do 3 f_equal. unfold set_lock, set_refcnt. cbn. by rewrite Hrc, Hd, Hn.
  - right. split; [intros i b (Hb & Hd & Hn); by apply (Hno i b (Hall i b Hb) Hb)|].
    destruct (last (HEAD :: ord)) as [p|] eqn:Hp; [|by apply last_None in Hp].
    assert (Hpv : bprev s !! HEAD = Some p /\ links (bnext s) (bprev s) (HEAD :: ord)).
    { apply last_Some in Hp as [l' Hl']. rewrite app_comm_cons, Hl', <- app_assoc in Hlk.
      cbn in Hlk. apply links_app in Hlk as [? Hy]. rewrite Hl'. split; [apply Hy|done]. }
    destruct Hpv as [Hpv Hlk2]. rewrite (bind_Ok _ _ _ _ _ (getprev_eq _ _ _ Hpv)).
    destruct (bget_recycle_eq s Hlen 1 n ord (S NBUF) p Hp Hlk2 Hlt Hlo) as
      [(i & b & Hi & Hb & Hrc & Hdy & Hr2)|[Hno2 Hr2]]; rewrite (bind_Ok _ _ _ _ _ Hr2).
    + left. destruct (Hbuf i b Hb) as (_ & Hfl & Hhd & Hun).
      assert (Hih : i ∉ held). { intros Hin. destruct (Hhd Hin) as (_ & _ & ?). lia. }
      exists i, b. split_and!; [done|done|intros H6; by rewrite H6 in Hdy|].
      destruct (Hun Hih) as (Hl & _). rewrite Forall_forall in Hlt.
      by erewrite bind_Ok by (apply acquiresleep_eq; [by apply Hlt|cbn; by rewrite Hl]).
    + right. split; [|done]. intros (i & b & Hb & Hrc). by apply (Hno2 i b (Hall i b Hb) Hb).
Qed.

Lemma bok_with_buf i b' held' :
  (i < NBUF)%nat -> NoDup held' -> (forall j, j <> i -> j ∈ held' <-> j ∈ held) ->
  buf_ok s held' i b' ->
  (dev b' = 1 -> forall j c, j <> i -> bufs s !! j = Some c -> dev c = 1 -> blockno c <> blockno b') ->
  bok (with_buf i b') held'.
Proof.
  intros Hi Hnd Hh Hb' Hnew. destruct Hok as [Hlen Hdll Hq H1 Hf _ Hbuf Hk Hdk].
  constructor; cbn; [by rewrite length_insert|done..| |by apply keys_ok_insert|done].
  intros j c [(<- & <- & _)|[Hj Hc]]%list_lookup_insert_Some; [done|].
  destruct (Hbuf j c Hc) as (Hl & Hfl & Hin & Hout). specialize (Hh j (not_eq_sym Hj)).
  unfold buf_ok. cbn. rewrite Hh. done.
Qed.

(** The lookup of a block after buffer [i] came to hold block [n]. *)
Lemma look_with_buf i fl n v m :
  (i < NBUF)%nat -> keys_ok (bufs (with_buf i (mine fl n v))) ->
  (m <> n -> forall b, bufs s !! i = Some b -> dev b = 1 -> blockno b <> m) ->
  look (with_buf i (mine fl n v)) m = (if decide (m = n) then v else look s m) /\
  pinned (with_buf i (mine fl n v)) m = (if decide (m = n) then negb (Z.land fl B_DIRTY =? 0) else pinned s m).
Proof.
  intros Hi Hk Hold. unfold look, pinned.
  rewrite (slot_insert s (with_buf i (mine fl n v)) i (mine fl n v) m); try done;
    [|by rewrite (bok_len _ _ Hok)].
  cbn [blockno mine]. by case_decide.
Qed.

(** Replacing a clean buffer nobody holds does not change what is read. *)
Lemma look_evict i b fl n v m :
  bufs s !! i = Some b -> i ∉ held -> flags b <> 6 -> keys_ok (bufs (with_buf i (mine fl n v))) -> m <> n ->
  look (with_buf i (mine fl n v)) m = look s m /\ pinned (with_buf i (mine fl n v)) m = pinned s m.
Proof.
  intros Hb Hih H6 Hk Hm. destruct (bok_buf _ _ Hok i b Hb) as (_ & Hfl & _ & Hun).
  assert (Hi : (i < NBUF)%nat) by (rewrite <- (bok_len _ _ Hok); by eapply lookup_lt_Some).
  destruct (decide (dev b = 1 /\ blockno b = m)) as [[Hd Hbm]|Hno].
  - destruct (Hun Hih) as (_ & _ & Hclean). assert (Hf2 : flags b = 2) by lia.
    assert (Hs : slot s m = Some b) by (by eapply (slot_Some s i); [apply Hok|]).
    assert (Hs' : slot (with_buf i (mine fl n v)) m = None).
    { apply slot_None. cbn. intros j c [(<- & <- & _)|[Hj Hc]]%list_lookup_insert_Some [Hdc Hnc].
      - cbn in Hnc. congruence.
      - apply Hj. by eapply (bok_keys _ _ Hok); [exact Hb|exact Hc|..|rewrite Hbm]. }
    unfold look, pinned. rewrite Hs, Hs', Hf2. cbn. split; [|done].
    by rewrite (Hclean Hf2), Hbm.
  - destruct (look_with_buf i fl n v m Hi Hk) as [H1 H2].
    { intros _ c Hc Hd. assert (c = b) as -> by congruence. tauto. }
    rewrite decide_False in H1 by done. rewrite decide_False in H2 by done. done.
Qed.

Lemma dread_length n : length (dread (disk s) (1, n)) = BSIZE.
Proof.
  unfold dread. destruct (disk s !! _) as [v|] eqn:Hv; [by apply (bok_disk _ _ Hok _ _ Hv)|].
  apply length_replicate.
Qed.
End cache.

(** What a reader gets: buffer [i], locked, with the current contents of
    block [n]; nothing else anyone can see has changed. *)
Definition got (s : bst) (held : list nat) (n : Z) (i : nat) (s' : bst) : Prop :=
  (i ∉ held) /\ bok s' (i :: held) /\ same_blocks s s' /\
  bufs s' !! i = Some (mine s (if pinned s n then 6 else 2) n (look s n)) /\
  (forall j, j ∈ held -> bufs s' !! j = bufs s !! j).

Lemma got_with_buf s held n i b :
  bok s held -> 0 <= n < FSSIZE -> i ∉ held -> bufs s !! i = Some b ->
  holds_block s i n b \/ (flags b <> 6 /\ forall j c, ~ holds_block s j n c) ->
  got s held n i (with_buf s i (mine s (if pinned s n then 6 else 2) n (look s n))).
Proof.
  intros Hok Hn Hih Hb Hcase.
  assert (Hi : (i < NBUF)%nat) by (rewrite <- (bok_len _ _ Hok); by eapply lookup_lt_Some).
  assert (Hother : forall j c, j <> i -> bufs s !! j = Some c -> dev c = 1 -> blockno c <> n).
  { intros j c Hj Hc Hd Hbc. destruct Hcase as [(_ & Hdb & Hbn)|[_ Hno]]; [|by apply (Hno j c)].
    apply Hj. by eapply (bok_keys _ _ Hok); [exact Hc|exact Hb|..|congruence]. }
  assert (Hlook : length (look s n) = BSIZE).
  { unfold look. destruct (slot s n) as [c|] eqn:Hs; [|by eapply dread_length].
    apply slot_inv in Hs as (j & Hc & _). by apply (bok_buf _ _ Hok j c Hc). }
  set (fl := if pinned s n then 6 else 2).
  assert (Hok' : bok (with_buf s i (mine s fl n (look s n))) (i :: held)).
  { apply (bok_with_buf s held Hok); [done|constructor; [done|apply Hok]|set_solver| |by intros _].
    unfold buf_ok. cbn. split_and!; [done| |done|set_solver]. right. split_and!; [done| |lia|lia].
    unfold fl. destruct (pinned s n); auto. }
  split; [done|split; [done|split; [|split]]].
  - assert (Hlp : forall m, look (with_buf s i (mine s fl n (look s n))) m = look s m /\
                       pinned (with_buf s i (mine s fl n (look s n))) m = pinned s m).
    { intros m. destruct (decide (m = n)) as [->|Hm].
      - destruct (look_with_buf s held Hok i fl n (look s n) n Hi (bok_keys _ _ Hok')) as [H1 H2]; [done|].
        rewrite decide_True in H1 by done. rewrite decide_True in H2 by done. split; [done|].
        rewrite H2. unfold fl. by destruct (pinned s n).
      - destruct Hcase as [(_ & Hdb & Hbn)|[H6 _]]; [|by eapply look_evict; eauto using bok_keys].
        destruct (look_with_buf s held Hok i fl n (look s n) m Hi (bok_keys _ _ Hok')) as [H1 H2]; [congruence|].
        rewrite decide_False in H1 by done. by rewrite decide_False in H2. }
    split_and!; try done; intros m; apply Hlp.
  - cbn. apply list_lookup_insert_eq. by rewrite (bok_len _ _ Hok).
  - intros j Hj. cbn. apply list_lookup_insert_ne. set_solver.
Qed.

Lemma bread_cases s held n :
  bok s held -> 0 <= n < FSSIZE ->
  (forall i b, i ∈ held -> bufs s !! i = Some b -> blockno b <> n) ->
  runs (bread 1 n) s (got s held n) \/
  (~ room s /\ (forall i b, ~ holds_block s i n b) /\ bread 1 n s = Panic "bget: no buffers").
Proof.
  intros Hok Hn Hnh. unfold bread.
  destruct (bget_eq s held Hok n Hnh) as [(i & b & Hih & Hhb & Hr)|[Hno [(i & b & Hih & Hb & H6 & Hr)|[Hnr Hr]]]].
  - destruct Hhb as (Hb & Hd & Hbn).
    assert (Hlt : (i < length (bufs s))%nat) by by eapply lookup_lt_Some.
    assert (Hs : slot s n = Some b) by (by eapply (slot_Some s i); [apply Hok|]).
    assert (Hlk : look s n = data b) by (unfold look; by rewrite Hs).
    destruct (bok_buf _ _ Hok i b Hb) as (_ & [Hfl|(_ & Hfl & _)] & _); [lia|].
    assert (Hp : (if pinned s n then 6 else 2) = flags b).
    { unfold pinned. rewrite Hs. by destruct Hfl as [-> | ->]. }
    left. eapply runs_Ok; [|by apply (got_with_buf s held n i b); [..|left]].
    rewrite (bind_Ok _ _ _ _ _ Hr).
    erewrite bind_Ok by (apply getbuf_eq; cbn; by apply list_lookup_insert_eq).
    rewrite Hlk, Hp. cbn [flags mine].
    assert (Hv : (Z.land (flags b) B_VALID =? 0) = false) by by destruct Hfl as [-> | ->].
    by rewrite Hv.
  - assert (Hlt : (i < length (bufs s))%nat) by by eapply lookup_lt_Some.
    assert (Hs : slot s n = None) by (apply slot_None; intros j c Hc [Hd Hbn]; by apply (Hno j c)).
    left. eapply runs_Ok; [|by apply (got_with_buf s held n i b); [..|right]].
    rewrite (bind_Ok _ _ _ _ _ Hr).
    assert (Hb1 : bufs (with_buf s i (mine s 0 n (data b))) !! i = Some (mine s 0 n (data b)))
      by by apply list_lookup_insert_eq.
    rewrite (bind_Ok _ _ _ _ _ (getbuf_eq _ _ _ Hb1)). cbn [flags mine].
    change (Z.land 0 B_VALID =? 0) with true. cbn [when].
    rewrite (bind_Ok _ _ _ _ _ (iderw_eq _ i _ Hb1 eq_refl (bok_idle _ _ Hok) (bok_disk1 _ _ Hok)
      (bok_nofail _ _ Hok) (proj2 Hn) (or_introl eq_refl))).
    unfold ret, with_buf, transfer, started. cbn. rewrite list_insert_insert_eq.
    unfold look, pinned. by rewrite Hs.
  - right. split_and!; [done|done|]. by rewrite (bind_Panic _ _ _ _ Hr).
Qed.

Lemma bread_runs s held n :
  bok s held -> 0 <= n < FSSIZE ->
  (forall i b, i ∈ held -> bufs s !! i = Some b -> blockno b <> n) ->
  room s \/ (exists i b, holds_block s i n b) ->
  runs (bread 1 n) s (got s held n).
Proof.
  intros Hok Hn Hnh Hroom. destruct (bread_cases s held n Hok Hn Hnh) as [?|(Hnr & Hno & _)]; [done|].
  exfalso. destruct Hroom as [Hrm|(i & b & Hb)]; [done|]. by apply (Hno i b).
Qed.

(** With fewer buffers locked and blocks pinned than there are buffers, one
    can be recycled. *)
Lemma room_count s held P :
  bok s held -> (forall n, pinned s n = true -> n ∈ P) -> (length held + length P < NBUF)%nat -> room s.
Proof.
  intros Hok HP Hlt.
  destruct (decide (Exists (fun b => refcnt b = 0 /\ Z.land (flags b) B_DIRTY = 0) (bufs s))) as [Hex|Hno].
  { apply Exists_exists in Hex as (b & Hin & Hb). apply list_elem_of_lookup in Hin as [i Hi].
    by exists i, b. }
  exfalso. apply not_Exists_Forall in Hno; [|intros b; apply _]. rewrite Forall_lookup in Hno.
  set (f i := if decide (i ∈ held) then - Z.of_nat i - 1
              else match bufs s !! i with Some b => blockno b | None => 0 end).
  assert (Hbusy : forall i b, bufs s !! i = Some b -> i ∉ held ->
    dev b = 1 /\ 0 <= blockno b /\ pinned s (blockno b) = true).
  { intros i b Hb Hih. destruct (bok_buf _ _ Hok i b Hb) as (_ & Hfl & _ & Hun).
    destruct (Hun Hih) as (_ & Hrc & _). specialize (Hno i b Hb). cbn in Hno.
    destruct Hfl as [[_ Hf]|(Hd & [Hf|Hf] & Hbn)]; rewrite Hf in Hno; [by destruct Hno..|].
    split_and!; [done|lia|]. unfold pinned.
    rewrite (slot_Some s i (blockno b) b); [by rewrite Hf|apply Hok|done]. }
  assert (Hlk : forall i, (i < NBUF)%nat -> exists b, bufs s !! i = Some b)
    by (intros; by apply buf_lookup; [apply Hok|]).
  assert (Hsub : map f (seq 0 NBUF) ⊆+ map (fun i => - Z.of_nat i - 1) held ++ P).
  { apply NoDup_submseteq.
    - apply NoDup_fmap_2_strong; [|apply NoDup_seq]. intros i j Hi%elem_of_seq Hj%elem_of_seq.
      destruct (Hlk i ltac:(lia)) as [b Hb]. destruct (Hlk j ltac:(lia)) as [c Hc].
      unfold f. rewrite Hb, Hc.
      destruct (decide (i ∈ held)) as [Hih|Hih]; destruct (decide (j ∈ held)) as [Hjh|Hjh]; intros Heq.
      + lia.
      + destruct (Hbusy j c Hc Hjh) as (_ & ? & _). lia.
      + destruct (Hbusy i b Hb Hih) as (_ & ? & _). lia.
      + eapply (bok_keys _ _ Hok); [exact Hb|exact Hc| | |exact Heq];
          [by apply (Hbusy i b)|by apply (Hbusy j c)].
    - intros x (i & -> & Hi%elem_of_seq)%list_elem_of_fmap. destruct (Hlk i ltac:(lia)) as [b Hb].
      apply elem_of_app. unfold f. rewrite Hb. case_decide as Hih.
      + left. apply list_elem_of_fmap. by exists i.
      + right. apply HP. by apply (Hbusy i b). }
  apply submseteq_length in Hsub. rewrite length_app, !length_map, length_seq in Hsub. lia.
Qed.

(** ** A locked buffer: changing, writing and releasing it *)

Section locked.
Context (s : bst) (held : list nat) (Hok : bok s held).
Context (i : nat) (fl n : Z) (v : list Z).
Hypothesis Hin : i ∈ held.
Hypothesis Hbuf : bufs s !! i = Some (mine s fl n v).

Lemma locked_lt : (i < NBUF)%nat.
Proof. rewrite <- (bok_len _ _ Hok). by eapply lookup_lt_Some. Qed.

Lemma locked_range : (fl = 2 \/ fl = 6) /\ 0 <= n < FSSIZE /\ length v = BSIZE.
Proof.
  destruct (bok_buf _ _ Hok i _ Hbuf) as (Hl & Hfl & _). cbn in Hl, Hfl.
  destruct Hfl as [[? _]|(_ & Hfl & Hn)]; [lia|done].
Qed.

Lemma locked_slot : slot s n = Some (mine s fl n v).
Proof. by eapply (slot_Some s i); [apply Hok|]. Qed.

Lemma locked_other j c : j <> i -> bufs s !! j = Some c -> dev c = 1 -> blockno c <> n.
Proof.
  intros Hj Hc Hd Heq. apply Hj. eapply (bok_keys _ _ Hok); [exact Hc|exact Hbuf|done|done|done].
Qed.

Lemma locked_update fl' v' :
  fl' = 2 \/ fl' = 6 -> length v' = BSIZE ->
  let s' := with_buf s i (mine s fl' n v') in
  bok s' held /\
  (forall m, look s' m = if decide (m = n) then v' else look s m) /\
  (forall m, pinned s' m = if decide (m = n) then fl' =? 6 else pinned s m).
Proof.
  intros Hfl' Hv' s'. destruct locked_range as (_ & Hn & _).
  assert (Hok' : bok s' held).
  { apply (bok_with_buf s held Hok); [apply locked_lt|apply Hok|done| |intros _; apply locked_other].
    unfold buf_ok. cbn. split_and!; [done| |done|done]. right. split_and!; [done|done|lia|lia]. }
  assert (Hlp := fun m => look_with_buf s held Hok i fl' n v' m locked_lt (bok_keys _ _ Hok')).
  split_and!; [done| |]; intros m.
  - apply Hlp. rewrite Hbuf. intros ? b [= <-] _. cbn. done.
  - assert (Hp : negb (Z.land fl' B_DIRTY =? 0) = (fl' =? 6)) by by destruct Hfl' as [-> | ->].
    rewrite <- Hp. apply Hlp. rewrite Hbuf. intros ? b [= <-] _. cbn. done.
Qed.

Lemma updbuf_data v' :
  updbuf i (set_data v') s = Ok ((), with_buf s i (mine s fl n v')).
Proof. by rewrite (updbuf_eq i _ _ s Hbuf). Qed.

(** The state after the buffer has been written to the disk. *)
Definition written : bst := set_bufs (<[i := mine s 2 n v]> (bufs s)) (disk_write (1, n) v s).

Lemma bwrite_eq : bwrite i s = Ok ((), written).
Proof.
  destruct locked_range as (Hfl & Hn & _). assert (Hlt := lookup_lt_Some _ _ _ Hbuf).
  unfold bwrite. rewrite (bind_Ok _ _ _ _ _ (holdingsleep_eq s i _ Hbuf eq_refl)). cbn [negb].
  rewrite (bind_Ok _ _ _ _ _ (updbuf_eq i _ _ s Hbuf)).
  assert (Hset : (fun x => set_flags (Z.lor (flags x) B_DIRTY) x) (mine s fl n v) = mine s 6 n v).
  { unfold set_flags, mine. cbn. by destruct Hfl as [-> | ->]. }
  cbn beta in Hset. rewrite Hset.
  assert (Hb1 : bufs (set_bufs (<[i := mine s 6 n v]> (bufs s)) s) !! i = Some (mine s 6 n v))
    by by apply list_lookup_insert_eq.
  rewrite (iderw_eq _ i _ Hb1 eq_refl (bok_idle _ _ Hok) (bok_disk1 _ _ Hok)
    (bok_nofail _ _ Hok) (proj2 Hn) (or_intror eq_refl)).
  unfold started, transfer, written, disk_write, set_bufs. cbn.
  by rewrite list_insert_insert_eq.
Qed.

Lemma written_ok :
  bok written held /\ (forall m, look written m = look s m) /\
  (forall m, pinned written m = if decide (m = n) then false else pinned s m).
Proof.
  destruct locked_range as (Hfl & Hn & Hlen).
  destruct (locked_update 2 v) as (Hok' & Hlk & Hpn); [by left|done|].
  set (s' := with_buf s i (mine s 2 n v)) in *.
  assert (Hsl : forall m, slot written m = slot s' m) by done.
  assert (Hdr : forall m, m <> n -> dread (disk written) (1, m) = dread (disk s) (1, m)).
  { intros m Hm. unfold dread. cbn. rewrite lookup_insert_ne; [done|congruence]. }
  split_and!.
  - destruct Hok' as [H1 H2 H3 H4 H5 H6 H7 H8 H9].
    constructor; [exact H1|exact H2|exact H3|exact H4|exact H5|exact H6| |exact H8|].
    + intros j c Hc. destruct (H7 j c Hc) as (Hl & Hf & Hi & Ho). split_and!; [done|done|done|].
      intros Hj. destruct (Ho Hj) as (Hlo & Hrc & Hcl). split_and!; [done|done|].
      intros Hc2. rewrite Hdr; [by apply Hcl|]. cbn in Hc.
      assert (Hji : j <> i) by congruence. rewrite list_lookup_insert_ne in Hc by done.
      apply (locked_other j c Hji Hc). destruct Hf as [[_ Hf]|[Hd _]]; [congruence|done].
    + cbn. intros k w [[<- <-]|[_ Hw]]%lookup_insert_Some; [done|by eapply H9].
  - intros m. destruct (decide (m = n)) as [->|Hm].
    + transitivity (look s' n); [|rewrite Hlk, decide_True by done].
      * unfold look. rewrite Hsl. assert (Hss : slot s' n = Some (mine s 2 n v)).
        { eapply (slot_Some s' i); [apply Hok'|]. split_and!; [|done|done].
          cbn. apply list_lookup_insert_eq. by eapply lookup_lt_Some. }
        by rewrite Hss.
      * unfold look. by rewrite locked_slot.
    + transitivity (look s' m); [|by rewrite Hlk, decide_False].
      unfold look. rewrite Hsl. destruct (slot s' m); [done|]. by apply Hdr.
  - intros m. specialize (Hpn m). unfold pinned in *. by rewrite Hsl.
Qed.
End locked.

(** ** The list operations of the code *)

Lemma dll_around nx pv A b C :
  dll nx pv (A ++ b :: C) ->
  exists n p, nx !! b = Some n /\ pv !! b = Some p /\ n <> b /\ p <> b.
Proof.
  intros (_ & _ & Hnd & Hlt & Hl). assert (HH := HEAD_notin _ Hlt).
  apply NoDup_app in Hnd as (_ & HAb & [HbC _]%NoDup_cons).
  destruct (exists_last (l := HEAD :: A)) as (P & p & HP); [done|].
  assert (HS : exists n S0, C ++ [HEAD] = n :: S0) by (destruct C; cbn; eauto).
  destruct HS as (n & S0 & HS).
  assert (HL : HEAD :: (A ++ b :: C) ++ [HEAD] = P ++ p :: b :: n :: S0).
  { rewrite <- HS. change (HEAD :: (A ++ b :: C) ++ [HEAD]) with ((HEAD :: A ++ b :: C) ++ [HEAD]).
    rewrite app_comm_cons, HP, <- !app_assoc. done. }
  rewrite HL in Hl. apply links_app in Hl as [_ (_ & H2 & H3 & _)].
  exists n, p. split_and!; [done|done| |].
  - intros ->. assert (Hx : b ∈ C ++ [HEAD]) by (rewrite HS; left). set_solver.
  - intros ->. assert (Hx : b ∈ HEAD :: A) by (rewrite HP; set_solver).
    apply elem_of_cons in Hx as [->|Hx]; [set_solver|]. apply (HAb b Hx). by left.
Qed.

Lemma dll_head nx pv ord : dll nx pv ord -> exists h, nx !! HEAD = Some h.
Proof. intros (Hl & _). apply lookup_lt_is_Some_2. rewrite Hl. unfold HEAD. lia. Qed.

Definition relinked (nx pv : list nat) (s : bst) : bst := set_bprev pv (set_bnext nx s).

Lemma move_front_eq s A b C :
  dll (bnext s) (bprev s) (A ++ b :: C) ->
  exists nx pv, move_front b s = Ok ((), relinked nx pv s) /\ dll nx pv (b :: A ++ C).
Proof.
  intros Hdll. destruct (dll_around _ _ _ _ _ Hdll) as (n & p & Hn & Hp & Hnb & Hpb).
  assert (Hb : (b < NBUF)%nat /\ b ∉ A ++ C).
  { destruct Hdll as (_ & _ & Hnd & Hlt & _). rewrite Forall_app, Forall_cons in Hlt.
    split; [tauto|]. apply NoDup_app in Hnd as (_ & HAb & [HbC _]%NoDup_cons).
    intros [Hx|Hx]%elem_of_app; [apply (HAb b Hx); by left|done]. }
  assert (HbH : b <> HEAD) by (unfold HEAD; lia).
  assert (Hun := dll_unlink _ _ _ _ _ _ _ Hdll Hn Hp).
  destruct (dll_head _ _ _ Hun) as [h Hh].
  assert (Hpush := dll_push _ _ _ b h Hun (proj1 Hb) (proj2 Hb) Hh).
  eexists _, _. split; [|exact Hpush]. unfold move_front.
  rewrite (bind_Ok _ _ _ _ _ (getnext_eq b n s Hn)), (bind_Ok _ _ _ _ _ (getprev_eq b p s Hp)).
  unfold setprev, setnext. rewrite bind_modify.
  erewrite bind_Ok by (apply getprev_eq; cbn; by rewrite list_lookup_insert_ne).
  erewrite bind_Ok by (apply getnext_eq; exact Hn). rewrite bind_modify.
  erewrite bind_Ok by (apply getnext_eq; exact Hh). rewrite !bind_modify.
  erewrite bind_Ok by (apply getnext_eq; cbn; by rewrite list_lookup_insert_ne).
  rewrite !bind_modify. done.
Qed.

(** [binit] links every buffer in, the last one in front. *)
Lemma binit_loop_eq l : forall s ord,
  dll (bnext s) (bprev s) ord -> length (bufs s) = NBUF -> Forall (fun i => i < NBUF)%nat l ->
  NoDup l -> (forall i, i ∈ l -> i ∉ ord) ->
  runs (binit_loop l) s (fun _ s' =>
    dll (bnext s') (bprev s') (rev l ++ ord) /\ disk s' = disk s /\ wlog s' = wlog s /\
    idequeue s' = idequeue s /\ havedisk1 s' = havedisk1 s /\ diskfail s' = diskfail s /\
    length (bufs s') = NBUF /\
    forall i b, bufs s !! i = Some b ->
      bufs s' !! i = Some (if decide (i ∈ l) then set_lock (Sleeplock 0 0) b else b)).
Proof.
  induction l as [|b l IH]; intros s ord Hdll Hlen Hlt Hnd Hno.
  { unfold runs. cbn. split_and!; try done. }
  apply Forall_cons in Hlt as [Hb Hlt]. apply NoDup_cons in Hnd as [Hbl Hnd].
  destruct (dll_head _ _ _ Hdll) as [h Hh]. destruct (buf_lookup s Hlen b Hb) as [x Hx].
  assert (HbH : b <> HEAD) by (unfold HEAD; lia).
  assert (Hpush := dll_push _ _ _ b h Hdll Hb (Hno b ltac:(set_solver)) Hh).
  cbn [binit_loop]. unfold runs. rewrite (bind_Ok _ _ _ _ _ (getnext_eq _ _ _ Hh)).
  unfold setprev, setnext. rewrite !bind_modify.
  erewrite bind_Ok by (apply (updbuf_eq b _ x); exact Hx).
  erewrite bind_Ok by (apply getnext_eq; cbn; by rewrite list_lookup_insert_ne).
  rewrite !bind_modify.
  set (s1 := set_bnext _ _).
  assert (Hs1 : dll (bnext s1) (bprev s1) (b :: ord)) by exact Hpush.
  assert (Hl1 : length (bufs s1) = NBUF) by (cbn; by rewrite length_insert).
  specialize (IH s1 (b :: ord) Hs1 Hl1 Hlt Hnd ltac:(set_solver)).
  eapply runs_mono in IH; [exact IH|]. cbn [rev]. rewrite <- app_assoc.
  intros _ s' (H1 & H2 & H3 & H4 & H5 & H6 & H7 & H8). split_and!; try done.
  intros i c Hc. destruct (decide (i = b)) as [->|Hib].
  - assert (c = x) as -> by congruence. rewrite decide_True by (by left).
    rewrite (H8 b (set_lock (Sleeplock 0 0) x)).
    + by rewrite decide_False.
    + cbn. apply list_lookup_insert_eq. lia.
  - rewrite (H8 i c); [|cbn; by rewrite list_lookup_insert_ne].
    f_equal. destruct (decide (i ∈ l)); [by rewrite decide_True by (by right)|].
    rewrite decide_False; [done|set_solver].
Qed.

(** ** brelse and binit *)

Lemma same_blocks_refl s : same_blocks s s.
Proof. by split_and!. Qed.

Lemma same_blocks_trans s1 s2 s3 : same_blocks s1 s2 -> same_blocks s2 s3 -> same_blocks s1 s3.
Proof.
  intros (H1 & H2 & H3 & H4 & H5) (G1 & G2 & G3 & G4 & G5).
  split_and!; [intros n; by rewrite G1|intros n; by rewrite G2|congruence..].
Qed.

Lemma bok_perm s held held' : held ≡ₚ held' -> bok s held -> bok s held'.
Proof.
  intros Hp [H1 H2 H3 H4 H5 H6 H7 H8 H9]. constructor; try done.
  - by rewrite <- Hp.
  - intros i b Hb. destruct (H7 i b Hb) as (Hl & Hf & Hi & Ho). unfold buf_ok. by rewrite <- Hp.
Qed.

(** The buffer goes to the front of the list, unlocked; the cache and the
    disk hold what they held. *)
Lemma brelse_runs s held i fl n v :
  bok s (i :: held) -> bufs s !! i = Some (mine s fl n v) ->
  fl = 6 \/ v = dread (disk s) (1, n) ->
  runs (brelse i) s (fun _ s' =>
    bok s' held /\ same_blocks s s' /\ (forall j, j <> i -> bufs s' !! j = bufs s !! j) /\
    (exists A C, dll (bnext s) (bprev s) (A ++ i :: C) /\ dll (bnext s') (bprev s') (i :: A ++ C))).
Proof.
  intros Hok Hbuf Hclean. assert (Hin : i ∈ i :: held) by left.
  assert (Hlt := lookup_lt_Some _ _ _ Hbuf).
  assert (HiN := locked_lt s _ Hok i fl n v Hbuf).
  destruct (locked_range s _ Hok i fl n v Hbuf) as (Hfl & Hn & Hlen).
  assert (Hnd := bok_held _ _ Hok). apply NoDup_cons in Hnd as [Hih Hnd].
  destruct (bok_dll _ _ Hok) as (ord & Hdll & Hperm).
  assert (Hiord : i ∈ ord) by (rewrite Hperm; apply elem_of_seq; lia).
  apply list_elem_of_split in Hiord as (A & C & ->).
  set (b1 := Buf fl 1 n (Sleeplock 0 0) 0 v). set (s1 := with_buf s i b1).
  destruct (move_front_eq s1 A i C Hdll) as (nx & pv & Hmv & Hdll').
  assert (Hrun : brelse i s = Ok ((), relinked nx pv s1)).
  { unfold brelse. rewrite (bind_Ok _ _ _ _ _ (holdingsleep_eq s i _ Hbuf eq_refl)). cbn [negb].
    unfold releasesleep. rewrite (bind_Ok _ _ _ _ _ (updbuf_eq i _ _ s Hbuf)).
    erewrite bind_Ok by (apply updbuf_eq; cbn; by apply list_lookup_insert_eq).
    erewrite bind_Ok by (apply getbuf_eq; cbn; apply list_lookup_insert_eq; by rewrite length_insert).
    cbn [refcnt set_refcnt mine set_lock]. change (u32 (1 - 1) =? 0) with true. cbn [when].
    cbn. rewrite list_insert_insert_eq. exact Hmv. }
  assert (Hok1 : bok s1 held).
  { apply (bok_with_buf s _ Hok); [done|done|set_solver| |].
    - unfold buf_ok. cbn. split_and!; [done| |done|].
      + right. split_and!; [done|done|lia|lia].
      + intros _. split_and!; [done|done|]. intros ->. by destruct Hclean.
    - intros _. apply (locked_other s _ Hok i fl n v Hbuf). }
  eapply runs_Ok; [exact Hrun|]. split_and!.
  - destruct Hok1 as [H1 _ H3 H4 H5 H6 H7 H8 H9]. constructor; try done.
    exists (i :: A ++ C). split; [exact Hdll'|]. rewrite <- Hperm. apply Permutation_middle.
  - assert (Hsl : forall m, slot s1 m = if decide (m = n) then Some b1 else slot s m).
    { intros m. apply (slot_insert s s1 i b1 m (bok_keys _ _ Hok1)); [done|done|done|].
      rewrite Hbuf. intros ? b [= <-] _. cbn. done. }
    assert (Hs := locked_slot s _ Hok i fl n v Hbuf).
    split_and!; try done; intros m; unfold look, pinned; change (slot (relinked nx pv s1) m) with (slot s1 m);
      rewrite Hsl; case_decide as Hm; try done; rewrite Hm, Hs; done.
  - intros j Hj. cbn. by rewrite list_lookup_insert_ne.
  - exists A, C. done.
Qed.

(** The cache at boot, with the contents of the disk. *)
Definition buf0 : buf := Buf 0 0 0 (Sleeplock 0 0) 0 (replicate BSIZE 0).
Definition boot_bst (dk : gmap blockid (list Z)) (pid : Z) : bst :=
  Bst (replicate NBUF buf0) (replicate (S NBUF) 0%nat) (replicate (S NBUF) 0%nat) [] true false dk [] pid.

Lemma binit_runs dk pid :
  (forall k v, dk !! k = Some v -> length v = BSIZE) ->
  runs binit (boot_bst dk pid) (fun _ s =>
    bok s [] /\ disk s = dk /\ wlog s = [] /\ dll (bnext s) (bprev s) (rev (seq 0 NBUF)) /\
    (forall n, look s n = dread dk (1, n)) /\ (forall n, pinned s n = false)).
Proof.
  intros Hdk. unfold binit, setprev, setnext. do 2 rewrite runs_bind_modify.
  set (s0 := set_bnext _ _).
  assert (Hdll0 : dll (bnext s0) (bprev s0) []).
  { split_and!; [done|done|constructor|constructor|]. split; [|split]; [done..|]. exact I. }
  assert (Hlen0 : length (bufs s0) = NBUF) by done.
  assert (Hlt : Forall (fun i => i < NBUF)%nat (seq 0 NBUF)) by (apply Forall_seq; intros; lia).
  assert (Hrun := binit_loop_eq (seq 0 NBUF) s0 [] Hdll0 Hlen0 Hlt (NoDup_seq _ _) ltac:(set_solver)).
  apply (runs_mono _ _ _ _ Hrun). clear Hrun.
  intros _ s (H1 & H2 & H3 & H4 & H5 & H6 & H7 & H8). rewrite app_nil_r in H1.
  assert (Hb : forall i b, bufs s !! i = Some b -> b = buf0).
  { intros i b Hb. assert (Hi : (i < NBUF)%nat) by (rewrite <- H7; by eapply lookup_lt_Some).
    rewrite (H8 i buf0) in Hb by (by apply lookup_replicate_2). case_decide; by simplify_eq. }
  assert (Hok : bok s []).
  { constructor; [done| |by rewrite H4|by rewrite H5|by rewrite H6|constructor| | |].
    - eexists. split; [exact H1|]. symmetry. apply Permutation_rev.
    - intros i b ->%Hb. split_and!; [done|by left|set_solver|done].
    - intros i j b c ->%Hb ? ?. done.
    - intros k v. rewrite H2. apply Hdk. }
  assert (Hsl : forall n, slot s n = None).
  { intros n. apply slot_None. intros i b ->%Hb [? _]. done. }
  split_and!; [done|done|done|done| |].
  - intros n. unfold look. by rewrite Hsl, H2.
  - intros n. unfold pinned. by rewrite Hsl.
Qed.

(** ** What the cache promises *)

(** [bread] returns a buffer nobody had locked, locked, with the current
    contents of the block, changes nothing any reader can see and keeps the
    invariant of the cache (one buffer per block, clean buffers equal the disk,
    the list links all buffers); it panics only if the block is not cached and
    every buffer is in use or dirty. *)
Theorem bread_correct s held n :
  bok s held -> 0 <= n < FSSIZE ->
  (forall i b, i ∈ held -> bufs s !! i = Some b -> blockno b <> n) ->
  match bread 1 n s with
  | Ok (i, s') => got s held n i s'
  | Panic _ => ~ room s /\ forall i b, ~ holds_block s i n b
  | Fault _ | Spin => False
  end.
Proof.
  intros Hok Hn Hnh. destruct (bread_cases s held n Hok Hn Hnh) as [H|(Hnr & Hno & ->)]; [|done].
  unfold runs in H. by destruct (bread 1 n s) as [[i s']| | |].
Qed.

(** [bwrite] puts the contents of a locked buffer on the disk with one
    write and [brelse] unlocks it and moves it to the front of the list of
    buffers, keeping the order of the others; no reader sees a change. *)
Theorem bwrite_brelse_correct s held i fl n v :
  bok s (i :: held) -> bufs s !! i = Some (mine s fl n v) ->
  runs (bwrite i;; brelse i) s (fun _ s' =>
    bok s' held /\ disk s' = <[(1, n) := v]> (disk s) /\ wlog s' = wlog s ++ [((1, n), v)] /\
    (forall m, look s' m = look s m) /\
    (exists A C, dll (bnext s) (bprev s) (A ++ i :: C) /\ dll (bnext s') (bprev s') (i :: A ++ C))).
Proof.
  intros Hok Hb. assert (Hin : i ∈ i :: held) by left. assert (Hlt := lookup_lt_Some _ _ _ Hb).
  destruct (written_ok s _ Hok i fl n v Hin Hb) as (Hok2 & Hlk2 & _).
  apply runs_bind. eapply runs_Ok; [by apply (bwrite_eq s _ Hok i fl n v)|].
  eapply runs_mono; [apply (brelse_runs _ held i 2 n v Hok2)|].
  { cbn. by apply list_lookup_insert_eq. }
  { right. unfold dread. cbn. by rewrite lookup_insert_eq. }
  intros [] s' (Hok3 & (H1 & _ & H3 & H4 & _) & _ & Hd). split_and!; [done|by rewrite H3|by rewrite H4| |done].
  intros m. by rewrite H1, Hlk2.
Qed.

(** A cache fresh from [binit], and with one block locked. *)
Definition demo_cache : bst :=
  match binit (boot_bst ∅ 1) with Ok (_, s) => s | _ => boot_bst ∅ 1 end.
Definition demo_locked : bst :=
  match bread 1 5 demo_cache with Ok (_, s) => s | _ => demo_cache end.

Lemma demo_cache_ok : bok demo_cache [].
Proof.
  destruct (runs_inv _ _ _ (binit_runs ∅ 1 ltac:(intros k v Hv; by rewrite lookup_empty in Hv))) as (a & s & Hs & Hok & _).
  unfold demo_cache. rewrite Hs. exact Hok.
Qed.

Lemma bread_correct_witness :
  match bread 1 5 demo_cache with
  | Ok (i, s') => got demo_cache [] 5 i s'
  | Panic _ => ~ room demo_cache /\ forall i b, ~ holds_block demo_cache i 5 b
  | Fault _ | Spin => False
  end.
Proof.
  apply (bread_correct demo_cache [] 5 demo_cache_ok); [unfold FSSIZE; lia|].
  intros i b Hi. by apply not_elem_of_nil in Hi.
Defined.

Lemma demo_locked_ok : bok demo_locked [0%nat] /\ bufs demo_locked !! 0%nat = Some (mine demo_locked 2 5 zblock).
Proof.
  assert (Hr : runs (bread 1 5) demo_cache (got demo_cache [] 5)).
  { apply (bread_runs _ [] 5 demo_cache_ok); [unfold FSSIZE; lia| |].
    - intros i b Hi. by apply not_elem_of_nil in Hi.
    - left. apply (room_count _ [] [] demo_cache_ok); [|unfold NBUF; cbn; lia].
      intros n. unfold pinned. assert (Hn : slot demo_cache n = None); [|by rewrite Hn].
      apply slot_None. intros i b Hb [Hd _]. revert Hd.
      assert (Hall : Forall (fun b => dev b = 0) (bufs demo_cache)) by (vm_compute; repeat constructor).
      rewrite Forall_lookup in Hall. rewrite (Hall i b Hb). lia. }
  apply runs_inv in Hr as (i & s & Hs & Hg). assert (Hi : i = 0%nat).
  { assert (Hc : match bread 1 5 demo_cache with Ok (i, _) => i | _ => 1%nat end = 0%nat) by by vm_compute.
    by rewrite Hs in Hc. }
  subst i. destruct Hg as (_ & Hok & _). split.
  - unfold demo_locked. rewrite Hs. exact Hok.
  - by vm_compute.
Qed.

Lemma bwrite_brelse_correct_witness :
  runs (bwrite 0;; brelse 0) demo_locked (fun _ s' =>
    bok s' [] /\ disk s' = <[(1, 5) := zblock]> (disk demo_locked) /\
    wlog s' = wlog demo_locked ++ [((1, 5), zblock)] /\
    (forall m, look s' m = look demo_locked m) /\
    (exists A C, dll (bnext demo_locked) (bprev demo_locked) (A ++ 0%nat :: C) /\
       dll (bnext s') (bprev s') (0%nat :: A ++ C))).
Proof.
  apply (bwrite_brelse_correct demo_locked [] 0 2 5 zblock); apply demo_locked_ok.
Defined.
