(* ===== verification/Memide.v ===== *)
(** The disk in memory ([memide.c]), which can take the place of the driver of
    [ide.c]: the image is one array of bytes, and a request is done before
    [iderw] returns. *)

From S2P Require Import Prelude Bio.

(** The buffers, and the image at [memdisk]. *)
Record memst := Memst { mcache : bst; memdisk : list Z; disksize : Z }.
Definition set_mcache (v : bst) (s : memst) : memst := Memst v (memdisk s) (disksize s).
Definition set_memdisk (v : list Z) (s : memst) : memst := Memst (mcache s) v (disksize s).
Definition oncache {A} (m : B A) : M memst A := zoom mcache set_mcache m.

Definition ideinit (img : list Z) : M memst () :=
  modify (fun s => Memst (mcache s) img (Z.of_nat (length img) / Z.of_nat BSIZE)).

Definition ideintr : M memst () := ret ().

(** [memmove] to and from the image. *)
Definition write_at (img : list Z) (p : nat) (v : list Z) : list Z := take p img ++ v ++ drop (p + length v) img.
Definition read_at (img : list Z) (p n : nat) : list Z := take n (drop p img).

Definition iderw (i : nat) : M memst () :=
  h ← oncache (holdingsleep i);
  if negb h then panic "iderw: buf not locked" else
  b ← oncache (getbuf i);
  if Z.land (flags b) (Z.lor B_VALID B_DIRTY) =? B_VALID then panic "iderw: nothing to do" else
  if negb (dev b =? 1) then panic "iderw: request not for disk 1" else
  n ← gets disksize;
  if n <=? blockno b then panic "iderw: block out of range" else
  let p := Z.to_nat (u32 (blockno b * Z.of_nat BSIZE)) in
  (if negb (Z.land (flags b) B_DIRTY =? 0) then
     oncache (updbuf i (fun b => set_flags (Z.ldiff (flags b) B_DIRTY) b));;
     modify (fun s => set_memdisk (write_at (memdisk s) p (data b)) s)
   else
     img ← gets memdisk;
     oncache (updbuf i (set_data (read_at img p BSIZE))));;
  oncache (updbuf i (fun b => set_flags (Z.lor (flags b) B_VALID) b)).

(** ** The two drivers agree *)

(** The image holds the blocks of drive 1. *)
Definition block (img : list Z) (n : Z) : list Z := read_at img (Z.to_nat n * BSIZE) BSIZE.
Record images (img : list Z) (size : Z) (d : gmap blockid (list Z)) : Prop := Images {
  im_len : length img = (Z.to_nat size * BSIZE)%nat;
  im_block n : 0 <= n < size -> block img n = dread d (1, n)
}.

Lemma length_write_at img p v : (p + length v <= length img)%nat -> length (write_at img p v) = length img.
Proof. intros H. unfold write_at. rewrite !length_app, length_take, length_drop. lia. Qed.

Lemma block_write img n m v : 0 <= n -> 0 <= m -> length v = BSIZE -> (Z.to_nat m * BSIZE + BSIZE <= length img)%nat ->
  block (write_at img (Z.to_nat m * BSIZE) v) n = if n =? m then v else block img n.
Proof.
  intros Hn Hm Hv Hlen. unfold block, read_at, write_at. rewrite Hv. set (p := (Z.to_nat m * BSIZE)%nat) in *.
  assert (Hp : length (take p img) = p) by (rewrite length_take; lia). unfold BSIZE in *. destruct (Z.eqb_spec n m) as [->|Hne].
  - fold p. rewrite drop_app_length' by done. by rewrite take_app_length'.
  - destruct (Z.lt_ge_cases n m) as [Hlt|Hge].
    + rewrite drop_app_le by lia. rewrite take_app_le by (rewrite length_drop; lia). rewrite <- (take_drop p img) at 2.
      rewrite drop_app_le by lia. by rewrite take_app_le by (rewrite length_drop; lia).
    + rewrite drop_app_ge, Hp by lia. rewrite drop_app_ge, Hv by lia. rewrite drop_drop. do 2 f_equal. lia.
Qed.

(** The request of a locked buffer, as [bread] and [bwrite] make it. *)
Record request (s : bst) (size : Z) (i : nat) (b : buf) : Prop := Request {
  rq_buf : bufs s !! i = Some b;
  rq_lock : lock b = Sleeplock 1 (mypid s);
  rq_dev : dev b = 1;
  rq_block : 0 <= blockno b < size;
  rq_flags : flags b = 0 \/ flags b = 6;
  rq_data : length (data b) = BSIZE
}.

Lemma iderw_memory s img size i b : request s size i b -> size <= FSSIZE -> images img size (disk s) ->
  iderw i (Memst s img size) = Ok ((), Memst (set_bufs (<[i := transfer (disk s) b]> (bufs s)) s)
    (if Z.land (flags b) B_DIRTY =? 0 then img else write_at img (Z.to_nat (blockno b) * BSIZE) (data b)) size).
Proof.
  intros [Hb Hl Hd Hn Hf Hv] Hs Him. unfold iderw, oncache, zoom. unfold bind at 1. cbn [mcache]. rewrite (holdingsleep_eq s i b Hb Hl). cbn [negb].
  unfold bind at 1. cbn [mcache set_mcache]. rewrite (getbuf_eq i b s Hb). rewrite Hd.
  replace (Z.land (flags b) (Z.lor B_VALID B_DIRTY) =? B_VALID) with false by (by destruct Hf as [-> | ->]). cbn [negb Z.eqb Pos.eqb].
  unfold bind at 1, gets at 1. cbn [disksize set_mcache]. rewrite (proj2 (Z.leb_gt size (blockno b))) by lia.
  assert (Hp : Z.to_nat (u32 (blockno b * Z.of_nat BSIZE)) = (Z.to_nat (blockno b) * BSIZE)%nat).
  { unfold FSSIZE in Hs. rewrite u32_small; unfold BSIZE; lia. }
  rewrite Hp. assert (Hlt : (i < length (bufs s))%nat) by by eapply lookup_lt_Some.
  unfold transfer. rewrite Hd. change (Z.land 1 1) with 1. destruct Hf as [Hf|Hf]; rewrite Hf.
  - change (Z.land 0 B_DIRTY =? 0) with true. cbn [negb]. unfold bind, gets. cbn [mcache memdisk set_mcache].
    change (read_at img (Z.to_nat (blockno b) * BSIZE) BSIZE) with (block img (blockno b)). rewrite (im_block _ _ _ Him (blockno b) Hn). rewrite (updbuf_eq i _ b s Hb).
    cbn [set_mcache mcache memdisk disksize]. erewrite updbuf_eq by (cbn; by apply list_lookup_insert_eq). unfold set_mcache. cbn. rewrite list_insert_insert_eq.
    unfold set_flags, set_data. cbn. by rewrite Hf.
  - change (Z.land 6 B_DIRTY =? 0) with false. cbn [negb]. unfold bind, modify. cbn [mcache memdisk set_mcache]. rewrite (updbuf_eq i _ b s Hb).
    cbn [set_mcache set_memdisk mcache memdisk disksize]. erewrite updbuf_eq by (cbn; by apply list_lookup_insert_eq). unfold set_mcache, set_memdisk. cbn. rewrite list_insert_insert_eq.
    unfold set_flags. cbn. by rewrite Hf.
Qed.

(** The disk in memory does what the IDE driver does: for a request of a
    locked buffer both versions of [iderw] return, leave the buffers the same,
    and leave an image that holds the blocks that are on the drive. *)
Theorem memide_same s img size i b :
  request s size i b -> size <= FSSIZE -> images img size (disk s) ->
  idequeue s = [] -> havedisk1 s = true -> diskfail s = false ->
  exists s' t, Bio.iderw i s = Ok ((), s') /\ iderw i (Memst s img size) = Ok ((), t) /\
    bufs (mcache t) = bufs s' /\ images (memdisk t) size (disk s').
Proof.
  intros Hr Hs Him Hq Hd1 Hfail. assert (Hr' := Hr). destruct Hr' as [Hb Hl Hd Hn Hf Hv]. do 2 eexists.
  split; [apply (iderw_eq s i b Hb Hl Hq Hd1 Hfail); [lia|done]|]. split; [by apply iderw_memory|]. cbn. split.
  { unfold started. by destruct (Z.land (flags b) B_DIRTY =? 0). }
  unfold started. rewrite Hd. change (Z.land 1 1) with 1. destruct (Z.land (flags b) B_DIRTY =? 0); [done|]. destruct Him as [Hlen Hblk].
  assert (Hfit : (Z.to_nat (blockno b) * BSIZE + BSIZE <= length img)%nat) by (rewrite Hlen; unfold BSIZE; lia).
  split; [by rewrite length_write_at, Hlen by (rewrite Hv; lia)|]. intros n Hn'. rewrite block_write by (done || lia). cbn. unfold dread.
  destruct (Z.eqb_spec n (blockno b)) as [->|Hne]; [by rewrite lookup_insert_eq|].
  rewrite lookup_insert_ne by congruence. by apply Hblk.
Qed.

Definition demo_mem : bst :=
  set_bufs (<[0%nat := Buf 6 1 2 (Sleeplock 1 1) 1 (replicate BSIZE 7)]> (bufs (boot_bst ∅ 1))) (boot_bst ∅ 1).
Lemma demo_images : images (replicate (4 * BSIZE) 0) 4 (disk demo_mem).
Proof.
  split; [done|]. intros n Hn. assert (n = 0 \/ n = 1 \/ n = 2 \/ n = 3) as [->|[->|[->| ->]]] by lia; by vm_compute.
Qed.

Lemma memide_same_witness : exists s' t, Bio.iderw 0 demo_mem = Ok ((), s') /\
  iderw 0 (Memst demo_mem (replicate (4 * BSIZE) 0) 4) = Ok ((), t) /\ bufs (mcache t) = bufs s' /\ images (memdisk t) 4 (disk s').
Proof.
  apply (memide_same demo_mem (replicate (4 * BSIZE) 0) 4 0 (Buf 6 1 2 (Sleeplock 1 1) 1 (replicate BSIZE 7))).
  - split; first [done|by vm_compute|cbn; lia|by right].
  - by vm_compute.
  - apply demo_images.
  - done.
  - by vm_compute.
  - done.
Defined.
