(* ===== verification/Block.v ===== *)
(** The interface between the file system and the layers under it: numbered
    blocks, read through locked buffers and written through the log inside a
    transaction. *)

From S2P Require Import Prelude Bytes Bio.

(** ** Operations

    A buffer is named by a number.  [bl_set] stores into [bp->data]. *)
Class blocks (S : Type) := Blocks {
  bl_bread : Z -> Z -> M S nat;
  bl_data : nat -> M S (list Z);
  bl_set : nat -> list Z -> M S ();
  bl_log_write : nat -> M S ();
  bl_brelse : nat -> M S ();
  bl_begin_op : M S ();
  bl_end_op : M S ()
}.

(** The contents of the blocks after block [n] was overwritten. *)
Definition upd (f : Z -> list Z) (n : Z) (v : list Z) (m : Z) : list Z := if decide (m = n) then v else f m.

(** The logged blocks after block [n] is logged. *)
Definition logged (bs : list Z) (n : Z) : list Z := if decide (n ∈ bs) then bs else bs ++ [n].

Lemma upd_eq f n v : upd f n v n = v.
Proof. unfold upd. by rewrite decide_True. Qed.
Lemma upd_ne f n v m : m <> n -> upd f n v m = f m.
Proof. intros Hm. unfold upd. by rewrite decide_False. Qed.

Lemma length_logged bs n : (length (logged bs n) <= S (length bs))%nat.
Proof. unfold logged. case_decide; [lia|]. rewrite length_app. cbn. lia. Qed.

Lemma elem_of_logged bs n m : m ∈ logged bs n <-> m ∈ bs \/ m = n.
Proof. unfold logged. case_decide; set_solver. Qed.

Lemma NoDup_logged bs n : NoDup bs -> NoDup (logged bs n).
Proof.
  intros Hnd. unfold logged. case_decide; [done|]. apply NoDup_app.
  split_and!; [done|set_solver|apply NoDup_singleton].
Qed.

(** The largest number of blocks a transaction may have logged before a
    [log_write]. *)
Definition LOGMAX : nat := 29.

(** ** What is promised

    [bl_idle s f]: no transaction is open, and [f] gives the contents of the
    blocks outside the log.  [bl_st s held lg f]: inside a transaction, the
    process holds the buffers [held] with their block numbers, and the blocks
    [lg] are logged.  Only the blocks [bl_home] may be written. *)
Class blocks_spec (S : Type) `{blocks S} := Blocks_spec {
  bl_vis : Z -> Prop;
  bl_home : Z -> Prop;
  bl_idle : S -> (Z -> list Z) -> Prop;
  bl_st : S -> list (nat * Z) -> list Z -> (Z -> list Z) -> Prop;
  bl_vis_range n : bl_vis n -> 0 <= n < FSSIZE;
  bl_home_vis n : bl_home n -> bl_vis n;
  bl_len s held lg f n : bl_st s held lg f -> bl_vis n -> length (f n) = BSIZE;
  bl_nodup s held lg f : bl_st s held lg f -> NoDup lg;
  bl_bread_ok s held lg f n :
    bl_st s held lg f -> bl_vis n -> n ∉ map snd held -> (length held + length lg < NBUF)%nat ->
    runs (bl_bread 1 n) s (fun h s' => bl_st s' ((h, n) :: held) lg f);
  bl_data_ok s held lg f h n : bl_st s held lg f -> (h, n) ∈ held -> bl_data h s = Ok (f n, s);
  bl_write_ok s held lg f h n v :
    bl_st s held lg f -> (h, n) ∈ held -> bl_home n -> length v = BSIZE -> (length lg < LOGMAX)%nat ->
    runs (bl_set h v;; bl_log_write h) s (fun _ s' => bl_st s' held (logged lg n) (upd f n v));
  bl_brelse_ok s held lg f h n :
    bl_st s ((h, n) :: held) lg f -> runs (bl_brelse h) s (fun _ s' => bl_st s' held lg f);
  bl_begin_ok s f : bl_idle s f -> runs bl_begin_op s (fun _ s' => bl_st s' [] [] f);
  bl_end_ok s lg f : bl_st s [] lg f -> runs bl_end_op s (fun _ s' => bl_idle s' f)
}.
