(* ===== verification/Log.v ===== *)
(** The redo log ([log.c]) on top of the buffer cache, with crashes between
    any two disk writes and the recovery at boot. *)

From S2P Require Import Prelude Bytes Bio Block.

(** ** Data *)

Definition MAXOPBLOCKS : Z := 10.
Definition LOGSIZE : nat := 30.

Record superblock := Superblock {
  sb_size : Z; sb_nblocks : Z; sb_ninodes : Z; sb_nlog : Z;
  sb_logstart : Z; sb_inodestart : Z; sb_bmapstart : Z
}.

Record logheader := Logheader { lh_n : Z; lh_block : list Z }.

(** [struct log] and the state under it. *)
Record lst := Lst {
  l_start : Z;
  l_size : Z;
  l_outstanding : Z;
  l_committing : Z;
  l_dev : Z;
  lh : logheader;
  bcache : bst
}.

Definition set_start (v : Z) (s : lst) : lst :=
  Lst v (l_size s) (l_outstanding s) (l_committing s) (l_dev s) (lh s) (bcache s).
Definition set_size (v : Z) (s : lst) : lst :=
  Lst (l_start s) v (l_outstanding s) (l_committing s) (l_dev s) (lh s) (bcache s).
Definition set_outstanding (v : Z) (s : lst) : lst :=
  Lst (l_start s) (l_size s) v (l_committing s) (l_dev s) (lh s) (bcache s).
Definition set_committing (v : Z) (s : lst) : lst :=
  Lst (l_start s) (l_size s) (l_outstanding s) v (l_dev s) (lh s) (bcache s).
Definition set_ldev (v : Z) (s : lst) : lst :=
  Lst (l_start s) (l_size s) (l_outstanding s) (l_committing s) v (lh s) (bcache s).
Definition set_lh (v : logheader) (s : lst) : lst :=
  Lst (l_start s) (l_size s) (l_outstanding s) (l_committing s) (l_dev s) v (bcache s).
Definition set_bcache (v : bst) (s : lst) : lst :=
  Lst (l_start s) (l_size s) (l_outstanding s) (l_committing s) (l_dev s) (lh s) v.

Definition L (A : Type) : Type := M lst A.

(** A call of the buffer cache. *)
Definition bio {A} (m : B A) : L A := zoom bcache set_bcache m.

Definition set_lh_n (v : Z) : L () := modify (fun s => set_lh (Logheader v (lh_block (lh s))) s).
Definition get_lh_block (i : nat) : L Z := h ← gets lh; deref "log.lh.block" (lh_block h !! i).

(** A store outside the array is a wild write. *)
Definition set_lh_block (i : nat) (v : Z) : L () :=
  get_lh_block i;;
  modify (fun s => set_lh (Logheader (lh_n (lh s)) (<[i := v]> (lh_block (lh s)))) s).

(** ** Copying through the cache *)

Definition install_step (tail : nat) : L () :=
  dev ← gets l_dev;
  start ← gets l_start;
  lbuf ← bio (bread (u32 dev) (u32 (start + Z.of_nat tail + 1)));
  n ← get_lh_block tail;
  dbuf ← bio (bread (u32 dev) (u32 n));
  x ← bio (getbuf lbuf);
  bio (updbuf dbuf (set_data (data x)));;
  bio (bwrite dbuf);;
  bio (brelse lbuf);;
  bio (brelse dbuf).
Definition install_trans : L () :=
  h ← gets lh;
  for_ 0 (Z.to_nat (lh_n h)) install_step.

Definition read_head : L () :=
  dev ← gets l_dev;
  start ← gets l_start;
  b ← bio (bread (u32 dev) (u32 start));
  x ← bio (getbuf b);
  let n := s32 (rd32 (data x) 0) in
  set_lh_n n;;
  for_ 0 (Z.to_nat n) (fun i => set_lh_block i (s32 (rd32 (data x) (4 + 4 * i))));;
  bio (brelse b).

(** Storing the header into the block: the count, then each block number. *)
Definition write_head : L () :=
  dev ← gets l_dev;
  start ← gets l_start;
  b ← bio (bread (u32 dev) (u32 start));
  h ← gets lh;
  bio (updbuf b (fun x => set_data (wr32 (data x) 0 (u32 (lh_n h))) x));;
  for_ 0 (Z.to_nat (lh_n h)) (fun i =>
    v ← get_lh_block i;
    bio (updbuf b (fun x => set_data (wr32 (data x) (4 + 4 * i) (u32 v)) x)));;
  bio (bwrite b);;
  bio (brelse b).

Definition recover_from_log : L () :=
  read_head;;
  install_trans;;
  set_lh_n 0;;
  write_head.

(** [readsb] of [fs.c]. *)
Definition decode_sb (d : list Z) : superblock :=
  Superblock (rd32 d 0) (rd32 d 4) (rd32 d 8) (rd32 d 12) (rd32 d 16) (rd32 d 20) (rd32 d 24).
Definition readsb (dev : Z) : L superblock :=
  bp ← bio (bread (u32 dev) 1);
  x ← bio (getbuf bp);
  bio (brelse bp);;
  ret (decode_sb (data x)).

Definition sizeof_logheader : Z := 4 + 4 * Z.of_nat LOGSIZE.

Definition initlog (dev : Z) : L () :=
  if Z.of_nat BSIZE <=? sizeof_logheader then panic "initlog: too big logheader" else
  sb ← readsb dev;
  modify (set_start (s32 (sb_logstart sb)));;
  modify (set_size (s32 (sb_nlog sb)));;
  modify (set_ldev dev);;
  recover_from_log.

(** ** Transactions *)

(** A call that has to wait for a commit or for space does not return. *)
Definition begin_op : L () :=
  c ← gets l_committing;
  if negb (c =? 0) then spin else
  h ← gets lh;
  o ← gets l_outstanding;
  if Z.of_nat LOGSIZE <? lh_n h + (o + 1) * MAXOPBLOCKS then spin else
  modify (set_outstanding (o + 1)).

Definition write_log_step (tail : nat) : L () :=
  dev ← gets l_dev;
  start ← gets l_start;
  to ← bio (bread (u32 dev) (u32 (start + Z.of_nat tail + 1)));
  n ← get_lh_block tail;
  from ← bio (bread (u32 dev) (u32 n));
  x ← bio (getbuf from);
  bio (updbuf to (set_data (data x)));;
  bio (bwrite to);;
  bio (brelse from);;
  bio (brelse to).
Definition write_log : L () :=
  h ← gets lh;
  for_ 0 (Z.to_nat (lh_n h)) write_log_step.

Definition commit : L () :=
  h ← gets lh;
  when (0 <? lh_n h) (
    write_log;;
    write_head;;
    install_trans;;
    set_lh_n 0;;
    write_head).

Definition end_op : L () :=
  o ← gets l_outstanding;
  modify (set_outstanding (o - 1));;
  c ← gets l_committing;
  if negb (c =? 0) then panic "log.committing" else
  if o - 1 =? 0 then
    modify (set_committing 1);;
    commit;;
    modify (set_committing 0)
  else ret ().

(** The position [log_write] stores the block number at; [n] is below the
    length of the array. *)
Fixpoint absorb (bs : list Z) (n : nat) (blockno : Z) : nat :=
  match n, bs with
  | S n, b :: bs => if u32 b =? blockno then O else S (absorb bs n blockno)
  | _, _ => O
  end.

Definition log_write (b : nat) : L () :=
  h ← gets lh;
  size ← gets l_size;
  if (Z.of_nat LOGSIZE <=? lh_n h) || (size - 1 <=? lh_n h) then panic "too big a transaction" else
  o ← gets l_outstanding;
  if o <? 1 then panic "log_write outside of trans" else
  x ← bio (getbuf b);
  let i := absorb (lh_block h) (Z.to_nat (lh_n h)) (blockno x) in
  set_lh_block i (s32 (blockno x));;
  when (Z.of_nat i =? lh_n h) (set_lh_n (lh_n h + 1));;
  bio (updbuf b (fun x => set_flags (Z.lor (flags x) B_DIRTY) x)).

(** ** Copying one block to another *)

(** Block [dst] was overwritten, in the cache and on the disk. *)
Definition stored (dst : Z) (v : list Z) (s s' : bst) : Prop :=
  bok s' [] /\
  (forall m, look s' m = if decide (m = dst) then v else look s m) /\
  (forall m, pinned s' m = if decide (m = dst) then false else pinned s m) /\
  disk s' = <[(1, dst) := v]> (disk s) /\
  wlog s' = wlog s ++ [((1, dst), v)] /\
  mypid s' = mypid s.
Definition copied (src dst : Z) (s s' : bst) : Prop := stored dst (look s src) s s'.

Lemma look_clean s held n :
  bok s held -> pinned s n = false -> (forall i b, i ∈ held -> bufs s !! i = Some b -> blockno b <> n) ->
  look s n = dread (disk s) (1, n).
Proof.
  intros Hok Hp Hnh. unfold look, pinned in *. destruct (slot s n) as [b|] eqn:Hs; [|done].
  apply slot_inv in Hs as (i & Hb & Hd & Hn).
  destruct (bok_buf _ _ Hok i b Hb) as (_ & Hfl & _ & Hun).
  assert (Hih : i ∉ held) by (intros Hi; by apply (Hnh i b)).
  destruct (Hun Hih) as (_ & _ & Hcl). rewrite Hn in Hcl. apply Hcl.
  destruct Hfl as [[? _]|(_ & [Hf|Hf] & _)]; [lia|done|by rewrite Hf in Hp].
Qed.

Lemma pinned_cached s n : pinned s n = true -> exists i b, holds_block s i n b.
Proof.
  unfold pinned. destruct (slot s n) as [b|] eqn:Hs; [|done]. intros _.
  apply slot_inv in Hs as [i Hi]. by exists i, b.
Qed.

(** The tail both copy loops share: the buffers of both blocks are locked. *)
Lemma copy_tail s x y flx fly src dst vdst :
  bok s [x; y] -> bufs s !! x = Some (mine s flx src (look s src)) ->
  bufs s !! y = Some (mine s fly dst vdst) -> src <> dst ->
  flx = 6 \/ look s src = dread (disk s) (1, src) ->
  runs (X ← getbuf x; updbuf y (set_data (data X));; bwrite y;; brelse x;; brelse y) s
    (fun _ s' => copied src dst s s').
Proof.
  intros Hok Hx Hy Hsd Hcl. assert (Hxy : x <> y) by (intros ->; rewrite Hx in Hy; unfold mine in Hy; congruence).
  assert (Hyin : y ∈ [x; y]) by set_solver.
  destruct (locked_range s _ Hok x _ _ _ Hx) as (_ & _ & Hlen).
  destruct (locked_range s _ Hok y _ _ _ Hy) as (Hfly & _ & _).
  unfold runs. rewrite (bind_Ok _ _ _ _ _ (getbuf_eq x _ s Hx)). cbn [data mine].
  rewrite (bind_Ok _ _ _ _ _ (updbuf_data s y fly dst vdst Hy (look s src))).
  destruct (locked_update s _ Hok y fly dst vdst Hyin Hy fly (look s src) Hfly Hlen) as (Hok1 & Hlk1 & Hpn1).
  set (s1 := with_buf s y (mine s fly dst (look s src))) in *.
  assert (Hy1 : bufs s1 !! y = Some (mine s1 fly dst (look s src))).
  { apply list_lookup_insert_eq. by eapply lookup_lt_Some. }
  rewrite (bind_Ok _ _ _ _ _ (bwrite_eq s1 _ Hok1 y _ _ _ Hy1)).
  destruct (written_ok s1 _ Hok1 y _ _ _ Hyin Hy1) as (Hok2 & Hlk2 & Hpn2).
  set (s2 := written s1 y dst (look s src)) in *.
  assert (Hx2 : bufs s2 !! x = Some (mine s2 flx src (look s src))).
  { cbn. by rewrite !list_lookup_insert_ne by done. }
  assert (Hy2 : bufs s2 !! y = Some (mine s2 2 dst (look s src))).
  { cbn. apply list_lookup_insert_eq. rewrite length_insert. by eapply lookup_lt_Some. }
  change (runs (brelse x;; brelse y) s2 (fun _ s' => copied src dst s s')).
  apply runs_bind. eapply runs_mono; [apply (brelse_runs s2 [y] x _ _ _ Hok2 Hx2)|].
  { destruct Hcl as [?|Hcl]; [by left|right]. rewrite Hcl at 1. unfold dread. cbn.
    by rewrite lookup_insert_ne by congruence. }
  intros _ s3 (Hok3 & Hs3 & Hb3 & _). assert (Hpid : mypid s3 = mypid s2) by apply Hs3.
  eapply runs_mono; [apply (brelse_runs s3 [] y 2 dst (look s src) Hok3)|].
  { rewrite Hb3 by done. rewrite Hy2. unfold mine. by rewrite Hpid. }
  { right. destruct Hs3 as (_ & _ & -> & _). unfold dread. cbn. by rewrite lookup_insert_eq. }
  intros _ s4 (Hok4 & Hs4 & _). destruct (same_blocks_trans _ _ _ Hs3 Hs4) as (H1 & H2 & H3 & H4 & H5).
  split_and!; [done| | |by rewrite H3|by rewrite H4|by rewrite H5].
  - intros m. by rewrite H1, Hlk2, Hlk1.
  - intros m. rewrite H2, Hpn2, Hpn1. by case_decide.
Qed.

(** Locking two different blocks. *)
Lemma bread_two s a c P i s1 :
  bok s [] -> 0 <= c < FSSIZE -> a <> c -> got s [] a i s1 ->
  (forall m, pinned s m = true -> m ∈ P) -> pinned s c = true \/ (S (length P) < NBUF)%nat ->
  runs (bread 1 c) s1 (fun j s2 => bok s2 [j; i] /\ same_blocks s s2 /\
    bufs s2 !! i = Some (mine s2 (if pinned s a then 6 else 2) a (look s a)) /\
    bufs s2 !! j = Some (mine s2 (if pinned s c then 6 else 2) c (look s c))).
Proof.
  intros Hok Hc Hac (_ & Hok1 & Hsame & Hbi & _) HP Hroom.
  assert (Hs1 := Hsame). destruct Hs1 as (Hlk & Hpn & _ & _ & Hpid).
  eapply runs_mono; [apply (bread_runs s1 [i] c Hok1 Hc)|].
  - intros j b ->%list_elem_of_singleton. rewrite Hbi. intros [= <-]. done.
  - destruct Hroom as [Hp|Hlt].
    + right. apply pinned_cached. by rewrite Hpn.
    + left. apply (room_count s1 [i] P Hok1); [|cbn; lia]. intros m. rewrite Hpn. apply HP.
  - intros j s2 (_ & Hok2 & Hsame2 & Hbj & Hold). assert (Hs2 := Hsame2).
    destruct Hs2 as (_ & _ & _ & _ & Hpid2).
    split_and!; [done|by eapply same_blocks_trans| |].
    + rewrite Hold by left. rewrite Hbi. unfold mine. by rewrite Hpid2, Hpid.
    + rewrite Hbj, Hlk, Hpn. unfold mine. by rewrite Hpid2.
Qed.

(** ** The copy steps *)

Lemma runs_bio {A} (m : B A) s Q :
  runs m (bcache s) (fun a t => Q a (set_bcache t s)) -> runs (bio m) s Q.
Proof. unfold runs, bio, zoom. by destruct (m (bcache s)) as [[a t]| | |]. Qed.

Lemma bio_bind {A C} (m : B A) (k : A -> B C) (K : A -> L C) t :
  (forall a t', K a t' = bio (k a) t') -> bind (bio m) K t = bio (bind m k) t.
Proof.
  intros HK. unfold bio, zoom, bind. destruct (m (bcache t)) as [[a b]| | |]; try done.
Qed.

Lemma runs_ext {A} (m m' : L A) s Q : m s = m' s -> runs m' s Q -> runs m s Q.
Proof. unfold runs. by intros ->. Qed.

Lemma runs_gets {A C} (f : lst -> A) (k : A -> L C) s Q : runs (k (f s)) s Q -> runs (bind (gets f) k) s Q.
Proof. done. Qed.

Lemma get_lh_block_eq i v s : lh_block (lh s) !! i = Some v -> get_lh_block i s = Ok (v, s).
Proof. intros Hv. unfold get_lh_block, bind, gets. by rewrite Hv. Qed.

Lemma small_u32 x : 0 <= x < FSSIZE -> u32 x = x.
Proof. intros Hx. apply u32_small. unfold FSSIZE in Hx. lia. Qed.

Section steps.
Context (s : lst) (tail : nat) (n : Z) (P : list Z).
Hypothesis Hdev : l_dev s = 1.
Hypothesis Hstart : 0 <= l_start s /\ l_start s + Z.of_nat tail + 1 < FSSIZE.
Hypothesis Htail : lh_block (lh s) !! tail = Some n.
Hypothesis Hn : 0 <= n < FSSIZE.
Hypothesis Hne : l_start s + Z.of_nat tail + 1 <> n.
Hypothesis Hok : bok (bcache s) [].
Hypothesis HP : forall m, pinned (bcache s) m = true -> m ∈ P.
Hypothesis Hlen : (length P < NBUF)%nat.
Hypothesis Hroom : pinned (bcache s) n = true \/ (S (length P) < NBUF)%nat.

(** Both loops first lock the log block, then the other one. *)
Lemma lock_both {A} (k : nat -> nat -> L A) Q :
  (forall i j s2, bok s2 [j; i] -> same_blocks (bcache s) s2 ->
    bufs s2 !! i = Some (mine s2 (if pinned s2 (l_start s + Z.of_nat tail + 1) then 6 else 2)
      (l_start s + Z.of_nat tail + 1) (look s2 (l_start s + Z.of_nat tail + 1))) ->
    bufs s2 !! j = Some (mine s2 (if pinned s2 n then 6 else 2) n (look s2 n)) ->
    runs (k i j) (set_bcache s2 s) Q) ->
  runs (dev ← gets l_dev; start ← gets l_start;
        i ← bio (bread (u32 dev) (u32 (start + Z.of_nat tail + 1)));
        m ← get_lh_block tail;
        j ← bio (bread (u32 dev) (u32 m));
        k i j) s Q.
Proof.
  intros Hk. set (a := l_start s + Z.of_nat tail + 1) in *. do 2 apply runs_gets.
  rewrite Hdev. fold a. rewrite (small_u32 a), (small_u32 1) by (unfold FSSIZE in *; lia).
  apply runs_bind, runs_bio. eapply runs_mono.
  { apply (bread_runs _ []); [done|lia|set_solver|]. left. apply (room_count _ [] P); [done|done|cbn; lia]. }
  intros i s1 Hgot. unfold runs. rewrite (bind_Ok _ _ _ _ _ (get_lh_block_eq tail n (set_bcache s1 s) Htail)).
  rewrite (small_u32 n) by done. change (runs (j ← bio (bread 1 n); k i j) (set_bcache s1 s) Q).
  apply runs_bind, runs_bio. cbn [bcache set_bcache].
  eapply runs_mono; [apply (bread_two (bcache s) a n P i s1 Hok Hn Hne Hgot HP Hroom)|].
  intros j s2 (Hok2 & Hsame & Hi & Hj). apply (Hk i j s2); [done|done| |];
    destruct Hsame as (Hlk & Hpn & _); by rewrite Hlk, Hpn.
Qed.

Lemma locked_clean s2 x :
  bok (bcache s) [] -> same_blocks (bcache s) s2 ->
  (if pinned s2 x then 6 else 2) = 6 \/ look s2 x = dread (disk s2) (1, x).
Proof.
  intros Hok0 (Hlk & Hpn & Hdk & _). rewrite Hpn, Hlk, Hdk.
  destruct (pinned (bcache s) x) eqn:Hp; [by left|right].
  apply (look_clean _ []); [done|done|set_solver].
Qed.

Lemma copied_from src dst s2 s3 : same_blocks (bcache s) s2 -> copied src dst s2 s3 -> copied src dst (bcache s) s3.
Proof.
  intros (Hlk & Hpn & Hdk & Hwl & Hpid) (H1 & H2 & H3 & H4 & H5 & H6). rewrite Hlk in *.
  unfold copied, stored.
  split_and!; [done| | |congruence|congruence|congruence]; intros m; rewrite ?H2, ?H3, ?Hlk, ?Hpn; done.
Qed.

Lemma install_step_runs :
  runs (install_step tail) s (fun _ s' => exists b', s' = set_bcache b' s /\
    copied (l_start s + Z.of_nat tail + 1) n (bcache s) b').
Proof.
  unfold install_step. apply lock_both. intros i j s2 Hok2 Hsame Hi Hj.
  eapply runs_ext; [repeat (apply bio_bind; intros); done|]. apply runs_bio. cbn.
  eapply runs_mono; [apply (copy_tail s2 i j _ _ _ n _ (bok_perm _ _ _ (perm_swap _ _ _) Hok2) Hi Hj Hne)|].
  { by apply locked_clean. }
  intros [] s3 Hc. exists s3. split; [done|]. by eapply copied_from.
Qed.

Lemma write_log_step_runs :
  runs (write_log_step tail) s (fun _ s' => exists b', s' = set_bcache b' s /\
    copied n (l_start s + Z.of_nat tail + 1) (bcache s) b').
Proof.
  unfold write_log_step. apply lock_both. intros i j s2 Hok2 Hsame Hi Hj.
  eapply runs_ext; [repeat (apply bio_bind; intros); done|]. apply runs_bio. cbn.
  eapply runs_mono; [apply (copy_tail s2 j i _ _ _ _ _ Hok2 Hj Hi (not_eq_sym Hne))|].
  { by apply locked_clean. }
  intros [] s3 Hc. exists s3. split; [done|]. by eapply copied_from.
Qed.
End steps.

(** ** Sequences of writes *)

(** The contents of the blocks after some writes. *)
Definition over (ws : list (Z * list Z)) (f : Z -> list Z) (m : Z) : list Z :=
  fold_left (fun v w => if decide (m = fst w) then snd w else v) ws (f m).
Definition apply_writes (ws : list (Z * list Z)) (dk : gmap blockid (list Z)) : gmap blockid (list Z) :=
  fold_left (fun d w => <[(1, fst w) := snd w]> d) ws dk.
Definition on_disk (dk : gmap blockid (list Z)) (m : Z) : list Z := dread dk (1, m).

Definition stores (ws : list (Z * list Z)) (s s' : bst) : Prop :=
  bok s' [] /\
  (forall m, look s' m = over ws (look s) m) /\
  (forall m, pinned s' m = pinned s m && negb (bool_decide (m ∈ map fst ws))) /\
  disk s' = apply_writes ws (disk s) /\
  wlog s' = wlog s ++ map (fun w => ((1, fst w), snd w)) ws /\
  mypid s' = mypid s.

Lemma over_snoc ws n v f m : over (ws ++ [(n, v)]) f m = if decide (m = n) then v else over ws f m.
Proof. unfold over. by rewrite fold_left_app. Qed.

Lemma over_app ws1 ws2 f m : over (ws1 ++ ws2) f m = over ws2 (over ws1 f) m.
Proof. unfold over. by rewrite fold_left_app. Qed.

Lemma over_ext ws f g m : f m = g m -> over ws f m = over ws g m.
Proof. unfold over. by intros ->. Qed.

Lemma over_out ws f m : m ∉ map fst ws -> over ws f m = f m.
Proof.
  induction ws as [|[n v] ws IH] using rev_ind; [done|]. rewrite map_app, over_snoc. cbn.
  intros Hm. rewrite decide_False by set_solver. apply IH. set_solver.
Qed.

Lemma over_in ws f m v : NoDup (map fst ws) -> (m, v) ∈ ws -> over ws f m = v.
Proof.
  induction ws as [|[n w] ws IH] using rev_ind; [set_solver|]. rewrite map_app, over_snoc. cbn.
  intros (Hnd & Hdis & _)%NoDup_app [Hin|[= -> ->]%list_elem_of_singleton]%elem_of_app.
  - rewrite decide_False; [by apply IH|]. intros ->. apply (Hdis n); [|left].
    by apply (list_elem_of_fmap_2 fst ws (n, v)).
  - by rewrite decide_True.
Qed.

Lemma apply_snoc ws n v dk : apply_writes (ws ++ [(n, v)]) dk = <[(1, n) := v]> (apply_writes ws dk).
Proof. unfold apply_writes. by rewrite fold_left_app. Qed.

Lemma on_disk_apply ws dk m : on_disk (apply_writes ws dk) m = over ws (on_disk dk) m.
Proof.
  induction ws as [|[n v] ws IH] using rev_ind; [done|]. rewrite apply_snoc, over_snoc.
  unfold on_disk, dread in *. case_decide as Hm.
  - subst. by rewrite lookup_insert_eq.
  - by rewrite lookup_insert_ne by congruence.
Qed.

Lemma stores_nil s : bok s [] -> stores [] s s.
Proof. intros Hok. split_and!; [done|done| |done|by rewrite app_nil_r|done]. intros m. by rewrite andb_true_r. Qed.

Lemma stores_snoc ws n v s s1 s2 : stores ws s s1 -> stored n v s1 s2 -> stores (ws ++ [(n, v)]) s s2.
Proof.
  intros (_ & H2 & H3 & H4 & H5 & H6) (G1 & G2 & G3 & G4 & G5 & G6). split_and!; [done| | | | |congruence].
  - intros m. rewrite G2, over_snoc. by case_decide.
  - intros m. rewrite G3, H3, map_app. case_decide as Hm.
    + rewrite bool_decide_true; [by rewrite andb_false_r|]. subst. cbn. set_solver.
    + do 2 f_equal. apply bool_decide_ext. cbn. set_solver.
  - by rewrite G4, H4, apply_snoc.
  - by rewrite G5, H5, map_app, app_assoc.
Qed.

(** ** The header block *)

Fixpoint put_blocks (d : list Z) (i : nat) (bs : list Z) : list Z :=
  match bs with
  | [] => d
  | b :: bs => put_blocks (wr32 d (4 + 4 * i) (u32 b)) (S i) bs
  end.
Definition hdr_block (d : list Z) (bs : list Z) : list Z :=
  put_blocks (wr32 d 0 (u32 (Z.of_nat (length bs)))) 0 bs.
Definition decode (d : list Z) : list Z :=
  map (fun k => s32 (rd32 d (4 + 4 * k))) (seq 0 (Z.to_nat (s32 (rd32 d 0)))).

Lemma put_blocks_length bs : forall d i,
  length d = BSIZE -> (i + length bs <= LOGSIZE)%nat -> length (put_blocks d i bs) = BSIZE.
Proof.
  unfold BSIZE, LOGSIZE. induction bs as [|b bs IH]; intros d i Hd Hi; cbn [put_blocks]; [done|].
  cbn in Hi. apply IH; [|lia]. rewrite length_wr32 by lia. done.
Qed.

Lemma put_blocks_before bs : forall d i j,
  length d = BSIZE -> (i + length bs <= LOGSIZE)%nat -> (j + 4 <= 4 + 4 * i)%nat ->
  rd32 (put_blocks d i bs) j = rd32 d j.
Proof.
  unfold BSIZE, LOGSIZE. induction bs as [|b bs IH]; intros d i j Hd Hi Hj; cbn [put_blocks]; [done|].
  cbn in Hi. rewrite IH by (rewrite ?length_wr32 by lia; lia). apply rd32_wr32_ne; lia.
Qed.

Lemma put_blocks_at bs : forall d i k b,
  length d = BSIZE -> (i + length bs <= LOGSIZE)%nat -> bs !! k = Some b ->
  rd32 (put_blocks d i bs) (4 + 4 * (i + k)) = u32 b.
Proof.
  unfold BSIZE, LOGSIZE. induction bs as [|b0 bs IH]; intros d i k b Hd Hi Hk; [done|].
  cbn [put_blocks]. cbn in Hi. destruct k as [|k].
  - injection Hk as ->. rewrite Nat.add_0_r.
    rewrite put_blocks_before by (unfold BSIZE, LOGSIZE; rewrite ?length_wr32 by lia; lia).
    apply rd32_wr32; [lia|apply u32_range].
  - replace (i + S k)%nat with (S i + k)%nat by lia. apply IH; [by rewrite length_wr32 by lia|lia|done].
Qed.

Lemma s32_u32 x : 0 <= x < 2 ^ 31 -> s32 (u32 x) = x.
Proof. intros Hx. rewrite u32_small by lia. apply s32_small. lia. Qed.

Lemma decode_hdr d bs :
  length d = BSIZE -> (length bs <= LOGSIZE)%nat -> Forall (fun b => 0 <= b < 2 ^ 31) bs ->
  decode (hdr_block d bs) = bs.
Proof.
  intros Hd Hl Hbs. unfold decode, hdr_block.
  assert (Hd1 : length (wr32 d 0 (u32 (Z.of_nat (length bs)))) = BSIZE).
  { unfold BSIZE in *. by rewrite length_wr32 by lia. }
  rewrite put_blocks_before by (done || lia).
  rewrite rd32_wr32 by (unfold BSIZE in *; lia || apply u32_range).
  rewrite s32_u32 by (unfold LOGSIZE in *; lia). rewrite Nat2Z.id.
  apply list_eq. intros k. change (map ?f ?l) with (f <$> l). rewrite list_lookup_fmap.
  destruct (bs !! k) as [b|] eqn:Hb.
  - rewrite lookup_seq_lt by (by eapply lookup_lt_Some). cbn [fmap option_fmap option_map]. f_equal.
    rewrite (put_blocks_at bs _ 0 k b Hd1) by done.
    apply s32_u32. by apply (Forall_lookup_1 _ _ _ _ Hbs Hb).
  - apply lookup_ge_None in Hb. by rewrite lookup_seq_ge by lia.
Qed.

Lemma hdr_length d bs : length d = BSIZE -> (length bs <= LOGSIZE)%nat -> length (hdr_block d bs) = BSIZE.
Proof.
  intros Hd Hl. apply put_blocks_length; [|done]. unfold BSIZE in *. by rewrite length_wr32 by lia.
Qed.

(** ** The log as an invariant *)

(** Block numbers a header may carry. *)
Definition hdr_ok (start : Z) (bs : list Z) : Prop :=
  NoDup bs /\ (length bs < LOGSIZE)%nat /\ Forall (fun m => start + Z.of_nat LOGSIZE <= m < FSSIZE) bs.
Definition in_log (start m : Z) : Prop := start <= m < start + Z.of_nat LOGSIZE.
Definition log_at (start : Z) : Prop := 2 <= start /\ start + Z.of_nat LOGSIZE <= FSSIZE.

(** The transaction under way has changed the blocks [bs]; they, and only
    they, are pinned in the cache; the log on the disk is empty. *)
Record lok (s : lst) (bs : list Z) : Prop := Lok {
  lok_dev : l_dev s = 1;
  lok_at : log_at (l_start s);
  lok_size : l_size s = Z.of_nat LOGSIZE;
  lok_n : lh_n (lh s) = Z.of_nat (length bs);
  lok_block : take (length bs) (lh_block (lh s)) = bs;
  lok_array : length (lh_block (lh s)) = LOGSIZE;
  lok_bs : hdr_ok (l_start s) bs;
  lok_cache : bok (bcache s) [];
  lok_pinned : forall m, pinned (bcache s) m = bool_decide (m ∈ bs);
  lok_empty : decode (on_disk (disk (bcache s)) (l_start s)) = []
}.

(** The writes of a commit: the blocks to the log, the header, the blocks to
    their homes, the empty header. *)
Definition log_writes (start : Z) (vs : list (list Z)) : list (Z * list Z) :=
  imap (fun k v => (start + Z.of_nat k + 1, v)) vs.
Definition home_writes (bs : list Z) (vs : list (list Z)) : list (Z * list Z) := zip bs vs.
Definition commit_writes (start : Z) (old : list Z) (bs : list Z) (vs : list (list Z)) : list (Z * list Z) :=
  log_writes start vs ++ [(start, hdr_block old bs)] ++ home_writes bs vs ++
  [(start, hdr_block (hdr_block old bs) [])].

(** The in-memory header carries [bs]. *)
Record lhead (s : lst) (bs : list Z) : Prop := Lhead {
  lhead_dev : l_dev s = 1;
  lhead_at : log_at (l_start s);
  lhead_n : Z.to_nat (lh_n (lh s)) = length bs;
  lhead_block : take (length bs) (lh_block (lh s)) = bs;
  lhead_array : length (lh_block (lh s)) = LOGSIZE;
  lhead_bs : hdr_ok (l_start s) bs
}.

Lemma lok_lhead s bs : lok s bs -> lhead s bs.
Proof. intros []. constructor; try done. lia. Qed.

Lemma lhead_lookup s bs k c : lhead s bs -> bs !! k = Some c -> lh_block (lh s) !! k = Some c.
Proof.
  intros Hh Hk. rewrite <- (lhead_block _ _ Hh) in Hk. rewrite lookup_take_Some in Hk. tauto.
Qed.

Lemma hdr_ok_lookup start bs k c :
  hdr_ok start bs -> bs !! k = Some c -> start + Z.of_nat LOGSIZE <= c < FSSIZE /\ (k < LOGSIZE - 1)%nat.
Proof.
  intros (_ & Hl & Hf) Hk. split; [by apply (Forall_lookup_1 _ _ _ _ Hf Hk)|].
  apply lookup_lt_Some in Hk. lia.
Qed.

(** The blocks of the log copied to where the header says. *)
Definition rec_writes (start : Z) (f : Z -> list Z) (bs : list Z) : list (Z * list Z) :=
  imap (fun k c => (c, f (start + Z.of_nat k + 1))) bs.

Lemma lookup_log_writes start vs k v :
  vs !! k = Some v -> log_writes start vs !! k = Some (start + Z.of_nat k + 1, v).
Proof. intros Hk. unfold log_writes. by rewrite list_lookup_imap, Hk. Qed.

Lemma lookup_rec_writes start f bs k c :
  bs !! k = Some c -> rec_writes start f bs !! k = Some (c, f (start + Z.of_nat k + 1)).
Proof. intros Hk. unfold rec_writes. by rewrite list_lookup_imap, Hk. Qed.

Lemma log_writes_dst start vs m : m ∈ map fst (log_writes start vs) -> start < m <= start + Z.of_nat (length vs).
Proof.
  intros ([n v] & -> & [k Hk]%list_elem_of_lookup)%list_elem_of_fmap. unfold log_writes in Hk.
  rewrite list_lookup_imap in Hk. destruct (vs !! k) as [w|] eqn:Hw; [|done]. cbn in Hk.
  injection Hk as <- <-. apply lookup_lt_Some in Hw. cbn. lia.
Qed.

Lemma rec_writes_dst start f bs : map fst (rec_writes start f bs) = bs.
Proof.
  apply list_eq. intros k. change (map ?g ?l) with (g <$> l). unfold rec_writes.
  rewrite list_lookup_fmap, list_lookup_imap. by destruct (bs !! k).
Qed.

Lemma elem_of_take_map {A C} (g : A -> C) (l : list A) j x : x ∈ map g (take j l) -> x ∈ map g l.
Proof.
  intros (y & -> & Hy)%list_elem_of_fmap. apply list_elem_of_fmap. exists y. split; [done|].
  rewrite <- (take_drop j l). apply elem_of_app. by left.
Qed.

Lemma write_log_runs s bs :
  lhead s bs -> bok (bcache s) [] -> (forall m, pinned (bcache s) m = bool_decide (m ∈ bs)) ->
  runs write_log s (fun _ s' => exists b', s' = set_bcache b' s /\
    stores (log_writes (l_start s) (map (look (bcache s)) bs)) (bcache s) b').
Proof.
  intros Hh Hok Hpin. set (ws := log_writes _ _). unfold write_log. apply runs_gets.
  rewrite (lhead_n _ _ Hh).
  assert (Hlw : length ws = length bs) by (unfold ws, log_writes; by rewrite length_imap, length_map).
  destruct (lhead_at _ _ Hh) as [Hst1 Hst2]. destruct (lhead_bs _ _ Hh) as (Hnd & Hlt & Hrng).
  eapply runs_mono; [apply (runs_for (fun j t => exists b', t = set_bcache b' s /\
    stores (take j ws) (bcache s) b') write_log_step (length bs) 0)|].
  - exists (bcache s). split; [by destruct s|]. by apply stores_nil.
  - intros j t Hj (b' & -> & Hst). destruct (lookup_lt_is_Some_2 bs j ltac:(lia)) as [c Hc].
    destruct (hdr_ok_lookup _ _ _ _ (lhead_bs _ _ Hh) Hc) as [Hcr Hjl].
    assert (Hdst : forall m, m ∈ map fst (take j ws) -> m < l_start s + Z.of_nat LOGSIZE).
    { intros m Hm%elem_of_take_map%log_writes_dst. rewrite length_map in Hm. lia. }
    assert (Hs := Hst). destruct Hs as (Hok' & Hlk & Hpn & _).
    eapply runs_mono; [apply (write_log_step_runs (set_bcache b' s) j c bs)|].
    + apply Hh.
    + cbn. lia.
    + exact (lhead_lookup s bs j c Hh Hc).
    + unfold log_at in *. lia.
    + cbn. lia.
    + done.
    + cbn. intros m. rewrite Hpn, Hpin. intros [Hm _]%andb_true_iff. by apply bool_decide_eq_true in Hm.
    + unfold NBUF, LOGSIZE in *. lia.
    + left. cbn. rewrite Hpn, Hpin, bool_decide_true by (by eapply list_elem_of_lookup_2).
      rewrite bool_decide_false; [done|]. intros Hx%Hdst. lia.
    + intros [] t' (b'' & -> & Hcp). exists b''. split; [done|]. cbn in Hcp. unfold copied in Hcp.
      rewrite Hlk, over_out in Hcp by (intros Hx%Hdst; lia).
      erewrite take_S_r; [by eapply stores_snoc|]. apply lookup_log_writes.
      change (map ?g ?l) with (g <$> l). by rewrite list_lookup_fmap, Hc.
  - intros [] t (b' & -> & Hst). exists b'. split; [done|]. by rewrite Nat.add_0_l, <- Hlw, firstn_all in Hst.
Qed.

Lemma install_trans_runs s bs P :
  lhead s bs -> bok (bcache s) [] -> (forall m, pinned (bcache s) m = true -> m ∈ P) ->
  (length P < NBUF)%nat -> (forall c, c ∈ bs -> pinned (bcache s) c = true) \/ (S (length P) < NBUF)%nat ->
  runs install_trans s (fun _ s' => exists b', s' = set_bcache b' s /\
    stores (rec_writes (l_start s) (look (bcache s)) bs) (bcache s) b').
Proof.
  intros Hh Hok HP HlP Hroom. set (ws := rec_writes _ _ _). unfold install_trans. apply runs_gets.
  rewrite (lhead_n _ _ Hh).
  assert (Hlw : length ws = length bs) by (unfold ws, rec_writes; by rewrite length_imap).
  destruct (lhead_at _ _ Hh) as [Hst1 Hst2]. destruct (lhead_bs _ _ Hh) as (Hnd & Hlt & Hrng).
  assert (Hfst : map fst ws = bs) by apply rec_writes_dst.
  eapply runs_mono; [apply (runs_for (fun j t => exists b', t = set_bcache b' s /\
    stores (take j ws) (bcache s) b') install_step (length bs) 0)|].
  - exists (bcache s). split; [by destruct s|]. by apply stores_nil.
  - intros j t Hj (b' & -> & Hst). destruct (lookup_lt_is_Some_2 bs j ltac:(lia)) as [c Hc].
    destruct (hdr_ok_lookup _ _ _ _ (lhead_bs _ _ Hh) Hc) as [Hcr Hjl].
    assert (Hs := Hst). destruct Hs as (Hok' & Hlk & Hpn & _).
    assert (Hcj : c ∉ map fst (take j ws)).
    { rewrite <- firstn_map, Hfst. intros (k & Hk & Hkj)%elem_of_take.
      assert (k = j) by (by eapply NoDup_lookup). lia. }
    eapply runs_mono; [apply (install_step_runs (set_bcache b' s) j c P)|].
    + apply Hh.
    + cbn. lia.
    + exact (lhead_lookup s bs j c Hh Hc).
    + lia.
    + cbn. lia.
    + done.
    + cbn. intros m. rewrite Hpn. intros [Hm _]%andb_true_iff. by apply HP.
    + done.
    + destruct Hroom as [Hall|?]; [|by right]. left. cbn.
      rewrite Hpn, Hall by (by eapply list_elem_of_lookup_2). by rewrite bool_decide_false.
    + intros [] t' (b'' & -> & Hcp). exists b''. split; [done|]. cbn in Hcp. unfold copied in Hcp.
      rewrite Hlk, over_out in Hcp.
      * erewrite take_S_r; [by eapply stores_snoc|]. by apply lookup_rec_writes.
      * intros Hx%elem_of_take_map. rewrite Hfst in Hx. rewrite Forall_forall in Hrng.
        specialize (Hrng _ Hx). cbn in Hrng. lia.
  - intros [] t (b' & -> & Hst). exists b'. split; [done|]. by rewrite Nat.add_0_l, <- Hlw, firstn_all in Hst.
Qed.

(** ** Reading and writing the header *)

Lemma put_blocks_snoc bs c : forall d i,
  put_blocks d i (bs ++ [c]) = wr32 (put_blocks d i bs) (4 + 4 * (i + length bs)) (u32 c).
Proof.
  induction bs as [|b bs IH]; intros d i; cbn [put_blocks app length].
  - by rewrite Nat.add_0_r.
  - rewrite IH. do 2 f_equal. lia.
Qed.

Lemma updbuf_locked s i fl n v f v' :
  bufs s !! i = Some (mine s fl n v) -> f (mine s fl n v) = mine s fl n v' ->
  updbuf i f s = Ok ((), with_buf s i (mine s fl n v')).
Proof. intros Hb Hf. by rewrite (updbuf_eq i f _ s Hb), Hf. Qed.

(** A locked block whose new contents are [v] goes to the disk and back to
    the cache. *)
Lemma put_back s s1 i n v v' :
  bok s1 [i] -> same_blocks s s1 -> bufs s1 !! i = Some (mine s1 2 n v) -> length v' = BSIZE ->
  runs (bwrite i;; brelse i) (with_buf s1 i (mine s1 2 n v')) (fun _ s' => stored n v' s s').
Proof.
  intros Hok1 (G1 & G2 & G3 & G4 & G5) Hb1 Hv'. assert (Hin : i ∈ [i]) by left.
  assert (Hlt := lookup_lt_Some _ _ _ Hb1).
  destruct (locked_update s1 _ Hok1 i 2 n v Hin Hb1 2 v' (or_introl eq_refl) Hv') as (Hok2 & Hlk2 & Hpn2).
  set (s2 := with_buf s1 i (mine s1 2 n v')) in *.
  assert (Hb2 : bufs s2 !! i = Some (mine s2 2 n v')) by by apply list_lookup_insert_eq.
  destruct (written_ok s2 _ Hok2 i 2 n v' Hin Hb2) as (Hok3 & Hlk3 & Hpn3).
  apply runs_bind. eapply runs_Ok; [apply (bwrite_eq s2 _ Hok2 i 2 n v' Hb2)|].
  eapply runs_mono; [apply (brelse_runs _ [] i 2 n v' Hok3)|].
  { cbn. apply list_lookup_insert_eq. by rewrite length_insert. }
  { right. unfold dread. cbn. by rewrite lookup_insert_eq. }
  intros [] s4 (Hok4 & (H1 & H2 & H3 & H4 & H5) & _).
  split_and!; [done| | |by rewrite H3; cbn; rewrite G3|by rewrite H4; cbn; rewrite G4|by rewrite H5].
  - intros m. rewrite H1, Hlk3, Hlk2. case_decide; [done|]. by rewrite G1.
  - intros m. rewrite H2, Hpn3, Hpn2. case_decide; [done|]. by rewrite G2.
Qed.

(** Locking the header block. *)
Lemma bread_head {A} s bs P (k : nat -> L A) Q :
  lhead s bs -> bok (bcache s) [] -> (forall m, pinned (bcache s) m = true -> m ∈ P) -> (length P < NBUF)%nat ->
  pinned (bcache s) (l_start s) = false ->
  (forall i b1, bok b1 [i] -> same_blocks (bcache s) b1 ->
    bufs b1 !! i = Some (mine b1 2 (l_start s) (look (bcache s) (l_start s))) ->
    runs (k i) (set_bcache b1 s) Q) ->
  runs (dev ← gets l_dev; start ← gets l_start; i ← bio (bread (u32 dev) (u32 start)); k i) s Q.
Proof.
  intros Hh Hok HP HlP Hpin Hk. destruct (lhead_at _ _ Hh) as [Hst1 Hst2].
  assert (Hsr : 0 <= l_start s < FSSIZE) by (unfold LOGSIZE in *; lia).
  do 2 apply runs_gets. rewrite (lhead_dev _ _ Hh), (small_u32 _ Hsr), (small_u32 1) by (unfold FSSIZE; lia).
  apply runs_bind, runs_bio. eapply runs_mono.
  { apply (bread_runs _ [] _ Hok Hsr); [set_solver|]. left. apply (room_count _ [] P); [done|done|cbn; lia]. }
  intros i b1 (_ & Hok1 & Hsame & Hbi & _). rewrite Hpin in Hbi. apply Hk; [done|done|].
  rewrite Hbi. unfold mine. by destruct Hsame as (_ & _ & _ & _ & ->).
Qed.

(** The stores of [write_head] into the locked header block. *)
Lemma fill_head s bs b1 i start d :
  lhead s bs -> bufs b1 !! i = Some (mine b1 2 start d) ->
  runs (bio (updbuf i (fun x => set_data (wr32 (data x) 0 (u32 (Z.of_nat (length bs)))) x));;
        for_ 0 (length bs) (fun j => v ← get_lh_block j;
          bio (updbuf i (fun x => set_data (wr32 (data x) (4 + 4 * j) (u32 v)) x)))) (set_bcache b1 s)
    (fun _ s' => s' = set_bcache (with_buf b1 i (mine b1 2 start (hdr_block d bs))) s).
Proof.
  intros Hh Hb1. assert (Hlt1 := lookup_lt_Some _ _ _ Hb1).
  set (st v := set_bcache (with_buf b1 i (mine b1 2 start v)) s).
  assert (Hupd : forall v w off x, w = wr32 v off x ->
    bio (updbuf i (fun y => set_data (wr32 (data y) off x) y)) (st v) = Ok ((), st w)).
  { intros v w off x ->. unfold bio, zoom.
    rewrite (updbuf_locked _ i 2 start v _ (wr32 v off x)); [|cbn; by apply list_lookup_insert_eq|done].
    unfold st, with_buf, set_bcache. cbn. by rewrite list_insert_insert_eq. }
  set (d0 := wr32 d 0 (u32 (Z.of_nat (length bs)))).
  assert (Hs1 : set_bcache b1 s = st d).
  { unfold st, with_buf. rewrite list_insert_id by done. by destruct b1. }
  rewrite Hs1. apply runs_bind. eapply runs_Ok; [by apply (Hupd d d0)|].
  eapply runs_mono; [apply (runs_for (fun j t => t = st (put_blocks d0 0 (take j bs)))); [done|]|].
  - intros j t Hj ->. destruct (lookup_lt_is_Some_2 bs j ltac:(lia)) as [c Hc].
    unfold runs. rewrite (bind_Ok _ _ _ _ _ (get_lh_block_eq j c (st _) (lhead_lookup s bs j c Hh Hc))).
    rewrite (Hupd _ (put_blocks d0 0 (take (S j) bs))); [done|].
    rewrite (take_S_r _ _ _ Hc), put_blocks_snoc, length_take. do 2 f_equal. lia.
  - cbn beta. intros [] t ->. by rewrite Nat.add_0_l, firstn_all.
Qed.

Lemma runs_seq {C} (m1 m2 : L ()) (k : L C) s (Q : C -> lst -> Prop) :
  runs (m1;; m2) s (fun _ t => runs k t Q) -> runs (m1;; m2;; k) s Q.
Proof.
  unfold runs, bind. destruct (m1 s) as [[[] t]| | |]; try done. by destruct (m2 t) as [[[] t']| | |].
Qed.

Lemma write_head_runs s bs P :
  lhead s bs -> lh_n (lh s) = Z.of_nat (length bs) -> bok (bcache s) [] ->
  (forall m, pinned (bcache s) m = true -> m ∈ P) -> (length P < NBUF)%nat ->
  pinned (bcache s) (l_start s) = false ->
  runs write_head s (fun _ s' => exists b', s' = set_bcache b' s /\
    stored (l_start s) (hdr_block (look (bcache s) (l_start s)) bs) (bcache s) b').
Proof.
  intros Hh Hn Hok HP HlP Hpin. unfold write_head. apply (bread_head s bs P); try done.
  intros i b1 Hok1 Hsame Hb1. apply runs_gets. cbn [lh set_bcache]. rewrite Hn, Nat2Z.id.
  destruct (locked_range _ _ Hok1 i 2 _ _ Hb1) as (_ & _ & Hld).
  apply runs_seq. eapply runs_mono; [exact (fill_head s bs b1 i _ _ Hh Hb1)|]. intros [] t ->.
  eapply runs_ext; [apply bio_bind; intros; done|]. apply runs_bio. cbn [bcache set_bcache].
  eapply runs_mono; [eapply (put_back (bcache s) b1 i); [done|done|exact Hb1|]|].
  { apply hdr_length; [done|]. destruct (lhead_bs _ _ Hh) as (_ & ? & _). lia. }
  intros [] b4 Hst. by exists b4.
Qed.

(** ** commit *)

Lemma stores_app ws1 ws2 s s1 s2 : stores ws1 s s1 -> stores ws2 s1 s2 -> stores (ws1 ++ ws2) s s2.
Proof.
  intros (_ & H2 & H3 & H4 & H5 & H6) (G1 & G2 & G3 & G4 & G5 & G6). split_and!; [done| | | | |congruence].
  - intros m. rewrite G2, over_app. by apply over_ext.
  - intros m. rewrite G3, H3, map_app, <- andb_assoc. f_equal.
    rewrite <- negb_orb. f_equal. rewrite <- bool_decide_or. apply bool_decide_ext. set_solver.
  - unfold apply_writes in *. by rewrite G4, H4, fold_left_app.
  - by rewrite G5, H5, map_app, app_assoc.
Qed.

Lemma stores_one n v s s' : stored n v s s' -> stores [(n, v)] s s'.
Proof.
  intros (G1 & G2 & G3 & G4 & G5 & G6). split_and!; try done. intros m. rewrite G3. cbn.
  case_decide as Hm.
  - rewrite bool_decide_true by (subst; left). by rewrite andb_false_r.
  - rewrite bool_decide_false by set_solver. by rewrite andb_true_r.
Qed.

Lemma lhead_cache s bs b : lhead s bs -> lhead (set_bcache b s) bs.
Proof. by intros []. Qed.

Lemma hdr_ok_nil start : hdr_ok start [].
Proof. split_and!; [constructor|unfold LOGSIZE; cbn; lia|constructor]. Qed.

Lemma lhead_clear s bs : lhead s bs -> lhead (set_lh (Logheader 0 (lh_block (lh s))) s) [].
Proof. intros []. constructor; try done. apply hdr_ok_nil. Qed.

Lemma log_writes_nodup start vs : NoDup (map fst (log_writes start vs)).
Proof.
  apply NoDup_alt. intros i j x. change (map ?g ?l) with (g <$> l). unfold log_writes.
  rewrite !list_lookup_fmap, !list_lookup_imap.
  destruct (vs !! i), (vs !! j); cbn; try done. intros [= <-] [= Hx]. lia.
Qed.

(** The log blocks after [write_log] and [write_head]. *)
Lemma over_log_writes start old bs vs f k v :
  vs !! k = Some v ->
  over (log_writes start vs ++ [(start, hdr_block old bs)]) f (start + Z.of_nat k + 1) = v.
Proof.
  intros Hk. rewrite over_snoc, decide_False by lia. apply over_in; [apply log_writes_nodup|].
  by eapply list_elem_of_lookup_2, lookup_log_writes.
Qed.

Lemma rec_home start f bs vs :
  length vs = length bs -> (forall k v, vs !! k = Some v -> f (start + Z.of_nat k + 1) = v) ->
  rec_writes start f bs = home_writes bs vs.
Proof.
  intros Hl Hf. apply list_eq. intros k. unfold rec_writes, home_writes.
  rewrite list_lookup_imap, lookup_zip_with. destruct (bs !! k) as [c|] eqn:Hc; [|done]. cbn.
  destruct (lookup_lt_is_Some_2 vs k) as [v Hv]; [rewrite Hl; by eapply lookup_lt_Some|].
  rewrite Hv. cbn. by rewrite (Hf k v Hv).
Qed.

Lemma home_dst bs vs : length vs = length bs -> map fst (home_writes bs vs) = bs.
Proof. intros Hl. unfold home_writes. apply (fst_zip bs vs). lia. Qed.

(** What a commit does, write by write. *)
Lemma commit_runs s bs :
  lok s bs -> bs <> [] ->
  runs commit s (fun _ s' => exists b', s' = set_bcache b' (set_lh (Logheader 0 (lh_block (lh s))) s) /\
    stores (commit_writes (l_start s) (look (bcache s) (l_start s)) bs (map (look (bcache s)) bs)) (bcache s) b').
Proof.
  intros Hlok Hne. assert (Hh := lok_lhead _ _ Hlok). assert (Hok := lok_cache _ _ Hlok).
  assert (Hpin := lok_pinned _ _ Hlok). destruct (lok_bs _ _ Hlok) as (Hnd & Hlt & Hrng).
  set (start := l_start s) in *. set (b := bcache s) in *. set (vs := map (look b) bs).
  assert (Hlv : length vs = length bs) by apply length_map.
  assert (HltN : (length bs < NBUF)%nat) by (unfold NBUF, LOGSIZE in *; lia).
  assert (Hhome : forall c, c ∈ bs -> start + Z.of_nat LOGSIZE <= c).
  { intros c Hc. rewrite Forall_forall in Hrng. by apply Hrng. }
  assert (Hlog : forall m, m ∈ map fst (log_writes start vs) -> start < m < start + Z.of_nat LOGSIZE).
  { intros m Hm%log_writes_dst. lia. }
  unfold commit. apply runs_gets. rewrite (lok_n _ _ Hlok).
  rewrite (proj2 (Z.ltb_lt _ _)) by (destruct bs; [done|cbn; lia]). cbn [when].
  apply runs_bind. eapply runs_mono; [by apply (write_log_runs s bs)|]. intros [] s1 (b1 & -> & Hst1).
  fold vs b start in Hst1. assert (Hs1 := Hst1). destruct Hs1 as (Hok1 & Hlk1 & Hpn1 & _).
  apply runs_bind. eapply runs_mono;
    [apply (write_head_runs (set_bcache b1 s) bs bs (lhead_cache _ _ _ Hh) (lok_n _ _ Hlok) Hok1)|].
  { cbn. intros m. rewrite Hpn1, Hpin. intros [Hm _]%andb_true_iff. by apply bool_decide_eq_true in Hm. }
  { done. }
  { cbn. rewrite Hpn1, Hpin, bool_decide_false; [done|]. intros Hx%Hhome. unfold LOGSIZE in *. fold start in Hx. lia. }
  intros [] s2 (b2 & -> & Hst2). cbn [bcache l_start set_bcache] in Hst2. fold start in Hst2.
  rewrite Hlk1, over_out in Hst2 by (intros Hx%Hlog; lia).
  assert (Hst12 := stores_snoc _ _ _ _ _ _ Hst1 Hst2). assert (Hs2 := Hst12).
  destruct Hs2 as (Hok2 & Hlk2 & Hpn2 & _).
  apply runs_bind. eapply runs_mono;
    [apply (install_trans_runs (set_bcache b2 s) bs bs (lhead_cache _ _ _ Hh) Hok2)|].
  { cbn. intros m. rewrite Hpn2, Hpin. intros [Hm _]%andb_true_iff. by apply bool_decide_eq_true in Hm. }
  { done. }
  { left. cbn. intros c Hc. rewrite Hpn2, Hpin, bool_decide_true by done. rewrite bool_decide_false; [done|].
    rewrite map_app. apply Hhome in Hc. intros [Hx%Hlog| ->%list_elem_of_singleton]%elem_of_app.
    - lia.
    - cbn in Hc. unfold LOGSIZE in Hc. lia. }
  intros [] s3 (b3 & -> & Hst3). cbn [bcache l_start set_bcache] in Hst3. fold start in Hst3.
  rewrite (rec_home start (look b2) bs vs Hlv) in Hst3
    by (intros k v Hk; rewrite Hlk2; by apply over_log_writes).
  assert (Hst123 := stores_app _ _ _ _ _ Hst12 Hst3). assert (Hs3 := Hst123).
  destruct Hs3 as (Hok3 & Hlk3 & Hpn3 & _).
  assert (Hpn3' : forall m, pinned b3 m = false).
  { intros m. rewrite Hpn3, Hpin, !map_app, home_dst by done. destruct (decide (m ∈ bs)) as [Hm|Hm].
    - rewrite (bool_decide_true (m ∈ _ ++ _)); [by rewrite andb_false_r|set_solver].
    - by rewrite bool_decide_false. }
  apply runs_bind. eapply runs_Ok; [done|].
  eapply runs_mono; [apply (write_head_runs _ [] [] (lhead_clear (set_bcache b3 s) bs (lhead_cache _ _ _ Hh)) eq_refl Hok3)|].
  { cbn. intros m. by rewrite Hpn3'. }
  { unfold NBUF. cbn. lia. }
  { cbn. apply Hpn3'. }
  cbn [bcache l_start set_bcache set_lh]. fold start.
  intros [] s4 (b4 & -> & Hst4). exists b4. split; [done|]. unfold commit_writes.
  rewrite Hlk3, over_app, over_out, over_snoc, decide_True in Hst4 by
    (try done; rewrite home_dst by done; intros Hx%Hhome; unfold LOGSIZE in Hx; lia).
  rewrite !app_assoc, <- (app_assoc (log_writes _ _)).
  rewrite app_assoc. by eapply stores_snoc.
Qed.

(** ** Recovery *)

(** The blocks of the file system as recovery will leave them, if [f] is the
    disk. *)
Definition recovered (start : Z) (f : Z -> list Z) (m : Z) : list Z :=
  over (rec_writes start f (decode (f start))) f m.
Definition recovery_writes (start : Z) (f : Z -> list Z) : list (Z * list Z) :=
  rec_writes start f (decode (f start)) ++ [(start, hdr_block (f start) [])].

Lemma decode_empty d : length d = BSIZE -> decode (hdr_block d []) = [].
Proof. intros Hd. apply decode_hdr; [done|cbn; lia|constructor]. Qed.

Lemma set_lh_block_eq i v s :
  (i < length (lh_block (lh s)))%nat ->
  set_lh_block i v s = Ok ((), set_lh (Logheader (lh_n (lh s)) (<[i := v]> (lh_block (lh s)))) s).
Proof.
  intros Hi. destruct (lookup_lt_is_Some_2 _ _ Hi) as [w Hw]. unfold set_lh_block.
  by rewrite (bind_Ok _ _ _ _ _ (get_lh_block_eq i w s Hw)).
Qed.

Lemma read_head_runs s :
  lhead s [] -> bok (bcache s) [] -> (forall m, pinned (bcache s) m = false) ->
  hdr_ok (l_start s) (decode (look (bcache s) (l_start s))) ->
  runs read_head s (fun _ s' => exists b' h, s' = set_bcache b' (set_lh h s) /\
    same_blocks (bcache s) b' /\ bok b' [] /\ lhead s' (decode (look (bcache s) (l_start s)))).
Proof.
  intros Hh Hok Hpin Hhdr. set (d := look (bcache s) (l_start s)) in *. set (bs := decode d) in *.
  unfold read_head. apply (bread_head s [] [] _ _ Hh Hok); [by intros m; rewrite Hpin|unfold NBUF; cbn; lia|done|].
  intros i b1 Hok1 Hsame Hb1. fold d in Hb1.
  apply runs_bind, runs_bio. eapply runs_Ok; [by apply getbuf_eq|]. cbn [data mine].
  set (n := s32 (rd32 d 0)). assert (Hlb : length bs = Z.to_nat n) by (unfold bs, decode; by rewrite length_map, length_seq).
  assert (Hl30 : (Z.to_nat n < LOGSIZE)%nat) by (destruct Hhdr as (_ & ? & _); lia).
  apply runs_bind. eapply runs_Ok; [done|]. cbn [lh set_bcache].
  set (st blk := set_bcache b1 (set_lh (Logheader n blk) s)).
  apply runs_bind. eapply runs_mono; [apply (runs_for (fun j t => exists blk, t = st blk /\
    length blk = LOGSIZE /\ take j blk = take j bs))|].
  - exists (lh_block (lh s)). split_and!; [by destruct s|apply Hh|done].
  - intros j t Hj (blk & -> & Hlen & Htk).
    assert (Hjb : bs !! j = Some (s32 (rd32 d (4 + 4 * j)))).
    { unfold bs, decode. change (map ?g ?l) with (g <$> l). rewrite list_lookup_fmap, lookup_seq_lt by lia. done. }
    eapply runs_Ok; [apply set_lh_block_eq; cbn; lia|]. cbn [lh lh_n lh_block st set_bcache set_lh].
    eexists. split_and!; [done|by rewrite length_insert|].
    rewrite (take_S_r bs j _ Hjb), <- Htk.
    erewrite take_S_r by (apply list_lookup_insert_eq; lia). by rewrite take_insert_ge by lia.
  - intros [] t (blk & -> & Hlen & Htk). rewrite Nat.add_0_l, <- Hlb, firstn_all in Htk.
    apply runs_bio. cbn [bcache st set_bcache].
    destruct (locked_range _ _ Hok1 i 2 _ d Hb1) as (_ & _ & Hld).
    eapply runs_mono; [apply (brelse_runs b1 [] i 2 _ d Hok1 Hb1)|].
    { right. destruct Hsame as (_ & _ & -> & _). apply (look_clean _ [] _ Hok); [done|set_solver]. }
    intros [] b2 (Hok2 & Hsame2 & _). exists b2, (Logheader n blk).
    split_and!; [done|by eapply same_blocks_trans|done|].
    destruct Hh. constructor; try done.
Qed.

Lemma recover_runs s :
  lhead s [] -> bok (bcache s) [] -> (forall m, pinned (bcache s) m = false) ->
  hdr_ok (l_start s) (decode (look (bcache s) (l_start s))) ->
  runs recover_from_log s (fun _ s' => exists b' h, s' = set_bcache b' (set_lh h s) /\
    lhead s' [] /\ lh_n (lh s') = 0 /\ stores (recovery_writes (l_start s) (look (bcache s))) (bcache s) b').
Proof.
  intros Hh Hok Hpin Hhdr. unfold recover_from_log, recovery_writes.
  set (bs := decode (look (bcache s) (l_start s))) in *.
  assert (Hhome : forall c, c ∈ bs -> l_start s + Z.of_nat LOGSIZE <= c).
  { intros c Hc. destruct Hhdr as (_ & _ & Hr). rewrite Forall_forall in Hr. by apply Hr. }
  apply runs_bind. eapply runs_mono; [by apply read_head_runs|].
  intros [] s1 (b1 & h & -> & Hsame & Hok1 & Hh1). assert (Hs1 := Hsame). destruct Hs1 as (Hlk & Hpn & Hdk & Hwl & Hpid).
  apply runs_bind. eapply runs_mono; [apply (install_trans_runs _ bs [] Hh1)|].
  { done. }
  { cbn. intros m. by rewrite Hpn, Hpin. }
  { unfold NBUF. cbn. lia. }
  { right. unfold NBUF. cbn. lia. }
  intros [] s2 (b2 & -> & Hst). cbn [bcache l_start set_bcache set_lh] in Hst.
  assert (Hst' : stores (rec_writes (l_start s) (look (bcache s)) bs) (bcache s) b2).
  { replace (rec_writes (l_start s) (look b1) bs) with (rec_writes (l_start s) (look (bcache s)) bs) in Hst.
    - destruct Hst as (H1 & H2 & H3 & H4 & H5 & H6).
      split_and!; [done| | | | |congruence]; [| |by rewrite H4, Hdk|by rewrite H5, Hwl].
      + intros m. rewrite H2. apply over_ext. by rewrite Hlk.
      + intros m. by rewrite H3, Hpn.
    - unfold rec_writes. apply imap_ext. intros k c _. by rewrite Hlk. }
  assert (Hst2 := Hst'). destruct Hst2 as (Hok2 & Hlk2 & Hpn2 & _).
  apply runs_bind. eapply runs_Ok; [done|]. cbn [lh lh_block set_lh set_bcache].
  assert (Hh2 := lhead_clear _ _ (lhead_cache _ _ b2 Hh1)). cbn [lh lh_block set_lh set_bcache] in Hh2.
  eapply runs_mono; [apply (write_head_runs _ [] [] Hh2 eq_refl Hok2)|].
  { cbn. intros m. by rewrite Hpn2, Hpin. }
  { unfold NBUF. cbn. lia. }
  { cbn. by rewrite Hpn2, Hpin. }
  cbn [bcache l_start set_bcache set_lh lh lh_block].
  intros [] s3 (b3 & -> & Hst3). exists b3, (Logheader 0 (lh_block h)).
  rewrite Hlk2, over_out in Hst3 by
    (rewrite rec_writes_dst; intros Hx%Hhome; unfold LOGSIZE in Hx; lia).
  split_and!; [done|by apply (lhead_cache _ _ b3) in Hh2|done|by eapply stores_snoc].
Qed.

(** ** Crashes *)

Section header.
Context (start : Z) (Hat : log_at start) (bs : list Z) (Hbs : hdr_ok start bs).

Lemma hdr_home c : c ∈ bs -> start + Z.of_nat LOGSIZE <= c.
Proof. intros Hc. destruct Hbs as (_ & _ & Hr). rewrite Forall_forall in Hr. by apply Hr. Qed.

Lemma start_not_home : start ∉ bs.
Proof. intros Hx%hdr_home. unfold LOGSIZE in Hx. lia. Qed.

Lemma logblock_not_home k : (k < length bs)%nat -> start + Z.of_nat k + 1 ∉ bs.
Proof. intros Hk Hx%hdr_home. destruct Hbs as (_ & ? & _). lia. Qed.

Lemma decode_bs d : length d = BSIZE -> decode (hdr_block d bs) = bs.
Proof.
  intros Hd. destruct Hbs as (_ & Hl & Hr). apply decode_hdr; [done|lia|].
  eapply Forall_impl; [exact Hr|]. cbn. intros m. unfold log_at, FSSIZE in *. lia.
Qed.
End header.

Section crash.
Context (start : Z) (f : Z -> list Z).
Hypothesis Hat : log_at start.
Hypothesis Hlen : length (f start) = BSIZE.

Lemma recovered_empty m : decode (f start) = [] -> recovered start f m = f m.
Proof. intros Hd. unfold recovered. by rewrite Hd. Qed.

Context (bs : list Z) (Hbs : hdr_ok start bs).

(** Writing the same blocks again changes nothing. *)
Lemma over_again ws g m :
  map fst ws = bs -> (m ∉ bs -> g m = f m) -> over ws g m = over ws f m.
Proof.
  intros Hws Hg. destruct (decide (m ∈ bs)) as [Hm|Hm].
  - rewrite <- Hws in Hm. apply list_elem_of_fmap in Hm as ([n v] & -> & Hin).
    rewrite !(over_in ws _ n v); try done; rewrite Hws; apply Hbs.
  - rewrite !over_out by by rewrite Hws. auto.
Qed.

(** A crash during recovery: recovering again gives the same blocks. *)
Lemma recovery_crash k m :
  decode (f start) = bs -> ~ in_log start m ->
  recovered start (over (take k (recovery_writes start f)) f) m = recovered start f m.
Proof.
  intros Hdec Hm. unfold recovery_writes. rewrite Hdec. set (rw := rec_writes start f bs).
  assert (Hfst : map fst rw = bs) by apply rec_writes_dst.
  assert (Hlr : length rw = length bs) by (unfold rw, rec_writes; apply length_imap).
  assert (Hrec : recovered start f m = over rw f m) by (unfold recovered; by rewrite Hdec).
  rewrite Hrec. destruct (decide (k <= length bs)%nat) as [Hk|Hk].
  - rewrite take_app_le by lia. set (g := over (take k rw) f).
    assert (Hg : forall n, n ∉ bs -> g n = f n).
    { intros n Hn. apply over_out. intros Hx%elem_of_take_map. by rewrite Hfst in Hx. }
    unfold recovered. rewrite (Hg start (start_not_home start bs Hbs)), Hdec.
    assert (Hsame : rec_writes start g bs = rw).
    { unfold rw, rec_writes. apply imap_ext. intros j c Hj. cbn. f_equal. apply Hg, (logblock_not_home start bs Hbs).
      by eapply lookup_lt_Some. }
    rewrite Hsame. apply over_again; [done|apply Hg].
  - rewrite take_ge by (rewrite length_app; cbn; lia). set (g := over _ f).
    assert (Hgs : g start = hdr_block (f start) []) by (unfold g; by rewrite over_snoc, decide_True).
    unfold recovered. rewrite Hgs, decode_empty by done. cbn. unfold g.
    rewrite over_snoc, decide_False; [done|]. intros ->. apply Hm. unfold in_log, LOGSIZE. lia.
Qed.

(** A crash during a commit: before the header is written recovery gives the
    old blocks, afterwards the new ones. *)
Lemma commit_crash vs k m :
  decode (f start) = [] -> length vs = length bs -> ~ in_log start m ->
  recovered start (over (take k (commit_writes start (f start) bs vs)) f) m =
  if decide (k <= length bs)%nat then f m else over (home_writes bs vs) f m.
Proof.
  intros Hdec Hlv Hm. set (old := f start) in *.
  assert (Hll : length (log_writes start vs) = length bs) by (unfold log_writes; by rewrite length_imap).
  assert (Hlh : length (home_writes bs vs) = length bs) by (unfold home_writes; rewrite length_zip; lia).
  assert (Hlog : forall n, n ∈ map fst (log_writes start vs) -> in_log start n /\ n <> start).
  { intros n Hn%log_writes_dst. destruct Hbs as (_ & ? & _). unfold in_log. lia. }
  assert (Hms : m <> start) by (intros ->; apply Hm; unfold in_log, LOGSIZE; lia).
  assert (Hfst := home_dst bs vs Hlv).
  unfold commit_writes. case_decide as Hk.
  - rewrite take_app_le by lia. set (g := over _ f).
    assert (Hg : forall n, n ∉ map fst (log_writes start vs) -> g n = f n).
    { intros n Hn. apply over_out. by intros Hx%elem_of_take_map. }
    unfold recovered. rewrite (Hg start) by (intros Hx%Hlog; tauto). fold old. rewrite Hdec. cbn.
    apply Hg. intros Hx%Hlog. tauto.
  - rewrite take_app_ge by lia. rewrite Hll. destruct (k - length bs)%nat as [|j] eqn:Hj; [lia|].
    cbn [app take].
    destruct (decide (j <= length bs)%nat) as [Hjn|Hjn].
    + rewrite take_app_le by lia. rewrite (app_assoc _ [_] _ : _ ++ _ :: _ = _). set (g := over _ f).
      assert (Hg : forall n, n ∉ bs -> g n = over (log_writes start vs ++ [(start, hdr_block old bs)]) f n).
      { intros n Hn. unfold g. rewrite over_app. apply over_out. intros Hx%elem_of_take_map.
        by rewrite Hfst in Hx. }
      unfold recovered. rewrite (Hg start (start_not_home start bs Hbs)), over_snoc, decide_True, (decode_bs start Hat bs Hbs) by done.
      rewrite (rec_home start g bs vs Hlv).
      * apply over_again; [done|]. intros Hmb. rewrite (Hg m Hmb), over_snoc, decide_False by done.
        apply over_out. intros Hx%Hlog. tauto.
      * intros i v Hv. rewrite Hg; [by apply over_log_writes|]. apply (logblock_not_home start bs Hbs).
        rewrite <- Hlv. by eapply lookup_lt_Some.
    + rewrite take_ge by (rewrite length_app; cbn; lia).
      rewrite (app_assoc _ [_] _ : _ ++ _ :: _ = _), app_assoc. set (g := over _ f).
      assert (Hhl : length (hdr_block old bs) = BSIZE) by (apply hdr_length; [done|destruct Hbs as (_ & ? & _); lia]).
      unfold recovered, g. rewrite !over_snoc, decide_True, decode_empty by done. cbn.
      rewrite over_snoc, decide_False by done. rewrite over_app.
      apply over_again; [done|]. intros _. rewrite over_snoc, decide_False by done.
      apply over_out. intros Hx%Hlog. tauto.
Qed.
End crash.

(** ** Transactions *)

(** The use of [log_write] its comment describes. *)
Definition log_update (n : Z) (v : list Z) : L () :=
  bp ← bio (bread 1 n);
  bio (updbuf bp (set_data v));;
  log_write bp;;
  bio (brelse bp).
Fixpoint log_updates (us : list (Z * list Z)) : L () :=
  match us with
  | [] => ret ()
  | u :: us => log_update (fst u) (snd u);; log_updates us
  end.

Lemma absorb_spec n bs : forall blk,
  take (length bs) blk = bs -> Forall (fun b => 0 <= b < FSSIZE) bs -> 0 <= n ->
  (n ∈ bs /\ bs !! absorb blk (length bs) n = Some n) \/
  ((n ∉ bs) /\ absorb blk (length bs) n = length bs).
Proof.
  induction bs as [|b bs IH]; intros blk Htk Hr Hn; [right; split; [set_solver|by destruct blk]|].
  destruct blk as [|b' blk]; [done|]. cbn in Htk. injection Htk as -> Htk.
  apply Forall_cons in Hr as [Hb Hr]. cbn [absorb length]. rewrite small_u32 by done.
  destruct (Z.eqb_spec b n) as [->|Hbn].
  - left. split; [by left|done].
  - destruct (IH blk Htk Hr Hn) as [[Hin Hl]|[Hin Hl]]; [left|right]; (split; [set_solver|]); cbn; [done|by rewrite Hl].
Qed.

Lemma hdr_ok_logged start bs n :
  hdr_ok start bs -> (length bs < LOGSIZE - 1)%nat -> start + Z.of_nat LOGSIZE <= n < FSSIZE ->
  hdr_ok start (logged bs n).
Proof.
  intros (Hnd & Hl & Hr) Hl' Hn. unfold logged. case_decide as Hin; [done|]. split_and!.
  - apply NoDup_app. split_and!; [done|set_solver|apply NoDup_singleton].
  - rewrite length_app. cbn. lia.
  - apply Forall_app. split; [done|]. by apply Forall_singleton.
Qed.

(** [log_write] adds the block to the in-memory header, once, and pins it. *)
Lemma log_write_eq s bs i x :
  lhead s bs -> lh_n (lh s) = Z.of_nat (length bs) -> l_size s = Z.of_nat LOGSIZE -> 1 <= l_outstanding s ->
  (length bs < LOGSIZE - 1)%nat -> bufs (bcache s) !! i = Some x ->
  l_start s + Z.of_nat LOGSIZE <= blockno x < FSSIZE ->
  exists h, log_write i s = Ok ((), set_bcache (with_buf (bcache s) i
      (set_flags (Z.lor (flags x) B_DIRTY) x)) (set_lh h s)) /\
    lhead (set_lh h s) (logged bs (blockno x)) /\ lh_n h = Z.of_nat (length (logged bs (blockno x))).
Proof.
  intros Hh Hn Hsz Ho Hl Hx Hr. destruct (lhead_at _ _ Hh) as [Hst1 Hst2].
  assert (Hbs : Forall (fun b => 0 <= b < FSSIZE) bs).
  { destruct (lhead_bs _ _ Hh) as (_ & _ & Hf). eapply Forall_impl; [exact Hf|]. cbn. lia. }
  assert (Ha := absorb_spec (blockno x) bs _ (lhead_block _ _ Hh) Hbs ltac:(lia)).
  set (j := absorb (lh_block (lh s)) (length bs) (blockno x)) in *.
  assert (Hj : (j < length (lh_block (lh s)))%nat).
  { rewrite (lhead_array _ _ Hh). destruct Ha as [[_ Hjl%lookup_lt_Some]|[_ ->]]; lia. }
  assert (Hs32 : s32 (blockno x) = blockno x) by (apply s32_small; unfold FSSIZE in *; lia).
  set (n' := if Z.of_nat j =? Z.of_nat (length bs) then Z.of_nat (length bs) + 1 else Z.of_nat (length bs)).
  exists (Logheader n' (<[j := blockno x]> (lh_block (lh s)))). split; [|].
  - unfold log_write. change (bind (gets lh) ?k s) with (k (lh s) s). cbn beta.
    change (bind (gets l_size) ?k s) with (k (l_size s) s). cbn beta. rewrite Hn, Hsz.
    rewrite (proj2 (Z.leb_gt _ _)) by lia. cbn [orb]. rewrite (proj2 (Z.leb_gt _ _)) by (unfold LOGSIZE in *; lia).
    change (bind (gets l_outstanding) ?k s) with (k (l_outstanding s) s). cbn beta.
    rewrite (proj2 (Z.ltb_ge _ _)) by lia.
    assert (Hg : bio (getbuf i) s = Ok (x, s)).
    { unfold bio, zoom. rewrite (getbuf_eq i x _ Hx). by destruct s. }
    rewrite (bind_Ok _ _ _ _ _ Hg). rewrite Nat2Z.id. fold j. rewrite Hs32.
    rewrite (bind_Ok _ _ _ _ _ (set_lh_block_eq j _ s Hj)), Hn.
    unfold when, n'. destruct (Z.of_nat j =? Z.of_nat (length bs)).
    all: erewrite bind_Ok by done; unfold bio, zoom; cbn; by rewrite (updbuf_eq i _ x _ Hx).
  - destruct Hh as [H1 H2 H3 H4 H5 H6]. unfold n', logged.
    assert (Hlg := hdr_ok_logged _ _ _ H6 Hl Hr). unfold logged in Hlg.
    destruct Ha as [[Hin Hjb]|[Hin Hjb]].
    + rewrite decide_True in * by done. assert (Hjl := lookup_lt_Some _ _ _ Hjb).
      rewrite (proj2 (Z.eqb_neq _ _)) by lia. split; [|done]. constructor; cbn; try done; [lia| |by rewrite length_insert].
      rewrite list_insert_id; [done|]. rewrite <- H4 in Hjb at 1. rewrite lookup_take_Some in Hjb. tauto.
    + rewrite decide_False in * by done. rewrite Hjb, Z.eqb_refl. rewrite length_app. cbn [length].
      split; [|cbn; lia]. constructor; cbn; try done; [rewrite length_app; cbn; lia| |by rewrite length_insert].
      rewrite length_app. cbn [length]. rewrite Nat.add_1_r.
      erewrite take_S_r by (apply list_lookup_insert_eq; lia). by rewrite take_insert_ge, H4 by lia.
Qed.

(** A transaction has changed the blocks by [us], in the cache only. *)
Definition in_tx (s0 s : lst) (us : list (Z * list Z)) : Prop :=
  (forall m, look (bcache s) m = over us (look (bcache s0)) m) /\
  disk (bcache s) = disk (bcache s0) /\ wlog (bcache s) = wlog (bcache s0) /\
  l_start s = l_start s0 /\ l_outstanding s = l_outstanding s0 /\ l_committing s = l_committing s0.

Definition home_update (start : Z) (u : Z * list Z) : Prop :=
  start + Z.of_nat LOGSIZE <= fst u < FSSIZE /\ length (snd u) = BSIZE.

Lemma log_update_runs s0 s us bs n v :
  lok s bs -> in_tx s0 s us -> 1 <= l_outstanding s -> (length bs < LOGSIZE - 1)%nat ->
  home_update (l_start s) (n, v) ->
  runs (log_update n v) s (fun _ s' => lok s' (logged bs n) /\ in_tx s0 s' (us ++ [(n, v)])).
Proof.
  intros Hlok (T1 & T2 & T3 & T4 & T5 & T6) Ho Hl [Hn Hv]. cbn in Hn, Hv.
  assert (Hok := lok_cache _ _ Hlok). assert (Hpin := lok_pinned _ _ Hlok).
  destruct (lok_at _ _ Hlok) as [Hst1 Hst2].
  unfold log_update. apply runs_bind, runs_bio. eapply runs_mono.
  { apply (bread_runs _ [] n Hok); [lia|set_solver|]. left. apply (room_count _ [] bs Hok).
    - intros m. rewrite Hpin. by intros ?%bool_decide_eq_true.
    - unfold NBUF, LOGSIZE in *. cbn. lia. }
  intros i b1 (_ & Hok1 & (S1 & S2 & S3 & S4 & S5) & Hbi & _).
  set (fl := if pinned (bcache s) n then 6 else 2) in *.
  assert (Hbi1 : bufs b1 !! i = Some (mine b1 fl n (look (bcache s) n))) by (rewrite Hbi; unfold mine; by rewrite S5).
  assert (Hlt := lookup_lt_Some _ _ _ Hbi1). assert (Hin : i ∈ [i]) by left.
  apply runs_bind, runs_bio. eapply runs_Ok; [by apply (updbuf_data b1 i fl n _ Hbi1)|]. cbn [set_bcache].
  set (b2 := with_buf b1 i (mine b1 fl n v)).
  assert (Hb2 : bufs b2 !! i = Some (mine b1 fl n v)) by by apply list_lookup_insert_eq.
  destruct (log_write_eq (set_bcache b2 s) bs i (mine b1 fl n v)) as (h & Hw & Hh & Hhn).
  { by apply lhead_cache, lok_lhead. }
  { apply Hlok. } { apply Hlok. } { done. } { done. } { done. } { done. }
  apply runs_bind. eapply runs_Ok; [exact Hw|]. cbn [blockno mine] in Hh, Hhn.
  assert (Hset : set_flags (Z.lor fl B_DIRTY) (mine b1 fl n v) = mine b1 6 n v).
  { unfold set_flags, mine. cbn. unfold fl. by destruct (pinned (bcache s) n). }
  cbn [flags mine]. fold (mine b1 fl n v). rewrite Hset. cbn [bcache set_bcache].
  set (b3 := with_buf b2 i (mine b1 6 n v)).
  assert (Hb3 : b3 = with_buf b1 i (mine b1 6 n v)).
  { unfold b3, b2, with_buf. cbn. by rewrite list_insert_insert_eq. }
  destruct (locked_update b1 _ Hok1 i fl n _ Hin Hbi1 6 v (or_intror eq_refl) Hv) as (Hok3 & Hlk3 & Hpn3).
  cbn zeta in Hok3, Hlk3, Hpn3. rewrite <- Hb3 in Hok3, Hlk3, Hpn3.
  apply runs_bio. eapply runs_mono; [apply (brelse_runs b3 [] i 6 n v Hok3)|].
  { unfold b3, b2. cbn. apply list_lookup_insert_eq. by rewrite length_insert. }
  { by left. }
  intros [] b4 (Hok4 & (R1 & R2 & R3 & R4 & R5) & _).
  assert (Hp4 : forall m, pinned b4 m = bool_decide (m ∈ logged bs n)).
  { intros m. rewrite R2, Hpn3, S2, Hpin. unfold logged. case_decide as Hm.
    - subst. symmetry. apply bool_decide_true. case_decide; set_solver.
    - apply bool_decide_ext. case_decide; set_solver. }
  split.
  - destruct Hh as [H1 H2 H3 H4 H5 H6]. constructor; try done; [apply Hlok|].
    cbn. rewrite R3. cbn. rewrite S3. apply (lok_empty _ _ Hlok).
  - split_and!; [|cbn; rewrite R3; cbn; congruence|cbn; rewrite R4; cbn; congruence|done..].
    intros m. cbn. rewrite R1, Hlk3, over_snoc, S1, T1. done.
Qed.

Lemma log_updates_runs s0 us : forall s done bs,
  lok s bs -> in_tx s0 s done -> 1 <= l_outstanding s -> (length bs + length us < LOGSIZE)%nat ->
  Forall (home_update (l_start s)) us ->
  runs (log_updates us) s (fun _ s' => exists bs', lok s' bs' /\ in_tx s0 s' (done ++ us)).
Proof.
  induction us as [|[n v] us IH]; intros s dn bs Hlok Htx Ho Hl Hus; cbn [log_updates].
  { exists bs. by rewrite app_nil_r. }
  apply Forall_cons in Hus as [Hu Hus]. cbn in Hl. apply runs_bind.
  eapply runs_mono; [apply (log_update_runs s0 s dn bs n v Hlok Htx Ho ltac:(lia) Hu)|].
  intros [] s1 [Hlok1 Htx1]. rewrite (cons_middle (n, v)), (app_assoc dn).
  assert (Hl1 := length_logged bs n).
  destruct Htx as (_ & _ & _ & T4 & T5 & _). destruct Htx1 as (U1 & U2 & U3 & U4 & U5 & U6).
  apply (IH s1 _ (logged bs n)); [done|done|lia|lia|]. by rewrite U4, <- T4.
Qed.

(** ** end_op *)

Definition tx_writes (s : lst) (bs : list Z) : list (Z * list Z) :=
  match bs with
  | [] => []
  | _ => commit_writes (l_start s) (look (bcache s) (l_start s)) bs (map (look (bcache s)) bs)
  end.

(** Nothing is pending: the cache agrees with the disk. *)
Lemma lok_clean s bs m : lok s bs -> m ∉ bs -> look (bcache s) m = on_disk (disk (bcache s)) m.
Proof.
  intros Hlok Hm. apply (look_clean _ [] m (lok_cache _ _ Hlok)); [|set_solver].
  rewrite (lok_pinned _ _ Hlok). by apply bool_decide_false.
Qed.

Lemma commit_ends_clean s bs b' h :
  lok s bs -> stores (commit_writes (l_start s) (look (bcache s) (l_start s)) bs (map (look (bcache s)) bs))
    (bcache s) b' -> lh_n h = 0 -> length (lh_block h) = LOGSIZE ->
  lok (set_bcache b' (set_lh h s)) [] /\
  forall m, ~ in_log (l_start s) m -> look b' m = look (bcache s) m.
Proof.
  intros Hlok (H1 & H2 & H3 & H4 & _) Hn Harr. set (start := l_start s) in *. set (vs := map _ bs) in *.
  assert (Hlv : length vs = length bs) by apply length_map.
  assert (Hbs := lok_bs _ _ Hlok). fold start in Hbs. assert (Hbs' := Hbs). destruct Hbs' as (_ & Hlt & _).
  assert (Hok := lok_cache _ _ Hlok).
  assert (Hns : start ∉ bs) by by apply (start_not_home _ _ Hbs).
  assert (Hold : length (look (bcache s) start) = BSIZE).
  { rewrite (lok_clean _ _ _ Hlok Hns). by eapply dread_length. }
  split.
  - destruct Hlok. constructor; try done.
    + apply hdr_ok_nil.
    + intros m. cbn. rewrite H3, lok_pinned0. unfold commit_writes. rewrite !map_app, home_dst by done.
      destruct (decide (m ∈ bs)).
      * rewrite (bool_decide_true (m ∈ _ ++ _)) by set_solver. by rewrite andb_false_r.
      * by rewrite (bool_decide_false (m ∈ bs)).
    + cbn. rewrite H4, on_disk_apply. fold start. unfold commit_writes.
      rewrite !app_assoc, over_snoc, decide_True by done. apply decode_empty, hdr_length; [done|lia].
  - intros m Hm. rewrite H2. unfold commit_writes.
    assert (Hms : m <> start) by (intros ->; apply Hm; unfold in_log, LOGSIZE; lia).
    rewrite !app_assoc, over_snoc, decide_False by done. rewrite over_app.
    destruct (decide (m ∈ bs)) as [Hin|Hin].
    + apply over_in; [rewrite home_dst by done; apply Hbs|].
      apply list_elem_of_lookup in Hin as [k Hk]. apply list_elem_of_lookup. exists k.
      unfold home_writes, vs. change (map ?g ?l) with (g <$> l). by rewrite lookup_zip_with, list_lookup_fmap, Hk.
    + rewrite over_out by by rewrite home_dst. rewrite over_snoc, decide_False by done.
      apply over_out. intros Hx%log_writes_dst. apply Hm. unfold in_log. lia.
Qed.

Lemma end_op_runs s bs :
  lok s bs -> l_outstanding s = 1 -> l_committing s = 0 ->
  runs end_op s (fun _ s' => lok s' [] /\ l_start s' = l_start s /\ l_outstanding s' = 0 /\ l_committing s' = 0 /\
    disk (bcache s') = apply_writes (tx_writes s bs) (disk (bcache s)) /\
    wlog (bcache s') = wlog (bcache s) ++ map (fun w => ((1, fst w), snd w)) (tx_writes s bs) /\
    forall m, ~ in_log (l_start s) m -> look (bcache s') m = look (bcache s) m).
Proof.
  intros Hlok Ho Hc. unfold end_op. apply runs_gets. rewrite Ho.
  apply runs_bind. eapply runs_Ok; [done|]. apply runs_gets. cbn [l_committing set_outstanding].
  rewrite Hc. cbn [negb Z.eqb Z.sub Z.add Z.opp].
  change (runs (modify (set_committing 1);; commit;; modify (set_committing 0)) (set_outstanding 0 s)
    (fun _ s' => lok s' [] /\ l_start s' = l_start s /\ l_outstanding s' = 0 /\ l_committing s' = 0 /\
    disk (bcache s') = apply_writes (tx_writes s bs) (disk (bcache s)) /\
    wlog (bcache s') = wlog (bcache s) ++ map (fun w => ((1, fst w), snd w)) (tx_writes s bs) /\
    forall m, ~ in_log (l_start s) m -> look (bcache s') m = look (bcache s) m)).
  apply runs_bind. eapply runs_Ok; [done|].
  set (s1 := set_committing 1 (set_outstanding 0 s)).
  assert (Hlok1 : lok s1 bs) by by destruct Hlok.
  destruct (decide (bs = [])) as [->|Hne].
  - apply runs_bind. eapply runs_Ok.
    { unfold commit. change (bind (gets lh) ?k s1) with (k (lh s1) s1). cbn beta. by rewrite (lok_n _ _ Hlok1). }
    eapply runs_Ok; [done|]. cbn. rewrite app_nil_r. split_and!; try done. by destruct Hlok.
  - apply runs_bind. eapply runs_mono; [by apply (commit_runs s1 bs)|]. intros [] s2 (b' & -> & Hst).
    eapply runs_Ok; [done|].
    destruct (commit_ends_clean s1 bs b' (Logheader 0 (lh_block (lh s))) Hlok1 Hst eq_refl) as [Hl2 Hlk2];
      [apply Hlok|].
    assert (Htw : tx_writes s bs = commit_writes (l_start s) (look (bcache s) (l_start s)) bs (map (look (bcache s)) bs))
      by by destruct bs.
    rewrite Htw. destruct Hst as (_ & _ & _ & Hdk & Hwl & _). split_and!; [by destruct Hl2|done..|exact Hlk2].
Qed.

(** ** Boot *)

Definition boot_lst (dk : gmap blockid (list Z)) (pid : Z) : lst :=
  Lst 0 0 0 0 0 (Logheader 0 (replicate LOGSIZE 0)) (boot_bst dk pid).
Definition boot : L () := bio binit;; initlog 1.

(** A disk with the layout [mkfs] makes and a log that can be read. *)
Record fs_disk (start : Z) (dk : gmap blockid (list Z)) : Prop := FsDisk {
  fs_at : log_at start;
  fs_len : forall k v, dk !! k = Some v -> length v = BSIZE;
  fs_logstart : sb_logstart (decode_sb (on_disk dk 1)) = start;
  fs_nlog : sb_nlog (decode_sb (on_disk dk 1)) = Z.of_nat LOGSIZE;
  fs_hdr : hdr_ok start (decode (on_disk dk start))
}.

Lemma on_disk_length dk m : (forall k v, dk !! k = Some v -> length v = BSIZE) -> length (on_disk dk m) = BSIZE.
Proof.
  intros Hlen. unfold on_disk, dread. destruct (dk !! _) as [v|] eqn:Hv; [by apply (Hlen _ _ Hv)|].
  apply length_replicate.
Qed.

Lemma readsb_runs s :
  bok (bcache s) [] -> (forall m, pinned (bcache s) m = false) ->
  runs (readsb 1) s (fun sb s' => exists b', s' = set_bcache b' s /\ sb = decode_sb (look (bcache s) 1) /\
    bok b' [] /\ same_blocks (bcache s) b').
Proof.
  intros Hok Hpin. unfold readsb. rewrite (small_u32 1) by (unfold FSSIZE; lia).
  apply runs_bind, runs_bio. eapply runs_mono.
  { apply (bread_runs _ [] 1 Hok); [unfold FSSIZE; lia|set_solver|]. left.
    apply (room_count _ [] [] Hok); [intros m; by rewrite Hpin|unfold NBUF; cbn; lia]. }
  intros i b1 (_ & Hok1 & Hsame & Hbi & _). rewrite Hpin in Hbi.
  assert (Hbi1 : bufs b1 !! i = Some (mine b1 2 1 (look (bcache s) 1))).
  { rewrite Hbi. unfold mine. by destruct Hsame as (_ & _ & _ & _ & ->). }
  apply runs_bind, runs_bio. eapply runs_Ok; [by apply getbuf_eq|]. cbn [data mine].
  apply runs_bind, runs_bio. cbn [bcache set_bcache].
  eapply runs_mono; [apply (brelse_runs b1 [] i 2 1 _ Hok1 Hbi1)|].
  { right. destruct Hsame as (_ & _ & -> & _). apply (look_clean _ [] _ Hok); [done|set_solver]. }
  intros [] b2 (Hok2 & Hsame2 & _). exists b2. split_and!; [done|done|done|by eapply same_blocks_trans].
Qed.

(** [initlog] recovers: the log is empty again and every block outside of it is
    what the log and the disk together said. *)
Lemma initlog_runs start dk pid b0 :
  fs_disk start dk -> bok b0 [] -> disk b0 = dk -> (forall m, look b0 m = on_disk dk m) -> (forall m, pinned b0 m = false) ->
  runs (initlog 1) (set_bcache b0 (boot_lst dk pid)) (fun _ t => lok t [] /\ l_start t = start /\
    l_outstanding t = 0 /\ l_committing t = 0 /\
    disk (bcache t) = apply_writes (recovery_writes start (on_disk dk)) dk /\
    wlog (bcache t) = wlog b0 ++ map (fun w => ((1, fst w), snd w)) (recovery_writes start (on_disk dk)) /\
    forall m, ~ in_log start m -> look (bcache t) m = recovered start (on_disk dk) m).
Proof.
  intros [Hat Hlen Hls Hnl Hhdr] Hok0 Hdk0 Hlk0 Hpn0. unfold initlog.
  change (Z.of_nat BSIZE <=? sizeof_logheader) with false. cbv iota.
  apply runs_bind. eapply runs_mono; [by apply readsb_runs|]. cbn [bcache set_bcache].
  intros sb s1 (b1 & -> & -> & Hok1 & Hlk1 & Hpn1 & Hdk1 & Hwl1 & Hpid1).
  rewrite Hlk0, Hls, Hnl.
  assert (Hs32 : s32 start = start) by (apply s32_small; unfold log_at, FSSIZE in Hat; lia).
  rewrite Hs32. change (s32 (Z.of_nat LOGSIZE)) with (Z.of_nat LOGSIZE).
  do 3 (apply runs_bind; eapply runs_Ok; [done|]).
  set (s2 := set_ldev _ _).
  assert (Hl : forall m, look b1 m = on_disk dk m) by (intros m; by rewrite Hlk1, Hlk0).
  assert (Hh : lhead s2 []).
  { constructor; try done. apply hdr_ok_nil. }
  eapply runs_mono; [apply (recover_runs s2 Hh)|]; cbn [bcache l_start s2 set_ldev set_size set_start set_bcache boot_lst].
  { done. }
  { intros m. by rewrite Hpn1, Hpn0. }
  { by rewrite Hl. }
  assert (Hrw : recovery_writes start (look b1) = recovery_writes start (on_disk dk)).
  { unfold recovery_writes. rewrite Hl. f_equal. unfold rec_writes. apply imap_ext. intros k c _. cbn. by rewrite Hl. }
  rewrite Hrw. intros [] s3 (b' & h & -> & Hh3 & Hn3 & (G1 & G2 & G3 & G4 & G5 & _)).
  assert (Hlh := on_disk_length dk start Hlen).
  cbn [bcache set_bcache]. split_and!; [|done|done|done|by rewrite G4; cbn [disk]; rewrite Hdk1, Hdk0|by rewrite G5, Hwl1|].
  - destruct Hh3 as [P1 P2 P3 P4 P5 P6]. constructor; try done.
    + cbn. intros m. rewrite G3, Hpn1, Hpn0. done.
    + cbn. rewrite G4, Hdk1, Hdk0, on_disk_apply. unfold recovery_writes.
      rewrite over_snoc, decide_True by done. by apply decode_empty.
  - intros m Hm. cbn. rewrite G2. unfold recovery_writes, recovered.
    rewrite over_snoc, decide_False by (intros ->; apply Hm; unfold in_log, LOGSIZE; lia).
    by apply over_ext.
Qed.

Lemma boot_runs start dk pid :
  fs_disk start dk ->
  runs boot (boot_lst dk pid) (fun _ t => lok t [] /\ l_start t = start /\
    l_outstanding t = 0 /\ l_committing t = 0 /\
    disk (bcache t) = apply_writes (recovery_writes start (on_disk dk)) dk /\
    wlog (bcache t) = map (fun w => ((1, fst w), snd w)) (recovery_writes start (on_disk dk)) /\
    forall m, ~ in_log start m -> look (bcache t) m = recovered start (on_disk dk) m).
Proof.
  intros Hfs. unfold boot. apply runs_bind, runs_bio.
  eapply runs_mono; [by apply (binit_runs dk pid), (fs_len start)|]. cbn [bcache boot_lst].
  intros [] b0 (Hok0 & Hdk0 & Hwl0 & _ & Hlk0 & Hpn0).
  eapply runs_mono; [by apply (initlog_runs start dk pid b0)|]. by rewrite Hwl0.
Qed.

(** ** Crash safety *)

Lemma over_cases ws f m : over ws f m = f m \/ (m, over ws f m) ∈ ws.
Proof.
  induction ws as [|[n v] ws IH] using rev_ind; [by left|]. rewrite over_snoc. case_decide as Hm.
  - right. subst. set_solver.
  - destruct IH as [?|?]; [by left|right]. set_solver.
Qed.

Lemma apply_lengths ws dk :
  (forall k v, dk !! k = Some v -> length v = BSIZE) -> Forall (fun w => length (snd w) = BSIZE) ws ->
  forall k v, apply_writes ws dk !! k = Some v -> length v = BSIZE.
Proof.
  intros Hdk. induction ws as [|[n w] ws IH] using rev_ind; [done|]. intros [Hf Hw]%Forall_app k v.
  rewrite apply_snoc. apply Forall_cons in Hw as [Hw _]. cbn in Hw.
  intros [[_ <-]|[_ Hv]]%lookup_insert_Some; [done|]. by apply (IH Hf k).
Qed.

(** Writes to the log and to home blocks, the header always readable, keep
    the disk one recovery can work on. *)
Lemma fs_disk_writes start dk ws k :
  fs_disk start dk -> Forall (fun w => length (snd w) = BSIZE) ws ->
  (forall n v, (n, v) ∈ ws -> start <= n) -> (forall v, (start, v) ∈ ws -> hdr_ok start (decode v)) ->
  fs_disk start (apply_writes (take k ws) dk).
Proof.
  intros [Hat Hlen Hls Hnl Hhdr] Hlw Hge Hstart.
  assert (Htk : forall w, w ∈ take k ws -> w ∈ ws).
  { intros w Hw. rewrite <- (take_drop k ws). apply elem_of_app. by left. }
  assert (H1 : on_disk (apply_writes (take k ws) dk) 1 = on_disk dk 1).
  { rewrite on_disk_apply. apply over_out. intros ([n v] & Hn & Hin%Htk%Hge)%list_elem_of_fmap.
    cbn in Hin, Hn. unfold log_at in Hat. lia. }
  constructor; [done| |by rewrite H1|by rewrite H1|].
  - apply apply_lengths; [done|by apply Forall_take].
  - rewrite on_disk_apply. destruct (over_cases (take k ws) (on_disk dk) start) as [->|Hin%Htk]; [done|].
    by apply Hstart.
Qed.

Lemma commit_writes_ok start old bs vs :
  log_at start -> hdr_ok start bs -> length old = BSIZE -> length vs = length bs ->
  Forall (fun v => length v = BSIZE) vs ->
  Forall (fun w => length (snd w) = BSIZE) (commit_writes start old bs vs) /\
  (forall n v, (n, v) ∈ commit_writes start old bs vs -> start <= n) /\
  (forall v, (start, v) ∈ commit_writes start old bs vs -> hdr_ok start (decode v)).
Proof.
  intros Hat Hbs Hold Hlv Hvs. assert (Hbs' := Hbs). destruct Hbs' as (_ & Hlt & _).
  assert (Hhl : length (hdr_block old bs) = BSIZE) by (apply hdr_length; [done|lia]).
  assert (Hhome : forall n v, (n, v) ∈ home_writes bs vs -> n ∈ bs /\ v ∈ vs).
  { intros n v Hin. apply list_elem_of_lookup in Hin as [k Hk]. unfold home_writes in Hk.
    apply lookup_zip_with_Some in Hk as (x & y & [= -> ->] & Hx & Hy).
    split; by eapply list_elem_of_lookup_2. }
  assert (Hlog : forall n v, (n, v) ∈ log_writes start vs -> start < n /\ v ∈ vs).
  { intros n v Hin. apply list_elem_of_lookup in Hin as [k Hk]. unfold log_writes in Hk.
    rewrite list_lookup_imap in Hk. destruct (vs !! k) as [w|] eqn:Hw; [|done]. injection Hk as <- <-.
    split; [lia|by eapply list_elem_of_lookup_2]. }
  rewrite Forall_forall in Hvs. split_and!.
  - apply Forall_forall. intros [n v]. unfold commit_writes. cbn [snd].
    intros [[_ Hin]%Hlog|[[= -> ->]%list_elem_of_singleton|[[_ Hin]%Hhome|[= -> ->]%list_elem_of_singleton]%elem_of_app]%elem_of_app]%elem_of_app;
      [by apply Hvs|done|by apply Hvs|apply hdr_length; [done|cbn; lia]].
  - intros n v. unfold commit_writes.
    intros [Hin%Hlog|[[= -> ->]%list_elem_of_singleton|[[Hin _]%Hhome|[= -> ->]%list_elem_of_singleton]%elem_of_app]%elem_of_app]%elem_of_app;
      [lia|lia| |lia]. apply (hdr_home start bs Hbs) in Hin. unfold LOGSIZE in Hin. lia.
  - intros v. unfold commit_writes.
    intros [Hin%Hlog|[[= ->]%list_elem_of_singleton|[[Hin _]%Hhome|[= ->]%list_elem_of_singleton]%elem_of_app]%elem_of_app]%elem_of_app.
    + lia.
    + by rewrite (decode_bs start Hat bs Hbs).
    + by apply (start_not_home start bs Hbs) in Hin.
    + rewrite decode_empty by done. apply hdr_ok_nil.
Qed.

Lemma recovery_writes_ok start dk :
  fs_disk start dk ->
  Forall (fun w => length (snd w) = BSIZE) (recovery_writes start (on_disk dk)) /\
  (forall n v, (n, v) ∈ recovery_writes start (on_disk dk) -> start <= n) /\
  (forall v, (start, v) ∈ recovery_writes start (on_disk dk) -> hdr_ok start (decode v)).
Proof.
  intros Hfs. assert (Hhdr := fs_hdr _ _ Hfs). unfold recovery_writes.
  set (bs := decode (on_disk dk start)) in *.
  assert (Hlf : forall m, length (on_disk dk m) = BSIZE) by (intros m; apply on_disk_length; apply Hfs).
  assert (Hrec : forall n v, (n, v) ∈ rec_writes start (on_disk dk) bs -> n ∈ bs /\ length v = BSIZE).
  { intros n v [k Hk]%list_elem_of_lookup. unfold rec_writes in Hk. rewrite list_lookup_imap in Hk.
    destruct (bs !! k) as [c|] eqn:Hc; [|done]. injection Hk as <- <-.
    split; [by eapply list_elem_of_lookup_2|done]. }
  split_and!.
  - apply Forall_forall. intros [n v] [[_ Hin]%Hrec|[= -> ->]%list_elem_of_singleton]%elem_of_app; [done|].
    apply hdr_length; [done|cbn; lia].
  - intros n v [[Hin _]%Hrec|[= -> ->]%list_elem_of_singleton]%elem_of_app; [|lia].
    apply (hdr_home start bs Hhdr) in Hin. unfold LOGSIZE in Hin. lia.
  - intros v [[Hin _]%Hrec|[= ->]%list_elem_of_singleton]%elem_of_app.
    + by apply (start_not_home start bs Hhdr) in Hin.
    + rewrite decode_empty by done. apply hdr_ok_nil.
Qed.

Lemma home_over s bs m :
  lok s bs -> over (home_writes bs (map (look (bcache s)) bs)) (on_disk (disk (bcache s))) m = look (bcache s) m.
Proof.
  intros Hlok. set (vs := map _ bs). assert (Hlv : length vs = length bs) by apply length_map.
  destruct (decide (m ∈ bs)) as [Hin|Hin].
  - apply over_in; [rewrite home_dst by done; apply (lok_bs _ _ Hlok)|].
    apply list_elem_of_lookup in Hin as [k Hk]. apply list_elem_of_lookup. exists k.
    unfold home_writes, vs. change (map ?g ?l) with (g <$> l). by rewrite lookup_zip_with, list_lookup_fmap, Hk.
  - rewrite over_out by by rewrite home_dst. symmetry. by apply (lok_clean s bs).
Qed.

Lemma rec_writes_ext start f g bs : (forall n, f n = g n) -> rec_writes start f bs = rec_writes start g bs.
Proof. intros He. unfold rec_writes. apply imap_ext. intros j c _. cbn. by rewrite He. Qed.

Lemma recovered_ext start f g m : (forall n, f n = g n) -> recovered start f m = recovered start g m.
Proof.
  intros He. unfold recovered. rewrite He, (rec_writes_ext start f g _ He). by apply over_ext.
Qed.

(** Booting after a crash within the writes of a transaction. *)
Lemma tx_crash s bs k pid :
  lok s bs -> fs_disk (l_start s) (disk (bcache s)) ->
  runs boot (boot_lst (apply_writes (take k (tx_writes s bs)) (disk (bcache s))) pid) (fun _ t =>
    forall m, ~ in_log (l_start s) m -> look (bcache t) m =
      if decide (k <= length bs)%nat then on_disk (disk (bcache s)) m else look (bcache s) m).
Proof.
  intros Hlok Hfs. set (start := l_start s) in *. set (f := on_disk (disk (bcache s))).
  assert (Hat := lok_at _ _ Hlok). assert (Hbs := lok_bs _ _ Hlok). fold start in Hat, Hbs.
  assert (Hd := lok_empty _ _ Hlok). fold start f in Hd.
  assert (Hold : look (bcache s) start = f start)
    by (apply (lok_clean _ bs); [done|by apply (start_not_home start)]).
  assert (Hlf : length (f start) = BSIZE) by (apply on_disk_length; apply Hfs).
  destruct (decide (bs = [])) as [->|Hne].
  - cbn [tx_writes]. rewrite take_nil. eapply runs_mono; [by apply (boot_runs start)|].
    intros [] t (_ & _ & _ & _ & _ & _ & Hlk) m Hm. rewrite (Hlk m Hm). change (apply_writes [] ?d) with d. fold f.
    rewrite (recovered_empty start f m Hd).
    case_decide; [done|]. symmetry. by apply (lok_clean s []); [|set_solver].
  - set (vs := map (look (bcache s)) bs).
    assert (Htw : tx_writes s bs = commit_writes start (f start) bs vs) by (rewrite <- Hold; by destruct bs).
    assert (Hlv : length vs = length bs) by apply length_map.
    assert (Hvs : Forall (fun v => length v = BSIZE) vs).
    { apply Forall_forall. intros v (c & -> & Hc)%list_elem_of_fmap. unfold look.
      destruct (slot (bcache s) c) as [b|] eqn:Hs; [|by eapply on_disk_length, Hfs].
      apply slot_inv in Hs as (i & Hb & _). by apply (bok_buf _ _ (lok_cache _ _ Hlok) i b Hb). }
    rewrite Htw. destruct (commit_writes_ok start (f start) bs vs Hat Hbs Hlf Hlv Hvs) as (W1 & W2 & W3).
    eapply runs_mono; [apply (boot_runs start), fs_disk_writes; done|].
    intros [] t (_ & _ & _ & _ & _ & _ & Hlk) m Hm. rewrite (Hlk m Hm).
    transitivity (recovered start (over (take k (commit_writes start (f start) bs vs)) f) m).
    + apply recovered_ext. intros n. apply on_disk_apply.
    + rewrite (commit_crash start f Hat Hlf bs Hbs vs k m Hd Hlv Hm). case_decide; [done|]. by apply home_over.
Qed.

Lemma begin_op_eq s :
  l_committing s = 0 -> lh_n (lh s) + (l_outstanding s + 1) * MAXOPBLOCKS <= Z.of_nat LOGSIZE ->
  begin_op s = Ok ((), set_outstanding (l_outstanding s + 1) s).
Proof.
  intros Hc Hn. unfold begin_op. change (bind (gets l_committing) ?k s) with (k (l_committing s) s).
  cbn beta. rewrite Hc. cbn [negb Z.eqb]. change (bind (gets lh) ?k s) with (k (lh s) s). cbn beta.
  change (bind (gets l_outstanding) ?k s) with (k (l_outstanding s) s). cbn beta.
  by rewrite (proj2 (Z.ltb_ge _ _)).
Qed.

(** Blocks outside the log. *)
Definition same_files (start : Z) (f g : Z -> list Z) : Prop := forall m, ~ in_log start m -> f m = g m.
