(* ===== verification/LogThms.v ===== *)
(** What the file system can rely on: transactions are atomic and durable
    across a crash at any disk write, and so is recovery itself. *)

From S2P Require Import Prelude Bytes Bio Block Log.

(** C13. A transaction is atomic and durable: [begin_op], fewer than [LOGSIZE]
    updates through [log_write] and [end_op] return, and if the machine crashes
    after any number of the disk writes of the commit, booting with [initlog]
    brings back either all blocks as they were before or all blocks with the
    updates; once the last write is done it is the updates. *)
Theorem log_transaction_atomic s us :
  lok s [] -> l_outstanding s = 0 -> l_committing s = 0 -> fs_disk (l_start s) (disk (bcache s)) ->
  Forall (home_update (l_start s)) us -> (length us < LOGSIZE)%nat ->
  runs (begin_op;; log_updates us;; end_op) s (fun _ s' => exists ws,
    lok s' [] /\ same_files (l_start s) (look (bcache s')) (over us (look (bcache s))) /\
    disk (bcache s') = apply_writes ws (disk (bcache s)) /\
    wlog (bcache s') = wlog (bcache s) ++ map (fun w => ((1, fst w), snd w)) ws /\
    forall k pid, runs boot (boot_lst (apply_writes (take k ws) (disk (bcache s))) pid) (fun _ t =>
      (same_files (l_start s) (look (bcache t)) (look (bcache s)) /\ (k < length ws \/ ws = [])%nat) \/
      same_files (l_start s) (look (bcache t)) (over us (look (bcache s))))).
Proof.
  intros Hlok Ho Hc Hfs Hus Hl. assert (Hn := lok_n _ _ Hlok). cbn in Hn.
  apply runs_bind. eapply runs_Ok.
  { apply begin_op_eq; [done|]. rewrite Hn, Ho. unfold MAXOPBLOCKS, LOGSIZE. lia. }
  set (s1 := set_outstanding _ s). assert (Hlok1 : lok s1 []) by by destruct Hlok.
  apply runs_bind. eapply runs_mono; [apply (log_updates_runs s1 us s1 [] [] Hlok1); try done|].
  { cbn. rewrite Ho. lia. }
  intros [] s2 (bs & Hlok2 & (T1 & T2 & T3 & T4 & T5 & T6)). cbn [app] in *.
  eapply runs_mono; [apply (end_op_runs s2 bs Hlok2); [rewrite T5; cbn; lia|by rewrite T6]|].
  intros [] s3 (Hlok3 & _ & _ & _ & Hdk & Hwl & Hlk). exists (tx_writes s2 bs).
  rewrite T4, T2, T3 in *. cbn [bcache l_start s1 set_outstanding] in *.
  split_and!; [done|by intros m Hm; rewrite (Hlk m Hm), T1|done|done|]. intros k pid.
  assert (Hcrash := tx_crash s2 bs k pid Hlok2). rewrite T4, T2 in Hcrash.
  eapply runs_mono; [by apply Hcrash|]. intros [] t Ht. destruct (decide (k <= length bs)%nat) as [Hk|Hk].
  - left. split.
    + intros m Hm. rewrite (Ht m Hm). symmetry. apply (lok_clean s [] m Hlok). apply not_elem_of_nil.
    + destruct bs as [|b bs]; [by right|left]. unfold tx_writes, commit_writes, log_writes.
      rewrite !length_app, length_imap, length_map. cbn [length] in Hk |- *. lia.
  - right. intros m Hm. by rewrite (Ht m Hm), T1.
Qed.

(** C14. Recovery survives crashes: booting leaves every block outside the log
    as the committed log and the disk together say, and if the machine crashes
    after any number of the writes of recovery, booting again gives the same
    blocks. *)
Theorem log_recovery_crash_safe start dk pid :
  fs_disk start dk ->
  runs boot (boot_lst dk pid) (fun _ t => exists ws,
    lok t [] /\ same_files start (look (bcache t)) (recovered start (on_disk dk)) /\
    disk (bcache t) = apply_writes ws dk /\ wlog (bcache t) = map (fun w => ((1, fst w), snd w)) ws /\
    forall k pid', runs boot (boot_lst (apply_writes (take k ws) dk) pid') (fun _ t' =>
      same_files start (look (bcache t')) (look (bcache t)))).
Proof.
  intros Hfs. eapply runs_mono; [by apply boot_runs|].
  intros [] t (Hlok & _ & _ & _ & Hdk & Hwl & Hlk). set (ws := recovery_writes start (on_disk dk)) in *.
  exists ws. split_and!; [done|done|done|done|]. intros k pid'.
  assert (Hhdr := fs_hdr _ _ Hfs). assert (Hat := fs_at _ _ Hfs). set (bs := decode (on_disk dk start)) in *.
  assert (Hlf : length (on_disk dk start) = BSIZE) by (apply on_disk_length; apply Hfs).
  eapply runs_mono; [apply (boot_runs start), fs_disk_writes; [done|by apply recovery_writes_ok..]|].
  intros [] t' (_ & _ & _ & _ & _ & _ & Hlk') m Hm. rewrite (Hlk' m Hm), (Hlk m Hm).
  rewrite <- (recovery_crash start (on_disk dk) Hlf bs Hhdr k m eq_refl Hm).
  apply recovered_ext. intros n. apply on_disk_apply.
Qed.

(** ** A small disk *)

(** A disk with a super block ([mkfs] puts 30 log blocks at block 2) and
    nothing else. *)
Definition demo_sb : list Z := wr32 (wr32 zblock 12 30) 16 2.
Definition demo_disk : gmap blockid (list Z) := {[ (1, 1) := demo_sb ]}.
Definition demo_log : lst :=
  match boot (boot_lst demo_disk 1) with Ok (_, s) => s | _ => boot_lst demo_disk 1 end.
Definition demo_block : list Z := replicate BSIZE 7.

Lemma demo_fs_disk : fs_disk 2 demo_disk.
Proof.
  constructor.
  - unfold log_at, LOGSIZE, FSSIZE. lia.
  - intros k v Hv. unfold demo_disk in Hv. apply lookup_singleton_Some in Hv as [_ <-]. by vm_compute.
  - by vm_compute.
  - by vm_compute.
  - assert (Hd : decode (on_disk demo_disk 2) = []) by by vm_compute. rewrite Hd. apply hdr_ok_nil.
Qed.

Lemma boot_fs_disk start dk pid :
  fs_disk start dk -> exists s, boot (boot_lst dk pid) = Ok ((), s) /\
    lok s [] /\ l_start s = start /\ l_outstanding s = 0 /\ l_committing s = 0 /\ fs_disk start (disk (bcache s)).
Proof.
  intros Hfs.
  destruct (runs_inv _ _ _ (boot_runs start dk pid Hfs)) as ([] & s & Hs & H1 & H2 & H3 & H4 & H5 & _).
  exists s. split; [exact Hs|split; [exact H1|split; [exact H2|split; [exact H3|split; [exact H4|]]]]].
  destruct (recovery_writes_ok start dk Hfs) as (W1 & W2 & W3). rewrite H5.
  rewrite <- (firstn_all (recovery_writes start (on_disk dk))). by apply (fs_disk_writes start dk).
Qed.

Lemma demo_log_ok :
  lok demo_log [] /\ l_start demo_log = 2 /\ l_outstanding demo_log = 0 /\ l_committing demo_log = 0 /\
  fs_disk 2 (disk (bcache demo_log)).
Proof.
  destruct (boot_fs_disk 2 demo_disk 1 demo_fs_disk) as (s & Hs & H). unfold demo_log. rewrite Hs. exact H.
Qed.

Lemma log_transaction_atomic_witness :
  runs (begin_op;; log_updates [(100, demo_block); (200, demo_block)];; end_op) demo_log (fun _ s' => exists ws,
    lok s' [] /\ same_files 2 (look (bcache s')) (over [(100, demo_block); (200, demo_block)] (look (bcache demo_log))) /\
    disk (bcache s') = apply_writes ws (disk (bcache demo_log)) /\
    wlog (bcache s') = wlog (bcache demo_log) ++ map (fun w => ((1, fst w), snd w)) ws /\
    forall k pid, runs boot (boot_lst (apply_writes (take k ws) (disk (bcache demo_log))) pid) (fun _ t =>
      (same_files 2 (look (bcache t)) (look (bcache demo_log)) /\ (k < length ws \/ ws = [])%nat) \/
      same_files 2 (look (bcache t)) (over [(100, demo_block); (200, demo_block)] (look (bcache demo_log))))).
Proof.
  destruct demo_log_ok as (H1 & H2 & H3 & H4 & H5).
  assert (H := log_transaction_atomic demo_log [(100, demo_block); (200, demo_block)] H1 H3 H4).
  rewrite H2 in H. apply H; [exact H5| |unfold LOGSIZE; cbn; lia].
  repeat constructor; unfold LOGSIZE, FSSIZE; cbn; lia.
Defined.

Lemma log_recovery_crash_safe_witness :
  runs boot (boot_lst demo_disk 1) (fun _ t => exists ws,
    lok t [] /\ same_files 2 (look (bcache t)) (recovered 2 (on_disk demo_disk)) /\
    disk (bcache t) = apply_writes ws demo_disk /\ wlog (bcache t) = map (fun w => ((1, fst w), snd w)) ws /\
    forall k pid', runs boot (boot_lst (apply_writes (take k ws) demo_disk) pid') (fun _ t' =>
      same_files 2 (look (bcache t')) (look (bcache t)))).
Proof. exact (log_recovery_crash_safe 2 demo_disk 1 demo_fs_disk). Defined.

(** ** The space reserved *)

(** Which blocks are in the header after a list of updates. *)
Lemma log_updates_logged s0 us : forall s done bs,
  lok s bs -> in_tx s0 s done -> 1 <= l_outstanding s -> (length bs + length us < LOGSIZE)%nat ->
  Forall (home_update (l_start s)) us -> NoDup (bs ++ us.*1) ->
  runs (log_updates us) s (fun _ s' => lok s' (bs ++ us.*1) /\ in_tx s0 s' (done ++ us)).
Proof.
  induction us as [|[n v] us IH]; intros s dn bs Hlok Htx Ho Hl Hus Hnd; cbn [log_updates fmap list_fmap fst snd].
  { by rewrite !app_nil_r. }
  apply Forall_cons in Hus as [Hu Hus]. cbn in Hl. apply runs_bind.
  eapply runs_mono; [apply (log_update_runs s0 s dn bs n v Hlok Htx Ho ltac:(lia) Hu)|].
  intros [] s1 [Hlok1 Htx1]. rewrite (cons_middle (n, v)), (cons_middle n), !app_assoc. cbn [fmap list_fmap fst] in Hnd.
  assert (Hlg : logged bs n = bs ++ [n]).
  { unfold logged. apply decide_False. apply NoDup_app in Hnd as (_ & Hd & _). intros Hin. apply (Hd n Hin). by apply list_elem_of_here. }
  rewrite Hlg in Hlok1. destruct Htx as (_ & _ & _ & T4 & T5 & _). destruct Htx1 as (U1 & U2 & U3 & U4 & U5 & U6).
  apply (IH s1 _ (bs ++ [n])); [done|done|lia|rewrite length_app; cbn; lia|by rewrite U4, <- T4|by rewrite <- app_assoc].
Qed.

(** A full header takes no block, not even one that is in it. *)
Lemma log_update_full s bs n v :
  lok s bs -> length bs = (LOGSIZE - 1)%nat -> home_update (l_start s) (n, v) -> log_update n v s = Panic "too big a transaction".
Proof.
  intros Hlok Hl [Hn Hv]. cbn in Hn, Hv. assert (Hok := lok_cache _ _ Hlok). assert (Hpin := lok_pinned _ _ Hlok).
  destruct (lok_at _ _ Hlok) as [Hst1 Hst2].
  assert (Hr : runs (bread 1 n) (bcache s) (fun i b1 => exists x, bufs b1 !! i = Some x)).
  { eapply runs_mono.
    - apply (bread_runs _ [] n Hok); [lia|set_solver|]. left. apply (room_count _ [] bs Hok).
      + intros m. rewrite Hpin. by intros ?%bool_decide_eq_true.
      + rewrite Hl. unfold NBUF, LOGSIZE. cbn. lia.
    - intros i b1 (_ & _ & _ & Hbi & _). by eexists. }
  apply runs_inv in Hr as (i & b1 & Hb & x & Hx). unfold log_update, bio, zoom. unfold bind at 1. rewrite Hb.
  unfold bind at 1. cbn [bcache set_bcache]. rewrite (updbuf_eq i _ x _ Hx). unfold bind at 1.
  unfold log_write, gets, bind. cbn [lh set_bcache l_size]. rewrite (lok_n _ _ Hlok), (lok_size _ _ Hlok), Hl.
  rewrite (proj2 (Z.leb_le (Z.of_nat LOGSIZE - 1) _)) by (unfold LOGSIZE; lia). by rewrite orb_true_r.
Qed.

(** C40. The space [begin_op] reserves is one block more than the log has. With
    the 30 log blocks [mkfs] makes, from any state without a transaction three
    operations are admitted, and no fourth, each with a claim to [MAXOPBLOCKS]
    blocks; the first 29 distinct blocks they write are logged, and the
    thirtieth [log_write] panics, whatever block it is for, although each
    operation has kept to its ten. *)
Theorem log_reservation_overflows s us u :
  lok s [] -> l_outstanding s = 0 -> l_committing s = 0 ->
  Forall (home_update (l_start s)) (us ++ [u]) -> NoDup us.*1 -> length (us ++ [u]) = Z.to_nat (3 * MAXOPBLOCKS) ->
  runs (begin_op;; begin_op;; begin_op) s (fun _ s1 =>
    l_outstanding s1 = 3 /\ begin_op s1 = Spin /\
    runs (log_updates us) s1 (fun _ s2 =>
      lh_n (lh s2) = 29 /\ (forall m, look (bcache s2) m = over us (look (bcache s)) m) /\
      log_update (fst u) (snd u) s2 = Panic "too big a transaction")).
Proof.
  intros Hlok Ho Hc Hus Hnd Hl. apply Forall_app in Hus as [Hus Hu]. rewrite Forall_singleton in Hu. rewrite length_app in Hl.
  change (Z.to_nat (3 * MAXOPBLOCKS)) with 30%nat in Hl. cbn [length] in Hl.
  assert (Hn := lok_n _ _ Hlok). cbn in Hn. set (out k := set_outstanding k s).
  assert (Hb : forall k, 0 <= k <= 2 -> begin_op (out k) = Ok ((), out (k + 1))).
  { intros k Hk. rewrite begin_op_eq; [done|done|]. cbn. rewrite Hn. unfold MAXOPBLOCKS, LOGSIZE. lia. }
  assert (Hs : s = out 0) by (unfold out; rewrite <- Ho; by destruct s).
  rewrite Hs at 1. apply runs_bind. eapply runs_Ok; [apply Hb; lia|]. apply runs_bind. eapply runs_Ok; [apply Hb; lia|].
  eapply runs_Ok; [apply Hb; lia|]. change (0 + 1 + 1 + 1) with 3. split; [done|]. split.
  { unfold begin_op, gets, bind. cbv beta iota. change (l_committing (out 3)) with (l_committing s). rewrite Hc. change (negb (0 =? 0)) with false. cbv beta iota.
    change (lh (out 3)) with (lh s). by rewrite Hn. }
  assert (Hlok3 : lok (out 3) []) by by destruct Hlok.
  eapply runs_mono; [apply (log_updates_logged (out 3) us (out 3) [] [] Hlok3); [done|done|unfold LOGSIZE; cbn; lia|done|done]|].
  intros [] s2 [Hlok2 (T1 & _ & _ & T4 & _)]. cbn [app] in *.
  assert (Hl2 : length us.*1 = (LOGSIZE - 1)%nat) by (rewrite length_fmap; unfold LOGSIZE; lia). split_and!.
  - rewrite (lok_n _ _ Hlok2), Hl2. done.
  - done.
  - apply (log_update_full s2 _ _ _ Hlok2 Hl2). rewrite T4. destruct u. exact Hu.
Qed.

Definition demo_updates : list (Z * list Z) := (fun i => (100 + Z.of_nat i, demo_block)) <$> seq 0 29.
Lemma log_reservation_overflows_witness :
  runs (begin_op;; begin_op;; begin_op) demo_log (fun _ s1 =>
    l_outstanding s1 = 3 /\ begin_op s1 = Spin /\
    runs (log_updates demo_updates) s1 (fun _ s2 =>
      lh_n (lh s2) = 29 /\ (forall m, look (bcache s2) m = over demo_updates (look (bcache demo_log)) m) /\
      log_update 200 demo_block s2 = Panic "too big a transaction")).
Proof.
  destruct demo_log_ok as (H1 & H2 & H3 & H4 & H5).
  apply (log_reservation_overflows demo_log demo_updates (200, demo_block) H1 H3 H4).
  - rewrite H2. unfold demo_updates. apply Forall_app. split; [apply Forall_fmap, Forall_seq; intros j Hj|apply Forall_singleton];
      (split; [unfold LOGSIZE, FSSIZE; cbn; lia|done]).
  - apply (bool_decide_unpack _). by vm_compute.
  - done.
Defined.
