(* ===== verification/LogBlocks.v ===== *)
(** The log on the buffer cache implements the interface the file system is
    written against ([Block.blocks_spec]). *)

From S2P Require Import Prelude Bytes Bio Block Log.

#[export] Instance log_blocks : blocks lst := {|
  bl_bread d n := bio (bread d n);
  bl_data h := x ← bio (getbuf h); ret (data x);
  bl_set h v := bio (updbuf h (set_data v));
  bl_log_write := log_write;
  bl_brelse h := bio (brelse h);
  bl_begin_op := begin_op;
  bl_end_op := end_op
|}.

(** The buffers the process holds. *)
Definition held_bufs (b : bst) (held : list (nat * Z)) : Prop := forall i n, (i, n) ∈ held ->
  bufs b !! i = Some (mine b (if pinned b n then 6 else 2) n (look b n)) /\
  (pinned b n = false -> look b n = dread (disk b) (1, n)).

Definition log_vis (start n : Z) : Prop := 0 <= n < FSSIZE /\ ~ in_log start n.
Definition log_home (start n : Z) : Prop := start + Z.of_nat LOGSIZE <= n < FSSIZE.

(** A transaction of the only process that is inside the file system. *)
Record tx_st (start : Z) (s : lst) (held : list (nat * Z)) (lg : list Z) (f : Z -> list Z) : Prop := TxSt {
  tx_head : lhead s lg;
  tx_n : lh_n (lh s) = Z.of_nat (length lg);
  tx_start : l_start s = start;
  tx_size : l_size s = Z.of_nat LOGSIZE;
  tx_out : l_outstanding s = 1;
  tx_com : l_committing s = 0;
  tx_cache : bok (bcache s) (map fst held);
  tx_held : held_bufs (bcache s) held;
  tx_hvis : forall i n, (i, n) ∈ held -> log_vis start n;
  tx_pinned : forall m, pinned (bcache s) m = bool_decide (m ∈ lg);
  tx_empty : decode (on_disk (disk (bcache s)) start) = [];
  tx_look : forall n, log_vis start n -> look (bcache s) n = f n
}.

Definition log_idle (start : Z) (s : lst) (f : Z -> list Z) : Prop :=
  lok s [] /\ l_start s = start /\ l_outstanding s = 0 /\ l_committing s = 0 /\
  forall n, log_vis start n -> look (bcache s) n = f n.

(** What the cache keeps about buffers that are not touched. *)
Lemma held_bufs_same b b' held :
  held_bufs b held -> same_blocks b b' -> (forall i n, (i, n) ∈ held -> bufs b' !! i = bufs b !! i) ->
  held_bufs b' held.
Proof.
  intros Hh (H1 & H2 & H3 & _ & H5) Hb i n Hin. destruct (Hh i n Hin) as [Hi Hc].
  rewrite (Hb i n Hin), Hi, H2, H1, H3. unfold mine. by rewrite H5.
Qed.

Lemma held_inj b held held' i j n :
  bok b held' -> held_bufs b held -> (i, n) ∈ held -> (j, n) ∈ held -> i = j.
Proof.
  intros Hok Hh Hi Hj. destruct (Hh i n Hi) as [Hbi _]. destruct (Hh j n Hj) as [Hbj _].
  by apply (bok_keys _ _ Hok i j _ _ Hbi Hbj).
Qed.

Section instance.
Context (start : Z).
Implicit Types (s : lst) (held : list (nat * Z)).

Lemma look_length s held lg f n : tx_st start s held lg f -> log_vis start n -> length (f n) = BSIZE.
Proof.
  intros Ht Hn. rewrite <- (tx_look _ _ _ _ _ Ht n Hn). assert (Hok := tx_cache _ _ _ _ _ Ht).
  unfold look. destruct (slot (bcache s) n) as [b|] eqn:Hs; [|by eapply dread_length].
  apply slot_inv in Hs as (i & Hb & _). apply (bok_buf _ _ Hok i b Hb).
Qed.

Lemma tx_bread s held lg f n :
  tx_st start s held lg f -> log_vis start n -> n ∉ map snd held -> (length held + length lg < NBUF)%nat ->
  runs (bio (bread 1 n)) s (fun h s' => tx_st start s' ((h, n) :: held) lg f).
Proof.
  intros [Hh Hn Hst Hsz Ho Hc Hok Hhb Hhv Hpin He Hlk] Hv Hnh Hlen. assert (Hr := proj1 Hv). apply runs_bio. eapply runs_mono.
  { apply (bread_runs _ _ n Hok Hr).
    - intros i b ([i' m] & -> & Hin)%list_elem_of_fmap Hb. cbn in Hb. destruct (Hhb i' m Hin) as [Hb' _].
      rewrite Hb in Hb'. injection Hb' as ->. cbn. intros ->. apply Hnh. apply list_elem_of_fmap. by exists (i', n).
    - left. apply (room_count _ _ lg Hok); [|by rewrite length_map].
      intros m. rewrite Hpin. by intros ?%bool_decide_eq_true. }
  intros i b1 (Hih & Hok1 & Hs1 & Hbi & Hold). assert (Hs1' := Hs1). destruct Hs1' as (S1 & S2 & S3 & S4 & S5).
  constructor; try done; cbn.
  - by apply lhead_cache.
  - intros j m [[= -> ->]|Hin]%elem_of_cons.
    + rewrite Hbi, S2, S1, S3. unfold mine. split; [by rewrite S5|]. intros Hp.
      apply (look_clean _ _ n Hok Hp). intros k b ([k' m] & -> & Hin)%list_elem_of_fmap Hb. cbn in Hb.
      destruct (Hhb k' m Hin) as [Hb' _]. rewrite Hb in Hb'. injection Hb' as ->. cbn. intros ->.
      apply Hnh. apply list_elem_of_fmap. by exists (k', n).
    + apply (held_bufs_same _ _ _ Hhb Hs1); [|done]. intros k p Hk. apply Hold.
      apply list_elem_of_fmap. by exists (k, p).
  - intros j m [[= -> ->]|Hin]%elem_of_cons; [done|by apply (Hhv j)].
  - intros m. by rewrite S2.
  - by rewrite S3.
  - intros m Hm. rewrite S1. by apply Hlk.
Qed.

Lemma tx_data s held lg f h n :
  tx_st start s held lg f -> (h, n) ∈ held ->
  bind (bio (getbuf h)) (fun x => ret (data x)) s = Ok (f n, s).
Proof.
  intros Ht Hin. assert (Hv := tx_hvis _ _ _ _ _ Ht h n Hin). destruct (tx_held _ _ _ _ _ Ht h n Hin) as [Hb _].
  assert (Hg : bio (getbuf h) s = Ok (mine (bcache s) (if pinned (bcache s) n then 6 else 2) n (look (bcache s) n), s)).
  { unfold bio, zoom. rewrite (getbuf_eq h _ _ Hb). by destruct s. }
  rewrite (bind_Ok _ _ _ _ _ Hg). cbn. by rewrite (tx_look _ _ _ _ _ Ht n Hv).
Qed.

(** The store into the locked buffer and the [log_write] after it. *)
Lemma tx_write s held lg f h n v :
  tx_st start s held lg f -> (h, n) ∈ held -> log_home start n -> length v = BSIZE -> (length lg < LOGMAX)%nat ->
  runs (bio (updbuf h (set_data v));; log_write h) s (fun _ s' => tx_st start s' held (logged lg n) (upd f n v)).
Proof.
  intros [Hh Hn Hst Hsz Ho Hc Hok Hhb Hhv Hpin He Hlk] Hin Hhome Hv Hlg.
  destruct (Hhb h n Hin) as [Hb _]. assert (Hlt := lookup_lt_Some _ _ _ Hb).
  assert (Hhin : h ∈ map fst held) by (apply list_elem_of_fmap; by exists (h, n)).
  set (b0 := bcache s) in *. set (fl := if pinned b0 n then 6 else 2) in *.
  apply runs_bind, runs_bio. eapply runs_Ok; [by apply (updbuf_data b0 h fl n _ Hb)|].
  set (b1 := with_buf b0 h (mine b0 fl n v)).
  destruct (log_write_eq (set_bcache b1 s) lg h (mine b0 fl n v)) as (hd & Hw & Hh' & Hhn).
  { by apply lhead_cache. } { done. } { done. } { cbn. lia. } { unfold LOGMAX, LOGSIZE in *. lia. }
  { by apply list_lookup_insert_eq. } { cbn. by rewrite Hst. }
  eapply runs_Ok; [exact Hw|]. cbn [blockno mine] in Hh', Hhn. cbn [bcache set_bcache].
  assert (Hset : set_flags (Z.lor (flags (mine b0 fl n v)) B_DIRTY) (mine b0 fl n v) = mine b0 6 n v).
  { unfold set_flags, mine. cbn. unfold fl. by destruct (pinned b0 n). }
  rewrite Hset. assert (Hb2 : with_buf b1 h (mine b0 6 n v) = with_buf b0 h (mine b0 6 n v)).
  { unfold b1, with_buf. cbn. by rewrite list_insert_insert_eq. }
  rewrite Hb2. destruct (locked_update b0 _ Hok h fl n _ Hhin Hb 6 v (or_intror eq_refl) Hv) as (Hok2 & Hlk2 & Hpn2).
  cbn zeta in Hok2, Hlk2, Hpn2. set (b2 := with_buf b0 h (mine b0 6 n v)) in *.
  assert (Hp2 : forall m, pinned b2 m = bool_decide (m ∈ logged lg n)).
  { intros m. rewrite Hpn2, Hpin. case_decide as Hm.
    - symmetry. apply bool_decide_true, elem_of_logged. by right.
    - apply bool_decide_ext. rewrite elem_of_logged. tauto. }
  constructor; try done; cbn.
  - by apply (lhead_cache (set_lh hd (set_bcache b1 s))).
  - intros j m Hj. rewrite Hpn2, Hlk2. destruct (decide (m = n)) as [->|Hm].
    + assert (j = h) as -> by by apply (held_inj b0 held _ j h n Hok Hhb).
      split; [by apply list_lookup_insert_eq|done].
    + assert (j <> h) by (intros ->; destruct (Hhb h m Hj) as [Hb' _]; rewrite Hb in Hb'; unfold mine in Hb'; congruence).
      destruct (Hhb j m Hj) as [Hbj Hcj]. split; [|done]. unfold b2. cbn. by rewrite list_lookup_insert_ne.
  - intros m Hm. rewrite Hlk2. unfold upd. case_decide; [done|by apply Hlk].
Qed.

Lemma tx_brelse s held lg f h n :
  tx_st start s ((h, n) :: held) lg f -> runs (bio (brelse h)) s (fun _ s' => tx_st start s' held lg f).
Proof.
  intros [Hh Hn Hst Hsz Ho Hc Hok Hhb Hhv Hpin He Hlk]. cbn [map fst] in Hok.
  destruct (Hhb h n ltac:(left)) as [Hb Hcl]. apply runs_bio.
  eapply runs_mono; [apply (brelse_runs _ _ h _ n _ Hok Hb)|].
  { destruct (pinned (bcache s) n); [by left|right; by apply Hcl]. }
  intros [] b' (Hok' & Hs' & Hb' & _). assert (Hsame := Hs'). destruct Hsame as (S1 & S2 & S3 & S4 & S5).
  assert (Hnin := bok_held _ _ Hok). apply NoDup_cons in Hnin as [Hnin _].
  constructor; try done; cbn.
  - by apply lhead_cache.
  - eapply held_bufs_same; [|exact Hs'|].
    + intros j m Hj. apply Hhb. by right.
    + intros j m Hj. apply Hb'. intros ->. apply Hnin, list_elem_of_fmap. by exists (h, m).
  - intros j m Hj. apply (Hhv j). by right.
  - intros m. by rewrite S2.
  - by rewrite S3.
  - intros m Hm. rewrite S1. by apply Hlk.
Qed.

Lemma tx_begin s f : log_idle start s f -> runs begin_op s (fun _ s' => tx_st start s' [] [] f).
Proof.
  intros (Hlok & Hst & Ho & Hc & Hlk). assert (Hn := lok_n _ _ Hlok). cbn in Hn.
  eapply runs_Ok; [apply begin_op_eq; [done|]; rewrite Hn, Ho; unfold MAXOPBLOCKS, LOGSIZE; lia|].
  destruct Hlok. constructor; try done; cbn; try lia; [|by intros i n ?%elem_of_nil..|congruence].
  constructor; try done. cbn. lia.
Qed.

Lemma tx_lok s lg f : tx_st start s [] lg f -> lok s lg.
Proof. intros [[] ? <-]. by constructor. Qed.

Lemma tx_end s lg f : tx_st start s [] lg f -> runs end_op s (fun _ s' => log_idle start s' f).
Proof.
  intros Ht. assert (Hlok := tx_lok _ _ _ Ht). destruct Ht.
  eapply runs_mono; [by apply (end_op_runs s lg)|].
  intros [] s' (H1 & H2 & H3 & H4 & _ & _ & H7). split_and!; [done|congruence|done|done|].
  intros n Hn. rewrite H7; [by apply tx_look0|]. rewrite tx_start0. apply Hn.
Qed.

(** The implementation of the interface, for the log at block [start]. *)
Definition log_blocks_spec : log_at start -> blocks_spec lst.
Proof.
  intros Hat. refine {| bl_vis := log_vis start; bl_home := log_home start; bl_idle := log_idle start; bl_st := tx_st start |}.
  - intros n Hn. apply Hn.
  - unfold log_home, log_vis, in_log, log_at in *. lia.
  - intros s held lg f n Ht. by apply (look_length s held lg).
  - intros s held lg f Ht. apply (lhead_bs _ _ (tx_head _ _ _ _ _ Ht)).
  - apply tx_bread.
  - apply tx_data.
  - apply tx_write.
  - apply tx_brelse.
  - apply tx_begin.
  - apply tx_end.
Defined.
End instance.
