(* ===== verification/Fs.v ===== *)
(** The file system ([fs.c]): the block allocator, inodes, their contents,
    directories and path names, on the interface [Block.blocks].

    An inode pointer is an index in [icache.inode].  [icache.lock] is held
    inside single functions only and is left out; a call that has to wait for
    the lock of an inode does not return ([Spin]).  [readi] and the functions
    that use it give the bytes they store at [dst] with their result. *)

From S2P Require Import Prelude Layout CString Bytes Bio Block Log.

(** ** Constants *)

Definition ROOTDEV : Z := 1.
Definition ROOTINO : Z := 1.
Definition NINODE : nat := 50.
Definition NDEV : Z := 10.
Definition NDIRECT : nat := 12.
Definition NINDIRECT : nat := 128.
Definition MAXFILE : Z := 140.
Definition IPB : Z := 8.
Definition BPB : Z := 4096.
Definition DIRSIZ : nat := 14.
Definition T_DIR : Z := 1.
Definition T_FILE : Z := 2.
Definition T_DEV : Z := 3.
Definition sizeof_dinode : nat := 64.
Definition sizeof_dirent : Z := 16.

Definition s16 (x : Z) : Z := (x + 2 ^ 15) mod 2 ^ 16 - 2 ^ 15.

(** ** Data *)

Record inode := Inode {
  i_dev : Z;
  i_inum : Z;
  i_ref : Z;
  i_lock : sleeplock;
  i_valid : Z;
  i_type : Z;
  i_major : Z;
  i_minor : Z;
  i_nlink : Z;
  i_size : Z;
  i_addrs : list Z
}.

Definition set_i_ref (v : Z) (ip : inode) : inode :=
  Inode (i_dev ip) (i_inum ip) v (i_lock ip) (i_valid ip) (i_type ip) (i_major ip) (i_minor ip) (i_nlink ip) (i_size ip) (i_addrs ip).
Definition set_i_lock (v : sleeplock) (ip : inode) : inode :=
  Inode (i_dev ip) (i_inum ip) (i_ref ip) v (i_valid ip) (i_type ip) (i_major ip) (i_minor ip) (i_nlink ip) (i_size ip) (i_addrs ip).
Definition set_i_valid (v : Z) (ip : inode) : inode :=
  Inode (i_dev ip) (i_inum ip) (i_ref ip) (i_lock ip) v (i_type ip) (i_major ip) (i_minor ip) (i_nlink ip) (i_size ip) (i_addrs ip).
Definition set_i_type (v : Z) (ip : inode) : inode :=
  Inode (i_dev ip) (i_inum ip) (i_ref ip) (i_lock ip) (i_valid ip) v (i_major ip) (i_minor ip) (i_nlink ip) (i_size ip) (i_addrs ip).
Definition set_i_majmin (v w : Z) (ip : inode) : inode :=
  Inode (i_dev ip) (i_inum ip) (i_ref ip) (i_lock ip) (i_valid ip) (i_type ip) v w (i_nlink ip) (i_size ip) (i_addrs ip).
Definition set_i_nlink (v : Z) (ip : inode) : inode :=
  Inode (i_dev ip) (i_inum ip) (i_ref ip) (i_lock ip) (i_valid ip) (i_type ip) (i_major ip) (i_minor ip) v (i_size ip) (i_addrs ip).
Definition set_i_size (v : Z) (ip : inode) : inode :=
  Inode (i_dev ip) (i_inum ip) (i_ref ip) (i_lock ip) (i_valid ip) (i_type ip) (i_major ip) (i_minor ip) (i_nlink ip) v (i_addrs ip).
Definition set_i_addr (k : nat) (v : Z) (ip : inode) : inode :=
  Inode (i_dev ip) (i_inum ip) (i_ref ip) (i_lock ip) (i_valid ip) (i_type ip) (i_major ip) (i_minor ip) (i_nlink ip) (i_size ip)
    (<[k := v]> (i_addrs ip)).

(** The on-disk inode: type, major, minor, nlink, size, addrs. *)
Record dinode := Dinode {
  d_type : Z;
  d_major : Z;
  d_minor : Z;
  d_nlink : Z;
  d_size : Z;
  d_addrs : list Z
}.

(** [(struct dinode* )bp->data + k]. *)
Definition get_dinode (d : list Z) (k : nat) : dinode :=
  let o := (sizeof_dinode * k)%nat in
  Dinode (s16 (rd16 d o)) (s16 (rd16 d (o + 2))) (s16 (rd16 d (o + 4))) (s16 (rd16 d (o + 6))) (rd32 d (o + 8))
    ((fun i => rd32 d (o + 12 + 4 * i)) <$> seq 0 (NDIRECT + 1)).
Definition put_dinode (d : list Z) (k : nat) (di : dinode) : list Z :=
  wr d (sizeof_dinode * k) (le16 (d_type di) ++ le16 (d_major di) ++ le16 (d_minor di) ++ le16 (d_nlink di) ++
    le32 (d_size di) ++ concat (le32 <$> d_addrs di)).

Record dirent := Dirent { de_inum : Z; de_name : list Z }.
Definition get_dirent (d : list Z) : dirent := Dirent (rd16 d 0) (take DIRSIZ (drop 2 d)).
Definition put_dirent (de : dirent) : list Z := le16 (de_inum de) ++ de_name de.

Record stat := Stat { st_type : Z; st_dev : Z; st_ino : Z; st_nlink : Z; st_size : Z }.

Section fs.
Context {St : Type} `{blocks St}.

Record fss := Fss {
  blk : St;
  sb : superblock;
  icache : list inode;
  cwd : nat;  (* of the running process *)
  fpid : Z
}.
Definition set_blk (v : St) (s : fss) : fss := Fss v (sb s) (icache s) (cwd s) (fpid s).
Definition set_sb (v : superblock) (s : fss) : fss := Fss (blk s) v (icache s) (cwd s) (fpid s).
Definition set_icache (v : list inode) (s : fss) : fss := Fss (blk s) (sb s) v (cwd s) (fpid s).
Definition set_cwd (v : nat) (s : fss) : fss := Fss (blk s) (sb s) (icache s) v (fpid s).

Definition F (A : Type) : Type := M fss A.
Definition on_blk {A} (m : M St A) : F A := zoom blk set_blk m.

Definition bread_ (dev n : Z) : F nat := on_blk (bl_bread dev n).
Definition bdata (bp : nat) : F (list Z) := on_blk (bl_data bp).
(** A store into [bp->data] and the [log_write] that follows it. *)
Definition bwrite_log (bp : nat) (v : list Z) : F () := on_blk (bl_set bp v;; bl_log_write bp).
Definition brelse_ (bp : nat) : F () := on_blk (bl_brelse bp).
Definition begin_op_ : F () := on_blk bl_begin_op.
Definition end_op_ : F () := on_blk bl_end_op.

Definition geti (ip : nat) : F inode := l ← gets icache; deref "inode pointer" (l !! ip).
Definition updi (ip : nat) (f : inode -> inode) : F () :=
  x ← geti ip; modify (fun s => set_icache (<[ip := f x]> (icache s)) s).

(** Devices: [devsw[major].read(ip, dst, n)] and [.write(ip, src, n)]. *)
Context (dev_read : Z -> option (nat -> Z -> F (Z * list Z))) (dev_write : Z -> option (nat -> list Z -> Z -> F Z)).

(** ** Blocks *)

Definition BBLOCK (b : Z) (sb : superblock) : Z := b / BPB + sb_bmapstart sb.
Definition IBLOCK (i : Z) (sb : superblock) : Z := i / IPB + sb_inodestart sb.

Definition bzero (dev bno : Z) : F () :=
  bp ← bread_ dev bno;
  bwrite_log bp (replicate BSIZE 0);;
  brelse_ bp.

(** The inner loop of [balloc]: the first clear bit of the block, among those
    of blocks below [size]. *)
Definition bit_set (d : list Z) (bi : Z) : bool := negb (Z.land (byte_at d (Z.to_nat (bi / 8))) (Z.shiftl 1 (bi mod 8)) =? 0).
Fixpoint find_free (fuel : nat) (d : list Z) (b bi size : Z) : option Z :=
  match fuel with
  | O => None
  | S fuel =>
      if (bi <? BPB) && (b + bi <? size) then
        if negb (bit_set d bi) then Some bi else find_free fuel d b (bi + 1) size
      else None
  end.
Definition set_bit (d : list Z) (bi : Z) : list Z :=
  let i := Z.to_nat (bi / 8) in <[i := Z.lor (byte_at d i) (Z.shiftl 1 (bi mod 8))]> d.
Definition clear_bit (d : list Z) (bi : Z) : list Z :=
  let i := Z.to_nat (bi / 8) in <[i := Z.ldiff (byte_at d i) (Z.shiftl 1 (bi mod 8))]> d.

Fixpoint balloc_loop (fuel : nat) (dev b : Z) : F Z :=
  match fuel with
  | O => spin
  | S fuel =>
      sb ← gets sb;
      if b <? sb_size sb then
        bp ← bread_ dev (BBLOCK b sb);
        d ← bdata bp;
        match find_free (Z.to_nat BPB) d b 0 (sb_size sb) with
        | Some bi =>
            bwrite_log bp (set_bit d bi);;
            brelse_ bp;;
            bzero dev (b + bi);;
            ret (b + bi)
        | None =>
            brelse_ bp;;
            balloc_loop fuel dev (b + BPB)
        end
      else panic "balloc: out of blocks"
  end.
Definition balloc (dev : Z) : F Z :=
  sb ← gets sb;
  balloc_loop (S (Z.to_nat (sb_size sb / BPB + 1))) dev 0.

Definition bfree (dev b : Z) : F () :=
  sb ← gets sb;
  bp ← bread_ dev (BBLOCK b sb);
  d ← bdata bp;
  let bi := b mod BPB in
  if negb (bit_set d bi) then panic "freeing free block" else
  bwrite_log bp (clear_bit d bi);;
  brelse_ bp.

(** ** Inodes *)

Definition iinit (dev : Z) : F () :=
  modify (fun s => set_icache (set_i_lock (Sleeplock 0 0) <$> icache s) s);;
  bp ← bread_ dev 1;
  d ← bdata bp;
  brelse_ bp;;
  modify (set_sb (decode_sb d)).

(** The scan of [iget]: the entry of the inode, or the first free one. *)
Fixpoint iget_scan (l : list inode) (i : nat) (empty : option nat) (dev inum : Z) : option nat * option nat :=
  match l with
  | [] => (None, empty)
  | ip :: l =>
      if (0 <? i_ref ip) && (i_dev ip =? dev) && (i_inum ip =? inum) then (Some i, empty)
      else iget_scan l (S i) (if bool_decide (empty = None) && (i_ref ip =? 0) then Some i else empty) dev inum
  end.
Definition iget (dev inum : Z) : F nat :=
  l ← gets icache;
  match iget_scan l 0 None dev inum with
  | (Some i, _) => updi i (fun ip => set_i_ref (i_ref ip + 1) ip);; ret i
  | (None, None) => panic "iget: no inodes"
  | (None, Some i) =>
      updi i (fun ip => Inode dev inum 1 (i_lock ip) 0 (i_type ip) (i_major ip) (i_minor ip) (i_nlink ip) (i_size ip) (i_addrs ip));;
      ret i
  end.

Fixpoint ialloc_loop (fuel : nat) (dev type inum : Z) : F nat :=
  match fuel with
  | O => spin
  | S fuel =>
      sb ← gets sb;
      if inum <? sb_ninodes sb then
        bp ← bread_ dev (IBLOCK inum sb);
        d ← bdata bp;
        let k := Z.to_nat (inum mod IPB) in
        if d_type (get_dinode d k) =? 0 then
          bwrite_log bp (put_dinode d k (Dinode type 0 0 0 0 (replicate (NDIRECT + 1) 0)));;
          brelse_ bp;;
          iget dev inum
        else
          brelse_ bp;;
          ialloc_loop fuel dev type (inum + 1)
      else panic "ialloc: no inodes"
  end.
Definition ialloc (dev type : Z) : F nat :=
  sb ← gets sb;
  ialloc_loop (S (Z.to_nat (sb_ninodes sb))) dev type 1.

Definition iupdate (ip : nat) : F () :=
  x ← geti ip;
  sb ← gets sb;
  bp ← bread_ (i_dev x) (IBLOCK (i_inum x) sb);
  d ← bdata bp;
  bwrite_log bp (put_dinode d (Z.to_nat (i_inum x mod IPB))
    (Dinode (i_type x) (i_major x) (i_minor x) (i_nlink x) (i_size x) (i_addrs x)));;
  brelse_ bp.

Definition idup (ip : nat) : F nat := updi ip (fun x => set_i_ref (i_ref x + 1) x);; ret ip.

Definition iacquire (ip : nat) : F () :=
  x ← geti ip;
  if negb (sl_locked (i_lock x) =? 0) then spin else
  me ← gets fpid;
  updi ip (set_i_lock (Sleeplock 1 me)).
Definition irelease (ip : nat) : F () := updi ip (set_i_lock (Sleeplock 0 0)).

Definition ilock (ip : nat) : F () :=
  x ← geti ip;
  if i_ref x <? 1 then panic "ilock" else
  iacquire ip;;
  x ← geti ip;
  when (i_valid x =? 0) (
    sb ← gets sb;
    bp ← bread_ (i_dev x) (IBLOCK (i_inum x) sb);
    d ← bdata bp;
    let di := get_dinode d (Z.to_nat (i_inum x mod IPB)) in
    updi ip (fun x => Inode (i_dev x) (i_inum x) (i_ref x) (i_lock x) (i_valid x)
      (d_type di) (d_major di) (d_minor di) (d_nlink di) (d_size di) (d_addrs di));;
    brelse_ bp;;
    updi ip (set_i_valid 1);;
    if d_type di =? 0 then panic "ilock: no type" else ret ()).

Definition iholding (ip : nat) : F bool :=
  x ← geti ip;
  me ← gets fpid;
  ret (negb (sl_locked (i_lock x) =? 0) && (sl_pid (i_lock x) =? me)).
Definition iunlock (ip : nat) : F () :=
  h ← iholding ip;
  x ← geti ip;
  if negb h || (i_ref x <? 1) then panic "iunlock" else irelease ip.

(** ** Contents *)

Definition bmap (ip : nat) (bn : Z) : F Z :=
  x ← geti ip;
  if bn <? Z.of_nat NDIRECT then
    addr ← deref "ip->addrs" (i_addrs x !! Z.to_nat bn);
    if addr =? 0 then
      addr ← balloc (i_dev x);
      updi ip (set_i_addr (Z.to_nat bn) addr);;
      ret addr
    else ret addr
  else
    let bn := bn - Z.of_nat NDIRECT in
    if bn <? Z.of_nat NINDIRECT then
      addr ← deref "ip->addrs" (i_addrs x !! NDIRECT);
      addr ← (if addr =? 0 then
                addr ← balloc (i_dev x);
                updi ip (set_i_addr NDIRECT addr);;
                ret addr
              else ret addr);
      bp ← bread_ (i_dev x) addr;
      d ← bdata bp;
      let a := rd32 d (4 * Z.to_nat bn) in
      if a =? 0 then
        a ← balloc (i_dev x);
        d ← bdata bp;
        bwrite_log bp (wr32 d (4 * Z.to_nat bn) a);;
        brelse_ bp;;
        ret a
      else
        brelse_ bp;;
        ret a
    else panic "bmap: out of range".

(** The loops of [itrunc]. *)
Fixpoint itrunc_direct (n i : nat) (ip : nat) : F () :=
  match n with
  | O => ret ()
  | S n =>
      x ← geti ip;
      a ← deref "ip->addrs" (i_addrs x !! i);
      when (negb (a =? 0)) (bfree (i_dev x) a;; updi ip (set_i_addr i 0));;
      itrunc_direct n (S i) ip
  end.
Fixpoint itrunc_indirect (dev : Z) (n j : nat) (d : list Z) : F () :=
  match n with
  | O => ret ()
  | S n =>
      let a := rd32 d (4 * j) in
      when (negb (a =? 0)) (bfree dev a);;
      itrunc_indirect dev n (S j) d
  end.
Definition itrunc (ip : nat) : F () :=
  itrunc_direct NDIRECT 0 ip;;
  x ← geti ip;
  a ← deref "ip->addrs" (i_addrs x !! NDIRECT);
  when (negb (a =? 0)) (
    bp ← bread_ (i_dev x) a;
    d ← bdata bp;
    itrunc_indirect (i_dev x) NINDIRECT 0 d;;
    brelse_ bp;;
    bfree (i_dev x) a;;
    updi ip (set_i_addr NDIRECT 0));;
  updi ip (set_i_size 0);;
  iupdate ip.

Definition iput (ip : nat) : F () :=
  iacquire ip;;
  x ← geti ip;
  when (negb (i_valid x =? 0) && (i_nlink x =? 0) && (i_ref x =? 1)) (
    itrunc ip;;
    updi ip (set_i_type 0);;
    iupdate ip;;
    updi ip (set_i_valid 0));;
  irelease ip;;
  updi ip (fun x => set_i_ref (i_ref x - 1) x).

Definition iunlockput (ip : nat) : F () := iunlock ip;; iput ip.

Definition stati (ip : nat) : F stat :=
  x ← geti ip;
  ret (Stat (i_type x) (i_dev x) (i_inum x) (i_nlink x) (i_size x)).

(** [off] and [n] are what is left to copy; the bytes in order. *)
Fixpoint readi_loop (fuel : nat) (ip : nat) (off n : Z) : F (list Z) :=
  match fuel with
  | O => spin
  | S fuel =>
      if 0 <? n then
        x ← geti ip;
        bn ← bmap ip (off / Z.of_nat BSIZE);
        bp ← bread_ (i_dev x) bn;
        let m := Z.min n (Z.of_nat BSIZE - off mod Z.of_nat BSIZE) in
        d ← bdata bp;
        let bs := take (Z.to_nat m) (drop (Z.to_nat (off mod Z.of_nat BSIZE)) d) in
        brelse_ bp;;
        rest ← readi_loop fuel ip (off + m) (n - m);
        ret (bs ++ rest)
      else ret []
  end.
Definition readi (ip : nat) (off n : Z) : F (Z * list Z) :=
  x ← geti ip;
  if i_type x =? T_DEV then
    if (i_major x <? 0) || (NDEV <=? i_major x) then ret (-1, []) else
    match dev_read (i_major x) with
    | None => ret (-1, [])
    | Some rd => rd ip n
    end
  else
    if (i_size x <? off) || (u32 (off + n) <? off) then ret (-1, []) else
    let n := if i_size x <? off + n then i_size x - off else n in
    bs ← readi_loop (S (Z.to_nat n)) ip off n;
    ret (n, bs).

Fixpoint writei_loop (fuel : nat) (ip : nat) (src : list Z) (off n : Z) : F Z :=
  match fuel with
  | O => spin
  | S fuel =>
      if 0 <? n then
        x ← geti ip;
        bn ← bmap ip (off / Z.of_nat BSIZE);
        bp ← bread_ (i_dev x) bn;
        let m := Z.min n (Z.of_nat BSIZE - off mod Z.of_nat BSIZE) in
        d ← bdata bp;
        bwrite_log bp (wr d (Z.to_nat (off mod Z.of_nat BSIZE)) (take (Z.to_nat m) src));;
        brelse_ bp;;
        writei_loop fuel ip (drop (Z.to_nat m) src) (off + m) (n - m)
      else ret off
  end.
Definition writei (ip : nat) (src : list Z) (off n : Z) : F Z :=
  x ← geti ip;
  if i_type x =? T_DEV then
    if (i_major x <? 0) || (NDEV <=? i_major x) then ret (-1) else
    match dev_write (i_major x) with
    | None => ret (-1)
    | Some wt => wt ip src n
    end
  else
    if (i_size x <? off) || (u32 (off + n) <? off) then ret (-1) else
    if MAXFILE * Z.of_nat BSIZE <? off + n then ret (-1) else
    off ← writei_loop (S (Z.to_nat n)) ip src off n;
    x ← geti ip;
    when ((0 <? n) && (i_size x <? off)) (updi ip (set_i_size off);; iupdate ip);;
    ret n.

(** ** Directories *)

(** [strncmp(s, t, DIRSIZ) == 0]; the bytes after the 14th are not read. *)
Definition namecmp (s t : list Z) : bool := bool_decide (strncmp (s ++ [0]) (t ++ [0]) DIRSIZ = Some 0).

(** One [readi] of an entry, which has to succeed. *)
Definition read_dirent (msg : string) (dp : nat) (off : Z) : F dirent :=
  '(r, bs) ← readi dp off sizeof_dirent;
  if negb (r =? sizeof_dirent) then panic msg else ret (get_dirent bs).

Fixpoint dirlookup_loop (fuel : nat) (dp : nat) (name : list Z) (off : Z) : F (option (nat * Z)) :=
  match fuel with
  | O => spin
  | S fuel =>
      x ← geti dp;
      if off <? i_size x then
        de ← read_dirent "dirlookup read" dp off;
        if de_inum de =? 0 then dirlookup_loop fuel dp name (off + sizeof_dirent) else
        if namecmp name (de_name de) then
          ip ← iget (i_dev x) (de_inum de);
          ret (Some (ip, off))
        else dirlookup_loop fuel dp name (off + sizeof_dirent)
      else ret None
  end.
(** The inode and the offset of its entry. *)
Definition dirlookup (dp : nat) (name : list Z) : F (option (nat * Z)) :=
  x ← geti dp;
  if negb (i_type x =? T_DIR) then panic "dirlookup not DIR" else
  dirlookup_loop (S (Z.to_nat (i_size x / sizeof_dirent + 1))) dp name 0.

(** The offset of the first empty entry, or the end. *)
Fixpoint dirlink_loop (fuel : nat) (dp : nat) (off : Z) : F Z :=
  match fuel with
  | O => spin
  | S fuel =>
      x ← geti dp;
      if off <? i_size x then
        de ← read_dirent "dirlink read" dp off;
        if de_inum de =? 0 then ret off else dirlink_loop fuel dp (off + sizeof_dirent)
      else ret off
  end.

Definition dirlink (dp : nat) (name : list Z) (inum : Z) : F Z :=
  o ← dirlookup dp name;
  match o with
  | Some (ip, _) => iput ip;; ret (-1)
  | None =>
      x ← geti dp;
      off ← dirlink_loop (S (Z.to_nat (i_size x / sizeof_dirent + 1))) dp 0;
      nm ← deref "strncpy" (strncpy (replicate DIRSIZ 0) (name ++ [0]) (Z.of_nat DIRSIZ));
      r ← writei dp (put_dirent (Dirent (u16 inum) nm)) off sizeof_dirent;
      if negb (r =? sizeof_dirent) then panic "dirlink" else ret 0
  end.

(** ** Paths *)

Definition SLASH : Z := 47.

(** [while( *path == '/') path++] and the loop over the element. *)
Fixpoint skip_slashes (path : list Z) : list Z :=
  match path with
  | c :: path' => if c =? SLASH then skip_slashes path' else path
  | [] => []
  end.
Fixpoint take_elem (path : list Z) : list Z * list Z :=
  match path with
  | c :: path' => if c =? SLASH then ([], path) else let '(e, r) := take_elem path' in (c :: e, r)
  | [] => ([], [])
  end.
(** The element, cut to [DIRSIZ] bytes, and the rest of the path. *)
Definition skipelem (path : list Z) : option (list Z * list Z) :=
  match skip_slashes path with
  | [] => None
  | path =>
      let '(e, r) := take_elem path in
      Some (take DIRSIZ e, skip_slashes r)
  end.

(** The inode, with the last element when [nameiparent] asks for the parent;
    [name] is what the buffer holds. *)
Fixpoint namex_loop (fuel : nat) (ip : nat) (path : list Z) (nameiparent : bool) (name : list Z) : F (option (nat * list Z)) :=
  match fuel with
  | O => spin
  | S fuel =>
      match skipelem path with
      | None =>
          if nameiparent then iput ip;; ret None else ret (Some (ip, name))
      | Some (name, path) =>
          ilock ip;;
          x ← geti ip;
          if negb (i_type x =? T_DIR) then iunlockput ip;; ret None else
          if nameiparent && bool_decide (path = []) then iunlock ip;; ret (Some (ip, name)) else
          o ← dirlookup ip name;
          match o with
          | None => iunlockput ip;; ret None
          | Some (next, _) => iunlockput ip;; namex_loop fuel next path nameiparent name
          end
      end
  end.
Definition namex (path : list Z) (nameiparent : bool) : F (option (nat * list Z)) :=
  ip ← (match path with
        | c :: _ => if c =? SLASH then iget ROOTDEV ROOTINO else c ← gets cwd; idup c
        | [] => c ← gets cwd; idup c
        end);
  namex_loop (S (length path)) ip path nameiparent [].

Definition namei (path : list Z) : F (option nat) :=
  o ← namex path false;
  ret (option_map fst o).
Definition nameiparent (path : list Z) : F (option (nat * list Z)) := namex path true.
End fs.
