(* ===== verification/FsBlocks.v ===== *)
(** Blocks, the bitmap and its allocator: what the routines of [fs.c] that
    work on single blocks do, on any implementation of [Block.blocks_spec]. *)

From S2P Require Import Prelude Layout CString Bytes Bio Block Log Fs.

(** ** Bits *)

Lemma bit_test x k : 0 <= k -> (Z.land x (Z.shiftl 1 k) =? 0) = negb (Z.testbit x k).
Proof.
  intros Hk. rewrite Z.shiftl_1_l. destruct (Z.eqb_spec (Z.land x (2 ^ k)) 0) as [H0|H0].
  - assert (Hb : Z.testbit (Z.land x (2 ^ k)) k = false) by by rewrite H0, Z.bits_0.
    rewrite Z.land_spec, Z.pow2_bits_true, andb_true_r in Hb by lia. by rewrite Hb.
  - destruct (Z.testbit x k) eqn:Hb; [done|]. destruct H0. apply Z.bits_inj'. intros n Hn.
    rewrite Z.land_spec, Z.bits_0, Z.pow2_bits_eqb by lia. destruct (Z.eqb_spec k n) as [<-|]; [by rewrite Hb|apply andb_false_r].
Qed.

Lemma bit_set_testbit d bi : 0 <= bi -> bit_set d bi = Z.testbit (byte_at d (Z.to_nat (bi / 8))) (bi mod 8).
Proof.
  intros Hb. unfold bit_set. rewrite bit_test by (apply Z.mod_pos_bound; lia). apply negb_involutive.
Qed.

Lemma byte_at_insert d i v j :
  (i < length d)%nat -> byte_at (<[i := v]> d) j = if decide (j = i) then v else byte_at d j.
Proof.
  intros Hi. unfold byte_at. case_decide as Hj; [subst; by rewrite list_lookup_insert_eq|].
  by rewrite list_lookup_insert_ne.
Qed.

Lemma same_bit i j : 0 <= i -> 0 <= j -> Z.to_nat (j / 8) = Z.to_nat (i / 8) -> j mod 8 = i mod 8 -> j = i.
Proof.
  intros Hi Hj H1 H2. rewrite (Z.div_mod i 8), (Z.div_mod j 8) by lia.
  apply Z2Nat.inj in H1; [lia|apply Z.div_pos; lia|apply Z.div_pos; lia].
Qed.

Section bits.
Context (d : list Z) (i : Z).
Hypothesis Hd : length d = BSIZE.
Hypothesis Hi : 0 <= i < BPB.

Lemma bit_index : (Z.to_nat (i / 8) < length d)%nat.
Proof. rewrite Hd. unfold BPB, BSIZE in *. assert (i / 8 < 512) by (apply Z.div_lt_upper_bound; lia). lia. Qed.

Lemma bit_set_set j : 0 <= j -> bit_set (set_bit d i) j = (j =? i) || bit_set d j.
Proof.
  intros Hj. rewrite !bit_set_testbit by lia. unfold set_bit.
  rewrite byte_at_insert by apply bit_index. pose proof (Z.mod_pos_bound i 8 ltac:(lia)).
  pose proof (Z.mod_pos_bound j 8 ltac:(lia)).
  destruct (Z.eqb_spec j i) as [->|Hne]; cbn [orb]; case_decide as H1.
  - rewrite Z.lor_spec, Z.shiftl_1_l, Z.pow2_bits_true by lia. apply orb_true_r.
  - done.
  - rewrite Z.lor_spec, Z.shiftl_1_l, Z.pow2_bits_false, orb_false_r, H1; [done|].
    intros He. apply Hne, same_bit; [lia|lia|done|lia].
  - done.
Qed.

Lemma bit_set_clear j : 0 <= j -> bit_set (clear_bit d i) j = negb (j =? i) && bit_set d j.
Proof.
  intros Hj. rewrite !bit_set_testbit by lia. unfold clear_bit.
  rewrite byte_at_insert by apply bit_index. pose proof (Z.mod_pos_bound i 8 ltac:(lia)).
  pose proof (Z.mod_pos_bound j 8 ltac:(lia)).
  destruct (Z.eqb_spec j i) as [->|Hne]; cbn [negb andb]; case_decide as H1.
  - rewrite Z.ldiff_spec, Z.shiftl_1_l, Z.pow2_bits_true by lia. apply andb_false_r.
  - done.
  - rewrite Z.ldiff_spec, Z.shiftl_1_l, Z.pow2_bits_false, andb_true_r, H1; [done|].
    intros He. apply Hne, same_bit; [lia|lia|done|lia].
  - done.
Qed.

Lemma length_set_bit : length (set_bit d i) = BSIZE.
Proof. unfold set_bit. by rewrite length_insert. Qed.
Lemma length_clear_bit : length (clear_bit d i) = BSIZE.
Proof. unfold clear_bit. by rewrite length_insert. Qed.
End bits.

(** The first clear bit. *)
Lemma find_free_spec d b size : 0 <= b -> forall fuel bi, 0 <= bi ->
  match find_free fuel d b bi size with
  | Some r => bi <= r < BPB /\ b + r < size /\ bit_set d r = false /\ forall k, bi <= k < r -> bit_set d k = true
  | None => forall k, bi <= k < bi + Z.of_nat fuel -> k < BPB -> b + k < size -> bit_set d k = true
  end.
Proof.
  intros Hb. induction fuel as [|fuel IH]; intros bi Hbi; cbn [find_free]; [intros k; lia|].
  destruct (Z.ltb_spec bi BPB); cbn [andb]; [|intros k; lia].
  destruct (Z.ltb_spec (b + bi) size); [|intros k; lia].
  destruct (bit_set d bi) eqn:Hbit; cbn [negb]; [|split_and!; try done; intros k; lia].
  specialize (IH (bi + 1) ltac:(lia)). destruct (find_free fuel d b (bi + 1) size) as [r|].
  - destruct IH as (I1 & I2 & I3 & I4). split_and!; [lia|lia|done|done|].
    intros k Hk. destruct (decide (k = bi)) as [->|]; [done|]. apply I4. lia.
  - intros k Hk H1 H2. destruct (decide (k = bi)) as [->|]; [done|]. apply IH; lia.
Qed.

(** ** Runs on the interface *)

(** What [mkfs] lays out: inodes, the bitmap and the data, in this order. *)
Definition dstart (sb : superblock) : Z := sb_bmapstart sb + sb_size sb / BPB + 1.

Section spec.
Context {St : Type} `{HS : blocks_spec St}.
Abbreviation fss := (@Fs.fss St).
Abbreviation F := (@Fs.F St).

Record layout (sb : superblock) : Prop := Layout {
  ly_home : forall n, sb_inodestart sb <= n < sb_size sb -> bl_home n;
  ly_inodes : forall i, 0 <= i < sb_ninodes sb -> sb_inodestart sb <= IBLOCK i sb < sb_bmapstart sb;
  ly_order : 0 <= sb_inodestart sb <= sb_bmapstart sb;
  ly_data : dstart sb < sb_size sb
}.

(** [s] is [s0] but for the blocks. *)
Definition holds (s0 : fss) (held : list (nat * Z)) (lg : list Z) (f : Z -> list Z) (s : fss) : Prop :=
  exists b, s = set_blk b s0 /\ bl_st b held lg f.

Lemma runs_on_blk {A} (m : M St A) s0 b (Q : A -> fss -> Prop) :
  runs m b (fun a b' => Q a (set_blk b' s0)) -> runs (on_blk m) (set_blk b s0) Q.
Proof. unfold runs, on_blk, zoom. cbn. by destruct (m b) as [[a b']| | |]. Qed.

Section rules.
Context (s0 : fss) (held : list (nat * Z)) (lg : list Z) (f : Z -> list Z).

(** Reading a block: the buffer is held and its data is the block. *)
Lemma runs_bread {A} n (k : nat -> F A) s Q :
  holds s0 held lg f s -> bl_vis n -> n ∉ map snd held -> (length held + length lg < NBUF)%nat ->
  (forall h s', holds s0 ((h, n) :: held) lg f s' -> runs (k h) s' Q) ->
  runs (bind (bread_ 1 n) k) s Q.
Proof.
  intros (b & -> & Hb) Hn Hh Hl Hk. apply runs_bind, runs_on_blk.
  eapply runs_mono; [by apply bl_bread_ok|]. intros h b' Hb'. apply Hk. by exists b'.
Qed.

Lemma runs_bdata {A} h n (k : list Z -> F A) s Q :
  holds s0 held lg f s -> (h, n) ∈ held -> runs (k (f n)) s Q -> runs (bind (bdata h) k) s Q.
Proof.
  intros (b & -> & Hb) Hin Hk. apply runs_bind, runs_on_blk.
  eapply runs_Ok; [by apply (bl_data_ok b held lg f h n)|]. done.
Qed.

Lemma runs_bwrite {A} h n v (k : F A) s Q :
  holds s0 held lg f s -> (h, n) ∈ held -> bl_home n -> length v = BSIZE -> (length lg < LOGMAX)%nat ->
  (forall s', holds s0 held (logged lg n) (upd f n v) s' -> runs k s' Q) ->
  runs (bwrite_log h v;; k) s Q.
Proof.
  intros (b & -> & Hb) Hin Hn Hv Hl Hk. apply runs_bind. unfold bwrite_log. apply runs_on_blk.
  eapply runs_mono; [by apply (bl_write_ok b held lg f h n v)|]. intros [] b' Hb'. apply Hk. by exists b'.
Qed.
End rules.

Lemma runs_brelse s0 held lg f h n s Q :
  holds s0 ((h, n) :: held) lg f s -> (forall s', holds s0 held lg f s' -> Q () s') -> runs (brelse_ h) s Q.
Proof.
  intros (b & -> & Hb) Hk. apply runs_on_blk. eapply runs_mono; [by apply (bl_brelse_ok b held lg f h n)|].
  intros [] b' Hb'. apply Hk. by exists b'.
Qed.

Lemma holds_sb s0 held lg f s : holds s0 held lg f s -> sb s = sb s0.
Proof. by intros (b & -> & _). Qed.
Lemma holds_nodup s0 held lg f s : holds s0 held lg f s -> NoDup lg.
Proof. intros (b & _ & Hb). by eapply bl_nodup. Qed.
Lemma holds_len s0 held lg f s n : holds s0 held lg f s -> bl_vis n -> length (f n) = BSIZE.
Proof. intros (b & _ & Hb). by eapply bl_len. Qed.

Lemma runs_gets_sb {A} s0 sb0 held lg f (k : superblock -> F A) s Q :
  holds s0 held lg f s -> sb s0 = sb0 -> runs (k sb0) s Q -> runs (bind (gets sb) k) s Q.
Proof. intros Hh <- Hk. apply runs_bind. eapply runs_Ok; [done|]. by rewrite (holds_sb _ _ _ _ _ Hh). Qed.

(** ** The bitmap *)

Section alloc.
Context (sb0 : superblock) (Hly : layout sb0).

Definition bmap_block (n : Z) : Prop := sb_bmapstart sb0 <= n < dstart sb0.
Definition used (f : Z -> list Z) (b : Z) : bool := bit_set (f (BBLOCK b sb0)) (b mod BPB).
Definition free_list (f : Z -> list Z) : list Z := filter (fun b => used f b = false) (seqZ 0 (sb_size sb0)).

Lemma BPB_pos : 0 < BPB.
Proof. done. Qed.

Lemma size_pos : 0 < sb_size sb0.
Proof.
  destruct Hly as [_ _ [H1 H2] H3]. unfold dstart in H3.
  destruct (Z_le_dec (sb_size sb0) 0) as [Hn|]; [|lia].
  assert (Hx : sb_size sb0 <= sb_size sb0 / BPB) by (apply Z.div_le_lower_bound; unfold BPB; lia). lia.
Qed.

Lemma BBLOCK_range b : 0 <= b < sb_size sb0 -> bmap_block (BBLOCK b sb0).
Proof.
  intros Hb. unfold bmap_block, BBLOCK, dstart. pose proof (Z.div_pos b BPB ltac:(lia) BPB_pos).
  pose proof (Z.div_le_mono b (sb_size sb0) BPB BPB_pos ltac:(lia)). lia.
Qed.

Lemma bmap_home n : bmap_block n -> bl_home n.
Proof. intros Hn. apply (ly_home _ Hly). destruct Hly as [_ _ ? ?]. unfold bmap_block in Hn. lia. Qed.

Lemma data_home n : dstart sb0 <= n < sb_size sb0 -> bl_home n.
Proof.
  intros Hn. apply (ly_home _ Hly). pose proof size_pos. destruct Hly as [_ _ ? ?]. unfold dstart in *.
  pose proof (Z.div_pos (sb_size sb0) BPB ltac:(lia) BPB_pos). lia.
Qed.

Lemma BBLOCK_inj b c : BBLOCK b sb0 = BBLOCK c sb0 -> b mod BPB = c mod BPB -> b = c.
Proof.
  unfold BBLOCK. intros H1 H2. rewrite (Z.div_mod b BPB), (Z.div_mod c BPB) by done.
  assert (b / BPB = c / BPB) by lia. congruence.
Qed.

(** The bitmap after a bit is set or cleared. *)
Lemma used_set f b c :
  0 <= b < sb_size sb0 -> 0 <= c -> length (f (BBLOCK b sb0)) = BSIZE ->
  used (upd f (BBLOCK b sb0) (set_bit (f (BBLOCK b sb0)) (b mod BPB))) c = (c =? b) || used f c.
Proof.
  intros Hb Hc Hl. unfold used. pose proof (Z.mod_pos_bound b BPB BPB_pos). pose proof (Z.mod_pos_bound c BPB BPB_pos).
  unfold upd. case_decide as He.
  - rewrite bit_set_set by (done || lia). rewrite He. f_equal. apply eq_true_iff_eq. rewrite !Z.eqb_eq.
    split; [|by intros ->]. intros Hm. by apply BBLOCK_inj.
  - destruct (Z.eqb_spec c b) as [->|]; [done|]. done.
Qed.

Lemma used_clear f b c :
  0 <= b < sb_size sb0 -> 0 <= c -> length (f (BBLOCK b sb0)) = BSIZE ->
  used (upd f (BBLOCK b sb0) (clear_bit (f (BBLOCK b sb0)) (b mod BPB))) c = negb (c =? b) && used f c.
Proof.
  intros Hb Hc Hl. unfold used. pose proof (Z.mod_pos_bound b BPB BPB_pos). pose proof (Z.mod_pos_bound c BPB BPB_pos).
  unfold upd. case_decide as He.
  - rewrite bit_set_clear by (done || lia). rewrite He. f_equal. f_equal. apply eq_true_iff_eq. rewrite !Z.eqb_eq.
    split; [|by intros ->]. intros Hm. by apply BBLOCK_inj.
  - destruct (Z.eqb_spec c b) as [->|]; [done|]. done.
Qed.

(** Blocks outside the bitmap do not matter for it. *)
Lemma used_upd_out f n v c :
  0 <= c < sb_size sb0 -> ~ bmap_block n -> used (upd f n v) c = used f c.
Proof.
  intros Hc Hn. unfold used. rewrite upd_ne; [done|]. intros <-. apply Hn. by apply BBLOCK_range.
Qed.

Lemma elem_of_free f b : b ∈ free_list f <-> 0 <= b < sb_size sb0 /\ used f b = false.
Proof. unfold free_list. rewrite list_elem_of_filter, elem_of_seqZ. split; intros [? ?]; split; try done; lia. Qed.

Lemma NoDup_free f : NoDup (free_list f).
Proof. apply NoDup_filter, NoDup_seqZ. Qed.

Lemma free_list_ext f g :
  (forall c, 0 <= c < sb_size sb0 -> used f c = used g c) -> length (free_list f) = length (free_list g).
Proof.
  intros Hu. assert (Hp : free_list f ≡ₚ free_list g); [|by rewrite Hp].
  apply NoDup_Permutation; [apply NoDup_free..|]. intros c. rewrite !elem_of_free.
  split; intros [Hc ?]; (split; [done|]); [rewrite <- Hu by done|rewrite Hu by done]; done.
Qed.

(** The boot block, the log, the inodes and the bitmap are never free. *)
Definition meta_used (f : Z -> list Z) : Prop := forall b, 0 <= b < dstart sb0 -> used f b = true.

(** The blocks after block [a] is allocated, and after it is freed. *)
Definition alloc_upd (f : Z -> list Z) (a : Z) : Z -> list Z :=
  upd (upd f (BBLOCK a sb0) (set_bit (f (BBLOCK a sb0)) (a mod BPB))) a zblock.
Definition free_upd (f : Z -> list Z) (a : Z) : Z -> list Z :=
  upd f (BBLOCK a sb0) (clear_bit (f (BBLOCK a sb0)) (a mod BPB)).

Lemma free_data f a : meta_used f -> a ∈ free_list f -> dstart sb0 <= a < sb_size sb0.
Proof.
  intros Hm [Ha Hu]%elem_of_free. destruct (decide (dstart sb0 <= a)); [lia|].
  rewrite Hm in Hu by lia. done.
Qed.

Lemma data_not_bmap a : dstart sb0 <= a -> ~ bmap_block a.
Proof. unfold bmap_block. lia. Qed.

Lemma used_alloc f a c :
  meta_used f -> a ∈ free_list f -> 0 <= c < sb_size sb0 -> length (f (BBLOCK a sb0)) = BSIZE ->
  used (alloc_upd f a) c = (c =? a) || used f c.
Proof.
  intros Hm Ha Hc Hl. assert (Hd := free_data f a Hm Ha). apply elem_of_free in Ha as [Ha _].
  unfold alloc_upd. rewrite used_upd_out by (done || (apply data_not_bmap; lia)). apply used_set; [done|lia|done].
Qed.

Lemma alloc_upd_other f a m : m <> a -> ~ bmap_block m -> 0 <= a < sb_size sb0 -> alloc_upd f a m = f m.
Proof.
  intros Hma Hm Ha. unfold alloc_upd. rewrite !upd_ne; [done| |done]. intros ->. apply Hm. by apply BBLOCK_range.
Qed.

Lemma free_list_alloc f a :
  meta_used f -> a ∈ free_list f -> length (f (BBLOCK a sb0)) = BSIZE ->
  length (free_list f) = S (length (free_list (alloc_upd f a))).
Proof.
  intros Hm Ha Hl. assert (Hp : free_list f ≡ₚ a :: free_list (alloc_upd f a)).
  { apply NoDup_Permutation; [apply NoDup_free|apply NoDup_cons; split; [|apply NoDup_free]|].
    - rewrite elem_of_free. intros [Hr Hu]. by rewrite (used_alloc f a a Hm Ha Hr Hl), Z.eqb_refl in Hu.
    - intros c. rewrite elem_of_cons, !elem_of_free. destruct (decide (c = a)) as [->|Hne].
      + apply elem_of_free in Ha. tauto.
      + split.
        * intros [Hr Hu]. right. split; [done|]. rewrite (used_alloc f a c Hm Ha Hr Hl).
          by rewrite (proj2 (Z.eqb_neq c a) Hne).
        * intros [?|[Hr Hu]]; [done|]. split; [done|]. rewrite (used_alloc f a c Hm Ha Hr Hl) in Hu.
          by apply orb_false_iff in Hu as [_ ?]. }
  by rewrite Hp.
Qed.

(** ** Allocating and freeing *)

Section run.
Context (s0 : fss) (Hsb : sb s0 = sb0).
Context (held : list (nat * Z)) (lg : list Z) (f : Z -> list Z).
Hypothesis Hmeta : meta_used f.
Hypothesis Hheld : forall n, n ∈ map snd held -> dstart sb0 <= n /\ used f n = true.

Lemma bmap_not_held n : bmap_block n -> n ∉ map snd held.
Proof. intros Hn Hin. destruct (Hheld n Hin) as [Hd _]. by apply (data_not_bmap n). Qed.

(** The state after an allocation. *)
Definition allocated (a : Z) (s : fss) : Prop :=
  a ∈ free_list f /\ (forall c, 0 <= c < a -> used f c = true) /\
  holds s0 held (logged (logged lg (BBLOCK a sb0)) a) (alloc_upd f a) s.

Lemma balloc_loop_runs fuel : forall b s,
  holds s0 held lg f s -> (length held + S (length lg) < NBUF)%nat -> (S (length lg) < LOGMAX)%nat ->
  free_list f <> [] -> 0 <= b -> b mod BPB = 0 -> (forall c, 0 <= c < b -> c < sb_size sb0 -> used f c = true) ->
  sb_size sb0 - b < Z.of_nat fuel * BPB ->
  runs (balloc_loop fuel 1 b) s allocated.
Proof.
  induction fuel as [|fuel IH]; intros b s Hh Hn1 Hn2 Hex Hb Hm Hlow Hf.
  { destruct Hex. apply elem_of_nil_inv. intros c [Hc Hu]%elem_of_free. rewrite Hlow in Hu; [done|lia|lia]. }
  cbn [balloc_loop]. eapply runs_gets_sb; [exact Hh|exact Hsb|]. destruct (Z.ltb_spec b (sb_size sb0)) as [Hlt|Hge].
  2: { destruct Hex. apply elem_of_nil_inv. intros c [Hc Hu]%elem_of_free. rewrite Hlow in Hu; [done|lia|lia]. }
  assert (Hbb := BBLOCK_range b ltac:(lia)). assert (Hlen : length (f (BBLOCK b sb0)) = BSIZE).
  { eapply holds_len; [exact Hh|]. by apply bl_home_vis, bmap_home. }
  assert (Hblk : forall k, 0 <= k < BPB -> BBLOCK (b + k) sb0 = BBLOCK b sb0 /\ (b + k) mod BPB = k).
  { intros k Hk. assert (Hq : b = BPB * (b / BPB)) by (apply Z_div_exact_full_2; done).
    unfold BBLOCK. set (q := b / BPB) in *. replace (b + k) with (k + q * BPB) by lia.
    rewrite Z_div_plus_full, Z_mod_plus_full, Z.div_small, Z.mod_small by (done || lia). split; [f_equal; lia|done]. }
  eapply runs_bread; [exact Hh|by apply bl_home_vis, bmap_home|by apply bmap_not_held|lia|].
  intros h s1 Hh1. eapply runs_bdata; [exact Hh1|left|].
  assert (Hff := find_free_spec (f (BBLOCK b sb0)) b (sb_size sb0) Hb (Z.to_nat BPB) 0 ltac:(lia)).
  destruct (find_free _ _ _ _ _) as [bi|].
  - destruct Hff as (F1 & F2 & F3 & F4). destruct (Hblk bi F1) as [Hb1 Hb2]. set (a := b + bi) in *.
    assert (Ha : a ∈ free_list f).
    { apply elem_of_free. split; [lia|]. unfold used. by rewrite Hb1, Hb2. }
    assert (Hd := free_data f a Hmeta Ha). assert (Hav : bl_home a) by by apply data_home.
    assert (Hmin : forall c, 0 <= c < a -> used f c = true).
    { intros c Hc. destruct (decide (c < b)); [apply Hlow; lia|]. unfold used.
      destruct (Hblk (c - b)) as [Hc1 Hc2]; [lia|]. replace (b + (c - b)) with c in * by lia.
      rewrite Hc1, Hc2. apply F4. lia. }
    eapply runs_bwrite; [exact Hh1|left|by apply bmap_home|by apply length_set_bit|lia|].
    intros s2 Hh2. apply runs_bind. eapply runs_brelse; [exact Hh2|]. intros s3 Hh3.
    assert (Hl1 := length_logged lg (BBLOCK b sb0)).
    unfold bzero. apply runs_bind. eapply runs_bread; [exact Hh3|by apply bl_home_vis| |lia|].
    { intros Hin. destruct (Hheld a Hin) as [_ Hu]. apply elem_of_free in Ha. destruct Ha. congruence. }
    intros h2 s4 Hh4. eapply runs_bwrite; [exact Hh4|left|done|done|lia|].
    intros s5 Hh5. eapply runs_brelse; [exact Hh5|]. intros s6 Hh6.
    eapply runs_Ok; [done|]. split; [done|]. split; [done|]. unfold alloc_upd. rewrite Hb1, Hb2. exact Hh6.
  - apply runs_bind. eapply runs_brelse; [exact Hh1|]. intros s2 Hh2.
    apply IH; [done|done|done|done|unfold BPB; lia| | |unfold BPB in *; lia].
    + rewrite <- Z.add_mod_idemp_l, Hm by done. done.
    + intros c Hc Hcs. destruct (decide (c < b)); [apply Hlow; lia|]. unfold used.
      destruct (Hblk (c - b)) as [Hc1 Hc2]; [lia|]. replace (b + (c - b)) with c in * by lia.
      rewrite Hc1, Hc2. apply Hff; lia.
Qed.

Lemma balloc_runs s :
  holds s0 held lg f s -> (length held + S (length lg) < NBUF)%nat -> (S (length lg) < LOGMAX)%nat ->
  free_list f <> [] -> runs (balloc 1) s allocated.
Proof.
  intros Hh Hn1 Hn2 Hex. unfold balloc. eapply runs_gets_sb; [exact Hh|exact Hsb|].
  apply balloc_loop_runs; try done; [lia|].
  pose proof (Z.div_mod (sb_size sb0) BPB ltac:(done)). pose proof (Z.mod_pos_bound (sb_size sb0) BPB BPB_pos).
  pose proof (Z.div_pos (sb_size sb0) BPB ltac:(pose proof size_pos; lia) BPB_pos).
  rewrite Nat2Z.inj_succ, Z2Nat.id by lia. unfold BPB in *. lia.
Qed.

Lemma bfree_runs s b :
  holds s0 held lg f s -> (length held + length lg < NBUF)%nat -> (length lg < LOGMAX)%nat ->
  0 <= b < sb_size sb0 -> used f b = true ->
  runs (bfree 1 b) s (fun _ => holds s0 held (logged lg (BBLOCK b sb0)) (free_upd f b)).
Proof.
  intros Hh Hn1 Hn2 Hb Hu. unfold bfree. eapply runs_gets_sb; [exact Hh|exact Hsb|]. assert (Hbb := BBLOCK_range b Hb).
  assert (Hlen : length (f (BBLOCK b sb0)) = BSIZE).
  { eapply holds_len; [exact Hh|]. by apply bl_home_vis, bmap_home. }
  eapply runs_bread; [exact Hh|by apply bl_home_vis, bmap_home|by apply bmap_not_held|lia|].
  intros h s1 Hh1. eapply runs_bdata; [exact Hh1|left|]. unfold used in Hu. rewrite Hu. cbn [negb].
  eapply runs_bwrite; [exact Hh1|left|by apply bmap_home|by apply length_clear_bit|lia|].
  intros s2 Hh2. eapply runs_brelse; [exact Hh2|]. done.
Qed.
End run.
End alloc.
End spec.
