(* ===== verification/Icache.v ===== *)
(** The inode cache: every count [ip->ref] is the number of uses of the entry,
    and no two entries in use are the same inode, through all of [fs.c]. *)

From S2P Require Import Prelude Layout CString Bytes Bio Block Log Fs FsBlocks.

(** What identifies an entry, and the working directory. *)
Definition ident (x : inode) : Z * Z * Z := (i_dev x, i_inum x, i_ref x).

(** The next call is known from [H]. *)
Tactic Notation "call_step" open_constr(H) := apply leads_bind; eapply leads_mono; [eapply H|].
(** By the lemma [L] the next call keeps what [H] says. *)
Tactic Notation "kept_step" open_constr(L) constr(H) := apply leads_bind; eapply leads_mono; [eapply L; [solve_keeps|exact H]|].

Section icache.
Context {St : Type} `{blocks St}.
Abbreviation fss := (@Fs.fss St).
Abbreviation F := (@Fs.F St).
Context (dev_read : Z -> option (nat -> Z -> F (Z * list Z))) (dev_write : Z -> option (nat -> list Z -> Z -> F Z)).

Definition ids (s : fss) : list (Z * Z * Z) * nat := (ident <$> icache s, cwd s).

(** Devices may lock and unlock inodes but do not count uses. *)
Hypothesis Hread : forall m rd ip n, dev_read m = Some rd -> keeps ids (rd ip n).
Hypothesis Hwrite : forall m wt ip bs n, dev_write m = Some wt -> keeps ids (wt ip bs n).

(** ** What leaves the counts alone *)

Lemma keeps_on_blk {A} (m : M St A) : keeps ids (on_blk m).
Proof. intros s a s' Hm. unfold on_blk, zoom in Hm. destruct (m (blk s)) as [[b t]| | |]; try done. by injection Hm as <- <-. Qed.
Lemma keeps_bread d n : keeps ids (bread_ d n).
Proof. apply keeps_on_blk. Qed.
Lemma keeps_bdata b : keeps ids (bdata b).
Proof. apply keeps_on_blk. Qed.
Lemma keeps_bwrite b v : keeps ids (bwrite_log b v).
Proof. apply keeps_on_blk. Qed.
Lemma keeps_brelse b : keeps ids (brelse_ b).
Proof. apply keeps_on_blk. Qed.

Lemma keeps_geti ip : keeps ids (geti ip).
Proof. unfold geti. auto with keeps. Qed.

Lemma keeps_updi ip g : (forall x, ident (g x) = ident x) -> keeps ids (updi ip g).
Proof.
  intros Hg s a s' Hs. unfold updi, geti, bind, gets in Hs. destruct (icache s !! ip) as [x|] eqn:Hx; [|done].
  cbn in Hs. injection Hs as <- <-. unfold ids. cbn. f_equal. rewrite list_fmap_insert, Hg.
  apply list_insert_id. by rewrite list_lookup_fmap, Hx.
Qed.

Hint Resolve keeps_on_blk keeps_bread keeps_bdata keeps_bwrite keeps_brelse keeps_geti : keeps.
Hint Extern 1 (keeps _ (updi _ _)) => apply keeps_updi; done : keeps.
Hint Extern 1 (keeps _ (begin_op_)) => apply keeps_on_blk : keeps.
Hint Extern 1 (keeps _ (end_op_)) => apply keeps_on_blk : keeps.

Lemma keeps_bzero d n : keeps ids (bzero d n).
Proof. unfold bzero. solve_keeps. Qed.
Hint Resolve keeps_bzero : keeps.
Lemma keeps_balloc d : keeps ids (balloc d).
Proof.
  assert (Hl : forall fuel b, keeps ids (balloc_loop fuel d b)); [|unfold balloc; solve_keeps].
  induction fuel as [|fuel IH]; intros b; cbn [balloc_loop]; solve_keeps.
Qed.
Lemma keeps_bfree d b : keeps ids (bfree d b).
Proof. unfold bfree. solve_keeps. Qed.
Hint Resolve keeps_balloc keeps_bfree : keeps.

Lemma keeps_iupdate ip : keeps ids (iupdate ip).
Proof. unfold iupdate. solve_keeps. Qed.
Lemma keeps_iacquire ip : keeps ids (iacquire ip).
Proof. unfold iacquire. solve_keeps. Qed.
Lemma keeps_irelease ip : keeps ids (irelease ip).
Proof. unfold irelease. solve_keeps. Qed.
Hint Resolve keeps_iupdate keeps_iacquire keeps_irelease : keeps.
Lemma keeps_ilock ip : keeps ids (ilock ip).
Proof. unfold ilock. solve_keeps. Qed.
Lemma keeps_iunlock ip : keeps ids (iunlock ip).
Proof. unfold iunlock, iholding. solve_keeps. Qed.
Lemma keeps_bmap ip bn : keeps ids (bmap ip bn).
Proof. unfold bmap. solve_keeps. Qed.
Hint Resolve keeps_ilock keeps_iunlock keeps_bmap : keeps.

Lemma keeps_itrunc ip : keeps ids (itrunc ip).
Proof.
  assert (H1 : forall n i, keeps ids (itrunc_direct n i ip)).
  { induction n as [|n IH]; intros i; cbn [itrunc_direct]; solve_keeps. }
  assert (H2 : forall n d j v, keeps ids (itrunc_indirect d n j v)).
  { induction n as [|n IH]; intros d j v; cbn [itrunc_indirect]; solve_keeps. }
  unfold itrunc. solve_keeps.
Qed.
Lemma keeps_readi ip off n : keeps ids (readi dev_read ip off n).
Proof.
  assert (Hl : forall fuel o k, keeps ids (readi_loop fuel ip o k)).
  { induction fuel as [|fuel IH]; intros o k; cbn [readi_loop]; solve_keeps. }
  unfold readi. apply keeps_bind; [apply keeps_geti|]. intros x. apply keeps_if; [|solve_keeps].
  apply keeps_if; [solve_keeps|]. destruct (dev_read (i_major x)) eqn:Hd; [by eapply Hread|solve_keeps].
Qed.
Lemma keeps_writei ip src off n : keeps ids (writei dev_write ip src off n).
Proof.
  assert (Hl : forall fuel bs o k, keeps ids (writei_loop fuel ip bs o k)).
  { induction fuel as [|fuel IH]; intros bs o k; cbn [writei_loop]; solve_keeps. }
  unfold writei. apply keeps_bind; [apply keeps_geti|]. intros x. apply keeps_if; [|solve_keeps].
  apply keeps_if; [solve_keeps|]. destruct (dev_write (i_major x)) eqn:Hd; [by eapply Hwrite|solve_keeps].
Qed.
Hint Resolve keeps_itrunc keeps_readi keeps_writei : keeps.

Lemma keeps_read_dirent msg dp off : keeps ids (read_dirent dev_read msg dp off).
Proof. unfold read_dirent. solve_keeps. Qed.
Lemma keeps_stati ip : keeps ids (stati ip).
Proof. unfold stati. solve_keeps. Qed.
Hint Resolve keeps_read_dirent keeps_stati : keeps.
Lemma keeps_dirlink_loop dp fuel : forall off, keeps ids (dirlink_loop dev_read fuel dp off).
Proof. induction fuel as [|fuel IH]; intros off; cbn [dirlink_loop]; solve_keeps. Qed.
Hint Resolve keeps_dirlink_loop : keeps.

(** ** Counting uses *)

(** Uses by open files and by other processes, and the working directory. *)
Context (base : nat -> Z) (Hbase : forall i, 0 <= base i) (cw : nat).

(** Every count is the number of uses, up to [delta], which is what the call in
    progress holds; entries in use are different inodes. *)
Record counted (delta : nat -> Z) (s : fss) : Prop := Counted {
  ct_cwd : cwd s = cw;
  ct_ref : forall i x, icache s !! i = Some x -> i_ref x = base i + (if decide (cw = i) then 1 else 0) + delta i;
  ct_uniq : forall i j x y, icache s !! i = Some x -> icache s !! j = Some y -> 0 < i_ref x -> 0 < i_ref y ->
    i_dev x = i_dev y -> i_inum x = i_inum y -> i = j
}.

Lemma counted_ext d d' s : (forall i, d i = d' i) -> counted d s -> counted d' s.
Proof. intros Hd [H0 H1 H2]. constructor; [done| |done]. intros i x Hx. by rewrite <- Hd, (H1 i x Hx). Qed.

Lemma counted_ids d s s' : ids s' = ids s -> counted d s -> counted d s'.
Proof.
  unfold ids. intros [= Hi Hc] [H0 H1 H2].
  assert (Hl : forall i x', icache s' !! i = Some x' -> exists x, icache s !! i = Some x /\ ident x' = ident x).
  { intros i x' Hx'. assert (Hf : (ident <$> icache s') !! i = Some (ident x')) by by rewrite list_lookup_fmap, Hx'.
    rewrite Hi, list_lookup_fmap in Hf. destruct (icache s !! i) as [x|]; [|done]. exists x. split; [done|]. apply (inj Some). symmetry. exact Hf. }
  constructor.
  - by rewrite Hc.
  - intros i x' Hx'. destruct (Hl i x' Hx') as (x & Hx & [= _ _ ->]). by rewrite (H1 i x Hx).
  - intros i j x' y' Hx' Hy'. destruct (Hl i x' Hx') as (x & Hx & [= -> -> ->]). destruct (Hl j y' Hy') as (y & Hy & [= -> -> ->]).
    by apply (H2 i j x y).
Qed.

Lemma counted_keeps {A} d (m : F A) : keeps ids m -> keeps_inv (counted d) m.
Proof.
  intros Hm s Hs. eapply leads_mono; [apply (keeps_leads ids m s Hm)|]. intros a s' Hi. exact (counted_ids d s s' Hi Hs).
Qed.

(** A change of one entry. *)
Lemma updi_counted d ip g n s :
  counted d s ->
  (forall x, icache s !! ip = Some x -> i_ref (g x) = i_ref x + n) ->
  (forall x, icache s !! ip = Some x -> 0 < i_ref (g x) -> forall j y, j <> ip -> icache s !! j = Some y -> 0 < i_ref y ->
     ~ (i_dev (g x) = i_dev y /\ i_inum (g x) = i_inum y)) ->
  leads (updi ip g) s (fun _ s' => counted (more ip n d) s').
Proof.
  intros [H0 H1 H2] Hr Hu. unfold leads, updi, geti, bind, gets. destruct (icache s !! ip) as [x|] eqn:Hx; [|done].
  cbn. constructor; cbn; [done| |].
  - intros i y [(<- & <- & _)|[Hne Hi]]%list_lookup_insert_Some; unfold more.
    + rewrite (decide_True (P := ip = ip)), (Hr x eq_refl), (H1 ip x Hx) by done. lia.
    + rewrite (H1 i y Hi), (decide_False (P := i = ip)) by congruence. lia.
  - intros i j y z [(<- & <- & _)|[Hne Hi]]%list_lookup_insert_Some [(<- & <- & _)|[Hne' Hj]]%list_lookup_insert_Some Hy Hz Hd Hn.
    + done.
    + exfalso. by apply (Hu x eq_refl Hy j z).
    + exfalso. by apply (Hu x eq_refl Hz i y).
    + by apply (H2 i j y z).
Qed.

(** The same inode with another count; it was in use if it will be. *)
Lemma updi_ref_counted d ip n s :
  counted d s -> (forall x, icache s !! ip = Some x -> 0 < i_ref x + n -> 0 < i_ref x) ->
  leads (updi ip (fun x => set_i_ref (i_ref x + n) x)) s (fun _ s' => counted (more ip n d) s').
Proof.
  intros Hs Hlive. apply updi_counted; [done|done|]. intros x Hx Hg j y Hj Hy Hy0 [Hd Hn]. cbn in Hg, Hd, Hn.
  apply Hj. by apply (ct_uniq _ _ Hs j ip y x Hy Hx Hy0 (Hlive x Hx Hg)).
Qed.

Ltac keep_step H := kept_step (counted_keeps _) H.

Lemma idup_counted d ip s :
  counted d s -> (forall x, icache s !! ip = Some x -> 0 < i_ref x) ->
  leads (idup ip) s (fun ip' s' => ip' = ip /\ counted (more ip 1 d) s').
Proof.
  intros Hs Hl. unfold idup. apply leads_bind. eapply leads_mono; [apply updi_ref_counted; [exact Hs|auto]|].
  by intros [] s' Hs'.
Qed.

Lemma iput_counted d ip s : counted d s -> leads (iput ip) s (fun _ s' => counted (more ip (-1) d) s').
Proof.
  intros Hs. unfold iput.
  keep_step Hs. intros [] s1 H1.
  keep_step H1. intros x s2 H2.
  keep_step H2. intros [] s3 H3.
  keep_step H3. intros [] s4 H4.
  eapply leads_mono; [apply (updi_ref_counted d ip (-1)); [exact H4|lia]|]. by intros [] s5 ?.
Qed.

(** The scan of [iget]. *)
Lemma iget_scan_spec dv n l : forall i e,
  match iget_scan l i e dv n with
  | (Some r, _) => exists k x, r = (i + k)%nat /\ l !! k = Some x /\ 0 < i_ref x /\ i_dev x = dv /\ i_inum x = n
  | (None, e') => (forall k x, l !! k = Some x -> 0 < i_ref x -> ~ (i_dev x = dv /\ i_inum x = n)) /\
      (e' = e \/ exists k x, e' = Some (i + k)%nat /\ l !! k = Some x /\ i_ref x = 0)
  end.
Proof.
  induction l as [|x l IH]; intros i e; cbn [iget_scan].
  { split; [by intros k x|by left]. }
  destruct (_ && _) eqn:Ht.
  { apply andb_true_iff in Ht as [[Hr Hd]%andb_true_iff Hn]. exists O, x. rewrite Nat.add_0_r.
    apply Z.ltb_lt in Hr. apply Z.eqb_eq in Hd, Hn. done. }
  assert (Hx : 0 < i_ref x -> ~ (i_dev x = dv /\ i_inum x = n)).
  { intros Hr [Hd Hn]. rewrite (proj2 (Z.ltb_lt _ _) Hr), (proj2 (Z.eqb_eq _ _) Hd), (proj2 (Z.eqb_eq _ _) Hn) in Ht. done. }
  set (e1 := if _ && _ then Some i else e). specialize (IH (S i) e1). destruct (iget_scan l (S i) e1 dv n) as [[r|] e'].
  - destruct IH as (k & y & -> & Hk). exists (S k), y. split; [lia|done].
  - destruct IH as [I1 I2]. split.
    + intros [|k] y Hy; [by injection Hy as <-|by apply (I1 k)].
    + destruct I2 as [->|(k & y & -> & Hk)]; [|right; exists (S k), y; split; [f_equal; lia|done]].
      unfold e1. destruct (bool_decide (e = None) && _) eqn:Hz; [|by left].
      apply andb_true_iff in Hz as [_ Hz%Z.eqb_eq]. right. exists O, x. rewrite Nat.add_0_r. done.
Qed.

Lemma iget_counted d dv n s :
  counted d s -> leads (iget dv n) s (fun ip s' => counted (more ip 1 d) s').
Proof.
  intros Hs. unfold iget. apply leads_bind. cbn. assert (Hsc := iget_scan_spec dv n (icache s) 0 None).
  destruct (iget_scan (icache s) 0 None dv n) as [[r|] e].
  - destruct Hsc as (k & x & -> & Hx & Hr & _). cbn [Nat.add]. apply leads_bind.
    eapply leads_mono; [apply (updi_ref_counted d k 1 s Hs); intros y; rewrite Hx; intros [= <-]; lia|].
    by intros [] s' Hs'.
  - destruct Hsc as [Hno [->|(k & x & -> & Hx & Hr)]]; [done|]. cbn [Nat.add]. apply leads_bind.
    eapply leads_mono; [apply (updi_counted d k _ 1 s Hs)|by intros [] s' Hs'].
    + intros y. rewrite Hx. intros [= <-]. cbn. lia.
    + intros y Hy _ j z Hj Hz Hz0 [Hd Hn]. cbn in Hd, Hn. by apply (Hno j z Hz Hz0).
Qed.

Lemma ialloc_counted d dv ty s : counted d s -> leads (ialloc dv ty) s (fun ip s' => counted (more ip 1 d) s').
Proof.
  intros Hs. assert (Hl : forall fuel inum s, counted d s -> leads (ialloc_loop fuel dv ty inum) s (fun ip s' => counted (more ip 1 d) s')).
  { clear s Hs. induction fuel as [|fuel IH]; intros inum s Hs; [done|]. cbn [ialloc_loop].
    keep_step Hs. intros sb s1 H1.
    destruct (inum <? sb_ninodes sb); [|done].
    keep_step H1. intros bp s2 H2.
    keep_step H2. intros b s3 H3.
    cbn zeta. destruct (_ =? 0).
    - keep_step H3. intros [] s4 H4.
      keep_step H4. intros [] s5 H5.
      by apply (iget_counted d).
    - keep_step H3. intros [] s4 H4. by apply IH. }
  unfold ialloc. keep_step Hs. intros sb s1 H1. apply Hl, H1.
Qed.

(** ** Directories and paths *)

Lemma iunlockput_counted d ip s : counted d s -> leads (iunlockput ip) s (fun _ s' => counted (more ip (-1) d) s').
Proof. intros Hs. unfold iunlockput. keep_step Hs. intros [] s1 H1. by apply iput_counted. Qed.

Lemma dirlookup_counted d dp name s :
  counted d s ->
  leads (dirlookup dev_read dp name) s (fun o s' => match o with
    | Some (ip, _) => counted (more ip 1 d) s'
    | None => counted d s' end).
Proof.
  intros Hs. assert (Hl : forall fuel off s, counted d s -> leads (dirlookup_loop dev_read fuel dp name off) s (fun o s' =>
    match o with Some (ip, _) => counted (more ip 1 d) s' | None => counted d s' end)).
  { clear s Hs. induction fuel as [|fuel IH]; intros off s Hs; [done|]. cbn [dirlookup_loop]. keep_step Hs. intros x s1 H1.
    destruct (off <? i_size x); [|done]. keep_step H1. intros de s2 H2.
    destruct (de_inum de =? 0); [by apply IH|]. destruct (namecmp name (de_name de)); [|by apply IH].
    call_step (iget_counted d _ _ s2 H2). by intros ip s3 H3. }
  unfold dirlookup. keep_step Hs. intros x s1 H1. destruct (negb _); [done|]. by apply Hl.
Qed.

Lemma dirlink_counted d dp name inum s :
  counted d s -> leads (dirlink dev_read dev_write dp name inum) s (fun _ s' => counted d s').
Proof.
  intros Hs. unfold dirlink. call_step (dirlookup_counted d dp name s Hs). intros [[ip off]|] s1 H1.
  - call_step (iput_counted _ ip s1 H1). intros [] s2 H2.
    eapply counted_ext; [apply more_cancel|exact H2].
  - apply counted_keeps; [solve_keeps|exact H1].
Qed.

Lemma namex_counted d path parent s :
  counted d s -> (forall i, 0 <= d i) ->
  leads (namex dev_read path parent) s (fun o s' => match o with
    | Some (ip, _) => counted (more ip 1 d) s'
    | None => counted d s' end).
Proof.
  intros Hs Hd. assert (Hl : forall fuel ip path name s, counted (more ip 1 d) s ->
    leads (namex_loop dev_read fuel ip path parent name) s (fun o s' =>
      match o with Some (ip, _) => counted (more ip 1 d) s' | None => counted d s' end)).
  { clear s Hs path. induction fuel as [|fuel IH]; intros ip path name s Hs; [done|]. cbn [namex_loop].
    assert (Hput : forall s, counted (more ip 1 d) s -> leads (iunlockput ip) s (fun _ s' => counted d s')).
    { intros t Ht. eapply leads_mono; [by apply (iunlockput_counted _ ip t Ht)|]. intros [] t' Ht'.
      eapply counted_ext; [apply more_cancel|exact Ht']. }
    destruct (skipelem path) as [[nm rest]|].
    2: { destruct parent; [|done]. call_step (iput_counted _ ip s Hs). intros [] s1 H1.
         eapply counted_ext; [apply more_cancel|exact H1]. }
    keep_step Hs. intros [] s1 H1. keep_step H1. intros x s2 H2. destruct (negb _).
    { call_step (Hput s2 H2). by intros [] s3 H3. }
    destruct (parent && _); [keep_step H2; by intros [] s3 H3|].
    call_step (dirlookup_counted _ ip nm s2 H2). intros [[next off]|] s3 H3.
    - call_step (iunlockput_counted _ ip s3 H3). intros [] s4 H4. apply IH.
      eapply counted_ext; [|exact H4]. intros i. unfold more. repeat case_decide; lia.
    - call_step (Hput s3 H3). by intros [] s4 H4. }
  assert (Hdup : leads (c ← gets cwd; idup c) s (fun ip s' => counted (more ip 1 d) s')).
  { apply leads_bind. cbn. rewrite (ct_cwd _ _ Hs). eapply leads_mono; [apply (idup_counted d cw s Hs)|by intros ip s' [-> ?]].
    intros x Hx. rewrite (ct_ref _ _ Hs cw x Hx), decide_True by done. specialize (Hbase cw). specialize (Hd cw). lia. }
  unfold namex. apply leads_bind. eapply leads_mono with (Q := fun ip s' => counted (more ip 1 d) s').
  - destruct path as [|c path]; [done|]. destruct (c =? SLASH); [by apply iget_counted|done].
  - intros ip s1 H1. by apply Hl.
Qed.

Lemma namei_counted d path s :
  counted d s -> (forall i, 0 <= d i) ->
  leads (namei dev_read path) s (fun o s' => match o with Some ip => counted (more ip 1 d) s' | None => counted d s' end).
Proof.
  intros Hs Hd. unfold namei. call_step (namex_counted d path false s Hs Hd). by intros [[ip nm]|] s1 H1.
Qed.
End icache.

#[export] Hint Resolve keeps_on_blk keeps_geti keeps_iupdate keeps_ilock keeps_iunlock keeps_readi keeps_writei
  keeps_read_dirent keeps_stati : keeps.
#[export] Hint Extern 1 (keeps _ (updi _ _)) => apply keeps_updi; done : keeps.
#[export] Hint Extern 1 (keeps _ (begin_op_)) => apply keeps_on_blk : keeps.
#[export] Hint Extern 1 (keeps _ (end_op_)) => apply keeps_on_blk : keeps.
