(* ===== verification/FsFile.v ===== *)
(** The contents of a file: the block map of an inode ([bmap]), and what
    [readi] and [writei] make of it. *)

From S2P Require Import Prelude Layout CString Bytes Bio Block Log Fs FsBlocks.

(** ** The block map

    Slot [k] of an inode, for [k] below [MAXFILE], is the number of the block
    with bytes [512 * k] and up, 0 if there is none; slot [MAXFILE] is the
    number of the indirect block. *)
Definition indirect (x : inode) : Z := i_addrs x !!! NDIRECT.
Definition slot_of (f : Z -> list Z) (x : inode) (k : Z) : Z :=
  if k <? Z.of_nat NDIRECT then i_addrs x !!! Z.to_nat k
  else if k =? MAXFILE then indirect x
  else if indirect x =? 0 then 0 else rd32 (f (indirect x)) (4 * Z.to_nat (k - Z.of_nat NDIRECT)).

Definition with_addrs (l : list Z) (x : inode) : inode :=
  Inode (i_dev x) (i_inum x) (i_ref x) (i_lock x) (i_valid x) (i_type x) (i_major x) (i_minor x) (i_nlink x) (i_size x) l.

Section contents.
Context {St : Type} `{HS : blocks_spec St}.
Abbreviation fss := (@Fs.fss St).
Abbreviation F := (@Fs.F St).
Context (sb0 : superblock) (Hly : layout sb0).
Abbreviation used := (FsBlocks.used sb0).
Abbreviation meta_used := (FsBlocks.meta_used sb0).
Abbreviation free_list := (FsBlocks.free_list sb0).
Abbreviation bmap_block := (FsBlocks.bmap_block sb0).
Abbreviation alloc_upd := (FsBlocks.alloc_upd sb0).
Implicit Types (f g : Z -> list Z) (x : inode).

Definition a_slot (k : Z) : Prop := 0 <= k <= MAXFILE.
Definition data_block (n : Z) : Prop := dstart sb0 <= n < sb_size sb0.

(** Every slot is empty or a data block in use, no block is in two slots, and
    there is a block for every byte below the size. *)
Record inode_ok f x : Prop := InodeOk {
  io_dev : i_dev x = 1;
  io_len : length (i_addrs x) = 13%nat;
  io_data : forall k, a_slot k -> slot_of f x k <> 0 -> data_block (slot_of f x k) /\ used f (slot_of f x k) = true;
  io_inj : forall j k, a_slot j -> a_slot k -> slot_of f x j <> 0 -> slot_of f x j = slot_of f x k -> j = k;
  io_size : 0 <= i_size x <= MAXFILE * Z.of_nat BSIZE;
  io_full : forall k, 0 <= k < MAXFILE -> k * Z.of_nat BSIZE < i_size x -> slot_of f x k <> 0
}.

(** The slots [new] were filled with fresh blocks, and nothing else happened to
    the inode or to a block that was in use by somebody else. *)
Record ext f x f' x' (new : list Z) : Prop := Ext {
  ex_ok : inode_ok f' x';
  ex_mu : meta_used f';
  ex_same : x' = with_addrs (i_addrs x') x;
  ex_keep : forall k, a_slot k -> k ∉ new -> slot_of f' x' k = slot_of f x k;
  ex_new : forall k, k ∈ new -> a_slot k /\ slot_of f x k = 0 /\ slot_of f' x' k <> 0 /\ used f (slot_of f' x' k) = false;
  ex_frame : forall m, 0 <= m < sb_size sb0 -> used f m = true -> ~ bmap_block m ->
    (forall k, a_slot k -> slot_of f x k <> 0 -> slot_of f x k <> m) -> f' m = f m;
  ex_used : forall m, 0 <= m < sb_size sb0 ->
    used f' m = true <-> used f m = true \/ exists k, k ∈ new /\ m = slot_of f' x' k;
  ex_free : length (free_list f) = (length (free_list f') + length new)%nat
}.

(** The data of the file is as before. *)
Definition kept f x f' : Prop := forall k, 0 <= k < MAXFILE -> slot_of f x k <> 0 -> f' (slot_of f x k) = f (slot_of f x k).

Lemma slot_ind f x : slot_of f x MAXFILE = indirect x.
Proof. done. Qed.

Lemma data_pos n : data_block n -> 0 < n.
Proof.
  unfold data_block, dstart. pose proof (size_pos sb0 Hly) as Hs. destruct (ly_order _ Hly) as [H1 H2].
  pose proof (Z.div_pos (sb_size sb0) BPB ltac:(lia) BPB_pos). lia.
Qed.

Lemma ext_refl f x : inode_ok f x -> meta_used f -> ext f x f x [].
Proof.
  intros Hok Hm. constructor; try done.
  - by destruct x.
  - by intros k ?%elem_of_nil.
  - intros m _. split; [by left|]. intros [?|(k & ?%elem_of_nil & _)]; done.
Qed.

Lemma ext_trans f0 x0 f1 x1 f2 x2 n1 n2 :
  ext f0 x0 f1 x1 n1 -> ext f1 x1 f2 x2 n2 -> ext f0 x0 f2 x2 (n1 ++ n2).
Proof.
  intros [A1 A2 A3 A4 A5 A7 A8 A9] [B1 B2 B3 B4 B5 B7 B8 B9].
  assert (Hdisj : forall k, k ∈ n1 -> k ∉ n2).
  { intros k H1 H2. destruct (A5 k H1) as (_ & _ & Hn & _). by destruct (B5 k H2) as (_ & Hz & _). }
  assert (Hk1 : forall k, k ∈ n1 -> slot_of f2 x2 k = slot_of f1 x1 k).
  { intros k Hk. apply B4; [by apply A5|by apply Hdisj]. }
  constructor; try done.
  - rewrite B3, A3. done.
  - intros k Hs Hk. rewrite elem_of_app in Hk. rewrite B4, A4 by tauto. done.
  - intros k [Hk|Hk]%elem_of_app.
    + rewrite Hk1 by done. apply A5, Hk.
    + destruct (B5 k Hk) as (Hs & Hz & Hn & Hu). split_and!; [done| |done|].
      * rewrite <- (A4 k Hs); [done|]. intros Hc. by destruct (Hdisj k Hc).
      * destruct (used f0 (slot_of f2 x2 k)) eqn:Hu0; [|done]. rewrite <- Hu. symmetry. apply A8; [|by left].
        destruct (io_data _ _ B1 k Hs Hn) as [Hd _]. pose proof (data_pos _ Hd). unfold data_block in Hd. lia.
  - intros m Hm Hu Hb Hi. rewrite B7, A7; try done; [by apply A8; [|left]|].
    intros k Hk Hn. destruct (decide (k ∈ n1)) as [Hin|Hin].
    + intros <-. destruct (A5 _ Hin) as (_ & _ & _ & Hu'). congruence.
    + rewrite A4 in Hn |- * by done. by apply Hi.
  - intros m Hm. rewrite B8, A8 by done. split.
    + intros [[?|(k & Hk & ->)]|(k & Hk & ->)]; [by left|right|right].
      * exists k. rewrite elem_of_app, Hk1 by done. tauto.
      * exists k. rewrite elem_of_app. tauto.
    + intros [?|(k & [Hk|Hk]%elem_of_app & ->)]; [by left; left|left; right|right].
      * exists k. by rewrite Hk1.
      * by exists k.
  - rewrite length_app. lia.
Qed.

Lemma kept_trans f x f1 x1 f2 new : ext f x f1 x1 new -> kept f x f1 -> kept f1 x1 f2 -> kept f x f2.
Proof.
  intros He H1 H2 k Hk Hn. assert (Hs : slot_of f1 x1 k = slot_of f x k).
  { apply (ex_keep _ _ _ _ _ He); [unfold a_slot; lia|]. intros Hin. by destruct (ex_new _ _ _ _ _ He k Hin) as (_ & ? & _). }
  rewrite <- (H1 k Hk Hn), <- Hs. apply H2; [done|]. by rewrite Hs.
Qed.

(** One slot is filled with the free block [a]. *)
Lemma ext_one f x f' x' k a :
  inode_ok f x -> meta_used f -> a_slot k -> slot_of f x k = 0 -> a ∈ free_list f ->
  x' = with_addrs (i_addrs x') x -> length (i_addrs x') = 13%nat ->
  slot_of f' x' k = a -> (forall j, a_slot j -> j <> k -> slot_of f' x' j = slot_of f x j) ->
  (forall c, 0 <= c < sb_size sb0 -> used f' c = (c =? a) || used f c) ->
  (forall m, 0 <= m < sb_size sb0 -> m <> a -> ~ bmap_block m -> m <> indirect x \/ indirect x = 0 -> f' m = f m) ->
  length (free_list f) = S (length (free_list f')) ->
  ext f x f' x' [k] /\ kept f x f'.
Proof.
  intros Hok Hmu Hk Hz Ha Hx' Hlen Hka Hoth Hused Hframe Hfree.
  assert (Had := free_data sb0 f a Hmu Ha). assert (Hap := data_pos a Had).
  assert (Hau : used f a = false) by (apply elem_of_free in Ha; tauto).
  assert (Hne : forall j, a_slot j -> slot_of f x j <> 0 -> slot_of f x j <> a).
  { intros j Hj Hn He. destruct (io_data _ _ Hok j Hj Hn) as [_ Hu]. congruence. }
  assert (Hsl : forall j, a_slot j -> slot_of f' x' j = if decide (j = k) then a else slot_of f x j).
  { intros j Hj. case_decide; [by subst j|by apply Hoth]. }
  assert (Hmf : a_slot MAXFILE) by (unfold a_slot, MAXFILE; lia).
  split; [|intros j Hj Hn].
  2: { assert (Hjs : a_slot j) by (unfold a_slot; lia). destruct (io_data _ _ Hok j Hjs Hn) as [Hd Hu].
       assert (Hp := data_pos _ Hd). apply Hframe; [unfold data_block in Hd; lia|by apply Hne|by apply data_not_bmap, Hd|].
       left. rewrite <- (slot_ind f). intros He. assert (j = MAXFILE); [|lia]. by apply (io_inj _ _ Hok). }
  constructor; try done.
  - constructor.
    + rewrite Hx'. apply Hok.
    + done.
    + intros j Hj. rewrite Hsl by done. case_decide as Hjk.
      * intros _. split; [done|]. rewrite Hused, Z.eqb_refl by (unfold data_block in Had; lia). done.
      * intros Hn. destruct (io_data _ _ Hok j Hj Hn) as [Hd Hu]. split; [done|]. assert (Hp := data_pos _ Hd).
        rewrite Hused, Hu by (unfold data_block in Hd; lia). apply orb_true_r.
    + intros i j Hi Hj. rewrite !Hsl by done. case_decide as H1; case_decide as H2; try congruence.
      * intros _ He. destruct (Hne j Hj); [lia|done].
      * intros Hn He. by destruct (Hne i Hi).
      * apply (io_inj _ _ Hok); done.
    + rewrite Hx'. apply Hok.
    + intros j Hj. rewrite Hsl by (unfold a_slot; lia). rewrite Hx'. cbn [with_addrs i_size]. intros Hs.
      case_decide; [lia|]. by apply Hok.
  - intros c Hc. pose proof (ly_data _ Hly). rewrite Hused, Hmu by lia. apply orb_true_r.
  - intros j Hj Hn. apply Hoth; [done|]. intros ->. apply Hn. left.
  - intros j ->%list_elem_of_singleton. rewrite Hka. split_and!; [done|done|lia|done].
  - intros m Hm Hu Hb Hi. apply Hframe; try done; [intros ->; congruence|].
    destruct (decide (indirect x = 0)) as [?|Hn]; [by right|left]. intros ->. by apply (Hi MAXFILE).
  - intros m Hm. rewrite Hused, orb_true_iff, Z.eqb_eq by done. split.
    + intros [->|?]; [right; exists k; split; [left|done]|by left].
    + intros [?|(j & ->%list_elem_of_singleton & ->)]; [by right|by left].
  - cbn. lia.
Qed.

Lemma rd32_zblock i : rd32 zblock i = 0.
Proof.
  unfold rd32, byte_at, zblock. assert (H0 : forall j, default 0 (replicate BSIZE 0 !! j) = 0).
  { intros j. destruct (replicate BSIZE 0 !! j) as [v|] eqn:Hv; [|done].
    apply lookup_replicate in Hv as [-> _]. done. }
  by rewrite !H0.
Qed.

(** A slot in the inode itself: a direct one or that of the indirect block. *)
Lemma ext_direct f x k a i :
  inode_ok f x -> meta_used f -> a ∈ free_list f -> length (f (BBLOCK a sb0)) = BSIZE ->
  (0 <= k < Z.of_nat NDIRECT /\ i = Z.to_nat k \/ k = MAXFILE /\ i = NDIRECT) -> slot_of f x k = 0 ->
  ext f x (alloc_upd f a) (set_i_addr i a x) [k] /\ kept f x (alloc_upd f a).
Proof.
  intros Hok Hmu Ha Hl Hk Hz. assert (Hlen := io_len _ _ Hok).
  assert (Had := free_data sb0 f a Hmu Ha). assert (Hap := data_pos a Had).
  assert (Hi : (i < 13)%nat) by (unfold NDIRECT in *; lia).
  assert (Hin : set_i_addr i a x = with_addrs (<[i := a]> (i_addrs x)) x) by done.
  assert (Hks : a_slot k) by (unfold a_slot, MAXFILE, NDIRECT in *; lia).
  assert (Hau : used f a = false) by (apply elem_of_free in Ha; tauto).
  apply (ext_one f x _ _ k a); try done.
  - cbn. by rewrite length_insert.
  - unfold slot_of, indirect. cbn [set_i_addr i_addrs]. destruct Hk as [[Hk ->]|[-> ->]].
    + rewrite (proj2 (Z.ltb_lt _ _)) by lia. apply list_lookup_total_insert_eq. lia.
    + cbn. apply list_lookup_total_insert_eq. lia.
  - intros j Hj Hjk. unfold slot_of, indirect in *. cbn [set_i_addr i_addrs].
    destruct Hk as [[Hk ->]|[-> ->]].
    + rewrite (list_lookup_total_insert_ne _ _ NDIRECT) by (unfold NDIRECT in *; lia).
      destruct (Z.ltb_spec j (Z.of_nat NDIRECT)).
      { apply list_lookup_total_insert_ne. unfold a_slot in Hj. lia. }
      destruct (Z.eqb_spec j MAXFILE) as [|Hjm]; [done|].
      destruct (Z.eqb_spec (i_addrs x !!! NDIRECT) 0) as [|Hn0]; [done|].
      destruct (io_data _ _ Hok MAXFILE ltac:(unfold a_slot, MAXFILE; lia) Hn0) as [Hd Hu].
      change (slot_of f x MAXFILE) with (i_addrs x !!! NDIRECT) in Hd, Hu.
      rewrite alloc_upd_other; [done| |by apply data_not_bmap, Hd|unfold data_block in *; lia]. congruence.
    + destruct (Z.ltb_spec j (Z.of_nat NDIRECT)).
      { apply list_lookup_total_insert_ne. unfold a_slot, NDIRECT in *. lia. }
      rewrite (proj2 (Z.eqb_neq j MAXFILE)) by done.
      rewrite list_lookup_total_insert_eq by lia. change (i_addrs x !!! NDIRECT = 0) in Hz. rewrite Hz. cbn [Z.eqb].
      destruct (Z.eqb_spec a 0); [done|]. unfold FsBlocks.alloc_upd. rewrite upd_eq. apply rd32_zblock.
  - intros c Hc. by apply used_alloc.
  - intros m Hm Hma Hb _. apply alloc_upd_other; [done|done|]. apply elem_of_free in Ha. tauto.
  - by apply free_list_alloc.
Qed.

(** An entry of the indirect block. *)
Lemma ext_indirect f x k a :
  inode_ok f x -> meta_used f -> a ∈ free_list f -> length (f (BBLOCK a sb0)) = BSIZE ->
  length (f (indirect x)) = BSIZE -> sb_size sb0 <= FSSIZE ->
  Z.of_nat NDIRECT <= k < MAXFILE -> slot_of f x k = 0 -> indirect x <> 0 ->
  let f1 := alloc_upd f a in
  let f2 := upd f1 (indirect x) (wr32 (f1 (indirect x)) (4 * Z.to_nat (k - Z.of_nat NDIRECT)) a) in
  f1 (indirect x) = f (indirect x) /\ ext f x f2 x [k] /\ kept f x f2.
Proof.
  intros Hok Hmu Ha Hl Hli Hfs Hk Hz Hi f1 f2.
  assert (Had := free_data sb0 f a Hmu Ha). assert (Hap := data_pos a Had).
  assert (Hau : used f a = false) by (apply elem_of_free in Ha; tauto).
  destruct (io_data _ _ Hok MAXFILE ltac:(unfold a_slot, MAXFILE; lia) Hi) as [Hid Hiu]. rewrite slot_ind in Hid, Hiu.
  assert (Hia : indirect x <> a) by congruence. assert (Hip := data_pos _ Hid).
  assert (Hib : ~ bmap_block (indirect x)) by by apply data_not_bmap, Hid.
  assert (Hf1 : f1 (indirect x) = f (indirect x)).
  { apply alloc_upd_other; [done|done|unfold data_block in *; lia]. }
  split; [done|]. unfold f2. rewrite Hf1. clear f2. set (v := wr32 _ _ _). set (f2 := upd f1 (indirect x) v).
  assert (Hoff : (4 * Z.to_nat (k - Z.of_nat NDIRECT) + 4 <= length (f (indirect x)))%nat).
  { rewrite Hli. unfold BSIZE, NDIRECT, MAXFILE in *. lia. }
  assert (Hf2 : f2 (indirect x) = v) by apply upd_eq.
  assert (Hslot : forall j, Z.of_nat NDIRECT <= j < MAXFILE ->
    slot_of f2 x j = rd32 v (4 * Z.to_nat (j - Z.of_nat NDIRECT)) /\
    slot_of f x j = rd32 (f (indirect x)) (4 * Z.to_nat (j - Z.of_nat NDIRECT))).
  { intros j Hj. unfold slot_of. rewrite (proj2 (Z.ltb_ge _ _)), (proj2 (Z.eqb_neq _ _)), (proj2 (Z.eqb_neq _ 0)) by lia.
    by rewrite Hf2. }
  apply (ext_one f x _ _ k a); try done.
  - unfold a_slot, NDIRECT in *. lia.
  - by destruct x.
  - apply Hok.
  - rewrite (proj1 (Hslot k Hk)). apply rd32_wr32; [done|]. unfold data_block, FSSIZE in *. lia.
  - intros j Hj Hjk. unfold a_slot in Hj. destruct (decide (Z.of_nat NDIRECT <= j < MAXFILE)) as [Hr|Hr].
    + rewrite (proj1 (Hslot j Hr)), (proj2 (Hslot j Hr)). unfold NDIRECT in *. apply rd32_wr32_ne; [done|lia].
    + unfold slot_of. destruct (Z.ltb_spec j (Z.of_nat NDIRECT)); [done|]. by rewrite (proj2 (Z.eqb_eq j MAXFILE)) by lia.
  - intros c Hc. unfold f2. rewrite used_upd_out by done. by apply used_alloc.
  - intros m Hm Hma Hb [Hmi|?]; [|done]. unfold f2. rewrite upd_ne by done. apply alloc_upd_other; [done|done|].
    apply elem_of_free in Ha. tauto.
  - rewrite (free_list_alloc sb0 f a Hmu Ha Hl). f_equal.
    apply free_list_ext. intros c Hc. unfold f2. by rewrite used_upd_out.
Qed.

(** ** Running on one inode *)

Definition withi (s0 : fss) (ip : nat) (x : inode) : fss := set_icache (<[ip := x]> (icache s0)) s0.

Lemma size_le : sb_size sb0 <= FSSIZE.
Proof.
  pose proof (size_pos sb0 Hly). pose proof (ly_data _ Hly). destruct (ly_order _ Hly) as [Ho1 Ho2].
  pose proof (Z.div_pos (sb_size sb0) BPB ltac:(lia) BPB_pos). unfold dstart in *.
  assert (Hh : bl_home (sb_size sb0 - 1)) by (apply (ly_home _ Hly); lia).
  pose proof (bl_vis_range _ (bl_home_vis _ Hh)). lia.
Qed.

Lemma data_block_home n : data_block n -> bl_home n.
Proof. apply (data_home sb0 Hly). Qed.

Section run.
Context (s0 : fss) (Hsb : sb s0 = sb0) (ip : nat) (Hip : (ip < length (icache s0))%nat).

Lemma runs_geti {A} x held lg f (k : inode -> F A) s Q :
  holds (withi s0 ip x) held lg f s -> runs (k x) s Q -> runs (bind (geti ip) k) s Q.
Proof.
  intros (b & -> & Hb) Hk. apply runs_bind. eapply runs_Ok; [|exact Hk].
  unfold geti, bind, gets. cbn. by rewrite list_lookup_insert_eq.
Qed.

Lemma runs_updi' x (g : inode -> inode) held lg f s :
  holds (withi s0 ip x) held lg f s -> runs (updi ip g) s (fun _ => holds (withi s0 ip (g x)) held lg f).
Proof.
  intros Hh. unfold updi. eapply runs_geti; [exact Hh|]. eapply runs_Ok; [done|].
  destruct Hh as (b & -> & Hb). exists b. split; [|done]. unfold withi, set_icache, set_blk. cbn.
  by rewrite list_insert_insert_eq.
Qed.

Lemma runs_updi {A} x (g : inode -> inode) held lg f (k : F A) s Q :
  holds (withi s0 ip x) held lg f s ->
  (forall s', holds (withi s0 ip (g x)) held lg f s' -> runs k s' Q) -> runs (updi ip g;; k) s Q.
Proof.
  intros Hh Hk. apply runs_bind. eapply runs_mono; [by apply (runs_updi' x)|]. intros []. apply Hk.
Qed.

(** The slots a call of [bmap] has to fill. *)
Definition bneed f x (bn : Z) : list Z :=
  filter (fun k => slot_of f x k = 0) ((if bn <? Z.of_nat NDIRECT then [] else [MAXFILE]) ++ [bn]).

(** What has been logged besides [lg] when the slots [new] were filled. *)
Definition log_new f' x' (lg lg' new : list Z) (more : list Z) : Prop := forall m, m ∈ lg' ->
  m ∈ lg \/ m ∈ ((fun k => BBLOCK (slot_of f' x' k) sb0) <$> new) ++ more \/ (m = indirect x' /\ m <> 0).

Definition mapped f x (lg : list Z) (bn a : Z) (s : fss) : Prop := exists f' x' lg',
  ext f x f' x' (bneed f x bn) /\ kept f x f' /\ a = slot_of f' x' bn /\ a <> 0 /\
  holds (withi s0 ip x') [] lg' f' s /\ log_new f' x' lg lg' (bneed f x bn) [a].

Lemma bneed_direct f x bn :
  bn < Z.of_nat NDIRECT -> bneed f x bn = if decide (slot_of f x bn = 0) then [bn] else [].
Proof. intros Hb. unfold bneed. rewrite (proj2 (Z.ltb_lt _ _)) by done. done. Qed.

Lemma bneed_indirect f x bn :
  Z.of_nat NDIRECT <= bn -> bneed f x bn =
    (if decide (indirect x = 0) then [MAXFILE] else []) ++ (if decide (slot_of f x bn = 0) then [bn] else []).
Proof. intros Hb. unfold bneed. rewrite (proj2 (Z.ltb_ge _ _)), filter_app by done. done. Qed.

Lemma mapped_none f x lg bn s :
  inode_ok f x -> meta_used f -> slot_of f x bn <> 0 -> bneed f x bn = [] -> holds (withi s0 ip x) [] lg f s ->
  mapped f x lg bn (slot_of f x bn) s.
Proof.
  intros Hok Hmu Hn Hne Hh. exists f, x, lg. rewrite Hne. split; [by apply ext_refl|].
  split; [done|]. split; [done|]. split; [done|]. split; [done|]. intros m Hm. by left.
Qed.

(** The end of [bmap], when there is an indirect block. *)
Lemma bmap_entry f x lg bn s :
  inode_ok f x -> meta_used f -> Z.of_nat NDIRECT <= bn < MAXFILE -> indirect x <> 0 ->
  (length (bneed f x bn) <= length (free_list f))%nat -> (length lg + 3 < LOGMAX)%nat ->
  holds (withi s0 ip x) [] lg f s ->
  runs (bp ← bread_ 1 (indirect x);
        d ← bdata bp;
        let a := rd32 d (4 * Z.to_nat (bn - Z.of_nat NDIRECT)) in
        if a =? 0 then
          a ← balloc 1;
          d ← bdata bp;
          bwrite_log bp (wr32 d (4 * Z.to_nat (bn - Z.of_nat NDIRECT)) a);;
          brelse_ bp;;
          ret a
        else
          brelse_ bp;;
          ret a) s (mapped f x lg bn).
Proof.
  intros Hok Hmu Hbn Hi Hfree Hlg Hh. rewrite bneed_indirect, decide_False in Hfree by (done || lia). cbn [app] in Hfree.
  destruct (io_data _ _ Hok MAXFILE ltac:(unfold a_slot, MAXFILE; lia) Hi) as [Hid Hiu]. rewrite slot_ind in Hid, Hiu.
  assert (Hih := data_block_home _ Hid). assert (Hil : length (f (indirect x)) = BSIZE).
  { eapply holds_len; [exact Hh|]. by apply bl_home_vis. }
  eapply runs_bread; [exact Hh|by apply bl_home_vis|apply not_elem_of_nil|unfold LOGMAX, NBUF in *; cbn; lia|].
  intros h s1 Hh1. eapply runs_bdata; [exact Hh1|left|].
  assert (Hslot : rd32 (f (indirect x)) (4 * Z.to_nat (bn - Z.of_nat NDIRECT)) = slot_of f x bn).
  { unfold slot_of. by rewrite (proj2 (Z.ltb_ge _ _)), (proj2 (Z.eqb_neq _ _)), (proj2 (Z.eqb_neq _ 0)) by lia. }
  cbn zeta. rewrite Hslot. destruct (Z.eqb_spec (slot_of f x bn) 0) as [Hz|Hz].
  2: { apply runs_bind. eapply runs_brelse; [exact Hh1|]. intros s2 Hh2. eapply runs_Ok; [done|].
       apply mapped_none; try done. by rewrite bneed_indirect, !decide_False by (done || lia). }
  rewrite decide_True in Hfree by done.
  apply runs_bind. eapply runs_mono; [eapply (balloc_runs sb0 Hly (withi s0 ip x) Hsb _ lg f Hmu); [|exact Hh1| | |]|].
  { intros n ->%list_elem_of_singleton. split; [apply Hid|done]. }
  { unfold LOGMAX, NBUF in *. cbn. lia. } { lia. } { intros He. rewrite He in Hfree. cbn in Hfree. lia. }
  intros a s2 (Ha & _ & Hh2). assert (Had := free_data sb0 f a Hmu Ha).
  assert (Hbb : length (f (BBLOCK a sb0)) = BSIZE).
  { eapply holds_len; [exact Hh|]. apply bl_home_vis, (bmap_home sb0 Hly), BBLOCK_range. apply elem_of_free in Ha. tauto. }
  destruct (ext_indirect f x bn a Hok Hmu Ha Hbb Hil size_le Hbn Hz Hi) as (Hf1 & Hext & Hkept).
  eapply runs_bdata; [exact Hh2|left|].
  assert (Hl1 := length_logged lg (BBLOCK a sb0)). assert (Hl2 := length_logged (logged lg (BBLOCK a sb0)) a).
  eapply runs_bwrite; [exact Hh2|left|done| |lia|].
  { rewrite Hf1, length_wr32; [done|]. rewrite Hil. unfold BSIZE, NDIRECT, MAXFILE in *. lia. }
  intros s3 Hh3. apply runs_bind. eapply runs_brelse; [exact Hh3|]. intros s4 Hh4. eapply runs_Ok; [done|].
  assert (Hnb : bneed f x bn = [bn]) by by rewrite bneed_indirect, decide_False, decide_True by (done || lia).
  set (f2 := upd _ _ _) in *. assert (Hs2 : slot_of f2 x bn = a).
  { unfold f2. rewrite Hf1. unfold slot_of.
    rewrite (proj2 (Z.ltb_ge _ _)), (proj2 (Z.eqb_neq _ _)), (proj2 (Z.eqb_neq _ 0)), upd_eq by lia.
    apply rd32_wr32; [rewrite Hil; unfold BSIZE, NDIRECT, MAXFILE in *; lia|].
    pose proof size_le. pose proof (data_pos a Had). unfold FSSIZE in *. lia. }
  eexists f2, x, _. rewrite Hnb. split; [exact Hext|]. split; [exact Hkept|]. split; [by rewrite Hs2|].
  split; [pose proof (data_pos a Had); lia|]. split; [exact Hh4|].
  intros m. rewrite !elem_of_logged. cbn. rewrite Hs2. intros [[[?| ->]| ->]| ->]; [by left|right; left; left|right; left; right; left|by right; right].
Qed.

(** A call of [balloc] for a slot of the inode itself. *)
Lemma alloc_slot {A} f x lg k i (c : Z -> F A) s Q :
  inode_ok f x -> meta_used f -> free_list f <> [] -> (length lg + 2 < LOGMAX)%nat ->
  (0 <= k < Z.of_nat NDIRECT /\ i = Z.to_nat k \/ k = MAXFILE /\ i = NDIRECT) -> slot_of f x k = 0 ->
  holds (withi s0 ip x) [] lg f s ->
  (forall a s', let f' := alloc_upd f a in let x' := set_i_addr i a x in
     ext f x f' x' [k] -> kept f x f' -> slot_of f' x' k = a -> a <> 0 ->
     holds (withi s0 ip x') [] (logged (logged lg (BBLOCK a sb0)) a) f' s' -> runs (c a) s' Q) ->
  runs (a ← balloc 1; updi ip (set_i_addr i a);; c a) s Q.
Proof.
  intros Hok Hmu Hfree Hlg Hk Hz Hh Hc. apply runs_bind.
  eapply runs_mono; [eapply (balloc_runs sb0 Hly (withi s0 ip x) Hsb [] lg f Hmu); [|exact Hh| | |done]|].
  { by intros n ?%elem_of_nil. } { unfold LOGMAX, NBUF in *. cbn. lia. } { lia. }
  intros a s1 (Ha & _ & Hh1). assert (Had := free_data sb0 f a Hmu Ha).
  assert (Hbb : length (f (BBLOCK a sb0)) = BSIZE).
  { eapply holds_len; [exact Hh|]. apply bl_home_vis, (bmap_home sb0 Hly), BBLOCK_range. apply elem_of_free in Ha. tauto. }
  destruct (ext_direct f x k a i Hok Hmu Ha Hbb Hk Hz) as [Hext Hkept].
  eapply runs_updi; [exact Hh1|]. intros s2 Hh2. apply (Hc a s2); [done|done| | |done].
  - unfold slot_of, indirect. cbn [set_i_addr i_addrs]. destruct Hk as [[Hk ->]|[-> ->]].
    + rewrite (proj2 (Z.ltb_lt _ _)) by lia. apply list_lookup_total_insert_eq. rewrite (io_len _ _ Hok). unfold NDIRECT in Hk. lia.
    + cbn. apply list_lookup_total_insert_eq. rewrite (io_len _ _ Hok). unfold NDIRECT. lia.
  - pose proof (data_pos a Had). lia.
Qed.

Lemma lookup_addrs f x i : inode_ok f x -> (i < 13)%nat -> i_addrs x !! i = Some (i_addrs x !!! i).
Proof. intros Hok Hi. apply list_lookup_lookup_total_lt. by rewrite (io_len _ _ Hok). Qed.

(** [bmap] gives the block of a slot, filling it first if it is empty. *)
Lemma bmap_runs f x lg bn s :
  inode_ok f x -> meta_used f -> 0 <= bn < MAXFILE ->
  (length (bneed f x bn) <= length (free_list f))%nat -> (length lg + 5 < LOGMAX)%nat ->
  holds (withi s0 ip x) [] lg f s -> runs (bmap ip bn) s (mapped f x lg bn).
Proof.
  intros Hok Hmu Hbn Hfree Hlg Hh. unfold bmap. eapply runs_geti; [exact Hh|]. rewrite (io_dev _ _ Hok).
  destruct (Z.ltb_spec bn (Z.of_nat NDIRECT)) as [Hd|Hd].
  - rewrite bneed_direct in Hfree by done. assert (Hs : slot_of f x bn = i_addrs x !!! Z.to_nat bn).
    { unfold slot_of. by rewrite (proj2 (Z.ltb_lt _ _)). }
    rewrite (lookup_addrs f x _ Hok) by (unfold NDIRECT in *; lia). apply runs_bind. eapply runs_Ok; [done|].
    rewrite <- Hs. destruct (Z.eqb_spec (slot_of f x bn) 0) as [Hz|Hz].
    + rewrite decide_True in Hfree by done. eapply (alloc_slot f x lg bn); try done.
      { intros He. rewrite He in Hfree. cbn in Hfree. lia. } { lia. } { left. split; [lia|done]. }
      intros a s1 f' x' Hext Hkept Hsl Ha Hh1. eapply runs_Ok; [done|]. eexists f', x', _.
      rewrite bneed_direct, decide_True by done. do 4 (split; [done|]). split; [exact Hh1|].
      intros m. rewrite !elem_of_logged. cbn. rewrite Hsl.
      intros [[?| ->]| ->]; [by left|right; left; left|right; left; right; left].
    + eapply runs_Ok; [done|]. apply mapped_none; try done. by rewrite bneed_direct, decide_False by done.
  - rewrite (proj2 (Z.ltb_lt (bn - _) _)) by (unfold NDIRECT, NINDIRECT, MAXFILE in *; lia).
    rewrite (lookup_addrs f x _ Hok) by (unfold NDIRECT; lia). apply runs_bind. eapply runs_Ok; [done|].
    fold (indirect x). destruct (Z.eqb_spec (indirect x) 0) as [Hz|Hz].
    2: { apply runs_bind. eapply runs_Ok; [done|]. apply bmap_entry; try done; lia. }
    assert (Hz' : slot_of f x bn = 0).
    { unfold slot_of. rewrite (proj2 (Z.ltb_ge _ _)), (proj2 (Z.eqb_neq _ MAXFILE)), Hz by lia. done. }
    rewrite bneed_indirect, !decide_True in Hfree by (done || lia). cbn in Hfree.
    apply runs_bind. eapply (alloc_slot f x lg MAXFILE); try done.
    { intros He. rewrite He in Hfree. cbn in Hfree. lia. } { lia. } { by right. }
    intros b s1 f1 x1 Hext Hkept Hsl Hb Hh1. eapply runs_Ok; [done|].
    assert (Hi1 : indirect x1 = b) by done. rewrite <- Hi1.
    assert (Hs1 : slot_of f1 x1 bn = 0).
    { rewrite (ex_keep _ _ _ _ _ Hext); [done|unfold a_slot; lia|]. intros ->%list_elem_of_singleton. lia. }
    assert (Hnb : bneed f1 x1 bn = [bn]) by by rewrite bneed_indirect, decide_False, decide_True by (congruence || lia).
    assert (Hl1 := length_logged lg (BBLOCK b sb0)). assert (Hl2 := length_logged (logged lg (BBLOCK b sb0)) b).
    eapply runs_mono; [apply (bmap_entry f1 x1 (logged (logged lg (BBLOCK b sb0)) b)); [apply Hext|apply Hext|lia|by rewrite Hi1| |lia|exact Hh1]|].
    { rewrite Hnb. assert (Hf := ex_free _ _ _ _ _ Hext). cbn in Hf |- *. lia. }
    intros a s2 (f2 & x2 & lg2 & E2 & Hkept2 & Ha & Ha0 & Hh2 & Hlog). rewrite Hnb in *.
    exists f2, x2, lg2. rewrite bneed_indirect, !decide_True by (done || lia).
    split; [by apply (ext_trans f x f1 x1 f2 x2)|]. split; [by apply (kept_trans f x f1 x1 f2 [MAXFILE])|]. split; [done|]. split; [done|]. split; [done|].
    assert (Hi2 : indirect x2 = b).
    { rewrite <- (slot_ind f2), (ex_keep _ _ _ _ _ E2), slot_ind; [done|unfold a_slot, MAXFILE; lia|].
      intros He%list_elem_of_singleton. lia. }
    intros m Hm. destruct (Hlog m Hm) as [Hm1|[Hm1|Hm1]]; [|right; left; set_solver|by right; right].
    rewrite !elem_of_logged in Hm1. destruct Hm1 as [[?| ->]| ->]; [by left| |by right; right; rewrite Hi2].
    right; left. cbn. rewrite slot_ind, Hi2. left.
Qed.
End run.
End contents.
