(* ===== verification/FsRw.v ===== *)
(** [readi] and [writei]: reading and splicing the bytes of a file. *)

From S2P Require Import Prelude Layout CString Bytes Bio Block Log Fs FsBlocks FsFile.

Definition BS : Z := Z.of_nat BSIZE.

(** The byte of a file at a position, and all of them. *)
Definition byte_of (f : Z -> list Z) (x : inode) (p : Z) : Z :=
  byte_at (f (slot_of f x (p / BS))) (Z.to_nat (p mod BS)).
Definition content (f : Z -> list Z) (x : inode) : list Z := byte_of f x <$> seqZ 0 (i_size x).

Lemma slice_bytes d o m :
  (o + m <= length d)%nat -> take m (drop o d) = (fun i => byte_at d (o + i)) <$> seq 0 m.
Proof.
  intros Hl. apply list_eq. intros i. rewrite list_lookup_fmap. destruct (decide (i < m)%nat) as [Hi|Hi].
  - rewrite lookup_seq_lt, lookup_take_lt, lookup_drop by done. cbn. unfold byte_at.
    destruct (lookup_lt_is_Some_2 d (o + i)) as [b ->]; [lia|]. done.
  - rewrite lookup_seq_ge by lia. cbn. rewrite lookup_take_ge by lia. done.
Qed.

Lemma BS_pos : 0 < BS.
Proof. done. Qed.

Lemma pos_slot p : 0 <= p < MAXFILE * BS -> 0 <= p / BS < MAXFILE.
Proof. intros Hp. pose proof BS_pos. split; [apply Z.div_pos; lia|apply Z.div_lt_upper_bound; lia]. Qed.

(** Positions in the block of [off]. *)
Lemma same_block off i : 0 <= off -> 0 <= i -> off mod BS + i < BS ->
  (off + i) / BS = off / BS /\ (off + i) mod BS = off mod BS + i.
Proof.
  intros Ho Hi Hlt. pose proof (Z.div_mod off BS ltac:(done)). pose proof (Z.mod_pos_bound off BS BS_pos).
  split; symmetry; [apply (Z.div_unique_pos _ _ _ (off mod BS + i))|apply (Z.mod_unique_pos _ _ (off / BS))]; lia.
Qed.

(** How much of [n] bytes is in the block of [off]. *)
Definition chunk (off n : Z) : Z := Z.min n (BS - off mod BS).

Lemma chunk_range off n : 0 < n -> 0 < chunk off n <= n /\ off mod BS + chunk off n <= BS.
Proof. intros Hn. unfold chunk. pose proof (Z.mod_pos_bound off BS BS_pos). lia. Qed.

Lemma seqZ_split off n m : 0 <= m <= n -> seqZ off n = seqZ off m ++ seqZ (off + m) (n - m).
Proof. intros Hm. rewrite <- seqZ_app by lia. f_equal. lia. Qed.

Lemma slice_content f x off m :
  length (f (slot_of f x (off / BS))) = BSIZE -> 0 <= off -> 0 <= m -> off mod BS + m <= BS ->
  take (Z.to_nat m) (drop (Z.to_nat (off mod BS)) (f (slot_of f x (off / BS)))) = byte_of f x <$> seqZ off m.
Proof.
  intros Hl Ho Hm Hb. pose proof (Z.mod_pos_bound off BS BS_pos).
  rewrite slice_bytes by (rewrite Hl; unfold BS, BSIZE in *; lia). unfold seqZ. rewrite <- list_fmap_compose. apply list_fmap_ext.
  intros i j Hj. apply lookup_seq in Hj as [-> Hj]. unfold compose, byte_of.
  destruct (same_block off (Z.of_nat (0 + i))) as [H1 H2]; [lia|lia|lia|].
  rewrite (Z.add_comm (Z.of_nat (0 + i))), H1, H2. f_equal. lia.
Qed.

Section bytes.
Context {St : Type} `{HS : blocks_spec St}.
Abbreviation fss := (@Fs.fss St).
Abbreviation F := (@Fs.F St).
Context (sb0 : superblock) (Hly : layout sb0).
Abbreviation meta_used := (FsBlocks.meta_used sb0).
Abbreviation free_list := (FsBlocks.free_list sb0).
Abbreviation inode_ok := (FsFile.inode_ok sb0).
Abbreviation data_block := (FsFile.data_block sb0).
Implicit Types (f : Z -> list Z) (x : inode).

Lemma slot_home f x k : inode_ok f x -> a_slot k -> slot_of f x k <> 0 -> bl_home (slot_of f x k).
Proof. intros Hok Hk Hn. apply (data_block_home sb0 Hly). by apply (io_data _ _ _ Hok). Qed.

(** ** What a write needs and does *)

Definition last_block (off n : Z) : Z := (off + n - 1) / BS.
Definition nblocks (off n : Z) : Z := if 0 <? n then last_block off n - off / BS + 1 else 0.

(** The empty slots of the blocks that [n] bytes at [off] are in. *)
Definition need f x (off n : Z) : list Z :=
  if 0 <? n then
    filter (fun k => slot_of f x k = 0)
      ((if last_block off n <? Z.of_nat NDIRECT then [] else [MAXFILE]) ++ seqZ (off / BS) (nblocks off n))
  else [].

Lemma elem_of_need f x off n k :
  k ∈ need f x off n <-> 0 < n /\ slot_of f x k = 0 /\
    (k = MAXFILE /\ Z.of_nat NDIRECT <= last_block off n \/ off / BS <= k <= last_block off n).
Proof.
  unfold need. destruct (Z.ltb_spec 0 n); [|rewrite elem_of_nil; lia].
  rewrite list_elem_of_filter, elem_of_app, elem_of_seqZ. unfold nblocks. rewrite (proj2 (Z.ltb_lt 0 n)) by done.
  destruct (Z.ltb_spec (last_block off n) (Z.of_nat NDIRECT)).
  - rewrite elem_of_nil. split; intros [? ?]; split_and?; try done; lia.
  - rewrite list_elem_of_singleton. split.
    + intros [? [->|?]]; split_and!; try done; [by left|right; lia].
    + intros (? & ? & [[-> ?]|?]); (split; [done|]); [by left|right; lia].
Qed.

(** The blocks of the bytes before and after the first chunk. *)
Lemma chunk_step off n :
  0 <= off -> 0 < n -> let m := chunk off n in let n' := n - m in
  off / BS <= last_block off n /\
  (0 < n' -> (off + m) / BS = off / BS + 1 /\ last_block (off + m) n' = last_block off n) /\
  (n' <= 0 -> last_block off n = off / BS).
Proof.
  intros Ho Hn m n'. destruct (chunk_range off n Hn) as [H1 H2]. fold m in H1, H2.
  pose proof (Z.div_mod off BS ltac:(done)) as Hd. pose proof (Z.mod_pos_bound off BS BS_pos).
  unfold last_block. split; [apply Z.div_le_mono; [done|lia]|]. split.
  - intros Hn'. assert (Hm : m = BS - off mod BS) by (unfold m, n', chunk in *; lia). split.
    + symmetry. apply (Z.div_unique_pos _ _ _ 0); [lia|]. rewrite Hm. lia.
    + f_equal. unfold n'. lia.
  - intros Hn'. symmetry. apply (Z.div_unique_pos _ _ _ (off mod BS + n - 1)); unfold n' in *; lia.
Qed.

(** The logged blocks are among [B] and the indirect block. *)
Definition fits (lg B : list Z) x : Prop := NoDup lg /\ forall m, m ∈ lg -> m ∈ B \/ (m = indirect x /\ m <> 0).

Lemma fits_length lg B x : fits lg B x -> (length lg <= S (length B))%nat.
Proof.
  intros [Hnd Hin]. assert (Hs : lg ⊆+ indirect x :: B).
  { apply NoDup_submseteq; [done|]. intros m Hm. destruct (Hin m Hm) as [?|[-> _]]; [by right|left]. }
  apply submseteq_length in Hs. done.
Qed.

Lemma fits_ext f x f1 x1 new lg lg1 B more :
  ext sb0 f x f1 x1 new -> NoDup lg1 -> fits lg B x -> log_new sb0 f1 x1 lg lg1 new more ->
  fits lg1 (B ++ ((fun k => BBLOCK (slot_of f1 x1 k) sb0) <$> new) ++ more) x1.
Proof.
  intros He Hnd [_ Hf] Hl. split; [done|]. intros m Hm. destruct (Hl m Hm) as [Hm1|[Hm1|Hm1]].
  - destruct (Hf m Hm1) as [?|[-> Hn]]; [left; apply elem_of_app; by left|right]. split; [|done].
    symmetry. rewrite <- (slot_ind f1 x1), (ex_keep _ _ _ _ _ _ He), slot_ind; [done|unfold a_slot, MAXFILE; lia|].
    intros Hin. destruct (ex_new _ _ _ _ _ _ He _ Hin) as (_ & Hz & _). by rewrite slot_ind in Hz.
  - left. apply elem_of_app. by right.
  - by right.
Qed.

(** Overwriting a data block of the file. *)
Lemma ext_data f x k v :
  inode_ok f x -> meta_used f -> 0 <= k < MAXFILE -> slot_of f x k <> 0 ->
  ext sb0 f x (upd f (slot_of f x k) v) x [] /\ forall j, a_slot j -> slot_of (upd f (slot_of f x k) v) x j = slot_of f x j.
Proof.
  intros Hok Hmu Hk Hn. assert (Hks : a_slot k) by (unfold a_slot; lia).
  destruct (io_data _ _ _ Hok k Hks Hn) as [Hd Hu]. assert (Hnb : ~ FsBlocks.bmap_block sb0 (slot_of f x k)) by by apply data_not_bmap, Hd.
  set (a := slot_of f x k) in *. assert (Hi : indirect x <> 0 -> indirect x <> a).
  { intros Hi He. assert (MAXFILE = k); [|lia]. by apply (io_inj _ _ _ Hok); [unfold a_slot, MAXFILE; lia| | |]. }
  assert (Hsl : forall j, slot_of (upd f a v) x j = slot_of f x j).
  { intros j. unfold slot_of. destruct (Z.eqb_spec (indirect x) 0); [done|]. by rewrite upd_ne by (apply Hi; done). }
  assert (Hus : forall c, 0 <= c < sb_size sb0 -> FsBlocks.used sb0 (upd f a v) c = FsBlocks.used sb0 f c).
  { intros c Hc. by apply used_upd_out. }
  split; [|done]. pose proof (ly_data _ Hly) as Hdd. constructor.
  - destruct Hok as [O1 O2 O3 O4 O5 O6]. constructor; try done.
    + intros j Hj. rewrite Hsl. intros Hj0. destruct (O3 j Hj Hj0) as [Hjd Hju]. split; [done|].
      assert (Hjp := data_pos sb0 Hly _ Hjd). unfold FsFile.data_block in Hjd. by rewrite Hus by lia.
    + intros i j Hi' Hj'. rewrite !Hsl. by apply O4.
    + intros j Hj. rewrite Hsl. by apply O6.
  - intros c Hc. rewrite Hus by lia. by apply Hmu.
  - by destruct x.
  - intros j Hj _. apply Hsl.
  - by intros j ?%elem_of_nil.
  - intros m Hm Hmu' Hb Hsep. apply upd_ne. intros ->. by apply (Hsep k).
  - intros m Hm. rewrite Hus by done. split; [by left|]. intros [?|(j & ?%elem_of_nil & _)]; done.
  - cbn. rewrite Nat.add_0_r. apply free_list_ext. intros c Hc. by rewrite Hus.
Qed.

Lemma NoDup_need f x off n : last_block off n < MAXFILE -> NoDup (need f x off n).
Proof.
  intros Hl. unfold need, nblocks. destruct (0 <? n); [|constructor]. apply NoDup_filter, NoDup_app. split_and!.
  - destruct (_ <? _); [constructor|apply NoDup_singleton].
  - intros k Hk Hin%elem_of_seqZ. destruct (_ <? _); [by apply elem_of_nil in Hk|].
    apply list_elem_of_singleton in Hk as ->. lia.
  - apply NoDup_seqZ.
Qed.

Lemma elem_of_bneed f x bn k :
  k ∈ bneed f x bn <-> slot_of f x k = 0 /\ (k = MAXFILE /\ Z.of_nat NDIRECT <= bn \/ k = bn).
Proof.
  unfold bneed. rewrite list_elem_of_filter, elem_of_app, list_elem_of_singleton.
  destruct (Z.ltb_spec bn (Z.of_nat NDIRECT)); [rewrite elem_of_nil|rewrite list_elem_of_singleton]; split; intros [? ?]; split; try done; lia.
Qed.

Lemma NoDup_bneed f x bn : bn < MAXFILE -> NoDup (bneed f x bn).
Proof.
  intros Hb. unfold bneed. apply NoDup_filter, NoDup_app. split_and!; [| |apply NoDup_singleton].
  - destruct (_ <? _); [constructor|apply NoDup_singleton].
  - intros k Hk ->%list_elem_of_singleton. destruct (_ <? _); [by apply elem_of_nil in Hk|].
    apply list_elem_of_singleton in Hk. lia.
Qed.

(** A step fills the slots of its block; the others are left. *)
Lemma need_step f x f1 x1 f2 off n :
  0 <= off -> 0 < n -> last_block off n < MAXFILE ->
  ext sb0 f x f1 x1 (bneed f x (off / BS)) -> (forall j, a_slot j -> slot_of f2 x1 j = slot_of f1 x1 j) ->
  (length (bneed f x (off / BS)) + length (need f2 x1 (off + chunk off n) (n - chunk off n)) <= length (need f x off n))%nat.
Proof.
  intros Ho Hn Hl He Hs2. destruct (chunk_step off n Ho Hn) as (C1 & C2 & C3). cbn zeta in C2, C3.
  pose proof (Z.div_pos off BS Ho BS_pos). set (m := chunk off n) in *.
  assert (Hrest : forall k, k ∈ need f2 x1 (off + m) (n - m) -> (k ∉ bneed f x (off / BS)) /\ k ∈ need f x off n).
  { intros k (Hn' & Hz & Hk)%elem_of_need. destruct (C2 Hn') as [D1 D2]. rewrite D1, D2 in Hk.
    assert (Hks : a_slot k) by (unfold a_slot, MAXFILE in *; lia). rewrite Hs2 in Hz by done.
    assert (Hnin : k ∉ bneed f x (off / BS)) by (intros Hin; by destruct (ex_new _ _ _ _ _ _ He k Hin) as (_ & _ & ? & _)).
    split; [done|]. apply elem_of_need. split; [done|]. split; [by rewrite <- (ex_keep _ _ _ _ _ _ He)|].
    destruct Hk as [?|?]; [by left|right; lia]. }
  rewrite <- length_app. apply submseteq_length, NoDup_submseteq.
  - apply NoDup_app. split_and!; [apply NoDup_bneed; lia|intros k Hk Hk'; by apply (Hrest k)|].
    destruct (decide (0 < n - m)) as [Hp|Hp]; [apply NoDup_need; by rewrite (proj2 (C2 Hp))|].
    unfold need. rewrite (proj2 (Z.ltb_ge _ _)) by lia. constructor.
  - intros k [Hk|Hk]%elem_of_app; [|by apply Hrest]. apply elem_of_bneed in Hk as [Hz Hk].
    apply elem_of_need. split; [done|]. split; [done|]. destruct Hk as [[-> ?]| ->]; [left; split; [done|lia]|right; lia].
Qed.

(** The bytes of the file after some of one block are overwritten. *)
Lemma byte_write f x off bs :
  inode_ok f x -> 0 <= off -> off / BS < MAXFILE -> slot_of f x (off / BS) <> 0 ->
  length (f (slot_of f x (off / BS))) = BSIZE -> off mod BS + Z.of_nat (length bs) <= BS ->
  let f' := upd f (slot_of f x (off / BS)) (wr (f (slot_of f x (off / BS))) (Z.to_nat (off mod BS)) bs) in
  forall p, 0 <= p < MAXFILE * BS ->
  byte_of f' x p = if decide (off <= p < off + Z.of_nat (length bs)) then bs !!! Z.to_nat (p - off) else byte_of f x p.
Proof.
  intros Hok Ho Hk Hn Hlen Hb f' p Hp. assert (Hq := Z.div_pos off BS Ho BS_pos).
  pose proof (Z.mod_pos_bound off BS BS_pos) as Hm. pose proof (Z.div_mod off BS ltac:(done)) as Hdm.
  pose proof (Z.mod_pos_bound p BS BS_pos) as Hpm. pose proof (Z.div_mod p BS ltac:(done)) as Hpd.
  assert (Hpk := pos_slot p Hp).
  set (a := slot_of f x (off / BS)) in *. set (v := wr _ _ _) in *.
  assert (Hsl : slot_of f' x (p / BS) = slot_of f x (p / BS)).
  { unfold f'. unfold slot_of. destruct (Z.eqb_spec (indirect x) 0) as [|Hi]; [done|]. rewrite upd_ne; [done|].
    intros He. assert (MAXFILE = off / BS); [|lia]. apply (io_inj _ _ _ Hok); [unfold a_slot, MAXFILE; lia|unfold a_slot; lia|done|exact He]. }
  assert (Hfit : (Z.to_nat (off mod BS) + length bs <= length (f a))%nat) by (rewrite Hlen; unfold BS in *; lia).
  unfold byte_of. rewrite Hsl. destruct (decide (p / BS = off / BS)) as [Heq|Hne].
  - rewrite Heq. fold a. unfold f'. rewrite upd_eq. unfold v. case_decide as Hr.
    + destruct (lookup_lt_is_Some_2 bs (Z.to_nat (p - off))) as [b Hb']; [lia|].
      rewrite (list_lookup_total_correct _ _ _ Hb'). rewrite <- (byte_at_wr_in (f a) (Z.to_nat (off mod BS)) bs _ b Hfit Hb').
      f_equal. rewrite Heq in Hpd. lia.
    + apply byte_at_wr_out; [done|]. rewrite Heq in Hpd. lia.
  - rewrite decide_False.
    + f_equal. unfold f'. apply upd_ne. intros He. apply Hne. symmetry.
      apply (io_inj _ _ _ Hok); [unfold a_slot; lia|unfold a_slot; lia|done|done].
    + intros Hr. apply Hne. symmetry. apply (Z.div_unique_pos _ _ _ (p - BS * (off / BS))); lia.
Qed.

(** [n] bytes of [src] were stored at [off]; blocks were added where they
    were missing. *)
Record wrote f x f' x' (off : Z) (src : list Z) (n : Z) : Prop := Wrote {
  wr_ext : exists new, ext sb0 f x f' x' new /\ (length new <= length (need f x off n))%nat;
  wr_in : forall p, off <= p < off + n -> byte_of f' x' p = src !!! Z.to_nat (p - off);
  wr_out : forall p, 0 <= p < MAXFILE * BS -> ~ (off <= p < off + n) -> slot_of f x (p / BS) <> 0 ->
    byte_of f' x' p = byte_of f x p;
  wr_slots : forall p, off <= p < off + n -> slot_of f' x' (p / BS) <> 0
}.

Lemma kept_bytes f x f1 x1 new p :
  ext sb0 f x f1 x1 new -> kept f x f1 -> 0 <= p < MAXFILE * BS -> slot_of f x (p / BS) <> 0 ->
  slot_of f1 x1 (p / BS) = slot_of f x (p / BS) /\ byte_of f1 x1 p = byte_of f x p.
Proof.
  intros He Hk Hp Hn. assert (Hpk := pos_slot p Hp).
  assert (Hs : slot_of f1 x1 (p / BS) = slot_of f x (p / BS)).
  { apply (ex_keep _ _ _ _ _ _ He); [unfold a_slot; lia|]. intros Hin.
    by destruct (ex_new _ _ _ _ _ _ He _ Hin) as (_ & ? & _). }
  split; [done|]. unfold byte_of. by rewrite Hs, (Hk _ Hpk Hn).
Qed.

(** One round, then the others. *)
Lemma wrote_step f x f1 x1 f' x' off src n :
  let m := chunk off n in let a := slot_of f1 x1 (off / BS) in
  let bs := take (Z.to_nat m) src in let f2 := upd f1 a (wr (f1 a) (Z.to_nat (off mod BS)) bs) in
  0 <= off -> 0 < n -> off + n <= MAXFILE * BS -> n <= Z.of_nat (length src) -> length (f1 a) = BSIZE ->
  ext sb0 f x f1 x1 (bneed f x (off / BS)) -> kept f x f1 -> a <> 0 ->
  wrote f2 x1 f' x' (off + m) (drop (Z.to_nat m) src) (n - m) ->
  wrote f x f' x' off src n.
Proof.
  intros m a bs f2 Ho Hn Hmax Hsrc Hlen He Hk Ha [(new & Hext & Hnew) Hin Hout Hsl].
  destruct (chunk_range off n Hn) as [Hm1 Hm2]. fold m in Hm1, Hm2.
  assert (Hq := Z.div_pos off BS Ho BS_pos).
  assert (Hkb := pos_slot off ltac:(lia)).
  assert (Hlast : last_block off n < MAXFILE) by (pose proof BS_pos; unfold last_block; apply Z.div_lt_upper_bound; lia).
  assert (Hok1 := ex_ok _ _ _ _ _ _ He). assert (Hmu1 := ex_mu _ _ _ _ _ _ He).
  assert (Hlb : Z.of_nat (length bs) = m) by (unfold bs; rewrite length_take; lia).
  destruct (ext_data f1 x1 (off / BS) (wr (f1 a) (Z.to_nat (off mod BS)) bs) Hok1 Hmu1 Hkb Ha) as [Hext2 Hsl2].
  fold a f2 in Hext2, Hsl2.
  assert (Hbw := byte_write f1 x1 off bs Hok1 Ho (proj2 Hkb) Ha Hlen ltac:(rewrite Hlb; lia)).
  cbn zeta in Hbw. fold a f2 in Hbw. rewrite Hlb in Hbw.
  assert (Hslot2 : forall p, off <= p < off + m -> slot_of f2 x1 (p / BS) <> 0).
  { intros p Hp. destruct (same_block off (p - off)) as [Hs1 _]; [done|lia|lia|].
    replace (off + (p - off)) with p in Hs1 by lia. rewrite Hs1, Hsl2 by (unfold a_slot; lia). done. }
  constructor.
  - exists (bneed f x (off / BS) ++ [] ++ new). split.
    + eapply ext_trans; [done|exact He|]. eapply ext_trans; [done|exact Hext2|exact Hext].
    + cbn [app]. rewrite length_app. assert (Hns := need_step f x f1 x1 f2 off n Ho Hn Hlast He Hsl2). fold m in Hns. lia.
  - intros p Hp. destruct (decide (p < off + m)) as [Hlt|Hge].
    + rewrite Hout; [|lia|lia|apply Hslot2; lia]. rewrite Hbw, decide_True by lia.
      unfold bs. rewrite !list_lookup_total_alt, lookup_take_lt by lia. done.
    + rewrite Hin by lia. rewrite !list_lookup_total_alt, lookup_drop. do 2 f_equal. lia.
  - intros p Hp Hnp Hs. destruct (kept_bytes f x f1 x1 _ p He Hk Hp Hs) as [Hs1 Hb1].
    assert (Hps : a_slot (p / BS)) by (pose proof (pos_slot p Hp); unfold a_slot; lia).
    rewrite Hout; [|done|lia|by rewrite Hsl2, Hs1]. rewrite Hbw, decide_False by lia. done.
  - intros p Hp. destruct (decide (p < off + m)) as [Hlt|Hge]; [|apply Hsl; lia].
    assert (Hps : a_slot (p / BS)) by (pose proof (pos_slot p ltac:(lia)); unfold a_slot; lia).
    rewrite (ex_keep _ _ _ _ _ _ Hext) by (done || (intros Hc; destruct (ex_new _ _ _ _ _ _ Hext _ Hc) as (_ & Hz & _); apply (Hslot2 p); [lia|done])).
    apply Hslot2. lia.
Qed.

End bytes.

Section rw.
Context {St : Type} `{HS : blocks_spec St}.
Abbreviation fss := (@Fs.fss St).
Abbreviation F := (@Fs.F St).
Context (sb0 : superblock) (Hly : layout sb0).
Abbreviation meta_used := (FsBlocks.meta_used sb0).
Abbreviation free_list := (FsBlocks.free_list sb0).
Abbreviation inode_ok := (FsFile.inode_ok sb0).
Abbreviation data_block := (FsFile.data_block sb0).
Context (dev_read : Z -> option (nat -> Z -> F (Z * list Z))) (dev_write : Z -> option (nat -> list Z -> Z -> F Z)).
Context (s0 : fss) (Hsb : sb s0 = sb0) (ip : nat) (Hip : (ip < length (icache s0))%nat).
Implicit Types (f : Z -> list Z) (x : inode).

(** [bmap] of a slot that is there changes nothing. *)
Lemma bmap_hit f x held lg bn s :
  inode_ok f x -> 0 <= bn < MAXFILE -> slot_of f x bn <> 0 -> (length lg < NBUF)%nat -> held = [] ->
  holds (withi s0 ip x) held lg f s ->
  runs (bmap ip bn) s (fun a s' => a = slot_of f x bn /\ holds (withi s0 ip x) held lg f s').
Proof.
  intros Hok Hbn Hn Hlg -> Hh. unfold bmap. eapply runs_geti; [done|exact Hh|]. rewrite (io_dev _ _ _ Hok).
  destruct (Z.ltb_spec bn (Z.of_nat NDIRECT)) as [Hd|Hd].
  - assert (Hs : slot_of f x bn = i_addrs x !!! Z.to_nat bn) by (unfold slot_of; by rewrite (proj2 (Z.ltb_lt _ _))).
    rewrite (lookup_addrs sb0 f x _ Hok) by (unfold NDIRECT in *; lia). apply runs_bind. eapply runs_Ok; [done|].
    rewrite <- Hs, (proj2 (Z.eqb_neq _ 0)) by done. by eapply runs_Ok.
  - rewrite (proj2 (Z.ltb_lt (bn - _) _)) by (unfold NDIRECT, NINDIRECT, MAXFILE in *; lia).
    rewrite (lookup_addrs sb0 f x _ Hok) by (unfold NDIRECT; lia). apply runs_bind. eapply runs_Ok; [done|].
    fold (indirect x). assert (Hi : indirect x <> 0).
    { intros Hi. apply Hn. unfold slot_of. by rewrite (proj2 (Z.ltb_ge _ _)), (proj2 (Z.eqb_neq _ MAXFILE)), Hi by lia. }
    assert (Hs : rd32 (f (indirect x)) (4 * Z.to_nat (bn - Z.of_nat NDIRECT)) = slot_of f x bn).
    { unfold slot_of. by rewrite (proj2 (Z.ltb_ge _ _)), (proj2 (Z.eqb_neq _ MAXFILE)), (proj2 (Z.eqb_neq _ 0)) by lia. }
    rewrite (proj2 (Z.eqb_neq _ 0)) by done. apply runs_bind. eapply runs_Ok; [done|].
    eapply runs_bread; [exact Hh| |apply not_elem_of_nil|cbn; lia|].
    { apply bl_home_vis. apply (slot_home sb0 Hly f x MAXFILE Hok); [unfold a_slot, MAXFILE; lia|done]. }
    intros h s1 Hh1. eapply runs_bdata; [exact Hh1|left|]. cbn zeta. rewrite Hs, (proj2 (Z.eqb_neq _ 0)) by done.
    apply runs_bind. eapply runs_brelse; [exact Hh1|]. intros s2 Hh2. by eapply runs_Ok.
Qed.

(** ** Reading *)

Lemma readi_loop_runs f x lg fuel : forall off n s,
  inode_ok f x -> (length lg < NBUF)%nat -> holds (withi s0 ip x) [] lg f s ->
  0 <= off -> 0 <= n -> off + n <= i_size x -> (Z.to_nat n < fuel)%nat ->
  runs (readi_loop fuel ip off n) s (fun bs s' => bs = byte_of f x <$> seqZ off n /\ holds (withi s0 ip x) [] lg f s').
Proof.
  induction fuel as [|fuel IH]; intros off n s Hok Hlg Hh Ho Hn Hsz Hf; [lia|]. cbn [readi_loop].
  destruct (Z.ltb_spec 0 n) as [Hpos|Hz]; [|assert (n = 0) as -> by lia; by eapply runs_Ok].
  pose proof (Z.div_mod off BS ltac:(done)) as Hdm. pose proof (Z.mod_pos_bound off BS BS_pos) as Hmb.
  pose proof (Z.div_pos off BS Ho BS_pos) as Hq. destruct (io_size _ _ _ Hok) as [_ Hmax]. fold BS in Hmax |- *.
  assert (Hk : 0 <= off / BS < MAXFILE) by (split; [done|]; apply Z.div_lt_upper_bound; lia).
  assert (Hs : slot_of f x (off / BS) <> 0) by (apply (io_full _ _ _ Hok _ Hk); fold BS; lia).
  assert (Hhm := slot_home sb0 Hly f x (off / BS) Hok ltac:(unfold a_slot; lia) Hs).
  eapply runs_geti; [done|exact Hh|]. rewrite (io_dev _ _ _ Hok). apply runs_bind.
  eapply runs_mono; [by apply (bmap_hit f x [] lg)|]. intros a s1 [-> Hh1].
  eapply runs_bread; [exact Hh1|by apply bl_home_vis|apply not_elem_of_nil|cbn; lia|].
  intros h s2 Hh2. cbn zeta. fold (chunk off n). destruct (chunk_range off n Hpos) as [Hc1 Hc2].
  eapply runs_bdata; [exact Hh2|left|]. apply runs_bind. eapply runs_brelse; [exact Hh2|]. intros s3 Hh3.
  apply runs_bind. eapply runs_mono; [apply (IH (off + chunk off n) (n - chunk off n) s3); try done; lia|].
  intros rest s4 [-> Hh4]. eapply runs_Ok; [done|]. split; [|done].
  rewrite (seqZ_split off n (chunk off n)), fmap_app by lia. f_equal.
  apply slice_content; [|lia|lia|lia]. eapply holds_len; [exact Hh|by apply bl_home_vis].
Qed.

(** On a file, [readi] gives the bytes from [off] on, as many as there are up
    to [n], and changes nothing. *)
Lemma readi_runs f x lg off n s :
  inode_ok f x -> i_type x <> T_DEV -> (length lg < NBUF)%nat -> holds (withi s0 ip x) [] lg f s ->
  0 <= off < 2 ^ 32 -> 0 <= n < 2 ^ 32 ->
  runs (readi dev_read ip off n) s (fun '(r, bs) s' => holds (withi s0 ip x) [] lg f s' /\
    if decide (i_size x < off \/ 2 ^ 32 <= off + n) then r = -1 /\ bs = []
    else bs = take (Z.to_nat n) (drop (Z.to_nat off) (content f x)) /\ r = Z.of_nat (length bs)).
Proof.
  intros Hok Ht Hlg Hh Ho Hn. unfold readi. eapply runs_geti; [done|exact Hh|].
  rewrite (proj2 (Z.eqb_neq _ T_DEV)) by done.
  assert (Htest : (i_size x <? off) || (u32 (off + n) <? off) = bool_decide (i_size x < off \/ 2 ^ 32 <= off + n)).
  { destruct (decide (2 ^ 32 <= off + n)) as [Hov|Hov].
    - assert (Hu : u32 (off + n) = off + n - 2 ^ 32) by (unfold u32; symmetry; apply (Z.mod_unique_pos _ _ 1); lia).
      rewrite Hu, (proj2 (Z.ltb_lt (off + n - _) _)), orb_true_r by lia. symmetry. apply bool_decide_true. by right.
    - rewrite u32_small, (proj2 (Z.ltb_ge (off + n) _)), orb_false_r by lia.
      destruct (Z.ltb_spec (i_size x) off); symmetry; [apply bool_decide_true; by left|apply bool_decide_false; lia]. }
  rewrite Htest. destruct (decide (i_size x < off \/ 2 ^ 32 <= off + n)) as [Hd|Hd].
  { rewrite bool_decide_true by done. by eapply runs_Ok. }
  rewrite bool_decide_false by done.
  set (n' := if i_size x <? off + n then i_size x - off else n).
  assert (Hn' : n' = Z.min n (i_size x - off)) by (unfold n'; destruct (Z.ltb_spec (i_size x) (off + n)); lia).
  cbn zeta. apply runs_bind. eapply runs_mono; [apply (readi_loop_runs f x lg _ off n' s); try done; lia|].
  intros bs s' [-> Hh']. eapply runs_Ok; [done|]. split; [done|]. destruct (io_size _ _ _ Hok) as [Hs0 _].
  assert (Hb : byte_of f x <$> seqZ off n' = take (Z.to_nat n) (drop (Z.to_nat off) (content f x))).
  { unfold content. rewrite (seqZ_split 0 (i_size x) off), fmap_app by lia.
    rewrite drop_app_length' by (rewrite length_fmap, length_seqZ; done).
    rewrite Z.add_0_l, (seqZ_split off (i_size x - off) n'), fmap_app by lia.
    destruct (decide (n <= i_size x - off)).
    - rewrite take_app_length' by (rewrite length_fmap, length_seqZ; lia). done.
    - assert (Hx : n' = i_size x - off) by lia. rewrite <- Hx, Z.sub_diag. cbn. rewrite app_nil_r.
      rewrite take_ge by (rewrite length_fmap, length_seqZ; lia). done. }
  split; [done|]. rewrite length_fmap, length_seqZ. lia.
Qed.

(** ** Writing *)

Lemma writei_loop_runs fuel : forall f x lg B src off n s,
  inode_ok f x -> meta_used f -> fits lg B x -> holds (withi s0 ip x) [] lg f s ->
  0 <= off -> 0 <= n -> off + n <= MAXFILE * BS -> n <= Z.of_nat (length src) -> (Z.to_nat n < fuel)%nat ->
  (length (need f x off n) <= length (free_list f))%nat ->
  (length B + length (need f x off n) + Z.to_nat (nblocks off n) + 6 < LOGMAX)%nat ->
  runs (writei_loop fuel ip src off n) s (fun off' s' => off' = off + n /\ exists f' x' lg' W,
    wrote sb0 f x f' x' off src n /\ holds (withi s0 ip x') [] lg' f' s' /\ fits lg' (B ++ W) x' /\
    (length W <= length (need f x off n) + Z.to_nat (nblocks off n))%nat).
Proof.
  induction fuel as [|fuel IH]; intros f x lg B src off n s Hok Hmu Hfit Hh Ho Hn Hmax Hsrc Hf Hfree Hlog; [lia|].
  cbn [writei_loop]. destruct (Z.ltb_spec 0 n) as [Hpos|Hz].
  2: { assert (n = 0) as -> by lia. eapply runs_Ok; [done|]. split; [lia|]. exists f, x, lg, []. split_and!.
       - constructor; [exists []; split; [by apply ext_refl|cbn; lia]|lia|done|lia].
       - done.
       - by rewrite app_nil_r.
       - cbn. lia. }
  pose proof (Z.mod_pos_bound off BS BS_pos) as Hmb. pose proof (Z.div_pos off BS Ho BS_pos) as Hq.
  destruct (chunk_range off n Hpos) as [Hc1 Hc2]. destruct (chunk_step off n Ho Hpos) as (C1 & C2 & C3). cbn zeta in C2, C3.
  assert (Hk := pos_slot off ltac:(lia)).
  assert (Hlast : last_block off n < MAXFILE) by (pose proof BS_pos; unfold last_block; apply Z.div_lt_upper_bound; lia).
  assert (Hll := fits_length _ _ _ Hfit).
  assert (Hbn : (length (bneed f x (off / BS)) <= length (need f x off n))%nat).
  { apply submseteq_length, NoDup_submseteq; [apply NoDup_bneed; lia|]. intros k [Hz Hk']%elem_of_bneed.
    apply elem_of_need. split; [done|]. split; [done|]. destruct Hk' as [[-> ?]| ->]; [left; split; [done|lia]|right; lia]. }
  fold BS. eapply runs_geti; [done|exact Hh|]. rewrite (io_dev _ _ _ Hok). apply runs_bind.
  eapply runs_mono; [apply (bmap_runs sb0 Hly s0 Hsb ip Hip f x lg); try done; lia|].
  intros a s1 (f1 & x1 & lg1 & He & Hkept & Ha & Ha0 & Hh1 & Hl1). rewrite Ha in *. clear a Ha.
  set (a := slot_of f1 x1 (off / BS)) in *. fold (chunk off n). set (m := chunk off n) in *.
  assert (Hok1 := ex_ok _ _ _ _ _ _ He). assert (Hhm := slot_home sb0 Hly f1 x1 (off / BS) Hok1 ltac:(unfold a_slot; lia) Ha0). fold a in Hhm.
  assert (Hlen1 : length (f1 a) = BSIZE) by (eapply holds_len; [exact Hh1|by apply bl_home_vis]).
  assert (Hfit1 := fits_ext sb0 f x f1 x1 _ lg lg1 B _ He (holds_nodup _ _ _ _ _ Hh1) Hfit Hl1).
  set (B1 := B ++ _) in Hfit1. assert (HB1 : length B1 = (length B + length (bneed f x (off / BS)) + 1)%nat).
  { unfold B1. rewrite !length_app, length_fmap. cbn. lia. }
  assert (Hl1' := fits_length _ _ _ Hfit1).
  eapply runs_bread; [exact Hh1|by apply bl_home_vis|apply not_elem_of_nil|unfold LOGMAX, NBUF in *; cbn; lia|].
  intros h s2 Hh2. cbn zeta. eapply runs_bdata; [exact Hh2|left|].
  eapply runs_bwrite; [exact Hh2|left|done| |lia|].
  { rewrite length_wr; [done|]. rewrite Hlen1, length_take. unfold BS in *. lia. }
  intros s3 Hh3. apply runs_bind. eapply runs_brelse; [exact Hh3|]. intros s4 Hh4.
  set (f2 := upd f1 a _) in *.
  destruct (ext_data sb0 Hly f1 x1 (off / BS) (wr (f1 a) (Z.to_nat (off mod BS)) (take (Z.to_nat m) src)) Hok1 (ex_mu _ _ _ _ _ _ He) Hk Ha0) as [Hext2 Hsl2].
  fold a f2 in Hext2, Hsl2. assert (Hns := need_step sb0 f x f1 x1 f2 off n Ho Hpos Hlast He Hsl2). fold m in Hns.
  assert (Hfree2 : length (free_list f) = (length (free_list f2) + length (bneed f x (off / BS)))%nat).
  { rewrite (ex_free _ _ _ _ _ _ He), (ex_free _ _ _ _ _ _ Hext2). cbn. lia. }
  assert (Hfit2 : fits (logged lg1 a) B1 x1).
  { destruct Hfit1 as [F1 F2]. split; [by apply NoDup_logged|]. intros c [Hc| ->]%elem_of_logged; [by apply F2|left].
    unfold B1. rewrite !elem_of_app. right. right. left. }
  assert (Hnb : nblocks (off + m) (n - m) = nblocks off n - 1).
  { unfold nblocks. rewrite (proj2 (Z.ltb_lt 0 n)) by done. destruct (Z.ltb_spec 0 (n - m)) as [Hp|Hp].
    - destruct (C2 Hp) as [-> ->]. lia.
    - rewrite C3 by lia. lia. }
  assert (Hnb1 : 1 <= nblocks off n) by (unfold nblocks; rewrite (proj2 (Z.ltb_lt 0 n)) by done; lia).
  eapply runs_mono; [apply (IH f2 x1 (logged lg1 a) B1 (drop (Z.to_nat m) src) (off + m) (n - m) s4); try done|].
  { apply Hext2. } { apply Hext2. } { lia. } { lia. } { lia. } { rewrite length_drop. lia. } { lia. } { lia. }
  { rewrite Hnb. lia. }
  intros off' s5 (-> & f' & x' & lg' & W & Hw & Hh5 & Hfit5 & HW). split; [lia|].
  exists f', x', lg', (drop (length B) B1 ++ W). split; [|split; [done|split]].
  - by apply (wrote_step sb0 Hly f x f1 x1 f' x' off src n).
  - rewrite app_assoc. replace (B ++ drop (length B) B1) with B1; [done|]. unfold B1. by rewrite drop_app_length.
  - rewrite length_app, length_drop, HB1. rewrite Hnb in HW. lia.
Qed.
End rw.
