(* ===== verification/FsInode.v ===== *)
(** Inodes on the disk: their encoding, [iupdate], and [writei] with it. *)

From S2P Require Import Prelude Layout CString Bytes Bio Block Log Fs FsBlocks FsFile FsRw.

(** ** The encoding *)

Record dinode_ok (di : dinode) : Prop := DinodeOk {
  do_type : - 2 ^ 15 <= d_type di < 2 ^ 15;
  do_major : - 2 ^ 15 <= d_major di < 2 ^ 15;
  do_minor : - 2 ^ 15 <= d_minor di < 2 ^ 15;
  do_nlink : - 2 ^ 15 <= d_nlink di < 2 ^ 15;
  do_size : 0 <= d_size di < 2 ^ 32;
  do_len : length (d_addrs di) = (NDIRECT + 1)%nat;
  do_addrs : Forall (fun a => 0 <= a < 2 ^ 32) (d_addrs di)
}.

Definition enc_dinode (di : dinode) : list Z :=
  le16 (d_type di) ++ le16 (d_major di) ++ le16 (d_minor di) ++ le16 (d_nlink di) ++
  le32 (d_size di) ++ concat (le32 <$> d_addrs di).

Lemma s16_u16 x : - 2 ^ 15 <= x < 2 ^ 15 -> s16 (u16 x) = x.
Proof.
  intros Hx. unfold s16, u16. rewrite Zplus_mod_idemp_l, Z.mod_small by lia. lia.
Qed.

Lemma length_enc di : dinode_ok di -> length (enc_dinode di) = sizeof_dinode.
Proof. intros Hd. unfold enc_dinode. rewrite !length_app, length_le32s, (do_len _ Hd). done. Qed.

Lemma rd16_skip v r i : rd16 (le16 v ++ r) (2 + i) = rd16 r i.
Proof. apply (rd16_app_r (le16 v)). Qed.
Lemma rd32_skip v r i : rd32 (le16 v ++ r) (2 + i) = rd32 r i.
Proof. apply (rd32_app_r (le16 v)). Qed.

(** The fields of the encoding. *)
Lemma enc_fields di : dinode_ok di ->
  rd16 (enc_dinode di) 0 = u16 (d_type di) /\ rd16 (enc_dinode di) 2 = u16 (d_major di) /\
  rd16 (enc_dinode di) 4 = u16 (d_minor di) /\ rd16 (enc_dinode di) 6 = u16 (d_nlink di) /\
  rd32 (enc_dinode di) 8 = d_size di /\
  forall i a, d_addrs di !! i = Some a -> rd32 (enc_dinode di) (12 + 4 * i) = a.
Proof.
  intros [_ _ _ _ Hs _ Ha]. unfold enc_dinode. split; [apply rd16_le16|].
  split; [by rewrite (rd16_skip _ _ 0), rd16_le16|]. split; [by rewrite (rd16_skip _ _ 2), (rd16_skip _ _ 0), rd16_le16|].
  split; [by rewrite (rd16_skip _ _ 4), (rd16_skip _ _ 2), (rd16_skip _ _ 0), rd16_le16|].
  split; [by rewrite (rd32_skip _ _ 6), (rd32_skip _ _ 4), (rd32_skip _ _ 2), (rd32_skip _ _ 0), rd32_le32|].
  intros i a Hi. set (h := le16 _ ++ _). assert (Hh : h = (le16 (d_type di) ++ le16 (d_major di) ++ le16 (d_minor di) ++
    le16 (d_nlink di) ++ le32 (d_size di)) ++ concat (le32 <$> d_addrs di)) by (unfold h; by rewrite <- !app_assoc).
  rewrite Hh. set (l := le16 _ ++ _). change 12%nat with (length l). rewrite rd32_app_r.
  apply (rd32_le32s _ i a Hi). by apply (Forall_lookup_1 _ _ _ _ Ha Hi).
Qed.

Section dinodes.
Context (d : list Z) (k : nat) (di : dinode).
Hypothesis Hlen : length d = BSIZE.
Hypothesis Hk : (k < 8)%nat.
Hypothesis Hdi : dinode_ok di.

Lemma enc_fits : (sizeof_dinode * k + length (enc_dinode di) <= length d)%nat.
Proof. rewrite length_enc, Hlen by done. unfold sizeof_dinode, BSIZE. lia. Qed.

Lemma length_put_dinode : length (put_dinode d k di) = BSIZE.
Proof. unfold put_dinode. fold (enc_dinode di). rewrite length_wr; [done|apply enc_fits]. Qed.

Lemma get_put_dinode : get_dinode (put_dinode d k di) k = di.
Proof.
  unfold get_dinode, put_dinode. fold (enc_dinode di). assert (Hf := enc_fits). assert (Hl := length_enc di Hdi).
  set (o := (sizeof_dinode * k)%nat) in *. set (w := wr d o (enc_dinode di)).
  destruct (enc_fields di Hdi) as (E1 & E2 & E3 & E4 & E5 & E6). unfold sizeof_dinode in Hl.
  assert (H16 : forall j, (j + 2 <= 64)%nat -> rd16 w (o + j) = rd16 (enc_dinode di) j).
  { intros j Hj. apply rd16_wr_at; [done|lia]. }
  assert (H32 : forall j, (j + 4 <= 64)%nat -> rd32 w (o + j) = rd32 (enc_dinode di) j).
  { intros j Hj. apply rd32_wr_at; [done|lia]. }
  rewrite <- (Nat.add_0_r o) at 1. rewrite !H16, H32, E1, E2, E3, E4, E5 by lia.
  rewrite !s16_u16 by apply Hdi.
  assert (Ha : (fun i => rd32 w (o + 12 + 4 * i)) <$> seq 0 (NDIRECT + 1) = d_addrs di).
  { apply list_eq. intros i. rewrite list_lookup_fmap. assert (Hda := do_len _ Hdi).
    destruct (decide (i < NDIRECT + 1)%nat) as [Hi|Hi].
    - rewrite lookup_seq_lt by done. cbn [fmap option_fmap option_map Nat.add].
      destruct (lookup_lt_is_Some_2 (d_addrs di) i) as [a Hai]; [lia|]. rewrite Hai, <- Nat.add_assoc.
      rewrite H32 by (unfold NDIRECT in *; lia). by rewrite (E6 i a Hai).
    - rewrite lookup_seq_ge by lia. cbn. symmetry. apply lookup_ge_None_2. lia. }
  rewrite Ha. by destruct di.
Qed.

Lemma get_put_dinode_ne j : (j < 8)%nat -> j <> k -> get_dinode (put_dinode d k di) j = get_dinode d j.
Proof.
  intros Hj Hne. unfold get_dinode, put_dinode. fold (enc_dinode di). assert (Hf := enc_fits).
  assert (Hl := length_enc di Hdi). unfold sizeof_dinode in *.
  assert (Hsep : forall i, (i < 64)%nat -> (64 * j + i < 64 * k \/ 64 * k + 64 <= 64 * j + i)%nat) by lia.
  rewrite <- (Nat.add_0_r (64 * j)) at 1. rewrite <- (Nat.add_0_r (64 * j)) at 6.
  rewrite !rd16_wr_ne, rd32_wr_ne by (done || lia). f_equal.
  apply list_fmap_ext. intros i n Hn. apply lookup_seq in Hn as [-> Hi]. unfold NDIRECT in Hi.
  apply rd32_wr_ne; [done|lia].
Qed.
End dinodes.

(** ** The in-memory copy *)

Definition dinode_of (x : inode) : dinode :=
  Dinode (i_type x) (i_major x) (i_minor x) (i_nlink x) (i_size x) (i_addrs x).

Section inode.
Context {St : Type} `{HS : blocks_spec St}.
Abbreviation fss := (@Fs.fss St).
Abbreviation F := (@Fs.F St).
Context (sb0 : superblock) (Hly : layout sb0).
Abbreviation meta_used := (FsBlocks.meta_used sb0).
Abbreviation used := (FsBlocks.used sb0).
Abbreviation bmap_block := (FsBlocks.bmap_block sb0).
Abbreviation free_list := (FsBlocks.free_list sb0).
Abbreviation inode_ok := (FsFile.inode_ok sb0).
Abbreviation data_block := (FsFile.data_block sb0).
Implicit Types (f : Z -> list Z) (x : inode).

(** The block of the inode and its place there. *)
Definition iblock x : Z := IBLOCK (i_inum x) sb0.
Definition iplace x : nat := Z.to_nat (i_inum x mod IPB).

Record fields_ok x : Prop := FieldsOk {
  fo_inum : 0 <= i_inum x < sb_ninodes sb0;
  fo_type : - 2 ^ 15 <= i_type x < 2 ^ 15;
  fo_major : - 2 ^ 15 <= i_major x < 2 ^ 15;
  fo_minor : - 2 ^ 15 <= i_minor x < 2 ^ 15;
  fo_nlink : - 2 ^ 15 <= i_nlink x < 2 ^ 15
}.

(** The disk has the fields of the copy. *)
Definition synced f x : Prop := get_dinode (f (iblock x)) (iplace x) = dinode_of x.

Lemma iplace_lt x : (iplace x < 8)%nat.
Proof. unfold iplace, IPB. pose proof (Z.mod_pos_bound (i_inum x) 8 ltac:(lia)). lia. Qed.

Lemma iblock_home x : fields_ok x -> bl_home (iblock x) /\ iblock x < sb_bmapstart sb0.
Proof.
  intros Hf. destruct (ly_inodes _ Hly _ (fo_inum _ Hf)) as [H1 H2]. fold (iblock x) in H1, H2. split; [|done].
  apply (ly_home _ Hly). pose proof (ly_data _ Hly). pose proof (size_pos sb0 Hly). unfold dstart in *.
  pose proof (Z.div_pos (sb_size sb0) BPB ltac:(lia) BPB_pos). lia.
Qed.

Lemma dinode_of_ok f x : inode_ok f x -> fields_ok x -> dinode_ok (dinode_of x).
Proof.
  intros Hok []. constructor; cbn; try done.
  - pose proof (io_size _ _ _ Hok). unfold MAXFILE, BSIZE in *. lia.
  - apply Hok.
  - apply Forall_lookup_2. intros i a Ha. assert (Hlt := lookup_lt_Some _ _ _ Ha). rewrite (io_len _ _ _ Hok) in Hlt.
    assert (Hs : exists k, a_slot k /\ slot_of f x k = a).
    { apply list_lookup_total_correct in Ha. destruct (decide (i = 12%nat)) as [->|Hi].
      - exists MAXFILE. split; [unfold a_slot, MAXFILE; lia|]. by rewrite slot_ind.
      - exists (Z.of_nat i). split; [unfold a_slot, MAXFILE; lia|]. unfold slot_of, NDIRECT.
        rewrite (proj2 (Z.ltb_lt _ _)), Nat2Z.id by lia. done. }
    destruct Hs as (k & Hk & <-). destruct (decide (slot_of f x k = 0)) as [->|Hn]; [lia|].
    destruct (io_data _ _ _ Hok k Hk Hn) as [Hd _]. pose proof (data_pos sb0 Hly _ Hd). pose proof (size_le sb0 Hly).
    unfold FsFile.data_block, FSSIZE in *. lia.
Qed.

(** A block that is neither data nor bitmap does not matter to files. *)
Lemma ok_upd_meta f x n v :
  inode_ok f x -> meta_used f -> n < sb_bmapstart sb0 ->
  inode_ok (upd f n v) x /\ meta_used (upd f n v) /\
  (forall k, a_slot k -> slot_of (upd f n v) x k = slot_of f x k) /\
  (forall c, 0 <= c < sb_size sb0 -> used (upd f n v) c = used f c).
Proof.
  intros Hok Hmu Hn. assert (Hnb : ~ bmap_block n) by (unfold FsBlocks.bmap_block; lia).
  pose proof (size_pos sb0 Hly) as Hsz. pose proof (Z.div_pos (sb_size sb0) BPB ltac:(lia) BPB_pos) as Hq.
  assert (Hus : forall c, 0 <= c < sb_size sb0 -> used (upd f n v) c = used f c) by (intros c Hc; by apply used_upd_out).
  assert (Hne : forall a, data_block a -> a <> n) by (unfold FsFile.data_block, dstart; lia).
  assert (Hsl : forall k, a_slot k -> slot_of (upd f n v) x k = slot_of f x k).
  { intros k Hk. unfold slot_of. destruct (Z.eqb_spec (indirect x) 0) as [|Hi]; [done|]. rewrite upd_ne; [done|].
    apply Hne. apply (io_data _ _ _ Hok MAXFILE); [unfold a_slot, MAXFILE; lia|done]. }
  split_and!; [|intros c Hc; pose proof (ly_data _ Hly); rewrite Hus by lia; by apply Hmu|done|done].
  destruct Hok as [O1 O2 O3 O4 O5 O6]. constructor; try done.
  - intros k Hk. rewrite Hsl by done. intros Hk0. destruct (O3 k Hk Hk0) as [Hd Hu]. split; [done|].
    assert (Hp := data_pos sb0 Hly _ Hd). unfold FsFile.data_block in Hd. by rewrite Hus by lia.
  - intros i j Hi Hj. rewrite !Hsl by done. by apply O4.
  - intros k Hk. rewrite Hsl by (unfold a_slot; lia). by apply O6.
Qed.

Definition iupd f x : Z -> list Z := upd f (iblock x) (put_dinode (f (iblock x)) (iplace x) (dinode_of x)).

Lemma synced_iupd f x : inode_ok f x -> fields_ok x -> length (f (iblock x)) = BSIZE ->
  synced (iupd f x) x /\ forall j, (j < 8)%nat -> j <> iplace x ->
    get_dinode (iupd f x (iblock x)) j = get_dinode (f (iblock x)) j.
Proof.
  intros Hok Hfo Hlen. unfold synced, iupd. rewrite upd_eq. assert (Hd := dinode_of_ok f x Hok Hfo).
  assert (Hk := iplace_lt x). split; [by apply get_put_dinode|]. intros j Hj Hne. by apply get_put_dinode_ne.
Qed.

Section run.
Context (s0 : fss) (Hsb : sb s0 = sb0) (ip : nat) (Hip : (ip < length (icache s0))%nat).

Lemma iupdate_runs f x lg s :
  inode_ok f x -> fields_ok x -> (length lg < LOGMAX)%nat -> holds (withi s0 ip x) [] lg f s ->
  runs (iupdate ip) s (fun _ => holds (withi s0 ip x) [] (logged lg (iblock x)) (iupd f x)).
Proof.
  intros Hok Hfo Hlg Hh. destruct (iblock_home x Hfo) as [Hhm _].
  assert (Hlen : length (f (iblock x)) = BSIZE) by (eapply holds_len; [exact Hh|by apply bl_home_vis]).
  unfold iupdate. eapply runs_geti; [done|exact Hh|]. eapply runs_gets_sb; [exact Hh|exact Hsb|].
  rewrite (io_dev _ _ _ Hok). fold (iblock x).
  eapply runs_bread; [exact Hh|by apply bl_home_vis|apply not_elem_of_nil|unfold LOGMAX, NBUF in *; cbn; lia|].
  intros h s1 Hh1. eapply runs_bdata; [exact Hh1|left|]. fold (dinode_of x) (iplace x).
  eapply runs_bwrite; [exact Hh1|left|done| |lia|].
  { apply length_put_dinode; [done|apply iplace_lt|by eapply dinode_of_ok]. }
  intros s2 Hh2. eapply runs_brelse; [exact Hh2|]. done.
Qed.
End run.
End inode.
