(* ===== verification/FsWrite.v ===== *)
(** What a call of [writei] does to a file, to the other files and to the log. *)

From S2P Require Import Prelude Layout CString Bytes Bio Block Log Fs FsBlocks FsFile FsRw FsInode.

(** [src] written over the bytes [c] at [off]. *)
Definition splice (c : list Z) (off : nat) (src : list Z) : list Z := take off c ++ src ++ drop (off + length src) c.

Lemma lookup_splice c off src i :
  (off <= length c)%nat ->
  splice c off src !! i =
    if decide (i < off)%nat then c !! i
    else if decide (i < off + length src)%nat then src !! (i - off)%nat else c !! i.
Proof.
  intros Ho. unfold splice. case_decide as H1.
  - rewrite lookup_app_l by (rewrite length_take; lia). by rewrite lookup_take_lt.
  - rewrite lookup_app_r, length_take, Nat.min_l by (rewrite ?length_take; lia). case_decide as H2.
    + by rewrite lookup_app_l by lia.
    + rewrite lookup_app_r, lookup_drop by lia. f_equal. lia.
Qed.

Lemma length_splice c off src :
  (off <= length c)%nat -> length (splice c off src) = Nat.max (length c) (off + length src).
Proof. intros Ho. unfold splice. rewrite !length_app, length_take, length_drop. lia. Qed.

Section write.
Context {St : Type} `{HS : blocks_spec St}.
Abbreviation fss := (@Fs.fss St).
Abbreviation F := (@Fs.F St).
Context (sb0 : superblock) (Hly : layout sb0).
Abbreviation meta_used := (FsBlocks.meta_used sb0).
Abbreviation used := (FsBlocks.used sb0).
Abbreviation bmap_block := (FsBlocks.bmap_block sb0).
Abbreviation free_list := (FsBlocks.free_list sb0).
Abbreviation inode_ok := (FsFile.inode_ok sb0).
Abbreviation data_block := (FsFile.data_block sb0).
Abbreviation fields_ok := (FsInode.fields_ok sb0).
Abbreviation iblock := (FsInode.iblock sb0).
Abbreviation synced := (FsInode.synced sb0).
Implicit Types (f : Z -> list Z) (x : inode).

(** The file has the new bytes; what belongs to other files is as it was. *)
Record written f x f' x' (off : Z) (src : list Z) : Prop := Written {
  wn_ok : inode_ok f' x';
  wn_mu : meta_used f';
  wn_same : x' = set_i_size (i_size x') (with_addrs (i_addrs x') x);
  wn_content : content f' x' = splice (content f x) (Z.to_nat off) src;
  wn_synced : synced f x -> synced f' x';
  wn_keep : forall k, a_slot k -> slot_of f x k <> 0 -> slot_of f' x' k = slot_of f x k;
  wn_used : forall m, 0 <= m < sb_size sb0 ->
    used f' m = true <-> used f m = true \/ exists k, a_slot k /\ slot_of f x k = 0 /\ m <> 0 /\ m = slot_of f' x' k;
  wn_new : forall k, a_slot k -> slot_of f x k = 0 -> slot_of f' x' k <> 0 -> used f (slot_of f' x' k) = false;
  wn_frame : forall m, 0 <= m < sb_size sb0 -> used f m = true -> ~ bmap_block m -> m <> iblock x ->
    (forall k, a_slot k -> slot_of f x k <> 0 -> slot_of f x k <> m) -> f' m = f m;
  wn_inodes : forall j, (j < 8)%nat -> j <> iplace x -> get_dinode (f' (iblock x)) j = get_dinode (f (iblock x)) j;
  wn_free : (length (free_list f) <= length (free_list f') + length (need f x off (Z.of_nat (length src))))%nat
}.

Lemma content_length f x : 0 <= i_size x -> length (content f x) = Z.to_nat (i_size x).
Proof. intros Hs. unfold content. by rewrite length_fmap, length_seqZ. Qed.

Lemma lookup_content f x i :
  content f x !! i = if decide (Z.of_nat i < i_size x) then Some (byte_of f x (Z.of_nat i)) else None.
Proof.
  unfold content. rewrite list_lookup_fmap. case_decide as Hi.
  - by rewrite lookup_seqZ_lt by lia.
  - by rewrite lookup_seqZ_ge by lia.
Qed.

(** The bytes after a write, with the size that [writei] sets. *)
Lemma content_wrote f x f' x' off src n :
  inode_ok f x -> wrote sb0 f x f' x' off src n -> 0 <= off <= i_size x -> n = Z.of_nat (length src) ->
  off + n <= MAXFILE * BS ->
  content f' (set_i_size (Z.max (i_size x) (off + n)) x') = splice (content f x) (Z.to_nat off) src.
Proof.
  intros Hok [_ Hin Hout _] Ho Hn Hmax. destruct (io_size _ _ _ Hok) as [_ Hsz]. fold BS in Hsz.
  apply list_eq. intros i. rewrite lookup_content, lookup_splice, lookup_content by (rewrite content_length; lia).
  assert (Hb : forall p, byte_of f' (set_i_size (Z.max (i_size x) (off + n)) x') p = byte_of f' x' p) by done.
  cbn [set_i_size i_size]. rewrite Hb. assert (Hold : Z.of_nat i < i_size x -> ~ (off <= Z.of_nat i < off + n) ->
    byte_of f' x' (Z.of_nat i) = byte_of f x (Z.of_nat i)).
  { intros H1 H2. apply Hout; [lia|done|]. pose proof BS_pos. pose proof (Z.div_mod (Z.of_nat i) BS ltac:(done)).
    pose proof (Z.mod_pos_bound (Z.of_nat i) BS BS_pos). apply (io_full _ _ _ Hok); [apply pos_slot; lia|]. fold BS. lia. }
  destruct (decide (i < Z.to_nat off)%nat) as [H1|H1].
  { rewrite !decide_True by lia. f_equal. apply Hold; lia. }
  destruct (decide (i < Z.to_nat off + length src)%nat) as [H2|H2].
  - rewrite decide_True by lia. rewrite Hin by lia.
    destruct (lookup_lt_is_Some_2 src (i - Z.to_nat off)) as [b Hb']; [lia|]. rewrite Hb'.
    f_equal. apply list_lookup_total_correct. rewrite <- Hb'. f_equal. lia.
  - case_decide as H3; case_decide as H4; try lia; [|done]. f_equal. apply Hold; lia.
Qed.

Lemma wrote_take f x f' x' off src n :
  wrote sb0 f x f' x' off src n -> wrote sb0 f x f' x' off (take (Z.to_nat n) src) n.
Proof.
  intros [W1 W2 W3 W4]. constructor; try done. intros p Hp. rewrite W2 by done.
  rewrite !list_lookup_total_alt, lookup_take_lt by lia. done.
Qed.

(** Without new blocks the addresses are the same. *)
Lemma ext_nil_addrs f x f' x' : inode_ok f x -> ext sb0 f x f' x' [] -> x' = x.
Proof.
  intros Hok He. rewrite (ex_same _ _ _ _ _ _ He). assert (Hl' := io_len _ _ _ (ex_ok _ _ _ _ _ _ He)).
  assert (Hl := io_len _ _ _ Hok). assert (Ha : i_addrs x' = i_addrs x); [|rewrite Ha; by destruct x].
  assert (Hs : forall k, a_slot k -> slot_of f' x' k = slot_of f x k).
  { intros k Hk. apply (ex_keep _ _ _ _ _ _ He); [done|apply not_elem_of_nil]. }
  apply list_eq. intros i. destruct (decide (i < 13)%nat) as [Hi|Hi].
  2: { rewrite !lookup_ge_None_2 by lia. done. }
  rewrite !list_lookup_lookup_total_lt by lia. f_equal. destruct (decide (i = NDIRECT)) as [->|Hne].
  - apply (Hs MAXFILE). unfold a_slot, MAXFILE. lia.
  - assert (Hk := Hs (Z.of_nat i)). unfold slot_of, NDIRECT in *. rewrite (proj2 (Z.ltb_lt _ _)), Nat2Z.id in Hk by lia.
    apply Hk. unfold a_slot, MAXFILE. lia.
Qed.

Lemma need_inside f x off n : inode_ok f x -> 0 <= off -> off + n <= i_size x -> need f x off n = [].
Proof.
  intros Hok Ho Hn. apply elem_of_nil_inv. intros k (Hp & Hz & Hk)%elem_of_need.
  destruct (io_size _ _ _ Hok) as [_ Hmax]. fold BS in Hmax. pose proof BS_pos as HBS. pose proof (Z.div_pos off BS Ho BS_pos) as Hq.
  pose proof (pos_slot (off + n - 1) ltac:(lia)) as Hl. fold (last_block off n) in Hl.
  pose proof (Z.mul_div_le (off + n - 1) BS ltac:(lia)) as Hm. fold (last_block off n) in Hm.
  assert (Hlast : forall j, 0 <= j <= last_block off n -> slot_of f x j <> 0).
  { intros j Hj. apply (io_full _ _ _ Hok); [lia|]. fold BS.
    assert (j * BS <= BS * last_block off n) by (rewrite (Z.mul_comm BS); apply Z.mul_le_mono_nonneg_r; lia). lia. }
  destruct Hk as [[-> Hd]|Hk]; [|by apply (Hlast k); lia].
  apply (Hlast (last_block off n)); [lia|]. rewrite slot_ind in Hz. unfold slot_of.
  by rewrite (proj2 (Z.ltb_ge _ _)), (proj2 (Z.eqb_neq _ MAXFILE)), Hz by lia.
Qed.

(** The new size after a write. *)
Lemma grown_ok f x f' x' off src n :
  inode_ok f x -> wrote sb0 f x f' x' off src n -> 0 <= off <= i_size x -> i_size x < off + n -> off + n <= MAXFILE * BS ->
  inode_ok f' (set_i_size (off + n) x').
Proof.
  intros Hok Hw Ho Hg Hmax. destruct (wr_ext _ _ _ _ _ _ _ _ Hw) as (new & He & _).
  assert (Hsz : i_size x' = i_size x) by (rewrite (ex_same _ _ _ _ _ _ He); done).
  destruct (ex_ok _ _ _ _ _ _ He) as [O1 O2 O3 O4 O5 O6]. constructor; try done; cbn [set_i_size i_size].
  - fold BS. lia.
  - intros k Hk Hp. fold BS in Hp. change (slot_of f' (set_i_size (off + n) x') k) with (slot_of f' x' k).
    destruct (decide (k * BS < i_size x)) as [Hlt|Hge]; [apply O6; [done|fold BS; lia]|].
    assert (Hs := wr_slots _ _ _ _ _ _ _ _ Hw (k * BS) ltac:(lia)). by rewrite Z.div_mul in Hs by done.
Qed.

Lemma used_new f x f' x' new m :
  ext sb0 f x f' x' new -> 0 <= m < sb_size sb0 ->
  used f' m = true <-> used f m = true \/ exists k, a_slot k /\ slot_of f x k = 0 /\ m <> 0 /\ m = slot_of f' x' k.
Proof.
  intros He Hm. rewrite (ex_used _ _ _ _ _ _ He m Hm). split; (intros [?|Hk]; [by left|right]).
  - destruct Hk as (k & Hin & ->). destruct (ex_new _ _ _ _ _ _ He k Hin) as (H1 & H2 & H3 & _). by exists k.
  - destruct Hk as (k & Hk & Hz & Hn & ->). exists k. split; [|done].
    destruct (decide (k ∈ new)) as [|Hin]; [done|]. destruct Hn. by rewrite (ex_keep _ _ _ _ _ _ He).
Qed.

Lemma keep_slot f x f' x' new k :
  ext sb0 f x f' x' new -> a_slot k -> slot_of f x k <> 0 -> slot_of f' x' k = slot_of f x k.
Proof.
  intros He Hk Hn. apply (ex_keep _ _ _ _ _ _ He); [done|]. intros Hin.
  by destruct (ex_new _ _ _ _ _ _ He k Hin) as (_ & ? & _).
Qed.

Lemma iblock_frame f x f' x' new :
  inode_ok f x -> meta_used f -> fields_ok x -> ext sb0 f x f' x' new -> f' (iblock x) = f (iblock x).
Proof.
  intros Hok Hmu Hfo He. destruct (iblock_home sb0 Hly x Hfo) as [_ Hib].
  destruct (ly_inodes _ Hly _ (fo_inum _ _ Hfo)) as [Hi1 _]. fold (iblock x) in Hi1.
  destruct (ly_order _ Hly) as [Hi0 _]. pose proof (ly_data _ Hly) as Hd. pose proof (size_pos sb0 Hly).
  pose proof (Z.div_pos (sb_size sb0) BPB ltac:(lia) BPB_pos) as Hq.
  apply (ex_frame _ _ _ _ _ _ He); [unfold dstart in Hd; lia|apply Hmu; unfold dstart; lia|unfold FsBlocks.bmap_block; lia|].
  intros k Hk Hn Heq. destruct (io_data _ _ _ Hok k Hk Hn) as [Hdb _]. unfold FsFile.data_block, dstart in *. lia.
Qed.

(** The two ways [writei] ends: the file did not grow, or it did and its inode
    was written. *)
Lemma written_inside f x f' x' off src n :
  inode_ok f x -> meta_used f -> fields_ok x -> wrote sb0 f x f' x' off src n -> 0 <= off -> 0 <= n -> off <= i_size x ->
  off + n <= i_size x -> n = Z.of_nat (length src) -> written f x f' x' off src.
Proof.
  intros Hok Hmu Hfo Hw Ho Hn Hos Hg Hlen. assert (Hex := wr_ext _ _ _ _ _ _ _ _ Hw). destruct Hex as (new & He & Hnew).
  rewrite need_inside in Hnew by done. destruct new; [|cbn in Hnew; lia]. assert (x' = x) as -> by by apply (ext_nil_addrs f x f').
  destruct (io_size _ _ _ Hok) as [Hs0 Hmax]. fold BS in Hmax.
  assert (Hib := iblock_frame f x f' x [] Hok Hmu Hfo He). constructor.
  - apply He.
  - apply He.
  - by destruct x.
  - rewrite <- (content_wrote f x f' x off src n Hok Hw) by (done || lia). rewrite Z.max_l by lia. by destruct x.
  - unfold FsInode.synced. by rewrite Hib.
  - intros k Hk Hk0. by apply (keep_slot f x f' x []).
  - intros m Hm. by apply (used_new f x f' x []).
  - intros k Hk Hz Hk0. destruct Hk0. by rewrite (ex_keep _ _ _ _ _ _ He) by (done || apply not_elem_of_nil).
  - intros m Hm Hu Hb _ Hsep. by apply (ex_frame _ _ _ _ _ _ He).
  - intros j _ _. by rewrite Hib.
  - rewrite (ex_free _ _ _ _ _ _ He). cbn. lia.
Qed.

Lemma written_grown f x f1 x1 off src n :
  let x' := set_i_size (off + n) x1 in let f' := iupd sb0 f1 x' in
  inode_ok f x -> meta_used f -> fields_ok x -> wrote sb0 f x f1 x1 off src n -> 0 <= off <= i_size x ->
  i_size x < off + n -> off + n <= MAXFILE * BS -> n = Z.of_nat (length src) -> length (f1 (iblock x)) = BSIZE ->
  inode_ok f1 x' /\ fields_ok x' /\ written f x f' x' off src.
Proof.
  intros x' f' Hok Hmu Hfo Hw Ho Hg Hmax Hlen Hl1. assert (Hex := wr_ext _ _ _ _ _ _ _ _ Hw). destruct Hex as (new & He & Hnew).
  assert (Hok1 : inode_ok f1 x') by by apply (grown_ok f x f1 x1 off src n).
  assert (Hsame := ex_same _ _ _ _ _ _ He). assert (Hx' : x' = set_i_size (off + n) (with_addrs (i_addrs x1) x)) by (unfold x'; by rewrite Hsame).
  assert (Hfo' : fields_ok x') by (rewrite Hx'; by destruct Hfo).
  assert (Hib : iblock x' = iblock x) by by rewrite Hx'. assert (Hipl : iplace x' = iplace x) by by rewrite Hx'.
  destruct (iblock_home sb0 Hly x' Hfo') as [_ Hlt].
  destruct (ok_upd_meta sb0 Hly f1 x' (iblock x') (put_dinode (f1 (iblock x')) (iplace x') (dinode_of x'))
    Hok1 (ex_mu _ _ _ _ _ _ He) Hlt) as (U1 & U2 & U3 & U4).
  destruct (synced_iupd sb0 Hly f1 x' Hok1 Hfo' ltac:(by rewrite Hib)) as [Hsy Hoth].
  assert (Hsl1 : forall k, slot_of f1 x' k = slot_of f1 x1 k) by done.
  split; [done|]. split; [done|]. constructor; try done.
  - rewrite <- (content_wrote f x f1 x1 off src n Hok Hw) by (done || lia). rewrite Z.max_r by lia. fold x'.
    unfold content. apply list_fmap_ext. intros i p Hp. apply lookup_seqZ in Hp as [-> Hp].
    destruct (io_size _ _ _ Hok1) as [_ Hsz]. fold BS in Hsz. pose proof (pos_slot (0 + Z.of_nat i) ltac:(lia)) as Hps.
    unfold byte_of. change (slot_of f' x') with (slot_of (upd f1 (iblock x') (put_dinode (f1 (iblock x')) (iplace x') (dinode_of x'))) x').
    rewrite U3 by (unfold a_slot; lia). f_equal. unfold f', iupd. apply upd_ne.
    assert (Hfull : slot_of f1 x' ((0 + Z.of_nat i) / BS) <> 0).
    { apply (io_full _ _ _ Hok1); [done|]. fold BS. pose proof (Z.mul_div_le (0 + Z.of_nat i) BS BS_pos). lia. }
    destruct (io_data _ _ _ Hok1 ((0 + Z.of_nat i) / BS) ltac:(unfold a_slot; lia) Hfull) as [Hd _].
    pose proof (Z.div_pos (sb_size sb0) BPB ltac:(pose proof (size_pos sb0 Hly); lia) BPB_pos).
    unfold FsFile.data_block, dstart in Hd. lia.
  - intros k Hk Hk0. unfold f', iupd. rewrite U3, Hsl1 by done. by apply (keep_slot f x f1 x1 new).
  - intros m Hm. unfold f', iupd. rewrite U4, (used_new f x f1 x1 new m He Hm) by done.
    split; (intros [?|(k & H1 & H2 & H3 & H4)]; [by left|right]); exists k; [by rewrite U3|by rewrite U3 in H4].
  - intros k Hk Hz. unfold f', iupd. rewrite U3, Hsl1 by done. intros Hk0.
    destruct (decide (k ∈ new)) as [Hin|Hin]; [apply (ex_new _ _ _ _ _ _ He k Hin)|].
    destruct Hk0. by rewrite (ex_keep _ _ _ _ _ _ He).
  - intros m Hm Hu Hb Hmi Hsep. unfold f', iupd. rewrite upd_ne by by rewrite Hib. by apply (ex_frame _ _ _ _ _ _ He).
  - intros j Hj Hne. rewrite <- Hib. unfold f'. rewrite Hoth by (done || by rewrite Hipl).
    by rewrite Hib, (iblock_frame f x f1 x1 new Hok Hmu Hfo He).
  - rewrite (ex_free _ _ _ _ _ _ He), (free_list_ext sb0 f' f1); [rewrite <- Hlen; lia|]. intros c Hc. by apply U4.
Qed.

(** ** Two writes in a row *)

Lemma splice_app c off s1 s2 :
  (off <= length c)%nat -> splice (splice c off s1) (off + length s1) s2 = splice c off (s1 ++ s2).
Proof.
  intros Ho. apply list_eq. intros i. rewrite !lookup_splice by (rewrite ?length_splice; lia). rewrite length_app.
  repeat case_decide; try lia; try done.
  - by rewrite lookup_app_l by lia.
  - rewrite lookup_app_r by lia. f_equal. lia.
Qed.

Lemma written_size f x f' x' off src :
  inode_ok f x -> written f x f' x' off src -> 0 <= off <= i_size x ->
  i_size x' = Z.max (i_size x) (off + Z.of_nat (length src)).
Proof.
  intros Hok Hw Ho. destruct (io_size _ _ _ (wn_ok _ _ _ _ _ _ Hw)) as [Hs _]. destruct (io_size _ _ _ Hok) as [Hs0 _].
  assert (Hl : length (content f' x') = length (splice (content f x) (Z.to_nat off) src)) by by rewrite (wn_content _ _ _ _ _ _ Hw).
  rewrite length_splice, !content_length in Hl by (rewrite ?content_length; lia). lia.
Qed.

Lemma need_after f x f1 x1 off s1 n :
  inode_ok f x -> written f x f1 x1 off s1 -> 0 <= off <= i_size x -> Z.of_nat (length s1) <= n -> off + n <= MAXFILE * BS ->
  (length (need f x off (Z.of_nat (length s1))) + length (need f1 x1 (off + Z.of_nat (length s1)) (n - Z.of_nat (length s1)))
    <= length (need f x off n))%nat.
Proof.
  intros Hok Hw Ho Hn Hmax. set (n1 := Z.of_nat (length s1)) in *. assert (Hsz := written_size _ _ _ _ _ _ Hok Hw Ho). fold n1 in Hsz.
  pose proof BS_pos as HBS. assert (Hn1 : 0 <= n1) by (unfold n1; lia).
  assert (Hq := Z.div_pos off BS ltac:(lia) HBS). assert (Hmono := Z.div_le_mono off (off + n1) BS HBS ltac:(lia)).
  assert (Hlast : forall a b, off <= a + b -> a + b <= MAXFILE * BS -> 0 < b -> 0 <= a -> 0 <= last_block a b < MAXFILE).
  { intros a b H1 H2 H3 H4. apply (pos_slot (a + b - 1)). lia. }
  assert (Hfill : forall k, 0 <= k <= last_block off n1 -> 0 < n1 -> slot_of f1 x1 k <> 0).
  { intros k Hk Hp. destruct (Hlast off n1 ltac:(lia) ltac:(lia) Hp ltac:(lia)) as [_ Hl].
    apply (io_full _ _ _ (wn_ok _ _ _ _ _ _ Hw)); [lia|]. fold BS. pose proof (Z.mul_div_le (off + n1 - 1) BS HBS) as Hm.
    fold (last_block off n1) in Hm. assert (k * BS <= BS * last_block off n1) by (rewrite (Z.mul_comm BS); apply Z.mul_le_mono_nonneg_r; lia). lia. }
  assert (Hfilled : forall k, k ∈ need f x off n1 -> slot_of f1 x1 k <> 0).
  { intros k (Hp & Hz & Hk)%elem_of_need. destruct (Hlast off n1 ltac:(lia) ltac:(lia) Hp ltac:(lia)) as [Hl0 Hl].
    destruct Hk as [[-> Hd]|Hk]; [|apply Hfill; lia]. intros Hi. rewrite slot_ind in Hi.
    apply (Hfill (last_block off n1) ltac:(lia) Hp). unfold slot_of.
    by rewrite (proj2 (Z.ltb_ge _ _)), (proj2 (Z.eqb_neq _ MAXFILE)), Hi by lia. }
  rewrite <- length_app. apply submseteq_length, NoDup_submseteq.
  - apply NoDup_app. split_and!.
    + destruct (decide (0 < n1)) as [Hp|Hp]; [apply NoDup_need, (Hlast off n1); lia|].
      unfold need. rewrite (proj2 (Z.ltb_ge _ _)) by lia. constructor.
    + intros k Hk (_ & Hz & _)%elem_of_need. by apply (Hfilled k).
    + destruct (decide (0 < n - n1)) as [Hp|Hp]; [apply NoDup_need, (Hlast (off + n1) (n - n1)); lia|].
      unfold need. rewrite (proj2 (Z.ltb_ge _ _)) by lia. constructor.
  - assert (Hend : last_block (off + n1) (n - n1) = last_block off n) by (unfold last_block; f_equal; lia).
    intros k [(Hp & Hz & Hk)%elem_of_need|(Hp & Hz & Hk)%elem_of_need]%elem_of_app; apply elem_of_need.
    + split; [lia|]. split; [done|]. assert (last_block off n1 <= last_block off n) by (apply Z.div_le_mono; lia). lia.
    + rewrite Hend in Hk. split; [lia|]. split.
      * assert (Hks : a_slot k).
        { destruct (Hlast off n ltac:(lia) ltac:(lia) ltac:(lia) ltac:(lia)). unfold a_slot, MAXFILE in *. lia. }
        destruct (decide (slot_of f x k = 0)) as [|Hn0]; [done|]. by rewrite <- (wn_keep _ _ _ _ _ _ Hw k Hks Hn0).
      * lia.
Qed.

Lemma written_refl f x off : inode_ok f x -> meta_used f -> written f x f x off [].
Proof.
  intros Hok Hmu. constructor; try done.
  - by destruct x.
  - unfold splice. cbn. by rewrite Nat.add_0_r, take_drop.
  - intros m Hm. split; [by left|]. intros [?|(k & _ & Hz & Hn & ->)]; done.
  - lia.
Qed.

Lemma written_trans f x f1 x1 f2 x2 off s1 s2 :
  inode_ok f x -> meta_used f -> 0 <= off <= i_size x -> off + Z.of_nat (length s1 + length s2) <= MAXFILE * BS ->
  written f x f1 x1 off s1 -> written f1 x1 f2 x2 (off + Z.of_nat (length s1)) s2 ->
  written f x f2 x2 off (s1 ++ s2).
Proof.
  intros Hok Hmu Ho Hmax W1 W2. destruct (io_size _ _ _ Hok) as [Hs0 _].
  assert (Hn := need_after f x f1 x1 off s1 (Z.of_nat (length (s1 ++ s2))) Hok W1 Ho). rewrite length_app in Hn.
  specialize (Hn ltac:(lia) ltac:(lia)).
  destruct W1 as [A1 A2 A3 A4 A5 A6 A7 An A8 A9 A10]. destruct W2 as [B1 B2 B3 B4 B5 B6 B7 Bn B8 B9 B10].
  assert (Hib : iblock x1 = iblock x) by by rewrite A3. assert (Hipl : iplace x1 = iplace x) by by rewrite A3.
  assert (Hslot : forall k, a_slot k -> slot_of f x k <> 0 -> slot_of f2 x2 k = slot_of f x k).
  { intros k Hk Hk0. rewrite B6, A6; [done|done|done|done|by rewrite A6]. }
  constructor; try done.
  - rewrite B3, A3. done.
  - rewrite B4, A4, <- splice_app by (rewrite content_length; lia). f_equal. lia.
  - intros Hsy. by apply B5, A5.
  - intros m Hm. rewrite B7, A7 by done. split.
    + intros [[?|(k & K1 & K2 & K3 & K4)]|(k & K1 & K2 & K3 & K4)]; [by left|right; exists k|right; exists k].
      * split_and!; [done|done|done|]. rewrite B6; [done|done|congruence].
      * split_and!; [done| |done|done]. destruct (decide (slot_of f x k = 0)) as [|Hk0]; [done|]. by rewrite A6 in K2.
    + intros [?|(k & K1 & K2 & K3 & ->)]; [by left; left|]. destruct (decide (slot_of f1 x1 k = 0)) as [Hz|Hz].
      * right. by exists k.
      * left. right. exists k. rewrite B6 by done. split_and!; try done.
  - intros k Hk Hz Hk2. destruct (decide (slot_of f1 x1 k = 0)) as [Hz1|Hz1].
    + assert (Hu1 := Bn k Hk Hz1 Hk2). destruct (used f (slot_of f2 x2 k)) eqn:Hu; [|done].
      rewrite <- Hu1. symmetry. apply A7; [|by left]. destruct (io_data _ _ _ B1 k Hk Hk2) as [Hd _].
      pose proof (data_pos sb0 Hly _ Hd). unfold FsFile.data_block in Hd. lia.
    + rewrite B6 in * by done. by apply An.
  - intros m Hm Hu Hb Hi Hsep. rewrite B8, A8; try done.
    + apply A7; [done|by left].
    + by rewrite Hib.
    + intros k Hk Hk1. destruct (decide (slot_of f x k = 0)) as [Hz|Hz]; [|rewrite A6 by done; by apply Hsep].
      intros <-. by rewrite An in Hu.
  - intros j Hj Hne. rewrite <- Hib, B9, Hib by (done || by rewrite Hipl). by apply A9.
  - rewrite length_app. replace (Z.of_nat (length s1 + length s2) - Z.of_nat (length s1)) with (Z.of_nat (length s2)) in Hn by lia. lia.
Qed.

Section run.
Context (dev_write : Z -> option (nat -> list Z -> Z -> F Z)).
Context (s0 : fss) (Hsb : sb s0 = sb0) (ip : nat) (Hip : (ip < length (icache s0))%nat).

Lemma writei_runs f x lg B src off n s :
  inode_ok f x -> meta_used f -> fields_ok x -> i_type x <> T_DEV -> fits lg B x -> holds (withi s0 ip x) [] lg f s ->
  0 <= off <= i_size x -> 0 <= n < 2 ^ 32 -> off + n <= MAXFILE * BS -> n <= Z.of_nat (length src) ->
  (length (need f x off n) <= length (free_list f))%nat ->
  (length B + length (need f x off n) + Z.to_nat (nblocks off n) + 6 < LOGMAX)%nat ->
  runs (writei dev_write ip src off n) s (fun r s' => r = n /\ exists f' x' lg' W,
    written f x f' x' off (take (Z.to_nat n) src) /\ holds (withi s0 ip x') [] lg' f' s' /\ fits lg' (B ++ W) x' /\
    (length W <= length (need f x off n) + Z.to_nat (nblocks off n) + 1)%nat).
Proof.
  intros Hok Hmu Hfo Ht Hfit Hh Ho Hn Hmax Hsrc Hfree Hlog. destruct (io_size _ _ _ Hok) as [_ Hsz]. fold BS in Hsz.
  assert (HBS : MAXFILE * BS < 2 ^ 32) by done.
  assert (Hl : n = Z.of_nat (length (take (Z.to_nat n) src))) by (rewrite length_take; lia).
  unfold writei. eapply runs_geti; [done|exact Hh|]. rewrite (proj2 (Z.eqb_neq _ T_DEV)) by done.
  rewrite (proj2 (Z.ltb_ge (i_size x) off)), u32_small, (proj2 (Z.ltb_ge (off + n) off)) by lia. cbn [orb]. fold BS.
  rewrite (proj2 (Z.ltb_ge _ (off + n))) by lia. apply runs_bind.
  eapply runs_mono; [apply (writei_loop_runs sb0 Hly s0 Hsb ip Hip _ f x lg B); try done; lia|].
  intros off' s1 (-> & f1 & x1 & lg1 & W & Hw & Hh1 & Hfit1 & HW).
  assert (Hw' := wrote_take _ _ _ _ _ _ _ Hw). assert (Hex := wr_ext _ _ _ _ _ _ _ _ Hw). destruct Hex as (new & He & _).
  assert (Hsz1 : i_size x1 = i_size x) by (by rewrite (ex_same _ _ _ _ _ _ He)).
  eapply runs_geti; [done|exact Hh1|]. rewrite Hsz1. destruct (Z.ltb_spec (i_size x) (off + n)) as [Hg|Hg].
  2: { rewrite andb_false_r. eapply runs_Ok; [done|]. split; [done|]. exists f1, x1, lg1, W.
       split; [apply (written_inside f x f1 x1 off _ n); try done; lia|]. split; [done|]. split; [done|lia]. }
  rewrite (proj2 (Z.ltb_lt 0 n)) by lia. cbn [andb].
  destruct (iblock_home sb0 Hly x Hfo) as [Hhm _].
  destruct (written_grown f x f1 x1 off (take (Z.to_nat n) src) n) as (Hok' & Hfo' & Hwn); try done.
  { eapply holds_len; [exact Hh1|by apply bl_home_vis]. }
  assert (Hib : iblock (set_i_size (off + n) x1) = iblock x) by (rewrite (ex_same _ _ _ _ _ _ He); done).
  assert (Hll := fits_length _ _ _ Hfit1). rewrite length_app in Hll.
  apply runs_bind. eapply runs_updi; [done|exact Hh1|]. intros s2 Hh2.
  eapply runs_mono; [apply (iupdate_runs sb0 Hly s0 Hsb ip Hip f1 _ lg1 s2 Hok' Hfo'); [lia|exact Hh2]|].
  intros [] s3 Hh3. eapply runs_Ok; [done|]. split; [done|].
  eexists _, _, _, (W ++ [iblock x]). split; [exact Hwn|]. split; [exact Hh3|]. split.
  - destruct Hfit1 as [F1 F2]. split; [by apply NoDup_logged|]. intros m [Hm| ->]%elem_of_logged.
    + destruct (F2 m Hm) as [?|?]; [left; set_solver|by right].
    + left. rewrite Hib. set_solver.
  - rewrite length_app. cbn. lia.
Qed.
End run.
End write.
