(* ===== verification/Pipe.v ===== *)
(** Pipes ([pipe.c]): a ring buffer with free-running 32-bit counters, shared
    by any number of reading and writing threads.

    The lock of the pipe is held from the start of a call, or from its return
    from [sleep], to its end or the next [sleep]: such a turn is one step. *)

From S2P Require Import Prelude.

(** ** Data *)

Definition PIPESIZE : Z := 512.

Record pipe := Pipe {
  pdata : list Z;
  nread : Z;
  nwrite : Z;
  readopen : Z;
  writeopen : Z
}.

(** The channels [&p->nread] and [&p->nwrite]. *)
Inductive pchan := Pnread | Pnwrite.
#[export] Instance pchan_eq_dec : EqDecision pchan.
Proof. solve_decision. Defined.

(** A call in progress: [pipewrite(p, addr, n)] with its loop variable, or
    [piperead(p, addr, n)] with the bytes it has stored at [addr]. *)
Inductive pcall :=
| Pwrite (addr : list Z) (n i : Z)
| Pread (n : Z) (got : list Z).

Inductive pstatus := Pready | Psleep (ch : pchan) | Pdone (r : Z).
#[export] Instance pstatus_eq_dec : EqDecision pstatus.
Proof. solve_decision. Defined.

Record pthread := Pthread {
  pcl : pcall;
  pst : pstatus;
  pkilled : bool
}.

(** The pipe, the threads that are or were inside it, and whether its page
    has been given back. *)
Record psys := Psys {
  ppipe : pipe;
  pthr : list pthread;
  pfreed : bool
}.

Definition set_ppipe (p : pipe) (s : psys) : psys := Psys p (pthr s) (pfreed s).
Definition set_pthr (l : list pthread) (s : psys) : psys := Psys (ppipe s) l (pfreed s).
Definition set_pfreed (b : bool) (s : psys) : psys := Psys (ppipe s) (pthr s) b.
Definition PM (A : Type) : Type := M psys A.

(** ** Threads *)

Definition wake_thread (ch : pchan) (t : pthread) : pthread :=
  if decide (pst t = Psleep ch) then Pthread (pcl t) Pready (pkilled t) else t.
Definition pwakeup (ch : pchan) : PM () := modify (fun s => set_pthr (wake_thread ch <$> pthr s) s).

(** Thread [me] leaves the pipe, or goes to sleep in it, at the point [c]. *)
Definition pset (me : nat) (c : pcall) (st : pstatus) : PM () :=
  modify (fun s => set_pthr (alter (fun t => Pthread c st (pkilled t)) me (pthr s)) s).

(** [myproc()->killed]. *)
Definition my_killed (me : nat) : PM bool :=
  t ← gets (fun s => pthr s !! me);
  t ← deref "myproc" t;
  ret (pkilled t).

(** ** Operations *)

Definition pipe_init : pipe := Pipe (replicate (Z.to_nat PIPESIZE) 0) 0 0 1 1.

Definition pipeclose (writable : bool) : PM () :=
  p ← gets ppipe;
  (if writable then
     modify (set_ppipe (Pipe (pdata p) (nread p) (nwrite p) (readopen p) 0));; pwakeup Pnread
   else
     modify (set_ppipe (Pipe (pdata p) (nread p) (nwrite p) 0 (writeopen p)));; pwakeup Pnwrite);;
  p ← gets ppipe;
  when ((readopen p =? 0) && (writeopen p =? 0)) (modify (set_pfreed true)).

(** [p->data[p->nwrite++ % PIPESIZE] = b]. *)
Definition put_byte (b : Z) (p : pipe) : pipe :=
  Pipe (<[Z.to_nat (nwrite p mod PIPESIZE) := b]> (pdata p)) (nread p) (u32 (nwrite p + 1)) (readopen p) (writeopen p).

Fixpoint pipewrite_loop (fuel : nat) (me : nat) (addr : list Z) (n i : Z) : PM () :=
  match fuel with
  | O => spin
  | S fuel =>
      if i <? n then
        p ← gets ppipe;
        if nwrite p =? u32 (nread p + PIPESIZE) then
          k ← my_killed me;
          if (readopen p =? 0) || k then pset me (Pwrite addr n i) (Pdone (-1))
          else pwakeup Pnread;; pset me (Pwrite addr n i) (Psleep Pnwrite)
        else
          b ← deref "pipewrite: addr" (addr !! Z.to_nat i);
          modify (set_ppipe (put_byte b p));;
          pipewrite_loop fuel me addr n (i + 1)
      else
        pwakeup Pnread;; pset me (Pwrite addr n i) (Pdone n)
  end.
(** From the entry ([i = 0]) or from the return of [sleep]. *)
Definition pipewrite (me : nat) (addr : list Z) (n i : Z) : PM () :=
  pipewrite_loop (S (Z.to_nat (n - i))) me addr n i.

(** The bytes the loop stores at [addr], from the first to the last. *)
Fixpoint piperead_loop (fuel : nat) : PM (list Z) :=
  match fuel with
  | O => ret []
  | S fuel =>
      p ← gets ppipe;
      if nread p =? nwrite p then ret [] else
      b ← deref "piperead: data" (pdata p !! Z.to_nat (nread p mod PIPESIZE));
      modify (set_ppipe (Pipe (pdata p) (u32 (nread p + 1)) (nwrite p) (readopen p) (writeopen p)));;
      bs ← piperead_loop fuel;
      ret (b :: bs)
  end.
Definition piperead (me : nat) (n : Z) : PM () :=
  p ← gets ppipe;
  if (nread p =? nwrite p) && negb (writeopen p =? 0) then
    k ← my_killed me;
    if k then pset me (Pread n []) (Pdone (-1))
    else pset me (Pread n []) (Psleep Pnread)
  else
    got ← piperead_loop (Z.to_nat n);
    pwakeup Pnwrite;;
    pset me (Pread n got) (Pdone (Z.of_nat (length got))).

(** ** The queue *)

(** The bytes in the pipe, oldest first. *)
Definition pcount (p : pipe) : Z := u32 (nwrite p - nread p).
Definition contents (p : pipe) : list Z :=
  (fun k => pdata p !!! Z.to_nat ((nread p + Z.of_nat k) mod PIPESIZE)) <$> seq 0 (Z.to_nat (pcount p)).

Record pok (p : pipe) : Prop := Pok {
  pok_len : length (pdata p) = Z.to_nat PIPESIZE;
  pok_nread : 0 <= nread p < 2 ^ 32;
  pok_nwrite : 0 <= nwrite p < 2 ^ 32;
  pok_count : pcount p <= PIPESIZE
}.

Lemma u32_diff a b c : u32 a = b -> u32 (b - c) = u32 (a - c).
Proof. intros <-. unfold u32. apply Zminus_mod_idemp_l. Qed.

Lemma u32_cong a b : (exists k, a = b + k * 2 ^ 32) -> u32 a = u32 b.
Proof. intros [k ->]. unfold u32. apply Z_mod_plus_full. Qed.

Lemma pcount_range p : 0 <= pcount p.
Proof. apply u32_range. Qed.

Lemma contents_length p : Z.of_nat (length (contents p)) = pcount p.
Proof. unfold contents. rewrite length_fmap, length_seq. pose proof (pcount_range p). lia. Qed.

Lemma mod_pipe x : 0 <= x mod PIPESIZE < PIPESIZE.
Proof. by apply Z.mod_pos_bound. Qed.

(** The test for a full pipe. *)
Lemma full_test p : pok p -> (nwrite p =? u32 (nread p + PIPESIZE)) = (pcount p =? PIPESIZE).
Proof.
  intros [_ Hr Hw Hc]. unfold pcount, u32, PIPESIZE in *. apply eq_true_iff_eq. rewrite !Z.eqb_eq. split.
  - intros ->. rewrite Zminus_mod_idemp_l. replace (nread p + 512 - nread p) with 512 by lia. done.
  - intros Hm. destruct (Z_lt_dec (nwrite p) (nread p)) as [Hlt|Hge].
    + rewrite <- (Z_mod_plus_full _ 1), Z.mod_small in Hm by lia.
      apply (Z.mod_unique_pos _ _ 1); lia.
    + rewrite Z.mod_small in Hm by lia. rewrite Z.mod_small; lia.
Qed.

Lemma empty_test p : pok p -> (nread p =? nwrite p) = (pcount p =? 0).
Proof.
  intros [_ Hr Hw Hc]. unfold pcount, u32 in *. apply eq_true_iff_eq. rewrite !Z.eqb_eq. split.
  - intros ->. by rewrite Z.sub_diag.
  - intros Hm. destruct (Z_lt_dec (nwrite p) (nread p)) as [Hlt|Hge].
    + rewrite <- (Z_mod_plus_full _ 1), Z.mod_small in Hm by lia. lia.
    + rewrite Z.mod_small in Hm by lia. lia.
Qed.

(** Positions in the ring do not notice that the counters wrap. *)
Lemma ring_wrap x k : (u32 x + k) mod PIPESIZE = (x + k) mod PIPESIZE.
Proof.
  unfold u32, PIPESIZE. rewrite (Z.mod_eq x) by done.
  replace (x - 2 ^ 32 * (x / 2 ^ 32) + k) with (x + k + (- (x / 2 ^ 32) * 8388608) * 512) by lia. apply Z_mod_plus_full.
Qed.

Lemma put_byte_ok p b :
  pok p -> pcount p <> PIPESIZE -> pok (put_byte b p) /\ contents (put_byte b p) = contents p ++ [b].
Proof.
  intros Hp Hc. assert (Hn : pcount (put_byte b p) = pcount p + 1).
  { unfold pcount. cbn [nwrite nread put_byte]. rewrite (u32_diff _ _ _ eq_refl).
    destruct Hp as [_ _ _ Hc']. pose proof (u32_range (nwrite p - nread p)) as Hr. unfold pcount, PIPESIZE in *.
    replace (nwrite p + 1 - nread p) with (nwrite p - nread p + 1) by lia. unfold u32 in *.
    rewrite <- Zplus_mod_idemp_l. apply Z.mod_small. lia. }
  pose proof (pcount_range p) as Hp0. destruct Hp as [Hl Hr Hw Hcc]. split.
  - constructor; [cbn; by rewrite length_insert|done|apply u32_range|lia].
  - unfold contents. rewrite Hn, Z2Nat.inj_add, seq_app, fmap_app by lia. f_equal.
    + apply list_fmap_ext. intros i k Hk. apply lookup_seq in Hk as [-> Hk]. cbn [put_byte pdata nread].
      rewrite list_lookup_total_insert_ne; [done|]. pose proof (mod_pipe (nwrite p)). pose proof (mod_pipe (nread p + Z.of_nat (0 + i))).
      intros He. apply Z2Nat.inj in He; [|lia|lia].
      assert (Hd : (nwrite p - nread p + - Z.of_nat i) mod PIPESIZE = 0).
      { replace (nwrite p - nread p + - Z.of_nat i) with (nwrite p - (nread p + Z.of_nat (0 + i))) by lia.
        rewrite Zminus_mod, He, Z.sub_diag. done. }
      rewrite <- (ring_wrap (nwrite p - nread p) (- Z.of_nat i)) in Hd. fold (pcount p) in Hd.
      rewrite Z.add_opp_r, Z.mod_small in Hd by lia. lia.
    + change (Z.to_nat 1) with 1%nat. cbn [seq fmap list_fmap]. f_equal. cbn [put_byte pdata nread].
      replace (Z.to_nat ((nread p + Z.of_nat (0 + Z.to_nat (pcount p))) mod PIPESIZE)) with (Z.to_nat (nwrite p mod PIPESIZE)).
      * apply list_lookup_total_insert_eq. rewrite Hl. pose proof (mod_pipe (nwrite p)). lia.
      * f_equal. rewrite Nat2Z.inj_add, Z2Nat.id, Z.add_0_l by lia.
        rewrite Z.add_comm. unfold pcount. rewrite ring_wrap. f_equal. lia.
Qed.

(** Taking the oldest byte. *)
Definition take_byte (p : pipe) : pipe :=
  Pipe (pdata p) (u32 (nread p + 1)) (nwrite p) (readopen p) (writeopen p).

Lemma take_byte_ok p :
  pok p -> pcount p <> 0 ->
  exists b, pdata p !! Z.to_nat (nread p mod PIPESIZE) = Some b /\ pok (take_byte p) /\
    contents p = b :: contents (take_byte p).
Proof.
  intros Hp Hc. assert (Hn : pcount p = pcount (take_byte p) + 1).
  { unfold pcount. cbn [nwrite nread take_byte].
    pose proof (u32_range (nwrite p - nread p)) as Hr. unfold pcount in *. unfold u32 in *.
    rewrite Zminus_mod_idemp_r. replace (nwrite p - (nread p + 1)) with (nwrite p - nread p - 1) by lia.
    rewrite <- (Zminus_mod_idemp_l (nwrite p - nread p) 1). rewrite (Z.mod_small (_ mod _ - 1)); lia. }
  pose proof (pcount_range (take_byte p)) as Hp0. destruct Hp as [Hl Hr Hw Hcc].
  destruct (lookup_lt_is_Some_2 (pdata p) (Z.to_nat (nread p mod PIPESIZE))) as [b Hb].
  { rewrite Hl. pose proof (mod_pipe (nread p)). lia. }
  exists b. split; [done|]. split; [constructor; [done|apply u32_range|done|lia]|].
  unfold contents. rewrite Hn, Z.add_comm, Z2Nat.inj_add, seq_app by lia. change (Z.to_nat 1) with 1%nat. cbn [seq app fmap list_fmap]. f_equal.
  - rewrite Z.add_0_r. by apply list_lookup_total_correct.
  - change (0 + 1)%nat with 1%nat. rewrite <- fmap_S_seq, <- list_fmap_compose.
    apply list_fmap_ext. intros i k Hk. cbn [compose take_byte pdata nread].
    rewrite ring_wrap. f_equal. f_equal. f_equal. lia.
Qed.

Lemma contents_nil p : pcount p = 0 -> contents p = [].
Proof. intros Hc. unfold contents. by rewrite Hc. Qed.

(** ** One turn of a call *)

Definition set_thread (me : nat) (c : pcall) (st : pstatus) (l : list pthread) : list pthread :=
  alter (fun t => Pthread c st (pkilled t)) me l.

(** What stays the same in every turn. *)
Definition same_ends (s s' : psys) : Prop :=
  readopen (ppipe s') = readopen (ppipe s) /\ writeopen (ppipe s') = writeopen (ppipe s) /\ pfreed s' = pfreed s.

(** A turn of a writer puts the next bytes of its buffer behind those in the
    pipe, until it is through or the pipe is full. *)
Definition write_turn (me : nat) (t : pthread) (addr : list Z) (n i : Z) (s s' : psys) (j : Z) (st : pstatus) : Prop :=
  pok (ppipe s') /\ same_ends s s' /\ i <= j <= Z.max i n /\
  contents (ppipe s') = contents (ppipe s) ++ drop (Z.to_nat i) (take (Z.to_nat j) addr) /\
  ((st = Pdone n /\ j = Z.max i n /\ pthr s' = set_thread me (Pwrite addr n j) st (wake_thread Pnread <$> pthr s)) \/
   (st = Psleep Pnwrite /\ pcount (ppipe s') = PIPESIZE /\ readopen (ppipe s) <> 0 /\ pkilled t = false /\
      pthr s' = set_thread me (Pwrite addr n j) st (wake_thread Pnread <$> pthr s)) \/
   (st = Pdone (-1) /\ pcount (ppipe s') = PIPESIZE /\ (readopen (ppipe s) = 0 \/ pkilled t = true) /\
      pthr s' = set_thread me (Pwrite addr n j) st (pthr s))).

Lemma my_killed_eq me t s : pthr s !! me = Some t -> my_killed me s = Ok (pkilled t, s).
Proof. intros Ht. unfold my_killed, bind, gets. by rewrite Ht. Qed.

Lemma drop_take_snoc (l : list Z) i j b :
  (i <= j)%nat -> l !! j = Some b -> drop i (take (S j) l) = drop i (take j l) ++ [b].
Proof.
  intros Hij Hb. rewrite (take_S_r l j b Hb), drop_app_le; [done|]. rewrite length_take. apply lookup_lt_Some in Hb. lia.
Qed.

Lemma pipewrite_loop_turn me addr n i0 s0 t fuel : forall i s,
  pok (ppipe s) -> pthr s = pthr s0 -> pthr s !! me = Some t -> same_ends s0 s ->
  0 <= i0 <= i -> i <= Z.max i0 n -> n <= Z.of_nat (length addr) -> (Z.to_nat (n - i) < fuel)%nat ->
  contents (ppipe s) = contents (ppipe s0) ++ drop (Z.to_nat i0) (take (Z.to_nat i) addr) ->
  runs (pipewrite_loop fuel me addr n i) s (fun _ s' => exists j st, write_turn me t addr n i0 s0 s' j st).
Proof.
  induction fuel as [|fuel IH]; intros i s Hok Hth Ht (Hro & Hwo & Hfr) Hi Hin Hlen Hf Hc; [lia|].
  unfold pipewrite_loop; fold pipewrite_loop. destruct (Z.ltb_spec i n) as [Hlt|Hge].
  2: { eapply runs_Ok; [reflexivity|]. exists i, (Pdone n). split; [done|]. split; [done|]. split; [lia|].
       split; [done|]. left. split; [done|]. split; [lia|]. cbn [pthr set_pthr]. by rewrite Hth. }
  apply runs_bind. eapply runs_Ok; [reflexivity|]. rewrite full_test by done.
  destruct (Z.eqb_spec (pcount (ppipe s)) PIPESIZE) as [Hfull|Hnf].
  - apply runs_bind. eapply runs_Ok; [by apply my_killed_eq|].
    destruct ((readopen (ppipe s) =? 0) || pkilled t) eqn:Hstop.
    + eapply runs_Ok; [reflexivity|]. exists i, (Pdone (-1)). split; [done|]. split; [done|]. split; [lia|].
      split; [done|]. right; right. split; [done|]. split; [done|]. cbn [pthr set_pthr]. rewrite Hth. split; [|done].
      rewrite <- Hro. apply orb_true_iff in Hstop as [Hr|Hk]; [left; by apply Z.eqb_eq|by right].
    + apply orb_false_iff in Hstop as [Hr%Z.eqb_neq Hk].
      eapply runs_Ok; [reflexivity|]. exists i, (Psleep Pnwrite). split; [done|]. split; [done|]. split; [lia|].
      split; [done|]. right; left. cbn [pthr set_pthr]. rewrite Hth, <- Hro. done.
  - destruct (lookup_lt_is_Some_2 addr (Z.to_nat i)) as [b Hb]; [lia|].
    destruct (put_byte_ok (ppipe s) b Hok Hnf) as [Hok' Hc'].
    apply runs_bind. eapply runs_Ok; [by rewrite Hb|]. apply runs_bind. eapply runs_Ok; [reflexivity|].
    apply IH; try done; try lia. cbn [ppipe set_ppipe]. rewrite Hc', Hc, <- app_assoc. f_equal.
    rewrite Z2Nat.inj_add by lia. change (Z.to_nat 1) with 1%nat. rewrite Nat.add_1_r. symmetry. apply drop_take_snoc; [lia|done].
Qed.

Lemma pipewrite_turn me addr n i s t :
  pok (ppipe s) -> pthr s !! me = Some t -> 0 <= i -> n <= Z.of_nat (length addr) ->
  runs (pipewrite me addr n i) s (fun _ s' => exists j st, write_turn me t addr n i s s' j st).
Proof.
  intros Hok Ht Hi Hlen. apply pipewrite_loop_turn; try done; try lia.
  by rewrite drop_ge, app_nil_r by (rewrite length_take; lia).
Qed.

(** A turn of a reader takes bytes from the front. *)
Definition read_turn (me : nat) (t : pthread) (n : Z) (s s' : psys) (got : list Z) (st : pstatus) : Prop :=
  pok (ppipe s') /\ same_ends s s' /\ contents (ppipe s) = got ++ contents (ppipe s') /\
  ((st = Pdone (Z.of_nat (length got)) /\ length got = Nat.min (Z.to_nat n) (length (contents (ppipe s))) /\
      pthr s' = set_thread me (Pread n got) st (wake_thread Pnwrite <$> pthr s) /\
      (contents (ppipe s) <> [] \/ writeopen (ppipe s) = 0)) \/
   (st = Psleep Pnread /\ got = [] /\ pcount (ppipe s) = 0 /\ writeopen (ppipe s) <> 0 /\ pkilled t = false /\
      pthr s' = set_thread me (Pread n got) st (pthr s)) \/
   (st = Pdone (-1) /\ got = [] /\ pkilled t = true /\ pthr s' = set_thread me (Pread n got) st (pthr s))).

Lemma piperead_loop_turn fuel : forall s,
  pok (ppipe s) ->
  runs (piperead_loop fuel) s (fun got s' => pok (ppipe s') /\ same_ends s s' /\ pthr s' = pthr s /\
    contents (ppipe s) = got ++ contents (ppipe s') /\ length got = Nat.min fuel (length (contents (ppipe s)))).
Proof.
  induction fuel as [|fuel IH]; intros s Hok; cbn [piperead_loop]; [by eapply runs_Ok|].
  apply runs_bind. eapply runs_Ok; [reflexivity|]. rewrite empty_test by done.
  destruct (Z.eqb_spec (pcount (ppipe s)) 0) as [Hz|Hnz].
  { eapply runs_Ok; [reflexivity|]. split_and!; try done. by rewrite contents_nil, Nat.min_0_r. }
  destruct (take_byte_ok (ppipe s) Hok Hnz) as (b & Hb & Hok' & Hc).
  apply runs_bind. eapply runs_Ok; [by rewrite Hb|]. apply runs_bind. eapply runs_Ok; [reflexivity|].
  apply runs_bind. eapply runs_mono; [by apply (IH (set_ppipe (take_byte (ppipe s)) s))|].
  intros bs s' (Hok1 & (He1 & He2 & He3) & Hth & Hc1 & Hl). eapply runs_Ok; [reflexivity|]. cbn [ppipe set_ppipe pthr pfreed] in *.
  split; [done|]. split; [done|]. split; [done|]. rewrite Hc, Hc1. split; [done|].
  cbn. rewrite <- Hc1, Hl. done.
Qed.

Lemma piperead_turn me n s t :
  pok (ppipe s) -> pthr s !! me = Some t ->
  runs (piperead me n) s (fun _ s' => exists got st, read_turn me t n s s' got st).
Proof.
  intros Hok Ht. unfold piperead. apply runs_bind. eapply runs_Ok; [reflexivity|]. rewrite empty_test by done.
  destruct ((pcount (ppipe s) =? 0) && negb (writeopen (ppipe s) =? 0)) eqn:Hw.
  - apply andb_true_iff in Hw as [Hz%Z.eqb_eq Hwo%negb_true_iff%Z.eqb_neq].
    apply runs_bind. eapply runs_Ok; [by apply my_killed_eq|]. destruct (pkilled t) eqn:Hk.
    + eapply runs_Ok; [reflexivity|]. exists [], (Pdone (-1)). split; [done|]. split; [done|]. split; [done|].
      right; right. done.
    + eapply runs_Ok; [reflexivity|]. exists [], (Psleep Pnread). split; [done|]. split; [done|]. split; [done|].
      right; left. done.
  - apply runs_bind. eapply runs_mono; [by apply piperead_loop_turn|].
    intros got s1 (Hok1 & He & Hth & Hc & Hl). eapply runs_Ok; [reflexivity|].
    exists got, (Pdone (Z.of_nat (length got))). split; [done|]. split; [done|]. split; [done|]. left.
    split; [done|]. split; [done|]. split; [cbn [pthr set_pthr]; by rewrite Hth|].
    apply andb_false_iff in Hw as [Hz%Z.eqb_neq|Hwo%negb_false_iff%Z.eqb_eq]; [left|by right].
    intros Hn. apply (f_equal length) in Hn. pose proof (contents_length (ppipe s)). cbn in Hn. lia.
Qed.
