(* ===== verification/PipeThms.v ===== *)
(** Pipes shared by concurrent readers and writers: the byte stream, and who
    is woken when. *)

From S2P Require Import Prelude Pipe.

(** ** The system *)

(** The bytes thread [me] has written, or read, in the turn that led to [s']. *)
Definition sent (s' : psys) (me : nat) (i : Z) : list Z :=
  match pcl <$> pthr s' !! me with
  | Some (Pwrite addr _ j) => drop (Z.to_nat i) (take (Z.to_nat j) addr)
  | _ => []
  end.
Definition received (s' : psys) (me : nat) : list Z :=
  match pcl <$> pthr s' !! me with
  | Some (Pread _ got) => got
  | _ => []
  end.

Definition is_writer (t : pthread) : bool := match pcl t with Pwrite _ _ _ => true | _ => false end.
Definition active (t : pthread) : bool := match pst t with Pdone _ => false | _ => true end.

(** [kill()] of the process of a thread. *)
Definition kill_thread (t : pthread) : pthread :=
  Pthread (pcl t) (match pst t with Psleep _ => Pready | st => st end) true.

(** A call starts with an open descriptor, and the last descriptor of an end
    is closed when no call uses it any more. *)
Inductive pstep (s : psys) : list Z -> list Z -> psys -> Prop :=
| p_write me t addr n i s' :
    pthr s !! me = Some t -> pcl t = Pwrite addr n i -> pst t = Pready ->
    pipewrite me addr n i s = Ok ((), s') -> pstep s (sent s' me i) [] s'
| p_read me t n got s' :
    pthr s !! me = Some t -> pcl t = Pread n got -> pst t = Pready ->
    piperead me n s = Ok ((), s') -> pstep s [] (received s' me) s'
| p_enter_write addr n k :
    writeopen (ppipe s) <> 0 -> n <= Z.of_nat (length addr) ->
    pstep s [] [] (set_pthr (pthr s ++ [Pthread (Pwrite addr n 0) Pready k]) s)
| p_enter_read n k :
    readopen (ppipe s) <> 0 ->
    pstep s [] [] (set_pthr (pthr s ++ [Pthread (Pread n []) Pready k]) s)
| p_kill me t : pthr s !! me = Some t -> pstep s [] [] (set_pthr (alter kill_thread me (pthr s)) s)
| p_close (w : bool) s' :
    (if w then writeopen (ppipe s) else readopen (ppipe s)) <> 0 ->
    (forall k t, pthr s !! k = Some t -> is_writer t = w -> active t = false) ->
    pipeclose w s = Ok ((), s') -> pstep s [] [] s'.

(** Runs, with all bytes written and all bytes read. *)
Inductive pruns (s : psys) : list Z -> list Z -> psys -> Prop :=
| pruns_refl : pruns s [] [] s
| pruns_step w r s1 w1 r1 s2 : pruns s w r s1 -> pstep s1 w1 r1 s2 -> pruns s (w ++ w1) (r ++ r1) s2.

(** What [pipealloc] makes of a page. *)
Definition pipealloc_pipe (page : list Z) : pipe := Pipe page 0 0 1 1.
Definition pipe_start (page : list Z) : psys := Psys (pipealloc_pipe page) [] false.

(** ** Invariant *)

Record tok (s : psys) (t : pthread) : Prop := Tok {
  tok_write : forall addr n i, pcl t = Pwrite addr n i -> 0 <= i /\ n <= Z.of_nat (length addr);
  tok_chan : forall ch, pst t = Psleep ch -> is_writer t = match ch with Pnwrite => true | Pnread => false end;
  tok_full : pst t = Psleep Pnwrite -> pcount (ppipe s) = PIPESIZE /\ readopen (ppipe s) <> 0;
  tok_open : active t = true -> if is_writer t then writeopen (ppipe s) <> 0 else readopen (ppipe s) <> 0
}.

Definition no_killed (s : psys) : Prop := Forall (eq false) (pkilled <$> pthr s).

Record pinv (s : psys) : Prop := Pinv {
  pinv_pok : pok (ppipe s);
  pinv_thr : forall k t, pthr s !! k = Some t -> tok s t;
  pinv_empty : no_killed s -> forall k t, pthr s !! k = Some t -> pst t = Psleep Pnread -> pcount (ppipe s) = 0 /\ writeopen (ppipe s) <> 0;
  pinv_freed : pfreed s = true <-> readopen (ppipe s) = 0 /\ writeopen (ppipe s) = 0
}.

(** ** Threads after a step *)

Lemma set_thread_inv me c st l k t' :
  set_thread me c st l !! k = Some t' ->
  (k = me /\ exists t, l !! me = Some t /\ t' = Pthread c st (pkilled t)) \/ (k <> me /\ l !! k = Some t').
Proof.
  unfold set_thread. destruct (decide (k = me)) as [->|Hne].
  - rewrite list_lookup_alter_eq. intros (t & Ht & ->)%fmap_Some. left. eauto.
  - rewrite list_lookup_alter_ne by done. auto.
Qed.

Lemma wake_inv ch (l : list pthread) (k : nat) t' :
  (wake_thread ch <$> l) !! k = Some t' ->
  exists t, l !! k = Some t /\ pcl t' = pcl t /\ pkilled t' = pkilled t /\ active t' = active t /\
    forall ch', pst t' = Psleep ch' -> ch' <> ch /\ pst t = Psleep ch'.
Proof.
  rewrite list_lookup_fmap. intros (t & Ht & ->)%fmap_Some. exists t. unfold wake_thread, active.
  destruct (decide (pst t = Psleep ch)) as [Hs|Hs]; cbn.
  - rewrite Hs. split_and!; done.
  - split_and!; try done. intros ch' Hc. split; [|done]. by intros ->.
Qed.

(** Turns kill nobody. *)
Lemma set_thread_killed me c st l : pkilled <$> set_thread me c st l = pkilled <$> l.
Proof.
  apply list_eq. intros k. unfold set_thread. rewrite !list_lookup_fmap. destruct (decide (k = me)) as [->|Hne].
  - rewrite list_lookup_alter_eq. by destruct (l !! me).
  - by rewrite list_lookup_alter_ne.
Qed.
Lemma wake_killed ch (l : list pthread) : pkilled <$> (wake_thread ch <$> l) = pkilled <$> l.
Proof.
  rewrite <- list_fmap_compose. apply list_fmap_ext. intros i t _. cbn. unfold wake_thread. by destruct (decide _).
Qed.

(** A thread that does not move, seen from a changed pipe. *)
Lemma tok_mono s s' t t' :
  tok s t -> pcl t' = pcl t -> active t' = active t -> (forall ch, pst t' = Psleep ch -> pst t = Psleep ch) ->
  (pst t' = Psleep Pnwrite -> pcount (ppipe s) = PIPESIZE -> readopen (ppipe s) <> 0 ->
     pcount (ppipe s') = PIPESIZE /\ readopen (ppipe s') <> 0) ->
  (active t = true -> if is_writer t then writeopen (ppipe s') = writeopen (ppipe s) else readopen (ppipe s') = readopen (ppipe s)) ->
  tok s' t'.
Proof.
  intros [H1 H2 H3 H4] Hc Ha Hs Hf Ho. unfold is_writer in *. constructor.
  - intros addr n i. rewrite Hc. apply H1.
  - intros ch Hch. unfold is_writer. rewrite Hc. apply H2. by apply Hs.
  - intros Hch. destruct (H3 (Hs _ Hch)) as [Hx Hy]. by apply Hf.
  - unfold is_writer. rewrite Hc, Ha. intros Hact. specialize (H4 Hact). specialize (Ho Hact).
    destruct (pcl t); by rewrite Ho.
Qed.

(** ** Every step keeps the invariant and the order of the bytes *)

Definition step_ok (s : psys) (w r : list Z) (s' : psys) : Prop :=
  pinv s' /\ contents (ppipe s) ++ w = r ++ contents (ppipe s').

Lemma wake_tok ch s s' k t' :
  pinv s -> (wake_thread ch <$> pthr s) !! k = Some t' -> same_ends s s' ->
  (ch = Pnwrite \/ (pcount (ppipe s) = PIPESIZE -> pcount (ppipe s') = PIPESIZE)) -> tok s' t'.
Proof.
  intros Hi Ht' (He1 & He2 & _) Hf. destruct (wake_inv _ _ _ _ Ht') as (t & Ht & Hc & _ & Ha & Hs).
  eapply tok_mono; [by apply (pinv_thr s Hi k)|done|done|intros c Hx; by apply Hs| |].
  - intros Hx Hfull Hro. rewrite He1. split; [|done]. destruct Hf as [->|Hf]; [by destruct (Hs _ Hx)|by apply Hf].
  - intros _. rewrite He1, He2. by destruct (is_writer t).
Qed.

Lemma step_write s me t addr n i s' :
  pinv s -> pthr s !! me = Some t -> pcl t = Pwrite addr n i -> pst t = Pready ->
  pipewrite me addr n i s = Ok ((), s') -> step_ok s (sent s' me i) [] s'.
Proof.
  intros Hi Ht Hc Hst Hrun. destruct (pinv_thr s Hi me t Ht) as [Hw _ _ Hop]. destruct (Hw _ _ _ Hc) as [Hi0 Hlen].
  assert (Hwo : writeopen (ppipe s) <> 0) by (unfold active, is_writer in Hop; rewrite Hst, Hc in Hop; by apply Hop).
  pose proof (pipewrite_turn me addr n i s t (pinv_pok s Hi) Ht Hi0 Hlen) as Hturn.
  unfold runs in Hturn. rewrite Hrun in Hturn. destruct Hturn as (j & st & Hok & (He1 & He2 & He3) & Hj & Hcont & Hcase).
  assert (Hwake : exists l, pthr s' = set_thread me (Pwrite addr n j) st l /\
      (l = wake_thread Pnread <$> pthr s \/ l = pthr s /\ st = Pdone (-1) /\ pcount (ppipe s') = PIPESIZE /\
        (readopen (ppipe s) = 0 \/ pkilled t = true))).
  { destruct Hcase as [(-> & _ & ->)|[(-> & _ & _ & _ & ->)|(-> & Hf & Hk & ->)]]; eexists; (split; [reflexivity|]); eauto. }
  destruct Hwake as (l & Hl & Hlw).
  assert (Hgrow : pcount (ppipe s) = PIPESIZE -> pcount (ppipe s') = PIPESIZE).
  { intros Hf. pose proof (pok_count _ Hok). apply (f_equal length) in Hcont. rewrite length_app in Hcont.
    pose proof (contents_length (ppipe s)). pose proof (contents_length (ppipe s')). lia. }
  assert (Hme : exists u, l !! me = Some u /\ pkilled u = pkilled t).
  { destruct Hlw as [->|[-> _]]; [|eauto]. rewrite list_lookup_fmap, Ht. eexists. split; [done|].
    unfold wake_thread. by destruct (decide _). }
  destruct Hme as (u & Hu & Huk).
  split.
  - constructor; [done| | |by rewrite He1, He2, He3; apply Hi].
    + intros k t' Ht'. rewrite Hl in Ht'. apply set_thread_inv in Ht' as [(-> & u' & _ & ->)|[Hne Hk]].
      * constructor; cbn.
        -- intros ? ? ? [= <- <- <-]. split; [lia|done].
        -- intros ch ->. destruct Hcase as [(? & _)|[(? & _)|(? & _)]]; by simplify_eq.
        -- intros ->. destruct Hcase as [(? & _)|[(_ & Hf & Hro & _)|(? & _)]]; [done| |done]. by rewrite He1.
        -- intros _. by rewrite He2.
      * destruct Hlw as [->|[-> _]].
        -- eapply wake_tok; [done|exact Hk|done|auto].
        -- eapply tok_mono; [by apply (pinv_thr s Hi k)|done|done|done| |].
           ++ intros _ Hf Hro. rewrite He1. auto.
           ++ intros _. rewrite He1, He2. by destruct (is_writer t').
    + intros Hnk k t' Ht' Hs'. rewrite Hl in Ht'. apply set_thread_inv in Ht' as [(-> & u' & _ & ->)|[Hne Hk]].
      * cbn in Hs'. subst st. destruct Hcase as [(? & _)|[(? & _)|(? & _)]]; done.
      * destruct Hlw as [->|(-> & -> & Hf & [Hro|Hkt])].
        -- destruct (wake_inv _ _ _ _ Hk) as (t0 & _ & _ & _ & _ & Hs). by destruct (Hs _ Hs').
        -- destruct (pinv_thr s Hi k t' Hk) as [_ Hch _ Hop']. specialize (Hch _ Hs'). cbn in Hch. exfalso.
           unfold active in Hop'. rewrite Hch, Hs' in Hop'. by apply Hop'.
        -- exfalso. unfold no_killed in Hnk. rewrite Hl, set_thread_killed in Hnk. rewrite Forall_forall in Hnk.
           assert (Hin : pkilled t ∈ pkilled <$> pthr s) by (apply list_elem_of_fmap_2; by eapply list_elem_of_lookup_2).
           apply Hnk in Hin. congruence.
  - unfold sent. rewrite Hl. unfold set_thread. rewrite list_lookup_alter_eq, Hu. cbn. done.
Qed.

Lemma step_read s me t n got0 s' :
  pinv s -> pthr s !! me = Some t -> pcl t = Pread n got0 -> pst t = Pready ->
  piperead me n s = Ok ((), s') -> step_ok s [] (received s' me) s'.
Proof.
  intros Hi Ht Hc Hst Hrun. destruct (pinv_thr s Hi me t Ht) as [_ _ _ Hop].
  assert (Hro : readopen (ppipe s) <> 0) by (unfold active, is_writer in Hop; rewrite Hst, Hc in Hop; by apply Hop).
  pose proof (piperead_turn me n s t (pinv_pok s Hi) Ht) as Hturn.
  unfold runs in Hturn. rewrite Hrun in Hturn. destruct Hturn as (got & st & Hok & (He1 & He2 & He3) & Hcont & Hcase).
  assert (Hwake : exists l, pthr s' = set_thread me (Pread n got) st l /\
      (l = wake_thread Pnwrite <$> pthr s \/ l = pthr s /\ got = [])).
  { destruct Hcase as [(-> & _ & -> & _)|[(-> & -> & _ & _ & _ & ->)|(-> & -> & _ & ->)]]; eexists; (split; [reflexivity|]); eauto. }
  destruct Hwake as (l & Hl & Hlw).
  assert (Hsame : got = [] -> pcount (ppipe s') = pcount (ppipe s)).
  { intros ->. rewrite <- !contents_length, Hcont. done. }
  assert (Hme : exists u, l !! me = Some u).
  { destruct Hlw as [->|[-> _]]; [|eauto]. rewrite list_lookup_fmap, Ht. by eexists. }
  destruct Hme as (u & Hu). split.
  - constructor; [done| | |by rewrite He1, He2, He3; apply Hi].
    + intros k t' Ht'. rewrite Hl in Ht'. apply set_thread_inv in Ht' as [(-> & u' & _ & ->)|[Hne Hk]].
      * constructor; cbn; try done; [|intros ->|by intros _; rewrite He1].
        -- intros ch ->. destruct Hcase as [(? & _)|[(? & _)|(? & _)]]; by simplify_eq.
        -- destruct Hcase as [(? & _)|[(? & _)|(? & _)]]; done.
      * destruct Hlw as [->|[-> Hg]].
        -- eapply wake_tok; [done|exact Hk|done|auto].
        -- eapply tok_mono; [by apply (pinv_thr s Hi k)|done|done|done| |].
           ++ intros _ Hf _. rewrite He1, Hsame by done. auto.
           ++ intros _. rewrite He1, He2. by destruct (is_writer t').
    + intros Hnk k t' Ht' Hs'. rewrite Hl in Ht'. apply set_thread_inv in Ht' as [(-> & u' & _ & ->)|[Hne Hk]].
      * cbn in Hs'. subst st. destruct Hcase as [(? & _)|[(_ & Hg & Hz & Hwo & _)|(? & _)]]; [done| |done].
        rewrite He2, Hsame by done. auto.
      * assert (Hold : exists t0, pthr s !! k = Some t0 /\ pst t0 = Psleep Pnread).
        { destruct Hlw as [->|[-> _]]; [|eauto]. destruct (wake_inv _ _ _ _ Hk) as (t0 & H0 & _ & _ & _ & Hs).
          destruct (Hs _ Hs'). eauto. }
        destruct Hold as (t0 & Ht0 & Hs0). rewrite He2. destruct (pinv_empty s Hi) with k t0 as [Hz Hwo]; [|done|done|].
        -- unfold no_killed in *. rewrite Hl, set_thread_killed in Hnk. destruct Hlw as [->|[-> _]]; [|done].
           by rewrite wake_killed in Hnk.
        -- split; [|done]. pose proof (pcount_range (ppipe s')). apply (f_equal length) in Hcont. rewrite length_app in Hcont.
           pose proof (contents_length (ppipe s)). pose proof (contents_length (ppipe s')). lia.
  - unfold received. rewrite Hl. unfold set_thread. rewrite list_lookup_alter_eq, Hu. cbn. by rewrite app_nil_r.
Qed.

Lemma step_close s (w : bool) s' :
  pinv s -> (if w then writeopen (ppipe s) else readopen (ppipe s)) <> 0 ->
  (forall k t, pthr s !! k = Some t -> is_writer t = w -> active t = false) ->
  pipeclose w s = Ok ((), s') -> step_ok s [] [] s'.
Proof.
  intros Hi Hopen Hidle Hrun.
  assert (Heq : ppipe s' = (if w then Pipe (pdata (ppipe s)) (nread (ppipe s)) (nwrite (ppipe s)) (readopen (ppipe s)) 0
                            else Pipe (pdata (ppipe s)) (nread (ppipe s)) (nwrite (ppipe s)) 0 (writeopen (ppipe s))) /\
    pthr s' = wake_thread (if w then Pnread else Pnwrite) <$> pthr s /\
    pfreed s' = if (readopen (ppipe s') =? 0) && (writeopen (ppipe s') =? 0) then true else pfreed s).
  { unfold pipeclose, bind, gets, modify, pwakeup in Hrun. destruct w; cbn in Hrun.
    - destruct (readopen (ppipe s) =? 0) eqn:Hr; cbn in Hrun; injection Hrun as <-; cbn; by rewrite ?Hr.
    - destruct (writeopen (ppipe s) =? 0) eqn:Hr; cbn in Hrun; injection Hrun as <-; cbn; by rewrite ?Hr. }
  destruct Heq as (Hp & Hth & Hfr). split; [|rewrite Hp, app_nil_r; by destruct w].
  assert (Hcount : pcount (ppipe s') = pcount (ppipe s)) by (rewrite Hp; by destruct w).
  constructor.
  - rewrite Hp. destruct (pinv_pok s Hi). destruct w; by constructor.
  - intros k t' Ht'. rewrite Hth in Ht'. destruct (wake_inv _ _ _ _ Ht') as (t & Ht & Hc & _ & Ha & Hs).
    assert (Htok := pinv_thr s Hi k t Ht). specialize (Hidle k t Ht).
    eapply tok_mono; [exact Htok|done|done|intros c Hx; by apply Hs| |].
    + intros Hx Hf Hro. rewrite Hcount. split; [done|]. rewrite Hp. destruct w; [done|]. by destruct (Hs _ Hx).
    + intros Hact. rewrite Hp. destruct w, (is_writer t); try done; by rewrite Hidle in Hact.
  - intros Hnk k t' Ht' Hs'. unfold no_killed in Hnk. rewrite Hth in Ht'. rewrite Hth, wake_killed in Hnk.
    destruct (wake_inv _ _ _ _ Ht') as (t & Ht & _ & _ & _ & Hs). destruct (Hs _ Hs') as [Hne Hst].
    destruct w; [done|]. rewrite Hcount, Hp. cbn. by eapply (pinv_empty s Hi).
  - rewrite Hfr. pose proof (pinv_freed s Hi) as Hf.
    destruct (Z.eqb_spec (readopen (ppipe s')) 0) as [Hr|Hr], (Z.eqb_spec (writeopen (ppipe s')) 0) as [Hw|Hw]; cbn [andb]; try tauto.
    all: rewrite Hf; rewrite Hp in *; destruct w; cbn in *; tauto.
Qed.

Lemma step_enter s t :
  pinv s -> pst t = Pready -> (if is_writer t then writeopen (ppipe s) <> 0 else readopen (ppipe s) <> 0) ->
  (forall addr n i, pcl t = Pwrite addr n i -> 0 <= i /\ n <= Z.of_nat (length addr)) ->
  step_ok s [] [] (set_pthr (pthr s ++ [t]) s).
Proof.
  intros Hi Hst Hop Hw. split; [|cbn; by rewrite app_nil_r].
  constructor; cbn; [apply Hi| | |apply Hi].
  - intros k t' [Ht'|[_ Ht']]%lookup_app_Some; [destruct (pinv_thr s Hi k t' Ht') as [H1 H2 H3 H4]; by constructor|].
    apply list_lookup_singleton_Some in Ht' as [_ <-]. constructor; [done| | |by intros _]; by rewrite Hst.
  - intros Hnk k t' [Ht'|[_ Ht']]%lookup_app_Some Hs.
    + unfold no_killed in Hnk. cbn in Hnk. rewrite fmap_app in Hnk. apply Forall_app in Hnk as [Hnk _]. by eapply (pinv_empty s Hi).
    + apply list_lookup_singleton_Some in Ht' as [_ <-]. by rewrite Hst in Hs.
Qed.

Lemma step_kill s me u : pinv s -> pthr s !! me = Some u -> step_ok s [] [] (set_pthr (alter kill_thread me (pthr s)) s).
Proof.
  intros Hi Hu. split; [|cbn; by rewrite app_nil_r]. constructor; cbn; [apply Hi| | |apply Hi].
  - intros k t'. destruct (decide (k = me)) as [->|Hne].
    + rewrite list_lookup_alter_eq. intros (t & Ht & ->)%fmap_Some.
      eapply (tok_mono s); [by apply (pinv_thr s Hi me)|done| | |done|by intros _; cbn; destruct (is_writer t)]; unfold kill_thread, active; cbn.
      * by destruct (pst t).
      * intros ch. by destruct (pst t).
    + rewrite list_lookup_alter_ne by done. intros Ht'. destruct (pinv_thr s Hi k t' Ht'). by constructor.
  - intros Hnk k t' Ht' Hs. destruct (decide (k = me)) as [->|Hne].
    + rewrite list_lookup_alter_eq in Ht'. apply fmap_Some in Ht' as (t & Ht & ->). cbn in Hs. by destruct (pst t).
    + exfalso. unfold no_killed in Hnk. cbn in Hnk. rewrite Forall_forall in Hnk.
      enough (false = true) by done. apply Hnk. apply list_elem_of_fmap. exists (kill_thread u). split; [done|].
      apply (list_elem_of_lookup_2 _ me). by rewrite list_lookup_alter_eq, Hu.
Qed.

Lemma pstep_ok s w r s' : pinv s -> pstep s w r s' -> step_ok s w r s'.
Proof.
  intros Hi Hs. destruct Hs.
  - by eapply step_write.
  - by eapply step_read.
  - apply step_enter; try done. intros ? ? ? [= <- <- <-]. split; [lia|done].
  - by apply step_enter.
  - by eapply step_kill.
  - by eapply step_close.
Qed.

Lemma pipe_start_inv page : length page = Z.to_nat PIPESIZE -> pinv (pipe_start page).
Proof.
  intros Hl. constructor; cbn; [|done|done|].
  - constructor; cbn; done || lia.
  - split; [done|]. by intros [? ?].
Qed.

Lemma pruns_ok page w r s :
  length page = Z.to_nat PIPESIZE -> pruns (pipe_start page) w r s -> pinv s /\ w = r ++ contents (ppipe s).
Proof.
  intros Hl Hr. induction Hr as [|w r s1 w1 r1 s2 _ [Hi IH] Hs]; [split; [by apply pipe_start_inv|done]|].
  destruct (pstep_ok _ _ _ _ Hi Hs) as [Hi2 Hc]. split; [done|]. by rewrite IH, <- !app_assoc, Hc.
Qed.

Lemma turn_returns s k t :
  pinv s -> pthr s !! k = Some t -> pst t = Pready ->
  exists w r s', pstep s w r s' /\ pst <$> pthr s' !! k <> Some Pready.
Proof.
  intros Hi Ht Hs. destruct (pcl t) as [addr n i|n got] eqn:Hc.
  - destruct (tok_write s t (pinv_thr s Hi k t Ht) _ _ _ Hc) as [Hi0 Hlen].
    destruct (runs_inv _ _ _ (pipewrite_turn k addr n i s t (pinv_pok s Hi) Ht Hi0 Hlen))
      as ([] & s' & Hrun & j & st & _ & _ & _ & _ & Hcase).
    exists (sent s' k i), [], s'. split; [by eapply p_write|].
    destruct Hcase as [(-> & _ & ->)|[(-> & _ & _ & _ & ->)|(-> & _ & _ & ->)]];
      unfold set_thread; rewrite list_lookup_alter_eq, ?list_lookup_fmap, Ht; done.
  - destruct (runs_inv _ _ _ (piperead_turn k n s t (pinv_pok s Hi) Ht)) as ([] & s' & Hrun & g & st & _ & _ & _ & Hcase).
    exists [], (received s' k), s'. split; [by eapply p_read|].
    destruct Hcase as [(-> & _ & -> & _)|[(-> & _ & _ & _ & _ & ->)|(-> & _ & _ & ->)]];
      unfold set_thread; rewrite list_lookup_alter_eq, ?list_lookup_fmap, Ht; done.
Qed.

(** ** The theorems *)

(** C28. A pipe is a queue of at most 512 bytes: whatever the readers and
    writers do, in any order, the bytes read so far followed by those in the
    buffer are the bytes written so far, although the counters wrap around. *)
Theorem pipe_fifo page w r s :
  length page = Z.to_nat PIPESIZE -> pruns (pipe_start page) w r s ->
  w = r ++ contents (ppipe s) /\ Z.of_nat (length (contents (ppipe s))) <= PIPESIZE.
Proof.
  intros Hl Hr. destruct (pruns_ok page w r s Hl Hr) as [Hi Hw]. split; [done|]. rewrite contents_length. apply Hi.
Qed.

(** C29. No wakeup is lost as long as no process is killed: a reader sleeps only
    on an empty pipe that can still be written, a writer only on a full pipe
    that can still be read, so that a reader and a writer never both sleep; and
    a call that is not asleep makes its turn. *)
Theorem pipe_no_lost_wakeup page w r s :
  length page = Z.to_nat PIPESIZE -> pruns (pipe_start page) w r s -> no_killed s ->
  forall k t, pthr s !! k = Some t ->
    (pst t = Psleep Pnread -> is_writer t = false /\ contents (ppipe s) = [] /\ writeopen (ppipe s) <> 0) /\
    (pst t = Psleep Pnwrite -> is_writer t = true /\ Z.of_nat (length (contents (ppipe s))) = PIPESIZE /\ readopen (ppipe s) <> 0) /\
    (pst t = Pready -> exists w1 r1 s1, pstep s w1 r1 s1 /\ pst <$> pthr s1 !! k <> Some Pready).
Proof.
  intros Hl Hr Hnk k t Ht. destruct (pruns_ok page w r s Hl Hr) as [Hi _].
  destruct (pinv_thr s Hi k t Ht) as [Hw Hc Hf Ho]. split; [|split].
  - intros Hs. split; [by apply (Hc _ Hs)|]. destruct (pinv_empty s Hi Hnk k t Ht Hs). by rewrite contents_nil.
  - intros Hs. split; [by apply (Hc _ Hs)|]. rewrite contents_length. by apply Hf.
  - intros Hs. by apply (turn_returns s k t Hi Ht Hs).
Qed.

(** Running a turn. *)
Definition after {A} (m : PM A) (s : psys) : psys := match m s with Ok (_, s') => s' | _ => s end.
Definition is_ok {A} (o : outcome A) : bool := match o with Ok _ => true | _ => false end.
Definition demo_pipe : psys := pipe_start (replicate (Z.to_nat PIPESIZE) 0).
Definition enter (c : pcall) (k : bool) (s : psys) : psys := set_pthr (pthr s ++ [Pthread c Pready k]) s.

(** Steps with their bytes computed. *)
Lemma p_write_eq s me addr n i k w :
  pthr s !! me = Some (Pthread (Pwrite addr n i) Pready k) -> is_ok (pipewrite me addr n i s) = true ->
  sent (after (pipewrite me addr n i) s) me i = w -> pstep s w [] (after (pipewrite me addr n i) s).
Proof.
  intros Ht Ho <-. eapply p_write; [exact Ht|done|done|]. unfold after.
  by destruct (pipewrite me addr n i s) as [[[] s']| | |].
Qed.
Lemma p_read_eq s me n k r :
  pthr s !! me = Some (Pthread (Pread n []) Pready k) -> is_ok (piperead me n s) = true ->
  received (after (piperead me n) s) me = r -> pstep s [] r (after (piperead me n) s).
Proof.
  intros Ht Ho <-. eapply p_read; [exact Ht|done|done|]. unfold after.
  by destruct (piperead me n s) as [[[] s']| | |].
Qed.

(** A killed writer loses a wakeup: when it fills the pipe for a sleeping
    reader, [pipewrite] returns -1 without calling [wakeup(&p->nread)]. The
    reader sleeps on, with the pipe full and still open for writing. *)
Theorem pipe_killed_writer_loses_wakeup :
  exists w s, pruns demo_pipe w [] s /\
    pst <$> pthr s !! 0%nat = Some (Psleep Pnread) /\ pst <$> pthr s !! 1%nat = Some (Pdone (-1)) /\
    Z.of_nat (length (contents (ppipe s))) = PIPESIZE /\ writeopen (ppipe s) = 1.
Proof.
  pose (s1 := enter (Pread 10 []) false demo_pipe). pose (s2 := after (piperead 0 10) s1).
  pose (s3 := enter (Pwrite (replicate 600 7) 600 0) true s2). pose (s4 := after (pipewrite 1 (replicate 600 7) 600 0) s3).
  exists (sent s4 1 0), s4. split; [|by vm_compute].
  apply (pruns_step _ [] [] s3 (sent s4 1 0) []); [apply (pruns_step _ [] [] s2 [] []); [apply (pruns_step _ [] [] s1 [] [])|]|].
  - apply (pruns_step _ [] [] demo_pipe [] []); [constructor|]. by apply p_enter_read.
  - by apply (p_read_eq s1 0 10 false); vm_compute.
  - by apply p_enter_write.
  - by apply (p_write_eq s3 1 (replicate 600 7) 600 0 true); [vm_compute|vm_compute|].
Qed.

(** Three bytes written, two of them read. *)
Lemma demo_pipe_run :
  exists s, pruns demo_pipe [7; 8; 9] [7; 8] s /\ no_killed s /\ contents (ppipe s) = [9].
Proof.
  pose (s1 := enter (Pwrite [7; 8; 9] 3 0) false demo_pipe). pose (s2 := after (pipewrite 0 [7; 8; 9] 3 0) s1).
  pose (s3 := enter (Pread 2 []) false s2). pose (s4 := after (piperead 1 2) s3).
  exists s4. split; [|split; [apply (bool_decide_unpack _); vm_compute; exact I|by vm_compute]].
  apply (pruns_step _ [7; 8; 9] [] s3 [] [7; 8]); [apply (pruns_step _ [7; 8; 9] [] s2 [] []); [apply (pruns_step _ [] [] s1 [7; 8; 9] [])|]|].
  - apply (pruns_step _ [] [] demo_pipe [] []); [constructor|]. by apply p_enter_write.
  - by apply (p_write_eq s1 0 [7; 8; 9] 3 0 false); vm_compute.
  - by apply p_enter_read.
  - by apply (p_read_eq s3 1 2 false); vm_compute.
Qed.

Lemma pipe_fifo_witness : exists s, pruns demo_pipe [7; 8; 9] [7; 8] s /\ [7; 8; 9] = [7; 8] ++ contents (ppipe s).
Proof.
  destruct demo_pipe_run as (s & Hr & _). exists s. split; [exact Hr|].
  exact (proj1 (pipe_fifo (replicate (Z.to_nat PIPESIZE) 0) _ _ s eq_refl Hr)).
Defined.

(** A reader asleep on the empty pipe, and a writer that has entered. *)
Lemma demo_pipe_sleep :
  exists s, pruns demo_pipe [] [] s /\ no_killed s /\
    pthr s = [Pthread (Pread 10 []) (Psleep Pnread) false; Pthread (Pwrite [7; 8; 9] 3 0) Pready false].
Proof.
  pose (s1 := enter (Pread 10 []) false demo_pipe). pose (s2 := after (piperead 0 10) s1).
  pose (s3 := enter (Pwrite [7; 8; 9] 3 0) false s2).
  exists s3. split; [|split; [apply (bool_decide_unpack _); vm_compute; exact I|by vm_compute]].
  apply (pruns_step _ [] [] s2 [] []); [apply (pruns_step _ [] [] s1 [] [])|].
  - apply (pruns_step _ [] [] demo_pipe [] []); [constructor|]. by apply p_enter_read.
  - by apply (p_read_eq s1 0 10 false); vm_compute.
  - by apply p_enter_write.
Qed.

Lemma pipe_no_lost_wakeup_witness :
  exists s, pruns demo_pipe [] [] s /\ pst <$> pthr s !! 0%nat = Some (Psleep Pnread) /\
    contents (ppipe s) = [] /\ writeopen (ppipe s) <> 0 /\
    exists w1 r1 s1, pstep s w1 r1 s1 /\ pst <$> pthr s1 !! 1%nat <> Some Pready.
Proof.
  destruct demo_pipe_sleep as (s & Hr & Hn & Ht). exists s. split; [exact Hr|]. split; [by rewrite Ht|].
  assert (H := pipe_no_lost_wakeup (replicate (Z.to_nat PIPESIZE) 0) _ _ s eq_refl Hr Hn). rewrite Ht in H.
  destruct (H 0%nat _ eq_refl) as (H0 & _). destruct (H0 eq_refl) as (_ & Hc & Hw).
  split; [exact Hc|]. split; [exact Hw|]. destruct (H 1%nat _ eq_refl) as (_ & _ & H1). exact (H1 eq_refl).
Defined.
