(* ===== verification/File.v ===== *)
(** Open files ([file.c]) and the end of [pipealloc] that makes them, on the
    file system and the pipes.

    A file pointer is an index in [ftable.file].  [ftable.lock] is held inside
    single functions only and is left out; a call that has to sleep in a pipe
    does not return ([Spin]). *)

From S2P Require Import Prelude Layout CString Bytes Bio Block Log Fs Pipe.

Definition NFILE : nat := 100.

(** ** Pipes, as open files use them *)

(** The pipes that were allocated, and how many pages [kalloc] still has. *)
Record pipes := Pipes { pstore : list psys; ppages : nat }.

(** A call of the only thread that is inside the pipe: from its start until
    it returns; one that has to wait does not return. *)
Definition pipe_call (c : pcall) (turn : nat -> PM ()) (killed : bool) (p : psys) : outcome (Z * list Z * psys) :=
  let me := length (pthr p) in
  match turn me (set_pthr (pthr p ++ [Pthread c Pready killed]) p) with
  | Ok (_, p') =>
      match pthr p' !! me with
      | Some (Pthread (Pread _ got) (Pdone r) _) => Ok (r, got, set_pthr (take me (pthr p')) p')
      | Some (Pthread (Pwrite _ _ _) (Pdone r) _) => Ok (r, [], set_pthr (take me (pthr p')) p')
      | _ => Spin
      end
  | Panic m => Panic m
  | Fault m => Fault m
  | Spin => Spin
  end.

(** ** Data *)

Inductive ftype := FD_NONE | FD_PIPE | FD_INODE.
#[export] Instance ftype_eq_dec : EqDecision ftype.
Proof. solve_decision. Defined.

Record file := File {
  f_type : ftype;
  f_ref : Z;
  f_readable : Z;
  f_writable : Z;
  f_pipe : nat;
  f_ip : nat;
  f_off : Z
}.

Definition set_f_type (v : ftype) (f : file) : file :=
  File v (f_ref f) (f_readable f) (f_writable f) (f_pipe f) (f_ip f) (f_off f).
Definition set_f_ref (v : Z) (f : file) : file :=
  File (f_type f) v (f_readable f) (f_writable f) (f_pipe f) (f_ip f) (f_off f).
Definition set_f_off (v : Z) (f : file) : file :=
  File (f_type f) (f_ref f) (f_readable f) (f_writable f) (f_pipe f) (f_ip f) v.

Section file.
Context {St : Type} `{blocks St}.
Context (dev_read : Z -> option (nat -> Z -> F (St := St) (Z * list Z))) (dev_write : Z -> option (nat -> list Z -> Z -> F (St := St) Z)).

(** [k_killed] is [myproc()->killed], and [ofile] its open files. *)
Record fls := Fls {
  k_fs : fss (St := St);
  ftable : list file;
  k_pipes : pipes;
  k_killed : bool;
  ofile : list (option nat)
}.
Definition set_k_fs (v : fss) (s : fls) : fls := Fls v (ftable s) (k_pipes s) (k_killed s) (ofile s).
Definition set_ftable (v : list file) (s : fls) : fls := Fls (k_fs s) v (k_pipes s) (k_killed s) (ofile s).
Definition set_k_pipes (v : pipes) (s : fls) : fls := Fls (k_fs s) (ftable s) v (k_killed s) (ofile s).
Definition set_ofile (v : list (option nat)) (s : fls) : fls := Fls (k_fs s) (ftable s) (k_pipes s) (k_killed s) v.

Definition K (A : Type) : Type := M fls A.
Definition on_fs {A} (m : F A) : K A := zoom k_fs set_k_fs m.

Definition getf (f : nat) : K file := l ← gets ftable; deref "file pointer" (l !! f).
Definition updf (f : nat) (g : file -> file) : K () :=
  x ← getf f; modify (fun s => set_ftable (<[f := g x]> (ftable s)) s).

(** A call of [pipe.c] on pipe [p]. *)
Definition on_pipe {A} (p : nat) (call : psys -> outcome (A * psys)) : K A := fun s =>
  match pstore (k_pipes s) !! p with
  | None => Fault "pipe pointer"
  | Some q =>
      if pfreed q then Fault "pipe freed" else
      match call q with
      | Ok (a, q') => Ok (a, set_k_pipes (Pipes (<[p := q']> (pstore (k_pipes s)))
          (if pfreed q' then S (ppages (k_pipes s)) else ppages (k_pipes s))) s)
      | Panic m => Panic m
      | Fault m => Fault m
      | Spin => Spin
      end
  end.
Definition piperead_ (p : nat) (n : Z) : K (Z * list Z) :=
  k ← gets k_killed;
  on_pipe p (pipe_call (Pread n []) (fun me => piperead me n) k).
Definition pipewrite_ (p : nat) (addr : list Z) (n : Z) : K Z :=
  k ← gets k_killed;
  '(r, _) ← on_pipe p (pipe_call (Pwrite addr n 0) (fun me => pipewrite me addr n 0) k);
  ret r.
Definition pipeclose_ (p : nat) (writable : bool) : K () := on_pipe p (pipeclose writable).

(** ** The table *)

(** The first free entry. *)
Fixpoint free_file (l : list file) (i : nat) : option nat :=
  match l with
  | [] => None
  | f :: l => if f_ref f =? 0 then Some i else free_file l (S i)
  end.
Definition filealloc : K (option nat) :=
  l ← gets ftable;
  match free_file l 0 with
  | Some f => updf f (set_f_ref 1);; ret (Some f)
  | None => ret None
  end.

Definition filedup (f : nat) : K nat :=
  x ← getf f;
  if f_ref x <? 1 then panic "filedup" else
  updf f (set_f_ref (f_ref x + 1));;
  ret f.

Definition fileclose (f : nat) : K () :=
  x ← getf f;
  if f_ref x <? 1 then panic "fileclose" else
  if 0 <? f_ref x - 1 then updf f (set_f_ref (f_ref x - 1)) else
  updf f (fun x => set_f_type FD_NONE (set_f_ref 0 x));;
  match f_type x with
  | FD_PIPE => pipeclose_ (f_pipe x) (negb (f_writable x =? 0))
  | FD_INODE =>
      on_fs begin_op_;;
      on_fs (iput (f_ip x));;
      on_fs end_op_
  | FD_NONE => ret ()
  end.

(** ** Reading and writing *)

Definition filestat (f : nat) : K (option stat) :=
  x ← getf f;
  if decide (f_type x = FD_INODE) then
    on_fs (ilock (f_ip x));;
    st ← on_fs (stati (f_ip x));
    on_fs (iunlock (f_ip x));;
    ret (Some st)
  else ret None.

(** The result and the bytes stored at [addr]. *)
Definition fileread (f : nat) (n : Z) : K (Z * list Z) :=
  x ← getf f;
  if f_readable x =? 0 then ret (-1, []) else
  match f_type x with
  | FD_PIPE => piperead_ (f_pipe x) n
  | FD_INODE =>
      on_fs (ilock (f_ip x));;
      x ← getf f;
      '(r, bs) ← on_fs (readi dev_read (f_ip x) (f_off x) (u32 n));
      when (0 <? r) (updf f (fun x => set_f_off (u32 (f_off x + r)) x));;
      on_fs (iunlock (f_ip x));;
      ret (r, bs)
  | FD_NONE => panic "fileread"
  end.

Definition FILEMAX : Z := (MAXOPBLOCKS - 1 - 1 - 2) / 2 * 512.

(** One transaction of [filewrite]. *)
Definition filewrite_chunk (f : nat) (addr : list Z) (n1 : Z) : K Z :=
  x ← getf f;
  on_fs begin_op_;;
  on_fs (ilock (f_ip x));;
  x ← getf f;
  r ← on_fs (writei dev_write (f_ip x) addr (f_off x) (u32 n1));
  when (0 <? r) (updf f (fun x => set_f_off (u32 (f_off x + r)) x));;
  on_fs (iunlock (f_ip x));;
  on_fs end_op_;;
  ret r.
(** The final [i]. *)
Fixpoint filewrite_loop (fuel : nat) (f : nat) (addr : list Z) (n i : Z) : K Z :=
  match fuel with
  | O => spin
  | S fuel =>
      if i <? n then
        let n1 := if FILEMAX <? n - i then FILEMAX else n - i in
        r ← filewrite_chunk f (drop (Z.to_nat i) addr) n1;
        if r <? 0 then ret i else
        if negb (r =? n1) then panic "short filewrite" else
        filewrite_loop fuel f addr n (i + r)
      else ret i
  end.
Definition filewrite (f : nat) (addr : list Z) (n : Z) : K Z :=
  x ← getf f;
  if f_writable x =? 0 then ret (-1) else
  match f_type x with
  | FD_PIPE => pipewrite_ (f_pipe x) addr n
  | FD_INODE =>
      i ← filewrite_loop (S (Z.to_nat n)) f addr n 0;
      ret (if i =? n then n else -1)
  | FD_NONE => panic "filewrite"
  end.

(** ** pipealloc *)

(** [kalloc]: whether there was a page. *)
Definition kalloc_page : K bool :=
  p ← gets k_pipes;
  match ppages p with
  | O => ret false
  | S n => modify (set_k_pipes (Pipes (pstore p) n));; ret true
  end.

(** The read end and the write end, or nothing; on failure every file that
    was allocated is closed again. *)
Definition pipealloc : K (option (nat * nat)) :=
  f0 ← filealloc;
  match f0 with
  | None => ret None
  | Some f0 =>
      f1 ← filealloc;
      match f1 with
      | None => fileclose f0;; ret None
      | Some f1 =>
          ok ← kalloc_page;
          if negb ok then fileclose f0;; fileclose f1;; ret None else
          p ← gets (fun s => length (pstore (k_pipes s)));
          modify (fun s => set_k_pipes (Pipes (pstore (k_pipes s) ++ [Psys pipe_init [] false]) (ppages (k_pipes s))) s);;
          updf f0 (fun x => File FD_PIPE (f_ref x) 1 0 p (f_ip x) (f_off x));;
          updf f1 (fun x => File FD_PIPE (f_ref x) 0 1 p (f_ip x) (f_off x));;
          ret (Some (f0, f1))
      end
  end.
End file.
