(* ===== verification/FsThms.v ===== *)
(** What the file system promises about the bytes of a file and about the log,
    on any implementation of [Block.blocks_spec], and a file system on the log
    where all of it applies. *)

From S2P Require Import Prelude Layout CString Bytes Bio Block Log LogThms LogBlocks Fs FsBlocks FsFile FsRw FsInode FsWrite Pipe File.

Section thms.
Context {St : Type} `{HS : blocks_spec St}.
Abbreviation fss := (@Fs.fss St).
Abbreviation F := (@Fs.F St).

(** A write of one transaction touches few blocks: four when it does not
    start at a block boundary, and then the first of them exists. *)
Lemma need_bound sb0 f x off n :
  FsFile.inode_ok sb0 f x -> 0 <= off <= i_size x -> 0 <= n <= FILEMAX -> off + n <= MAXFILE * BS ->
  (length (need f x off n) + Z.to_nat (nblocks off n) <= 8)%nat.
Proof.
  intros Hok Ho Hn Hmax. unfold FILEMAX in Hn. change ((MAXOPBLOCKS - 1 - 1 - 2) / 2 * 512) with (3 * 512) in Hn.
  destruct (Z.ltb_spec 0 n) as [Hp|Hz].
  2: { unfold need, nblocks. rewrite (proj2 (Z.ltb_ge 0 n)) by lia. cbn. lia. }
  pose proof (Z.div_mod off BS ltac:(done)) as Hd. pose proof (Z.mod_pos_bound off BS BS_pos) as Hm.
  pose proof (Z.div_mod (off + n - 1) BS ltac:(done)) as Hd2. pose proof (Z.mod_pos_bound (off + n - 1) BS BS_pos) as Hm2.
  fold (last_block off n) in Hd2. assert (Hnb : nblocks off n = last_block off n - off / BS + 1).
  { unfold nblocks. by rewrite (proj2 (Z.ltb_lt 0 n)). }
  pose proof (pos_slot (off + n - 1) ltac:(lia)) as Hlast. fold (last_block off n) in Hlast.
  assert (Hincl : forall l, NoDup l -> (forall k, k ∈ need f x off n -> k ∈ l) -> (length (need f x off n) <= length l)%nat).
  { intros l _ Hl. apply submseteq_length, NoDup_submseteq; [apply NoDup_need; lia|done]. }
  change BS with 512 in *. destruct (decide (off mod 512 = 0)) as [Hal|Hun].
  - assert (Hle : nblocks off n <= 3) by lia.
    enough (length (need f x off n) <= 1 + Z.to_nat (nblocks off n))%nat by lia.
    etransitivity; [apply (Hincl (MAXFILE :: seqZ (off / 512) (nblocks off n)))|cbn; rewrite length_seqZ; lia].
    + apply NoDup_cons. split; [rewrite elem_of_seqZ; lia|apply NoDup_seqZ].
    + intros k (_ & _ & Hk)%elem_of_need. change BS with 512 in Hk. rewrite elem_of_cons, elem_of_seqZ. lia.
  - assert (Hle : nblocks off n <= 4) by lia.
    enough (length (need f x off n) <= Z.to_nat (nblocks off n))%nat by lia.
    etransitivity; [apply (Hincl (MAXFILE :: seqZ (off / 512 + 1) (nblocks off n - 1)))|cbn; rewrite length_seqZ; lia].
    + apply NoDup_cons. split; [rewrite elem_of_seqZ; lia|apply NoDup_seqZ].
    + intros k (_ & Hz & Hk)%elem_of_need. change BS with 512 in Hk. rewrite elem_of_cons, elem_of_seqZ.
      assert (k <> off / 512); [|lia]. intros ->.
      apply (io_full _ _ _ Hok (off / 512)); [|unfold BSIZE; lia|done]. pose proof (pos_slot off ltac:(change BS with 512; lia)). by change BS with 512 in *.
Qed.

(** The running process is inside a transaction that has logged the blocks
    [lg]; the blocks are [f], and [x] is a file whose inode it has locked. *)
Record file_st (sb0 : superblock) (s0 : fss) (ip : nat) (x : inode) (lg : list Z) (f : Z -> list Z) (s : fss) : Prop := FileSt {
  fs_layout : layout sb0;
  fs_sb : sb s0 = sb0;
  fs_ip : (ip < length (icache s0))%nat;
  fs_inode : FsFile.inode_ok sb0 f x;
  fs_fields : fields_ok sb0 x;
  fs_file : i_type x <> T_DEV;
  fs_meta : meta_used sb0 f;
  fs_holds : holds (withi s0 ip x) [] lg f s
}.

Lemma file_st_written sb0 s0 ip x lg f s x' f' lg' s' off src :
  file_st sb0 s0 ip x lg f s -> written sb0 f x f' x' off src -> holds (withi s0 ip x') [] lg' f' s' ->
  file_st sb0 s0 ip x' lg' f' s'.
Proof.
  intros [] Hw Hh. assert (Hs := wn_same _ _ _ _ _ _ _ Hw).
  constructor; try done; [apply Hw| | |apply Hw]; rewrite Hs; [by destruct fs_fields0|done].
Qed.

(** [readi] gives the bytes of the file from [off] on, at most [n] of them
    and fewer only at the end of the file, and changes neither the file system
    nor the log; an offset behind the end, or one to which [n] cannot be added
    in 32 bits, is refused. *)
Theorem readi_correct sb0 s0 ip x lg f s (dev_read : Z -> option (nat -> Z -> F (Z * list Z))) off n :
  file_st sb0 s0 ip x lg f s -> (length lg < NBUF)%nat -> 0 <= off < 2 ^ 32 -> 0 <= n < 2 ^ 32 ->
  runs (readi dev_read ip off n) s (fun '(r, bs) s' => file_st sb0 s0 ip x lg f s' /\
    if decide (i_size x < off \/ 2 ^ 32 <= off + n) then r = -1 /\ bs = []
    else bs = take (Z.to_nat n) (drop (Z.to_nat off) (content f x)) /\ r = Z.of_nat (length bs)).
Proof.
  intros [] Hlg Ho Hn.
  eapply runs_mono; [by apply (readi_runs sb0 fs_layout0 dev_read s0 ip fs_ip0 f x lg off n s)|].
  intros [r bs] s' [Hh Hr]. split; [by constructor|done].
Qed.

(** [writei] is the splice of the bytes of a file: it returns [n], the file
    has the bytes of [src] at [off] and is extended if they go past its end,
    missing blocks are taken from the free ones, the inode on the disk follows,
    no block of another file, no other inode and no block in use is touched, and
    the log grows by no more than the blocks written; an offset behind the end,
    a sum that overflows or a file that would be too large is refused and
    nothing is changed. *)
Theorem writei_correct sb0 s0 ip x lg f s (dev_write : Z -> option (nat -> list Z -> Z -> F Z)) src off n :
  file_st sb0 s0 ip x lg f s -> 0 <= off < 2 ^ 32 -> 0 <= n < 2 ^ 32 -> n <= Z.of_nat (length src) ->
  (length (need f x off n) <= length (free_list sb0 f))%nat ->
  (length lg + length (need f x off n) + Z.to_nat (nblocks off n) + 6 < LOGMAX)%nat ->
  runs (writei dev_write ip src off n) s (fun r s' =>
    if decide (i_size x < off \/ MAXFILE * BS < off + n) then r = -1 /\ s' = s
    else r = n /\ exists f' x' lg', file_st sb0 s0 ip x' lg' f' s' /\
      written sb0 f x f' x' off (take (Z.to_nat n) src) /\
      (length lg' <= length lg + length (need f x off n) + Z.to_nat (nblocks off n) + 2)%nat).
Proof.
  intros Hst Ho Hn Hsrc Hfree Hlog. assert (Hst' := Hst). destruct Hst'. destruct (decide (i_size x < off \/ MAXFILE * BS < off + n)) as [Hd|Hd].
  { unfold writei. eapply runs_geti; [done|exact fs_holds0|]. rewrite (proj2 (Z.eqb_neq _ T_DEV)) by done.
    destruct ((i_size x <? off) || _) eqn:Ht; [by eapply runs_Ok|]. apply orb_false_iff in Ht as [Ht _].
    apply Z.ltb_ge in Ht. fold BS. rewrite (proj2 (Z.ltb_lt _ (off + n))) by lia. by eapply runs_Ok. }
  assert (Hfit : fits lg lg x).
  { split; [by eapply holds_nodup|]. intros m Hm. by left. }
  eapply runs_mono; [apply (writei_runs sb0 fs_layout0 dev_write s0 fs_sb0 ip fs_ip0 f x lg lg src off n s); try done; lia|].
  intros r s' (-> & f' & x' & lg' & W & Hw & Hh' & Hfit' & HW). split; [done|]. exists f', x', lg'. split; [by eapply file_st_written|split; [done|]].
  apply fits_length in Hfit'. rewrite length_app in Hfit'. lia.
Qed.

(** C18. What [filewrite] writes in one transaction fits in the space [begin_op]
    reserves for it: with at most [((MAXOPBLOCKS-1-1-2)/2)*512] bytes, [writei]
    logs at most [MAXOPBLOCKS] blocks, wherever in the file it writes and
    whatever it has to allocate. *)
Theorem writei_fits_log sb0 s0 ip x f s (dev_write : Z -> option (nat -> list Z -> Z -> F Z)) src off n :
  file_st sb0 s0 ip x [] f s -> 0 <= off <= i_size x -> 0 <= n <= FILEMAX -> off + n <= MAXFILE * BS ->
  n <= Z.of_nat (length src) -> (length (need f x off n) <= length (free_list sb0 f))%nat ->
  runs (writei dev_write ip src off n) s (fun r s' => r = n /\
    exists f' x' lg', file_st sb0 s0 ip x' lg' f' s' /\ Z.of_nat (length lg') <= MAXOPBLOCKS).
Proof.
  intros Hst Ho Hn Hmax Hsrc Hfree. assert (Hb := need_bound sb0 f x off n (fs_inode _ _ _ _ _ _ _ Hst) Ho Hn Hmax).
  assert (Hn' : n < 2 ^ 32) by (change FILEMAX with 1536 in Hn; lia).
  assert (Ho' : off < 2 ^ 32) by (assert (MAXFILE * BS < 2 ^ 32) by done; lia).
  assert (Hst' := Hst). destruct Hst'. assert (Hfit : fits [] [] x) by (split; [constructor|by intros m ?%elem_of_nil]).
  eapply runs_mono; [apply (writei_runs sb0 fs_layout0 dev_write s0 fs_sb0 ip fs_ip0 f x [] [] src off n s); try done; [lia|unfold LOGMAX; cbn; lia]|].
  intros r s' (-> & f' & x' & lg' & W & Hw & Hh' & Hfit' & HW). split; [done|]. exists f', x', lg'. split; [by eapply file_st_written|].
  apply fits_length in Hfit'. cbn in Hfit'. unfold MAXOPBLOCKS. lia.
Qed.
End thms.

(** ** A file system on the log *)

(** Blocks: 30 of the log from 2, inodes in 32, the bitmap in 33, data up to
    100.  The bits of the first 34 blocks are set. *)
Definition demo_super : superblock := Superblock 100 66 8 30 2 32 33.
Definition demo_sb_block : list Z := concat (le32 <$> [100; 66; 8; 30; 2; 32; 33]) ++ replicate 484 0.
Definition demo_bitmap : list Z := [255; 255; 255; 255; 3] ++ replicate 507 0.
Definition demo_fs_image : gmap blockid (list Z) := {[ (1, 1) := demo_sb_block; (1, 33) := demo_bitmap ]}.
Definition demo_idle : lst :=
  match boot (boot_lst demo_fs_image 1) with Ok (_, s) => s | _ => boot_lst demo_fs_image 1 end.
Definition demo_tx : lst := match begin_op demo_idle with Ok (_, s) => s | _ => demo_idle end.
Definition demo_f : Z -> list Z := look (bcache demo_idle).
(** An empty file, locked. *)
Definition demo_inode : inode := Inode 1 1 1 (Sleeplock 1 1) 1 T_FILE 0 0 1 0 (replicate 13 0).
Definition demo_fss : fss := Fss demo_tx demo_super [demo_inode] 0 1.

Lemma demo_image_ok : fs_disk 2 demo_fs_image.
Proof.
  constructor.
  - unfold log_at, LOGSIZE, FSSIZE. lia.
  - intros k v Hv. unfold demo_fs_image in Hv. apply lookup_insert_Some in Hv as [[_ <-]|[_ Hv]]; [by vm_compute|].
    apply lookup_singleton_Some in Hv as [_ <-]. by vm_compute.
  - by vm_compute.
  - by vm_compute.
  - assert (Hd : decode (on_disk demo_fs_image 2) = []) by by vm_compute. rewrite Hd. apply hdr_ok_nil.
Qed.

Lemma demo_at : log_at 2.
Proof. unfold log_at, LOGSIZE, FSSIZE. lia. Qed.
#[local] Instance demo_spec : blocks_spec lst := log_blocks_spec 2 demo_at.

Lemma demo_idle_ok : log_idle 2 demo_idle demo_f.
Proof.
  destruct (boot_fs_disk 2 demo_fs_image 1 demo_image_ok) as (s & Hs & H1 & H2 & H3 & H4 & _).
  assert (Hd : demo_idle = s) by (unfold demo_idle; by rewrite Hs). rewrite <- Hd in H1, H2, H3, H4.
  refine (conj H1 (conj H2 (conj H3 (conj H4 _)))). intros n _. unfold demo_f. reflexivity.
Qed.

Lemma demo_tx_ok : tx_st 2 demo_tx [] [] demo_f.
Proof.
  destruct (runs_inv _ _ _ (tx_begin 2 demo_idle demo_f demo_idle_ok)) as ([] & s & Hs & Ht).
  assert (Hd : demo_tx = s); [|rewrite Hd; exact Ht]. unfold demo_tx. by rewrite Hs.
Qed.

Lemma demo_layout : layout demo_super.
Proof.
  constructor.
  - intros n Hn. cbn in Hn. unfold bl_home. cbn. unfold log_home, LOGSIZE, FSSIZE. lia.
  - intros i Hi. change (0 <= i < 8) in Hi. unfold IBLOCK, IPB. rewrite Z.div_small by lia. cbn. lia.
  - cbn. lia.
  - by vm_compute.
Qed.

Lemma demo_meta : meta_used demo_super demo_f.
Proof.
  assert (Hall : forallb (used demo_super demo_f) (seqZ 0 34) = true) by by vm_compute.
  intros b Hb. rewrite forallb_forall in Hall. apply Hall, list_elem_of_In, elem_of_seqZ.
  change (dstart demo_super) with 34 in Hb. lia.
Qed.

Lemma slot_empty f x k : i_addrs x = replicate 13 0 -> a_slot k -> slot_of f x k = 0.
Proof.
  intros Hx Hk. assert (H0 : forall i, (i < 13)%nat -> i_addrs x !!! i = 0) by (intros i Hi; rewrite Hx; by apply lookup_total_replicate_2).
  unfold slot_of, indirect. rewrite (H0 NDIRECT) by (unfold NDIRECT; lia).
  destruct (Z.ltb_spec k (Z.of_nat NDIRECT)); [apply H0; unfold a_slot, NDIRECT in *; lia|by destruct (k =? MAXFILE)].
Qed.

Lemma demo_inode_ok : FsFile.inode_ok demo_super demo_f demo_inode.
Proof.
  assert (Hs : forall k, a_slot k -> slot_of demo_f demo_inode k = 0) by (intros k; by apply slot_empty).
  constructor; try done.
  - intros k Hk. by rewrite Hs.
  - intros j k Hj Hk. by rewrite Hs.
  - intros k Hk Hlt. cbn in Hlt. lia.
Qed.

Lemma demo_file_st : file_st demo_super demo_fss 0 demo_inode [] demo_f demo_fss.
Proof.
  constructor; [apply demo_layout|done|cbn; lia|apply demo_inode_ok|by constructor; cbn; unfold T_FILE; lia|done|apply demo_meta|].
  exists demo_tx. split; [done|apply demo_tx_ok].
Qed.

Definition no_read : Z -> option (nat -> Z -> @F lst (Z * list Z)) := fun _ => None.
Definition no_write : Z -> option (nat -> list Z -> Z -> @F lst Z) := fun _ => None.

Lemma readi_correct_witness :
  runs (readi no_read 0 0 10) demo_fss (fun '(r, bs) s' => file_st demo_super demo_fss 0 demo_inode [] demo_f s' /\
    if decide (i_size demo_inode < 0 \/ 2 ^ 32 <= 0 + 10) then r = -1 /\ bs = []
    else bs = take (Z.to_nat 10) (drop (Z.to_nat 0) (content demo_f demo_inode)) /\ r = Z.of_nat (length bs)).
Proof.
  exact (readi_correct demo_super demo_fss 0 demo_inode [] demo_f demo_fss no_read 0 10 demo_file_st
    ltac:(unfold NBUF; cbn; lia) ltac:(lia) ltac:(lia)).
Defined.

Lemma writei_correct_witness :
  runs (writei no_write 0 [104; 105] 0 2) demo_fss (fun r s' =>
    if decide (i_size demo_inode < 0 \/ MAXFILE * BS < 0 + 2) then r = -1 /\ s' = demo_fss
    else r = 2 /\ exists f' x' lg', file_st demo_super demo_fss 0 x' lg' f' s' /\
      written demo_super demo_f demo_inode f' x' 0 (take (Z.to_nat 2) [104; 105]) /\
      (length lg' <= length ([] : list Z) + length (need demo_f demo_inode 0 2) + Z.to_nat (nblocks 0 2) + 2)%nat).
Proof.
  apply (writei_correct demo_super demo_fss 0 demo_inode [] demo_f demo_fss no_write [104; 105] 0 2 demo_file_st);
    [lia|lia|cbn; lia|apply Nat.leb_le; by vm_compute|apply Nat.ltb_lt; by vm_compute].
Defined.

Lemma writei_fits_log_witness :
  runs (writei no_write 0 [104; 105] 0 2) demo_fss (fun r s' => r = 2 /\
    exists f' x' lg', file_st demo_super demo_fss 0 x' lg' f' s' /\ Z.of_nat (length lg') <= MAXOPBLOCKS).
Proof.
  apply (writei_fits_log demo_super demo_fss 0 demo_inode demo_f demo_fss no_write [104; 105] 0 2 demo_file_st);
    [cbn; lia|change FILEMAX with 1536; lia|by vm_compute|cbn; lia|apply Nat.leb_le; by vm_compute].
Defined.
