(* ===== verification/FileThms.v ===== *)
(** Open files: [filewrite] is the splice of a file, transaction by
    transaction. *)

From S2P Require Import Prelude Layout CString Bytes Bio Block Log LogThms LogBlocks Fs FsBlocks FsFile FsRw FsInode FsWrite Pipe File FsThms.

Section locks.
Context {St : Type} `{HS : blocks_spec St}.
Abbreviation fss := (@Fs.fss St).
Abbreviation fls := (@File.fls St).

(** No transaction is open. *)
Definition idle (s0 : fss) (f : Z -> list Z) (s : fss) : Prop := exists b, s = set_blk b s0 /\ bl_idle b f.

Lemma runs_begin s0 f s : idle s0 f s -> runs begin_op_ s (fun _ => holds s0 [] [] f).
Proof.
  intros (b & -> & Hb). apply runs_on_blk. eapply runs_mono; [by apply bl_begin_ok|]. intros [] b' Hb'. by exists b'.
Qed.

Lemma runs_end s0 lg f s : holds s0 [] lg f s -> runs end_op_ s (fun _ => idle s0 f).
Proof.
  intros (b & -> & Hb). apply runs_on_blk. eapply runs_mono; [by eapply bl_end_ok|]. intros [] b' Hb'. by exists b'.
Qed.

Lemma holds_pid s0 held lg f s : holds s0 held lg f s -> fpid s = fpid s0.
Proof. by intros (b & -> & _). Qed.

Section inode.
Context (s0 : fss) (ip : nat) (Hip : (ip < length (icache s0))%nat).

(** Locking an inode that is in memory, and unlocking it. *)
Lemma runs_ilock x held lg f s :
  holds (withi s0 ip x) held lg f s -> 1 <= i_ref x -> sl_locked (i_lock x) = 0 -> i_valid x <> 0 ->
  runs (ilock ip) s (fun _ => holds (withi s0 ip (set_i_lock (Sleeplock 1 (fpid s0)) x)) held lg f).
Proof.
  intros Hh Hr Hl Hv. assert (Hp := holds_pid _ _ _ _ _ Hh). unfold ilock. eapply runs_geti; [done|exact Hh|].
  rewrite (proj2 (Z.ltb_ge _ _)) by lia. unfold iacquire. apply runs_bind. eapply runs_geti; [done|exact Hh|].
  rewrite Hl. cbn [Z.eqb negb]. apply runs_bind. eapply runs_Ok; [done|]. rewrite Hp.
  eapply runs_mono with (Q := fun _ s' => holds (withi s0 ip (set_i_lock (Sleeplock 1 (fpid s0)) x)) held lg f s').
  { apply (runs_updi' s0 ip Hip x _ held lg f s Hh). }
  intros [] s1 Hh1. eapply runs_geti; [done|exact Hh1|]. cbn [set_i_lock i_valid].
  rewrite (proj2 (Z.eqb_neq _ 0)) by done. by eapply runs_Ok.
Qed.

Lemma runs_iunlock x held lg f s :
  holds (withi s0 ip x) held lg f s -> 1 <= i_ref x -> i_lock x = Sleeplock 1 (fpid s0) ->
  runs (iunlock ip) s (fun _ => holds (withi s0 ip (set_i_lock (Sleeplock 0 0) x)) held lg f).
Proof.
  intros Hh Hr Hl. assert (Hp := holds_pid _ _ _ _ _ Hh). unfold iunlock, iholding.
  apply runs_bind. eapply runs_geti; [done|exact Hh|]. apply runs_bind. eapply runs_Ok; [done|]. eapply runs_Ok; [done|].
  rewrite Hl, Hp. cbn [sl_locked sl_pid withi fpid set_icache]. rewrite Z.eqb_refl. cbn [negb Z.eqb andb].
  eapply runs_geti; [done|exact Hh|]. rewrite (proj2 (Z.ltb_ge _ _)) by lia. cbn [negb orb].
  apply (runs_updi' s0 ip Hip x _ held lg f s Hh).
Qed.
End inode.

(** ** Open files *)

Lemma runs_on_fs {A} (m : @F St A) s (Q : A -> fls -> Prop) :
  runs m (k_fs s) (fun a t => Q a (set_k_fs t s)) -> runs (on_fs m) s Q.
Proof. unfold runs, on_fs, zoom. by destruct (m (k_fs s)) as [[a t]| | |]. Qed.

Lemma runs_getf {A} fd fe (k : file -> @K St A) s Q :
  ftable s !! fd = Some fe -> runs (k fe) s Q -> runs (bind (getf fd) k) s Q.
Proof. intros Hf Hk. apply runs_bind. eapply runs_Ok; [|exact Hk]. unfold getf, bind, gets. by rewrite Hf. Qed.

(** The file [fd] of the table is open on the inode [x], which is in memory
    and not locked; no transaction is open. *)
Record open_file (sb0 : superblock) (s0 : fss) (ip : nat) (x : inode) (f : Z -> list Z) (fd : nat) (fe : file) (s : fls) : Prop := OpenFile {
  of_layout : layout sb0;
  of_sb : sb s0 = sb0;
  of_ip : (ip < length (icache s0))%nat;
  of_inode : FsFile.inode_ok sb0 f x;
  of_fields : fields_ok sb0 x;
  of_notdev : i_type x <> T_DEV;
  of_meta : meta_used sb0 f;
  of_ref : 1 <= i_ref x;
  of_lock : i_lock x = Sleeplock 0 0;
  of_valid : i_valid x <> 0;
  of_idle : idle (withi s0 ip x) f (k_fs s);
  of_file : ftable s !! fd = Some fe;
  of_type : f_type fe = FD_INODE;
  of_fip : f_ip fe = ip;
  of_off : 0 <= f_off fe <= i_size x
}.

(** The lock does not matter to the file. *)
Lemma inode_ok_lock sb0 f x l : FsFile.inode_ok sb0 f x -> FsFile.inode_ok sb0 f (set_i_lock l x).
Proof. by intros []. Qed.

Lemma written_lock sb0 f x f' x' off src l l' :
  written sb0 f (set_i_lock l x) f' x' off src -> i_lock x = l' -> written sb0 f x f' (set_i_lock l' x') off src.
Proof.
  intros [W1 W2 W3 W4 W5 W6 W7 W8 W9 W10 W11] <-. constructor; try done.
  - by apply inode_ok_lock.
  - rewrite W3. by destruct x.
Qed.

Section filewrite.
Context (dev_write : Z -> option (nat -> list Z -> Z -> @F St Z)).
Context (sb0 : superblock) (s0 : fss) (ip fd : nat).

(** One transaction. *)
Lemma filewrite_chunk_runs x f fe s addr n :
  open_file sb0 s0 ip x f fd fe s -> 0 <= n <= FILEMAX -> n <= Z.of_nat (length addr) ->
  f_off fe + n <= MAXFILE * BS -> (length (need f x (f_off fe) n) <= length (free_list sb0 f))%nat ->
  runs (filewrite_chunk dev_write fd addr n) s (fun r s' => r = n /\ exists f' x',
    open_file sb0 s0 ip x' f' fd (set_f_off (f_off fe + n) fe) s' /\
    written sb0 f x f' x' (f_off fe) (take (Z.to_nat n) addr)).
Proof.
  intros [] Hn Hsrc Hmax Hfree. set (off := f_off fe) in *. set (pid := fpid s0).
  change FILEMAX with 1536 in Hn. assert (Hbig : MAXFILE * BS < 2 ^ 32) by done.
  unfold filewrite_chunk. eapply runs_getf; [done|]. rewrite of_fip0. apply runs_bind, runs_on_fs.
  eapply runs_mono; [by eapply runs_begin|]. intros [] t1 Hh1. apply runs_bind, runs_on_fs. cbn [k_fs set_k_fs].
  eapply runs_mono; [eapply (runs_ilock s0 ip of_ip0 x); [exact Hh1|done|by rewrite of_lock0|done]|]. intros [] t2 Hh2.
  eapply runs_getf; [done|]. rewrite of_fip0. fold off pid in Hh2 |- *. set (xl := set_i_lock (Sleeplock 1 pid) x) in *.
  assert (Hokl : FsFile.inode_ok sb0 f xl) by by apply inode_ok_lock.
  assert (Hfol : fields_ok sb0 xl) by by destruct of_fields0.
  assert (Hb := need_bound sb0 f xl off n Hokl of_off0 ltac:(change FILEMAX with 1536; lia) Hmax).
  change (need f xl off n) with (need f x off n) in Hb.
  apply runs_bind, runs_on_fs. cbn [k_fs set_k_fs]. rewrite u32_small by lia.
  eapply runs_mono; [apply (writei_runs sb0 of_layout0 dev_write s0 of_sb0 ip of_ip0 f xl [] [] addr off n); try done|].
  { split; [constructor|by intros m ?%elem_of_nil]. } { lia. }
  { change (need f xl off n) with (need f x off n). unfold LOGMAX. cbn [length]. lia. }
  intros r t3 (-> & f' & x' & lg' & W & Hw & Hh3 & _).
  assert (Hsame := wn_same _ _ _ _ _ _ _ Hw). assert (Hlk : i_lock x' = Sleeplock 1 pid) by by rewrite Hsame.
  assert (Hrf : i_ref x' = i_ref x) by by rewrite Hsame. assert (Hw' := written_lock _ _ _ _ _ _ _ _ _ Hw of_lock0).
  set (xu := set_i_lock (Sleeplock 0 0) x') in *.
  apply runs_bind. eapply runs_Ok with (a := ()).
  { instantiate (1 := Fls t3 (<[fd := set_f_off (off + n) fe]> (ftable s)) (k_pipes s) (k_killed s) (ofile s)).
    destruct (Z.ltb_spec 0 n) as [Hp|Hz]; cbn [when].
    - unfold updf, getf, bind, gets, modify. cbn [ftable set_k_fs]. rewrite of_file0. cbn. fold off.
      by rewrite u32_small by lia.
    - unfold ret, set_k_fs. cbn. rewrite list_insert_id; [done|]. rewrite of_file0. f_equal.
      assert (n = 0) as -> by lia. rewrite Z.add_0_r. unfold off. by destruct fe. }
  apply runs_bind, runs_on_fs. cbn [k_fs set_k_fs].
  eapply runs_mono; [apply (runs_iunlock s0 ip of_ip0 x' [] lg' f' t3 Hh3); [by rewrite Hrf|done]|]. intros [] t4 Hh4.
  apply runs_bind, runs_on_fs. cbn [k_fs set_k_fs]. eapply runs_mono; [by eapply runs_end|]. intros [] t5 Hh5.
  eapply runs_Ok; [done|]. split; [done|]. exists f', xu. split; [|exact Hw'].
  assert (Hsame' := wn_same _ _ _ _ _ _ _ Hw'). assert (Hsz := written_size sb0 f x f' xu off _ of_inode0 Hw' of_off0).
  rewrite length_take in Hsz. constructor; try done; cbn [ftable set_k_fs set_f_off f_off f_type f_ip].
  - apply Hw'.
  - rewrite Hsame'. by destruct of_fields0.
  - by rewrite Hsame'.
  - apply Hw'.
  - by rewrite Hsame'.
  - by rewrite Hsame'.
  - apply list_lookup_insert_eq. by eapply lookup_lt_Some.
  - lia.
Qed.

Lemma set_f_off_twice a b fe : set_f_off a (set_f_off b fe) = set_f_off a fe.
Proof. done. Qed.

Lemma filewrite_loop_runs addr n fuel : forall x f fe s i,
  open_file sb0 s0 ip x f fd fe s -> 0 <= i <= n -> n <= Z.of_nat (length addr) ->
  f_off fe + (n - i) <= MAXFILE * BS -> (length (need f x (f_off fe) (n - i)) <= length (free_list sb0 f))%nat ->
  (Z.to_nat (n - i) < fuel)%nat ->
  runs (filewrite_loop dev_write fuel fd addr n i) s (fun r s' => r = n /\ exists f' x',
    open_file sb0 s0 ip x' f' fd (set_f_off (f_off fe + (n - i)) fe) s' /\
    written sb0 f x f' x' (f_off fe) (take (Z.to_nat (n - i)) (drop (Z.to_nat i) addr))).
Proof.
  induction fuel as [|fuel IH]; intros x f fe s i Hof Hi Hlen Hmax Hfree Hf; [lia|]. cbn [filewrite_loop].
  destruct (Z.ltb_spec i n) as [Hlt|Hge].
  2: { assert (i = n) as -> by lia. eapply runs_Ok; [done|]. split; [done|]. exists f, x. rewrite Z.sub_diag, Z.add_0_r. cbn [Z.to_nat take].
       replace (set_f_off (f_off fe) fe) with fe by by destruct fe. split; [done|]. destruct Hof. by apply written_refl. }
  set (n1 := if FILEMAX <? n - i then FILEMAX else n - i).
  assert (Hn1 : 0 < n1 <= n - i /\ n1 <= FILEMAX).
  { unfold n1. change FILEMAX with 1536. destruct (Z.ltb_spec 1536 (n - i)); lia. }
  destruct Hn1 as [Hn1 Hn1']. cbn zeta. set (a1 := drop (Z.to_nat i) addr). set (off := f_off fe) in *.
  assert (Hl1 : length (take (Z.to_nat n1) a1) = Z.to_nat n1) by (unfold a1; rewrite length_take, length_drop; lia).
  assert (Hof' := Hof). destruct Hof' as [Hly Hsb Hip Hok _ _ Hmu _ _ _ _ _ _ _ Hoff]. fold off in Hoff.
  assert (Hneed1 : (length (need f x off n1) <= length (need f x off (n - i)))%nat).
  { apply submseteq_length, NoDup_submseteq.
    - apply NoDup_need, (pos_slot (off + n1 - 1)). lia.
    - intros k (_ & Hz & Hk)%elem_of_need. apply elem_of_need. split; [lia|]. split; [done|].
      assert (last_block off n1 <= last_block off (n - i)) by (apply Z.div_le_mono; [done|lia]). lia. }
  apply runs_bind. eapply runs_mono; [apply (filewrite_chunk_runs x f fe s a1 n1 Hof); [lia| | |]|].
  { unfold a1. rewrite length_drop. lia. } { fold off. lia. } { fold off. lia. }
  intros r s1 (-> & f1 & x1 & Hof1 & Hw1). fold off in Hof1, Hw1.
  rewrite (proj2 (Z.ltb_ge n1 0)), Z.eqb_refl by lia. cbn [negb].
  assert (Hna := need_after sb0 f x f1 x1 off _ (n - i) Hok Hw1 Hoff ltac:(lia) ltac:(lia)).
  rewrite Hl1, Z2Nat.id in Hna by lia. assert (Hfr := wn_free _ _ _ _ _ _ _ Hw1). rewrite Hl1, Z2Nat.id in Hfr by lia.
  eapply runs_mono; [apply (IH x1 f1 (set_f_off (off + n1) fe) s1 (i + n1) Hof1); try done; cbn [set_f_off f_off]; try lia|].
  { replace (n - (i + n1)) with (n - i - n1) by lia. lia. }
  intros r s2 (-> & f2 & x2 & Hof2 & Hw2). split; [done|]. exists f2, x2. cbn [set_f_off f_off] in *.
  split; [by replace (off + (n - i)) with (off + n1 + (n - (i + n1))) by lia|].
  replace (take (Z.to_nat (n - i)) a1) with (take (Z.to_nat n1) a1 ++ take (Z.to_nat (n - (i + n1))) (drop (Z.to_nat (i + n1)) addr)).
  - apply (written_trans sb0 Hly f x f1 x1 f2 x2); try done.
    + rewrite Hl1, length_take, length_drop. lia.
    + rewrite Hl1, Z2Nat.id by lia. done.
  - unfold a1. rewrite Z2Nat.inj_add, <- drop_drop by lia. rewrite <- (take_drop (Z.to_nat n1) (take (Z.to_nat (n - i)) _)).
    rewrite take_take, Nat.min_l by lia. f_equal. rewrite take_drop_commute. do 2 f_equal. lia.
Qed.
End filewrite.

(** C15. [filewrite] on a file, when the result is at most [MAXFILE] blocks and
    the disk has the free blocks that it needs: all [n] bytes are written at the
    offset of the open file, over as many transactions as that takes, none of
    which is too large for the log; the offset moves behind them, the file is
    the old one with the bytes spliced in, and no other file is touched. *)
Theorem filewrite_correct sb0 s0 ip x f fd fe s (dev_write : Z -> option (nat -> list Z -> Z -> @F St Z)) addr n :
  open_file sb0 s0 ip x f fd fe s -> f_writable fe <> 0 -> 0 <= n <= Z.of_nat (length addr) ->
  f_off fe + n <= MAXFILE * BS -> (length (need f x (f_off fe) n) <= length (free_list sb0 f))%nat ->
  runs (filewrite dev_write fd addr n) s (fun r s' => r = n /\ exists f' x',
    open_file sb0 s0 ip x' f' fd (set_f_off (f_off fe + n) fe) s' /\
    written sb0 f x f' x' (f_off fe) (take (Z.to_nat n) addr)).
Proof.
  intros Hof Hwr Hn Hmax Hfree. unfold filewrite. eapply runs_getf; [apply Hof|].
  rewrite (proj2 (Z.eqb_neq _ 0)), (of_type _ _ _ _ _ _ _ _ Hof) by done. apply runs_bind.
  eapply runs_mono; [apply (filewrite_loop_runs dev_write sb0 s0 ip fd addr n (S (Z.to_nat n)) x f fe s 0 Hof); rewrite ?Z.sub_0_r; lia|].
  intros r s' (-> & f' & x' & Hof' & Hw). rewrite Z.sub_0_r in Hof', Hw. eapply runs_Ok; [done|]. rewrite Z.eqb_refl.
  split; [done|]. by exists f', x'.
Qed.
End locks.

(** ** A file on the log *)

#[local] Instance demo_file_spec : blocks_spec lst := log_blocks_spec 2 demo_at.

Definition demo_unlocked : inode := set_i_lock (Sleeplock 0 0) demo_inode.
Definition demo_fe : file := File FD_INODE 1 1 1 0 0 0.
Definition demo_fs0 : fss := Fss demo_idle demo_super [demo_unlocked] 0 1.
Definition demo_fls : fls := Fls demo_fs0 [demo_fe] (Pipes [] 0) false [Some 0%nat].

Lemma demo_open_file : open_file demo_super demo_fs0 0 demo_unlocked demo_f 0 demo_fe demo_fls.
Proof.
  constructor.
  - apply demo_layout.
  - done.
  - cbn. lia.
  - exact (inode_ok_lock _ _ _ _ demo_inode_ok).
  - constructor; cbn; unfold T_FILE; lia.
  - done.
  - apply demo_meta.
  - cbn. lia.
  - done.
  - done.
  - exists demo_idle. split; [done|apply demo_idle_ok].
  - done.
  - done.
  - done.
  - cbn. lia.
Qed.

Lemma filewrite_correct_witness :
  runs (filewrite no_write 0 [104; 105; 33] 3) demo_fls (fun r s' => r = 3 /\ exists f' x',
    open_file demo_super demo_fs0 0 x' f' 0 (set_f_off (f_off demo_fe + 3) demo_fe) s' /\
    written demo_super demo_f demo_unlocked f' x' (f_off demo_fe) (take (Z.to_nat 3) [104; 105; 33])).
Proof.
  apply (filewrite_correct demo_super demo_fs0 0 demo_unlocked demo_f 0 demo_fe demo_fls no_write [104; 105; 33] 3 demo_open_file);
    [done|cbn; lia|by vm_compute|apply Nat.leb_le; by vm_compute].
Defined.
