(* ===== verification/Syscall.v ===== *)
(** System call arguments ([syscall.c]): integers, pointers and strings
    fetched from the memory of the process that made the call.

    A user address is used by the kernel as it is, through the page table of
    the process; [None] is the result -1. *)

From S2P Require Import Prelude Layout.

(** [myproc()->sz], [myproc()->tf->esp] and the bytes at user addresses. *)
Record uproc := Uproc {
  u_sz : Z;
  u_esp : Z;
  u_mem : Z -> Z
}.
Definition set_u_mem (v : Z -> Z) (p : uproc) : uproc := Uproc (u_sz p) (u_esp p) v.

(** The 32-bit value and the bytes at an address. *)
Definition uload32 (p : uproc) (a : Z) : Z :=
  u_mem p a + u_mem p (a + 1) * 2 ^ 8 + u_mem p (a + 2) * 2 ^ 16 + u_mem p (a + 3) * 2 ^ 24.
Definition uload (p : uproc) (a n : Z) : list Z := (fun i => u_mem p (a + Z.of_nat i)) <$> seq 0 (Z.to_nat n).
Fixpoint ustores (m : Z -> Z) (a : Z) (bs : list Z) : Z -> Z :=
  match bs with
  | [] => m
  | b :: bs => ustores (fun x => if x =? a then b else m x) (a + 1) bs
  end.

Definition fetchint (addr : Z) (p : uproc) : option Z :=
  if (u_sz p <=? addr) || (u_sz p <? u32 (addr + 4)) then None
  else Some (s32 (uload32 p addr)).

(** [for(s = *pp; s < ep; s++)]: the bytes before the first 0. *)
Fixpoint fetchstr_loop (fuel : nat) (s ep : Z) (p : uproc) : option (list Z) :=
  match fuel with
  | O => None
  | S fuel =>
      if s <? ep then
        if u_mem p s =? 0 then Some []
        else match fetchstr_loop fuel (s + 1) ep p with
             | Some l => Some (u_mem p s :: l)
             | None => None
             end
      else None
  end.
(** The string at [addr]; the code returns its length. *)
Definition fetchstr (addr : Z) (p : uproc) : option (list Z) :=
  if u_sz p <=? addr then None
  else fetchstr_loop (S (Z.to_nat (u_sz p - addr))) addr (u_sz p) p.

Definition argint (n : Z) (p : uproc) : option Z := fetchint (u32 (u_esp p + 4 + 4 * n)) p.

Definition argptr (n size : Z) (p : uproc) : option Z :=
  match argint n p with
  | None => None
  | Some i =>
      if (size <? 0) || (u_sz p <=? u32 i) || (u_sz p <? u32 (u32 i + size)) then None
      else Some (u32 i)
  end.

Definition argstr (n : Z) (p : uproc) : option (list Z) :=
  match argint n p with
  | None => None
  | Some addr => fetchstr (u32 addr) p
  end.

(** ** What the checks guarantee *)

Section args.
Context (p : uproc).
Hypothesis Hsz : 0 <= u_sz p <= KERNBASE.

Lemma fetchint_range addr v : 0 <= addr -> fetchint addr p = Some v -> addr + 4 <= u_sz p.
Proof.
  intros Ha. unfold fetchint. destruct (Z.leb_spec (u_sz p) addr); [done|].
  rewrite u32_small by (unfold KERNBASE in *; lia). destruct (Z.ltb_spec (u_sz p) (addr + 4)); [done|]. lia.
Qed.

Lemma fetchstr_loop_spec fuel : forall s,
  0 <= s -> (Z.to_nat (u_sz p - s) < fuel)%nat ->
  match fetchstr_loop fuel s (u_sz p) p with
  | Some l => s + Z.of_nat (length l) < u_sz p /\ u_mem p (s + Z.of_nat (length l)) = 0 /\
      l = uload p s (Z.of_nat (length l)) /\ (0 ∉ l)
  | None => forall a, s <= a < u_sz p -> u_mem p a <> 0
  end.
Proof.
  induction fuel as [|fuel IH]; intros s Hs Hf; [lia|]. cbn [fetchstr_loop].
  destruct (Z.ltb_spec s (u_sz p)) as [Hlt|Hge]; [|intros a; lia].
  destruct (Z.eqb_spec (u_mem p s) 0) as [H0|H0].
  { cbn. rewrite Z.add_0_r. split_and!; [done|done|done|apply not_elem_of_nil]. }
  specialize (IH (s + 1) ltac:(lia) ltac:(lia)). destruct (fetchstr_loop fuel _ _ _) as [l|].
  - destruct IH as (I1 & I2 & I3 & I4). cbn [length]. rewrite Nat2Z.inj_succ.
    replace (s + Z.succ (Z.of_nat (length l))) with (s + 1 + Z.of_nat (length l)) by lia.
    split; [done|]. split; [done|]. split.
    + unfold uload in I3 |- *. rewrite <- Nat2Z.inj_succ, Nat2Z.id in *. cbn [seq fmap list_fmap].
      rewrite Z.add_0_r. f_equal. rewrite I3 at 1. rewrite <- fmap_S_seq, <- list_fmap_compose.
      apply list_fmap_ext. intros i k _. unfold compose. f_equal. lia.
    + rewrite not_elem_of_cons. done.
  - intros a Ha. destruct (decide (a = s)) as [->|]; [done|]. apply IH. lia.
Qed.

Lemma argptr_range n size a :
  0 <= size < 2 ^ 31 -> argptr n size p = Some a -> 0 <= a < u_sz p /\ a + size <= u_sz p.
Proof.
  intros Hs. unfold argptr. destruct (argint n p) as [i|]; [|done].
  destruct (Z.ltb_spec size 0); [lia|]. cbn [orb]. pose proof (u32_range i).
  destruct (Z.leb_spec (u_sz p) (u32 i)); [done|]. cbn [orb]. rewrite (u32_small (u32 i + size)) by (unfold KERNBASE in *; lia).
  destruct (Z.ltb_spec (u_sz p) (u32 i + size)); [done|]. intros [= <-]. lia.
Qed.
End args.

(** A pointer argument never leaves the memory of the process: if [argptr]
    accepts [size] bytes at an address, all of them are below [myproc()->sz], in
    spite of the 32-bit sums of the checks; a negative size, an address outside
    or an end outside is refused. *)
Theorem argptr_in_bounds p n size i :
  0 <= u_sz p <= KERNBASE -> - 2 ^ 31 <= size < 2 ^ 31 -> argint n p = Some i ->
  argptr n size p =
    (if decide (0 <= size /\ u32 i < u_sz p /\ u32 i + size <= u_sz p) then Some (u32 i) else None).
Proof.
  intros Hsz Hs Hi. unfold argptr. rewrite Hi. pose proof (u32_range i).
  destruct (Z.ltb_spec size 0); cbn [orb]; [by rewrite decide_False by lia|].
  destruct (Z.leb_spec (u_sz p) (u32 i)); cbn [orb]; [by rewrite decide_False by lia|].
  rewrite (u32_small (u32 i + size)) by (unfold KERNBASE in *; lia).
  destruct (Z.ltb_spec (u_sz p) (u32 i + size)); [by rewrite decide_False by lia|by rewrite decide_True by lia].
Qed.

(** A string argument is the string: if [fetchstr] accepts an address, the
    string ends below [myproc()->sz], and it refuses the address exactly if that
    is outside or no byte up to [myproc()->sz] is 0. *)
Theorem fetchstr_correct p addr :
  0 <= u_sz p <= KERNBASE -> 0 <= addr ->
  match fetchstr addr p with
  | Some l => addr + Z.of_nat (length l) < u_sz p /\ u_mem p (addr + Z.of_nat (length l)) = 0 /\
      l = uload p addr (Z.of_nat (length l)) /\ (0 ∉ l)
  | None => forall a, addr <= a < u_sz p -> u_mem p a <> 0
  end.
Proof.
  intros Hsz Ha. unfold fetchstr. destruct (Z.leb_spec (u_sz p) addr); [intros a; lia|].
  apply fetchstr_loop_spec; [done|lia].
Qed.

(** A process of 8 kilobytes whose stack holds the address 4096 and whose
    memory holds "ab" there. *)
Definition demo_uproc : uproc :=
  Uproc 8192 8000 (ustores (fun _ => 0) 4096 [97; 98; 0]).
Definition demo_stack : uproc := set_u_mem (ustores (u_mem demo_uproc) 8004 [0; 16; 0; 0]) demo_uproc.

Lemma argptr_in_bounds_witness :
  argptr 0 4096 demo_stack = Some 4096 /\ argptr 0 4097 demo_stack = None.
Proof.
  split; (rewrite (argptr_in_bounds demo_stack 0 _ 4096); [|by vm_compute..]);
    [by rewrite decide_True by (vm_compute; done)|by rewrite decide_False by (vm_compute; intros [? []]; done)].
Defined.

Lemma fetchstr_correct_witness :
  match fetchstr 4096 demo_stack with
  | Some l => 4096 + Z.of_nat (length l) < u_sz demo_stack /\ u_mem demo_stack (4096 + Z.of_nat (length l)) = 0 /\
      l = uload demo_stack 4096 (Z.of_nat (length l)) /\ (0 ∉ l)
  | None => forall a, 4096 <= a < u_sz demo_stack -> u_mem demo_stack a <> 0
  end.
Proof. exact (fetchstr_correct demo_stack 4096 ltac:(vm_compute; split; discriminate) ltac:(lia)). Defined.
