(* ===== verification/Sysfile.v ===== *)
(** The system calls on files ([sysfile.c]), on their arguments, the open
    files and the file system.  -1 is the error result. *)

From S2P Require Import Prelude Layout CString Bytes Bio Block Log Fs Pipe File Syscall.

Definition O_RDONLY : Z := 0.
Definition O_WRONLY : Z := 1.
Definition O_RDWR : Z := 2.
Definition O_CREATE : Z := 512.
Definition MAXARG : nat := 32.

(** [struct stat] in memory. *)
Definition sizeof_stat : Z := 20.
Definition stat_fields (st : stat) : list (Z * list Z) :=
  [(0, le16 (st_type st)); (4, le32 (st_dev st)); (8, le32 (st_ino st)); (12, le16 (st_nlink st)); (16, le32 (st_size st))].

Section sysfile.
Context {St : Type} `{blocks St}.
Context (dev_read : Z -> option (nat -> Z -> F (St := St) (Z * list Z)))
        (dev_write : Z -> option (nat -> list Z -> Z -> F (St := St) Z)).

Record sys := Sys { y_files : fls (St := St); y_user : uproc }.
Definition set_y_files (v : fls) (s : sys) : sys := Sys v (y_user s).
Definition set_y_user (v : uproc) (s : sys) : sys := Sys (y_files s) v.

Definition Y (A : Type) : Type := M sys A.
Definition on_files {A} (m : K A) : Y A := zoom y_files set_y_files m.
Definition on_ {A} (m : F A) : Y A := on_files (on_fs m).

(** An argument, fetched from the caller's memory. *)
Definition arg {A} (g : uproc -> option A) : Y (option A) := gets (fun s => g (y_user s)).
Definition ustore (a : Z) (bs : list Z) : Y () :=
  modify (fun s => set_y_user (set_u_mem (ustores (u_mem (y_user s)) a bs) (y_user s)) s).

(** ** File descriptors *)

Definition argfd (n : Z) : Y (option (Z * nat)) :=
  fd ← arg (argint n);
  match fd with
  | None => ret None
  | Some fd =>
      if (fd <? 0) || (Z.of_nat NOFILE <=? fd) then ret None else
      l ← gets (fun s => ofile (y_files s));
      o ← deref "ofile" (l !! Z.to_nat fd);
      match o with
      | None => ret None
      | Some f => ret (Some (fd, f))
      end
  end.

(** The first free descriptor. *)
Fixpoint free_fd (l : list (option nat)) (i : nat) : option nat :=
  match l with
  | [] => None
  | None :: _ => Some i
  | Some _ :: l => free_fd l (S i)
  end.
Definition set_fd (fd : nat) (v : option nat) : Y () :=
  modify (fun s => set_y_files (set_ofile (<[fd := v]> (ofile (y_files s))) (y_files s)) s).
Definition fdalloc (f : nat) : Y (option nat) :=
  l ← gets (fun s => ofile (y_files s));
  match free_fd l 0 with
  | None => ret None
  | Some fd => set_fd fd (Some f);; ret (Some fd)
  end.

Definition sys_dup : Y Z :=
  o ← argfd 0;
  match o with
  | None => ret (-1)
  | Some (_, f) =>
      o ← fdalloc f;
      match o with
      | None => ret (-1)
      | Some fd => on_files (filedup f);; ret (Z.of_nat fd)
      end
  end.

(** The descriptor, the pointer and the length of [read] and [write]. *)
Definition rw_args : Y (option (nat * Z * Z)) :=
  o ← argfd 0;
  n ← arg (argint 2);
  match o, n with
  | Some (_, f), Some n =>
      p ← arg (argptr 1 n);
      match p with
      | None => ret None
      | Some p => ret (Some (f, p, n))
      end
  | _, _ => ret None
  end.
Definition sys_read : Y Z :=
  o ← rw_args;
  match o with
  | None => ret (-1)
  | Some (f, p, n) =>
      '(r, bs) ← on_files (fileread dev_read f n);
      ustore p bs;;
      ret r
  end.
Definition sys_write : Y Z :=
  o ← rw_args;
  match o with
  | None => ret (-1)
  | Some (f, p, n) =>
      u ← gets y_user;
      on_files (filewrite dev_write f (uload u p n) n)
  end.

Definition sys_close : Y Z :=
  o ← argfd 0;
  match o with
  | None => ret (-1)
  | Some (fd, f) =>
      set_fd (Z.to_nat fd) None;;
      on_files (fileclose f);;
      ret 0
  end.

Fixpoint store_fields (a : Z) (l : list (Z * list Z)) : Y () :=
  match l with
  | [] => ret ()
  | (o, bs) :: l => ustore (a + o) bs;; store_fields a l
  end.
Definition sys_fstat : Y Z :=
  o ← argfd 0;
  p ← arg (argptr 1 sizeof_stat);
  match o, p with
  | Some (_, f), Some p =>
      st ← on_files (filestat f);
      match st with
      | None => ret (-1)
      | Some st => store_fields p (stat_fields st);; ret 0
      end
  | _, _ => ret (-1)
  end.

(** ** Links *)

(** [bad] of [sys_link]: take the new link back. *)
Definition link_bad (ip : nat) : F Z :=
  ilock ip;;
  updi ip (fun x => set_i_nlink (s16 (i_nlink x - 1)) x);;
  iupdate ip;;
  iunlockput ip;;
  end_op_;;
  ret (-1).
(** [sys_link] after its arguments. *)
Definition do_link (old new : list Z) : F Z :=
  begin_op_;;
  o ← namei dev_read old;
  match o with
  | None => end_op_;; ret (-1)
  | Some ip =>
      ilock ip;;
      x ← geti ip;
      if i_type x =? T_DIR then iunlockput ip;; end_op_;; ret (-1) else
      updi ip (fun x => set_i_nlink (s16 (i_nlink x + 1)) x);;
      iupdate ip;;
      iunlock ip;;
      o ← nameiparent dev_read new;
      match o with
      | None => link_bad ip
      | Some (dp, name) =>
          ilock dp;;
          d ← geti dp;
          x ← geti ip;
          r ← (if negb (i_dev d =? i_dev x) then ret (-1) else dirlink dev_read dev_write dp name (i_inum x));
          if r <? 0 then iunlockput dp;; link_bad ip else
          iunlockput dp;;
          iput ip;;
          end_op_;;
          ret 0
      end
  end.
Definition sys_link : Y Z :=
  old ← arg (argstr 0);
  new ← arg (argstr 1);
  match old, new with
  | Some old, Some new => on_ (do_link old new)
  | _, _ => ret (-1)
  end.
(** [isdirempty]: no entry after the first two is in use. *)
Fixpoint isdirempty_loop (fuel : nat) (dp : nat) (off : Z) : F bool :=
  match fuel with
  | O => spin
  | S fuel =>
      x ← geti dp;
      if off <? i_size x then
        de ← read_dirent dev_read "isdirempty: readi" dp off;
        if negb (de_inum de =? 0) then ret false
        else isdirempty_loop fuel dp (off + sizeof_dirent)
      else ret true
  end.
Definition isdirempty (dp : nat) : F bool :=
  x ← geti dp;
  isdirempty_loop (S (Z.to_nat (i_size x / sizeof_dirent + 1))) dp (2 * sizeof_dirent).

Definition DOT : list Z := [46].
Definition DOTDOT : list Z := [46; 46].

(** [bad] of [sys_unlink]. *)
Definition unlink_bad (dp : nat) : F Z := iunlockput dp;; end_op_;; ret (-1).
Definition do_unlink (path : list Z) : F Z :=
  begin_op_;;
  o ← nameiparent dev_read path;
  match o with
  | None => end_op_;; ret (-1)
  | Some (dp, name) =>
      ilock dp;;
      if namecmp name DOT || namecmp name DOTDOT then unlink_bad dp else
      o ← dirlookup dev_read dp name;
      match o with
      | None => unlink_bad dp
      | Some (ip, off) =>
          ilock ip;;
          x ← geti ip;
          if i_nlink x <? 1 then panic "unlink: nlink < 1" else
          e ← (if i_type x =? T_DIR then isdirempty ip else ret true);
          if negb e then iunlockput ip;; unlink_bad dp else
          r ← writei dev_write dp (replicate (Z.to_nat sizeof_dirent) 0) off sizeof_dirent;
          if negb (r =? sizeof_dirent) then panic "unlink: writei" else
          x ← geti ip;
          when (i_type x =? T_DIR) (
            updi dp (fun d => set_i_nlink (s16 (i_nlink d - 1)) d);;
            iupdate dp);;
          iunlockput dp;;
          updi ip (fun x => set_i_nlink (s16 (i_nlink x - 1)) x);;
          iupdate ip;;
          iunlockput ip;;
          end_op_;;
          ret 0
      end
  end.
Definition sys_unlink : Y Z :=
  path ← arg (argstr 0);
  match path with
  | None => ret (-1)
  | Some path => on_ (do_unlink path)
  end.

(** ** Creating and opening *)

Definition create (path : list Z) (type major minor : Z) : F (option nat) :=
  o ← nameiparent dev_read path;
  match o with
  | None => ret None
  | Some (dp, name) =>
      ilock dp;;
      o ← dirlookup dev_read dp name;
      match o with
      | Some (ip, _) =>
          iunlockput dp;;
          ilock ip;;
          x ← geti ip;
          if (type =? T_FILE) && (i_type x =? T_FILE) then ret (Some ip)
          else iunlockput ip;; ret None
      | None =>
          d ← geti dp;
          ip ← ialloc (i_dev d) type;
          ilock ip;;
          updi ip (fun x => set_i_nlink 1 (set_i_majmin major minor x));;
          iupdate ip;;
          x ← geti ip;
          when (type =? T_DIR) (
            updi dp (fun d => set_i_nlink (s16 (i_nlink d + 1)) d);;
            iupdate dp;;
            r1 ← dirlink dev_read dev_write ip DOT (i_inum x);
            if r1 <? 0 then panic "create dots" else
            d ← geti dp;
            r2 ← dirlink dev_read dev_write ip DOTDOT (i_inum d);
            if r2 <? 0 then panic "create dots" else ret ());;
          r ← dirlink dev_read dev_write dp name (i_inum x);
          if r <? 0 then panic "create: dirlink" else
          iunlockput dp;;
          ret (Some ip)
      end
  end.

(** The inode [sys_open] opens, locked. *)
Definition open_ip (path : list Z) (omode : Z) : F (option nat) :=
  if negb (Z.land omode O_CREATE =? 0) then create path T_FILE 0 0
  else
    o ← namei dev_read path;
    match o with
    | None => ret None
    | Some ip =>
        ilock ip;;
        x ← geti ip;
        if (i_type x =? T_DIR) && negb (omode =? O_RDONLY) then iunlockput ip;; ret None
        else ret (Some ip)
    end.
Definition do_open (path : list Z) (omode : Z) : Y Z :=
  on_ begin_op_;;
  o ← on_ (open_ip path omode);
  match o with
  | None => on_ end_op_;; ret (-1)
  | Some ip =>
      f ← on_files filealloc;
      fd ← (match f with None => ret None | Some f => fdalloc f end);
      match f, fd with
      | Some f, Some fd =>
          on_ (iunlock ip);;
          on_ end_op_;;
          on_files (updf f (fun x => File FD_INODE (f_ref x)
            (if Z.land omode O_WRONLY =? 0 then 1 else 0)
            (if negb (Z.land omode O_WRONLY =? 0) || negb (Z.land omode O_RDWR =? 0) then 1 else 0)
            (f_pipe x) ip 0));;
          ret (Z.of_nat fd)
      | _, _ =>
          (match f with Some f => on_files (fileclose f) | None => ret () end);;
          on_ (iunlockput ip);;
          on_ end_op_;;
          ret (-1)
      end
  end.
Definition sys_open : Y Z :=
  path ← arg (argstr 0);
  omode ← arg (argint 1);
  match path, omode with
  | Some path, Some omode => do_open path omode
  | _, _ => ret (-1)
  end.

(** [sys_mkdir] and [sys_mknod] after their arguments; the transaction is
    open already. *)
Definition make (o : option (list Z * Z * Z * Z)) : F Z :=
  ip ← (match o with
        | None => ret None
        | Some (path, type, major, minor) => create path type (s16 major) (s16 minor)
        end);
  match ip with
  | None => end_op_;; ret (-1)
  | Some ip => iunlockput ip;; end_op_;; ret 0
  end.
Definition sys_mkdir : Y Z :=
  on_ begin_op_;;
  path ← arg (argstr 0);
  on_ (make (match path with Some path => Some (path, T_DIR, 0, 0) | None => None end)).
Definition sys_mknod : Y Z :=
  on_ begin_op_;;
  path ← arg (argstr 0);
  major ← arg (argint 1);
  minor ← arg (argint 2);
  on_ (make (match path, major, minor with
             | Some path, Some major, Some minor => Some (path, T_DEV, major, minor)
             | _, _, _ => None
             end)).

Definition do_chdir (path : option (list Z)) : F Z :=
  begin_op_;;
  o ← (match path with None => ret None | Some path => namei dev_read path end);
  match o with
  | None => end_op_;; ret (-1)
  | Some ip =>
      ilock ip;;
      x ← geti ip;
      if negb (i_type x =? T_DIR) then iunlockput ip;; end_op_;; ret (-1) else
      iunlock ip;;
      c ← gets cwd;
      iput c;;
      end_op_;;
      modify (set_cwd ip);;
      ret 0
  end.
Definition sys_chdir : Y Z := path ← arg (argstr 0); on_ (do_chdir path).

(** The arguments of [exec]: the path and the strings of [argv]. *)
Fixpoint exec_args (fuel : nat) (uargv : Z) (p : uproc) : option (list (list Z)) :=
  match fuel with
  | O => None
  | S fuel =>
      match fetchint uargv p with
      | None => None
      | Some uarg =>
          if uarg =? 0 then Some [] else
          match fetchstr (u32 uarg) p, exec_args fuel (u32 (uargv + 4)) p with
          | Some s, Some l => Some (s :: l)
          | _, _ => None
          end
      end
  end.
Definition sys_exec_args (p : uproc) : option (list Z * list (list Z)) :=
  match argstr 0 p, argint 1 p with
  | Some path, Some uargv =>
      match exec_args MAXARG (u32 uargv) p with
      | Some l => Some (path, l)
      | None => None
      end
  | _, _ => None
  end.

Definition sys_pipe : Y Z :=
  p ← arg (argptr 0 8);
  match p with
  | None => ret (-1)
  | Some p =>
      o ← on_files pipealloc;
      match o with
      | None => ret (-1)
      | Some (rf, wf) =>
          fd0 ← fdalloc rf;
          fd1 ← (match fd0 with None => ret None | Some _ => fdalloc wf end);
          match fd0, fd1 with
          | Some fd0, Some fd1 =>
              ustore p (le32 (Z.of_nat fd0));;
              ustore (p + 4) (le32 (Z.of_nat fd1));;
              ret 0
          | _, _ =>
              (match fd0 with Some fd0 => set_fd fd0 None | None => ret () end);;
              on_files (fileclose rf);;
              on_files (fileclose wf);;
              ret (-1)
          end
      end
  end.
End sysfile.
