(* ===== verification/SysfileThms.v ===== *)
(** Reference counts of open files: every system call keeps [f->ref] equal to
    the number of descriptors that name the file. *)

From S2P Require Import Prelude Layout CString Bytes Bio Block Log LogThms LogBlocks Fs Pipe File FsThms FileThms Syscall Sysfile.

(** How many descriptors name file [f]. *)
Fixpoint fd_count (l : list (option nat)) (f : nat) : Z :=
  match l with
  | [] => 0
  | Some g :: l => (if decide (g = f) then 1 else 0) + fd_count l f
  | None :: l => fd_count l f
  end.

Lemma fd_count_nonneg l f : 0 <= fd_count l f.
Proof. induction l as [|[g|] l IH]; cbn; [lia|case_decide; lia|done]. Qed.

Lemma fd_count_insert l fd o o' f :
  l !! fd = Some o ->
  fd_count (<[fd := o']> l) f = fd_count l f - (if decide (o = Some f) then 1 else 0) + (if decide (o' = Some f) then 1 else 0).
Proof.
  revert fd. induction l as [|p l IH]; intros [|fd] Hl; [done..| |].
  - injection Hl as ->. cbn. destruct o as [g|], o' as [h|]; repeat case_decide; simplify_eq; try lia; done.
  - change (<[S fd := o']> (p :: l)) with (p :: <[fd := o']> l). cbn [fd_count]. rewrite (IH fd Hl). destruct p; lia.
Qed.

Lemma fd_count_in l fd f : l !! fd = Some (Some f) -> 1 <= fd_count l f.
Proof.
  revert fd. induction l as [|p l IH]; intros [|fd] Hl; [done..| |].
  - injection Hl as ->. cbn. rewrite decide_True by done. pose proof (fd_count_nonneg l f). lia.
  - cbn in Hl |- *. specialize (IH fd Hl). destruct p; [case_decide|]; lia.
Qed.

Lemma free_fd_spec l i fd : free_fd l i = Some fd -> exists k, fd = (i + k)%nat /\ l !! k = Some None.
Proof.
  revert i. induction l as [|[g|] l IH]; intros i Hf; cbn in Hf; [done| |].
  - destruct (IH _ Hf) as (k & -> & Hk). exists (S k). split; [lia|done].
  - injection Hf as <-. exists O. split; [lia|done].
Qed.

Lemma free_file_spec l i f : free_file l i = Some f -> exists k fe, f = (i + k)%nat /\ l !! k = Some fe /\ f_ref fe = 0.
Proof.
  revert i. induction l as [|g l IH]; intros i Hf; cbn in Hf; [done|].
  destruct (Z.eqb_spec (f_ref g) 0) as [Hz|Hz].
  - injection Hf as <-. exists O, g. split_and!; [lia|done|done].
  - destruct (IH _ Hf) as (k & fe & -> & Hk & Hr). exists (S k), fe. split_and!; [lia|done|done].
Qed.

Section refs.
Context {St : Type} `{blocks St}.
Abbreviation fls := (@File.fls St).
Context (dev_read : Z -> option (nat -> Z -> F (St := St) (Z * list Z)))
        (dev_write : Z -> option (nat -> list Z -> Z -> F (St := St) Z)).
(** Descriptors of other processes, and the size of the table. *)
Context (others : nat -> Z) (nfile : nat).

(** Every count is the number of descriptors, up to [delta], which is what the
    call in progress holds or owes. *)
Record refs_up_to (delta : nat -> Z) (s : fls) : Prop := Refs {
  rf_count : forall f fe, ftable s !! f = Some fe -> f_ref fe = others f + fd_count (ofile s) f + delta f;
  rf_len : length (ftable s) = nfile;
  rf_valid : forall fd f, ofile s !! fd = Some (Some f) -> (f < nfile)%nat
}.
Definition refs : fls -> Prop := refs_up_to (fun _ => 0).

Lemma refs_ext d d' s : (forall i, d i = d' i) -> refs_up_to d s -> refs_up_to d' s.
Proof. intros Hd [H1 H2 H3]. constructor; [|done|done]. intros f fe Hf. rewrite (H1 f fe Hf), Hd. done. Qed.

Lemma inv_on_fs {A} d (m : F A) : keeps_inv (refs_up_to d) (on_fs m).
Proof. intros s [H1 H2 H3]. unfold leads, on_fs, zoom. destruct (m (k_fs s)) as [[a t]| | |]; try done. Qed.

Lemma inv_on_pipe {A} d p (c : psys -> outcome (A * psys)) : keeps_inv (refs_up_to d) (on_pipe p c).
Proof.
  intros s [H1 H2 H3]. unfold leads, on_pipe. destruct (pstore (k_pipes s) !! p) as [q|]; [|done].
  destruct (pfreed q); [done|]. by destruct (c q) as [[a q']| | |].
Qed.

(** A change of one file of the table. *)
Lemma updf_refs d f g n s :
  refs_up_to d s -> (forall fe, ftable s !! f = Some fe -> f_ref (g fe) = f_ref fe + n) ->
  leads (updf f g) s (fun _ s' => refs_up_to (more f n d) s' /\ (f < nfile)%nat).
Proof.
  intros [H1 H2 H3] Hg. unfold leads, updf, getf, bind, gets. destruct (ftable s !! f) as [fe|] eqn:Hf; [|done].
  cbn. assert (Hlt := lookup_lt_Some _ _ _ Hf). split; [|by rewrite <- H2]. constructor; cbn.
  - intros i fe' [(<- & <- & _)|[Hne Hi]]%list_lookup_insert_Some.
    + rewrite (Hg fe eq_refl), (H1 f fe Hf). unfold more. rewrite decide_True by done. lia.
    + rewrite (H1 i fe' Hi). unfold more. rewrite decide_False by done. lia.
  - by rewrite length_insert.
  - done.
Qed.

Lemma inv_updf d f g : (forall fe, f_ref (g fe) = f_ref fe) -> keeps_inv (refs_up_to d) (updf f g).
Proof.
  intros Hg s Hs. eapply leads_mono; [apply (updf_refs d f g 0 s Hs); intros fe _; rewrite Hg; lia|].
  intros [] s' [Hs' _]. eapply refs_ext; [|exact Hs']. intros i. unfold more. case_decide; lia.
Qed.

Lemma filealloc_refs d s :
  refs_up_to d s ->
  leads filealloc s (fun o s' => match o with
    | Some f => refs_up_to (more f 1 d) s' /\ (f < nfile)%nat
    | None => refs_up_to d s' end).
Proof.
  intros Hs. unfold filealloc. apply leads_bind. cbn. destruct (free_file (ftable s) 0) as [f|] eqn:Hf; [|done].
  apply free_file_spec in Hf as (k & fe & -> & Hk & Hr). apply leads_bind.
  eapply leads_mono; [apply (updf_refs d k (set_f_ref 1) 1 s Hs)|].
  - intros fe'. rewrite Hk. intros [= <-]. cbn. lia.
  - intros [] s' Hs'. exact Hs'.
Qed.

Lemma filedup_refs d f s : refs_up_to d s -> leads (filedup f) s (fun _ s' => refs_up_to (more f 1 d) s').
Proof.
  intros Hs. unfold filedup. apply leads_bind. unfold getf. apply leads_bind. cbn.
  destruct (ftable s !! f) as [fe|] eqn:Hf; [|done]. cbn. destruct (f_ref fe <? 1); [done|]. apply leads_bind.
  eapply leads_mono; [apply (updf_refs d f _ 1 s Hs)|].
  - intros fe'. rewrite Hf. intros [= <-]. done.
  - by intros [] s' [Hs' _].
Qed.

Lemma fileclose_refs d f s : refs_up_to d s -> leads (fileclose f) s (fun _ s' => refs_up_to (more f (-1) d) s').
Proof.
  intros Hs. unfold fileclose. apply leads_bind. unfold getf. apply leads_bind. cbn.
  destruct (ftable s !! f) as [fe|] eqn:Hf; [|done]. cbn. destruct (Z.ltb_spec (f_ref fe) 1) as [|Hr]; [done|].
  destruct (Z.ltb_spec 0 (f_ref fe - 1)) as [Hr2|Hr2].
  - eapply leads_mono; [apply (updf_refs d f _ (-1) s Hs)|by intros [] s' [? _]].
    intros fe'. rewrite Hf. intros [= <-]. cbn. lia.
  - apply leads_bind. eapply leads_mono; [apply (updf_refs d f _ (-1) s Hs)|].
    + intros fe'. rewrite Hf. intros [= <-]. cbn. lia.
    + intros [] s' [Hs' _]. destruct (f_type fe); [done|by apply inv_on_pipe|].
      apply (inv_bind (refs_up_to (more f (-1) d))); [apply inv_on_fs| |done]. intros _.
      apply inv_bind; [apply inv_on_fs|intros _; apply inv_on_fs].
Qed.

Lemma inv_set_pipes d (g : fls -> pipes) : keeps_inv (refs_up_to d) (modify (fun s => set_k_pipes (g s) s)).
Proof. by intros s []. Qed.

Lemma inv_kalloc_page d : keeps_inv (refs_up_to d) kalloc_page.
Proof.
  unfold kalloc_page. apply inv_bind; [apply inv_gets|]. intros p. destruct (ppages p); [apply inv_ret|].
  apply inv_bind; [apply (inv_set_pipes d (fun _ => _))|intros _; apply inv_ret].
Qed.

Lemma pipealloc_refs d s :
  refs_up_to d s ->
  leads pipealloc s (fun o s' => match o with
    | Some (f0, f1) => refs_up_to (more f1 1 (more f0 1 d)) s' /\ (f0 < nfile)%nat /\ (f1 < nfile)%nat
    | None => refs_up_to d s' end).
Proof.
  intros Hs. unfold pipealloc. apply leads_bind. eapply leads_mono; [by apply (filealloc_refs d s)|].
  intros [f0|] s1 H1; [|done]. destruct H1 as [H1 L1]. apply leads_bind.
  eapply leads_mono; [by apply (filealloc_refs _ s1 H1)|]. intros [f1|] s2 H2.
  2: { apply leads_bind. eapply leads_mono; [by apply (fileclose_refs _ f0 s2 H2)|]. intros [] s3 H3.
       eapply refs_ext; [apply more_cancel|exact H3]. }
  destruct H2 as [H2 L2]. apply leads_bind. eapply leads_mono; [by apply (inv_kalloc_page _ s2 H2)|].
  intros [] s3 H3; cbn [negb].
  2: { apply leads_bind. eapply leads_mono; [by apply (fileclose_refs _ f0 s3 H3)|]. intros [] s4 H4.
       apply leads_bind. eapply leads_mono; [by apply (fileclose_refs _ f1 s4 H4)|]. intros [] s5 H5.
       eapply refs_ext; [|exact H5]. intros i. unfold more. repeat case_decide; lia. }
  apply leads_bind. eapply leads_mono; [by apply (inv_gets _ _ s3 H3)|]. intros p s4 H4.
  apply leads_bind. eapply leads_mono; [apply (inv_set_pipes _ _ s4 H4)|]. intros [] s5 H5.
  apply leads_bind. eapply leads_mono; [apply (inv_updf (more f1 1 (more f0 1 d)) f0); [done|exact H5]|]. intros [] s6 H6.
  apply leads_bind. eapply leads_mono; [apply (inv_updf (more f1 1 (more f0 1 d)) f1); [done|exact H6]|]. intros [] s7 H7. done.
Qed.

(** ** The calls *)

Abbreviation sys := (@Sysfile.sys St).
Definition sys_refs (d : nat -> Z) (s : sys) : Prop := refs_up_to d (y_files s).

Lemma leads_on_files {A} (m : K A) s (Q : A -> fls -> Prop) :
  leads m (y_files s) Q -> leads (on_files m) s (fun a s' => Q a (y_files s')).
Proof. unfold leads, on_files, zoom. by destruct (m (y_files s)) as [[a t]| | |]. Qed.

Lemma inv_on_files {A} d (m : K A) : keeps_inv (refs_up_to d) m -> keeps_inv (sys_refs d) (on_files m).
Proof. intros Hm s Hs. apply (leads_on_files m s (fun _ => refs_up_to d)). by apply Hm. Qed.

Lemma inv_on {A} d (m : F A) : keeps_inv (sys_refs d) (on_ m).
Proof. apply inv_on_files, inv_on_fs. Qed.
Lemma inv_arg {A} d (g : uproc -> option A) : keeps_inv (sys_refs d) (arg g).
Proof. apply inv_gets. Qed.
Lemma inv_ustore d a bs : keeps_inv (sys_refs d) (ustore a bs).
Proof. by intros s Hs. Qed.

(** Changing a descriptor. *)
Lemma set_fd_refs d fd o o' s :
  sys_refs d s -> ofile (y_files s) !! fd = Some o -> (forall f, o' = Some f -> (f < nfile)%nat) ->
  leads (set_fd fd o') s (fun _ s' => sys_refs (fun i => d i + (if decide (o = Some i) then 1 else 0) -
    (if decide (o' = Some i) then 1 else 0)) s').
Proof.
  intros [H1 H2 H3] Hfd Ho'. unfold leads, set_fd. cbn. constructor; cbn; [|done|].
  - intros f fe Hf. rewrite (H1 f fe Hf), (fd_count_insert _ _ _ _ _ Hfd). lia.
  - intros i f [(-> & -> & _)|[_ Hi]]%list_lookup_insert_Some; [by apply Ho'|by apply (H3 i)].
Qed.

Lemma fdalloc_refs d f s :
  sys_refs d s -> (f < nfile)%nat ->
  leads (fdalloc f) s (fun o s' => match o with
    | Some fd => sys_refs (more f (-1) d) s' /\ ofile (y_files s') !! fd = Some (Some f)
    | None => s' = s end).
Proof.
  intros Hs Hf. unfold fdalloc. apply leads_bind. cbn. destruct (free_fd (ofile (y_files s)) 0) as [fd|] eqn:Hfd; [|done].
  apply free_fd_spec in Hfd as (k & -> & Hk). cbn [Nat.add]. apply leads_bind.
  assert (Hl := set_fd_refs d k None (Some f) s Hs Hk ltac:(by intros ? [= <-])). unfold leads, set_fd in *. cbn in *. split.
  - eapply refs_ext; [|exact Hl]. intros i. unfold more. rewrite decide_False by done.
    destruct (decide (i = f)) as [->|Hne]; [rewrite decide_True by done; lia|rewrite decide_False by congruence; lia].
  - apply list_lookup_insert_eq. by eapply lookup_lt_Some.
Qed.

(** What [argfd] finds. *)
Lemma argfd_refs d n s :
  sys_refs d s ->
  leads (argfd n) s (fun o s' => s' = s /\ match o with
    | Some (fd, f) => ofile (y_files s) !! Z.to_nat fd = Some (Some f) /\ (f < nfile)%nat
    | None => True end).
Proof.
  intros [_ _ H3]. unfold argfd. apply leads_bind. cbn. destruct (argint n (y_user s)) as [fd|]; [|done].
  destruct ((fd <? 0) || _); [done|]. apply leads_bind. cbn. apply leads_bind.
  destruct (ofile (y_files s) !! Z.to_nat fd) as [[f|]|] eqn:Hfd; [|done|done]. cbn. split; [done|]. split; [done|by apply (H3 (Z.to_nat fd))].
Qed.

Lemma inv_argfd d n : keeps_inv (sys_refs d) (argfd n).
Proof. intros s Hs. eapply leads_mono; [by apply (argfd_refs d n s)|]. by intros o s' [-> _]. Qed.

Hint Resolve inv_on_fs inv_on_pipe inv_on_files inv_on inv_arg inv_ustore inv_argfd : inv.
Hint Extern 1 (keeps_inv _ (updf _ _)) => apply inv_updf; done : inv.

Lemma inv_getf d f : keeps_inv (refs_up_to d) (getf f).
Proof. unfold getf. solve_inv. Qed.
Hint Resolve inv_getf : inv.

Lemma inv_fileread d f n : keeps_inv (refs_up_to d) (fileread dev_read f n).
Proof. unfold fileread, piperead_. solve_inv. Qed.

Lemma inv_filewrite_chunk d f addr n : keeps_inv (refs_up_to d) (filewrite_chunk dev_write f addr n).
Proof. unfold filewrite_chunk. solve_inv. Qed.
Hint Resolve inv_filewrite_chunk : inv.

Lemma inv_filewrite d f addr n : keeps_inv (refs_up_to d) (filewrite dev_write f addr n).
Proof.
  assert (Hl : forall fuel i, keeps_inv (refs_up_to d) (filewrite_loop dev_write fuel f addr n i)).
  { induction fuel as [|fuel IH]; intros i; cbn [filewrite_loop]; solve_inv. }
  unfold filewrite, pipewrite_. solve_inv.
Qed.

Lemma inv_filestat d f : keeps_inv (refs_up_to d) (filestat f).
Proof. unfold filestat. solve_inv. Qed.

Lemma inv_rw_args d : keeps_inv (sys_refs d) rw_args.
Proof. unfold rw_args. solve_inv. Qed.
Hint Resolve inv_fileread inv_filewrite inv_filestat inv_rw_args : inv.

Lemma inv_store_fields d a l : keeps_inv (sys_refs d) (store_fields a l).
Proof. induction l as [|[o bs] l IH]; cbn [store_fields]; solve_inv. Qed.
Hint Resolve inv_store_fields : inv.

(** The calls that neither open nor close. *)
Lemma inv_plain_calls d :
  Forall (keeps_inv (sys_refs d)) [sys_read dev_read; sys_write dev_write; sys_fstat;
    sys_link dev_read dev_write; sys_unlink dev_read dev_write; sys_mkdir dev_read dev_write;
    sys_mknod dev_read dev_write; sys_chdir dev_read].
Proof.
  repeat apply Forall_cons_2; [..|apply Forall_nil_2];
    unfold sys_read, sys_write, sys_fstat, sys_link, sys_unlink, sys_mkdir, sys_mknod, sys_chdir; solve_inv.
Qed.

Lemma inv_dup d : keeps_inv (sys_refs d) sys_dup.
Proof.
  intros s Hs. unfold sys_dup. apply leads_bind. eapply leads_mono; [by apply (argfd_refs d 0 s)|].
  intros [[fd f]|] s1 [-> Hf]; [|done]. destruct Hf as [_ Hf].
  apply leads_bind. eapply leads_mono; [apply (fdalloc_refs d f s Hs Hf)|]. intros [fd'|] s2 H2; [|by rewrite H2]. destruct H2 as [H2 _].
  apply leads_bind. eapply leads_mono; [apply leads_on_files; apply (filedup_refs _ f _ H2)|]. intros f' s3 H3.
  eapply refs_ext; [|exact H3]. intros i. unfold more. case_decide; lia.
Qed.

Lemma inv_close d : keeps_inv (sys_refs d) sys_close.
Proof.
  intros s Hs. unfold sys_close. apply leads_bind. eapply leads_mono; [by apply (argfd_refs d 0 s)|].
  intros [[fd f]|] s1 [-> Hf]; [|done]. destruct Hf as [Hfd Hf].
  apply leads_bind. eapply leads_mono; [by apply (set_fd_refs d _ (Some f) None s Hs Hfd)|]. intros [] s2 H2.
  apply leads_bind. eapply leads_mono; [apply leads_on_files; apply (fileclose_refs _ f _ H2)|]. intros [] s3 H3.
  eapply refs_ext; [|exact H3]. intros i. unfold more. repeat case_decide; simplify_eq; lia.
Qed.

Lemma inv_pipe d : keeps_inv (sys_refs d) sys_pipe.
Proof.
  intros s Hs. unfold sys_pipe. apply leads_bind. cbn. destruct (argptr 0 8 (y_user s)) as [p|]; [|done].
  apply leads_bind. eapply leads_mono; [apply leads_on_files; apply (pipealloc_refs d _ Hs)|].
  intros [[rf wf]|] s1 H1; [|done]. destruct H1 as (H1 & L0 & L1).
  apply leads_bind. eapply leads_mono; [apply (fdalloc_refs _ rf s1 H1 L0)|]. intros [fd0|] s2 H2.
  2: { rewrite H2. do 2 (apply leads_bind; cbn). apply leads_bind. eapply leads_mono; [apply leads_on_files; apply (fileclose_refs _ rf _ H1)|]. intros [] s3 H3.
       apply leads_bind. eapply leads_mono; [apply leads_on_files; apply (fileclose_refs _ wf _ H3)|]. intros [] s4 H4.
       eapply refs_ext; [|exact H4]. intros i. unfold more. repeat case_decide; lia. }
  destruct H2 as [H2 Hfd0]. apply leads_bind. eapply leads_mono; [apply (fdalloc_refs _ wf s2 H2 L1)|]. intros [fd1|] s3 H3.
  - destruct H3 as [H3 _]. eapply refs_ext; [|exact H3].
    intros i. unfold more. repeat case_decide; lia.
  - rewrite H3. apply leads_bind. eapply leads_mono; [by apply (set_fd_refs _ fd0 (Some rf) None s2 H2 Hfd0)|]. intros [] s4 H4.
    apply leads_bind. eapply leads_mono; [apply leads_on_files; apply (fileclose_refs _ rf _ H4)|]. intros [] s5 H5.
    apply leads_bind. eapply leads_mono; [apply leads_on_files; apply (fileclose_refs _ wf _ H5)|]. intros [] s6 H6.
    eapply refs_ext; [|exact H6]. intros i. unfold more. repeat case_decide; simplify_eq; lia.
Qed.

Lemma inv_open d : keeps_inv (sys_refs d) (sys_open dev_read dev_write).
Proof.
  intros s Hs. unfold sys_open. apply leads_bind. cbn. apply leads_bind. cbn.
  destruct (argstr 0 (y_user s)) as [path|], (argint 1 (y_user s)) as [omode|]; try done.
  unfold do_open. apply leads_bind. eapply leads_mono; [by apply (inv_on d begin_op_ s)|]. intros [] s1 H1.
  apply leads_bind. eapply leads_mono; [apply (inv_on d _ s1 H1)|]. intros [ip|] s2 H2.
  2: { apply (inv_bind (sys_refs d)); [apply inv_on|intros _; apply inv_ret|exact H2]. }
  apply leads_bind. eapply leads_mono; [apply leads_on_files; apply (filealloc_refs d _ H2)|]. intros [f|] s3 H3.
  2: { do 2 (apply leads_bind; cbn). apply (inv_bind (sys_refs d)); [apply inv_on| |exact H3]. intros _.
       apply inv_bind; [apply inv_on|intros _; apply inv_ret]. }
  destruct H3 as [H3 L3]. apply leads_bind. eapply leads_mono; [apply (fdalloc_refs _ f s3 H3 L3)|]. intros [fd|] s4 H4.
  - destruct H4 as [H4 _]. eapply leads_mono; [apply (inv_bind (sys_refs (more f (-1) (more f 1 d)))); [| |exact H4]|].
    + apply inv_on.
    + intros _. apply inv_bind; [apply inv_on|]. intros _. apply inv_bind; [apply inv_on_files, inv_updf; done|intros _; apply inv_ret].
    + intros r s5 H5. eapply refs_ext; [apply more_cancel|exact H5].
  - rewrite H4. apply leads_bind. eapply leads_mono; [apply leads_on_files; apply (fileclose_refs _ f _ H3)|]. intros [] s5 H5.
    eapply leads_mono; [apply (inv_bind (sys_refs (more f (-1) (more f 1 d)))); [apply inv_on| |exact H5]|].
    + intros _. apply inv_bind; [apply inv_on|intros _; apply inv_ret].
    + intros r s6 H6. eapply refs_ext; [apply more_cancel|exact H6].
Qed.

(** The system calls of [sysfile.c] that come back. *)
Definition file_calls : list (@Y St Z) :=
  [sys_dup; sys_read dev_read; sys_write dev_write; sys_close; sys_fstat; sys_link dev_read dev_write;
   sys_unlink dev_read dev_write; sys_open dev_read dev_write; sys_mkdir dev_read dev_write;
   sys_mknod dev_read dev_write; sys_chdir dev_read; sys_pipe].

(** A process that runs: before each call it has changed its memory and its
    stack pointer as it likes. *)
Fixpoint run_calls (l : list (uproc * @Y St Z)) : @Y St () :=
  match l with
  | [] => ret ()
  | (u, call) :: l => modify (set_y_user u);; call;; run_calls l
  end.

Lemma inv_file_calls d call : call ∈ file_calls -> keeps_inv (sys_refs d) call.
Proof.
  assert (Hp := inv_plain_calls d). rewrite Forall_forall in Hp. unfold file_calls. rewrite !elem_of_cons, elem_of_nil.
  intros Hc. decompose [or] Hc; subst; try done;
    first [apply inv_dup|apply inv_close|apply inv_open|apply inv_pipe|apply Hp; set_solver].
Qed.

Lemma inv_run_calls d l : Forall (fun c => snd c ∈ file_calls) l -> keeps_inv (sys_refs d) (run_calls l).
Proof.
  induction 1 as [|[u call] l Hc _ IH]; cbn [run_calls]; [apply inv_ret|]. apply inv_bind; [by intros s|]. intros _.
  apply inv_bind; [by apply inv_file_calls|]. by intros _.
Qed.
End refs.

(** C17. Whatever system calls on files a process makes, with whatever
    arguments, the reference count of every open file stays the number of
    descriptors that name it, counting those of other processes, so a file in
    use is never recycled and one that is not in use is never kept; errors and
    failures half-way (no free descriptor, no file, no page for a pipe)
    included. *)
Theorem sysfile_refs {St} `{blocks St} (dev_read : Z -> option (nat -> Z -> F (St := St) (Z * list Z)))
    (dev_write : Z -> option (nat -> list Z -> Z -> F (St := St) Z)) (others : nat -> Z) calls s :
  Forall (fun c => snd c ∈ file_calls dev_read dev_write) calls ->
  (forall f, 0 <= others f) -> refs others NFILE (y_files s) ->
  leads (run_calls calls) s (fun _ s' =>
    (forall f fe, ftable (y_files s') !! f = Some fe -> f_ref fe = others f + fd_count (ofile (y_files s')) f) /\
    forall fd f, ofile (y_files s') !! fd = Some (Some f) -> exists fe, ftable (y_files s') !! f = Some fe /\ 1 <= f_ref fe).
Proof.
  intros Hc Ho Hs. eapply leads_mono; [by apply (inv_run_calls dev_read dev_write others NFILE (fun _ => 0) calls Hc s)|].
  intros [] s' [H1 H2 H3]. assert (H1' : forall f fe, ftable (y_files s') !! f = Some fe -> f_ref fe = others f + fd_count (ofile (y_files s')) f).
  { intros f fe Hf. rewrite (H1 f fe Hf). lia. }
  split; [done|]. intros fd f Hfd. destruct (lookup_lt_is_Some_2 (ftable (y_files s')) f) as [fe Hfe].
  { rewrite H2. by apply (H3 fd). }
  exists fe. split; [done|]. rewrite (H1' f fe Hfe). pose proof (fd_count_in _ _ _ Hfd). pose proof (Ho f). lia.
Qed.

(** A process with one open file calls [dup], [close] and [pipe]. *)
Definition demo_table : list file := demo_fe :: replicate 99 (File FD_NONE 0 0 0 0 0 0).
Definition demo_sys : sys (St := lst) :=
  Sys (Fls demo_fs0 demo_table (Pipes [] 1) false (Some 0%nat :: replicate 15 None)) demo_uproc.

Lemma demo_refs : refs (fun _ => 0) NFILE (y_files demo_sys).
Proof.
  constructor.
  - intros f fe Hf. destruct f as [|f]; [by injection Hf as <-|].
    change (replicate 99 (File FD_NONE 0 0 0 0 0 0) !! f = Some fe) in Hf. by apply lookup_replicate in Hf as [-> _].
  - done.
  - intros [|fd] f Hf; [injection Hf as <-; unfold NFILE; lia|].
    change (replicate 15 None !! fd = Some (Some f)) in Hf. by apply lookup_replicate in Hf as [? _].
Qed.

Lemma sysfile_refs_witness :
  match run_calls [(demo_uproc, sys_dup); (demo_uproc, sys_close); (demo_stack, sys_pipe)] demo_sys with
  | Ok (_, s') => take 4 (ofile (y_files s')) = [Some 1%nat; Some 0%nat; Some 2%nat; None] /\
      take 4 (f_ref <$> ftable (y_files s')) = [1; 1; 1; 0]
  | _ => False end /\
  leads (run_calls [(demo_uproc, sys_dup); (demo_uproc, sys_close); (demo_stack, sys_pipe)]) demo_sys (fun _ s' =>
    (forall f fe, ftable (y_files s') !! f = Some fe -> f_ref fe = 0 + fd_count (ofile (y_files s')) f) /\
    forall fd f, ofile (y_files s') !! fd = Some (Some f) -> exists fe, ftable (y_files s') !! f = Some fe /\ 1 <= f_ref fe).
Proof.
  split; [vm_compute; done|]. apply (sysfile_refs no_read no_write (fun _ => 0)); [|done|apply demo_refs].
  repeat apply Forall_cons_2; [..|apply Forall_nil_2]; unfold file_calls; rewrite !elem_of_cons; cbn; tauto.
Defined.
