(* ===== verification/IcacheThms.v ===== *)
(** Reference counts of inodes through the system calls on files: each count is
    the number of open files and working directories that name the inode. *)

From S2P Require Import Prelude Layout CString Bytes Bio Block Log LogThms LogBlocks Fs FsBlocks Icache Pipe File FsThms FileThms Syscall Sysfile SysfileThms.

(** How many open files name inode [i]. *)
Definition file_use (fe : file) (i : nat) : Z := if decide (f_type fe = FD_INODE /\ f_ip fe = i) then 1 else 0.
Fixpoint file_count (l : list file) (i : nat) : Z :=
  match l with
  | [] => 0
  | fe :: l => file_use fe i + file_count l i
  end.

Lemma file_count_nonneg l i : 0 <= file_count l i.
Proof. induction l as [|fe l IH]; cbn; [lia|]. unfold file_use. case_decide; lia. Qed.

Lemma file_count_insert l f fe fe' i :
  l !! f = Some fe -> file_count (<[f := fe']> l) i = file_count l i - file_use fe i + file_use fe' i.
Proof.
  revert f. induction l as [|x l IH]; intros [|f] Hf; [done..| |].
  - injection Hf as ->. cbn. lia.
  - change (<[S f := fe']> (x :: l)) with (x :: <[f := fe']> l). cbn [file_count]. rewrite (IH f Hf). lia.
Qed.

(** [H] counts the same as the goal. *)
Ltac tally H := eapply counted_ext; [|exact H]; intros ?; unfold more; repeat case_decide; lia.

Section inodes.
Context {St : Type} `{blocks St}.
Abbreviation fss := (@Fs.fss St).
Abbreviation F := (@Fs.F St).
Context (dev_read : Z -> option (nat -> Z -> F (Z * list Z))) (dev_write : Z -> option (nat -> list Z -> Z -> F Z)).
Hypothesis Hread : forall m rd ip n, dev_read m = Some rd -> keeps ids (rd ip n).
Hypothesis Hwrite : forall m wt ip bs n, dev_write m = Some wt -> keeps ids (wt ip bs n).

(** ** The calls of [sysfile.c] that work on inodes *)

Section calls.
Context (base : nat -> Z) (Hbase : forall i, 0 <= base i) (cw : nat).
Abbreviation counted := (Icache.counted base cw).
Ltac keep_step H := kept_step (counted_keeps (St := St) base cw _) H.

Lemma end_counted {A} d (a : A) s : counted d s -> leads (end_op_;; ret a) s (fun _ s' => counted d s').
Proof. intros Hs. keep_step Hs. by intros [] s1 H1. Qed.

(** Put the inode the call holds, end the transaction and return. *)
Lemma put_end_counted {A} d ip (a : A) s :
  counted (more ip 1 d) s -> leads (iunlockput ip;; end_op_;; ret a) s (fun _ s' => counted d s').
Proof.
  intros Hs. call_step (iunlockput_counted base cw _ ip s Hs). intros [] s1 H1. apply end_counted. tally H1.
Qed.

Lemma link_bad_counted d ip s : counted (more ip 1 d) s -> leads (link_bad ip) s (fun _ s' => counted d s').
Proof.
  intros Hs. unfold link_bad. keep_step Hs. intros [] s1 H1. keep_step H1. intros [] s2 H2. keep_step H2. intros [] s3 H3.
  by apply put_end_counted.
Qed.

Lemma more_nonneg ip d : (forall i, 0 <= d i) -> forall i, 0 <= more ip 1 d i.
Proof. intros Hd i. specialize (Hd i). unfold more. case_decide; lia. Qed.

Lemma do_link_counted d old new s :
  (forall i, 0 <= d i) -> counted d s -> leads (do_link dev_read dev_write old new) s (fun _ s' => counted d s').
Proof.
  intros Hd Hs. unfold do_link. keep_step Hs. intros [] s1 H1.
  call_step (namei_counted dev_read Hread base Hbase cw d old s1 H1 Hd). intros [ip|] s2 H2; [|by apply end_counted].
  keep_step H2. intros [] s3 H3. keep_step H3. intros x s4 H4. destruct (i_type x =? T_DIR); [by apply put_end_counted|].
  keep_step H4. intros [] s5 H5. keep_step H5. intros [] s6 H6. keep_step H6. intros [] s7 H7.
  call_step (namex_counted dev_read Hread base Hbase cw _ new true s7 H7 (more_nonneg ip d Hd)).
  intros [[dp name]|] s8 H8; [|by apply link_bad_counted].
  keep_step H8. intros [] s9 H9. keep_step H9. intros e s10 H10. keep_step H10. intros x' s11 H11.
  apply leads_bind. eapply leads_mono with (Q := fun _ s' => counted (more dp 1 (more ip 1 d)) s').
  { destruct (negb _); [done|]. by apply dirlink_counted. }
  intros r s12 H12. destruct (r <? 0).
  - call_step (iunlockput_counted base cw _ dp s12 H12). intros [] s13 H13. apply link_bad_counted. tally H13.
  - call_step (iunlockput_counted base cw _ dp s12 H12). intros [] s13 H13.
    call_step (iput_counted base cw _ ip s13 H13). intros [] s14 H14. apply end_counted. tally H14.
Qed.

Lemma keeps_isdirempty dp : keeps ids (isdirempty dev_read dp).
Proof.
  assert (Hl : forall fuel off, keeps ids (isdirempty_loop dev_read fuel dp off)); [|unfold isdirempty; solve_keeps].
  induction fuel as [|fuel IH]; intros off; cbn [isdirempty_loop]; solve_keeps.
Qed.
Hint Resolve keeps_isdirempty : keeps.

Lemma do_unlink_counted d path s :
  (forall i, 0 <= d i) -> counted d s -> leads (do_unlink dev_read dev_write path) s (fun _ s' => counted d s').
Proof.
  intros Hd Hs. unfold do_unlink, unlink_bad. keep_step Hs. intros [] s1 H1.
  call_step (namex_counted dev_read Hread base Hbase cw _ path true s1 H1 Hd). intros [[dp name]|] s2 H2; [|by apply end_counted].
  keep_step H2. intros [] s3 H3. destruct (_ || _); [by apply put_end_counted|].
  call_step (dirlookup_counted dev_read Hread base cw _ dp name s3 H3). intros [[ip off]|] s4 H4; [|by apply put_end_counted].
  keep_step H4. intros [] s5 H5. keep_step H5. intros x s6 H6. destruct (i_nlink x <? 1); [done|].
  keep_step H6. intros e s7 H7. destruct (negb e).
  { call_step (iunlockput_counted base cw _ ip s7 H7). intros [] s8 H8. apply put_end_counted. tally H8. }
  keep_step H7. intros r s8 H8. destruct (negb _); [done|]. keep_step H8. intros x' s9 H9.
  keep_step H9. intros [] s10 H10. call_step (iunlockput_counted base cw _ dp s10 H10). intros [] s11 H11.
  keep_step H11. intros [] s12 H12. keep_step H12. intros [] s13 H13. apply put_end_counted. tally H13.
Qed.

(** The inode that [create] and [sys_open] hold. *)
Abbreviation holds_one d := (fun o s' => match o with Some ip => counted (more ip 1 d) s' | None => counted d s' end).

Lemma create_counted d path ty ma mi s :
  (forall i, 0 <= d i) -> counted d s -> leads (create dev_read dev_write path ty ma mi) s (holds_one d).
Proof.
  intros Hd Hs. unfold create.
  call_step (namex_counted dev_read Hread base Hbase cw _ path true s Hs Hd). intros [[dp name]|] s1 H1; [|done].
  keep_step H1. intros [] s2 H2.
  call_step (dirlookup_counted dev_read Hread base cw _ dp name s2 H2). intros [[ip off]|] s3 H3.
  - call_step (iunlockput_counted base cw _ dp s3 H3). intros [] s4 H4. keep_step H4. intros [] s5 H5. keep_step H5. intros x s6 H6.
    destruct (_ && _); [tally H6|]. call_step (iunlockput_counted base cw _ ip s6 H6). intros [] s7 H7. tally H7.
  - keep_step H3. intros e s4 H4. call_step (ialloc_counted base cw _ _ ty s4 H4). intros ip s5 H5.
    keep_step H5. intros [] s6 H6. keep_step H6. intros [] s7 H7. keep_step H7. intros [] s8 H8. keep_step H8. intros x s9 H9.
    apply leads_bind. eapply leads_mono with (Q := fun _ s' => counted (more ip 1 (more dp 1 d)) s').
    { destruct (ty =? T_DIR); [|exact H9]. cbn [when]. keep_step H9. intros [] t1 T1. keep_step T1. intros [] t2 T2.
      call_step (dirlink_counted dev_read dev_write Hread Hwrite base cw _ ip DOT _ t2 T2). intros r1 t3 T3.
      destruct (r1 <? 0); [done|]. keep_step T3. intros e' t4 T4.
      call_step (dirlink_counted dev_read dev_write Hread Hwrite base cw _ ip DOTDOT _ t4 T4). intros r2 t5 T5. by destruct (r2 <? 0). }
    intros [] s10 H10. call_step (dirlink_counted dev_read dev_write Hread Hwrite base cw _ dp name _ s10 H10). intros r s11 H11.
    destruct (r <? 0); [done|]. call_step (iunlockput_counted base cw _ dp s11 H11). intros [] s12 H12. tally H12.
Qed.

Lemma open_ip_counted d path omode s :
  (forall i, 0 <= d i) -> counted d s -> leads (open_ip dev_read dev_write path omode) s (holds_one d).
Proof.
  intros Hd Hs. unfold open_ip. destruct (negb _); [by apply create_counted|].
  call_step (namei_counted dev_read Hread base Hbase cw d path s Hs Hd). intros [ip|] s1 H1; [|done].
  keep_step H1. intros [] s2 H2. keep_step H2. intros x s3 H3. destruct (_ && _); [|done].
  call_step (iunlockput_counted base cw _ ip s3 H3). intros [] s4 H4. tally H4.
Qed.

Lemma make_counted d o s : (forall i, 0 <= d i) -> counted d s -> leads (make dev_read dev_write o) s (fun _ s' => counted d s').
Proof.
  intros Hd Hs. unfold make. apply leads_bind. eapply leads_mono with (Q := holds_one d).
  { destruct o as [[[[path ty] ma] mi]|]; [by apply create_counted|done]. }
  intros [ip|] s1 H1; [by apply put_end_counted|by apply end_counted].
Qed.
End calls.

(** [chdir] gives the old working directory up and keeps the new one. *)
Lemma do_chdir_counted base (Hbase : forall i, 0 <= base i) cw path s :
  counted base cw (fun _ => 0) s -> leads (do_chdir dev_read path) s (fun _ s' => counted base (cwd s') (fun _ => 0) s').
Proof.
  assert (Hid : forall A (m : F A) t, leads m t (fun _ s' => counted base cw (fun _ => 0) s') ->
    leads m t (fun _ s' => counted base (cwd s') (fun _ => 0) s')).
  { intros A m t Hm. eapply leads_mono; [exact Hm|]. intros a s' Hs'. by rewrite (ct_cwd _ _ _ _ Hs'). }
  intros Hs. unfold do_chdir. kept_step (counted_keeps base cw _) Hs. intros [] s1 H1.
  apply leads_bind. eapply leads_mono with (Q := fun o s' => match o with
    Some ip => counted base cw (more ip 1 (fun _ => 0)) s' | None => counted base cw (fun _ => 0) s' end).
  { destruct path as [path|]; [by apply namei_counted|done]. }
  intros [ip|] s2 H2; [|by apply Hid, end_counted].
  kept_step (counted_keeps base cw _) H2. intros [] s3 H3. kept_step (counted_keeps base cw) H3. intros x s4 H4.
  destruct (negb _); [by apply Hid, put_end_counted|].
  kept_step (counted_keeps base cw _) H4. intros [] s5 H5. apply leads_bind. cbn. rewrite (ct_cwd _ _ _ _ H5).
  call_step (iput_counted base cw _ cw s5 H5). intros [] s6 H6. kept_step (counted_keeps base cw _) H6. intros [] s7 [C0 C1 C2].
  apply leads_bind. cbn. constructor; cbn; [done| |done]. intros i y Hy. rewrite (C1 i y Hy). unfold more. repeat case_decide; lia.
Qed.

(** ** Open files *)

Abbreviation fls := (@File.fls St).
Abbreviation K := (@File.K St).
(** Working directories of other processes. *)
Context (procs : nat -> Z) (Hprocs : forall i, 0 <= procs i).

Definition uses (l : list file) (i : nat) : Z := procs i + file_count l i.
Lemma uses_nonneg l i : 0 <= uses l i.
Proof. unfold uses. specialize (Hprocs i). pose proof (file_count_nonneg l i). lia. Qed.

(** The counts of the inodes, and free files name none. *)
Record fcounted (cw : nat) (d : nat -> Z) (s : fls) : Prop := Fcounted {
  fc_inodes : counted (uses (ftable s)) cw d (k_fs s);
  fc_free : forall f fe, ftable s !! f = Some fe -> f_ref fe = 0 -> f_type fe = FD_NONE
}.

Lemma fcounted_ext cw d d' s : (forall i, d i = d' i) -> fcounted cw d s -> fcounted cw d' s.
Proof. intros Hd [H1 H2]. constructor; [by eapply counted_ext|done]. Qed.

(** A call of the file system leaves the files alone. *)
Lemma on_fs_counted {A} cw d (m : F A) (Q : A -> fss -> Prop) s :
  fcounted cw d s -> leads m (k_fs s) Q ->
  leads (on_fs m) s (fun a s' => Q a (k_fs s') /\ ftable s' = ftable s /\
    forall cw' d', counted (uses (ftable s)) cw' d' (k_fs s') -> fcounted cw' d' s').
Proof. intros [H1 H2] Hm. unfold leads, on_fs, zoom in *. by destruct (m (k_fs s)) as [[a t]| | |]. Qed.

Lemma inv_on_fs_ids {A} cw d (m : F A) : keeps ids m -> keeps_inv (fcounted cw d) (on_fs m).
Proof.
  intros Hm s [H1 H2]. assert (Hl := counted_keeps (uses (ftable s)) cw d m Hm (k_fs s) H1).
  unfold leads, on_fs, zoom in *. by destruct (m (k_fs s)) as [[a t]| | |].
Qed.

Lemma inv_on_pipe_inodes {A} cw d p (c : psys -> outcome (A * psys)) : keeps_inv (fcounted cw d) (on_pipe p c).
Proof.
  intros s [H1 H2]. unfold leads, on_pipe. destruct (pstore (k_pipes s) !! p) as [q|]; [|done].
  destruct (pfreed q); [done|]. by destruct (c q) as [[a q']| | |].
Qed.

(** A change of one file moves the inodes it names to or from the call. *)
Lemma updf_counted cw d f g s :
  fcounted cw d s -> (forall fe, ftable s !! f = Some fe -> f_ref (g fe) = 0 -> f_type (g fe) = FD_NONE) ->
  leads (updf f g) s (fun _ s' => exists fe, ftable s !! f = Some fe /\ ftable s' = <[f := g fe]> (ftable s) /\
    fcounted cw (fun i => d i + file_use fe i - file_use (g fe) i) s').
Proof.
  intros [[C0 C1 C2] H2] Hg. unfold leads, updf, getf, bind, gets. destruct (ftable s !! f) as [fe|] eqn:Hf; [|done].
  cbn. exists fe. split; [done|]. split; [done|]. constructor; cbn.
  - constructor; [done| |done]. intros i x Hx. rewrite (C1 i x Hx). unfold uses. rewrite (file_count_insert _ _ _ _ _ Hf). lia.
  - intros j fe' [(<- & <- & _)|[_ Hj]]%list_lookup_insert_Some; [by apply Hg|by apply (H2 j)].
Qed.

(** A change that keeps what the file names. *)
Lemma inv_updf_inodes cw d f g :
  (forall fe, f_type (g fe) = f_type fe /\ f_ip (g fe) = f_ip fe /\ f_ref (g fe) = f_ref fe) -> keeps_inv (fcounted cw d) (updf f g).
Proof.
  intros Hg s Hs. eapply leads_mono; [apply (updf_counted cw d f g s Hs)|].
  - intros fe Hf. destruct (Hg fe) as (-> & _ & ->). by apply (fc_free _ _ _ Hs f).
  - intros [] s' (fe & Hf & _ & Hs'). eapply fcounted_ext; [|exact Hs']. intros i. unfold file_use.
    destruct (Hg fe) as (-> & -> & _). lia.
Qed.

(** A file that [filealloc] has just given out. *)
Definition fresh (f : nat) (s : fls) : Prop := exists fe, ftable s !! f = Some fe /\ f_type fe = FD_NONE /\ f_ref fe <> 0.

Lemma fresh_same f (s s' : fls) : ftable s' = ftable s -> fresh f s -> fresh f s'.
Proof. unfold fresh. by intros ->. Qed.

Lemma filealloc_counted cw d s :
  fcounted cw d s ->
  leads filealloc s (fun o s' => fcounted cw d s' /\ match o with
    | Some f => fresh f s' /\ forall g, fresh g s -> g <> f /\ fresh g s'
    | None => True end).
Proof.
  intros Hs. unfold filealloc. apply leads_bind. cbn. destruct (free_file (ftable s) 0) as [f|] eqn:Hf; [|done].
  apply free_file_spec in Hf as (k & fe & -> & Hk & Hr). cbn [Nat.add]. assert (Ht := fc_free _ _ _ Hs k fe Hk Hr).
  call_step (updf_counted cw d k (set_f_ref 1) s Hs ltac:(done)). intros [] s' (fe' & Hf' & Htab & Hs').
  rewrite Hk in Hf'. injection Hf' as <-. cbn. split; [|split].
  - eapply fcounted_ext; [|exact Hs']. intros i. unfold file_use. cbn. lia.
  - exists (set_f_ref 1 fe). rewrite Htab, list_lookup_insert_eq by (by eapply lookup_lt_Some). done.
  - intros g (ge & Hg & Hg1 & Hg2). assert (g <> k) by congruence. split; [done|]. exists ge.
    by rewrite Htab, list_lookup_insert_ne by done.
Qed.

(** Giving a fresh file its contents. *)
Lemma fill_counted cw d f g s :
  fcounted cw d s -> fresh f s -> (forall fe, f_ref (g fe) = f_ref fe) ->
  leads (updf f g) s (fun _ s' => (exists fe, fcounted cw (fun i => d i - file_use (g fe) i) s') /\
    forall h, h <> f -> fresh h s -> fresh h s').
Proof.
  intros Hs (fe & Hfe & Ht & Hr) Hg. eapply leads_mono; [apply (updf_counted cw d f g s Hs)|].
  - intros fe' Hf'. rewrite Hg. congruence.
  - intros [] s' (fe' & Hf' & Htab & Hs'). rewrite Hfe in Hf'. injection Hf' as <-. split.
    + exists fe. eapply fcounted_ext; [|exact Hs']. intros i. cbn. unfold file_use at 1. rewrite Ht, decide_False by naive_solver. lia.
    + intros h Hh (he & Hhe & Hh1). exists he. by rewrite Htab, list_lookup_insert_ne by done.
Qed.

Lemma filedup_counted cw d f : keeps_inv (fcounted cw d) (filedup f).
Proof.
  intros s Hs. unfold filedup, getf. do 2 (apply leads_bind; cbn). destruct (ftable s !! f) as [fe|] eqn:Hf; [|done]. cbn.
  destruct (Z.ltb_spec (f_ref fe) 1); [done|].
  call_step (updf_counted cw d f (set_f_ref (f_ref fe + 1)) s Hs ltac:(cbn; lia)). intros [] s' (fe' & Hf' & _ & Hs').
  eapply fcounted_ext; [|exact Hs']. intros i. unfold file_use. cbn. lia.
Qed.

(** Closing the last descriptor of a file puts its inode. *)
Lemma fileclose_counted cw d f : keeps_inv (fcounted cw d) (fileclose f).
Proof.
  intros s Hs. unfold fileclose, getf. do 2 (apply leads_bind; cbn). destruct (ftable s !! f) as [fe|] eqn:Hf; [|done]. cbn.
  destruct (Z.ltb_spec (f_ref fe) 1) as [|Hr]; [done|]. destruct (Z.ltb_spec 0 (f_ref fe - 1)) as [Hr'|Hr'].
  { eapply leads_mono; [apply (updf_counted cw d f (set_f_ref (f_ref fe - 1)) s Hs); cbn; lia|].
    intros [] s' (fe' & Hf' & _ & Hs'). eapply fcounted_ext; [|exact Hs']. intros i. unfold file_use. cbn. lia. }
  call_step (updf_counted cw d f (fun x => set_f_type FD_NONE (set_f_ref 0 x)) s Hs ltac:(done)). intros [] s1 (fe' & Hf' & _ & H1).
  rewrite Hf in Hf'. injection Hf' as <-. unfold file_use in H1. cbn in H1.
  destruct (f_type fe) eqn:Ht.
  - cbn. eapply fcounted_ext; [|exact H1]. intros i. cbn. repeat case_decide; naive_solver lia.
  - eapply leads_mono; [apply (inv_on_pipe_inodes cw _ _ _ s1 H1)|]. intros [] s2 H2.
    eapply fcounted_ext; [|exact H2]. intros i. cbn. repeat case_decide; naive_solver lia.
  - call_step (inv_on_fs_ids cw _ begin_op_ (keeps_on_blk _) s1 H1). intros [] s2 H2.
    call_step (on_fs_counted cw _ (iput (f_ip fe)) _ s2 H2 (iput_counted _ cw _ (f_ip fe) _ (fc_inodes _ _ _ H2))).
    intros [] s3 (H3 & _ & Hb). apply Hb in H3. eapply leads_mono; [apply (inv_on_fs_ids cw _ end_op_ (keeps_on_blk _) s3 H3)|].
    intros [] s4 H4. eapply fcounted_ext; [|exact H4]. intros i. unfold more. cbn. repeat case_decide; naive_solver lia.
Qed.

Lemma kalloc_page_counted cw d s :
  fcounted cw d s -> leads kalloc_page s (fun _ s' => fcounted cw d s' /\ ftable s' = ftable s).
Proof. intros [H1 H2]. unfold kalloc_page. apply leads_bind. cbn. by destruct (ppages (k_pipes s)). Qed.

Lemma pipealloc_counted cw d : keeps_inv (fcounted cw d) pipealloc.
Proof.
  intros s Hs. unfold pipealloc. call_step (filealloc_counted cw d s Hs). intros [f0|] s1 [H1 R1]; [|done]. destruct R1 as [R1 _].
  call_step (filealloc_counted cw d s1 H1). intros [f1|] s2 [H2 R2].
  2: { call_step (fileclose_counted cw d f0 s2 H2). by intros [] s3 H3. }
  destruct R2 as [R2 R0]. destruct (R0 f0 R1) as [Hne R0']. clear R0.
  call_step (kalloc_page_counted cw d s2 H2). intros [] s3 [H3 T3]; cbn [negb].
  2: { call_step (fileclose_counted cw d f0 s3 H3). intros [] s4 H4. call_step (fileclose_counted cw d f1 s4 H4). by intros [] s5 H5. }
  apply (fresh_same _ _ s3 T3) in R2, R0'. do 2 (apply leads_bind; cbn).
  set (s4 := set_k_pipes _ s3). assert (H4 : fcounted cw d s4) by by destruct H3. change (fresh f1 s4) in R2. change (fresh f0 s4) in R0'.
  call_step (fill_counted cw d f0 (fun x => File FD_PIPE (f_ref x) 1 0 _ (f_ip x) (f_off x)) s4 H4 R0' ltac:(done)). intros [] s5 [[fe H5] R5].
  call_step (fill_counted cw _ f1 (fun x => File FD_PIPE (f_ref x) 0 1 _ (f_ip x) (f_off x)) s5 H5 (R5 f1 ltac:(done) R2) ltac:(done)).
  intros [] s6 [[fe' H6] _]. cbn. eapply fcounted_ext; [|exact H6]. intros i. cbn. unfold file_use. cbn.
  rewrite !decide_False by naive_solver. lia.
Qed.

(** ** The calls *)

Abbreviation sys := (@Sysfile.sys St).
Definition sys_inodes (cw : nat) (d : nat -> Z) (s : sys) : Prop := fcounted cw d (y_files s).

Lemma inv_on_files_inodes {A} cw d (m : K A) : keeps_inv (fcounted cw d) m -> keeps_inv (sys_inodes cw d) (on_files m).
Proof. intros Hm s Hs. apply (leads_on_files m s (fun _ => fcounted cw d)). by apply Hm. Qed.

Lemma inv_on_ids {A} cw d (m : F A) : keeps ids m -> keeps_inv (sys_inodes cw d) (on_ m).
Proof. intros Hm. by apply inv_on_files_inodes, inv_on_fs_ids. Qed.

Lemma inv_set_fd cw d fd o : keeps_inv (sys_inodes cw d) (set_fd fd o).
Proof. by intros s [H1 H2]. Qed.
Lemma inv_arg_inodes {A} cw d (g : uproc -> option A) : keeps_inv (sys_inodes cw d) (arg g).
Proof. apply inv_gets. Qed.
Lemma inv_ustore_inodes cw d a bs : keeps_inv (sys_inodes cw d) (ustore a bs).
Proof. by intros s Hs. Qed.

Hint Resolve inv_on_fs_ids inv_on_pipe_inodes filedup_counted fileclose_counted pipealloc_counted inv_on_files_inodes
  inv_on_ids inv_set_fd inv_arg_inodes inv_ustore_inodes : inv.
Hint Extern 1 (keeps_inv _ (updf _ _)) => apply inv_updf_inodes; done : inv.
Hint Extern 2 (keeps ids _) => solve_keeps : inv.

Lemma inv_getf_inodes cw d f : keeps_inv (fcounted cw d) (getf f).
Proof. unfold getf. solve_inv. Qed.
Hint Resolve inv_getf_inodes : inv.

Lemma inv_fileread_inodes cw d f n : keeps_inv (fcounted cw d) (fileread dev_read f n).
Proof. unfold fileread, piperead_. solve_inv. Qed.
Lemma inv_filewrite_chunk_inodes cw d f addr n : keeps_inv (fcounted cw d) (filewrite_chunk dev_write f addr n).
Proof. unfold filewrite_chunk. solve_inv. Qed.
Hint Resolve inv_filewrite_chunk_inodes : inv.
Lemma inv_filewrite_inodes cw d f addr n : keeps_inv (fcounted cw d) (filewrite dev_write f addr n).
Proof.
  assert (Hl : forall fuel i, keeps_inv (fcounted cw d) (filewrite_loop dev_write fuel f addr n i)).
  { induction fuel as [|fuel IH]; intros i; cbn [filewrite_loop]; solve_inv. }
  unfold filewrite, pipewrite_. solve_inv.
Qed.
Lemma inv_filestat_inodes cw d f : keeps_inv (fcounted cw d) (filestat f).
Proof. unfold filestat. solve_inv. Qed.
Lemma inv_argfd_inodes cw d n : keeps_inv (sys_inodes cw d) (argfd n).
Proof. unfold argfd. solve_inv. Qed.
Hint Resolve inv_fileread_inodes inv_filewrite_inodes inv_filestat_inodes inv_argfd_inodes : inv.
Lemma inv_rw_args_inodes cw d : keeps_inv (sys_inodes cw d) rw_args.
Proof. unfold rw_args. solve_inv. Qed.
Lemma inv_fdalloc_inodes cw d f : keeps_inv (sys_inodes cw d) (fdalloc f).
Proof. unfold fdalloc. solve_inv. Qed.
Lemma inv_store_fields_inodes cw d a l : keeps_inv (sys_inodes cw d) (store_fields a l).
Proof. induction l as [|[o bs] l IH]; cbn [store_fields]; solve_inv. Qed.
Hint Resolve inv_rw_args_inodes inv_fdalloc_inodes inv_store_fields_inodes : inv.

(** The calls on descriptors. *)
Lemma inv_fd_calls cw d :
  Forall (keeps_inv (sys_inodes cw d)) [sys_dup; sys_read dev_read; sys_write dev_write; sys_close; sys_fstat; sys_pipe].
Proof.
  repeat apply Forall_cons_2; [..|apply Forall_nil_2];
    unfold sys_dup, sys_read, sys_write, sys_close, sys_fstat, sys_pipe; solve_inv.
Qed.

Abbreviation none := (fun _ : nat => 0).

(** A call of the file system from a system call. *)
Lemma on_counted {A} cw d (m : F A) (Q : A -> fss -> Prop) s :
  sys_inodes cw d s -> leads m (k_fs (y_files s)) Q ->
  leads (on_ m) s (fun a s' => Q a (k_fs (y_files s')) /\ ftable (y_files s') = ftable (y_files s) /\
    forall cw' d', counted (uses (ftable (y_files s))) cw' d' (k_fs (y_files s')) -> sys_inodes cw' d' s').
Proof. intros Hs Hm. exact (leads_on_files (on_fs m) s _ (on_fs_counted cw d m Q _ Hs Hm)). Qed.

Lemma inv_on_counted {A} cw (m : F A) :
  (forall base, (forall i, 0 <= base i) -> forall s, counted base cw none s -> leads m s (fun _ s' => counted base cw none s')) ->
  keeps_inv (sys_inodes cw none) (on_ m).
Proof.
  intros Hm s Hs. eapply leads_mono; [exact (on_counted cw none m _ s Hs (Hm _ (uses_nonneg _) _ (fc_inodes _ _ _ Hs)))|].
  intros a s' (H1 & _ & Hb). by apply Hb.
Qed.

(** The calls on names. *)
Lemma inv_name_calls cw :
  Forall (keeps_inv (sys_inodes cw none)) [sys_link dev_read dev_write; sys_unlink dev_read dev_write;
    sys_mkdir dev_read dev_write; sys_mknod dev_read dev_write].
Proof.
  repeat apply Forall_cons_2; [..|apply Forall_nil_2]; unfold sys_link, sys_unlink, sys_mkdir, sys_mknod;
    repeat first [apply inv_bind; [solve [solve_inv]|intros ?]|apply inv_ret|case_match]; apply inv_on_counted; intros base Hbase s Hs;
    first [by apply do_link_counted|by apply do_unlink_counted|by apply make_counted].
Qed.

Lemma inv_open_inodes cw : keeps_inv (sys_inodes cw none) (sys_open dev_read dev_write).
Proof.
  unfold sys_open. apply inv_bind; [apply inv_arg_inodes|]. intros path. apply inv_bind; [apply inv_arg_inodes|]. intros omode.
  destruct path as [path|], omode as [omode|]; try apply inv_ret. unfold do_open. apply inv_bind; [solve_inv|]. intros _ s Hs.
  call_step (on_counted cw none (open_ip dev_read dev_write path omode) _ s Hs
    (open_ip_counted _ (uses_nonneg _) cw none path omode _ ltac:(done) (fc_inodes _ _ _ Hs))).
  intros [ip|] s1 (H1 & _ & Hb); apply Hb in H1; clear Hb.
  2: { by apply (inv_bind (sys_inodes cw none)); [solve_inv|solve_inv|]. }
  assert (Hend : forall s, sys_inodes cw (more ip 1 none) s ->
    leads (on_ (iunlockput ip);; on_ end_op_;; ret (-1)) s (fun _ s' => sys_inodes cw none s')).
  { intros t Ht. call_step (on_counted cw _ (iunlockput ip) _ t Ht (iunlockput_counted _ cw _ ip _ (fc_inodes _ _ _ Ht))).
    intros [] t1 (T1 & _ & Hb). apply Hb in T1. apply (inv_bind (sys_inodes cw none)); [solve_inv|solve_inv|].
    eapply fcounted_ext; [|exact T1]. intros i. apply more_cancel. }
  call_step (leads_on_files filealloc s1 _ (filealloc_counted cw _ _ H1)). intros [f|] s2 [H2 R2].
  2: { do 2 (apply leads_bind; cbn). by apply Hend. }
  destruct R2 as [R2 _]. apply leads_bind.
  eapply leads_mono with (Q := fun _ s' => sys_inodes cw (more ip 1 none) s' /\ fresh f (y_files s')).
  { unfold fdalloc. apply leads_bind. cbn. destruct (free_fd _ 0); by destruct H2. }
  intros [fd|] s3 [H3 R3].
  - call_step (on_counted cw _ (iunlock ip) _ s3 H3 (counted_keeps _ cw _ _ (keeps_iunlock ip) _ (fc_inodes _ _ _ H3))).
    intros [] s4 (H4 & T4 & Hb). apply Hb in H4. clear Hb. apply (fresh_same f _ _ T4) in R3.
    call_step (on_counted cw _ end_op_ _ s4 H4 (counted_keeps _ cw _ _ (keeps_on_blk _) _ (fc_inodes _ _ _ H4))).
    intros [] s5 (H5 & T5 & Hb). apply Hb in H5. clear Hb. apply (fresh_same f _ _ T5) in R3.
    call_step (leads_on_files _ s5 _ (fill_counted cw _ f (fun x => File FD_INODE (f_ref x) _ _ (f_pipe x) ip 0) _ H5 R3 ltac:(done))).
    intros [] s6 [[fe H6] _]. eapply fcounted_ext; [|exact H6]. intros i. unfold more, file_use. cbn. repeat case_decide; naive_solver lia.
  - call_step (inv_on_files_inodes cw _ _ (fileclose_counted cw _ f) s3 H3). intros [] s4 H4. by apply Hend.
Qed.

(** The counts are exact. *)
Definition inodes_exact (s : sys) : Prop := sys_inodes (cwd (k_fs (y_files s))) none s.

Lemma inv_exact {A} (m : Y A) : (forall cw, keeps_inv (sys_inodes cw none) m) -> keeps_inv inodes_exact m.
Proof.
  intros Hm s Hs. eapply leads_mono; [exact (Hm _ s Hs)|]. intros a s' Hs'. unfold inodes_exact.
  by rewrite (ct_cwd _ _ _ _ (fc_inodes _ _ _ Hs')).
Qed.

Lemma inv_chdir : keeps_inv inodes_exact (sys_chdir dev_read).
Proof.
  unfold sys_chdir. apply inv_bind; [apply inv_gets|]. intros path s Hs.
  eapply leads_mono; [exact (on_counted _ none (do_chdir dev_read path) _ s Hs
    (do_chdir_counted _ (uses_nonneg _) _ path _ (fc_inodes _ _ _ Hs)))|].
  intros r s' (H1 & _ & Hb). by apply Hb.
Qed.

Lemma inv_file_calls_inodes : Forall (keeps_inv inodes_exact) (file_calls dev_read dev_write).
Proof.
  assert (Hfd := fun k call Hk => inv_exact call (fun cw => Forall_lookup_1 _ _ k call (inv_fd_calls cw none) Hk)).
  assert (Hname := fun k call Hk => inv_exact call (fun cw => Forall_lookup_1 _ _ k call (inv_name_calls cw) Hk)).
  unfold file_calls. repeat apply Forall_cons_2; [..|apply Forall_nil_2].
  - exact (Hfd 0%nat _ eq_refl).
  - exact (Hfd 1%nat _ eq_refl).
  - exact (Hfd 2%nat _ eq_refl).
  - exact (Hfd 3%nat _ eq_refl).
  - exact (Hfd 4%nat _ eq_refl).
  - exact (Hname 0%nat _ eq_refl).
  - exact (Hname 1%nat _ eq_refl).
  - exact (inv_exact _ inv_open_inodes).
  - exact (Hname 2%nat _ eq_refl).
  - exact (Hname 3%nat _ eq_refl).
  - exact inv_chdir.
  - exact (Hfd 5%nat _ eq_refl).
Qed.

Lemma inv_run_calls_inodes l :
  Forall (fun c => snd c ∈ file_calls dev_read dev_write) l -> keeps_inv inodes_exact (run_calls l).
Proof.
  induction 1 as [|[u call] l Hc _ IH]; cbn [run_calls]; [apply inv_ret|]. apply inv_bind; [by intros s|]. intros _.
  apply inv_bind; [by apply (Forall_forall (keeps_inv inodes_exact) (file_calls dev_read dev_write)), Hc; apply inv_file_calls_inodes|]. by intros _.
Qed.
End inodes.

(** C16. Whatever system calls on files a process makes, with whatever
    arguments, the reference count of every entry of the inode cache stays the
    number of open files that name it plus the number of working directories
    that are it, so an inode in use is never recycled and none leaks, on the
    error paths of [open], [create], [link], [unlink], [chdir] and the path walk
    included; and no inode is ever cached twice. Devices may lock inodes but do
    not count. *)
Theorem inode_refs_exact {St} `{blocks St} (dev_read : Z -> option (nat -> Z -> F (St := St) (Z * list Z)))
    (dev_write : Z -> option (nat -> list Z -> Z -> F (St := St) Z)) (procs : nat -> Z) calls s :
  (forall m rd ip n, dev_read m = Some rd -> keeps ids (rd ip n)) ->
  (forall m wt ip bs n, dev_write m = Some wt -> keeps ids (wt ip bs n)) ->
  Forall (fun c => snd c ∈ file_calls dev_read dev_write) calls ->
  (forall i, 0 <= procs i) -> inodes_exact procs s ->
  leads (run_calls calls) s (fun _ s' =>
    let fs := k_fs (y_files s') in
    (forall i x, icache fs !! i = Some x ->
      i_ref x = procs i + file_count (ftable (y_files s')) i + (if decide (cwd fs = i) then 1 else 0)) /\
    forall i j x y, icache fs !! i = Some x -> icache fs !! j = Some y -> 0 < i_ref x -> 0 < i_ref y ->
      i_dev x = i_dev y -> i_inum x = i_inum y -> i = j).
Proof.
  intros Hr Hw Hc Hp Hs. eapply leads_mono; [exact (inv_run_calls_inodes dev_read dev_write Hr Hw procs Hp calls Hc s Hs)|].
  intros [] s' [[C0 C1 C2] _]. split; [|exact C2]. intros i x Hx. rewrite (C1 i x Hx). unfold uses. lia.
Qed.

(** A process opens its working directory, fails to change to it because it is
    a file, and closes the file it had open. *)
Definition demo_isys : Sysfile.sys (St := lst) :=
  Sys (Fls (Fss demo_idle demo_super [set_i_ref 2 demo_unlocked] 0 1) demo_table (Pipes [] 1) false (Some 0%nat :: replicate 15 None)) demo_uproc.
Definition demo_empty : uproc := set_u_mem (ustores (u_mem demo_uproc) 8004 [2; 16; 0; 0]) demo_uproc.
Definition demo_calls : list (uproc * Y Z) :=
  [(demo_empty, sys_open no_read no_write); (demo_empty, sys_chdir no_read); (demo_uproc, sys_close)].

Lemma file_count_free n i : file_count (replicate n (File FD_NONE 0 0 0 0 0 0)) i = 0.
Proof. induction n as [|n IH]; [done|]. cbn [replicate file_count]. rewrite IH. unfold file_use. cbn. by rewrite decide_False by naive_solver. Qed.

Lemma demo_inodes : inodes_exact (fun _ => 0) demo_isys.
Proof.
  constructor; [constructor|].
  - done.
  - intros [|i] x Hx; [|by destruct i]. injection Hx as <-. unfold uses. cbn [y_files ftable demo_isys demo_table file_count].
    by rewrite file_count_free.
  - intros [|i] [|j] x y Hx Hy; done.
  - intros [|f] fe Hf; [by injection Hf as <-|]. change (replicate 99 (File FD_NONE 0 0 0 0 0 0) !! f = Some fe) in Hf.
    by apply lookup_replicate in Hf as [-> _].
Qed.

Lemma inode_refs_exact_witness :
  match run_calls demo_calls demo_isys with
  | Ok (_, s') => take 2 (ofile (y_files s')) = [None; Some 1%nat] /\ (i_ref <$> icache (k_fs (y_files s'))) = [2]
  | _ => False end /\
  leads (run_calls demo_calls) demo_isys (fun _ s' =>
    let fs := k_fs (y_files s') in
    (forall i x, icache fs !! i = Some x ->
      i_ref x = 0 + file_count (ftable (y_files s')) i + (if decide (cwd fs = i) then 1 else 0)) /\
    forall i j x y, icache fs !! i = Some x -> icache fs !! j = Some y -> 0 < i_ref x -> 0 < i_ref y ->
      i_dev x = i_dev y -> i_inum x = i_inum y -> i = j).
Proof.
  split; [vm_compute; done|]. apply (inode_refs_exact no_read no_write (fun _ => 0)); [done|done| |done|exact demo_inodes].
  repeat apply Forall_cons_2; [..|apply Forall_nil_2]; unfold file_calls; rewrite !elem_of_cons; cbn; tauto.
Defined.
