(* ===== verification/Dir.v ===== *)
(** Inodes in memory, directories and path names: what [iget], [ilock],
    [iunlockput], [dirlookup] and [namei] of [fs.c] do when nobody else uses the
    inodes they work on. *)

From S2P Require Import Prelude Layout CString Bytes Bio Block Log Fs FsBlocks Icache FsFile FsRw FsInode.

(** ** Directories as lists of entries *)

Definition dirent_at (d : list Z) (k : nat) : dirent := get_dirent (take 16 (drop (16 * k) d)).
Definition dirents (d : list Z) : list dirent := dirent_at d <$> seq 0 (length d / 16).

(** The entry [dirlookup] is after. *)
Definition names (name : list Z) (de : dirent) : Prop := de_inum de <> 0 /\ namecmp name (de_name de) = true.
#[export] Instance names_dec name de : Decision (names name de).
Proof. unfold names. apply _. Defined.
Definition dir_find (name : list Z) (d : list Z) : option (nat * dirent) := list_find (names name) (dirents d).

(** Names are compared up to the end of the string or of the field. *)
Lemma namecmp_correct s t : Forall (fun c => 0 <= c < 256) s -> Forall (fun c => 0 <= c < 256) t ->
  namecmp s t = true <-> cstr DIRSIZ (s ++ [0]) = cstr DIRSIZ (t ++ [0]).
Proof.
  intros Hs Ht. unfold namecmp. rewrite bool_decide_eq_true.
  assert (Hr : forall u : list Z, readable (u ++ [0]) DIRSIZ) by (intros u; right; apply elem_of_app; right; by constructor).
  destruct (strncmp_correct DIRSIZ (s ++ [0]) (t ++ [0])) as (r & -> & Hr0); [by apply Forall_app; split; [|repeat constructor]..|done|done|].
  rewrite <- Hr0. split; [by intros [= ->]|by intros ->].
Qed.

Section run.
Context {St : Type} `{HS : blocks_spec St}.
Abbreviation fss := (@Fs.fss St).
Abbreviation F := (@Fs.F St).
Context (sb0 : superblock) (Hly : layout sb0).
Context (dev_read : Z -> option (nat -> Z -> F (Z * list Z))) (dev_write : Z -> option (nat -> list Z -> Z -> F Z)).
Abbreviation inode_ok := (FsFile.inode_ok sb0).
Implicit Types (f : Z -> list Z) (x : inode) (s : fss).

(** ** The inode cache *)

(** An inode that nobody has goes to the first free entry. *)
Definition fresh_inode (n : Z) (z : inode) : inode :=
  Inode 1 n 1 (i_lock z) 0 (i_type z) (i_major z) (i_minor z) (i_nlink z) (i_size z) (i_addrs z).

Lemma iget_scan_free dv n l : forall i e,
  (forall k x, l !! k = Some x -> 0 < i_ref x -> ~ (i_dev x = dv /\ i_inum x = n)) ->
  (e <> None \/ exists k x, l !! k = Some x /\ i_ref x = 0) ->
  exists j, iget_scan l i e dv n = (None, Some j) /\ (e = Some j \/ exists k x, j = (i + k)%nat /\ l !! k = Some x /\ i_ref x = 0).
Proof.
  induction l as [|x l IH]; intros i e Hno Hfree.
  { destruct e as [j|]; [by exists j; split; [|left]|]. destruct Hfree as [?|(k & x & ? & _)]; done. }
  cbn [iget_scan]. destruct (_ && _ && _) eqn:Ht.
  { apply andb_true_iff in Ht as [[Hr Hd]%andb_true_iff Hn]. apply Z.ltb_lt in Hr. apply Z.eqb_eq in Hd, Hn. by destruct (Hno O x eq_refl Hr). }
  set (e' := if _ && _ then _ else e).
  destruct (IH (S i) e') as (j & Hj & Hcase).
  - intros k y Hy. by apply (Hno (S k) y).
  - destruct e as [j|]; [by left|]. destruct (Z.eqb_spec (i_ref x) 0); [by left|right].
    destruct Hfree as [?|(k & y & Hy & Hy0)]; [done|]. destruct k as [|k]; [by injection Hy as <-|]. by exists k, y.
  - exists j. split; [exact Hj|]. destruct Hcase as [He|(k & y & -> & Hy & Hy0)].
    + unfold e' in He. destruct e as [j'|]; [by left|]. cbn in He. destruct (Z.eqb_spec (i_ref x) 0); [|done]. injection He as <-.
      right. exists O, x. split; [lia|done].
    + right. exists (S k), y. split; [lia|done].
Qed.

Lemma iget_new s0 held lg f s n (Q : nat -> fss -> Prop) :
  holds s0 held lg f s ->
  (forall k x, icache s0 !! k = Some x -> 0 < i_ref x -> ~ (i_dev x = 1 /\ i_inum x = n)) ->
  (exists k x, icache s0 !! k = Some x /\ i_ref x = 0) ->
  (forall ip z s', icache s0 !! ip = Some z -> i_ref z = 0 -> holds (withi s0 ip (fresh_inode n z)) held lg f s' -> Q ip s') ->
  runs (iget 1 n) s Q.
Proof.
  intros (b & -> & Hb) Hno Hfree HQ. destruct (iget_scan_free 1 n (icache s0) 0 None Hno (or_intror Hfree)) as (j & Hj & Hcase).
  destruct Hcase as [?|(k & z & -> & Hz & Hz0)]; [done|]. unfold iget. apply runs_bind. eapply runs_Ok; [done|].
  change (icache (set_blk b s0)) with (icache s0). rewrite Hj. apply runs_bind. unfold updi, geti. apply runs_bind. eapply runs_Ok.
  { unfold bind, gets. cbn. by rewrite Hz. }
  eapply runs_Ok; [done|]. eapply runs_Ok; [done|]. apply (HQ k z); [done|done|]. exists b. split; [done|done].
Qed.

Section one.
Context (s0 : fss) (Hsb : sb s0 = sb0) (ip : nat) (Hip : (ip < length (icache s0))%nat).

Lemma runs_gets_pid {A} x held lg f (k : Z -> F A) s Q :
  holds (withi s0 ip x) held lg f s -> runs (k (fpid s0)) s Q -> runs (bind (gets fpid) k) s Q.
Proof. intros (b & -> & Hb) Hk. apply runs_bind. by eapply runs_Ok. Qed.

Lemma iacquire_runs x held lg f s :
  holds (withi s0 ip x) held lg f s -> sl_locked (i_lock x) = 0 ->
  runs (iacquire ip) s (fun _ => holds (withi s0 ip (set_i_lock (Sleeplock 1 (fpid s0)) x)) held lg f).
Proof.
  intros Hh Hl. unfold iacquire. eapply runs_geti; [done|exact Hh|]. rewrite Hl. cbn [Z.eqb negb].
  eapply runs_gets_pid; [exact Hh|]. by apply (runs_updi' s0 ip Hip x).
Qed.

(** The inode as [ilock] leaves it: held by the process, with the fields that
    are on the disk. *)
Definition loaded f x : inode :=
  let di := get_dinode (f (IBLOCK (i_inum x) sb0)) (Z.to_nat (i_inum x mod IPB)) in
  Inode (i_dev x) (i_inum x) (i_ref x) (Sleeplock 1 (fpid s0)) 1 (d_type di) (d_major di) (d_minor di) (d_nlink di) (d_size di) (d_addrs di).

Lemma ilock_load x lg f s :
  holds (withi s0 ip x) [] lg f s -> 1 <= i_ref x -> sl_locked (i_lock x) = 0 -> i_valid x = 0 -> i_dev x = 1 ->
  0 <= i_inum x < sb_ninodes sb0 -> (length lg < NBUF)%nat -> i_type (loaded f x) <> 0 ->
  runs (ilock ip) s (fun _ => holds (withi s0 ip (loaded f x)) [] lg f).
Proof.
  intros Hh Hr Hl Hv Hd Hn Hlg Ht. unfold ilock. eapply runs_geti; [done|exact Hh|]. rewrite (proj2 (Z.ltb_ge _ _) Hr).
  apply runs_bind. eapply runs_mono; [by apply (iacquire_runs x)|]. intros [] s1 Hh1. eapply runs_geti; [done|exact Hh1|].
  cbn [i_valid set_i_lock i_dev i_inum]. rewrite Hv. change (0 =? 0) with true. cbn [when]. eapply runs_gets_sb; [exact Hh1|exact Hsb|]. rewrite Hd.
  assert (Hhm : bl_vis (IBLOCK (i_inum x) sb0)).
  { destruct (ly_inodes _ Hly _ Hn) as [H1 H2]. apply bl_home_vis, (ly_home _ Hly). pose proof (ly_data _ Hly). pose proof (size_pos sb0 Hly).
    unfold dstart in *. pose proof (Z.div_pos (sb_size sb0) BPB ltac:(lia) BPB_pos). lia. }
  eapply runs_bread; [exact Hh1|done|apply not_elem_of_nil|cbn; lia|]. intros h s2 Hh2. eapply runs_bdata; [exact Hh2|left|]. cbv zeta.
  eapply runs_updi; [done|exact Hh2|]. intros s3 Hh3. apply runs_bind. eapply runs_brelse; [exact Hh3|]. intros s4 Hh4.
  eapply runs_updi; [done|exact Hh4|]. intros s5 Hh5. change (d_type _) with (i_type (loaded f x)). rewrite (proj2 (Z.eqb_neq _ 0) Ht).
  eapply runs_Ok; [done|]. exact Hh5.
Qed.

(** Giving up an inode that stays linked. *)
Lemma iunlockput_runs x lg f s :
  holds (withi s0 ip x) [] lg f s -> 1 <= i_ref x -> i_lock x = Sleeplock 1 (fpid s0) -> i_nlink x <> 0 ->
  runs (iunlockput ip) s (fun _ => holds (withi s0 ip (set_i_ref (i_ref x - 1) (set_i_lock (Sleeplock 0 0) x))) [] lg f).
Proof.
  intros Hh Hr Hl Hnl. unfold iunlockput, iunlock, iholding. apply runs_bind, runs_bind. eapply runs_geti; [done|exact Hh|].
  eapply runs_gets_pid; [exact Hh|]. rewrite Hl. cbn [sl_locked sl_pid Z.eqb negb andb]. rewrite Z.eqb_refl. eapply runs_Ok; [done|].
  eapply runs_geti; [done|exact Hh|]. cbn [negb orb]. rewrite (proj2 (Z.ltb_ge _ _) Hr).
  eapply runs_mono; [by apply (runs_updi' s0 ip Hip x)|]. intros [] s1 Hh1. unfold iput.
  apply runs_bind. eapply runs_mono; [by apply (iacquire_runs _ _ _ _ _ Hh1)|]. intros [] s2 Hh2. eapply runs_geti; [done|exact Hh2|].
  cbn [i_valid i_nlink i_ref set_i_lock]. rewrite (proj2 (Z.eqb_neq _ 0) Hnl), andb_false_r. cbn [andb when]. apply runs_bind. eapply runs_Ok; [done|].
  unfold irelease. eapply runs_updi; [done|exact Hh2|]. intros s3 Hh3. eapply runs_mono; [by apply (runs_updi' s0 ip Hip _ _ _ _ _ _ Hh3)|]. by intros [] s4.
Qed.

(** ** Directories *)

Section dir.
Context (x : inode) (lg : list Z) (f : Z -> list Z) (name : list Z).
Hypothesis Hok : inode_ok f x.
Hypothesis Hlg : (length lg < NBUF)%nat.
Hypothesis Hdir : i_type x = T_DIR.
Hypothesis H16 : i_size x mod 16 = 0.

Lemma read_dirent_runs msg k s : holds (withi s0 ip x) [] lg f s -> Z.of_nat k < i_size x / 16 ->
  runs (read_dirent dev_read msg ip (16 * Z.of_nat k)) s (fun de s' => de = dirent_at (content f x) k /\ holds (withi s0 ip x) [] lg f s').
Proof.
  intros Hh Hk. assert (Hsz := io_size _ _ _ Hok). pose proof (Z.div_mod (i_size x) 16 ltac:(done)) as Hdm.
  assert (Hmx : MAXFILE * Z.of_nat BSIZE < 2 ^ 31) by done. unfold read_dirent. apply runs_bind. change sizeof_dirent with 16.
  eapply runs_mono; [apply (readi_runs sb0 Hly dev_read s0 ip Hip f x lg (16 * Z.of_nat k) 16 s Hok); [by rewrite Hdir|done|done|lia|lia]|].
  intros [r bs] s' [Hh' Hr]. rewrite decide_False in Hr by lia. destruct Hr as [Hbs Hr].
  assert (Hl : length bs = 16%nat).
  { rewrite Hbs, length_take, length_drop. unfold content. rewrite length_fmap, length_seqZ. lia. }
  rewrite Hr, Hl. cbn [Z.eqb negb Pos.eqb]. change (negb (Z.of_nat 16 =? 16)) with false. eapply runs_Ok; [done|]. split; [|done].
  unfold dirent_at. rewrite Hbs. do 3 f_equal. lia.
Qed.

Definition found (o : option (nat * dirent)) (Q : option (nat * Z) -> fss -> Prop) : Prop := forall s, holds (withi s0 ip x) [] lg f s ->
  match o with
  | None => Q None s
  | Some (k, de) => runs (iget 1 (de_inum de)) s (fun jp s' => Q (Some (jp, 16 * Z.of_nat k)) s')
  end.

Lemma dirlookup_loop_runs fuel : forall k s Q, holds (withi s0 ip x) [] lg f s ->
  (Z.to_nat (i_size x / 16) - k < fuel)%nat ->
  found (prod_map (Nat.add k) id <$> list_find (names name) (drop k (dirents (content f x)))) Q ->
  runs (dirlookup_loop dev_read fuel ip name (16 * Z.of_nat k)) s Q.
Proof.
  assert (Hld : length (dirents (content f x)) = Z.to_nat (i_size x / 16)).
  { pose proof (io_size _ _ _ Hok). unfold dirents. rewrite length_fmap, length_seq. unfold content. rewrite length_fmap, length_seqZ. rewrite Z2Nat.inj_div by lia. done. }
  pose proof (Z.div_mod (i_size x) 16 ltac:(done)) as Hdm. induction fuel as [|fuel IH]; intros k s Q Hh Hf HQ; [lia|]. cbn [dirlookup_loop].
  eapply runs_geti; [done|exact Hh|]. destruct (Z.ltb_spec (16 * Z.of_nat k) (i_size x)) as [Hlt|Hge].
  2: { rewrite drop_ge in HQ by lia. eapply runs_Ok; [done|]. by apply (HQ s). }
  apply runs_bind. eapply runs_mono; [apply read_dirent_runs; [done|lia]|]. intros de s1 [Hde Hh1].
  assert (Hdk : drop k (dirents (content f x)) = de :: drop (S k) (dirents (content f x))).
  { apply drop_S. unfold dirents. rewrite list_lookup_fmap. unfold dirents in Hld. rewrite length_fmap, length_seq in Hld. rewrite lookup_seq_lt by lia. by rewrite Hde. }
  rewrite Hdk in HQ. cbn [list_find] in HQ. replace (16 * Z.of_nat k + sizeof_dirent) with (16 * Z.of_nat (S k)) by (unfold sizeof_dirent; lia).
  assert (Hnext : ~ names name de -> runs (dirlookup_loop dev_read fuel ip name (16 * Z.of_nat (S k))) s1 Q).
  { intros Hn. apply IH; [done|lia|]. rewrite decide_False in HQ by done. intros s' Hs'. specialize (HQ s' Hs').
    destruct (list_find _ _) as [[j de']|]; [|done]. cbn in *. replace (S (k + j)) with (k + S j)%nat by lia. done. }
  destruct (Z.eqb_spec (de_inum de) 0) as [H0|H0]; [apply Hnext; by intros [? _]|].
  destruct (namecmp name (de_name de)) eqn:Hn; [|apply Hnext; intros [_ ?]; congruence].
  rewrite decide_True in HQ by done. specialize (HQ s1 Hh1). cbn in HQ. rewrite Nat.add_0_r in HQ. rewrite (io_dev _ _ _ Hok).
  apply runs_bind. eapply runs_mono; [exact HQ|]. intros jp s2 H2. by eapply runs_Ok.
Qed.

(** [dirlookup] finds the first entry in use with the name. *)
Lemma dirlookup_runs s Q : holds (withi s0 ip x) [] lg f s -> found (dir_find name (content f x)) Q -> runs (dirlookup dev_read ip name) s Q.
Proof.
  intros Hh HQ. unfold dirlookup. eapply runs_geti; [done|exact Hh|]. rewrite Hdir. change (negb (T_DIR =? T_DIR)) with false. cbv iota.
  apply (dirlookup_loop_runs _ 0 s Q Hh); [change sizeof_dirent with 16; pose proof (io_size _ _ _ Hok); pose proof (Z.div_pos (i_size x) 16); lia|].
  rewrite drop_0. fold (dir_find name (content f x)). intros s' Hs'. specialize (HQ s' Hs'). by destruct (dir_find _ _) as [[k de]|].
Qed.
End dir.
End one.

(** ** Path names *)

Lemma skipelem_one nm : nm <> [] -> SLASH ∉ nm -> skipelem (SLASH :: nm) = Some (take DIRSIZ nm, []).
Proof.
  intros Hne Hns. assert (Hte : take_elem nm = (nm, [])).
  { clear Hne. induction nm as [|c nm IH]; [done|]. apply not_elem_of_cons in Hns as [Hc Hns]. cbn [take_elem]. rewrite (proj2 (Z.eqb_neq c SLASH)) by done. by rewrite IH. }
  unfold skipelem. cbn [skip_slashes]. rewrite Z.eqb_refl. destruct nm as [|c nm]; [done|]. apply not_elem_of_cons in Hns as [Hc Hns].
  cbn [skip_slashes]. rewrite (proj2 (Z.eqb_neq c SLASH)) by done. by rewrite Hte.
Qed.

Lemma withi_comm (s0 : fss) i j x y : i <> j -> withi (withi s0 i x) j y = withi (withi s0 j y) i x.
Proof. intros Hij. unfold withi, set_icache. cbn. by rewrite list_insert_insert_ne. Qed.

Definition blank (z : inode) : Prop := i_ref z = 0 /\ i_lock z = Sleeplock 0 0.

(** [namei] of a file in the root directory, when the cache is empty: the entry
    for the root is given back, and the file's inode has one of its own. *)
Lemma namei_root (s0 : fss) lg f s nm k de :
  sb s0 = sb0 -> Forall blank (icache s0) -> (2 <= length (icache s0))%nat -> holds s0 [] lg f s -> (length lg < NBUF)%nat -> 1 < sb_ninodes sb0 ->
  (forall z, let r := loaded s0 f (fresh_inode 1 z) in
    inode_ok f r /\ i_type r = T_DIR /\ i_nlink r <> 0 /\ i_size r mod 16 = 0 /\ dir_find (take DIRSIZ nm) (content f r) = Some (k, de)) ->
  de_inum de <> 1 -> nm <> [] -> SLASH ∉ nm ->
  runs (namei dev_read (SLASH :: nm)) s (fun o s' => exists jp z s1, o = Some jp /\ blank z /\ sb s1 = sb0 /\ fpid s1 = fpid s0 /\
    (jp < length (icache s1))%nat /\ holds (withi s1 jp (fresh_inode (de_inum de) z)) [] lg f s').
Proof.
  intros Hsb Hbl Hlen Hh Hlg Hni Hroot Hde Hne Hns. unfold namei, namex. apply runs_bind, runs_bind. rewrite Z.eqb_refl. change ROOTDEV with 1. change ROOTINO with 1.
  assert (Hz : forall j z, icache s0 !! j = Some z -> blank z) by (intros j z Hj; exact (Forall_lookup_1 _ _ _ _ Hbl Hj)).
  eapply (iget_new s0 [] lg f s 1); [exact Hh| | |].
  { intros j z Hj Hr. destruct (Hz j z Hj). lia. }
  { destruct (lookup_lt_is_Some_2 (icache s0) 0) as [z Hz0]; [lia|]. exists O, z. split; [done|]. by apply (Hz 0%nat). }
  intros ip z s1 Hip _ Hh1. destruct (Hroot z) as (Hok & Hty & Hnl & H16 & Hfind). assert (Hipl := lookup_lt_Some _ _ _ Hip). destruct (Hz ip z Hip) as [_ Hzl].
  change (length (SLASH :: nm)) with (S (length nm)). cbn [namex_loop]. rewrite skipelem_one by done.
  set (r := loaded s0 f (fresh_inode 1 z)) in *.
  apply runs_bind. eapply runs_mono; [apply (ilock_load s0 Hsb ip Hipl (fresh_inode 1 z) lg f s1 Hh1)|]; cbn [fresh_inode i_ref i_lock i_valid i_dev i_inum]; try done; try lia.
  { by rewrite Hzl. } { change (i_type r <> 0). by rewrite Hty. }
  fold r. intros [] s2 Hh2. eapply runs_geti; [done|exact Hh2|]. rewrite Hty. change (negb (T_DIR =? T_DIR)) with false. cbn [andb].
  apply runs_bind. eapply (dirlookup_runs s0 ip Hipl r lg f); [done..|exact Hh2|]. rewrite Hfind. intros s3 Hh3.
  eapply (iget_new (withi s0 ip r) [] lg f s3); [exact Hh3| | |].
  { intros j y Hj Hr [_ Hn]. apply list_lookup_insert_Some in Hj as [(<- & <- & _)|[_ Hj]]; [by rewrite <- Hn in Hde|]. destruct (Hz j y Hj). lia. }
  { assert (Hj : exists j, j <> ip /\ (j < length (icache s0))%nat) by (destruct ip; [exists 1%nat|exists 0%nat]; lia).
    destruct Hj as (j & Hj & Hjl). destruct (lookup_lt_is_Some_2 _ _ Hjl) as [y Hy]. exists j, y. split; [|by apply (Hz j)].
    unfold withi. cbn. by rewrite list_lookup_insert_ne. }
  intros jp y s4 Hjp Hy0 Hh4. assert (Hij : ip <> jp).
  { intros <-. unfold withi in Hjp. cbn in Hjp. rewrite list_lookup_insert_eq in Hjp by done. injection Hjp as <-. done. }
  assert (Hjs : icache s0 !! jp = Some y) by (unfold withi in Hjp; cbn in Hjp; by rewrite list_lookup_insert_ne in Hjp).
  rewrite withi_comm in Hh4 by done. set (y' := fresh_inode (de_inum de) y) in *. assert (Hipl' : (ip < length (icache (withi s0 jp y')))%nat) by (unfold withi; cbn; by rewrite length_insert).
  apply runs_bind. eapply runs_mono; [apply (iunlockput_runs (withi s0 jp y') ip Hipl' r lg f s4 Hh4); done|].
  intros [] s5 Hh5. rewrite withi_comm in Hh5 by done. destruct nm as [|c nm]; [done|]. cbn [length namex_loop]. change (skipelem []) with (@None (list Z * list Z)). cbv iota.
  eapply runs_Ok; [done|]. eapply runs_Ok; [done|]. exists jp, y. eexists. split; [done|]. split; [by apply (Hz jp)|].
  split; [|split; [|split; [|exact Hh5]]]; [done|done|]. unfold withi. cbn. rewrite length_insert. by apply lookup_lt_Some in Hjs.
Qed.
End run.
