(* ===== verification/Mkfs.v ===== *)
(** The builder of the file system image ([mkfs.c]), a program of the host.

    The image is a file of sectors; reading a sector that is not there ends the
    program, as does a failed assertion.  The host is little-endian. *)

From S2P Require Import Prelude Layout CString Bytes Bio Block Log Fs.

Definition NINODES : Z := 200.
Definition nbitmap : Z := FSSIZE / (Z.of_nat BSIZE * 8) + 1.
Definition ninodeblocks : Z := NINODES / IPB + 1.
Definition nlog : Z := Z.of_nat LOGSIZE.
Definition nmeta : Z := 2 + nlog + ninodeblocks + nbitmap.

(** [xshort] and [xint]: the bytes in Intel order, read back as a number. *)
Definition xshort (x : Z) : Z := rd16 (le16 x) 0.
Definition xint (x : Z) : Z := rd32 (le32 x) 0.

Definition mk_sb : superblock :=
  Superblock (xint FSSIZE) (xint (FSSIZE - nmeta)) (xint NINODES) (xint nlog) (xint 2) (xint (2 + nlog))
    (xint (2 + nlog + ninodeblocks)).
Definition sb_bytes (sb : superblock) : list Z :=
  concat (le32 <$> [sb_size sb; sb_nblocks sb; sb_ninodes sb; sb_nlog sb; sb_logstart sb; sb_inodestart sb; sb_bmapstart sb]).

Definition zeroes : list Z := replicate BSIZE 0.

(** ** The image *)

Record mk := Mk { mimg : gmap Z (list Z); freeinode : Z; freeblock : Z }.
Definition set_mimg (v : gmap Z (list Z)) (s : mk) : mk := Mk v (freeinode s) (freeblock s).
Definition set_freeinode (v : Z) (s : mk) : mk := Mk (mimg s) v (freeblock s).
Definition set_freeblock (v : Z) (s : mk) : mk := Mk (mimg s) (freeinode s) v.
Definition MK (A : Type) : Type := M mk A.

Definition wsect (sec : Z) (buf : list Z) : MK () := modify (fun s => set_mimg (<[sec := buf]> (mimg s)) s).
Definition rsect (sec : Z) : MK (list Z) :=
  m ← gets mimg;
  deref "read" (m !! sec).

Definition winode (inum : Z) (ip : dinode) : MK () :=
  let bn := IBLOCK inum mk_sb in
  buf ← rsect bn;
  wsect bn (put_dinode buf (Z.to_nat (inum mod IPB)) ip).
Definition rinode (inum : Z) : MK dinode :=
  buf ← rsect (IBLOCK inum mk_sb);
  ret (get_dinode buf (Z.to_nat (inum mod IPB))).

Definition ialloc (type : Z) : MK Z :=
  inum ← gets freeinode;
  modify (set_freeinode (u32 (inum + 1)));;
  winode inum (Dinode (xshort type) 0 0 (xshort 1) (xint 0) (replicate (NDIRECT + 1) 0));;
  ret inum.

(** [freeblock++] *)
Definition new_block : MK Z :=
  b ← gets freeblock;
  modify (set_freeblock (u32 (b + 1)));;
  ret b.

(** [balloc]: the bitmap with the first [used] bits set. *)
Fixpoint mark (used : nat) (buf : list Z) : list Z :=
  match used with
  | O => buf
  | S n => set_bit (mark n buf) (Z.of_nat n)
  end.
Definition balloc (used : Z) : MK () :=
  if negb (used <? Z.of_nat BSIZE * 8) then panic "assert" else
  wsect (sb_bmapstart mk_sb) (mark (Z.to_nat used) zeroes).

(** ** Files *)

Definition d_addr (din : dinode) (k : nat) : Z := d_addrs din !!! k.
Definition set_d_addr (k : nat) (v : Z) (din : dinode) : dinode :=
  Dinode (d_type din) (d_major din) (d_minor din) (d_nlink din) (d_size din) (<[k := v]> (d_addrs din)).
Definition set_d_size (v : Z) (din : dinode) : dinode :=
  Dinode (d_type din) (d_major din) (d_minor din) (d_nlink din) v (d_addrs din).

(** Entry [k] of [din.addrs], which is given a new block if it has none. *)
Definition addr_of (din : dinode) (k : nat) : MK dinode :=
  if xint (d_addr din k) =? 0 then
    b ← new_block;
    ret (set_d_addr k (xint b) din)
  else ret din.

(** The block with number [fbn] of the file. *)
Definition file_block (din : dinode) (fbn : Z) : MK (dinode * Z) :=
  if fbn <? Z.of_nat NDIRECT then
    din ← addr_of din (Z.to_nat fbn);
    ret (din, xint (d_addr din (Z.to_nat fbn)))
  else
    din ← addr_of din NDIRECT;
    let ind := xint (d_addr din NDIRECT) in
    let k := (4 * Z.to_nat (fbn - Z.of_nat NDIRECT))%nat in
    indirect ← rsect ind;
    indirect ← (if rd32 indirect k =? 0 then
                  b ← new_block;
                  let indirect := wr indirect k (le32 (xint b)) in
                  wsect ind indirect;;
                  ret indirect
                else ret indirect);
    ret (din, xint (rd32 indirect k)).

Fixpoint iappend_loop (fuel : nat) (din : dinode) (off : Z) (p : list Z) : MK (dinode * Z) :=
  match fuel with
  | O => spin
  | S fuel =>
      if (0 <? length p)%nat then
        let fbn := off / Z.of_nat BSIZE in
        if negb (fbn <? MAXFILE) then panic "assert" else
        '(din, x) ← file_block din fbn;
        let n1 := Z.min (Z.of_nat (length p)) ((fbn + 1) * Z.of_nat BSIZE - off) in
        buf ← rsect x;
        wsect x (wr buf (Z.to_nat (off - fbn * Z.of_nat BSIZE)) (take (Z.to_nat n1) p));;
        iappend_loop fuel din (off + n1) (drop (Z.to_nat n1) p)
      else ret (din, off)
  end.
Definition iappend (inum : Z) (xp : list Z) : MK () :=
  din ← rinode inum;
  '(din, off) ← iappend_loop (S (length xp)) din (xint (d_size din)) xp;
  winode inum (set_d_size (xint off) din).

(** ** The program *)

(** A directory entry; the name fills its field up with zeros. *)
Definition entry (inum : Z) (name : list Z) : MK (list Z) :=
  name ← deref "name" (CString.strncpy (replicate DIRSIZ 0) (name ++ [0]) (Z.of_nat DIRSIZ));
  ret (put_dirent (Dirent (xshort inum) name)).

(** [while((cc = read(fd, buf, sizeof(buf))) > 0) iappend(inum, buf, cc)] *)
Fixpoint append_all (fuel : nat) (inum : Z) (bytes : list Z) : MK () :=
  match fuel with
  | O => spin
  | S fuel =>
      match bytes with
      | [] => ret ()
      | _ => iappend inum (take BSIZE bytes);; append_all fuel inum (drop BSIZE bytes)
      end
  end.

(** One argument: the name of a file of the host and its contents. *)
Definition add_file (rootino : Z) (arg : list Z * list Z) : MK () :=
  let '(name, bytes) := arg in
  if bool_decide (47 ∈ name) then panic "assert" else
  let name := match name with c :: rest => if c =? 95 then rest else name | [] => [] end in
  inum ← ialloc T_FILE;
  de ← entry inum name;
  iappend rootino de;;
  append_all (S (length bytes)) inum bytes.
Fixpoint add_files (rootino : Z) (args : list (list Z * list Z)) : MK () :=
  match args with
  | [] => ret ()
  | a :: args => add_file rootino a;; add_files rootino args
  end.

Fixpoint zero_from (n : nat) (i : Z) : MK () :=
  match n with
  | O => ret ()
  | S n => wsect i zeroes;; zero_from n (i + 1)
  end.

(** [main], after the image has been opened. *)
Definition mkfs (args : list (list Z * list Z)) : MK () :=
  modify (set_freeblock nmeta);;
  zero_from (Z.to_nat FSSIZE) 0;;
  wsect 1 (sb_bytes mk_sb ++ replicate (BSIZE - 28) 0);;
  rootino ← ialloc T_DIR;
  if negb (rootino =? ROOTINO) then panic "assert" else
  de ← entry rootino [46];
  iappend rootino de;;
  de ← entry rootino [46; 46];
  iappend rootino de;;
  add_files rootino args;;
  din ← rinode rootino;
  let off := xint (d_size din) in
  let off := (off / Z.of_nat BSIZE + 1) * Z.of_nat BSIZE in
  winode rootino (set_d_size (xint off) din);;
  used ← gets freeblock;
  balloc used.
