(* ===== verification/MkfsThms.v ===== *)
(** The image that [mkfs] builds is a file system: it has the files it was
    given, and the kernel's invariants hold of it. *)

From S2P Require Import Prelude Layout CString Bytes Bio Block Log Fs FsBlocks FsFile FsRw FsInode FsWrite Mkfs.

(** ** One file *)

Lemma nmeta_eq : nmeta = 63.
Proof. done. Qed.

(** [x] has the blocks [0 .. cap - 1], all of them below [fb], each once; the
    bytes behind the end of the file are 0. *)
Record file_ok (f : Z -> list Z) (fb cap : Z) (x : inode) : Prop := FileOk {
  fk_len : length (i_addrs x) = 13%nat;
  fk_cap : 0 <= cap <= MAXFILE;
  fk_slot : forall k, 0 <= k < cap -> nmeta <= slot_of f x k < fb;
  fk_none : forall k, cap <= k < MAXFILE -> slot_of f x k = 0;
  fk_ind : if decide (12 < cap) then nmeta <= indirect x < fb else indirect x = 0;
  fk_inj : forall j k, a_slot j -> a_slot k -> slot_of f x j <> 0 -> slot_of f x j = slot_of f x k -> j = k;
  fk_size : 0 <= i_size x <= cap * BS;
  fk_tail : forall p, i_size x <= p < cap * BS -> byte_of f x p = 0
}.

(** Block [b] belongs to the file. *)
Definition owns (f : Z -> list Z) (x : inode) (b : Z) : Prop := b <> 0 /\ exists k, a_slot k /\ slot_of f x k = b.

Lemma slot_max f x : slot_of f x MAXFILE = indirect x.
Proof. done. Qed.

Lemma slot_low f x k : 0 <= k < 12 -> slot_of f x k = i_addrs x !!! Z.to_nat k.
Proof. intros Hk. unfold slot_of. by rewrite (proj2 (Z.ltb_lt _ _)) by (unfold NDIRECT; lia). Qed.

Lemma slot_high f x k : 12 <= k < MAXFILE ->
  slot_of f x k = if indirect x =? 0 then 0 else rd32 (f (indirect x)) (4 * Z.to_nat (k - 12)).
Proof.
  intros Hk. unfold slot_of. by rewrite (proj2 (Z.ltb_ge _ _)), (proj2 (Z.eqb_neq k MAXFILE)) by (unfold NDIRECT; lia).
Qed.

Lemma owned_range f fb cap x b : file_ok f fb cap x -> owns f x b -> nmeta <= b < fb.
Proof.
  intros [] (Hb & k & Hk & <-). unfold a_slot in Hk. destruct (Z.eq_dec k MAXFILE) as [->|].
  - rewrite slot_max in *. by destruct (decide (12 < cap)).
  - destruct (Z_lt_le_dec k cap); [apply fk_slot0; lia|]. rewrite fk_none0 in Hb by lia. done.
Qed.

Lemma owns_slot f fb cap x k : file_ok f fb cap x -> 0 <= k < cap -> owns f x (slot_of f x k).
Proof.
  intros [] Hk. specialize (fk_slot0 k Hk). split; [rewrite nmeta_eq in *; lia|]. exists k. split; [unfold a_slot; lia|done].
Qed.

(** Other blocks do not matter. *)
Lemma file_ok_frame f f' fb fb' cap x :
  file_ok f fb cap x -> fb <= fb' -> (forall b, owns f x b -> f' b = f b) ->
  file_ok f' fb' cap x /\ content f' x = content f x /\ forall k, a_slot k -> slot_of f' x k = slot_of f x k.
Proof.
  intros Hok Hfb Hag.
  assert (Hs : forall k, a_slot k -> slot_of f' x k = slot_of f x k).
  { intros k Hk. unfold a_slot in Hk. destruct (Z_lt_le_dec k 12); [by rewrite !slot_low by lia|].
    destruct (Z.eq_dec k MAXFILE) as [->|]; [done|]. rewrite !slot_high by lia. destruct (Z.eqb_spec (indirect x) 0); [done|].
    f_equal. apply Hag. split; [done|]. exists MAXFILE. split; [unfold a_slot, MAXFILE; lia|done]. }
  assert (Hb : forall p, 0 <= p < cap * BS -> byte_of f' x p = byte_of f x p).
  { intros p Hp. assert (Hk : 0 <= p / BS < cap).
    { split; [apply Z.div_pos; [lia|done]|apply Z.div_lt_upper_bound; [done|lia]]. }
    unfold byte_of. rewrite Hs by (unfold a_slot; pose proof (fk_cap _ _ _ _ Hok); lia).
    by rewrite Hag by (by eapply owns_slot). }
  assert (Hok' := Hok). destruct Hok'. split_and!; [|apply list_fmap_ext; intros i p Hp%lookup_seqZ; apply Hb; lia|done].
  constructor; try done.
  - intros k Hk. rewrite Hs by (unfold a_slot; lia). specialize (fk_slot0 k Hk). lia.
  - intros k Hk. rewrite Hs by (unfold a_slot; lia). by apply fk_none0.
  - case_decide; [lia|done].
  - intros j k Hj Hk. rewrite !Hs by done. by apply fk_inj0.
  - intros p Hp. rewrite Hb by lia. by apply fk_tail0.
Qed.

Lemma byte_at_zeroes i : byte_at zeroes i = 0.
Proof.
  unfold byte_at, zeroes. destruct (replicate BSIZE 0 !! i) as [c|] eqn:Hc; [|done]. by apply lookup_replicate in Hc as [-> _].
Qed.

(** A new block at the end of the file. *)
Lemma grow_ok f fb cap x f' fb' x' nb :
  file_ok f fb cap x -> cap < MAXFILE -> nmeta <= fb -> fb <= nb < fb' ->
  length (i_addrs x') = 13%nat -> i_size x' = i_size x ->
  (forall j, 0 <= j < MAXFILE -> slot_of f' x' j = if decide (j = cap) then nb else slot_of f x j) ->
  (if decide (cap = 12) then fb <= indirect x' < fb' /\ indirect x' <> nb else indirect x' = indirect x) ->
  f' nb = zeroes -> (forall j, 0 <= j < cap -> f' (slot_of f x j) = f (slot_of f x j)) ->
  file_ok f' fb' (cap + 1) x' /\ content f' x' = content f x.
Proof.
  intros Hok Hc Hm Hnb Hlen Hsz Hs Hi Hz Hag. assert (Hok' := Hok). destruct Hok'. rewrite nmeta_eq in *.
  assert (Hb : forall p, 0 <= p < cap * BS -> byte_of f' x' p = byte_of f x p).
  { intros p Hp. assert (Hk : 0 <= p / BS < cap).
    { split; [apply Z.div_pos; [lia|done]|apply Z.div_lt_upper_bound; [done|lia]]. }
    unfold byte_of. rewrite Hs, decide_False, Hag by lia. done. }
  split.
  2: { unfold content. rewrite Hsz. apply list_fmap_ext. intros i p Hp%lookup_seqZ. apply Hb. lia. }
  assert (Hold : forall j, a_slot j -> slot_of f x j < fb).
  { intros j Hj. destruct (decide (slot_of f x j = 0)) as [->|Hne]; [lia|]. eapply (owned_range f fb cap x); [exact Hok|]. by split; [|exists j]. }
  constructor; rewrite ?nmeta_eq; try done; try lia.
  - intros k Hk. rewrite Hs by lia. destruct (decide (k = cap)); [lia|]. specialize (fk_slot0 k ltac:(lia)). lia.
  - intros k Hk. rewrite Hs, decide_False by lia. apply fk_none0. lia.
  - destruct (decide (cap = 12)), (decide (12 < cap + 1)), (decide (12 < cap)); lia.
  - assert (Hmx : slot_of f' x' MAXFILE = indirect x') by done.
    assert (Hno : forall j, 0 <= j < MAXFILE -> slot_of f' x' j = slot_of f' x' MAXFILE -> slot_of f' x' j = 0).
    { intros j Hj He. rewrite Hmx in He. rewrite Hs in * by lia. assert (HjO := Hold j ltac:(unfold a_slot; lia)).
      destruct (decide (cap = 12)) as [Hc12|Hc12].
      - destruct (decide (j = cap)); [lia|]. lia.
      - rewrite Hi in He. destruct (decide (j = cap)) as [->|].
        + assert (HiO := Hold MAXFILE ltac:(unfold a_slot; lia)). rewrite slot_max in HiO. lia.
        + destruct (decide (slot_of f x j = 0)) as [|Hne]; [done|]. assert (j = MAXFILE); [|lia].
          apply (fk_inj0 j MAXFILE); [unfold a_slot; lia|unfold a_slot; lia|done|done]. }
    intros j k Hj Hk Hne He. unfold a_slot in Hj, Hk. destruct (Z.eq_dec j MAXFILE) as [->|]; destruct (Z.eq_dec k MAXFILE) as [->|]; [done| | |].
    + exfalso. rewrite He in Hne. apply Hne, Hno; [lia|by rewrite He].
    + exfalso. apply Hne, Hno; [lia|done].
    + rewrite !Hs in * by lia. assert (HjO := Hold j ltac:(unfold a_slot; lia)). assert (HkO := Hold k ltac:(unfold a_slot; lia)).
      destruct (decide (j = cap)), (decide (k = cap)); try lia. by apply (fk_inj0 j k); unfold a_slot; try lia.
  - rewrite Hsz. unfold BS, BSIZE in *. lia.
  - intros p Hp. destruct (Z_lt_le_dec p (cap * BS)) as [Hlt|Hge]; [rewrite Hb by lia; apply fk_tail0; lia|].
    unfold byte_of. assert (p / BS = cap) as ->; [|rewrite Hs, decide_True, Hz by lia; apply byte_at_zeroes].
    symmetry. apply (Z.div_unique_pos p BS cap (p - cap * BS)); unfold BS, BSIZE in *; lia.
Qed.

(** Bytes at the end of the file, in a block it has. *)
Lemma write_ok f fb cap x bs :
  let off := i_size x in
  let b := slot_of f x (off / BS) in
  let f' := upd f b (wr (f b) (Z.to_nat (off mod BS)) bs) in
  let x' := set_i_size (off + Z.of_nat (length bs)) x in
  file_ok f fb cap x -> off / BS < cap -> off mod BS + Z.of_nat (length bs) <= BS -> length (f b) = BSIZE ->
  file_ok f' fb cap x' /\ content f' x' = content f x ++ bs /\ forall j, a_slot j -> slot_of f' x' j = slot_of f x j.
Proof.
  intros off b f' x' Hok Hk Hfit Hlen. assert (Hok' := Hok). destruct Hok'. fold off in fk_size0, fk_tail0.
  pose proof (Z.div_pos off BS ltac:(lia) ltac:(done)) as Hk0. pose proof (Z.mod_pos_bound off BS ltac:(done)) as Hm.
  pose proof (Z.div_mod off BS ltac:(done)) as Hdm. set (k := off / BS) in *. fold b in Hlen.
  assert (Hb0 : b <> 0) by (specialize (fk_slot0 k ltac:(lia)); rewrite nmeta_eq in *; unfold b; lia).
  assert (Hfb : forall j, a_slot j -> j <> k -> slot_of f x j <> 0 -> f' (slot_of f x j) = f (slot_of f x j)).
  { intros j Hj Hne H0. unfold f', upd. rewrite decide_False; [done|]. intros He. apply Hne.
    apply (fk_inj0 j k); [done|unfold a_slot; lia|done|done]. }
  assert (Hs : forall j, a_slot j -> slot_of f' x' j = slot_of f x j).
  { intros j Hj. unfold a_slot in Hj. destruct (Z_lt_le_dec j 12); [by rewrite !slot_low by lia|].
    destruct (Z.eq_dec j MAXFILE) as [->|]; [done|]. rewrite !slot_high by lia. change (indirect x') with (indirect x).
    destruct (Z.eqb_spec (indirect x) 0); [done|]. f_equal. apply (Hfb MAXFILE); [unfold a_slot, MAXFILE; lia|lia|done]. }
  assert (Hby : forall p, 0 <= p < cap * BS -> byte_of f' x' p =
    if decide (off <= p < off + Z.of_nat (length bs)) then byte_at bs (Z.to_nat (p - off)) else byte_of f x p).
  { intros p Hp. assert (Hj : 0 <= p / BS < cap).
    { split; [apply Z.div_pos; [lia|done]|apply Z.div_lt_upper_bound; [done|lia]]. }
    pose proof (Z.div_mod p BS ltac:(done)) as Hpd. pose proof (Z.mod_pos_bound p BS ltac:(done)) as Hpm.
    assert (Hfits : (Z.to_nat (off mod BS) + length bs <= length (f b))%nat) by (rewrite Hlen; assert (BS = Z.of_nat BSIZE) by done; lia).
    unfold byte_of. rewrite Hs by (unfold a_slot; lia). destruct (Z.eq_dec (p / BS) k) as [He|Hne].
    - rewrite He in *. fold b. unfold f', upd. rewrite decide_True by done. destruct (decide (off <= p < off + Z.of_nat (length bs))) as [Hin|Hin].
      + replace (Z.to_nat (p mod BS)) with (Z.to_nat (off mod BS) + Z.to_nat (p - off))%nat by lia. apply byte_at_wr_at; [done|lia].
      + apply byte_at_wr_out; [done|]. lia.
    - rewrite Hfb by (try (unfold a_slot; lia); try done; specialize (fk_slot0 (p / BS) Hj); rewrite nmeta_eq in *; lia).
      rewrite decide_False; [done|]. unfold BS, BSIZE in *. nia. }
  split_and!; [| |exact Hs].
  - constructor; try done.
    + intros j Hj. rewrite Hs by (unfold a_slot; lia). by apply fk_slot0.
    + intros j Hj. rewrite Hs by (unfold a_slot; lia). by apply fk_none0.
    + intros i j Hi Hj. rewrite !Hs by done. by apply fk_inj0.
    + unfold x'. cbn [i_size set_i_size]. unfold BS, BSIZE in *. nia.
    + unfold x'. cbn [i_size set_i_size]. intros p Hp. rewrite Hby, decide_False by lia. apply fk_tail0. lia.
  - unfold content, x'. cbn [i_size set_i_size]. fold x'. fold off. rewrite (seqZ_split 0 (off + Z.of_nat (length bs)) off) by lia.
    rewrite fmap_app. f_equal.
    + apply list_fmap_ext. intros i p Hp%lookup_seqZ. rewrite Hby, decide_False by lia. done.
    + apply list_eq. intros i. rewrite list_lookup_fmap. replace (off + Z.of_nat (length bs) - off) with (Z.of_nat (length bs)) by lia.
      destruct (decide (i < length bs)%nat) as [Hi|Hi].
      * rewrite lookup_seqZ_lt by lia. cbn [fmap option_fmap option_map]. rewrite Hby, decide_True by (unfold BS, BSIZE in *; nia).
        destruct (lookup_lt_is_Some_2 bs i Hi) as [c Hc]. rewrite Hc. unfold byte_at. replace (Z.to_nat (0 + off + Z.of_nat i - off)) with i by lia. by rewrite Hc.
      * rewrite lookup_seqZ_ge by lia. cbn. symmetry. apply lookup_ge_None_2. lia.
Qed.

(** ** All files *)

Record disk_ok (f : Z -> list Z) (fb : Z) (cs : list Z) (xs : list inode) : Prop := DiskOk {
  dk_files : Forall2 (file_ok f fb) cs xs;
  dk_apart : forall i j x y b, xs !! i = Some x -> xs !! j = Some y -> owns f x b -> owns f y b -> i = j
}.

Lemma owns_frame f f' fb cap x b :
  file_ok f fb cap x -> (forall b, owns f x b -> f' b = f b) -> owns f' x b <-> owns f x b.
Proof.
  intros Hok Hag. destruct (file_ok_frame f f' fb fb cap x Hok ltac:(lia) Hag) as (_ & _ & Hs).
  unfold owns. split; intros (H0 & k & Hk & He); (split; [done|]); exists k; (split; [done|]); by rewrite <- He, Hs.
Qed.

(** One file changed, within its blocks and new ones. *)
Lemma disk_update f fb cs xs i c x f' fb' c' x' :
  disk_ok f fb cs xs -> cs !! i = Some c -> xs !! i = Some x -> fb <= fb' -> file_ok f' fb' c' x' ->
  (forall b, nmeta <= b < fb -> ~ owns f x b -> f' b = f b) -> (forall b, owns f' x' b -> owns f x b \/ fb <= b) ->
  disk_ok f' fb' (<[i := c']> cs) (<[i := x']> xs) /\
  content f' <$> <[i := x']> xs = <[i := content f' x']> (content f <$> xs).
Proof.
  intros [Hf Hap] Hc Hx Hfb Hok' Hag Hown. assert (Hli := lookup_lt_Some _ _ _ Hx).
  assert (Hoth : forall j cj y, j <> i -> cs !! j = Some cj -> xs !! j = Some y -> file_ok f fb cj y /\ forall b, owns f y b -> f' b = f b).
  { intros j cj y Hj Hcj Hy. assert (Hoky : file_ok f fb cj y) by (by apply (Forall2_lookup_lr _ _ _ _ _ _ Hf Hcj Hy)). split; [done|].
    intros b Hb. apply Hag; [by eapply owned_range|]. intros Hb'. by apply Hj, (Hap j i y x b). }
  assert (Hcs : forall j y, xs !! j = Some y -> exists cj, cs !! j = Some cj).
  { intros j y Hy. apply lookup_lt_Some in Hy. rewrite <- (Forall2_length _ _ _ Hf) in Hy. by apply lookup_lt_is_Some_2 in Hy as [cj ?]; exists cj. }
  assert (Hnew : forall j y b, j <> i -> xs !! j = Some y -> owns f' y b -> ~ owns f' x' b).
  { intros j y b Hj Hy Hby Hbx. destruct (Hcs j y Hy) as [cj Hcj]. destruct (Hoth j cj y Hj Hcj Hy) as [Hoky Hagy].
    rewrite (owns_frame f f' fb cj y b Hoky Hagy) in Hby. destruct (Hown b Hbx) as [Hb|Hb]; [by apply Hj, (Hap j i y x b)|].
    pose proof (owned_range _ _ _ _ _ Hoky Hby). lia. }
  split; [constructor|].
  - apply Forall2_same_length_lookup_2; [by rewrite !length_insert; apply (Forall2_length _ _ _ Hf)|].
    intros j cj y Hcj Hy. apply list_lookup_insert_Some in Hy as [(<- & <- & _)|[Hj Hy]].
    + rewrite list_lookup_insert_eq in Hcj by (by apply lookup_lt_Some in Hc). by injection Hcj as <-.
    + rewrite list_lookup_insert_ne in Hcj by done. destruct (Hoth j cj y) as [Hoky Hagy]; [done..|]. by apply (file_ok_frame f f' fb).
  - intros j k y z b Hy Hz Hby Hbz.
    apply list_lookup_insert_Some in Hy as [(<- & <- & _)|[Hj Hy]]; apply list_lookup_insert_Some in Hz as [(<- & <- & _)|[Hk Hz]]; [done| | |].
    + exfalso. by apply (Hnew k z b).
    + exfalso. by apply (Hnew j y b).
    + destruct (Hcs j y Hy) as [cj Hcj]. destruct (Hoth j cj y) as [Hoky Hagy]; [done..|].
      destruct (Hcs k z Hz) as [ck Hck]. destruct (Hoth k ck z) as [Hokz Hagz]; [done..|].
      apply (Hap j k y z b Hy Hz); [by apply (owns_frame f f' fb cj y b)|by apply (owns_frame f f' fb ck z b)].
  - apply list_eq. intros j. rewrite list_lookup_fmap. destruct (decide (j = i)) as [->|Hj].
    + by rewrite !list_lookup_insert_eq by (by rewrite ?length_fmap).
    + rewrite !list_lookup_insert_ne, list_lookup_fmap by done. destruct (xs !! j) as [y|] eqn:Hy; [|done]. cbn. f_equal.
      destruct (Hcs j y Hy) as [cj Hcj]. destruct (Hoth j cj y) as [Hoky Hagy]; [done..|]. by apply (file_ok_frame f f' fb fb cj).
Qed.

(** ** The image *)

Definition sect (s : mk) (n : Z) : list Z := default zeroes (mimg s !! n).

(** The blocks of a file of [c] data blocks, and of all files. *)
Definition nblk (c : Z) : Z := c + if decide (12 < c) then 1 else 0.
Definition total (cs : list Z) : Z := foldr (fun c n => nblk c + n) 0 cs.

Record built (s : mk) (cs : list Z) (xs : list inode) : Prop := Built {
  bu_secs : forall n, 0 <= n < FSSIZE -> exists b, mimg s !! n = Some b /\ length b = BSIZE;
  bu_fb : freeblock s = nmeta + total cs;
  bu_fresh : forall n, freeblock s <= n < FSSIZE -> sect s n = zeroes;
  bu_disk : disk_ok (sect s) (freeblock s) cs xs
}.

(** Nothing happened outside the data blocks. *)
Definition meta_same (s s' : mk) : Prop :=
  freeinode s' = freeinode s /\ forall n, 0 <= n < nmeta -> mimg s' !! n = mimg s !! n.

Lemma nblk_pos c : 0 <= c -> 0 <= nblk c.
Proof. unfold nblk. case_decide; lia. Qed.

Lemma total_nonneg cs : Forall (fun c => 0 <= c) cs -> 0 <= total cs.
Proof. induction 1 as [|c cs Hc _ IH]; [done|]. change (total (c :: cs)) with (nblk c + total cs). pose proof (nblk_pos c Hc). lia. Qed.

Lemma total_insert cs i c c' : cs !! i = Some c -> total (<[i := c']> cs) = total cs + nblk c' - nblk c.
Proof.
  revert i. induction cs as [|d cs IH]; intros [|i] Hi; [done|done| |].
  - injection Hi as ->. change (nblk c' + total cs = nblk c + total cs + nblk c' - nblk c). lia.
  - change (nblk d + total (<[i := c']> cs) = nblk d + total cs + nblk c' - nblk c). rewrite (IH i Hi). lia.
Qed.

Lemma built_caps s cs xs : built s cs xs -> Forall (fun c => 0 <= c) cs.
Proof.
  intros [_ _ _ [Hf _]]. apply Forall_forall. intros c Hc. apply list_elem_of_lookup_1 in Hc as [i Hi].
  destruct (Forall2_lookup_l _ _ _ _ _ Hf Hi) as (x & _ & Hok). apply Hok.
Qed.

Lemma built_fb s cs xs : built s cs xs -> nmeta <= freeblock s.
Proof. intros Hb. rewrite (bu_fb _ _ _ Hb). pose proof (total_nonneg cs (built_caps s cs xs Hb)). lia. Qed.

Lemma sect_insert s n v m : sect (set_mimg (<[n := v]> (mimg s)) s) m = upd (sect s) n v m.
Proof. unfold sect, upd. cbn. case_decide as Hd; [subst; by rewrite lookup_insert_eq|by rewrite lookup_insert_ne]. Qed.

Lemma rsect_runs s cs xs n (Q : list Z -> mk -> Prop) :
  built s cs xs -> 0 <= n < FSSIZE -> (length (sect s n) = BSIZE -> Q (sect s n) s) -> runs (rsect n) s Q.
Proof.
  intros Hb Hn HQ. destruct (bu_secs _ _ _ Hb n Hn) as (v & Hv & Hl). unfold sect in HQ. rewrite Hv in HQ.
  eapply runs_Ok; [unfold rsect, bind, gets; rewrite Hv; reflexivity|]. by apply HQ.
Qed.

Lemma xint_id x : 0 <= x < 2 ^ 32 -> xint x = x.
Proof. intros Hx. unfold xint. rewrite <- (app_nil_r (le32 x)). by apply rd32_le32. Qed.

Lemma set_addr_len k v x : length (i_addrs x) = 13%nat -> length (i_addrs (set_i_addr k v x)) = 13%nat.
Proof. intros Hl. cbn. by rewrite length_insert. Qed.

(** A sector was written that is a new block, or one of the file's. *)
Lemma built_update s cs xs i c x s' c' x' :
  built s cs xs -> cs !! i = Some c -> xs !! i = Some x ->
  (forall n, 0 <= n < FSSIZE -> exists b, mimg s' !! n = Some b /\ length b = BSIZE) ->
  freeblock s' = freeblock s + nblk c' - nblk c -> freeblock s <= freeblock s' ->
  (forall n, freeblock s' <= n < FSSIZE -> sect s' n = sect s n) ->
  file_ok (sect s') (freeblock s') c' x' ->
  (forall b, nmeta <= b < freeblock s -> ~ owns (sect s) x b -> sect s' b = sect s b) ->
  (forall b, owns (sect s') x' b -> owns (sect s) x b \/ freeblock s <= b) ->
  built s' (<[i := c']> cs) (<[i := x']> xs) /\
  content (sect s') <$> <[i := x']> xs = <[i := content (sect s') x']> (content (sect s) <$> xs).
Proof.
  intros [] Hc Hx Hsecs Hfb Hle Hfresh Hok Hag Hown.
  destruct (disk_update _ _ _ _ _ _ _ (sect s') (freeblock s') c' x' bu_disk0 Hc Hx Hle Hok Hag Hown) as [Hd Hcon].
  split; [|done]. constructor; try done.
  - rewrite (total_insert cs i c c' Hc). lia.
  - intros n Hn. rewrite Hfresh by done. apply bu_fresh0. lia.
Qed.

(** ** [file_block] *)

Section file_block.
Context (s : mk) (cs : list Z) (xs : list inode) (i : nat) (c : Z) (x : inode) (fbn : Z).
Hypothesis Hb : built s cs xs.
Hypothesis Hc : cs !! i = Some c.
Hypothesis Hx : xs !! i = Some x.

Definition block_post (r : dinode * Z) (s' : mk) : Prop :=
  exists x', fst r = dinode_of x' /\ x' = with_addrs (i_addrs x') x /\
    built s' (<[i := Z.max c (fbn + 1)]> cs) (<[i := x']> xs) /\
    content (sect s') <$> <[i := x']> xs = content (sect s) <$> xs /\
    snd r = slot_of (sect s') x' fbn /\ meta_same s s'.

Lemma file_at : file_ok (sect s) (freeblock s) c x.
Proof. exact (Forall2_lookup_lr _ _ _ _ _ _ (dk_files _ _ _ _ (bu_disk _ _ _ Hb)) Hc Hx). Qed.

Lemma file_block_old : 0 <= fbn < c -> freeblock s <= FSSIZE -> runs (file_block (dinode_of x) fbn) s block_post.
Proof.
  intros Hf Hmax. assert (Hok := file_at). assert (Hs := fk_slot _ _ _ _ Hok fbn Hf). assert (Hi := fk_ind _ _ _ _ Hok).
  destruct (fk_cap _ _ _ _ Hok) as [_ Hcap]. rewrite nmeta_eq in *. unfold FSSIZE in Hmax.
  assert (Hdone : block_post (dinode_of x, slot_of (sect s) x fbn) s).
  { exists x. rewrite Z.max_l by lia. rewrite !list_insert_id by done. split_and!; [done|by destruct x|done|done|done|done]. }
  unfold file_block. destruct (Z.ltb_spec fbn (Z.of_nat NDIRECT)) as [Hlt|Hge]; unfold NDIRECT in *.
  - assert (Ha : d_addr (dinode_of x) (Z.to_nat fbn) = slot_of (sect s) x fbn) by (by rewrite slot_low by lia).
    apply runs_bind. unfold addr_of. rewrite Ha, xint_id by lia. rewrite (proj2 (Z.eqb_neq _ 0)) by lia. eapply runs_Ok; [done|].
    eapply runs_Ok; [done|]. by rewrite Ha, xint_id by lia.
  - rewrite decide_True in Hi by lia.
    assert (Ha : d_addr (dinode_of x) 12 = indirect x) by done.
    apply runs_bind. unfold addr_of. rewrite Ha, xint_id by lia. rewrite (proj2 (Z.eqb_neq _ 0)) by lia. eapply runs_Ok; [done|].
    cbv zeta. rewrite Ha, xint_id by lia. apply runs_bind. eapply rsect_runs; [exact Hb|unfold FSSIZE; lia|]. intros Hl.
    assert (Hr : rd32 (sect s (indirect x)) (4 * Z.to_nat (fbn - 12)) = slot_of (sect s) x fbn).
    { rewrite slot_high by lia. by rewrite (proj2 (Z.eqb_neq _ 0)) by lia. }
    change (Z.of_nat 12) with 12. rewrite Hr, (proj2 (Z.eqb_neq _ 0)) by lia. apply runs_bind. eapply runs_Ok; [done|].
    eapply runs_Ok; [done|]. by rewrite Hr, xint_id by lia.
Qed.

(** A new block, for the slot behind the last. *)
Lemma block_post_new s' x' nb :
  fbn = c -> c < MAXFILE -> x' = with_addrs (i_addrs x') x -> length (i_addrs x') = 13%nat ->
  (forall n, 0 <= n < FSSIZE -> exists b, mimg s' !! n = Some b /\ length b = BSIZE) ->
  freeblock s' = freeblock s + nblk (c + 1) - nblk c -> freeblock s <= nb < freeblock s' ->
  (forall n, n <> indirect x' -> sect s' n = sect s n) -> sect s' nb = zeroes ->
  (forall j, 0 <= j < MAXFILE -> slot_of (sect s') x' j = if decide (j = c) then nb else slot_of (sect s) x j) ->
  (if decide (c = 12) then freeblock s <= indirect x' < freeblock s' /\ indirect x' <> nb else indirect x' = indirect x) ->
  meta_same s s' -> block_post (dinode_of x', nb) s'.
Proof.
  intros Hfc Hcm Hwx Hlen Hsecs Hfb Hnb Hsame Hz Hs Hi Hmeta. assert (Hok := file_at). assert (Hnm := built_fb _ _ _ Hb).
  assert (Hcap := fk_cap _ _ _ _ Hok). assert (Hind := fk_ind _ _ _ _ Hok). rewrite nmeta_eq in *.
  assert (Hdata : forall j, 0 <= j < c -> slot_of (sect s) x j <> indirect x').
  { intros j Hj He. assert (Hr := fk_slot _ _ _ _ Hok j Hj). destruct (decide (c = 12)); [lia|]. rewrite Hi in He.
    assert (j = MAXFILE); [|lia]. apply (fk_inj _ _ _ _ Hok j MAXFILE); [unfold a_slot; lia|unfold a_slot; lia|rewrite nmeta_eq in *; lia|done]. }
  destruct (grow_ok (sect s) (freeblock s) c x (sect s') (freeblock s') x' nb) as [Hok' Hcon]; try done; try lia.
  { by rewrite Hwx. } { intros j Hj. apply Hsame. by apply Hdata. }
  assert (Hown : forall b, owns (sect s') x' b -> owns (sect s) x b \/ freeblock s <= b).
  { intros b (Hb0 & k & Hk & <-). unfold a_slot in Hk. destruct (Z.eq_dec k MAXFILE) as [->|Hne].
    - rewrite slot_max in *. destruct (decide (c = 12)); [right; lia|left]. rewrite Hi in *. split; [done|]. by exists MAXFILE.
    - rewrite Hs in * by lia. destruct (decide (k = c)); [right; lia|left]. split; [done|]. by exists k. }
  destruct (built_update s cs xs i c x s' (c + 1) x' Hb Hc Hx Hsecs Hfb ltac:(lia)) as [Hbu Hcon'].
  - intros n Hn. apply Hsame. destruct (decide (c = 12)); [lia|]. rewrite Hi. destruct (decide (12 < c)); lia.
  - done.
  - intros b Hbr Hno. apply Hsame. intros ->. destruct (decide (c = 12)); [lia|]. rewrite Hi in *. apply Hno.
    rewrite nmeta_eq in Hbr. destruct (decide (12 < c)); [|lia]. split; [lia|]. by exists MAXFILE.
  - exact Hown.
  - exists x'. rewrite Hfc, Z.max_r by lia. split_and!; [done|exact Hwx|exact Hbu| |cbn; by rewrite Hs, decide_True by lia|done].
    rewrite Hcon', Hcon, list_insert_id; [done|]. by rewrite list_lookup_fmap, Hx.
Qed.

Lemma new_block_eq t : freeblock t < 2 ^ 32 - 1 -> 0 <= freeblock t -> new_block t = Ok (freeblock t, set_freeblock (freeblock t + 1) t).
Proof. intros H1 H2. unfold new_block, bind, gets, modify, ret. by rewrite u32_small by lia. Qed.

(** One of the first twelve. *)
Lemma file_block_direct : fbn = c -> c < 12 -> freeblock s + 1 <= FSSIZE -> runs (file_block (dinode_of x) fbn) s block_post.
Proof.
  intros Hf Hc12 Hmax. assert (Hok := file_at). assert (Hnm := built_fb _ _ _ Hb). rewrite nmeta_eq in Hnm. unfold FSSIZE in Hmax.
  destruct (fk_cap _ _ _ _ Hok) as [Hc0 _]. assert (Hl := fk_len _ _ _ _ Hok). set (k := Z.to_nat c).
  assert (Hz : i_addrs x !!! k = 0) by (unfold k; rewrite <- (slot_low (sect s) x c) by lia; apply (fk_none _ _ _ _ Hok); unfold MAXFILE; lia).
  set (x' := set_i_addr k (freeblock s) x).
  assert (Hk : i_addrs x' !!! k = freeblock s) by (unfold x'; cbn; apply list_lookup_total_insert_eq; lia).
  unfold file_block. rewrite Hf, (proj2 (Z.ltb_lt _ _)) by (unfold NDIRECT; lia). fold k. apply runs_bind.
  unfold addr_of, d_addr. cbn [d_addrs dinode_of]. rewrite Hz. change (xint 0 =? 0) with true. cbv iota. apply runs_bind.
  eapply runs_Ok; [apply new_block_eq; lia|]. rewrite xint_id by lia. eapply runs_Ok; [done|].
  change (set_d_addr k (freeblock s) (dinode_of x)) with (dinode_of x'). cbn [d_addrs dinode_of]. rewrite Hk, xint_id by lia. eapply runs_Ok; [done|].
  apply block_post_new; try done; try (unfold MAXFILE; lia).
  - unfold x'. by apply set_addr_len.
  - apply Hb.
  - cbn. unfold nblk. rewrite !decide_False by lia. lia.
  - cbn. lia.
  - apply (bu_fresh _ _ _ Hb). unfold FSSIZE. lia.
  - intros j Hj. destruct (Z_lt_le_dec j 12).
    + rewrite !slot_low by lia. destruct (decide (j = c)) as [->|Hjc]; [done|]. unfold x'. cbn. apply list_lookup_total_insert_ne. lia.
    + rewrite !slot_high, decide_False by lia. unfold x', indirect. cbn. by rewrite list_lookup_total_insert_ne by (unfold NDIRECT; lia).
  - rewrite decide_False by lia. unfold x', indirect. cbn. by rewrite list_lookup_total_insert_ne by (unfold NDIRECT; lia).
Qed.

Lemma sect_len n : 0 <= n < FSSIZE -> length (sect s n) = BSIZE.
Proof. intros Hn. destruct (bu_secs _ _ _ Hb n Hn) as (b & Hv & Hl). unfold sect. by rewrite Hv. Qed.

(** An entry of the indirect block, which is [ind] in the state [t] that has
    it. *)
Lemma file_block_entry t x' ind (nb := freeblock t) (k := (4 * Z.to_nat (c - 12))%nat) (v := wr (sect s ind) k (le32 nb)) :
  fbn = c -> 12 <= c < MAXFILE -> mimg t = mimg s -> freeinode t = freeinode s ->
  x' = with_addrs (i_addrs x') x -> length (i_addrs x') = 13%nat -> indirect x' = ind ->
  (forall j, 0 <= j < 12 -> i_addrs x' !!! Z.to_nat j = i_addrs x !!! Z.to_nat j) ->
  nmeta <= ind < nb -> nb + 1 <= FSSIZE -> freeblock s <= nb -> nb + 1 = freeblock s + nblk (c + 1) - nblk c ->
  (if decide (c = 12) then ind = freeblock s else ind = indirect x) ->
  runs (indirect0 ← rsect ind;
        indirect0 ← (if rd32 indirect0 k =? 0 then
                  b ← new_block;
                  let indirect0 := wr indirect0 k (le32 (xint b)) in
                  wsect ind indirect0;;
                  ret indirect0
                else ret indirect0);
        ret (dinode_of x', xint (rd32 indirect0 k))) t block_post.
Proof.
  intros Hf Hc12 Himg Hfi Hwx Hlen Hix Hlow Hind Hmax Hfb Hcount Hwhich. assert (Hok := file_at). assert (Hnm := built_fb _ _ _ Hb).
  rewrite nmeta_eq in *. unfold FSSIZE in Hmax. assert (Hl := sect_len ind ltac:(unfold FSSIZE; lia)).
  assert (Hkk : (k + 4 <= 512)%nat) by (unfold k, MAXFILE in *; lia).
  assert (Hbt : mimg t !! ind = Some (sect s ind)).
  { rewrite Himg. destruct (bu_secs _ _ _ Hb ind ltac:(unfold FSSIZE; lia)) as (b & Hv & _). unfold sect. by rewrite Hv. }
  assert (Hr0 : forall j, 12 <= j < MAXFILE -> rd32 (sect s ind) (4 * Z.to_nat (j - 12)) = slot_of (sect s) x j).
  { intros j Hj. rewrite slot_high by lia. assert (Hi := fk_ind _ _ _ _ Hok). destruct (decide (c = 12)) as [->|].
    - rewrite decide_False in Hi by lia. rewrite Hi. cbn. rewrite Hwhich, (bu_fresh _ _ _ Hb) by (unfold FSSIZE; lia).
      unfold rd32. by rewrite !byte_at_zeroes.
    - rewrite decide_True, nmeta_eq in Hi by lia. by rewrite <- Hwhich, (proj2 (Z.eqb_neq ind 0)) by lia. }
  assert (Hnone : rd32 (sect s ind) k = 0) by (unfold k; rewrite Hr0 by lia; apply (fk_none _ _ _ _ Hok); lia).
  apply runs_bind. eapply runs_Ok; [unfold rsect, bind, gets; rewrite Hbt; reflexivity|]. apply runs_bind. rewrite Hnone. cbn [Z.eqb].
  apply runs_bind. eapply runs_Ok; [apply new_block_eq; lia|]. fold nb. rewrite xint_id by lia. cbv zeta. fold v. apply runs_bind. unfold wsect.
  eapply runs_Ok; [reflexivity|]. eapply runs_Ok; [reflexivity|].
  assert (Hv0 : rd32 v k = nb) by (apply (rd32_wr32 (sect s ind) k nb); [rewrite Hl; unfold BSIZE; lia|lia]).
  assert (Hlv : length v = BSIZE) by (unfold v; rewrite length_wr; [done|rewrite Hl; cbn; unfold BSIZE; lia]).
  rewrite Hv0, xint_id by lia. set (s' := set_mimg _ _). eapply runs_Ok; [reflexivity|].
  assert (Hsec : forall n, sect s' n = upd (sect s) ind v n).
  { intros n. unfold sect at 1. change (mimg s') with (<[ind := v]> (mimg t)). rewrite Himg. unfold upd.
    destruct (decide (n = ind)) as [->|]; [by rewrite lookup_insert_eq|by rewrite lookup_insert_ne]. }
  apply block_post_new; try done; try lia; rewrite ?Hix.
  - intros n Hn. change (mimg s') with (<[ind := v]> (mimg t)). rewrite Himg. destruct (decide (n = ind)) as [->|].
    + exists v. split; [apply lookup_insert_eq|done].
    + rewrite lookup_insert_ne by done. by apply (bu_secs _ _ _ Hb).
  - unfold s'. cbn. fold nb. lia.
  - intros n Hn. rewrite Hsec. unfold upd. by rewrite decide_False.
  - rewrite Hsec. unfold upd. rewrite decide_False by lia. apply (bu_fresh _ _ _ Hb). unfold FSSIZE. lia.
  - intros j Hj. destruct (Z_lt_le_dec j 12); [rewrite !slot_low, decide_False by lia; apply Hlow; lia|].
    rewrite (slot_high _ x') by lia. rewrite Hix, (proj2 (Z.eqb_neq ind 0)), Hsec by lia. unfold upd. rewrite decide_True by done.
    destruct (decide (j = c)) as [->|Hjc]; [done|]. rewrite <- Hr0 by lia. apply (rd32_wr32_ne (sect s ind) k nb); [rewrite Hl; unfold BSIZE; lia|unfold k; lia].
  - destruct (decide (c = 12)); [|done]. unfold s'. cbn. lia.
  - split; [done|]. intros n Hn. change (mimg s') with (<[ind := v]> (mimg t)). rewrite Himg, lookup_insert_ne; [done|]. rewrite nmeta_eq in Hn. lia.
Qed.

Lemma file_block_runs :
  0 <= fbn <= c -> fbn < MAXFILE -> freeblock s + nblk (Z.max c (fbn + 1)) - nblk c <= FSSIZE ->
  runs (file_block (dinode_of x) fbn) s block_post.
Proof.
  intros Hf Hm Hmax. assert (Hok := file_at). assert (Hnm := built_fb _ _ _ Hb). assert (Hl := fk_len _ _ _ _ Hok).
  destruct (Z_lt_le_dec fbn c) as [Hlt|Hge]; [apply file_block_old; [lia|]; rewrite Z.max_l in Hmax by lia; lia|].
  assert (Hfc : fbn = c) by lia. rewrite Z.max_r in Hmax by lia. rewrite Hfc in Hmax.
  destruct (Z_lt_le_dec c 12) as [Hc12|Hc12].
  { apply file_block_direct; [done|done|]. unfold nblk in Hmax. rewrite !decide_False in Hmax by lia. lia. }
  assert (Hi := fk_ind _ _ _ _ Hok). rewrite nmeta_eq in *. unfold file_block. rewrite Hfc, (proj2 (Z.ltb_ge _ _)) by (unfold NDIRECT; lia).
  change (Z.of_nat NDIRECT) with 12. unfold addr_of. change (d_addr (dinode_of x) NDIRECT) with (indirect x).
  destruct (Z.eq_dec c 12) as [He|Hne].
  - rewrite decide_False in Hi by lia. unfold nblk in Hmax. rewrite decide_True, decide_False in Hmax by lia. unfold FSSIZE in Hmax.
    set (x' := set_i_addr NDIRECT (freeblock s) x). assert (Hix : indirect x' = freeblock s).
    { unfold indirect, x'. cbn [set_i_addr i_addrs]. apply list_lookup_total_insert_eq. unfold NDIRECT. lia. }
    apply runs_bind. rewrite Hi. change (xint 0 =? 0) with true. cbv iota. apply runs_bind. eapply runs_Ok; [apply new_block_eq; lia|].
    rewrite xint_id by lia. eapply runs_Ok; [reflexivity|]. change (set_d_addr NDIRECT (freeblock s) (dinode_of x)) with (dinode_of x').
    cbv zeta. change (d_addr (dinode_of x') NDIRECT) with (indirect x'). rewrite Hix, xint_id by lia.
    apply file_block_entry; try done; try (unfold MAXFILE, FSSIZE; lia); cbn [freeblock set_freeblock].
    + unfold x'. by apply set_addr_len.
    + intros j Hj. unfold x'. cbn [set_i_addr i_addrs]. apply list_lookup_total_insert_ne. unfold NDIRECT. lia.
    + rewrite nmeta_eq. lia.
    + unfold FSSIZE. lia.
    + lia.
    + unfold nblk. rewrite decide_True, decide_False by lia. lia.
    + by rewrite decide_True by done.
  - rewrite decide_True in Hi by lia. unfold nblk in Hmax. rewrite !decide_True in Hmax by lia. unfold FSSIZE in Hmax.
    apply runs_bind. rewrite xint_id, (proj2 (Z.eqb_neq _ 0)) by lia. eapply runs_Ok; [reflexivity|].
    cbv zeta. change (d_addr (dinode_of x) NDIRECT) with (indirect x). rewrite xint_id by lia.
    apply file_block_entry; try done; try (unfold FSSIZE; rewrite ?nmeta_eq; lia).
    + by destruct x.
    + unfold nblk. rewrite !decide_True by lia. lia.
    + by rewrite decide_False.
Qed.
End file_block.

(** The size field plays no part in it. *)
Lemma file_block_size z din fbn s :
  file_block (set_d_size z din) fbn s = ('(din', b) ← file_block din fbn; ret (set_d_size z din', b)) s.
Proof.
  assert (Ha : forall k t, addr_of (set_d_size z din) k t = (din' ← addr_of din k; ret (set_d_size z din')) t).
  { intros k t. unfold addr_of. change (d_addr (set_d_size z din) k) with (d_addr din k). by destruct (_ =? 0). }
  unfold file_block. destruct (fbn <? Z.of_nat NDIRECT); unfold bind at 1; rewrite Ha; unfold bind, ret;
    destruct (addr_of din _ s) as [[din' t]| | |]; try done.
  change (d_addr (set_d_size z din') NDIRECT) with (d_addr din' NDIRECT).
  destruct (rsect _ t) as [[v t1]| | |]; [|done..]. destruct (rd32 v _ =? 0); [|done]. by destruct (new_block t1) as [[b t2]| | |].
Qed.

(** ** [iappend] *)

Definition caps (n : Z) : Z := (n + BS - 1) / BS.

Lemma caps_range n : 0 <= n -> 0 <= caps n /\ BS * caps n - BS < n <= BS * caps n.
Proof.
  intros Hn. unfold caps. pose proof (Z.div_mod (n + BS - 1) BS ltac:(done)). pose proof (Z.mod_pos_bound (n + BS - 1) BS ltac:(done)).
  split; [apply Z.div_pos; [pose proof BS_pos; lia|done]|lia].
Qed.

Lemma caps_next off n : 0 <= off -> 0 < n -> off mod BS + n <= BS -> caps (off + n) = off / BS + 1 /\ caps off <= off / BS + 1.
Proof.
  intros Ho Hn Hf. pose proof (Z.div_mod off BS ltac:(done)). pose proof (Z.mod_pos_bound off BS ltac:(done)).
  destruct (caps_range off Ho). destruct (caps_range (off + n) ltac:(lia)). unfold BS, BSIZE in *. lia.
Qed.

Lemma caps_mono m n : m <= n -> caps m <= caps n.
Proof. intros H. unfold caps. apply Z.div_le_mono; [done|lia]. Qed.

Lemma nblk_mono m n : m <= n -> nblk m <= nblk n.
Proof. intros H. unfold nblk. repeat case_decide; lia. Qed.

(** Bytes written behind the end, in a block the file has. *)
Lemma write_built s cs xs i c x bs :
  let off := i_size x in
  let b := slot_of (sect s) x (off / BS) in
  let s' := set_mimg (<[b := wr (sect s b) (Z.to_nat (off mod BS)) bs]> (mimg s)) s in
  let x' := set_i_size (off + Z.of_nat (length bs)) x in
  built s cs xs -> cs !! i = Some c -> xs !! i = Some x -> off / BS < c -> off mod BS + Z.of_nat (length bs) <= BS -> freeblock s <= FSSIZE ->
  built s' cs (<[i := x']> xs) /\ content (sect s') <$> <[i := x']> xs = <[i := content (sect s) x ++ bs]> (content (sect s) <$> xs) /\
  meta_same s s'.
Proof.
  intros off b s' x' Hb Hc Hx Hk Hfit Hmax. assert (Hok := file_at s cs xs i c x Hb Hc Hx).
  assert (Hsz := fk_size _ _ _ _ Hok). pose proof (Z.div_pos off BS ltac:(unfold off; lia) ltac:(done)) as Hk0.
  assert (Hbr := fk_slot _ _ _ _ Hok (off / BS) ltac:(lia)). fold b in Hbr. rewrite nmeta_eq in Hbr.
  assert (Hl := sect_len s cs xs Hb b ltac:(lia)). pose proof (Z.mod_pos_bound off BS ltac:(done)) as Hm.
  destruct (write_ok (sect s) (freeblock s) c x bs Hok Hk Hfit Hl) as (Hok' & Hcon & Hsl). fold off b x' in Hok', Hcon, Hsl.
  assert (Hsec : forall n, sect s' n = upd (sect s) b (wr (sect s b) (Z.to_nat (off mod BS)) bs) n) by (intros n; apply sect_insert).
  assert (Hall : forall b0, owns (upd (sect s) b (wr (sect s b) (Z.to_nat (off mod BS)) bs)) x' b0 ->
    sect s' b0 = upd (sect s) b (wr (sect s b) (Z.to_nat (off mod BS)) bs) b0) by auto.
  destruct (file_ok_frame _ (sect s') _ (freeblock s) _ _ Hok' ltac:(lia) Hall) as (Hok2 & Hcon2 & _).
  assert (Hfs : freeblock s' = freeblock s) by done.
  destruct (built_update s cs xs i c x s' c x' Hb Hc Hx) as [Hbu Hc']; try done; try lia.
  - intros n Hn. change (mimg s') with (<[b := wr (sect s b) (Z.to_nat (off mod BS)) bs]> (mimg s)). destruct (decide (n = b)) as [->|].
    + eexists. split; [apply lookup_insert_eq|]. rewrite length_wr; [done|]. rewrite Hl. assert (BS = Z.of_nat BSIZE) by done. lia.
    + rewrite lookup_insert_ne by done. by apply (bu_secs _ _ _ Hb).
  - intros n Hn. rewrite Hsec. unfold upd. rewrite decide_False; [done|]. cbn [freeblock s' set_mimg] in Hn. lia.
  - intros b0 Hr Hno. rewrite Hsec. unfold upd. rewrite decide_False; [done|]. intros ->. apply Hno. eapply owns_slot; [exact Hok|lia].
  - intros b0 Ho. left. apply (owns_frame _ (sect s') _ _ _ _ Hok' Hall) in Ho. destruct Ho as (H0 & k & Hks & <-).
    rewrite Hsl in * by done. split; [done|]. by exists k.
  - rewrite list_insert_id in Hbu by done. split_and!; [done|by rewrite Hc', Hcon2, Hcon|]. split; [done|]. intros n Hn.
    change (mimg s') with (<[b := wr (sect s b) (Z.to_nat (off mod BS)) bs]> (mimg s)). rewrite lookup_insert_ne; [done|]. rewrite nmeta_eq in Hn. lia.
Qed.

Lemma meta_trans s s1 s2 : meta_same s s1 -> meta_same s1 s2 -> meta_same s s2.
Proof. intros [H1 H2] [H3 H4]. split; [congruence|]. intros n Hn. by rewrite H4, H2. Qed.

Section iappend.
Context (i : nat).

Definition append_post (z : Z) (s : mk) (cs : list Z) (xs : list inode) (x : inode) (p : list Z) (r : dinode * Z) (s' : mk) : Prop :=
  let sz := i_size x + Z.of_nat (length p) in
  snd r = sz /\ exists x', fst r = set_d_size z (dinode_of x') /\ x' = set_i_size sz (with_addrs (i_addrs x') x) /\
    built s' (<[i := caps sz]> cs) (<[i := x']> xs) /\
    content (sect s') <$> <[i := x']> xs = <[i := content (sect s) x ++ p]> (content (sect s) <$> xs) /\ meta_same s s'.

(** The first bytes, then the rest. *)
Lemma append_trans z s cs xs x s2 c2 x2 bs rest r s' :
  xs !! i = Some x -> x2 = set_i_size (i_size x + Z.of_nat (length bs)) (with_addrs (i_addrs x2) x) ->
  content (sect s2) <$> <[i := x2]> xs = <[i := content (sect s) x ++ bs]> (content (sect s) <$> xs) -> meta_same s s2 ->
  append_post z s2 (<[i := c2]> cs) (<[i := x2]> xs) x2 rest r s' -> append_post z s cs xs x (bs ++ rest) r s'.
Proof.
  intros Hx Hx2 Hcon Hm (Hr & x' & Hd & Hx' & Hb & Hcon' & Hm'). assert (Hli := lookup_lt_Some _ _ _ Hx).
  assert (Hsz : i_size x2 + Z.of_nat (length rest) = i_size x + Z.of_nat (length (bs ++ rest))) by (rewrite Hx2, length_app; cbn; lia).
  assert (Hc2 : content (sect s2) x2 = content (sect s) x ++ bs).
  { assert (Hl := f_equal (fun l => l !! i) Hcon). cbn beta in Hl.
    rewrite list_lookup_fmap, !list_lookup_insert_eq in Hl by (by rewrite ?length_fmap). by injection Hl. }
  unfold append_post in *. cbv zeta in *. rewrite Hsz in *. rewrite !list_insert_insert_eq in Hb. rewrite list_insert_insert_eq in Hcon'. split; [done|]. exists x'. split_and!; [done| |done| |].
  - rewrite Hx', Hx2. done.
  - rewrite Hcon', Hcon, Hc2, list_insert_insert_eq. by rewrite <- app_assoc.
  - by eapply meta_trans.
Qed.

Lemma iappend_loop_runs z fuel : forall p s cs xs x,
  built s cs xs -> cs !! i = Some (caps (i_size x)) -> xs !! i = Some x -> (length p < fuel)%nat ->
  i_size x + Z.of_nat (length p) <= MAXFILE * BS ->
  freeblock s + nblk (caps (i_size x + Z.of_nat (length p))) - nblk (caps (i_size x)) <= FSSIZE ->
  runs (iappend_loop fuel (set_d_size z (dinode_of x)) (i_size x) p) s (append_post z s cs xs x p).
Proof.
  induction fuel as [|fuel IH]; intros p s cs xs x Hb Hc Hx Hf Hsz Hmax; [lia|]. cbn [iappend_loop].
  assert (Hok := file_at s cs xs i _ x Hb Hc Hx). destruct (fk_size _ _ _ _ Hok) as [Hs0 _]. set (off := i_size x) in *.
  destruct (Nat.ltb_spec 0 (length p)) as [Hp|Hp].
  2: { assert (p = []) as -> by (by apply length_zero_iff_nil; lia). eapply runs_Ok; [done|]. cbn [length] in *. unfold append_post. cbn [length]. fold off.
       rewrite Z.add_0_r, app_nil_r. split; [done|]. exists x. rewrite !list_insert_id; [|by rewrite list_lookup_fmap, Hx|done|done].
       split_and!; [done|by destruct x|done|done|done]. }
  change (Z.of_nat BSIZE) with BS. cbv zeta. pose proof (Z.div_mod off BS ltac:(done)) as Hdm. pose proof (Z.mod_pos_bound off BS ltac:(done)) as Hm.
  pose proof (Z.div_pos off BS ltac:(lia) ltac:(done)) as Hk0. set (k := off / BS) in *.
  assert (Hkm : k < MAXFILE) by (apply Z.div_lt_upper_bound; [done|lia]). rewrite (proj2 (Z.ltb_lt k MAXFILE) Hkm). cbn [negb].
  set (n1 := Z.min (Z.of_nat (length p)) ((k + 1) * BS - off)).
  assert (Hn1 : 0 < n1 <= Z.of_nat (length p) /\ off mod BS + n1 <= BS) by (unfold n1; unfold BS, BSIZE in *; lia).
  destruct (caps_next off n1 Hs0 ltac:(lia) ltac:(lia)) as [Hcn Hcl]. fold k in Hcn, Hcl. destruct (caps_range off Hs0) as [_ Hcr].
  assert (Hmono : caps (off + n1) <= caps (off + Z.of_nat (length p))) by (apply caps_mono; lia).
  assert (Hmono' := nblk_mono _ _ Hmono). rewrite Hcn in Hmono'.
  apply runs_bind. unfold runs. rewrite file_block_size. apply runs_bind.
  eapply runs_mono; [apply (file_block_runs s cs xs i (caps off) x k Hb Hc Hx)|].
  { unfold BS, BSIZE in *. lia. } { done. } { rewrite Z.max_r by lia. lia. }
  intros [din b] s1 (x1 & Hd & Hw1 & Hb1 & Hcon1 & Hslot & Hm1). cbn [fst snd] in Hd, Hslot. subst din b. eapply runs_Ok; [done|].
  rewrite Z.max_r in Hb1 by lia. assert (Hsz1 : i_size x1 = off) by (by rewrite Hw1).
  assert (Hx1 : <[i := x1]> xs !! i = Some x1) by (apply list_lookup_insert_eq; by apply lookup_lt_Some in Hx).
  assert (Hc1 : <[i := k + 1]> cs !! i = Some (k + 1)) by (apply list_lookup_insert_eq; by apply lookup_lt_Some in Hc).
  assert (Hfb1 : freeblock s1 <= FSSIZE).
  { rewrite (bu_fb _ _ _ Hb1), (total_insert cs i (caps off) (k + 1) Hc). rewrite (bu_fb _ _ _ Hb) in Hmax. lia. }
  assert (Hok1 := file_at _ _ _ _ _ _ Hb1 Hc1 Hx1). assert (Hsr := fk_slot _ _ _ _ Hok1 k ltac:(lia)). rewrite nmeta_eq in Hsr.
  apply runs_bind. eapply rsect_runs; [exact Hb1|lia|]. intros Hl.
  set (bs := take (Z.to_nat n1) p). assert (Hlb : Z.of_nat (length bs) = n1) by (unfold bs; rewrite length_take; lia).
  destruct (write_built s1 _ _ i (k + 1) x1 bs Hb1 Hc1 Hx1) as (Hb2 & Hcon2 & Hm2); rewrite ?Hsz1; fold k; [lia|lia|done|].
  rewrite Hsz1 in Hb2, Hcon2, Hm2. fold k in Hb2, Hcon2, Hm2. rewrite Hlb in Hb2, Hcon2. rewrite list_insert_insert_eq in Hb2, Hcon2.
  apply runs_bind. unfold wsect. eapply runs_Ok; [reflexivity|]. replace (off - k * BS) with (off mod BS) by lia.
  set (s2 := set_mimg _ s1) in *. set (x2 := set_i_size (off + n1) x1) in *.
  change (set_d_size z (dinode_of x1)) with (set_d_size z (dinode_of x2)).
  replace (off + n1) with (i_size x2) by done.
  assert (Hlen : Z.of_nat (length (drop (Z.to_nat n1) p)) = Z.of_nat (length p) - n1) by (rewrite length_drop; lia).
  assert (Hsum : i_size x2 + Z.of_nat (length (drop (Z.to_nat n1) p)) = off + Z.of_nat (length p)) by (rewrite Hlen; cbn; lia).
  eapply runs_mono; [apply (IH (drop (Z.to_nat n1) p) s2 (<[i := k + 1]> cs) (<[i := x2]> xs) x2 Hb2)|].
  - rewrite Hc1. cbn [i_size x2 set_i_size]. by rewrite Hcn.
  - apply list_lookup_insert_eq. by apply lookup_lt_Some in Hx.
  - lia.
  - lia.
  - rewrite Hsum. cbn [i_size x2 set_i_size]. rewrite Hcn. cbn [freeblock s2 set_mimg].
    rewrite (bu_fb _ _ _ Hb1), (total_insert cs i (caps off) (k + 1) Hc). rewrite (bu_fb _ _ _ Hb) in Hmax. lia.
  - intros r s' Hpost. rewrite <- (take_drop (Z.to_nat n1) p). fold bs.
    apply (append_trans z s cs xs x s2 (k + 1) x2 bs _ r s' Hx); [| | |exact Hpost].
    + rewrite Hlb. unfold x2. rewrite Hw1. done.
    + rewrite Hcon2, Hcon1. assert (Hat := f_equal (fun l => l !! i) Hcon1). cbn beta in Hat.
      rewrite list_lookup_fmap, Hx1, list_lookup_fmap, Hx in Hat. injection Hat as ->. done.
    + by eapply meta_trans.
Qed.
End iappend.

(** ** Inodes on the image *)

Definition disk_inode (f : Z -> list Z) (inum : Z) : inode :=
  let di := get_dinode (f (IBLOCK inum mk_sb)) (Z.to_nat (inum mod IPB)) in
  Inode 1 inum 0 (Sleeplock 0 0) 1 (d_type di) (d_major di) (d_minor di) (d_nlink di) (d_size di) (d_addrs di).

Definition inum_ok (inum : Z) : Prop := 1 <= inum < 208.

Lemma iblock_range inum : inum_ok inum -> 32 <= IBLOCK inum mk_sb < 58.
Proof.
  intros Hi. unfold IBLOCK. change (sb_inodestart mk_sb) with 32. unfold inum_ok, IPB in *.
  pose proof (Z.div_mod inum 8 ltac:(done)). pose proof (Z.mod_pos_bound inum 8 ltac:(done)). lia.
Qed.

Lemma same_place i j : inum_ok i -> inum_ok j -> IBLOCK i mk_sb = IBLOCK j mk_sb -> Z.to_nat (i mod IPB) = Z.to_nat (j mod IPB) -> i = j.
Proof.
  unfold IBLOCK, inum_ok, IPB. intros Hi Hj H1 H2.
  pose proof (Z.div_mod i 8 ltac:(done)). pose proof (Z.mod_pos_bound i 8 ltac:(done)).
  pose proof (Z.div_mod j 8 ltac:(done)). pose proof (Z.mod_pos_bound j 8 ltac:(done)). lia.
Qed.

(** What an inode of the image has besides its contents. *)
Definition plain (inum t : Z) (x : inode) : Prop :=
  x = Inode 1 inum 0 (Sleeplock 0 0) 1 t 0 0 1 (i_size x) (i_addrs x) /\ - 2 ^ 15 <= t < 2 ^ 15.

Lemma plain_dinode f fb cap inum t x : plain inum t x -> file_ok f fb cap x -> fb <= FSSIZE -> dinode_ok (dinode_of x).
Proof.
  intros [Hx Ht] Hok Hfb. assert (Hsz := fk_size _ _ _ _ Hok). assert (Hcap := fk_cap _ _ _ _ Hok). rewrite Hx.
  constructor; cbn [d_type d_major d_minor d_nlink d_size d_addrs dinode_of i_type i_major i_minor i_nlink i_size i_addrs]; try lia.
  - unfold MAXFILE, BS, BSIZE in *. lia.
  - apply Hok.
  - apply Forall_lookup_2. intros k a Ha. assert (Hk := lookup_lt_Some _ _ _ Ha). rewrite (fk_len _ _ _ _ Hok) in Hk.
    assert (Hs : exists j, a_slot j /\ slot_of f x j = a).
    { destruct (decide (k = 12%nat)) as [->|].
      - exists MAXFILE. split; [unfold a_slot, MAXFILE; lia|]. rewrite slot_max. unfold indirect. by apply list_lookup_total_correct.
      - exists (Z.of_nat k). split; [unfold a_slot, MAXFILE; lia|]. rewrite slot_low, Nat2Z.id by lia. by apply list_lookup_total_correct. }
    destruct Hs as (j & Hj & <-). destruct (decide (slot_of f x j = 0)) as [->|Hne]; [lia|].
    assert (Hr : nmeta <= slot_of f x j < fb) by (eapply owned_range; [exact Hok|]; by split; [|exists j]). rewrite nmeta_eq in Hr. unfold FSSIZE in Hfb. lia.
Qed.

(** A block of the part before the data was written. *)
Lemma built_meta s cs xs n v :
  built s cs xs -> 0 <= n < nmeta -> length v = BSIZE -> freeblock s <= FSSIZE ->
  let s' := set_mimg (<[n := v]> (mimg s)) s in
  built s' cs xs /\ content (sect s') <$> xs = content (sect s) <$> xs.
Proof.
  intros Hb Hn Hl Hmax s'. assert (Hnm := built_fb _ _ _ Hb). assert (Hb' := Hb). destruct Hb' as [H1 H2 H3 [H4 H5]].
  assert (Hsec : forall m, m <> n -> sect s' m = sect s m).
  { intros m Hm. unfold s'. rewrite sect_insert. unfold upd. by rewrite decide_False. }
  assert (Hag : forall j cj y, cs !! j = Some cj -> xs !! j = Some y -> file_ok (sect s) (freeblock s) cj y /\ forall b, owns (sect s) y b -> sect s' b = sect s b).
  { intros j cj y Hcj Hy. assert (Hok := Forall2_lookup_lr _ _ _ _ _ _ H4 Hcj Hy). split; [done|]. intros b Hbo.
    apply Hsec. pose proof (owned_range _ _ _ _ _ Hok Hbo). lia. }
  assert (Hcs : forall j y, xs !! j = Some y -> exists cj, cs !! j = Some cj).
  { intros j y Hy. apply lookup_lt_Some in Hy. rewrite <- (Forall2_length _ _ _ H4) in Hy. by apply lookup_lt_is_Some_2 in Hy as [cj ?]; exists cj. }
  split; [constructor; [|done| |constructor]|].
  - intros m Hm. change (mimg s') with (<[n := v]> (mimg s)). destruct (decide (m = n)) as [->|]; [exists v; split; [apply lookup_insert_eq|done]|].
    rewrite lookup_insert_ne by done. by apply H1.
  - intros m Hm. rewrite Hsec; [by apply H3|]. change (freeblock s') with (freeblock s) in Hm. lia.
  - apply Forall2_same_length_lookup_2; [apply (Forall2_length _ _ _ H4)|]. intros j cj y Hcj Hy. destruct (Hag j cj y Hcj Hy) as [Hok Hagy].
    by apply (file_ok_frame (sect s) (sect s') (freeblock s)).
  - intros j k y z b Hy Hz Hby Hbz. destruct (Hcs j y Hy) as [cj Hcj]. destruct (Hag j cj y Hcj Hy) as [Hoky Hagy].
    destruct (Hcs k z Hz) as [ck Hck]. destruct (Hag k ck z Hck Hz) as [Hokz Hagz].
    apply (H5 j k y z b Hy Hz); [by apply (owns_frame _ (sect s') _ _ _ _ Hoky Hagy)|by apply (owns_frame _ (sect s') _ _ _ _ Hokz Hagz)].
  - apply list_fmap_ext. intros j y Hy. destruct (Hcs j y Hy) as [cj Hcj]. destruct (Hag j cj y Hcj Hy) as [Hoky Hagy].
    by apply (file_ok_frame (sect s) (sect s') (freeblock s) (freeblock s) cj).
Qed.

Definition cs_of (fl : list (Z * list Z)) : list Z := (fun e => caps (Z.of_nat (length (snd e)))) <$> fl.
Definition sb_block : list Z := sb_bytes mk_sb ++ replicate (BSIZE - 28) 0.

(** The blocks that hold neither inodes nor data. *)
Definition low (n : Z) : Prop := 0 <= n < 32 \/ 58 <= n < nmeta.

(** The image has the files [fl] (type and contents), the inode of the first
    being number 1. *)
Record image_ok (s : mk) (fl : list (Z * list Z)) (xs : list inode) : Prop := ImageOk {
  im_built : built s (cs_of fl) xs;
  im_free : freeinode s = Z.of_nat (length fl) + 1;
  im_count : (length fl < 207)%nat;
  im_disk : forall i x, xs !! i = Some x -> disk_inode (sect s) (Z.of_nat i + 1) = x;
  im_plain : forall i x e, xs !! i = Some x -> fl !! i = Some e -> plain (Z.of_nat i + 1) (fst e) x;
  im_content : content (sect s) <$> xs = fl.*2;
  im_low : forall n, low n -> sect s n = if n =? 1 then sb_block else zeroes;
  im_rest : forall j, inum_ok j -> Z.of_nat (length fl) < j -> i_type (disk_inode (sect s) j) = 0
}.

Lemma image_at s fl xs i t bytes : image_ok s fl xs -> fl !! i = Some (t, bytes) ->
  exists x, xs !! i = Some x /\ file_ok (sect s) (freeblock s) (caps (i_size x)) x /\ i_size x = Z.of_nat (length bytes) /\
    content (sect s) x = bytes /\ plain (Z.of_nat i + 1) t x /\ disk_inode (sect s) (Z.of_nat i + 1) = x /\ inum_ok (Z.of_nat i + 1) /\
    cs_of fl !! i = Some (caps (i_size x)).
Proof.
  intros Him Hi. assert (Hc := f_equal (fun l => l !! i) (im_content _ _ _ Him)). cbn beta in Hc. rewrite !list_lookup_fmap, Hi in Hc.
  destruct (xs !! i) as [x|] eqn:Hx; [|done]. injection Hc as Hc. exists x.
  assert (Hcs : cs_of fl !! i = Some (caps (Z.of_nat (length bytes)))) by (unfold cs_of; by rewrite list_lookup_fmap, Hi).
  assert (Hok := file_at _ _ _ _ _ _ (im_built _ _ _ Him) Hcs Hx).
  assert (Hsz : i_size x = Z.of_nat (length bytes)).
  { rewrite <- Hc, content_length by apply Hok. pose proof (fk_size _ _ _ _ Hok). lia. }
  rewrite Hsz. split_and!; [done|done|done|done|by apply (im_plain _ _ _ Him i x (t, bytes))|by apply (im_disk _ _ _ Him)| |done].
  apply lookup_lt_Some in Hi. pose proof (im_count _ _ _ Him). unfold inum_ok. lia.
Qed.

Lemma rinode_runs s fl xs i t bytes (Q : dinode -> mk -> Prop) :
  image_ok s fl xs -> fl !! i = Some (t, bytes) ->
  (forall x, xs !! i = Some x -> i_size x = Z.of_nat (length bytes) -> Q (dinode_of x) s) -> runs (rinode (Z.of_nat i + 1)) s Q.
Proof.
  intros Him Hi HQ. destruct (image_at _ _ _ _ _ _ Him Hi) as (x & Hx & _ & Hsz & _ & _ & Hd & Hn & _).
  pose proof (iblock_range _ Hn). unfold rinode. apply runs_bind. eapply rsect_runs; [apply Him|unfold FSSIZE; lia|]. intros _.
  eapply runs_Ok; [done|]. replace (get_dinode _ _) with (dinode_of x); [by apply HQ|]. rewrite <- Hd. unfold disk_inode, dinode_of. by destruct (get_dinode _ _).
Qed.

(** Writing the inode of a file whose blocks are in place. *)
Lemma winode_runs s cs xs inum t x :
  built s cs xs -> plain inum t x -> dinode_ok (dinode_of x) -> inum_ok inum -> freeblock s <= FSSIZE ->
  runs (winode inum (dinode_of x)) s (fun _ s' => built s' cs xs /\ content (sect s') <$> xs = content (sect s) <$> xs /\
    disk_inode (sect s') inum = x /\ freeinode s' = freeinode s /\ freeblock s' = freeblock s /\
    (forall n, low n \/ nmeta <= n -> sect s' n = sect s n) /\
    forall j, inum_ok j -> j <> inum -> disk_inode (sect s') j = disk_inode (sect s) j).
Proof.
  intros Hb Hpl Hdi Hn Hmax. pose proof (iblock_range _ Hn) as Hib.
  unfold winode. apply runs_bind. eapply rsect_runs; [exact Hb|unfold FSSIZE; lia|]. intros Hl. unfold wsect. eapply runs_Ok; [reflexivity|].
  assert (Hpl8 : (Z.to_nat (inum mod IPB) < 8)%nat) by (pose proof (Z.mod_pos_bound inum IPB ltac:(done)); unfold IPB in *; lia).
  set (v := put_dinode _ _ _). assert (Hlv : length v = BSIZE) by (by apply length_put_dinode).
  destruct (built_meta s cs xs (IBLOCK inum mk_sb) v Hb) as [Hb' Hcon]; [rewrite nmeta_eq; lia|done|done|]. set (s' := set_mimg _ s) in *.
  assert (Hsec : forall m, sect s' m = upd (sect s) (IBLOCK inum mk_sb) v m) by (intros m; apply sect_insert).
  split_and!; try done.
  - unfold disk_inode. rewrite Hsec. unfold upd. rewrite decide_True by done. unfold v. rewrite get_put_dinode by done.
    destruct Hpl as [Hxe _]. by rewrite Hxe.
  - intros n Hlow. rewrite Hsec. unfold upd. unfold low in Hlow. rewrite nmeta_eq in Hlow. by rewrite decide_False by lia.
  - intros j Hj Hne. unfold disk_inode. rewrite Hsec. unfold upd. destruct (decide (IBLOCK j mk_sb = IBLOCK inum mk_sb)) as [He|]; [|done].
    unfold v. rewrite get_put_dinode_ne; [by rewrite He|done|done|done|pose proof (Z.mod_pos_bound j IPB ltac:(done)); unfold IPB in *; lia|].
    intros Hp. by apply Hne, same_place.
Qed.

Lemma image_blocks s fl xs : image_ok s fl xs -> freeblock s = nmeta + total (cs_of fl).
Proof. intros Him. apply Him. Qed.

Lemma cs_of_insert fl i e : cs_of (<[i := e]> fl) = <[i := caps (Z.of_nat (length (snd e)))]> (cs_of fl).
Proof. unfold cs_of. by rewrite list_fmap_insert. Qed.

(** [iappend] adds the bytes at the end of its file; the other files stay. *)
Lemma iappend_runs s fl xs i t bytes p :
  image_ok s fl xs -> fl !! i = Some (t, bytes) -> let fl' := <[i := (t, bytes ++ p)]> fl in
  Z.of_nat (length (bytes ++ p)) <= MAXFILE * BS -> nmeta + total (cs_of fl') <= FSSIZE ->
  runs (iappend (Z.of_nat i + 1) p) s (fun _ s' => exists xs', image_ok s' fl' xs').
Proof.
  intros Him Hi fl' Hsz Hmax. destruct (image_at _ _ _ _ _ _ Him Hi) as (x & Hx & Hok & Hlen & Hcx & Hpl & Hd & Hn & Hcs).
  rewrite length_app, Nat2Z.inj_add, <- Hlen in Hsz.
  assert (Htot : nmeta + total (cs_of fl') = freeblock s + nblk (caps (i_size x + Z.of_nat (length p))) - nblk (caps (i_size x))).
  { unfold fl'. rewrite (image_blocks _ _ _ Him), cs_of_insert, (total_insert _ _ _ _ Hcs). cbn [snd]. rewrite length_app, Nat2Z.inj_add, <- Hlen. lia. }
  unfold iappend. apply runs_bind. eapply rinode_runs; [done..|]. intros x0 Hx0 _. rewrite Hx in Hx0. injection Hx0 as <-.
  change (d_size (dinode_of x)) with (i_size x).
  assert (Hs32 : 0 <= i_size x + Z.of_nat (length p) < 2 ^ 32).
  { pose proof (fk_size _ _ _ _ Hok). unfold MAXFILE, BS, BSIZE in *. lia. }
  rewrite xint_id by (pose proof (fk_size _ _ _ _ Hok); lia).
  apply runs_bind. change (dinode_of x) with (set_d_size (i_size x) (dinode_of x)).
  eapply runs_mono; [apply (iappend_loop_runs i _ _ p s (cs_of fl) xs x (im_built _ _ _ Him) Hcs Hx); [lia|lia|lia]|].
  intros [din off] s1 (Hoff & x1 & Hdin & Hx1 & Hb1 & Hcon & Hfi & Hm). cbn [fst snd] in *. subst din off.
  assert (Hms : forall n, 0 <= n < nmeta -> sect s1 n = sect s n) by (intros n Hr; unfold sect; by rewrite Hm).
  assert (Hlk : <[i := x1]> xs !! i = Some x1) by (apply list_lookup_insert_eq; by apply lookup_lt_Some in Hx).
  assert (Hpl1 : plain (Z.of_nat i + 1) t x1).
  { destruct Hpl as [Hpx Ht]. split; [|done]. rewrite Hx1, Hpx. done. }
  replace (set_d_size _ _) with (dinode_of x1) by (rewrite xint_id by done; rewrite Hx1; done).
  assert (Hcsl : (i < length (cs_of fl))%nat) by (by apply lookup_lt_Some in Hcs).
  assert (Hfb1 : freeblock s1 <= FSSIZE).
  { rewrite (bu_fb _ _ _ Hb1), (total_insert _ _ _ _ Hcs). rewrite (image_blocks _ _ _ Him) in Htot. lia. }
  assert (Hdi1 : dinode_ok (dinode_of x1)) by exact (plain_dinode _ _ _ _ _ _ Hpl1 (file_at _ _ _ _ _ _ Hb1 (list_lookup_insert_eq _ _ _ Hcsl) Hlk) Hfb1).
  eapply runs_mono; [exact (winode_runs s1 _ _ _ t x1 Hb1 Hpl1 Hdi1 Hn Hfb1)|].
  intros _ s2 (Hb2 & Hcon2 & Hd2 & Hfi2 & _ & Hsb2 & Hoth). exists (<[i := x1]> xs).
  assert (Hmi : forall j, inum_ok j -> disk_inode (sect s1) j = disk_inode (sect s) j).
  { intros j Hj. unfold disk_inode. rewrite Hms; [done|]. pose proof (iblock_range _ Hj). rewrite nmeta_eq. lia. }
  assert (Hcnt := im_count _ _ _ Him). constructor; unfold fl'; rewrite ?length_insert.
  - rewrite cs_of_insert. cbn [snd]. rewrite length_app, Nat2Z.inj_add, <- Hlen. done.
  - rewrite Hfi2, Hfi. apply Him.
  - done.
  - intros j y Hy. apply list_lookup_insert_Some in Hy as [(<- & <- & _)|[Hj Hy]]; [done|].
    assert (Hlj : (j < length fl)%nat) by (apply lookup_lt_Some in Hy; rewrite <- (length_fmap snd fl), <- (im_content _ _ _ Him); by rewrite length_fmap).
    rewrite Hoth, Hmi by (unfold inum_ok; lia). by apply Him.
  - intros j y e Hy He. apply list_lookup_insert_Some in Hy as [(<- & <- & _)|[Hj Hy]].
    + rewrite list_lookup_insert_eq in He by (by apply lookup_lt_Some in Hi). injection He as <-. done.
    + rewrite list_lookup_insert_ne in He by done. by apply Him.
  - rewrite Hcon2, Hcon, Hcx, (im_content _ _ _ Him). by rewrite list_fmap_insert.
  - intros n Hlow. rewrite Hsb2 by (by left). rewrite Hms by (unfold low in Hlow; rewrite nmeta_eq in *; lia). by apply Him.
  - intros j Hj Hgt. apply lookup_lt_Some in Hi. rewrite Hoth, Hmi by (done || lia). by apply Him.
Qed.

Definition new_inode (inum t : Z) : inode := Inode 1 inum 0 (Sleeplock 0 0) 1 t 0 0 1 0 (replicate 13 0).

Lemma new_slot f inum t k : a_slot k -> slot_of f (new_inode inum t) k = 0.
Proof.
  unfold a_slot. intros Hk. destruct (Z.eq_dec k MAXFILE) as [->|]; [done|]. destruct (Z_lt_le_dec k 12); [|by rewrite slot_high by lia].
  rewrite slot_low by lia. cbn [i_addrs new_inode]. apply lookup_total_replicate_2. lia.
Qed.

Lemma new_file_ok f fb inum t : file_ok f fb 0 (new_inode inum t).
Proof.
  assert (Hs := new_slot f inum t). constructor; try done; try (cbn; lia); try (unfold MAXFILE; lia).
  - intros k Hk. apply Hs. unfold a_slot. lia.
  - intros j k Hj Hk Hne. by rewrite Hs in Hne.
Qed.

(** A file without blocks is added. *)
Lemma built_snoc s cs xs v x0 : built s cs xs -> file_ok (sect s) (freeblock s) 0 x0 -> (forall b, ~ owns (sect s) x0 b) ->
  built (set_freeinode v s) (cs ++ [0]) (xs ++ [x0]).
Proof.
  intros [H1 H2 H3 [H4 H5]] Hok Hno. constructor; [done| |done|constructor].
  - change (freeblock (set_freeinode v s)) with (freeblock s). rewrite H2. f_equal. clear. induction cs as [|c cs IH]; [done|].
    change (total ((c :: cs) ++ [0])) with (nblk c + total (cs ++ [0])). rewrite <- IH. done.
  - apply Forall2_app; [done|]. by constructor.
  - assert (Hold : forall i x b, (xs ++ [x0]) !! i = Some x -> owns (sect s) x b -> xs !! i = Some x).
    { intros i x b Hx Hb. apply lookup_app_Some in Hx as [Hx|[_ Hx]]; [done|]. apply list_lookup_singleton_Some in Hx as [_ <-]. by apply Hno in Hb. }
    intros i j x y b Hx Hy Hbx Hby. by apply (H5 i j x y b); [eapply Hold|eapply Hold|..].
Qed.

Lemma image_length s fl xs : image_ok s fl xs -> length xs = length fl.
Proof. intros Him. rewrite <- (length_fmap snd fl), <- (im_content _ _ _ Him). by rewrite length_fmap. Qed.

(** [ialloc] adds an empty file with the next number. *)
Lemma ialloc_runs s fl xs t :
  image_ok s fl xs -> (length fl < 206)%nat -> freeblock s <= FSSIZE -> 0 <= t < 2 ^ 15 ->
  runs (ialloc t) s (fun inum s' => inum = Z.of_nat (length fl) + 1 /\ exists xs', image_ok s' (fl ++ [(t, [])]) xs').
Proof.
  intros Him Hcnt Hmax Ht. set (inum := Z.of_nat (length fl) + 1). assert (Hlx := image_length _ _ _ Him). set (x0 := new_inode inum t).
  unfold ialloc. apply runs_bind. unfold runs at 1. cbn [gets]. rewrite (im_free _ _ _ Him). fold inum. apply runs_bind. eapply runs_Ok; [reflexivity|].
  rewrite u32_small by (unfold inum; lia). set (s1 := set_freeinode _ s).
  assert (Hb1 : built s1 (cs_of (fl ++ [(t, [])])) (xs ++ [x0])).
  { unfold cs_of. rewrite fmap_app. apply built_snoc; [apply Him|apply new_file_ok|]. intros b (Hb0 & k & Hk & Hb). unfold x0 in Hb. rewrite new_slot in Hb by done. congruence. }
  assert (Hpl0 : plain inum t x0) by (split; [done|lia]). assert (Hn0 : inum_ok inum) by (unfold inum_ok, inum; lia).
  replace (Dinode (xshort t) 0 0 (xshort 1) (xint 0) (replicate (NDIRECT + 1) 0)) with (dinode_of x0).
  2: { unfold xshort, dinode_of. cbn [x0 new_inode i_type i_major i_minor i_nlink i_size i_addrs]. rewrite <- (app_nil_r (le16 t)), rd16_le16. unfold u16. by rewrite Z.mod_small by lia. }
  apply runs_bind. eapply runs_mono; [exact (winode_runs s1 _ _ inum t x0 Hb1 Hpl0 (plain_dinode _ _ _ _ _ _ Hpl0 (new_file_ok (sect s) _ inum t) Hmax) Hn0 Hmax)|].
  intros _ s2 (Hb2 & Hcon2 & Hd2 & Hfi2 & _ & Hsb2 & Hoth). eapply runs_Ok; [done|]. split; [done|]. exists (xs ++ [x0]).
  constructor; rewrite ?length_app; cbn [length].
  - done.
  - rewrite Hfi2. cbn. unfold inum. lia.
  - lia.
  - intros j y Hy. apply lookup_app_Some in Hy as [Hy|[Hj Hy]].
    + assert (Hl := lookup_lt_Some _ _ _ Hy). rewrite Hoth by (unfold inum_ok, inum; lia). by apply Him.
    + apply list_lookup_singleton_Some in Hy as [Hj0 <-]. replace (Z.of_nat j + 1) with inum by (unfold inum; lia). done.
  - intros j y e Hy He. apply lookup_app_Some in Hy as [Hy|[Hj Hy]].
    + assert (Hl := lookup_lt_Some _ _ _ Hy). rewrite lookup_app_l in He by lia. by apply Him.
    + apply list_lookup_singleton_Some in Hy as [Hj0 <-]. replace (Z.of_nat j + 1) with inum by (unfold inum; lia).
      rewrite lookup_app_r in He by lia. apply list_lookup_singleton_Some in He as [_ <-]. done.
  - rewrite Hcon2, !fmap_app. f_equal. apply Him.
  - intros n Hlow. rewrite Hsb2 by (by left). by apply Him.
  - intros j Hj Hgt. rewrite Hoth by (done || unfold inum; lia). apply (im_rest _ _ _ Him); [done|lia].
Qed.

Lemma total_app cs cs' : total (cs ++ cs') = total cs + total cs'.
Proof. induction cs as [|c cs IH]; [done|]. change (total ((c :: cs) ++ cs')) with (nblk c + total (cs ++ cs')). rewrite IH.
  change (total (c :: cs)) with (nblk c + total cs). lia. Qed.

Lemma total_files fl : 0 <= total (cs_of fl).
Proof.
  apply total_nonneg, Forall_fmap, Forall_true. intros e. unfold compose. apply caps_range. lia.
Qed.

(** The blocks that an image with these files needs. *)
Definition blocks (fl : list (Z * list Z)) : Z := nmeta + total (cs_of fl).

Lemma blocks_app fl fl' : blocks fl <= blocks (fl ++ fl').
Proof. unfold blocks, cs_of. rewrite fmap_app, total_app. pose proof (total_files fl') as H. unfold cs_of in H. lia. Qed.

Lemma blocks_insert fl i e t b b' : fl !! i = Some e -> (length b <= length b')%nat ->
  blocks (<[i := (t, b)]> fl) <= blocks (<[i := (t, b')]> fl).
Proof.
  intros Hi Hl. assert (Hc : cs_of fl !! i = Some (caps (Z.of_nat (length (snd e))))) by (unfold cs_of; by rewrite list_lookup_fmap, Hi).
  unfold blocks. rewrite !cs_of_insert, !(total_insert _ _ _ _ Hc). cbn [snd].
  assert (H := nblk_mono _ _ (caps_mono (Z.of_nat (length b)) (Z.of_nat (length b')) ltac:(lia))). lia.
Qed.

Lemma append_all_runs i t fuel : forall bytes b0 s fl xs,
  image_ok s fl xs -> fl !! i = Some (t, b0) -> (length bytes < fuel)%nat ->
  Z.of_nat (length (b0 ++ bytes)) <= MAXFILE * BS -> blocks (<[i := (t, b0 ++ bytes)]> fl) <= FSSIZE ->
  runs (append_all fuel (Z.of_nat i + 1) bytes) s (fun _ s' => exists xs', image_ok s' (<[i := (t, b0 ++ bytes)]> fl) xs').
Proof.
  induction fuel as [|fuel IH]; intros bytes b0 s fl xs Him Hi Hf Hsz Hmax; [lia|]. cbn [append_all].
  destruct (decide (bytes = [])) as [->|Hne].
  { eapply runs_Ok; [done|]. exists xs. by rewrite app_nil_r, list_insert_id. }
  replace (match bytes with [] => ret () | _ :: _ => _ end) with
    (iappend (Z.of_nat i + 1) (take BSIZE bytes);; append_all fuel (Z.of_nat i + 1) (drop BSIZE bytes)) by by destruct bytes.
  assert (Hb : bytes = take BSIZE bytes ++ drop BSIZE bytes) by by rewrite take_drop.
  assert (Hl1 : (length (b0 ++ take BSIZE bytes) <= length (b0 ++ bytes))%nat) by (rewrite !length_app, length_take; lia).
  apply runs_bind. eapply runs_mono; [apply (iappend_runs s fl xs i t b0 (take BSIZE bytes) Him Hi)|].
  { lia. } { etrans; [|exact Hmax]. by apply (blocks_insert fl i _ t _ _ Hi). }
  intros _ s1 [xs1 Him1]. assert (Hi1 := list_lookup_insert_eq fl i (t, b0 ++ take BSIZE bytes) (lookup_lt_Some _ _ _ Hi)).
  eapply runs_mono; [apply (IH (drop BSIZE bytes) _ s1 _ xs1 Him1 Hi1)|]; rewrite <- ?app_assoc, ?take_drop, ?list_insert_insert_eq; try done.
  rewrite length_drop. assert (length bytes <> 0)%nat by (by rewrite length_zero_iff_nil). unfold BSIZE. lia.
Qed.

(** ** The root directory *)

Definition pad (name : list Z) : list Z := take DIRSIZ name ++ replicate (DIRSIZ - length name) 0.
Definition dent (inum : Z) (name : list Z) : list Z := le16 inum ++ pad name.

Lemma entry_runs inum name s (Q : list Z -> mk -> Prop) : Forall (fun c => c <> 0) name -> 0 <= inum < 2 ^ 16 ->
  Q (dent inum name) s -> runs (entry inum name) s Q.
Proof.
  intros Hn Hi HQ. unfold entry.
  assert (Hc : cstr DIRSIZ (name ++ [0]) = take DIRSIZ name).
  { rewrite <- (take_drop DIRSIZ name) at 1. rewrite <- app_assoc. apply cstr_app; [by apply Forall_take|rewrite length_take; lia|].
    rewrite length_take. destruct (decide (DIRSIZ <= length name)%nat) as [|Hlt]; [left; lia|right]. exists []. by rewrite drop_ge by lia. }
  assert (Hp : strncpy (replicate DIRSIZ 0) (name ++ [0]) (Z.of_nat DIRSIZ) = Some (pad name)).
  { rewrite strncpy_correct, Hc; [|done|].
    - f_equal. unfold pad. rewrite drop_ge, app_nil_r by (by rewrite length_replicate). f_equal. f_equal. rewrite length_take. lia.
    - right. apply elem_of_app. right. by constructor. }
  rewrite Hp. eapply runs_Ok; [reflexivity|]. replace (put_dirent _) with (dent inum name); [done|].
  unfold put_dirent, dent. cbn [de_inum de_name]. f_equal. unfold xshort. rewrite <- (app_nil_r (le16 inum)) at 2. rewrite rd16_le16. unfold u16. by rewrite Z.mod_small by lia.
Qed.

Lemma length_dent inum name : length (dent inum name) = 16%nat.
Proof. unfold dent, pad. rewrite !length_app, length_take, length_replicate. change (length (le16 inum)) with 2%nat. unfold DIRSIZ. lia. Qed.

(** [argv[i]], without a leading underscore. *)
Definition base (name : list Z) : list Z := match name with c :: rest => if c =? 95 then rest else name | [] => [] end.
Fixpoint dents (inum : Z) (args : list (list Z * list Z)) : list Z :=
  match args with
  | [] => []
  | a :: args => dent inum (base (fst a)) ++ dents (inum + 1) args
  end.
Definition root_bytes (args : list (list Z * list Z)) : list Z := dent 1 [46] ++ dent 1 [46; 46] ++ dents 2 args.
Definition the_files (args : list (list Z * list Z)) : list (Z * list Z) := (fun a => (T_FILE, snd a)) <$> args.

Lemma length_dents args : forall inum, length (dents inum args) = (16 * length args)%nat.
Proof. induction args as [|a args IH]; intros inum; [done|]. cbn [dents length]. rewrite length_app, length_dent, IH. lia. Qed.

Definition arg_ok (a : list Z * list Z) : Prop :=
  (47 ∉ fst a) /\ Forall (fun c => 0 < c < 256) (fst a) /\ Z.of_nat (length (snd a)) <= MAXFILE * BS.

Lemma base_forall (P : Z -> Prop) name : Forall P name -> Forall P (base name).
Proof. intros Hn. destruct name as [|c rest]; [done|]. cbn [base]. destruct (c =? 95); [by inversion Hn|done]. Qed.

Lemma blocks_cons e fl : blocks (e :: fl) = nblk (caps (Z.of_nat (length (snd e)))) + blocks fl.
Proof. unfold blocks. change (cs_of (e :: fl)) with (caps (Z.of_nat (length (snd e))) :: cs_of fl). cbn [total foldr]. fold (total (cs_of fl)). lia. Qed.

Lemma image_fb s fl xs : image_ok s fl xs -> freeblock s = blocks fl.
Proof. apply image_blocks. Qed.

Lemma caps_le m n : (m <= n)%nat -> nblk (caps (Z.of_nat m)) <= nblk (caps (Z.of_nat n)).
Proof. intros H. apply nblk_mono, caps_mono. lia. Qed.

(** One more file: its entry in the root directory and its contents. *)
Lemma add_file_runs s r files xs a :
  image_ok s ((T_DIR, r) :: files) xs -> arg_ok a -> (length files < 205)%nat -> length r = (16 * (length files + 2))%nat ->
  let r' := r ++ dent (Z.of_nat (length files) + 2) (base (fst a)) in let fl' := (T_DIR, r') :: (files ++ [(T_FILE, snd a)]) in
  blocks fl' <= FSSIZE -> runs (add_file 1 a) s (fun _ s' => exists xs', image_ok s' fl' xs').
Proof.
  destruct a as [name bytes]. intros Him (Hsl & Hnz & Hlen) Hcnt Hlr r' fl' Hmax. cbn [fst snd] in *. unfold add_file.
  rewrite bool_decide_false by done. fold (base name). cbv zeta.
  assert (Hlr' : length r' = (16 * (length files + 3))%nat) by (unfold r'; rewrite length_app, length_dent; lia).
  assert (Hfl : blocks fl' = nblk (caps (Z.of_nat (length r'))) + blocks (files ++ [(T_FILE, bytes)])) by (unfold fl'; by rewrite blocks_cons).
  assert (Happ := blocks_app files [(T_FILE, bytes)]). assert (Hrr := caps_le (length r) (length r') ltac:(lia)).
  apply runs_bind. eapply runs_mono; [apply (ialloc_runs s _ xs T_FILE Him); [cbn [length]; lia| |unfold T_FILE; lia]|].
  { rewrite (image_fb _ _ _ Him), blocks_cons. cbn [snd]. lia. }
  intros inum s1 [-> [xs1 Him1]]. cbn [length]. apply runs_bind. apply entry_runs; [apply base_forall; eapply Forall_impl; [exact Hnz|intros c Hc; cbn beta in Hc; lia]|lia|].
  replace (Z.of_nat (S (length files)) + 1) with (Z.of_nat (length files) + 2) by lia.
  assert (Hnew : blocks (files ++ [(T_FILE, [])]) <= blocks (files ++ [(T_FILE, bytes)])).
  { assert (Hi : (files ++ [(T_FILE, [])]) !! length files = Some (T_FILE, [])) by (by rewrite lookup_app_r, Nat.sub_diag by lia).
    assert (Hle := blocks_insert _ _ _ T_FILE [] bytes Hi ltac:(cbn; lia)).
    rewrite !insert_app_r_alt, Nat.sub_diag in Hle by lia. exact Hle. }
  apply runs_bind. eapply runs_mono; [apply (iappend_runs s1 _ xs1 0 T_DIR r (dent (Z.of_nat (length files) + 2) (base name)) Him1 eq_refl)|].
  { fold r'. rewrite Hlr'. unfold MAXFILE, BS, BSIZE. lia. }
  { fold r'. change (blocks ((T_DIR, r') :: (files ++ [(T_FILE, [])])) <= FSSIZE). rewrite blocks_cons. cbn [snd]. lia. }
  fold r'. intros _ s2 [xs2 Him2]. change (<[0%nat := (T_DIR, r')]> (((T_DIR, r) :: files) ++ [(T_FILE, [])])) with ((T_DIR, r') :: (files ++ [(T_FILE, [])])) in Him2.
  assert (Hi : ((T_DIR, r') :: (files ++ [(T_FILE, [])])) !! S (length files) = Some (T_FILE, [])).
  { change ((files ++ [(T_FILE, [])]) !! length files = Some (T_FILE, ([] : list Z))). by rewrite lookup_app_r, Nat.sub_diag by lia. }
  assert (Hins : <[S (length files) := (T_FILE, bytes)]> ((T_DIR, r') :: (files ++ [(T_FILE, [])])) = fl').
  { unfold fl'. change (<[S ?n := ?v]> (?x :: ?l)) with (x :: <[n := v]> l). by rewrite insert_app_r_alt, Nat.sub_diag by lia. }
  replace (Z.of_nat (length files) + 2) with (Z.of_nat (S (length files)) + 1) by lia. rewrite <- Hins.
  apply (append_all_runs _ T_FILE _ bytes [] s2 _ xs2 Him2 Hi); [lia|done|]. rewrite app_nil_l, Hins. done.
Qed.

Lemma add_files_runs args : forall s r files xs,
  image_ok s ((T_DIR, r) :: files) xs -> Forall arg_ok args -> (length files + length args < 206)%nat ->
  length r = (16 * (length files + 2))%nat ->
  let fl' := (T_DIR, r ++ dents (Z.of_nat (length files) + 2) args) :: (files ++ the_files args) in
  blocks fl' <= FSSIZE -> runs (add_files 1 args) s (fun _ s' => exists xs', image_ok s' fl' xs').
Proof.
  induction args as [|a args IH]; intros s r files xs Him Ha Hcnt Hlr fl' Hmax.
  { eapply runs_Ok; [done|]. exists xs. unfold fl'. cbn. by rewrite !app_nil_r. }
  apply Forall_cons in Ha as [Ha Hargs]. cbn [add_files length] in *.
  set (r1 := r ++ dent (Z.of_nat (length files) + 2) (base (fst a))). set (files1 := files ++ [(T_FILE, snd a)]).
  assert (Hfl : fl' = (T_DIR, r1 ++ dents (Z.of_nat (length files1) + 2) args) :: (files1 ++ the_files args)).
  { unfold fl', r1, files1. rewrite <- !app_assoc, length_app. cbn [dents length].
    replace (Z.of_nat (length files + 1) + 2) with (Z.of_nat (length files) + 2 + 1) by lia. done. }
  rewrite Hfl in *. apply runs_bind. eapply runs_mono; [apply (add_file_runs s r files xs a Him Ha ltac:(lia) Hlr)|].
  - fold r1 files1. etrans; [|exact Hmax]. rewrite !blocks_cons. cbn [snd]. pose proof (blocks_app files1 (the_files args)).
    assert (H1 := caps_le (length r1) (length (r1 ++ dents (Z.of_nat (length files1) + 2) args)) ltac:(rewrite length_app; lia)). lia.
  - intros _ s1 [xs1 Him1]. apply (IH s1 r1 files1 xs1 Him1 Hargs); [unfold files1; rewrite length_app; cbn; lia| |done].
    unfold r1, files1. rewrite !length_app, length_dent, Hlr. cbn [length]. lia.
Qed.

(** ** The whole program *)

Lemma zero_from_runs n : forall i s, runs (zero_from n i) s (fun _ s' => freeinode s' = freeinode s /\ freeblock s' = freeblock s /\
  (forall m, i <= m < i + Z.of_nat n -> mimg s' !! m = Some zeroes) /\ forall m, ~ (i <= m < i + Z.of_nat n) -> mimg s' !! m = mimg s !! m).
Proof.
  induction n as [|n IH]; intros i s; cbn [zero_from]; [eapply runs_Ok; [done|]; split_and!; [done|done|lia|done]|].
  apply runs_bind. unfold wsect. eapply runs_Ok; [reflexivity|]. eapply runs_mono; [apply IH|]. intros _ s' (H1 & H2 & H3 & H4).
  split_and!; [done|done| |].
  - intros m Hm. destruct (decide (m = i)) as [->|]; [|apply H3; lia]. rewrite H4 by lia. apply lookup_insert_eq.
  - intros m Hm. rewrite H4 by lia. apply lookup_insert_ne. lia.
Qed.

(** The image before the first file. *)
Lemma empty_image m :
  (forall n, 0 <= n < FSSIZE -> m !! n = Some (if n =? 1 then sb_block else zeroes)) -> image_ok (Mk m 1 nmeta) [] [].
Proof.
  intros Hm. assert (Hs : forall n, 0 <= n < FSSIZE -> sect (Mk m 1 nmeta) n = if n =? 1 then sb_block else zeroes).
  { intros n Hn. unfold sect. change (mimg (Mk m 1 nmeta)) with m. by rewrite Hm. }
  constructor; try done; try (cbn; lia).
  - constructor; [| | |by constructor].
    + intros n Hn. exists (if n =? 1 then sb_block else zeroes). split; [by apply Hm|]. by destruct (n =? 1).
    + change (total (cs_of [])) with 0. cbn [freeblock]. lia.
    + intros n Hn. cbn [freeblock] in Hn. rewrite nmeta_eq in Hn. rewrite Hs by lia. by rewrite (proj2 (Z.eqb_neq n 1)) by lia.
  - intros n Hn. apply Hs. unfold low in Hn. rewrite nmeta_eq in Hn. unfold FSSIZE. lia.
  - intros j Hj _. pose proof (iblock_range _ Hj). unfold disk_inode. rewrite Hs, (proj2 (Z.eqb_neq _ 1)) by (unfold FSSIZE; lia).
    assert (Hp : (Z.to_nat (j mod IPB) < 8)%nat) by (pose proof (Z.mod_pos_bound j IPB ltac:(done)); unfold IPB in *; lia).
    destruct (Z.to_nat (j mod IPB)) as [|p]; [by vm_compute|]. do 7 (destruct p as [|p]; [by vm_compute|]). lia.
Qed.

Lemma mark_ok n : (n <= 4096)%nat ->
  length (mark n zeroes) = BSIZE /\ forall j, 0 <= j -> bit_set (mark n zeroes) j = (j <? Z.of_nat n).
Proof.
  induction n as [|n IH]; intros Hn.
  - split; [apply length_replicate|]. intros j Hj. rewrite bit_set_testbit by done. change (mark 0 zeroes) with zeroes.
    rewrite byte_at_zeroes, Z.bits_0. symmetry. by apply Z.ltb_ge.
  - destruct IH as [Hl Hb]; [lia|]. assert (Hr : 0 <= Z.of_nat n < BPB) by (unfold BPB, BSIZE; lia). cbn [mark]. split; [by apply length_set_bit|].
    intros j Hj. rewrite bit_set_set, Hb by done. destruct (Z.eqb_spec j (Z.of_nat n)) as [->|]; cbn [orb].
    + symmetry. apply Z.ltb_lt. lia.
    + apply eq_true_iff_eq. rewrite !Z.ltb_lt. lia.
Qed.

(** The bitmap that [balloc] writes. *)
Lemma used_mark f fb b :
  0 <= fb < 4096 -> f 58 = mark (Z.to_nat fb) zeroes -> (forall n, 58 < n < nmeta -> f n = zeroes) -> 0 <= b < FSSIZE ->
  used mk_sb f b = (b <? fb).
Proof.
  intros Hfb H58 Hz Hb. unfold used, BBLOCK. change (sb_bmapstart mk_sb) with 58. change BPB with 4096.
  pose proof (Z.mod_pos_bound b 4096 ltac:(done)) as Hm. pose proof (Z.div_mod b 4096 ltac:(done)) as Hdm. unfold FSSIZE in Hb.
  destruct (decide (b < 4096)) as [Hlt|].
  - rewrite (Z.div_small b), (Z.mod_small b) by lia. change (0 + 58) with 58. rewrite H58, (proj2 (mark_ok (Z.to_nat fb) ltac:(lia))) by lia. by rewrite Z2Nat.id by lia.
  - rewrite Hz by (rewrite nmeta_eq; lia). rewrite bit_set_testbit by lia. rewrite byte_at_zeroes, Z.bits_0. symmetry. apply Z.ltb_ge. lia.
Qed.

(** The size that [main] gives to the root directory at the end. *)
Definition root_size (n : Z) : Z := (n / BS + 1) * BS.

(** The image is complete: the size of the root and the bitmap are written. *)
Record finished (fl : list (Z * list Z)) (xs : list inode) (s : mk) : Prop := Finished {
  fn_built : built s (cs_of fl) xs;
  fn_content : content (sect s) <$> xs = fl.*2;
  fn_root : forall x, xs !! 0%nat = Some x -> disk_inode (sect s) 1 = set_i_size (root_size (i_size x)) x;
  fn_disk : forall i x, xs !! S i = Some x -> disk_inode (sect s) (Z.of_nat i + 2) = x;
  fn_plain : forall i x e, xs !! i = Some x -> fl !! i = Some e -> plain (Z.of_nat i + 1) (fst e) x;
  fn_rest : forall j, inum_ok j -> Z.of_nat (length fl) < j -> i_type (disk_inode (sect s) j) = 0;
  fn_low : forall n, low n -> n <> 58 -> sect s n = if n =? 1 then sb_block else zeroes;
  fn_bitmap : sect s 58 = mark (Z.to_nat (blocks fl)) zeroes
}.

Definition finish : MK () :=
  din ← rinode 1;
  winode 1 (set_d_size (xint ((xint (d_size din) / Z.of_nat BSIZE + 1) * Z.of_nat BSIZE)) din);;
  used ← gets freeblock;
  balloc used.

Lemma finish_runs s r files xs :
  let fl := (T_DIR, r) :: files in image_ok s fl xs -> blocks fl < 4096 -> (length r < 4096)%nat ->
  runs finish s (fun _ s' => finished fl xs s').
Proof.
  intros fl Him Hmax Hlr. assert (Hfb := image_fb _ _ _ Him). assert (Hfb0 := built_fb _ _ _ (im_built _ _ _ Him)). rewrite nmeta_eq in Hfb0.
  destruct (image_at s fl xs 0 T_DIR r Him eq_refl) as (x & Hx & Hok & Hlen & Hcx & Hpl & Hd & Hn & Hcs). change (Z.of_nat 0 + 1) with 1 in *.
  unfold finish. apply runs_bind. apply (rinode_runs s fl xs 0 T_DIR r _ Him eq_refl). intros x0 Hx0 _. rewrite Hx in Hx0. injection Hx0 as <-.
  change (Z.of_nat BSIZE) with BS. change (d_size (dinode_of x)) with (i_size x). rewrite (xint_id (i_size x)) by lia. fold (root_size (i_size x)).
  assert (Hrs : 0 <= root_size (i_size x) < 2 ^ 32).
  { unfold root_size. pose proof (Z.div_pos (i_size x) BS ltac:(lia) ltac:(done)). pose proof (Z.div_lt_upper_bound (i_size x) BS 8 ltac:(done) ltac:(unfold BS, BSIZE; lia)).
    unfold BS, BSIZE in *. lia. }
  rewrite xint_id by done. set (x' := set_i_size (root_size (i_size x)) x). change (set_d_size _ (dinode_of x)) with (dinode_of x').
  assert (Hpl' : plain 1 T_DIR x') by (destruct Hpl as [Hp Ht]; split; [unfold x'; by rewrite Hp|done]).
  assert (Hdi' : dinode_ok (dinode_of x')).
  { assert (Hdi := plain_dinode _ _ _ _ _ _ Hpl Hok ltac:(unfold FSSIZE; lia)). destruct Hdi. by constructor. }
  apply runs_bind. eapply runs_mono; [exact (winode_runs s _ _ 1 T_DIR x' (im_built _ _ _ Him) Hpl' Hdi' Hn ltac:(unfold FSSIZE; lia))|].
  intros _ s1 (Hb1 & Hcon1 & Hd1 & _ & Hfb1 & Hlow1 & Hoth). apply runs_bind. unfold runs at 1. cbn [gets]. unfold balloc.
  rewrite Hfb1, Hfb. rewrite (proj2 (Z.ltb_lt _ _)) by (unfold BSIZE; lia). cbn [negb]. change (sb_bmapstart mk_sb) with 58. unfold wsect. eapply runs_Ok; [reflexivity|].
  set (v := mark _ _). assert (Hlv : length v = BSIZE) by (apply mark_ok; lia).
  destruct (built_meta s1 _ _ 58 v Hb1) as [Hb2 Hcon2]; [rewrite nmeta_eq; lia|done|unfold FSSIZE; lia|]. set (s2 := set_mimg _ s1) in *.
  assert (Hsec : forall m, m <> 58 -> sect s2 m = sect s1 m) by (intros m Hm; unfold s2; rewrite sect_insert; unfold upd; by rewrite decide_False).
  assert (Hdi2 : forall j, inum_ok j -> disk_inode (sect s2) j = disk_inode (sect s1) j).
  { intros j Hj. pose proof (iblock_range _ Hj). unfold disk_inode. by rewrite Hsec by lia. }
  constructor; [done| | | | | | |].
  - by rewrite Hcon2, Hcon1, (im_content _ _ _ Him).
  - intros y Hy. rewrite Hx in Hy. injection Hy as <-. by rewrite Hdi2.
  - intros i y Hy. assert (Hi := lookup_lt_Some _ _ _ Hy). rewrite (image_length _ _ _ Him) in Hi. pose proof (im_count _ _ _ Him).
    rewrite Hdi2, Hoth by (unfold inum_ok; lia). rewrite <- (im_disk _ _ _ Him _ _ Hy). f_equal. lia.
  - apply Him.
  - intros j Hj Hgt. cbn [fl length] in Hgt. rewrite Hdi2, Hoth by (done || lia). by apply Him.
  - intros n Hlow Hne. rewrite Hsec, Hlow1 by (done || by left). by apply Him.
  - unfold s2. rewrite sect_insert. unfold upd. by rewrite decide_True.
Qed.

(** The program up to there. *)
Lemma mkfs_finished args s0 :
  freeinode s0 = 1 -> Forall arg_ok args -> (length args <= 198)%nat ->
  let fl := (T_DIR, root_bytes args) :: the_files args in
  blocks fl < 4096 -> runs (mkfs args) s0 (fun _ s' => exists xs, finished fl xs s').
Proof.
  intros Hfi Hargs Hcnt fl Hmax. unfold mkfs. apply runs_bind. eapply runs_Ok; [reflexivity|].
  apply runs_bind. eapply runs_mono; [apply zero_from_runs|]. intros _ s1 (Hfi1 & Hfb1 & Hz & _).
  apply runs_bind. unfold wsect at 1. eapply runs_Ok; [reflexivity|].
  assert (Him : image_ok (set_mimg (<[1 := sb_block]> (mimg s1)) s1) [] []).
  { unfold set_mimg. rewrite Hfi1, Hfb1. cbn [freeinode freeblock set_freeblock]. rewrite Hfi. apply empty_image. intros n Hn.
    destruct (Z.eqb_spec n 1) as [->|]; [apply lookup_insert_eq|]. rewrite lookup_insert_ne by done. apply Hz. unfold FSSIZE in *. lia. }
  fold sb_block. set (s2 := set_mimg _ s1) in *. clearbody s2. clear s1 Hfi1 Hfb1 Hz.
  assert (Hb0 : blocks [] <= 63) by done. assert (Hbl : forall e, (length (snd e) <= 512)%nat -> blocks [e] <= 64).
  { intros e He. rewrite blocks_cons. assert (Hc := caps_le _ _ He). change (nblk (caps (Z.of_nat 512))) with 1 in Hc. lia. }
  apply runs_bind. eapply runs_mono; [apply (ialloc_runs s2 [] [] T_DIR Him); [cbn; lia| |unfold T_DIR; lia]|].
  { rewrite (image_fb _ _ _ Him). unfold FSSIZE. lia. }
  intros rootino s3 [-> [xs3 Him3]]. change (Z.of_nat (length []) + 1) with 1. change (1 =? ROOTINO) with true. cbn [negb app] in *.
  apply runs_bind, entry_runs; [by repeat constructor|lia|]. apply runs_bind.
  eapply runs_mono; [apply (iappend_runs s3 _ xs3 0 T_DIR [] (dent 1 [46]) Him3 eq_refl); [done|]|].
  { etrans; [apply Hbl|done]. cbn [snd app]. rewrite length_dent. lia. }
  intros _ s4 [xs4 Him4]. cbn [insert list_insert app] in Him4. apply runs_bind, entry_runs; [by repeat constructor|lia|]. apply runs_bind.
  eapply runs_mono; [apply (iappend_runs s4 _ xs4 0 T_DIR (dent 1 [46]) (dent 1 [46; 46]) Him4 eq_refl); [done|]|].
  { etrans; [apply Hbl|done]. cbn [snd]. rewrite length_app, !length_dent. lia. }
  intros _ s5 [xs5 Him5]. cbn [insert list_insert] in Him5. set (r := dent 1 [46] ++ dent 1 [46; 46]) in *.
  assert (Hfl : fl = (T_DIR, r ++ dents (Z.of_nat (length (@nil (Z * list Z))) + 2) args) :: ([] ++ the_files args)).
  { unfold fl, root_bytes, r. by rewrite <- app_assoc. }
  apply runs_bind. eapply runs_mono; [apply (add_files_runs args s5 r [] xs5 Him5 Hargs); [cbn; lia| |rewrite <- Hfl; unfold FSSIZE; lia]|].
  { unfold r. by rewrite length_app, !length_dent. }
  rewrite <- Hfl. intros _ s6 [xs6 Him6]. fold finish.
  eapply runs_mono; [apply (finish_runs s6 (root_bytes args) (the_files args) xs6 Him6 Hmax)|]; [|intros u s' Hs'; by exists xs6].
  unfold root_bytes. rewrite !length_app, !length_dent, length_dents. lia.
Qed.

(** ** What the image is to the kernel *)

(** The disk with the image on it. *)
Definition image_disk (s : mk) : gmap blockid (list Z) := list_to_map ((fun n => ((1, n), sect s n)) <$> seqZ 0 FSSIZE).

Lemma image_disk_lookup s n : 0 <= n < FSSIZE -> image_disk s !! (1, n) = Some (sect s n).
Proof.
  intros Hn. unfold image_disk. apply elem_of_list_to_map_1.
  - rewrite <- list_fmap_compose. apply NoDup_fmap_2; [|apply NoDup_seqZ]. intros i j Hij. by injection Hij.
  - apply list_elem_of_fmap. exists n. split; [done|]. by apply elem_of_seqZ.
Qed.

Lemma image_disk_Some s k v : image_disk s !! k = Some v -> exists n, 0 <= n < FSSIZE /\ v = sect s n.
Proof.
  unfold image_disk. set (l := seqZ 0 FSSIZE). assert (Hl : forall n, n ∈ l -> 0 <= n < FSSIZE) by (intros n Hn; by apply elem_of_seqZ in Hn).
  clearbody l. intros Hk. apply elem_of_list_to_map_2 in Hk. apply list_elem_of_fmap in Hk as (n & [= _ ->] & Hn). exists n. split; [by apply Hl|done].
Qed.

Lemma finished_disk fl xs s : finished fl xs s -> fs_disk 2 (image_disk s).
Proof.
  intros Hf. assert (Hon : forall n, 0 <= n < FSSIZE -> on_disk (image_disk s) n = sect s n).
  { intros n Hn. unfold on_disk, dread. by rewrite image_disk_lookup. }
  assert (H1 : sect s 1 = sb_block) by (rewrite (fn_low _ _ _ Hf); [done|unfold low; lia|done]).
  assert (H2 : sect s 2 = zeroes) by (rewrite (fn_low _ _ _ Hf); [done|unfold low; lia|done]).
  constructor.
  - unfold log_at, LOGSIZE, FSSIZE. lia.
  - intros k v Hv. apply image_disk_Some in Hv as (n & Hn & ->). destruct (bu_secs _ _ _ (fn_built _ _ _ Hf) n Hn) as (b & Hb & Hl). unfold sect. by rewrite Hb.
  - by rewrite Hon, H1 by (unfold FSSIZE; lia).
  - by rewrite Hon, H1 by (unfold FSSIZE; lia).
  - rewrite Hon, H2 by (unfold FSSIZE; lia). change (decode zeroes) with (@nil Z). apply hdr_ok_nil.
Qed.

Lemma finished_at fl xs s i e : finished fl xs s -> fl !! i = Some e ->
  exists x, xs !! i = Some x /\ file_ok (sect s) (blocks fl) (caps (i_size x)) x /\ i_size x = Z.of_nat (length (snd e)) /\
    content (sect s) x = snd e /\ plain (Z.of_nat i + 1) (fst e) x.
Proof.
  intros Hf Hi. assert (Hc := f_equal (fun l => l !! i) (fn_content _ _ _ Hf)). cbn beta in Hc. rewrite !list_lookup_fmap, Hi in Hc.
  destruct (xs !! i) as [x|] eqn:Hx; [|done]. injection Hc as Hc. exists x. assert (Hb := fn_built _ _ _ Hf).
  assert (Hcs : cs_of fl !! i = Some (caps (Z.of_nat (length (snd e))))) by (unfold cs_of; by rewrite list_lookup_fmap, Hi).
  assert (Hok := file_at _ _ _ _ _ _ Hb Hcs Hx). rewrite (bu_fb _ _ _ Hb) in Hok.
  assert (Hsz : i_size x = Z.of_nat (length (snd e))) by (rewrite <- Hc, content_length by apply Hok; pose proof (fk_size _ _ _ _ Hok); lia).
  rewrite Hsz. split_and!; [done|exact Hok|done|done|]. by apply (fn_plain _ _ _ Hf).
Qed.

(** The blocks of a file are in use and not shared, as [FsFile.inode_ok] asks. *)
Lemma file_inode_ok f fb cap inum t x :
  file_ok f fb cap x -> plain inum t x -> fb <= FSSIZE -> (forall b, 0 <= b < fb -> used mk_sb f b = true) -> cap = caps (i_size x) ->
  FsFile.inode_ok mk_sb f x.
Proof.
  intros Hok [Hpl _] Hfb Hu ->. assert (Hr := fun b => owned_range _ _ _ _ b Hok). destruct (fk_size _ _ _ _ Hok) as [H0 Hsz].
  destruct (caps_range _ H0) as [Hc0 Hc]. constructor; [by rewrite Hpl|apply Hok| |apply Hok| |].
  - intros k Hk Hne. assert (Hb : nmeta <= slot_of f x k < fb) by (apply Hr; split; [done|by exists k]). rewrite nmeta_eq in Hb.
    split; [split; [change (dstart mk_sb) with 63|change (sb_size mk_sb) with FSSIZE]; lia|]. apply Hu. lia.
  - pose proof (fk_cap _ _ _ _ Hok). change (Z.of_nat BSIZE) with BS. unfold BS, BSIZE in *. lia.
  - intros k Hk Hlt. change (Z.of_nat BSIZE) with BS in Hlt. assert (Hcap : k < caps (i_size x)) by (unfold BS, BSIZE in *; lia).
    pose proof (fk_slot _ _ _ _ Hok k ltac:(lia)) as Hs. rewrite nmeta_eq in Hs. lia.
Qed.

Lemma content_pad f x n :
  0 <= i_size x <= n -> (forall p, i_size x <= p < n -> byte_of f x p = 0) ->
  content f (set_i_size n x) = content f x ++ replicate (Z.to_nat (n - i_size x)) 0.
Proof.
  intros Hn Hz. unfold content. cbn [i_size set_i_size]. change (byte_of f (set_i_size n x)) with (byte_of f x).
  replace (seqZ 0 n) with (seqZ 0 (i_size x + (n - i_size x))) by (f_equal; lia).
  rewrite seqZ_app, fmap_app by lia. f_equal. apply list_eq_same_length with (n := Z.to_nat (n - i_size x)).
  - by rewrite length_replicate.
  - by rewrite length_fmap, length_seqZ.
  - intros i a b Hi Ha Hb. apply lookup_replicate in Hb as [-> _]. apply list_lookup_fmap_Some in Ha as (p & -> & Hp).
    apply lookup_seqZ in Hp as [-> Hp]. apply Hz. lia.
Qed.

(** The image with the files [args]: the kernel can mount it; every file has an
    inode of its own with its bytes; the root directory lists them under their
    names; the other inodes are free; a block is marked in the bitmap if it
    holds anything; no block is in two files. *)
Record fs_image (args : list (list Z * list Z)) (s : mk) : Prop := FsImage {
  fi_disk : fs_disk 2 (image_disk s);
  fi_sb : decode_sb (sect s 1) = mk_sb;
  fi_log : decode (sect s 2) = [];
  fi_file : forall i name bytes, args !! i = Some (name, bytes) -> let x := disk_inode (sect s) (Z.of_nat i + 2) in
    plain (Z.of_nat i + 2) T_FILE x /\ FsFile.inode_ok mk_sb (sect s) x /\ content (sect s) x = bytes;
  fi_root : let x := disk_inode (sect s) 1 in let n := Z.of_nat (length (root_bytes args)) in
    plain 1 T_DIR x /\ i_size x = root_size n /\
    content (sect s) x = root_bytes args ++ replicate (Z.to_nat (root_size n - n)) 0 /\
    (forall k, 0 <= k < MAXFILE -> slot_of (sect s) x k <> 0 <-> k * BS < n) /\
    (n mod BS <> 0 -> FsFile.inode_ok mk_sb (sect s) x);
  fi_free : forall j, Z.of_nat (length args) + 1 < j < NINODES -> i_type (disk_inode (sect s) j) = 0;
  fi_used : forall b, 0 <= b < FSSIZE -> used mk_sb (sect s) b = (b <? blocks ((T_DIR, root_bytes args) :: the_files args));
  fi_apart : forall i j b, 1 <= i <= Z.of_nat (length args) + 1 -> 1 <= j <= Z.of_nat (length args) + 1 ->
    owns (sect s) (disk_inode (sect s) i) b -> owns (sect s) (disk_inode (sect s) j) b -> i = j
}.

Lemma length_root args : length (root_bytes args) = (16 * (length args + 2))%nat.
Proof. unfold root_bytes. rewrite !length_app, !length_dent, length_dents. lia. Qed.

Section final.
Context (args : list (list Z * list Z)) (xs : list inode) (s : mk).
Abbreviation fl := ((T_DIR, root_bytes args) :: the_files args).
Hypothesis Hf : finished fl xs s.
Hypothesis Hmax : blocks fl < 4096.
Hypothesis Hcnt : (length args <= 198)%nat.

Lemma final_used b : 0 <= b < FSSIZE -> used mk_sb (sect s) b = (b <? blocks fl).
Proof.
  apply used_mark; [|apply Hf|].
  - pose proof (total_files fl). unfold blocks in *. rewrite nmeta_eq in *. lia.
  - intros n Hn. rewrite nmeta_eq in Hn. rewrite (fn_low _ _ _ Hf); [by rewrite (proj2 (Z.eqb_neq n 1)) by lia|unfold low; rewrite nmeta_eq; lia|lia].
Qed.

Lemma final_file i name bytes : args !! i = Some (name, bytes) -> let x := disk_inode (sect s) (Z.of_nat i + 2) in
  plain (Z.of_nat i + 2) T_FILE x /\ FsFile.inode_ok mk_sb (sect s) x /\ content (sect s) x = bytes.
Proof.
  intros Hi x. assert (Hfi : fl !! S i = Some (T_FILE, bytes)).
  { change (the_files args !! i = Some (T_FILE, bytes)). unfold the_files. by rewrite list_lookup_fmap, Hi. }
  destruct (finished_at _ _ _ _ _ Hf Hfi) as (y & Hy & Hok & _ & Hc & Hpl). cbn [fst snd] in *.
  replace (Z.of_nat (S i) + 1) with (Z.of_nat i + 2) in Hpl by lia. unfold x. rewrite (fn_disk _ _ _ Hf i y Hy). split_and!; [done| |done].
  apply (file_inode_ok _ _ _ _ _ _ Hok Hpl); [unfold FSSIZE; lia| |done].
  intros b Hb. rewrite final_used by (unfold FSSIZE; lia). apply Z.ltb_lt. lia.
Qed.

Lemma final_root : let x := disk_inode (sect s) 1 in let n := Z.of_nat (length (root_bytes args)) in
  plain 1 T_DIR x /\ i_size x = root_size n /\
  content (sect s) x = root_bytes args ++ replicate (Z.to_nat (root_size n - n)) 0 /\
  (forall k, 0 <= k < MAXFILE -> slot_of (sect s) x k <> 0 <-> k * BS < n) /\
  (n mod BS <> 0 -> FsFile.inode_ok mk_sb (sect s) x).
Proof.
  destruct (finished_at _ _ _ _ _ Hf (eq_refl : fl !! 0%nat = Some (T_DIR, root_bytes args))) as (y & Hy & Hok & Hsz & Hc & Hpl).
  cbn [fst snd] in *. change (Z.of_nat 0 + 1) with 1 in Hpl. cbv zeta. rewrite (fn_root _ _ _ Hf y Hy), <- Hsz. set (n := i_size y) in *.
  assert (Hln := length_root args). destruct (caps_range n ltac:(lia)) as [Hc0 Hcr].
  pose proof (Z.div_mod n BS ltac:(done)) as Hdm. pose proof (Z.mod_pos_bound n BS ltac:(done)) as Hmd.
  assert (Hrs : n < root_size n <= n + BS) by (unfold root_size; lia).
  split_and!; [destruct Hpl as [Hp Ht]; split; [by rewrite Hp|done]|done| | |].
  - rewrite content_pad, Hc; [done|fold n; lia|]. fold n. intros p Hp. destruct (decide (p < caps n * BS)); [apply (fk_tail _ _ _ _ Hok); fold n; lia|].
    assert (Hk : caps n <= p / BS) by (apply Z.div_le_lower_bound; [done|lia]).
    assert (Hk' : p / BS < MAXFILE) by (apply Z.div_lt_upper_bound; [done|unfold MAXFILE, BS, BSIZE in *; lia]).
    unfold byte_of. rewrite (fk_none _ _ _ _ Hok) by lia. rewrite (fn_low _ _ _ Hf 0 ltac:(unfold low; lia) ltac:(lia)). apply byte_at_zeroes.
  - intros k Hk. change (slot_of (sect s) (set_i_size (root_size n) y) k) with (slot_of (sect s) y k). destruct (decide (k < caps n)) as [Hlt|Hge].
    + pose proof (fk_slot _ _ _ _ Hok k ltac:(lia)) as Hs. rewrite nmeta_eq in Hs. split; intros _; [unfold BS, BSIZE in *; nia|lia].
    + rewrite (fk_none _ _ _ _ Hok) by lia. split; [done|]. unfold BS, BSIZE in *. nia.
  - intros Hmod. assert (Hin : FsFile.inode_ok mk_sb (sect s) y).
    { apply (file_inode_ok _ _ _ _ _ _ Hok Hpl); [unfold FSSIZE; lia| |done].
      intros b Hb. rewrite final_used by (unfold FSSIZE; lia). apply Z.ltb_lt. lia. }
    destruct Hin. constructor; [done..| |]; cbn [i_size set_i_size]; change (Z.of_nat BSIZE) with BS in *; [unfold MAXFILE, BS, BSIZE in *; lia|].
    intros k Hk Hlt. apply (io_full k Hk). fold n. unfold root_size in Hlt. unfold BS, BSIZE in *. nia.
Qed.

Lemma final_apart i j b : 1 <= i <= Z.of_nat (length args) + 1 -> 1 <= j <= Z.of_nat (length args) + 1 ->
  owns (sect s) (disk_inode (sect s) i) b -> owns (sect s) (disk_inode (sect s) j) b -> i = j.
Proof.
  assert (Hat : forall k c, 1 <= k <= Z.of_nat (length args) + 1 -> owns (sect s) (disk_inode (sect s) k) c ->
    exists x, xs !! Z.to_nat (k - 1) = Some x /\ owns (sect s) x c).
  { intros k c Hk Ho. destruct (lookup_lt_is_Some_2 fl (Z.to_nat (k - 1))) as [e He]; [cbn [length]; unfold the_files; rewrite length_fmap; lia|].
    destruct (finished_at _ _ _ _ _ Hf He) as (x & Hx & _). exists x. split; [done|]. destruct (decide (k = 1)) as [->|].
    - by rewrite (fn_root _ _ _ Hf x Hx) in Ho.
    - replace (Z.to_nat (k - 1)) with (S (Z.to_nat (k - 2))) in Hx by lia. apply (fn_disk _ _ _ Hf) in Hx.
      replace (Z.of_nat (Z.to_nat (k - 2)) + 2) with k in Hx by lia. by rewrite <- Hx. }
  intros Hi Hj Hbi Hbj. destruct (Hat i b Hi Hbi) as (x & Hx & Hbx). destruct (Hat j b Hj Hbj) as (y & Hy & Hby).
  assert (He := dk_apart _ _ _ _ (bu_disk _ _ _ (fn_built _ _ _ Hf)) _ _ _ _ b Hx Hy Hbx Hby). lia.
Qed.

Lemma final_image : fs_image args s.
Proof.
  constructor; [by eapply finished_disk| | |exact final_file|exact final_root| |exact final_used|exact final_apart].
  - rewrite (fn_low _ _ _ Hf); [by vm_compute|unfold low; lia|done].
  - rewrite (fn_low _ _ _ Hf); [by vm_compute|unfold low; lia|done].
  - intros j Hj. apply (fn_rest _ _ _ Hf); [unfold inum_ok, NINODES in *; lia|]. cbn [length]. unfold the_files. rewrite length_fmap. lia.
Qed.
End final.

(** [mkfs] builds a file system with the files it is given, whatever the
    state of the image was: it ends without a failed assertion and the image is
    one the kernel can mount, every file has an inode of its own with its bytes
    and blocks marked in use, the root directory lists the files under their
    names without the leading underscore, the other inodes are free, and no
    block is in two files. The last block of the root directory is missing when
    its entries fill whole blocks. *)
Theorem mkfs_correct args s0 :
  freeinode s0 = 1 -> Forall arg_ok args -> (length args <= 198)%nat ->
  blocks ((T_DIR, root_bytes args) :: the_files args) < 4096 -> runs (mkfs args) s0 (fun _ s' => fs_image args s').
Proof.
  intros Hfi Ha Hcnt Hmax. eapply runs_mono; [by apply mkfs_finished|]. intros _ s' [xs Hs']. by eapply final_image.
Qed.

(** ** An instance *)

(** [README] and [_cat]. *)
Definition demo_args : list (list Z * list Z) := [([82; 69; 65; 68; 77; 69], replicate 600 65); ([95; 99; 97; 116], [127; 69; 76; 70])].

Lemma demo_args_ok : Forall arg_ok demo_args.
Proof.
  repeat constructor; cbn [fst snd]; try lia; try (apply (bool_decide_unpack _); by vm_compute); by vm_compute.
Qed.

Lemma mkfs_correct_witness : runs (mkfs demo_args) (Mk ∅ 1 0) (fun _ s' => fs_image demo_args s').
Proof. apply (mkfs_correct demo_args (Mk ∅ 1 0) eq_refl demo_args_ok); [cbn; lia|by vm_compute]. Defined.
