(* ===== verification/Mount.v ===== *)
(** Starting the file system of the kernel on a disk ([binit] of [main.c], and
    [iinit] and [initlog] as [forkret] of [proc.c] calls them), and what it finds
    on a disk that [mkfs] made. *)

From S2P Require Import Prelude Layout CString Bytes Bio Block Log LogBlocks Fs FsBlocks FsFile FsRw FsInode Dir Mkfs MkfsThms.

Abbreviation fss := (@Fs.fss lst).
Abbreviation F := (@Fs.F lst).

(** ** Start *)

Definition blank_inode : inode := Inode 0 0 0 (Sleeplock 0 0) 0 0 0 0 0 0 (replicate 13 0).
Definition boot_fss (dk : gmap blockid (list Z)) (pid : Z) : fss :=
  Fss (boot_lst dk pid) (Superblock 0 0 0 0 0 0 0) (replicate NINODE blank_inode) 0 pid.
Definition fs_boot : F () :=
  on_blk (bio binit);;
  iinit 1;;
  on_blk (initlog 1).

Lemma mk_log_at : log_at 2.
Proof. unfold log_at, LOGSIZE, FSSIZE. lia. Qed.
#[local] Instance mk_spec : blocks_spec lst := log_blocks_spec 2 mk_log_at.

Lemma mk_layout : layout mk_sb.
Proof.
  constructor.
  - intros n Hn. change (sb_inodestart mk_sb) with 32 in Hn. change (sb_size mk_sb) with FSSIZE in Hn. unfold bl_home. cbn. unfold log_home, LOGSIZE. lia.
  - intros i Hi. change (0 <= i < 200) in Hi. unfold IBLOCK. change (sb_inodestart mk_sb) with 32. change (sb_bmapstart mk_sb) with 58.
    unfold IPB. pose proof (Z.div_pos i 8 ltac:(lia) ltac:(done)). pose proof (Z.div_lt_upper_bound i 8 25 ltac:(done) ltac:(lia)). lia.
  - by vm_compute.
  - by vm_compute.
Qed.

(** [iinit] reads the superblock. *)
Lemma iinit_runs (s : fss) (Q : () -> fss -> Prop) :
  runs (readsb 1) (blk s) (fun sb t => Q () (Fss t sb (set_i_lock (Sleeplock 0 0) <$> icache s) (cwd s) (fpid s))) -> runs (iinit 1) s Q.
Proof.
  unfold iinit, readsb, runs, bread_, bdata, brelse_, on_blk, zoom, bind, modify, ret. cbn. change (u32 1) with 1.
  destruct (bio (bread 1 1) (blk s)) as [[bp t1]| | |]; cbn; try done. unfold bind. destruct (bio (getbuf bp) t1) as [[x t2]| | |]; cbn; try done.
  by destruct (bio (brelse bp) t2) as [[[] t3]| | |].
Qed.

(** The file system starts on any disk with a readable log: no transaction is
    open, the blocks are what the log and the disk together said, and the
    superblock is in memory. *)
Lemma fs_boot_runs dk pid : fs_disk 2 dk -> runs fs_boot (boot_fss dk pid) (fun _ s => exists t,
  s = Fss t (decode_sb (on_disk dk 1)) (replicate NINODE blank_inode) 0 pid /\ log_idle 2 t (recovered 2 (on_disk dk))).
Proof.
  intros Hfs. unfold fs_boot. apply runs_bind.
  apply (runs_on_blk (bio binit) (boot_fss dk pid) (boot_lst dk pid)), runs_bio.
  eapply runs_mono; [by apply (binit_runs dk pid), (fs_len 2)|]. intros [] b0 (Hok0 & Hdk0 & Hwl0 & _ & Hlk0 & Hpn0).
  apply runs_bind, iinit_runs. cbn [blk set_blk boot_fss].
  eapply runs_mono; [by apply (readsb_runs (set_bcache b0 (boot_lst dk pid)))|].
  intros sb1 s1 (b1 & -> & -> & Hok1 & Hlk1 & Hpn1 & Hdk1 & Hwl1 & _). cbn [bcache set_bcache] in *.
  set (s2 := Fss _ _ _ _ _). change s2 with (set_blk (blk s2) s2). apply runs_on_blk.
  change (blk s2) with (set_bcache b1 (boot_lst dk pid)).
  eapply runs_mono; [apply (initlog_runs 2 dk pid b1 Hfs Hok1)|].
  { by rewrite Hdk1. } { intros m. by rewrite Hlk1, Hlk0. } { intros m. by rewrite Hpn1, Hpn0. }
  intros [] t (H1 & H2 & H3 & H4 & _ & _ & H7). exists t. unfold s2, set_blk. cbn [sb icache cwd fpid]. rewrite Hlk0. split; [done|].
  split_and!; [done|done|done|done|]. intros n [_ Hn]. by apply H7.
Qed.

(** ** The root directory *)

Definition root_list (args : list (list Z * list Z)) : list (Z * list Z) :=
  (1, [46]) :: (1, [46; 46]) :: imap (fun k a => (Z.of_nat k + 2, base (fst a))) args.

Lemma dents_concat args : forall inum,
  dents inum args = concat ((fun e => dent (fst e) (snd e)) <$> imap (fun k a => (Z.of_nat k + inum, base (fst a))) args).
Proof.
  induction args as [|a args IH]; intros inum; [done|]. cbn [dents]. rewrite (IH (inum + 1)). cbn [imap fmap list_fmap concat fst snd]. f_equal.
  do 2 f_equal. apply imap_ext. intros k b _. unfold compose. f_equal. lia.
Qed.

Lemma root_concat args : root_bytes args = concat ((fun e => dent (fst e) (snd e)) <$> root_list args).
Proof. unfold root_bytes. by rewrite dents_concat. Qed.

(** Entries of 16 bytes each. *)
Lemma chunk_at (l : list (list Z)) rest k c : Forall (fun c => length c = 16%nat) l -> l !! k = Some c ->
  take 16 (drop (16 * k) (concat l ++ rest)) = c.
Proof.
  intros Hl. revert k. induction Hl as [|b l Hb _ IH]; intros k Hk; [done|]. destruct k as [|k].
  - injection Hk as ->. cbn [concat]. rewrite <- app_assoc. change (16 * 0)%nat with 0%nat. rewrite drop_0. by apply take_app_length'.
  - cbn [concat]. rewrite <- app_assoc. replace (16 * S k)%nat with (length b + 16 * k)%nat by lia. rewrite <- drop_drop, drop_app_length. by apply IH.
Qed.

Lemma get_dent inum name : 0 <= inum < 2 ^ 16 -> get_dirent (dent inum name) = Dirent inum (pad name).
Proof.
  intros Hi. unfold get_dirent, dent. rewrite rd16_le16. unfold u16. rewrite Z.mod_small by lia. f_equal.
  change (drop 2 (le16 inum ++ pad name)) with (pad name). apply take_ge. unfold pad. rewrite length_app, length_take, length_replicate. lia.
Qed.

Lemma root_dirents args rest k e : (length args <= 198)%nat -> root_list args !! k = Some e ->
  dirents (root_bytes args ++ rest) !! k = Some (Dirent (fst e) (pad (snd e))).
Proof.
  intros Hcnt Hk. assert (Hkl := lookup_lt_Some _ _ _ Hk).
  assert (He : 0 <= fst e < 2 ^ 16).
  { destruct k as [|[|k]]; [by injection Hk as <-|by injection Hk as <-|]. cbn in Hk. apply list_lookup_imap_Some in Hk as (a & Ha & ->).
    apply lookup_lt_Some in Ha. cbn [fst]. lia. }
  assert (Hlen : length (root_bytes args) = (16 * length (root_list args))%nat).
  { rewrite length_root. unfold root_list. cbn [length]. rewrite length_imap. lia. }
  unfold dirents. rewrite list_lookup_fmap, lookup_seq_lt.
  2: { rewrite length_app, Hlen. apply (Nat.div_le_lower_bound _ 16 (S k)); lia. }
  cbn [fmap option_fmap option_map]. f_equal. unfold dirent_at. rewrite Nat.add_0_l, root_concat.
  rewrite (chunk_at _ rest k (dent (fst e) (snd e))); [by apply get_dent| |by rewrite list_lookup_fmap, Hk].
  apply Forall_fmap, Forall_true. intros b. apply length_dent.
Qed.

(** Two names are the same to [namecmp] if their first [DIRSIZ] bytes are. *)
Lemma namecmp_pad s t : Forall (fun c => 0 < c < 256) s -> Forall (fun c => 0 < c < 256) t ->
  namecmp (take DIRSIZ s) (pad t) = true <-> take DIRSIZ s = take DIRSIZ t.
Proof.
  intros Hs Ht. assert (Hw : forall u : list Z, Forall (fun c => 0 < c < 256) u -> Forall (fun c => 0 <= c < 256) (take DIRSIZ u) /\ Forall (fun c => c <> 0) (take DIRSIZ u)).
  { intros u Hu. split; apply Forall_take; (eapply Forall_impl; [exact Hu|]); intros c Hc; cbn beta in Hc; lia. }
  destruct (Hw s Hs) as [Hs1 Hs2]. destruct (Hw t Ht) as [Ht1 Ht2]. rewrite namecmp_correct; [|done|].
  2: { unfold pad. apply Forall_app. split; [done|]. apply Forall_replicate. lia. }
  rewrite cstr_app; [|done|rewrite length_take; lia|right; by exists []]. unfold pad. rewrite <- app_assoc, cstr_app; [done|done|rewrite length_take; lia|].
  rewrite length_take. destruct (decide (DIRSIZ <= length t)%nat); [left; lia|right].
  replace (DIRSIZ - length t)%nat with (S (DIRSIZ - length t - 1)) by lia. eexists. done.
Qed.

Definition args_names (args : list (list Z * list Z)) : list (list Z) := (fun e => take DIRSIZ (snd e)) <$> root_list args.

Lemma root_find args rest i name bytes :
  (length args <= 198)%nat -> Forall arg_ok args -> NoDup (args_names args) -> args !! i = Some (name, bytes) ->
  dir_find (take DIRSIZ (base name)) (root_bytes args ++ rest) = Some (S (S i), Dirent (Z.of_nat i + 2) (pad (base name))).
Proof.
  intros Hcnt Hargs Hnd Hi. assert (Hri : root_list args !! S (S i) = Some (Z.of_nat i + 2, base name)).
  { change (imap (fun k (a : list Z * list Z) => (Z.of_nat k + 2, base (fst a))) args !! i = Some (Z.of_nat i + 2, base name)). by rewrite list_lookup_imap, Hi. }
  assert (Hch : forall k e, root_list args !! k = Some e -> Forall (fun c => 0 < c < 256) (snd e)).
  { intros k e Hk. destruct k as [|[|k]]; [by injection Hk as <-; repeat constructor|by injection Hk as <-; repeat constructor|].
    cbn in Hk. apply list_lookup_imap_Some in Hk as (a & Ha & ->). cbn [snd]. apply base_forall. by apply (Forall_lookup_1 _ _ _ _ Hargs Ha). }
  apply list_find_Some. split_and!.
  - by rewrite (root_dirents args rest _ _ Hcnt Hri).
  - split; [cbn; lia|]. apply namecmp_pad; [by apply (Hch _ _ Hri)..|done].
  - intros j de Hj Hlt [_ Hn]. destruct (lookup_lt_is_Some_2 (root_list args) j) as [e He]; [apply lookup_lt_Some in Hri; lia|].
    rewrite (root_dirents args rest _ _ Hcnt He) in Hj. injection Hj as <-. cbn [de_name] in Hn.
    apply namecmp_pad in Hn; [|by apply (Hch _ _ Hri)|by apply (Hch _ _ He)].
    assert (Heq : j = S (S i)); [|lia]. apply (NoDup_lookup _ _ _ (take DIRSIZ (snd e)) Hnd); unfold args_names; rewrite list_lookup_fmap; [by rewrite He|].
    rewrite Hri. cbn [fmap option_fmap option_map snd]. by rewrite Hn.
Qed.

(** ** Reading a file of the image *)

Section read.
Context (dev_read : Z -> option (nat -> Z -> F (Z * list Z))).

(** Opening a file by its name and reading from it, as [exec] does. *)
Definition read_path (path : list Z) (off n : Z) : F (option (Z * list Z)) :=
  begin_op_;;
  o ← namei dev_read path;
  match o with
  | None => ret None
  | Some ip =>
      ilock ip;;
      r ← readi dev_read ip off n;
      ret (Some r)
  end.

Lemma fs_boot_image args img pid : fs_image args img ->
  runs fs_boot (boot_fss (image_disk img) pid) (fun _ s => exists t,
    s = Fss t mk_sb (replicate NINODE blank_inode) 0 pid /\ log_idle 2 t (sect img)).
Proof.
  intros Him. assert (Hon : forall n, 0 <= n < FSSIZE -> on_disk (image_disk img) n = sect img n).
  { intros n Hn. unfold on_disk, dread. by rewrite image_disk_lookup. }
  eapply runs_mono; [apply fs_boot_runs, (fi_disk _ _ Him)|]. intros [] s (t & -> & H1 & H2 & H3 & H4 & H5). exists t.
  rewrite Hon, (fi_sb _ _ Him) by (unfold FSSIZE; lia). split; [done|]. split_and!; [done|done|done|done|]. intros n Hn. rewrite (H5 n Hn). unfold recovered.
  rewrite (Hon 2), (fi_log _ _ Him) by (unfold FSSIZE; lia). apply Hon, Hn.
Qed.

(** The fields that make the contents. *)
Lemma inode_ok_fields f x y : i_dev x = i_dev y -> i_addrs x = i_addrs y -> i_size x = i_size y ->
  FsFile.inode_ok mk_sb f x -> FsFile.inode_ok mk_sb f y.
Proof.
  intros Hd Ha Hs Hok. assert (Hsl : forall k, slot_of f x k = slot_of f y k) by (intros k; unfold slot_of, indirect; by rewrite Ha).
  destruct Hok as [H1 H2 H3 H4 H5 H6]. constructor; rewrite <- ?Hd, <- ?Ha, <- ?Hs; [done|done| | |done|].
  - intros k. rewrite <- Hsl. apply H3.
  - intros j k. rewrite <- !Hsl. apply H4.
  - intros k. rewrite <- Hsl. apply H6.
Qed.

Lemma read_image args img t pid i name bytes off n :
  fs_image args img -> Forall arg_ok args -> (length args <= 198)%nat -> NoDup (args_names args) ->
  Z.of_nat (length (root_bytes args)) mod BS <> 0 -> args !! i = Some (name, bytes) -> base name <> [] ->
  0 <= off < 2 ^ 32 -> 0 <= n < 2 ^ 32 -> log_idle 2 t (sect img) ->
  runs (read_path (SLASH :: base name) off n) (Fss t mk_sb (replicate NINODE blank_inode) 0 pid) (fun r _ =>
    if decide (Z.of_nat (length bytes) < off \/ 2 ^ 32 <= off + n) then r = Some (-1, [])
    else let bs := take (Z.to_nat n) (drop (Z.to_nat off) bytes) in r = Some (Z.of_nat (length bs), bs)).
Proof.
  intros Him Hargs Hcnt Hnd Hmod Hi Hne Hoff Hn Hidle. set (f := sect img). set (s0 := Fss t _ _ _ _).
  assert (Ha := Forall_lookup_1 _ _ _ _ Hargs Hi). destruct Ha as (Hsl & _ & _). cbn [fst] in Hsl.
  assert (Hsl' : SLASH ∉ base name) by (intros H; apply Hsl; destruct name as [|c rest]; [done|]; cbn [base] in H; destruct (c =? 95); [by right|done]).
  destruct (fi_root _ _ Him) as (Hrp & Hrs & Hrc & _ & Hrok). specialize (Hrok Hmod). destruct Hrp as [Hrp _]. fold f in Hrp, Hrs, Hrc, Hrok.
  destruct (fi_file _ _ Him i name bytes Hi) as ([Hfp _] & Hfok & Hfc). fold f in Hfp, Hfok, Hfc. assert (Hil := lookup_lt_Some _ _ _ Hi).
  unfold read_path. apply runs_bind. change s0 with (set_blk t s0). apply runs_on_blk. eapply runs_mono; [apply (@bl_begin_ok lst _ mk_spec t f Hidle)|].
  intros [] t1 Hst. assert (Hh : holds s0 [] [] f (set_blk t1 s0)) by (by exists t1).
  apply runs_bind. eapply runs_mono; [apply (namei_root mk_sb mk_layout dev_read s0 [] f _ (base name) (S (S i)) (Dirent (Z.of_nat i + 2) (pad (base name))))|].
  { done. } { apply Forall_replicate. done. } { cbn; lia. } { exact Hh. } { cbn; unfold NBUF; lia. } { by vm_compute. }
  { intros z r. assert (Hlr : forall g : inode -> Z, g = i_type \/ g = i_nlink \/ g = i_size -> g r = g (disk_inode f 1)) by (by intros g [->|[->| ->]]).
    split_and!.
    - by apply (inode_ok_fields f (disk_inode f 1)).
    - rewrite (Hlr i_type) by auto. by rewrite Hrp.
    - rewrite (Hlr i_nlink) by auto. by rewrite Hrp.
    - rewrite (Hlr i_size) by auto. rewrite Hrs. unfold root_size. change BS with (32 * 16). rewrite Z.mul_assoc. apply Z_mod_mult.
    - change (content f r) with (content f (disk_inode f 1)). rewrite Hrc. by apply (root_find args _ i name bytes). }
  { cbn. lia. } { done. } { done. }
  intros o s2 (jp & z & s1 & -> & [Hz0 Hzl] & Hsb1 & Hpid1 & Hjp & Hh2). cbn [de_inum] in Hh2.
  set (y := loaded mk_sb s1 f (fresh_inode (Z.of_nat i + 2) z)).
  assert (Hyt : i_type y = T_FILE) by (change (i_type y) with (i_type (disk_inode f (Z.of_nat i + 2))); by rewrite Hfp).
  apply runs_bind. eapply runs_mono; [apply (ilock_load mk_sb mk_layout s1 Hsb1 jp Hjp _ [] f s2 Hh2)|]; cbn [fresh_inode i_ref i_lock i_valid i_dev i_inum]; try done.
  { by rewrite Hzl. } { change (sb_ninodes mk_sb) with 200. lia. } { cbn; unfold NBUF; lia. } { fold y. by rewrite Hyt. }
  fold y. intros [] s3 Hh3. apply runs_bind.
  eapply runs_mono; [apply (readi_runs mk_sb mk_layout dev_read s1 jp Hjp f y [] off n s3)|]; try done.
  { by apply (inode_ok_fields f (disk_inode f (Z.of_nat i + 2))). } { by rewrite Hyt. } { cbn; unfold NBUF; lia. }
  change (i_size y) with (i_size (disk_inode f (Z.of_nat i + 2))). change (content f y) with (content f (disk_inode f (Z.of_nat i + 2))). rewrite Hfc.
  intros [r bs] s4 [_ Hr]. eapply runs_Ok; [done|].
  assert (Hsz : i_size (disk_inode f (Z.of_nat i + 2)) = Z.of_nat (length bytes)).
  { rewrite <- Hfc. pose proof (io_size _ _ _ Hfok). unfold content. rewrite length_fmap, length_seqZ. lia. }
  rewrite Hsz in Hr. destruct (decide _); destruct Hr as [-> ->]; done.
Qed.

(** C19. From the image builder to a read: the kernel starts on the disk that
    [mkfs] made, finds a file of the image by its name in the root directory and
    reads the bytes that [mkfs] was given. The names have to differ in their
    first 14 bytes, and the image holds at most 198 files of fewer than 4096
    blocks in all, with a root directory that does not end on a block boundary.
    *)
Theorem mkfs_boot_read args i name bytes pid off n :
  Forall arg_ok args -> (length args <= 198)%nat -> blocks ((T_DIR, root_bytes args) :: the_files args) < 4096 ->
  NoDup (args_names args) -> Z.of_nat (length (root_bytes args)) mod BS <> 0 ->
  args !! i = Some (name, bytes) -> base name <> [] -> 0 <= off < 2 ^ 32 -> 0 <= n < 2 ^ 32 ->
  runs (mkfs args) (Mk ∅ 1 0) (fun _ img =>
    runs (fs_boot;; read_path (SLASH :: base name) off n) (boot_fss (image_disk img) pid) (fun r _ =>
      if decide (Z.of_nat (length bytes) < off \/ 2 ^ 32 <= off + n) then r = Some (-1, [])
      else let bs := take (Z.to_nat n) (drop (Z.to_nat off) bytes) in r = Some (Z.of_nat (length bs), bs))).
Proof.
  intros Hargs Hcnt Hmax Hnd Hmod Hi Hne Hoff Hn. eapply runs_mono; [by apply mkfs_finished|]. intros _ img [xs Hxs].
  assert (Him : fs_image args img) by (by eapply final_image). apply runs_bind. eapply runs_mono; [by apply (fs_boot_image args)|].
  intros [] s (t & -> & Hidle). by apply (read_image args img t pid i name bytes).
Qed.
End read.

Definition no_read : Z -> option (nat -> Z -> F (Z * list Z)) := fun _ => None.

Lemma mkfs_boot_read_witness : runs (mkfs demo_args) (Mk ∅ 1 0) (fun _ img =>
  runs (fs_boot;; read_path no_read [47; 99; 97; 116] 1 100) (boot_fss (image_disk img) 7) (fun r _ =>
    if decide (Z.of_nat 4 < 1 \/ 2 ^ 32 <= 1 + 100) then r = Some (-1, [])
    else let bs := take (Z.to_nat 100) (drop (Z.to_nat 1) [127; 69; 76; 70]) in r = Some (Z.of_nat (length bs), bs))).
Proof.
  apply (mkfs_boot_read no_read demo_args 1 [95; 99; 97; 116] [127; 69; 76; 70] 7 1 100 demo_args_ok);
    [cbn; lia|by vm_compute|apply (bool_decide_unpack _); by vm_compute|by vm_compute|done|done|lia|lia].
Defined.
