(* ===== verification/Exec.v ===== *)
(** The program loader ([exec.c], [elf.h]).

    [exec] works on the file system and on memory; its state has both, and the
    fields of the process it replaces.  The strings of [argv] are in the memory
    of the caller and [ustack] is on the kernel stack: they are lists of bytes,
    which lie at [LOCAL] while [copyout] reads them.  The message on the console
    for a missing file is left out. *)

From S2P Require Import Prelude Layout CString Bytes Kalloc Vm Bio Block Log Fs Syscall Sysfile.

Definition ELF_MAGIC : Z := 0x464C457F.
Definition ELF_PROG_LOAD : Z := 1.

(** The fields of the headers that are used, decoded from the bytes of the
    file. *)
Record elfhdr := Elfhdr { e_magic : Z; e_entry : Z; e_phoff : Z; e_phnum : Z }.
Definition sizeof_elfhdr : Z := 52.
Definition decode_elf (bs : list Z) : elfhdr := Elfhdr (u32 (rd32 bs 0)) (u32 (rd32 bs 24)) (u32 (rd32 bs 28)) (u16 (rd16 bs 44)).

Record proghdr := Proghdr { ph_type : Z; ph_off : Z; ph_vaddr : Z; ph_filesz : Z; ph_memsz : Z }.
Definition sizeof_proghdr : Z := 32.
Definition decode_ph (bs : list Z) : proghdr :=
  Proghdr (u32 (rd32 bs 0)) (u32 (rd32 bs 4)) (u32 (rd32 bs 8)) (u32 (rd32 bs 16)) (u32 (rd32 bs 20)).

(** The bytes at an address of memory, and what [memmove] of them stores. *)
Definition store_bytes (a : Z) (bs : list Z) (m : mem) : mem :=
  fun x => if (a <=? x) && (x <? a + Z.of_nat (length bs)) then byte_at bs (Z.to_nat (x - a)) else m x.

(** Above every page of the machine. *)
Definition LOCAL : Z := 2 ^ 33.

Section exec.
Context `{linked}.

(** ** The stack of the new program *)

Definition copyout_local (pgdir va : Z) (bs : list Z) : V Z :=
  m ← gets vmem;
  on_mem (store_bytes LOCAL bs);;
  r ← copyout pgdir va LOCAL (Z.of_nat (length bs));
  on_mem (fun m' x => if LOCAL <=? x then m x else m' x);;
  ret r.

(** [(sp - (strlen(s) + 1)) & ~3] *)
Definition push (sp : Z) (s : list Z) : Z := Z.ldiff (u32 (sp - (Z.of_nat (length s) + 1))) 3.

(** The loop over [argv]; it gives [sp] and the pointers [ustack] gets. *)
Fixpoint push_args (pgdir : Z) (argc : nat) (sp : Z) (argv : list (list Z)) : V (option (Z * list Z)) :=
  match argv with
  | [] => ret (Some (sp, []))
  | s :: argv =>
      if (MAXARG <=? argc)%nat then ret None else
      let sp := push sp s in
      r ← copyout_local pgdir sp (s ++ [0]);
      if r <? 0 then ret None else
      o ← push_args pgdir (S argc) sp argv;
      match o with
      | None => ret None
      | Some (sp', ps) => ret (Some (sp', sp :: ps))
      end
  end.

(** From [sp = sz] on: the strings, and below them the arguments of [main]. *)
Definition exec_push (pgdir sz : Z) (argv : list (list Z)) : V (option (Z * Z)) :=
  o ← push_args pgdir 0 sz argv;
  match o with
  | None => ret None
  | Some (sp, ps) =>
      let argc := Z.of_nat (length argv) in
      let ustack := [0xffffffff; argc; u32 (sp - (argc + 1) * 4)] ++ ps ++ [0] in
      let sp := u32 (sp - (3 + argc + 1) * 4) in
      r ← copyout_local pgdir sp (concat (le32 <$> ustack));
      if r <? 0 then ret None else ret (Some (sz, sp))
  end.

(** Two pages above the program, of which the upper one is the stack. *)
Definition exec_stack (pgdir sz : Z) (argv : list (list Z)) : V (option (Z * Z)) :=
  let sz := PGROUNDUP sz in
  sz ← allocuvm pgdir sz (u32 (sz + 2 * PGSIZE));
  if sz =? 0 then ret None else
  clearpteu pgdir (u32 (sz - 2 * PGSIZE));;
  exec_push pgdir sz argv.

(** ** The program *)

Section load.
Context {St : Type} `{blocks St}.
Context (dev_read : Z -> option (nat -> Z -> F (St := St) (Z * list Z))).

(** What [exec] changes of [struct proc], and the page directory the CPU
    uses. *)
Record uimage := Uimage {
  im_name : list Z;
  im_pgdir : Z;
  im_sz : Z;
  im_eip : Z;
  im_esp : Z;
  im_cr3 : Z
}.

Record exs := Exs { x_fs : fss (St := St); x_vm : vst; x_proc : uimage }.
Definition set_x_fs (v : fss) (s : exs) : exs := Exs v (x_vm s) (x_proc s).
Definition set_x_vm (v : vst) (s : exs) : exs := Exs (x_fs s) v (x_proc s).
Definition set_x_proc (v : uimage) (s : exs) : exs := Exs (x_fs s) (x_vm s) v.

Definition X (A : Type) : Type := M exs A.
Definition on_vm (A : Type) (m : V A) : X A := zoom x_vm set_x_vm m.
Definition on_file (A : Type) (m : F A) : X A := zoom x_fs set_x_fs m.
Arguments on_vm {A} _.
Arguments on_file {A} _.

(** [readi] to an address of memory. *)
Definition readi_to (ip : nat) (dst off n : Z) : X Z :=
  '(r, bs) ← on_file (readi dev_read ip off n);
  on_vm (on_mem (store_bytes dst bs));;
  ret r.

(** The loop over the program headers: [sz], or [None] for [goto bad]. *)
Fixpoint exec_segments (n : nat) (ip : nat) (pgdir off sz : Z) : X (option Z) :=
  match n with
  | O => ret (Some sz)
  | S n =>
      '(r, bs) ← on_file (readi dev_read ip (u32 off) sizeof_proghdr);
      if negb (r =? sizeof_proghdr) then ret None else
      let ph := decode_ph bs in
      if negb (ph_type ph =? ELF_PROG_LOAD) then exec_segments n ip pgdir (off + sizeof_proghdr) sz else
      if ph_memsz ph <? ph_filesz ph then ret None else
      if u32 (ph_vaddr ph + ph_memsz ph) <? ph_vaddr ph then ret None else
      sz ← on_vm (allocuvm pgdir sz (u32 (ph_vaddr ph + ph_memsz ph)));
      if sz =? 0 then ret None else
      if negb (ph_vaddr ph mod PGSIZE =? 0) then ret None else
      r ← loaduvm (@on_vm) (readi_to ip) pgdir (ph_vaddr ph) (ph_off ph) (ph_filesz ph);
      if r <? 0 then ret None else
      exec_segments n ip pgdir (off + sizeof_proghdr) sz
  end.

(** From [ilock] to the end of the loop: the directory, which is 0 until
    [setupkvm] returned, and, unless the file is bad, [sz] and [elf.entry]. *)
Definition exec_load (ip : nat) : X (Z * option (Z * Z)) :=
  '(r, bs) ← on_file (readi dev_read ip 0 sizeof_elfhdr);
  if negb (r =? sizeof_elfhdr) then ret (0, None) else
  let elf := decode_elf bs in
  if negb (e_magic elf =? ELF_MAGIC) then ret (0, None) else
  pgdir ← on_vm setupkvm;
  if pgdir =? 0 then ret (0, None) else
  o ← exec_segments (Z.to_nat (e_phnum elf)) ip pgdir (s32 (e_phoff elf)) 0;
  match o with
  | None => ret (pgdir, None)
  | Some sz => ret (pgdir, Some (sz, e_entry elf))
  end.

(** The label [bad]. *)
Definition exec_bad (pgdir : Z) (ip : option nat) : X Z :=
  when (negb (pgdir =? 0)) (on_vm (freevm pgdir));;
  match ip with
  | Some ip => on_file (iunlockput ip);; on_file end_op_
  | None => ret ()
  end;;
  ret (-1).

(** The part of the path behind the last slash. *)
Fixpoint last_elem (last s : list Z) : list Z :=
  match s with
  | [] => last
  | c :: s => last_elem (if c =? 47 then s else last) s
  end.

(** From the name on: the new image is complete, the old one is given back. *)
Definition exec_commit (path : list Z) (pgdir sz entry sp : Z) : X Z :=
  p ← gets x_proc;
  name ← deref "name" (safestrcpy (im_name p) (last_elem path path ++ [0]) 16);
  modify (set_x_proc (Uimage name pgdir sz entry sp (V2P pgdir)));;
  on_vm (freevm (im_pgdir p));;
  ret 0.

Definition exec (path : list Z) (argv : list (list Z)) : X Z :=
  on_file begin_op_;;
  o ← on_file (namei dev_read path);
  match o with
  | None => on_file end_op_;; ret (-1)
  | Some ip =>
      on_file (ilock ip);;
      '(pgdir, o) ← exec_load ip;
      match o with
      | None => exec_bad pgdir (Some ip)
      | Some (sz, entry) =>
          on_file (iunlockput ip);;
          on_file end_op_;;
          o ← on_vm (exec_stack pgdir sz argv);
          match o with
          | None => exec_bad pgdir None
          | Some (sz, sp) => exec_commit path pgdir sz entry sp
          end
      end
  end.
(** The system call. *)
Definition sys_exec (p : uproc) : X Z :=
  match sys_exec_args p with
  | Some (path, argv) => exec path argv
  | None => ret (-1)
  end.
End load.
End exec.

Arguments on_vm {St A} _.
Arguments on_file {St A} _.
