(* ===== verification/ExecSpace.v ===== *)
(** An address space while [exec] builds it: the pages it consists of, all of
    which were free when it was started, and the contents of its memory. *)

From S2P Require Import Prelude Layout CString Bytes Kalloc Vm VmSpec VmUser VmThms Exec.

Lemma ldiff_land_sub x b : Z.ldiff x b = x - Z.land x b.
Proof.
  pose proof (Z.lor_ldiff_and x b) as Hl. pose proof (Z.add_lor_land (Z.ldiff x b) (Z.land x b)) as Ha. rewrite Hl in Ha.
  assert (Z.land (Z.ldiff x b) (Z.land x b) = 0) as H0; [|lia].
  apply Z.bits_inj'. intros i Hi. rewrite !Z.land_spec, Z.ldiff_spec, Z.bits_0 by lia. by destruct (Z.testbit x i), (Z.testbit b i).
Qed.

Section space.
Context `{linked} {Hlk : linked_ok}.

(** [free] was the free list of [s0].  Now [d] maps the pages below [sz], with
    the contents [img]; page [g] is not for the user.  [kp] is the kernel's part. *)
Record space (kp : Z -> Z) (free : list Z) (s0 : vst) (d sz g : Z) (img : Z -> Z)
    (K : list Z) (s : vst) (free' : list Z) (T U : gmap Z Z) : Prop := Space {
  sp_vmu : vmu K s free' d T U;
  sp_perm : K ++ own U ≡ₚ free;
  sp_only : only_pages free (vmem s0) (vmem s);
  sp_sz : 0 <= sz < KERNBASE;
  sp_dom : forall w, is_Some (U !! w) <-> 0 <= w < npages sz;
  sp_user : forall w f, U !! w = Some f -> pte (vmem s) d w = V2P f + (if decide (w = g) then 3 else 7);
  sp_kern : forall w, vpn w -> UPAGES <= w -> pte (vmem s) d w = kp w;
  sp_img : forall w f i, U !! w = Some f -> 0 <= i < PGSIZE -> vmem s (f + i) = img (PGSIZE * w + i);
  sp_zero : forall va, PGSIZE * npages sz <= va -> img va = 0
}.
Definition spaced (kp : Z -> Z) (free : list Z) (s0 : vst) (d sz g : Z) (img : Z -> Z) (s : vst) : Prop :=
  exists K free' T U, space kp free s0 d sz g img K s free' T U.

(** The part that matters to [freevm]: all pages are accounted for. *)
Definition owned (free : list Z) (s0 : vst) (d : Z) (s : vst) : Prop :=
  exists K free' T U, vmu K s free' d T U /\ K ++ own U ≡ₚ free /\ only_pages free (vmem s0) (vmem s).

Lemma spaced_owned kp free s0 d sz g img s : spaced kp free s0 d sz g img s -> owned free s0 d s.
Proof. intros (K & free' & T & U & []). by exists K, free', T, U. Qed.

(** Everything that was taken is free again. *)
Definition returned (free : list Z) (s0 s : vst) : Prop :=
  only_pages free (vmem s0) (vmem s) /\ exists free', kok s free' /\ free' ≡ₚ free.

Lemma spaced_ext kp free s0 d sz g img img' s :
  (forall va, img' va = img va) -> spaced kp free s0 d sz g img s -> spaced kp free s0 d sz g img' s.
Proof.
  intros He (K & free' & T & U & []). exists K, free', T, U. constructor; try done.
  - intros w f i Hf Hi. rewrite He. by apply sp_img0.
  - intros va Hva. rewrite He. by apply sp_zero0.
Qed.

Lemma setupkvm_space s free :
  kok s free ->
  runs setupkvm s (fun r s' => (r = 0 /\ returned free s s') \/ (r <> 0 /\ spaced kpte free s r 0 (-1) (fun _ => 0) s')).
Proof.
  intros Hk. eapply runs_mono; [by apply (setupkvm_spec s free)|]. intros r s' [Hm [(-> & Hf)|(Hr & free' & T & Hc & Hp)]]; [by left|].
  right. split; [done|]. exists free, free', T, ∅. constructor; try done.
  - apply vmu_empty; [done|]. intros v Hv. by rewrite Hp, kpte_user by (done || by apply vpn_user).
  - by rewrite own_empty, app_nil_r.
  - intros w. rewrite lookup_empty. change (npages 0) with 0. split; [by intros []|lia].
  - intros w Hw _. by apply Hp.
Qed.

Lemma freevm_space free s0 d s :
  owned free s0 d s -> d <> 0 /\ runs (freevm d) s (fun _ s' => returned free s0 s').
Proof.
  intros (K & free' & T & U & Hu & Hp & Hm). split.
  { apply page_nonzero. apply (vmc_dir _ _ _ _ _ (vmu_core _ _ _ _ _ _ Hu)). }
  eapply runs_mono; [by apply (freevm_spec K s free' d T U)|].
  intros [] s' (f' & Hk & Hp' & Hm'). rewrite Hp in Hp'. split; [|by exists f'].
  eapply only_pages_trans; [done|]. eapply only_pages_mono; [|exact Hm']. intros p. by rewrite Hp.
Qed.

(** ** Growing *)

Lemma extended_space kp free s0 d sz g img K s free1 T U newsz s' K' free' T' U' :
  space kp free s0 d sz g img K s free1 T U -> sz <= newsz < KERNBASE -> g < npages sz ->
  extended K d U (npages sz) (npages newsz) s s' K' free' T' U' ->
  space kp free s0 d newsz g img K' s' free' T' U'.
Proof.
  intros [] Hsz Hg (Hu & Hp & _ & Hm & Hold & Hnew). assert (Hmono := npages_mono sz newsz ltac:(lia)).
  destruct (npages_range newsz ltac:(lia)) as [Hn _]. destruct (npages_range sz ltac:(lia)) as [Hn0 _].
  assert (HKf : forall p, p ∈ K -> p ∈ free) by (intros p Hpk; rewrite <- sp_perm0; apply elem_of_app; auto).
  assert (Hin : forall w f, U' !! w = Some f -> npages sz <= w < npages newsz \/ U !! w = Some f /\ 0 <= w < npages sz).
  { intros w f Hf. destruct (decide (npages sz <= w < npages newsz)) as [|Hw]; [by left|right].
    destruct (Hold w Hw) as [He _]. rewrite He in Hf. split; [done|]. apply sp_dom0. by exists f. }
  constructor; [done|by rewrite Hp|eapply only_pages_trans; [done|by eapply only_pages_mono]|lia| | | | |].
  - intros w. destruct (decide (npages sz <= w < npages newsz)) as [Hw|Hw].
    + destruct (Hnew w Hw) as (f & -> & _). split; [lia|eauto].
    + destruct (Hold w Hw) as [-> _]. rewrite sp_dom0. lia.
  - intros w f Hf. destruct (Hin w f Hf) as [Hw|[Hf0 Hw]].
    + destruct (Hnew w Hw) as (f' & Hf' & _ & Hp' & _). rewrite Hf' in Hf. injection Hf as ->. rewrite decide_False by lia. done.
    + destruct (Hold w ltac:(lia)) as [_ ->]; [by apply sp_user0|]. apply vpn_user. lia.
  - intros w Hw Huw. destruct (Hold w ltac:(lia)) as [_ ->]; [by apply sp_kern0|done].
  - intros w f i Hf Hi. destruct (Hin w f Hf) as [Hw|[Hf0 Hw]].
    + destruct (Hnew w Hw) as (f' & Hf' & _ & _ & Hz). rewrite Hf' in Hf. injection Hf as ->.
      rewrite Hz by (unfold in_page; lia). symmetry. apply sp_zero0. unfold PGSIZE in *. lia.
    + rewrite <- (sp_img0 w f i Hf0 Hi). destruct (vmu_frame _ _ _ _ _ _ _ _ sp_vmu0 Hf0) as [Hfp HfK].
      eapply (only_pages_at K); [apply (vmc_page _ _ _ _ _ (vmu_core _ _ _ _ _ _ sp_vmu0))|exact Hfp|exact HfK|exact Hm|unfold in_page; lia].
  - intros va Hva. apply sp_zero0. unfold PGSIZE in *. lia.
Qed.

(** [allocuvm] up to any size: 0 or the larger of the two sizes. *)
Lemma allocuvm_space kp free s0 d sz g img s newsz :
  spaced kp free s0 d sz g img s -> 0 <= newsz < 2 ^ 32 -> g < npages sz ->
  runs (allocuvm d sz newsz) s (fun r s' =>
    (r = 0 /\ owned free s0 d s') \/
    (r <> 0 /\ r = Z.max sz newsz /\ r < KERNBASE /\ spaced kp free s0 d r g img s')).
Proof.
  intros Hsp Hn Hg. assert (Ho := spaced_owned _ _ _ _ _ _ _ _ Hsp). destruct Hsp as (K & free1 & T & U & Hs). destruct (sp_sz _ _ _ _ _ _ _ _ _ _ _ _ Hs) as [Hsz0 Hszk].
  destruct (Z_lt_le_dec newsz KERNBASE) as [Hk|Hk].
  2: { unfold allocuvm. rewrite (proj2 (Z.leb_le _ _) Hk). eapply runs_Ok; [done|]. by left. }
  destruct (Z_lt_le_dec newsz sz) as [Hlt|Hle].
  { unfold allocuvm. rewrite (proj2 (Z.leb_gt _ _) Hk), (proj2 (Z.ltb_lt _ _) Hlt). eapply runs_Ok; [done|]. right.
    rewrite s32_small by (unfold KERNBASE in *; lia). split_and!; [lia|lia|done|by exists K, free1, T, U]. }
  eapply runs_mono; [apply (allocuvm_spec K s free1 d T U sz newsz); [apply Hs| |lia|done]|].
  - intros w Hw. destruct (U !! w) eqn:Hf; [|done]. destruct (proj1 (sp_dom _ _ _ _ _ _ _ _ _ _ _ _ Hs w)); [by rewrite Hf|lia].
  - intros r s' [(-> & K' & free' & T' & U' & Hext)|(-> & free' & T' & Hu & Hm)].
    + assert (Hs' := extended_space _ _ _ _ _ _ _ _ _ _ _ _ _ _ _ _ _ _ Hs (conj Hle Hk) Hg Hext).
      destruct (Z.eq_dec newsz 0) as [->|Hne].
      * left. split; [done|]. by apply (spaced_owned kp free s0 d 0 g img); exists K', free', T', U'.
      * right. split_and!; [done|lia|done|by exists K', free', T', U'].
    + left. split; [done|]. exists K, free', T', U. split_and!; [done|apply Hs|]. eapply only_pages_trans; [apply Hs|].
      eapply only_pages_mono; [|exact Hm]. intros p Hp. rewrite <- (sp_perm _ _ _ _ _ _ _ _ _ _ _ _ Hs). apply elem_of_app. auto.
Qed.

(** ** Writing *)

(** The frames were written, nothing else. *)
Lemma space_rewrite kp free s0 d sz g img K s free' T U s' img' :
  space kp free s0 d sz g img K s free' T U -> vmu K s' free' d T U -> only_pages (own U) (vmem s) (vmem s') ->
  (forall w, vpn w -> pte (vmem s') d w = pte (vmem s) d w) ->
  (forall w f i, U !! w = Some f -> 0 <= i < PGSIZE -> vmem s' (f + i) = img' (PGSIZE * w + i)) ->
  (forall va, PGSIZE * npages sz <= va -> img' va = 0) ->
  space kp free s0 d sz g img' K s' free' T U.
Proof.
  intros [] Hu Hm Hp Hi Hz. constructor; try done.
  - eapply only_pages_trans; [done|]. eapply only_pages_mono; [|exact Hm]. intros p Hpu. rewrite <- sp_perm0. apply elem_of_app. auto.
  - intros w f Hf. rewrite Hp; [by apply sp_user0|]. apply vpn_user. destruct (npages_range sz ltac:(lia)).
    destruct (proj1 (sp_dom0 w)); [by exists f|lia].
  - intros w Hw Hk. rewrite Hp by done. by apply sp_kern0.
Qed.

Lemma store_bytes_in a bs m i : 0 <= i < Z.of_nat (length bs) -> store_bytes a bs m (a + i) = byte_at bs (Z.to_nat i).
Proof.
  intros Hi. unfold store_bytes. rewrite (proj2 (Z.leb_le _ _)), (proj2 (Z.ltb_lt _ _)) by lia. cbn. f_equal. lia.
Qed.
Lemma store_bytes_out a bs m x : x < a \/ a + Z.of_nat (length bs) <= x -> store_bytes a bs m x = m x.
Proof. intros Hx. unfold store_bytes. destruct (Z.leb_spec a x), (Z.ltb_spec x (a + Z.of_nat (length bs))); done || lia. Qed.

(** Page [w]: where its entry and its frame are, and what a write to it does. *)
Lemma space_page kp free s0 d sz g img s w :
  spaced kp free s0 d sz g img s -> 0 <= w < npages sz ->
  exists f a, walkpgdir d (PGSIZE * w) false s = Ok (a, s) /\ a <> 0 /\ P2V (PTE_ADDR (load32 (vmem s) a)) = f /\
    forall i bs, 0 <= i -> i + Z.of_nat (length bs) <= PGSIZE ->
      spaced kp free s0 d sz g (store_bytes (PGSIZE * w + i) bs img) (set_vmem (store_bytes (f + i) bs (vmem s)) s).
Proof.
  intros (K & free' & T & U & Hs) Hw. assert (Hs' := Hs). destruct Hs'. destruct (proj2 (sp_dom0 w) Hw) as [f Hf].
  destruct (npages_range sz ltac:(lia)) as [Hn _]. assert (Hc := vmu_core _ _ _ _ _ _ sp_vmu0).
  destruct (vmu_frame _ _ _ _ _ _ _ _ sp_vmu0 Hf) as [Hfp _]. assert (Hpt := sp_user0 w f Hf).
  assert (Hfl : 0 <= (if decide (w = g) then 3 else 7) < PGSIZE) by (case_decide; done).
  destruct (walk_pte s d T w (vmc_pt _ _ _ _ _ Hc)) as (a & Ha & Ha0 & Hla).
  { apply Forall_forall. intros t Ht. apply (vmc_pages _ _ _ _ _ Hc). auto. }
  { apply vpn_user. lia. }
  { rewrite Hpt, present_flags by (done || by apply V2P_aligned). by case_decide. }
  exists f, a. split_and!; [done|done|by rewrite Hla, Hpt, tab_addr|]. intros i bs Hi Hl.
  assert (Hm : only_pages [f] (vmem s) (store_bytes (f + i) bs (vmem s))).
  { intros x Hx. apply store_bytes_out. specialize (Hx f ltac:(left)). unfold in_page in Hx. lia. }
  destruct (vmu_write K free' d T U s w f _ sp_vmu0 Hf Hm) as [Hu Hp].
  exists K, free', T, U. eapply space_rewrite; [exact Hs|exact Hu| |exact Hp| |].
  - eapply only_pages_mono; [|exact Hm]. intros p ->%list_elem_of_singleton. apply elem_of_own. eauto.
  - intros v e j He Hj. cbn [vmem set_vmem]. destruct (decide (v = w)) as [->|Hne].
    + rewrite Hf in He. injection He as <-. unfold store_bytes. rewrite (sp_img0 w f j Hf Hj).
      destruct (Z.leb_spec (f + i) (f + j)), (Z.leb_spec (PGSIZE * w + i) (PGSIZE * w + j)); try lia; cbn [andb]; [|done].
      destruct (Z.ltb_spec (f + j) (f + i + Z.of_nat (length bs))), (Z.ltb_spec (PGSIZE * w + j) (PGSIZE * w + i + Z.of_nat (length bs))); try lia.
      f_equal. lia.
    + rewrite (store_bytes_out (PGSIZE * w + i)) by (unfold PGSIZE in *; lia). rewrite <- (sp_img0 v e j He Hj).
      destruct (vmu_frame _ _ _ _ _ _ _ _ sp_vmu0 He) as [Hep _].
      apply (only_pages_at [f] _ _ e); [by apply Forall_singleton|done| |done|unfold in_page; lia].
      intros ->%list_elem_of_singleton. apply Hne, (own_inj U v w f); [|done|done].
      assert (Hnd := vmu_nodup _ _ _ _ _ _ sp_vmu0). by apply NoDup_app in Hnd as (_ & _ & ?).
  - intros va Hva. rewrite store_bytes_out by (unfold PGSIZE in *; lia). by apply sp_zero0.
Qed.

(** ** The guard page *)

Lemma clearpteu_space kp free s0 d sz img s w :
  spaced kp free s0 d sz (-1) img s -> 0 <= w < npages sz ->
  runs (clearpteu d (PGSIZE * w)) s (fun _ s' => spaced kp free s0 d sz w img s').
Proof.
  intros (K & free' & T & U & Hs) Hw. assert (Hs' := Hs). destruct Hs'. destruct (proj2 (sp_dom0 w) Hw) as [f Hf].
  destruct (npages_range sz ltac:(lia)) as [Hn _]. assert (Hc := vmu_core _ _ _ _ _ _ sp_vmu0).
  destruct (vmu_frame _ _ _ _ _ _ _ _ sp_vmu0 Hf) as [Hfp _]. destruct (V2P_aligned f Hfp) as (Hal & Hlo & Hhi).
  assert (Hpt := sp_user0 w f Hf). rewrite decide_False in Hpt by lia. assert (Hvw : vpn w) by (apply vpn_user; lia).
  assert (Hva : 0 <= PGSIZE * w < 2 ^ 32) by (unfold vpn, PGSIZE in *; lia).
  assert (Hdiv : PGSIZE * w / PGSIZE = w) by (rewrite Z.mul_comm; by apply Z.div_mul).
  destruct (vpn_of _ Hva) as (_ & Hpdx & _). rewrite Hdiv in Hpdx.
  destruct (T !! (w / 1024)) as [t|] eqn:Ht.
  2: { rewrite (pte_none _ _ _ _ _ Hc w Hvw Ht) in Hpt. lia. }
  destruct (vmc_tab _ _ _ _ _ Hc _ _ Ht) as (Htp & Htd & Htf & _).
  unfold clearpteu. apply runs_bind. eapply runs_Ok; [apply (walk_found K s free' d T _ _ t Hc Hva); by rewrite Hpdx|].
  rewrite Hdiv. rewrite (proj2 (Z.eqb_neq (tab_entry t w) 0)).
  2: { apply page_range in Htp. unfold tab_entry, KERNLINK, KERNBASE, EXTMEM in *. pose proof (Z.mod_pos_bound w 1024 ltac:(lia)). lia. }
  apply runs_bind. unfold ld. eapply runs_Ok; [done|].
  assert (Hld : load32 (vmem s) (tab_entry t w) = V2P f + 7) by (rewrite <- Hpt; symmetry; exact (pte_some _ _ _ _ _ Hc w t Ht)).
  rewrite Hld. assert (Hcl : Z.ldiff (V2P f + 7) PTE_U = V2P f + 3).
  { rewrite ldiff_land_sub, land_flags by done. change (Z.land 7 PTE_U) with 4. lia. }
  rewrite Hcl. destruct (vmc_store K s free' d T Hc w t (V2P f + 3) Hvw Ht ltac:(unfold PHYSTOP, PGSIZE in *; lia)) as (Hc' & Hm & Hp).
  unfold st, on_mem. eapply runs_Ok; [reflexivity|]. set (m' := store32 (vmem s) (tab_entry t w) (V2P f + 3)) in *.
  assert (HtK : t ∈ K) by (apply (vmc_in _ _ _ _ _ Hc); right; right; apply elem_of_own; eauto).
  assert (Hfr : forall v e x, U !! v = Some e -> in_page e x -> m' x = vmem s x).
  { intros v e x He Hx. destruct (vmu_frame _ _ _ _ _ _ _ _ sp_vmu0 He) as [Hep HeK].
    eapply (only_pages_at [t]); [by apply Forall_singleton|exact Hep| |exact Hm|exact Hx]. by intros ->%list_elem_of_singleton. }
  exists K, free', T, U. constructor; cbn [vmem set_vmem]; try done.
  - constructor; [done| |apply sp_vmu0|apply sp_vmu0]. destruct (vmu_map _ _ _ _ _ _ sp_vmu0) as [Hm1 Hm2]. split.
    + intros v e He. destruct (Hm1 v e He) as [Hv (fl & Hfl)]. split; [done|]. cbn [vmem set_vmem]. rewrite Hp by by apply vpn_user.
      case_decide as Hvv; [|by exists fl]. subst v. rewrite Hf in He. injection He as <-. by exists 3.
    + intros v Hv Hnone. cbn [vmem set_vmem]. rewrite Hp by by apply vpn_user. rewrite decide_False; [by apply Hm2|]. intros ->. by rewrite Hf in Hnone.
  - eapply only_pages_trans; [exact sp_only0|]. eapply only_pages_mono; [|exact Hm].
    intros p ->%list_elem_of_singleton. rewrite <- sp_perm0. apply elem_of_app. auto.
  - intros v e He. rewrite Hp.
    2: { apply vpn_user. destruct (proj1 (sp_dom0 v)); [by exists e|lia]. }
    case_decide as Hvv; [subst v; by rewrite Hf in He; injection He as <-|]. rewrite (sp_user0 v e He), decide_False; [done|].
    destruct (proj1 (sp_dom0 v)); [by exists e|lia].
  - intros v Hv Hk. rewrite Hp, decide_False by (done || lia). by apply sp_kern0.
  - intros v e i He Hi. rewrite (Hfr v e) by (done || unfold in_page; lia). by apply sp_img0.
Qed.

(** ** Copying out *)

(** The kernel's part is not for the user. *)
Lemma kpte_kernel w : Z.land (kpte w) PTE_U = 0.
Proof.
  assert (Hm : forall v0 k pa perm g, pa mod PGSIZE = 0 -> perm = 0 \/ perm = PTE_W -> Z.land (g w) PTE_U = 0 ->
    Z.land (mapped v0 k pa perm g w) PTE_U = 0).
  { intros v0 k pa perm g Hpa Hperm Hg. unfold mapped. case_decide; [|done].
    rewrite land_flags; [by destruct Hperm as [-> | ->]|by rewrite Z.mod_add|by destruct Hperm as [-> | ->]|done]. }
  unfold kpte. assert (Hd : (data_ - KERNBASE) mod PGSIZE = 0).
  { replace (data_ - KERNBASE) with (data_ + (- 524288) * PGSIZE) by (unfold KERNBASE, PGSIZE; lia).
    rewrite Z.mod_add by done. apply data_aligned. }
  repeat (apply Hm; [done|auto|]). done.
Qed.

(** Writing outside the pages of the machine. *)
Lemma vmu_outside K s free d T U m' :
  vmu K s free d T U -> (forall p x, page p -> in_page p x -> m' x = vmem s x) ->
  vmu K (set_vmem m' s) free d T U /\ forall v, vpn v -> pte m' d v = pte (vmem s) d v.
Proof.
  intros Hu Hm. assert (Hc := vmu_core _ _ _ _ _ _ Hu). assert (Hc' := Hc). destruct Hc' as [[H1 H2 H3] Hpt Hp Hn HK].
  assert (Hin : forall p, p ∈ d :: own T -> page p).
  { intros p Hpd. apply (vmc_pages _ _ _ _ _ Hc). right. by apply elem_of_cons. }
  destruct (pt_frame (vmem s) m' d T Hpt) as [Hpt' Hpte].
  { apply Forall_forall. intros t Ht. apply Hin. by right. }
  { intros p x Hpd Hx. apply (Hm p); auto. }
  split; [|done]. constructor; [|by eapply umap_ext; [exact Hpte|apply Hu]|apply Hu|apply Hu].
  constructor; try done. constructor; [|done|done]. eapply chain_ext; [done| |exact H1].
  intros p x Hpf. apply Hm. rewrite Forall_forall in H3. auto.
Qed.

(** Whatever the address, [uva2ka] gives 0 or the frame of a page. *)
Lemma uva2ka_any K s free d T U v :
  vmu K s free d T U -> (forall w, vpn w -> UPAGES <= w -> Z.land (pte (vmem s) d w) PTE_U = 0) -> vpn v ->
  leads (uva2ka d (PGSIZE * v)) s (fun r s' => s' = s /\ (r = 0 \/ U !! v = Some r)).
Proof.
  intros Hu Hk Hv. assert (Hc := vmu_core _ _ _ _ _ _ Hu).
  assert (Hva : 0 <= PGSIZE * v < 2 ^ 32) by (unfold vpn, PGSIZE in *; lia).
  assert (Hdiv : PGSIZE * v / PGSIZE = v) by (rewrite Z.mul_comm; by apply Z.div_mul).
  destruct (vpn_of _ Hva) as (_ & Hpdx & _). rewrite Hdiv in Hpdx. unfold uva2ka. apply leads_bind.
  destruct (T !! (v / 1024)) as [t|] eqn:Ht.
  2: { unfold leads. rewrite (walk_missing K s free d T _ Hc Hva) by by rewrite Hpdx. done. }
  unfold leads at 1. rewrite (walk_found K s free d T _ _ t Hc Hva), Hdiv by by rewrite Hpdx.
  destruct (Z.eqb_spec (tab_entry t v) 0); [done|]. unfold ld, leads, bind, gets.
  assert (Hld : load32 (vmem s) (tab_entry t v) = pte (vmem s) d v) by (symmetry; exact (pte_some _ _ _ _ _ Hc v t Ht)).
  rewrite Hld. destruct (Z_lt_le_dec v UPAGES) as [Hlt|Hge].
  2: { rewrite Hk by done. destruct (negb (present _)); cbn; auto. }
  destruct (vmu_map _ _ _ _ _ _ Hu) as [Hm1 Hm2]. assert (0 <= v) by (unfold vpn in Hv; lia).
  destruct (U !! v) as [f|] eqn:Hf; [|by rewrite Hm2 by (done || lia); cbn; auto].
  destruct (Hm1 v f Hf) as (_ & fl & Hfl & Hpr & ->). destruct (vmu_frame _ _ _ _ _ _ _ _ Hu Hf) as [Hfp _].
  rewrite present_flags, Hpr by (done || by apply V2P_aligned). cbn [negb]. destruct (_ =? 0); [cbn; auto|].
  rewrite tab_addr by done. cbn. auto.
Qed.

(** Whatever the range, [copyout] writes to the frames only. *)
Lemma copyout_loop_any K free d T U fuel : forall va buf len s,
  vmu K s free d T U -> (forall w, vpn w -> UPAGES <= w -> Z.land (pte (vmem s) d w) PTE_U = 0) -> 0 <= va < 2 ^ 32 ->
  leads (copyout_loop fuel d va buf len) s (fun _ s' => vmu K s' free d T U /\ only_pages (own U) (vmem s) (vmem s') /\
    forall w, vpn w -> pte (vmem s') d w = pte (vmem s) d w).
Proof.
  induction fuel as [|fuel IH]; intros va buf len s Hu Hk Hva; [done|]. cbn [copyout_loop].
  destruct (Z.ltb_spec 0 len) as [Hlen|_]; [|by split_and!; [|apply only_pages_refl|]].
  destruct (round_down va) as [Hrd Hoff]. rewrite Hrd. cbv zeta. rewrite Hoff. pose proof (Z.mod_pos_bound va PGSIZE ltac:(done)).
  destruct (vpn_of va Hva) as [Hvp _]. apply leads_bind. eapply leads_mono; [by apply (uva2ka_any K s free d T U)|].
  intros f s1 [-> [->|Hf]]; [by split_and!; [|apply only_pages_refl|]|].
  destruct (vmu_frame _ _ _ _ _ _ _ _ Hu Hf) as [Hfp _]. rewrite (proj2 (Z.eqb_neq f 0)) by by apply page_nonzero.
  set (n := if len <? _ then len else _). assert (Hn : 0 <= n /\ va mod PGSIZE + n <= PGSIZE) by (unfold n; destruct (Z.ltb_spec len (PGSIZE - va mod PGSIZE)); lia).
  set (s1 := set_vmem (memmove (vmem s) (f + va mod PGSIZE) buf n) s).
  assert (Hm : only_pages [f] (vmem s) (vmem s1)).
  { intros x Hx. unfold s1. cbn [vmem set_vmem]. rewrite memmove_spec by lia. specialize (Hx f ltac:(left)). unfold in_page in Hx.
    destruct (Z.leb_spec (f + va mod PGSIZE) x), (Z.ltb_spec x (f + va mod PGSIZE + n)); cbn [andb]; done || lia. }
  destruct (vmu_write K free d T U s _ f _ Hu Hf Hm) as [Hu1 Hp1]. apply leads_bind. change (leads (copyout_loop fuel d (u32 (PGSIZE * (va / PGSIZE) + PGSIZE)) (buf + n) (len - n)) s1
    (fun _ s' => vmu K s' free d T U /\ only_pages (own U) (vmem s) (vmem s') /\ forall w, vpn w -> pte (vmem s') d w = pte (vmem s) d w)).
  eapply leads_mono; [apply (IH _ _ _ s1 Hu1)|].
  - intros w Hw Hwk. unfold s1. cbn [vmem set_vmem]. rewrite Hp1 by done. by apply Hk.
  - apply u32_range.
  - intros r s' (Hu' & Hm' & Hp'). split_and!; [done| |].
    + eapply only_pages_trans; [|exact Hm']. eapply only_pages_mono; [|exact Hm]. intros p ->%list_elem_of_singleton. apply elem_of_own. eauto.
    + intros w Hw. rewrite Hp' by done. by apply Hp1.
Qed.

Lemma page_below p x : page p -> in_page p x -> x < LOCAL.
Proof. intros Hp Hx. apply page_range in Hp. unfold in_page, LOCAL, KERNBASE, PHYSTOP in *. lia. Qed.

(** The memory with the bytes at [LOCAL], and without them again. *)
Definition with_local (bs : list Z) (s : vst) : vst := set_vmem (store_bytes LOCAL bs (vmem s)) s.
Definition without_local (s s' : vst) : vst := set_vmem (fun x => if LOCAL <=? x then vmem s x else vmem s' x) s'.

Lemma copyout_local_eq d va bs s :
  copyout_local d va bs s =
  bind (copyout d va LOCAL (Z.of_nat (length bs))) (fun r s' => Ok (r, without_local s s')) (with_local bs s).
Proof. reflexivity. Qed.

Lemma with_local_vmu K s free d T U bs :
  vmu K s free d T U -> vmu K (with_local bs s) free d T U /\ forall v, vpn v -> pte (vmem (with_local bs s)) d v = pte (vmem s) d v.
Proof.
  intros Hu. apply vmu_outside; [done|]. intros p x Hp Hx. apply store_bytes_out. left. by eapply page_below.
Qed.

Lemma without_local_vmu K s free d T U bs s' :
  vmu K s free d T U -> vmu K s' free d T U -> only_pages (own U) (vmem (with_local bs s)) (vmem s') ->
  (forall w, vpn w -> pte (vmem s') d w = pte (vmem (with_local bs s)) d w) ->
  vmu K (without_local s s') free d T U /\ only_pages (own U) (vmem s) (vmem (without_local s s')) /\
  forall w, vpn w -> pte (vmem (without_local s s')) d w = pte (vmem s) d w.
Proof.
  intros Hu Hu' Hm Hp. assert (Hlow : forall x, x < LOCAL -> vmem (without_local s s') x = vmem s' x).
  { intros x Hx. cbn. by rewrite (proj2 (Z.leb_gt _ _)). }
  destruct (vmu_outside K s' free d T U (vmem (without_local s s')) Hu') as [H1 H2].
  { intros p x Hpg Hx. apply Hlow. by eapply page_below. }
  destruct (with_local_vmu K s free d T U bs Hu) as [_ H3].
  split_and!; [exact H1| |].
  - intros x Hx. destruct (Z_lt_le_dec x LOCAL) as [Hl|Hl].
    + rewrite Hlow by done. rewrite Hm by done. apply store_bytes_out. auto.
    + cbn. by rewrite (proj2 (Z.leb_le _ _)).
  - intros w Hw. rewrite H2, Hp, H3 by done. done.
Qed.

(** The contents, read off the frames. *)
Definition img_of (sz : Z) (U : gmap Z Z) (m : mem) (va : Z) : Z :=
  if va <? PGSIZE * npages sz then m (default 0 (U !! (va / PGSIZE)) + va mod PGSIZE) else 0.

Lemma img_of_ok kp free s0 d sz g img K s free' T U m w f i :
  space kp free s0 d sz g img K s free' T U -> U !! w = Some f -> 0 <= i < PGSIZE -> m (f + i) = img_of sz U m (PGSIZE * w + i).
Proof.
  intros [] Hf Hi. destruct (proj1 (sp_dom0 w)) as [Hw0 Hw]; [by exists f|]. unfold img_of.
  rewrite (proj2 (Z.ltb_lt _ _)) by (unfold PGSIZE in *; lia). replace (PGSIZE * w + i) with (i + w * PGSIZE) by lia.
  by rewrite Z.div_add, Z.mod_add, Z.div_small, Z.mod_small, Z.add_0_l, Hf by done.
Qed.

Lemma copyout_local_any kp free s0 d sz g img s va bs :
  (forall w, Z.land (kp w) PTE_U = 0) -> spaced kp free s0 d sz g img s -> 0 <= va < 2 ^ 32 ->
  leads (copyout_local d va bs) s (fun _ s' => exists img', spaced kp free s0 d sz g img' s').
Proof.
  intros Hkp (K & free' & T & U & Hs) Hva. unfold leads. rewrite copyout_local_eq. apply leads_bind.
  destruct (with_local_vmu K s free' d T U bs (sp_vmu _ _ _ _ _ _ _ _ _ _ _ _ Hs)) as [Hu1 Hp1].
  eapply leads_mono; [apply (copyout_loop_any K free' d T U); [exact Hu1| |done]|].
  - intros w Hw Hk. rewrite Hp1, (sp_kern _ _ _ _ _ _ _ _ _ _ _ _ Hs) by done. apply Hkp.
  - intros r s' (Hu' & Hm' & Hp'). cbn.
    destruct (without_local_vmu K s free' d T U bs s' (sp_vmu _ _ _ _ _ _ _ _ _ _ _ _ Hs) Hu' Hm' Hp') as (Hu & Hm & Hp).
    exists (img_of sz U (vmem (without_local s s'))), K, free', T, U. eapply space_rewrite; [exact Hs|exact Hu|exact Hm|exact Hp| |].
    + intros w f i Hf Hi. by eapply img_of_ok.
    + intros x Hx. unfold img_of. by rewrite (proj2 (Z.ltb_ge _ _)).
Qed.

(** A range of user pages gets the bytes. *)
Lemma copyout_local_space kp free s0 d sz g img s va bs :
  spaced kp free s0 d sz g img s -> 0 <= va -> va + Z.of_nat (length bs) <= PGSIZE * npages sz ->
  (forall i, 0 <= i < Z.of_nat (length bs) -> (va + i) / PGSIZE <> g) ->
  runs (copyout_local d va bs) s (fun r s' => r = 0 /\ spaced kp free s0 d sz g (store_bytes va bs img) s').
Proof.
  intros (K & free' & T & U & Hs) Hva Hfit Hg. unfold runs. rewrite copyout_local_eq. apply runs_bind.
  assert (Hs' := Hs). destruct Hs'. destruct (npages_range sz ltac:(lia)) as [Hn _].
  destruct (with_local_vmu K s free' d T U bs sp_vmu0) as [Hu1 Hp1].
  assert (HK : PGSIZE * npages sz <= KERNBASE) by (change KERNBASE with (PGSIZE * UPAGES); unfold PGSIZE; lia).
  eapply runs_mono; [apply (copyout_spec K free' d T U va LOCAL (Z.of_nat (length bs)) _ Hu1); try lia|].
  - intros i Hi. assert (Hv : 0 <= (va + i) / PGSIZE < npages sz).
    { split; [apply Z.div_pos; [lia|done]|apply Z.div_lt_upper_bound; [done|lia]]. }
    destruct (proj2 (sp_dom0 _) Hv) as [f Hf]. split; [by exists f|]. rewrite Hp1 by (apply vpn_user; lia).
    destruct (vmu_frame _ _ _ _ _ _ _ _ sp_vmu0 Hf) as [Hfp _].
    rewrite (sp_user0 _ f Hf), decide_False, land_flags by (done || by apply Hg || by apply V2P_aligned). done.
  - intros f x j Hf Hx Hj. assert (Hfp : page f) by (pose proof (vmu_page _ _ _ _ _ _ sp_vmu0) as Hp; rewrite Forall_forall in Hp; auto).
    pose proof (page_below f x Hfp Hx). lia.
  - intros r s' (-> & Hu' & Hin & Hout). cbn. split; [done|].
    assert (Hm' : only_pages (own U) (vmem (with_local bs s)) (vmem s')).
    { intros x Hx. apply Hout. intros i Hi (f & Hf & ->). apply (Hx f); [apply elem_of_own; eauto|].
      pose proof (Z.mod_pos_bound (va + i) PGSIZE ltac:(done)). unfold in_page. lia. }
    assert (Hp' : forall w, vpn w -> pte (vmem s') d w = pte (vmem (with_local bs s)) d w).
    { apply (vmc_frame K _ free' d T (vmu_core _ _ _ _ _ _ Hu1) _ (own U)); [apply Hu1| |exact Hm'].
      intros p Hpu HpK. pose proof (vmu_nodup _ _ _ _ _ _ Hu1) as Hnd. apply NoDup_app in Hnd as (_ & Hd & _). by apply (Hd p). }
    destruct (without_local_vmu K s free' d T U bs s' sp_vmu0 Hu' Hm' Hp') as (Hu & Hm & Hp).
    exists K, free', T, U. eapply space_rewrite; [exact Hs|exact Hu|exact Hm|exact Hp| |].
    + intros w f i Hf Hi. destruct (vmu_frame _ _ _ _ _ _ _ _ sp_vmu0 Hf) as [Hfp _].
      assert (Hub : user_byte U va (PGSIZE * w + i - va) (f + i)).
      { exists f. replace (va + (PGSIZE * w + i - va)) with (i + w * PGSIZE) by lia.
        by rewrite Z.div_add, Z.mod_add, Z.div_small, Z.mod_small, Z.add_0_l by done. }
      assert (Hlow : f + i < LOCAL) by (apply (page_below f); [done|unfold in_page; lia]).
      cbn [vmem without_local set_vmem]. rewrite (proj2 (Z.leb_gt _ _)) by done.
      unfold store_bytes at 1. destruct (Z.leb_spec va (PGSIZE * w + i)), (Z.ltb_spec (PGSIZE * w + i) (va + Z.of_nat (length bs))); cbn [andb].
      2-4: rewrite Hout; [cbn [vmem with_local set_vmem]; rewrite store_bytes_out by (by left); by apply sp_img0|];
        intros j Hj Hj'; pose proof (user_byte_inj K free' d T U s va _ _ _ sp_vmu0 Hub Hj'); lia.
      rewrite (Hin (PGSIZE * w + i - va)) by (done || lia). cbn [vmem with_local set_vmem]. by rewrite store_bytes_in by lia.
    + intros x Hx. rewrite store_bytes_out by lia. by apply sp_zero0.
Qed.
End space.
