(* ===== verification/ExecStack.v ===== *)
(** The stack [exec] builds: a new program finds its arguments on it. *)

From S2P Require Import Prelude Layout CString Bytes Kalloc Vm VmSpec VmUser VmThms Syscall Sysfile Exec ExecSpace.

(** ** Reading the arguments *)

(** The bytes [bs] are in memory at [a]. *)
Definition bytes_at (m : Z -> Z) (a : Z) (bs : list Z) : Prop := forall j c, bs !! j = Some c -> m (a + Z.of_nat j) = c.

Lemma bytes_at_app m a bs cs : bytes_at m a (bs ++ cs) <-> bytes_at m a bs /\ bytes_at m (a + Z.of_nat (length bs)) cs.
Proof.
  split.
  - intros Hb. split; intros j c Hj; [by apply Hb, lookup_app_l_Some|].
    rewrite <- Z.add_assoc, <- Nat2Z.inj_add. apply Hb. rewrite lookup_app_r by lia. by replace (length bs + j - length bs)%nat with j by lia.
  - intros [H1 H2] j c [Hj|[Hl Hj]]%lookup_app_Some; [by apply H1|]. rewrite <- (H2 _ _ Hj). f_equal. lia.
Qed.

Lemma bytes_at_ext m m' a bs :
  (forall x, a <= x < a + Z.of_nat (length bs) -> m' x = m x) -> bytes_at m a bs -> bytes_at m' a bs.
Proof. intros He Hb j c Hj. rewrite He; [by apply Hb|]. apply lookup_lt_Some in Hj. lia. Qed.

Lemma bytes_at_stored a bs m : bytes_at (store_bytes a bs m) a bs.
Proof.
  intros j c Hj. assert (Hl := lookup_lt_Some _ _ _ Hj). rewrite store_bytes_in by lia. unfold byte_at. by rewrite Nat2Z.id, Hj.
Qed.

Lemma fetchint_at p a v : bytes_at (u_mem p) a (le32 v) -> 0 <= v < 2 ^ 32 -> 0 <= a -> a + 4 <= u_sz p -> u_sz p <= KERNBASE ->
  fetchint a p = Some (s32 v).
Proof.
  intros Hb Hv Ha Hs Hk. unfold fetchint. rewrite u32_small by (unfold KERNBASE in *; lia).
  rewrite (proj2 (Z.leb_gt _ _)), (proj2 (Z.ltb_ge _ _)) by lia. cbn. do 2 f_equal. unfold uload32.
  assert (H0 := Hb 0%nat _ eq_refl). assert (H1 := Hb 1%nat _ eq_refl). assert (H2 := Hb 2%nat _ eq_refl). assert (H3 := Hb 3%nat _ eq_refl).
  change (Z.of_nat 1) with 1 in H1. change (Z.of_nat 2) with 2 in H2. change (Z.of_nat 3) with 3 in H3.
  rewrite Z.add_0_r in H0. rewrite H0, H1, H2, H3. by apply u8_sum.
Qed.

Lemma fetchstr_loop_at fuel p : forall a str,
  bytes_at (u_mem p) a (str ++ [0]) -> 0 ∉ str -> a + Z.of_nat (length str) < u_sz p -> (length str < fuel)%nat ->
  fetchstr_loop fuel a (u_sz p) p = Some str.
Proof.
  induction fuel as [|fuel IH]; intros a str Hb H0 Hl Hf; [lia|]. cbn [fetchstr_loop].
  destruct str as [|c str].
  - rewrite (proj2 (Z.ltb_lt _ _)) by (cbn in Hl; lia). assert (Hz := Hb 0%nat 0 eq_refl). rewrite Z.add_0_r in Hz. by rewrite Hz.
  - apply not_elem_of_cons in H0 as [Hc H0]. cbn [length] in *. rewrite (proj2 (Z.ltb_lt _ _)) by lia.
    assert (Hz := Hb 0%nat c eq_refl). rewrite Z.add_0_r in Hz. rewrite Hz, (proj2 (Z.eqb_neq c 0)) by congruence.
    rewrite (IH (a + 1) str); [done| |done|lia|lia].
    change (bytes_at (u_mem p) a ([c] ++ (str ++ [0]))) in Hb. by apply bytes_at_app in Hb as [_ ?].
Qed.

Lemma fetchstr_at p a str : bytes_at (u_mem p) a (str ++ [0]) -> 0 ∉ str -> a + Z.of_nat (length str) < u_sz p ->
  fetchstr a p = Some str.
Proof.
  intros Hb H0 Hl. unfold fetchstr. rewrite (proj2 (Z.leb_gt _ _)) by lia. apply fetchstr_loop_at; [done|done|done|lia].
Qed.

(** A vector of pointers to strings, as [exec] makes it and as [sys_exec] reads
    it. *)
Definition strings_at (p : uproc) (ps : list Z) (argv : list (list Z)) : Prop :=
  Forall2 (fun a str => 0 < a /\ a + Z.of_nat (length str) < u_sz p /\ (0 ∉ str) /\ bytes_at (u_mem p) a (str ++ [0])) ps argv.

Lemma exec_args_at p fuel ps : forall uargv argv,
  strings_at p ps argv -> bytes_at (u_mem p) uargv (concat (le32 <$> (ps ++ [0]))) ->
  0 <= uargv -> uargv + 4 * (Z.of_nat (length ps) + 1) <= u_sz p -> u_sz p <= KERNBASE -> (length argv < fuel)%nat ->
  exec_args fuel uargv p = Some argv.
Proof.
  revert ps. induction fuel as [|fuel IH]; intros ps uargv argv Hs Hb Hu Hsz Hk Hf; [lia|]. cbn [exec_args].
  destruct Hs as [|a str ps argv (Ha0 & Hal & Hz & Hab) Hs].
  - cbn [app fmap list_fmap concat] in Hb. rewrite app_nil_r in Hb. by rewrite (fetchint_at p uargv 0) by (done || cbn in Hsz; lia).
  - cbn [app fmap list_fmap concat length] in Hb, Hsz, Hf. apply bytes_at_app in Hb as [Hb1 Hb2].
    assert (Ha : 0 <= a < 2 ^ 32) by (unfold KERNBASE in *; lia).
    rewrite (fetchint_at p uargv a) by (done || lia). rewrite s32_small by (unfold KERNBASE in *; lia).
    rewrite (proj2 (Z.eqb_neq a 0)) by lia. rewrite u32_small by done. rewrite (fetchstr_at p a str) by done.
    rewrite u32_small by (unfold KERNBASE in *; lia). rewrite (IH ps (uargv + 4) argv); [done|done|done|lia|lia|done|lia].
Qed.

(** ** Pushing the arguments *)

(** The room a string takes, with its terminator, rounded up to a word. *)
Definition room (str : list Z) : Z := 4 * ((Z.of_nat (length str) + 4) / 4).
Definition argspace (argv : list (list Z)) : Z := foldr (fun str n => room str + n) 0 argv.
(** With the pointers, the fake return address, [argc] and [argv]. *)
Definition stackspace (argv : list (list Z)) : Z := argspace argv + 4 * (Z.of_nat (length argv) + 4).

Lemma room_bounds str : Z.of_nat (length str) + 1 <= room str < Z.of_nat (length str) + 5 /\ room str mod 4 = 0.
Proof.
  unfold room. rewrite (Z.mul_comm 4), Z.mod_mul by done.
  pose proof (Z.div_mod (Z.of_nat (length str) + 4) 4 ltac:(done)). pose proof (Z.mod_pos_bound (Z.of_nat (length str) + 4) 4 ltac:(done)). lia.
Qed.

Lemma argspace_nonneg argv : 0 <= argspace argv.
Proof.
  induction argv as [|str argv IH]; [done|]. change (argspace (str :: argv)) with (room str + argspace argv).
  pose proof (room_bounds str). lia.
Qed.

Lemma push_room sp str : sp mod 4 = 0 -> room str <= sp < 2 ^ 32 -> push sp str = sp - room str.
Proof.
  intros Hsp Hr. destruct (room_bounds str) as [Hb Hm]. unfold push. rewrite u32_small by lia.
  rewrite ldiff_land_sub. change 3 with (Z.ones 2). rewrite Z.land_ones by done. change (2 ^ 2) with 4.
  set (x := sp - (Z.of_nat (length str) + 1)). rewrite <- (Z.mod_unique_pos x 4 ((sp - room str) / 4) (x - (sp - room str))); [lia|unfold x; lia|].
  assert (sp - room str = 4 * ((sp - room str) / 4)) by (apply Z.div_exact; [done|]; by rewrite Zminus_mod, Hsp, Hm). lia.
Qed.

Section stack.
Context `{linked} {Hlk : linked_ok}.

(** The strings go below [sp]; nothing else changes. *)
Lemma push_args_spec kp free s0 d sz g argv : forall argc sp img s,
  spaced kp free s0 d sz g img s -> sp mod 4 = 0 -> PGSIZE * (g + 1) + argspace argv <= sp -> sp <= PGSIZE * npages sz -> 0 <= g ->
  (argc + length argv <= MAXARG)%nat ->
  runs (push_args d argc sp argv) s (fun o s' => exists ps img', o = Some (sp - argspace argv, ps) /\
    spaced kp free s0 d sz g img' s' /\
    (forall va, va < sp - argspace argv \/ sp <= va -> img' va = img va) /\
    Forall2 (fun a str => sp - argspace argv <= a /\ a + Z.of_nat (length str) < sp /\ bytes_at img' a (str ++ [0])) ps argv).
Proof.
  induction argv as [|str argv IH]; intros argc sp img s Hs Hsp Hlo Hhi Hg Hn; cbn [push_args argspace foldr] in *.
  { eapply runs_Ok; [done|]. exists [], img. rewrite Z.sub_0_r. split_and!; [done|done|done|constructor]. }
  fold (argspace argv) in *. destruct (room_bounds str) as [Hr1 Hr2]. pose proof (argspace_nonneg argv).
  assert (Hk : PGSIZE * npages sz < 2 ^ 32).
  { destruct Hs as (K & f' & T & U & []). destruct (npages_range sz ltac:(lia)) as [Hnp _]. change UPAGES with 524288 in Hnp. unfold PGSIZE. lia. }
  rewrite (proj2 (Nat.leb_gt _ _)) by (cbn in Hn; lia). rewrite push_room by (done || unfold PGSIZE in *; lia). cbv zeta. apply runs_bind.
  assert (Hlen : Z.of_nat (length (str ++ [0])) = Z.of_nat (length str) + 1) by (rewrite length_app; cbn; lia).
  eapply runs_mono; [apply (copyout_local_space kp free s0 d sz g img s (sp - room str) (str ++ [0]) Hs); rewrite ?Hlen; unfold PGSIZE in *; try lia|].
  { intros i Hi. assert (g + 1 <= (sp - room str + i) / 4096) by (apply Z.div_le_lower_bound; lia). lia. }
  intros r s1 [-> Hs1]. cbn [Z.ltb Z.compare]. apply runs_bind.
  eapply runs_mono; [apply (IH (S argc) (sp - room str) _ s1 Hs1); [by rewrite Zminus_mod, Hsp, Hr2|lia|lia|done|cbn in Hn; lia]|].
  intros o s2 (ps & img' & -> & Hs2 & Hout & Hps). eapply runs_Ok; [done|]. exists (sp - room str :: ps), img'.
  rewrite Z.sub_add_distr. split_and!; [done|done| |].
  - intros va Hva. rewrite Hout by lia. apply store_bytes_out. rewrite Hlen. lia.
  - constructor.
    + split_and!; [lia|lia|]. eapply bytes_at_ext; [|apply (bytes_at_stored _ _ img)]. intros x Hx. apply Hout. lia.
    + eapply Forall2_impl; [exact Hps|]. intros a str' (H1 & H2 & H3). cbn in *. split_and!; [lia|lia|done].
Qed.

Lemma spaced_range kp free s0 d sz g img s : spaced kp free s0 d sz g img s -> 0 <= sz < KERNBASE /\ 0 <= npages sz <= UPAGES.
Proof. intros (K & f' & T & U & []). split; [done|]. by destruct (npages_range sz ltac:(lia)). Qed.

Lemma npages_mul n : npages (PGSIZE * n) = n.
Proof.
  unfold npages. replace (PGSIZE * n + PGSIZE - 1) with (PGSIZE - 1 + n * PGSIZE) by lia.
  rewrite Z.div_add by done. by change ((PGSIZE - 1) / PGSIZE) with 0.
Qed.

Lemma spaced_round kp free s0 d sz g img s :
  spaced kp free s0 d sz g img s -> PGSIZE * npages sz < KERNBASE -> spaced kp free s0 d (PGSIZE * npages sz) g img s.
Proof.
  intros Hs Hk. assert (Hr := spaced_range _ _ _ _ _ _ _ _ Hs). destruct Hs as (K & f' & T & U & []). exists K, f', T, U.
  constructor; try done; rewrite ?npages_mul; try done. unfold PGSIZE in *. lia.
Qed.

(** The two pages: nothing is left of them if there is no memory. *)
Lemma stack_pages kp free s0 d sz img s (k : Z -> V (option (Z * Z))) (Q : option (Z * Z) -> vst -> Prop) tol :
  let top := PGSIZE * (npages sz + 2) in
  spaced kp free s0 d sz (-1) img s ->
  (forall s1, allocuvm d (PGROUNDUP sz) (u32 (PGROUNDUP sz + 2 * PGSIZE)) s = Ok (0, s1) -> owned free s0 d s1 -> Q None s1) ->
  (forall s1, top < KERNBASE -> spaced kp free s0 d top (npages sz) img s1 -> yields tol (k top) s1 Q) ->
  yields tol (r ← allocuvm d (PGROUNDUP sz) (u32 (PGROUNDUP sz + 2 * PGSIZE));
    if r =? 0 then ret None else clearpteu d (u32 (r - 2 * PGSIZE));; k r) s Q.
Proof.
  intros top Hs H0 Hk. destruct (spaced_range _ _ _ _ _ _ _ _ Hs) as [Hsz Hn]. change UPAGES with 524288 in Hn.
  assert (Hup := PGROUNDUP_npages sz ltac:(lia)). assert (Htop : u32 (PGROUNDUP sz + 2 * PGSIZE) = top).
  { rewrite Hup. unfold top. rewrite u32_small; unfold PGSIZE; lia. }
  rewrite Htop, Hup in *. apply yields_bind. destruct (Z_lt_le_dec (PGSIZE * npages sz) KERNBASE) as [Hlt|Hge].
  2: { assert (Hal : allocuvm d (PGSIZE * npages sz) top s = Ok (0, s)).
       { unfold allocuvm. rewrite (proj2 (Z.leb_le _ _)) by (unfold top, PGSIZE in *; lia). done. }
       eapply yields_Ok; [exact Hal|]. cbn. apply H0; [done|]. by eapply spaced_owned. }
  assert (Hrun := allocuvm_space kp free s0 d (PGSIZE * npages sz) (-1) img s top (spaced_round _ _ _ _ _ _ _ _ Hs Hlt)
    ltac:(unfold top, PGSIZE; lia) ltac:(rewrite npages_mul; lia)).
  apply runs_inv in Hrun as (r & s1 & Hr & [(-> & Ho)|(Hr0 & Hmax & Hrk & Hs1)]); eapply yields_Ok; try exact Hr.
  { cbn. by apply H0. }
  assert (r = top) as -> by (unfold top, PGSIZE in *; lia). rewrite (proj2 (Z.eqb_neq _ _)) by done. apply yields_bind.
  assert (Hg : u32 (top - 2 * PGSIZE) = PGSIZE * npages sz) by (unfold top; rewrite u32_small; unfold PGSIZE; lia).
  rewrite Hg. eapply yields_mono; [apply yields_runs, (clearpteu_space kp free s0 d top img s1 (npages sz) Hs1)|].
  - unfold top. rewrite npages_mul. lia.
  - intros [] s2 Hs2. by apply Hk.
Qed.

Definition umem (s : vst) (d va : Z) : Z :=
  let e := pte (vmem s) d (va / PGSIZE) in
  if present e && negb (Z.land e PTE_U =? 0) then vmem s (P2V (PTE_ADDR e) + va mod PGSIZE) else 0.

Lemma umem_img kp free s0 d sz g img s va :
  spaced kp free s0 d sz g img s -> 0 <= va < PGSIZE * npages sz -> va / PGSIZE <> g -> umem s d va = img va.
Proof.
  intros (K & f' & T & U & []) Hva Hg. assert (Hw : 0 <= va / PGSIZE < npages sz).
  { split; [apply Z.div_pos; [lia|done]|apply Z.div_lt_upper_bound; [done|lia]]. }
  destruct (proj2 (sp_dom _) Hw) as [f Hf]. destruct (vmu_frame _ _ _ _ _ _ _ _ sp_vmu Hf) as [Hfp _].
  unfold umem. cbv zeta. rewrite (sp_user _ f Hf), decide_False by done.
  rewrite present_flags, land_flags, tab_addr by (done || by apply V2P_aligned). cbn [present Z.land andb].
  rewrite (sp_img _ f _ Hf) by by apply Z.mod_pos_bound. change (present 7 && negb (Z.land 7 PTE_U =? 0)) with true. cbv iota.
  f_equal. rewrite (Z.div_mod va PGSIZE) at 3 by done. done.
Qed.

(** What [exec_push] leaves in memory: [sp], the argument count, the vector and
    the strings. *)
Record pushed (sz sp : Z) (argv : list (list Z)) (m : Z -> Z) (ps : list Z) : Prop := Pushed {
  pu_sp : sz - PGSIZE <= sp /\ sp + 4 * (Z.of_nat (length argv) + 4) <= sz;
  pu_words : bytes_at m sp (concat (le32 <$> [0xffffffff; Z.of_nat (length argv); sp + 12] ++ ps ++ [0]));
  pu_strs : Forall2 (fun a str => sp <= a /\ a + Z.of_nat (length str) < sz /\ bytes_at m a (str ++ [0])) ps argv
}.

Lemma exec_push_spec kp free s0 d g img s argv :
  let sz := PGSIZE * (g + 2) in
  spaced kp free s0 d sz g img s -> (length argv <= MAXARG)%nat -> 0 <= g -> stackspace argv <= PGSIZE ->
  runs (exec_push d sz argv) s (fun o s' => exists sp ps img', o = Some (sz, sp) /\ spaced kp free s0 d sz g img' s' /\
    pushed sz sp argv img' ps /\ forall va, va < PGSIZE * (g + 1) -> img' va = img va).
Proof.
  intros sz Hs Hn Hg Hfit. unfold stackspace in Hfit. pose proof (argspace_nonneg argv) as Hnn.
  destruct (spaced_range _ _ _ _ _ _ _ _ Hs) as [Hsz _]. assert (Hnp : npages sz = g + 2) by apply npages_mul.
  unfold exec_push. apply runs_bind.
  eapply runs_mono; [apply (push_args_spec kp free s0 d sz g argv 0 sz img s Hs); try (unfold sz, PGSIZE in *; lia)|].
  { unfold sz. rewrite Z.mul_comm. change PGSIZE with (1024 * 4). by rewrite Z.mul_assoc, Z.mod_mul. }
  intros o s1 (ps & img1 & -> & Hs1 & Hout & Hps). cbv zeta. assert (Hlp := Forall2_length _ _ _ Hps).
  set (sp := sz - argspace argv) in *. set (n := Z.of_nat (length argv)) in *.
  assert (Hb : 0 <= sp - (n + 1) * 4 < 2 ^ 32 /\ 0 <= sp - (3 + n + 1) * 4 < 2 ^ 32) by (unfold sp, sz, n, KERNBASE, PGSIZE in *; lia).
  rewrite !u32_small by apply Hb. set (sp' := sp - (3 + n + 1) * 4) in *.
  replace (sp - (n + 1) * 4) with (sp' + 12) by (unfold sp'; lia).
  set (ws := concat (le32 <$> _)). assert (Hlw : Z.of_nat (length ws) = 4 * (n + 4)).
  { unfold ws. rewrite length_le32s, !length_app. cbn [length]. unfold n. lia. }
  apply runs_bind. eapply runs_mono; [apply (copyout_local_space kp free s0 d sz g img1 s1 sp' ws Hs1); rewrite ?Hlw, ?Hnp|].
  - unfold sp'. lia.
  - unfold sp', sp, sz. lia.
  - intros i Hi. assert (g + 1 <= (sp' + i) / PGSIZE); [|lia]. apply Z.div_le_lower_bound; [done|]. unfold sp', sp, sz, PGSIZE in *. lia.
  - intros r s2 [-> Hs2]. cbn [Z.ltb Z.compare]. eapply runs_Ok; [done|]. exists sp', ps, (store_bytes sp' ws img1).
    split_and!; [done|done|constructor|].
    + unfold sp', sp, sz, n in *. unfold PGSIZE in *. lia.
    + apply bytes_at_stored.
    + eapply Forall2_impl; [exact Hps|]. intros a str (H1 & H2 & H3). cbn in H1. split_and!; [unfold sp'; lia|done|].
      eapply bytes_at_ext; [|exact H3]. intros x Hx. apply store_bytes_out. rewrite Hlw. unfold sp'. lia.
    + intros va Hva. rewrite store_bytes_out by (unfold sp', sp, sz, PGSIZE in *; lia). apply Hout. unfold sp, sz, PGSIZE in *. lia.
Qed.

(** A program that was handed this stack reads [argc] and [argv] off it. *)
Lemma pushed_read sz sp argv m ps :
  pushed sz sp argv m ps -> PGSIZE < sz <= KERNBASE -> Forall (fun str => 0 ∉ str) argv -> (length argv < MAXARG)%nat ->
  let p := Uproc sz sp m in
  argint 0 p = Some (Z.of_nat (length argv)) /\ argint 1 p = Some (sp + 12) /\ exec_args MAXARG (sp + 12) p = Some argv.
Proof.
  intros [Hsp Hw Hst] Hsz Hz Hn p. assert (Hlp := Forall2_length _ _ _ Hst).
  assert (Hk : KERNBASE < 2 ^ 31 + 1) by done. assert (Hm : Z.of_nat MAXARG = 32) by done.
  rewrite fmap_app, fmap_cons, fmap_cons, fmap_cons, fmap_nil in Hw.
  change (concat ([le32 0xffffffff; le32 (Z.of_nat (length argv)); le32 (sp + 12)] ++ (le32 <$> ps ++ [0])))
    with (le32 0xffffffff ++ le32 (Z.of_nat (length argv)) ++ le32 (sp + 12) ++ concat (le32 <$> ps ++ [0])) in Hw.
  rewrite !bytes_at_app in Hw. cbn [length le32] in Hw. destruct Hw as (_ & Hw1 & Hw2 & Hw3).
  unfold argint. cbn [u_esp p]. rewrite !u32_small by (unfold PGSIZE in *; lia). split_and!.
  - rewrite (fetchint_at p _ (Z.of_nat (length argv))); [rewrite s32_small by lia; done| |lia|unfold PGSIZE in *; lia|cbn; lia|cbn; lia].
    cbn [u_mem p]. rewrite Z.mul_0_r, Z.add_0_r. exact Hw1.
  - rewrite (fetchint_at p _ (sp + 12)); [rewrite s32_small by (unfold PGSIZE in *; lia); done| |unfold PGSIZE in *; lia|unfold PGSIZE in *; lia|cbn; lia|cbn; lia].
    cbn [u_mem p]. replace (sp + 4 + 4 * 1) with (sp + Z.of_nat 4 + Z.of_nat 4) by lia. exact Hw2.
  - apply (exec_args_at p MAXARG ps); [| |unfold PGSIZE in *; lia|cbn; lia|cbn; lia|done].
    + unfold strings_at. assert (Hpos : 0 < sp) by lia. revert Hst Hz. clear -Hpos. intros Hst Hz. induction Hst as [|a str ps argv (H1 & H2 & H3) _ IH]; [constructor|].
      apply Forall_cons in Hz as [Hz1 Hz2]. constructor; [|by apply IH]. cbn. split_and!; [lia|done|done|done].
    + cbn [u_mem p]. replace (sp + 12) with (sp + Z.of_nat 4 + Z.of_nat 4 + Z.of_nat 4) by lia. exact Hw3.
Qed.

Lemma pushed_ext sz sp argv m m' ps :
  (forall x, sz - PGSIZE <= x < sz -> m' x = m x) -> pushed sz sp argv m ps -> pushed sz sp argv m' ps.
Proof.
  intros He [Hsp Hw Hst]. constructor; [done| |].
  - eapply bytes_at_ext; [|exact Hw]. intros x. rewrite length_le32s, !length_app, (Forall2_length _ _ _ Hst). cbn [length]. intros Hx. apply He. lia.
  - eapply Forall2_impl; [exact Hst|]. intros a str (H1 & H2 & H3). split_and!; [done|done|]. eapply bytes_at_ext; [|exact H3].
    intros x. rewrite length_app. cbn [length]. intros Hx. apply He. lia.
Qed.

(** Whatever the arguments, the pages stay accounted for. *)
Lemma push_args_any kp free s0 d sz g argv : (forall w, Z.land (kp w) PTE_U = 0) -> forall argc sp img s,
  spaced kp free s0 d sz g img s ->
  leads (push_args d argc sp argv) s (fun _ s' => exists img', spaced kp free s0 d sz g img' s').
Proof.
  intros Hkp. induction argv as [|str argv IH]; intros argc sp img s Hs; cbn [push_args]; [by exists img|].
  destruct (MAXARG <=? argc)%nat; [by exists img|]. cbv zeta. apply leads_bind.
  eapply leads_mono; [apply (copyout_local_any kp free s0 d sz g img s _ _ Hkp Hs)|].
  { unfold push. rewrite ldiff_land_sub. pose proof (u32_range (sp - (Z.of_nat (length str) + 1))) as Hr. set (x := u32 _) in *.
    change 3 with (Z.ones 2). rewrite Z.land_ones by done. pose proof (Z.mod_pos_bound x (2 ^ 2) ltac:(done)).
    pose proof (Z.mod_le x (2 ^ 2) ltac:(lia) ltac:(done)). lia. }
  intros r s1 [img1 Hs1]. destruct (r <? 0); [by exists img1|]. apply leads_bind. eapply leads_mono; [apply (IH _ _ img1 s1 Hs1)|].
  intros [[sp' ps]|] s2 [img2 Hs2]; by exists img2.
Qed.

Lemma exec_stack_any kp free s0 d sz img s argv :
  (forall w, Z.land (kp w) PTE_U = 0) -> spaced kp free s0 d sz (-1) img s ->
  leads (exec_stack d sz argv) s (fun o s' => owned free s0 d s').
Proof.
  intros Hkp Hs. apply (stack_pages kp free s0 d sz img s (fun top => exec_push d top argv) _ True Hs); [done|].
  intros s1 _ Hs1. apply leads_bind. eapply leads_mono; [exact (push_args_any kp free s0 d _ (npages sz) argv Hkp 0 _ img s1 Hs1)|].
  intros [[sp ps]|] s2 [img2 Hs2]; [|by eapply spaced_owned]. cbv zeta. apply leads_bind.
  eapply leads_mono; [apply (copyout_local_any kp free s0 d _ _ img2 s2 _ _ Hkp Hs2), u32_range|].
  intros r s3 [img3 Hs3]. destruct (r <? 0); by eapply spaced_owned.
Qed.

(** C22. A program finds the arguments [exec] was called with: the stack that
    [exec_stack] builds above the program, read through the page table the way
    the kernel reads the arguments of a call, has the number of strings, a
    vector, and in it the same strings, for all arguments that fit a page; the
    program below it is not touched. It fails only if there is no memory, and
    then no page is lost. *)
Theorem exec_args_roundtrip kp free s0 d sz img s argv :
  spaced kp free s0 d sz (-1) img s -> Forall (fun str => 0 ∉ str) argv -> (length argv < MAXARG)%nat -> stackspace argv <= PGSIZE ->
  runs (exec_stack d sz argv) s (fun o s' =>
    match o with
    | None => owned free s0 d s' /\ exists s1, allocuvm d (PGROUNDUP sz) (u32 (PGROUNDUP sz + 2 * PGSIZE)) s = Ok (0, s1)
    | Some (sz', sp) =>
        let p := Uproc sz' sp (umem s' d) in
        sz' = PGSIZE * (npages sz + 2) /\ argint 0 p = Some (Z.of_nat (length argv)) /\
        (exists uargv, argint 1 p = Some uargv /\ exec_args MAXARG uargv p = Some argv) /\
        forall va, 0 <= va < PGSIZE * npages sz -> umem s' d va = umem s d va
    end).
Proof.
  intros Hs Hz Hn Hfit. destruct (spaced_range _ _ _ _ _ _ _ _ Hs) as [_ Hr].
  apply (stack_pages kp free s0 d sz img s (fun top => exec_push d top argv) _ False Hs).
  { intros s1 Hal Ho. split; [done|]. by exists s1. }
  intros s1 Htop Hs1. eapply yields_mono; [apply yields_runs, (exec_push_spec kp free s0 d (npages sz) img s1 argv Hs1); [lia|lia|done]|].
  intros o s' (sp & ps & img' & -> & Hs' & Hpu & Hlow). set (top := PGSIZE * (npages sz + 2)) in *.
  assert (Hpu' : pushed top sp argv (umem s' d) ps).
  { eapply pushed_ext; [|exact Hpu]. intros x Hx. apply (umem_img _ _ _ _ _ _ _ _ _ Hs').
    - unfold top. rewrite npages_mul. unfold top, PGSIZE in *. lia.
    - assert (npages sz + 1 <= x / PGSIZE); [|lia]. apply Z.div_le_lower_bound; [done|]. unfold top, PGSIZE in *. lia. }
  destruct (pushed_read top sp argv _ ps Hpu') as (H0 & H1 & H2); [unfold top, PGSIZE in *; lia|done|done|].
  split_and!; [done|done|by exists (sp + 12)|]. intros va Hva. assert (va / PGSIZE < npages sz) by (apply Z.div_lt_upper_bound; [done|lia]).
  rewrite (umem_img _ _ _ _ _ _ _ _ va Hs') by (unfold top in *; rewrite ?npages_mul; unfold PGSIZE in *; lia).
  assert (0 <= va / PGSIZE) by (apply Z.div_pos; [lia|done]).
  rewrite (umem_img _ _ _ _ _ _ _ _ va Hs) by lia. apply Hlow. unfold PGSIZE in *. lia.
Qed.

(** An argument longer than the memory of the new program wraps [sp] around to
    the kernel's addresses; where these have no page table, [copyout] follows a
    null pointer. *)
Lemma exec_long_argument K s free d T U sz str argv :
  vmu K s free d T U -> T !! PDX (push sz str) = None -> 0 <= push sz str < 2 ^ 32 ->
  exec_push d sz (str :: argv) s = Fault "uva2ka: no page table".
Proof.
  intros Hu Ht Hva. unfold exec_push. cbn [push_args]. rewrite (proj2 (Nat.leb_gt MAXARG 0)) by (unfold MAXARG; lia). cbv zeta.
  set (va := push sz str) in *. destruct (with_local_vmu K s free d T U (str ++ [0]) Hu) as [Hu1 _].
  destruct (round_down va) as [Hrd _]. assert (Hv0 : 0 <= PGROUNDDOWN va < 2 ^ 32).
  { rewrite Hrd. pose proof (Z.mul_div_le va PGSIZE ltac:(done)). pose proof (Z.div_pos va PGSIZE ltac:(lia) ltac:(done)). unfold PGSIZE in *. lia. }
  assert (Hpd : PDX (PGROUNDDOWN va) = PDX va).
  { destruct (PDX_div _ Hv0) as [-> _]. destruct (PDX_div _ Hva) as [-> _]. f_equal. rewrite Hrd, Z.mul_comm. by apply Z.div_mul. }
  assert (Hfault : copyout_local d va (str ++ [0]) s = Fault "uva2ka: no page table").
  { rewrite copyout_local_eq. unfold copyout. cbn [copyout_loop]. unfold bind at 1.
    rewrite (proj2 (Z.ltb_lt _ _)) by (rewrite length_app; cbn; lia). cbv zeta. unfold bind at 1.
    unfold uva2ka, bind. rewrite (walk_missing K _ free d T _ (vmu_core _ _ _ _ _ _ Hu1) Hv0); [done|]. by rewrite Hpd. }
  unfold bind. by rewrite Hfault.
Qed.
End stack.

(** ** An empty address space and two arguments *)

Lemma demo_spaced : spaced (fun _ => 0) (demo_free ++ [demo_page 0]) demo_vst (demo_page 0) 0 (-1) (fun _ => 0) demo_vst.
Proof.
  exists (demo_free ++ [demo_page 0]), demo_free, ∅, ∅. constructor; try done.
  - apply demo_vmu.
  - intros w. rewrite lookup_empty. change (npages 0) with 0. split; [by intros []|lia].
  - intros w Hw _. apply (pte_none _ _ _ _ _ demo_vmc); [done|apply lookup_empty].
Qed.

(** ["ls"], ["/a"] *)
Definition demo_argv : list (list Z) := [[108; 115]; [47; 97]].

Lemma demo_stack_result :
  match exec_stack (demo_page 0) 0 demo_argv demo_vst with Ok (Some r, _) => r | _ => (0, 0) end = (2 * PGSIZE, 2 * PGSIZE - 32).
Proof. vm_compute. reflexivity. Qed.

Lemma exec_args_roundtrip_witness : exists s', exec_stack (demo_page 0) 0 demo_argv demo_vst = Ok (Some (2 * PGSIZE, 2 * PGSIZE - 32), s') /\
  exists uargv, argint 1 (Uproc (2 * PGSIZE) (2 * PGSIZE - 32) (umem s' (demo_page 0))) = Some uargv /\
    exec_args MAXARG uargv (Uproc (2 * PGSIZE) (2 * PGSIZE - 32) (umem s' (demo_page 0))) = Some demo_argv.
Proof.
  assert (Hz : Forall (fun str => 0 ∉ str) demo_argv).
  { repeat constructor; apply (bool_decide_unpack _); vm_compute; exact I. }
  destruct (runs_inv _ _ _ (exec_args_roundtrip _ _ _ _ _ _ _ demo_argv demo_spaced Hz ltac:(vm_compute; lia) ltac:(vm_compute; discriminate)))
    as (o & s' & Hr & Hpost).
  pose proof demo_stack_result as Hres. rewrite Hr in Hres. destruct o as [[sz sp]|]; [|discriminate Hres].
  injection Hres as -> ->. exists s'. split; [exact Hr|]. exact (proj1 (proj2 (proj2 Hpost))).
Defined.
