(* ===== verification/ExecThms.v ===== *)
(** What [exec] does: the memory of a new program is what its file says, and
    whether it succeeds or fails no page and no inode is lost. *)

From S2P Require Import Prelude Layout CString Bytes Kalloc Vm VmSpec VmUser VmThms Bio Block Log LogThms LogBlocks Fs FsBlocks Icache FsFile FsRw FsInode FsWrite Pipe File FsThms FileThms Syscall Sysfile Exec ExecSpace ExecStack.

(** ** What a program file says *)

Definition slice (file : list Z) (off n : Z) : list Z := take (Z.to_nat n) (drop (Z.to_nat off) file).

Definition elf_of (file : list Z) : elfhdr := decode_elf (slice file 0 sizeof_elfhdr).
Fixpoint headers (file : list Z) (n : nat) (off : Z) : list proghdr :=
  match n with
  | O => []
  | S n => decode_ph (slice file (u32 off) sizeof_proghdr) :: headers file n (off + sizeof_proghdr)
  end.
(** The program headers of a file. *)
Definition phs (file : list Z) : list proghdr :=
  headers file (Z.to_nat (e_phnum (elf_of file))) (s32 (e_phoff (elf_of file))).

(** The segments that are loaded, their end, and the memory with them. *)
Definition loaded (ph : proghdr) : bool := ph_type ph =? ELF_PROG_LOAD.
Definition image_size (sz : Z) (hs : list proghdr) : Z :=
  foldl (fun sz ph => if loaded ph then Z.max sz (ph_vaddr ph + ph_memsz ph) else sz) sz hs.
Definition image (file : list Z) (img : Z -> Z) (hs : list proghdr) : Z -> Z :=
  foldl (fun img ph => if loaded ph then store_bytes (ph_vaddr ph) (slice file (ph_off ph) (ph_filesz ph)) img else img) img hs.

Definition segment_ok (file : list Z) (ph : proghdr) : Prop :=
  loaded ph = true ->
  ph_vaddr ph mod PGSIZE = 0 /\ ph_filesz ph <= ph_memsz ph /\ ph_vaddr ph + ph_memsz ph < KERNBASE /\
  (ph_filesz ph = 0 \/ ph_off ph + ph_filesz ph <= Z.of_nat (length file)).

(** ** Bytes *)

Lemma slice_split file off n m : 0 <= off -> 0 <= m <= n -> slice file off n = slice file off m ++ slice file (off + m) (n - m).
Proof.
  intros Ho Hm. unfold slice. rewrite Z2Nat.inj_add, <- drop_drop by lia.
  replace (Z.to_nat n) with (Z.to_nat m + Z.to_nat (n - m))%nat by lia.
  by rewrite take_take_drop.
Qed.

Lemma slice_length file off n : 0 <= off -> 0 < n -> Z.of_nat (length (slice file off n)) = n -> off + n <= Z.of_nat (length file).
Proof. intros Ho Hn. unfold slice. rewrite length_take, length_drop. lia. Qed.

Lemma store_bytes_app a bs cs m x :
  store_bytes (a + Z.of_nat (length bs)) cs (store_bytes a bs m) x = store_bytes a (bs ++ cs) m x.
Proof.
  unfold store_bytes. rewrite length_app. destruct (Z.leb_spec a x) as [Ha|Ha]; cbn [andb].
  2: { destruct (Z.leb_spec (a + Z.of_nat (length bs)) x); [lia|done]. }
  destruct (Z.leb_spec (a + Z.of_nat (length bs)) x) as [Hb|Hb]; cbn [andb].
  - rewrite (proj2 (Z.ltb_ge x (a + Z.of_nat (length bs)))) by lia.
    replace (a + Z.of_nat (length bs + length cs)) with (a + Z.of_nat (length bs) + Z.of_nat (length cs)) by lia.
    destruct (_ <? _); [|done]. unfold byte_at. rewrite lookup_app_r by lia. do 2 f_equal. lia.
  - rewrite (proj2 (Z.ltb_lt x (a + Z.of_nat (length bs)))), (proj2 (Z.ltb_lt x (a + Z.of_nat (length bs + length cs)))) by lia.
    unfold byte_at. by rewrite lookup_app_l by lia.
Qed.

Lemma store_bytes_ext a bs m m' x : (forall y, m' y = m y) -> store_bytes a bs m' x = store_bytes a bs m x.
Proof. intros Hm. unfold store_bytes. by rewrite Hm. Qed.

(** A page of a segment, then the rest. *)
Lemma segment_step file a off n m bs img img' :
  0 <= off -> 0 < m -> m <= PGSIZE -> m <= n -> (m < PGSIZE -> m = n) -> bs = slice file off m -> Z.of_nat (length bs) = m ->
  (forall va, img' va = store_bytes (a + PGSIZE) (slice file (off + PGSIZE) (n - PGSIZE)) (store_bytes a bs img) va) ->
  (PGSIZE < n -> off + n <= Z.of_nat (length file)) ->
  (forall va, img' va = store_bytes a (slice file off n) img va) /\ off + n <= Z.of_nat (length file).
Proof.
  intros Ho Hm0 Hm Hmn Hfull Hbs Hlen Himg Hend. assert (Hle : off + m <= Z.of_nat (length file)).
  { apply (slice_length file); [done|done|]. by rewrite <- Hbs. }
  destruct (Z_lt_le_dec m PGSIZE) as [Hlt|Hge].
  - specialize (Hfull Hlt). subst m. split; [|lia]. intros va. rewrite Himg, <- Hbs. apply store_bytes_out.
    unfold slice. rewrite (Z2Nat.nonpos (n - PGSIZE)), take_0 by lia. cbn. lia.
  - assert (m = PGSIZE) as -> by lia. split.
    + intros va. rewrite Himg, (slice_split file off n PGSIZE), <- Hbs, <- store_bytes_app, Hlen by lia. done.
    + destruct (Z_lt_le_dec PGSIZE n); [auto|lia].
Qed.

Lemma image_ext file hs : forall img img' va, (forall x, img' x = img x) -> image file img' hs va = image file img hs va.
Proof.
  induction hs as [|ph hs IH]; intros img img' va He; [apply He|]. cbn. apply IH. intros x. destruct (loaded ph); [by apply store_bytes_ext|done].
Qed.

(** ** Loading *)

Section load.
Context `{linked} {Hlk : linked_ok} {St : Type} `{blocks St}.
Abbreviation fss := (@Fs.fss St).
Context (dev_read : Z -> option (nat -> Z -> Fs.F (St := St) (Z * list Z))) (ip : nat).

(** Reading keeps [P] and gives at most [n] bytes; if the file is [known], the
    bytes are [file]'s. *)
Context (tol known : Prop) (P : fss -> Prop) (file : list Z).
Hypothesis Hread : forall fs off n, P fs -> 0 <= off < 2 ^ 32 -> 0 <= n < 2 ^ 32 ->
  yields tol (readi dev_read ip off n) fs (fun '(r, bs) fs' => P fs' /\ Z.of_nat (length bs) <= n /\
    (known -> r = n -> bs = slice file off n /\ Z.of_nat (length bs) = n)).
Hypothesis Hfile : Z.of_nat (length file) < 2 ^ 31.

Section segments.
Context (kp : Z -> Z) (free : list Z) (s0 : vst) (d : Z).

(** What holds while the program is loaded. *)
Definition loading (sz : Z) (img : Z -> Z) (p : uimage) (s : exs (St := St)) : Prop :=
  P (x_fs s) /\ x_proc s = p /\ spaced kp free s0 d sz (-1) img (x_vm s).

Lemma readi_file off n s (Q : Z * list Z -> exs -> Prop) :
  P (x_fs s) -> 0 <= off < 2 ^ 32 -> 0 <= n < 2 ^ 32 ->
  (forall r bs fs, P fs -> Z.of_nat (length bs) <= n -> (known -> r = n -> bs = slice file off n /\ Z.of_nat (length bs) = n) ->
     Q (r, bs) (set_x_fs fs s)) ->
  yields tol (on_file (readi dev_read ip off n)) s Q.
Proof.
  intros HP Ho Hn HQ. apply yields_zoom. eapply yields_mono; [by apply Hread|]. intros [r bs] fs (H1 & H2 & H3). by apply HQ.
Qed.

Lemma loaduvm_loop_space sz v0 off fsz p fuel : forall k img s,
  loading sz img p s -> 0 <= v0 -> 0 <= k -> 0 <= fsz -> PGSIZE * v0 + fsz <= sz -> 0 <= off < 2 ^ 32 ->
  (known -> off + PGSIZE * k < 2 ^ 32) -> (fsz + PGSIZE - 1) / PGSIZE <= k + Z.of_nat fuel ->
  yields tol (loaduvm_loop (@on_vm St) (readi_to dev_read ip) (S fuel) d (PGSIZE * v0) off fsz (PGSIZE * k)) s (fun r s' =>
    exists img', loading sz img' p s' /\ (known -> 0 <= r -> (forall va, img' va =
      store_bytes (PGSIZE * (v0 + k)) (slice file (off + PGSIZE * k) (fsz - PGSIZE * k)) img va) /\
      (PGSIZE * k < fsz -> off + fsz <= Z.of_nat (length file)))).
Proof.
  induction fuel as [|fuel IH]; intros k img s Hl Hv Hk Hf Hfit Ho Hoff Hfuel; cbn [loaduvm_loop].
  all: destruct (Z.ltb_spec (PGSIZE * k) fsz) as [Hlt|Hge].
  2,4: exists img; split; [done|]; intros _ _; split; [|lia]; intros va; unfold slice; rewrite (Z2Nat.nonpos (fsz - PGSIZE * k)) by lia;
    symmetry; apply store_bytes_out; rewrite take_0; cbn; lia.
  { exfalso. assert (k + 1 <= (fsz + PGSIZE - 1) / PGSIZE) by (apply Z.div_le_lower_bound; [done|unfold PGSIZE in *; lia]). lia. }
  destruct Hl as (HP & Hpr & Hs). destruct (spaced_range _ _ _ _ _ _ _ _ Hs) as [Hsz Hnp]. change UPAGES with 524288 in Hnp.
  destruct (npages_range sz ltac:(lia)) as [_ Hnr]. assert (Hw : 0 <= v0 + k < npages sz) by (unfold PGSIZE in *; lia).
  assert (Hva : u32 (PGSIZE * v0 + PGSIZE * k) = PGSIZE * (v0 + k)) by (rewrite u32_small; unfold PGSIZE, KERNBASE in *; lia).
  destruct (space_page kp free s0 d sz (-1) img (x_vm s) (v0 + k) Hs Hw) as (f & a & Ha & Ha0 & Hfa & Hwr).
  rewrite Hva. apply yields_bind, yields_zoom. eapply yields_Ok; [exact Ha|]. rewrite (proj2 (Z.eqb_neq a 0)) by done.
  apply yields_bind, yields_zoom. unfold ld. eapply yields_Ok; [done|]. cbv zeta.
  set (n := if fsz - PGSIZE * k <? PGSIZE then _ else _).
  assert (Hn : 0 < n <= PGSIZE /\ n <= fsz - PGSIZE * k /\ (n < PGSIZE -> n = fsz - PGSIZE * k)).
  { unfold n. destruct (Z.ltb_spec (fsz - PGSIZE * k) PGSIZE); unfold PGSIZE in *; lia. }
  assert (Hs_eq : set_x_vm (x_vm s) (set_x_vm (x_vm s) s) = s) by (by destruct s). cbn [x_vm set_x_vm]. rewrite Hs_eq, Hfa. clear Hs_eq.
  apply yields_bind. unfold readi_to. apply yields_bind. apply readi_file; [done|apply u32_range|unfold PGSIZE in *; lia|].
  intros r bs fs HP1 Hlen Hbs. apply yields_bind, yields_zoom. unfold on_mem. eapply yields_Ok; [reflexivity|]. cbn [x_vm set_x_fs set_x_vm].
  assert (Hs1 := Hwr 0 bs ltac:(done) ltac:(lia)). rewrite !Z.add_0_r in Hs1.
  set (s1 := set_x_vm _ _). assert (Hl1 : loading sz (store_bytes (PGSIZE * (v0 + k)) bs img) p s1) by (by split_and!).
  change (yields tol (if negb (r =? n) then ret (-1) else loaduvm_loop (@on_vm St) (readi_to dev_read ip) (S fuel) d (PGSIZE * v0) off fsz (u32 (PGSIZE * k + PGSIZE))) s1 (fun r s' =>
    exists img', loading sz img' p s' /\ (known -> 0 <= r -> (forall va, img' va =
      store_bytes (PGSIZE * (v0 + k)) (slice file (off + PGSIZE * k) (fsz - PGSIZE * k)) img va) /\
      (PGSIZE * k < fsz -> off + fsz <= Z.of_nat (length file))))).
  destruct (Z.eqb_spec r n) as [->|Hne]; cbn [negb]; [|eexists; split; [exact Hl1|lia]].
  replace (u32 (PGSIZE * k + PGSIZE)) with (PGSIZE * (k + 1)) by (rewrite u32_small; unfold PGSIZE, KERNBASE in *; lia).
  assert (Hkn : known -> bs = slice file (off + PGSIZE * k) n /\ Z.of_nat (length bs) = n /\ off + PGSIZE * k + n <= Z.of_nat (length file)).
  { intros Hkn. destruct (Hbs Hkn eq_refl) as [Hb1 Hb2]. rewrite u32_small in Hb1 by (specialize (Hoff Hkn); unfold PGSIZE in *; lia).
    split_and!; [done|done|]. apply (slice_length file); [unfold PGSIZE in *; lia|lia|]. by rewrite <- Hb1. }
  eapply yields_mono; [apply (IH (k + 1) _ s1 Hl1); try lia|].
  { intros Hkn'. destruct (Hkn Hkn') as (_ & _ & Hle). destruct (Z_lt_le_dec n PGSIZE); [|unfold PGSIZE in *; lia]. unfold PGSIZE in *. lia. }
  intros r s' (img' & Hl' & Himg). exists img'. split; [done|]. intros Hkn' Hr. destruct (Himg Hkn' Hr) as [Hi1 Hi2]. destruct (Hkn Hkn') as (Hb1 & Hb2 & _).
  destruct (segment_step file (PGSIZE * (v0 + k)) (off + PGSIZE * k) (fsz - PGSIZE * k) n bs img img') as [Hj1 Hj2]; try done; try (unfold PGSIZE in *; lia).
  - intros va. rewrite Hi1. replace (PGSIZE * (v0 + (k + 1))) with (PGSIZE * (v0 + k) + PGSIZE) by lia.
    replace (off + PGSIZE * (k + 1)) with (off + PGSIZE * k + PGSIZE) by lia. by replace (fsz - PGSIZE * (k + 1)) with (fsz - PGSIZE * k - PGSIZE) by lia.
  - split; [done|unfold PGSIZE in *; lia].
Qed.

Lemma loaduvm_space sz ph p img s :
  loading sz img p s -> ph_vaddr ph mod PGSIZE = 0 -> 0 <= ph_vaddr ph -> 0 <= ph_filesz ph -> ph_vaddr ph + ph_filesz ph <= sz ->
  0 <= ph_off ph < 2 ^ 32 ->
  yields tol (loaduvm (@on_vm St) (readi_to dev_read ip) d (ph_vaddr ph) (ph_off ph) (ph_filesz ph)) s (fun r s' =>
    exists img', loading sz img' p s' /\ (known -> 0 <= r -> (forall va, img' va =
      store_bytes (ph_vaddr ph) (slice file (ph_off ph) (ph_filesz ph)) img va) /\
      (ph_filesz ph = 0 \/ ph_off ph + ph_filesz ph <= Z.of_nat (length file)))).
Proof.
  intros Hl Hal Hv Hf Hfit Ho. unfold loaduvm. rewrite Hal. cbn [Z.eqb negb].
  apply Z.div_exact in Hal; [|done]. set (v0 := ph_vaddr ph / PGSIZE) in *. rewrite Hal in *. assert (0 <= v0) by (unfold PGSIZE in *; lia).
  eapply yields_mono; [apply (loaduvm_loop_space sz v0 (ph_off ph) (ph_filesz ph) p _ 0 img s Hl); try lia|].
  intros r s' (img' & Hl' & Himg). exists img'. split; [done|]. intros Hkn Hr. destruct (Himg Hkn Hr) as [Hi1 Hi2].
  split; [|destruct (Z.eq_dec (ph_filesz ph) 0); [by left|right; apply Hi2; lia]].
  intros va. rewrite Hi1. by rewrite Z.mul_0_r, !Z.add_0_r, Z.sub_0_r.
Qed.

Lemma decode_ph_range bs :
  0 <= ph_vaddr (decode_ph bs) < 2 ^ 32 /\ 0 <= ph_off (decode_ph bs) < 2 ^ 32 /\ 0 <= ph_filesz (decode_ph bs) < 2 ^ 32 /\
  0 <= ph_memsz (decode_ph bs) < 2 ^ 32.
Proof. cbn. split_and!; apply u32_range. Qed.

(** The result of the loop over the headers. *)
Definition segments_post (n : nat) (off sz : Z) (img : Z -> Z) (p : uimage) (o : option Z) (s : exs) : Prop :=
  P (x_fs s) /\ x_proc s = p /\
  match o with
  | None => owned free s0 d (x_vm s)
  | Some sz' => exists img', spaced kp free s0 d sz' (-1) img' (x_vm s) /\
      (known -> sz' = image_size sz (headers file n off) /\ Forall (segment_ok file) (headers file n off) /\
        forall va, img' va = image file img (headers file n off) va)
  end.

Lemma exec_segments_space n p : forall off sz img s,
  loading sz img p s -> yields tol (exec_segments dev_read n ip d off sz) s (segments_post n off sz img p).
Proof.
  induction n as [|n IH]; intros off sz img s Hl; cbn [exec_segments]; assert (Hl' := Hl); destruct Hl' as (HP & Hpr & Hs).
  { split_and!; [done|done|]. exists img. split; [done|]. intros _. by split_and!. }
  assert (Hbad : forall s', loading sz img p s' -> segments_post (S n) off sz img p None s').
  { intros s' (H1 & H2 & H3). split_and!; [done|done|]. by eapply spaced_owned. }
  apply yields_bind. apply readi_file; [done|apply u32_range|done|]. intros r bs fs HP1 _ Hbs.
  set (s1 := set_x_fs fs s). assert (Hl1 : loading sz img p s1) by (by split_and!).
  destruct (Z.eqb_spec r sizeof_proghdr) as [->|Hr]; cbn [negb]; [|by apply Hbad].
  cbv zeta. destruct (decode_ph_range bs) as (Hrv & Hro & Hrf & Hrm). set (ph := decode_ph bs) in *.
  assert (Hhead : known -> headers file (S n) off = ph :: headers file n (off + sizeof_proghdr)).
  { intros Hkn. destruct (Hbs Hkn eq_refl) as [Hb _]. unfold ph. by rewrite Hb. }
  destruct (ph_type ph =? ELF_PROG_LOAD) eqn:Hty; cbn [negb].
  2: { eapply yields_mono; [apply (IH _ _ _ s1 Hl1)|]. intros [sz'|] s' (H1 & H2 & H3); [|by split_and!]. split_and!; [done|done|].
       destruct H3 as (img' & Hs' & Hkn). exists img'. split; [done|]. intros Hk. rewrite Hhead by done. destruct (Hkn Hk) as (-> & Hok & Himg).
       unfold image_size, image. cbn [foldl]. replace (loaded ph) with false. split_and!; [done|constructor; [|done]|done].
       unfold segment_ok, loaded. by rewrite Hty. }
  destruct (Z.ltb_spec (ph_memsz ph) (ph_filesz ph)) as [|Hmem]; [by apply Hbad|].
  destruct (Z.ltb_spec (u32 (ph_vaddr ph + ph_memsz ph)) (ph_vaddr ph)) as [|Hwrap]; [by apply Hbad|].
  assert (Hsum : u32 (ph_vaddr ph + ph_memsz ph) = ph_vaddr ph + ph_memsz ph).
  { destruct (Z_lt_le_dec (ph_vaddr ph + ph_memsz ph) (2 ^ 32)); [apply u32_small; lia|].
    unfold u32 in Hwrap. rewrite <- (Z.mod_unique_pos (ph_vaddr ph + ph_memsz ph) (2 ^ 32) 1 (ph_vaddr ph + ph_memsz ph - 2 ^ 32)) in Hwrap; lia. }
  pose proof (u32_range (ph_vaddr ph + ph_memsz ph)) as Hur. rewrite Hsum in *. apply yields_bind, yields_zoom. destruct (spaced_range _ _ _ _ _ _ _ _ Hs) as [Hsz Hnp].
  eapply yields_mono; [apply yields_runs, (allocuvm_space kp free s0 d sz (-1) img (x_vm s1) (ph_vaddr ph + ph_memsz ph)); [exact Hs|lia|lia]|].
  intros r s2 [(-> & Ho)|(Hr0 & -> & Hrk & Hs2)]; [by split_and!|]. rewrite (proj2 (Z.eqb_neq _ 0) Hr0).
  set (sz2 := Z.max _ _) in *. assert (Hl2 : loading sz2 img p (set_x_vm s2 s1)) by (by split_and!).
  destruct (Z.eqb_spec (ph_vaddr ph mod PGSIZE) 0) as [Hal|]; cbn [negb]; [|by split_and!; try done; eapply spaced_owned].
  apply yields_bind. eapply yields_mono; [apply (loaduvm_space sz2 ph p img _ Hl2); lia|].
  intros r s3 (img3 & Hl3 & Himg3). destruct (Z.ltb_spec r 0) as [Hneg|Hpos].
  { destruct Hl3 as (? & ? & ?). split_and!; [done|done|]. by eapply spaced_owned. }
  eapply yields_mono; [apply (IH _ _ _ s3 Hl3)|]. intros [sz'|] s' (H1 & H2 & H3); [|by split_and!]. split_and!; [done|done|].
  destruct H3 as (img' & Hs' & Hkn). exists img'. split; [done|]. intros Hk. rewrite Hhead by done. destruct (Hkn Hk) as (-> & Hok & Himg).
  destruct (Himg3 Hk Hpos) as [Hj1 Hj2]. unfold image_size, image. cbn [foldl]. replace (loaded ph) with true. split_and!; [done|constructor; [|done]|].
  - intros _. split_and!; [done|done|lia|done].
  - intros va. rewrite Himg. by apply image_ext.
Qed.
End segments.

(** The result of [exec_load]. *)
Definition load_post (free : list Z) (s0 : vst) (p : uimage) (r : Z * option (Z * Z)) (s : exs) : Prop :=
  P (x_fs s) /\ x_proc s = p /\
  match r with
  | (d, None) => if decide (d = 0) then returned free s0 (x_vm s) else owned free s0 d (x_vm s)
  | (d, Some (sz, entry)) => exists img, spaced kpte free s0 d sz (-1) img (x_vm s) /\
      (known -> e_magic (elf_of file) = ELF_MAGIC /\ entry = e_entry (elf_of file) /\ sz = image_size 0 (phs file) /\
        Forall (segment_ok file) (phs file) /\ forall va, img va = image file (fun _ => 0) (phs file) va)
  end.

Lemma exec_load_space free s :
  P (x_fs s) -> kok (x_vm s) free -> yields tol (exec_load dev_read ip) s (load_post free (x_vm s) (x_proc s)).
Proof.
  intros HP Hk. assert (Hsame : returned free (x_vm s) (x_vm s)) by (split; [apply only_pages_refl|by exists free]).
  unfold exec_load. apply yields_bind. apply readi_file; [done|done|done|]. intros r bs fs HP1 _ Hbs.
  destruct (Z.eqb_spec r sizeof_elfhdr) as [->|Hr]; cbn [negb]; [|by split_and!]. cbv zeta.
  assert (Hh : known -> decode_elf bs = elf_of file) by (intros Hkn; destruct (Hbs Hkn eq_refl) as [-> _]; done).
  destruct (Z.eqb_spec (e_magic (decode_elf bs)) ELF_MAGIC) as [Hm|Hm]; cbn [negb]; [|by split_and!].
  apply yields_bind, yields_zoom. eapply yields_mono; [apply yields_runs, (setupkvm_space _ free Hk)|].
  intros d s1 [(-> & Hret)|(Hd & Hs1)]; [by split_and!|]. rewrite (proj2 (Z.eqb_neq d 0)) by done. apply yields_bind.
  eapply yields_mono; [apply (exec_segments_space kpte free (x_vm s) d _ (x_proc s) _ 0 (fun _ => 0)); by split_and!|].
  intros [sz|] s2 (H1 & H2 & H3); (split_and!; [done|done|]).
  - destruct H3 as (img & Hs2 & Hkn). exists img. split; [done|]. intros Hk1. rewrite (Hh Hk1) in *. by destruct (Hkn Hk1) as (-> & Hok & Himg).
  - by rewrite decide_False.
Qed.
End load.

(** C20. [exec] loads the program that is in the file: reading an inode of the
    real file system into real page tables, [exec_load] returns, and if it
    accepts the file the magic number and the segments are as they must be
    (aligned, no larger in the file than in memory, below the kernel, wholly in
    the file), and every byte of the new memory, read through the new page
    table, is the byte of the last segment that covers it or 0; if it refuses,
    no page is lost. The file system is as it was. *)
Theorem exec_load_correct `{linked} {Hlk : linked_ok} {St : Type} `{HS : blocks_spec St} sb0 s0 ip x lg f
    (dev_read : Z -> option (nat -> Z -> Fs.F (St := St) (Z * list Z))) free (s : exs (St := St)) :
  file_st sb0 s0 ip x lg f (x_fs s) -> (length lg < NBUF)%nat -> kok (x_vm s) free ->
  runs (exec_load dev_read ip) s (fun '(d, o) s' => file_st sb0 s0 ip x lg f (x_fs s') /\ x_proc s' = x_proc s /\
    let file := content f x in
    match o with
    | None => if decide (d = 0) then returned free (x_vm s) (x_vm s') else owned free (x_vm s) d (x_vm s')
    | Some (sz, entry) =>
        e_magic (elf_of file) = ELF_MAGIC /\ entry = e_entry (elf_of file) /\ Forall (segment_ok file) (phs file) /\
        sz = image_size 0 (phs file) /\ sz < KERNBASE /\ owned free (x_vm s) d (x_vm s') /\
        forall va, 0 <= va < sz -> umem (x_vm s') d va = image file (fun _ => 0) (phs file) va
    end).
Proof.
  intros Hf Hlg Hk. assert (Hlen : Z.of_nat (length (content f x)) = i_size x /\ i_size x < 2 ^ 31).
  { destruct (io_size _ _ _ (fs_inode _ _ _ _ _ _ _ Hf)) as [Hi1 Hi2]. rewrite content_length by done. unfold MAXFILE, BSIZE in Hi2. lia. }
  eapply runs_mono; [apply (exec_load_space dev_read ip False True (file_st sb0 s0 ip x lg f) (content f x))|]; [|lia|exact Hf|exact Hk|].
  - intros fs off n [] Ho Hn. eapply yields_mono; [apply yields_runs; by apply (readi_runs sb0 fs_layout dev_read s0 ip fs_ip f x lg off n fs)|].
    intros [r bs] fs' [Hh Hr]. split; [by constructor|]. case_decide as Hd.
    + destruct Hr as [-> ->]. split; [cbn; lia|lia].
    + destruct Hr as [-> ->]. fold (slice (content f x) off n). split; [unfold slice; rewrite length_take; lia|]. by intros _ ?.
  - intros [d [[sz entry]|]] s' (H1 & H2 & H3); (split_and!; [done|done|]); [|done].
    destruct H3 as (img & Hs & Hkn). destruct (Hkn I) as (Ha & Hb & Hc & Hd & He). destruct (spaced_range _ _ _ _ _ _ _ _ Hs) as [Hsz _].
    split_and!; [done|done|done|done|lia|by eapply spaced_owned|]. intros va Hva. destruct (npages_range sz ltac:(lia)) as [_ Hnp].
    rewrite <- He. apply (umem_img _ _ _ _ _ _ _ _ _ Hs); [lia|]. pose proof (Z.div_pos va PGSIZE ltac:(lia) ltac:(done)). lia.
Qed.

(** ** The whole call *)

Section exec.
Context `{linked} {Hlk : linked_ok}.

(** The address space [d] replaces [pd]: its pages were free, and those of [pd]
    are free now; [rest] are the pages that were and are free. *)
Definition replaced (free : list Z) (pd : Z) (PT PU : gmap Z Z) (d : Z) (s2 : vst) : Prop :=
  exists free' rest T U, vmu (free' ++ d :: own T) s2 free' d T U /\
    free ≡ₚ rest ++ d :: own T ++ own U /\ free' ≡ₚ rest ++ pd :: own PT ++ own PU.

(** The old address space is given back while the new one stays. *)
Lemma swap_spaces K s free pd PT PU d s1 :
  vmu K s free pd PT PU -> owned free s d s1 ->
  runs (freevm pd) s1 (fun _ s2 => replaced free pd PT PU d s2).
Proof.
  intros Hu (K1 & free1 & T1 & U1 & Hu1 & Hp1 & Hm1).
  assert (Hc1 := vmu_core _ _ _ _ _ _ Hu1). assert (Hc := vmu_core _ _ _ _ _ _ Hu).
  assert (Hperm1 : free1 ++ d :: own T1 ++ own U1 ≡ₚ free).
  { rewrite <- Hp1, <- (vmc_perm _ _ _ _ _ Hc1), <- app_assoc. done. }
  destruct (vmu_apart K s free pd PT PU s1 free1 Hu Hm1 (vmc_kok _ _ _ _ _ Hc1)) as (Hu' & _ & _).
  { intros p Hp. rewrite <- Hperm1. apply elem_of_app. by left. }
  eapply runs_mono; [exact (freevm_spec _ s1 free1 pd PT PU Hu')|]. intros [] s2 (free2 & Hk2 & Hp2 & Hm2).
  assert (Hnd : NoDup (free1 ++ (d :: own T1 ++ own U1) ++ pd :: own PT ++ own PU)).
  { assert (Hn := vmu_nodup _ _ _ _ _ _ Hu). rewrite <- (vmc_perm _ _ _ _ _ Hc), <- app_assoc, <- Hperm1, <- app_assoc in Hn. done. }
  assert (Hdis : forall p, p ∈ (free1 ++ pd :: own PT) ++ own PU -> p ∉ d :: own T1 ++ own U1).
  { intros p Hp Hin. rewrite <- app_assoc in Hp. apply NoDup_app in Hnd as (_ & H1 & Hnd). apply NoDup_app in Hnd as (_ & H2 & _).
    apply elem_of_app in Hp as [Hp|Hp]; [apply (H1 p Hp), elem_of_app; by left|by apply (H2 p)]. }
  destruct (vmu_move K1 s1 free1 d T1 U1 s2 free2 _ Hu1 Hm2) as (Hu2 & _ & _); [|done|intros p [Hp|Hp]; apply Hdis; [done|by rewrite <- Hp2]|].
  { apply Forall_app. split; [apply Hu'|apply Hu]. }
  exists free2, free1, T1, U1. split; [done|]. split; [by rewrite Hperm1|]. rewrite Hp2, <- app_assoc. done.
Qed.

Lemma replaced_new K s free pd PT PU d s2 : vmu K s free pd PT PU -> replaced free pd PT PU d s2 -> d <> pd.
Proof.
  intros Hu (free' & rest & T & U & _ & Hf & _) ->. assert (Hn := vmu_nodup _ _ _ _ _ _ Hu).
  rewrite <- (vmc_perm _ _ _ _ _ (vmu_core _ _ _ _ _ _ Hu)), <- app_assoc in Hn. apply NoDup_app in Hn as (_ & Hd & _).
  apply (Hd pd); [rewrite Hf; apply elem_of_app; right; by apply list_elem_of_here|by apply list_elem_of_here].
Qed.

Context {St : Type} `{blocks St}.
Context (dev_read : Z -> option (nat -> Z -> Fs.F (St := St) (Z * list Z))).
Hypothesis Hdev : forall m rd ip n, dev_read m = Some rd -> keeps ids (rd ip n).
Hypothesis Hdev_len : forall m rd ip n fs, dev_read m = Some rd -> leads (rd ip n) fs (fun '(_, bs) _ => Z.of_nat (length bs) <= n).

Lemma readi_loop_length ip fuel : forall off n fs, 0 <= n ->
  leads (readi_loop fuel ip off n) fs (fun bs _ => Z.of_nat (length bs) <= n).
Proof.
  induction fuel as [|fuel IH]; intros off n fs Hn; [done|]. cbn [readi_loop]. destruct (Z.ltb_spec 0 n); [|cbn; lia].
  do 4 (apply leads_bind; eapply leads_mono; [apply keeps_leads with (f := fun _ => tt); by intros ? ? ?|]; intros ? ? _).
  cbv zeta. apply leads_bind. eapply leads_mono; [apply keeps_leads with (f := fun _ => tt); by intros ? ? ?|]. intros ? ? _.
  apply leads_bind. eapply leads_mono; [apply IH; lia|]. intros bs fs' Hbs.
  pose proof (Z.mod_pos_bound off (Z.of_nat BSIZE) ltac:(done)). unfold leads, ret. rewrite length_app, length_take. cbn beta in Hbs. lia.
Qed.

Lemma readi_length ip off n fs : 0 <= off -> 0 <= n ->
  leads (readi dev_read ip off n) fs (fun '(_, bs) _ => Z.of_nat (length bs) <= n).
Proof.
  intros Ho Hn. unfold readi. apply leads_bind. eapply leads_mono; [apply keeps_leads with (f := fun _ => tt); by intros ? ? ?|]. intros x fs1 _.
  destruct (i_type x =? T_DEV).
  { destruct (_ || _); [done|]. destruct (dev_read (i_major x)) as [rd|] eqn:Hrd; [|done]. exact (Hdev_len _ rd ip n fs1 Hrd). }
  destruct (Z.ltb_spec (i_size x) off); [done|]. cbn [orb]. destruct (_ <? off); [done|]. cbv zeta. apply leads_bind.
  eapply leads_mono; [apply readi_loop_length; destruct (Z.ltb_spec (i_size x) (off + n)); lia|].
  intros bs fs2 Hbs. cbn. destruct (Z.ltb_spec (i_size x) (off + n)); lia.
Qed.

Context (base : nat -> Z) (Hbase : forall i, 0 <= base i) (cw : nat).
Abbreviation counts := (counted base cw).
Abbreviation none := (fun _ : nat => 0).

Lemma readi_counts ip d fs off n : counts d fs -> 0 <= off < 2 ^ 32 -> 0 <= n < 2 ^ 32 ->
  yields True (readi dev_read ip off n) fs (fun '(r, bs) fs' => counts d fs' /\ Z.of_nat (length bs) <= n /\
    (False -> r = n -> bs = slice [] off n /\ Z.of_nat (length bs) = n)).
Proof.
  intros Hc Ho Hn. assert (H1 := counted_keeps base cw d _ (keeps_readi dev_read Hdev ip off n) fs Hc).
  assert (H2 := readi_length ip off n fs ltac:(lia) ltac:(lia)). unfold leads in H1, H2. unfold yields.
  destruct (readi dev_read ip off n fs) as [[[r bs] fs']| | |]; [|done..]. by split_and!.
Qed.

(** A call on the file system that keeps the counts. *)
Lemma file_kept {A} (m : Fs.F (St := St) A) d s (Q : A -> exs -> Prop) :
  keeps ids m -> counts d (x_fs s) -> (forall a fs, counts d fs -> Q a (set_x_fs fs s)) -> leads (on_file m) s Q.
Proof.
  intros Hm Hc HQ. apply (yields_zoom True). eapply leads_mono; [exact (counted_keeps base cw d m Hm _ Hc)|]. intros a fs. apply HQ.
Qed.

Lemma iunlockput_file ip d s (Q : () -> exs -> Prop) :
  counts (more ip 1 d) (x_fs s) -> (forall fs, counts d fs -> Q () (set_x_fs fs s)) -> leads (on_file (iunlockput ip)) s Q.
Proof.
  intros Hc HQ. apply (yields_zoom True). eapply leads_mono; [exact (iunlockput_counted base cw _ ip _ Hc)|]. intros [] fs Hfs. apply HQ.
  eapply counted_ext; [apply more_cancel|exact Hfs].
Qed.

(** The label [bad] gives everything back. *)
Lemma exec_bad_spec free s0 d ipo delta s :
  (if decide (d = 0) then returned free s0 (x_vm s) else owned free s0 d (x_vm s)) ->
  counts (match ipo with Some ip => more ip 1 delta | None => delta end) (x_fs s) ->
  leads (exec_bad d ipo) s (fun r s' => r = -1 /\ x_proc s' = x_proc s /\ returned free s0 (x_vm s') /\ counts delta (x_fs s')).
Proof.
  intros Hd Hc. unfold exec_bad. apply leads_bind. eapply leads_mono with (Q := fun _ s' =>
    x_proc s' = x_proc s /\ x_fs s' = x_fs s /\ returned free s0 (x_vm s')).
  { destruct (Z.eqb_spec d 0) as [->|Hne]; cbn [negb when]; [by split_and!|]. rewrite decide_False in Hd by done.
    apply (yields_zoom True). eapply yields_mono; [apply yields_runs; exact (proj2 (freevm_space free s0 d _ Hd))|]. intros [] t Ht. by split_and!. }
  intros [] s1 (Hp & Hf & Hr). apply leads_bind. eapply leads_mono with (Q := fun _ s' =>
    x_proc s' = x_proc s1 /\ x_vm s' = x_vm s1 /\ counts delta (x_fs s')).
  { rewrite <- Hf in Hc. destruct ipo as [ip|]; [|by split_and!]. apply leads_bind. eapply iunlockput_file; [exact Hc|]. intros fs Hfs.
    eapply file_kept; [apply keeps_on_blk|exact Hfs|]. intros [] fs' Hfs'. by split_and!. }
  intros [] s2 (Hp2 & Hv2 & Hc2). cbn. rewrite Hp2, Hv2. by split_and!.
Qed.

(** What a call of [exec] leaves: on failure the process as it was, on success
    a new address space in place of the old one; all pages are accounted for. *)
Definition exec_post (free : list Z) (PT PU : gmap Z Z) (s : exs (St := St)) (r : Z) (s' : exs (St := St)) : Prop :=
  let pd := im_pgdir (x_proc s) in
  counts none (x_fs s') /\
  ((r = -1 /\ x_proc s' = x_proc s /\ exists free', free' ≡ₚ free /\ vmu (free' ++ pd :: own PT) (x_vm s') free' pd PT PU /\
      forall v f x, PU !! v = Some f -> in_page f x -> vmem (x_vm s') x = vmem (x_vm s) x) \/
   (r = 0 /\ im_cr3 (x_proc s') = V2P (im_pgdir (x_proc s')) /\ im_pgdir (x_proc s') <> pd /\
      replaced free pd PT PU (im_pgdir (x_proc s')) (x_vm s'))).

Lemma exec_failed K free PT PU s r s' :
  vmu K (x_vm s) free (im_pgdir (x_proc s)) PT PU ->
  r = -1 /\ x_proc s' = x_proc s /\ returned free (x_vm s) (x_vm s') /\ counts none (x_fs s') -> exec_post free PT PU s r s'.
Proof.
  intros Hu (-> & Hp & (Hm & free' & Hk & Hf) & Hc). split; [done|]. left. split_and!; [done|done|]. exists free'. split; [done|].
  destruct (vmu_apart K (x_vm s) free _ PT PU (x_vm s') free' Hu Hm Hk) as (Hu' & _ & Hsame); [|done].
  intros p Hpf. by rewrite <- Hf.
Qed.

Lemma exec_commit_spec K free PT PU path d sz entry sp s s1 :
  vmu K (x_vm s) free (im_pgdir (x_proc s)) PT PU -> x_proc s1 = x_proc s -> owned free (x_vm s) d (x_vm s1) ->
  counts none (x_fs s1) -> leads (exec_commit path d sz entry sp) s1 (exec_post free PT PU s).
Proof.
  intros Hu Hp Ho Hc. unfold exec_commit. apply leads_bind. unfold gets, leads at 1. apply leads_bind.
  destruct (safestrcpy _ _ _) as [name|]; [|done]. unfold deref, ret, leads at 1. apply leads_bind. unfold modify, leads at 1.
  apply leads_bind. apply (yields_zoom True). rewrite Hp. cbn [x_vm set_x_proc].
  eapply yields_mono; [apply yields_runs; exact (swap_spaces K (x_vm s) free _ PT PU d (x_vm s1) Hu Ho)|].
  intros [] t Ht. split; [done|]. right. split_and!; [done|done|exact (replaced_new _ _ _ _ _ _ _ _ Hu Ht)|done].
Qed.
End exec.

(** C21. [exec] is all or nothing for memory and for inodes, whatever the path,
    the file and the arguments: when it returns -1 the process keeps its address
    space, with the same contents, and every page that was taken is free again;
    when it returns 0 the process has a new address space, whose directory the
    CPU uses and whose pages are all from the free list, and every page of the
    old one is on the free list; in both cases no page is lost or used twice,
    and the reference count of every inode is what it was. *)
Theorem exec_balanced `{linked} {Hlk : linked_ok} {St} `{blocks St}
    (dev_read : Z -> option (nat -> Z -> Fs.F (St := St) (Z * list Z))) base cw K free PT PU path argv (s : exs (St := St)) :
  (forall m rd ip n, dev_read m = Some rd -> keeps ids (rd ip n)) ->
  (forall m rd ip n fs, dev_read m = Some rd -> leads (rd ip n) fs (fun '(_, bs) _ => Z.of_nat (length bs) <= n)) ->
  (forall i, 0 <= base i) -> counted base cw (fun _ => 0) (x_fs s) -> vmu K (x_vm s) free (im_pgdir (x_proc s)) PT PU ->
  leads (exec dev_read path argv) s (exec_post base cw free PT PU s).
Proof.
  intros Hdev Hlen Hbase Hc Hu. assert (Hk := vmc_kok _ _ _ _ _ (vmu_core _ _ _ _ _ _ Hu)).
  unfold exec. apply leads_bind. eapply file_kept; [apply keeps_on_blk|exact Hc|]. intros [] fs1 Hc1.
  apply leads_bind. apply (yields_zoom True). eapply leads_mono; [exact (namei_counted dev_read Hdev base Hbase cw _ path fs1 Hc1 (fun _ => Z.le_refl 0))|].
  intros [ip|] fs2 Hc2.
  2: { apply leads_bind. eapply file_kept; [apply keeps_on_blk|exact Hc2|]. intros [] fs3 Hc3. eapply exec_failed; [exact Hu|].
       split_and!; [done|done| |done]. split; [apply only_pages_refl|by exists free]. }
  apply leads_bind. eapply file_kept; [apply keeps_ilock|exact Hc2|]. intros [] fs3 Hc3. apply leads_bind.
  set (s3 := set_x_fs fs3 _). eapply yields_mono; [apply (exec_load_space dev_read ip True False (counted base cw (more ip 1 (fun _ => 0))) [] (readi_counts dev_read Hdev Hlen base cw ip _) ltac:(cbn; lia) free s3 Hc3 Hk)|].
  intros [d [[sz entry]|]] s4 (Hc4 & Hp4 & Hd).
  2: { eapply leads_mono; [apply (exec_bad_spec base cw free (x_vm s) d (Some ip) (fun _ => 0) s4 Hd Hc4)|].
       intros r s5 (Hr & Hp5 & Hrest). eapply exec_failed; [exact Hu|]. split_and!; [done|by rewrite Hp5|apply Hrest..]. }
  destruct Hd as (img & Hs4 & _). apply leads_bind. eapply iunlockput_file; [exact Hc4|]. intros fs5 Hc5.
  apply leads_bind. eapply file_kept; [apply keeps_on_blk|exact Hc5|]. intros [] fs6 Hc6. apply leads_bind, (yields_zoom True).
  eapply leads_mono; [exact (exec_stack_any kpte free (x_vm s) d sz img _ argv kpte_kernel Hs4)|].
  intros [[sz' sp]|] t Ho.
  - by eapply exec_commit_spec.
  - destruct (freevm_space free (x_vm s) d t Ho) as [Hd0 _].
    eapply leads_mono; [apply (exec_bad_spec base cw free (x_vm s) d None (fun _ => 0)); [by rewrite decide_False|exact Hc6]|].
    intros r s5 (Hr & Hp5 & Hrest). eapply exec_failed; [exact Hu|]. split_and!; [done|by rewrite Hp5|apply Hrest..].
Qed.

(** ** Examples *)

(** A program of one segment: four bytes of code, eight bytes of memory. *)
Definition demo_elf : list Z :=
  le32 ELF_MAGIC ++ replicate 20 0 ++ le32 4096 ++ le32 52 ++ replicate 12 0 ++ le16 1 ++ replicate 6 0 ++
  concat (le32 <$> [ELF_PROG_LOAD; 84; 4096; 0; 4; 8; 0; 0]) ++ [235; 254; 144; 144].

Lemma demo_elf_image :
  e_magic (elf_of demo_elf) = ELF_MAGIC /\ image_size 0 (phs demo_elf) = 4104 /\
  (image demo_elf (fun _ => 0) (phs demo_elf) <$> [4095; 4096; 4097; 4098; 4099; 4100]) = [0; 235; 254; 144; 144; 0].
Proof. by vm_compute. Qed.

Definition demo_exs (fs : Fs.fss (St := lst)) : exs (St := lst) := Exs fs demo_vst (Uimage (replicate 16 0) (demo_page 0) 0 0 0 0).

Lemma exec_load_correct_witness :
  runs (exec_load no_read 0) (demo_exs demo_fss) (fun '(d, o) s' => o = None /\ d = 0 /\ returned demo_free demo_vst (x_vm s')).
Proof.
  assert (Hk : kok (x_vm (demo_exs demo_fss)) demo_free) by apply demo_vmc.
  destruct (runs_inv _ _ _ (exec_load_correct demo_super demo_fss 0 demo_inode [] demo_f no_read demo_free (demo_exs demo_fss)
    demo_file_st ltac:(unfold NBUF; cbn; lia) Hk)) as ([d o] & s' & Hr & Hpost).
  eapply runs_Ok; [exact Hr|]. destruct Hpost as (_ & _ & Hpost). destruct o as [[sz entry]|].
  - exfalso. destruct Hpost as (Hm & _). vm_compute in Hm. discriminate Hm.
  - assert (Hd : match exec_load no_read 0 (demo_exs demo_fss) with Ok ((d, _), _) => d | _ => 1 end = 0) by (vm_compute; reflexivity).
    rewrite Hr in Hd. subst d. by split_and!.
Defined.

(** The root directory is not a program. *)
Definition demo_exec_fs : Fs.fss (St := lst) := Fss demo_idle demo_super [demo_unlocked] 0 1.

Lemma exec_balanced_witness :
  match exec no_read [47] demo_argv (demo_exs demo_exec_fs) with
  | Ok (r, s') => r = -1 /\ (i_ref <$> icache (x_fs s')) = [1] /\ freelist (x_vm s') = demo_page 1
  | _ => False end /\
  leads (exec no_read [47] demo_argv) (demo_exs demo_exec_fs)
    (exec_post (fun _ => 0) 0 demo_free ∅ ∅ (demo_exs demo_exec_fs)).
Proof.
  split; [vm_compute; done|].
  eapply (exec_balanced no_read); [done|done|done| |exact demo_vmu]. constructor; [done| |by intros [|i] [|j] x y Hx Hy].
  intros [|i] x Hx; [|by destruct i]. by injection Hx as <-.
Defined.
