(* ===== verification/Bootmain.v ===== *)
(** The boot loader ([bootmain.c]): it reads the kernel from the disk into
    physical memory and jumps to it.

    The drive is a parameter: what it returns for the values written to its
    count and address registers.  Waiting until it is ready is left out. *)

From S2P Require Import Prelude CString Bytes Exec ExecSpace.

Definition SECTSIZE : Z := 512.
(** [elf], the scratch space. *)
Definition SCRATCH : Z := 0x10000.

(** The fields of a program header that the loader uses. *)
Record bproghdr := Bproghdr { bp_off : Z; bp_paddr : Z; bp_filesz : Z; bp_memsz : Z }.
Definition decode_bph (bs : list Z) : bproghdr := Bproghdr (u32 (rd32 bs 4)) (u32 (rd32 bs 12)) (u32 (rd32 bs 16)) (u32 (rd32 bs 20)).

Section boot.
Context (drive : Z -> Z -> Z -> Z -> Z -> list Z).
Definition B (A : Type) : Type := M mem A.

Definition readsect (dst offset : Z) : B () :=
  modify (store_bytes dst (drive 1 (u8 offset) (u8 (Z.shiftr offset 8)) (u8 (Z.shiftr offset 16)) (u8 (Z.lor (Z.shiftr offset 24) 0xE0)))).

Fixpoint readseg_loop (fuel : nat) (pa epa offset : Z) : B () :=
  match fuel with
  | O => spin
  | S fuel =>
      if pa <? epa then
        readsect pa offset;;
        readseg_loop fuel (u32 (pa + SECTSIZE)) epa (u32 (offset + 1))
      else ret ()
  end.
Definition readseg (pa count offset : Z) : B () :=
  let epa := u32 (pa + count) in
  let pa := u32 (pa - offset mod SECTSIZE) in
  let offset := u32 (offset / SECTSIZE + 1) in
  readseg_loop (S (Z.to_nat (count / SECTSIZE + 2))) pa epa offset.

(** The loop over the program headers, which are read from the scratch space. *)
Fixpoint load_segments (fuel : nat) (ph eph : Z) : B () :=
  match fuel with
  | O => spin
  | S fuel =>
      if ph <? eph then
        h ← gets (fun m => decode_bph (mbytes m ph 32));
        readseg (bp_paddr h) (bp_filesz h) (bp_off h);;
        when (bp_filesz h <? bp_memsz h)
          (modify (store_bytes (u32 (bp_paddr h + bp_filesz h)) (replicate (Z.to_nat (bp_memsz h - bp_filesz h)) 0)));;
        load_segments fuel (u32 (ph + sizeof_proghdr)) eph
      else ret ()
  end.

(** The entry point that is called, or [None] if the loader returns. *)
Definition bootmain : B (option Z) :=
  readseg SCRATCH 4096 0;;
  elf ← gets (fun m => decode_elf (mbytes m SCRATCH 52));
  if negb (e_magic elf =? ELF_MAGIC) then ret None else
  let ph := u32 (SCRATCH + e_phoff elf) in
  let eph := u32 (ph + sizeof_proghdr * e_phnum elf) in
  load_segments (S (Z.to_nat (e_phnum elf))) ph eph;;
  ret (Some (e_entry elf)).

(** ** The kernel on the disk *)

(** The sectors of the disk, and an ATA drive with 28-bit addresses that reads
    them. *)
Context (sector : Z -> list Z).
Hypothesis Hsector : forall n, length (sector n) = 512%nat.
Hypothesis Hdrive : forall a b c d, 0 <= a < 256 -> 0 <= b < 256 -> 0 <= c < 256 -> 0 <= d < 16 ->
  drive 1 a b c (0xE0 + d) = sector (a + 2 ^ 8 * b + 2 ^ 16 * c + 2 ^ 24 * d).

(** Byte [i] of the kernel's file, which starts in sector 1. *)
Definition kbyte (i : Z) : Z := byte_at (sector (i / SECTSIZE + 1)) (Z.to_nat (i mod SECTSIZE)).
Definition kbytes (i : Z) (n : nat) : list Z := (fun k => kbyte (i + Z.of_nat k)) <$> seq 0 n.

Lemma readsect_eq dst n m : 0 <= n < 2 ^ 28 -> readsect dst n m = Ok ((), store_bytes dst (sector n) m).
Proof.
  intros Hn. unfold readsect, modify. do 3 f_equal.
  assert (H24 : 0 <= Z.shiftr n 24 < 16) by (rewrite Z.shiftr_div_pow2 by lia; split; [apply Z.div_pos; lia|apply Z.div_lt_upper_bound; lia]).
  assert (Hlor : Z.lor (Z.shiftr n 24) 0xE0 = 0xE0 + Z.shiftr n 24).
  { assert (Hall : Forall (fun k => Z.lor k 0xE0 = 0xE0 + k) (seqZ 0 16)) by (by repeat constructor).
    rewrite Forall_forall in Hall. apply Hall. by apply elem_of_seqZ. }
  rewrite Hlor. unfold u8 at 4. rewrite Z.mod_small by lia. rewrite Hdrive; [|apply u8_range..|done]. f_equal.
  rewrite !Z.shiftr_div_pow2 by lia. assert (Hs := u8_sum n ltac:(lia)). assert (Hd : u8 (n / 2 ^ 24) = n / 2 ^ 24).
  { unfold u8. rewrite Z.shiftr_div_pow2 in H24 by lia. by rewrite Z.mod_small by lia. }
  rewrite Hd in Hs. lia.
Qed.

(** The end of what is read: sectors are read as a whole. *)
Definition sect_end (pa epa : Z) : Z := pa + SECTSIZE * ((epa - pa + SECTSIZE - 1) / SECTSIZE).

Lemma sect_end_range pa epa : pa <= epa -> epa <= sect_end pa epa < epa + SECTSIZE.
Proof.
  intros H. unfold sect_end, SECTSIZE. pose proof (Z.div_mod (epa - pa + 512 - 1) 512 ltac:(done)).
  pose proof (Z.mod_pos_bound (epa - pa + 512 - 1) 512 ltac:(done)). lia.
Qed.

Lemma sect_end_step pa epa : sect_end (pa + SECTSIZE) epa = sect_end pa epa.
Proof.
  unfold sect_end. replace (epa - pa + SECTSIZE - 1) with (epa - (pa + SECTSIZE) + SECTSIZE - 1 + 1 * SECTSIZE) by lia.
  rewrite Z.div_add by done. lia.
Qed.

Lemma readseg_loop_runs fuel : forall pa epa n m,
  0 <= pa -> epa + SECTSIZE < 2 ^ 32 -> 0 <= n -> n + Z.of_nat fuel < 2 ^ 28 -> Z.max 0 (epa - pa) <= SECTSIZE * (Z.of_nat fuel - 1) ->
  runs (readseg_loop fuel pa epa n) m (fun _ m' => forall x,
    m' x = if decide (pa <= x < sect_end pa (Z.max pa epa)) then kbyte (SECTSIZE * (n - 1) + (x - pa)) else m x).
Proof.
  induction fuel as [|fuel IH]; intros pa epa n m Hpa He Hn Hnf Hf; [unfold SECTSIZE in *; lia|]. cbn [readseg_loop].
  destruct (Z.ltb_spec pa epa) as [Hlt|Hge].
  2: { eapply runs_Ok; [done|]. intros x. rewrite Z.max_l by lia. rewrite decide_False; [done|].
       unfold sect_end. replace (pa - pa + SECTSIZE - 1) with (SECTSIZE - 1) by lia. change ((SECTSIZE - 1) / SECTSIZE) with 0. lia. }
  apply runs_bind. eapply runs_Ok; [by apply readsect_eq; lia|]. rewrite !u32_small by (unfold SECTSIZE in *; lia).
  eapply runs_mono; [apply IH; unfold SECTSIZE in *; lia|]. intros u m' Hm' x. rewrite Hm'. rewrite (Z.max_r pa epa) by lia.
  assert (Hmax : sect_end (pa + SECTSIZE) (Z.max (pa + SECTSIZE) epa) = sect_end pa epa).
  { destruct (Z.max_spec (pa + SECTSIZE) epa) as [[H1 ->]|[H1 ->]]; [apply sect_end_step|]. unfold sect_end.
    replace (pa + SECTSIZE - (pa + SECTSIZE) + SECTSIZE - 1) with (SECTSIZE - 1) by lia. change ((SECTSIZE - 1) / SECTSIZE) with 0.
    rewrite <- (Z.div_unique (epa - pa + SECTSIZE - 1) SECTSIZE 1 (epa - pa - 1)); unfold SECTSIZE in *; lia. }
  rewrite Hmax. assert (Hr := sect_end_range pa epa ltac:(lia)). assert (Hstep := sect_end_range (pa + SECTSIZE) (Z.max (pa + SECTSIZE) epa) ltac:(lia)).
  rewrite Hmax in Hstep. destruct (decide (pa + SECTSIZE <= x < sect_end pa epa)) as [Hin|Hout].
  - rewrite decide_True by (unfold SECTSIZE in *; lia). f_equal. unfold SECTSIZE. lia.
  - destruct (decide (pa <= x < sect_end pa epa)) as [Hin|Hno].
    + replace x with (pa + (x - pa)) at 1 by lia. rewrite store_bytes_in by (rewrite Hsector; unfold SECTSIZE in *; lia). unfold kbyte.
      assert (Hd : (SECTSIZE * (n - 1) + (x - pa)) / SECTSIZE = n - 1) by (symmetry; apply (Z.div_unique _ _ _ (x - pa)); unfold SECTSIZE in *; lia).
      assert (Hm : (SECTSIZE * (n - 1) + (x - pa)) mod SECTSIZE = x - pa) by (symmetry; apply (Z.mod_unique _ _ (n - 1)); unfold SECTSIZE in *; lia).
      rewrite Hd, Hm. by replace (n - 1 + 1) with n by lia.
    + apply store_bytes_out. rewrite Hsector. unfold SECTSIZE in *. lia.
Qed.

(** [readseg] puts the bytes of the file where they belong, and at most a
    sector too many on either side. *)
Lemma readseg_runs pa count offset m :
  0 <= offset -> 0 <= count -> offset mod SECTSIZE <= pa -> pa + count + SECTSIZE < 2 ^ 32 -> offset + count + 4 * SECTSIZE < 2 ^ 32 ->
  runs (readseg pa count offset) m (fun _ m' => exists e, pa + count <= e < pa + count + SECTSIZE /\ forall x,
    m' x = if decide (pa - offset mod SECTSIZE <= x < e) then kbyte (offset + (x - pa)) else m x).
Proof.
  intros Ho Hc Hpa Hend Hoff. pose proof (Z.mod_pos_bound offset SECTSIZE ltac:(done)) as Hm. pose proof (Z.div_mod offset SECTSIZE ltac:(done)) as Hdm.
  pose proof (Z.div_pos offset SECTSIZE Ho ltac:(done)). pose proof (Z.div_mod count SECTSIZE ltac:(done)). pose proof (Z.mod_pos_bound count SECTSIZE ltac:(done)).
  pose proof (Z.div_pos count SECTSIZE Hc ltac:(done)).
  unfold readseg. unfold SECTSIZE in *. rewrite !u32_small by lia.
  eapply runs_mono; [apply readseg_loop_runs; unfold SECTSIZE; lia|]. intros u m' Hm'.
  exists (sect_end (pa - offset mod 512) (pa + count)). split; [apply (sect_end_range (pa - offset mod 512) (pa + count)); lia|].
  intros x. rewrite Hm'. rewrite Z.max_r by lia. case_decide; [|done]. f_equal. unfold SECTSIZE. lia.
Qed.

(** ** The segments *)

Definition khdr : elfhdr := decode_elf (kbytes 0 52).
Definition kseg (i : Z) : bproghdr := decode_bph (kbytes (e_phoff khdr + 32 * i) 32).

(** A kernel that can be loaded: the headers are in the first page; a segment
    lies above the scratch space, and starts, rounded down to a sector, behind
    the segments before it. *)
Record kernel_ok : Prop := KernelOk {
  ko_headers : e_phoff khdr + 32 * e_phnum khdr <= 4096;
  ko_file : forall i, 0 <= i < e_phnum khdr -> bp_filesz (kseg i) <= bp_memsz (kseg i) /\ bp_off (kseg i) + bp_filesz (kseg i) + 4 * SECTSIZE < 2 ^ 32;
  ko_mem : forall i, 0 <= i < e_phnum khdr ->
    SCRATCH + 4096 <= bp_paddr (kseg i) - bp_off (kseg i) mod SECTSIZE /\ bp_paddr (kseg i) + bp_memsz (kseg i) + SECTSIZE < 2 ^ 32;
  ko_order : forall i j, 0 <= i < j -> j < e_phnum khdr ->
    bp_paddr (kseg i) + bp_memsz (kseg i) <= bp_paddr (kseg j) - bp_off (kseg j) mod SECTSIZE
}.

Definition seg_loaded (m : mem) (i : Z) : Prop := forall k, 0 <= k < bp_memsz (kseg i) ->
  m (bp_paddr (kseg i) + k) = if decide (k < bp_filesz (kseg i)) then kbyte (bp_off (kseg i) + k) else 0.
Definition scratch_ok (m : mem) : Prop := forall x, 0 <= x < 4096 -> m (SCRATCH + x) = kbyte x.

Lemma scratch_bytes m a n : scratch_ok m -> 0 <= a -> a + Z.of_nat n <= 4096 -> mbytes m (SCRATCH + a) n = kbytes a n.
Proof.
  intros Hm Ha Hn. apply list_fmap_ext. intros i k Hk. apply lookup_seq in Hk as [-> Hk]. rewrite <- Hm by lia. f_equal. lia.
Qed.

Lemma kseg_range i : 0 <= bp_off (kseg i) /\ 0 <= bp_paddr (kseg i) /\ 0 <= bp_filesz (kseg i) /\ 0 <= bp_memsz (kseg i).
Proof. unfold kseg, decode_bph. cbn. split_and!; apply u32_range. Qed.

(** One segment, and what it leaves alone. *)
Lemma load_one i m : kernel_ok -> 0 <= i < e_phnum khdr ->
  runs (readseg (bp_paddr (kseg i)) (bp_filesz (kseg i)) (bp_off (kseg i));;
    when (bp_filesz (kseg i) <? bp_memsz (kseg i)) (modify (store_bytes (u32 (bp_paddr (kseg i) + bp_filesz (kseg i))) (replicate (Z.to_nat (bp_memsz (kseg i) - bp_filesz (kseg i))) 0)))) m
    (fun _ m' => seg_loaded m' i /\ forall x, x < bp_paddr (kseg i) - bp_off (kseg i) mod SECTSIZE -> m' x = m x).
Proof.
  intros Hk Hi. destruct (kseg_range i) as (H1 & H2 & H3 & H4). destruct (ko_file Hk i Hi) as [Hf Hoff]. destruct (ko_mem Hk i Hi) as [Hm1 Hm2]. set (h := kseg i) in *.
  pose proof (Z.mod_pos_bound (bp_off h) SECTSIZE ltac:(done)) as Hmod. unfold SCRATCH, SECTSIZE in *.
  apply runs_bind. eapply runs_mono; [apply readseg_runs; unfold SECTSIZE; lia|]. unfold SECTSIZE. intros [] m1 (e & He & Hm1').
  assert (Hfin : forall m', (forall x, m' x = if decide (bp_paddr h + bp_filesz h <= x < bp_paddr h + bp_memsz h) then 0 else m1 x) ->
    seg_loaded m' i /\ forall x, x < bp_paddr h - bp_off h mod 512 -> m' x = m x).
  { intros m' Hm'. split.
    - intros k Hkr. fold h in Hkr |- *. rewrite Hm'. destruct (decide (k < bp_filesz h)); [|by rewrite decide_True by lia].
      rewrite decide_False, Hm1', decide_True by lia. f_equal. lia.
    - intros x Hx. rewrite Hm', decide_False, Hm1', decide_False by lia. done. }
  destruct (Z.ltb_spec (bp_filesz h) (bp_memsz h)) as [Hlt|Hge]; cbn [when].
  - eapply runs_Ok; [done|]. apply Hfin. intros x. rewrite u32_small by lia. unfold store_bytes. rewrite length_replicate, Z2Nat.id by lia.
    destruct (Z.leb_spec (bp_paddr h + bp_filesz h) x), (Z.ltb_spec x (bp_paddr h + bp_filesz h + (bp_memsz h - bp_filesz h))); cbn [andb];
      destruct (decide (bp_paddr h + bp_filesz h <= x < bp_paddr h + bp_memsz h)); try lia; try done.
    unfold byte_at. destruct (replicate _ 0 !! _) as [b|] eqn:Hb; [|done]. apply lookup_replicate in Hb as [-> _]. done.
  - eapply runs_Ok; [done|]. apply Hfin. intros x. by rewrite decide_False by lia.
Qed.

Lemma runs_segment {S A} (a b : M S ()) (k : M S A) s Q R :
  runs (a;; b) s Q -> (forall s', Q () s' -> runs k s' R) -> runs (a;; (b;; k)) s R.
Proof.
  unfold runs, bind. destruct (a s) as [[[] s1]| | |]; try done. destruct (b s1) as [[[] s2]| | |]; try done. intros HQ Hk. by apply Hk.
Qed.

Lemma load_segments_runs fuel : forall i m, kernel_ok -> 0 <= i <= e_phnum khdr -> i + Z.of_nat fuel = e_phnum khdr + 1 -> scratch_ok m ->
  (forall j, 0 <= j < i -> seg_loaded m j) ->
  runs (load_segments fuel (SCRATCH + e_phoff khdr + 32 * i) (SCRATCH + e_phoff khdr + 32 * e_phnum khdr)) m (fun _ m' =>
    forall j, 0 <= j < e_phnum khdr -> seg_loaded m' j).
Proof.
  induction fuel as [|fuel IH]; intros i m Hk Hi Hf Hs Hl; [lia|].
  cbn [load_segments]. destruct (Z.ltb_spec (SCRATCH + e_phoff khdr + 32 * i) (SCRATCH + e_phoff khdr + 32 * e_phnum khdr)) as [Hlt|Hge].
  2: { eapply runs_Ok; [done|]. intros j Hj. apply Hl. lia. }
  assert (Hir : 0 <= i < e_phnum khdr) by lia. assert (Hh := ko_headers Hk). assert (Hpo : 0 <= e_phoff khdr) by (unfold khdr, decode_elf; cbn; apply u32_range).
  apply runs_bind. unfold runs at 1. cbn [gets]. assert (Hb := scratch_bytes m (e_phoff khdr + 32 * i) 32 Hs ltac:(lia) ltac:(lia)).
  rewrite Z.add_assoc in Hb. rewrite Hb. fold (kseg i).
  eapply runs_segment; [exact (load_one i m Hk Hir)|]. intros m' [Hseg Hsame]. destruct (ko_mem Hk i Hir) as [Hlow _].
  rewrite u32_small by (unfold SCRATCH, sizeof_proghdr in *; lia). unfold sizeof_proghdr.
  replace (SCRATCH + e_phoff khdr + 32 * i + 32) with (SCRATCH + e_phoff khdr + 32 * (i + 1)) by lia.
  apply IH; [done|lia|lia| |].
  - intros x Hx. rewrite Hsame by lia. by apply Hs.
  - intros j Hj. destruct (decide (j = i)) as [->|]; [done|]. intros k Hkr. assert (Ho := ko_order Hk j i ltac:(lia) ltac:(lia)).
    rewrite Hsame by lia. apply Hl; lia.
Qed.

(** C24. The boot loader loads the kernel: if the file on the disk from sector 1
    on is an ELF file whose segments lie above the scratch space in increasing
    order, the loader jumps to its entry point with every segment in memory, its
    bytes from the file and the rest zero; if it is no ELF file the loader
    returns. *)
Theorem bootmain_correct m :
  (e_magic khdr = ELF_MAGIC -> kernel_ok) ->
  runs bootmain m (fun r m' => if e_magic khdr =? ELF_MAGIC then r = Some (e_entry khdr) /\ forall i, 0 <= i < e_phnum khdr -> seg_loaded m' i
    else r = None).
Proof.
  intros Hk. unfold bootmain. apply runs_bind. eapply runs_mono; [apply (readseg_runs SCRATCH 4096 0); by vm_compute|].
  intros [] m1 (e & He & Hm1). assert (Hs : scratch_ok m1).
  { intros x Hx. rewrite Hm1. change (0 mod SECTSIZE) with 0. rewrite decide_True by lia. f_equal. lia. }
  apply runs_bind. unfold runs at 1. cbn [gets]. assert (Hb := scratch_bytes m1 0 52 Hs ltac:(lia) ltac:(lia)). rewrite Z.add_0_r in Hb. rewrite Hb. fold khdr.
  destruct (Z.eqb_spec (e_magic khdr) ELF_MAGIC) as [Hmag|Hno]; cbn [negb]; [|by eapply runs_Ok].
  specialize (Hk Hmag). assert (Hh := ko_headers Hk). assert (Hpo : 0 <= e_phoff khdr) by (unfold khdr, decode_elf; cbn; apply u32_range).
  assert (Hpn : 0 <= e_phnum khdr) by (unfold khdr, decode_elf, u16; cbn; apply Z.mod_pos_bound; lia).
  cbv zeta. rewrite (u32_small (SCRATCH + e_phoff khdr)) by (unfold SCRATCH in *; lia). unfold sizeof_proghdr. rewrite u32_small by (unfold SCRATCH in *; lia).
  apply runs_bind. assert (Hl := load_segments_runs (S (Z.to_nat (e_phnum khdr))) 0 m1 Hk ltac:(lia) ltac:(lia) Hs ltac:(lia)).
  rewrite Z.mul_0_r, Z.add_0_r in Hl. eapply runs_mono; [exact Hl|]. intros [] m2 Hl2. by eapply runs_Ok.
Qed.
End boot.

(** ** An instance *)

(** A kernel with one segment of 100 bytes in the file and 200 in memory. *)
Definition demo_header : list Z :=
  le32 ELF_MAGIC ++ replicate 20 0 ++ le32 0x10000C ++ le32 52 ++ replicate 12 0 ++ le16 1 ++ replicate 6 0 ++
  le32 1 ++ le32 4096 ++ le32 0x80100000 ++ le32 0x100000 ++ le32 100 ++ le32 200 ++ le32 7 ++ le32 4096.
Definition demo_sector (n : Z) : list Z :=
  if n =? 1 then demo_header ++ replicate (512 - length demo_header) 0 else replicate 512 144.
Definition demo_drive (count a b c d : Z) : list Z := demo_sector (a + 2 ^ 8 * b + 2 ^ 16 * c + 2 ^ 24 * (d - 0xE0)).

Lemma demo_kernel_ok : kernel_ok demo_sector.
Proof.
  assert (Hn : e_phnum (khdr demo_sector) = 1) by by vm_compute. assert (Hs : kseg demo_sector 0 = Bproghdr 4096 0x100000 100 200) by by vm_compute.
  constructor; rewrite Hn.
  - by vm_compute.
  - intros i Hi. assert (i = 0) as -> by lia. rewrite Hs. by vm_compute.
  - intros i Hi. assert (i = 0) as -> by lia. rewrite Hs. by vm_compute.
  - intros i j Hi Hj. lia.
Qed.

Lemma bootmain_correct_witness :
  runs (bootmain demo_drive) (fun _ => 0) (fun r m' =>
    if e_magic (khdr demo_sector) =? ELF_MAGIC then r = Some (e_entry (khdr demo_sector)) /\
      forall i, 0 <= i < e_phnum (khdr demo_sector) -> seg_loaded demo_sector m' i
    else r = None).
Proof.
  apply (bootmain_correct demo_drive demo_sector).
  - intros n. unfold demo_sector. by destruct (n =? 1).
  - intros a b c d Ha Hb Hc Hd. unfold demo_drive. f_equal. lia.
  - intros _. apply demo_kernel_ok.
Defined.
