(* ===== verification/Mp.v ===== *)
(** Finding the processors ([mp.c], [mp.h]): the search for the BIOS tables and
    the loop over their entries.

    Addresses are physical.  [inb] is what the machine's ports return. *)

From S2P Require Import Prelude CString Bytes Kalloc.

Definition NCPU : nat := 8.

Definition MPPROC : Z := 0.
Definition MPBUS : Z := 1.
Definition MPIOAPIC : Z := 2.
Definition MPIOINTR : Z := 3.
Definition MPLINTR : Z := 4.

Definition sizeof_mp : Z := 16.
Definition sizeof_mpconf : Z := 44.
Definition sizeof_mpproc : Z := 20.
Definition sizeof_mpioapic : Z := 8.

(** [cpus] up to [ncpu], by their [apicid]; [ioapicid] and [lapic]; the bytes
    written to ports. *)
Record mpst := Mpst { apicids : list Z; ioapicid : Z; lapic : Z; outs : list (Z * Z) }.
Definition set_apicids (v : list Z) (s : mpst) : mpst := Mpst v (ioapicid s) (lapic s) (outs s).
Definition set_ioapicid (v : Z) (s : mpst) : mpst := Mpst (apicids s) v (lapic s) (outs s).
Definition set_lapic (v : Z) (s : mpst) : mpst := Mpst (apicids s) (ioapicid s) v (outs s).
Definition mp_outb (port v : Z) : M mpst () := modify (fun s => Mpst (apicids s) (ioapicid s) (lapic s) (outs s ++ [(port, v)])).

Section mp.
Context (m : mem) (inb : Z -> Z).

Definition sum (a len : Z) : Z := u8 (foldr Z.add 0 (mbytes m a (Z.to_nat len))).

(** [memcmp(p, "_MP_", 4) == 0 && sum(p, sizeof(struct mp)) == 0] *)
Definition is_mp (p : Z) : bool := bool_decide (mbytes m p 4 = [95; 77; 80; 95]) && (sum p sizeof_mp =? 0).
Fixpoint mpsearch1_loop (fuel : nat) (p e : Z) : option Z :=
  match fuel with
  | O => None
  | S fuel => if p <? e then if is_mp p then Some p else mpsearch1_loop fuel (p + sizeof_mp) e else None
  end.
Definition mpsearch1 (a len : Z) : option Z := mpsearch1_loop (S (Z.to_nat len)) a (a + len).

Definition mpsearch : option Z :=
  let p := Z.shiftl (Z.lor (Z.shiftl (m 0x40F) 8) (m 0x40E)) 4 in
  let first :=
    if negb (p =? 0) then mpsearch1 p 1024
    else let p := u32 (Z.lor (Z.shiftl (m 0x414) 8) (m 0x413) * 1024) in mpsearch1 (p - 1024) 1024 in
  match first with
  | Some mp => Some mp
  | None => mpsearch1 0xF0000 0x10000
  end.

Definition load16 (a : Z) : Z := m a + m (a + 1) * 2 ^ 8.
Definition conf_length (conf : Z) : Z := load16 (conf + 4).
Definition conf_version (conf : Z) : Z := m (conf + 6).

(** The structure and the configuration table. *)
Definition mpconfig : option (Z * Z) :=
  match mpsearch with
  | None => None
  | Some mp =>
      let conf := load32 m (mp + 4) in
      if conf =? 0 then None else
      if negb (bool_decide (mbytes m conf 4 = [80; 67; 77; 80])) then None else
      if negb (conf_version conf =? 1) && negb (conf_version conf =? 4) then None else
      if negb (sum conf (conf_length conf) =? 0) then None else
      Some (mp, conf)
  end.

(** The loop over the entries; the result is [ismp].  In the default case the
    [break] leaves the [switch], not the loop. *)
Fixpoint mpinit_loop (fuel : nat) (ismp : bool) (p e : Z) : M mpst bool :=
  match fuel with
  | O => spin
  | S fuel =>
      if p <? e then
        if m p =? MPPROC then
          l ← gets apicids;
          when (Z.of_nat (length l) <? Z.of_nat NCPU) (modify (set_apicids (l ++ [m (p + 1)])));;
          mpinit_loop fuel ismp (p + sizeof_mpproc) e
        else if m p =? MPIOAPIC then
          modify (set_ioapicid (m (p + 1)));;
          mpinit_loop fuel ismp (p + sizeof_mpioapic) e
        else if (m p =? MPBUS) || (m p =? MPIOINTR) || (m p =? MPLINTR) then
          mpinit_loop fuel ismp (p + 8) e
        else mpinit_loop fuel false p e
      else ret ismp
  end.
Definition mpinit (fuel : nat) : M mpst () :=
  match mpconfig with
  | None => panic "Expect to run on an SMP"
  | Some (mp, conf) =>
      modify (set_lapic (load32 m (conf + 36)));;
      ismp ← mpinit_loop fuel true (conf + sizeof_mpconf) (conf + conf_length conf);
      if negb ismp then panic "Didn't find a suitable machine" else
      when (negb (m (mp + 12) =? 0)) (
        mp_outb 0x22 0x70;;
        mp_outb 0x23 (u8 (Z.lor (inb 0x23) 1)))
  end.
End mp.

(** ** The search *)

(** [mpsearch1] finds the first structure of the area. *)
Lemma mpsearch1_first m a len : 0 <= len ->
  mpsearch1 m a len = head (filter (is_mp m) ((fun k => a + 16 * k) <$> seqZ 0 ((len + 15) / 16))).
Proof.
  intros Hlen. unfold mpsearch1. assert (Hgen : forall fuel k, 0 <= k -> (len + 15) / 16 - k < Z.of_nat fuel ->
    mpsearch1_loop m fuel (a + 16 * k) (a + len) = head (filter (is_mp m) ((fun k => a + 16 * k) <$> seqZ k ((len + 15) / 16 - k)))).
  { pose proof (Z.div_mod (len + 15) 16 ltac:(done)) as Hdm. pose proof (Z.mod_pos_bound (len + 15) 16 ltac:(done)) as Hmb.
    set (n := (len + 15) / 16) in *. induction fuel as [|fuel IH]; intros k Hk Hf; cbn [mpsearch1_loop]; [by rewrite seqZ_nil by lia|].
    destruct (Z.ltb_spec (a + 16 * k) (a + len)) as [Hlt|Hge]; [|by rewrite seqZ_nil by lia].
    rewrite seqZ_cons by lia. rewrite fmap_cons, filter_cons. destruct (is_mp m (a + 16 * k)) eqn:Hmp; [by rewrite decide_True|]. rewrite decide_False by (by intros []).
    unfold sizeof_mp. replace (a + 16 * k + 16) with (a + 16 * Z.succ k) by lia. rewrite IH by lia. do 4 f_equal. lia. }
  specialize (Hgen (S (Z.to_nat len)) 0 ltac:(done)). rewrite Z.mul_0_r, Z.add_0_r, Z.sub_0_r in Hgen. apply Hgen.
  pose proof (Z.div_mod (len + 15) 16 ltac:(done)). pose proof (Z.mod_pos_bound (len + 15) 16 ltac:(done)). lia.
Qed.

(** ** The entries of the table *)

Inductive mpentry : Type :=
| EProc (apicid : Z) (rest : list Z)
| EIoapic (apicno : Z) (rest : list Z)
| EOther (type : Z) (rest : list Z).

Definition encode (e : mpentry) : list Z :=
  match e with
  | EProc id rest => MPPROC :: id :: rest
  | EIoapic id rest => MPIOAPIC :: id :: rest
  | EOther t rest => t :: rest
  end.
Definition entry_ok (e : mpentry) : Prop :=
  match e with
  | EProc _ rest => length rest = 18%nat
  | EIoapic _ rest => length rest = 6%nat
  | EOther t rest => t ∈ [MPBUS; MPIOINTR; MPLINTR] /\ length rest = 7%nat
  end.

Definition procs (es : list mpentry) : list Z := omap (fun e => match e with EProc id _ => Some id | _ => None end) es.
Definition ioapics (es : list mpentry) : list Z := omap (fun e => match e with EIoapic id _ => Some id | _ => None end) es.

(** The state after the entries, one after the other. *)
Definition add_entry (s : mpst) (e : mpentry) : mpst :=
  match e with
  | EProc id _ => set_apicids (take NCPU (apicids s ++ [id])) s
  | EIoapic id _ => set_ioapicid id s
  | EOther _ _ => s
  end.

Lemma mbytes_cons m a b l n : mbytes m a n = b :: l -> m a = b /\ mbytes m (a + 1) (n - 1) = l.
Proof.
  destruct n as [|n]; [done|]. unfold mbytes. cbn [seq]. rewrite fmap_cons. intros [= <- <-]. split; [f_equal; lia|].
  replace (S n - 1)%nat with n by lia. rewrite <- fmap_S_seq, <- list_fmap_compose. apply list_fmap_ext. intros i k _. unfold compose. f_equal. lia.
Qed.

Lemma mbytes_app m a l1 l2 : mbytes m a (length (l1 ++ l2)) = l1 ++ l2 ->
  mbytes m a (length l1) = l1 /\ mbytes m (a + Z.of_nat (length l1)) (length l2) = l2.
Proof.
  revert a. induction l1 as [|b l1 IH]; intros a H; [by rewrite Z.add_0_r|]. cbn [app length] in H. apply mbytes_cons in H as [Hb H].
  replace (S (length (l1 ++ l2)) - 1)%nat with (length (l1 ++ l2)) in H by lia. destruct (IH _ H) as [H1 H2]. split.
  - cbn [length]. unfold mbytes in *. cbn [seq]. rewrite fmap_cons. f_equal; [rewrite <- Hb; f_equal; lia|]. rewrite <- H1 at 2. rewrite <- fmap_S_seq, <- list_fmap_compose.
    apply list_fmap_ext. intros i k _. unfold compose. f_equal. lia.
  - cbn [length]. rewrite <- H2 at 2. f_equal. lia.
Qed.

Lemma take_short {A} (n : nat) (l : list A) x : (length l <= n)%nat -> take n (l ++ [x]) = if decide (length l < n)%nat then l ++ [x] else l.
Proof.
  intros Hl. destruct (decide (length l < n)%nat) as [Hlt|Hge]; [apply take_ge; rewrite length_app; cbn; lia|].
  rewrite take_app_le by lia. apply take_ge. lia.
Qed.

Lemma mpinit_loop_runs m es : forall fuel p s, Forall entry_ok es -> (length es < fuel)%nat -> (length (apicids s) <= NCPU)%nat ->
  mbytes m p (length (concat (encode <$> es))) = concat (encode <$> es) ->
  runs (mpinit_loop m fuel true p (p + Z.of_nat (length (concat (encode <$> es))))) s (fun r s' => r = true /\ s' = foldl add_entry s es).
Proof.
  induction es as [|e es IH]; intros fuel p s Hok Hf Hn Hm; (destruct fuel as [|fuel]; [cbn in Hf; lia|]); cbn [mpinit_loop].
  { cbn. rewrite Z.add_0_r, Z.ltb_irrefl. by eapply runs_Ok. }
  apply Forall_cons in Hok as [He Hok]. cbn [fmap list_fmap concat length foldl] in *. apply mbytes_app in Hm as [Hm1 Hm2]. rewrite length_app, Nat2Z.inj_add, Z.add_assoc.
  assert (Hpos : (0 < length (encode e))%nat) by (destruct e; cbn; lia). rewrite (proj2 (Z.ltb_lt p _)) by lia.
  assert (Hnext : forall s' d, (length (apicids s') <= NCPU)%nat -> Z.of_nat (length (encode e)) = d -> s' = add_entry s e ->
    runs (mpinit_loop m fuel true (p + d) (p + Z.of_nat (length (encode e)) + Z.of_nat (length (concat (encode <$> es))))) s'
      (fun r t => r = true /\ t = foldl add_entry (add_entry s e) es)).
  { intros s' d Hl <- ->. apply IH; [done|lia|done|done]. }
  destruct e as [id rest|id rest|t rest]; cbn [encode entry_ok] in *.
  - apply mbytes_cons in Hm1 as [-> Hm1]. apply mbytes_cons in Hm1 as [Hid _]. cbn [Z.eqb]. apply runs_bind. eapply runs_Ok; [done|].
    apply runs_bind. rewrite Hid. unfold NCPU in *. destruct (Z.ltb_spec (Z.of_nat (length (apicids s))) (Z.of_nat 8)); cbn [when]; (eapply runs_Ok; [done|]).
    + apply Hnext; [cbn; rewrite length_app; cbn; lia|cbn; rewrite He; done|]. cbn. rewrite take_short by done. by rewrite decide_True by lia.
    + apply Hnext; [done|cbn; rewrite He; done|]. cbn. rewrite take_short by done. rewrite decide_False by lia. by destruct s.
  - apply mbytes_cons in Hm1 as [-> Hm1]. apply mbytes_cons in Hm1 as [Hid _]. change (MPIOAPIC =? MPPROC) with false. rewrite Z.eqb_refl. cbv iota.
    apply runs_bind. eapply runs_Ok; [done|]. rewrite Hid. apply Hnext; [done|cbn; rewrite He; done|done].
  - destruct He as [Ht He]. apply mbytes_cons in Hm1 as [-> _].
    assert (Htt : (t =? MPPROC) = false /\ (t =? MPIOAPIC) = false /\ (t =? MPBUS) || (t =? MPIOINTR) || (t =? MPLINTR) = true).
    { repeat (apply elem_of_cons in Ht as [->|Ht]; [done|]). by apply elem_of_nil in Ht. }
    destruct Htt as (-> & -> & ->). apply Hnext; [done|cbn; rewrite He; done|done].
Qed.

Lemma fold_entries es : forall s, (length (apicids s) <= NCPU)%nat -> foldl add_entry s es =
  Mpst (take NCPU (apicids s ++ procs es)) (default (ioapicid s) (last (ioapics es))) (lapic s) (outs s).
Proof.
  induction es as [|e es IH]; intros s Hn; cbn [foldl].
  { cbn [procs ioapics omap list_omap last]. rewrite app_nil_r, take_ge by done. by destruct s. }
  rewrite IH; [|destruct e; [cbn [add_entry set_apicids apicids]; rewrite length_take; lia|done|done]].
  destruct e as [id rest|id rest|t rest]; cbn [add_entry set_apicids set_ioapicid apicids ioapicid lapic outs]; [f_equal| |done].
  - change (procs (EProc id rest :: es)) with (id :: procs es). rewrite take_short by done.
    replace (apicids s ++ id :: procs es) with ((apicids s ++ [id]) ++ procs es) by (by rewrite <- app_assoc).
    destruct (decide (length (apicids s) < NCPU)%nat) as [|Hge]; [done|].
    assert (He : forall l : list Z, take NCPU (apicids s ++ l) = take NCPU (apicids s)) by (intros l; apply take_app_le; lia).
    by rewrite <- app_assoc, !He.
  - change (ioapics (EIoapic id rest :: es)) with (id :: ioapics es). change (procs (EIoapic id rest :: es)) with (procs es). f_equal.
    rewrite last_cons. by destruct (last (ioapics es)).
Qed.

(** The table at [conf] holds the entries [es]. *)
Definition table_at (m : mem) (conf : Z) (es : list mpentry) : Prop :=
  mbytes m (conf + sizeof_mpconf) (length (concat (encode <$> es))) = concat (encode <$> es) /\
  conf_length m conf = sizeof_mpconf + Z.of_nat (length (concat (encode <$> es))).

(** C25. [mpinit] reads the configuration table back: when the search finds a
    table with well-formed entries, the processors are the first [NCPU]
    processor entries in the order of the table, the I/O controller is that of
    the last such entry, and the mode register is written if the machine has
    one; the loop ends after one turn per entry. *)
Theorem mpinit_correct m inb mp conf es fuel :
  mpconfig m = Some (mp, conf) -> table_at m conf es -> Forall entry_ok es -> (length es < fuel)%nat ->
  runs (mpinit m inb fuel) (Mpst [] 0 0 []) (fun _ s =>
    s = Mpst (take NCPU (procs es)) (default 0 (last (ioapics es))) (load32 m (conf + 36))
      (if m (mp + 12) =? 0 then [] else [(0x22, 0x70); (0x23, u8 (Z.lor (inb 0x23) 1))])).
Proof.
  intros Hc [Hm Hl] Hok Hf. unfold mpinit. rewrite Hc, Hl, Z.add_assoc. apply runs_bind. eapply runs_Ok; [done|].
  apply runs_bind. eapply runs_mono; [apply (mpinit_loop_runs m es fuel _ _ Hok Hf); [cbn; lia|exact Hm]|]. intros r s [-> ->].
  rewrite fold_entries by (cbn; lia). cbn [negb apicids ioapicid lapic outs set_lapic app]. destruct (m (mp + 12) =? 0); cbn [negb when]; by eapply runs_Ok.
Qed.

(** A table with an entry of another type makes the loop run forever: the panic
    behind it is not reached, whatever the number of turns. *)
Lemma mpinit_unknown_spins m p e s : p < e -> m p ∉ [MPPROC; MPBUS; MPIOAPIC; MPIOINTR; MPLINTR] ->
  forall fuel b, mpinit_loop m fuel b p e s = Spin.
Proof.
  intros Hlt Ht. repeat rewrite not_elem_of_cons in Ht. destruct Ht as (H0 & H1 & H2 & H3 & H4 & _).
  induction fuel as [|fuel IH]; intros b; [done|]. cbn [mpinit_loop]. rewrite (proj2 (Z.ltb_lt _ _) Hlt).
  rewrite !(proj2 (Z.eqb_neq (m p) _)) by done. cbn [orb]. apply IH.
Qed.

(** ** An instance *)

(** Two processors and an I/O controller, the structure at 0xF0000 and the table
    behind it. *)
Definition demo_entries : list mpentry := [EProc 0 (replicate 18 0); EProc 1 (replicate 18 0); EOther MPBUS (replicate 7 0); EIoapic 2 (replicate 6 0)].
Definition demo_mp : list Z := [95; 77; 80; 95] ++ le32 0xF0010 ++ [1; 4; 1; 0; 128; 0; 0; 0].
Definition demo_conf : list Z :=
  [80; 67; 77; 80] ++ le16 100 ++ [4; 128] ++ replicate 20 0 ++ le32 0 ++ le16 0 ++ le16 4 ++ le32 0xFEE00000 ++ replicate 4 0.
Definition demo_bios (a : Z) : Z := byte_at (demo_mp ++ demo_conf ++ concat (encode <$> demo_entries)) (Z.to_nat (a - 0xF0000)).

Lemma demo_config : mpconfig demo_bios = Some (0xF0000, 0xF0010).
Proof. by vm_compute. Qed.

Lemma mpinit_correct_witness : runs (mpinit demo_bios (fun _ => 0) 100) (Mpst [] 0 0 []) (fun _ s =>
  s = Mpst [0; 1] 2 0xFEE00000 [(0x22, 0x70); (0x23, 1)]).
Proof.
  apply (mpinit_correct demo_bios (fun _ => 0) 0xF0000 0xF0010 demo_entries 100 demo_config).
  - split; by vm_compute.
  - repeat constructor.
  - cbn. lia.
Defined.
