(* ===== verification/Ulib.v ===== *)
(** The C library of the user programs ([ulib.c], [printf.c]).

    A C string is the list of its bytes before the NUL.  [memmove] and
    [strcpy] work on byte-addressed memory. *)

From S2P Require Import Prelude.

(** ** Strings *)

Fixpoint strcmp (p q : list Z) : Z :=
  match p, q with
  | x :: p', y :: q' => if x =? y then strcmp p' q' else u8 x - u8 y
  | x :: _, [] => u8 x - 0
  | [], y :: _ => 0 - u8 y
  | [], [] => 0
  end.

Definition strlen (s : list Z) : Z := Z.of_nat (length s).

(** The index of the byte found. *)
Fixpoint strchr (s : list Z) (c : Z) : option nat :=
  match s with
  | [] => None
  | x :: s' => if x =? c then Some O else S <$> strchr s' c
  end.

(** [input] is what the standard input has; the bytes stored before the NUL,
    and the input left. *)
Fixpoint gets_loop (fuel : nat) (input : list Z) : list Z * list Z :=
  match fuel, input with
  | S fuel, c :: input =>
      if (c =? 10) || (c =? 13) then ([c], input)
      else let '(l, rest) := gets_loop fuel input in (c :: l, rest)
  | _, _ => ([], input)
  end.
Definition gets_ (max : Z) (input : list Z) : list Z * list Z := gets_loop (Z.to_nat (max - 1)) input.

Definition isdigit (c : Z) : bool := (48 <=? c) && (c <=? 57).
Fixpoint atoi_loop (n : Z) (s : list Z) : Z :=
  match s with
  | c :: s' => if isdigit c then atoi_loop (s32 (n * 10 + c - 48)) s' else n
  | [] => n
  end.
Definition atoi (s : list Z) : Z := atoi_loop 0 s.

(** ** Memory *)

Definition umem : Type := Z -> Z.
Definition ustore (m : umem) (a v : Z) : umem := fun x => if x =? a then v else m x.

(** Until the NUL has been copied; [fuel] bounds the length. *)
Fixpoint strcpy (fuel : nat) (m : umem) (s t : Z) : option umem :=
  match fuel with
  | O => None
  | S fuel =>
      let c := m t in
      let m := ustore m s c in
      if c =? 0 then Some m else strcpy fuel m (s + 1) (t + 1)
  end.

Fixpoint memmove_loop (n : nat) (m : umem) (dst src : Z) : umem :=
  match n with
  | O => m
  | S n => memmove_loop n (ustore m dst (m src)) (dst + 1) (src + 1)
  end.
Definition umemmove (m : umem) (dst src n : Z) : umem := memmove_loop (Z.to_nat n) m dst src.

(** ** printf *)

Definition PERCENT : Z := 37.
Definition MINUS : Z := 45.

(** ["0123456789ABCDEF"[d]]. *)
Definition digit (d : Z) : Z := if d <? 10 then 48 + d else 55 + d.

(** The [do]-loop: the digits stored in [buf], in order. *)
Fixpoint digits_loop (fuel : nat) (x base : Z) : list Z :=
  match fuel with
  | O => []
  | S fuel =>
      let c := digit (x mod base) in
      let x := x / base in
      if x =? 0 then [c] else c :: digits_loop fuel x base
  end.

(** What [printint] puts in [buf], and what it prints. *)
Definition printint_buf (xx base : Z) (sgn : bool) : list Z :=
  let neg := sgn && (xx <? 0) in
  let x := if neg then u32 (- xx) else u32 xx in
  digits_loop 33 x base ++ (if neg then [MINUS] else []).
Definition printint (xx base : Z) (sgn : bool) : list Z := reverse (printint_buf xx base sgn).

Section printf.
(** The string at an address of the program. *)
Context (str : Z -> list Z).

Definition null_string : list Z := [40; 110; 117; 108; 108; 41].

(** [ap] are the arguments, as words; [None] if the format asks for more. *)
Fixpoint printf_loop (pct : bool) (fmt ap : list Z) : option (list Z) :=
  match fmt with
  | [] => Some []
  | c :: fmt =>
      if negb pct then
        if c =? PERCENT then printf_loop true fmt ap else cons c <$> printf_loop false fmt ap
      else if (c =? 100) || (c =? 117) then                (* 'd' 'u' *)
        a ← head ap; app (printint (s32 a) 10 true) <$> printf_loop false fmt (tail ap)
      else if (c =? 120) || (c =? 112) then                (* 'x' 'p' *)
        a ← head ap; app (printint (s32 a) 16 false) <$> printf_loop false fmt (tail ap)
      else if c =? 115 then                                (* 's' *)
        a ← head ap; app (if a =? 0 then null_string else str a) <$> printf_loop false fmt (tail ap)
      else if c =? 99 then                                 (* 'c' *)
        a ← head ap; cons (u8 a) <$> printf_loop false fmt (tail ap)
      else if c =? PERCENT then cons c <$> printf_loop false fmt ap
      else (fun o => PERCENT :: c :: o) <$> printf_loop false fmt ap
  end%stdpp.
Definition printf (fmt ap : list Z) : option (list Z) := printf_loop false fmt ap.
End printf.

(** ** Numbers *)

Lemma digits_bound base fuel : forall x k,
  2 <= base -> 0 <= x < base ^ Z.of_nat (S k) -> (length (digits_loop fuel x base) <= S k)%nat.
Proof.
  induction fuel as [|fuel IH]; intros x k Hb Hx; cbn [digits_loop length]; [lia|]. cbn zeta.
  destruct (Z.eqb_spec (x / base) 0) as [|Hne]; [cbn; lia|]. destruct k as [|k].
  { exfalso. apply Hne. rewrite Z.div_small; [done|]. change (Z.of_nat 1) with 1 in Hx. rewrite Z.pow_1_r in Hx. lia. }
  cbn [length]. apply le_n_S, IH; [done|]. split; [apply Z.div_pos; lia|].
  apply Z.div_lt_upper_bound; [lia|]. rewrite <- Z.pow_succ_r by lia. rewrite <- Nat2Z.inj_succ. lia.
Qed.

Lemma atoi_app n l1 l2 : forallb isdigit l1 = true -> atoi_loop n (l1 ++ l2) = atoi_loop (atoi_loop n l1) l2.
Proof.
  revert n. induction l1 as [|c l1 IH]; intros n Hd; [done|]. cbn in *. apply andb_true_iff in Hd as [Hc Hd].
  rewrite Hc. by apply IH.
Qed.

Lemma digit_10 d : 0 <= d < 10 -> isdigit (digit d) = true /\ digit d = 48 + d.
Proof.
  intros Hd. unfold digit, isdigit. rewrite (proj2 (Z.ltb_lt d 10)) by lia. split; [|done].
  apply andb_true_iff. split; apply Z.leb_le; lia.
Qed.

Lemma digits_digits fuel : forall x, 0 <= x -> forallb isdigit (reverse (digits_loop fuel x 10)) = true.
Proof.
  induction fuel as [|fuel IH]; intros x Hx; [done|]. cbn [digits_loop]. cbn zeta.
  pose proof (Z.mod_pos_bound x 10 ltac:(lia)). destruct (digit_10 (x mod 10) ltac:(lia)) as [Hd _].
  destruct (x / 10 =? 0); [cbn; by rewrite Hd|].
  rewrite reverse_cons, forallb_app, IH by (apply Z.div_pos; lia). cbn. by rewrite Hd.
Qed.

Lemma atoi_digits fuel : forall x, 0 <= x <= INT_MAX -> x < 10 ^ Z.of_nat fuel ->
  atoi (reverse (digits_loop fuel x 10)) = x.
Proof.
  unfold atoi. induction fuel as [|fuel IH]; intros x Hx Hf; [change (10 ^ Z.of_nat 0) with 1 in Hf; cbn; lia|].
  cbn [digits_loop]. cbn zeta. pose proof (Z.mod_pos_bound x 10 ltac:(lia)) as Hm.
  destruct (digit_10 (x mod 10) ltac:(lia)) as [Hd He]. pose proof (Z.div_mod x 10 ltac:(lia)) as Hdm.
  assert (Hq : 0 <= x / 10) by (apply Z.div_pos; lia). unfold INT_MAX in *.
  assert (Hlast : forall n, n = x / 10 -> atoi_loop n [digit (x mod 10)] = x).
  { intros n ->. cbn. rewrite Hd, He, s32_small; lia. }
  destruct (Z.eqb_spec (x / 10) 0) as [Hz|Hnz]; [by apply Hlast|].
  rewrite reverse_cons, atoi_app by by apply digits_digits. apply Hlast. apply IH; [lia|].
  apply Z.div_lt_upper_bound; [lia|]. rewrite <- Z.pow_succ_r, <- Nat2Z.inj_succ by lia. lia.
Qed.

(** [atoi] reads back what [printf] prints with [%d], for every value an
    [int] can have that is not negative, and [printint] never writes past its
    buffer of 16 bytes, for every [int] and both bases. *)
Theorem printf_atoi_roundtrip str x :
  - 2 ^ 31 <= x < 2 ^ 31 ->
  (0 <= x -> exists out, printf str [PERCENT; 100] [u32 x] = Some out /\ atoi out = x) /\
  (length (printint_buf x 10 true) <= 16)%nat /\ (length (printint_buf x 16 false) <= 16)%nat.
Proof.
  intros Hx. split; [|split].
  - intros H0. assert (Hs : s32 (u32 x) = x) by (rewrite u32_small, s32_small; lia).
    exists (printint x 10 true). split; [cbn; by rewrite Hs, app_nil_r|].
    unfold printint, printint_buf. rewrite (proj2 (Z.ltb_ge x 0)) by lia. cbn [andb]. rewrite app_nil_r, u32_small by lia.
    apply atoi_digits; [unfold INT_MAX; lia|]. transitivity (2 ^ 31); [lia|done].
  - unfold printint_buf. rewrite length_app. pose proof (u32_range x). pose proof (u32_range (- x)).
    transitivity (11 + 1)%nat; [|lia]. apply Nat.add_le_mono; [|destruct (_ && _); cbn; lia].
    apply digits_bound; [lia|]. change (10 ^ Z.of_nat 11) with 100000000000. destruct (_ && _); lia.
  - unfold printint_buf. cbn [andb]. rewrite app_nil_r. pose proof (u32_range x).
    transitivity 8%nat; [|lia]. apply digits_bound; [lia|]. change (16 ^ Z.of_nat 8) with (2 ^ 32). lia.
Qed.

Lemma printf_atoi_roundtrip_witness :
  exists out, printf (fun _ => []) [PERCENT; 100] [u32 2147483647] = Some out /\ atoi out = 2147483647.
Proof. apply (printf_atoi_roundtrip (fun _ => []) 2147483647); lia. Defined.

(** The user's [memmove] copies upwards only: moving a block up onto itself
    spoils it. *)
Lemma umemmove_overlap : umemmove (fun a => a) 1 0 2 2 = 0.
Proof. reflexivity. Qed.
