(* ===== verification/Umalloc.v ===== *)
(** The allocator of user programs ([umalloc.c]): a circular list of free
    blocks, in order of their addresses, that starts at the static [base].

    An address is a byte address; a header is two words, [s.ptr] at its address
    and [s.size], in units of headers, four bytes further. *)

From S2P Require Import Prelude Layout.

Definition sizeof_header : Z := 8.

Section umalloc.
(** Where the linker puts [base], and whether the kernel has the pages to make
    a process of [sz] bytes grow by [n]. *)
Context (base : Z) (grow : Z -> Z -> bool).

(** The variable [freep], the memory of the process and its size. *)
Record ust := Ust { freep : Z; umem : Z -> Z; usz : Z }.
Definition set_freep (v : Z) (s : ust) : ust := Ust v (umem s) (usz s).
Definition set_umem (v : Z -> Z) (s : ust) : ust := Ust (freep s) v (usz s).
Definition set_usz (v : Z) (s : ust) : ust := Ust (freep s) (umem s) v.

Definition U (A : Type) : Type := M ust A.

(** A word of memory; the process has no page above its size. *)
Definition mapped_word (a : Z) (s : ust) : bool := (0 <=? a) && (a + 4 <=? usz s).
Definition load (a : Z) : U Z := fun s => if mapped_word a s then Ok (umem s a, s) else Fault "page fault".
Definition store (a v : Z) : U () := fun s =>
  if mapped_word a s then Ok ((), set_umem (fun x => if decide (x = a) then v else umem s x) s) else Fault "page fault".
Definition ptr_ (p : Z) : U Z := load p.
Definition size_ (p : Z) : U Z := load (p + 4).
Definition set_ptr (p v : Z) : U () := store p v.
Definition set_size (p v : Z) : U () := store (p + 4) v.
(** [p + n] on headers. *)
Definition hadd (p n : Z) : Z := u32 (p + n * sizeof_header).

(** [sbrk], with [sys_sbrk] and [growproc]; -1 is the error. *)
Definition sbrk (n : Z) : U Z :=
  sz ← gets usz;
  if 0 <? n then
    if negb (KERNBASE <=? u32 (sz + n)) && grow sz n then modify (set_usz (u32 (sz + n)));; ret sz else ret (u32 (-1))
  else if n <? 0 then
    let newsz := if sz <=? u32 (sz + n) then sz else u32 (sz + n) in
    if newsz =? 0 then ret (u32 (-1)) else modify (set_usz newsz);; ret sz
  else ret sz.

(** More turns than the list has elements, however often it is walked. *)
Definition turns (s : ust) : nat := Z.to_nat (2 * (usz s / sizeof_header) + 4).

(** The loop of [free]: the element after which [bp] belongs. *)
Fixpoint free_find (fuel : nat) (p bp : Z) : U Z :=
  match fuel with
  | O => spin
  | S fuel =>
      nx ← ptr_ p;
      if (p <? bp) && (bp <? nx) then ret p else
      if (nx <=? p) && ((p <? bp) || (bp <? nx)) then ret p else
      free_find fuel nx bp
  end.

(** Linking [bp] in behind [p], together with its neighbours. *)
Definition join_next (p bp : Z) : U () :=
  nx ← ptr_ p;
  bsz ← size_ bp;
  if hadd bp bsz =? nx then
    nsz ← size_ nx;
    set_size bp (u32 (bsz + nsz));;
    nn ← ptr_ nx;
    set_ptr bp nn
  else set_ptr bp nx.
Definition join_prev (p bp : Z) : U () :=
  psz ← size_ p;
  if hadd p psz =? bp then
    bsz ← size_ bp;
    set_size p (u32 (psz + bsz));;
    bn ← ptr_ bp;
    set_ptr p bn
  else set_ptr p bp.

Definition free (ap : Z) : U () :=
  let bp := u32 (ap - sizeof_header) in
  n ← gets turns;
  fp ← gets freep;
  p ← free_find n fp bp;
  join_next p bp;;
  join_prev p bp;;
  modify (set_freep p).

Definition morecore (nu : Z) : U Z :=
  let nu := if nu <? 4096 then 4096 else nu in
  p ← sbrk (s32 (nu * sizeof_header));
  if p =? u32 (-1) then ret 0 else
  set_size p nu;;
  free (hadd p 1);;
  gets freep.

(** A block that is large enough: all of it, or its end. *)
Definition malloc_take (nunits prevp p sz : Z) : U Z :=
  p ← (if sz =? nunits then
         nx ← ptr_ p;
         set_ptr prevp nx;;
         ret p
       else
         set_size p (u32 (sz - nunits));;
         sz ← size_ p;
         let p := hadd p sz in
         set_size p nunits;;
         ret p);
  modify (set_freep prevp);;
  ret (hadd p 1).
Fixpoint malloc_loop (fuel : nat) (nunits prevp p : Z) : U Z :=
  match fuel with
  | O => spin
  | S fuel =>
      sz ← size_ p;
      if nunits <=? sz then malloc_take nunits prevp p sz else
      fp ← gets freep;
      if p =? fp then
        p ← morecore nunits;
        if p =? 0 then ret 0 else
        nx ← ptr_ p;
        malloc_loop fuel nunits p nx
      else
        nx ← ptr_ p;
        malloc_loop fuel nunits p nx
  end.
Definition units_for (nbytes : Z) : Z := u32 (u32 (nbytes + sizeof_header - 1) / sizeof_header + 1).
Definition malloc (nbytes : Z) : U Z :=
  let nunits := units_for nbytes in
  n ← gets turns;
  fp ← gets freep;
  prevp ← (if fp =? 0 then
             set_ptr base base;;
             modify (set_freep base);;
             set_size base 0;;
             ret base
           else ret fp);
  p ← ptr_ prevp;
  malloc_loop n nunits prevp p.
End umalloc.
