(* ===== verification/UmallocThms.v ===== *)
(** Correctness of [malloc] and [free]: the blocks handed out are disjoint and
    large enough, the rest of memory is on the free list, in order of address
    and with neighbours joined. *)

From S2P Require Import Prelude Layout Umalloc.

(** ** Linked nodes: their addresses and sizes *)

Abbreviation node := (Z * Z)%type.

(** Each node has its size and, but for the last, points to the next. *)
Fixpoint chain (m : Z -> Z) (l : list node) : Prop :=
  match l with
  | [] => True
  | (c, u) :: l => m (c + 4) = u /\ match l with [] => True | (c', _) :: _ => m c = c' end /\ chain m l
  end.

(** The words [chain] speaks of. *)
Fixpoint touched (l : list node) (x : Z) : Prop :=
  match l with
  | [] => False
  | (c, _) :: l => x = c + 4 \/ (x = c /\ l <> []) \/ touched l x
  end.

Lemma chain_agree m m' l : chain m l -> (forall x, touched l x -> m' x = m x) -> chain m' l.
Proof.
  induction l as [|[c u] l IH]; [done|]. cbn [chain touched]. intros (H1 & H2 & H3) Hm. split; [rewrite Hm; auto|]. split; [|by eauto].
  destruct l as [|[c' u'] l]; [done|]. rewrite Hm; [done|]. right; left. done.
Qed.

Lemma chain_app m l1 x l2 : chain m (l1 ++ x :: l2) <-> chain m (l1 ++ [x]) /\ chain m (x :: l2).
Proof.
  induction l1 as [|[c u] l1 IH]; cbn [app].
  - destruct x as [c u]. cbn. tauto.
  - cbn [chain]. rewrite IH. destruct l1 as [|[c' u'] l1], x as [d v]; cbn; tauto.
Qed.

(** [y] is followed by [z]. *)
Definition adj {A} (l : list A) (y z : A) : Prop := exists a b, l = a ++ y :: z :: b.

Lemma adj_cons {A} (l : list A) x y z : adj (x :: l) y z <-> adj l y z \/ (x = y /\ head l = Some z).
Proof.
  split.
  - intros ([|a1 a] & b & Hl); injection Hl as -> ->; [by right|left; by exists a, b].
  - intros [(a & b & ->)|[-> Hz]]; [by exists (x :: a), b|]. destruct l as [|z' l]; [done|]. injection Hz as ->. by exists [], l.
Qed.

Lemma adj_app {A} (l1 l2 : list A) y z :
  adj (l1 ++ l2) y z <-> adj l1 y z \/ adj l2 y z \/ (last l1 = Some y /\ head l2 = Some z).
Proof.
  induction l1 as [|x l1 IH]; cbn [app].
  - split; [by right; left|]. intros [(a & b & Hl)|[H|[H _]]]; [by destruct a|done|done].
  - rewrite !adj_cons, IH. destruct l1 as [|x' l1]; cbn [app head].
    + split; [|intros [[(a & b & Hl)|[_ ?]]|[?|[[= ->] ?]]]; [by destruct a|done|tauto|tauto]].
      intros [[(a & b & Hl)|[?|[? _]]]|[-> ?]]; [by destruct a|tauto|done|tauto].
    + change (last (x :: x' :: l1)) with (last (x' :: l1)). tauto.
Qed.

Lemma last_mid {A} (l1 : list A) x l2 : last (l1 ++ x :: l2) = last (x :: l2).
Proof. rewrite last_app. by destruct (last (x :: l2)) as [y|] eqn:E; [|apply last_None in E]. Qed.

(** A turn around the ring that starts and ends at [x]: what follows what. *)
Lemma adj_rot {A} (h : A) t r1 x r2 y z :
  h :: t = r1 ++ x :: r2 ->
  adj (x :: r2 ++ r1 ++ [x]) y z <-> adj (h :: t) y z \/ (last (h :: t) = Some y /\ z = h).
Proof.
  intros HN. change (x :: r2 ++ r1 ++ [x]) with ((x :: r2) ++ r1 ++ [x]). rewrite adj_app.
  assert (Hh : head (r1 ++ [x]) = Some h) by (destruct r1; by injection HN as -> ?).
  rewrite Hh, HN, last_mid, adj_app, adj_app. cbn [head].
  assert (Hn : forall u v : A, adj [u] v z <-> False) by (intros u v; split; [intros (a & b & Hl); destruct a as [|? []]|]; done).
  rewrite Hn. split; [|intuition congruence]. intros [H|[[H|[[]|[H [= ->]]]]|[H [= ->]]]]; intuition congruence.
Qed.

Lemma chain_rot m (h : node) t r1 x r2 :
  h :: t = r1 ++ x :: r2 -> chain m (h :: t ++ [h]) -> chain m (x :: r2 ++ r1 ++ [x]).
Proof.
  intros HN Hc. change (h :: t ++ [h]) with ((h :: t) ++ [h]) in Hc. rewrite HN, <- app_assoc in Hc.
  change ((x :: r2) ++ [h]) with (x :: r2 ++ [h]) in Hc. apply chain_app in Hc as [H1 H2].
  assert (Hr : exists r, r1 ++ [x] = h :: r) by (destruct r1 as [|y r1]; injection HN as -> _; by eexists).
  destruct Hr as [r Hr]. rewrite Hr in H1 |- *. change (x :: r2 ++ h :: r) with ((x :: r2) ++ h :: r). by apply chain_app.
Qed.

(** ** Blocks in order of address, with a gap between any two *)

Fixpoint apart (e : Z) (l : list node) (hi : Z) : Prop :=
  match l with
  | [] => e <= hi
  | (a, u) :: l => e < a /\ 1 <= u /\ apart (a + 8 * u) l hi
  end.
Fixpoint end_of (e : Z) (l : list node) : Z :=
  match l with
  | [] => e
  | (a, u) :: l => end_of (a + 8 * u) l
  end.
Definition units (l : list node) : Z := foldr (fun b n => snd b + n) 0 l.

Lemma units_app l1 l2 : units (l1 ++ l2) = units l1 + units l2.
Proof. induction l1 as [|b l1 IH]; [done|]. unfold units in *. cbn. lia. Qed.

Lemma apart_app e l1 l2 hi : apart e (l1 ++ l2) hi <-> apart e l1 (end_of e l1) /\ apart (end_of e l1) l2 hi.
Proof.
  revert e. induction l1 as [|[a u] l1 IH]; intros e; cbn [app apart end_of]; [intuition lia|]. rewrite IH. tauto.
Qed.

Lemma end_of_app e l1 l2 : end_of e (l1 ++ l2) = end_of (end_of e l1) l2.
Proof. revert e. induction l1 as [|[a u] l1 IH]; intros e; [done|apply IH]. Qed.

(** Every block lies between the bounds, and the blocks fill at most the space. *)
Lemma apart_in e l hi a u : apart e l hi -> (a, u) ∈ l -> e < a /\ 1 <= u /\ a + 8 * u <= hi.
Proof.
  revert e. induction l as [|[b v] l IH]; intros e Hl Hin; [by apply not_elem_of_nil in Hin|].
  destruct Hl as (H1 & H2 & H3). assert (Hle : forall l e, apart e l hi -> e <= hi).
  { clear. induction l as [|[a u] l IH]; intros e He; [done|]. destruct He as (? & ? & ?%IH). lia. }
  apply elem_of_cons in Hin as [[= <- <-]|Hin]; [apply Hle in H3; lia|]. destruct (IH _ H3 Hin). lia.
Qed.
Lemma apart_le e l hi : apart e l hi -> e + 8 * Z.of_nat (length l) <= hi.
Proof. revert e. induction l as [|[b v] l IH]; intros e Hl; cbn in Hl |- *; [lia|]. destruct Hl as (? & ? & ?%IH). lia. Qed.

(** Blocks that do not overlap. *)
Definition disjoint (p u : Z) (b : node) : Prop := p + 8 * u <= fst b \/ fst b + 8 * snd b <= p.

(** ** The list that [free] makes *)

(** The block with the next one, if that follows at once; and what is left. *)
Definition with_next (p u : Z) (l : list node) : node * list node :=
  match l with
  | (a, v) :: l' => if decide (p + 8 * u = a) then ((p, u + v), l') else ((p, u), l)
  | [] => ((p, u), [])
  end.
(** The block behind a list, joined to its last one if that ends at it. *)
Fixpoint add_block (l : list node) (b : node) : list node :=
  match l with
  | [] => [b]
  | [(a, u)] => if decide (a + 8 * u = fst b) then [(a, u + snd b)] else [(a, u); b]
  | c :: l => c :: add_block l b
  end.

Lemma add_block_snoc l a u b :
  add_block (l ++ [(a, u)]) b = l ++ if decide (a + 8 * u = fst b) then [(a, u + snd b)] else [(a, u); b].
Proof.
  induction l as [|[c v] l IH]; [done|]. cbn [app]. rewrite <- IH. destruct l as [|[d w] l]; done.
Qed.
Lemma add_block_cons c l b : fst c + 8 * snd c <> fst b -> add_block (c :: l) b = c :: add_block l b.
Proof. destruct c as [c v], l as [|[d w] l]; cbn; [|done]. intros Hne. by rewrite decide_False. Qed.

Section freed.
Context (p u : Z) (l1 l2 : list node) (e hi : Z).
Let freed : list node := add_block l1 (fst (with_next p u l2)) ++ snd (with_next p u l2).
Hypotheses (Hu : 1 <= u) (He : e < p) (H1 : end_of e l1 <= p) (Hhi : p + 8 * u <= hi) (H2 : forall a v, (a, v) ∈ l2 -> p + 8 * u <= a).

Lemma units_freed : units freed = units (l1 ++ l2) + u.
Proof.
  clear H1 H2 He Hhi.
  assert (Ha : forall l b, units (add_block l b) = units l + snd b).
  { clear. induction l as [|[c v] l IH]; intros b; [cbn; lia|]. destruct l as [|d l].
    - cbn. case_decide; cbn; lia.
    - change (snd (c, v) + units (add_block (d :: l) b) = snd (c, v) + units (d :: l) + snd b). rewrite IH. lia. }
  unfold freed. rewrite !units_app, Ha. unfold with_next. destruct l2 as [|[a v] l]; [cbn; lia|]. case_decide; cbn; lia.
Qed.

Lemma length_freed : (length freed <= S (length (l1 ++ l2)))%nat.
Proof.
  clear H1 H2 He Hhi.
  assert (Ha : forall l b, (length (add_block l b) <= S (length l))%nat).
  { clear. intros l b. destruct l as [|[c v] l _] using rev_ind; [cbn; lia|]. rewrite add_block_snoc. case_decide; rewrite !length_app; cbn; lia. }
  assert (Hw : (length (snd (with_next p u l2)) <= length l2)%nat).
  { unfold with_next. destruct l2 as [|[a v] l]; [done|]. case_decide; cbn; lia. }
  unfold freed. rewrite !length_app. pose proof (Ha l1 (fst (with_next p u l2))). lia.
Qed.

(** One of the blocks is as large as what was freed. *)
Lemma large_freed : (forall b, b ∈ l1 ++ l2 -> 0 <= snd b) -> exists c, c ∈ freed /\ u <= snd c.
Proof.
  clear H1 H2 He Hhi. intros Hl. assert (Hv : u <= snd (fst (with_next p u l2))).
  { unfold with_next. destruct l2 as [|[a v] l]; [done|]. case_decide; cbn; [|done]. assert (0 <= v) by (apply (Hl (a, v)); set_solver). lia. }
  unfold freed. destruct l1 as [|[c w] l _] using rev_ind; [exists (fst (with_next p u l2)); split; [set_solver|exact Hv]|].
  rewrite add_block_snoc. case_decide.
  - exists (c, w + snd (fst (with_next p u l2))). split; [set_solver|]. assert (0 <= w) by (apply (Hl (c, w)); set_solver). cbn. lia.
  - exists (fst (with_next p u l2)). split; [set_solver|exact Hv].
Qed.

Lemma apart_freed : apart e (l1 ++ l2) hi -> apart e freed hi.
Proof.
  rewrite apart_app. intros [Ha1 Ha2].
  assert (Hn : exists v L, with_next p u l2 = ((p, v), L) /\ u <= v /\ apart (p + 8 * v) L hi).
  { unfold with_next. destruct l2 as [|[a v] l]; [exists u, []; cbn; auto with lia|]. destruct Ha2 as (Hx & Hv & Ha2).
    case_decide as Hd; [subst a; exists (u + v), l; split_and!; [done|lia|]; by replace (p + 8 * (u + v)) with (p + 8 * u + 8 * v) by lia|].
    exists u, ((a, v) :: l). assert (p + 8 * u <= a) by (apply (H2 a v), list_elem_of_here). split_and!; [done|lia|]. cbn. split_and!; [lia|done|done]. }
  destruct Hn as (v & L & Hn & Hv & HL). unfold freed. rewrite Hn. cbn [fst snd].
  destruct l1 as [|[q w] l _] using rev_ind; [cbn; split_and!; [lia|lia|done]|].
  rewrite end_of_app in H1. cbn in H1. rewrite apart_app in Ha1. destruct Ha1 as [Hl Hq]. cbn in Hq.
  rewrite add_block_snoc. cbn [fst snd]. case_decide as Hd; rewrite <- app_assoc, apart_app; (split; [done|]); cbn.
  - destruct Hq as (? & ? & ?). split_and!; [done|lia|]. by replace (q + 8 * (w + v)) with (p + 8 * v) by lia.
  - destruct Hq as (? & ? & ?). split_and!; [done|done|lia|lia|done].
Qed.

Lemma disjoint_freed q n :
  1 <= n -> disjoint q n (p, u) -> (forall b, b ∈ l1 ++ l2 -> disjoint q n b /\ 1 <= snd b) -> forall b, b ∈ freed -> disjoint q n b.
Proof.
  clear H1 H2 He Hhi.
  intros Hn Hp Hl b. unfold freed.
  assert (Hx : exists v L, with_next p u l2 = ((p, v), L) /\ 1 <= v /\ disjoint q n (p, v) /\ forall b, b ∈ L -> b ∈ l2).
  { unfold with_next. destruct l2 as [|[a v] l]; [by exists u, []|]. case_decide; [|by exists u, ((a, v) :: l)].
    exists (u + v), l. destruct (Hl (a, v)) as [Hd Hv]; [set_solver|]. unfold disjoint in *. cbn in *. split_and!; [done|lia|lia|set_solver]. }
  destruct Hx as (v & L & -> & Hv & Hd & HL). cbn [fst snd]. rewrite elem_of_app. intros [Hb|Hb]; [|by apply Hl; set_solver].
  destruct l1 as [|[c w] l _] using rev_ind; [apply list_elem_of_singleton in Hb as ->; done|].
  rewrite add_block_snoc in Hb. destruct (Hl (c, w)) as [Hc Hw]; [set_solver|]. cbn [fst snd] in Hb.
  apply elem_of_app in Hb as [Hb|Hb]; [by apply Hl; set_solver|].
  case_decide; [apply list_elem_of_singleton in Hb as ->; unfold disjoint in *; cbn in *; lia|].
  rewrite !elem_of_cons, elem_of_nil in Hb. by destruct Hb as [->|[->|[]]].
Qed.
End freed.

Lemma touched_snoc l b x : touched (l ++ [b]) x -> x = fst b + 4 \/ exists c, c ∈ l /\ (x = fst c \/ x = fst c + 4).
Proof.
  destruct b as [b v]. induction l as [|[c u] l IH]; cbn [app touched]; [intros [?|[[_ ?]|?]]; [by left|done|done]|].
  intros [->|[[-> _]|Ht]]; [right; exists (c, u); split; [apply list_elem_of_here|by right]|
    right; exists (c, u); split; [apply list_elem_of_here|by left]|].
  destruct (IH Ht) as [?|(d & Hd & Hx)]; [by left|]. right. exists d. split; [by apply list_elem_of_further|done].
Qed.

(** ** The state of the allocator *)

Section heap.
Context (base : Z).
Hypothesis Hbase : 0 < base.
Abbreviation b0 := ((base, 0) : node).

(** [al] are the blocks in use, with their headers, and [fl] the free ones. *)
Record heap_ok (al : gmap Z Z) (fl : list node) (s : ust) : Prop := HeapOk {
  ho_chain : chain (umem s) (b0 :: fl ++ [b0]);
  ho_apart : apart (base + 7) fl (usz s);
  ho_freep : exists u, (freep s, u) ∈ b0 :: fl;
  ho_size : base + 8 <= usz s < KERNBASE;
  ho_used : forall p u, al !! p = Some u -> 1 <= u /\ base + 8 <= p /\ p + 8 * u <= usz s /\ umem s (p + 4) = u /\
    forall b, b ∈ fl -> disjoint p u b;
  ho_disjoint : forall p q u v, al !! p = Some u -> al !! q = Some v -> p <> q -> disjoint p u (q, v)
}.

(** The contents of blocks in use. *)
Definition same_data (al : gmap Z Z) (s s' : ust) : Prop :=
  forall p u x, al !! p = Some u -> p <= x < p + 8 * u -> umem s' x = umem s x.

Lemma node_in al fl s c u : heap_ok al fl s -> (c, u) ∈ b0 :: fl -> base <= c /\ c + 8 <= usz s /\ 0 <= u /\ c + 8 * u <= usz s.
Proof.
  intros Hs [[= -> ->]|Hin]%elem_of_cons; [pose proof (ho_size _ _ _ Hs); lia|].
  pose proof (apart_in _ _ _ _ _ (ho_apart _ _ _ Hs) Hin). lia.
Qed.

Lemma load_ok a s : 0 <= a -> a + 4 <= usz s -> load a s = Ok (umem s a, s).
Proof. intros H1 H2. unfold load, mapped_word. by rewrite (proj2 (Z.leb_le _ _) H1), (proj2 (Z.leb_le _ _) H2). Qed.
Definition put (a v : Z) (s : ust) : ust := set_umem (fun x => if decide (x = a) then v else umem s x) s.
Lemma store_ok a v s : 0 <= a -> a + 4 <= usz s -> store a v s = Ok ((), put a v s).
Proof. intros H1 H2. unfold store, mapped_word. by rewrite (proj2 (Z.leb_le _ _) H1), (proj2 (Z.leb_le _ _) H2). Qed.

Lemma put_eq a v s : umem (put a v s) a = v.
Proof. cbn. by rewrite decide_True. Qed.
Lemma put_ne a v s x : x <> a -> umem (put a v s) x = umem s x.
Proof. intros Hx. cbn. by rewrite decide_False. Qed.

Lemma hadd_small p n : 0 <= p -> 0 <= n -> p + 8 * n < KERNBASE -> hadd p n = p + 8 * n.
Proof. unfold hadd, sizeof_header, KERNBASE. intros. rewrite u32_small; lia. Qed.

(** ** The walk of [free] *)

(** Where the loop stops. *)
Definition gap (bp y z : Z) : Prop := y < bp < z \/ (z <= y /\ (y < bp \/ bp < z)).

Lemma free_find_ok bp s : forall l p fuel,
  chain (umem s) (p :: l) -> (forall c, c ∈ p :: l -> 0 <= fst c /\ fst c + 8 <= usz s) -> (length l <= fuel)%nat ->
  (exists y z, adj (p :: l) y z /\ gap bp (fst y) (fst z)) ->
  exists y z, adj (p :: l) y z /\ gap bp (fst y) (fst z) /\ free_find fuel (fst p) bp s = Ok (fst y, s).
Proof.
  induction l as [|[c u] l IH]; intros [p w] fuel Hc Hm Hf (y & z & Hyz & Hg).
  { exfalso. destruct Hyz as ([|? []] & b & Hl); done. }
  destruct fuel as [|fuel]; [cbn in Hf; lia|]. destruct Hc as (_ & Hp & Hc). cbn [fst] in *.
  assert (Hl : ptr_ p s = Ok (c, s)).
  { unfold ptr_. destruct (Hm (p, w)) as [? ?]; [apply list_elem_of_here|]. cbn in *. rewrite load_ok, Hp by lia. done. }
  cbn [free_find]. rewrite (bind_Ok _ _ _ _ _ Hl).
  assert (Hadj : adj ((p, w) :: (c, u) :: l) (p, w) (c, u)) by (by exists [], l).
  destruct ((p <? bp) && (bp <? c)) eqn:E1.
  { apply andb_true_iff in E1 as [?%Z.ltb_lt ?%Z.ltb_lt]. exists (p, w), (c, u). split; [done|]. split; [by left|done]. }
  destruct ((c <=? p) && ((p <? bp) || (bp <? c))) eqn:E2.
  { apply andb_true_iff in E2 as [?%Z.leb_le E%orb_true_iff]. rewrite !Z.ltb_lt in E. exists (p, w), (c, u). split; [done|]. split; [by right|done]. }
  assert (Hno : ~ gap bp p c).
  { intros [[? ?]|[? ?]]; [rewrite (proj2 (Z.ltb_lt _ _)), (proj2 (Z.ltb_lt _ _)) in E1; done|].
    rewrite (proj2 (Z.leb_le _ _)) in E2 by lia. apply andb_false_iff in E2 as [?|E2]; [done|].
    apply orb_false_iff in E2 as [?%Z.ltb_ge ?%Z.ltb_ge]. lia. }
  destruct (IH (c, u) fuel Hc) as (y' & z' & H1 & H2 & H3).
  - intros d Hd. apply Hm. by apply list_elem_of_further.
  - cbn in Hf. lia.
  - exists y, z. split; [|done]. apply adj_cons in Hyz as [?|[<- [= <-]]]; [done|]. done.
  - exists y', z'. split; [by apply adj_cons; left|done].
Qed.

(** The nodes are in order. *)
Lemma nodes_sorted fl hi a y b :
  apart (base + 7) fl hi -> b0 :: fl = a ++ y :: b ->
  (forall c, c ∈ a -> fst c + 8 <= fst y /\ fst c + 8 * snd c <= fst y) /\
  (forall c, c ∈ b -> fst y + 8 <= fst c /\ fst y + 8 * snd y <= fst c).
Proof.
  assert (Hl : forall l e a y b, apart e l hi -> l = a ++ y :: b ->
    (forall c, c ∈ a -> fst c + 8 <= fst y /\ fst c + 8 * snd c <= fst y) /\
    (forall c, c ∈ b -> fst y + 8 <= fst c /\ fst y + 8 * snd y <= fst c) /\ e < fst y).
  { clear. induction l as [|[c u] l IH]; intros e [|a1 a] y b Hl Heq; [done|done| |].
    - injection Heq as <- <-. destruct Hl as (? & ? & Hl). split_and!; [by intros c0 ?%not_elem_of_nil| |done].
      intros [d v] Hd. pose proof (apart_in _ _ _ _ _ Hl Hd). cbn. lia.
    - injection Heq as <- Heq. destruct Hl as (? & ? & Hl). destruct (IH _ a y b Hl Heq) as (I1 & I2 & I3).
      split_and!; [|done|cbn in *; lia]. intros d [->|Hd]%elem_of_cons; [cbn; lia|by apply I1]. }
  intros Hap Heq. destruct a as [|a1 a]; injection Heq as <- Heq.
  - split; [by intros c ?%not_elem_of_nil|]. subst fl. intros [d v] Hd. pose proof (apart_in _ _ _ _ _ Hap Hd). cbn. lia.
  - destruct (Hl fl _ a y b Hap Heq) as (I1 & I2 & I3). split; [|done]. intros d [->|Hd]%elem_of_cons; [cbn; lia|by apply I1].
Qed.

(** There is a place for [bp]. *)
Lemma exists_gap bp : forall (t : list node) h, fst h < bp -> (forall c, c ∈ t -> fst c <> bp) ->
  (exists y z, adj (h :: t) y z /\ fst y < bp < fst z) \/ exists y, last (h :: t) = Some y /\ fst y < bp.
Proof.
  induction t as [|c t IH]; intros h Hh Hne; [right; by exists h|].
  assert (fst c <> bp) by (apply Hne, list_elem_of_here).
  destruct (decide (fst c < bp)) as [Hc|Hc].
  - destruct (IH c Hc) as [(y & z & Ha & Hy)|(y & Hy & Hlt)].
    + intros d Hd. by apply Hne, list_elem_of_further.
    + left. exists y, z. split; [by apply adj_cons; left|done].
    + right. by exists y.
  - left. exists h, c. split; [by exists [], t|lia].
Qed.

Lemma place_found al fl s bp u :
  heap_ok al fl s -> al !! bp = Some u ->
  exists a q w b, b0 :: fl = a ++ (q, w) :: b /\ free_find (turns s) (freep s) bp s = Ok (q, s) /\ q < bp /\ forall c, c ∈ b -> bp < fst c.
Proof.
  intros Hs Hbp. destruct (ho_used _ _ _ Hs bp u Hbp) as (Hu & Hb & Hhi & _ & Hdis). destruct (ho_freep _ _ _ Hs) as [v Hfp].
  apply list_elem_of_split in Hfp as (r1 & r2 & HN).
  assert (Hmem : forall c, c ∈ (freep s, v) :: r2 ++ r1 ++ [(freep s, v)] -> 0 <= fst c /\ fst c + 8 <= usz s).
  { intros [c x] Hc. assert (Hc' : (c, x) ∈ b0 :: fl) by (rewrite HN; set_solver). pose proof (node_in _ _ _ _ _ Hs Hc'). cbn. lia. }
  assert (Hgap : exists y z, adj ((freep s, v) :: r2 ++ r1 ++ [(freep s, v)]) y z /\ gap bp (fst y) (fst z)).
  { destruct (exists_gap bp fl b0) as [(y & z & Ha & Hy)|([y x] & Hy & Hlt)].
    - cbn. lia.
    - intros [c x] Hc <-. cbn in *. pose proof (apart_in _ _ _ _ _ (ho_apart _ _ _ Hs) Hc). destruct (Hdis _ Hc) as [?|?]; cbn in *; lia.
    - exists y, z. split; [apply (adj_rot _ _ _ _ _ _ _ HN); by left|by left].
    - exists (y, x), b0. split; [apply (adj_rot _ _ _ _ _ _ _ HN); by right|]. right. cbn in *.
      assert (Hin : (y, x) ∈ b0 :: fl) by (by apply last_Some_elem_of). pose proof (node_in _ _ _ _ _ Hs Hin). lia. }
  assert (Hlen : (length (r2 ++ r1 ++ [(freep s, v)]) <= turns s)%nat).
  { apply (f_equal length) in HN. rewrite !length_app in *. cbn in *. pose proof (apart_le _ _ _ (ho_apart _ _ _ Hs)).
    unfold turns, sizeof_header. assert (Z.of_nat (length fl) <= usz s / 8) by (apply Z.div_le_lower_bound; lia). lia. }
  destruct (free_find_ok bp s _ (freep s, v) (turns s) (chain_rot _ _ _ _ _ _ HN (ho_chain _ _ _ Hs)) Hmem Hlen Hgap) as ([y x] & [z x'] & Ha & Hg & Hf).
  apply (adj_rot _ _ _ _ _ _ _ HN) in Ha as [(a & b & Ha)|[Hl Hz]].
  - exists a, y, x, ((z, x') :: b). destruct (nodes_sorted _ _ _ _ _ (ho_apart _ _ _ Hs) Ha) as [_ Hsort].
    assert (y + 8 <= z) by (apply (Hsort (z, x')), list_elem_of_here). unfold gap in Hg. cbn in Hg. split_and!; [done|done|lia|].
    intros [c w] [[= -> ->]|Hc]%elem_of_cons; [cbn; lia|]. assert (Ha' : b0 :: fl = (a ++ [(y, x)]) ++ (z, x') :: b) by by rewrite <- app_assoc.
    destruct (nodes_sorted _ _ _ _ _ (ho_apart _ _ _ Hs) Ha') as [_ Hs2]. specialize (Hs2 _ Hc). cbn in *. lia.
  - injection Hz as -> ->. apply last_Some in Hl as [a Ha]. exists a, y, x, []. unfold gap in Hg. cbn in Hg.
    split_and!; [done|done|lia|by intros c ?%not_elem_of_nil].
Qed.

(** ** Linking a block in *)

(** Nothing but the words in [xs] changes. *)
Definition only (xs : list Z) (s s' : ust) : Prop :=
  usz s' = usz s /\ freep s' = freep s /\ forall x, x ∉ xs -> umem s' x = umem s x.

Lemma only_put xs a v s s' : only xs s s' -> a ∈ xs -> only xs s (put a v s').
Proof. intros (H1 & H2 & H3) Ha. split_and!; [done|done|]. intros x Hx. rewrite put_ne by (intros ->; done). by apply H3. Qed.

Lemma join_next_ok q w b bp u s :
  chain (umem s) ((q, w) :: b ++ [b0]) -> umem s (bp + 4) = u -> 1 <= u -> base <= q -> q + 8 <= bp -> bp + 8 * u <= usz s ->
  usz s < KERNBASE -> (forall c, c ∈ b -> bp + 8 * u <= fst c /\ 0 <= snd c /\ fst c + 8 <= usz s /\ fst c + 8 * snd c <= usz s) ->
  exists s', join_next q bp s = Ok ((), s') /\ only [bp; bp + 4] s s' /\
    chain (umem s') (fst (with_next bp u b) :: snd (with_next bp u b) ++ [b0]).
Proof.
  intros Hc Hu H1 Hq Hqb Hhi Hk Hb. unfold KERNBASE in Hk. unfold join_next, ptr_, size_, set_ptr, set_size.
  assert (Hfr : forall s', only [bp; bp + 4] s s' -> chain (umem s) (b ++ [b0]) -> chain (umem s') (b ++ [b0])).
  { intros s' Ho Hch. eapply chain_agree; [exact Hch|]. intros x Hx. apply Ho. apply touched_snoc in Hx as [->|(c & Hcb & Hx)].
    - cbn. rewrite !elem_of_cons, elem_of_nil. lia.
    - destruct (Hb c Hcb). rewrite !elem_of_cons, elem_of_nil. lia. }
  destruct b as [|[a v] b].
  - destruct Hc as (_ & Hn & Hc). cbn in Hn. rewrite (bind_Ok _ _ _ _ _ (load_ok q s ltac:(lia) ltac:(lia))), (bind_Ok _ _ _ _ _ (load_ok (bp + 4) s ltac:(lia) ltac:(lia))).
    rewrite Hn, Hu, hadd_small by (unfold KERNBASE; lia). rewrite (proj2 (Z.eqb_neq _ _)) by lia. rewrite store_ok by lia.
    eexists. split; [done|]. assert (Ho : only [bp; bp + 4] s (put bp base s)) by (apply only_put; [done|set_solver]). split; [done|].
    cbn [with_next fst snd app]. split; [rewrite put_ne by lia; done|]. split; [apply put_eq|]. exact (Hfr _ Ho Hc).
  - destruct Hc as (_ & Hn & Hc). cbn in Hn. destruct (Hb (a, v)) as (? & ? & ? & ?); [apply list_elem_of_here|]. cbn in *.
    rewrite (bind_Ok _ _ _ _ _ (load_ok q s ltac:(lia) ltac:(lia))), (bind_Ok _ _ _ _ _ (load_ok (bp + 4) s ltac:(lia) ltac:(lia))).
    rewrite Hn, Hu, hadd_small by (unfold KERNBASE; lia). case_decide as Hd.
    + rewrite (proj2 (Z.eqb_eq _ _)) by done. assert (Hav : umem s (a + 4) = v) by (by destruct Hc).
      rewrite (bind_Ok _ _ _ _ _ (load_ok (a + 4) s ltac:(lia) ltac:(lia))), Hav, u32_small by lia.
      rewrite (bind_Ok _ _ _ _ _ (store_ok (bp + 4) (u + v) s ltac:(lia) ltac:(lia))).
      set (s1 := put (bp + 4) (u + v) s). rewrite (bind_Ok _ _ _ _ _ (load_ok a s1 ltac:(lia) ltac:(cbn; lia))).
      assert (Ha1 : umem s1 a = umem s a) by (apply put_ne; lia). rewrite Ha1, store_ok by (cbn; lia).
      eexists. split; [done|]. assert (Ho : only [bp; bp + 4] s (put bp (umem s a) s1)).
      { apply only_put; [apply only_put; [done|set_solver]|set_solver]. } split; [done|].
      assert (Hch : chain (umem (put bp (umem s a) s1)) ((a, v) :: b ++ [b0])) by exact (Hfr _ Ho Hc).
      cbn [fst snd]. split; [rewrite put_ne by lia; apply put_eq|]. split; [|by destruct Hch as (_ & _ & ?)].
      destruct Hc as (_ & Hl & _). destruct b as [|[a' v'] b]; cbn in Hl |- *; rewrite decide_True by done; exact Hl.
    + rewrite (proj2 (Z.eqb_neq _ _)) by done. rewrite store_ok by lia. eexists. split; [done|].
      assert (Ho : only [bp; bp + 4] s (put bp a s)) by (apply only_put; [done|set_solver]). split; [done|].
      cbn [fst snd app]. split; [rewrite put_ne by lia; done|]. split; [apply put_eq|]. exact (Hfr _ Ho Hc).
Qed.

(** A new size for the last node. *)
Lemma chain_resize m m' a q w w' :
  chain m (a ++ [(q, w)]) -> (forall c, c ∈ a -> fst c + 8 <= q) -> (forall x, x < q -> m' x = m x) ->
  m' (q + 4) = w' -> chain m' (a ++ [(q, w')]).
Proof.
  intros Hc Ha Hm Hw. induction a as [|[c u] a IH]; [done|]. cbn [app] in *. destruct Hc as (H1 & H2 & H3).
  assert (c + 8 <= q) by (apply (Ha (c, u)), list_elem_of_here).
  split; [rewrite Hm by lia; done|]. split; [|apply IH; [done|]; intros d Hd; by apply Ha, list_elem_of_further].
  destruct a as [|[d v] a]; cbn in *; rewrite Hm by lia; done.
Qed.

Lemma join_prev_ok a q w bp U L s :
  chain (umem s) (a ++ [(q, w)]) -> chain (umem s) ((bp, U) :: L ++ [b0]) -> (q, w) = b0 \/ base + 8 <= q ->
  q + 8 <= bp -> 0 <= w -> q + 8 * w <= bp -> 1 <= U -> bp + 8 * U <= usz s -> usz s < KERNBASE ->
  (forall c, c ∈ a -> fst c + 8 <= q) -> (forall c, c ∈ L -> bp + 8 <= fst c) ->
  exists s', join_prev q bp s = Ok ((), s') /\ only [q; q + 4] s s' /\
    chain (umem s') (a ++ (if decide (q + 8 * w = bp) then [(q, w + U)] else [(q, w); (bp, U)]) ++ L ++ [b0]).
Proof.
  intros Ha HB Hq Hqb Hw Hwb HU Hhi Hk Hsa HsL. unfold KERNBASE in Hk. assert (base <= q) by (destruct Hq as [[= -> ->]|]; lia).
  assert (Hqw : umem s (q + 4) = w) by (apply chain_app in Ha as [_ Ha]; by destruct Ha).
  assert (HfL : forall s', only [q; q + 4] s s' -> (q = base -> umem s' (base + 4) = umem s (base + 4)) ->
    chain (umem s) (L ++ [b0]) -> chain (umem s') (L ++ [b0])).
  { intros s' Ho Hb Hch. eapply chain_agree; [exact Hch|]. intros x Hx. apply touched_snoc in Hx as [->|(c & Hcb & Hx)].
    - cbn. destruct (decide (q = base)) as [e|Hne]; [by apply Hb|]. apply Ho. rewrite !elem_of_cons, elem_of_nil.
      destruct Hq as [[= -> ->]|]; [done|]. lia.
    - pose proof (HsL c Hcb). apply Ho. rewrite !elem_of_cons, elem_of_nil. lia. }
  unfold join_prev, ptr_, size_, set_ptr, set_size.
  rewrite (bind_Ok _ _ _ _ _ (load_ok (q + 4) s ltac:(lia) ltac:(lia))), Hqw, hadd_small by (unfold KERNBASE; lia).
  destruct HB as (HB1 & HB2 & HB3). case_decide as Hd.
  - rewrite (proj2 (Z.eqb_eq _ _)) by done. rewrite (bind_Ok _ _ _ _ _ (load_ok (bp + 4) s ltac:(lia) ltac:(lia))), HB1, u32_small by lia.
    rewrite (bind_Ok _ _ _ _ _ (store_ok (q + 4) (w + U) s ltac:(lia) ltac:(lia))).
    set (s1 := put (q + 4) (w + U) s). rewrite (bind_Ok _ _ _ _ _ (load_ok bp s1 ltac:(lia) ltac:(cbn; lia))).
    assert (Hb1 : umem s1 bp = umem s bp) by (apply put_ne; lia). rewrite Hb1, store_ok by (cbn; lia). eexists. split; [done|].
    assert (Ho : only [q; q + 4] s (put q (umem s bp) s1)).
    { apply only_put; [apply only_put; [done|set_solver]|set_solver]. } split; [done|].
    apply chain_app. split.
    + eapply chain_resize; [exact Ha|done| |].
      * intros x ?. rewrite put_ne by lia. apply put_ne. lia.
      * rewrite put_ne by lia. apply put_eq.
    + cbn [app]. destruct Hq as [[= -> ->]|Hq]; [lia|]. assert (HL := HfL _ Ho ltac:(lia) HB3).
      split; [rewrite put_ne by lia; apply put_eq|]. split; [|exact HL].
      destruct L as [|[a' v'] L]; cbn in HB2 |- *; rewrite decide_True by done; exact HB2.
  - rewrite (proj2 (Z.eqb_neq _ _)) by done. rewrite store_ok by lia. eexists. split; [done|].
    assert (Ho : only [q; q + 4] s (put q bp s)) by (apply only_put; [done|set_solver]). split; [done|].
    apply chain_app. split; [eapply chain_resize; [exact Ha|done| |]|].
    + intros x ?. rewrite put_ne by lia. done.
    + rewrite put_ne by lia. done.
    + cbn [app]. split; [rewrite put_ne by lia; done|]. split; [apply put_eq|]. assert (HL := HfL _ Ho ltac:(intros ->; apply put_ne; lia) HB3).
      split; [rewrite put_ne by lia; done|]. split; [|exact HL].
      destruct L as [|[a' v'] L]; cbn in HB2 |- *; rewrite decide_False by lia; exact HB2.
Qed.

(** The free list around the place of [bp]. *)
Lemma split_nodes fl a q w b :
  b0 :: fl = a ++ (q, w) :: b -> exists l1, fl = l1 ++ b /\ b0 :: l1 = a ++ [(q, w)].
Proof.
  intros HN. destruct a as [|c a]; injection HN as -> HN.
  - exists []. by rewrite HN.
  - exists (a ++ [(q, w)]). by rewrite HN, <- app_assoc.
Qed.

Lemma end_of_last a q w l1 bp :
  b0 :: l1 = a ++ [(q, w)] -> base + 8 <= bp -> q + 8 * w <= bp -> end_of (base + 7) l1 <= bp.
Proof.
  intros HN Hb Hq. destruct l1 as [|[q' w'] l _] using rev_ind; [cbn; lia|].
  rewrite end_of_app. change (b0 :: l ++ [(q', w')]) with ((b0 :: l) ++ [(q', w')]) in HN.
  apply app_inj_tail in HN as [_ [= -> ->]]. cbn. lia.
Qed.

(** The list after [free]: in order, with the block in it. *)
Definition freed (l1 : list node) (bp u : Z) (l2 : list node) : list node :=
  add_block l1 (fst (with_next bp u l2)) ++ snd (with_next bp u l2).

Lemma freed_nodes l1 bp u l2 a q w :
  b0 :: l1 = a ++ [(q, w)] -> base + 8 <= bp ->
  b0 :: freed l1 bp u l2 = a ++ (if decide (q + 8 * w = bp) then [(q, w + snd (fst (with_next bp u l2)))]
    else [(q, w); fst (with_next bp u l2)]) ++ snd (with_next bp u l2).
Proof.
  intros Hl1 Hb. assert (Hbp : fst (fst (with_next bp u l2)) = bp).
  { unfold with_next. destruct l2 as [|[c v] l2]; [done|]. by case_decide. }
  unfold freed. change (b0 :: add_block l1 (fst (with_next bp u l2)) ++ snd (with_next bp u l2)) with
    ((b0 :: add_block l1 (fst (with_next bp u l2))) ++ snd (with_next bp u l2)).
  rewrite <- add_block_cons by (rewrite Hbp; cbn; lia). rewrite Hl1, add_block_snoc, Hbp, <- app_assoc. done.
Qed.

(** What [free] has done: [bp] is in its place and only the headers there have
    changed. *)
Record placed (fl : list node) (s : ust) (bp u : Z) (l1 l2 : list node) (s' : ust) : Prop := Placed {
  pl_fl : fl = l1 ++ l2;
  pl_end : end_of (base + 7) l1 <= bp;
  pl_after : forall c, c ∈ l2 -> bp + 8 * u <= fst c;
  pl_chain : chain (umem s') (b0 :: freed l1 bp u l2 ++ [b0]);
  pl_freep : exists w w', (freep s', w) ∈ b0 :: fl /\ (freep s', w') ∈ b0 :: freed l1 bp u l2;
  pl_mem : forall x, x ∉ [bp; bp + 4; freep s'; freep s' + 4] -> umem s' x = umem s x;
  pl_usz : usz s' = usz s
}.

Lemma free_placed al fl s bp u :
  heap_ok al fl s -> al !! bp = Some u -> exists s' l1 l2, free (bp + 8) s = Ok ((), s') /\ placed fl s bp u l1 l2 s'.
Proof.
  intros Hs Hbp. destruct (ho_used _ _ _ Hs bp u Hbp) as (Hu & Hb & Hhi & Hsz & Hdis).
  destruct (place_found _ _ _ _ _ Hs Hbp) as (a & q & w & b & HN & Hfind & Hq & Hlt).
  pose proof (ho_size _ _ _ Hs) as Hk. assert (Hk' := Hk). unfold KERNBASE in Hk'.
  destruct (nodes_sorted _ _ _ _ _ (ho_apart _ _ _ Hs) HN) as [Hsa Hsb].
  assert (Hin : forall c, c ∈ a ++ (q, w) :: b -> base <= fst c /\ fst c + 8 <= usz s /\ 0 <= snd c /\ fst c + 8 * snd c <= usz s).
  { intros [c x] Hc. rewrite <- HN in Hc. exact (node_in _ _ _ _ _ Hs Hc). }
  destruct (Hin (q, w)) as (Hq1 & Hq2 & Hq3 & Hq4); [set_solver|]. cbn in Hq1, Hq2, Hq3, Hq4.
  destruct (split_nodes _ _ _ _ _ HN) as (l1 & Hfl & Hl1).
  assert (Hqfl : (q, w) = b0 \/ ((q, w) ∈ fl /\ base + 8 <= q)).
  { assert (Hx : (q, w) ∈ b0 :: fl) by (rewrite HN; set_solver). apply elem_of_cons in Hx as [?|Hx]; [by left|right]. split; [done|].
    pose proof (apart_in _ _ _ _ _ (ho_apart _ _ _ Hs) Hx). lia. }
  assert (Hqb : q + 8 <= bp /\ q + 8 * w <= bp).
  { destruct Hqfl as [[= -> ->]|[Hx _]]; [lia|]. pose proof (apart_in _ _ _ _ _ (ho_apart _ _ _ Hs) Hx). destruct (Hdis _ Hx); cbn in *; lia. }
  assert (Hbb : forall c, c ∈ b -> bp + 8 * u <= fst c).
  { intros c Hc. assert (Hx : c ∈ fl) by (rewrite Hfl; set_solver). specialize (Hlt c Hc). destruct (Hdis c Hx); [done|].
    destruct (Hin c) as (_ & _ & ? & _); [set_solver|]. destruct c. cbn in *. pose proof (apart_in _ _ _ _ _ (ho_apart _ _ _ Hs) Hx). lia. }
  pose proof (ho_chain _ _ _ Hs) as Hch. change (b0 :: fl ++ [b0]) with ((b0 :: fl) ++ [b0]) in Hch. rewrite HN, <- app_assoc in Hch.
  apply chain_app in Hch as [Hca Hcb].
  destruct (join_next_ok q w b bp u s Hcb Hsz Hu Hq1 (proj1 Hqb) Hhi (proj2 Hk)) as (s1 & Hj1 & Ho1 & Hc1).
  { intros c Hc. destruct (Hin c) as (? & ? & ? & ?); [set_solver|]. split_and!; [by apply Hbb|done|done|done]. }
  assert (Hwn : exists U L, with_next bp u b = ((bp, U), L) /\ u <= U /\ bp + 8 * U <= usz s /\ (forall c, c ∈ L -> c ∈ b) /\ (length L <= length b)%nat).
  { unfold with_next. destruct b as [|[c v] b']; [by exists u, []; split_and!|]. case_decide.
    - exists (u + v), b'. destruct (Hin (c, v)) as (? & ? & ? & ?); [set_solver|]. cbn in *. split_and!; [done|lia|lia|set_solver|lia].
    - exists u, ((c, v) :: b'). split_and!; done. }
  destruct Hwn as (U & L & Hwn & HU & HUhi & HL & HLlen). rewrite Hwn in Hc1. cbn [fst snd] in Hc1. destruct Ho1 as (Ho1a & Ho1b & Ho1c).
  destruct (join_prev_ok a q w bp U L s1) as (s2 & Hj2 & (Ho2a & Ho2b & Ho2c) & Hc2); rewrite ?Ho1a; try done; try lia.
  { eapply chain_agree; [exact Hca|]. intros x [->|(c & Hc & Hx)]%touched_snoc; apply Ho1c; rewrite !elem_of_cons, elem_of_nil; cbn; [lia|].
    destruct (Hsa c Hc). cbn in *. lia. }
  { destruct Hqfl as [?|[_ ?]]; [by left|by right]. }
  { intros c Hc. apply (Hsa c Hc). }
  { intros c Hc. specialize (Hbb c (HL c Hc)). lia. }
  exists (set_freep q s2), l1, b. split.
  { unfold free. replace (u32 (bp + 8 - sizeof_header)) with bp by (unfold sizeof_header; rewrite u32_small; lia).
    rewrite (bind_Ok _ _ _ _ _ eq_refl), (bind_Ok _ _ _ _ _ eq_refl), (bind_Ok _ _ _ _ _ Hfind), (bind_Ok _ _ _ _ _ Hj1), (bind_Ok _ _ _ _ _ Hj2). done. }
  assert (Hnodes := freed_nodes l1 bp u b a q w Hl1 Hb). rewrite Hwn in Hnodes. cbn [fst snd] in Hnodes. constructor; cbn [freep set_freep umem usz].
  - done.
  - eapply end_of_last; [exact Hl1|done|apply Hqb].
  - done.
  - change (b0 :: freed l1 bp u b ++ [b0]) with ((b0 :: freed l1 bp u b) ++ [b0]). rewrite Hnodes, <- !app_assoc. exact Hc2.
  - exists w. rewrite HN, Hnodes. case_decide; [exists (w + U)|exists w]; set_solver.
  - intros x Hx. rewrite Ho2c, Ho1c; [done|set_solver|set_solver].
  - congruence.
Qed.

Lemma free_spec al fl s bp u :
  heap_ok al fl s -> al !! bp = Some u ->
  exists s' fl', free (bp + 8) s = Ok ((), s') /\ heap_ok (delete bp al) fl' s' /\ units fl' = units fl + u /\
    usz s' = usz s /\ same_data (delete bp al) s s' /\ (exists c, c ∈ fl' /\ u <= snd c) /\ (length fl' <= S (length fl))%nat.
Proof.
  intros Hs Hbp. destruct (ho_used _ _ _ Hs bp u Hbp) as (Hu & Hb & Hhi & Hsz & Hdis). pose proof (ho_apart _ _ _ Hs) as Hap.
  destruct (free_placed _ _ _ _ _ Hs Hbp) as (s' & l1 & l2 & Hf & [Hfl Hend Haft Hch (w & w' & Hq & Hq') Hmem Husz]).
  assert (Haft' : forall a v, (a, v) ∈ l2 -> bp + 8 * u <= a) by (intros a v Hav; apply (Haft (a, v) Hav)).
  assert (Hdata : forall p v x, delete bp al !! p = Some v -> p <= x < p + 8 * v -> umem s' x = umem s x).
  { intros p v x [Hne Hp]%lookup_delete_Some Hx. apply Hmem. destruct (ho_used _ _ _ Hs p v Hp) as (? & ? & ? & _ & Hd).
    pose proof (ho_disjoint _ _ _ Hs p bp v u Hp Hbp ltac:(done)) as Hpb. unfold disjoint in Hpb. cbn in Hpb.
    rewrite !elem_of_cons, elem_of_nil. apply elem_of_cons in Hq as [[= -> _]|Hq]; [lia|].
    specialize (Hd _ Hq). unfold disjoint in Hd. pose proof (apart_in _ _ _ _ _ Hap Hq). cbn in Hd. lia. }
  exists s', (freed l1 bp u l2). split_and!; [done| |by rewrite Hfl; apply units_freed|done|exact Hdata| |].
  - constructor; rewrite ?Husz.
    + done.
    + apply apart_freed; [done|lia|done|done|done|by rewrite <- Hfl].
    + by exists w'.
    + apply (ho_size _ _ _ Hs).
    + intros p v Hp. assert (Hp' := Hp). apply lookup_delete_Some in Hp' as [Hne Hp']. destruct (ho_used _ _ _ Hs p v Hp') as (? & ? & ? & Hv & Hd).
      split_and!; [done|done|done|rewrite (Hdata p v (p + 4) Hp) by lia; done|].
      apply disjoint_freed; [done|done|by apply (ho_disjoint _ _ _ Hs p bp v u)|]. intros [c x] Hc. rewrite <- Hfl in Hc. split; [by apply Hd|].
      pose proof (apart_in _ _ _ _ _ Hap Hc). cbn. lia.
    + intros p x v v' [_ Hp]%lookup_delete_Some [_ Hx]%lookup_delete_Some. by apply (ho_disjoint _ _ _ Hs).
  - apply large_freed; [done|]. intros [c x] Hc. rewrite <- Hfl in Hc. pose proof (apart_in _ _ _ _ _ Hap Hc). cbn. lia.
  - rewrite Hfl. apply length_freed.
Qed.

(** ** Taking a block *)

Lemma apart_mono e e' l hi : e' <= e -> apart e l hi -> apart e' l hi.
Proof. destruct l as [|[a u] l]; cbn; [lia|]. intros ? (? & ? & ?). split_and!; [lia|done|done]. Qed.

(** A word changes that is not part of the list. *)
Lemma chain_put m (l : list node) : forall x v, ~ touched l x -> chain m l -> chain (fun y => if decide (y = x) then v else m y) l.
Proof. intros x v Hx Hc. eapply chain_agree; [exact Hc|]. intros y Hy. cbn. by rewrite decide_False by (intros ->; done). Qed.

Lemma take_rest al fl s a pp w p u b :
  heap_ok al fl s -> b0 :: fl = a ++ (pp, w) :: (p, u) :: b ->
  exists l1, fl = l1 ++ (p, u) :: b /\ b0 :: l1 = a ++ [(pp, w)] /\ end_of (base + 7) l1 < p /\ base <= pp /\ pp + 8 <= p /\
    base + 8 <= p /\ 1 <= u /\ p + 8 * u <= usz s /\ (forall c, c ∈ a -> fst c + 8 <= pp) /\ (forall c, c ∈ b -> p + 8 * u <= fst c) /\ ((pp, w) = b0 \/ base + 8 <= pp) /\
    chain (umem s) (a ++ [(pp, w)]) /\ umem s (pp + 4) = w /\ umem s (p + 4) = u /\ chain (umem s) ((p, u) :: b ++ [b0]).
Proof.
  intros Hs HN. destruct (split_nodes _ _ _ _ _ HN) as (l1 & Hfl & Hl1). exists l1. pose proof (ho_apart _ _ _ Hs) as Hap.
  assert (HN' : b0 :: fl = (a ++ [(pp, w)]) ++ (p, u) :: b) by by rewrite <- app_assoc.
  destruct (nodes_sorted _ _ _ _ _ Hap HN) as [Hsa Hsb]. destruct (nodes_sorted _ _ _ _ _ Hap HN') as [_ Hsb'].
  assert (Hpin : (p, u) ∈ fl) by (rewrite Hfl; set_solver). pose proof (apart_in _ _ _ _ _ Hap Hpin) as (Hp1 & Hp2 & Hp3).
  assert (Hppin : (pp, w) ∈ b0 :: fl) by (rewrite HN; set_solver). pose proof (node_in _ _ _ _ _ Hs Hppin) as (Hpp & _).
  pose proof (ho_chain _ _ _ Hs) as Hch. change (b0 :: fl ++ [b0]) with ((b0 :: fl) ++ [b0]) in Hch. rewrite HN, <- app_assoc in Hch.
  apply chain_app in Hch as [Hca (Hcw & _ & Hcb)].
  split_and!; [done|done| |done| |lia|done|done| | | |done|done|by destruct Hcb|exact Hcb].
  - rewrite Hfl, apart_app in Hap. by destruct Hap as [_ [? _]].
  - destruct (Hsb (p, u)); [set_solver|done].
  - intros c Hc. apply (Hsa c Hc).
  - intros c Hc. apply (Hsb' c Hc).
  - apply elem_of_cons in Hppin as [?|Hin]; [by left|right]. pose proof (apart_in _ _ _ _ _ Hap Hin). lia.
Qed.

(** The words of [base] and of free blocks. *)
Definition owned (fl : list node) (x : Z) : Prop :=
  base <= x < base + 8 \/ exists c v, (c, v) ∈ fl /\ c <= x < c + 8 * v.

Lemma used_not_owned al fl s p u x : heap_ok al fl s -> al !! p = Some u -> p <= x < p + 8 * u -> ~ owned fl x.
Proof.
  intros Hs Hp Hx. destruct (ho_used _ _ _ Hs p u Hp) as (? & ? & ? & _ & Hd). intros [?|(c & v & Hc & ?)]; [lia|].
  specialize (Hd _ Hc). unfold disjoint in Hd. cbn in Hd. lia.
Qed.

(** [n] units at [q], of a free block, go into use; what is left of the free
    blocks is [fl']. *)
Lemma heap_take al fl fl' s s' q n :
  heap_ok al fl s -> chain (umem s') (b0 :: fl' ++ [b0]) -> apart (base + 7) fl' (usz s) -> (exists w, (freep s', w) ∈ b0 :: fl') ->
  usz s' = usz s -> 1 <= n -> (exists c v, (c, v) ∈ fl /\ c <= q /\ q + 8 * n <= c + 8 * v) -> umem s' (q + 4) = n ->
  (forall b, b ∈ fl' -> disjoint q n b /\ exists c v, (c, v) ∈ fl /\ c <= fst b /\ fst b + 8 * snd b <= c + 8 * v) ->
  (forall x, ~ owned fl x -> umem s' x = umem s x) ->
  al !! q = None /\ heap_ok (<[q := n]> al) fl' s' /\ same_data al s s'.
Proof.
  intros Hs Hch Hap Hfp Hsz Hn (c & v & Hcv & Hq1 & Hq2) Hqn Hfl' Hown. pose proof (apart_in _ _ _ _ _ (ho_apart _ _ _ Hs) Hcv) as (? & ? & ?).
  assert (Hdq : forall p u, al !! p = Some u -> disjoint p u (q, n)).
  { intros p u Hp. destruct (ho_used _ _ _ Hs p u Hp) as (? & _ & _ & _ & Hd). specialize (Hd _ Hcv). unfold disjoint in *. cbn in *. lia. }
  assert (Hnone : al !! q = None).
  { destruct (al !! q) as [u|] eqn:E; [|done]. destruct (ho_used _ _ _ Hs q u E) as (? & _). specialize (Hdq q u E). unfold disjoint in Hdq. cbn in Hdq. lia. }
  assert (Hsame : same_data al s s') by (intros p u x Hp Hx; by apply Hown, (used_not_owned al fl s p u)).
  split; [done|]. split; [|done]. constructor; rewrite ?Hsz; [done|done|done|apply (ho_size _ _ _ Hs)| |].
  - intros p u [[<- <-]|[Hne Hp]]%lookup_insert_Some; [split_and!; [done|lia|lia|done|intros b Hb; by apply Hfl']|].
    destruct (ho_used _ _ _ Hs p u Hp) as (? & ? & ? & Hu & Hd). split_and!; [done|done|done|by rewrite (Hsame p u (p + 4)) by (done || lia)|].
    intros b Hb. destruct (Hfl' b Hb) as [_ (c' & v' & Hc' & ? & ?)]. specialize (Hd _ Hc'). unfold disjoint in *. cbn in *. lia.
  - intros p p' u u' [[<- <-]|[? Hp]]%lookup_insert_Some [[<- <-]|[? Hp']]%lookup_insert_Some Hne; [done| |by apply Hdq|by apply (ho_disjoint _ _ _ Hs)].
    specialize (Hdq _ _ Hp'). unfold disjoint in *. cbn in *. lia.
Qed.

(** The result of a successful [malloc] of [n] units out of [fl]. *)
Definition taken (al : gmap Z Z) (fl : list node) (s : ust) (n r : Z) (s' : ust) : Prop :=
  exists q fl', r = q + 8 /\ al !! q = None /\ heap_ok (<[q := n]> al) fl' s' /\
    units fl' + n = units fl /\ usz s' = usz s /\ same_data al s s'.

Lemma take_exact al fl s a pp w p n b :
  heap_ok al fl s -> b0 :: fl = a ++ (pp, w) :: (p, n) :: b -> runs (malloc_take n pp p n) s (taken al fl s n).
Proof.
  intros Hs HN. destruct (take_rest _ _ _ _ _ _ _ _ _ Hs HN) as (l1 & Hfl & Hl1 & Hend & Hpp & Hpp8 & Hp & Hn & Hhi & Hsa & Hsb & Hpb & Hca & Hcw & Hcu & Hcb).
  pose proof (ho_size _ _ _ Hs) as Hk. unfold KERNBASE in Hk. pose proof (ho_apart _ _ _ Hs) as Hap. rewrite Hfl in Hap. apply apart_app in Hap as [Ha1 (_ & _ & Ha2)].
  unfold malloc_take, ptr_, set_ptr. rewrite Z.eqb_refl. eapply runs_Ok.
  { unfold bind at 1 2. rewrite load_ok by lia. unfold bind at 1. rewrite store_ok by lia. cbn. rewrite hadd_small by (unfold KERNBASE; lia). done. }
  exists p, (l1 ++ b). split; [lia|].
  destruct (heap_take al fl (l1 ++ b) s (set_freep pp (put pp (umem s p) s)) p n) as (Hno & Hok & Hsame); [done|..|split_and!; [done|done| |done|done]].
  - change (b0 :: (l1 ++ b) ++ [b0]) with (((b0 :: l1) ++ b) ++ [b0]). rewrite Hl1, <- !app_assoc. apply chain_app. split.
    + eapply chain_resize; [exact Hca|done| |]; cbn; [by intros x ?; rewrite decide_False by lia|by rewrite decide_False by lia].
    + cbn. destruct Hcb as (_ & Hnx & Hcb). split; [by rewrite decide_False by lia|]. split.
      * rewrite decide_True by done. by destruct b as [|[c v] b].
      * apply chain_put; [|exact Hcb]. intros [Hx|(c & Hc & Hx)]%touched_snoc; [cbn in Hx; destruct Hpb as [[= -> ->]|?]; lia|]. specialize (Hsb c Hc). lia.
  - apply apart_app. split; [done|]. eapply apart_mono; [|exact Ha2]. lia.
  - exists w. change (b0 :: l1 ++ b) with ((b0 :: l1) ++ b). rewrite Hl1. set_solver.
  - done.
  - done.
  - exists p, n. rewrite Hfl. split; [set_solver|lia].
  - cbn. by rewrite decide_False by lia.
  - intros [c x] Hc. split; [|exists c, x; rewrite Hfl; cbn; split; [set_solver|lia]]. apply elem_of_app in Hc as [Hc|Hc]; unfold disjoint; cbn.
    + pose proof (apart_in _ _ _ _ _ Ha1 Hc). lia.
    + specialize (Hsb _ Hc). cbn in Hsb. lia.
  - intros x Hx. cbn. rewrite decide_False; [done|]. intros ->. apply Hx. destruct Hpb as [[= -> ->]|Hpb]; [left; lia|right].
    exists pp, w. assert (Hin : (pp, w) ∈ b0 :: l1) by (rewrite Hl1; set_solver). apply elem_of_cons in Hin as [[= -> ->]|Hin]; [lia|].
    rewrite Hfl. pose proof (apart_in _ _ _ _ _ Ha1 Hin). split; [set_solver|lia].
  - rewrite Hfl, !units_app. unfold units. cbn. lia.
Qed.

Lemma take_end al fl s a pp w p u n b :
  heap_ok al fl s -> b0 :: fl = a ++ (pp, w) :: (p, u) :: b -> 1 <= n < u -> runs (malloc_take n pp p u) s (taken al fl s n).
Proof.
  intros Hs HN Hn. destruct (take_rest _ _ _ _ _ _ _ _ _ Hs HN) as (l1 & Hfl & Hl1 & Hend & Hpp & Hpp8 & Hp & Hu & Hhi & Hsa & Hsb & Hpb & Hca & Hcw & Hcu & Hcb).
  pose proof (ho_size _ _ _ Hs) as Hk. unfold KERNBASE in Hk. pose proof (ho_apart _ _ _ Hs) as Hap. rewrite Hfl in Hap. apply apart_app in Hap as [Ha1 (_ & _ & Ha2)].
  unfold malloc_take, size_, set_size. rewrite (proj2 (Z.eqb_neq _ _)) by lia. set (q := p + 8 * (u - n)).
  set (s1 := put (p + 4) (u - n) s). set (s2 := put (q + 4) n s1).
  assert (Hq : hadd p (u - n) = q) by (apply hadd_small; unfold KERNBASE; lia). assert (Hqn : q + 8 * n = p + 8 * u) by (unfold q; lia).
  eapply (runs_Ok _ _ _ (q + 8) (set_freep pp s2)).
  { unfold bind at 1 2. rewrite u32_small, store_ok by lia. fold s1. unfold bind at 1. rewrite load_ok by (cbn; lia). rewrite (put_eq (p + 4) (u - n) s : umem s1 (p + 4) = u - n), Hq.
    unfold bind at 1. rewrite store_ok by (cbn; lia). cbn. by rewrite hadd_small by (unfold KERNBASE; lia). }
  exists q, (l1 ++ (p, u - n) :: b). split; [done|].
  assert (Hm : forall x, x <> p + 4 -> x <> q + 4 -> umem s2 x = umem s x) by (intros x ? ?; unfold s2; rewrite put_ne by done; by apply put_ne).
  destruct (heap_take al fl (l1 ++ (p, u - n) :: b) s (set_freep pp s2) q n) as (Hno & Hok & Hsame); [done|..|split_and!; [done|done| |done|done]].
  - change (b0 :: (l1 ++ (p, u - n) :: b) ++ [b0]) with (((b0 :: l1) ++ (p, u - n) :: b) ++ [b0]). rewrite Hl1, <- !app_assoc. cbn [umem set_freep].
    assert (Hchp : chain (umem s2) ((a ++ [(pp, w)]) ++ [(p, u - n)])).
    { eapply (chain_resize (umem s)).
      - rewrite <- app_assoc. apply chain_app. split; [exact Hca|]. cbn. split_and!; [done| |exact Hcu|done|done].
        pose proof (ho_chain _ _ _ Hs) as Hch. change (b0 :: fl ++ [b0]) with ((b0 :: fl) ++ [b0]) in Hch. rewrite HN, <- app_assoc in Hch. by apply chain_app in Hch as [_ (_ & ? & _)].
      - intros c [Hc| ->%list_elem_of_singleton]%elem_of_app; [specialize (Hsa c Hc); lia|done].
      - intros x ?. apply Hm; lia.
      - unfold s2. rewrite put_ne by lia. apply put_eq. }
    change ((a ++ [(pp, w)] ++ ((p, u - n) :: b) ++ [b0])) with (a ++ [(pp, w)] ++ (p, u - n) :: b ++ [b0]). rewrite app_assoc. apply chain_app. split; [exact Hchp|].
    destruct Hcb as (_ & Hnx & Hcb). split_and!.
    + unfold s2. rewrite put_ne by lia. apply put_eq.
    + assert (Hpx : umem s2 p = umem s p) by (apply Hm; lia). destruct b as [|[c v] b]; exact (eq_trans Hpx Hnx).
    + eapply chain_agree; [exact Hcb|]. intros x [->|(c & Hc & Hx)]%touched_snoc; apply Hm; try (cbn; lia); specialize (Hsb c Hc); lia.
  - apply apart_app. split; [done|]. cbn. split_and!; [done|lia|]. eapply apart_mono; [|exact Ha2]. lia.
  - exists w. change (b0 :: l1 ++ (p, u - n) :: b) with ((b0 :: l1) ++ (p, u - n) :: b). rewrite Hl1. set_solver.
  - done.
  - lia.
  - exists p, u. rewrite Hfl. split; [set_solver|lia].
  - apply put_eq.
  - intros [c x] Hc. apply elem_of_app in Hc as [Hc|[[= -> ->]|Hc]%elem_of_cons]; unfold disjoint; cbn.
    + pose proof (apart_in _ _ _ _ _ Ha1 Hc). split; [lia|]. exists c, x. rewrite Hfl. split; [set_solver|lia].
    + split; [lia|]. exists p, u. rewrite Hfl. split; [set_solver|lia].
    + specialize (Hsb _ Hc). cbn in Hsb. split; [lia|]. exists c, x. rewrite Hfl. split; [set_solver|lia].
  - intros x Hx. apply Hm; intros ->; apply Hx; right; exists p, u; (split; [rewrite Hfl; set_solver|lia]).
  - rewrite Hfl, !units_app. unfold units. cbn. lia.
Qed.

(** ** The walk of [malloc] *)

Context (grow : Z -> Z -> bool).

(** The first node that is large enough, and the one before it. *)
Fixpoint first_fit (n : Z) (prev : node) (l : list node) : option (node * node) :=
  match l with
  | [] => None
  | c :: l => if n <=? snd c then Some (prev, c) else first_fit n c l
  end.

Lemma first_fit_Some n : forall l prev y z, first_fit n prev l = Some (y, z) -> adj (prev :: l) y z /\ n <= snd z.
Proof.
  induction l as [|c l IH]; intros prev y z Hf; cbn in Hf; [done|]. destruct (Z.leb_spec n (snd c)).
  - injection Hf as <- <-. split; [by exists [], l|done].
  - destruct (IH _ _ _ Hf). split; [by apply adj_cons; left|done].
Qed.
Lemma first_fit_None n : forall l prev c, first_fit n prev l = None -> c ∈ l -> snd c < n.
Proof.
  induction l as [|d l IH]; intros prev c Hf Hc; cbn in Hf; [by apply not_elem_of_nil in Hc|]. destruct (Z.leb_spec n (snd d)); [done|].
  apply elem_of_cons in Hc as [->|Hc]; [done|by apply (IH d)].
Qed.

(** The walk goes from the node behind [freep] around to [freep]: to the first
    block that fits, or to [morecore]. *)
Lemma malloc_walk n s x fuel : forall l prev,
  chain (umem s) (prev :: l ++ [(freep s, x)]) -> (forall c, c ∈ l ++ [(freep s, x)] -> 0 <= fst c /\ fst c + 8 <= usz s) ->
  (forall c, c ∈ l -> fst c <> freep s) ->
  forall p, head (l ++ [(freep s, x)]) = Some p ->
  malloc_loop grow (length l + S fuel) n (fst prev) (fst p) s =
    match first_fit n prev (l ++ [(freep s, x)]) with
    | Some (y, z) => malloc_take n (fst y) (fst z) (snd z) s
    | None => (p ← morecore grow n; if p =? 0 then ret 0 else nx ← ptr_ p; malloc_loop grow fuel n p nx) s
    end.
Proof.
  assert (Hsz : forall c u l', chain (umem s) ((c, u) :: l') -> 0 <= c /\ c + 8 <= usz s -> size_ c s = Ok (u, s)).
  { intros c u l' [<- _] [? ?]. unfold size_. by rewrite load_ok by lia. }
  induction l as [|[c u] l IH]; intros prev Hc Hm Hne p [= <-]; destruct Hc as (_ & _ & Hc) || (destruct prev; destruct Hc as (_ & _ & Hc)).
  - cbn [app length Nat.add malloc_loop first_fit fst snd]. destruct (Hm (freep s, x)) as [? ?]; [set_solver|]. cbn [fst] in *.
    rewrite (bind_Ok _ _ _ _ _ (Hsz _ _ [] Hc ltac:(lia))). destruct (n <=? x); [done|]. rewrite (bind_Ok _ _ _ _ _ eq_refl), Z.eqb_refl. done.
  - cbn [app length Nat.add malloc_loop first_fit fst snd]. destruct (Hm (c, u)) as [? ?]; [set_solver|]. cbn [fst] in *.
    rewrite (bind_Ok _ _ _ _ _ (Hsz _ _ _ Hc ltac:(lia))). destruct (n <=? u); [done|]. rewrite (bind_Ok _ _ _ _ _ eq_refl).
    assert (c <> freep s) by (apply (Hne (c, u)); set_solver). rewrite (proj2 (Z.eqb_neq _ _)) by done.
    assert (Hnx : exists d, head (l ++ [(freep s, x)]) = Some d /\ umem s c = fst d).
    { destruct Hc as (_ & Hnx & _). destruct l as [|[d v] l]; eexists; (split; [done|exact Hnx]). }
    destruct Hnx as (d & Hd & Hcd). unfold ptr_. rewrite (bind_Ok _ _ _ _ _ (load_ok c s ltac:(lia) ltac:(lia))), Hcd.
    refine (IH (c, u) Hc _ _ d Hd); [intros e He; apply Hm; set_solver|intros e He; apply Hne; set_solver].
Qed.

(** One turn around the ring. *)
Lemma malloc_round al fl s n fuel :
  heap_ok al fl s -> 1 <= n ->
  (runs (malloc_loop grow (length fl + S fuel) n (freep s) (umem s (freep s))) s (taken al fl s n)) \/
  ((forall c, c ∈ fl -> snd c < n) /\ malloc_loop grow (length fl + S fuel) n (freep s) (umem s (freep s)) s =
    (p ← morecore grow n; if p =? 0 then ret 0 else nx ← ptr_ p; malloc_loop grow fuel n p nx) s).
Proof.
  intros Hs Hn. destruct (ho_freep _ _ _ Hs) as [v Hfp]. apply list_elem_of_split in Hfp as (r1 & r2 & HN).
  assert (Hlen : length (r2 ++ r1) = length fl) by (apply (f_equal length) in HN; rewrite length_app in *; cbn in *; lia).
  assert (Hc := chain_rot _ _ _ _ _ _ HN (ho_chain _ _ _ Hs)). rewrite app_assoc in Hc.
  destruct (nodes_sorted _ _ _ _ _ (ho_apart _ _ _ Hs) HN) as [Hs1 Hs2].
  assert (Hhd : exists p, head ((r2 ++ r1) ++ [(freep s, v)]) = Some p /\ umem s (freep s) = fst p).
  { destruct Hc as (_ & Hnx & _). destruct (r2 ++ r1) as [|[d w] l]; eexists; (split; [done|exact Hnx]). }
  destruct Hhd as (p & Hhd & ->).
  assert (Hm : forall c, c ∈ (r2 ++ r1) ++ [(freep s, v)] -> 0 <= fst c /\ fst c + 8 <= usz s).
  { intros [c w] Hin. assert (Hx : (c, w) ∈ b0 :: fl) by (rewrite HN; set_solver). pose proof (node_in _ _ _ _ _ Hs Hx). cbn. lia. }
  assert (Hne : forall c, c ∈ r2 ++ r1 -> fst c <> freep s).
  { intros c [Hin|Hin]%elem_of_app; [specialize (Hs2 c Hin)|specialize (Hs1 c Hin)]; cbn in *; lia. }
  assert (Hw := malloc_walk n s v fuel (r2 ++ r1) (freep s, v) Hc Hm Hne p Hhd). cbn [fst] in Hw. rewrite <- Hlen. unfold runs. rewrite Hw.
  destruct (first_fit n (freep s, v) ((r2 ++ r1) ++ [(freep s, v)])) as [[[y w] [z u]]|] eqn:Hff.
  - left. apply first_fit_Some in Hff as [Ha Hu]. cbn in Hu. rewrite <- app_assoc in Ha.
    apply (adj_rot _ _ _ _ _ _ _ HN) in Ha as [(a & b & Ha)|[_ [= -> ->]]]; [|lia].
    cbn [fst snd]. change (runs (malloc_take n y z u) s (taken al fl s n)).
    destruct (decide (u = n)) as [->|Hun]; [by eapply take_exact|eapply take_end; [done|done|lia]].
  - right. split; [|done]. intros c Hin. apply (first_fit_None _ _ _ c Hff). assert (Hx : c ∈ b0 :: fl) by (by apply list_elem_of_further).
    rewrite HN in Hx. set_solver.
Qed.

Definition core_units (n : Z) : Z := if n <? 4096 then 4096 else n.
(** The kernel does not give [n] more bytes. *)
Definition refused (s : ust) (n : Z) : Prop := KERNBASE <= usz s + n \/ grow (usz s) n = false.

(** New memory at the end, as a block in use. *)
Lemma heap_grow al fl s n :
  heap_ok al fl s -> 1 <= n -> usz s + 8 * n < KERNBASE ->
  al !! usz s = None /\ heap_ok (<[usz s := n]> al) fl (put (usz s + 4) n (set_usz (usz s + n * 8) s)).
Proof.
  intros Hs Hn Hk. pose proof (ho_size _ _ _ Hs) as Hsz. pose proof (ho_apart _ _ _ Hs) as Hap.
  assert (Hin : forall b, b ∈ fl -> fst b + 8 * snd b <= usz s) by (intros [c v] Hb; apply (apart_in _ _ _ _ _ Hap Hb)).
  assert (Hup : forall l e hi hi', hi <= hi' -> apart e l hi -> apart e l hi').
  { clear. induction l as [|[c v] l IH]; intros e hi hi' Hle; cbn; [lia|]. intros (? & ? & ?). split_and!; [done|done|by eapply IH]. }
  assert (Hnone : al !! usz s = None).
  { destruct (al !! usz s) as [v|] eqn:E; [|done]. destruct (ho_used _ _ _ Hs _ v E) as (? & _ & ? & _). lia. }
  split; [done|]. constructor; cbn [umem usz freep put set_umem set_usz].
  - apply chain_put; [|apply (ho_chain _ _ _ Hs)]. change (b0 :: fl ++ [b0]) with ((b0 :: fl) ++ [b0]).
    intros [Hx|([c v] & Hc & Hx)]%touched_snoc; cbn in Hx; [lia|]. pose proof (node_in _ _ _ _ _ Hs Hc). lia.
  - eapply Hup; [|exact Hap]. lia.
  - apply (ho_freep _ _ _ Hs).
  - lia.
  - intros p u [[<- <-]|[Hne Hp]]%lookup_insert_Some.
    + split_and!; [done|lia|lia|by rewrite decide_True|]. intros b Hb. specialize (Hin b Hb). right. done.
    + destruct (ho_used _ _ _ Hs p u Hp) as (? & ? & ? & ? & ?). split_and!; [done|done|lia|by rewrite decide_False by lia|done].
  - intros p q u v [[<- <-]|[? Hp]]%lookup_insert_Some [[<- <-]|[? Hq]]%lookup_insert_Some Hne; [done| | |by apply (ho_disjoint _ _ _ Hs)].
    + destruct (ho_used _ _ _ Hs q v Hq) as (_ & _ & ? & _). right. done.
    + destruct (ho_used _ _ _ Hs p u Hp) as (_ & _ & ? & _). left. done.
Qed.

Lemma morecore_spec al fl s n :
  heap_ok al fl s -> 1 <= n < 2 ^ 28 ->
  runs (morecore grow n) s (fun r s' =>
    (r = 0 /\ s' = s /\ refused s (8 * core_units n)) \/
    (r = freep s' /\ base <= r /\ usz s' = usz s + 8 * core_units n /\ same_data al s s' /\ exists fl', heap_ok al fl' s' /\
      units fl' = units fl + core_units n /\ (exists c, c ∈ fl' /\ n <= snd c) /\ (length fl' <= S (length fl))%nat)).
Proof.
  intros Hs Hn. pose proof (ho_size _ _ _ Hs) as Hk. assert (Hk' := Hk). unfold KERNBASE in Hk'. unfold morecore. fold (core_units n). set (nu := core_units n).
  assert (Hnu : 1 <= nu < 2 ^ 28 /\ n <= nu) by (unfold nu, core_units; destruct (Z.ltb_spec n 4096); lia).
  unfold sizeof_header. rewrite s32_small by lia. unfold sbrk. apply runs_bind, runs_bind. cbn. rewrite (proj2 (Z.ltb_lt _ _)) by lia.
  rewrite u32_small by lia. destruct (Z.leb_spec KERNBASE (usz s + nu * 8)) as [Hbig|Hsmall].
  { left. split_and!; [done|done|]. left. lia. }
  destruct (grow (usz s) (nu * 8)) eqn:Hg; cbn [negb andb].
  2: { left. split_and!; [done|done|]. right. by replace (8 * nu) with (nu * 8) by lia. }
  unfold runs at 1. cbn. change (u32 (-1)) with (2 ^ 32 - 1). rewrite (proj2 (Z.eqb_neq (usz s) _)) by lia.
  unfold KERNBASE in Hsmall. set (p := usz s). set (s1 := set_usz (p + nu * 8) s). apply runs_bind. unfold set_size.
  eapply runs_Ok; [apply store_ok; cbn; lia|]. set (s2 := put (p + 4) nu s1).
  destruct (heap_grow al fl s nu Hs ltac:(lia) ltac:(unfold KERNBASE; lia)) as [Hnone Hs2]. fold p s1 s2 in Hnone, Hs2.
  destruct (free_spec _ _ _ p nu Hs2 (lookup_insert_eq _ _ _)) as (s3 & fl' & Hf & Hok & Hun & Hsz & Hsd & (c & Hc & Hcn) & Hlen).
  rewrite delete_insert_id in Hok, Hsd by done. apply runs_bind. rewrite hadd_small by (unfold KERNBASE, p; lia). eapply runs_Ok; [exact Hf|]. cbn. right.
  split_and!; [done| |rewrite Hsz; cbn; lia| |].
  - destruct (ho_freep _ _ _ Hok) as [w Hw]. by destruct (node_in _ _ _ _ _ Hok Hw).
  - intros q u x Hq Hx. rewrite (Hsd q u x Hq Hx). destruct (ho_used _ _ _ Hs q u Hq) as (_ & _ & ? & _). unfold s2. rewrite put_ne by (unfold p; lia). done.
  - exists fl'. split_and!; [done|done| |done]. exists c. split; [done|lia].
Qed.

(** The kernel gave memory, and the block was taken from it. *)
Definition grown (al : gmap Z Z) (fl : list node) (s : ust) (n r : Z) (s' : ust) : Prop :=
  exists fl1 s1, heap_ok al fl1 s1 /\ same_data al s s1 /\ units fl1 = units fl + core_units n /\
    usz s1 = usz s + 8 * core_units n /\ taken al fl1 s1 n r s'.

Lemma malloc_main al fl s n :
  heap_ok al fl s -> 1 <= n < 2 ^ 28 ->
  runs (malloc_loop grow (turns s) n (freep s) (umem s (freep s))) s (fun r s' =>
    taken al fl s n r s' \/ ((forall c, c ∈ fl -> snd c < n) /\
      (grown al fl s n r s' \/ (r = 0 /\ s' = s /\ refused s (8 * core_units n))))).
Proof.
  intros Hs Hn. pose proof (apart_le _ _ _ (ho_apart _ _ _ Hs)) as Hle.
  assert (Hfuel : exists f, turns s = (length fl + S (S (length fl) + S f))%nat).
  { exists (turns s - (length fl + S (S (length fl) + 1)))%nat. unfold turns, sizeof_header.
    assert (Z.of_nat (length fl) <= usz s / 8) by (apply Z.div_le_lower_bound; lia). lia. }
  destruct Hfuel as [f ->]. destruct (malloc_round al fl s n (S (length fl) + S f) Hs ltac:(lia)) as [Hr|[Hno Heq]].
  { eapply runs_mono; [exact Hr|]. intros r s' ?. by left. }
  unfold runs. rewrite Heq. fold (runs (p ← morecore grow n; if p =? 0 then ret 0 else nx ← ptr_ p; malloc_loop grow (S (length fl) + S f) n p nx) s (fun r s' =>
    taken al fl s n r s' \/ ((forall c, c ∈ fl -> snd c < n) /\ (grown al fl s n r s' \/ (r = 0 /\ s' = s /\ refused s (8 * core_units n)))))).
  apply runs_bind. eapply runs_mono; [apply (morecore_spec al fl s n Hs Hn)|]. intros r s1 [(-> & -> & Hrf)|(-> & Hfp & Hsz & Hsd & fl1 & Hok & Hun & Hfit & Hlen)].
  { cbn. right. split; [done|]. by right. }
  pose proof (ho_size _ _ _ Hok) as Hk. destruct (ho_freep _ _ _ Hok) as [w Hw]. pose proof (node_in _ _ _ _ _ Hok Hw).
  rewrite (proj2 (Z.eqb_neq _ _)) by lia. apply runs_bind. unfold ptr_. eapply runs_Ok; [apply load_ok; lia|].
  replace (S (length fl) + S f)%nat with (length fl1 + S (S (length fl) - length fl1 + f))%nat by lia.
  destruct (malloc_round al fl1 s1 n (S (length fl) - length fl1 + f) Hok ltac:(lia)) as [Hr|[Hno1 _]].
  - eapply runs_mono; [exact Hr|]. intros r s' Ht. right. split; [done|]. left. by exists fl1, s1.
  - destruct Hfit as (c & Hc & Hcn). specialize (Hno1 c Hc). lia.
Qed.

(** The allocator before the first call of [malloc], or afterwards. *)
Definition heap (al : gmap Z Z) (fl : list node) (s : ust) : Prop :=
  (freep s = 0 /\ al = ∅ /\ fl = [] /\ base + 8 <= usz s < KERNBASE) \/ heap_ok al fl s.

Lemma units_for_small nbytes :
  0 <= nbytes <= 2 ^ 31 - 16 -> 1 <= units_for nbytes < 2 ^ 28 /\ nbytes <= 8 * (units_for nbytes - 1).
Proof.
  intros Hn. unfold units_for, sizeof_header. rewrite (u32_small (nbytes + 8 - 1)) by lia.
  pose proof (Z.div_mod (nbytes + 8 - 1) 8 ltac:(lia)). pose proof (Z.mod_pos_bound (nbytes + 8 - 1) 8 ltac:(lia)). rewrite u32_small by lia. lia.
Qed.

Lemma malloc_init s nbytes :
  freep s = 0 -> base + 8 <= usz s < KERNBASE ->
  exists s1, heap_ok ∅ [] s1 /\ usz s1 = usz s /\ turns s1 = turns s /\
    malloc base grow nbytes s = malloc_loop grow (turns s1) (units_for nbytes) (freep s1) (umem s1 (freep s1)) s1.
Proof.
  intros Hfp Hk. exists (put (base + 4) 0 (set_freep base (put base base s))). split.
  - constructor; cbn [umem usz freep put set_umem set_freep].
    + cbn. rewrite !decide_True by done. rewrite decide_False by lia. by rewrite !decide_True.
    + cbn. lia.
    + exists 0. apply list_elem_of_here.
    + done.
    + by intros p u Hp.
    + by intros p q u v Hp.
  - split; [done|]. split; [done|]. unfold malloc, set_ptr, set_size, ptr_. rewrite (bind_Ok _ _ _ _ _ eq_refl), (bind_Ok _ _ _ _ _ eq_refl).
    cbn zeta. rewrite Hfp, Z.eqb_refl. erewrite bind_Ok.
    2: { rewrite (bind_Ok _ _ _ _ _ (store_ok base base s ltac:(lia) ltac:(lia))), (bind_Ok _ _ _ _ _ eq_refl), (bind_Ok _ _ _ _ _ (store_ok (base + 4) 0 (set_freep base (put base base s)) ltac:(lia) ltac:(cbn; lia))). done. }
    rewrite (bind_Ok _ _ _ _ _ (load_ok base (put (base + 4) 0 (set_freep base (put base base s))) ltac:(lia) ltac:(cbn; lia))). done.
Qed.
End heap.

(** Requests for which the number of units is that of the bytes, and those for
    which it wraps around to one. *)
Definition fits (nbytes : Z) : Prop := 0 <= nbytes <= 2 ^ 31 - 16.
Definition wraps (nbytes : Z) : Prop := 2 ^ 32 - 7 <= nbytes < 2 ^ 32.

Lemma units_for_wraps nbytes : wraps nbytes -> units_for nbytes = 1.
Proof.
  intros Hn. unfold wraps in Hn. unfold units_for, sizeof_header. replace (u32 (nbytes + 8 - 1)) with (nbytes + 7 - 2 ^ 32).
  - rewrite Z.div_small by lia. done.
  - unfold u32. apply (Z.mod_unique _ _ 1); lia.
Qed.

Lemma taken_result base al fl fl1 s s1 n r s' :
  0 < base -> taken base al fl1 s1 n r s' -> same_data al s s1 -> 8 * units fl1 = 8 * units fl + (usz s1 - usz s) ->
  r <> 0 /\ exists q fl', r = q + 8 /\ al !! q = None /\ heap base (<[q := n]> al) fl' s' /\
    same_data al s s' /\ 8 * (units fl' + n) = 8 * units fl + (usz s' - usz s).
Proof.
  intros Hbase (q & fl' & -> & Hno & Hok & Hun & Hsz & Hsd) Hsd1 Hu.
  destruct (ho_used _ _ _ _ Hok q n) as (_ & Hq & _); [apply lookup_insert_eq|]. split; [lia|]. exists q, fl'.
  split_and!; [done|done|by right| |lia]. intros p u x Hp Hx. by rewrite (Hsd p u x Hp Hx), (Hsd1 p u x Hp Hx).
Qed.

(** C32. [malloc] on any state of the allocator, for requests of at most 2^31 -
    16 bytes: it returns, without touching memory outside the process, and gives
    a block that holds [nbytes] bytes, overlaps no block in use and no free one
    and leaves the contents of all blocks in use alone; what it took is missing
    from the free list and nothing else, counting the memory it got from [sbrk];
    it returns 0 only if no free block is large enough and the kernel refuses
    more, and then changes nothing. For the last seven numbers below 2^32 the
    size wraps around: all this holds, but the block is a header with no room
    for any byte. Requests between the two make [sbrk] negative and are not
    covered. *)
Theorem malloc_correct base grow al fl s nbytes :
  0 < base -> heap base al fl s -> fits nbytes \/ wraps nbytes ->
  runs (malloc base grow nbytes) s (fun r s' =>
    if decide (r = 0) then
      heap base al fl s' /\ same_data al s s' /\ (forall b, b ∈ fl -> snd b < units_for nbytes) /\
      refused grow s (8 * core_units (units_for nbytes))
    else exists q n fl', r = q + 8 /\ (fits nbytes -> nbytes <= 8 * (n - 1)) /\ (wraps nbytes -> n = 1) /\
      al !! q = None /\ heap base (<[q := n]> al) fl' s' /\
      same_data al s s' /\ 8 * (units fl' + n) = 8 * units fl + (usz s' - usz s)).
Proof.
  intros Hbase Hs Hn. assert (Hu : 1 <= units_for nbytes < 2 ^ 28).
  { destruct Hn as [Hn|Hn]; [by apply units_for_small|]. rewrite units_for_wraps by done. lia. }
  assert (Hok : exists s1, heap_ok base al fl s1 /\ usz s1 = usz s /\ same_data al s s1 /\
    malloc base grow nbytes s = malloc_loop grow (turns s1) (units_for nbytes) (freep s1) (umem s1 (freep s1)) s1).
  { destruct Hs as [(Hfp & -> & -> & Hk)|Hs].
    - destruct (malloc_init base Hbase grow s nbytes Hfp Hk) as (s1 & H1 & H2 & _ & H3). exists s1. split_and!; [done|done|by intros p u x|done].
    - destruct (ho_freep _ _ _ _ Hs) as [w Hw]. pose proof (node_in base al fl s _ _ Hs Hw). exists s. split_and!; [done|done|done|].
      unfold malloc. rewrite (bind_Ok _ _ _ _ _ eq_refl), (bind_Ok _ _ _ _ _ eq_refl). cbn zeta. rewrite (proj2 (Z.eqb_neq _ _)) by lia.
      rewrite (bind_Ok _ _ _ _ _ eq_refl). unfold ptr_. by rewrite (bind_Ok _ _ _ _ _ (load_ok (freep s) s ltac:(lia) ltac:(lia))). }
  destruct Hok as (s1 & H1 & H2 & H3 & Heq). unfold runs. rewrite Heq. eapply runs_mono; [apply (malloc_main base Hbase grow al fl s1 _ H1 Hu)|]. clear Heq.
  assert (Hroom : (fits nbytes -> nbytes <= 8 * (units_for nbytes - 1)) /\ (wraps nbytes -> units_for nbytes = 1)).
  { split; [apply units_for_small|apply units_for_wraps]. }
  intros r s' [Ht|[Hno [(fl1 & s2 & Hok & Hsd & Hun & Hsz & Ht)|(-> & -> & Hrf)]]].
  - destruct (taken_result base al fl fl s s1 _ r s' Hbase Ht H3 ltac:(lia)) as [Hr (q & fl' & He)]. rewrite decide_False by done. exists q, (units_for nbytes), fl'. naive_solver.
  - destruct (taken_result base al fl fl1 s s2 _ r s' Hbase Ht) as [Hr (q & fl' & He)]; [|lia|rewrite decide_False by done; exists q, (units_for nbytes), fl'; naive_solver].
    intros p u x Hp Hx. by rewrite (Hsd p u x Hp Hx), (H3 p u x Hp Hx).
  - rewrite decide_True by done. split_and!; [by right|done|done|]. unfold refused in *. by rewrite <- H2.
Qed.

(** [free] of a block in use, on any state of the allocator: it returns and
    puts exactly the units of the block on the free list, which stays in order
    of address with no two blocks adjacent, and leaves the contents of the other
    blocks in use alone. *)
Theorem free_correct base al fl s bp u :
  0 < base -> heap base al fl s -> al !! bp = Some u ->
  runs (free (bp + 8)) s (fun _ s' => exists fl', heap base (delete bp al) fl' s' /\ units fl' = units fl + u /\
    usz s' = usz s /\ same_data (delete bp al) s s').
Proof.
  intros Hbase [(_ & -> & _)|Hs] Hbp; [done|]. destruct (free_spec base Hbase al fl s bp u Hs Hbp) as (s' & fl' & Hf & Hok & Hun & Hsz & Hsd & _).
  eapply runs_Ok; [exact Hf|]. exists fl'. split_and!; [by right|done|done|done].
Qed.

(** A process of 64 kilobytes with [base] at 4096, and what it has when it has
    allocated 12 bytes. *)
Definition demo_heap : ust := Ust 0 (fun _ => 0) 65536.
Definition demo_one : ust :=
  match malloc 4096 (fun _ _ => true) 12 demo_heap with Ok (_, s) => s | _ => demo_heap end.
Definition demo_al : gmap Z Z := {[98280 := 3]}.

Lemma demo_start : heap 4096 ∅ [] demo_heap.
Proof. left. done. Qed.
Lemma demo_used : heap 4096 demo_al [(65536, 4093)] demo_one.
Proof.
  right. unfold demo_al. constructor; [by vm_compute|by vm_compute|exists 0; by apply list_elem_of_here|by vm_compute| |].
  - intros p u [<- <-]%lookup_singleton_Some. split_and!; [lia|lia|by vm_compute|by vm_compute|].
    intros b ->%list_elem_of_singleton. right. by vm_compute.
  - intros p q u v [<- <-]%lookup_singleton_Some [<- <-]%lookup_singleton_Some. done.
Qed.

Lemma malloc_correct_witness :
  runs (malloc 4096 (fun _ _ => true) 12) demo_heap (fun r s' =>
    if decide (r = 0) then
      heap 4096 ∅ [] s' /\ same_data ∅ demo_heap s' /\ (forall b, b ∈ ([] : list node) -> snd b < units_for 12) /\
      refused (fun _ _ => true) demo_heap (8 * core_units (units_for 12))
    else exists q n fl', r = q + 8 /\ (fits 12 -> 12 <= 8 * (n - 1)) /\ (wraps 12 -> n = 1) /\ (∅ : gmap Z Z) !! q = None /\ heap 4096 (<[q := n]> ∅) fl' s' /\
      same_data ∅ demo_heap s' /\ 8 * (units fl' + n) = 8 * units [] + (usz s' - usz demo_heap)).
Proof. apply (malloc_correct 4096 (fun _ _ => true) ∅ [] demo_heap 12); [lia|exact demo_start|left; unfold fits; lia]. Defined.

Lemma free_correct_witness :
  runs (free (98280 + 8)) demo_one (fun _ s' => exists fl', heap 4096 (delete 98280 demo_al) fl' s' /\
    units fl' = units [(65536, 4093)] + 3 /\ usz s' = usz demo_one /\ same_data (delete 98280 demo_al) demo_one s').
Proof. apply (free_correct 4096 demo_al [(65536, 4093)] demo_one 98280 3); [lia|exact demo_used|by vm_compute]. Defined.

(** Sizes near 2^32 wrap around: [malloc] of 4294967295 bytes succeeds with a
    block of one header and no room at all. *)
Lemma malloc_wraps :
  match malloc 4096 (fun _ _ => true) (2 ^ 32 - 1) demo_heap with
  | Ok (r, s) => r = 98304 /\ umem s (r - 8 + 4) = 1
  | _ => False
  end.
Proof. by vm_compute. Qed.

(** A request of two gigabytes makes [sbrk] a negative number: it succeeds
    without giving memory, and [morecore] writes above the end of the process. *)
Lemma malloc_negative_sbrk : malloc 4096 (fun _ _ => true) (2 ^ 31) demo_heap = Fault "page fault".
Proof. by vm_compute. Qed.
