(* ===== verification/Kbd.v ===== *)
(** The keyboard driver ([kbd.c], [kbd.h]): scan codes to characters. *)

From Stdlib Require Import Ascii String.
From S2P Require Import Prelude.

(** The bytes of a C string. *)
Fixpoint chars (s : string) : list Z :=
  match s with
  | EmptyString => []
  | String c s => Z.of_N (N_of_ascii c) :: chars s
  end.

Definition NO : Z := 0.
Definition SHIFT : Z := 1.
Definition CTL : Z := 2.
Definition ALT : Z := 4.
Definition CAPSLOCK : Z := 8.
Definition NUMLOCK : Z := 16.
Definition SCROLLLOCK : Z := 32.
Definition E0ESC : Z := 64.
(** [C(x)], the character control-x. *)
Definition C (x : Z) : Z := x - 64.
Definition KBS_DIB : Z := 1.

(** An array initialised with the first elements and some others. *)
Definition table (l : list Z) (at_ : list (Z * Z)) (i : Z) : Z :=
  match list_find (fun p => fst p = i) at_ with
  | Some (_, (_, v)) => v
  | None => default NO (l !! Z.to_nat i)
  end.

Definition shiftcode : Z -> Z := table [] [(29, CTL); (42, SHIFT); (54, SHIFT); (56, ALT); (157, CTL); (184, ALT)].
Definition togglecode : Z -> Z := table [] [(58, CAPSLOCK); (69, NUMLOCK); (70, SCROLLLOCK)].

(** KEY_UP and so on, behind the escape code. *)
Definition special_keys : list (Z * Z) :=
  [(200, 226); (208, 227); (201, 230); (209, 231); (203, 228); (205, 229); (151, 224); (207, 225); (210, 232); (211, 233)].

Definition normalmap : Z -> Z := table
  ([NO; 27] ++ chars "123456" ++
   chars "7890-=" ++ [8; 9] ++
   chars "qwertyui" ++
   chars "op[]" ++ [10; NO] ++ chars "as" ++
   chars "dfghjkl;" ++
   chars "'`" ++ [NO] ++ chars "\zxcv" ++
   chars "bnm,./" ++ [NO] ++ chars "*" ++
   [NO] ++ chars " " ++ replicate 6 NO ++
   replicate 7 NO ++ chars "7" ++
   chars "89-456+1" ++
   chars "230." ++ replicate 4 NO)
  ([(156, 10); (181, 47)] ++ special_keys).

Definition shiftmap : Z -> Z := table
  ([NO; 27] ++ chars "!@#$%^" ++
   chars "&*()_+" ++ [8; 9] ++
   chars "QWERTYUI" ++
   chars "OP{}" ++ [10; NO] ++ chars "AS" ++
   chars "DFGHJKL:" ++
   [34] ++ chars "~" ++ [NO] ++ chars "|ZXCV" ++
   chars "BNM<>?" ++ [NO] ++ chars "*" ++
   [NO] ++ chars " " ++ replicate 6 NO ++
   replicate 7 NO ++ chars "7" ++
   chars "89-456+1" ++
   chars "230." ++ replicate 4 NO)
  ([(156, 10); (181, 47)] ++ special_keys).

Definition ctlmap : Z -> Z := table
  (replicate 8 NO ++
   replicate 8 NO ++
   (C <$> chars "QWERTYUI") ++
   (C <$> chars "OP") ++ [NO; NO; 13; NO] ++ (C <$> chars "AS") ++
   (C <$> chars "DFGHJKL") ++ [NO] ++
   [NO; NO; NO] ++ (C <$> chars "\ZXCV") ++
   (C <$> chars "BNM") ++ [NO; NO; u8 (C 47); NO; NO])
  ([(156, 13); (181, u8 (C 47))] ++ special_keys).

Definition charcode (i : Z) : Z -> Z := if i =? 0 then normalmap else if i =? 1 then shiftmap else ctlmap.

(** [kbdgetc] when the controller has the byte [data]: the result and [shift]. *)
Definition kbdgetc_data (shift data : Z) : Z * Z :=
  if data =? 224 then (0, Z.lor shift E0ESC)
  else if negb (Z.land data 128 =? 0) then
    let data := if negb (Z.land shift E0ESC =? 0) then data else Z.land data 127 in
    (0, Z.land shift (Z.lnot (Z.lor (shiftcode data) E0ESC)))
  else
    let '(data, shift) := if negb (Z.land shift E0ESC =? 0) then (Z.lor data 128, Z.land shift (Z.lnot E0ESC)) else (data, shift) in
    let shift := Z.lor shift (shiftcode data) in
    let shift := Z.lxor shift (togglecode data) in
    let c := charcode (Z.land shift (Z.lor CTL SHIFT)) data in
    let c := if negb (Z.land shift CAPSLOCK =? 0) then
               if (97 <=? c) && (c <=? 122) then c + (65 - 97)
               else if (65 <=? c) && (c <=? 90) then c + (97 - 65) else c
             else c in
    (c, shift).

(** The bytes the controller holds, and [shift]. *)
Record kbd := Kbd { kb_data : list Z; kb_shift : Z }.
Definition kbdgetc (k : kbd) : Z * kbd :=
  match kb_data k with
  | [] => (-1, k)
  | data :: rest => let '(c, sh) := kbdgetc_data (kb_shift k) data in (c, Kbd rest sh)
  end.
(** What the calls of [kbdgetc] return until one returns -1. *)
Fixpoint kbd_chars (shift : Z) (data : list Z) : list Z * Z :=
  match data with
  | [] => ([], shift)
  | d :: data =>
      let '(c, sh) := kbdgetc_data shift d in
      let '(cs, sh) := kbd_chars sh data in (c :: cs, sh)
  end.
