(* ===== verification/Console.v ===== *)
(** The console ([console.c], the output of [uart.c]): the screen, printing and
    the line editing of the input.

    [cons.lock] is held inside single functions; a reader that sleeps on
    [input.r] waits in [readers] until [wakeup] makes it ready again.  The inode
    of the device, which a reader unlocks while it waits, plays no part.
    Characters are bytes. *)

From S2P Require Import Prelude Ulib Kbd.

Definition BACKSPACE : Z := 256.
Definition INPUT_BUF : Z := 128.
Definition NEWLINE : Z := 10.
Definition CR : Z := 13.
(** [C('D')], the end of the input. *)
Definition EOT : Z := 4.

(** ** State *)

Record input := Input { in_buf : list Z; in_r : Z; in_w : Z; in_e : Z }.

(** A process inside [consoleread]: what it has still to read, what it was
    asked for and what it has stored. *)
Inductive rstate := Rready | Rsleeping | Rdone (result : Z).
Record reader := Reader { rd_n : Z; rd_target : Z; rd_got : list Z; rd_state : rstate; rd_killed : bool }.

(** [crt] is the screen and [cpos] the cursor of its controller; [sent] is what
    the serial port, if there is one, has sent. *)
Record cons := Cons {
  inp : input;
  crt : Z -> Z;
  cpos : Z;
  uart : bool;
  sent : list Z;
  panicked : bool;
  readers : list reader
}.
Definition set_inp (v : input) (s : cons) : cons := Cons v (crt s) (cpos s) (uart s) (sent s) (panicked s) (readers s).
Definition set_crt (v : Z -> Z) (s : cons) : cons := Cons (inp s) v (cpos s) (uart s) (sent s) (panicked s) (readers s).
Definition set_cpos (v : Z) (s : cons) : cons := Cons (inp s) (crt s) v (uart s) (sent s) (panicked s) (readers s).
Definition set_sent (v : list Z) (s : cons) : cons := Cons (inp s) (crt s) (cpos s) (uart s) v (panicked s) (readers s).
Definition set_readers (v : list reader) (s : cons) : cons := Cons (inp s) (crt s) (cpos s) (uart s) (sent s) (panicked s) v.

Definition C_ (A : Type) : Type := M cons A.

(** ** Output *)

(** [inb(COM1+5)] is polled at most 128 times; then the byte goes out. *)
Definition uartputc (c : Z) : C_ () :=
  modify (fun s => if uart s then set_sent (sent s ++ [u8 c]) s else s).

Definition crt_set (m : Z -> Z) (i v : Z) : Z -> Z := fun x => if x =? i then v else m x.
(** Move the 23 lines below the first up by one and clear from [pos] on. *)
Definition scroll (pos : Z) (m : Z -> Z) : Z -> Z := fun x =>
  if (pos <=? x) && (x <? 24 * 80) then 0 else
  if (0 <=? x) && (x <? 23 * 80) then m (x + 80) else m x.

Definition cgaputc (c : Z) : C_ () :=
  pos ← gets cpos;
  pos ← (if c =? NEWLINE then ret (pos + (80 - Z.rem pos 80))
         else if c =? BACKSPACE then ret (if 0 <? pos then pos - 1 else pos)
         else modify (fun s => set_crt (crt_set (crt s) pos (Z.lor (Z.land c 255) 1792)) s);; ret (pos + 1));
  if (pos <? 0) || (25 * 80 <? pos) then panic "pos under/overflow" else
  pos ← (if 24 <=? pos / 80 then
           modify (fun s => set_crt (scroll (pos - 80) (crt s)) s);; ret (pos - 80)
         else ret pos);
  modify (set_cpos (u16 pos));;
  modify (fun s => set_crt (crt_set (crt s) pos (Z.lor 32 1792)) s).

Definition consputc (c : Z) : C_ () :=
  p ← gets panicked;
  if p then spin else
  (if c =? BACKSPACE then uartputc 8;; uartputc 32;; uartputc 8 else uartputc c);;
  cgaputc c.
Fixpoint consputs (l : list Z) : C_ () :=
  match l with
  | [] => ret ()
  | c :: l => consputc c;; consputs l
  end.

(** [printint]: the digits, in the order they are printed. *)
Definition cdigit (d : Z) : Z := if d <? 10 then 48 + d else 87 + d.
Fixpoint cdigits (fuel : nat) (x base : Z) : list Z :=
  match fuel with
  | O => []
  | S fuel => cdigit (x mod base) :: if x / base =? 0 then [] else cdigits fuel (x / base) base
  end.
Definition cprintint (xx base : Z) (sign : bool) : list Z :=
  let neg := sign && (s32 xx <? 0) in
  let x := if neg then u32 (- s32 xx) else u32 xx in
  reverse (cdigits 16 x base ++ if neg then [MINUS] else []).

(** The arguments: numbers, and the strings pointers point to. *)
Inductive carg := Num (v : Z) | Str (s : option (list Z)).
(** What [cprintf] prints; [None] if an argument is missing. *)
Fixpoint cformat (fmt : list Z) (ap : list carg) : option (list Z) :=
  match fmt with
  | [] => Some []
  | c :: fmt =>
      if negb (c =? PERCENT) then (fun l => c :: l) <$> cformat fmt ap
      else match fmt with
           | [] => Some []
           | c :: fmt =>
               if (c =? 117) || (c =? 100) then
                 match ap with Num v :: ap => (fun l => cprintint v 10 true ++ l) <$> cformat fmt ap | _ => None end
               else if (c =? 120) || (c =? 112) then
                 match ap with Num v :: ap => (fun l => cprintint v 16 false ++ l) <$> cformat fmt ap | _ => None end
               else if c =? 115 then
                 match ap with Str s :: ap => (fun l => default null_string s ++ l) <$> cformat fmt ap | _ => None end
               else if c =? PERCENT then (fun l => PERCENT :: l) <$> cformat fmt ap
               else (fun l => PERCENT :: c :: l) <$> cformat fmt ap
           end
  end.
Definition cprintf (fmt : option (list Z)) (ap : list carg) : C_ () :=
  match fmt with
  | None => panic "null fmt"
  | Some fmt =>
      match cformat fmt ap with
      | Some l => consputs l
      | None => fault "cprintf: argument"
      end
  end.

Definition consolewrite (buf : list Z) (n : Z) : C_ Z :=
  consputs (u8 <$> take (Z.to_nat n) buf);;
  ret n.

(** ** Input *)

Definition buf_at (i : input) (k : Z) : Z := default 0 (in_buf i !! Z.to_nat (k mod INPUT_BUF)).

(** [wakeup(&input.r)]. *)
Definition wake_reader (r : reader) : reader :=
  match rd_state r with
  | Rsleeping => Reader (rd_n r) (rd_target r) (rd_got r) Rready (rd_killed r)
  | _ => r
  end.
Definition wakeup_readers : C_ () := modify (fun s => set_readers (wake_reader <$> readers s) s).

(** [input.e--] and the character off the screen. *)
Definition erase : C_ () :=
  modify (fun s => let i := inp s in set_inp (Input (in_buf i) (in_r i) (in_w i) (u32 (in_e i - 1))) s);;
  consputc BACKSPACE.
Fixpoint kill_line (fuel : nat) : C_ () :=
  match fuel with
  | O => spin
  | S fuel =>
      i ← gets inp;
      if negb (in_e i =? in_w i) && negb (buf_at i (u32 (in_e i - 1)) =? NEWLINE) then erase;; kill_line fuel else ret ()
  end.

(** A character that is put into the buffer. *)
Definition store_char (c : Z) : C_ () :=
  modify (fun s => let i := inp s in
    set_inp (Input (<[Z.to_nat (in_e i mod INPUT_BUF) := u8 c]> (in_buf i)) (in_r i) (in_w i) (u32 (in_e i + 1))) s);;
  consputc c;;
  i ← gets inp;
  when ((c =? NEWLINE) || (c =? EOT) || (in_e i =? u32 (in_r i + INPUT_BUF))) (
    modify (fun s => set_inp (Input (in_buf i) (in_r i) (in_e i) (in_e i)) s);;
    wakeup_readers).

(** One character of [consoleintr]; whether it asks for [procdump]. *)
Definition intr_char (c : Z) : C_ bool :=
  if c =? C 80 then ret true else
  (if c =? C 85 then i ← gets inp; kill_line (S (Z.to_nat (u32 (in_e i - in_w i))))
   else if (c =? C 72) || (c =? 127) then i ← gets inp; when (negb (in_e i =? in_w i)) erase
   else i ← gets inp;
     when (negb (c =? 0) && (u32 (in_e i - in_r i) <? INPUT_BUF)) (store_char (if c =? CR then NEWLINE else c)));;
  ret false.
(** [cs] is what [getc] returns before it returns -1. *)
Fixpoint consoleintr (cs : list Z) : C_ bool :=
  match cs with
  | [] => ret false
  | c :: cs => d ← intr_char c; d' ← consoleintr cs; ret (d || d')
  end.

(** [consoleread] of reader [k], from where it stands until it sleeps or
    returns. *)
Fixpoint read_loop (fuel : nat) (n target : Z) (got : list Z) (killed : bool) : C_ reader :=
  match fuel with
  | O => spin
  | S fuel =>
      if 0 <? n then
        i ← gets inp;
        if in_r i =? in_w i then
          ret (Reader n target got (if killed then Rdone (-1) else Rsleeping) killed)
        else
          let c := buf_at i (in_r i) in
          modify (fun s => set_inp (Input (in_buf i) (u32 (in_r i + 1)) (in_w i) (in_e i)) s);;
          if c =? EOT then
            when (n <? target) (modify (fun s => let i := inp s in set_inp (Input (in_buf i) (u32 (in_r i - 1)) (in_w i) (in_e i)) s));;
            ret (Reader n target got (Rdone (target - n)) killed)
          else if c =? NEWLINE then ret (Reader (n - 1) target (got ++ [c]) (Rdone (target - (n - 1))) killed)
          else read_loop fuel (n - 1) target (got ++ [c]) killed
      else ret (Reader n target got (Rdone (target - n)) killed)
  end.

(** What can happen on the console: characters arrive, a process calls
    [consoleread], a reader that is ready goes on, a process is killed. *)
Inductive cevent := Typed (cs : list Z) | Read (n : Z) | Turn (k : nat) | Kill (k : nat).

Definition consoleread_start (n : Z) : C_ () := modify (fun s => set_readers (readers s ++ [Reader n n [] Rready false]) s).
Definition consoleread_turn (k : nat) : C_ () :=
  l ← gets readers;
  match l !! k with
  | Some (Reader n target got Rready killed) =>
      r ← read_loop (S (Z.to_nat n)) n target got killed;
      modify (fun s => set_readers (<[k := r]> (readers s)) s)
  | _ => ret ()
  end.
(** [kill] of [proc.c], as it concerns a reader. *)
Definition kill_reader (k : nat) : C_ () :=
  l ← gets readers;
  match l !! k with
  | Some (Reader n target got st _) =>
      modify (set_readers (<[k := wake_reader (Reader n target got st true)]> l))
  | None => ret ()
  end.

Definition cstep (e : cevent) : C_ () :=
  match e with
  | Typed cs => consoleintr cs;; ret ()
  | Read n => consoleread_start n
  | Turn k => consoleread_turn k
  | Kill k => kill_reader k
  end.
Fixpoint csteps (es : list cevent) : C_ () :=
  match es with
  | [] => ret ()
  | e :: es => cstep e;; csteps es
  end.
