(* ===== verification/ConsoleThms.v ===== *)
(** The console: the input is a line editor with a queue of finished input in
    front of it; the cursor stays on the screen. *)

From S2P Require Import Prelude Ulib Kbd Console.

(** ** Output *)

(** The cursor is in the first 24 lines. *)
Definition on_screen (s : cons) : Prop := panicked s = false /\ 0 <= cpos s < 24 * 80.
(** Output leaves the input and its readers alone. *)
Definition same_in (s s' : cons) : Prop := inp s' = inp s /\ readers s' = readers s.

Lemma cgaputc_ok c s : on_screen s -> runs (cgaputc c) s (fun _ s' => on_screen s' /\ same_in s s').
Proof.
  intros [Hp Hc]. unfold cgaputc. apply runs_bind. cbn. apply runs_bind.
  eapply runs_mono with (Q := fun pos s' => 0 <= pos <= 24 * 80 /\ panicked s' = false /\ same_in s s').
  { destruct (c =? NEWLINE).
    - cbn. pose proof (Z.rem_bound_pos (cpos s) 80). pose proof (Z.quot_rem (cpos s) 80 ltac:(lia)).
      assert (Z.quot (cpos s) 80 < 24) by (apply Z.quot_lt_upper_bound; lia). assert (0 <= Z.quot (cpos s) 80) by (apply Z.quot_pos; lia).
      split; [lia|done].
    - destruct (c =? BACKSPACE); cbn; [destruct (Z.ltb_spec 0 (cpos s)); (split; [lia|done])|split; [lia|done]]. }
  intros pos s1 (Hpos & H1 & H2). rewrite (proj2 (orb_false_iff _ _)) by (rewrite !Z.ltb_ge; lia).
  apply runs_bind. eapply runs_mono with (Q := fun pos s' => 0 <= pos < 24 * 80 /\ panicked s' = false /\ same_in s s').
  { pose proof (Z.div_mod pos 80 ltac:(lia)). pose proof (Z.mod_pos_bound pos 80 ltac:(lia)).
    destruct (Z.leb_spec 24 (pos / 80)); cbn; (split; [lia|done]). }
  intros q s2 (Hq & H3 & H4). cbn. unfold u16. rewrite Z.mod_small by lia. done.
Qed.

Lemma consputc_ok c s : on_screen s -> runs (consputc c) s (fun _ s' => on_screen s' /\ same_in s s').
Proof.
  intros Hs. unfold consputc. apply runs_bind. cbn. rewrite (proj1 Hs). apply runs_bind.
  eapply runs_mono with (Q := fun _ s' => on_screen s' /\ same_in s s').
  { destruct (c =? BACKSPACE); unfold uartputc, runs, bind, modify; cbn; repeat case_match; done. }
  intros [] s1 [H1 H2]. eapply runs_mono; [by apply cgaputc_ok|]. intros [] s2 [H3 H4]. split; [done|].
  unfold same_in in *. destruct H2, H4. split; congruence.
Qed.

(** ** The line editor *)

(** The input that can be read, and the line that is being edited. *)
Record line := Line { ready : list Z; edit : list Z }.
Definition held (l : line) : Z := Z.of_nat (length (ready l ++ edit l)).

(** A character: the new line, and whether input became ready. *)
Definition line_char (c : Z) (l : line) : line * bool :=
  if decide (c = C 80) then (l, false)
  else if decide (c = C 85) then (Line (ready l) [], false)
  else if decide (c = C 72 \/ c = 127) then (Line (ready l) (take (pred (length (edit l))) (edit l)), false)
  else if decide (c = 0 \/ INPUT_BUF <= held l) then (l, false)
  else
    let c := if decide (c = CR) then NEWLINE else c in
    let e := edit l ++ [c] in
    if decide (c = NEWLINE \/ c = EOT \/ held l + 1 = INPUT_BUF) then (Line (ready l ++ e) [], true)
    else (Line (ready l) e, false).

(** What a reader that wants [n] more bytes takes: the bytes, what is left, and
    whether it is done; [got] says whether it has something already. *)
Fixpoint read_line (n : nat) (got : bool) (l : list Z) : list Z * list Z * bool :=
  match n, l with
  | O, _ => ([], l, true)
  | S n, [] => ([], [], false)
  | S n, c :: l' =>
      if decide (c = EOT) then ([], if got then l else l', true)
      else if decide (c = NEWLINE) then ([c], l', true)
      else let '(d, rest, fin) := read_line n true l' in (c :: d, rest, fin)
  end.

(** The editor with its readers. *)
Definition edited : Type := line * list reader.
Definition type_char (st : edited) (c : Z) : edited :=
  let '(l, w) := line_char c (fst st) in (l, if w then wake_reader <$> snd st else snd st).
Definition turn_reader (l : line) (r : reader) : reader * line :=
  let '(d, rest, fin) := read_line (Z.to_nat (rd_n r)) (rd_n r <? rd_target r) (ready l) in
  let n := rd_n r - Z.of_nat (length d) in
  (Reader n (rd_target r) (rd_got r ++ d)
     (if fin then Rdone (rd_target r - n) else if rd_killed r then Rdone (-1) else Rsleeping) (rd_killed r),
   Line rest (edit l)).
Definition edit_step (st : edited) (e : cevent) : edited :=
  match e with
  | Typed cs => foldl type_char st cs
  | Read n => (fst st, snd st ++ [Reader n n [] Rready false])
  | Turn k =>
      match snd st !! k with
      | Some (Reader n t g Rready d) =>
          let '(r, l) := turn_reader (fst st) (Reader n t g Rready d) in (l, <[k := r]> (snd st))
      | _ => st
      end
  | Kill k =>
      match snd st !! k with
      | Some (Reader n t g x _) => (fst st, <[k := wake_reader (Reader n t g x true)]> (snd st))
      | None => st
      end
  end.

(** ** The ring buffer holds the line *)

Lemma u32_128 x : u32 x mod 128 = x mod 128.
Proof. unfold u32. apply Z.mod_mod_divide. by exists (2 ^ 25). Qed.
Lemma u32_sub x y : u32 (u32 x - u32 y) = u32 (x - y).
Proof. unfold u32. by rewrite <- Zminus_mod. Qed.
Lemma u32_sub_l x y : u32 (u32 x - y) = u32 (x - y).
Proof. unfold u32. by rewrite Zminus_mod_idemp_l. Qed.
Lemma u32_add_l x y : u32 (u32 x + y) = u32 (x + y).
Proof. unfold u32. by rewrite Zplus_mod_idemp_l. Qed.
Lemma u32_inj x d : 0 <= d < 2 ^ 32 -> u32 (x + d) = u32 x <-> d = 0.
Proof.
  intros Hd. split; [|intros ->; by rewrite Z.add_0_r]. intros He.
  assert (Hs : u32 (u32 (x + d) - u32 x) = d) by (rewrite u32_sub; replace (x + d - x) with d by lia; by apply u32_small).
  rewrite He, Z.sub_diag in Hs. by rewrite <- Hs.
Qed.

Lemma buf_at_u32 i x : buf_at i (u32 x) = buf_at i x.
Proof. unfold buf_at, INPUT_BUF. by rewrite u32_128. Qed.

Record in_rep (l : line) (i : input) : Prop := InRep {
  ir_len : length (in_buf i) = 128%nat;
  ir_r : 0 <= in_r i < 2 ^ 32;
  ir_w : in_w i = u32 (in_r i + Z.of_nat (length (ready l)));
  ir_e : in_e i = u32 (in_r i + held l);
  ir_held : held l <= INPUT_BUF;
  ir_at : forall k x, (ready l ++ edit l) !! k = Some x -> buf_at i (in_r i + Z.of_nat k) = x
}.

Lemma held_split l : held l = Z.of_nat (length (ready l)) + Z.of_nat (length (edit l)).
Proof. unfold held. rewrite length_app. lia. Qed.

Lemma in_rep_empty l i : in_rep l i -> in_e i = in_w i <-> edit l = [].
Proof.
  intros [? ? -> -> Hh ?]. rewrite held_split, Z.add_assoc, u32_inj by (rewrite held_split in Hh; unfold INPUT_BUF in Hh; lia).
  destruct (edit l); cbn; split; (done || lia).
Qed.
Lemma in_rep_held l i : in_rep l i -> u32 (in_e i - in_r i) = held l.
Proof.
  intros [? ? ? -> Hh ?]. rewrite u32_sub_l. replace (in_r i + held l - in_r i) with (held l) by lia. apply u32_small.
  unfold INPUT_BUF in Hh. pose proof (held_split l). lia.
Qed.
Lemma in_rep_edit l i : in_rep l i -> u32 (in_e i - in_w i) = Z.of_nat (length (edit l)).
Proof.
  intros [? ? -> -> Hh ?]. rewrite u32_sub, held_split.
  replace (in_r i + (Z.of_nat (length (ready l)) + Z.of_nat (length (edit l))) - (in_r i + Z.of_nat (length (ready l)))) with (Z.of_nat (length (edit l))) by lia.
  apply u32_small. rewrite held_split in Hh. unfold INPUT_BUF in Hh. lia.
Qed.
Lemma in_rep_ready l i : in_rep l i -> in_r i = in_w i <-> ready l = [].
Proof.
  intros [? Hr -> ? Hh ?]. rewrite held_split in Hh. unfold INPUT_BUF in Hh.
  rewrite <- (u32_small (in_r i)) at 1 by done. split.
  - intros He. symmetry in He. apply u32_inj in He; [by destruct (ready l)|lia].
  - intros ->. by rewrite Z.add_0_r.
Qed.

(** The last character of the line. *)
Lemma in_rep_last R E x i : in_rep (Line R (E ++ [x])) i -> buf_at i (u32 (in_e i - 1)) = x.
Proof.
  intros [? ? ? He ? Hat]. rewrite He, u32_sub_l, buf_at_u32. cbn in *. rewrite <- (Hat (length R + length E)%nat x).
  - f_equal. rewrite held_split. cbn. rewrite length_app. cbn. lia.
  - rewrite app_assoc, lookup_app_r by (rewrite length_app; lia). by rewrite length_app, Nat.sub_diag.
Qed.

Lemma in_rep_erase R E x i :
  in_rep (Line R (E ++ [x])) i -> in_rep (Line R E) (Input (in_buf i) (in_r i) (in_w i) (u32 (in_e i - 1))).
Proof.
  intros [H1 H2 H3 H4 H5 H6]. rewrite held_split in H4, H5. cbn in *. rewrite length_app in H4, H5. cbn in *. constructor; cbn.
  - done.
  - done.
  - done.
  - rewrite H4, u32_sub_l, held_split. cbn. f_equal. lia.
  - rewrite held_split. cbn. lia.
  - intros k y Hk. apply (H6 k y). rewrite app_assoc. by apply lookup_app_l_Some.
Qed.

(** The number of characters the buffer has room for is enough to tell the
    places apart. *)
Lemma buf_at_insert i k x v :
  length (in_buf i) = 128%nat -> 0 <= k < 128 ->
  buf_at (Input (<[Z.to_nat (u32 (in_r i + k) mod 128) := v]> (in_buf i)) (in_r i) (in_w i) (in_e i)) (in_r i + x) =
    if decide (x = k) then v else if decide (0 <= x < 128) then buf_at i (in_r i + x) else
    buf_at (Input (<[Z.to_nat (u32 (in_r i + k) mod 128) := v]> (in_buf i)) (in_r i) (in_w i) (in_e i)) (in_r i + x).
Proof.
  intros Hl Hk. assert (Hm : forall y, 0 <= y mod 128 < 128) by (intros y; apply Z.mod_pos_bound; lia).
  unfold buf_at, INPUT_BUF. cbn [in_buf]. rewrite u32_128. case_decide as He.
  - subst x. pose proof (Hm (in_r i + k)). rewrite list_lookup_insert_eq by lia. done.
  - case_decide; [|done]. rewrite list_lookup_insert_ne; [done|]. pose proof (Hm (in_r i + k)). pose proof (Hm (in_r i + x)).
    intros Heq. assert (Heq' : (in_r i + k) mod 128 = (in_r i + x) mod 128) by lia.
    pose proof (Z.div_mod (in_r i + k) 128 ltac:(lia)). pose proof (Z.div_mod (in_r i + x) 128 ltac:(lia)). lia.
Qed.

Lemma in_rep_store R E c i :
  in_rep (Line R E) i -> held (Line R E) < INPUT_BUF ->
  in_rep (Line R (E ++ [c])) (Input (<[Z.to_nat (in_e i mod INPUT_BUF) := c]> (in_buf i)) (in_r i) (in_w i) (u32 (in_e i + 1))).
Proof.
  intros [H1 H2 H3 H4 H5 H6] Hh. unfold INPUT_BUF in *. pose proof (held_split (Line R E)) as Hs. cbn in Hs, H3, H6. constructor; cbn.
  - by rewrite length_insert.
  - done.
  - done.
  - rewrite H4, u32_add_l, !held_split. cbn. rewrite length_app. cbn. f_equal. lia.
  - rewrite held_split. cbn. rewrite length_app. cbn. unfold INPUT_BUF. lia.
  - intros k x Hk. assert (Hb := buf_at_insert i (held (Line R E)) (Z.of_nat k) c H1 ltac:(lia)). rewrite <- H4 in Hb.
    unfold buf_at in Hb |- *. cbn [in_buf] in Hb |- *. rewrite Hb. rewrite app_assoc in Hk. apply lookup_app_Some in Hk as [Hk|[Hk1 Hk2]].
    + pose proof (lookup_lt_Some _ _ _ Hk). rewrite length_app in *. rewrite decide_False, decide_True by lia. by apply H6.
    + rewrite length_app in Hk1, Hk2. apply list_lookup_singleton_Some in Hk2 as [Hk2 <-]. rewrite decide_True by lia. done.
Qed.

Lemma in_rep_commit R E i : in_rep (Line R E) i -> in_rep (Line (R ++ E) []) (Input (in_buf i) (in_r i) (in_e i) (in_e i)).
Proof.
  intros [H1 H2 H3 H4 H5 H6]. assert (Hh : held (Line (R ++ E) []) = held (Line R E)) by (rewrite !held_split; cbn; rewrite length_app; lia).
  constructor; rewrite ?Hh; cbn; [done|done| |done|done|by rewrite app_nil_r]. by rewrite H4.
Qed.

(** A character leaves the front. *)
Lemma in_rep_read c R E i :
  in_rep (Line (c :: R) E) i -> buf_at i (in_r i) = c /\ in_rep (Line R E) (Input (in_buf i) (u32 (in_r i + 1)) (in_w i) (in_e i)).
Proof.
  intros [H1 H2 H3 H4 H5 H6]. rewrite held_split in H4, H5. cbn in *. split; [rewrite <- (H6 0%nat c eq_refl); f_equal; lia|].
  constructor; rewrite ?held_split; cbn; [done|apply u32_range| | |lia|].
  - rewrite H3, u32_add_l. f_equal. lia.
  - rewrite H4, u32_add_l. f_equal. lia.
  - intros k x Hk. specialize (H6 (S k) x Hk). revert H6. unfold buf_at, INPUT_BUF. cbn [in_buf]. intros <-. do 2 f_equal. f_equal.
    rewrite Zplus_mod, u32_128, <- Zplus_mod. f_equal. lia.
Qed.
(** And is put back. *)
Lemma in_rep_unread c R E i :
  in_rep (Line (c :: R) E) i -> in_rep (Line (c :: R) E) (Input (in_buf i) (u32 (u32 (in_r i + 1) - 1)) (in_w i) (in_e i)).
Proof.
  intros Hi. rewrite u32_sub_l. replace (in_r i + 1 - 1) with (in_r i) by lia. rewrite u32_small by apply Hi. by destruct i.
Qed.

(** ** The simulation *)

Record crep (st : edited) (s : cons) : Prop := Crep {
  cr_in : in_rep (fst st) (inp s);
  cr_edit : NEWLINE ∉ edit (fst st);
  cr_readers : readers s = snd st;
  cr_n : Forall (fun r => rd_n r <= rd_target r) (snd st);
  cr_screen : on_screen s
}.

Lemma crep_out l s s' : on_screen s' -> same_in s s' -> crep l s -> crep l s'.
Proof. intros Ho [Hi Hr] [H1 H2 H3 H4 H5]. constructor; [by rewrite Hi|done|by rewrite Hr|done|done]. Qed.

Lemma erase_ok R E x rs s : crep (Line R (E ++ [x]), rs) s -> runs erase s (fun _ s' => crep (Line R E, rs) s').
Proof.
  intros [H1 H2 H3 H5 H4]. unfold erase. apply runs_bind. cbn. eapply runs_mono; [apply consputc_ok; done|].
  intros [] s' [Ho Hs]. eapply crep_out; [done|done|]. constructor; cbn; [by eapply in_rep_erase|cbn in H2; set_solver|done|done|done].
Qed.

Lemma kill_line_ok R rs : forall E s fuel,
  crep (Line R E, rs) s -> (length E < fuel)%nat -> runs (kill_line fuel) s (fun _ s' => crep (Line R [], rs) s').
Proof.
  induction E as [|x E IH] using rev_ind; intros s fuel Hs Hf; (destruct fuel as [|fuel]; [lia|]); cbn [kill_line]; apply runs_bind; cbn.
  - rewrite (proj2 (in_rep_empty _ _ (cr_in _ _ Hs)) eq_refl), Z.eqb_refl. done.
  - assert (Hne : in_e (inp s) <> in_w (inp s)). { intros He%(in_rep_empty _ _ (cr_in _ _ Hs)). cbn in He. by destruct E. }
    assert (x <> NEWLINE) by (pose proof (cr_edit _ _ Hs) as Hed; cbn in Hed; set_solver).
    rewrite (proj2 (Z.eqb_neq _ _) Hne), (in_rep_last R E x) by apply (cr_in _ _ Hs). rewrite (proj2 (Z.eqb_neq _ _)) by done. cbn [negb andb].
    apply runs_bind. eapply runs_mono; [by apply (erase_ok R E x rs)|]. intros [] s1 H1. apply IH; [done|]. rewrite length_app in Hf. cbn in Hf. lia.
Qed.

Lemma store_char_ok R E rs c s :
  crep (Line R E, rs) s -> held (Line R E) < INPUT_BUF -> 0 <= c < 256 ->
  runs (store_char c) s (fun _ s' => crep (if decide (c = NEWLINE \/ c = EOT \/ held (Line R E) + 1 = INPUT_BUF)
    then (Line (R ++ E ++ [c]) [], wake_reader <$> rs) else (Line R (E ++ [c]), rs)) s').
Proof.
  intros [H1 H2 H3 H5 H4] Hh Hc. unfold store_char. apply runs_bind. cbn. replace (u8 c) with c by (unfold u8; rewrite Z.mod_small; lia).
  assert (Hst := in_rep_store R E c (inp s) H1 Hh). set (i1 := Input _ _ _ _) in *. apply runs_bind.
  eapply runs_mono; [apply consputc_ok; exact H4|]. intros [] s1 [Ho [Hi Hr]]. cbn in Hi, Hr. apply runs_bind. cbn. rewrite Hi.
  assert (Hfull : in_e i1 = u32 (in_r i1 + INPUT_BUF) <-> held (Line R E) + 1 = INPUT_BUF).
  { rewrite (ir_e _ _ Hst). assert (Hhs : held (Line R (E ++ [c])) = held (Line R E) + 1) by (rewrite !held_split; cbn; rewrite length_app; cbn; lia).
    rewrite Hhs. unfold INPUT_BUF in *. pose proof (held_split (Line R E)). split; [|by intros ->]. intros He. symmetry in He.
    replace (in_r i1 + 128) with (in_r i1 + (held (Line R E) + 1) + (127 - held (Line R E))) in He by lia. apply u32_inj in He; lia. }
  assert (Hb : (c =? NEWLINE) || (c =? EOT) || (in_e i1 =? u32 (in_r i1 + INPUT_BUF)) =
    bool_decide (c = NEWLINE \/ c = EOT \/ held (Line R E) + 1 = INPUT_BUF)).
  { apply eq_bool_prop_intro. rewrite !orb_True, !Is_true_true, !Z.eqb_eq, bool_decide_eq_true, Hfull. tauto. }
  rewrite Hb. case_bool_decide as Hd; [rewrite decide_True by done|rewrite decide_False by done]; unfold runs; cbn.
  - constructor; cbn; [exact (in_rep_commit R (E ++ [c]) i1 Hst)|by apply not_elem_of_nil|by rewrite Hr, H3| |done].
    apply Forall_fmap. eapply Forall_impl; [exact H5|]. intros r. unfold wake_reader. cbn. by destruct (rd_state r).
  - constructor; cbn; [by rewrite Hi|cbn in H2; rewrite elem_of_app, list_elem_of_singleton; intros [?|?]; [done|apply Hd; auto]|by rewrite Hr|done|done].
Qed.

Lemma intr_char_ok st c s :
  crep st s -> 0 <= c < 256 -> runs (intr_char c) s (fun _ s' => crep (type_char st c) s').
Proof.
  destruct st as [[R E] rs]. intros Hs Hc. pose proof (cr_in _ _ Hs) as Hi. cbn in Hi. unfold intr_char, type_char, line_char. cbn [fst snd].
  destruct (Z.eqb_spec c (C 80)) as [->|H1]; [done|]. rewrite (decide_False (P := c = C 80)) by done.
  apply runs_bind. destruct (Z.eqb_spec c (C 85)) as [->|H2].
  { apply runs_bind. unfold runs at 1. cbn [gets ready edit]. rewrite decide_True by done.
    eapply runs_mono; [apply (kill_line_ok R rs E s); [done|]|by intros [] s' ?]. rewrite (in_rep_edit _ _ Hi). cbn. lia. }
  rewrite (decide_False (P := c = C 85)) by done. destruct (((c =? C 72) || (c =? 127))) eqn:H3.
  { rewrite decide_True by (apply orb_true_iff in H3 as [?%Z.eqb_eq|?%Z.eqb_eq]; auto). apply runs_bind. cbn [gets ready edit].
    unfold runs at 1. cbn. destruct (Z.eqb_spec (in_e (inp s)) (in_w (inp s))) as [He|He]; cbn [negb when].
    - apply (in_rep_empty _ _ Hi) in He. cbn in He. subst E. done.
    - destruct E as [|x E _] using rev_ind; [exfalso; apply He, (in_rep_empty _ _ Hi); done|].
      rewrite length_app, Nat.add_comm. cbn [length Nat.add pred]. rewrite take_app_length. eapply runs_mono; [by apply (erase_ok R E x rs)|]. by intros [] s' ?. }
  rewrite (decide_False (P := c = C 72 \/ c = 127)) by (apply orb_false_iff in H3 as [?%Z.eqb_neq ?%Z.eqb_neq]; naive_solver).
  apply runs_bind. unfold runs at 1. cbn [gets ready edit]. rewrite (in_rep_held _ _ Hi).
  destruct (Z.eqb_spec c 0) as [->|H4]; [rewrite decide_True by auto; done|]. destruct (Z.ltb_spec (held (Line R E)) INPUT_BUF) as [H5|H5]; cbn [negb andb when].
  2: { rewrite decide_True by auto. done. }
  rewrite (decide_False (P := c = 0 \/ _)) by (intros [?|?]; lia).
  assert (Hcc : (if c =? CR then NEWLINE else c) = if decide (c = CR) then NEWLINE else c) by (destruct (Z.eqb_spec c CR); case_decide; done).
  rewrite Hcc. set (c' := if decide (c = CR) then NEWLINE else c). eapply runs_mono; [apply (store_char_ok R E rs c' s Hs H5)|].
  - unfold c', NEWLINE. case_decide; lia.
  - intros [] s' Hs'. cbn. by destruct (decide (c' = NEWLINE \/ _)).
Qed.

Lemma consoleintr_ok cs : forall st s,
  crep st s -> Forall (fun c => 0 <= c < 256) cs -> runs (consoleintr cs) s (fun _ s' => crep (foldl type_char st cs) s').
Proof.
  induction cs as [|c cs IH]; intros st s Hs Hc; [done|]. apply Forall_cons in Hc as [Hc Hcs]. cbn [consoleintr foldl]. apply runs_bind.
  eapply runs_mono; [by apply (intr_char_ok st)|]. intros d s1 H1. apply runs_bind. eapply runs_mono; [exact (IH _ s1 H1 Hcs)|]. by intros d' s2 H2.
Qed.

Lemma read_loop_ok E rs target killed : forall fuel n got R s,
  crep (Line R E, rs) s -> (Z.to_nat n < fuel)%nat -> n <= target ->
  runs (read_loop fuel n target got killed) s (fun r s' =>
    let '(d, rest, fin) := read_line (Z.to_nat n) (n <? target) R in
    let n' := n - Z.of_nat (length d) in
    r = Reader n' target (got ++ d) (if fin then Rdone (target - n') else if killed then Rdone (-1) else Rsleeping) killed /\
    crep (Line rest E, rs) s').
Proof.
  induction fuel as [|fuel IH]; intros n got R s Hs Hf Hn; [lia|]. cbn [read_loop].
  destruct (Z.ltb_spec 0 n) as [H0|H0].
  2: { replace (Z.to_nat n) with O by lia. cbn. by rewrite Z.sub_0_r, app_nil_r. }
  apply runs_bind. unfold runs at 1. cbn [gets]. replace (Z.to_nat n) with (S (Z.to_nat (n - 1))) by lia.
  pose proof (cr_in _ _ Hs) as Hi. cbn [fst] in Hi. destruct R as [|c R].
  { rewrite (proj2 (in_rep_ready _ _ Hi) eq_refl), Z.eqb_refl. cbn. rewrite Z.sub_0_r, app_nil_r. by destruct killed. }
  assert (Hrw : in_r (inp s) <> in_w (inp s)) by (intros He%(in_rep_ready _ _ Hi); done). rewrite (proj2 (Z.eqb_neq _ _) Hrw).
  destruct (in_rep_read _ _ _ _ Hi) as [Hc Hi']. rewrite Hc. cbn [read_line]. apply runs_bind. unfold runs at 1. cbn [modify].
  set (s1 := set_inp _ s). assert (H1 : crep (Line R E, rs) s1) by (destruct Hs; by constructor).
  destruct (Z.eqb_spec c EOT) as [->|Hne]; [rewrite decide_True by done|rewrite decide_False by done].
  { apply runs_bind. destruct (n <? target); unfold runs; cbn; rewrite Z.sub_0_r, app_nil_r; (split; [done|]); [|done].
    destruct Hs as [A B D F G]. constructor; cbn; [|done|done|done|done]. exact (in_rep_unread _ _ _ _ A). }
  destruct (Z.eqb_spec c NEWLINE) as [->|Hnl]; [rewrite decide_True by done|rewrite decide_False by done]; [done|].
  eapply runs_mono; [apply (IH (n - 1) (got ++ [c]) R s1 H1); lia|]. intros r s'. rewrite (proj2 (Z.ltb_lt (n - 1) target)) by lia.
  destruct (read_line (Z.to_nat (n - 1)) true R) as [[d rest] fin]. intros [-> Hs']. cbn [length]. split; [|done].
  replace (n - Z.of_nat (S (length d))) with (n - 1 - Z.of_nat (length d)) by lia. by rewrite <- app_assoc.
Qed.

Lemma cstep_ok e st s :
  crep st s -> match e with Typed cs => Forall (fun c => 0 <= c < 256) cs | _ => True end ->
  runs (cstep e) s (fun _ s' => crep (edit_step st e) s').
Proof.
  destruct st as [l rs]. intros Hs He. destruct e as [cs|n|k|k]; cbn [cstep edit_step fst snd].
  - apply runs_bind. eapply runs_mono; [by apply (consoleintr_ok cs (l, rs))|]. by intros d s' ?.
  - destruct Hs as [A B D F G]. unfold runs. cbn in *. constructor; cbn; [done|done|by rewrite D| |done]. apply Forall_app. split; [done|]. by apply Forall_singleton.
  - unfold consoleread_turn. apply runs_bind. unfold runs at 1. cbn [gets]. rewrite (cr_readers _ _ Hs). cbn [snd].
    destruct (rs !! k) as [[n t g x d]|] eqn:Hk; [|done]. destruct x; [|done|done]. apply runs_bind. destruct l as [R E].
    assert (Hn := Forall_lookup_1 _ _ _ _ (cr_n _ _ Hs) Hk). cbn in Hn.
    eapply runs_mono; [apply (read_loop_ok E rs t d (S (Z.to_nat n)) n g R s Hs); lia|]. intros r s' Hr.
    unfold turn_reader. cbn [rd_n rd_target rd_got rd_killed ready edit]. pose proof (Hlen := Nat2Z.is_nonneg).
    destruct (read_line (Z.to_nat n) (n <? t) R) as [[dd rest] fin]. destruct Hr as [-> [A B D F G]].
    unfold runs. cbn in *. constructor; cbn; [done|done|by rewrite D| |done]. apply Forall_insert; [done|]. cbn. specialize (Hlen (length dd)). lia.
  - unfold kill_reader. apply runs_bind. unfold runs at 1. cbn [gets]. rewrite (cr_readers _ _ Hs). cbn [snd].
    destruct (rs !! k) as [[n t g x d]|] eqn:Hk; [|done]. assert (Hn := Forall_lookup_1 _ _ _ _ (cr_n _ _ Hs) Hk). cbn in Hn.
    destruct Hs as [A B D F G]. unfold runs. cbn in *. constructor; cbn; [done|done|done| |done]. apply Forall_insert; [done|]. by destruct x.
Qed.

(** Characters are bytes. *)
Definition bytes_typed (es : list cevent) : Prop :=
  Forall (fun e => match e with Typed cs => Forall (fun c => 0 <= c < 256) cs | _ => True end) es.

Lemma csteps_ok es : forall st s, crep st s -> bytes_typed es -> runs (csteps es) s (fun _ s' => crep (foldl edit_step st es) s').
Proof.
  induction es as [|e es IH]; intros st s Hs Hb; [done|]. apply Forall_cons in Hb as [He Hb]. cbn [csteps foldl]. apply runs_bind.
  eapply runs_mono; [by apply (cstep_ok e st)|]. intros [] s1 H1. exact (IH _ s1 H1 Hb).
Qed.

(** ** Theorems *)

(** After [consoleinit]: no input, nobody reads. *)
Record booted (s : cons) : Prop := Booted {
  bt_in : inp s = Input (replicate 128 0) 0 0 0;
  bt_readers : readers s = [];
  bt_screen : on_screen s
}.

Lemma booted_crep s : booted s -> crep (Line [] [], []) s.
Proof.
  intros [H1 H2 H3]. constructor; cbn; [rewrite H1|by apply not_elem_of_nil|done|done|done]. by constructor.
Qed.

(** C30. The console refines a line editor: for every sequence of interrupts
    with typed characters, calls of [consoleread], turns of the readers and
    kills, the code returns, never panics and keeps the cursor on the screen;
    the ring buffer with its three wrapping indices holds exactly the finished
    input followed by the line being edited, and every reader has got the bytes
    and the result that the editor gives it. *)
Theorem console_refines es s :
  booted s -> bytes_typed es ->
  runs (csteps es) s (fun _ s' =>
    let st := foldl edit_step (Line [] [], []) es in
    readers s' = snd st /\ in_rep (fst st) (inp s') /\ on_screen s').
Proof.
  intros Hb He. eapply runs_mono; [apply (csteps_ok es _ s (booted_crep s Hb) He)|]. by intros [] s' [H1 _ H3 _ H5].
Qed.

(** A sleeping reader has nothing to read and was not killed. *)
Definition sleepers_ok (st : edited) : Prop :=
  forall r, r ∈ snd st -> rd_state r = Rsleeping -> ready (fst st) = [] /\ rd_killed r = false.

Lemma wake_not_sleeping r : rd_state (wake_reader r) <> Rsleeping.
Proof. unfold wake_reader. destruct (rd_state r) eqn:E; cbn; congruence. Qed.

Lemma sleepers_type st c : sleepers_ok st -> sleepers_ok (type_char st c).
Proof.
  destruct st as [[R E] rs]. unfold sleepers_ok, type_char, line_char. cbn [fst snd ready edit]. intros H.
  do 4 (case_decide; [exact H|]). cbn zeta. set (c' := if decide (c = CR) then NEWLINE else c). destruct (decide (c' = NEWLINE \/ _)); [|exact H].
  cbn. intros r (x & -> & _)%list_elem_of_fmap Hr. by apply wake_not_sleeping in Hr.
Qed.

(** Nothing is taken from an empty queue, and a reader sleeps only then. *)
Lemma read_line_sleep n got l : let '(d, rest, fin) := read_line n got l in (fin = false -> rest = []) /\ (l = [] -> rest = []).
Proof.
  revert got l. induction n as [|n IH]; intros got l; cbn; [done|]. destruct l as [|c l]; [done|].
  repeat case_decide; [by destruct got|done|]. specialize (IH true l). destruct (read_line n true l) as [[d rest] fin]. split; [apply IH|done].
Qed.

Lemma sleepers_step st e : sleepers_ok st -> sleepers_ok (edit_step st e).
Proof.
  destruct st as [l rs]. intros H. destruct e as [cs|n|k|k]; cbn [edit_step fst snd].
  - revert H. generalize (l, rs). induction cs as [|c cs IH]; intros st H; [done|]. cbn. apply IH. by apply sleepers_type.
  - intros r [Hr| ->%list_elem_of_singleton]%elem_of_app; [by apply H|done].
  - destruct (rs !! k) as [[n t g x d]|] eqn:Hk; [|done]. destruct x; [|done|done]. unfold turn_reader. cbn [rd_n rd_target rd_got rd_killed].
    assert (Hrl := read_line_sleep (Z.to_nat n) (n <? t) (ready l)). destruct (read_line _ _ _) as [[dd rest] fin]. destruct Hrl as [Hfin Hnil].
    intros r Hr Hs. cbn [fst snd ready] in *. apply list_elem_of_lookup in Hr as [j Hj]. apply list_lookup_insert_Some in Hj as [(-> & <- & _)|[_ Hj]].
    + cbn in Hs |- *. destruct fin; [done|]. destruct d; [done|]. split; [by apply Hfin|done].
    + destruct (H r) as [Hl Hd]; [by eapply list_elem_of_lookup_2|done|]. cbn in Hl. split; [by apply Hnil|done].
  - destruct (rs !! k) as [[n t g x d]|] eqn:Hk; [|done]. intros r Hr Hs. cbn [fst snd] in *. apply list_elem_of_lookup in Hr as [j Hj].
    apply list_lookup_insert_Some in Hj as [(-> & <- & _)|[_ Hj]]; [by apply wake_not_sleeping in Hs|]. apply H; [by eapply list_elem_of_lookup_2|done].
Qed.

(** No wakeup is lost on the console: whatever is typed and however the
    readers run, a process that sleeps in [consoleread] has nothing to read and
    has not been killed. *)
Theorem console_no_lost_wakeup es s :
  booted s -> bytes_typed es ->
  runs (csteps es) s (fun _ s' => forall k r, readers s' !! k = Some r -> rd_state r = Rsleeping ->
    in_r (inp s') = in_w (inp s') /\ rd_killed r = false).
Proof.
  intros Hb He. eapply runs_mono; [apply (csteps_ok es _ s (booted_crep s Hb) He)|]. intros [] s' Hs' k r Hk Hr.
  assert (Hinv : sleepers_ok (foldl edit_step (Line [] [], []) es)).
  { clear. assert (H0 : sleepers_ok (Line [] [], [])) by (by intros r ?%not_elem_of_nil). revert H0. generalize (Line [] [], [] : list reader).
    induction es as [|e es IH]; intros st H; [done|]. cbn. apply IH. by apply sleepers_step. }
  rewrite (cr_readers _ _ Hs') in Hk. destruct (Hinv r) as [Hl Hd]; [by eapply list_elem_of_lookup_2|done|].
  split; [|done]. by apply (in_rep_ready _ _ (cr_in _ _ Hs')).
Qed.

(** ** From the keys to the reader *)

(** Press and release the key of a character, with shift if it needs it. *)
Definition scan_of (map : Z -> Z) (c : Z) : option Z :=
  match list_find (fun i => map i = c) (seqZ 0 88) with Some (k, _) => Some (Z.of_nat k) | None => None end.
Definition keys (c : Z) : list Z :=
  match scan_of normalmap c with
  | Some i => [i; i + 128]
  | None => match scan_of shiftmap c with Some i => [42; i; i + 128; 170] | None => [] end
  end.
Definition ENTER : list Z := [28; 156].
Definition printable (c : Z) : Prop := 32 <= c < 127.

Lemma kbd_chars_app sh a b :
  kbd_chars sh (a ++ b) = let '(x, sh1) := kbd_chars sh a in let '(y, sh2) := kbd_chars sh1 b in (x ++ y, sh2).
Proof.
  revert sh. induction a as [|d a IH]; intros sh; cbn [app kbd_chars]; [by destruct (kbd_chars sh b)|].
  destruct (kbdgetc_data sh d) as [c sh1]. rewrite IH. destruct (kbd_chars sh1 a) as [x sh2]. by destruct (kbd_chars sh2 b).
Qed.

(** The keys of each printable character give that character, between zeros. *)
Lemma keys_ok c : printable c -> exists a b, kbd_chars 0 (keys c) = (replicate a 0 ++ c :: replicate b 0, 0).
Proof.
  intros Hc. assert (Hall : forallb (fun c => match kbd_chars 0 (keys c) with
    | (l, sh) => bool_decide (sh = 0 /\ (l = [c; 0] \/ l = [0; c; 0; 0])) end) (seqZ 32 95) = true) by by vm_compute.
  rewrite forallb_forall in Hall. assert (Hin : In c (seqZ 32 95)) by (apply list_elem_of_In, elem_of_seqZ; unfold printable in Hc; lia).
  apply Hall in Hin. destruct (kbd_chars 0 (keys c)) as [l sh]. apply bool_decide_eq_true in Hin as [H0 [H1|H1]]; subst; [by exists 0%nat, 1%nat|by exists 1%nat, 2%nat].
Qed.

Lemma type_zeros n st : foldl type_char st (replicate n 0) = st.
Proof.
  induction n as [|n IH]; [done|]. cbn. replace (type_char st 0) with st; [done|]. destruct st as [[R E] rs].
  unfold type_char, line_char. cbn [fst snd]. do 3 rewrite decide_False by (unfold C; lia). by rewrite decide_True by auto.
Qed.

(** Printable characters go to the line, if there is room. *)
Lemma type_printable c R E rs :
  printable c -> held (Line R E) + 1 < INPUT_BUF -> type_char (Line R E, rs) c = (Line R (E ++ [c]), rs).
Proof.
  unfold printable, type_char, line_char, C, CR, NEWLINE, EOT. intros Hc Hh. cbn [fst snd ready edit].
  do 4 rewrite decide_False by lia. rewrite (decide_False (P := c = 13)) by lia. by rewrite decide_False by lia.
Qed.

Lemma type_newline R E rs : held (Line R E) < INPUT_BUF -> type_char (Line R E, rs) NEWLINE = (Line (R ++ E ++ [NEWLINE]) [], wake_reader <$> rs).
Proof.
  unfold type_char, line_char, C, CR, NEWLINE. intros Hh. cbn [fst snd ready edit]. do 4 rewrite decide_False by lia.
  rewrite (decide_False (P := 10 = 13)) by lia. by rewrite decide_True by auto.
Qed.

Lemma type_text text : forall R E rs,
  Forall printable text -> held (Line R E) + Z.of_nat (length text) < INPUT_BUF ->
  foldl type_char (Line R E, rs) (fst (kbd_chars 0 (mjoin (keys <$> text)))) = (Line R (E ++ text), rs) /\
  snd (kbd_chars 0 (mjoin (keys <$> text))) = 0.
Proof.
  induction text as [|c text IH]; intros R E rs Hp Hh; cbn [fmap list_fmap mjoin list_join].
  { cbn. by rewrite app_nil_r. }
  apply Forall_cons in Hp as [Hc Hp]. destruct (keys_ok c Hc) as (a & b & Hk). rewrite kbd_chars_app, Hk. cbn [length] in Hh.
  destruct (IH R (E ++ [c]) rs Hp) as [I1 I2]. { rewrite held_split in Hh |- *. cbn in *. rewrite length_app. cbn. lia. }
  destruct (kbd_chars 0 (mjoin (keys <$> text))) as [l sh]. cbn [fst snd] in *. split; [|done].
  rewrite foldl_app, foldl_app, type_zeros. cbn [foldl]. rewrite type_printable, type_zeros, I1 by (done || lia). by rewrite <- app_assoc.
Qed.

Lemma typed_bytes text : Forall printable text -> Forall (fun c => 0 <= c < 256) (fst (kbd_chars 0 (mjoin (keys <$> text)))).
Proof.
  intros Hp. enough (H : Forall (fun c => 0 <= c < 256) (fst (kbd_chars 0 (mjoin (keys <$> text)))) /\ snd (kbd_chars 0 (mjoin (keys <$> text))) = 0) by apply H.
  induction Hp as [|c text Hc Hp [I1 I2]]; cbn [fmap list_fmap mjoin list_join]; [done|].
  destruct (keys_ok c Hc) as (a & b & Hk). rewrite kbd_chars_app, Hk. destruct (kbd_chars 0 (mjoin (keys <$> text))) as [l sh]. cbn [fst snd] in *.
  split; [|done]. rewrite !Forall_app, Forall_cons. unfold printable in Hc. split_and!; try lia; [apply Forall_replicate; lia|apply Forall_replicate; lia|done].
Qed.

Lemma read_line_text text got rest n :
  Forall printable text -> (length text < n)%nat -> read_line n got (text ++ NEWLINE :: rest) = (text ++ [NEWLINE], rest, true).
Proof.
  revert got n. induction text as [|c text IH]; intros got n Hp Hn; (destruct n as [|n]; [cbn in Hn; lia|]); cbn [app read_line].
  - by rewrite decide_False, decide_True.
  - apply Forall_cons in Hp as [Hc Hp]. unfold printable in Hc. rewrite !decide_False by (unfold EOT, NEWLINE; lia).
    rewrite IH by (done || (cbn in Hn; lia)). done.
Qed.

(** C31. What is typed is what is read: when a process waits in [consoleread]
    and somebody presses the keys of a line of printable text, shift included,
    and the enter key, the scan codes come out of [kbdgetc] as that text and the
    process gets exactly the line with its newline, for every text that fits the
    buffer. *)
Theorem typed_text_is_read text n s :
  booted s -> Forall printable text -> Z.of_nat (length text) < INPUT_BUF - 1 -> Z.of_nat (length text) < n ->
  runs (csteps [Read n; Turn 0; Typed (fst (kbd_chars 0 (mjoin (keys <$> text) ++ ENTER))); Turn 0]) s (fun _ s' =>
    exists r, readers s' = [r] /\ rd_got r = text ++ [NEWLINE] /\ rd_state r = Rdone (Z.of_nat (length text) + 1)).
Proof.
  intros Hb Hp Hl Hn. unfold INPUT_BUF in Hl. assert (Hty := type_text text [] [] [Reader n n [] Rsleeping false] Hp ltac:(unfold held, INPUT_BUF; cbn; lia)).
  assert (Hby := typed_bytes text Hp). rewrite kbd_chars_app. destruct (kbd_chars 0 (mjoin (keys <$> text))) as [l sh]. cbn [fst snd] in *. destruct Hty as [Hty ->].
  change (kbd_chars 0 ENTER) with ([NEWLINE; 0], 0). cbn [fst].
  eapply runs_mono; [apply (csteps_ok _ _ s (booted_crep s Hb))|].
  - repeat apply Forall_cons_2; [done|done| |done|apply Forall_nil_2]. apply Forall_app. split; [done|]. repeat apply Forall_cons_2; [done|done|apply Forall_nil_2].
  - intros [] s' Hs'. assert (Hr := cr_readers _ _ Hs'). clear Hs'. revert Hr. cbn [foldl].
    assert (S1 : edit_step (edit_step (Line [] [], []) (Read n)) (Turn 0) = (Line [] [], [Reader n n [] Rsleeping false])).
    { cbn [edit_step fst snd app lookup list_lookup]. unfold turn_reader. cbn [rd_n rd_target rd_got rd_killed ready edit].
      replace (Z.to_nat n) with (S (Z.to_nat (n - 1))) by lia. cbn. by rewrite Z.sub_0_r. }
    assert (S2 : edit_step (Line [] [], [Reader n n [] Rsleeping false]) (Typed (l ++ [NEWLINE; 0])) =
      (Line (text ++ [NEWLINE]) [], [Reader n n [] Rready false])).
    { cbn [edit_step]. rewrite foldl_app, Hty. cbn [foldl app]. rewrite type_newline by (unfold held, INPUT_BUF; cbn; lia). exact (type_zeros 1 _). }
    rewrite S1, S2. cbn [edit_step fst snd app lookup list_lookup]. unfold turn_reader. cbn [rd_n rd_target rd_got rd_killed ready edit].
    rewrite (read_line_text text _ [] (Z.to_nat n)) by (done || lia). cbn. intros ->. eexists. split; [done|]. cbn. split; [done|].
    f_equal. rewrite length_app. cbn. lia.
Qed.

Definition demo_cons : cons := Cons (Input (replicate 128 0) 0 0 0) (fun _ => 0) 0 true [] false [].
Lemma demo_booted : booted demo_cons.
Proof. by constructor. Qed.

(** Somebody types [ls], a wrong letter, backspace and return. *)
Definition demo_typing : list cevent := [Read 10; Turn 0; Typed [108; 115; 120; 127; 13]; Turn 0].

Lemma console_refines_witness :
  runs (csteps demo_typing) demo_cons (fun _ s' =>
    let st := foldl edit_step (Line [] [], []) demo_typing in
    readers s' = snd st /\ in_rep (fst st) (inp s') /\ on_screen s') /\
  snd (foldl edit_step (Line [] [], []) demo_typing) = [Reader 7 10 [108; 115; 10] (Rdone 3) false].
Proof.
  split; [|by vm_compute]. apply (console_refines demo_typing demo_cons demo_booted).
  repeat first [apply Forall_cons_2|apply Forall_nil_2|exact I|lia].
Defined.

Lemma console_no_lost_wakeup_witness :
  runs (csteps [Read 10; Turn 0; Typed [108]]) demo_cons (fun _ s' => forall k r, readers s' !! k = Some r -> rd_state r = Rsleeping ->
    in_r (inp s') = in_w (inp s') /\ rd_killed r = false).
Proof.
  apply (console_no_lost_wakeup _ demo_cons demo_booted).
  repeat first [apply Forall_cons_2|apply Forall_nil_2|exact I|lia].
Defined.

Lemma typed_text_is_read_witness :
  runs (csteps [Read 10; Turn 0; Typed (fst (kbd_chars 0 (mjoin (keys <$> [76; 115]) ++ ENTER))); Turn 0]) demo_cons (fun _ s' =>
    exists r, readers s' = [r] /\ rd_got r = [76; 115] ++ [NEWLINE] /\ rd_state r = Rdone (Z.of_nat (length [76; 115]) + 1)).
Proof.
  apply (typed_text_is_read [76; 115] 10 demo_cons demo_booted); [|done|done].
  repeat apply Forall_cons_2; [unfold printable; lia..|apply Forall_nil_2].
Defined.
