(* ===== verification/Grep.v ===== *)
(** The user program [grep.c].

    A C string is the list of its bytes before the NUL, so that reading the
    NUL is finding the empty list. *)

From S2P Require Import Prelude.

Definition NL : Z := 10.
Definition DOLLAR : Z := 36.
Definition STAR : Z := 42.
Definition DOT : Z := 46.
Definition CARET : Z := 94.

(** ** The matcher *)

(** [here] is [matchhere(re, -)]. *)
Fixpoint matchstar (here : list Z -> bool) (c : Z) (text : list Z) : bool :=
  if here text then true else
  match text with
  | x :: text' => if (x =? c) || (c =? DOT) then matchstar here c text' else false
  | [] => false
  end.

Fixpoint matchhere (re text : list Z) : bool :=
  match re with
  | [] => true
  | c :: re1 =>
      if bool_decide (head re1 = Some STAR) then
        match re1 with
        | _ :: re2 => matchstar (matchhere re2) c text
        | [] => false
        end
      else if (c =? DOLLAR) && bool_decide (re1 = []) then bool_decide (text = [])
      else
        match text with
        | x :: text' => if (c =? DOT) || (c =? x) then matchhere re1 text' else false
        | [] => false
        end
  end.

(** The loop of [match] over the text. *)
Fixpoint match_from (re text : list Z) : bool :=
  if matchhere re text then true else
  match text with
  | _ :: text' => match_from re text'
  | [] => false
  end.
Definition match_ (re text : list Z) : bool :=
  match re with
  | c :: re' => if c =? CARET then matchhere re' text else match_from re text
  | [] => match_from re text
  end.

(** ** Reading lines *)

(** [strchr(p, '\n')] on the bytes of the buffer from [p] on, which a NUL
    follows: the bytes before the newline and those after it. *)
Fixpoint strchr_nl (b : list Z) : option (list Z * list Z) :=
  match b with
  | [] => None
  | x :: b' =>
      if x =? NL then Some ([], b')
      else if x =? 0 then None
      else match strchr_nl b' with
           | Some (l, r) => Some (x :: l, r)
           | None => None
           end
  end.

(** The inner loop: what is written to the standard output, and the bytes
    left from [p] on. *)
Fixpoint grep_lines (fuel : nat) (pattern b : list Z) : list Z * list Z :=
  match fuel with
  | O => ([], b)
  | S fuel =>
      match strchr_nl b with
      | None => ([], b)
      | Some (l, r) =>
          let '(out, rest) := grep_lines fuel pattern r in
          ((if match_ pattern l then l ++ [NL] else []) ++ out, rest)
      end
  end.

(** [b] are the first [m] bytes of [buf].  [input] is what the descriptor
    has to offer: a call of [read] returns at most the bytes of the first
    piece, and 0 at the end. *)
Definition sizeof_buf : nat := 1024.
Fixpoint grep_loop (fuel : nat) (pattern b : list Z) (input : list (list Z)) : list Z :=
  match fuel, input with
  | S fuel, c :: input =>
      let k := (sizeof_buf - length b - 1)%nat in
      let n := take k c in
      if bool_decide (n = []) then [] else
      let input := if bool_decide (drop k c = []) then input else drop k c :: input in
      let b := b ++ n in
      let '(out, rest) := grep_lines (S (length b)) pattern b in
      let b := if bool_decide (length rest = length b) then [] else rest in
      out ++ grep_loop fuel pattern b input
  | _, _ => []
  end.
Definition grep (pattern : list Z) (input : list (list Z)) : list Z :=
  grep_loop (S (length (concat input))) pattern [] input.

(** ** Regular expressions *)

(** What a pattern means. *)
Inductive item := One (c : Z) | Many (c : Z) | End_.

Definition fits (c x : Z) : Prop := c = DOT \/ c = x.

Fixpoint parse_re (re : list Z) : list item :=
  match re with
  | [] => []
  | c :: re1 =>
      match re1 with
      | [] => [if c =? DOLLAR then End_ else One c]
      | d :: re2 => if d =? STAR then Many c :: parse_re re2 else One c :: parse_re re1
      end
  end.

(** [text] starts with a word of the expression. *)
Fixpoint starts (l : list item) (text : list Z) : Prop :=
  match l with
  | [] => True
  | One c :: l => exists x t, text = x :: t /\ fits c x /\ starts l t
  | Many c :: l => exists t1 t2, text = t1 ++ t2 /\ Forall (fits c) t1 /\ starts l t2
  | End_ :: l => text = []
  end.

Definition matches (re text : list Z) : Prop :=
  match re with
  | c :: re' => if c =? CARET then starts (parse_re re') text
                else exists t1 t2, text = t1 ++ t2 /\ starts (parse_re re) t2
  | [] => True
  end.

Lemma matchstar_spec here c text :
  matchstar here c text = true <-> exists t1 t2, text = t1 ++ t2 /\ Forall (fits c) t1 /\ here t2 = true.
Proof.
  induction text as [|x text IH]; cbn.
  - destruct (here []) eqn:Hh; split; try done.
    + intros _. by exists [], [].
    + intros (t1 & t2 & He & _ & H2). symmetry in He. apply app_eq_nil in He as [-> ->]. congruence.
  - destruct (here (x :: text)) eqn:Hh.
    { split; [|done]. intros _. by exists [], (x :: text). }
    assert (Hf : (x =? c) || (c =? DOT) = true <-> fits c x).
    { rewrite orb_true_iff, !Z.eqb_eq. unfold fits. intuition. }
    destruct ((x =? c) || (c =? DOT)); rewrite ?IH.
    + split.
      * intros (t1 & t2 & -> & H1 & H2). exists (x :: t1), t2. split_and!; [done| |done]. constructor; [by apply Hf|done].
      * intros (t1 & t2 & He & H1 & H2). destruct t1 as [|y t1]; cbn in He; [subst t2; congruence|].
        injection He as <- ->. exists t1, t2. by apply Forall_cons in H1 as [_ ?].
    + split; [done|]. intros (t1 & t2 & He & H1 & H2). destruct t1 as [|y t1]; cbn in He; [subst t2; congruence|].
      injection He as <- ->. apply Forall_cons in H1 as [H1 _]. by apply Hf in H1.
Qed.

Lemma matchhere_cons c re1 text :
  matchhere (c :: re1) text =
  match re1 with
  | [] => if c =? DOLLAR then bool_decide (text = []) else
          match text with x :: _ => (c =? DOT) || (c =? x) | [] => false end
  | d :: re2 =>
      if d =? STAR then matchstar (matchhere re2) c text else
      match text with x :: text' => ((c =? DOT) || (c =? x)) && matchhere re1 text' | [] => false end
  end.
Proof.
  cbn [matchhere]. destruct re1 as [|d re2]; cbn [head].
  - rewrite bool_decide_false by done. rewrite (bool_decide_true ([] = [])) by done. rewrite andb_true_r.
    destruct (c =? DOLLAR); [done|]. destruct text as [|x text]; [done|]. by destruct ((c =? DOT) || (c =? x)).
  - rewrite (bool_decide_false (d :: re2 = [])) by done. rewrite andb_false_r. destruct (Z.eqb_spec d STAR) as [->|Hne].
    + by rewrite bool_decide_true.
    + rewrite bool_decide_false by congruence. destruct text as [|x text]; [done|]. by destruct ((c =? DOT) || (c =? x)).
Qed.

Lemma fits_eqb c x : (c =? DOT) || (c =? x) = true <-> fits c x.
Proof. rewrite orb_true_iff, !Z.eqb_eq. done. Qed.

(** By induction on the length of the pattern. *)
Lemma matchhere_spec n : forall re text, (length re <= n)%nat -> matchhere re text = true <-> starts (parse_re re) text.
Proof.
  induction n as [|n IH]; intros re text Hn; destruct re as [|c re1]; try done; cbn in Hn; [lia|].
  rewrite matchhere_cons. destruct re1 as [|d re2]; cbn [parse_re].
  - destruct (Z.eqb_spec c DOLLAR) as [->|Hne]; cbn [starts].
    + by rewrite bool_decide_eq_true.
    + destruct text as [|x text]; [split; [done|]; intros (? & ? & ? & _); done|]. rewrite fits_eqb. split.
      * intros Hf. by exists x, text.
      * intros (y & t & [= <- <-] & Hf & _). done.
  - destruct (Z.eqb_spec d STAR) as [->|Hne]; cbn [starts].
    + rewrite matchstar_spec. cbn in Hn. setoid_rewrite (IH re2); [done|lia].
    + destruct text as [|x text]; [split; [done|]; intros (? & ? & ? & _); done|].
      rewrite andb_true_iff, fits_eqb, IH by (cbn in *; lia). split.
      * intros [Hf Hs]. by exists x, text.
      * intros (y & t & [= <- <-] & Hf & Hs). done.
Qed.

Lemma match_from_spec re text :
  match_from re text = true <-> exists t1 t2, text = t1 ++ t2 /\ starts (parse_re re) t2.
Proof.
  induction text as [|x text IH]; cbn [match_from].
  - destruct (matchhere re []) eqn:Hh.
    + split; [|done]. intros _. exists [], []. split; [done|]. by apply (matchhere_spec (length re)).
    + split; [done|]. intros (t1 & t2 & He & Hs). symmetry in He. apply app_eq_nil in He as [-> ->].
      apply (matchhere_spec (length re)) in Hs; [congruence|done].
  - destruct (matchhere re (x :: text)) eqn:Hh.
    + split; [|done]. intros _. exists [], (x :: text). split; [done|]. by apply (matchhere_spec (length re)).
    + rewrite IH. split.
      * intros (t1 & t2 & -> & Hs). by exists (x :: t1), t2.
      * intros (t1 & t2 & He & Hs). destruct t1 as [|y t1]; cbn in He.
        -- subst t2. apply (matchhere_spec (length re)) in Hs; [congruence|done].
        -- injection He as <- ->. eauto.
Qed.

Lemma match_spec re text : match_ re text = true <-> matches re text.
Proof.
  unfold match_, matches. destruct re as [|c re].
  - split; [done|]. intros _. by destruct text.
  - destruct (c =? CARET); [by apply (matchhere_spec (length re))|apply match_from_spec].
Qed.

(** ** Lines *)

(** The lines of a text that end in a newline, and what follows the last. *)
Fixpoint text_lines (t : list Z) : list (list Z) * list Z :=
  match t with
  | [] => ([], [])
  | x :: t =>
      let '(ls, r) := text_lines t in
      if x =? NL then ([] :: ls, r) else
      match ls with
      | [] => ([], x :: r)
      | l :: ls => ((x :: l) :: ls, r)
      end
  end.

Definition select (pattern : list Z) (ls : list (list Z)) : list Z :=
  concat ((fun l => if match_ pattern l then l ++ [NL] else []) <$> ls).

Lemma text_lines_none t : NL ∉ t -> text_lines t = ([], t).
Proof.
  induction t as [|x t IH]; intros Hn; [done|]. apply not_elem_of_cons in Hn as [Hx Hn]. cbn. rewrite IH by done.
  by rewrite (proj2 (Z.eqb_neq x NL)) by congruence.
Qed.

Lemma tail_le t : (length (text_lines t).2 <= length t)%nat.
Proof.
  induction t as [|x t IH]; [done|]. cbn. destruct (text_lines t) as [ls r]. cbn in *.
  destruct (x =? NL); cbn; [lia|]. destruct ls; cbn; lia.
Qed.

Lemma text_lines_line l t : NL ∉ l -> text_lines (l ++ NL :: t) = (l :: (text_lines t).1, (text_lines t).2).
Proof.
  induction l as [|x l IH]; intros Hn.
  - cbn [app text_lines]. rewrite Z.eqb_refl. by destruct (text_lines t).
  - apply not_elem_of_cons in Hn as [Hx Hn]. cbn [app text_lines]. rewrite IH by done.
    by rewrite (proj2 (Z.eqb_neq x NL)) by congruence.
Qed.

Lemma strchr_spec b :
  0 ∉ b -> match strchr_nl b with
           | None => NL ∉ b
           | Some (l, r) => b = l ++ NL :: r /\ NL ∉ l
           end.
Proof.
  induction b as [|x b IH]; intros Hz; cbn; [apply not_elem_of_nil|]. apply not_elem_of_cons in Hz as [Hx Hz].
  destruct (Z.eqb_spec x NL) as [->|Hne]; [split; [done|apply not_elem_of_nil]|].
  rewrite (proj2 (Z.eqb_neq x 0)) by congruence. specialize (IH Hz). destruct (strchr_nl b) as [[l r]|].
  - destruct IH as [-> Hl]. split; [done|]. apply not_elem_of_cons. split; [congruence|done].
  - apply not_elem_of_cons. split; [congruence|done].
Qed.

Lemma grep_lines_spec pattern fuel : forall b,
  0 ∉ b -> (length b < fuel)%nat ->
  grep_lines fuel pattern b = (select pattern (text_lines b).1, (text_lines b).2) /\
  (length (text_lines b).2 = length b <-> NL ∉ b).
Proof.
  induction fuel as [|fuel IH]; intros b Hz Hf; [lia|]. cbn [grep_lines].
  pose proof (strchr_spec b Hz) as Hs. destruct (strchr_nl b) as [[l r]|].
  - destruct Hs as [-> Hl]. rewrite text_lines_line by done. rewrite length_app in *. cbn in *.
    apply not_elem_of_app in Hz as [_ Hz]. apply not_elem_of_cons in Hz as [_ Hz].
    destruct (IH r Hz ltac:(lia)) as [Hr Hlen]. rewrite Hr. split; [done|].
    assert (Hle : (length (text_lines r).2 <= length r)%nat) by apply tail_le. split; [lia|].
    intros Hn. exfalso. apply Hn, elem_of_app. right. left.
  - by rewrite text_lines_none.
Qed.

Definition join_lines (ls : list (list Z)) : list Z := concat ((fun l => l ++ [NL]) <$> ls).

Lemma text_lines_join ls t :
  Forall (fun l => NL ∉ l) ls -> text_lines (join_lines ls ++ t) = (ls ++ (text_lines t).1, (text_lines t).2).
Proof.
  induction 1 as [|l ls Hl _ IH]; [unfold join_lines; cbn; by destruct (text_lines t)|].
  unfold join_lines. cbn. rewrite <- !app_assoc. cbn. rewrite text_lines_line by done. fold (join_lines ls). by rewrite IH.
Qed.

Lemma text_lines_split b :
  b = join_lines (text_lines b).1 ++ (text_lines b).2 /\ Forall (fun l => NL ∉ l) (text_lines b).1 /\ (NL ∉ (text_lines b).2).
Proof.
  induction b as [|x b (He & Hl & Hr)]; [split_and!; [done|constructor|apply not_elem_of_nil]|].
  cbn. destruct (text_lines b) as [ls r]. cbn in *. destruct (Z.eqb_spec x NL) as [->|Hne].
  - cbn. split_and!; [by rewrite He at 1|constructor; [apply not_elem_of_nil|done]|done].
  - destruct ls as [|l ls]; cbn.
    + split_and!; [by rewrite He at 1|constructor|]. apply not_elem_of_cons. split; [congruence|done].
    + apply Forall_cons in Hl as [Hl Hls]. split_and!; [by rewrite He at 1| |done]. constructor; [|done].
      apply not_elem_of_cons. split; [congruence|done].
Qed.

Lemma text_lines_app b1 b2 :
  (text_lines (b1 ++ b2)).1 = (text_lines b1).1 ++ (text_lines ((text_lines b1).2 ++ b2)).1.
Proof.
  destruct (text_lines_split b1) as (He & Hl & _). rewrite He at 1. rewrite <- app_assoc. by rewrite text_lines_join.
Qed.

Lemma select_app pattern l1 l2 : select pattern (l1 ++ l2) = select pattern l1 ++ select pattern l2.
Proof. unfold select. by rewrite fmap_app, concat_app. Qed.

(** No stretch without a newline fills the buffer. *)
Definition short_lines (t : list Z) : Prop :=
  forall l x r, t = l ++ x ++ r -> NL ∉ x -> (length x < sizeof_buf - 1)%nat.

Lemma grep_loop_file pattern fuel : forall b data,
  NL ∉ b -> 0 ∉ b ++ data -> short_lines (b ++ data) -> (length data < fuel)%nat ->
  grep_loop fuel pattern b [data] = select pattern (text_lines (b ++ data)).1.
Proof.
  induction fuel as [|fuel IH]; intros b data Hb Hz Hsh Hf; [lia|]. cbn [grep_loop].
  assert (Hbl : (length b < sizeof_buf - 1)%nat) by (by apply (Hsh [] b data)).
  set (k := (sizeof_buf - length b - 1)%nat). assert (Hk : (0 < k)%nat) by (unfold k; lia).
  destruct (decide (data = [])) as [->|Hd].
  { rewrite bool_decide_true by by rewrite take_nil. by rewrite app_nil_r, text_lines_none. }
  rewrite bool_decide_false by (intros Hn; apply (f_equal length) in Hn; rewrite length_take in Hn; destruct data; cbn in *; [done|lia]).
  assert (HB : 0 ∉ b ++ take k data).
  { intros Hin. apply Hz. rewrite <- (take_drop k data), app_assoc. apply elem_of_app. by left. }
  destruct (grep_lines_spec pattern (S (length (b ++ take k data))) _ HB ltac:(lia)) as [-> Hlen].
  destruct (decide (drop k data = [])) as [Hdr|Hdr].
  - rewrite (bool_decide_true (drop k data = [])) by done.
    assert (Htk : take k data = data) by (rewrite <- (take_drop k data) at 2; by rewrite Hdr, app_nil_r).
    rewrite Htk. by destruct fuel; rewrite app_nil_r.
  - rewrite (bool_decide_false (drop k data = [])) by done.
    assert (Hnl : NL ∈ b ++ take k data).
    { destruct (decide (NL ∈ b ++ take k data)) as [|Hno]; [done|]. exfalso.
      assert (Hlt := Hsh [] (b ++ take k data) (drop k data) ltac:(by rewrite <- app_assoc, take_drop) Hno).
      rewrite length_app, length_take in Hlt. assert (length (drop k data) <> 0)%nat by (by destruct (drop k data)).
      rewrite length_drop in *. unfold k in *. lia. }
    rewrite bool_decide_false by (rewrite Hlen; tauto).
    destruct (text_lines_split (b ++ take k data)) as (Hsp & _ & Hr).
    assert (Heq : b ++ data = join_lines (text_lines (b ++ take k data)).1 ++ (text_lines (b ++ take k data)).2 ++ drop k data).
    { by rewrite app_assoc, <- Hsp, <- app_assoc, take_drop. }
    rewrite IH; [|done| | |rewrite length_drop; destruct data; cbn in *; [done|lia]].
    + rewrite <- select_app, <- text_lines_app, <- app_assoc, take_drop. done.
    + intros Hin. apply Hz. rewrite Heq. apply elem_of_app. by right.
    + intros l x r He. apply (Hsh (join_lines (text_lines (b ++ take k data)).1 ++ l) x r). by rewrite Heq, He, <- app_assoc.
Qed.

(** ** The theorems *)

(** The backtracking matcher of [grep] decides the pattern language:
    [match] returns 1 exactly if some suffix of the text (with [^], the whole
    text) starts with a word of the expression the pattern denotes. *)
Theorem match_correct re text : match_ re text = true <-> matches re text.
Proof. apply match_spec. Qed.

(** On a file without NUL bytes whose lines fit the buffer, [grep] prints
    exactly the lines that match, in order, however the file straddles the reads
    of the buffer; it terminates. *)
Theorem grep_file_correct pattern data :
  0 ∉ data -> short_lines data -> grep pattern [data] = select pattern (text_lines data).1.
Proof.
  intros Hz Hs. unfold grep. cbn [concat]. rewrite app_nil_r. apply (grep_loop_file pattern _ [] data); [apply not_elem_of_nil|done|done|lia].
Qed.

(** On a pipe a line that arrives in two pieces is cut: [grep] throws away
    what it has read when it holds no newline, and then matches the rest of the
    line alone. *)
Theorem grep_loses_partial_line :
  let text := [97; 98; 99; NL] in
  grep [97; 98] [text] = text /\ grep [97; 98] [[97; 98]; [99; NL]] = [] /\
  grep [CARET; 99] [text] = [] /\ grep [CARET; 99] [[97; 98]; [99; NL]] = [99; NL].
Proof. by vm_compute. Qed.

Lemma grep_file_correct_witness : grep [98; DOT; STAR; DOLLAR] [[97; NL; 98; 99; NL]] = [98; 99; NL].
Proof.
  rewrite (grep_file_correct [98; DOT; STAR; DOLLAR] [97; NL; 98; 99; NL]); [reflexivity| |].
  - apply (bool_decide_unpack _). vm_compute. exact I.
  - intros l x r Hx _. apply (f_equal length) in Hx. rewrite !length_app in Hx. cbn in Hx. unfold sizeof_buf. lia.
Defined.
