(* ===== verification/Sh.v ===== *)
(** The shell ([sh.c]): its parser and the system calls a command makes.

    A pointer into the command line is the rest of the line from there on:
    the NUL is the empty list, and the offset is the length of the line minus
    that of the list.  [*ps] is the state of the parser. *)

From S2P Require Import Prelude.

(** ** Commands *)

Definition MAXARGS : nat := 10.
Definition O_RDONLY : Z := 0.
Definition O_WRONLY : Z := 1.
Definition O_CREATE : Z := 512.

(** [argv[i]] and [eargv[i]]: start and end of a word. *)
Definition word : Type := list Z * list Z.

Inductive cmd :=
| Execcmd (argv : list word)
| Redircmd (c : cmd) (file : word) (mode fd : Z)
| Pipecmd (left right : cmd)
| Listcmd (left right : cmd)
| Backcmd (c : cmd).

(** ** Tokens *)

Definition whitespace : list Z := [32; 9; 13; 10; 11].
Definition symbols : list Z := [60; 124; 62; 38; 59; 40; 41].
Definition isin (l : list Z) (c : Z) : bool := bool_decide (c ∈ l).

Definition LT : Z := 60.
Definition GT : Z := 62.
Definition BAR : Z := 124.
Definition AMP : Z := 38.
Definition SEMI : Z := 59.
Definition LPAR : Z := 40.
Definition RPAR : Z := 41.
Definition PLUS : Z := 43.
Definition WORD : Z := 97.

Fixpoint skipws (s : list Z) : list Z :=
  match s with
  | c :: s' => if isin whitespace c then skipws s' else s
  | [] => []
  end.
Fixpoint skipword (s : list Z) : list Z :=
  match s with
  | c :: s' => if negb (isin whitespace c) && negb (isin symbols c) then skipword s' else s
  | [] => []
  end.

Definition P (A : Type) : Type := M (list Z) A.

(** The token with its start and its end. *)
Definition gettoken : P (Z * list Z * list Z) :=
  s ← gets id;
  let q := skipws s in
  let '(tok, eq) :=
    match q with
    | [] => (0, q)
    | c :: r =>
        if isin [BAR; LPAR; RPAR; SEMI; AMP; LT] c then (c, r)
        else if c =? GT then
          match r with
          | d :: r' => if d =? GT then (PLUS, r') else (c, r)
          | [] => (c, r)
          end
        else (WORD, skipword q)
    end in
  modify (fun _ => skipws eq);;
  ret (tok, q, eq).

Definition peek (toks : list Z) : P bool :=
  s ← gets id;
  modify (fun _ => skipws s);;
  ret (match skipws s with c :: _ => isin toks c | [] => false end).

(** ** The parser *)

Record redir := Redir { rfile : word; rmode : Z; rfd : Z }.

(** The redirections the loop of [parseredirs] reads, the first one innermost. *)
Fixpoint parseredirs_loop (fuel : nat) : P (list redir) :=
  match fuel with
  | O => spin
  | S fuel =>
      b ← peek [LT; GT];
      if negb b then ret [] else
      '(tok, _, _) ← gettoken;
      '(t, q, eq) ← gettoken;
      if negb (t =? WORD) then panic "missing file for redirection" else
      rs ← parseredirs_loop fuel;
      ret (if tok =? LT then Redir (q, eq) O_RDONLY 0 :: rs
           else if tok =? GT then Redir (q, eq) (Z.lor O_WRONLY O_CREATE) 1 :: rs
           else if tok =? PLUS then Redir (q, eq) (Z.lor O_WRONLY O_CREATE) 1 :: rs
           else rs)
  end.
Definition redircmd (c : cmd) (r : redir) : cmd := Redircmd c (rfile r) (rmode r) (rfd r).
Definition parseredirs (c : cmd) : P cmd :=
  s ← gets id;
  rs ← parseredirs_loop (S (length s));
  ret (foldl redircmd c rs).

(** The loop of [parseexec]: the words it stores in [cmd->argv], and the
    redirections it wraps around [cmd] meanwhile. *)
Fixpoint parseargs (fuel : nat) (argc : nat) : P (list word * list redir) :=
  match fuel with
  | O => spin
  | S fuel =>
      b ← peek [BAR; RPAR; AMP; SEMI];
      if b then ret ([], []) else
      '(tok, q, eq) ← gettoken;
      if tok =? 0 then ret ([], []) else
      if negb (tok =? WORD) then panic "syntax" else
      if bool_decide (MAXARGS <= S argc)%nat then panic "too many args" else
      s ← gets id;
      rs ← parseredirs_loop (S (length s));
      '(ws, rs') ← parseargs fuel (S argc);
      ret ((q, eq) :: ws, rs ++ rs')
  end.

(** [while(peek(ps, es, "&"))]. *)
Fixpoint parseback (fuel : nat) (c : cmd) : P cmd :=
  match fuel with
  | O => spin
  | S fuel =>
      b ← peek [AMP];
      if negb b then ret c else
      gettoken;;
      parseback fuel (Backcmd c)
  end.

Fixpoint parseline (fuel : nat) : P cmd :=
  match fuel with
  | O => spin
  | S fuel =>
      c ← parsepipe fuel;
      s ← gets id;
      c ← parseback (S (length s)) c;
      b ← peek [SEMI];
      if negb b then ret c else
      gettoken;;
      r ← parseline fuel;
      ret (Listcmd c r)
  end
with parsepipe (fuel : nat) : P cmd :=
  match fuel with
  | O => spin
  | S fuel =>
      c ← parseexec fuel;
      b ← peek [BAR];
      if negb b then ret c else
      gettoken;;
      r ← parsepipe fuel;
      ret (Pipecmd c r)
  end
with parseexec (fuel : nat) : P cmd :=
  match fuel with
  | O => spin
  | S fuel =>
      b ← peek [LPAR];
      if b then parseblock fuel else
      s ← gets id;
      rs ← parseredirs_loop (S (length s));
      s ← gets id;
      '(ws, rs') ← parseargs (S (length s)) 0;
      ret (foldl redircmd (Execcmd ws) (rs ++ rs'))
  end
with parseblock (fuel : nat) : P cmd :=
  match fuel with
  | O => spin
  | S fuel =>
      b ← peek [LPAR];
      if negb b then panic "parseblock" else
      gettoken;;
      c ← parseline fuel;
      b ← peek [RPAR];
      if negb b then panic "syntax - missing )" else
      gettoken;;
      parseredirs c
  end.

(** ** Ending the words *)

(** The line is a buffer of bytes; the word that ends at [e] ends at this
    offset. *)
Definition offset (buf : list Z) (e : list Z) : nat := (length buf - length e)%nat.
Definition put_nul (buf : list Z) (w : word) (b : list Z) : list Z := <[offset buf (snd w) := 0]> b.

Fixpoint nulterminate (buf : list Z) (c : cmd) (b : list Z) : list Z :=
  match c with
  | Execcmd argv => foldl (fun b w => put_nul buf w b) b argv
  | Redircmd c file _ _ => put_nul buf file (nulterminate buf c b)
  | Pipecmd l r => nulterminate buf r (nulterminate buf l b)
  | Listcmd l r => nulterminate buf r (nulterminate buf l b)
  | Backcmd c => nulterminate buf c b
  end.

(** The command and the buffer with its final NUL. *)
Definition parsecmd (s : list Z) : outcome (cmd * list Z) :=
  match (c ← parseline (4 * length s + 4); peek [];; l ← gets id; ret (c, l)) s with
  | Ok (c, l, _) => if bool_decide (l = []) then Ok (c, nulterminate s c (s ++ [0])) else Panic "syntax"
  | Panic msg => Panic msg
  | Fault msg => Fault msg
  | Spin => Spin
  end.
