(* ===== verification/ShParse.v ===== *)
(** The parser of the shell: it always comes to an end, what it stores of the
    line, and that it reads back what it is given. *)

From S2P Require Import Prelude Sh.

(** ** Tokens *)

Lemma skipws_le s : (length (skipws s) <= length s)%nat.
Proof. induction s as [|c s IH]; [done|]. cbn. destruct (isin whitespace c); cbn; lia. Qed.

Lemma skipws_head s c r : skipws s = c :: r -> isin whitespace c = false.
Proof.
  induction s as [|d s IH]; [done|]. cbn. destruct (isin whitespace d) eqn:Hd; [done|]. by intros [= -> _].
Qed.

Lemma skipws_idem s : skipws (skipws s) = skipws s.
Proof. destruct (skipws s) as [|c r] eqn:He; [done|]. cbn. by rewrite (skipws_head _ _ _ He). Qed.

Lemma skipword_le s : (length (skipword s) <= length s)%nat.
Proof. induction s as [|c s IH]; [done|]. cbn. destruct (_ && _); cbn; lia. Qed.

Definition wordchar (c : Z) : bool := negb (isin whitespace c) && negb (isin symbols c).

(** A word is cut off where the first byte is that does not belong to it. *)
Definition word_ok (w : word) : Prop :=
  exists l, fst w = l ++ snd w /\ forallb wordchar l = true /\ l <> [] /\
    match snd w with c :: _ => wordchar c = false | [] => True end.

Lemma skipword_spec s :
  exists l, s = l ++ skipword s /\ forallb wordchar l = true /\
    match skipword s with c :: _ => wordchar c = false | [] => True end.
Proof.
  induction s as [|c s (l & He & Hl & Hn)]; [by exists []|]. cbn. fold (wordchar c). destruct (wordchar c) eqn:Hc.
  - exists (c :: l). cbn. by rewrite Hc, <- He.
  - by exists [].
Qed.

Lemma skipws_suffix s : skipws s `suffix_of` s.
Proof. induction s as [|c s IH]; [done|]. cbn. destruct (isin whitespace c); [by apply suffix_cons_r|done]. Qed.
Lemma skipword_suffix s : skipword s `suffix_of` s.
Proof. induction s as [|c s IH]; [done|]. cbn. destruct (_ && _); [by apply suffix_cons_r|done]. Qed.

(** What [gettoken] does at [s]. *)
Definition token (s : list Z) : Z * list Z * list Z :=
  let q := skipws s in
  match q with
  | [] => (0, q, q)
  | c :: r =>
      if isin [BAR; LPAR; RPAR; SEMI; AMP; LT] c then (c, q, r)
      else if c =? GT then
        match r with
        | d :: r' => if d =? GT then (PLUS, q, r') else (c, q, r)
        | [] => (c, q, r)
        end
      else (WORD, q, skipword q)
  end.

Lemma gettoken_eq s : gettoken s = Ok (token s, skipws (token s).2).
Proof.
  unfold gettoken, token, bind, gets, modify, ret, id. destruct (skipws s) as [|c r]; [done|].
  destruct (isin _ c); [done|]. destruct (c =? GT); [|done]. destruct r as [|d r]; [done|]. by destruct (d =? GT).
Qed.

Lemma peek_eq toks s :
  peek toks s = Ok (match skipws s with c :: _ => isin toks c | [] => false end, skipws s).
Proof. done. Qed.

Lemma isin_spec l c : isin l c = true <-> c ∈ l.
Proof. apply bool_decide_eq_true. Qed.

Lemma wordchar_cases c :
  isin whitespace c = false -> isin [BAR; LPAR; RPAR; SEMI; AMP; LT] c = false -> c <> GT -> wordchar c = true.
Proof.
  intros Hws Hsym Hgt. unfold wordchar. rewrite Hws. cbn. apply negb_true_iff, not_true_is_false. intros Hin%isin_spec.
  apply not_true_iff_false in Hsym. apply Hsym, isin_spec. unfold symbols in Hin.
  rewrite !elem_of_cons in Hin |- *. rewrite list_elem_of_singleton in Hin.
  unfold BAR, LPAR, RPAR, SEMI, AMP, LT, GT in *. tauto.
Qed.

(** A token that is not the end of the line takes at least one byte. *)
Lemma token_spec s :
  match token s with
  | (tok, q, eq) => q = skipws s /\ eq `suffix_of` q /\ (tok = 0 <-> q = []) /\ (q <> [] -> (length eq < length q)%nat) /\
      (tok = WORD -> word_ok (q, eq))
  end.
Proof.
  unfold token. destruct (skipws s) as [|c r] eqn:Hq; [done|]. assert (Hws := skipws_head _ _ _ Hq).
  assert (Hone : forall t e, t <> 0 -> t <> WORD -> e `suffix_of` r ->
    c :: r = c :: r /\ e `suffix_of` c :: r /\ (t = 0 <-> c :: r = []) /\
    (c :: r <> [] -> (length e < length (c :: r))%nat) /\ (t = WORD -> word_ok (c :: r, e))).
  { intros t e Ht0 Htw He. split_and!; try done; [by apply suffix_cons_r|]. intros _. apply suffix_length in He. cbn. lia. }
  destruct (isin [BAR; LPAR; RPAR; SEMI; AMP; LT] c) eqn:Hsym.
  { apply Hone; [| |done]; intros ->; by vm_compute in Hsym. }
  destruct (Z.eqb_spec c GT) as [->|Hgt].
  { destruct r as [|d r]; [by apply Hone|]. destruct (d =? GT); apply Hone; try done. by apply suffix_cons_r. }
  assert (Hwc := wordchar_cases c Hws Hsym Hgt).
  assert (Hsk : skipword (c :: r) = skipword r) by (cbn; fold (wordchar c); by rewrite Hwc).
  rewrite Hsk. pose proof (skipword_suffix r) as Hs.
  split_and!; try done; [by apply suffix_cons_r|intros _; apply suffix_length in Hs; cbn; lia|].
  intros _. destruct (skipword_spec r) as (l & He & Hl & Hn). exists (c :: l). cbn. rewrite Hwc, <- He. done.
Qed.

(** ** Termination *)

(** [m] returns with [Q], or reports an error; it does not run on. *)
Definition ends {A} (m : P A) (s : list Z) (Q : A -> list Z -> Prop) : Prop :=
  match m s with Ok (a, s') => Q a s' | Panic _ => True | _ => False end.

Lemma ends_bind {A B} (m : P A) (k : A -> P B) s Q :
  ends m s (fun a s' => ends (k a) s' Q) -> ends (bind m k) s Q.
Proof. unfold ends, bind. by destruct (m s) as [[a s']| | |]. Qed.
Lemma ends_mono {A} (m : P A) s (Q Q' : A -> list Z -> Prop) :
  ends m s Q -> (forall a s', Q a s' -> Q' a s') -> ends m s Q'.
Proof. unfold ends. destruct (m s) as [[a s']| | |]; auto. Qed.
Lemma ends_ret {A} (a : A) s (Q : A -> list Z -> Prop) : Q a s -> ends (ret a) s Q.
Proof. done. Qed.
Lemma ends_gets s (Q : list Z -> list Z -> Prop) : Q s s -> ends (gets id) s Q.
Proof. done. Qed.

(** A word of the line [s]. *)
Definition stored (s : list Z) (w : word) : Prop := word_ok w /\ fst w `suffix_of` s.

Lemma stored_mono s s' w : s' `suffix_of` s -> stored s' w -> stored s w.
Proof. intros Hs [H1 H2]. split; [done|]. by etrans. Qed.

Lemma ends_gettoken s Q :
  (forall tok q eq s', s' `suffix_of` s -> (tok = 0 <-> skipws s = []) -> (skipws s <> [] -> (length s' < length s)%nat) ->
     (tok = WORD -> stored s (q, eq)) -> Q (tok, q, eq) s') ->
  ends gettoken s Q.
Proof.
  intros HQ. unfold ends. rewrite gettoken_eq. pose proof (token_spec s) as Ht.
  destruct (token s) as [[tok q] eq]. destruct Ht as (-> & H2 & H3 & H4 & H5). cbn [snd].
  pose proof (skipws_suffix s) as Hs. pose proof (skipws_suffix eq) as He.
  apply HQ; [by do 2 etrans; eauto|done| |].
  - intros Hn. apply suffix_length in Hs, He. specialize (H4 Hn). lia.
  - intros Htok. split; [by apply H5|done].
Qed.

Lemma ends_peek toks s Q :
  (forall b, (b = true -> skipws s <> []) -> skipws s `suffix_of` s -> Q b (skipws s)) -> ends (peek toks) s Q.
Proof.
  intros HQ. unfold ends. rewrite peek_eq. apply HQ; [by destruct (skipws s)|apply skipws_suffix].
Qed.

(** The words of a command. *)
Fixpoint words (c : cmd) : list word :=
  match c with
  | Execcmd argv => argv
  | Redircmd c f _ _ => words c ++ [f]
  | Pipecmd l r | Listcmd l r => words l ++ words r
  | Backcmd c => words c
  end.
Definition cmd_ok (s : list Z) (c : cmd) : Prop := Forall (stored s) (words c).

Definition ends_ok {A} (ok : list Z -> A -> Prop) (m : P A) (s : list Z) : Prop :=
  ends m s (fun a s' => s' `suffix_of` s /\ ok s a).

Lemma Forall_stored_mono s s' l : s' `suffix_of` s -> Forall (stored s') l -> Forall (stored s) l.
Proof. intros Hs Hl. eapply Forall_impl; [exact Hl|]. intros w. by apply stored_mono. Qed.

Ltac solve_stored := (eapply Forall_stored_mono || eapply stored_mono); [|eassumption]; assumption || (etrans; eassumption).

Lemma redirs_end fuel : forall s, (length s < fuel)%nat ->
  ends_ok (fun s rs => Forall (stored s) (rfile <$> rs)) (parseredirs_loop fuel) s.
Proof.
  induction fuel as [|fuel IH]; intros s Hf; [lia|]. cbn [parseredirs_loop].
  apply ends_bind, ends_peek. intros b Hb Hs0. destruct b; cbn [negb]; [|apply ends_ret; split; [done|constructor]].
  specialize (Hb eq_refl). assert (Hl := suffix_length _ _ Hs0).
  apply ends_bind, ends_gettoken. intros tok q eq s1 Hs1 _ Hlt _. rewrite skipws_idem in Hlt. specialize (Hlt Hb).
  apply ends_bind, ends_gettoken. intros t q2 eq2 s2 Hs2 _ _ Hw. assert (Hl2 := suffix_length _ _ Hs2).
  destruct (Z.eqb_spec t WORD) as [Ht|]; cbn [negb]; [|done]. specialize (Hw Ht).
  apply ends_bind. eapply ends_mono; [apply IH; lia|]. intros rs s3 [Hs3 Hrs]. apply ends_ret.
  assert (Hs2' : s2 `suffix_of` s) by (by do 2 etrans; eauto).
  split; [by etrans|]. assert (Hq : stored s (q2, eq2)) by (eapply stored_mono; [|exact Hw]; by etrans).
  assert (Hr : Forall (stored s) (rfile <$> rs)) by solve_stored.
  destruct (tok =? LT), (tok =? GT), (tok =? PLUS); cbn; try done; by constructor.
Qed.

Lemma args_end fuel : forall argc s, (length s < fuel)%nat ->
  ends_ok (fun s '(ws, rs) => Forall (stored s) ws /\ Forall (stored s) (rfile <$> rs)) (parseargs fuel argc) s.
Proof.
  induction fuel as [|fuel IH]; intros argc s Hf; [lia|]. cbn [parseargs].
  apply ends_bind, ends_peek. intros b _ Hs0. assert (Hl := suffix_length _ _ Hs0).
  destruct b; [apply ends_ret; split; [done|split; constructor]|].
  apply ends_bind, ends_gettoken. intros tok q eq s1 Hs1 H0 Hlt Hw. rewrite skipws_idem in H0, Hlt.
  assert (Hs1' : s1 `suffix_of` s) by by etrans.
  destruct (Z.eqb_spec tok 0) as [|Hne]; [apply ends_ret; split; [done|split; constructor]|].
  assert (Hlt' := Hlt (fun He => Hne (proj2 H0 He))).
  destruct (Z.eqb_spec tok WORD) as [Ht|]; cbn [negb]; [|done]. specialize (Hw Ht).
  destruct (bool_decide _); [done|]. apply ends_bind, ends_gets.
  apply ends_bind. eapply ends_mono; [apply redirs_end; lia|]. intros rs s2 [Hs2 Hrs]. assert (Hl2 := suffix_length _ _ Hs2).
  apply ends_bind. eapply ends_mono; [apply IH; lia|]. intros [ws rs'] s3 [Hs3 [Hws Hrs']]. apply ends_ret.
  assert (Hs2' : s2 `suffix_of` s) by by etrans.
  split; [by etrans|]. split.
  - constructor; [solve_stored|solve_stored].
  - rewrite fmap_app. apply Forall_app. split; solve_stored.
Qed.

Lemma backs_end fuel : forall c s s0, (length s < fuel)%nat -> s `suffix_of` s0 -> cmd_ok s0 c ->
  ends (parseback fuel c) s (fun c' s' => s' `suffix_of` s0 /\ cmd_ok s0 c').
Proof.
  induction fuel as [|fuel IH]; intros c s s0 Hf Hss Hc; [lia|]. cbn [parseback].
  apply ends_bind, ends_peek. intros b Hb Hs0. assert (Hl := suffix_length _ _ Hs0).
  destruct b; cbn [negb]; [|apply ends_ret; split; [by etrans|done]]. specialize (Hb eq_refl).
  apply ends_bind, ends_gettoken. intros tok q eq s1 Hs1 _ Hlt _. rewrite skipws_idem in Hlt. specialize (Hlt Hb).
  apply IH; [lia|by do 2 etrans; eauto|done].
Qed.

Lemma cmd_ok_redirs s c rs : cmd_ok s c -> Forall (stored s) (rfile <$> rs) -> cmd_ok s (foldl redircmd c rs).
Proof.
  revert c. induction rs as [|r rs IH]; intros c Hc Hr; [done|]. cbn in *. apply Forall_cons in Hr as [Hr Hrs].
  apply IH; [|done]. unfold cmd_ok. cbn. apply Forall_app. split; [done|by apply Forall_singleton].
Qed.

(** Depth: between two calls of the same function at least one byte is read. *)
Lemma parse_end fuel :
  (forall s, (4 * length s + 4 <= fuel)%nat -> ends_ok cmd_ok (parseline fuel) s) /\
  (forall s, (4 * length s + 3 <= fuel)%nat -> ends_ok cmd_ok (parsepipe fuel) s) /\
  (forall s, (4 * length s + 2 <= fuel)%nat -> ends_ok cmd_ok (parseexec fuel) s) /\
  (forall s, (4 * length s + 1 <= fuel)%nat -> ends_ok cmd_ok (parseblock fuel) s).
Proof.
  induction fuel as [|fuel (IHl & IHp & IHe & IHb)]; [split_and!; intros; lia|]. split_and!; intros s Hf.
  - cbn [parseline]. apply ends_bind. eapply ends_mono; [apply IHp; lia|]. intros c s1 [Hs1 Hc].
    apply ends_bind, ends_gets, ends_bind. eapply ends_mono; [by apply (backs_end _ c s1 s); [lia| |]|]. intros c2 s2 [Hs2 Hc2].
    apply ends_bind, ends_peek. intros b Hb Hs3. destruct b; cbn [negb]; [|apply ends_ret; split; [by etrans|done]].
    apply ends_bind, ends_gettoken. intros tok q eq s4 Hs4 _ Hlt _. rewrite skipws_idem in Hlt. specialize (Hlt (Hb eq_refl)).
    assert (Hs34 := suffix_length _ _ Hs3). assert (Hs24 := suffix_length _ _ Hs2).
    apply ends_bind. eapply ends_mono; [apply IHl; lia|]. intros c5 s5 [Hs5 Hc5]. apply ends_ret.
    assert (Hs4' : s4 `suffix_of` s) by (by do 2 etrans; eauto).
    split; [by etrans|]. apply Forall_app. split; [done|solve_stored].
  - cbn [parsepipe]. apply ends_bind. eapply ends_mono; [apply IHe; lia|]. intros c s1 [Hs1 Hc].
    apply ends_bind, ends_peek. intros b Hb Hs3. destruct b; cbn [negb]; [|apply ends_ret; split; [by etrans|done]].
    apply ends_bind, ends_gettoken. intros tok q eq s4 Hs4 _ Hlt _. rewrite skipws_idem in Hlt. specialize (Hlt (Hb eq_refl)).
    assert (Hs34 := suffix_length _ _ Hs3). assert (Hs14 := suffix_length _ _ Hs1).
    apply ends_bind. eapply ends_mono; [apply IHp; lia|]. intros c5 s5 [Hs5 Hc5]. apply ends_ret.
    assert (Hs4' : s4 `suffix_of` s) by (by do 2 etrans; eauto).
    split; [by etrans|]. apply Forall_app. split; [done|solve_stored].
  - cbn [parseexec]. apply ends_bind, ends_peek. intros b Hb Hs1. assert (Hl1 := suffix_length _ _ Hs1). destruct b.
    { eapply ends_mono; [apply IHb; lia|]. intros c s2 [Hs2 Hc]. split; [by etrans|solve_stored]. }
    apply ends_bind, ends_gets, ends_bind. eapply ends_mono; [apply redirs_end; lia|]. intros rs s2 [Hs2 Hrs].
    apply ends_bind, ends_gets, ends_bind. eapply ends_mono; [apply args_end; lia|]. intros [ws rs'] s3 [Hs3 [Hws Hrs']].
    assert (Hs2' : s2 `suffix_of` s) by by etrans.
    apply ends_ret. split; [by etrans|]. apply cmd_ok_redirs; [solve_stored|].
    rewrite fmap_app. apply Forall_app. split; solve_stored.
  - cbn [parseblock]. apply ends_bind, ends_peek. intros b Hb Hs1. assert (Hl1 := suffix_length _ _ Hs1).
    destruct b; cbn [negb]; [|done].
    apply ends_bind, ends_gettoken. intros tok q eq s2 Hs2 _ Hlt _. rewrite skipws_idem in Hlt. specialize (Hlt (Hb eq_refl)).
    apply ends_bind. eapply ends_mono; [apply IHl; lia|]. intros c s3 [Hs3 Hc].
    apply ends_bind, ends_peek. intros b' _ Hs4. destruct b'; cbn [negb]; [|done].
    apply ends_bind, ends_gettoken. intros tok' q' eq' s5 Hs5 _ _ _.
    assert (Hs2' : s2 `suffix_of` s) by by etrans. assert (Hs5' : s5 `suffix_of` s) by (by do 3 etrans; eauto).
    unfold parseredirs. apply ends_bind, ends_gets, ends_bind. eapply ends_mono; [apply redirs_end; lia|].
    intros rs s6 [Hs6 Hrs]. apply ends_ret. split; [by etrans|]. apply cmd_ok_redirs; solve_stored.
Qed.

(** ** The words in the buffer *)

Definition text (w : word) : list Z := take (length (fst w) - length (snd w)) (fst w).

Lemma text_app l e : text (l ++ e, e) = l.
Proof. unfold text. cbn. rewrite length_app, Nat.add_sub. by rewrite take_app_length. Qed.

(** The C string at an offset. *)
Fixpoint until_nul (l : list Z) : list Z :=
  match l with
  | c :: l' => if c =? 0 then [] else c :: until_nul l'
  | [] => []
  end.
Definition cstr_at (b : list Z) (i : nat) : list Z := until_nul (drop i b).

Lemma until_nul_spec (b l : list Z) k :
  (forall i, (i < length l)%nat -> b !! (k + i)%nat = l !! i) -> b !! (k + length l)%nat = Some 0 ->
  Forall (fun c => c <> 0) l -> cstr_at b k = l.
Proof.
  unfold cstr_at. revert k. induction l as [|c l IH]; intros k Hl He Hn; cbn [length] in *.
  - rewrite Nat.add_0_r in He. by rewrite (drop_S _ _ _ He).
  - apply Forall_cons in Hn as [Hc Hn]. assert (H0 := Hl 0%nat ltac:(lia)). rewrite Nat.add_0_r in H0.
    rewrite (drop_S _ _ _ H0). cbn. rewrite (proj2 (Z.eqb_neq c 0)) by done. f_equal. apply IH; [| |done].
    + intros i Hi. rewrite Nat.add_succ_comm. apply (Hl (S i)). lia.
    + by rewrite Nat.add_succ_comm.
Qed.

Lemma nulterminate_foldl s c : forall b, nulterminate s c b = foldl (fun b w => put_nul s w b) b (words c).
Proof.
  induction c as [argv|c IH f md fd|l IHl r IHr|l IHl r IHr|c IH]; intros b; cbn; try done.
  - by rewrite foldl_app, IH.
  - by rewrite foldl_app, IHl, IHr.
  - by rewrite foldl_app, IHl, IHr.
Qed.

Lemma put_nuls_lookup s ws : forall b k,
  foldl (fun b w => put_nul s w b) b ws !! k =
  if decide (Exists (fun w => offset s (snd w) = k) ws /\ (k < length b)%nat) then Some 0 else b !! k.
Proof.
  induction ws as [|w ws IH]; intros b k; cbn.
  { rewrite decide_False; [done|]. by intros [Hx%Exists_nil _]. }
  rewrite IH. assert (Hlen : length (put_nul s w b) = length b) by apply length_insert.
  case_decide as H1; case_decide as H2; rewrite Exists_cons in H2; rewrite Hlen in H1.
  - done.
  - tauto.
  - assert (offset s (snd w) = k) as <- by tauto. apply list_lookup_insert_eq. tauto.
  - destruct (decide (offset s (snd w) = k)) as [<-|Hne]; [|by apply list_lookup_insert_ne].
    unfold put_nul. rewrite list_insert_ge; [done|lia].
Qed.

(** The end of a word is not inside a word. *)
Lemma word_ends_apart s l e l' e' i :
  stored s (l ++ e, e) -> stored s (l' ++ e', e') -> (i < length l)%nat ->
  offset s e' <> (offset s (l ++ e) + i)%nat.
Proof.
  intros [(l0 & He & Hw & _) [p Hp]] [(l1 & He1 & _ & _ & Hn) [p' Hp']] Hi Heq. cbn in *.
  apply app_inv_tail in He as <-. apply app_inv_tail in He1 as <-. unfold offset in Heq.
  assert (Hls := f_equal length Hp). assert (Hls' := f_equal length Hp'). rewrite !length_app in *.
  assert (Hat : s !! (length p + i)%nat = l !! i).
  { rewrite Hp, lookup_app_r by lia. replace (length p + i - length p)%nat with i by lia. by rewrite lookup_app_l. }
  destruct (lookup_lt_is_Some_2 l i Hi) as [c Hc].
  assert (Hat' : s !! (length p' + length l')%nat = head e').
  { rewrite Hp', lookup_app_r, lookup_app_r by lia. replace (length p' + length l' - length p' - length l')%nat with 0%nat by lia. by destruct e'. }
  replace (length p' + length l')%nat with (length p + i)%nat in Hat' by lia. rewrite Hat', Hc in Hat.
  destruct e' as [|d e']; [done|]. cbn in Hat. injection Hat as ->. rewrite forallb_forall in Hw.
  rewrite (Hw c) in Hn; [done|]. apply list_elem_of_In. by eapply list_elem_of_lookup_2.
Qed.

Lemma nulterminate_word s c w :
  Forall (fun c => c <> 0) s -> cmd_ok s c -> w ∈ words c ->
  cstr_at (nulterminate s c (s ++ [0])) (offset s (fst w)) = text w.
Proof.
  intros Hz Hc Hw. unfold cmd_ok in Hc. rewrite Forall_forall in Hc. assert (Hst := Hc w Hw).
  destruct w as [q e]. assert (Hst' := Hst). destruct Hst' as [(l & Hq & _) [p Hp]]. cbn in Hq, Hp. subst q.
  rewrite text_app. cbn [fst]. assert (Hls := f_equal length Hp). rewrite !length_app in Hls.
  assert (Hoff : offset s (l ++ e) = length p) by (unfold offset; rewrite length_app; lia).
  rewrite nulterminate_foldl. apply until_nul_spec.
  - intros i Hi. rewrite put_nuls_lookup, decide_False.
    + rewrite Hoff, lookup_app_l by lia. rewrite Hp, lookup_app_r by lia.
      replace (length p + i - length p)%nat with i by lia. by rewrite lookup_app_l.
    + intros [([q' e'] & Hin & He')%Exists_exists _]. cbn in He'.
      destruct (Hc _ Hin) as [(l' & Hq' & _) _]. cbn in Hq'. subst q'.
      by apply (word_ends_apart s l e l' e' i Hst (Hc _ Hin) Hi).
  - rewrite put_nuls_lookup, decide_True; [done|]. split; [|rewrite length_app; cbn; lia].
    apply Exists_exists. exists (l ++ e, e). split; [done|]. unfold offset in *. cbn. rewrite length_app in *. lia.
  - apply Forall_forall. intros x Hx. rewrite Forall_forall in Hz. apply Hz. rewrite Hp, !elem_of_app. auto.
Qed.

Lemma parsecmd_cases s :
  match parsecmd s with
  | Ok (c, b) => cmd_ok s c /\ b = nulterminate s c (s ++ [0]) /\
      exists s1, parseline (4 * length s + 4) s = Ok (c, s1) /\ skipws s1 = []
  | Panic _ => True
  | _ => False
  end.
Proof.
  assert (He : parsecmd s = match parseline (4 * length s + 4) s with
    | Ok (c, s1) => if bool_decide (skipws s1 = []) then Ok (c, nulterminate s c (s ++ [0])) else Panic "syntax"
    | Panic msg => Panic msg | Fault msg => Fault msg | Spin => Spin end).
  { unfold parsecmd, bind. by destruct (parseline _ s) as [[c s1]| | |]. }
  rewrite He. destruct (parse_end (4 * length s + 4)) as (Hl & _). specialize (Hl s ltac:(lia)).
  unfold ends_ok, ends in Hl. destruct (parseline (4 * length s + 4) s) as [[c s1]| | |]; try done.
  case_bool_decide; [|done]. split; [apply Hl|]. split; [done|]. by exists s1.
Qed.

(** C34. The parser terminates on every line: [parsecmd] returns a command or
    reports a syntax error; the depth of its recursion is bounded by the length
    of the line. *)
Theorem parsecmd_terminates s : (exists c b, parsecmd s = Ok (c, b)) \/ (exists msg, parsecmd s = Panic msg).
Proof. pose proof (parsecmd_cases s) as Hp. destruct (parsecmd s) as [[c b]|msg| |]; try done; eauto. Qed.

(** [nulterminate] makes C strings of the words of the command: in the
    buffer [parsecmd] leaves, every [argv[i]] and every file name reads as the
    word of the line it was cut from. *)
Theorem parsecmd_strings s c b :
  Forall (fun c => c <> 0) s -> parsecmd s = Ok (c, b) ->
  forall w, w ∈ words c -> cstr_at b (offset s (fst w)) = text w /\ text w <> [] /\ forallb wordchar (text w) = true.
Proof.
  intros Hz Hp w Hw. pose proof (parsecmd_cases s) as Hc. rewrite Hp in Hc. destruct Hc as (Hc & -> & _).
  split; [by apply nulterminate_word|].
  unfold cmd_ok in Hc. rewrite Forall_forall in Hc. destruct (Hc w Hw) as [(l & Hq & Hwc & Hne & _) _].
  destruct w as [q e]. cbn [fst snd] in *. subst q. by rewrite text_app.
Qed.

Lemma parsecmd_strings_witness :
  exists c b, parsecmd [97; 98; 32; 62; 99] = Ok (c, b) /\
    forall w, w ∈ words c -> cstr_at b (offset [97; 98; 32; 62; 99] (fst w)) = text w.
Proof.
  pose (c := Redircmd (Execcmd [([97; 98; 32; 62; 99], [32; 62; 99])]) ([99], []) 513 1).
  exists c, [97; 98; 0; 62; 99; 0]. split; [vm_compute; reflexivity|]. intros w Hw.
  apply (parsecmd_strings [97; 98; 32; 62; 99] c [97; 98; 0; 62; 99; 0]); [|vm_compute; reflexivity|exact Hw].
  repeat (apply Forall_cons; split; [lia|]). apply Forall_nil. exact I.
Defined.
