(* ===== verification/ShPrint.v ===== *)
(** Printing commands, and that the parser of the shell reads them back. *)

From S2P Require Import Prelude Sh ShParse.

(** ** Commands as text *)

Inductive scmd :=
| SExec (argv : list (list Z))
| SRedir (c : scmd) (file : list Z) (mode fd : Z)
| SPipe (left right : scmd)
| SList (left right : scmd)
| SBack (c : scmd).

(** A parsed command with the words themselves in place of the pointers. *)
Fixpoint erase (c : cmd) : scmd :=
  match c with
  | Execcmd argv => SExec (text <$> argv)
  | Redircmd c f md fd => SRedir (erase c) (text f) md fd
  | Pipecmd l r => SPipe (erase l) (erase r)
  | Listcmd l r => SList (erase l) (erase r)
  | Backcmd c => SBack (erase c)
  end.

Definition tok (w : list Z) : list Z := w ++ [32].
Definition pr_redir (f : list Z) (md : Z) : list Z := tok [if md =? O_RDONLY then LT else GT] ++ tok f.
Definition paren (b : bool) (s : list Z) : list Z := if b then s else tok [LPAR] ++ s ++ tok [RPAR].

(** Level 0 is what [parseexec] reads, 1 [parsepipe], 2 a part of a list and 3
    [parseline]; parentheses where the level asks for them. *)
Fixpoint pr (lvl : nat) (c : scmd) : list Z :=
  match c with
  | SExec argv => concat (tok <$> argv)
  | SRedir c f md _ => pr 0 c ++ pr_redir f md
  | SPipe l r => paren (1 <=? lvl)%nat (pr 0 l ++ tok [BAR] ++ pr 1 r)
  | SList l r => paren (3 <=? lvl)%nat (pr 2 l ++ tok [SEMI] ++ pr 3 r)
  | SBack c => paren (2 <=? lvl)%nat (pr 2 c ++ tok [AMP])
  end.

Definition good_word (w : list Z) : Prop := w <> [] /\ forallb wordchar w = true.

(** What can be typed: words, at most nine of them in a row, and the two kinds
    of redirections. *)
Fixpoint typable (c : scmd) : Prop :=
  match c with
  | SExec argv => Forall good_word argv /\ (length argv < MAXARGS)%nat
  | SRedir c f md fd => typable c /\ good_word f /\ (md = O_RDONLY /\ fd = 0 \/ md = Z.lor O_WRONLY O_CREATE /\ fd = 1)
  | SPipe l r | SList l r => typable l /\ typable r
  | SBack c => typable c
  end.

(** ** Reading tokens *)

(** The rest of a line starts with a token, or is empty. *)
Definition clean (k : list Z) : Prop := match k with c :: _ => isin whitespace c = false | [] => True end.
Definition starts_in (l : list Z) (k : list Z) : Prop := match k with c :: _ => isin l c = true | [] => True end.

Lemma isin_all (p : Z -> bool) l c : isin l c = true -> forallb p l = true -> p c = true.
Proof. rewrite isin_spec, forallb_forall. intros Hin Hp. by apply Hp, list_elem_of_In. Qed.

Lemma skipws_clean k : clean k -> skipws k = k.
Proof. destruct k as [|c k]; [done|]. cbn. by intros ->. Qed.

Lemma skipws_space k : clean k -> skipws (32 :: k) = k.
Proof. intros Hk. cbn. by apply skipws_clean. Qed.

Lemma wordchar_not_ws c : wordchar c = true -> isin whitespace c = false.
Proof. unfold wordchar. intros [H1%negb_true_iff _]%andb_true_iff. done. Qed.
Lemma wordchar_not_sym c l : wordchar c = true -> (forall x, x ∈ l -> x ∈ symbols) -> isin l c = false.
Proof.
  unfold wordchar. intros [_ H2%negb_true_iff]%andb_true_iff Hl. apply not_true_is_false. intros Hin%isin_spec%Hl%isin_spec. congruence.
Qed.

Lemma skipword_word w k : forallb wordchar w = true -> skipword (w ++ 32 :: k) = 32 :: k.
Proof.
  induction w as [|c w IH]; [done|]. cbn. fold (wordchar c). intros [-> Hw]%andb_true_iff. by apply IH.
Qed.

Lemma gettoken_word w k :
  good_word w -> clean k -> gettoken (tok w ++ k) = Ok ((WORD, w ++ 32 :: k, 32 :: k), k).
Proof.
  intros [Hne Hw] Hk. unfold tok. rewrite <- app_assoc. cbn [app]. rewrite gettoken_eq. unfold token.
  destruct w as [|c w]; [done|]. assert (Hw' := Hw). cbn in Hw'. apply andb_true_iff in Hw' as [Hc _].
  rewrite skipws_clean by (cbn; by apply wordchar_not_ws). cbn [app].
  rewrite wordchar_not_sym by (done || (intros x; unfold symbols; rewrite !elem_of_cons; unfold BAR, LPAR, RPAR, SEMI, AMP, LT; tauto)).
  rewrite (proj2 (Z.eqb_neq c GT)) by (intros ->; by vm_compute in Hc).
  change (c :: w ++ 32 :: k) with ((c :: w) ++ 32 :: k). rewrite skipword_word by done. cbn [snd]. by rewrite skipws_space.
Qed.

Lemma gettoken_sym c k :
  isin [BAR; LPAR; RPAR; SEMI; AMP; LT; GT] c = true -> clean k ->
  exists q e, gettoken (tok [c] ++ k) = Ok ((c, q, e), k).
Proof.
  intros Hc Hk. cbn [tok app]. rewrite gettoken_eq. unfold token.
  assert (Hws : isin whitespace c = false).
  { apply negb_true_iff. by apply (isin_all (fun c => negb (isin whitespace c)) _ c Hc). }
  rewrite skipws_clean by done. destruct (isin [BAR; LPAR; RPAR; SEMI; AMP; LT] c) eqn:Hs.
  - eexists _, _. cbn [snd]. by rewrite skipws_space.
  - assert (c = GT) as ->.
    { apply (isin_all (fun c => isin [BAR; LPAR; RPAR; SEMI; AMP; LT] c || (c =? GT))) in Hc; [|done].
      rewrite Hs in Hc. by apply Z.eqb_eq in Hc. }
    rewrite Z.eqb_refl. change (32 =? GT) with false. eexists _, _. cbn [snd]. by rewrite skipws_space.
Qed.

Lemma gettoken_end : gettoken [] = Ok ((0, [], []), []).
Proof. done. Qed.

Lemma peek_clean toks k : clean k -> peek toks k = Ok (match k with c :: _ => isin toks c | [] => false end, k).
Proof. intros Hk. rewrite peek_eq. by rewrite skipws_clean. Qed.

Lemma clean_tok w k : good_word w -> clean (tok w ++ k).
Proof.
  intros [Hne Hw]. destruct w as [|c w]; [done|]. cbn in *. apply andb_true_iff in Hw as [Hc _]. by apply wordchar_not_ws.
Qed.
Lemma peek_tok toks w k :
  good_word w -> (forall x, x ∈ toks -> x ∈ symbols) -> peek toks (tok w ++ k) = Ok (false, tok w ++ k).
Proof.
  intros Hw Ht. rewrite peek_clean by by apply clean_tok. destruct Hw as [Hne Hw]. destruct w as [|c w]; [done|]. cbn in *.
  apply andb_true_iff in Hw as [Hc _]. by rewrite wordchar_not_sym.
Qed.

(** ** Reading commands *)

Definition sredir : Type := list Z * Z * Z.
Definition rtext (r : redir) : sredir := (text (rfile r), rmode r, rfd r).
Definition pr_redirs (rs : list sredir) : list Z := concat ((fun '(f, md, _) => pr_redir f md) <$> rs).
Definition good_redir (r : sredir) : Prop :=
  let '(f, md, fd) := r in
  good_word f /\ (md = O_RDONLY /\ fd = 0 \/ md = Z.lor O_WRONLY O_CREATE /\ fd = 1).

(** What may follow a command of each level. *)
Definition after_exec : list Z := [BAR; RPAR; AMP; SEMI].
Definition after_pipe : list Z := [RPAR; AMP; SEMI].
Definition after_back : list Z := [RPAR; SEMI].
Definition after_line : list Z := [RPAR].

Lemma starts_clean l k : starts_in l k -> forallb (fun c => negb (isin whitespace c)) l = true -> clean k.
Proof.
  destruct k as [|c k]; [done|]. cbn. intros Hc Hl. apply negb_true_iff. by apply (isin_all _ _ _ Hc Hl).
Qed.

Lemma peek_starts l toks b k :
  starts_in l k -> forallb (fun c => negb (isin whitespace c)) l = true ->
  forallb (fun c => eqb (isin toks c) b) l = true -> k <> [] \/ b = false -> peek toks k = Ok (b, k).
Proof.
  intros Hs Hl Hb Hk. rewrite peek_clean by by eapply starts_clean. destruct k as [|c k]; [by destruct Hk as [?| ->]|].
  do 2 f_equal. apply eqb_prop. by apply (isin_all (fun c => eqb (isin toks c) b) _ c Hs).
Qed.

Lemma starts_weaken l l' k : starts_in l k -> forallb (isin l') l = true -> starts_in l' k.
Proof. destruct k as [|c k]; [done|]. cbn. intros Hc Hl. by apply (isin_all (isin l') _ c Hc). Qed.

Lemma peek_sym toks c k b :
  isin [BAR; LPAR; RPAR; SEMI; AMP; LT; GT] c = true -> isin toks c = b -> peek toks (tok [c] ++ k) = Ok (b, tok [c] ++ k).
Proof.
  intros Hc <-. rewrite peek_clean; [done|]. cbn. apply negb_true_iff.
  by apply (isin_all (fun c => negb (isin whitespace c)) _ c Hc).
Qed.

Lemma clean_redirs rs k : Forall good_redir rs -> clean k -> clean (pr_redirs rs ++ k).
Proof. destruct 1 as [|[[f md] fd] rs]; [done|]. intros _. cbn. by destruct (md =? O_RDONLY). Qed.

Lemma redirs_parse rs : forall k fuel,
  Forall good_redir rs -> starts_in after_exec k -> (length (pr_redirs rs ++ k) < fuel)%nat ->
  runs (parseredirs_loop fuel) (pr_redirs rs ++ k) (fun rs' s => s = k /\ rtext <$> rs' = rs).
Proof.
  induction rs as [|[[f md] fd] rs IH]; intros k fuel Hg Hk Hf; (destruct fuel as [|fuel]; [lia|]); cbn [parseredirs_loop].
  - apply runs_bind. eapply runs_Ok; [by apply (peek_starts after_exec _ false); auto|]. by eapply runs_Ok.
  - apply Forall_cons in Hg as [[Hw Hm] Hg]. assert (Hck : clean k) by by eapply starts_clean.
    assert (Hc := clean_redirs rs k Hg Hck).
    unfold pr_redirs in *. cbn [fmap list_fmap concat] in *. unfold pr_redir at 1. unfold pr_redir in Hf at 1.
    rewrite <- !app_assoc in *. set (c := if md =? O_RDONLY then LT else GT) in *.
    assert (Hsym : c = LT \/ c = GT) by (unfold c; destruct (md =? O_RDONLY); auto).
    apply runs_bind. eapply runs_Ok; [by apply (peek_sym _ c _ true); destruct Hsym as [-> | ->]|]. cbn [negb].
    destruct (gettoken_sym c (tok f ++ concat ((fun '(f, md, _) => pr_redir f md) <$> rs) ++ k)) as (q & e & Hg1);
      [by destruct Hsym as [-> | ->]|by apply clean_tok|].
    apply runs_bind. eapply runs_Ok; [exact Hg1|]. cbv iota beta.
    apply runs_bind. eapply runs_Ok; [by apply gettoken_word|]. cbv iota beta. cbn [negb Z.eqb WORD].
    apply runs_bind. eapply runs_mono; [apply (IH k fuel Hg Hk); rewrite !length_app in *; cbn in *; lia|].
    intros rs' s [-> Hrs]. eapply runs_Ok; [done|]. split; [done|].
    transitivity (rtext <$> (Redir (f ++ 32 :: pr_redirs rs ++ k, 32 :: pr_redirs rs ++ k) md fd :: rs')).
    { f_equal. unfold c. by destruct Hm as [[-> ->]|[-> ->]]. }
    rewrite fmap_cons, Hrs. f_equal. unfold rtext. cbn [rfile rmode rfd]. by rewrite text_app.
Qed.

Definition pr_args (args : list (list Z)) : list Z := concat (tok <$> args).

Lemma clean_args args rs k :
  Forall good_word args -> Forall good_redir rs -> clean k -> clean (pr_args args ++ pr_redirs rs ++ k).
Proof.
  intros Ha Hr Hk. destruct Ha as [|w args Hw _]; [by apply clean_redirs|]. unfold pr_args. cbn. rewrite <- app_assoc. by apply clean_tok.
Qed.

Lemma redirs_parse_nil args rs k fuel :
  Forall good_word args -> args <> [] -> (0 < fuel)%nat ->
  runs (parseredirs_loop fuel) (pr_args args ++ pr_redirs rs ++ k) (fun rs' s => s = pr_args args ++ pr_redirs rs ++ k /\ rs' = []).
Proof.
  intros Ha Hne Hf. destruct fuel as [|fuel]; [lia|]. destruct Ha as [|w args Hw _]; [done|]. cbn [parseredirs_loop].
  unfold pr_args. cbn [fmap list_fmap concat]. rewrite <- app_assoc.
  apply runs_bind. eapply runs_Ok; [apply peek_tok; [done|]|by eapply runs_Ok].
  intros x. unfold symbols. rewrite !elem_of_cons. unfold LT, GT. tauto.
Qed.

Lemma args_parse args : forall argc k fuel rs,
  Forall good_word args -> Forall good_redir rs -> starts_in after_exec k -> (argc + length args < MAXARGS)%nat ->
  (args = [] -> rs = []) -> (length (pr_args args ++ pr_redirs rs ++ k) < fuel)%nat ->
  runs (parseargs fuel argc) (pr_args args ++ pr_redirs rs ++ k)
    (fun '(ws, rs') s => s = k /\ text <$> ws = args /\ rtext <$> rs' = rs).
Proof.
  induction args as [|w args IH]; intros argc k fuel rs Ha Hr Hk Hn He Hf; (destruct fuel as [|fuel]; [lia|]); cbn [parseargs].
  - rewrite He by done. cbn [pr_args fmap list_fmap concat app pr_redirs]. destruct k as [|c k].
    + by unfold runs.
    + apply runs_bind. eapply runs_Ok; [by apply (peek_starts after_exec _ true); auto|]. by eapply runs_Ok.
  - apply Forall_cons in Ha as [Hw Ha]. assert (Hck : clean k) by by eapply starts_clean.
    assert (Hc := clean_args args rs k Ha Hr Hck). set (K := pr_args args ++ pr_redirs rs ++ k) in *.
    assert (HK : pr_args (w :: args) ++ pr_redirs rs ++ k = tok w ++ K) by (unfold pr_args, K; cbn; by rewrite <- app_assoc).
    rewrite HK in *. apply runs_bind. eapply runs_Ok; [apply peek_tok; [done|]|].
    { intros x. unfold symbols. rewrite !elem_of_cons. unfold BAR, RPAR, AMP, SEMI. tauto. }
    apply runs_bind. eapply runs_Ok; [by apply gettoken_word|]. cbv iota beta. cbn [negb Z.eqb WORD].
    rewrite bool_decide_false by (cbn in Hn; lia).
    apply runs_bind. eapply runs_Ok; [done|]. cbn [id].
    assert (HlK : (length K < fuel)%nat) by (rewrite length_app in Hf; unfold tok in Hf; rewrite length_app in Hf; cbn in Hf; lia).
    apply runs_bind. destruct (decide (args = [])) as [->|Hne].
    + (* the last word: the redirections follow *)
      eapply runs_mono; [apply (redirs_parse rs k); [done|done|unfold K; cbn; lia]|]. intros rs1 s1 [-> Hrs1].
      apply runs_bind. eapply runs_mono; [apply (IH (S argc) k fuel []); try done; cbn in *; [lia|]|].
      * unfold K in HlK. rewrite !length_app in HlK. cbn in *. lia.
      * intros [ws rs2] s2 (-> & Hws & Hrs2). eapply runs_Ok; [done|]. split; [done|]. cbn [fmap list_fmap].
        rewrite Hws. split; [f_equal; apply text_app|]. by rewrite fmap_app, Hrs1, Hrs2, app_nil_r.
    + eapply runs_mono; [apply (redirs_parse_nil args rs k); [done|done|lia]|]. intros rs1 s1 [-> ->].
      apply runs_bind. eapply runs_mono; [apply (IH (S argc) k fuel rs); try done; cbn in *; lia|].
      intros [ws rs2] s2 (-> & Hws & Hrs2). eapply runs_Ok; [done|]. split; [done|]. cbn [fmap list_fmap].
      rewrite Hws. split; [f_equal; apply text_app|done].
Qed.

(** Redirections around a command. *)
Definition sredircmd (c : scmd) (r : sredir) : scmd := let '(f, md, fd) := r in SRedir c f md fd.

Lemma erase_redirs c rs : erase (foldl redircmd c rs) = foldl sredircmd (erase c) (rtext <$> rs).
Proof. revert c. induction rs as [|r rs IH]; intros c; [done|]. cbn. by rewrite IH. Qed.

Lemma pr_redircmds c rs : pr 0 (foldl sredircmd c rs) = pr 0 c ++ pr_redirs rs.
Proof.
  revert c. induction rs as [|[[f md] fd] rs IH]; intros c; cbn; [by rewrite app_nil_r|].
  rewrite IH. cbn. unfold pr_redirs. cbn. by rewrite <- app_assoc.
Qed.

Definition reads (p : nat -> P cmd) (depth : nat) (s : list Z) (c : scmd) (k : list Z) : Prop :=
  forall fuel, (4 * length (s ++ k) + depth <= fuel)%nat -> runs (p fuel) (s ++ k) (fun c' s' => s' = k /\ erase c' = c).

Lemma exec_no_paren args rs k :
  Forall good_word args -> Forall good_redir rs -> starts_in after_exec k ->
  peek [LPAR] (pr_args args ++ pr_redirs rs ++ k) = Ok (false, pr_args args ++ pr_redirs rs ++ k).
Proof.
  intros Ha Hr Hk. destruct Ha as [|w args Hw _].
  - destruct Hr as [|[[f md] fd] rs _ _].
    + apply (peek_starts after_exec); auto.
    + unfold pr_redirs. cbn [fmap list_fmap concat pr_args app]. unfold pr_redir at 1 3. rewrite <- !app_assoc.
      apply peek_sym; by destruct (md =? O_RDONLY).
  - unfold pr_args. cbn [fmap list_fmap concat]. rewrite <- app_assoc. apply peek_tok; [done|].
    intros x. unfold symbols. rewrite !elem_of_cons. unfold LPAR. tauto.
Qed.

(** A simple command. *)
Lemma exec_reads args rs k :
  Forall good_word args -> (length args < MAXARGS)%nat -> Forall good_redir rs -> starts_in after_exec k ->
  reads parseexec 2 (pr_args args ++ pr_redirs rs) (foldl sredircmd (SExec args) rs) k.
Proof.
  intros Ha Hn Hr Hk fuel Hf. destruct fuel as [|fuel]; [lia|]. cbn [parseexec]. rewrite <- app_assoc in *.
  assert (Hck : clean k) by by eapply starts_clean. assert (Hc := clean_args args rs k Ha Hr Hck).
  apply runs_bind. eapply runs_Ok; [by apply (exec_no_paren args rs k)|].
  apply runs_bind. eapply runs_Ok; [done|]. cbn [id]. apply runs_bind.
  destruct (decide (args = [])) as [->|Hne].
  - eapply runs_mono; [apply (redirs_parse rs k); [done|done|cbn; lia]|]. intros rs1 s1 [-> Hrs1].
    apply runs_bind. eapply runs_Ok; [done|]. cbn [id]. apply runs_bind.
    eapply runs_mono; [apply (args_parse [] 0 k _ []); try done; cbn; lia|]. intros [ws rs2] s2 (-> & Hws & Hrs2).
    eapply runs_Ok; [done|]. split; [done|]. rewrite erase_redirs, fmap_app, Hrs1, Hrs2, app_nil_r. cbn. by rewrite Hws.
  - eapply runs_mono; [apply (redirs_parse_nil args rs k); [done|done|lia]|]. intros rs1 s1 [-> ->].
    apply runs_bind. eapply runs_Ok; [done|]. cbn [id]. apply runs_bind.
    eapply runs_mono; [apply (args_parse args 0 k _ rs); try done; lia|]. intros [ws rs2] s2 (-> & Hws & Hrs2).
    eapply runs_Ok; [done|]. split; [done|]. rewrite erase_redirs. cbn [app]. rewrite Hrs2. cbn. by rewrite Hws.
Qed.

(** A block with redirections. *)
Lemma block_reads s c rs k :
  (forall k', starts_in after_line k' -> reads parseline 4 s c k') -> (forall k', clean k' -> clean (s ++ k')) ->
  Forall good_redir rs -> starts_in after_exec k ->
  reads parseexec 2 (tok [LPAR] ++ s ++ tok [RPAR] ++ pr_redirs rs) (foldl sredircmd c rs) k.
Proof.
  intros Hc Hcl Hr Hk fuel Hf. destruct fuel as [|[|fuel]]; [lia|lia|]. cbn [parseexec parseblock]. rewrite <- !app_assoc in *.
  assert (Hck := starts_clean _ k Hk eq_refl). assert (Hcr := clean_redirs rs k Hr Hck).
  assert (Hs : clean (s ++ tok [RPAR] ++ pr_redirs rs ++ k)) by by apply Hcl.
  apply runs_bind. eapply runs_Ok; [by apply (peek_sym _ LPAR _ true)|].
  apply runs_bind. eapply runs_Ok; [by apply (peek_sym _ LPAR _ true)|]. cbn [negb].
  destruct (gettoken_sym LPAR _ eq_refl Hs) as (q & e & Hg). apply runs_bind. eapply runs_Ok; [exact Hg|].
  apply runs_bind. eapply runs_mono; [apply Hc; [done|]; rewrite !length_app in *; cbn in *; lia|].
  intros c' s' [-> He]. apply runs_bind. eapply runs_Ok; [by apply (peek_sym _ RPAR _ true)|]. cbn [negb].
  destruct (gettoken_sym RPAR _ eq_refl Hcr) as (q2 & e2 & Hg2). apply runs_bind. eapply runs_Ok; [exact Hg2|].
  unfold parseredirs. apply runs_bind. eapply runs_Ok; [done|]. cbn [id].
  apply runs_bind. eapply runs_mono; [apply redirs_parse; [done|done|lia]|]. intros rs' s' [-> Hrs].
  eapply runs_Ok; [done|]. split; [done|]. by rewrite erase_redirs, He, Hrs.
Qed.

Lemma pipe_reads_exec s c k : reads parseexec 2 s c k -> starts_in after_pipe k -> reads parsepipe 3 s c k.
Proof.
  intros He Hk fuel Hf. destruct fuel as [|fuel]; [lia|]. cbn [parsepipe].
  apply runs_bind. eapply runs_mono; [apply He; lia|]. intros c' s' [-> Hc].
  apply runs_bind. eapply runs_Ok; [by apply (peek_starts after_pipe _ false); auto|]. by eapply runs_Ok.
Qed.

Lemma pipe_reads s1 l s2 r k :
  reads parseexec 2 s1 l (tok [BAR] ++ s2 ++ k) -> reads parsepipe 3 s2 r k -> clean (s2 ++ k) ->
  reads parsepipe 3 (s1 ++ tok [BAR] ++ s2) (SPipe l r) k.
Proof.
  intros Hl Hr Hc fuel Hf. destruct fuel as [|fuel]; [lia|]. cbn [parsepipe]. rewrite <- !app_assoc in *.
  apply runs_bind. eapply runs_mono; [apply Hl; lia|]. intros c' s' [-> He].
  apply runs_bind. eapply runs_Ok; [by apply (peek_sym _ BAR _ true)|]. cbn [negb].
  destruct (gettoken_sym BAR _ eq_refl Hc) as (q & e & Hg). apply runs_bind. eapply runs_Ok; [exact Hg|].
  apply runs_bind. eapply runs_mono; [apply Hr; rewrite !length_app in *; cbn in *; lia|]. intros c2 s2' [-> He2].
  eapply runs_Ok; [done|]. split; [done|]. cbn. by rewrite He, He2.
Qed.

Definition nback (n : nat) (c : scmd) : scmd := Nat.iter n SBack c.
Definition amps (n : nat) : list Z := concat (replicate n (tok [AMP])).

Lemma clean_amps n k : clean k -> clean (amps n ++ k).
Proof. by destruct n. Qed.

Lemma back_reads n : forall c k fuel, starts_in after_back k -> (length (amps n ++ k) < fuel)%nat ->
  runs (parseback fuel c) (amps n ++ k) (fun c' s' => s' = k /\ erase c' = nback n (erase c)).
Proof.
  induction n as [|n IH]; intros c k fuel Hk Hf; (destruct fuel as [|fuel]; [lia|]); cbn [parseback].
  - apply runs_bind. eapply runs_Ok; [by apply (peek_starts after_back _ false); auto|]. by eapply runs_Ok.
  - assert (Hck := starts_clean _ k Hk eq_refl). unfold amps in *. cbn [replicate concat] in *. rewrite <- app_assoc in *.
    apply runs_bind. eapply runs_Ok; [by apply (peek_sym _ AMP _ true)|]. cbn [negb].
    destruct (gettoken_sym AMP _ eq_refl (clean_amps n k Hck)) as (q & e & Hg). apply runs_bind. eapply runs_Ok; [exact Hg|].
    eapply runs_mono; [apply IH; [done|]; rewrite !length_app in *; cbn in *; lia|]. intros c' s' [-> He]. split; [done|].
    rewrite He. cbn [erase]. unfold nback. by rewrite Nat.iter_succ_r.
Qed.

(** The part of a line before a semicolon, and the line. *)
Lemma line_reads n s b k :
  reads parsepipe 3 s b (amps n ++ k) -> starts_in after_line k -> reads parseline 4 (s ++ amps n) (nback n b) k.
Proof.
  intros Hb Hk fuel Hf. destruct fuel as [|fuel]; [lia|]. cbn [parseline]. rewrite <- app_assoc in *.
  apply runs_bind. eapply runs_mono; [apply Hb; lia|]. intros c' s' [-> He].
  apply runs_bind. eapply runs_Ok; [done|]. cbn [id]. apply runs_bind.
  eapply runs_mono; [apply back_reads; [by eapply starts_weaken|lia]|]. intros c2 s2 [-> He2].
  apply runs_bind. eapply runs_Ok; [by apply (peek_starts after_line _ false); auto|]. eapply runs_Ok; [done|]. by rewrite He2, He.
Qed.

Lemma list_reads n s b s2 r k :
  reads parsepipe 3 s b (amps n ++ tok [SEMI] ++ s2 ++ k) -> reads parseline 4 s2 r k -> clean (s2 ++ k) ->
  reads parseline 4 ((s ++ amps n) ++ tok [SEMI] ++ s2) (SList (nback n b) r) k.
Proof.
  intros Hb Hr Hc fuel Hf. destruct fuel as [|fuel]; [lia|]. cbn [parseline]. rewrite <- !app_assoc in *.
  apply runs_bind. eapply runs_mono; [apply Hb; lia|]. intros c' s' [-> He].
  apply runs_bind. eapply runs_Ok; [done|]. cbn [id]. apply runs_bind.
  eapply runs_mono; [apply back_reads; [done|lia]|]. intros c2 s2' [-> He2].
  apply runs_bind. eapply runs_Ok; [by apply (peek_sym _ SEMI _ true)|]. cbn [negb].
  destruct (gettoken_sym SEMI _ eq_refl Hc) as (q & e & Hg). apply runs_bind. eapply runs_Ok; [exact Hg|].
  apply runs_bind. eapply runs_mono; [apply Hr; rewrite !length_app in *; cbn in *; lia|]. intros c3 s3 [-> He3].
  eapply runs_Ok; [done|]. split; [done|]. cbn. by rewrite He2, He, He3.
Qed.

(** ** Every command *)

Lemma clean_pr c : forall lvl k, typable c -> clean k -> clean (pr lvl c ++ k).
Proof.
  induction c as [argv|c IH f md fd|l IHl r IHr|l IHl r IHr|c IH]; intros lvl k Ht Hk; cbn [pr].
  - destruct Ht as [Ha _]. by apply (clean_args argv [] k).
  - destruct Ht as (Hc & Hf & Hm). rewrite <- app_assoc. apply IH; [done|]. unfold pr_redir. by destruct (md =? O_RDONLY).
  - destruct Ht as [Hl Hr]. unfold paren. destruct (1 <=? lvl)%nat; [|done]. rewrite <- app_assoc. by apply IHl.
  - destruct Ht as [Hl Hr]. unfold paren. destruct (3 <=? lvl)%nat; [|done]. rewrite <- app_assoc. by apply IHl.
  - unfold paren. destruct (2 <=? lvl)%nat; [|done]. rewrite <- app_assoc. by apply IH.
Qed.

Fixpoint csize (c : scmd) : nat :=
  match c with
  | SExec _ => 1
  | SRedir c _ _ _ | SBack c => S (csize c)
  | SPipe l r | SList l r => S (csize l + csize r)
  end.

Definition is_back (c : scmd) : bool := match c with SBack _ => true | _ => false end.
Definition compound (c : scmd) : bool := match c with SExec _ | SRedir _ _ _ _ => false | _ => true end.

Lemma unback c : typable c -> exists n b,
  c = nback n b /\ typable b /\ (csize b <= csize c)%nat /\ (is_back c = true -> (csize b < csize c)%nat) /\
  pr 2 c = pr 1 b ++ amps n.
Proof.
  induction c as [argv|c IH f md fd|l IHl r IHr|l IHl r IHr|c IH]; intros Ht;
    try (by exists 0%nat; eexists; split_and!; [reflexivity|done|done|done|unfold amps; cbn; by rewrite app_nil_r]).
  destruct (IH Ht) as (n & b & -> & Hb & Hs & _ & Hp). exists (S n), b. split_and!; [done|done|cbn in *; lia|cbn in *; lia|].
  cbn [pr paren Nat.leb]. change (Nat.iter n SBack b) with (nback n b). rewrite Hp, <- app_assoc. f_equal.
  unfold amps. rewrite replicate_S_end, concat_app. done.
Qed.

Lemma unredir c : typable c -> compound c = false -> exists b rs,
  c = foldl sredircmd b rs /\ typable b /\ Forall good_redir rs /\
  ((exists args, b = SExec args) \/ (compound b = true /\ (csize b < csize c)%nat)).
Proof.
  induction c as [argv|c IH f md fd|l IHl r IHr|l IHl r IHr|c IH]; intros Ht Hc; try done.
  - exists (SExec argv), []. split_and!; eauto.
  - destruct Ht as (Ht & Hf & Hm). destruct (compound c) eqn:Hcc.
    + exists c, [(f, md, fd)]. split_and!; [done|done|by apply Forall_singleton|]. right. split; [done|cbn; lia].
    + destruct (IH Ht eq_refl) as (b & rs & -> & Hb & Hr & Hbase). exists b, (rs ++ [(f, md, fd)]).
      split_and!; [by rewrite foldl_app|done|apply Forall_app; split; [done|by apply Forall_singleton]|].
      destruct Hbase as [?|[? ?]]; [by left|right; split; [done|cbn in *; lia]].
Qed.

Definition reads_exec (c : scmd) : Prop := forall k, starts_in after_exec k -> reads parseexec 2 (pr 0 c) c k.
Definition reads_pipe (c : scmd) : Prop := forall k, starts_in after_pipe k -> reads parsepipe 3 (pr 1 c) c k.
Definition reads_line (c : scmd) : Prop := forall k, starts_in after_line k -> reads parseline 4 (pr 3 c) c k.

Lemma reads_pipe_of_exec c : reads_exec c -> pr 1 c = pr 0 c -> reads_pipe c.
Proof. intros He Hp k Hk. rewrite Hp. apply pipe_reads_exec; [|done]. apply He. by eapply starts_weaken. Qed.

Lemma reads_line_of_pipe c : reads_pipe c -> pr 3 c = pr 1 c -> reads_line c.
Proof.
  intros Hp He k Hk. rewrite He. pose proof (line_reads 0 (pr 1 c) c k) as Hl. unfold amps in Hl. cbn in Hl.
  rewrite app_nil_r in Hl. apply Hl; [|done]. apply Hp. by eapply starts_weaken.
Qed.

Lemma starts_amps n k l : starts_in l k -> isin l AMP = true -> starts_in l (amps n ++ k).
Proof. by destruct n. Qed.

(** Lines that are neither simple commands nor redirections. *)
Lemma compound_line c :
  typable c -> compound c = true -> (forall c', (csize c' < csize c)%nat -> typable c' -> reads_exec c' /\ reads_pipe c' /\ reads_line c') ->
  reads_line c /\ (is_back c = false -> (exists l r, c = SPipe l r) -> reads_pipe c).
Proof.
  intros Ht Hc IH. destruct c as [argv|c f md fd|l r|l r|c]; try done; cbn [typable csize] in *.
  - destruct Ht as [Hl Hr]. assert (Hp : reads_pipe (SPipe l r)).
    { intros k Hk. cbn [pr paren Nat.leb]. apply pipe_reads.
      - apply IH; [lia|done|done].
      - by apply IH; [lia|done|].
      - apply clean_pr; [done|]. by eapply starts_clean. }
    split; [|done]. by apply reads_line_of_pipe.
  - split; [|by intros _ (? & ? & ?)]. destruct Ht as [Hl Hr]. intros k Hk. cbn [pr paren Nat.leb].
    destruct (unback l Hl) as (n & b & -> & Hb & Hs & _ & Hp). rewrite Hp. apply list_reads.
    + apply IH; [lia|done|]. by apply starts_amps.
    + by apply IH; [lia|done|].
    + apply clean_pr; [done|]. by eapply starts_clean.
  - split; [|by intros _ (? & ? & ?)]. intros k Hk.
    destruct (unback (SBack c) Ht) as (n & b & He & Hb & _ & Hs & Hp). specialize (Hs eq_refl). cbn in Hs.
    change (pr 3 (SBack c)) with (pr 2 (SBack c)). rewrite Hp, He. apply line_reads; [|done].
    apply IH; [lia|done|]. apply starts_amps; [by eapply starts_weaken|done].
Qed.

Lemma reads_all n : forall c, (csize c < n)%nat -> typable c -> reads_exec c /\ reads_pipe c /\ reads_line c.
Proof.
  induction n as [|n IH]; intros c Hn Ht; [lia|].
  assert (IH' : forall c', (csize c' < csize c)%nat -> typable c' -> reads_exec c' /\ reads_pipe c' /\ reads_line c') by (intros; apply IH; [lia|done]).
  destruct (compound c) eqn:Hc.
  - destruct (compound_line c Ht Hc IH') as [Hl Hp].
    assert (He : reads_exec c).
    { intros k Hk. assert (Hpr : pr 0 c = tok [LPAR] ++ pr 3 c ++ tok [RPAR] ++ pr_redirs []).
      { destruct c; try done; cbn [pr paren Nat.leb pr_redirs]; done. }
      rewrite Hpr. apply (block_reads (pr 3 c) c [] k); [done| |constructor|done]. intros k'. by apply clean_pr. }
    split; [done|]. split; [|done]. destruct c; try done; [|by apply reads_pipe_of_exec|by apply reads_pipe_of_exec].
    apply Hp; eauto.
  - destruct (unredir c Ht Hc) as (b & rs & -> & Hb & Hr & Hbase).
    assert (He : reads_exec (foldl sredircmd b rs)).
    { intros k Hk. rewrite pr_redircmds. destruct Hbase as [[args ->]|[Hcb Hsz]].
      - destruct Hb as [Ha Hlen]. by apply exec_reads.
      - assert (Hpr : pr 0 b = tok [LPAR] ++ pr 3 b ++ tok [RPAR]) by (destruct b; try done).
        rewrite Hpr, <- !app_assoc. apply block_reads; [by apply IH'| |done|done]. intros k'. by apply clean_pr. }
    assert (Heq : forall l, pr l (foldl sredircmd b rs) = pr 0 (foldl sredircmd b rs)) by (intros l; by destruct (foldl sredircmd b rs)).
    split; [done|]. assert (Hp : reads_pipe (foldl sredircmd b rs)) by (apply reads_pipe_of_exec; [done|apply Heq]).
    split; [done|]. apply reads_line_of_pipe; [done|]. by rewrite !Heq.
Qed.

Lemma parse_printed c : typable c ->
  exists c', parseline (4 * length (pr 3 c) + 4) (pr 3 c) = Ok (c', []) /\ erase c' = c.
Proof.
  intros Ht. destruct (reads_all (S (csize c)) c ltac:(lia) Ht) as (_ & _ & Hl).
  specialize (Hl [] I (4 * length (pr 3 c) + 4)%nat). rewrite app_nil_r in Hl. specialize (Hl ltac:(lia)).
  apply runs_inv in Hl as (c' & s' & Hrun & -> & He). by exists c'.
Qed.

(** C33. The parser reads back what is printed: every command that can be typed,
    written with blanks between the tokens and parentheses where the grammar
    needs them, is parsed to that same command. *)
Theorem sh_parse_roundtrip c :
  typable c -> exists c' b, parsecmd (pr 3 c) = Ok (c', b) /\ erase c' = c.
Proof.
  intros Ht. destruct (parse_printed c Ht) as (c' & Hrun & He). exists c', (nulterminate (pr 3 c) c' (pr 3 c ++ [0])).
  split; [|done]. unfold parsecmd, bind. by rewrite Hrun.
Qed.

Definition demo_cmd : scmd :=
  SList (SBack (SPipe (SRedir (SExec [[99; 97; 116]]) [97] O_RDONLY 0) (SBack (SExec [[119; 99]])))) (SExec []).

Lemma sh_parse_roundtrip_witness : exists c' b, parsecmd (pr 3 demo_cmd) = Ok (c', b) /\ erase c' = demo_cmd.
Proof.
  apply (sh_parse_roundtrip demo_cmd). cbn. unfold good_word, MAXARGS.
  repeat first [split | apply Forall_cons | apply Forall_nil | done | lia | left; done].
Defined.
