(* ===== verification/ShRun.v ===== *)
(** What the shell does with a parsed command ([runcmd] of [sh.c]): the system
    calls of its processes, which run side by side, the programs they start and
    the descriptors these get. *)

From S2P Require Import Prelude Layout Sh ShParse ShPrint Ulib.

(** ** Descriptors *)

(** A process is named by how it came to be: the [n]-th child of [p] is
    [p ++ [n]].  A pipe is named by its maker: a process of the shell makes at
    most one. *)
Definition pname : Type := list nat.

(** What an open descriptor refers to. *)
Inductive desc :=
| Inherited (n : nat)
| File (name : list Z) (mode : Z)
| ReadEnd (maker : pname)
| WriteEnd (maker : pname).

Definition fdtable : Type := list (option desc).

Definition sclose (fd : nat) (t : fdtable) : fdtable := <[fd := None]> t.

(** The lowest free descriptor ([fdalloc]). *)
Fixpoint lowest (t : fdtable) : option nat :=
  match t with
  | [] => None
  | None :: _ => Some O
  | Some _ :: t => S <$> lowest t
  end.
Definition sinstall (d : desc) (t : fdtable) : option (nat * fdtable) :=
  (fun fd => (fd, <[fd := Some d]> t)) <$> lowest t.
Definition sdup (fd : nat) (t : fdtable) : fdtable :=
  match t !! fd with
  | Some (Some d) => match sinstall d t with Some (_, t') => t' | None => t end
  | _ => t
  end.
Definition spipe (me : pname) (t : fdtable) : option (nat * nat * fdtable) :=
  match sinstall (ReadEnd me) t with
  | Some (fd0, t1) =>
      match sinstall (WriteEnd me) t1 with
      | Some (fd1, t2) => Some (fd0, fd1, t2)
      | None => None
      end
  | None => None
  end.

(** ** The code of a process *)

(** System calls and what follows them.  [Fork] goes on with its first part in
    the child, with the second in the parent and with the third if it fails;
    [Exec] goes on only if it fails.  [Loop] is a loop that does not end. *)
Inductive code :=
| Exit
| Loop
| Say (msg : string) (k : code)
| Exec (argv : list (list Z)) (k : code)
| Fork (child parent fail : code)
| Wait (k : code)
| Close (fd : nat) (k : code)
| Dup (fd : nat) (k : code)
| Open (file : list Z) (mode : Z) (k : option nat -> code)
| Pipe (k : option (nat * nat) -> code)
| Chdir (path : list Z) (k : bool -> code).

(** [fork1]: [panic] if it fails. *)
Definition fork1 (child parent : code) : code := Fork child parent (Say "fork" Exit).

Fixpoint runcmd (c : scmd) : code :=
  match c with
  | SExec [] => Exit
  | SExec argv => Exec argv (Say "exec failed" Exit)
  | SRedir c file mode fd =>
      Close (Z.to_nat fd)
        (Open file mode (fun o =>
          match o with
          | None => Say "open failed" Exit
          | Some _ => runcmd c
          end))
  | SList l r => fork1 (runcmd l) (Wait (runcmd r))
  | SPipe l r =>
      Pipe (fun o =>
        match o with
        | None => Say "pipe" Exit
        | Some (p0, p1) =>
            fork1 (Close 1 (Dup p1 (Close p0 (Close p1 (runcmd l)))))
              (fork1 (Close 0 (Dup p0 (Close p0 (Close p1 (runcmd r)))))
                (Close p0 (Close p1 (Wait (Wait Exit)))))
        end)
  | SBack c => fork1 (runcmd c) Exit
  end.

(** [getcmd(buf, nbuf)] behind the prompt: the string in [buf], which a NUL among
    the typed bytes ends, unless it is empty. *)
Definition getcmd (nbuf : Z) (input : list Z) : option (list Z * list Z) :=
  let '(l, rest) := gets_ nbuf input in
  match l with
  | [] => None
  | c :: _ => if c =? 0 then None else Some (until_nul l, rest)
  end.

(** ** Processes side by side *)

(** A process with its children: one that has exited and was not waited for, one
    that runs a program, or one that runs the code of the shell, with the number
    of its forks so far and its descriptors. *)
Inductive ptree :=
| Zombie (me : pname)
| Prog (me : pname) (kids : list ptree)
| Proc (me : pname) (nf : nat) (t : fdtable) (k : code) (kids : list ptree).

Inductive event :=
| Started (p : pname) (argv : list (list Z)) (t : fdtable)
| Exited (p : pname)
| Said (p : pname) (msg : string)
| Changed (path : list Z) (ok : bool).

Section run.
(** Which calls fail. *)
Context (open_fails : list Z -> Z -> bool) (exec_fails : list (list Z) -> bool) (chdir_fails : list Z -> bool) (fork_fails : pname -> nat -> bool).

Definition sopen (file : list Z) (mode : Z) (t : fdtable) : option nat * fdtable :=
  if open_fails file mode then (None, t) else
  match sinstall (File file mode) t with
  | Some (fd, t) => (Some fd, t)
  | None => (None, t)
  end.

(** A call that concerns the process alone. *)
Definition local (me : pname) (nf : nat) (t : fdtable) (k : code) : option (list event * fdtable * code) :=
  match k with
  | Say msg k => Some ([Said me msg], t, k)
  | Close fd k => Some ([], sclose fd t, k)
  | Dup fd k => Some ([], sdup fd t, k)
  | Open file mode k => let '(o, t) := sopen file mode t in Some ([], t, k o)
  | Pipe k =>
      match spipe me t with
      | Some (p0, p1, t) => Some ([], t, k (Some (p0, p1)))
      | None => Some ([], t, k None)
      end
  | Chdir path k => let ok := negb (chdir_fails path) in Some ([Changed path ok], t, k ok)
  | Exec argv k => if exec_fails argv then Some ([], t, k) else None
  | Fork _ _ fail => if fork_fails me nf then Some ([], t, fail) else None
  | Exit | Loop | Wait _ => None
  end.

(** What the process at the root can do: events, the process after it, and the
    children it leaves to init.  [wait] takes some child that has exited, here
    the [i]-th one, and returns at once if there is no child at all. *)
Definition act (i : nat) (T : ptree) : option (list event * ptree * list ptree) :=
  match T with
  | Zombie _ => None
  | Prog me kids => Some ([Exited me], Zombie me, kids)
  | Proc me nf t k kids =>
      match local me nf t k with
      | Some (es, t, k) => Some (es, Proc me nf t k kids, [])
      | None =>
          match k with
          | Exit => Some ([], Zombie me, kids)
          | Exec argv _ => Some ([Started me argv t], Prog me kids, [])
          | Fork child parent _ => Some ([], Proc me (S nf) t parent (kids ++ [Proc (me ++ [nf]) 0 t child []]), [])
          | Wait k =>
              match kids with
              | [] => Some ([], Proc me nf t k [], [])
              | _ =>
                  match kids !! i with
                  | Some (Zombie _) => Some ([], Proc me nf t k (delete i kids), [])
                  | _ => None
                  end
              end
          | _ => None
          end
      end
  end.

(** Any process of the tree moves. *)
Inductive tstep : ptree -> list event -> ptree -> list ptree -> Prop :=
| T_here i T es T' os : act i T = Some (es, T', os) -> tstep T es T' os
| T_prog me a K b es K' os : tstep K es K' os -> tstep (Prog me (a ++ K :: b)) es (Prog me (a ++ K' :: b)) os
| T_proc me nf t k a K b es K' os : tstep K es K' os ->
    tstep (Proc me nf t k (a ++ K :: b)) es (Proc me nf t k (a ++ K' :: b)) os.
(** The children of init. *)
Inductive fstep : list ptree -> list event -> list ptree -> Prop :=
| F_step a T b es T' os : tstep T es T' os -> fstep (a ++ T :: b) es (a ++ T' :: b ++ os).
(** [n] steps with the events in their order. *)
Inductive fsteps : nat -> list ptree -> list event -> list ptree -> Prop :=
| F_nil F : fsteps 0 F [] F
| F_snoc n F es F' es' F'' : fsteps n F es F' -> fstep F' es' F'' -> fsteps (S n) F (es ++ es') F''.

(** The same as a function: the moves are given by the place of the process, and
    for [wait] the child. *)
Fixpoint move (pos : list nat) (i : nat) (T : ptree) : option (list event * ptree * list ptree) :=
  match pos with
  | [] => act i T
  | j :: pos =>
      match T with
      | Zombie _ => None
      | Prog me kids =>
          match kids !! j with
          | Some K => (fun '(es, K, os) => (es, Prog me (<[j := K]> kids), os)) <$> move pos i K
          | None => None
          end
      | Proc me nf t k kids =>
          match kids !! j with
          | Some K => (fun '(es, K, os) => (es, Proc me nf t k (<[j := K]> kids), os)) <$> move pos i K
          | None => None
          end
      end
  end.
Fixpoint moves (ms : list (nat * list nat * nat)) (F : list ptree) : option (list event * list ptree) :=
  match ms with
  | [] => Some ([], F)
  | (j, pos, i) :: ms =>
      match F !! j with
      | Some T =>
          match move pos i T with
          | Some (es, T, os) => (fun '(es', F) => (es ++ es', F)) <$> moves ms (<[j := T]> F ++ os)
          | None => None
          end
      | None => None
      end
  end.

Lemma move_step pos : forall i T es T' os, move pos i T = Some (es, T', os) -> tstep T es T' os.
Proof.
  induction pos as [|j pos IH]; intros i T es T' os; cbn [move]; [by apply T_here|].
  destruct T as [me|me kids|me nf t k kids]; [done|..]; destruct (kids !! j) as [K|] eqn:HK; try done.
  all: destruct (move pos i K) as [[[es1 K'] os1]|] eqn:Hm; [|done]; intros [= <- <- <-]; apply IH in Hm.
  all: rewrite <- (take_drop_middle kids j K HK) at 1; rewrite insert_take_drop by (by eapply lookup_lt_Some).
  - by apply T_prog.
  - by apply T_proc.
Qed.

Lemma fsteps_trans n1 n2 F es1 F1 es2 F2 : fsteps n1 F es1 F1 -> fsteps n2 F1 es2 F2 -> fsteps (n1 + n2) F (es1 ++ es2) F2.
Proof.
  intros H1 H2. induction H2 as [F1|n F1 es F' es' F'' _ IH Hs]; [by rewrite app_nil_r, Nat.add_0_r|].
  rewrite app_assoc, Nat.add_succ_r. by eapply F_snoc; [apply IH|].
Qed.
Lemma moves_steps ms : forall F es F', moves ms F = Some (es, F') -> fsteps (length ms) F es F'.
Proof.
  induction ms as [|[[j pos] i] ms IH]; intros F es F'; cbn [moves]; [intros [= <- <-]; apply F_nil|].
  destruct (F !! j) as [T|] eqn:HT; [|done]. destruct (move pos i T) as [[[es1 T'] os]|] eqn:Hm; [|done].
  destruct (moves ms _) as [[es2 F2]|] eqn:Hms; [|done]. intros [= <- <-]. apply IH in Hms.
  change (length ((j, pos, i) :: ms)) with (1 + length ms)%nat. eapply fsteps_trans; [|exact Hms].
  rewrite <- (app_nil_l es1). eapply F_snoc; [apply F_nil|].
  rewrite <- (take_drop_middle F j T HT) at 1. rewrite insert_take_drop by (by eapply lookup_lt_Some). rewrite <- app_assoc. apply F_step.
  by eapply move_step.
Qed.

(** ** Behaviours *)

(** The code of a process with the results of its calls filled in. *)
Inductive beh :=
| BExit
| BLoop
| BExec (argv : list (list Z)) (t : fdtable)
| BFork (child parent : beh)
| BWait (b : beh)
| BStep (es : list event) (b : beh).
Fixpoint eval (me : pname) (nf : nat) (t : fdtable) (k : code) : beh :=
  match k with
  | Exit => BExit
  | Loop => BLoop
  | Say msg k => BStep [Said me msg] (eval me nf t k)
  | Exec argv k => if exec_fails argv then BStep [] (eval me nf t k) else BExec argv t
  | Fork child parent fail =>
      if fork_fails me nf then BStep [] (eval me nf t fail)
      else BFork (eval (me ++ [nf]) 0 t child) (eval me (S nf) t parent)
  | Wait k => BWait (eval me nf t k)
  | Close fd k => BStep [] (eval me nf (sclose fd t) k)
  | Dup fd k => BStep [] (eval me nf (sdup fd t) k)
  | Open file mode k => let '(o, t) := sopen file mode t in BStep [] (eval me nf t (k o))
  | Pipe k =>
      match spipe me t with
      | Some (p0, p1, t) => BStep [] (eval me nf t (k (Some (p0, p1))))
      | None => BStep [] (eval me nf t (k None))
      end
  | Chdir path k => let ok := negb (chdir_fails path) in BStep [Changed path ok] (eval me nf t (k ok))
  end.

Lemma local_eval me nf t k es t' k' : local me nf t k = Some (es, t', k') -> eval me nf t k = BStep es (eval me nf t' k').
Proof.
  destruct k as [| |msg k|argv k|ch pa fl|k|fd k|fd k|f m k|k|path k]; cbn [local eval]; intros H; try done; try (by injection H as <- <- <-).
  - destruct (exec_fails argv); [by injection H as <- <- <-|done].
  - destruct (fork_fails me nf); [by injection H as <- <- <-|done].
  - destruct (sopen f m t) as [o t1]. by injection H as <- <- <-.
  - destruct (spipe me t) as [[[p0 p1] t1]|]; by injection H as <- <- <-.
Qed.
(** Such calls start no program and end none. *)
Definition mute (e : event) : Prop := match e with Started _ _ _ | Exited _ => False | Said _ _ | Changed _ _ => True end.
Lemma local_mute me nf t k es t' k' : local me nf t k = Some (es, t', k') -> Forall mute es.
Proof.
  destruct k as [| |msg k|argv k|ch pa fl|k|fd k|fd k|f m k|k|path k]; cbn [local]; intros H; try done.
  - injection H as <- <- <-. by repeat constructor.
  - destruct (exec_fails argv); [by injection H as <- <- <-|done].
  - destruct (fork_fails me nf); [by injection H as <- <- <-|done].
  - by injection H as <- <- <-.
  - by injection H as <- <- <-.
  - destruct (sopen f m t) as [o t1]. by injection H as <- <- <-.
  - destruct (spipe me t) as [[[p0 p1] t1]|]; by injection H as <- <- <-.
  - injection H as <- <- <-. by repeat constructor.
Qed.
(** The calls that concern others. *)
Lemma shared_eval me nf t k : local me nf t k = None ->
  match k with
  | Exit => eval me nf t k = BExit
  | Loop => eval me nf t k = BLoop
  | Exec argv _ => eval me nf t k = BExec argv t
  | Fork child parent _ => eval me nf t k = BFork (eval (me ++ [nf]) 0 t child) (eval me (S nf) t parent)
  | Wait k' => eval me nf t k = BWait (eval me nf t k')
  | _ => False
  end.
Proof.
  destruct k as [| |msg k|argv k|ch pa fl|k|fd k|fd k|f m k|k|path k]; cbn [local eval]; intros H; try done.
  - by destruct (exec_fails argv).
  - by destruct (fork_fails me nf).
  - by destruct (sopen f m t).
  - by destruct (spipe me t) as [[[p0 p1] t1]|].
Qed.

(** *** Sums over all processes *)

Section fold.
Context {A : Type} (fB : pname -> nat -> beh -> list A) (fP : pname -> list A) (emit : list event -> list A).
Fixpoint total (T : ptree) : list A :=
  match T with
  | Zombie _ => []
  | Prog me kids => fP me ++ flat_map total kids
  | Proc me nf t k kids => fB me nf (eval me nf t k) ++ flat_map total kids
  end.
Definition totals (F : list ptree) : list A := flat_map total F.

(** What a step takes from the sum is what its events say. *)
Hypothesis Hstep : forall me nf es b, Forall mute es -> fB me nf (BStep es b) ≡ₚ emit es ++ fB me nf b.
Hypothesis Hexit : forall me nf, fB me nf BExit ≡ₚ emit [].
Hypothesis Hexec : forall me nf argv t, fB me nf (BExec argv t) ≡ₚ emit [Started me argv t] ++ fP me.
Hypothesis Hfork : forall me nf ch pa, fB me nf (BFork ch pa) ≡ₚ emit [] ++ fB (me ++ [nf]) 0 ch ++ fB me (S nf) pa.
Hypothesis Hwait : forall me nf b, fB me nf (BWait b) ≡ₚ emit [] ++ fB me nf b.
Hypothesis Hdone : forall me, fP me ≡ₚ emit [Exited me].

Lemma act_total i T es T' os : act i T = Some (es, T', os) -> total T ≡ₚ emit es ++ total T' ++ totals os.
Proof.
  unfold totals. destruct T as [me|me kids|me nf t k kids]; cbn [act]; [done| |].
  { intros [= <- <- <-]. cbn [total]. by rewrite Hdone. }
  destruct (local me nf t k) as [[[es1 t1] k1]|] eqn:Hl.
  { intros [= <- <- <-]. cbn [total flat_map]. rewrite (local_eval _ _ _ _ _ _ _ Hl), Hstep, app_nil_r by (by eapply local_mute). by rewrite app_assoc. }
  apply shared_eval in Hl. destruct k as [| |msg k|argv k|ch pa fl|k|fd k|fd k|f m k|k|path k]; try done.
  - intros [= <- <- <-]. cbn [total]. by rewrite Hl, Hexit.
  - intros [= <- <- <-]. cbn [total flat_map]. rewrite Hl, Hexec, app_nil_r. by rewrite app_assoc.
  - intros [= <- <- <-]. cbn [total flat_map]. rewrite Hl, Hfork, flat_map_app. cbn [flat_map total]. rewrite !app_nil_r.
    rewrite <- !app_assoc. apply Permutation_app_head. rewrite (app_assoc _ (flat_map total kids)). rewrite (Permutation_app_comm (fB (me ++ [nf]) _ _)).
    by rewrite <- app_assoc.
  - destruct kids as [|K kids].
    + intros [= <- <- <-]. cbn [total flat_map]. by rewrite Hl, Hwait, !app_nil_r.
    + destruct ((K :: kids) !! i) as [[z| |]|] eqn:Hi; try done. intros [= <- <- <-].
      assert (Hd : flat_map total (K :: kids) = flat_map total (delete i (K :: kids))).
      { rewrite delete_take_drop, <- (take_drop_middle _ i _ Hi) at 1. by rewrite !flat_map_app. }
      cbn [total]. rewrite Hl, Hwait, Hd. change (flat_map total []) with (@nil A). by rewrite app_nil_r, <- app_assoc.
Qed.

Lemma tstep_total T es T' os : tstep T es T' os -> total T ≡ₚ emit es ++ total T' ++ totals os.
Proof.
  assert (Hmid : forall a K b K' es os (x : list A), total K ≡ₚ emit es ++ total K' ++ totals os ->
    x ++ flat_map total (a ++ K :: b) ≡ₚ emit es ++ (x ++ flat_map total (a ++ K' :: b)) ++ totals os).
  { intros a K b K' es1 os1 x HK. rewrite !flat_map_app. cbn [flat_map]. rewrite HK. solve_Permutation. }
  induction 1 as [i T es T' os Ha|me a K b es K' os _ IH|me nf t k a K b es K' os _ IH].
  - by eapply act_total.
  - cbn [total]. by apply Hmid.
  - cbn [total]. by apply Hmid.
Qed.
Lemma fstep_total F es F' : fstep F es F' -> totals F ≡ₚ emit es ++ totals F'.
Proof.
  destruct 1 as [a T b es T' os H]. unfold totals. rewrite !flat_map_app. cbn [flat_map]. rewrite flat_map_app.
  rewrite (tstep_total _ _ _ _ H). unfold totals. solve_Permutation.
Qed.
End fold.

End run.
