(* ===== verification/ShOrder.v ===== *)
(** The processes of the shell in any interleaving: which programs are started,
    which have exited before others start, and that the processes come to an
    end. *)

From S2P Require Import Prelude Layout Sh ShParse ShPrint Ulib ShRun.

Definition prog : Type := pname * list (list Z) * fdtable.
Definition pn (x : prog) : pname := fst (fst x).

(** The programs a behaviour starts. *)
Fixpoint plan (me : pname) (nf : nat) (b : beh) : list prog :=
  match b with
  | BExit | BLoop => []
  | BExec argv t => [(me, argv, t)]
  | BFork ch pa => plan (me ++ [nf]) 0 ch ++ plan me (S nf) pa
  | BWait b | BStep _ b => plan me nf b
  end.
(** The number of its steps, counting those of its programs as one. *)
Fixpoint todo (me : pname) (nf : nat) (b : beh) : list () :=
  match b with
  | BExit => [()]
  | BLoop => []
  | BExec _ _ => [(); ()]
  | BFork ch pa => () :: todo (me ++ [nf]) 0 ch ++ todo me (S nf) pa
  | BWait b | BStep _ b => () :: todo me nf b
  end.
(** The endless loops in it. *)
Fixpoint loops (me : pname) (nf : nat) (b : beh) : list () :=
  match b with
  | BLoop => [()]
  | BExit | BExec _ _ => []
  | BFork ch pa => loops (me ++ [nf]) 0 ch ++ loops me (S nf) pa
  | BWait b | BStep _ b => loops me nf b
  end.

Definition started (e : event) : list prog := match e with Started p argv t => [(p, argv, t)] | _ => [] end.
Definition exited (e : event) : list pname := match e with Exited p => [p] | _ => [] end.
Definition starts (es : list event) : list prog := flat_map started es.
Definition exits (es : list event) : list pname := flat_map exited es.

(** *** Foreground *)

(** With [n] children, does the process wait for all of them before it ends? *)
Fixpoint waits (n : nat) (b : beh) : bool :=
  match n with
  | O => true
  | S n' =>
      match b with
      | BExit | BLoop | BExec _ _ => false
      | BFork _ pa => waits (S n) pa
      | BWait b => waits n' b
      | BStep _ b => waits n b
      end
  end.
(** The programs that have exited when the process has. *)
Fixpoint fg (me : pname) (nf n : nat) (b : beh) : list pname :=
  match b with
  | BExit | BLoop => []
  | BExec _ _ => [me]
  | BFork ch pa => (if waits (S n) pa then fg (me ++ [nf]) 0 0 ch else []) ++ fg me (S nf) (S n) pa
  | BWait b => fg me nf (pred n) b
  | BStep _ b => fg me nf n b
  end.
(** Program [p] will have exited when [q] starts: [p] is in the foreground of an
    only child that is waited for, and [q] comes after the [wait]. *)
Fixpoint hb (p q : pname) (me : pname) (nf n : nat) (b : beh) : Prop :=
  match b with
  | BExit | BLoop | BExec _ _ => False
  | BFork ch pa =>
      hb p q (me ++ [nf]) 0 0 ch \/ hb p q me (S nf) (S n) pa \/
      (n = 0%nat /\ exists b, pa = BWait b /\ p ∈ fg (me ++ [nf]) 0 0 ch /\ q ∈ pn <$> plan me (S nf) b)
  | BWait b => hb p q me nf (pred n) b
  | BStep _ b => hb p q me nf n b
  end.

Lemma fg_plan p b : forall me nf n, p ∈ fg me nf n b -> p ∈ pn <$> plan me nf b.
Proof.
  induction b as [| |argv t|ch IHc pa IHp|b IH|es b IH]; intros me nf n; cbn [fg plan]; [done|done|done| |apply IH|apply IH].
  rewrite fmap_app, !elem_of_app. intros [H|H]; [left|right; by eapply IHp]. destruct (waits (S n) pa); [by eapply IHc|set_solver].
Qed.
Lemma hb_fg p q b : forall me nf n, hb p q me nf n b -> p ∈ pn <$> plan me nf b.
Proof.
  induction b as [| |argv t|ch IHc pa IHp|b IH|es b IH]; intros me nf n; cbn [hb plan]; [done|done|done| |apply IH|apply IH].
  rewrite fmap_app, elem_of_app. intros [H|[H|(_ & b & -> & H & _)]]; [left; by eapply IHc|right; by eapply IHp|left; by eapply fg_plan].
Qed.
Lemma hb_plan p q b : forall me nf n, hb p q me nf n b -> q ∈ pn <$> plan me nf b.
Proof.
  induction b as [| |argv t|ch IHc pa IHp|b IH|es b IH]; intros me nf n; cbn [hb plan]; [done|done|done| |apply IH|apply IH].
  rewrite fmap_app, elem_of_app. intros [H|[H|(_ & b & -> & _ & H)]]; [left; by eapply IHc|right; by eapply IHp|by right].
Qed.

(** *** Names *)

(** What a process and its descendants are called. *)
Definition below (me : pname) (nf : nat) (p : pname) : Prop := p = me \/ exists n l, (nf <= n)%nat /\ p = me ++ n :: l.

Lemma below_child me nf p : below (me ++ [nf]) 0 p -> exists l, p = me ++ nf :: l.
Proof. intros [->|(n & l & _ & ->)]; eexists; [done|]. by rewrite <- app_assoc. Qed.
Lemma plan_below b : forall me nf p, p ∈ pn <$> plan me nf b -> below me nf p.
Proof.
  induction b as [| |argv t|ch IHc pa IHp|b IH|es b IH]; intros me nf p; cbn [plan]; [set_solver|set_solver| | |apply IH|apply IH].
  - intros ->%list_elem_of_singleton. by left.
  - rewrite fmap_app, elem_of_app. intros [H|H].
    + destruct (below_child _ _ _ (IHc _ _ _ H)) as [l ->]. right. exists nf, l. split; [lia|done].
    + destruct (IHp _ _ _ H) as [->|(n & l & Hn & ->)]; [by left|]. right. exists n, l. split; [lia|done].
Qed.
Lemma plan_nodup b : forall me nf, NoDup (pn <$> plan me nf b).
Proof.
  induction b as [| |argv t|ch IHc pa IHp|b IH|es b IH]; intros me nf; cbn [plan]; [constructor|constructor|apply NoDup_singleton| |apply IH|apply IH].
  rewrite fmap_app. apply NoDup_app. split_and!; [apply IHc| |apply IHp]. intros p H1%plan_below%below_child H2%plan_below.
  destruct H1 as [l ->]. destruct H2 as [H|(n & l' & Hn & H)].
  - apply (f_equal length) in H. rewrite length_app in H. cbn in H. lia.
  - apply app_inv_head in H. injection H as -> _. lia.
Qed.

(** *** Trees *)

Section trees.
Context (open_fails : list Z -> Z -> bool) (exec_fails : list (list Z) -> bool) (chdir_fails : list Z -> bool) (fork_fails : pname -> nat -> bool).
Abbreviation eval := (eval open_fails exec_fails chdir_fails fork_fails).
Abbreviation tstep := (tstep open_fails exec_fails chdir_fails fork_fails).
Abbreviation fstep := (fstep open_fails exec_fails chdir_fails fork_fails).
Abbreviation fsteps := (fsteps open_fails exec_fails chdir_fails fork_fails).
Abbreviation total := (total open_fails exec_fails chdir_fails fork_fails).
Abbreviation totals := (totals open_fails exec_fails chdir_fails fork_fails).

(** The programs to come, the names of these and of those that run, the steps to
    come and the endless loops. *)
Definition plans : list ptree -> list prog := totals plan (fun _ => []).
Definition live : ptree -> list pname := total (fun me nf b => pn <$> plan me nf b) (fun me => [me]).
Definition lives (F : list ptree) : list pname := flat_map live F.
Definition todos : list ptree -> list () := totals todo (fun _ => [()]).
Definition looping : list ptree -> list () := totals loops (fun _ => []).

Lemma mute_starts es : Forall mute es -> starts es = [].
Proof. induction 1 as [|[] es He _ IH]; done. Qed.
Lemma mute_exits es : Forall mute es -> exits es = [].
Proof. induction 1 as [|[] es He _ IH]; done. Qed.

Lemma plans_step F es F' : fstep F es F' -> plans F ≡ₚ starts es ++ plans F'.
Proof. apply fstep_total; try done. intros me nf es' b He. by rewrite mute_starts. Qed.
Lemma live_step T es T' os : tstep T es T' os -> live T ≡ₚ exits es ++ live T' ++ lives os.
Proof. apply tstep_total; try done; [intros me nf es' b He; by rewrite mute_exits|]. intros me nf ch pa. cbn. by rewrite fmap_app. Qed.
Lemma lives_step F es F' : fstep F es F' -> lives F ≡ₚ exits es ++ lives F'.
Proof. apply fstep_total; try done; [intros me nf es' b He; by rewrite mute_exits|]. intros me nf ch pa. cbn. by rewrite fmap_app. Qed.
Lemma todos_step F es F' : fstep F es F' -> todos F ≡ₚ [()] ++ todos F'.
Proof. by apply (fstep_total _ _ _ _ todo (fun _ => [()]) (fun _ => [()])). Qed.
Lemma looping_step F es F' : fstep F es F' -> looping F ≡ₚ looping F'.
Proof. by apply (fstep_total _ _ _ _ loops (fun _ => []) (fun _ => [])). Qed.

(** The programs that have exited when the process at the root has. *)
Fixpoint fgT (T : ptree) : list pname :=
  match T with
  | Zombie _ => []
  | Prog me _ => [me]
  | Proc me nf t k kids =>
      let b := eval me nf t k in
      fg me nf (length kids) b ++ (if waits (length kids) b then flat_map fgT kids else [])
  end.

Inductive hbT (p q : pname) : ptree -> Prop :=
| H_code me nf t k kids : hb p q me nf (length kids) (eval me nf t k) -> hbT p q (Proc me nf t k kids)
| H_proc me nf t k K kids : K ∈ kids -> hbT p q K -> hbT p q (Proc me nf t k kids)
| H_prog me K kids : K ∈ kids -> hbT p q K -> hbT p q (Prog me kids)
| H_wait me nf t k b K : eval me nf t k = BWait b -> p ∈ fgT K -> q ∈ pn <$> plan me nf b -> hbT p q (Proc me nf t k [K]).

Lemma fgT_live : forall T p, p ∈ fgT T -> p ∈ live T.
Proof.
  fix IH 1. intros [me|me kids|me nf t k kids] p; cbn.
  - done.
  - intros ->%list_elem_of_singleton. apply list_elem_of_here.
  - rewrite !elem_of_app. intros [H|H]; [left; by eapply fg_plan|right]. destruct (waits _ _); [|set_solver].
    revert H. induction kids as [|K kids IHk]; cbn; [done|]. rewrite !elem_of_app. intros [H|H]; [left; by apply IH|right; by apply IHk].
Qed.
Lemma waits_step n es b : waits n (BStep es b) = waits n b.
Proof. by destruct n, b. Qed.
Lemma waits_wait n b : waits n (BWait b) = waits (pred n) b.
Proof. destruct n as [|n]; [by destruct b|done]. Qed.
Lemma no_kids (kids : list ptree) p b : (forall n, waits (S n) b = false) -> p ∈ (if waits (length kids) b then flat_map fgT kids else []) -> False.
Proof. intros Hb H. destruct kids as [|K kids]; cbn [length] in H; [destruct (waits 0 b); cbn in H; set_solver|]. rewrite Hb in H. set_solver. Qed.

(** Removing a child that has exited. *)
Lemma reap i z (kids : list ptree) : kids !! i = Some (Zombie z) -> length (delete i kids) = pred (length kids) /\
  flat_map fgT (delete i kids) = flat_map fgT kids /\ (forall K, K ∈ kids -> K = Zombie z \/ K ∈ delete i kids).
Proof.
  intros Hi. assert (Hlt := lookup_lt_Some _ _ _ Hi). rewrite delete_take_drop. rewrite length_app, length_take, length_drop. split; [lia|].
  assert (He := take_drop_middle kids i _ Hi). split; [rewrite <- He at 3; by rewrite !flat_map_app|].
  intros K. rewrite <- He at 1. rewrite !elem_of_app, elem_of_cons. tauto.
Qed.

Lemma fg_act i T es T' os p : act open_fails exec_fails chdir_fails fork_fails i T = Some (es, T', os) ->
  NoDup (live T) -> p ∈ fgT T -> p ∈ live T' ++ lives os -> p ∈ fgT T'.
Proof.
  destruct T as [me|me kids|me nf t k kids]; cbn [act]; [done| |].
  { intros [= <- <- <-]. cbn. intros Hnd ->%list_elem_of_singleton Hin. apply NoDup_cons in Hnd as [Hno _]. by destruct Hno. }
  destruct (local _ _ _ _ me nf t k) as [[[es1 t1] k1]|] eqn:Hl.
  { intros [= <- <- <-] _. cbn [fgT]. rewrite (local_eval _ _ _ _ _ _ _ _ _ _ _ Hl). cbn [fg]. by rewrite waits_step. }
  apply shared_eval in Hl. destruct k as [| |msg k|argv k|ch pa fl|k|fd k|fd k|f m k|k|path k]; try done.
  - intros [= <- <- <-] _. cbn [fgT]. rewrite Hl. cbn [fg]. rewrite elem_of_app. intros [?|Hn]; [set_solver|]. by apply no_kids in Hn.
  - intros [= <- <- <-] _. cbn [fgT]. rewrite Hl. cbn [fg]. rewrite elem_of_app. intros [?|Hn]; [done|]. by apply no_kids in Hn.
  - intros [= <- <- <-] _ Hp _. revert Hp. cbn [fgT]. rewrite Hl. cbn [fg]. rewrite length_app. cbn [length]. rewrite Nat.add_1_r, flat_map_app. cbn [flat_map fgT length].
    assert (Hk : p ∈ (if waits (length kids) (BFork (eval (me ++ [nf]) 0 t ch) (eval me (S nf) t pa)) then flat_map fgT kids else []) ->
      p ∈ (if waits (S (length kids)) (eval me (S nf) t pa) then flat_map fgT kids else [])).
    { destruct kids as [|K kids]; [|done]. cbn. set_solver. }
    rewrite !elem_of_app. intros [[H|H]|H]; [|by left|apply Hk in H]; right; destruct (waits (S (length kids)) _); set_solver.
  - destruct kids as [|K kids].
    + intros [= <- <- <-] _ Hp _. revert Hp. cbn [fgT]. rewrite Hl. cbn [fg length pred]. by rewrite waits_wait.
    + destruct ((K :: kids) !! i) as [[z| |]|] eqn:Hi; try done. intros [= <- <- <-] _ Hp _. revert Hp. destruct (reap _ _ _ Hi) as (H1 & H2 & _).
      cbn [fgT]. rewrite Hl, H1, H2. cbn [fg]. by rewrite waits_wait.
Qed.

Lemma NoDup_mid {A} (x l r : list A) p : NoDup (x ++ l ++ r) -> p ∈ l -> (p ∉ x) /\ (p ∉ r).
Proof.
  intros H Hp. apply NoDup_app in H as (_ & H1 & H). apply NoDup_app in H as (_ & H2 & _). split; [|by apply H2].
  intros Hx. apply (H1 p Hx). rewrite elem_of_app. by left.
Qed.
Lemma live_mid x a K b : live (Prog x (a ++ K :: b)) = ([x] ++ flat_map live a) ++ live K ++ flat_map live b.
Proof. cbn. by rewrite flat_map_app. Qed.
Lemma live_proc_mid me nf t k a K b :
  live (Proc me nf t k (a ++ K :: b)) = ((pn <$> plan me nf (eval me nf t k)) ++ flat_map live a) ++ live K ++ flat_map live b.
Proof. cbn. rewrite flat_map_app. cbn. by rewrite <- app_assoc. Qed.

(** What is in the foreground of a process stays there until it has exited. *)
Lemma fg_step T es T' os p : tstep T es T' os -> NoDup (live T) -> p ∈ fgT T -> p ∈ live T' ++ lives os -> p ∈ fgT T'.
Proof.
  induction 1 as [i T es T' os Ha|me a K b es K' os _ IH|me nf t k a K b es K' os Hs IH].
  - by eapply fg_act.
  - done.
  - rewrite !live_proc_mid. intros Hnd. cbn [fgT]. rewrite !length_app. cbn [length]. rewrite !elem_of_app.
    intros [Hp|Hp] Hin; [by left|right]. destruct (waits _ _); [|done]. rewrite flat_map_app in *. cbn [flat_map] in *. rewrite !elem_of_app in *.
    destruct Hp as [Hp|[Hp|Hp]]; [by left| |by right; right]. right. left.
    destruct (NoDup_mid _ _ _ p Hnd (fgT_live _ _ Hp)) as [Hn1 Hn2]. rewrite elem_of_app in Hn1.
    apply IH; [|done|tauto]. apply NoDup_app in Hnd as (_ & _ & Hnd). by apply NoDup_app in Hnd as (? & _).
Qed.

Definition hbF (p q : pname) (F : list ptree) : Prop := exists T, T ∈ F /\ hbT p q T.
Lemma hbF_app p q F F' : hbF p q (F ++ F') <-> hbF p q F \/ hbF p q F'.
Proof. unfold hbF. setoid_rewrite elem_of_app. naive_solver. Qed.

Lemma hbF_cons p q T F : hbF p q (T :: F) <-> hbT p q T \/ hbF p q F.
Proof. unfold hbF. setoid_rewrite elem_of_cons. naive_solver. Qed.

Lemma hb_act i T es T' os p q : act open_fails exec_fails chdir_fails fork_fails i T = Some (es, T', os) ->
  hbT p q T -> hbF p q (T' :: os).
Proof.
  intros Ha Hh. rewrite hbF_cons. destruct T as [me|me kids|me nf t k kids]; cbn [act] in Ha; [done| |].
  { injection Ha as <- <- <-. inversion Hh as [| |? K ? HK HbK|]; subst. right. by exists K. }
  destruct (local _ _ _ _ me nf t k) as [[[es1 t1] k1]|] eqn:Hl.
  { injection Ha as <- <- <-. left. apply local_eval in Hl. inversion Hh as [? ? ? ? ? Hc|? ? ? ? K ? HK HbK| |? ? ? ? b K He]; subst.
    - apply H_code. by rewrite Hl in Hc.
    - by eapply H_proc.
    - congruence. }
  apply shared_eval in Hl. destruct k as [| |msg k|argv k|ch pa fl|k|fd k|fd k|f m k|k|path k]; try done.
  - injection Ha as <- <- <-. right. inversion Hh as [? ? ? ? ? Hc|? ? ? ? K ? HK HbK| |? ? ? ? b K He]; subst; [by rewrite Hl in Hc|by exists K|congruence].
  - injection Ha as <- <- <-. left. inversion Hh as [? ? ? ? ? Hc|? ? ? ? K ? HK HbK| |? ? ? ? b K He]; subst; [by rewrite Hl in Hc|by eapply H_prog|congruence].
  - injection Ha as <- <- <-. left. inversion Hh as [? ? ? ? ? Hc|? ? ? ? K ? HK HbK| |? ? ? ? b K He]; subst; [|eapply H_proc; [|exact HbK]; set_solver|congruence].
    rewrite Hl in Hc. destruct Hc as [Hc|[Hc|(Hn & b & Hb & Hp & Hq)]].
    + eapply H_proc; [apply elem_of_app; right; by apply list_elem_of_here|]. by apply H_code.
    + apply H_code. rewrite length_app. cbn [length]. by rewrite Nat.add_1_r.
    + apply nil_length_inv in Hn as ->. eapply H_wait; [exact Hb| |done]. cbn [fgT length]. rewrite elem_of_app. by left.
  - destruct kids as [|K0 kids].
    + injection Ha as <- <- <-. left. inversion Hh as [? ? ? ? ? Hc|? ? ? ? K ? HK HbK| |]; subst; [|set_solver]. rewrite Hl in Hc. by apply H_code.
    + destruct ((K0 :: kids) !! i) as [[z| |]|] eqn:Hi; try done. injection Ha as <- <- <-. left. destruct (reap _ _ _ Hi) as (H1 & _ & H3).
      inversion Hh as [? ? ? ? ? Hc|? ? ? ? K ? HK HbK| |? ? ? ? b K He Hp Hq]; subst.
      * apply H_code. rewrite H1. by rewrite Hl in Hc.
      * destruct (H3 K HK) as [->|HK']; [inversion HbK|]. by eapply H_proc.
      * destruct i as [|i]; [|done]. injection Hi as ->. cbn in Hp. set_solver.
Qed.

Lemma lives_elem F T p : T ∈ F -> p ∈ live T -> p ∈ lives F.
Proof. intros HT Hp. apply list_elem_of_In, in_flat_map. exists T. by rewrite <- !list_elem_of_In. Qed.
Lemma plans_elem F T x : T ∈ F -> x ∈ plans [T] -> x ∈ plans F.
Proof. unfold plans. cbn. rewrite app_nil_r. intros HT Hp. apply list_elem_of_In, in_flat_map. exists T. by rewrite <- !list_elem_of_In. Qed.
Lemma hbT_live p q T : hbT p q T -> p ∈ live T.
Proof.
  induction 1 as [me nf t k kids H|me nf t k K kids HK _ IH|me K kids HK _ IH|me nf t k b K He Hp Hq]; cbn; rewrite ?elem_of_app.
  - left. by eapply hb_fg.
  - right. by eapply lives_elem.
  - apply elem_of_cons. right. by eapply lives_elem.
  - right. left. by apply fgT_live.
Qed.
Lemma hbT_plan p q T : hbT p q T -> q ∈ pn <$> plans [T].
Proof.
  unfold plans. cbn. rewrite app_nil_r.
  induction 1 as [me nf t k kids H|me nf t k K kids HK _ IH|me K kids HK _ IH|me nf t k b K He Hp Hq]; cbn; rewrite ?fmap_app, ?elem_of_app.
  - left. by eapply hb_plan.
  - right. apply list_elem_of_fmap in IH as (x & -> & Hx). apply list_elem_of_fmap. exists x. split; [done|]. apply list_elem_of_In, in_flat_map. exists K. by rewrite <- !list_elem_of_In.
  - apply list_elem_of_fmap in IH as (x & -> & Hx). apply list_elem_of_fmap. exists x. split; [done|]. apply list_elem_of_In, in_flat_map. exists K. by rewrite <- !list_elem_of_In.
  - left. by rewrite He.
Qed.

Lemma NoDup_middle {A} (x l r : list A) : NoDup (x ++ l ++ r) -> NoDup l.
Proof. intros H. apply NoDup_app in H as (_ & _ & H). by apply NoDup_app in H as (? & _). Qed.

(** While [p] has not exited, it will have when [q] starts. *)
Lemma hb_step T es T' os p q : tstep T es T' os -> NoDup (live T) -> hbT p q T -> p ∈ live T' ++ lives os -> hbF p q (T' :: os).
Proof.
  intros Hs. induction Hs as [i T es T' os Ha|me a K b es K' os Hs IH|me nf t k a K b es K' os Hs IH]; intros Hnd Hh Hin.
  - by eapply hb_act.
  - rewrite hbF_cons. rewrite live_mid in Hnd, Hin. inversion Hh as [| |? K0 ? HK HbK|]; subst.
    apply elem_of_app in HK as [HK|[->|HK]%elem_of_cons]; [left; eapply H_prog; [|exact HbK]; set_solver| |left; eapply H_prog; [|exact HbK]; set_solver].
    destruct (NoDup_mid _ _ _ p Hnd (hbT_live _ _ _ HbK)) as [Hn1 Hn2].
    destruct (IH (NoDup_middle _ _ _ Hnd) HbK) as (T & [->|HT]%elem_of_cons & HbT); [rewrite !elem_of_app in *; tauto| |right; by exists T].
    left. eapply H_prog; [|exact HbT]. set_solver.
  - rewrite hbF_cons. rewrite live_proc_mid in Hnd, Hin.
    inversion Hh as [? ? ? ? ? Hc|? ? ? ? K0 ? HK HbK| |? ? ? ? b0 K0 He Hp Hq]; subst.
    + left. apply H_code. rewrite !length_app in *. done.
    + apply elem_of_app in HK as [HK|[->|HK]%elem_of_cons]; [left; eapply H_proc; [|exact HbK]; set_solver| |left; eapply H_proc; [|exact HbK]; set_solver].
      destruct (NoDup_mid _ _ _ p Hnd (hbT_live _ _ _ HbK)) as [Hn1 Hn2].
      destruct (IH (NoDup_middle _ _ _ Hnd) HbK) as (T & [->|HT]%elem_of_cons & HbT); [rewrite !elem_of_app in *; tauto| |right; by exists T].
      left. eapply H_proc; [|exact HbT]. set_solver.
    + assert (a = [] /\ b = [] /\ K0 = K) as (-> & -> & ->) by (destruct a as [|x [|y a]]; cbn in *; naive_solver).
      left. eapply H_wait; [exact He| |done]. destruct (NoDup_mid _ _ _ p Hnd (fgT_live _ _ Hp)) as [Hn1 Hn2].
      eapply fg_step; [exact Hs|exact (NoDup_middle _ _ _ Hnd)|done|]. rewrite !elem_of_app in *. tauto.
Qed.

Lemma hb_fstep F es F' p q : fstep F es F' -> NoDup (lives F) -> hbF p q F -> p ∈ lives F' -> hbF p q F'.
Proof.
  destruct 1 as [a T b es T' os Hs]. unfold lives. rewrite !flat_map_app. cbn [flat_map]. rewrite flat_map_app. intros Hnd (T0 & HT & Hh) Hin.
  rewrite hbF_app, hbF_cons, hbF_app.
  apply elem_of_app in HT as [HT|[->|HT]%elem_of_cons]; [left; by exists T0| |right; right; left; by exists T0].
  destruct (NoDup_mid _ _ _ p Hnd (hbT_live _ _ _ Hh)) as [Hn1 Hn2].
  assert (H := hb_step _ _ _ _ _ _ Hs (NoDup_middle _ _ _ Hnd) Hh). rewrite hbF_cons in H.
  right. destruct H as [H|H]; [unfold lives; rewrite !elem_of_app in *; tauto|by left|by right; right].
Qed.

(** ** Executions *)

Lemma starts_app es es' : starts (es ++ es') = starts es ++ starts es'.
Proof. apply flat_map_app. Qed.
Lemma exits_app es es' : exits (es ++ es') = exits es ++ exits es'.
Proof. apply flat_map_app. Qed.

Lemma fsteps_plans n F es F' : fsteps n F es F' -> plans F ≡ₚ starts es ++ plans F'.
Proof. induction 1 as [F|n F es F' es' F'' _ IH Hs]; [done|]. rewrite IH, (plans_step _ _ _ Hs), starts_app. by rewrite app_assoc. Qed.
Lemma fsteps_lives n F es F' : fsteps n F es F' -> lives F ≡ₚ exits es ++ lives F'.
Proof. induction 1 as [F|n F es F' es' F'' _ IH Hs]; [done|]. rewrite IH, (lives_step _ _ _ Hs), exits_app. by rewrite app_assoc. Qed.
Lemma fsteps_looping n F es F' : fsteps n F es F' -> looping F ≡ₚ looping F'.
Proof. induction 1 as [F|n F es F' es' F'' _ IH Hs]; [done|]. by rewrite IH, (looping_step _ _ _ Hs). Qed.
(** Every execution ends: each step is one of those to come. *)
Lemma fsteps_todos n F es F' : fsteps n F es F' -> length (todos F) = (n + length (todos F'))%nat.
Proof.
  induction 1 as [F|n F es F' es' F'' _ IH Hs]; [done|]. rewrite IH. assert (H := Permutation_length (todos_step _ _ _ Hs)).
  rewrite length_app in H. cbn in H. lia.
Qed.

Lemma fsteps_hb n F es F' p q : fsteps n F es F' -> NoDup (lives F) -> hbF p q F -> p ∈ lives F' -> hbF p q F'.
Proof.
  induction 1 as [F|n F es F' es' F'' H IH Hs]; intros Hnd Hh Hp; [done|]. assert (HF := fsteps_lives _ _ _ _ H).
  assert (Hnd' : NoDup (lives F')) by (rewrite HF in Hnd; by apply NoDup_app in Hnd as (_ & _ & ?)).
  eapply hb_fstep; [exact Hs|done| |done]. apply IH; [done|done|]. rewrite (lives_step _ _ _ Hs), elem_of_app. by right.
Qed.

(** A program starts in a step of its own. *)
Lemma tstep_event T es T' os x : tstep T es T' os -> x ∈ es -> es = [x] \/ Forall mute es.
Proof.
  induction 1 as [i T es T' os Ha| |]; [|done|done]. intros Hx. destruct T as [me|me kids|me nf t k kids]; cbn [act] in Ha; [done| |].
  { injection Ha as <- <- <-. left. by apply list_elem_of_singleton in Hx as ->. }
  destruct (local _ _ _ _ me nf t k) as [[[es1 t1] k1]|] eqn:Hl; [injection Ha as <- <- <-; right; by eapply local_mute|].
  destruct k as [| |msg k|argv k|ch pa fl|k|fd k|fd k|f m k|k|path k]; try discriminate Ha.
  - injection Ha as <- <- <-. by apply elem_of_nil in Hx.
  - injection Ha as <- <- <-. left. by apply list_elem_of_singleton in Hx as ->.
  - injection Ha as <- <- <-. by apply elem_of_nil in Hx.
  - destruct kids as [|K kids]; [injection Ha as <- <- <-; by apply elem_of_nil in Hx|].
    destruct ((K :: kids) !! i) as [[z| |]|]; try discriminate Ha. injection Ha as <- <- <-. by apply elem_of_nil in Hx.
Qed.
Lemma fstep_event F es F' x : fstep F es F' -> x ∈ es -> ~ mute x -> es = [x].
Proof.
  intros [a T b es' T' os Hs] Hx Hm. destruct (tstep_event _ _ _ _ _ Hs Hx) as [|Hf]; [done|]. rewrite Forall_forall in Hf. by apply Hf in Hx.
Qed.
(** The trace up to such an event is that of an execution. *)
Lemma fsteps_split n F es F' es1 x es2 : fsteps n F es F' -> es = es1 ++ x :: es2 -> ~ mute x ->
  exists m F1 F2, fsteps m F es1 F1 /\ fstep F1 [x] F2.
Proof.
  intros H. revert es1 es2. induction H as [F|n F es F' es' F'' H IH Hs]; intros es1 es2 He Hx; [by destruct es1|].
  apply app_eq_inv in He as [(l & -> & He)|(l & -> & He)].
  - destruct l as [|y l]; [|injection He as <- _; by eapply IH]. cbn in He. subst es'. rewrite app_nil_r in H.
    assert (He := fstep_event _ _ _ x Hs ltac:(set_solver) Hx). rewrite He in Hs. by exists n, F', F''.
  - assert (He' := fstep_event _ _ _ x Hs ltac:(rewrite He; set_solver) Hx). rewrite He' in He, Hs. destruct l as [|y l]; [|by destruct l].
    rewrite app_nil_r. by exists n, F', F''.
Qed.

(** If [p] is before [q], it has exited when [q] starts. *)
Lemma fsteps_order n F es F' p q es1 argv t es2 : fsteps n F es F' -> NoDup (lives F) -> NoDup (pn <$> plans F) -> hbF p q F ->
  es = es1 ++ Started q argv t :: es2 -> Exited p ∈ es1.
Proof.
  intros H Hnd Hnp Hh He. destruct (fsteps_split _ _ _ _ _ _ _ H He) as (m & F1 & F2 & H1 & H2); [by intros []|].
  assert (Hlive : p ∈ lives F) by (destruct Hh as (T & HT & HbT); eapply lives_elem; [exact HT|by eapply hbT_live]).
  assert (H3 := F_snoc _ _ _ _ _ _ _ _ _ _ H1 H2). assert (HL := fsteps_lives _ _ _ _ H3). rewrite exits_app in HL. cbn in HL. rewrite app_nil_r in HL.
  rewrite HL, elem_of_app in Hlive. destruct Hlive as [Hp|Hp].
  - apply list_elem_of_In, in_flat_map in Hp as (e & Hin & Hp). destruct e; try done. destruct Hp as [->|[]]. by apply list_elem_of_In.
  - exfalso. destruct (fsteps_hb _ _ _ _ p q H3 Hnd Hh Hp) as (T & HT & HbT). apply hbT_plan, list_elem_of_fmap in HbT as (x & Hx & HbT).
    apply (plans_elem F2 T x HT) in HbT. rewrite (fsteps_plans _ _ _ _ H3), starts_app in Hnp. cbn in Hnp. rewrite <- app_assoc, !fmap_app in Hnp.
    apply NoDup_app in Hnp as (_ & _ & Hnp). cbn in Hnp. apply NoDup_cons in Hnp as [Hno _]. apply Hno. apply list_elem_of_fmap. by exists x.
Qed.

(** *** Nothing gets stuck *)

Lemma tree_moves n : forall T, (length (total todo (fun _ => [()]) T) <= n)%nat -> total loops (fun _ => []) T = [] ->
  (forall me, T <> Zombie me) -> exists es T' os, tstep T es T' os.
Proof.
  induction n as [|n IH]; intros T Hn Hl Hz.
  - destruct T as [me|me kids|me nf t k kids]; cbn in *; [by destruct (Hz me)|lia|].
    destruct (eval me nf t k); cbn in *; try lia. done.
  - destruct T as [me|me kids|me nf t k kids]; [by destruct (Hz me)|by eexists _, _, _; apply (T_here _ _ _ _ 0)|].
    destruct (local open_fails exec_fails chdir_fails fork_fails me nf t k) as [[[es1 t1] k1]|] eqn:Hloc.
    { eexists _, _, _. apply (T_here _ _ _ _ 0). cbn [act]. by rewrite Hloc. }
    assert (He := shared_eval _ _ _ _ _ _ _ _ Hloc). destruct k as [| |msg k|argv k|ch pa fl|k|fd k|fd k|f m k|k|path k]; try done.
    + eexists _, _, _. apply (T_here _ _ _ _ 0). cbn [act]. by rewrite Hloc.
    + eexists _, _, _. apply (T_here _ _ _ _ 0). cbn [act]. by rewrite Hloc.
    + eexists _, _, _. apply (T_here _ _ _ _ 0). cbn [act]. by rewrite Hloc.
    + destruct kids as [|K kids]; [eexists _, _, _; apply (T_here _ _ _ _ 0); done|].
      assert (HK : (exists z, K = Zombie z) \/ forall z, K <> Zombie z) by (destruct K; [left; by eexists|by right..]).
      cbn in Hn, Hl. rewrite length_app in Hn. apply app_eq_nil in Hl as [_ [Hl _]%app_eq_nil].
      destruct HK as [[z ->]|HK]; [by eexists _, _, _; apply (T_here _ _ _ _ 0)|].
      destruct (IH K) as (es & K' & os & Hs); [rewrite length_app in Hn; cbn in Hn; lia|done|done|].
      eexists _, _, _. by apply (T_proc _ _ _ _ _ _ _ _ []).
Qed.

(** A state in which no process can move is one in which all have exited. *)
Lemma stuck_zombies F : looping F = [] -> (forall es F', ~ fstep F es F') -> Forall (fun T => exists me, T = Zombie me) F.
Proof.
  intros Hl Hno. apply Forall_forall. intros T HT. apply list_elem_of_split in HT as (a & b & ->).
  unfold looping, ShRun.totals in Hl. rewrite flat_map_app in Hl. apply app_eq_nil in Hl as [_ [Hl _]%app_eq_nil].
  assert (HT : (exists z, T = Zombie z) \/ forall z, T <> Zombie z) by (destruct T; [left; by eexists|by right..]).
  destruct HT as [HT|HT]; [done|]. destruct (tree_moves _ T (le_n _) Hl HT) as (es & T' & os & Hs).
  by destruct (Hno es (a ++ T' :: b ++ os)); apply F_step.
Qed.
Lemma zombies_stuck F : Forall (fun T => exists me, T = Zombie me) F -> forall es F', ~ fstep F es F'.
Proof.
  intros HF es F' H. destruct H as [a T b es T' os Hs]. apply Forall_app in HF as [_ [[me ->] _]%Forall_cons]. by inversion Hs.
Qed.
Lemma zombies_plans F : Forall (fun T => exists me, T = Zombie me) F -> plans F = [].
Proof. induction 1 as [|T F [me ->] _ IH]; done. Qed.
End trees.
