(* ===== verification/ShPlumb.v ===== *)
(** What a command of the shell means: its programs with their descriptors, which
    of them it waits for and which come before others; and that [runcmd] does
    this. *)

From S2P Require Import Prelude Layout Sh ShParse ShPrint Ulib ShRun ShOrder.

(** ** What is meant *)

(** Standard input, output and error. *)
Record std := Std { sin : desc; sout : desc; serr : desc }.
Definition table (d : std) : fdtable := [Some (sin d); Some (sout d); Some (serr d)] ++ replicate (NOFILE - 3) None.
Definition redirected (fd : Z) (f : desc) (d : std) : std := if fd =? 0 then Std f (sout d) (serr d) else Std (sin d) f (serr d).

Section meant.
Context (open_fails : list Z -> Z -> bool) (exec_fails : list (list Z) -> bool).

(** The programs of a command with their standard descriptors.  [me] runs the
    command and has [nf] children already; a redirection that cannot be opened
    and a program that does not exist are left out. *)
Fixpoint plumb (c : scmd) (d : std) (me : pname) (nf : nat) : list (pname * list (list Z) * std) :=
  match c with
  | SExec [] => []
  | SExec argv => if exec_fails argv then [] else [(me, argv, d)]
  | SRedir c file mode fd => if open_fails file mode then [] else plumb c (redirected fd (File file mode) d) me nf
  | SList l r => plumb l d (me ++ [nf]) 0 ++ plumb r d me (S nf)
  | SPipe l r =>
      plumb l (Std (sin d) (WriteEnd me) (serr d)) (me ++ [nf]) 0 ++
      plumb r (Std (ReadEnd me) (sout d) (serr d)) (me ++ [S nf]) 0
  | SBack c => plumb c d (me ++ [nf]) 0
  end.
(** Their names. *)
Fixpoint named (c : scmd) (me : pname) (nf : nat) : list pname :=
  match c with
  | SExec [] => []
  | SExec argv => if exec_fails argv then [] else [me]
  | SRedir c file mode fd => if open_fails file mode then [] else named c me nf
  | SList l r => named l (me ++ [nf]) 0 ++ named r me (S nf)
  | SPipe l r => named l (me ++ [nf]) 0 ++ named r (me ++ [S nf]) 0
  | SBack c => named c (me ++ [nf]) 0
  end.
(** Those in the foreground. *)
Fixpoint fore (c : scmd) (me : pname) (nf : nat) : list pname :=
  match c with
  | SExec [] => []
  | SExec argv => if exec_fails argv then [] else [me]
  | SRedir c file mode fd => if open_fails file mode then [] else fore c me nf
  | SList l r => fore l (me ++ [nf]) 0 ++ fore r me (S nf)
  | SPipe l r => fore l (me ++ [nf]) 0 ++ fore r (me ++ [S nf]) 0
  | SBack c => []
  end.
(** In a list the foreground of the first part comes before the second part; the
    two sides of a pipeline run together, and what is in the background with
    everything. *)
Fixpoint before (p q : pname) (c : scmd) (me : pname) (nf : nat) : Prop :=
  match c with
  | SExec _ => False
  | SRedir c file mode fd => open_fails file mode = false /\ before p q c me nf
  | SList l r =>
      (p ∈ fore l (me ++ [nf]) 0 /\ q ∈ named r me (S nf)) \/ before p q l (me ++ [nf]) 0 \/ before p q r me (S nf)
  | SPipe l r => before p q l (me ++ [nf]) 0 \/ before p q r (me ++ [S nf]) 0
  | SBack c => before p q c (me ++ [nf]) 0
  end.

Definition tabled (x : pname * list (list Z) * std) : prog := (fst x, table (snd x)).
Lemma plumb_named c : forall d me nf, (fun x => fst (fst x)) <$> plumb c d me nf = named c me nf.
Proof.
  induction c as [argv|c IH f md fd|l IHl r IHr|l IHl r IHr|c IH]; intros d me nf; cbn [plumb named].
  - destruct argv; [done|]. by destruct (exec_fails _).
  - destruct (open_fails f md); [done|apply IH].
  - by rewrite fmap_app, IHl, IHr.
  - by rewrite fmap_app, IHl, IHr.
  - apply IH.
Qed.

(** ** What is done *)

Context (chdir_fails : list Z -> bool).
Abbreviation ev := (eval open_fails exec_fails chdir_fails (fun _ _ => false)).

(** The calls of a redirection leave the three descriptors, with the file for
    one of them. *)
Lemma eval_redir c f md fd d me nf : md = O_RDONLY /\ fd = 0 \/ md = Z.lor O_WRONLY O_CREATE /\ fd = 1 ->
  ev me nf (table d) (runcmd (SRedir c f md fd)) =
  BStep [] (BStep [] (if open_fails f md then BStep [Said me "open failed"] BExit else ev me nf (table (redirected fd (File f md) d)) (runcmd c))).
Proof. intros [[-> ->]|[-> ->]]; cbn [runcmd eval]; unfold sopen; by destruct (open_fails f _). Qed.

(** Those of a pipeline give each side its end of the pipe and no other. *)
Lemma eval_pipe l r d me nf :
  ev me nf (table d) (runcmd (SPipe l r)) =
  BStep [] (BFork
    (BStep [] (BStep [] (BStep [] (BStep [] (ev (me ++ [nf]) 0 (table (Std (sin d) (WriteEnd me) (serr d))) (runcmd l))))))
    (BFork
      (BStep [] (BStep [] (BStep [] (BStep [] (ev (me ++ [S nf]) 0 (table (Std (ReadEnd me) (sout d) (serr d))) (runcmd r))))))
      (BStep [] (BStep [] (BWait (BWait BExit)))))).
Proof. reflexivity. Qed.

(** [runcmd] starts the programs of the command. *)
Lemma plan_runcmd c : forall d me nf, typable c -> plan me nf (ev me nf (table d) (runcmd c)) = tabled <$> plumb c d me nf.
Proof.
  induction c as [argv|c IH f md fd|l IHl r IHr|l IHl r IHr|c IH]; intros d me nf Ht.
  - cbn. destruct argv as [|a argv]; [done|]. cbn. by destruct (exec_fails _).
  - destruct Ht as (Ht & _ & Hm). rewrite eval_redir by done. cbn [plan plumb]. destruct (open_fails f md); [done|by apply IH].
  - destruct Ht as [Hl Hr]. rewrite eval_pipe. cbn [plan plumb]. by rewrite IHl, IHr, fmap_app, app_nil_r.
  - destruct Ht as [Hl Hr]. cbn [runcmd fork1 eval plan plumb]. by rewrite IHl, IHr, fmap_app.
  - cbn [runcmd fork1 eval plan plumb]. by rewrite IH, app_nil_r.
Qed.
Lemma fg_runcmd c : forall d me nf, typable c -> fg me nf 0 (ev me nf (table d) (runcmd c)) = fore c me nf.
Proof.
  induction c as [argv|c IH f md fd|l IHl r IHr|l IHl r IHr|c IH]; intros d me nf Ht.
  - cbn. destruct argv as [|a argv]; [done|]. cbn. by destruct (exec_fails _).
  - destruct Ht as (Ht & _ & Hm). rewrite eval_redir by done. cbn [fg fore]. destruct (open_fails f md); [done|by apply IH].
  - destruct Ht as [Hl Hr]. rewrite eval_pipe. cbn [fg fore waits]. by rewrite IHl, IHr, app_nil_r.
  - destruct Ht as [Hl Hr]. cbn [runcmd fork1 eval fg fore waits pred]. rewrite IHl, IHr by done. by destruct (ev me (S nf) _ _).
  - done.
Qed.
Lemma hb_runcmd p q c : forall d me nf, typable c -> before p q c me nf -> hb p q me nf 0 (ev me nf (table d) (runcmd c)).
Proof.
  induction c as [argv|c IH f md fd|l IHl r IHr|l IHl r IHr|c IH]; intros d me nf Ht; cbn [before].
  - done.
  - destruct Ht as (Ht & _ & Hm). rewrite eval_redir by done. cbn [hb]. intros [-> H]. by apply IH.
  - destruct Ht as [Hl Hr]. rewrite eval_pipe. cbn [hb]. intros [H|H]; [left; by apply IHl|right; left; left; by apply IHr].
  - destruct Ht as [Hl Hr]. cbn [runcmd fork1 eval hb pred]. intros [[Hp Hq]|[H|H]]; [right; right|left; by apply IHl|right; left; by apply IHr].
    split; [done|]. eexists. split; [done|]. rewrite fg_runcmd, plan_runcmd by done. split; [done|].
    rewrite <- (plumb_named r d), list_elem_of_fmap in Hq. destruct Hq as (x & -> & Hx). rewrite <- list_fmap_compose. apply list_elem_of_fmap. by exists x.
  - cbn [runcmd fork1 eval hb]. intros H. left. by apply IH.
Qed.
End meant.

(** The code of a command has no endless loop. *)
Lemma loops_runcmd open_fails exec_fails chdir_fails fork_fails c : forall me nf t,
  loops me nf (eval open_fails exec_fails chdir_fails fork_fails me nf t (runcmd c)) = [].
Proof.
  induction c as [argv|c IH f md fd|l IHl r IHr|l IHl r IHr|c IH]; intros me nf t.
  - cbn. destruct argv as [|a argv]; [done|]. cbn. by destruct (exec_fails _).
  - cbn [runcmd eval]. destruct (sopen _ f md _) as [[fd'|] t']; [apply IH|done].
  - cbn [runcmd fork1 eval]. destruct (spipe me t) as [[[p0 p1] t']|]; [|done]. cbn [fork1 eval].
    destruct (fork_fails me nf); [done|]. destruct (fork_fails me (S nf)); cbn [loops]; by rewrite ?IHl, ?IHr.
  - cbn [runcmd fork1 eval]. destruct (fork_fails me nf); [done|]. cbn [loops]. by rewrite IHl, IHr.
  - cbn [runcmd fork1 eval]. destruct (fork_fails me nf); [done|]. cbn [loops]. by rewrite IH.
Qed.
