(* ===== verification/ShMain.v ===== *)
(** The main loop of the shell ([main] of [sh.c]): it opens its descriptors,
    reads lines, changes the directory itself and leaves every other line to a
    child, for which it waits. *)

From S2P Require Import Prelude Layout Ulib Sh ShParse ShPrint ShRun ShOrder ShPlumb.

Definition sizeof_cmdbuf : Z := 100.
Definition console_name : list Z := [99; 111; 110; 115; 111; 108; 101].
Definition O_RDWR : Z := 2.

(** [while((fd = open("console", O_RDWR)) >= 0)]: until the descriptor is not one
    of the first three; then [k]. *)
Fixpoint open_console (fuel : nat) (k : code) : code :=
  match fuel with
  | O => Loop
  | S fuel =>
      Open console_name O_RDWR (fun o =>
        match o with
        | None => k
        | Some fd => if (3 <=? fd)%nat then Close fd k else open_console fuel k
        end)
  end.

Definition is_cd (buf : list Z) : bool :=
  match buf with
  | a :: b :: c :: _ => (a =? 99) && (b =? 100) && (c =? 32)
  | _ => false
  end.

(** The child: a line that does not parse is reported, and the child exits. *)
Definition child (buf : list Z) : code :=
  match parsecmd buf with
  | Ok (c, _) => runcmd (erase c)
  | Panic msg => Say msg Exit
  | _ => Loop
  end.

(** One line; then [k]. *)
Definition line (buf : list Z) (k : code) : code :=
  if is_cd buf then
    Chdir (drop 3 (removelast buf)) (fun ok => if ok then k else Say "cannot cd" k)
  else fork1 (child buf) (Wait k).

(** [input] is what is typed: the programs are taken not to read it. *)
Fixpoint sh_loop (fuel : nat) (input : list Z) : code :=
  match fuel with
  | O => Loop
  | S fuel =>
      Say "$ "
        match getcmd sizeof_cmdbuf input with
        | None => Exit
        | Some (buf, input) => line buf (sh_loop fuel input)
        end
  end.
Definition sh_main (fuel : nat) (input : list Z) : code := open_console fuel (sh_loop fuel input).

(** ** The loops end *)

Lemma lowest_free (t : list (option desc)) fd : lowest t = Some fd -> t !! fd = Some None.
Proof.
  revert fd. induction t as [|[d|] t IH]; intros fd; cbn; [done| |by intros [= <-]].
  destruct (lowest t) as [k|]; [|done]. intros [= <-]. cbn. by apply IH.
Qed.
Lemma lowest_first (t : list (option desc)) fd : lowest t = Some fd -> forall k, (k < fd)%nat -> exists d, t !! k = Some (Some d).
Proof.
  revert fd. induction t as [|[d|] t IH]; intros fd; cbn; [done| |intros [= <-] k; lia].
  destruct (lowest t) as [j|]; [|done]. intros [= <-] [|k] Hk; [by exists d|]. cbn. apply (IH j); [done|lia].
Qed.

(** The number of open descriptors among the first [n]. *)
Definition open_below (n : nat) (t : list (option desc)) : nat := length (List.filter (fun k => match t !! k with Some (Some _) => true | _ => false end) (seq 0 n)).

Lemma open_more n (t : list (option desc)) fd d : (fd < n)%nat -> t !! fd = Some None -> open_below n (<[fd := Some d]> t) = S (open_below n t).
Proof.
  intros Hlt Hfd. unfold open_below. replace (seq 0 n) with (seq 0 fd ++ fd :: seq (S fd) (n - S fd)).
  2: { change (fd :: seq (S fd) (n - S fd)) with (seq fd (S (n - S fd))). rewrite <- (seq_app fd). f_equal. lia. }
  rewrite !List.filter_app. cbn [List.filter]. rewrite Hfd, list_lookup_insert_eq by (by eapply lookup_lt_Some).
  rewrite !length_app. cbn [length]. rewrite Nat.add_succ_r. do 2 f_equal; f_equal; apply List.filter_ext_in; intros k Hk%List.in_seq.
  - by rewrite list_lookup_insert_ne by lia.
  - by rewrite list_lookup_insert_ne by lia.
Qed.

Lemma open_below_le n (t : list (option desc)) : (open_below n t <= n)%nat.
Proof.
  unfold open_below. set (f := fun k => _). transitivity (length (seq 0 n)); [|by rewrite length_seq]. generalize (seq 0 n). intros l.
  induction l as [|a l IH]; cbn; [lia|]. destruct (f a); cbn; lia.
Qed.

Section main.
Context (open_fails : list Z -> Z -> bool) (exec_fails : list (list Z) -> bool) (chdir_fails : list Z -> bool) (fork_fails : pname -> nat -> bool).
Abbreviation ev := (eval open_fails exec_fails chdir_fails fork_fails).

Lemma open_console_ends fuel k me nf : (forall t, loops me nf (ev me nf t k) = []) ->
  forall t, (3 - open_below 3 t < fuel)%nat -> loops me nf (ev me nf t (open_console fuel k)) = [].
Proof.
  intros Hk. induction fuel as [|fuel IH]; intros t Hf; [lia|]. cbn [open_console eval]. unfold sopen.
  destruct (open_fails console_name O_RDWR); [apply Hk|]. unfold sinstall. destruct (lowest t) as [fd|] eqn:Hl; cbn [fmap option_fmap option_map]; [|apply Hk].
  destruct (Nat.leb_spec 3 fd) as [Hge|Hlt]; [apply Hk|]. cbn [loops]. apply IH.
  assert (Hm := open_more 3 t fd (File console_name O_RDWR) Hlt (lowest_free t fd Hl)).
  assert (Hb := open_below_le 3 (<[fd := Some (File console_name O_RDWR)]> t)). unfold fdtable. lia.
Qed.

Lemma gets_rest n : forall input l rest, gets_loop n input = (l, rest) -> (l = [] -> rest = input) /\ (length l + length rest = length input)%nat.
Proof.
  induction n as [|n IH]; intros [|c input] l rest; cbn; try (by intros [= <- <-]).
  destruct ((c =? 10) || (c =? 13)); [by intros [= <- <-]|]. destruct (gets_loop n input) as [l' r'] eqn:E. intros [= <- <-].
  destruct (IH _ _ _ E) as [_ Hlen]. split; [done|]. cbn. lia.
Qed.

Lemma loops_child buf me nf t : loops me nf (ev me nf t (child buf)) = [].
Proof.
  unfold child. assert (H := parsecmd_cases buf). destruct (parsecmd buf) as [[c b]|msg| |]; [apply loops_runcmd|done|done|done].
Qed.
Lemma loops_sh_loop fuel : forall input nf me t, (length input < fuel)%nat -> loops me nf (ev me nf t (sh_loop fuel input)) = [].
Proof.
  induction fuel as [|fuel IH]; intros inp nf me t Hf; [lia|]. cbn [sh_loop eval loops]. unfold getcmd, gets_.
  destruct (gets_loop (Z.to_nat (sizeof_cmdbuf - 1)) inp) as [l r] eqn:E. destruct (gets_rest _ _ _ _ E) as [_ Hlen].
  destruct l as [|c l]; [done|]. destruct (c =? 0); [done|]. cbn in Hlen. unfold line. destruct (is_cd _).
  - cbn [eval loops]. destruct (chdir_fails _); cbn [negb eval loops]; apply IH; lia.
  - cbn [fork1 eval]. destruct (fork_fails me nf); [done|]. cbn [loops]. rewrite loops_child, IH by lia. done.
Qed.

(** The loops of the shell end on every input and whatever fails: lines that do
    not parse, commands, directories, [fork]. *)
Lemma sh_main_ends input t me nf : loops me nf (ev me nf t (sh_main (4 + length input) input)) = [].
Proof. unfold sh_main. apply open_console_ends; [|lia]. intros t'. apply loops_sh_loop. lia. Qed.
End main.
