(* ===== verification/ShTyped.v ===== *)
(** The shell from the keyboard to the programs: the commands that are typed are
    the programs that are started, in the order the commands ask for. *)

From S2P Require Import Prelude Layout Ulib Sh ShParse ShPrint ShRun ShOrder ShPlumb ShMain.

(** ** Newlines are blanks to the parser *)

(** The parser does not tell a newline from a blank: with blanks for newlines it
    reads the same tokens at the same places. *)
Definition unl (x : Z) : Z := if x =? 10 then 32 else x.
Definition unls (s : list Z) : list Z := unl <$> s.
Definition wmap (w : word) : word := (unls (fst w), unls (snd w)).
Definition rmap (r : redir) : redir := Redir (wmap (rfile r)) (rmode r) (rfd r).
Fixpoint cmap (c : cmd) : cmd :=
  match c with
  | Execcmd argv => Execcmd (wmap <$> argv)
  | Redircmd c f md fd => Redircmd (cmap c) (wmap f) md fd
  | Pipecmd l r => Pipecmd (cmap l) (cmap r)
  | Listcmd l r => Listcmd (cmap l) (cmap r)
  | Backcmd c => Backcmd (cmap c)
  end.

Definition outmap {A B} (f : A -> B) (o : outcome A) : outcome B :=
  match o with Ok a => Ok (f a) | Panic m => Panic m | Fault m => Fault m | Spin => Spin end.
(** [m'] on the line with blanks does what [m] does on the line. *)
Definition same {A B} (g : A -> B) (m : P A) (m' : P B) : Prop :=
  forall s, m' (unls s) = outmap (fun r => (g (fst r), unls (snd r))) (m s).

Lemma same_bind {A A' B B'} (g : A -> A') (h : B -> B') m m' k k' :
  same g m m' -> (forall a, same h (k a) (k' (g a))) -> same h (bind m k) (bind m' k').
Proof. intros Hm Hk s. unfold bind. rewrite Hm. destruct (m s) as [[a s']| | |]; [|done..]. cbn. apply Hk. Qed.
Lemma same_ret {A B} (g : A -> B) a : same g (ret a) (ret (g a)).
Proof. done. Qed.
Lemma same_gets : same unls (gets id) (gets id).
Proof. done. Qed.
Lemma same_panic {A B} (g : A -> B) msg : same g (panic msg) (panic msg).
Proof. done. Qed.
Lemma same_if {A B} (g : A -> B) (b : bool) m1 m2 m1' m2' : same g m1 m1' -> same g m2 m2' -> same g (if b then m1 else m2) (if b then m1' else m2').
Proof. by destruct b. Qed.

Lemma unls_length s : length (unls s) = length s.
Proof. apply length_fmap. Qed.
(** Sets of characters that do not tell the two apart. *)
Lemma isin_unl l c : (10 ∈ l <-> 32 ∈ l) -> isin l (unl c) = isin l c.
Proof. intros Hl. unfold isin, unl. destruct (Z.eqb_spec c 10) as [->|]; [|done]. apply bool_decide_ext. tauto. Qed.
Lemma ws_unl c : isin whitespace (unl c) = isin whitespace c.
Proof. apply isin_unl. unfold whitespace. split; intros _; set_solver. Qed.
Lemma sym_unl c : isin symbols (unl c) = isin symbols c.
Proof. apply isin_unl. unfold symbols. split; intros H; set_solver. Qed.

Lemma skipws_unl s : skipws (unls s) = unls (skipws s).
Proof. induction s as [|c s IH]; [done|]. cbn. rewrite ws_unl. by destruct (isin whitespace c). Qed.
Lemma skipword_unl s : skipword (unls s) = unls (skipword s).
Proof. induction s as [|c s IH]; [done|]. cbn. rewrite ws_unl, sym_unl. by destruct (negb _ && negb _). Qed.

Definition tmap (t : Z * list Z * list Z) : Z * list Z * list Z := let '(tok, q, eq) := t in (tok, unls q, unls eq).
Lemma unl_eqb c x : x <> 10 -> x <> 32 -> (unl c =? x) = (c =? x).
Proof. intros H1 H2. unfold unl. destruct (Z.eqb_spec c 10) as [->|]; [|done]. by rewrite !(proj2 (Z.eqb_neq _ x)) by congruence. Qed.

Lemma token_unl s : token (unls s) = tmap (token s).
Proof.
  unfold token. rewrite skipws_unl. destruct (skipws s) as [|c r]; [done|]. cbn [unls fmap list_fmap].
  rewrite (isin_unl [BAR; LPAR; RPAR; SEMI; AMP; LT]) by (unfold BAR, LPAR, RPAR, SEMI, AMP, LT; set_solver).
  destruct (isin [BAR; LPAR; RPAR; SEMI; AMP; LT] c) eqn:Hs.
  { cbn [tmap]. f_equal. f_equal. unfold unl. destruct (Z.eqb_spec c 10) as [->|]; [by vm_compute in Hs|done]. }
  rewrite unl_eqb by done. destruct (Z.eqb_spec c GT) as [->|Hg].
  - destruct r as [|d r]; [done|]. cbn [fmap list_fmap]. rewrite unl_eqb by done. by destruct (d =? GT).
  - cbn [tmap]. change (unl c :: (unl <$> r)) with (unls (c :: r)). by rewrite skipword_unl.
Qed.
Lemma same_gettoken : same tmap gettoken gettoken.
Proof. intros s. rewrite !gettoken_eq, token_unl. cbn. destruct (token s) as [[t q] e]. cbn. by rewrite skipws_unl. Qed.

Lemma same_peek toks : (10 ∈ toks <-> 32 ∈ toks) -> same (fun b : bool => b) (peek toks) (peek toks).
Proof.
  intros Ht s. rewrite !peek_eq, skipws_unl. cbn. destruct (skipws s) as [|c r]; [done|]. cbn. by rewrite isin_unl.
Qed.
Ltac nonl := unfold LT, GT, BAR, AMP, SEMI, LPAR, RPAR; set_solver.

Lemma same_redirs fuel : same (fmap rmap) (parseredirs_loop fuel) (parseredirs_loop fuel).
Proof.
  induction fuel as [|fuel IH]; [done|]. cbn [parseredirs_loop].
  eapply same_bind; [apply same_peek; nonl|intros b]. apply same_if; [by intros ?|].
  eapply same_bind; [apply same_gettoken|intros [[tk q0] e0]]. eapply same_bind; [apply same_gettoken|intros [[t q] e]].
  cbn [tmap]. apply same_if; [apply same_panic|]. eapply same_bind; [apply IH|intros rs].
  destruct (tk =? LT); [by intros ?|]. destruct (tk =? GT); [by intros ?|].
  destruct (tk =? PLUS); by intros ?.
Qed.


Definition amap (p : list word * list redir) : list word * list redir := (wmap <$> fst p, rmap <$> snd p).
Lemma same_args fuel : forall argc, same amap (parseargs fuel argc) (parseargs fuel argc).
Proof.
  induction fuel as [|fuel IH]; intros argc; [done|]. cbn [parseargs].
  eapply same_bind; [apply same_peek; nonl|intros b]. apply same_if; [by intros ?|].
  eapply same_bind; [apply same_gettoken|intros [[t q] e]]. cbn [tmap]. apply same_if; [by intros ?|].
  apply same_if; [apply same_panic|]. apply same_if; [apply same_panic|].
  eapply same_bind; [apply same_gets|intros s]. rewrite unls_length. eapply same_bind; [apply same_redirs|intros rs].
  eapply same_bind; [apply IH|intros [ws rs']]. cbn [amap fst snd]. rewrite <- fmap_app.
  apply (same_ret amap ((q, e) :: ws, rs ++ rs')).
Qed.

Lemma same_back fuel : forall c, same cmap (parseback fuel c) (parseback fuel (cmap c)).
Proof.
  induction fuel as [|fuel IH]; intros c; [done|]. cbn [parseback].
  eapply same_bind; [apply same_peek; nonl|intros b]. apply same_if; [apply same_ret|].
  eapply same_bind; [apply same_gettoken|intros _]. apply (IH (Backcmd c)).
Qed.

Lemma cmap_redirs rs : forall c, cmap (foldl redircmd c rs) = foldl redircmd (cmap c) (rmap <$> rs).
Proof. induction rs as [|r rs IH]; intros c; [done|]. cbn [foldl fmap list_fmap]. by rewrite IH. Qed.

Lemma same_parse fuel :
  same cmap (parseline fuel) (parseline fuel) /\ same cmap (parsepipe fuel) (parsepipe fuel) /\
  same cmap (parseexec fuel) (parseexec fuel) /\ same cmap (parseblock fuel) (parseblock fuel).
Proof.
  induction fuel as [|fuel (IHl & IHp & IHe & IHb)]; [done|]. split_and!; cbn [parseline parsepipe parseexec parseblock].
  - eapply same_bind; [apply IHp|intros c]. eapply same_bind; [apply same_gets|intros s]. rewrite unls_length.
    eapply same_bind; [apply same_back|intros c']. eapply same_bind; [apply same_peek; nonl|intros b].
    apply same_if; [apply same_ret|]. eapply same_bind; [apply same_gettoken|intros _].
    eapply same_bind; [apply IHl|intros r]. apply (same_ret cmap (Listcmd c' r)).
  - eapply same_bind; [apply IHe|intros c]. eapply same_bind; [apply same_peek; nonl|intros b].
    apply same_if; [apply same_ret|]. eapply same_bind; [apply same_gettoken|intros _].
    eapply same_bind; [apply IHp|intros r]. apply (same_ret cmap (Pipecmd c r)).
  - eapply same_bind; [apply same_peek; nonl|intros b]. apply same_if; [apply IHb|].
    eapply same_bind; [apply same_gets|intros s]. rewrite unls_length. eapply same_bind; [apply same_redirs|intros rs].
    eapply same_bind; [apply same_gets|intros s']. rewrite unls_length. eapply same_bind; [apply same_args|intros [ws rs']].
    cbn [amap fst snd]. rewrite <- fmap_app. change (Execcmd (wmap <$> ws)) with (cmap (Execcmd ws)). rewrite <- cmap_redirs. apply same_ret.
  - eapply same_bind; [apply same_peek; nonl|intros b]. apply same_if; [apply same_panic|].
    eapply same_bind; [apply same_gettoken|intros _]. eapply same_bind; [apply IHl|intros c].
    eapply same_bind; [apply same_peek; nonl|intros b']. apply same_if; [apply same_panic|].
    eapply same_bind; [apply same_gettoken|intros _]. unfold parseredirs. eapply same_bind; [apply same_gets|intros s].
    rewrite unls_length. eapply same_bind; [apply same_redirs|intros rs]. rewrite <- cmap_redirs. apply same_ret.
Qed.

(** ** The words are the same *)

Lemma unls_word l : forallb wordchar l = true -> unls l = l.
Proof.
  induction l as [|c l IH]; [done|]. cbn. intros [Hc Hl]%andb_true_iff. f_equal; [|by apply IH].
  unfold unl. destruct (Z.eqb_spec c 10) as [->|]; [by vm_compute in Hc|done].
Qed.
Lemma text_wmap w : word_ok w -> text (wmap w) = text w.
Proof.
  destruct w as [q e]. intros (l & Hq & Hl & _). cbn in Hq. subst q. rewrite text_app. unfold wmap, unls. cbn [fst snd].
  rewrite fmap_app, text_app. by apply unls_word.
Qed.
Lemma erase_cmap c : Forall word_ok (words c) -> erase (cmap c) = erase c.
Proof.
  induction c as [argv|c IH f md fd|l IHl r IHr|l IHl r IHr|c IH]; cbn [words cmap erase]; intros Hw.
  - f_equal. rewrite <- list_fmap_compose. apply list_fmap_ext. intros i w Hi. apply text_wmap. by eapply Forall_lookup_1 in Hw.
  - apply Forall_app in Hw as [Hc Hf] || apply Forall_cons in Hw as [Hf Hc].
    rewrite IH, text_wmap by (done || by apply Forall_singleton). done.
  - apply Forall_app in Hw as [Hl Hr]. by rewrite IHl, IHr.
  - apply Forall_app in Hw as [Hl Hr]. by rewrite IHl, IHr.
  - by rewrite IH.
Qed.

(** A line that is a printed command, but for newlines, parses to it. *)
Lemma parse_line c l : typable c -> unls l = pr 3 c -> exists c' b, parsecmd l = Ok (c', b) /\ erase c' = c.
Proof.
  intros Ht Hl. destruct (parse_printed c Ht) as (c1 & Hp & He). rewrite <- Hl in Hp. rewrite unls_length in Hp.
  rewrite (proj1 (same_parse _)) in Hp. destruct (parseline (4 * length l + 4) l) as [[c' s1]| | |] eqn:E; try discriminate Hp.
  injection Hp as Hc1 Hs1. apply fmap_nil_inv in Hs1. cbn in Hs1. subst s1 c1.
  assert (Hcmd : parsecmd l = Ok (c', nulterminate l c' (l ++ [0]))) by (unfold parsecmd, bind; by rewrite E).
  exists c', (nulterminate l c' (l ++ [0])). split; [done|]. rewrite <- He. symmetry. apply erase_cmap.
  assert (Hok := parsecmd_cases l). rewrite Hcmd in Hok. destruct Hok as [Hok _].
  eapply Forall_impl; [exact Hok|]. by intros w [? _].
Qed.

(** ** Typing *)

(** A command as it is typed: the last blank is the newline. *)
Definition typed (c : scmd) : list Z := removelast (pr 3 c) ++ [10].
(** A line of the shell: it fits the buffer, has no NUL, is not empty and is not a [cd]. *)
Definition line_ok (c : scmd) : Prop :=
  typable c /\ (0 < length (pr 3 c) < 100)%nat /\ (0 ∉ pr 3 c) /\ is_cd (typed c) = false.

Definition no_nl (l : list Z) : Prop := Forall (fun x => x <> 10 /\ x <> 13) l.
Lemma no_nl_app l k : no_nl l -> no_nl k -> no_nl (l ++ k).
Proof. apply Forall_app_2. Qed.
Lemma no_nl_tok w : good_word w -> no_nl (tok w).
Proof.
  intros [_ Hw]. apply no_nl_app; [|by repeat constructor]. apply Forall_forall. intros x Hx%list_elem_of_In.
  rewrite forallb_forall in Hw. specialize (Hw x Hx). split; intros ->; by vm_compute in Hw.
Qed.
Lemma no_nl_sym c : isin symbols c = true -> no_nl (tok [c]).
Proof. intros Hc. apply Forall_cons. split; [split; intros ->; by vm_compute in Hc|by repeat constructor]. Qed.
Lemma no_nl_paren b s : no_nl s -> no_nl (paren b s).
Proof. intros Hs. destruct b; [done|]. cbn [paren]. apply no_nl_app; [by apply no_nl_sym|]. apply no_nl_app; [done|by apply no_nl_sym]. Qed.
Lemma no_nl_pr c : forall lvl, typable c -> no_nl (pr lvl c).
Proof.
  induction c as [argv|c IH f md fd|l IHl r IHr|l IHl r IHr|c IH]; intros lvl; cbn [typable pr].
  - intros [Ha _]. induction Ha as [|w argv Hw _ IH]; [constructor|]. cbn. by apply no_nl_app; [apply no_nl_tok|].
  - intros (Hc & Hf & _). apply no_nl_app; [by apply IH|]. apply no_nl_app; [|by apply no_nl_tok].
    apply no_nl_sym. by destruct (md =? O_RDONLY).
  - intros [Hl Hr]. apply no_nl_paren, no_nl_app; [by apply IHl|]. apply no_nl_app; [by apply no_nl_sym|by apply IHr].
  - intros [Hl Hr]. apply no_nl_paren, no_nl_app; [by apply IHl|]. apply no_nl_app; [by apply no_nl_sym|by apply IHr].
  - intros Hc. apply no_nl_paren, no_nl_app; [by apply IH|by apply no_nl_sym].
Qed.

(** A printed command ends in a blank. *)
Definition blank_end (s : list Z) : Prop := s = [] \/ exists l, s = l ++ [32].
Lemma blank_end_app l k : blank_end l -> blank_end k -> blank_end (l ++ k).
Proof. intros Hl [->|[k' ->]]; [by rewrite app_nil_r|]. right. exists (l ++ k'). by rewrite app_assoc. Qed.
Lemma blank_end_tok w : blank_end (tok w).
Proof. right. by exists w. Qed.
Lemma blank_end_paren b s : blank_end s -> blank_end (paren b s).
Proof. intros Hs. destruct b; [done|]. cbn [paren]. apply blank_end_app; [apply blank_end_tok|]. apply blank_end_app; [done|apply blank_end_tok]. Qed.
Lemma blank_end_pr c : forall lvl, blank_end (pr lvl c).
Proof.
  induction c as [argv|c IH f md fd|l IHl r IHr|l IHl r IHr|c IH]; intros lvl; cbn [pr].
  - induction argv as [|w argv IH]; [by left|]. cbn. apply blank_end_app; [apply blank_end_tok|done].
  - apply blank_end_app; [apply IH|]. apply blank_end_app; apply blank_end_tok.
  - apply blank_end_paren. apply blank_end_app; [apply IHl|]. apply blank_end_app; [apply blank_end_tok|apply IHr].
  - apply blank_end_paren. apply blank_end_app; [apply IHl|]. apply blank_end_app; [apply blank_end_tok|apply IHr].
  - apply blank_end_paren, blank_end_app; [apply IH|apply blank_end_tok].
Qed.

Lemma gets_line l rest : forall n, no_nl l -> (length l < n)%nat -> gets_loop n (l ++ 10 :: rest) = (l ++ [10], rest).
Proof.
  induction l as [|c l IH]; intros [|n] Hl Hn; cbn in Hn; try lia; [done|]. apply Forall_cons in Hl as [[H1 H2] Hl]. cbn.
  rewrite (proj2 (Z.eqb_neq c 10)), (proj2 (Z.eqb_neq c 13)) by done. cbn. rewrite IH by (done || lia). done.
Qed.
Lemma until_nul_id l : 0 ∉ l -> until_nul l = l.
Proof.
  induction l as [|c l IH]; [done|]. rewrite not_elem_of_cons. intros [Hc Hl]. cbn. rewrite (proj2 (Z.eqb_neq c 0)) by done. by rewrite IH.
Qed.

Lemma typed_line c rest : line_ok c -> unls (typed c) = pr 3 c /\ getcmd sizeof_cmdbuf (typed c ++ rest) = Some (typed c, rest).
Proof.
  intros (Ht & Hlen & H0 & _). unfold typed. destruct (blank_end_pr c 3) as [E|[l E]]; rewrite E in *; [cbn in Hlen; lia|].
  rewrite removelast_last. assert (Hnl := no_nl_pr c 3 Ht). rewrite E in Hnl. apply Forall_app in Hnl as [Hnl _].
  rewrite not_elem_of_app in H0. destruct H0 as [H0 _]. split.
  - unfold unls. rewrite fmap_app. cbn. f_equal. clear -Hnl. induction Hnl as [|x l [Hx _] _ IH]; [done|]. cbn. rewrite IH.
    unfold unl. by rewrite (proj2 (Z.eqb_neq x 10)).
  - rewrite length_app in Hlen. cbn in Hlen. unfold getcmd, gets_. rewrite <- app_assoc. cbn [app].
    rewrite gets_line by (done || (change (Z.to_nat (sizeof_cmdbuf - 1)) with 99%nat; lia)).
    assert (Hu : until_nul (l ++ [10]) = l ++ [10]) by (apply until_nul_id; rewrite not_elem_of_app; split; [done|set_solver]).
    destruct l as [|a l]; cbn [app] in *; [done|]. rewrite not_elem_of_cons in H0. rewrite (proj2 (Z.eqb_neq a 0)) by (destruct H0; congruence).
    by rewrite Hu.
Qed.


(** ** Running *)

Section lines.
Context (open_fails : list Z -> Z -> bool) (exec_fails : list (list Z) -> bool).

(** The commands of a list of lines: the shell [me], with [nf] children so far,
    runs each in a child, and the foreground of each line comes before all of the
    next lines. *)
Fixpoint plumbs (cs : list scmd) (d : std) (me : pname) (nf : nat) : list (pname * list (list Z) * std) :=
  match cs with
  | [] => []
  | c :: cs => plumb open_fails exec_fails c d (me ++ [nf]) 0 ++ plumbs cs d me (S nf)
  end.
Fixpoint nameds (cs : list scmd) (me : pname) (nf : nat) : list pname :=
  match cs with
  | [] => []
  | c :: cs => named open_fails exec_fails c (me ++ [nf]) 0 ++ nameds cs me (S nf)
  end.
Fixpoint befores (p q : pname) (cs : list scmd) (me : pname) (nf : nat) : Prop :=
  match cs with
  | [] => False
  | c :: cs =>
      (p ∈ fore open_fails exec_fails c (me ++ [nf]) 0 /\ q ∈ nameds cs me (S nf)) \/
      before open_fails exec_fails p q c (me ++ [nf]) 0 \/ befores p q cs me (S nf)
  end.
Lemma plumbs_named cs d : forall me nf, (fun x => fst (fst x)) <$> plumbs cs d me nf = nameds cs me nf.
Proof. induction cs as [|c cs IH]; intros me nf; [done|]. cbn. by rewrite fmap_app, plumb_named, IH. Qed.

Context (chdir_fails : list Z -> bool).
Abbreviation ev := (eval open_fails exec_fails chdir_fails (fun _ _ => false)).

Lemma eval_line c rest fuel t me nf : line_ok c ->
  ev me nf t (sh_loop (S fuel) (typed c ++ rest)) =
  BStep [Said me "$ "] (BFork (ev (me ++ [nf]) 0 t (runcmd c)) (BWait (ev me (S nf) t (sh_loop fuel rest)))).
Proof.
  intros Hc. destruct (typed_line c rest Hc) as [Hu Hg]. destruct Hc as (Ht & _ & _ & Hcd).
  destruct (parse_line c (typed c) Ht Hu) as (c' & b & Hp & He).
  cbn [sh_loop eval]. rewrite Hg. unfold line, child. by rewrite Hcd, Hp, He.
Qed.

Lemma plan_lines d cs : forall fuel me nf, Forall line_ok cs -> (length cs < fuel)%nat ->
  plan me nf (ev me nf (table d) (sh_loop fuel (concat (typed <$> cs)))) = tabled <$> plumbs cs d me nf.
Proof.
  induction cs as [|c cs IH]; intros [|fuel] me nf Hcs Hf; cbn in Hf; try lia; [done|]. apply Forall_cons in Hcs as [Hc Hcs].
  cbn [fmap list_fmap concat plumbs]. rewrite eval_line by done. cbn [plan]. rewrite plan_runcmd by apply Hc. by rewrite IH, fmap_app by (done || lia).
Qed.
Lemma hb_lines p q d cs : forall fuel me nf, Forall line_ok cs -> (length cs < fuel)%nat -> befores p q cs me nf ->
  hb p q me nf 0 (ev me nf (table d) (sh_loop fuel (concat (typed <$> cs)))).
Proof.
  induction cs as [|c cs IH]; intros [|fuel] me nf Hcs Hf; cbn in Hf; try lia; [done|]. apply Forall_cons in Hcs as [Hc Hcs].
  cbn [fmap list_fmap concat befores]. rewrite eval_line by done. cbn [hb pred]. intros [[Hp Hq]|[H|H]].
  - right. right. split; [done|]. eexists. split; [done|]. rewrite fg_runcmd by apply Hc. rewrite plan_lines by (done || lia). split; [done|].
    rewrite <- (plumbs_named cs d), list_elem_of_fmap in Hq. destruct Hq as (x & -> & Hx). rewrite <- list_fmap_compose. apply list_elem_of_fmap. by exists x.
  - left. apply hb_runcmd; [apply Hc|done].
  - right. left. apply IH; (done || lia).
Qed.

(** The three descriptors are open: the console is opened once more, and
    closed. *)
Lemma eval_console fuel k d me nf : exists es,
  ev me nf (table d) (open_console (S fuel) k) = BStep [] (if open_fails console_name O_RDWR then ev me nf (table d) k else BStep es (ev me nf (table d) k)).
Proof. exists []. cbn [open_console eval]. unfold sopen. by destruct (open_fails console_name O_RDWR). Qed.

Lemma typed_lines cs : (length cs <= length (concat (typed <$> cs)))%nat.
Proof. induction cs as [|c cs IH]; [done|]. cbn. unfold typed at 1. rewrite !length_app. cbn. lia. Qed.

(** The shell at its start. *)
Definition shell (input : list Z) (d : std) : list ptree := [Proc [] 0 (table d) (sh_main (4 + length input) input) []].
Abbreviation shplans := (plans open_fails exec_fails chdir_fails (fun _ _ => false)).
Abbreviation shlives := (lives open_fails exec_fails chdir_fails (fun _ _ => false)).

Lemma shell_plans cs d : Forall line_ok cs -> shplans (shell (concat (typed <$> cs)) d) = tabled <$> plumbs cs d [] 0.
Proof.
  intros Hcs. assert (Hl := typed_lines cs). unfold plans, totals, shell. cbn [flat_map total]. rewrite !app_nil_r. unfold sh_main.
  destruct (eval_console (3 + length (concat (typed <$> cs))) (sh_loop (4 + length (concat (typed <$> cs))) (concat (typed <$> cs))) d [] 0) as [es He].
  change (4 + length (concat (typed <$> cs)))%nat with (S (3 + length (concat (typed <$> cs)))) at 1. rewrite He. cbn [plan].
  destruct (open_fails console_name O_RDWR); cbn [plan]; apply plan_lines; (done || lia).
Qed.
Lemma shell_lives input d : shlives (shell input d) = pn <$> shplans (shell input d).
Proof. unfold lives, live, plans, totals, shell. cbn [flat_map total]. by rewrite !app_nil_r. Qed.
Lemma shell_hb cs d p q : Forall line_ok cs -> befores p q cs [] 0 ->
  hbF open_fails exec_fails chdir_fails (fun _ _ => false) p q (shell (concat (typed <$> cs)) d).
Proof.
  intros Hcs Hb. assert (Hl := typed_lines cs). eexists. split; [apply list_elem_of_here|]. apply H_code. unfold sh_main. cbn [length].
  destruct (eval_console (3 + length (concat (typed <$> cs))) (sh_loop (4 + length (concat (typed <$> cs))) (concat (typed <$> cs))) d [] 0) as [es He].
  change (4 + length (concat (typed <$> cs)))%nat with (S (3 + length (concat (typed <$> cs)))) at 1. rewrite He. cbn [hb].
  destruct (open_fails console_name O_RDWR); cbn [hb]; apply hb_lines; (done || lia).
Qed.
End lines.

(** C35. From the keyboard to the programs: the shell is given lines, each a
    command as it is typed; its processes run side by side in any order, and no
    [fork] fails. Then the programs that are started are programs of those
    commands, each once and with the three standard descriptors its command asks
    for: redirections replace standard input or output, the two sides of a
    pipeline share a new pipe, and no program keeps a stray end of a pipe. What
    a list or the next line comes after has exited: when a program of the second
    part of a list or of a later line starts, every program in the foreground of
    the first part or of the earlier line has exited, because the shell waits
    for it; the sides of a pipeline and what is in the background are not
    ordered. Every execution ends, and one that cannot go on has started all the
    programs and all processes have exited. Programs that cannot be started and
    files that cannot be opened are left out; the programs are taken to exit and
    not to read the lines typed for the shell. *)
Theorem typed_commands_run open_fails exec_fails chdir_fails cs d n es F :
  Forall line_ok cs ->
  fsteps open_fails exec_fails chdir_fails (fun _ _ => false) n (shell (concat (typed <$> cs)) d) es F ->
  let progs := tabled <$> plumbs open_fails exec_fails cs d [] 0 in
  NoDup (pn <$> progs) /\ (exists rest, progs ≡ₚ starts es ++ rest) /\
  (forall p q es1 argv t es2, befores open_fails exec_fails p q cs [] 0 -> es = es1 ++ Started q argv t :: es2 -> Exited p ∈ es1) /\
  (n <= length (todos open_fails exec_fails chdir_fails (fun _ _ => false) (shell (concat (typed <$> cs)) d)))%nat /\
  ((forall es' F', ~ fstep open_fails exec_fails chdir_fails (fun _ _ => false) F es' F') ->
     starts es ≡ₚ progs /\ Forall (fun T => exists p, T = Zombie p) F).
Proof.
  intros Hcs H progs. assert (Hp := shell_plans open_fails exec_fails chdir_fails cs d Hcs).
  assert (Hnd : NoDup (pn <$> progs)).
  { subst progs. rewrite <- Hp. unfold plans, totals, shell. cbn [flat_map total]. rewrite !app_nil_r. apply plan_nodup. }
  assert (Hs := fsteps_plans _ _ _ _ _ _ _ _ H). rewrite Hp in Hs. fold progs in Hs. split_and!.
  - done.
  - by eexists.
  - intros p q es1 argv t es2 Hb He. eapply fsteps_order; [exact H| | |by apply shell_hb|exact He]; [rewrite shell_lives|]; by rewrite Hp.
  - rewrite (fsteps_todos _ _ _ _ _ _ _ _ H). lia.
  - intros Hstuck. assert (Hz : Forall (fun T => exists p, T = Zombie p) F).
    { eapply stuck_zombies; [|exact Hstuck]. apply Permutation_nil. rewrite <- (fsteps_looping _ _ _ _ _ _ _ _ H).
      unfold looping, totals, shell. cbn [flat_map total]. by rewrite !app_nil_r, sh_main_ends. }
    split; [|done]. rewrite (zombies_plans _ _ _ _ F Hz), app_nil_r in Hs. by symmetry.
Qed.

(** ** A run

    The lines [cat < a | wc] and [echo b > c &], in an interleaving in which the
    shell reads on while [echo] runs. *)

Definition demo_lines : list scmd :=
  [SPipe (SRedir (SExec [[99; 97; 116]]) [97] O_RDONLY 0) (SExec [[119; 99]]);
   SBack (SRedir (SExec [[101; 99; 104; 111]; [98]]) [99] (Z.lor O_WRONLY O_CREATE) 1)].
Definition demo_std : std := Std (Inherited 0) (Inherited 1) (Inherited 2).
Definition demo_shell : list ptree := shell (concat (typed <$> demo_lines)) demo_std.
Definition demo_moves : list (nat * list nat * nat) :=
  replicate 4 (0, [], 0)%nat ++ replicate 3 (0, [0], 0)%nat ++
  concat (replicate 2 [(0, [0; 0], 0); (0, [0], 0)])%nat ++ [(0, [0; 0], 0)]%nat ++ concat (replicate 5 [(0, [0; 1], 0); (0, [0; 0], 0)])%nat ++
  [(0, [0], 0); (0, [0; 0], 0); (0, [0], 0); (0, [0], 0)]%nat ++ replicate 3 (0, [], 0)%nat ++ replicate 2 (0, [0], 0)%nat ++
  concat (replicate 3 [(0, [], 0); (1, [], 0)])%nat ++ [(1, [], 0)]%nat.
Definition demo_end : list event * list ptree :=
  default ([], []) (moves (fun _ _ => false) (fun _ => false) (fun _ => false) (fun _ _ => false) demo_moves demo_shell).

Lemma demo_moved : moves (fun _ _ => false) (fun _ => false) (fun _ => false) (fun _ _ => false) demo_moves demo_shell = Some demo_end.
Proof. by vm_compute. Qed.
Lemma demo_lines_ok : Forall line_ok demo_lines.
Proof.
  unfold demo_lines, line_ok. repeat apply Forall_cons_2; [| |apply Forall_nil_2].
  all: split_and!; [|vm_compute; lia|vm_compute; lia|apply (bool_decide_unpack _); by vm_compute|reflexivity].
  all: cbn; unfold good_word, MAXARGS; repeat first [split | apply Forall_cons | apply Forall_nil | done | lia | left; done | right; done].
Qed.

Lemma typed_commands_run_witness :
  starts (fst demo_end) ≡ₚ
    [([0; 0]%nat, [[99; 97; 116]], table (Std (File [97] O_RDONLY) (WriteEnd [0%nat]) (Inherited 2)));
     ([0; 1]%nat, [[119; 99]], table (Std (ReadEnd [0%nat]) (Inherited 1) (Inherited 2)));
     ([1; 0]%nat, [[101; 99; 104; 111]; [98]], table (Std (Inherited 0) (File [99] (Z.lor O_WRONLY O_CREATE)) (Inherited 2)))] /\
  exists es1 argv t es2, fst demo_end = es1 ++ Started [1; 0]%nat argv t :: es2 /\ Exited [0; 1]%nat ∈ es1.
Proof.
  assert (Hrun := moves_steps _ _ _ _ demo_moves demo_shell (fst demo_end) (snd demo_end) demo_moved).
  destruct (typed_commands_run (fun _ _ => false) (fun _ => false) (fun _ => false) demo_lines demo_std _ _ _ demo_lines_ok Hrun) as (_ & _ & Hord & _ & Hend).
  split.
  - apply Hend. apply zombies_stuck. vm_compute. repeat constructor; by eexists.
  - assert (He : fst demo_end = take 7 (fst demo_end) ++ Started [1; 0]%nat [[101; 99; 104; 111]; [98]]
      (table (Std (Inherited 0) (File [99] (Z.lor O_WRONLY O_CREATE)) (Inherited 2))) :: drop 8 (fst demo_end)) by (vm_compute; reflexivity).
    eexists _, _, _, _. split; [exact He|]. refine (Hord _ _ _ _ _ _ _ He). left. split; apply (bool_decide_unpack _); by vm_compute.
Defined.
