(* ===== verification/Proc.v ===== *)
(** Processes and the scheduler: [proc.h], [proc.c] and the process part of
    [sysproc.c].

    A pointer to a [struct proc] is an index in [ptable.proc], null is
    [None].  Code that switches stacks is cut at the switch: the half before
    it records in [kctx] where the thread continues, the half after it is run
    by the CPU that later dispatches the thread. *)

From S2P Require Import Prelude Layout Rand Spinlock CString.

(** ** Data *)


Definition DEFAULT_NICE_VALUE : Z := 40.
Definition MAX_NICE_VALUE : Z := 100.
Definition MIN_NICE_VALUE : Z := 1.

Inductive procstate : Type := UNUSED | EMBRYO | SLEEPING | RUNNABLE | RUNNING | ZOMBIE.

#[global] Instance procstate_eq_dec : EqDecision procstate.
Proof. solve_decision. Defined.

(** Sleep channels are addresses: that of a process, used by [wait], or of
    some other kernel object. *)
Inductive channel : Type := ChanProc (i : nat) | ChanAddr (a : Z).

#[global] Instance channel_eq_dec : EqDecision channel.
Proof. solve_decision. Defined.

(** The address of the [ticks] counter as a channel. *)
Definition chan_ticks : channel := ChanAddr 0.

Record rtcdate := Rtcdate {
  second : Z; minute : Z; hour : Z; day : Z; month : Z; year : Z
}.

(** [struct trapframe] of x86.h, without the padding. *)
Record trapframe := Trapframe {
  tf_edi : Z;
  tf_esi : Z;
  tf_ebp : Z;
  tf_oesp : Z;
  tf_ebx : Z;
  tf_edx : Z;
  tf_ecx : Z;
  tf_eax : Z;
  tf_gs : Z;
  tf_fs : Z;
  tf_es : Z;
  tf_ds : Z;
  tf_trapno : Z;
  tf_err : Z;
  tf_eip : Z;
  tf_cs : Z;
  tf_eflags : Z;
  tf_esp : Z;
  tf_ss : Z
}.

Definition set_tf_eax (v : Z) (t : trapframe) : trapframe :=
  Trapframe (tf_edi t) (tf_esi t) (tf_ebp t) (tf_oesp t) (tf_ebx t) (tf_edx t) (tf_ecx t) v (tf_gs t) (tf_fs t) (tf_es t) (tf_ds t) (tf_trapno t) (tf_err t) (tf_eip t) (tf_cs t) (tf_eflags t) (tf_esp t) (tf_ss t).
Definition set_tf_eip (v : Z) (t : trapframe) : trapframe :=
  Trapframe (tf_edi t) (tf_esi t) (tf_ebp t) (tf_oesp t) (tf_ebx t) (tf_edx t) (tf_ecx t) (tf_eax t) (tf_gs t) (tf_fs t) (tf_es t) (tf_ds t) (tf_trapno t) (tf_err t) v (tf_cs t) (tf_eflags t) (tf_esp t) (tf_ss t).
Definition set_tf_esp (v : Z) (t : trapframe) : trapframe :=
  Trapframe (tf_edi t) (tf_esi t) (tf_ebp t) (tf_oesp t) (tf_ebx t) (tf_edx t) (tf_ecx t) (tf_eax t) (tf_gs t) (tf_fs t) (tf_es t) (tf_ds t) (tf_trapno t) (tf_err t) (tf_eip t) (tf_cs t) (tf_eflags t) v (tf_ss t).

(** Where a kernel thread continues when the scheduler switches to it: at
    [forkret] for a new process, or behind the [swtch] in [sched], with the
    local [intena] of that call and the caller of [sched]. *)
Inductive kafter : Type :=
| AfterYield | AfterExit | AfterWait | AfterSleep (lk : lockid).
Inductive kpoint : Type := AtForkret | InSched (intena : Z) (after : kafter).

Inductive resumed : Type := Back (r : option Z) | BackLocked (lk : lockid) | Asleep.

Record proc := Proc {
  sz : Z;  (* Size of process memory (bytes) *)
  pgdir : Z;  (* Page table, 0 for null *)
  kstack : Z;  (* Bottom of the kernel stack page, 0 for null *)
  state : procstate;  (* Process state *)
  pid : Z;  (* Process ID *)
  parent : option nat;  (* Parent process, an index in ptable.proc *)
  tf : Z;  (* Trap frame for current syscall (address) *)
  context : Z;  (* swtch() here to run process (address) *)
  chan : option channel;  (* If non-null, sleeping on chan *)
  killed : Z;  (* If non-zero, have been killed *)
  ofile : list (option nat);  (* Open files, indices in ftable.file *)
  cwd : option nat;  (* Current directory, an index in icache.inode *)
  name : list Z;  (* Process name (debugging) *)
  begin_date : rtcdate;
  ticks_total : Z;
  ticks_begin : Z;
  sched_times : Z;
  nice_value : Z;
  tfv : trapframe;  (* the trap frame stored at tf *)
  kctx : kpoint  (* the kernel thread stored at context *)
}.

Definition set_sz (v : Z) (p : proc) : proc :=
  Proc v (pgdir p) (kstack p) (state p) (pid p) (parent p) (tf p) (context p) (chan p) (killed p) (ofile p) (cwd p) (name p) (begin_date p) (ticks_total p) (ticks_begin p) (sched_times p) (nice_value p) (tfv p) (kctx p).
Definition set_pgdir (v : Z) (p : proc) : proc :=
  Proc (sz p) v (kstack p) (state p) (pid p) (parent p) (tf p) (context p) (chan p) (killed p) (ofile p) (cwd p) (name p) (begin_date p) (ticks_total p) (ticks_begin p) (sched_times p) (nice_value p) (tfv p) (kctx p).
Definition set_kstack (v : Z) (p : proc) : proc :=
  Proc (sz p) (pgdir p) v (state p) (pid p) (parent p) (tf p) (context p) (chan p) (killed p) (ofile p) (cwd p) (name p) (begin_date p) (ticks_total p) (ticks_begin p) (sched_times p) (nice_value p) (tfv p) (kctx p).
Definition set_state (v : procstate) (p : proc) : proc :=
  Proc (sz p) (pgdir p) (kstack p) v (pid p) (parent p) (tf p) (context p) (chan p) (killed p) (ofile p) (cwd p) (name p) (begin_date p) (ticks_total p) (ticks_begin p) (sched_times p) (nice_value p) (tfv p) (kctx p).
Definition set_pid (v : Z) (p : proc) : proc :=
  Proc (sz p) (pgdir p) (kstack p) (state p) v (parent p) (tf p) (context p) (chan p) (killed p) (ofile p) (cwd p) (name p) (begin_date p) (ticks_total p) (ticks_begin p) (sched_times p) (nice_value p) (tfv p) (kctx p).
Definition set_parent (v : option nat) (p : proc) : proc :=
  Proc (sz p) (pgdir p) (kstack p) (state p) (pid p) v (tf p) (context p) (chan p) (killed p) (ofile p) (cwd p) (name p) (begin_date p) (ticks_total p) (ticks_begin p) (sched_times p) (nice_value p) (tfv p) (kctx p).
Definition set_tf (v : Z) (p : proc) : proc :=
  Proc (sz p) (pgdir p) (kstack p) (state p) (pid p) (parent p) v (context p) (chan p) (killed p) (ofile p) (cwd p) (name p) (begin_date p) (ticks_total p) (ticks_begin p) (sched_times p) (nice_value p) (tfv p) (kctx p).
Definition set_context (v : Z) (p : proc) : proc :=
  Proc (sz p) (pgdir p) (kstack p) (state p) (pid p) (parent p) (tf p) v (chan p) (killed p) (ofile p) (cwd p) (name p) (begin_date p) (ticks_total p) (ticks_begin p) (sched_times p) (nice_value p) (tfv p) (kctx p).
Definition set_chan (v : option channel) (p : proc) : proc :=
  Proc (sz p) (pgdir p) (kstack p) (state p) (pid p) (parent p) (tf p) (context p) v (killed p) (ofile p) (cwd p) (name p) (begin_date p) (ticks_total p) (ticks_begin p) (sched_times p) (nice_value p) (tfv p) (kctx p).
Definition set_killed (v : Z) (p : proc) : proc :=
  Proc (sz p) (pgdir p) (kstack p) (state p) (pid p) (parent p) (tf p) (context p) (chan p) v (ofile p) (cwd p) (name p) (begin_date p) (ticks_total p) (ticks_begin p) (sched_times p) (nice_value p) (tfv p) (kctx p).
Definition set_ofile (v : list (option nat)) (p : proc) : proc :=
  Proc (sz p) (pgdir p) (kstack p) (state p) (pid p) (parent p) (tf p) (context p) (chan p) (killed p) v (cwd p) (name p) (begin_date p) (ticks_total p) (ticks_begin p) (sched_times p) (nice_value p) (tfv p) (kctx p).
Definition set_cwd (v : option nat) (p : proc) : proc :=
  Proc (sz p) (pgdir p) (kstack p) (state p) (pid p) (parent p) (tf p) (context p) (chan p) (killed p) (ofile p) v (name p) (begin_date p) (ticks_total p) (ticks_begin p) (sched_times p) (nice_value p) (tfv p) (kctx p).
Definition set_name (v : list Z) (p : proc) : proc :=
  Proc (sz p) (pgdir p) (kstack p) (state p) (pid p) (parent p) (tf p) (context p) (chan p) (killed p) (ofile p) (cwd p) v (begin_date p) (ticks_total p) (ticks_begin p) (sched_times p) (nice_value p) (tfv p) (kctx p).
Definition set_begin_date (v : rtcdate) (p : proc) : proc :=
  Proc (sz p) (pgdir p) (kstack p) (state p) (pid p) (parent p) (tf p) (context p) (chan p) (killed p) (ofile p) (cwd p) (name p) v (ticks_total p) (ticks_begin p) (sched_times p) (nice_value p) (tfv p) (kctx p).
Definition set_ticks_total (v : Z) (p : proc) : proc :=
  Proc (sz p) (pgdir p) (kstack p) (state p) (pid p) (parent p) (tf p) (context p) (chan p) (killed p) (ofile p) (cwd p) (name p) (begin_date p) v (ticks_begin p) (sched_times p) (nice_value p) (tfv p) (kctx p).
Definition set_ticks_begin (v : Z) (p : proc) : proc :=
  Proc (sz p) (pgdir p) (kstack p) (state p) (pid p) (parent p) (tf p) (context p) (chan p) (killed p) (ofile p) (cwd p) (name p) (begin_date p) (ticks_total p) v (sched_times p) (nice_value p) (tfv p) (kctx p).
Definition set_sched_times (v : Z) (p : proc) : proc :=
  Proc (sz p) (pgdir p) (kstack p) (state p) (pid p) (parent p) (tf p) (context p) (chan p) (killed p) (ofile p) (cwd p) (name p) (begin_date p) (ticks_total p) (ticks_begin p) v (nice_value p) (tfv p) (kctx p).
Definition set_nice_value (v : Z) (p : proc) : proc :=
  Proc (sz p) (pgdir p) (kstack p) (state p) (pid p) (parent p) (tf p) (context p) (chan p) (killed p) (ofile p) (cwd p) (name p) (begin_date p) (ticks_total p) (ticks_begin p) (sched_times p) v (tfv p) (kctx p).
Definition set_tfv (v : trapframe) (p : proc) : proc :=
  Proc (sz p) (pgdir p) (kstack p) (state p) (pid p) (parent p) (tf p) (context p) (chan p) (killed p) (ofile p) (cwd p) (name p) (begin_date p) (ticks_total p) (ticks_begin p) (sched_times p) (nice_value p) v (kctx p).
Definition set_kctx (v : kpoint) (p : proc) : proc :=
  Proc (sz p) (pgdir p) (kstack p) (state p) (pid p) (parent p) (tf p) (context p) (chan p) (killed p) (ofile p) (cwd p) (name p) (begin_date p) (ticks_total p) (ticks_begin p) (sched_times p) (nice_value p) (tfv p) v.

Definition SIZEOF_TRAPFRAME : Z := 76.
Definition SIZEOF_CONTEXT : Z := 20.
Definition NAMELEN : Z := 16.

(** A zeroed table entry. *)
Definition tf0 : trapframe := Trapframe 0 0 0 0 0 0 0 0 0 0 0 0 0 0 0 0 0 0 0.
Definition proc0 : proc :=
  Proc 0 0 0 UNUSED 0 None 0 0 None 0 (replicate NOFILE None) None (replicate 16 0)
    (Rtcdate 0 0 0 0 0 0) 0 0 0 0 tf0 AtForkret.

(** ** What the process code calls in other components

    Each operation acts on the state [E] of the memory, file and disk code;
    [fileclose] and the [iput] transaction also return the channels they wake
    up. *)
Class procenv (E : Type) := Procenv {
  env_kalloc : M E Z;
  env_kfree : Z -> M E ();
  env_setupkvm : M E Z;
  env_inituvm : Z -> M E ();
  env_allocuvm : Z -> Z -> Z -> M E Z;
  env_deallocuvm : Z -> Z -> Z -> M E Z;
  env_copyuvm : Z -> Z -> M E Z;
  env_freevm : Z -> M E ();
  env_filedup : nat -> M E nat;
  env_fileclose : nat -> M E (list channel);
  env_idup : nat -> M E nat;
  env_iput_op : nat -> M E (list channel);
  env_namei_root : M E nat;
  env_cmostime : M E rtcdate;
  env_fsinit : M E ()
}.

(** ** Pure parts of the table loops *)

(** The search of [allocproc] for an unused slot. *)
Fixpoint find_unused (i : nat) (ps : list proc) : option nat :=
  match ps with
  | [] => None
  | p :: ps => if decide (state p = UNUSED) then Some i else find_unused (S i) ps
  end.

(** [wakeup1]: every process that sleeps on [ch] becomes runnable. *)
Definition wakeup1_proc (ch : option channel) (p : proc) : proc :=
  if decide (state p = SLEEPING /\ chan p = ch) then set_state RUNNABLE p else p.
Definition wakeup1 (ch : option channel) (ps : list proc) : list proc := wakeup1_proc ch <$> ps.

(** [nice_sum]: the tickets of the runnable processes, summed in an [int]. *)
Fixpoint nice_sum_loop (total : Z) (ps : list proc) : Z :=
  match ps with
  | [] => total
  | p :: ps =>
      nice_sum_loop (if decide (state p = RUNNABLE) then s32 (total + nice_value p) else total) ps
  end.
Definition nice_sum (ps : list proc) : Z := nice_sum_loop 0 ps.

(** The loop of the lottery scheduler that looks for the winner of ticket
    [rand_num].  [running_total] is added to but never read. *)
Fixpoint lottery_scan (rand_num running_total check : Z) (i : nat) (ps : list proc) : option nat :=
  match ps with
  | [] => None
  | p :: ps =>
      if decide (state p <> RUNNABLE)
      then lottery_scan rand_num (u32 (running_total + nice_value p)) check (S i) ps
      else if u32 (check + nice_value p) <? rand_num
      then lottery_scan rand_num running_total (s32 (check + nice_value p)) (S i) ps
      else Some i
  end.

(** The loop of [exit] that hands the children of [cur] to init. *)
Definition reparent_step (cur : nat) (init : option nat) (ps : list proc) (i : nat) : list proc :=
  match ps !! i with
  | Some p =>
      if decide (parent p = Some cur) then
        let ps := <[i := set_parent init p]> ps in
        if decide (state p = ZOMBIE) then wakeup1 (ChanProc <$> init) ps else ps
      else ps
  | None => ps
  end.
Definition reparent (cur : nat) (init : option nat) (ps : list proc) : list proc :=
  foldl (reparent_step cur init) ps (seq 0 (length ps)).

(** One scan of [wait] over the table: the first exited child, or whether
    there are children at all. *)
Inductive scan_result : Type := Found (i : nat) | NotFound (havekids : bool).
Fixpoint wait_scan (cur : nat) (havekids : bool) (i : nat) (ps : list proc) : scan_result :=
  match ps with
  | [] => NotFound havekids
  | p :: ps =>
      if decide (parent p <> Some cur) then wait_scan cur havekids (S i) ps
      else if decide (state p = ZOMBIE) then Found i
      else wait_scan cur true (S i) ps
  end.

(** The search of [kill] for a process id; the slot's state is not looked at. *)
Fixpoint find_pid (n : Z) (i : nat) (ps : list proc) : option nat :=
  match ps with
  | [] => None
  | p :: ps => if pid p =? n then Some i else find_pid n (S i) ps
  end.

(** The loop of [renice]: the new table and whether some entry matched. *)
Definition renice_proc (nice_val n : Z) (p : proc) : proc :=
  if decide (state p <> UNUSED) then
    if pid p =? n then set_nice_value (u32 nice_val) p else p
  else p.
Definition renice_match (n : Z) (p : proc) : bool :=
  bool_decide (state p <> UNUSED) && (pid p =? n).

(** ** The kernel state *)

Section kernel.
Context {E : Type} {HE : procenv E}.

(** The table, the counters of [proc.c], [trap.c], [rand.c] and [vm.c] the
    process code uses, the machine, and the other components. *)
Record kst := Kst {
  kmach : mach;
  procs : list proc;
  nextpid : Z;
  initproc : option nat;
  ticks : Z;
  rnext : Z;
  first : bool;
  kpgdir : Z;
  env : E
}.

Definition set_kmach (v : mach) (s : kst) : kst :=
  Kst v (procs s) (nextpid s) (initproc s) (ticks s) (rnext s) (first s) (kpgdir s) (env s).
Definition set_procs (v : list proc) (s : kst) : kst :=
  Kst (kmach s) v (nextpid s) (initproc s) (ticks s) (rnext s) (first s) (kpgdir s) (env s).
Definition set_nextpid (v : Z) (s : kst) : kst :=
  Kst (kmach s) (procs s) v (initproc s) (ticks s) (rnext s) (first s) (kpgdir s) (env s).
Definition set_initproc (v : option nat) (s : kst) : kst :=
  Kst (kmach s) (procs s) (nextpid s) v (ticks s) (rnext s) (first s) (kpgdir s) (env s).
Definition set_ticks (v : Z) (s : kst) : kst :=
  Kst (kmach s) (procs s) (nextpid s) (initproc s) v (rnext s) (first s) (kpgdir s) (env s).
Definition set_rnext (v : Z) (s : kst) : kst :=
  Kst (kmach s) (procs s) (nextpid s) (initproc s) (ticks s) v (first s) (kpgdir s) (env s).
Definition set_first (v : bool) (s : kst) : kst :=
  Kst (kmach s) (procs s) (nextpid s) (initproc s) (ticks s) (rnext s) v (kpgdir s) (env s).
Definition set_kpgdir (v : Z) (s : kst) : kst :=
  Kst (kmach s) (procs s) (nextpid s) (initproc s) (ticks s) (rnext s) (first s) v (env s).
Definition set_env (v : E) (s : kst) : kst :=
  Kst (kmach s) (procs s) (nextpid s) (initproc s) (ticks s) (rnext s) (first s) (kpgdir s) v.

Definition K (A : Type) : Type := M kst A.

(** Calls into the lock layer and into the other components. *)
Definition onmach {A} (m : M mach A) : K A := zoom kmach set_kmach m.
Definition onenv {A} (m : M E A) : K A := zoom env set_env m.

Definition getproc (i : nat) : K proc :=
  ps ← gets procs; deref "proc pointer" (ps !! i).
Definition updproc (i : nat) (f : proc -> proc) : K () :=
  p ← getproc i; modify (fun s => set_procs (<[i := f p]> (procs s)) s).

(** [myproc()] where the code dereferences the result. *)
Definition curproc (c : nat) : K nat :=
  o ← onmach (myproc c); deref "myproc() is null" o.

Definition wakeup (c : nat) (ch : channel) : K () :=
  onmach (acquire c ptable_lock);;
  modify (fun s => set_procs (wakeup1 (Some ch) (procs s)) s);;
  onmach (release c ptable_lock).

Fixpoint wakeups (c : nat) (chs : list channel) : K () :=
  match chs with
  | [] => ret ()
  | ch :: chs => wakeup c ch;; wakeups c chs
  end.

Definition pinit : K () := onmach (initlock ptable_lock "ptable").

(** [uptime] reads the tick counter under its lock. *)
Definition uptime (c : nat) : K Z :=
  onmach (acquire c tickslock);;
  xticks ← gets ticks;
  onmach (release c tickslock);;
  ret (s32 xticks).

(** ** Creating processes *)

Definition allocproc (c : nat) : K (option nat) :=
  onmach (acquire c ptable_lock);;
  ps ← gets procs;
  match find_unused 0 ps with
  | None => onmach (release c ptable_lock);; ret None
  | Some p =>
      updproc p (set_state EMBRYO);;
      n ← gets nextpid;
      updproc p (set_pid n);;
      modify (set_nextpid (s32 (n + 1)));;
      onmach (release c ptable_lock);;
      ks ← onenv env_kalloc;
      updproc p (set_kstack ks);;
      if ks =? 0 then updproc p (set_state UNUSED);; ret None else
      let sp := u32 (ks + KSTACKSIZE) in
      let sp := u32 (sp - SIZEOF_TRAPFRAME) in
      updproc p (set_tf sp);;
      let sp := u32 (sp - 4) in
      let sp := u32 (sp - SIZEOF_CONTEXT) in
      updproc p (set_context sp);;
      updproc p (set_kctx AtForkret);;
      d ← onenv env_cmostime;
      updproc p (set_begin_date d);;
      updproc p (set_ticks_begin 0);;
      updproc p (set_ticks_total 0);;
      updproc p (set_sched_times 0);;
      updproc p (set_nice_value DEFAULT_NICE_VALUE);;
      ret (Some p)
  end.

(** The trap frame of the first process: segment selectors of user code and
    data, interrupts on, stack at the end of the page, entry at 0. *)
Definition SEG_UCODE : Z := 3.
Definition SEG_UDATA : Z := 4.
Definition DPL_USER : Z := 3.
Definition init_tf : trapframe :=
  let ds := Z.lor (Z.shiftl SEG_UDATA 3) DPL_USER in
  Trapframe 0 0 0 0 0 0 0 0 0 0 ds ds 0 0 0 (Z.lor (Z.shiftl SEG_UCODE 3) DPL_USER) FL_IF PGSIZE ds.

(** The bytes of "initcode" and the terminating NUL. *)
Definition initcode_name : list Z := [105; 110; 105; 116; 99; 111; 100; 101; 0].

Definition userinit (c : nat) : K () :=
  o ← allocproc c;
  modify (set_initproc o);;
  pg ← onenv env_setupkvm;
  p ← deref "userinit: no process" o;
  updproc p (set_pgdir pg);;
  if pg =? 0 then panic "userinit: out of memory?" else
  onenv (env_inituvm pg);;
  updproc p (set_sz PGSIZE);;
  updproc p (set_tfv init_tf);;
  q ← getproc p;
  nm ← deref "name" (safestrcpy (name q) initcode_name NAMELEN);
  updproc p (set_name nm);;
  ip ← onenv env_namei_root;
  updproc p (set_cwd (Some ip));;
  onmach (acquire c ptable_lock);;
  updproc p (set_state RUNNABLE);;
  onmach (release c ptable_lock).

(** [for(i = 0; i < NOFILE; i++) if(curproc->ofile[i]) np->ofile[i] = filedup(...);] *)
Fixpoint fork_files (cur np : nat) (fds : list nat) : K () :=
  match fds with
  | [] => ret ()
  | i :: fds =>
      p ← getproc cur;
      f ← deref "ofile index" (ofile p !! i);
      match f with
      | None => fork_files cur np fds
      | Some f =>
          f' ← onenv (env_filedup f);
          updproc np (fun q => set_ofile (<[i := Some f']> (ofile q)) q);;
          fork_files cur np fds
      end
  end.

(** [fork] until it takes the table lock: the running process and the new
    one, or [None] where [fork] returns -1. *)
Definition fork_begin (c : nat) : K (option (nat * nat)) :=
  cur ← curproc c;
  o ← allocproc c;
  match o with
  | None => ret None
  | Some np =>
      p ← getproc cur;
      pg ← onenv (env_copyuvm (pgdir p) (sz p));
      updproc np (set_pgdir pg);;
      if pg =? 0 then
        q ← getproc np;
        onenv (env_kfree (kstack q));;
        updproc np (set_kstack 0);;
        updproc np (set_state UNUSED);;
        ret None
      else
      updproc np (set_sz (sz p));;
      updproc np (set_parent (Some cur));;
      updproc np (set_tfv (tfv p));;
      updproc np (fun q => set_tfv (set_tf_eax 0 (tfv q)) q);;
      fork_files cur np (seq 0 NOFILE);;
      d ← deref "idup" (cwd p);
      d' ← onenv (env_idup d);
      updproc np (set_cwd (Some d'));;
      q ← getproc np;
      nm ← deref "name" (safestrcpy (name q) (name p) NAMELEN);
      updproc np (set_name nm);;
      ret (Some (cur, np))
  end.

(** The rest of [fork]: the process becomes runnable. *)
Definition fork_end (c np : nat) : K Z :=
  q ← getproc np;
  let n := pid q in
  onmach (acquire c ptable_lock);;
  updproc np (set_state RUNNABLE);;
  q ← getproc np;
  pp ← deref "parent" (parent q);
  pa ← getproc pp;
  updproc np (set_nice_value (nice_value pa));;
  onmach (release c ptable_lock);;
  ret n.

Definition fork (c : nat) : K Z :=
  o ← fork_begin c;
  match o with
  | None => ret (-1)
  | Some (cur, np) => fork_end c np
  end.

(** ** Giving up the CPU *)

(** [sched] up to the [swtch] to the scheduler thread; the thread will
    continue behind it. *)
Definition sched_save (c : nat) (after : kafter) : K () :=
  p ← curproc c;
  h ← onmach (holding c ptable_lock);
  if negb h then panic "sched ptable.lock" else
  i ← onmach (mycpu c);
  k ← onmach (this_cpu i);
  if negb (ncli k =? 1) then panic "sched locks" else
  q ← getproc p;
  if decide (state q = RUNNING) then panic "sched running" else
  f ← onmach (read_if c);
  if negb (f =? 0) then panic "sched interruptible" else
  i ← onmach (mycpu c);
  k ← onmach (this_cpu i);
  updproc p (set_kctx (InSched (intena k) after)).

(** [sched] behind the [swtch]. *)
Definition sched_restore (c : nat) (ie : Z) : K () :=
  i ← onmach (mycpu c);
  onmach (upd_cpu i (set_intena ie)).

Definition yield_save (c : nat) : K () :=
  onmach (acquire c ptable_lock);;
  p ← curproc c;
  updproc p (set_state RUNNABLE);;
  sched_save c AfterYield.

(** [sleep] up to the switch. *)
Definition sleep_save (c : nat) (ch : option channel) (lk : option lockid) (after : kafter) : K () :=
  o ← onmach (myproc c);
  match o, lk with
  | None, _ => panic "sleep"
  | Some _, None => panic "sleep without lk"
  | Some p, Some lk =>
      when (bool_decide (lk <> ptable_lock))
        (onmach (acquire c ptable_lock);; onmach (release c lk));;
      updproc p (set_chan ch);;
      updproc p (set_state SLEEPING);;
      sched_save c after
  end.

(** [sleep] behind [sched]. *)
Definition sleep_restore (c p : nat) (lk : lockid) : K () :=
  updproc p (set_chan None);;
  when (bool_decide (lk <> ptable_lock))
    (onmach (release c ptable_lock);; onmach (acquire c lk)).

Definition sleep (c : nat) (ch : channel) (lk : lockid) : K () :=
  sleep_save c (Some ch) (Some lk) (AfterSleep lk).

(** ** Exit and wait *)

Fixpoint exit_close (c cur : nat) (fds : list nat) : K () :=
  match fds with
  | [] => ret ()
  | fd :: fds =>
      p ← getproc cur;
      f ← deref "ofile index" (ofile p !! fd);
      match f with
      | None => exit_close c cur fds
      | Some f =>
          chs ← onenv (env_fileclose f);
          wakeups c chs;;
          updproc cur (fun p => set_ofile (<[fd := None]> (ofile p)) p);;
          exit_close c cur fds
      end
  end.

(** [exit] until it takes the table lock. *)
Definition exit_files (c : nat) : K nat :=
  cur ← curproc c;
  init ← gets initproc;
  if decide (Some cur = init) then panic "init exiting" else
  exit_close c cur (seq 0 NOFILE);;
  p ← getproc cur;
  d ← deref "iput" (cwd p);
  chs ← onenv (env_iput_op d);
  wakeups c chs;;
  updproc cur (set_cwd None);;
  ret cur.

(** The rest of [exit], up to the switch from which it never returns. *)
Definition exit_zombie (c cur : nat) : K () :=
  onmach (acquire c ptable_lock);;
  p ← getproc cur;
  modify (fun s => set_procs (wakeup1 (ChanProc <$> parent p) (procs s)) s);;
  modify (fun s => set_procs (reparent cur (initproc s) (procs s)) s);;
  updproc cur (set_state ZOMBIE);;
  sched_save c AfterExit.

Definition exit (c : nat) : K () :=
  cur ← exit_files c;
  exit_zombie c cur.

(** One turn of the loop of [wait], entered with the table lock held: the
    value [wait] returns, or [None] when it went to sleep. *)
Definition wait_turn (c cur : nat) : K (option Z) :=
  ps ← gets procs;
  match wait_scan cur false 0 ps with
  | Found i =>
      p ← getproc i;
      let n := pid p in
      onenv (env_kfree (kstack p));;
      updproc i (set_kstack 0);;
      onenv (env_freevm (pgdir p));;
      updproc i (set_pid 0);;
      updproc i (set_parent None);;
      updproc i (fun p => set_name (<[0%nat := 0]> (name p)) p);;
      updproc i (set_killed 0);;
      updproc i (set_state UNUSED);;
      onmach (release c ptable_lock);;
      ret (Some n)
  | NotFound havekids =>
      q ← getproc cur;
      if negb havekids || negb (killed q =? 0) then
        onmach (release c ptable_lock);; ret (Some (-1))
      else
        sleep_save c (Some (ChanProc cur)) (Some ptable_lock) AfterWait;; ret None
  end.

Definition wait (c : nat) : K (option Z) :=
  cur ← curproc c;
  onmach (acquire c ptable_lock);;
  wait_turn c cur.

(** ** The scheduler *)

Definition SEG_KDATA : Z := 2.

(** [switchuvm]: the kernel stack and the address space of [p].  The TSS
    descriptor it also writes always points to the CPU's own task state. *)
Definition switchuvm (c p : nat) : K () :=
  q ← getproc p;
  if kstack q =? 0 then panic "switchuvm: no kstack" else
  if pgdir q =? 0 then panic "switchuvm: no pgdir" else
  onmach (
    pushcli c;;
    i ← mycpu c;
    upd_cpu i (set_ts (Z.shiftl SEG_KDATA 3) (u32 (kstack q + KSTACKSIZE)) 65535);;
    upd_cpu c (set_cr3 (V2P (pgdir q)));;
    popcli c).

Definition switchkvm (c : nat) : K () :=
  pg ← gets kpgdir;
  onmach (upd_cpu c (set_cr3 (V2P pg))).

(** An iteration of the lottery [scheduler] up to the [swtch] to the chosen
    process ([Some p], the table lock stays held), or to its end when there
    is nothing to run ([None]).  [running_total] is the uninitialised local. *)
Definition scheduler_pick (c : nat) (running_total : Z) : K (option nat) :=
  onmach (sti c);;
  onmach (acquire c ptable_lock);;
  ps ← gets procs;
  if 0 <? nice_sum ps then
    nx ← gets rnext;
    modify (set_rnext (snd (rand nx)));;
    let rand_num := u32 (Z.rem (fst (rand nx)) (nice_sum ps) + 1) in
    match lottery_scan rand_num running_total 0 0 ps with
    | None => onmach (release c ptable_lock);; ret None
    | Some p =>
        onmach (upd_cpu c (set_cproc (Some p)));;
        switchuvm c p;;
        updproc p (set_state RUNNING);;
        t ← uptime c;
        updproc p (set_ticks_begin (u32 t));;
        updproc p (fun q => set_sched_times (u32 (sched_times q + 1)) q);;
        ret (Some p)
    end
  else onmach (release c ptable_lock);; ret None.

(** The rest of the iteration, when [p] has switched back. *)
Definition scheduler_return (c p : nat) : K () :=
  switchkvm c;;
  t ← uptime c;
  updproc p (fun q => set_ticks_total (u32 (ticks_total q + (t - ticks_begin q))) q);;
  onmach (upd_cpu c (set_cproc None));;
  onmach (release c ptable_lock).

Definition forkret (c : nat) : K () :=
  onmach (release c ptable_lock);;
  b ← gets first;
  when b (modify (set_first false);; onenv env_fsinit).

(** The thread of [p] goes on, on the CPU that dispatched it, until it has
    released the table lock ([Back], with the result if [wait] returned), has
    the lock of its [sleep] again ([BackLocked]), or sleeps again in [wait]
    ([Asleep]). *)
Definition resume (c p : nat) : K resumed :=
  q ← getproc p;
  match kctx q with
  | AtForkret => forkret c;; ret (Back None)
  | InSched ie after =>
      sched_restore c ie;;
      match after with
      | AfterYield => onmach (release c ptable_lock);; ret (Back None)
      | AfterExit => panic "zombie exit"
      | AfterWait =>
          sleep_restore c p ptable_lock;;
          r ← wait_turn c p;
          ret (match r with Some n => Back (Some n) | None => Asleep end)
      | AfterSleep lk => sleep_restore c p lk;; ret (BackLocked lk)
      end
  end.

(** The clock interrupt of [trap], entered with interrupts off: CPU 0 counts
    the tick and wakes the sleepers. *)
Definition timer_intr (c : nat) : K () :=
  i ← onmach (cpuid c);
  when (Nat.eqb i 0)
    (onmach (acquire c tickslock);;
     modify (fun s => set_ticks (u32 (ticks s + 1)) s);;
     wakeup c chan_ticks;;
     onmach (release c tickslock)).

(** ** Operations on other processes *)

Definition kill (c : nat) (n : Z) : K Z :=
  onmach (acquire c ptable_lock);;
  ps ← gets procs;
  match find_pid n 0 ps with
  | Some i =>
      updproc i (set_killed 1);;
      p ← getproc i;
      when (bool_decide (state p = SLEEPING)) (updproc i (set_state RUNNABLE));;
      onmach (release c ptable_lock);;
      ret 0
  | None => onmach (release c ptable_lock);; ret (-1)
  end.

Definition renice (c : nat) (nice_val n : Z) : K Z :=
  if (nice_val <? MIN_NICE_VALUE) || (MAX_NICE_VALUE <? nice_val) then ret 1 else
  onmach (acquire c ptable_lock);;
  ps ← gets procs;
  modify (set_procs (renice_proc nice_val n <$> ps));;
  onmach (release c ptable_lock);;
  ret (if existsb (renice_match n) ps then 0 else 2).

Definition growproc (c : nat) (n : Z) : K Z :=
  cur ← curproc c;
  p ← getproc cur;
  if 0 <? n then
    sz' ← onenv (env_allocuvm (pgdir p) (sz p) (u32 (sz p + n)));
    if sz' =? 0 then ret (-1) else
    updproc cur (set_sz sz');; switchuvm c cur;; ret 0
  else if n <? 0 then
    sz' ← onenv (env_deallocuvm (pgdir p) (sz p) (u32 (sz p + n)));
    if sz' =? 0 then ret (-1) else
    updproc cur (set_sz sz');; switchuvm c cur;; ret 0
  else updproc cur (set_sz (sz p));; switchuvm c cur;; ret 0.

End kernel.
Arguments kst E : clear implicits.
Arguments K E A : clear implicits.
