(* ===== verification/ProcSpec.v ===== *)
(** An abstract process system: what the process code promises, without
    locks, memory and files.

    A process is its state, identity, parent, sleep channel and the few facts
    later code relies on; every CPU is in a phase.  The steps are the critical
    sections of [proc.c].  The file proves the invariant of the system;
    [ProcSim] shows that the code refines it. *)

From stdpp Require Import functions.
From S2P Require Import Prelude Layout Spinlock Proc.

(** ** States *)

Record pview := PV {
  v_state : procstate;
  v_pid : Z;
  v_parent : option nat;
  v_chan : option channel;
  v_killed : bool;
  v_after : option kafter;  (* None: the process starts at forkret *)
  v_nice : Z;
  v_ks : bool;  (* has a kernel stack *)
  v_pg : bool;  (* has a page table *)
  v_cwd : bool  (* has a current directory *)
}.

(** What a CPU is doing between two steps. *)
Inductive kphase : Type :=
| Booting                          (* main() before userinit() *)
| Looping                          (* the loop of scheduler() *)
| Running (p : nat)                (* process p, outside the locks *)
| Locked (p : nat) (lk : lockid).  (* p inside a section locked by lk *)

Definition phase_proc (ph : kphase) : option nat :=
  match ph with
  | Booting | Looping => None
  | Running p | Locked p _ => Some p
  end.

(** Where a process is inside a system call that has several critical
    sections; it keeps its place when it is preempted. *)
Inductive position : Type :=
| Outside
| InFork (np : nat)  (* fork() has filled entry np *)
| InExit.            (* exit() has closed the files *)

Record asys := Asys {
  a_procs : list pview;
  a_nextpid : Z;
  a_init : option nat;
  a_phases : list kphase;
  a_pos : nat -> position
}.

(** ** Entry updates *)

Definition v_set_state (x : procstate) (v : pview) : pview :=
  PV x (v_pid v) (v_parent v) (v_chan v) (v_killed v) (v_after v) (v_nice v) (v_ks v) (v_pg v) (v_cwd v).
Definition v_set_parent (x : option nat) (v : pview) : pview :=
  PV (v_state v) (v_pid v) x (v_chan v) (v_killed v) (v_after v) (v_nice v) (v_ks v) (v_pg v) (v_cwd v).
Definition v_set_nice (x : Z) (v : pview) : pview :=
  PV (v_state v) (v_pid v) (v_parent v) (v_chan v) (v_killed v) (v_after v) x (v_ks v) (v_pg v) (v_cwd v).
Definition v_set_cwd (x : bool) (v : pview) : pview :=
  PV (v_state v) (v_pid v) (v_parent v) (v_chan v) (v_killed v) (v_after v) (v_nice v) (v_ks v) (v_pg v) x.

(** Waking the sleepers on a channel. *)
Definition v_wake (ch : option channel) (v : pview) : pview :=
  if decide (v_state v = SLEEPING /\ v_chan v = ch) then v_set_state RUNNABLE v else v.

(** A process gives up the CPU in state [x] and will continue at [after]. *)
Definition v_stop (x : procstate) (ch : option channel) (after : kafter) (v : pview) : pview :=
  PV x (v_pid v) (v_parent v) ch (v_killed v) (Some after) (v_nice v) (v_ks v) (v_pg v) (v_cwd v).

(** A process gets the CPU.  Behind [sleep] it clears its channel. *)
Definition v_go (v : pview) : pview :=
  let ch := match v_after v with Some AfterWait | Some (AfterSleep _) => None | _ => v_chan v end in
  PV RUNNING (v_pid v) (v_parent v) ch (v_killed v) (v_after v) (v_nice v) (v_ks v) (v_pg v) (v_cwd v).

(** [kill] marks a process and wakes it. *)
Definition v_kill (v : pview) : pview :=
  PV (if decide (v_state v = SLEEPING) then RUNNABLE else v_state v)
     (v_pid v) (v_parent v) (v_chan v) true (v_after v) (v_nice v) (v_ks v) (v_pg v) (v_cwd v).

(** [wait] frees the entry of an exited child. *)
Definition v_reap (v : pview) : pview :=
  PV UNUSED 0 None (v_chan v) false (v_after v) (v_nice v) false (v_pg v) (v_cwd v).

(** [fork] fills an unused entry. *)
Definition v_embryo (n : Z) (par : option nat) (v : pview) : pview :=
  PV EMBRYO n par (v_chan v) (v_killed v) None DEFAULT_NICE_VALUE true true true.

(** A failed [fork] leaves the entry unused, with a new pid. *)
Definition v_failed (n : Z) (v v' : pview) : Prop :=
  v_state v' = UNUSED /\ v_parent v' = v_parent v /\ v_pid v' = n.

(** The children of [cur] become children of init, which is woken if one of
    them has already exited. *)
Definition v_adopt (cur : nat) (init : option nat) (v : pview) : pview :=
  if decide (v_parent v = Some cur) then v_set_parent init v else v.
Definition v_zombie_child (cur : nat) (v : pview) : bool :=
  bool_decide (v_parent v = Some cur /\ v_state v = ZOMBIE).
Definition a_reparent (cur : nat) (init : option nat) (vs : list pview) : list pview :=
  let vs' := v_adopt cur init <$> vs in
  if existsb (v_zombie_child cur) vs then v_wake (ChanProc <$> init) <$> vs' else vs'.

(** [exit]: wake the parent, give the children away, become a zombie. *)
Definition a_exit (cur : nat) (v : pview) (init : option nat) (vs : list pview) : list pview :=
  alter (fun w => v_stop ZOMBIE (v_chan w) AfterExit w) cur
    (a_reparent cur init (v_wake (ChanProc <$> v_parent v) <$> vs)).

(** The phase in which a dispatched process continues. *)
Definition go_phase (p : nat) (o : option kafter) : kphase :=
  match o with Some (AfterSleep lk) => Locked p lk | _ => Running p end.

(** ** Steps

    Pids are handed out until the counter reaches [INT_MAX]. *)

Inductive astep : asys -> asys -> Prop :=
| A_dispatch vs n ini phs pos c i v :
    phs !! c = Some Looping -> vs !! i = Some v -> v_state v = RUNNABLE ->
    astep (Asys vs n ini phs pos)
          (Asys (<[i := v_go v]> vs) n ini (<[c := go_phase i (v_after v)]> phs) pos)
| A_yield vs n ini phs pos c i v :
    phs !! c = Some (Running i) -> vs !! i = Some v ->
    astep (Asys vs n ini phs pos)
          (Asys (<[i := v_stop RUNNABLE (v_chan v) AfterYield v]> vs) n ini (<[c := Looping]> phs) pos)
| A_sleep vs n ini phs pos c i v ch lk :
    phs !! c = Some (Locked i lk) -> vs !! i = Some v ->
    astep (Asys vs n ini phs pos)
          (Asys (<[i := v_stop SLEEPING (Some ch) (AfterSleep lk) v]> vs) n ini
                (<[c := Looping]> phs) pos)
| A_wait_sleep vs n ini phs pos c i v :
    phs !! c = Some (Running i) -> vs !! i = Some v -> v_killed v = false ->
    (forall j w, vs !! j = Some w -> v_parent w = Some i -> v_state w <> ZOMBIE) ->
    astep (Asys vs n ini phs pos)
          (Asys (<[i := v_stop SLEEPING (Some (ChanProc i)) AfterWait v]> vs) n ini
                (<[c := Looping]> phs) pos)
| A_reap vs n ini phs pos c i j v :
    phs !! c = Some (Running i) -> vs !! j = Some v ->
    v_parent v = Some i -> v_state v = ZOMBIE ->
    astep (Asys vs n ini phs pos) (Asys (<[j := v_reap v]> vs) n ini phs pos)
| A_wake vs n ini phs pos ch :
    astep (Asys vs n ini phs pos) (Asys (v_wake (Some ch) <$> vs) n ini phs pos)
| A_kill vs n ini phs pos i v :
    vs !! i = Some v ->
    astep (Asys vs n ini phs pos) (Asys (<[i := v_kill v]> vs) n ini phs pos)
| A_renice vs n ini phs pos f :
    (forall v, exists x, f v = v_set_nice x v /\
       (v_state v <> UNUSED -> x = v_nice v \/ MIN_NICE_VALUE <= x <= MAX_NICE_VALUE)) ->
    astep (Asys vs n ini phs pos) (Asys (f <$> vs) n ini phs pos)
| A_fork_begin vs n ini phs pos c i j w :
    phs !! c = Some (Running i) -> pos i = Outside ->
    vs !! j = Some w -> v_state w = UNUSED -> n < INT_MAX ->
    astep (Asys vs n ini phs pos)
          (Asys (<[j := v_embryo n (Some i) w]> vs) (n + 1) ini phs (<[i := InFork j]> pos))
| A_fork_fail vs n ini phs pos j w w' :
    vs !! j = Some w -> v_state w = UNUSED -> v_failed n w w' -> n < INT_MAX ->
    astep (Asys vs n ini phs pos) (Asys (<[j := w']> vs) (n + 1) ini phs pos)
| A_fork_end vs n ini phs pos c i j v w :
    phs !! c = Some (Running i) -> pos i = InFork j -> vs !! i = Some v -> vs !! j = Some w ->
    astep (Asys vs n ini phs pos)
          (Asys (<[j := v_set_nice (v_nice v) (v_set_state RUNNABLE w)]> vs) n ini phs
                (<[i := Outside]> pos))
| A_exit_files vs n ini phs pos c i v :
    phs !! c = Some (Running i) -> pos i = Outside -> vs !! i = Some v -> ini <> Some i ->
    astep (Asys vs n ini phs pos)
          (Asys (<[i := v_set_cwd false v]> vs) n ini phs (<[i := InExit]> pos))
| A_exit vs n ini phs pos c i v :
    phs !! c = Some (Running i) -> pos i = InExit -> vs !! i = Some v ->
    astep (Asys vs n ini phs pos)
          (Asys (a_exit i v ini vs) n ini (<[c := Looping]> phs) (<[i := Outside]> pos))
| A_lock vs n ini phs pos c i lk :
    phs !! c = Some (Running i) -> lk <> ptable_lock ->
    astep (Asys vs n ini phs pos) (Asys vs n ini (<[c := Locked i lk]> phs) pos)
| A_unlock vs n ini phs pos c i lk :
    phs !! c = Some (Locked i lk) ->
    astep (Asys vs n ini phs pos) (Asys vs n ini (<[c := Running i]> phs) pos)
| A_userinit vs n phs pos c i v :
    phs !! c = Some Booting -> vs !! i = Some v -> v_state v = UNUSED -> n < INT_MAX ->
    astep (Asys vs n None phs pos)
          (Asys (<[i := v_set_state RUNNABLE (v_embryo n (v_parent v) v)]> vs) (n + 1) (Some i)
                (<[c := Looping]> phs) pos).

(** ** The invariant *)

Definition live (v : pview) : Prop := v_state v <> UNUSED.
(** A process that can have children. *)
Definition adult (v : pview) : Prop :=
  v_state v <> UNUSED /\ v_state v <> EMBRYO /\ v_state v <> ZOMBIE.
(** A process that is off the CPU and will get it again. *)
Definition waiting (v : pview) : Prop := v_state v = RUNNABLE \/ v_state v = SLEEPING.

(** What every entry has. *)
Definition entry_ok (n : Z) (v : pview) : Prop :=
  (v_state v = UNUSED -> v_parent v = None) /\
  (v_state v = EMBRYO -> v_after v = None /\ v_cwd v = true) /\
  (live v -> 1 <= v_pid v < n /\ MIN_NICE_VALUE <= v_nice v <= MAX_NICE_VALUE /\
     v_ks v = true /\ v_pg v = true) /\
  (waiting v -> v_after v <> Some AfterExit /\
     v_after v <> Some (AfterSleep ptable_lock)).

(** Pids are unique, and the processes form a tree: everyone but init has a
    parent that is older and can still wait for it. *)
Record tree_inv (ini : option nat) (vs : list pview) : Prop := {
  t_pid : forall i j v w, vs !! i = Some v -> vs !! j = Some w ->
    live v -> live w -> v_pid v = v_pid w -> i = j;
  t_parent : forall i v, vs !! i = Some v -> live v -> ini <> Some i ->
    exists j w, v_parent v = Some j /\ vs !! j = Some w /\ adult w /\ v_pid w < v_pid v;
  t_init : forall i, ini = Some i -> exists v, vs !! i = Some v /\ adult v /\
    v_parent v = None /\ forall j w, vs !! j = Some w -> live w -> j <> i -> v_pid v < v_pid w;
  t_noinit : ini = None -> forall i v, vs !! i = Some v -> v_state v = UNUSED
}.

(** CPUs and the processes they run. *)
Record cpu_inv (ini : option nat) (vs : list pview) (phs : list kphase) : Prop := {
  c_cpu : forall c ph i, phs !! c = Some ph -> phase_proc ph = Some i ->
    exists v, vs !! i = Some v /\ v_state v = RUNNING;
  c_inj : forall c1 c2 ph1 ph2 i, phs !! c1 = Some ph1 -> phs !! c2 = Some ph2 ->
    phase_proc ph1 = Some i -> phase_proc ph2 = Some i -> c1 = c2;
  c_run : forall i v, vs !! i = Some v -> v_state v = RUNNING ->
    exists c ph, phs !! c = Some ph /\ phase_proc ph = Some i;
  c_locked : forall c p lk, phs !! c = Some (Locked p lk) -> lk <> ptable_lock;
  c_boot : forall c, phs !! c = Some Booting -> ini = None;
  c_boot_inj : forall c1 c2, phs !! c1 = Some Booting -> phs !! c2 = Some Booting -> c1 = c2
}.

(** Processes inside [fork] and [exit]. *)
Record pos_inv (ini : option nat) (vs : list pview) (pos : nat -> position) : Prop := {
  p_fork : forall p j, pos p = InFork j ->
    exists v, vs !! j = Some v /\ v_state v = EMBRYO /\ v_parent v = Some p;
  p_exit : forall p, pos p = InExit -> ini <> Some p;
  p_adult : forall p, pos p <> Outside -> exists v, vs !! p = Some v /\ adult v;
  p_cwd : forall i v, vs !! i = Some v -> adult v -> pos i <> InExit -> v_cwd v = true
}.

(** No lost wakeup: a process asleep in [wait] has no exited child and has
    not been killed. *)
Definition wait_inv (vs : list pview) : Prop := forall i v,
  vs !! i = Some v -> v_state v = SLEEPING -> v_after v = Some AfterWait ->
  v_chan v = Some (ChanProc i) /\ v_killed v = false /\
  forall j w, vs !! j = Some w -> v_parent w = Some i -> v_state w <> ZOMBIE.

Record ainv (a : asys) : Prop := {
  ai_next : 1 <= a_nextpid a <= INT_MAX;
  ai_entry : Forall (entry_ok (a_nextpid a)) (a_procs a);
  ai_tree : tree_inv (a_init a) (a_procs a);
  ai_cpu : cpu_inv (a_init a) (a_procs a) (a_phases a);
  ai_pos : pos_inv (a_init a) (a_procs a) (a_pos a);
  ai_wait : wait_inv (a_procs a)
}.

(** ** Entries *)

(** Entry [j] after [exit] of [cur], from what it was. *)
Definition exit_entry (cur : nat) (v : pview) (ini : option nat) (z : bool) (j : nat) (w : pview) : pview :=
  let w1 := v_adopt cur ini (v_wake (ChanProc <$> v_parent v) w) in
  let w2 := if z then v_wake (ChanProc <$> ini) w1 else w1 in
  if decide (j = cur) then v_stop ZOMBIE (v_chan w2) AfterExit w2 else w2.

Definition exit_orphan (cur : nat) (v : pview) (vs : list pview) : bool :=
  existsb (v_zombie_child cur) (v_wake (ChanProc <$> v_parent v) <$> vs).

Lemma exit_orphan_true cur v vs j w :
  vs !! j = Some w -> v_parent w = Some cur -> v_state w = ZOMBIE -> exit_orphan cur v vs = true.
Proof.
  intros Hj Hp Hs. apply existsb_exists. exists (v_wake (ChanProc <$> v_parent v) w).
  split.
  - apply list_elem_of_In, list_elem_of_fmap. exists w. split; [done|].
    by eapply list_elem_of_lookup_2.
  - unfold v_wake. rewrite decide_False by (intros [? _]; congruence).
    by apply bool_decide_eq_true.
Qed.

Lemma lookup_a_exit cur v ini vs j :
  a_exit cur v ini vs !! j = exit_entry cur v ini (exit_orphan cur v vs) j <$> vs !! j.
Proof.
  unfold a_exit, a_reparent, exit_entry, exit_orphan.
  destruct (decide (j = cur)) as [->|Hne];
    [rewrite list_lookup_alter_eq|rewrite list_lookup_alter_ne by done];
    destruct (existsb _ _); rewrite !list_lookup_fmap; by destruct (vs !! _).
Qed.

(** Case analysis on lookups in updated tables. *)
Ltac look1 :=
  match goal with
  | H : <[_ := _]> _ !! _ = Some _ |- _ =>
      apply list_lookup_insert_Some in H as [(? & ? & ?)|(? & ?)]; subst
  | H : (_ <$> _) !! _ = Some _ |- _ =>
      rewrite list_lookup_fmap in H; apply fmap_Some in H as (? & ? & ?); subst
  | H : a_exit _ _ _ _ !! _ = Some _ |- _ =>
      rewrite lookup_a_exit in H; apply fmap_Some in H as (? & ? & ?); subst
  end.
Ltac look := repeat look1; simplify_eq/=.

Lemma v_wake_same ch v :
  v_pid (v_wake ch v) = v_pid v /\ v_parent (v_wake ch v) = v_parent v /\
  v_chan (v_wake ch v) = v_chan v /\ v_killed (v_wake ch v) = v_killed v /\
  v_after (v_wake ch v) = v_after v /\ v_nice (v_wake ch v) = v_nice v /\
  v_ks (v_wake ch v) = v_ks v /\ v_pg (v_wake ch v) = v_pg v /\ v_cwd (v_wake ch v) = v_cwd v.
Proof. unfold v_wake. by case_decide. Qed.

Lemma v_wake_state ch v :
  v_state (v_wake ch v) = v_state v \/
  (v_state v = SLEEPING /\ v_chan v = ch /\ v_state (v_wake ch v) = RUNNABLE).
Proof. unfold v_wake. case_decide as Hs; [right; by destruct Hs|by left]. Qed.

(** ** Entries stay well formed *)

(** Entry facts: use the implications whose premise is decided by a known
    state. *)
Ltac entry :=
  unfold entry_ok, live, waiting, v_failed in *; cbn in *; destruct_and?;
  repeat match goal with
  | H : ?P -> _ |- _ =>
      match type of P with Prop => idtac end;
      let HP := fresh in
      assert (HP : P) by (congruence || (left; congruence) || (right; congruence));
      specialize (H HP); clear HP; destruct_and?
  end;
  split_and?; intros; destruct_or?; destruct_and?; split_and?; congruence || lia || auto.

Lemma entry_ok_mono n n' v : n <= n' -> entry_ok n v -> entry_ok n' v.
Proof. intros Hn (H1 & H2 & H3 & H4). split_and!; auto. intros Hl. destruct (H3 Hl). split; [lia|done]. Qed.

Lemma entry_ok_wake n ch v : entry_ok n v -> entry_ok n (v_wake ch v).
Proof.
  intros (H1 & H2 & H3 & H4). unfold v_wake. case_decide as Hs; [|done].
  destruct Hs as [Hs _]. unfold entry_ok, live, waiting in *; cbn. rewrite Hs in *.
  split_and!; try done; intros; [apply H3|apply H4]; auto.
Qed.

Lemma entry_ok_adopt n cur ini v : entry_ok n v -> entry_ok n (v_adopt cur ini v).
Proof.
  intros (H1 & H2 & H3 & H4). unfold v_adopt. case_decide as Hp; [|done].
  split_and!; try done. cbn. intros Hs. rewrite H1 in Hp by done. done.
Qed.

Lemma entry_ok_stop n v x ch after :
  entry_ok n v -> v_state v = RUNNING -> 
  (x = ZOMBIE \/ ((x = RUNNABLE \/ x = SLEEPING) /\ after <> AfterExit /\
     after <> AfterSleep ptable_lock)) ->
  entry_ok n (v_stop x ch after v).
Proof.
  intros (H1 & H2 & H3 & H4) Hs Hx. unfold entry_ok, live, waiting in *; cbn. rewrite Hs in *.
  assert (Hl : 1 <= v_pid v < n ∧ MIN_NICE_VALUE <= v_nice v <= MAX_NICE_VALUE ∧ v_ks v = true ∧ v_pg v = true)
    by by apply H3.
  destruct Hx as [->|([->| ->] & Ha & Hb)]; split_and!; try done; try congruence;
    intros; destruct_or?; split_and?; congruence.
Qed.

Lemma entry_ok_go n v : entry_ok n v -> v_state v = RUNNABLE -> entry_ok n (v_go v).
Proof. intros. entry. Qed.

Lemma entry_ok_kill n v : entry_ok n v -> entry_ok n (v_kill v).
Proof.
  intros Hv. unfold v_kill. case_decide as Hs; [entry|]. by destruct v.
Qed.

Lemma entry_ok_nice n x v :
  entry_ok n v -> (v_state v <> UNUSED -> MIN_NICE_VALUE <= x <= MAX_NICE_VALUE) ->
  entry_ok n (v_set_nice x v).
Proof. unfold entry_ok, live, waiting. cbn. intros (H1 & H2 & H3 & H4) Hx. split_and!; auto. intros Hl. destruct (H3 Hl) as (? & ? & ? & ?). auto. Qed.

Lemma entry_ok_runnable n v :
  entry_ok n v -> v_state v = EMBRYO -> entry_ok n (v_set_state RUNNABLE v).
Proof. intros. entry. Qed.

Lemma entry_ok_embryo n par v : 1 <= n -> entry_ok (n + 1) (v_embryo n par v).
Proof.
  unfold entry_ok, live, waiting, MIN_NICE_VALUE, MAX_NICE_VALUE; cbn.
  unfold DEFAULT_NICE_VALUE. intros. split_and!; try done; intros _; split_and!; (done || lia).
Qed.

Lemma entry_ok_failed n n' v v' :
  entry_ok n v -> v_state v = UNUSED -> v_failed n v v' -> entry_ok n' v'.
Proof.
  intros. entry.
Qed.

Lemma entry_ok_exit n cur v ini z j w :
  entry_ok n w -> (j = cur -> v_state w = RUNNING) -> entry_ok n (exit_entry cur v ini z j w).
Proof.
  intros Hw Hr. unfold exit_entry.
  set (w1 := v_adopt cur ini _).
  set (w2 := if z then v_wake (ChanProc <$> ini) w1 else w1).
  assert (H1 : entry_ok n w1) by by apply entry_ok_adopt, entry_ok_wake.
  assert (H2 : entry_ok n w2) by (subst w2; destruct z; [by apply entry_ok_wake|done]).
  case_decide as Hj; [|done]. apply entry_ok_stop; [done| |by left].
  subst w2 w1. specialize (Hr Hj). unfold v_adopt, v_wake.
  destruct z; repeat case_decide; cbn in *; try done; destruct_and?; congruence.
Qed.

(** ** The process tree *)

Definition tame (v w : pview) : Prop :=
  v_pid w = v_pid v /\ v_parent w = v_parent v /\ (live w <-> live v) /\ (adult v -> adult w).

Lemma tree_tame ini vs ws : Forall2 tame vs ws -> tree_inv ini vs -> tree_inv ini ws.
Proof.
  intros Hf [Hpid Hpar Hini Hno]. split.
  - intros i j v w Hi Hj Hv Hw Heq.
    destruct (Forall2_lookup_r _ _ _ _ _ Hf Hi) as (v0 & Hi0 & Hv0 & _ & Hlv & _).
    destruct (Forall2_lookup_r _ _ _ _ _ Hf Hj) as (w0 & Hj0 & Hw0 & _ & Hlw & _).
    apply (Hpid i j v0 w0); [done|done|by apply Hlv|by apply Hlw|congruence].
  - intros i v Hi Hv Hne.
    destruct (Forall2_lookup_r _ _ _ _ _ Hf Hi) as (v0 & Hi0 & Hv0 & Hp & Hlv & _).
    destruct (Hpar i v0) as (j & w0 & Hj & Hw & Ha & Hlt); [done|by apply Hlv|done|].
    destruct (Forall2_lookup_l _ _ _ _ _ Hf Hw) as (w & Hjw & Hpw & _ & _ & Haw).
    exists j, w. split_and!; [congruence|done|auto|lia].
  - intros i Hi. destruct (Hini i Hi) as (v0 & Hv0 & Ha & Hp & Hmin).
    destruct (Forall2_lookup_l _ _ _ _ _ Hf Hv0) as (v & Hv & Hpid0 & Hpar0 & _ & Ha').
    exists v. split_and!; [done|auto|congruence|]. intros j w Hj Hl Hne.
    destruct (Forall2_lookup_r _ _ _ _ _ Hf Hj) as (w0 & Hj0 & Hw0 & _ & Hlw & _).
    rewrite Hpid0, Hw0. apply (Hmin j w0); [done|by apply Hlw|done].
  - intros Hi i w Hw. destruct (Forall2_lookup_r _ _ _ _ _ Hf Hw) as (w0 & Hj0 & _ & _ & Hlw & _).
    apply dec_stable. intros Hl. apply Hlw in Hl. apply Hl. by eapply Hno.
Qed.

Lemma tame_refl v : tame v v.
Proof. done. Qed.

Lemma tame_insert vs i v w : vs !! i = Some v -> tame v w -> Forall2 tame vs (<[i := w]> vs).
Proof.
  intros Hi Ht. rewrite <- (list_insert_id vs i v) at 1 by done.
  apply Forall2_insert; [|done]. by apply Forall_Forall2_diag, Forall_true.
Qed.

Lemma tame_fmap vs f : (forall v, tame v (f v)) -> Forall2 tame vs (f <$> vs).
Proof. intros Hf. apply Forall2_fmap_r, Forall_Forall2_diag, Forall_true. exact Hf. Qed.

Lemma tame_wake ch v : tame v (v_wake ch v).
Proof.
  unfold v_wake. case_decide as Hs; [|apply tame_refl]. destruct Hs as [Hs _].
  unfold tame, live, adult. cbn. rewrite Hs. done.
Qed.

Lemma tame_kill v : tame v (v_kill v).
Proof.
  unfold v_kill, tame, live, adult. cbn. case_decide as Hs; [rewrite Hs|]; done.
Qed.

Lemma tame_nice x v : tame v (v_set_nice x v).
Proof. done. Qed.

(** Changes between the states of a process that has been created and has not
    exited. *)
Lemma tame_state v w :
  v_pid w = v_pid v -> v_parent w = v_parent v -> live v -> adult w -> tame v w.
Proof. intros ? ? Hv Ha. split_and!; try done. split; [done|]. intros _. apply Ha. Qed.

Lemma exit_entry_facts cur v ini z j w :
  v_pid (exit_entry cur v ini z j w) = v_pid w /\
  v_parent (exit_entry cur v ini z j w) =
    (if decide (v_parent w = Some cur) then ini else v_parent w) /\
  (j <> cur -> (live (exit_entry cur v ini z j w) <-> live w) /\
     (adult w -> adult (exit_entry cur v ini z j w)) /\
     (v_state (exit_entry cur v ini z j w) = ZOMBIE <-> v_state w = ZOMBIE)).
Proof.
  unfold exit_entry, v_adopt, v_wake, live, adult. destruct w as [st n par ch kl af ni ks pg cw].
  destruct z; cbn; repeat (case_decide; cbn in * ); destruct_and?; simplify_eq/=;
    split_and!; try done; intros; try done; split_and!; done.
Qed.

Lemma exit_entry_run cur v ini z j w :
  (v_state (exit_entry cur v ini z j w) = RUNNING <-> j <> cur /\ v_state w = RUNNING) /\
  v_cwd (exit_entry cur v ini z j w) = v_cwd w.
Proof.
  unfold exit_entry, v_adopt, v_wake. destruct w as [st n par ch kl af ni ks pg cw].
  destruct z; cbn; repeat (case_decide; cbn in * ); destruct_and?; simplify_eq/=; naive_solver.
Qed.

Lemma exit_entry_adult cur v ini z j w :
  adult (exit_entry cur v ini z j w) -> adult w.
Proof.
  unfold exit_entry, v_adopt, v_wake, adult. destruct w as [st n par ch kl af ni ks pg cw].
  destruct z; cbn; repeat (case_decide; cbn in * ); destruct_and?; simplify_eq/=; naive_solver.
Qed.

Lemma exit_entry_embryo cur v ini z j w :
  j <> cur -> v_state w = EMBRYO -> v_parent w <> Some cur -> exit_entry cur v ini z j w = w.
Proof.
  intros Hj Hs Hp. unfold exit_entry, v_adopt, v_wake.
  rewrite (decide_False (P:=v_state w = SLEEPING /\ _)) by (intros [? _]; congruence).
  rewrite (decide_False (P:=v_parent w = Some cur)) by done.
  rewrite (decide_False (P:=j = cur)) by done.
  destruct z; [|done]. by rewrite decide_False by (intros [? _]; congruence).
Qed.

(** An entry that is not a parent and not init is freed. *)
Lemma tree_free ini vs j v w :
  tree_inv ini vs -> vs !! j = Some v -> ~ adult v -> v_state w = UNUSED ->
  tree_inv ini (<[j := w]> vs).
Proof.
  intros [Hpid Hpar Hini Hno] Hj Hna Hw.
  assert (Hdead : ~ live w) by (unfold live; congruence).
  assert (Hij : ini <> Some j).
  { intros Hi. destruct (Hini j Hi) as (u & Hu & Ha & _). congruence. }
  assert (Hkeep : forall k u, vs !! k = Some u -> adult u -> <[j:=w]> vs !! k = Some u).
  { intros k u Hk Hu. rewrite list_lookup_insert_ne; [done|]. intros ->. congruence. }
  split.
  - intros i k u x Hi Hk Hu Hx. look; eauto.
  - intros i u Hi Hu Hne. look. destruct (Hpar i u) as (k & x & ? & ? & ? & ?); eauto 10.
  - intros i Hi. destruct (Hini i Hi) as (u & Hu & Ha & Hp & Hmin).
    exists u. split_and!; auto. intros k x Hk Hx Hne. look. eauto.
  - intros Hi i u Hu. look; eauto.
Qed.

(** A new process gets a fresh pid and a parent. *)
Lemma tree_new ini vs i j p v w n :
  tree_inv ini vs -> Forall (entry_ok n) vs ->
  vs !! j = Some v -> v_state v = UNUSED ->
  vs !! i = Some p -> adult p -> v_pid w = n -> v_parent w = Some i -> live w ->
  tree_inv ini (<[j := w]> vs).
Proof.
  intros [Hpid Hpar Hini Hno] He Hj Hun Hi Hp Hn Hw Hl.
  assert (Hlt : forall k u, vs !! k = Some u -> live u -> v_pid u < n).
  { intros k u Hk Hu. by apply (Forall_lookup_1 _ _ _ _ He Hk). }
  assert (Hkeep : forall k u, vs !! k = Some u -> live u -> <[j:=w]> vs !! k = Some u).
  { intros k u Hk Hu. rewrite list_lookup_insert_ne; [done|]. intros ->. unfold live in *. congruence. }
  assert (Hadl : forall u, adult u -> live u) by (intros u Hu; apply Hu).
  split.
  - intros k1 k2 u x Hk1 Hk2 Hu Hx Heq. look; eauto;
      match goal with Hk : vs !! _ = Some ?q, Hq : live ?q |- _ => specialize (Hlt _ _ Hk Hq); lia end.
  - intros k u Hk Hu Hne. look.
    + exists i, p. split_and!; eauto.
    + destruct (Hpar k u) as (k' & x & ? & ? & ? & ?); eauto 10.
  - intros k Hk. destruct (Hini k Hk) as (u & Hu & Ha & Hpu & Hmin).
    exists u. split_and!; auto. intros k' x Hk' Hx Hne. look; eauto.
  - intros Hno'. destruct Hp as [Hp _]. by destruct Hp; eapply Hno.
Qed.

(** The children of a process that exits move to init. *)
Lemma tree_exit ini vs cur v :
  tree_inv ini vs -> vs !! cur = Some v -> v_state v = RUNNING -> ini <> Some cur ->
  tree_inv ini (a_exit cur v ini vs).
Proof.
  intros [Hpid Hpar Hini Hno] Hcur Hs Hne.
  destruct ini as [i0|]; [|by rewrite (Hno eq_refl _ _ Hcur) in Hs].
  destruct (Hini i0 eq_refl) as (v0 & Hv0 & Ha0 & Hp0 & Hmin).
  assert (Hne0 : i0 <> cur) by congruence.
  pose proof (lookup_a_exit cur v (Some i0) vs) as Hlk.
  pose proof (exit_entry_facts cur v (Some i0) (exit_orphan cur v vs)) as Hfacts.
  set (F := exit_entry cur v (Some i0) (exit_orphan cur v vs)) in *. clearbody F.
  set (ws := a_exit cur v (Some i0) vs) in *. clearbody ws.
  assert (Hlive : forall j w, vs !! j = Some w -> live (F j w) -> live w).
  { intros j w Hj. destruct (decide (j = cur)) as [->|Hjc].
    - rewrite Hcur in Hj. injection Hj as <-. unfold live. by rewrite Hs.
    - by apply Hfacts. }
  assert (Hinv : forall j w, ws !! j = Some w -> exists u, vs !! j = Some u /\ w = F j u).
  { intros j w. rewrite Hlk. intros (u & ? & ->)%fmap_Some. eauto. }
  assert (Hfwd : forall j w, vs !! j = Some w -> ws !! j = Some (F j w)).
  { intros j w Hj. by rewrite Hlk, Hj. }
  split.
  - intros i j u w (u' & Hi & ->)%Hinv (w' & Hj & ->)%Hinv Hu Hw Heq.
    rewrite !(proj1 (Hfacts _ _)) in Heq. eauto.
  - intros i w (u & Hi & ->)%Hinv Hu Hii.
    destruct (Hfacts i u) as (Hfp & Hfpar & _). rewrite Hfp, Hfpar.
    destruct (Hpar i u) as (k & w & Hk & Hw & Haw & Hlt); [done|eauto|done|].
    case_decide as Hc.
    + exists i0, (F i0 v0). rewrite (proj1 (Hfacts _ _)). split_and!; [done|auto| |].
      * by apply Hfacts.
      * apply (Hmin i); [done|eauto|congruence].
    + exists k, (F k w). rewrite (proj1 (Hfacts _ _)). split_and!; [done|auto| |done].
      apply Hfacts; [congruence|done].
  - intros i [= <-]. exists (F i0 v0). destruct (Hfacts i0 v0) as (Hfp & Hfpar & Hf).
    rewrite Hfp, Hfpar, Hp0. split_and!; [auto|by apply Hf|by case_decide|].
    intros j w (u & Hj & ->)%Hinv Hw Hji. rewrite (proj1 (Hfacts _ _)). eauto.
  - done.
Qed.

(** The first process has no parent. *)
Lemma tree_first vs i w :
  tree_inv None vs -> (i < length vs)%nat -> adult w -> v_parent w = None ->
  tree_inv (Some i) (<[i := w]> vs).
Proof.
  intros [_ _ _ Hno] Hi Ha Hp. specialize (Hno eq_refl).
  assert (Hdead : forall j u, vs !! j = Some u -> ~ live u) by (intros j u Hj Hl; by apply Hl, (Hno j)).
  split.
  - intros j k u x Hj Hk Hu Hx _. look; try done; exfalso; eauto.
  - intros j u Hj Hu Hne. look; try done; exfalso; eauto.
  - intros j [= <-]. exists w. rewrite list_lookup_insert_eq by done. split_and!; auto.
    intros j u Hj Hu Hne. look; try done; exfalso; eauto.
  - done.
Qed.

(** ** CPUs *)

(** An entry stays with its CPU. *)
Definition calm (v w : pview) : Prop := v_state w = RUNNING <-> v_state v = RUNNING.

Lemma calm_wake ch v : calm v (v_wake ch v).
Proof.
  unfold v_wake. case_decide as Hs; [|done]. destruct Hs as [Hs _].
  unfold calm. cbn. rewrite Hs. done.
Qed.

Lemma calm_kill v : calm v (v_kill v).
Proof. unfold calm, v_kill. cbn. case_decide as Hs; [rewrite Hs|]; done. Qed.

Lemma calm_idle v w : v_state v <> RUNNING -> v_state w <> RUNNING -> calm v w.
Proof. unfold calm. tauto. Qed.

(** The table changes, the CPUs do not. *)
Lemma cpu_calm ini vs ws phs : Forall2 calm vs ws -> cpu_inv ini vs phs -> cpu_inv ini ws phs.
Proof.
  intros Hf [H1 H2 H3 H4 H5 H6]. split; try done.
  - intros c ph i Hc Hp. destruct (H1 c ph i Hc Hp) as (v & Hv & Hs).
    destruct (Forall2_lookup_l _ _ _ _ _ Hf Hv) as (w & Hw & Hr). exists w. split; [done|].
    by apply Hr.
  - intros i w Hw Hs. destruct (Forall2_lookup_r _ _ _ _ _ Hf Hw) as (v & Hv & Hr).
    apply (H3 i v Hv). by apply Hr.
Qed.

Lemma calm_insert vs i v w : vs !! i = Some v -> calm v w -> Forall2 calm vs (<[i := w]> vs).
Proof.
  intros Hi Ht. rewrite <- (list_insert_id vs i v) at 1 by done.
  apply Forall2_insert; [|done]. by apply Forall_Forall2_diag, Forall_true.
Qed.

Lemma calm_fmap vs f : (forall v, calm v (f v)) -> Forall2 calm vs (f <$> vs).
Proof. intros Hf. apply Forall2_fmap_r, Forall_Forall2_diag, Forall_true. exact Hf. Qed.

(** Process [i] leaves its CPU. *)
Lemma cpu_stop ini vs ws phs c ph i :
  cpu_inv ini vs phs -> phs !! c = Some ph -> phase_proc ph = Some i ->
  (forall j w, ws !! j = Some w -> v_state w = RUNNING ->
     j <> i /\ exists v, vs !! j = Some v /\ v_state v = RUNNING) ->
  (forall j v, vs !! j = Some v -> j <> i -> v_state v = RUNNING ->
     exists w, ws !! j = Some w /\ v_state w = RUNNING) ->
  cpu_inv ini ws (<[c := Looping]> phs).
Proof.
  intros [H1 H2 H3 H4 H5 H6] Hc Hp Hback Hfwd. split.
  - intros c' ph' i' Hc' Hp'. look. destruct (H1 c' ph' i') as (v & Hv & Hs); [done..|].
    eapply Hfwd; [done| |done]. intros ->. eauto.
  - intros c1 c2 ph1 ph2 i' Hc1 Hc2 Hp1 Hp2. look. eauto.
  - intros j w Hw Hs. destruct (Hback j w Hw Hs) as (Hji & v & Hv & Hsv).
    destruct (H3 j v Hv Hsv) as (c' & ph' & Hc' & Hp'). exists c', ph'.
    rewrite list_lookup_insert_ne; [done|]. intros ->. congruence.
  - intros c' p lk Hc'. look. eauto.
  - intros c' Hc'. look. eauto.
  - intros c1 c2 Hc1 Hc2. look. eauto.
Qed.

(** CPU [c] takes process [i] off the scheduler's table. *)
Lemma cpu_go ini vs phs c i v w ph :
  cpu_inv ini vs phs -> phs !! c = Some Looping -> vs !! i = Some v ->
  v_state v <> RUNNING -> v_state w = RUNNING ->
  ph = Running i \/ (exists lk, ph = Locked i lk /\ lk <> ptable_lock) ->
  cpu_inv ini (<[i := w]> vs) (<[c := ph]> phs).
Proof.
  intros [H1 H2 H3 H4 H5 H6] Hc Hv Hnr Hr Hph.
  assert (Hpp : phase_proc ph = Some i) by (destruct Hph as [->|(lk & -> & _)]; done).
  assert (Hlt : (i < length vs)%nat) by by eapply lookup_lt_Some.
  assert (Hclt : (c < length phs)%nat) by by eapply lookup_lt_Some.
  assert (Hfree : forall c' ph', phs !! c' = Some ph' -> phase_proc ph' <> Some i).
  { intros c' ph' Hc' Hp'. destruct (H1 c' ph' i) as (? & ? & ?); [done..|]. congruence. }
  split.
  - intros c' ph' i' Hc' Hp'. look.
    + exists w. rewrite list_lookup_insert_eq; [done|congruence].
    + destruct (H1 c' ph' i') as (u & Hu & Hs); [done..|]. exists u.
      rewrite list_lookup_insert_ne; [done|]. intros ->. by eapply Hfree.
  - intros c1 c2 ph1 ph2 i' Hc1 Hc2 Hp1 Hp2. look; try done.
    + exfalso. by eapply Hfree.
    + exfalso. by eapply Hfree.
    + eauto.
  - intros j u Hj Hs. look.
    + exists c, ph. by rewrite list_lookup_insert_eq.
    + destruct (H3 j u) as (c' & ph' & Hc' & Hp'); [done..|]. exists c', ph'.
      rewrite list_lookup_insert_ne; [done|]. intros ->. by simplify_eq/=.
  - intros c' p lk Hc'. look; [|eauto]. destruct Hph as [?|(?&?&?)]; congruence.
  - intros c' Hc'. look; try (by destruct Hph as [?|(?&?&?)]); eauto.
  - intros c1 c2 Hc1 Hc2. look; try done; try (by destruct Hph as [?|(?&?&?)]); eauto.
Qed.

(** CPU [c] goes on with the same process. *)
Lemma cpu_phase ini vs phs c ph ph' i :
  cpu_inv ini vs phs -> phs !! c = Some ph -> phase_proc ph = Some i -> phase_proc ph' = Some i ->
  (forall p lk, ph' = Locked p lk -> lk <> ptable_lock) ->
  cpu_inv ini vs (<[c := ph']> phs).
Proof.
  intros [H1 H2 H3 H4 H5 H6] Hc Hp Hp' Hph.
  assert (Hclt : (c < length phs)%nat) by by eapply lookup_lt_Some.
  split.
  - intros c' q i' Hc' Hq. look; eauto.
  - intros c1 c2 q1 q2 i' Hc1 Hc2 Hq1 Hq2. look; eauto.
  - intros i' w Hw Hs. destruct (H3 i' w Hw Hs) as (c' & q & Hc' & Hq).
    destruct (decide (c' = c)) as [->|Hne].
    + exists c, ph'. rewrite list_lookup_insert_eq by done. split; [done|congruence].
    + exists c', q. by rewrite list_lookup_insert_ne.
  - intros c' p lk Hc'. look; eauto.
  - intros c' Hc'. look; eauto.
  - intros c1 c2 Hc1 Hc2. look; eauto.
Qed.

(** The boot CPU enters the scheduler. *)
Lemma cpu_boot vs phs c i w :
  cpu_inv None vs phs -> (forall j v, vs !! j = Some v -> v_state v = UNUSED) ->
  phs !! c = Some Booting -> v_state w = RUNNABLE ->
  cpu_inv (Some i) (<[i := w]> vs) (<[c := Looping]> phs).
Proof.
  intros [H1 H2 H3 H4 H5 H6] Hun Hc Hs.
  assert (Hnone : forall c' ph', phs !! c' = Some ph' -> phase_proc ph' = None).
  { intros c' ph' Hc'. destruct (phase_proc ph') as [j|] eqn:Hp; [|done].
    destruct (H1 c' ph' j) as (v & Hv & Hr); [done..|]. rewrite (Hun j v Hv) in Hr. done. }
  split.
  - intros c' ph j Hc' Hp. look. rewrite (Hnone c' ph) in Hp by done. done.
  - intros c1 c2 ph1 ph2 j Hc1 Hc2 Hp1 Hp2. look. rewrite (Hnone c1 ph1) in Hp1 by done. done.
  - intros j v Hv Hr. look; [congruence|]. rewrite (Hun j v) in Hr by done. done.
  - intros c' p lk Hc'. look. by specialize (Hnone _ _ H0).
  - intros c' Hc'. look. destruct H. by eapply H6.
  - intros c1 c2 Hc1 Hc2. look. eauto.
Qed.

(** ** Positions *)

(** An entry keeps its place in the system calls. *)
Definition placid (v w : pview) : Prop :=
  (v_state v = EMBRYO -> v_state w = EMBRYO /\ v_parent w = v_parent v) /\
  (adult v -> adult w) /\ (adult w -> adult v /\ v_cwd w = v_cwd v).

Lemma placid_refl v : placid v v.
Proof. by split_and!. Qed.

Lemma pos_placid ini vs ws pos : Forall2 placid vs ws -> pos_inv ini vs pos -> pos_inv ini ws pos.
Proof.
  intros Hf [H1 H2 H3 H4]. split; [|done|..].
  - intros p j Hp. destruct (H1 p j Hp) as (v & Hv & Hs & Hpar).
    destruct (Forall2_lookup_l _ _ _ _ _ Hf Hv) as (w & Hw & He & _). destruct (He Hs) as [Hsw Hpw].
    exists w. split_and!; congruence.
  - intros p Hp. destruct (H3 p Hp) as (v & Hv & Ha).
    destruct (Forall2_lookup_l _ _ _ _ _ Hf Hv) as (w & Hw & _ & Hag & _). eauto.
  - intros i w Hw Ha Hp. destruct (Forall2_lookup_r _ _ _ _ _ Hf Hw) as (v & Hv & _ & _ & Hb).
    destruct (Hb Ha) as [Hav ->]. eauto.
Qed.

Lemma placid_insert vs i v w : vs !! i = Some v -> placid v w -> Forall2 placid vs (<[i := w]> vs).
Proof.
  intros Hi Ht. rewrite <- (list_insert_id vs i v) at 1 by done.
  apply Forall2_insert; [|done]. apply Forall_Forall2_diag, Forall_true, placid_refl.
Qed.

Lemma placid_fmap vs f : (forall v, placid v (f v)) -> Forall2 placid vs (f <$> vs).
Proof. intros Hf. apply Forall2_fmap_r, Forall_Forall2_diag, Forall_true. exact Hf. Qed.

Lemma placid_adult v w : adult v -> adult w -> v_cwd w = v_cwd v -> placid v w.
Proof. intros Hv Hw Hc. split_and!; auto. intros Hs. destruct Hv as (_ & ? & _). done. Qed.

Lemma placid_wake ch v : placid v (v_wake ch v).
Proof.
  unfold v_wake. case_decide as Hs; [|apply placid_refl]. destruct Hs as [Hs _].
  apply placid_adult; [|done|done]. unfold adult. by rewrite Hs.
Qed.

Lemma placid_kill v : placid v (v_kill v).
Proof.
  unfold v_kill, placid, adult. cbn. case_decide as Hs; [rewrite Hs|]; naive_solver.
Qed.

(** Entries that were not and are not processes that can have children. *)
Lemma placid_idle v w : v_state v <> EMBRYO -> ~ adult v -> ~ adult w -> placid v w.
Proof. unfold placid. tauto. Qed.

(** [fork] fills entry [j]. *)
Lemma pos_fork ini vs pos i j v w :
  pos_inv ini vs pos -> vs !! j = Some v -> v_state v = UNUSED ->
  (exists p, vs !! i = Some p /\ adult p) -> pos i = Outside ->
  v_state w = EMBRYO -> v_parent w = Some i ->
  pos_inv ini (<[j := w]> vs) (<[i := InFork j]> pos).
Proof.
  intros Hpi Hj Hv (p & Hp & Hpa) Hi Hw Hpar.
  assert (Hlt : (j < length vs)%nat) by by eapply lookup_lt_Some.
  assert (Hpi' : pos_inv ini (<[j := w]> vs) pos).
  { eapply pos_placid; [|done]. eapply placid_insert; [done|].
    apply placid_idle; [congruence|unfold adult; naive_solver..]. }
  assert (Hij : <[j := w]> vs !! i = Some p).
  { rewrite list_lookup_insert_ne; [done|]. intros ->. destruct Hpa. congruence. }
  destruct Hpi' as [H1 H2 H3 H4]. split.
  - intros q k. destruct (decide (q = i)) as [->|Hne];
      [rewrite fn_lookup_insert|rewrite fn_lookup_insert_ne by done; apply H1].
    intros [= <-]. exists w. by rewrite list_lookup_insert_eq.
  - intros q. destruct (decide (q = i)) as [->|Hne];
      [by rewrite fn_lookup_insert|rewrite fn_lookup_insert_ne by done; apply H2].
  - intros q. destruct (decide (q = i)) as [->|Hne]; [eauto|].
    rewrite fn_lookup_insert_ne by done. apply H3.
  - intros k u Hu Ha Hx. apply (H4 k u Hu Ha). destruct (decide (k = i)) as [->|Hne]; [congruence|].
    by rewrite fn_lookup_insert_ne in Hx.
Qed.

(** [fork] is done with entry [j]. *)
Lemma pos_born ini vs pos i j w w' :
  pos_inv ini vs pos -> pos i = InFork j -> vs !! j = Some w ->
  adult w' -> v_cwd w' = true ->
  pos_inv ini (<[j := w']> vs) (<[i := Outside]> pos).
Proof.
  intros [H1 H2 H3 H4] Hi Hj Ha Hc. destruct (H1 i j Hi) as (w0 & Hw0 & Hs & Hpar). simplify_eq.
  assert (Hlt : (j < length vs)%nat) by by eapply lookup_lt_Some.
  split.
  - intros q k. destruct (decide (q = i)) as [->|Hne];
      [by rewrite fn_lookup_insert|rewrite fn_lookup_insert_ne by done].
    intros Hq. destruct (H1 q k Hq) as (u & Hu & Hsu & Hpu). exists u.
    rewrite list_lookup_insert_ne; [done|]. intros ->. congruence.
  - intros q. destruct (decide (q = i)) as [->|Hne];
      [by rewrite fn_lookup_insert|rewrite fn_lookup_insert_ne by done; apply H2].
  - intros q. destruct (decide (q = i)) as [->|Hne];
      [by rewrite fn_lookup_insert|rewrite fn_lookup_insert_ne by done].
    intros Hq. destruct (H3 q Hq) as (u & Hu & Hau). exists u.
    rewrite list_lookup_insert_ne; [done|]. intros ->. destruct Hau as (_ & ? & _). congruence.
  - intros k u Hu Hau Hx. look; [done|]. apply (H4 k u); [done..|].
    destruct (decide (k = i)) as [->|Hne]; [congruence|]. by rewrite fn_lookup_insert_ne in Hx.
Qed.

(** [exit] has closed the files. *)
Lemma pos_exit_files ini vs pos i v w :
  pos_inv ini vs pos -> pos i = Outside -> vs !! i = Some v -> adult v -> adult w -> ini <> Some i ->
  pos_inv ini (<[i := w]> vs) (<[i := InExit]> pos).
Proof.
  intros [H1 H2 H3 H4] Hi Hv Ha Haw Hini.
  assert (Hlt : (i < length vs)%nat) by by eapply lookup_lt_Some.
  split.
  - intros q k. destruct (decide (q = i)) as [->|Hne];
      [by rewrite fn_lookup_insert|rewrite fn_lookup_insert_ne by done].
    intros Hq. destruct (H1 q k Hq) as (u & Hu & Hsu & Hpu). exists u.
    rewrite list_lookup_insert_ne; [done|]. intros ->. destruct Ha as (_ & ? & _). congruence.
  - intros q. destruct (decide (q = i)) as [->|Hne];
      [done|rewrite fn_lookup_insert_ne by done; apply H2].
  - intros q. destruct (decide (q = i)) as [->|Hne].
    + intros _. exists w. by rewrite list_lookup_insert_eq.
    + rewrite fn_lookup_insert_ne, list_lookup_insert_ne by done. apply H3.
  - intros k u Hu Hau Hx. look; [by rewrite fn_lookup_insert in Hx|].
    rewrite fn_lookup_insert_ne in Hx by done. eauto.
Qed.

(** [exit] is over. *)
Lemma pos_exited ini vs pos i v :
  pos_inv ini vs pos -> pos i = InExit -> vs !! i = Some v -> v_state v = RUNNING ->
  pos_inv ini (a_exit i v ini vs) (<[i := Outside]> pos).
Proof.
  intros [H1 H2 H3 H4] Hi Hv Hs. split.
  - intros q k. destruct (decide (q = i)) as [->|Hne];
      [by rewrite fn_lookup_insert|rewrite fn_lookup_insert_ne by done].
    intros Hq. destruct (H1 q k Hq) as (u & Hu & Hsu & Hpu). exists u.
    rewrite lookup_a_exit, Hu. cbn. split; [|done]. f_equal. apply exit_entry_embryo; congruence.
  - intros q. destruct (decide (q = i)) as [->|Hne];
      [by rewrite fn_lookup_insert|rewrite fn_lookup_insert_ne by done; apply H2].
  - intros q. destruct (decide (q = i)) as [->|Hne];
      [by rewrite fn_lookup_insert|rewrite fn_lookup_insert_ne by done].
    intros Hq. destruct (H3 q Hq) as (u & Hu & Hau). eexists. rewrite lookup_a_exit, Hu.
    split; [done|]. by apply exit_entry_facts.
  - intros k u Hu Hau Hx. look. destruct (decide (k = i)) as [->|Hne].
    { simplify_eq. exfalso. unfold exit_entry in Hau. rewrite decide_True in Hau by done.
      destruct Hau as (_ & _ & ?). done. }
    rewrite fn_lookup_insert_ne in Hx by done.
    rewrite (proj2 (exit_entry_run _ _ _ _ _ _)). eapply H4; [done| |done].
    by eapply exit_entry_adult.
Qed.

(** Before the first process nobody is in a system call. *)
Lemma pos_boot vs pos i w :
  pos_inv None vs pos -> (forall j v, vs !! j = Some v -> v_state v = UNUSED) -> v_cwd w = true ->
  pos_inv (Some i) (<[i := w]> vs) pos.
Proof.
  intros [_ _ H3 _] Hun Hc.
  assert (Hout : forall p, pos p = Outside).
  { intros p. destruct (pos p) eqn:Hp; [done|..]; destruct (H3 p) as (v & Hv & Ha); try congruence;
      by destruct Ha as [[] _]; eapply Hun. }
  split.
  - intros p j Hp. by rewrite Hout in Hp.
  - intros p Hp. by rewrite Hout in Hp.
  - intros p Hp. by rewrite Hout in Hp.
  - intros j v Hv Ha _. look; [done|]. by destruct Ha as [[] _]; eapply Hun.
Qed.

(** ** Sleepers in [wait] *)

Definition in_wait (v : pview) : Prop := v_state v = SLEEPING /\ v_after v = Some AfterWait.

Definition restful (v w : pview) : Prop :=
  (in_wait w -> in_wait v /\ v_chan w = v_chan v /\ v_killed w = v_killed v) /\
  (v_state w = ZOMBIE -> v_state v = ZOMBIE /\ v_parent w = v_parent v).

Lemma wait_restful vs ws : Forall2 restful vs ws -> wait_inv vs -> wait_inv ws.
Proof.
  intros Hf Hw i w Hi Hs Ha.
  destruct (Forall2_lookup_r _ _ _ _ _ Hf Hi) as (v & Hv & Hin & _).
  destruct Hin as ((Hsv & Hav) & Hch & Hkl); [done|].
  destruct (Hw i v Hv Hsv Hav) as (Hc & Hk & Hz). split_and!; [congruence..|].
  intros j u Hj Hp Hsu. destruct (Forall2_lookup_r _ _ _ _ _ Hf Hj) as (u0 & Hu0 & _ & Hz0).
  destruct (Hz0 Hsu) as [Hzs Hzp]. apply (Hz j u0); congruence.
Qed.

Lemma restful_awake v w : v_state w <> SLEEPING -> v_state w <> ZOMBIE -> restful v w.
Proof. unfold restful, in_wait. naive_solver. Qed.

Lemma restful_insert vs i v w : vs !! i = Some v -> restful v w -> Forall2 restful vs (<[i := w]> vs).
Proof.
  intros Hi Ht. rewrite <- (list_insert_id vs i v) at 1 by done.
  apply Forall2_insert; [|done]. apply Forall_Forall2_diag, Forall_true. by split.
Qed.

Lemma restful_fmap vs f : (forall v, restful v (f v)) -> Forall2 restful vs (f <$> vs).
Proof. intros Hf. apply Forall2_fmap_r, Forall_Forall2_diag, Forall_true. exact Hf. Qed.

Lemma restful_wake ch v : restful v (v_wake ch v).
Proof. unfold v_wake. case_decide; [by apply restful_awake|by split]. Qed.

Lemma restful_kill v : restful v (v_kill v).
Proof. unfold restful, in_wait, v_kill. cbn. case_decide; naive_solver. Qed.

(** Going to sleep in [wait] after a scan that found no exited child. *)
Lemma wait_sleep_inv vs i v :
  wait_inv vs -> vs !! i = Some v -> v_state v = RUNNING -> v_killed v = false ->
  (forall j w, vs !! j = Some w -> v_parent w = Some i -> v_state w <> ZOMBIE) ->
  wait_inv (<[i := v_stop SLEEPING (Some (ChanProc i)) AfterWait v]> vs).
Proof.
  intros Hw Hi Hs Hk Hz k u Hu Hsu Hau.
  assert (Hzom : forall j w, <[i := v_stop SLEEPING (Some (ChanProc i)) AfterWait v]> vs !! j = Some w ->
    v_state w = ZOMBIE -> vs !! j = Some w) by (intros j w Hj Hsw; by look).
  look.
  - split_and!; try done. intros j w Hj Hp Hsw. by apply (Hz j w); [apply Hzom|..].
  - destruct (Hw k u) as (Hc & Hkl & Hzk); [done..|]. split_and!; try done.
    intros j w Hj Hp Hsw. by apply (Hzk j w); [apply Hzom|..].
Qed.

(** What [exit] leaves asleep, and its zombies. *)
Lemma exit_entry_wait cur v ini z j w :
  in_wait (exit_entry cur v ini z j w) ->
  j <> cur /\ in_wait w /\ v_chan (exit_entry cur v ini z j w) = v_chan w /\
  v_killed (exit_entry cur v ini z j w) = v_killed w /\
  v_chan w <> ChanProc <$> v_parent v /\ (z = true -> v_chan w <> ChanProc <$> ini).
Proof.
  unfold exit_entry, v_adopt, v_wake, in_wait. destruct w as [st n par ch kl af ni ks pg cw].
  destruct z; cbn; repeat (case_decide; cbn in * ); intros [? ?]; simplify_eq/=;
    split_and!; try done; naive_solver.
Qed.

Lemma wait_exit ini vs cur v :
  wait_inv vs -> vs !! cur = Some v -> v_parent v <> Some cur ->
  wait_inv (a_exit cur v ini vs).
Proof.
  intros Hw Hcur Hself k u Hu Hs Ha. rewrite lookup_a_exit in Hu.
  apply fmap_Some in Hu as (u0 & Hu0 & ->).
  destruct (exit_entry_wait cur v ini _ k u0 (conj Hs Ha))
    as (Hk & [Hs0 Ha0] & Hc & Hkl & Hnp & Hni). rewrite Hc, Hkl.
  destruct (Hw k u0 Hu0 Hs0 Ha0) as (Hch & Hkk & Hz). split_and!; [done..|].
  intros j w Hj Hp Hsw. rewrite lookup_a_exit in Hj. apply fmap_Some in Hj as (w0 & Hw0 & ->).
  destruct (exit_entry_facts cur v ini (exit_orphan cur v vs) j w0) as (_ & Hpar & Hst).
  rewrite Hpar in Hp. destruct (decide (j = cur)) as [->|Hj].
  - rewrite Hcur in Hw0. injection Hw0 as <-. rewrite decide_False in Hp by done.
    rewrite Hp in Hnp. done.
  - apply Hst in Hsw; [|done]. case_decide as Hpc; [|by eapply Hz].
    subst ini. apply Hni; [|done]. by eapply exit_orphan_true.
Qed.

Section steps.
Context (a a' : asys) (Hinv : ainv a) (Hstep : astep a a').

Lemma running_entry c ph i v :
  a_phases a !! c = Some ph -> phase_proc ph = Some i -> a_procs a !! i = Some v ->
  v_state v = RUNNING /\ entry_ok (a_nextpid a) v.
Proof.
  intros Hc Hp Hv. destruct Hinv as [_ He _ Hcpu _ _].
  destruct (c_cpu _ _ _ Hcpu c ph i Hc Hp) as (w & Hw & Hs). rewrite Hv in Hw. injection Hw as <-.
  split; [done|]. by eapply Forall_lookup_1.
Qed.

Lemma step_next : 1 <= a_nextpid a' <= INT_MAX.
Proof. pose proof (ai_next _ Hinv). destruct Hstep; cbn in *; lia. Qed.

Lemma step_entries : Forall (entry_ok (a_nextpid a')) (a_procs a').
Proof.
  pose proof (ai_entry _ Hinv) as He. pose proof (ai_next _ Hinv) as Hn.
  pose proof running_entry as Hrun.
  assert (Hmono : forall n, a_nextpid a <= n -> Forall (entry_ok n) (a_procs a)).
  { intros n Hle. eapply Forall_impl; [done|]. intros. by eapply entry_ok_mono. }
  assert (Hlook : forall i v, a_procs a !! i = Some v -> entry_ok (a_nextpid a) v)
    by (intros; by eapply Forall_lookup_1).
  destruct Hstep; cbn in *; try (apply Forall_insert; [by (apply Hmono; lia) || done|]); try done;
    try (edestruct Hrun as (Hrs & Hre); [eassumption|done|eassumption|]).
  - apply entry_ok_go; eauto.
  - apply entry_ok_stop; [done..|]. right. split_and!; auto.
  - apply entry_ok_stop; [done..|]. right. split_and!; auto.
    pose proof (c_locked _ _ _ (ai_cpu _ Hinv) _ _ _ H). naive_solver.
  - apply entry_ok_stop; [done..|]. right. split_and!; auto.
  - split_and!; try done. by intros [|].
  - apply Forall_fmap. eapply Forall_impl; [done|]. intros. by apply entry_ok_wake.
  - apply entry_ok_kill; eauto.
  - apply Forall_fmap. eapply Forall_impl; [done|]. intros v Hv. cbn.
    destruct (H v) as (x & Hfx & Hx). rewrite Hfx. apply entry_ok_nice; [done|].
    intros Hl. destruct (Hx Hl) as [->|]; [|done]. by apply Hv.
  - apply entry_ok_embryo. lia.
  - eapply (entry_ok_failed n); eauto.
  - destruct (p_fork _ _ _ (ai_pos _ Hinv) _ _ H0) as (? & ? & ? & ?). simplify_eq/=.
    apply entry_ok_nice; [apply entry_ok_runnable; eauto|]. intros _. apply Hre.
    unfold live. by rewrite Hrs.
  - entry.
  - apply Forall_lookup. intros j w Hj. look. apply entry_ok_exit; [eauto|].
    intros ->. by simplify_eq.
  - apply entry_ok_runnable; [|done]. apply entry_ok_embryo. lia.
Qed.

Lemma step_tree : tree_inv (a_init a') (a_procs a').
Proof.
  pose proof (ai_tree _ Hinv) as Ht. pose proof running_entry as Hrun.
  destruct Hstep; cbn in *; try done;
    try (edestruct Hrun as (Hrs & _); [eassumption|done|eassumption|]);
    try (eapply tree_tame; [|done]; eapply tame_insert; [eassumption|];
         apply tame_state; [done|done|..]; unfold live, adult; cbn; congruence || (split_and!; congruence)).
  - eapply tree_free; [done..| |done]. unfold adult. naive_solver.
  - eapply tree_tame; [|done]. apply tame_fmap, tame_wake.
  - eapply tree_tame; [|done]. eapply tame_insert; [done|apply tame_kill].
  - eapply tree_tame; [|done]. apply tame_fmap. intros v. destruct (H v) as (x & -> & _).
    apply tame_nice.
  - destruct (c_cpu _ _ _ (ai_cpu _ Hinv) c (Running i) i) as (p & Hp & Hs); [done..|].
    eapply (tree_new _ _ i); [done|apply (ai_entry _ Hinv)|done..| |done|done|done].
    unfold adult. split_and!; congruence.
  - eapply tree_free; [done..| |]; [unfold adult; naive_solver|apply H1].
  - destruct (p_fork _ _ _ (ai_pos _ Hinv) _ _ H0) as (? & ? & Hs & ?). simplify_eq/=.
    eapply tree_tame; [|done]. eapply tame_insert; [done|].
    apply tame_state; try done. unfold live. congruence.
  - apply tree_exit; try done. by eapply (p_exit _ _ _ (ai_pos _ Hinv)).
  - apply tree_first; [done|by eapply lookup_lt_Some|done|].
    cbn. by apply (Forall_lookup_1 _ _ _ _ (ai_entry _ Hinv) H0).
Qed.

Lemma step_cpu : cpu_inv (a_init a') (a_procs a') (a_phases a').
Proof.
  pose proof (ai_cpu _ Hinv) as Hc. pose proof running_entry as Hrun.
  assert (Hstop : forall vs n ini phs pos c ph i v w, a = Asys vs n ini phs pos -> phs !! c = Some ph ->
    phase_proc ph = Some i -> vs !! i = Some v -> v_state w <> RUNNING ->
    cpu_inv ini (<[i := w]> vs) (<[c := Looping]> phs)).
  { intros vs n ini phs pos c ph i v w -> Hph Hp Hv Hw. eapply cpu_stop; [done..| |].
    - intros j u Hj Hs. look. eauto 10.
    - intros j u Hj Hne Hs. exists u. rewrite list_lookup_insert_ne; done. }
  destruct Hstep; cbn in *; try done; try (by eapply Hstop; [done..|]);
    try (edestruct Hrun as (Hrs & Hre); [eassumption|done|eassumption|]).
  - destruct (Forall_lookup_1 _ _ _ _ (ai_entry _ Hinv) H0) as (_ & _ & _ & Hw).
    destruct Hw as (_ & Hlk); [by left|].
    eapply cpu_go; [done..| | |]; try (cbn; congruence).
    unfold go_phase. destruct (v_after v) as [[| | |lk]|]; auto. right. exists lk. naive_solver.
  - eapply cpu_calm; [|done]. eapply calm_insert; [done|]. apply calm_idle; cbn; congruence.
  - eapply cpu_calm; [|done]. apply calm_fmap, calm_wake.
  - eapply cpu_calm; [|done]. eapply calm_insert; [done|apply calm_kill].
  - eapply cpu_calm; [|done]. apply calm_fmap. intros v. destruct (H v) as (x & -> & _). done.
  - eapply cpu_calm; [|done]. eapply calm_insert; [done|]. apply calm_idle; cbn; congruence.
  - eapply cpu_calm; [|done]. eapply calm_insert; [done|].
    destruct H1 as (Hs & _). apply calm_idle; congruence.
  - destruct (p_fork _ _ _ (ai_pos _ Hinv) _ _ H0) as (? & ? & Hs & ?). simplify_eq/=.
    eapply cpu_calm; [|done]. eapply calm_insert; [done|]. apply calm_idle; cbn; congruence.
  - by eapply cpu_calm; [eapply calm_insert|].
  - pose proof (exit_entry_run i v ini (exit_orphan i v vs)) as He.
    eapply cpu_stop; [done..| |].
    + intros j w Hj Hr. look. destruct (He j x) as [Hr' Hcw]. apply Hr' in Hr as [? ?]. eauto.
    + intros j w Hj Hne Hs. eexists. rewrite lookup_a_exit, Hj. split; [done|]. by apply He.
  - eapply (cpu_phase _ _ _ _ (Running i) _ i); try done. by intros ? ? [= <- <-].
  - by eapply (cpu_phase _ _ _ _ (Locked i lk) _ i).
  - apply cpu_boot; [done| |done|done]. by apply (t_noinit _ _ (ai_tree _ Hinv)).
Qed.

Lemma step_pos : pos_inv (a_init a') (a_procs a') (a_pos a').
Proof.
  pose proof (ai_pos _ Hinv) as Hp. pose proof running_entry as Hrun.
  assert (Hpl : forall vs n ini phs pos i v w, a = Asys vs n ini phs pos ->
    vs !! i = Some v -> placid v w -> pos_inv ini (<[i := w]> vs) pos).
  { intros vs n ini phs pos i v w -> Hv Hw. eapply pos_placid; [by eapply placid_insert|done]. }
  destruct Hstep; cbn in *; try done;
    try (edestruct Hrun as (Hrs & Hre); [eassumption|done|eassumption|]);
    try (eapply Hpl; [done|eassumption|]; apply placid_adult; unfold adult; cbn;
         (done || (split_and!; congruence))).
  - eapply Hpl; [done..|]. apply placid_idle; unfold adult; cbn; naive_solver congruence.
  - eapply pos_placid; [|done]. apply placid_fmap, placid_wake.
  - eapply Hpl; [done..|apply placid_kill].
  - eapply pos_placid; [|done]. apply placid_fmap. intros v. destruct (H v) as (x & -> & _).
    by split_and!.
  - destruct (c_cpu _ _ _ (ai_cpu _ Hinv) c (Running i) i) as (p & Hpi & Hs); [done..|].
    eapply pos_fork; try done. exists p. split; [done|]. unfold adult. by rewrite Hs.
  - eapply Hpl; [done..|]. destruct H1 as (Hs & _).
    apply placid_idle; unfold adult; naive_solver congruence.
  - destruct (p_fork _ _ _ Hp _ _ H0) as (? & ? & Hs & ?). simplify_eq/=.
    eapply pos_born; try done. cbn.
    by apply (Forall_lookup_1 _ _ _ _ (ai_entry _ Hinv) H2).
  - eapply pos_exit_files; try done; unfold adult; cbn; rewrite Hrs; done.
  - by eapply pos_exited.
  - apply pos_boot; [done|by apply (t_noinit _ _ (ai_tree _ Hinv))|done].
Qed.

Lemma step_wait : wait_inv (a_procs a').
Proof.
  pose proof (ai_wait _ Hinv) as Hw. pose proof running_entry as Hrun.
  destruct Hstep; cbn in *; try done;
    try (edestruct Hrun as (Hrs & _); [eassumption|done|eassumption|]);
    try (eapply wait_restful; [|done]; eapply restful_insert; [done|]; by apply restful_awake).
  - eapply wait_restful; [|done]. eapply restful_insert; [done|].
    unfold restful, in_wait; cbn; naive_solver.
  - by apply wait_sleep_inv.
  - eapply wait_restful; [|done]. apply restful_fmap, restful_wake.
  - eapply wait_restful; [|done]. eapply restful_insert; [done|apply restful_kill].
  - eapply wait_restful; [|done]. apply restful_fmap. intros v. destruct (H v) as (x & -> & _). done.
  - eapply wait_restful; [|done]. eapply restful_insert; [done|].
    destruct H1 as (Hs & _). apply restful_awake; congruence.
  - eapply wait_restful; [|done]. eapply restful_insert; [done|].
    apply restful_awake; cbn; congruence.
  - apply wait_exit; [done..|].
    intros Hp. destruct (t_parent _ _ (ai_tree _ Hinv) i v) as (j & w & Hj & Hwj & _ & Hlt);
      [done|unfold live; congruence|by eapply (p_exit _ _ _ (ai_pos _ Hinv))|].
    cbn in *. simplify_eq. lia.
Qed.

Lemma step_ainv : ainv a'.
Proof.
  split; [apply step_next|apply step_entries|apply step_tree|apply step_cpu|apply step_pos|
    apply step_wait].
Qed.
End steps.
