(* ===== verification/Table.v ===== *)
(** The loops over the process table: what [allocproc], [wait], [kill],
    [exit] and [wakeup1] find and change. *)

From S2P Require Import Prelude Layout Spinlock Proc.

(** ** Searches *)

Lemma find_unused_Some ps : forall k i,
  find_unused k ps = Some i -> exists j p, i = (k + j)%nat /\ ps !! j = Some p /\ state p = UNUSED /\
    forall j' q, (j' < j)%nat -> ps !! j' = Some q -> state q <> UNUSED.
Proof.
  induction ps as [|p ps IH]; intros k i H; cbn in H; [done|]. case_decide as Hs.
  - injection H as <-. exists O, p. split_and!; [lia|done|done|lia].
  - destruct (IH _ _ H) as (j & q & -> & Hj & Hq & Hmin). exists (S j), q. split_and!; [lia|done|done|].
    intros [|j'] r Hlt Hr; cbn in Hr; [by injection Hr as <-|]. apply (Hmin j'); [lia|done].
Qed.

Lemma find_unused_None ps : forall k, find_unused k ps = None <-> Forall (fun p => state p <> UNUSED) ps.
Proof.
  induction ps as [|p ps IH]; intros k; cbn; [done|]. rewrite Forall_cons, <- (IH (S k)).
  case_decide; naive_solver.
Qed.

Lemma find_pid_Some n ps : forall k i,
  find_pid n k ps = Some i -> exists j p, i = (k + j)%nat /\ ps !! j = Some p /\ pid p = n.
Proof.
  induction ps as [|p ps IH]; intros k i H; cbn in H; [done|]. destruct (Z.eqb_spec (pid p) n).
  - injection H as <-. exists O, p. split_and!; [lia|done|done].
  - destruct (IH _ _ H) as (j & q & -> & Hj & Hq). exists (S j), q. split_and!; [lia|done|done].
Qed.

Lemma find_pid_None n ps : forall k, find_pid n k ps = None <-> Forall (fun p => pid p <> n) ps.
Proof.
  induction ps as [|p ps IH]; intros k; cbn; [done|]. rewrite Forall_cons, <- (IH (S k)).
  destruct (Z.eqb_spec (pid p) n); naive_solver.
Qed.

Lemma wait_scan_Found cur ps : forall b k i,
  wait_scan cur b k ps = Found i ->
  exists j p, i = (k + j)%nat /\ ps !! j = Some p /\ parent p = Some cur /\ state p = ZOMBIE.
Proof.
  induction ps as [|p ps IH]; intros b k i H; cbn in H; [done|].
  assert (Hrec : forall b', wait_scan cur b' (S k) ps = Found i ->
    exists j q, i = (k + j)%nat /\ (p :: ps) !! j = Some q /\ parent q = Some cur /\ state q = ZOMBIE).
  { intros b' Hb. destruct (IH _ _ _ Hb) as (j & q & -> & Hq). exists (S j), q. by split; [lia|]. }
  case_decide as Hp; [eauto|]. case_decide as Hs; [|eauto].
  injection H as <-. exists O, p. by split; [lia|].
Qed.

(** Without an exited child the scan says whether there is a child. *)
Lemma wait_scan_NotFound cur ps : forall b k h,
  wait_scan cur b k ps = NotFound h ->
  Forall (fun p => parent p = Some cur -> state p <> ZOMBIE) ps /\
  (h = true <-> b = true \/ Exists (fun p => parent p = Some cur) ps).
Proof.
  induction ps as [|p ps IH]; intros b k h H; cbn in H.
  - injection H as <-. split; [done|]. rewrite Exists_nil. tauto.
  - rewrite Forall_cons, Exists_cons. case_decide as Hp; [|case_decide as Hs; [done|]];
      destruct (IH _ _ _ H) as [Hf Hh]; naive_solver.
Qed.

Lemma lottery_scan_Some r ps : forall rt check k i,
  lottery_scan r rt check k ps = Some i ->
  exists j p, i = (k + j)%nat /\ ps !! j = Some p /\ state p = RUNNABLE.
Proof.
  induction ps as [|p ps IH]; intros rt check k i Hi; cbn in Hi; [done|].
  assert (Hrec : forall rt' ch', lottery_scan r rt' ch' (S k) ps = Some i ->
    exists j q, i = (k + j)%nat /\ (p :: ps) !! j = Some q /\ state q = RUNNABLE).
  { intros rt' ch' Hx. destruct (IH _ _ _ _ Hx) as (j & q & -> & Hq). exists (S j), q. by split; [lia|]. }
  case_decide as Hs; [eauto|]. destruct (_ <? _); [eauto|].
  injection Hi as <-. exists O, p. by split; [lia|].
Qed.

(** ** Handing over the children *)

Definition adopt (cur : nat) (init : option nat) (p : proc) : proc :=
  if decide (parent p = Some cur) then set_parent init p else p.
Definition zombie_child (cur : nat) (p : proc) : bool :=
  bool_decide (parent p = Some cur /\ state p = ZOMBIE).

Lemma wakeup1_proc_fields ch p :
  parent (wakeup1_proc ch p) = parent p /\ (state (wakeup1_proc ch p) = ZOMBIE <-> state p = ZOMBIE).
Proof. unfold wakeup1_proc. case_decide as Hs; [|done]. destruct Hs as [Hs _]. cbn. by rewrite Hs. Qed.

Lemma adopt_wakeup1_proc cur init ch p :
  adopt cur init (wakeup1_proc ch p) = wakeup1_proc ch (adopt cur init p).
Proof.
  unfold adopt, wakeup1_proc. repeat (case_decide; cbn in * ); try done; tauto.
Qed.

Lemma wakeup1_proc_idem ch p : wakeup1_proc ch (wakeup1_proc ch p) = wakeup1_proc ch p.
Proof. unfold wakeup1_proc. repeat (case_decide; cbn in * ); try done; naive_solver. Qed.

(** The table after the first [k] iterations of the loop. *)
Definition reparented (cur : nat) (init : option nat) (ps : list proc) (k : nat) : list proc :=
  let qs := (adopt cur init <$> take k ps) ++ drop k ps in
  if existsb (zombie_child cur) (take k ps) then wakeup1 (ChanProc <$> init) qs else qs.

Lemma reparented_S cur init ps k p :
  ps !! k = Some p ->
  reparent_step cur init (reparented cur init ps k) k = reparented cur init ps (S k).
Proof.
  intros Hp. unfold reparented. rewrite (take_S_r _ _ _ Hp), existsb_app, fmap_app. cbn [existsb].
  rewrite orb_false_r. rewrite (drop_S ps p k Hp).
  set (A := adopt cur init <$> take k ps). set (ch := ChanProc <$> init).
  assert (HA : length A = k).
  { unfold A. rewrite length_fmap, length_take_le; [done|]. apply lookup_lt_Some in Hp. lia. }
  assert (Hmid : forall (B C : list proc) q, length B = k -> (B ++ q :: C) !! k = Some q).
  { intros B C q <-. by rewrite lookup_app_r, Nat.sub_diag. }
  assert (Hins : forall (B C : list proc) q r, length B = k -> <[k := r]> (B ++ q :: C) = (B ++ [r]) ++ C).
  { intros B C q r <-. rewrite insert_app_r_alt, Nat.sub_diag by lia. by rewrite <- app_assoc. }
  assert (Hwk : wakeup1 ch (A ++ p :: drop (S k) ps) =
    wakeup1 ch A ++ wakeup1_proc ch p :: wakeup1 ch (drop (S k) ps)).
  { unfold wakeup1. by rewrite fmap_app. }
  assert (HwA : length (wakeup1 ch A) = k) by (unfold wakeup1; by rewrite length_fmap).
  assert (Hadopt : adopt cur init <$> [p] = [adopt cur init p]) by done. rewrite Hadopt.
  unfold reparent_step, zombie_child.
  destruct (existsb _ (take k ps)); cbn [orb].
  - rewrite Hwk, Hmid by done. destruct (wakeup1_proc_fields ch p) as [-> Hz].
    unfold adopt. rewrite Hins by done.
    assert (Hap : set_parent init (wakeup1_proc ch p) = wakeup1_proc ch (set_parent init p)).
    { unfold wakeup1_proc; cbn. by case_decide. }
    case_decide as Hpar.
    + rewrite Hap. fold ch.
      assert (Heq : (wakeup1 ch A ++ [wakeup1_proc ch (set_parent init p)]) ++ wakeup1 ch (drop (S k) ps)
        = wakeup1 ch ((A ++ [set_parent init p]) ++ drop (S k) ps)).
      { unfold wakeup1. by rewrite !fmap_app. }
      rewrite Heq. case_decide; [|done]. unfold wakeup1. rewrite <- list_fmap_compose.
      apply list_fmap_ext. intros _ q _. apply wakeup1_proc_idem.
    + unfold wakeup1. rewrite !fmap_app. cbn. by rewrite <- app_assoc.
  - rewrite Hmid by done. unfold adopt. rewrite Hins by done. case_decide as Hpar.
    + case_decide as Hs.
      * by rewrite bool_decide_eq_true_2.
      * rewrite bool_decide_eq_false_2 by tauto. done.
    + rewrite bool_decide_eq_false_2 by tauto. by rewrite <- app_assoc.
Qed.

Lemma reparent_prefix cur init ps k :
  (k <= length ps)%nat -> foldl (reparent_step cur init) ps (seq 0 k) = reparented cur init ps k.
Proof.
  induction k as [|k IH]; intros Hk; [done|].
  rewrite seq_S, foldl_app, IH by lia. cbn.
  destruct (lookup_lt_is_Some_2 ps k) as [p Hp]; [lia|]. by eapply reparented_S.
Qed.

(** The loop of [exit] gives every child of [cur] to init and wakes init if
    one of them had already exited. *)
Lemma reparent_eq cur init ps :
  reparent cur init ps =
  if existsb (zombie_child cur) ps
  then wakeup1 (ChanProc <$> init) (adopt cur init <$> ps) else adopt cur init <$> ps.
Proof.
  unfold reparent. rewrite reparent_prefix by done. unfold reparented.
  by rewrite firstn_all, drop_all, app_nil_r.
Qed.

(** The loop of [exit] over the table makes every child of the exiting
    process a child of init, leaves every other parent pointer and every pid
    alone, and wakes init, and nobody else, if one of the children had already
    exited. *)
Theorem reparent_children (cur i0 : nat) (ps : list proc) (j : nat) (p : proc) :
  ps !! j = Some p ->
  exists q, reparent cur (Some i0) ps !! j = Some q /\
    parent q = (if decide (parent p = Some cur) then Some i0 else parent p) /\
    pid q = pid p /\
    (state q = state p \/ (state p = SLEEPING /\ chan p = Some (ChanProc i0) /\ state q = RUNNABLE)) /\
    (Exists (fun z => parent z = Some cur /\ state z = ZOMBIE) ps ->
     state p = SLEEPING -> chan p = Some (ChanProc i0) -> state q = RUNNABLE).
Proof.
  intros Hp. rewrite reparent_eq.
  assert (Hz : existsb (zombie_child cur) ps = true <->
    Exists (fun z => parent z = Some cur /\ state z = ZOMBIE) ps).
  { rewrite existsb_exists, Exists_exists. unfold zombie_child.
    setoid_rewrite bool_decide_eq_true. by setoid_rewrite list_elem_of_In. }
  destruct (existsb _ _) eqn:He.
  - exists (wakeup1_proc (Some (ChanProc i0)) (adopt cur (Some i0) p)).
    unfold wakeup1. rewrite !list_lookup_fmap, Hp. split; [done|].
    unfold wakeup1_proc, adopt. repeat (case_decide; cbn in * ); naive_solver.
  - exists (adopt cur (Some i0) p). rewrite list_lookup_fmap, Hp. split; [done|].
    unfold adopt. split_and!; [by case_decide|by case_decide|by left; case_decide|].
    intros Hx. apply Hz in Hx. done.
Qed.

Lemma reparent_children_witness :
  exists q, reparent 1 (Some 0%nat) [proc0; proc0; set_parent (Some 1%nat) proc0] !! 2%nat = Some q /\
    parent q = (if decide (parent (set_parent (Some 1%nat) proc0) = Some 1%nat) then Some 0%nat else None) /\
    pid q = 0 /\ (state q = UNUSED \/ (UNUSED = SLEEPING /\ None = Some (ChanProc 0) /\ state q = RUNNABLE)) /\
    (Exists (fun z => parent z = Some 1%nat /\ state z = ZOMBIE)
       [proc0; proc0; set_parent (Some 1%nat) proc0] ->
     UNUSED = SLEEPING -> None = Some (ChanProc 0) -> state q = RUNNABLE).
Proof.
  exact (reparent_children 1 0 [proc0; proc0; set_parent (Some 1%nat) proc0] 2
    (set_parent (Some 1%nat) proc0) eq_refl).
Defined.
