(* ===== verification/ProcSim.v ===== *)
(** The kernel as a system of CPUs that run the process code, and its
    refinement of the abstract process system of [ProcSpec].

    A step is a critical section of one CPU.  The rest of a system call
    touches only entries the calling process owns: itself and, in [fork], the
    entry it has allocated. *)

From stdpp Require Import functions.
From S2P Require Import Prelude Layout Rand Spinlock Held CString Proc ProcSpec Table.

(** ** The system *)

Inductive kop : Type :=
| OpBoot
| OpSched (running_total : Z)
| OpTick
| OpWakeup (ch : channel)
| OpYield
| OpFork
| OpExit
| OpWait
| OpKill (n : Z)
| OpRenice (nice_val n : Z)
| OpGrow (n : Z)
| OpLock (lk : lockid)
| OpUnlock
| OpSleep (ch : channel).

Section system.
Context {E : Type} {HE : procenv E}.

Record ksys := Ksys { k_st : kst E; k_phases : list kphase; k_pos : nat -> position }.

(** A turn of the scheduler loop, until the chosen process is out of the
    table lock or back asleep. *)
Definition dispatch (c : nat) (running_total : Z) : K E kphase :=
  o ← scheduler_pick c running_total;
  match o with
  | None => ret Looping
  | Some p =>
      r ← resume c p;
      match r with
      | Back _ => ret (Running p)
      | BackLocked lk => ret (Locked p lk)
      | Asleep => scheduler_return c p;; ret Looping
      end
  end.

(** The interrupt gate turns interrupts off, [iret] restores them. *)
Definition interrupt (c : nat) (m : K E ()) : K E () :=
  f ← onmach (read_if c);
  if f =? 0 then ret () else
  onmach (cli c);; m;; onmach (sti c).

(** The code CPU [c] runs for operation [o] in its phase; the new phase and
    the new position of the process. *)
Definition run_op (c : nat) (ph : kphase) (pos : position) (o : kop) :
    option (K E (kphase * option position)) :=
  match ph, pos, o with
  | Booting, _, OpBoot => Some (userinit c;; ret (Looping, None))
  | Looping, _, OpSched rt => Some (ph' ← dispatch c rt; ret (ph', None))
  | Looping, _, OpTick | Running _, _, OpTick =>
      Some (interrupt c (timer_intr c);; ret (ph, None))
  | _, _, OpWakeup ch => Some (wakeup c ch;; ret (ph, None))
  | Running p, _, OpYield => Some (yield_save c;; scheduler_return c p;; ret (Looping, None))
  | Running p, Outside, OpFork => Some (
      r ← fork_begin c;
      ret (ph, match r with Some (_, np) => Some (InFork np) | None => None end))
  | Running p, InFork np, OpFork => Some (fork_end c np;; ret (ph, Some Outside))
  | Running p, Outside, OpExit => Some (exit_files c;; ret (ph, Some InExit))
  | Running p, InExit, OpExit =>
      Some (exit_zombie c p;; scheduler_return c p;; ret (Looping, Some Outside))
  | Running p, Outside, OpWait => Some (
      r ← wait c;
      match r with
      | Some _ => ret (ph, None)
      | None => scheduler_return c p;; ret (Looping, None)
      end)
  | Running p, Outside, OpKill n => Some (kill c n;; ret (ph, None))
  | Running p, Outside, OpRenice v n => Some (renice c v n;; ret (ph, None))
  | Running p, Outside, OpGrow n => Some (growproc c n;; ret (ph, None))
  | Running p, Outside, OpLock lk =>
      if decide (lk = ptable_lock) then None
      else Some (onmach (acquire c lk);; ret (Locked p lk, None))
  | Locked p lk, _, OpUnlock => Some (onmach (release c lk);; ret (Running p, None))
  | Locked p lk, _, OpSleep ch =>
      Some (sleep c ch lk;; scheduler_return c p;; ret (Looping, None))
  | _, _, _ => None
  end.

Definition pos_of (ph : kphase) (pos : nat -> position) : position :=
  match phase_proc ph with Some p => pos p | None => Outside end.
Definition move (ph : kphase) (o : option position) (pos : nat -> position) : nat -> position :=
  match phase_proc ph, o with Some p, Some x => <[p := x]> pos | _, _ => pos end.

(** One CPU runs one operation to its end.  Operations that panic have no
    step; those that spin on a lock wait for another CPU.  The pid counter is
    an [int]: the system is followed until it would overflow. *)
Inductive kstep : ksys -> ksys -> Prop :=
| K_step s phs pos c ph o m ph' po s' :
    phs !! c = Some ph -> run_op c ph (pos_of ph pos) o = Some m -> nextpid s < INT_MAX ->
    m s = Ok ((ph', po), s') ->
    kstep (Ksys s phs pos) (Ksys s' (<[c := ph']> phs) (move ph po pos)).

(** ** The abstraction *)

Definition view (p : proc) : pview :=
  PV (state p) (pid p) (parent p) (chan p) (negb (killed p =? 0))
     (match kctx p with AtForkret => None | InSched _ a => Some a end)
     (nice_value p) (negb (kstack p =? 0)) (negb (pgdir p =? 0))
     (match cwd p with Some _ => true | None => false end).

(** The arrays of an entry have their C sizes. *)
Definition shape (p : proc) : Prop :=
  length (ofile p) = NOFILE /\ Z.of_nat (length (name p)) = NAMELEN.

Record krep (s : kst E) (vs : list pview) (n : Z) (ini : option nat)
    (cps : list (option nat)) (H : holds) : Prop := {
  kr_view : view <$> procs s = vs;
  kr_shape : Forall shape (procs s);
  kr_next : nextpid s = n;
  kr_init : initproc s = ini;
  kr_mach : mrep (kmach s) H cps
}.

(** The locks a phase holds between steps. *)
Definition phase_holds (phs : list kphase) : holds := fun c =>
  match phs !! c with Some (Locked _ lk) => [lk] | _ => [] end.

(** The abstract state a system state stands for. *)
Definition abs (x : ksys) : asys :=
  Asys (view <$> procs (k_st x)) (nextpid (k_st x)) (initproc (k_st x)) (k_phases x) (k_pos x).
Definition sys_ok (x : ksys) : Prop :=
  Forall shape (procs (k_st x)) /\
  mrep (kmach (k_st x)) (phase_holds (k_phases x)) (phase_proc <$> k_phases x).
End system.
Arguments ksys E : clear implicits.

(** ** Entry updates and their abstract counterparts *)

Definition v_set_pid (x : Z) (v : pview) : pview :=
  PV (v_state v) x (v_parent v) (v_chan v) (v_killed v) (v_after v) (v_nice v) (v_ks v) (v_pg v) (v_cwd v).
Definition v_set_chan (x : option channel) (v : pview) : pview :=
  PV (v_state v) (v_pid v) (v_parent v) x (v_killed v) (v_after v) (v_nice v) (v_ks v) (v_pg v) (v_cwd v).
Definition v_set_killed (x : bool) (v : pview) : pview :=
  PV (v_state v) (v_pid v) (v_parent v) (v_chan v) x (v_after v) (v_nice v) (v_ks v) (v_pg v) (v_cwd v).
Definition v_set_after (x : option kafter) (v : pview) : pview :=
  PV (v_state v) (v_pid v) (v_parent v) (v_chan v) (v_killed v) x (v_nice v) (v_ks v) (v_pg v) (v_cwd v).
Definition v_set_ks (x : bool) (v : pview) : pview :=
  PV (v_state v) (v_pid v) (v_parent v) (v_chan v) (v_killed v) (v_after v) (v_nice v) x (v_pg v) (v_cwd v).
Definition v_set_pg (x : bool) (v : pview) : pview :=
  PV (v_state v) (v_pid v) (v_parent v) (v_chan v) (v_killed v) (v_after v) (v_nice v) (v_ks v) x (v_cwd v).

(** [vsim f g]: the update [f] of an entry is [g] on its view. *)
Class vsim (f : proc -> proc) (g : pview -> pview) : Prop := Vsim {
  vsim_view : forall p, view (f p) = g (view p);
  vsim_shape : forall p, shape p -> shape (f p)
}.

Ltac vsim := split; [by intros []|by intros [] [? ?]].

#[global] Instance vsim_state x : vsim (set_state x) (v_set_state x).
Proof. vsim. Qed.
#[global] Instance vsim_pid x : vsim (set_pid x) (v_set_pid x).
Proof. vsim. Qed.
#[global] Instance vsim_parent x : vsim (set_parent x) (v_set_parent x).
Proof. vsim. Qed.
#[global] Instance vsim_chan x : vsim (set_chan x) (v_set_chan x).
Proof. vsim. Qed.
#[global] Instance vsim_killed x : vsim (set_killed x) (v_set_killed (negb (x =? 0))).
Proof. vsim. Qed.
#[global] Instance vsim_kctx_fork : vsim (set_kctx AtForkret) (v_set_after None).
Proof. vsim. Qed.
#[global] Instance vsim_kctx ie a : vsim (set_kctx (InSched ie a)) (v_set_after (Some a)).
Proof. vsim. Qed.
#[global] Instance vsim_nice x : vsim (set_nice_value x) (v_set_nice x).
Proof. vsim. Qed.
#[global] Instance vsim_kstack x : vsim (set_kstack x) (v_set_ks (negb (x =? 0))).
Proof. vsim. Qed.
#[global] Instance vsim_pgdir x : vsim (set_pgdir x) (v_set_pg (negb (x =? 0))).
Proof. vsim. Qed.
#[global] Instance vsim_cwd x : vsim (set_cwd (Some x)) (v_set_cwd true).
Proof. vsim. Qed.
#[global] Instance vsim_cwd_none : vsim (set_cwd None) (v_set_cwd false).
Proof. vsim. Qed.
#[global] Instance vsim_sz x : vsim (set_sz x) id.
Proof. vsim. Qed.
#[global] Instance vsim_tf x : vsim (set_tf x) id.
Proof. vsim. Qed.
#[global] Instance vsim_context x : vsim (set_context x) id.
Proof. vsim. Qed.
#[global] Instance vsim_tfv x : vsim (set_tfv x) id.
Proof. vsim. Qed.
#[global] Instance vsim_tfv_fn f : vsim (fun p => set_tfv (f p) p) id.
Proof. vsim. Qed.
#[global] Instance vsim_date x : vsim (set_begin_date x) id.
Proof. vsim. Qed.
#[global] Instance vsim_ticks_begin x : vsim (set_ticks_begin x) id.
Proof. vsim. Qed.
#[global] Instance vsim_ticks_total x : vsim (set_ticks_total x) id.
Proof. vsim. Qed.
#[global] Instance vsim_ticks_total_fn f : vsim (fun p => set_ticks_total (f p) p) id.
Proof. vsim. Qed.
#[global] Instance vsim_sched_times x : vsim (set_sched_times x) id.
Proof. vsim. Qed.
#[global] Instance vsim_sched_times_fn f : vsim (fun p => set_sched_times (f p) p) id.
Proof. vsim. Qed.
#[global] Instance vsim_ofile i x : vsim (fun p => set_ofile (<[i := x]> (ofile p)) p) id.
Proof. split; [by intros []|]. intros p [Ho Hn]. split; [|done]. cbn. by rewrite length_insert. Qed.
#[global] Instance vsim_name0 : vsim (fun p => set_name (<[0%nat := 0]> (name p)) p) id.
Proof. split; [by intros []|]. intros p [Ho Hn]. split; [done|]. cbn. by rewrite length_insert. Qed.

Lemma vsim_name nm : Z.of_nat (length nm) = NAMELEN -> vsim (set_name nm) id.
Proof. intros Hn. split; [by intros []|]. by intros p [Ho _]. Qed.

(** Copying a name never runs off its array. *)
Lemma safestrcpy_name q t :
  shape q -> readable t 15 ->
  exists nm, safestrcpy (name q) t NAMELEN = Some nm /\ Z.of_nat (length nm) = NAMELEN.
Proof.
  intros [_ Hq] Ht. unfold NAMELEN in *.
  destruct (safestrcpy_spec (name q) t 16) as (s' & Hs' & Hl & _); [lia|done|].
  exists s'. split; [done|lia].
Qed.

(** ** Rules for the code of [proc.c]

    The other components may panic only if [tol] allows it. *)

Record env_wp {E} {HE : procenv E} (tol : Prop) : Prop := {
  ew_kalloc e : wp tol env_kalloc e (fun _ _ => True);
  ew_kfree a e : wp tol (env_kfree a) e (fun _ _ => True);
  ew_setupkvm e : wp tol env_setupkvm e (fun _ _ => True);
  ew_inituvm a e : wp tol (env_inituvm a) e (fun _ _ => True);
  ew_allocuvm a b c e : wp tol (env_allocuvm a b c) e (fun _ _ => True);
  ew_deallocuvm a b c e : wp tol (env_deallocuvm a b c) e (fun _ _ => True);
  ew_copyuvm a b e : wp tol (env_copyuvm a b) e (fun _ _ => True);
  ew_freevm a e : wp tol (env_freevm a) e (fun _ _ => True);
  ew_filedup f e : wp tol (env_filedup f) e (fun _ _ => True);
  ew_fileclose f e : wp tol (env_fileclose f) e (fun _ _ => True);
  ew_idup i e : wp tol (env_idup i) e (fun _ _ => True);
  ew_iput_op i e : wp tol (env_iput_op i) e (fun _ _ => True);
  ew_namei e : wp tol env_namei_root e (fun _ _ => True);
  ew_cmostime e : wp tol env_cmostime e (fun _ _ => True);
  ew_fsinit e : wp tol env_fsinit e (fun _ _ => True)
}.

Lemma wp_True {S A} (m : M S A) s : wp True m s (fun _ _ => True).
Proof. unfold wp. by destruct (m s) as [[]| | |]. Qed.

Lemma env_wp_True {E} {HE : procenv E} : env_wp True.
Proof. split; intros; apply wp_True. Qed.

Section rules.
Context {E : Type} {HE : procenv E} (tol : Prop).
Context {s : kst E} {vs : list pview} {n : Z} {ini : option nat}.
Context {cps : list (option nat)} {H : holds} (Hr : krep s vs n ini cps H).

Lemma krep_lookup i v :
  vs !! i = Some v -> exists p, procs s !! i = Some p /\ view p = v /\ shape p.
Proof.
  intros Hv. rewrite <- (kr_view _ _ _ _ _ _ Hr), list_lookup_fmap in Hv.
  destruct (procs s !! i) as [p|] eqn:Hp; [|done]. injection Hv as <-. exists p.
  split_and!; [done|done|]. by eapply Forall_lookup_1; [apply (kr_shape _ _ _ _ _ _ Hr)|].
Qed.

Lemma krep_lookup_view i p : procs s !! i = Some p -> vs !! i = Some (view p).
Proof. intros Hp. by rewrite <- (kr_view _ _ _ _ _ _ Hr), list_lookup_fmap, Hp. Qed.

Lemma krep_mach m' cps' H' : mrep m' H' cps' -> krep (set_kmach m' s) vs n ini cps' H'.
Proof. intros Hm. split; [apply Hr..|done]. Qed.

Lemma krep_frame (s' : kst E) :
  procs s' = procs s -> nextpid s' = nextpid s -> initproc s' = initproc s -> kmach s' = kmach s ->
  krep s' vs n ini cps H.
Proof.
  intros H1 H2 H3 H4. split; [rewrite H1|rewrite H1|rewrite H2|rewrite H3|rewrite H4]; apply Hr.
Qed.

Lemma krep_procs ps ws :
  view <$> ps = ws -> Forall shape ps -> krep (set_procs ps s) ws n ini cps H.
Proof. intros Hv Hs. split; [done|done|apply Hr..]. Qed.

Lemma k_onmach {A} (m : M mach A) Q :
  wp tol m (kmach s) (fun a m' => Q a (set_kmach m' s)) -> wp tol (onmach m) s Q.
Proof. apply wp_zoom. Qed.

Lemma k_onenv {A} (m : M E A) Q :
  (forall e, wp tol m e (fun _ _ => True)) ->
  (forall a s', krep s' vs n ini cps H -> Q a s') -> wp tol (onenv m) s Q.
Proof.
  intros Hm HQ. apply wp_zoom. eapply wp_mono; [apply Hm|]. intros a e _. apply HQ.
  by apply krep_frame.
Qed.

Section cpu.
Context (c : nat) (o : option nat) (Hc : cps !! c = Some o).

Lemma k_acquire l Q :
  l ∉ H c -> (forall s', krep s' vs n ini cps (hadd c l H) -> Q () s') ->
  wp tol (onmach (acquire c l)) s Q.
Proof.
  intros Hl HQ. apply k_onmach. eapply wp_acquire; [apply Hr|done|done|].
  intros m' Hm. by apply HQ, krep_mach.
Qed.

Lemma k_release l Q :
  l ∈ H c -> (forall s', krep s' vs n ini cps (hdel c l H) -> Q () s') ->
  wp tol (onmach (release c l)) s Q.
Proof.
  intros Hl HQ. apply k_onmach. eapply wp_release; [apply Hr|done|done|].
  intros m' Hm. by apply HQ, krep_mach.
Qed.

Lemma k_myproc Q :
  (forall s', krep s' vs n ini cps H -> Q o s') -> wp tol (onmach (myproc c)) s Q.
Proof.
  intros HQ. apply k_onmach. eapply wp_myproc; [apply Hr|done|].
  intros m' Hm. by apply HQ, krep_mach.
Qed.

Lemma k_curproc p Q :
  o = Some p -> (forall s', krep s' vs n ini cps H -> Q p s') -> wp tol (curproc c) s Q.
Proof.
  intros Ho HQ. apply wp_bind, k_myproc. intros s' Hs'. rewrite Ho. by apply wp_deref, HQ.
Qed.

Lemma k_upd_cpu f Q :
  (forall k, apicid (f k) = apicid k /\ lapic_id (f k) = lapic_id k /\ ncli (f k) = ncli k /\
     cproc (f k) = cproc k /\ (H c <> [] -> iflag (f k) = iflag k)) ->
  (forall s', krep s' vs n ini cps H -> Q () s') -> wp tol (onmach (upd_cpu c f)) s Q.
Proof.
  intros Hf HQ. apply k_onmach. eapply wp_upd_cpu; [apply Hr|done|done|].
  intros m' Hm. by apply HQ, krep_mach.
Qed.

Lemma k_upd_cproc o' Q :
  (forall s', krep s' vs n ini (<[c := o']> cps) H -> Q () s') ->
  wp tol (onmach (upd_cpu c (set_cproc o'))) s Q.
Proof.
  intros HQ. apply k_onmach. eapply wp_upd_cproc; [apply Hr|done|].
  intros m' Hm. by apply HQ, krep_mach.
Qed.

Lemma k_mycpu Q : H c <> [] -> Q c s -> wp tol (onmach (mycpu c)) s Q.
Proof.
  intros Hne HQ. apply k_onmach. eapply wp_mycpu; [apply Hr|done|done|]. by destruct s.
Qed.
End cpu.

Lemma k_getproc i v Q :
  vs !! i = Some v ->
  (forall p, procs s !! i = Some p -> view p = v -> shape p -> Q p s) -> wp tol (getproc i) s Q.
Proof.
  intros Hv HQ. destruct (krep_lookup i v Hv) as (p & Hp & Hpv & Hsh).
  unfold getproc. apply wp_bind, wp_gets. rewrite Hp. apply wp_deref. auto.
Qed.

Lemma k_updproc i v f g Q :
  vsim f g -> vs !! i = Some v ->
  (forall s', krep s' (<[i := g v]> vs) n ini cps H -> Q () s') -> wp tol (updproc i f) s Q.
Proof.
  intros Hf Hv HQ. unfold updproc. apply wp_bind. apply (k_getproc i v); [done|].
  intros p Hp Hpv Hsh. apply wp_modify, HQ, krep_procs.
  - rewrite list_fmap_insert, (vsim_view (f:=f) (g:=g)), Hpv. by rewrite (kr_view _ _ _ _ _ _ Hr).
  - apply Forall_insert; [apply (kr_shape _ _ _ _ _ _ Hr)|]. by apply (vsim_shape (f:=f) (g:=g)).
Qed.

(** An update the view does not show. *)
Lemma k_updproc_id i v f Q :
  vsim f id -> vs !! i = Some v ->
  (forall s', krep s' vs n ini cps H -> Q () s') -> wp tol (updproc i f) s Q.
Proof.
  intros Hf Hv HQ. apply (k_updproc i v f id); [done|done|]. intros s' Hs'. apply HQ.
  unfold id in Hs'. by rewrite list_insert_id in Hs'.
Qed.

Lemma k_modify f Q :
  procs (f s) = procs s -> nextpid (f s) = nextpid s -> initproc (f s) = initproc s ->
  kmach (f s) = kmach s ->
  (forall s', krep s' vs n ini cps H -> Q () s') -> wp tol (modify f) s Q.
Proof. intros H1 H2 H3 H4 HQ. by apply wp_modify, HQ, krep_frame. Qed.
End rules.

(** Steps of a proof: an update of an entry, shown by the view or not. *)
Ltac klookup :=
  first [done | by rewrite list_lookup_insert_eq | by rewrite list_lookup_insert_ne].
Ltac kbind := apply wp_bind.
Ltac kup Hr :=
  kbind; eapply (k_updproc _ Hr); [apply _|klookup|]; rewrite ?list_insert_insert_eq;
  clear Hr; let s' := fresh "s" in intros s' Hr.
Ltac kid Hr :=
  kbind; eapply (k_updproc_id _ Hr); [apply _|klookup|];
  clear Hr; let s' := fresh "s" in intros s' Hr.
Ltac kenv Hr Hew :=
  kbind; eapply (k_onenv _ Hr); [apply Hew|];
  clear Hr; let r := fresh "r" in let s' := fresh "s" in intros r s' Hr.
