(* ===== verification/ProcOps.v ===== *)
(** What each operation of [proc.c] does to the abstract process table and to
    the locks of its CPU. *)

From stdpp Require Import functions.
From S2P Require Import Prelude Layout Rand Spinlock Held CString Proc ProcSpec Table ProcSim.

Lemma krep_ext {E} (s : kst E) vs n ini cps H H' :
  krep s vs n ini cps H -> (forall c, H c = H' c) -> krep s vs n ini cps H'.
Proof. intros Hr He. split; try apply Hr. eapply mrep_ext; [apply Hr|done]. Qed.

Lemma not_elem_nil (H : holds) c l : H c = [] -> l ∉ H c.
Proof. intros ->. apply not_elem_of_nil. Qed.

#[global] Hint Resolve not_elem_nil : core.

Section operations.
Context {E : Type} {HE : procenv E} (tol : Prop).
Implicit Types (s : kst E) (vs : list pview) (n : Z) (ini : option nat) (cps : list (option nat))
  (H : holds) (c p : nat).

Lemma uptime_wp s vs n ini cps H c o Q :
  krep s vs n ini cps H -> cps !! c = Some o -> tickslock ∉ H c ->
  (forall t s', krep s' vs n ini cps H -> Q t s') -> wp tol (uptime c) s Q.
Proof.
  intros Hr Hc Hl HQ. kbind. eapply (k_acquire tol Hr); [done..|]. intros s1 Hr1.
  kbind. apply wp_gets. kbind. eapply (k_release tol Hr1); [done|by rewrite hadd_same; left|].
  intros s2 Hr2. apply wp_ret, HQ. eapply krep_ext; [exact Hr2|]. intros c'. by apply hdel_hadd.
Qed.

Lemma view_wakeup1 ch ps : view <$> wakeup1 ch ps = v_wake ch <$> (view <$> ps).
Proof.
  unfold wakeup1. rewrite <- !list_fmap_compose. apply list_fmap_ext. intros _ p _. cbn.
  unfold wakeup1_proc, v_wake. cbn. by case_decide.
Qed.

Lemma shape_wakeup1 ch ps : Forall shape ps -> Forall shape (wakeup1 ch ps).
Proof.
  intros Hs. apply Forall_fmap. eapply Forall_impl; [done|]. intros p Hp. cbn.
  unfold wakeup1_proc. by case_decide.
Qed.

Lemma krep_wakeup1 s vs n ini cps H ch :
  krep s vs n ini cps H ->
  krep (set_procs (wakeup1 ch (procs s)) s) (v_wake ch <$> vs) n ini cps H.
Proof.
  intros Hr. apply (krep_procs Hr).
  - rewrite view_wakeup1. by rewrite (kr_view _ _ _ _ _ _ Hr).
  - apply shape_wakeup1, Hr.
Qed.

Lemma wakeup_wp s vs n ini cps H c o ch Q :
  krep s vs n ini cps H -> cps !! c = Some o -> ptable_lock ∉ H c ->
  (forall s', krep s' (v_wake (Some ch) <$> vs) n ini cps H -> Q () s') ->
  wp tol (wakeup c ch) s Q.
Proof.
  intros Hr Hc Hl HQ. kbind. eapply (k_acquire tol Hr); [done..|]. intros s1 Hr1.
  kbind. apply wp_modify. apply krep_wakeup1 with (ch := Some ch) in Hr1.
  eapply (k_release tol Hr1); [done|by rewrite hadd_same; left|].
  intros s2 Hr2. apply HQ. eapply krep_ext; [exact Hr2|]. intros c'. by apply hdel_hadd.
Qed.

Definition v_wakes (chs : list channel) (vs : list pview) : list pview :=
  foldl (fun vs ch => v_wake (Some ch) <$> vs) vs chs.

Lemma wakeups_wp chs : forall s vs n ini cps H c o Q,
  krep s vs n ini cps H -> cps !! c = Some o -> ptable_lock ∉ H c ->
  (forall s', krep s' (v_wakes chs vs) n ini cps H -> Q () s') ->
  wp tol (wakeups c chs) s Q.
Proof.
  induction chs as [|ch chs IH]; intros s vs n ini cps H c o Q Hr Hc Hl HQ; cbn [wakeups].
  - apply wp_ret. auto.
  - kbind. eapply wakeup_wp; [done..|]. intros s1 Hr1. eapply IH; [done..|]. exact HQ.
Qed.

Lemma sched_save_wp s vs n ini cps H c p v after Q :
  krep s vs n ini cps H -> cps !! c = Some (Some p) -> H c = [ptable_lock] ->
  vs !! p = Some v -> v_state v <> RUNNING ->
  (forall s', krep s' (<[p := v_set_after (Some after) v]> vs) n ini cps H -> Q () s') ->
  wp tol (sched_save c after) s Q.
Proof.
  intros Hr Hc Hh Hv Hs HQ.
  kbind. eapply (k_curproc tol Hr); [done..|]. intros s1 Hr1.
  kbind. apply k_onmach. eapply wp_holding; [apply Hr1|done|by rewrite Hh|].
  rewrite Hh. rewrite bool_decide_eq_true_2 by by left. cbn [negb].
  pose proof (krep_mach Hr1 _ _ _ (kr_mach _ _ _ _ _ _ Hr1)) as Hr2.
  kbind. eapply (k_mycpu tol Hr2); [done|by rewrite Hh|].
  kbind. apply k_onmach. eapply wp_this_cpu; [apply Hr2|done|]. intros k Hk Ho Hn.
  rewrite Hn, Hh. cbn [length Z.of_nat Z.eqb negb].
  pose proof (krep_mach Hr2 _ _ _ (kr_mach _ _ _ _ _ _ Hr2)) as Hr3.
  kbind. eapply (k_getproc tol Hr3); [done|]. intros q Hq Hqv Hsh.
  rewrite decide_False by (rewrite <- Hqv in Hs; exact Hs).
  kbind. apply k_onmach. eapply wp_read_if; [apply Hr3|done|by rewrite Hh|]. cbn [Z.eqb negb].
  pose proof (krep_mach Hr3 _ _ _ (kr_mach _ _ _ _ _ _ Hr3)) as Hr4.
  kbind. eapply (k_mycpu tol Hr4); [done|by rewrite Hh|].
  kbind. apply k_onmach. eapply wp_this_cpu; [apply Hr4|done|]. intros k' _ _ _.
  pose proof (krep_mach Hr4 _ _ _ (kr_mach _ _ _ _ _ _ Hr4)) as Hr5.
  eapply (k_updproc tol Hr5); [apply vsim_kctx|done|exact HQ].
Qed.

Lemma switchkvm_wp s vs n ini cps H c o Q :
  krep s vs n ini cps H -> cps !! c = Some o ->
  (forall s', krep s' vs n ini cps H -> Q () s') -> wp tol (switchkvm c) s Q.
Proof.
  intros Hr Hc HQ. kbind. apply wp_gets. eapply (k_upd_cpu tol Hr); [done|done|exact HQ].
Qed.

Lemma scheduler_return_wp s vs n ini cps H c o p v Q :
  krep s vs n ini cps H -> cps !! c = Some o -> H c = [ptable_lock] -> vs !! p = Some v ->
  (forall s', krep s' vs n ini (<[c := None]> cps) (hdel c ptable_lock H) -> Q () s') ->
  wp tol (scheduler_return c p) s Q.
Proof.
  intros Hr Hc Hh Hv HQ.
  kbind. eapply switchkvm_wp; [done..|]. intros s1 Hr1.
  kbind. eapply uptime_wp; [done|done|rewrite Hh; set_solver|]. intros t s2 Hr2.
  kbind. eapply (k_updproc_id tol Hr2); [apply _|done|]. intros s3 Hr3.
  kbind. eapply (k_upd_cproc tol Hr3); [done|]. intros s4 Hr4.
  eapply (k_release tol Hr4); [|by rewrite Hh; left|exact HQ].
  apply list_lookup_insert_eq. by eapply lookup_lt_Some.
Qed.

(** ** Creating processes *)

(** An entry as [allocproc] leaves it. *)
Definition v_alloc (n : Z) (v : pview) : pview :=
  PV EMBRYO n (v_parent v) (v_chan v) (v_killed v) None DEFAULT_NICE_VALUE true (v_pg v) (v_cwd v).

Lemma krep_find_unused s vs n ini cps H j :
  krep s vs n ini cps H -> find_unused 0 (procs s) = Some j ->
  exists w, vs !! j = Some w /\ v_state w = UNUSED.
Proof.
  intros Hr Hf. apply find_unused_Some in Hf as (j' & p & -> & Hp & Hs & _).
  exists (view p). split; [by apply (krep_lookup_view Hr)|done].
Qed.

Lemma fork_end_wp s vs n ini cps H c o p j v w Q :
  krep s vs n ini cps H -> cps !! c = Some o -> ptable_lock ∉ H c ->
  vs !! p = Some v -> vs !! j = Some w -> v_parent w = Some p -> j <> p ->
  (forall r s', krep s' (<[j := v_set_nice (v_nice v) (v_set_state RUNNABLE w)]> vs) n ini cps H ->
     Q r s') ->
  wp tol (fork_end c j) s Q.
Proof.
  intros Hr Hc Hl Hv Hw Hp Hjp HQ. assert (Hlt : (j < length vs)%nat) by by eapply lookup_lt_Some.
  kbind. eapply (k_getproc tol Hr); [done|]. intros q _ _ _.
  kbind. eapply (k_acquire tol Hr); [done..|]. clear Hr. intros ? Hr. kup Hr.
  kbind. eapply (k_getproc tol Hr); [klookup|]. intros q' _ Hq' _.
  assert (Hpar : parent q' = Some p) by (apply (f_equal v_parent) in Hq'; by rewrite <- Hp).
  kbind. rewrite Hpar. apply wp_deref.
  kbind. eapply (k_getproc tol Hr); [klookup|]. intros pa _ Hpa _.
  assert (Hni : nice_value pa = v_nice v) by by rewrite <- Hpa.
  kup Hr. rewrite Hni in Hr.
  kbind. eapply (k_release tol Hr); [done|by rewrite hadd_same; left|]. clear Hr. intros ? Hr.
  apply wp_ret, HQ. eapply krep_ext; [exact Hr|]. intros. by apply hdel_hadd.
Qed.

(** ** Giving up the CPU *)

Lemma yield_save_wp s vs n ini cps H c p v Q :
  krep s vs n ini cps H -> cps !! c = Some (Some p) -> H c = [] -> vs !! p = Some v ->
  (forall s', krep s' (<[p := v_stop RUNNABLE (v_chan v) AfterYield v]> vs) n ini cps
     (hadd c ptable_lock H) -> Q () s') ->
  wp tol (yield_save c) s Q.
Proof.
  intros Hr Hc Hh Hv HQ. assert (Hlt : (p < length vs)%nat) by by eapply lookup_lt_Some.
  kbind. eapply (k_acquire tol Hr); [done|auto|]. clear Hr. intros ? Hr.
  kbind. eapply (k_curproc tol Hr); [done..|]. clear Hr. intros ? Hr. kup Hr.
  eapply sched_save_wp; [done|done|by rewrite hadd_same, Hh|klookup|done|].
  rewrite list_insert_insert_eq. exact HQ.
Qed.

Lemma sleep_save_wp s vs n ini cps H c p v ch lk after Q :
  krep s vs n ini cps H -> cps !! c = Some (Some p) -> H c = [lk] -> vs !! p = Some v ->
  (forall s' H', krep s' (<[p := v_stop SLEEPING ch after v]> vs) n ini cps H' ->
     H' c = [ptable_lock] -> (forall c', c' <> c -> H' c' = H c') -> Q () s') ->
  wp tol (sleep_save c ch (Some lk) after) s Q.
Proof.
  intros Hr Hc Hh Hv HQ. assert (Hlt : (p < length vs)%nat) by by eapply lookup_lt_Some.
  kbind. eapply (k_myproc tol Hr); [done|]. clear Hr. intros s1 Hr.
  assert (Hlock : wp tol (when (bool_decide (lk <> ptable_lock))
      (onmach (acquire c ptable_lock);; onmach (release c lk))) s1
    (fun _ s' => exists H', krep s' vs n ini cps H' /\ H' c = [ptable_lock] /\
       forall c', c' <> c -> H' c' = H c')).
  { apply wp_when; intros Hlk.
    - apply bool_decide_eq_true in Hlk.
      kbind. eapply (k_acquire tol Hr); [done|rewrite Hh; set_solver|]. clear Hr. intros s2 Hr.
      eapply (k_release tol Hr); [done|rewrite hadd_same, Hh; set_solver|]. clear Hr. intros s3 Hr.
      eexists. split_and!; [exact Hr| |].
      + rewrite hdel_same, hadd_same, Hh, !filter_cons, decide_True, decide_False by auto. done.
      + intros c' Hne. by rewrite hdel_other, hadd_other.
    - apply bool_decide_eq_false, dec_stable in Hlk as ->. eauto. }
  kbind. eapply wp_mono; [exact Hlock|]. clear Hr Hlock. intros [] s2 (H' & Hr & Hh' & Ho).
  kup Hr. kup Hr. eapply sched_save_wp; [exact Hr|done|done|klookup|done|].
  rewrite list_insert_insert_eq. intros ? Hr3. eapply HQ; [exact Hr3|done|done].
Qed.

(** ** Exit *)

Lemma v_wakes_running chs : forall vs i v,
  vs !! i = Some v -> v_state v = RUNNING -> v_wakes chs vs !! i = Some v.
Proof.
  induction chs as [|ch chs IH]; intros vs i v Hv Hs; cbn; [done|]. apply IH; [|done].
  rewrite list_lookup_fmap, Hv. cbn. unfold v_wake. by rewrite decide_False by (intros [? _]; congruence).
Qed.

Lemma view_reparent cur ini ps :
  view <$> reparent cur ini ps = a_reparent cur ini (view <$> ps).
Proof.
  rewrite reparent_eq. unfold a_reparent.
  assert (Ha : view <$> (adopt cur ini <$> ps) = v_adopt cur ini <$> (view <$> ps)).
  { rewrite <- !list_fmap_compose. apply list_fmap_ext. intros _ p _. cbn. unfold adopt, v_adopt.
    cbn. by case_decide. }
  assert (Hz : existsb (zombie_child cur) ps = existsb (v_zombie_child cur) (view <$> ps)).
  { clear Ha. induction ps as [|p ps IH]; cbn; [done|]. by rewrite IH. }
  rewrite Hz. by destruct (existsb (v_zombie_child cur) _); rewrite ?view_wakeup1, Ha.
Qed.

Lemma shape_reparent cur ini ps : Forall shape ps -> Forall shape (reparent cur ini ps).
Proof.
  intros Hs. rewrite reparent_eq.
  assert (Ha : Forall shape (adopt cur ini <$> ps)).
  { apply Forall_fmap. eapply Forall_impl; [done|]. intros p Hp. cbn. unfold adopt. by case_decide. }
  destruct (existsb _ _); [by apply shape_wakeup1|done].
Qed.

Lemma exit_zombie_wp s vs n ini cps H c p v Q :
  krep s vs n ini cps H -> cps !! c = Some (Some p) -> H c = [] -> vs !! p = Some v ->
  v_state v = RUNNING ->
  (forall s', krep s' (a_exit p v ini vs) n ini cps (hadd c ptable_lock H) -> Q () s') ->
  wp tol (exit_zombie c p) s Q.
Proof.
  intros Hr Hc Hh Hv Hs HQ.
  kbind. eapply (k_acquire tol Hr); [done|auto|]. clear Hr. intros s1 Hr.
  kbind. eapply (k_getproc tol Hr); [done|]. intros q _ Hq _.
  kbind. apply wp_modify. apply krep_wakeup1 with (ch := ChanProc <$> parent q) in Hr.
  replace (parent q) with (v_parent v) in * by by rewrite <- Hq.
  set (s2 := set_procs _ s1) in *. set (vs1 := v_wake _ <$> vs) in *.
  assert (Hr2 : krep (set_procs (reparent p (initproc s2) (procs s2)) s2) (a_reparent p ini vs1)
    n ini cps (hadd c ptable_lock H)).
  { apply (krep_procs Hr).
    - by rewrite view_reparent, (kr_view _ _ _ _ _ _ Hr), (kr_init _ _ _ _ _ _ Hr).
    - apply shape_reparent, Hr. }
  kbind. apply wp_modify.
  assert (Hlook : is_Some (a_reparent p ini vs1 !! p)).
  { apply lookup_lt_is_Some_2. unfold a_reparent, vs1.
    destruct (existsb _ _); rewrite !length_fmap; by eapply lookup_lt_Some. }
  destruct Hlook as [w Hw]. assert (Hlt : (p < length (a_reparent p ini vs1))%nat)
    by by eapply lookup_lt_Some.
  kup Hr2. eapply sched_save_wp; [done|done|by rewrite hadd_same, Hh|klookup|done|].
  intros ? Hr3. apply HQ. rewrite list_insert_insert_eq in Hr3.
  unfold a_exit. fold vs1. by rewrite (list_alter_lookup _ _ _ w).
Qed.

(** ** Wait *)

Lemma krep_scan_found s vs n ini cps H p i :
  krep s vs n ini cps H -> wait_scan p false 0 (procs s) = Found i ->
  exists w, vs !! i = Some w /\ v_parent w = Some p /\ v_state w = ZOMBIE.
Proof.
  intros Hr Hf. apply wait_scan_Found in Hf as (j & q & -> & Hq & Hp & Hs).
  exists (view q). split_and!; [by apply (krep_lookup_view Hr)|done|done].
Qed.

Lemma krep_scan_none s vs n ini cps H p b :
  krep s vs n ini cps H -> wait_scan p false 0 (procs s) = NotFound b ->
  forall j w, vs !! j = Some w -> v_parent w = Some p -> v_state w <> ZOMBIE.
Proof.
  intros Hr Hf j w Hw Hp. apply wait_scan_NotFound in Hf as [Hf _].
  destruct (krep_lookup Hr j w Hw) as (q & Hq & <- & _). by apply (Forall_lookup_1 _ _ _ _ Hf Hq).
Qed.

(** ** The scheduler *)

Lemma switchuvm_wp s vs n ini cps H c o p v Q :
  krep s vs n ini cps H -> cps !! c = Some o -> vs !! p = Some v ->
  v_ks v = true -> v_pg v = true ->
  (forall s', krep s' vs n ini cps H -> Q () s') -> wp tol (switchuvm c p) s Q.
Proof.
  intros Hr Hc Hv Hks Hpg HQ. kbind. eapply (k_getproc tol Hr); [done|]. intros q _ Hq _.
  rewrite <- Hq in Hks, Hpg. cbn in Hks, Hpg. apply negb_true_iff in Hks, Hpg. rewrite Hks, Hpg.
  apply k_onmach. eapply wp_cli_section; [apply Hr|done|done|done|].
  intros m' Hm. by apply HQ, (krep_mach Hr).
Qed.

Lemma scheduler_pick_wp s vs n ini cps H c rt Q :
  krep s vs n ini cps H -> cps !! c = Some None -> H c = [] ->
  (forall i v, vs !! i = Some v -> v_state v = RUNNABLE -> v_ks v = true /\ v_pg v = true) ->
  (forall s', krep s' vs n ini cps H -> Q None s') ->
  (forall s' i v, vs !! i = Some v -> v_state v = RUNNABLE ->
     krep s' (<[i := v_set_state RUNNING v]> vs) n ini (<[c := Some i]> cps) (hadd c ptable_lock H) ->
     Q (Some i) s') ->
  wp tol (scheduler_pick c rt) s Q.
Proof.
  intros Hr Hc Hh Hmem HQ0 HQ1.
  kbind. eapply (k_upd_cpu tol Hr); [done| |].
  { intros k. by rewrite Hh. }
  clear Hr. intros ? Hr. kbind. eapply (k_acquire tol Hr); [done|auto|]. clear Hr. intros s1 Hr.
  assert (Hnone : forall s', krep s' vs n ini cps (hadd c ptable_lock H) ->
    wp tol (onmach (release c ptable_lock);; ret None) s' Q).
  { intros ? Hr'. kbind. eapply (k_release tol Hr'); [done|by rewrite hadd_same; left|]. intros ? Hr2.
    apply wp_ret, HQ0. eapply krep_ext; [exact Hr2|]. intros. apply hdel_hadd. auto. }
  kbind. apply wp_gets. destruct (0 <? nice_sum (procs s1)); [|by apply Hnone].
  kbind. apply wp_gets. kbind. eapply (k_modify tol Hr); [done..|]. intros s2 Hr2. cbv zeta.
  destruct (lottery_scan _ _ _ _ _) as [i|] eqn:Hscan; [|by apply Hnone].
  apply lottery_scan_Some in Hscan as (j & q & -> & Hq & Hqs). cbn [Nat.add].
  pose proof (krep_lookup_view Hr _ _ Hq) as Hv. destruct (Hmem _ _ Hv Hqs) as [Hks Hpg].
  assert (Hlt : (j < length vs)%nat) by by eapply lookup_lt_Some.
  assert (Hclt : (c < length cps)%nat) by by eapply lookup_lt_Some.
  clear Hr. kbind. eapply (k_upd_cproc tol Hr2); [done|]. intros ? Hr.
  kbind. eapply switchuvm_wp; [exact Hr|by rewrite list_lookup_insert_eq|done..|].
  clear Hr. intros ? Hr. kup Hr.
  kbind. eapply uptime_wp; [exact Hr|by rewrite list_lookup_insert_eq| |].
  { rewrite hadd_same, Hh. set_solver. }
  clear Hr. intros t ? Hr. kid Hr. kid Hr. apply wp_ret. by eapply HQ1.
Qed.

Lemma sched_restore_wp s vs n ini cps H c o ie Q :
  krep s vs n ini cps H -> cps !! c = Some o -> H c <> [] ->
  (forall s', krep s' vs n ini cps H -> Q () s') -> wp tol (sched_restore c ie) s Q.
Proof.
  intros Hr Hc Hh HQ. kbind. eapply (k_mycpu tol Hr); [done|done|].
  eapply (k_upd_cpu tol Hr); [done|done|exact HQ].
Qed.

(** ** Operations on other processes *)

Lemma v_kill_eq v :
  (if decide (v_state v = SLEEPING) then v_set_state RUNNABLE (v_set_killed true v)
   else v_set_killed true v) = v_kill v.
Proof. unfold v_kill. by case_decide. Qed.

Lemma kill_wp s vs n ini cps H c o pid Q :
  krep s vs n ini cps H -> cps !! c = Some o -> ptable_lock ∉ H c ->
  (forall r s', krep s' vs n ini cps H -> Q r s') ->
  (forall r s' i v, vs !! i = Some v -> krep s' (<[i := v_kill v]> vs) n ini cps H -> Q r s') ->
  wp tol (kill c pid) s Q.
Proof.
  intros Hr Hc Hl HQ0 HQ1. kbind. eapply (k_acquire tol Hr); [done..|]. clear Hr. intros s1 Hr.
  kbind. apply wp_gets. assert (Hh : forall c', hdel c ptable_lock (hadd c ptable_lock H) c' = H c')
    by (intros; by apply hdel_hadd).
  destruct (find_pid pid 0 (procs s1)) as [i|] eqn:Hf.
  - apply find_pid_Some in Hf as (j & q & -> & Hq & _). cbn [Nat.add].
    pose proof (krep_lookup_view Hr _ _ Hq) as Hv.
    assert (Hlt : (j < length vs)%nat) by by eapply lookup_lt_Some.
    kup Hr. kbind. eapply (k_getproc tol Hr); [klookup|]. intros u _ Hu _.
    assert (Hst : state u = v_state (view q)) by (apply (f_equal v_state) in Hu; exact Hu).
    assert (Hend : forall s', krep s' (<[j := v_kill (view q)]> vs) n ini cps (hadd c ptable_lock H) ->
      wp tol (onmach (release c ptable_lock);; ret 0) s' Q).
    { intros ? Hr'. kbind. eapply (k_release tol Hr'); [done|by rewrite hadd_same; left|].
      intros ? Hr2. apply wp_ret. eapply HQ1; [done|]. eapply krep_ext; [exact Hr2|done]. }
    kbind. rewrite <- v_kill_eq in Hend. apply wp_when; intros Hs.
    + apply bool_decide_eq_true in Hs. rewrite Hst in Hs. rewrite decide_True in Hend by done.
      eapply (k_updproc tol Hr); [apply _|klookup|]. rewrite list_insert_insert_eq. exact Hend.
    + apply bool_decide_eq_false in Hs. rewrite Hst in Hs. rewrite decide_False in Hend by done.
      by apply Hend.
  - kbind. eapply (k_release tol Hr); [done|by rewrite hadd_same; left|]. clear Hr. intros ? Hr.
    apply wp_ret, HQ0. eapply krep_ext; [exact Hr|done].
Qed.

(** What [renice] does to an entry. *)
Definition v_renice (nice_val pid : Z) (v : pview) : pview :=
  if decide (v_state v <> UNUSED) then if v_pid v =? pid then v_set_nice nice_val v else v else v.

Lemma renice_wp s vs n ini cps H c o nice_val pid Q :
  krep s vs n ini cps H -> cps !! c = Some o -> ptable_lock ∉ H c ->
  (forall r s', krep s' vs n ini cps H -> Q r s') ->
  (forall r s', MIN_NICE_VALUE <= nice_val <= MAX_NICE_VALUE ->
     krep s' (v_renice nice_val pid <$> vs) n ini cps H -> Q r s') ->
  wp tol (renice c nice_val pid) s Q.
Proof.
  intros Hr Hc Hl HQ0 HQ1. unfold renice. destruct (_ || _) eqn:Hb; [by apply wp_ret, HQ0|].
  apply orb_false_iff in Hb as [Hb1 Hb2]. apply Z.ltb_ge in Hb1, Hb2.
  kbind. eapply (k_acquire tol Hr); [done..|]. clear Hr. intros s1 Hr.
  kbind. apply wp_gets. kbind. apply wp_modify.
  assert (Hr2 : krep (set_procs (renice_proc nice_val pid <$> procs s1) s1)
    (v_renice nice_val pid <$> vs) n ini cps (hadd c ptable_lock H)).
  { apply (krep_procs Hr).
    - rewrite <- (kr_view _ _ _ _ _ _ Hr), <- !list_fmap_compose. apply list_fmap_ext.
      intros _ q _. cbn. unfold renice_proc, v_renice. cbn.
      rewrite u32_small by (unfold MIN_NICE_VALUE, MAX_NICE_VALUE in *; lia).
      case_decide; [|done]. by destruct (_ =? _).
    - apply Forall_fmap. eapply Forall_impl; [apply Hr|]. intros q Hq. cbn. unfold renice_proc.
      case_decide; [|done]. by destruct (_ =? _). }
  kbind. eapply (k_release tol Hr2); [done|by rewrite hadd_same; left|]. intros ? Hr3.
  apply wp_ret, HQ1; [done|]. eapply krep_ext; [exact Hr3|]. intros. by apply hdel_hadd.
Qed.

(** ** The clock interrupt *)

Lemma interrupt_wp s vs n ini cps H c o Q :
  krep s vs n ini cps H -> cps !! c = Some o -> H c = [] ->
  (forall s', krep s' vs n ini cps H -> Q () s') ->
  (forall s', krep s' (v_wake (Some chan_ticks) <$> vs) n ini cps H -> Q () s') ->
  wp tol (interrupt c (timer_intr c)) s Q.
Proof.
  intros Hr Hc Hh HQ0 HQ1.
  destruct (mrep_cpu (kr_mach _ _ _ _ _ _ Hr) c o Hc) as (k & Hk & _ & Hok & _).
  kbind. apply k_onmach. eapply wp_eq; [by apply read_if_eq|].
  pose proof (krep_mach Hr _ _ _ (kr_mach _ _ _ _ _ _ Hr)) as Hr0.
  destruct (iflag k); cbn [Z.eqb FL_IF]; [|by apply wp_ret, HQ0].
  kbind. apply k_onmach. eapply wp_eq; [by apply upd_cpu_eq|].
  assert (Hr1 : krep (set_kmach (setcpu c (set_iflag false k) (kmach s)) (set_kmach (kmach s) s))
    vs n ini cps H).
  { apply (krep_mach Hr0). eapply mrep_setcpu_same; [apply Hr|done..]. }
  assert (Hsti : forall s' vs', krep s' vs' n ini cps H ->
    (forall s2, krep s2 vs' n ini cps H -> Q () s2) -> wp tol (onmach (sti c)) s' Q).
  { intros ? vs' Hr' HQ. eapply (k_upd_cpu tol Hr'); [done| |exact HQ]. intros k'. by rewrite Hh. }
  kbind. kbind. apply k_onmach. eapply wp_eq.
  { apply (mycpu_eq c (set_iflag false k)); [apply Hr1|by apply (lookup_setcpu c k)|done]. }
  pose proof (krep_mach Hr1 _ _ _ (kr_mach _ _ _ _ _ _ Hr1)) as Hr2.
  apply wp_when; intros _; [|by eapply Hsti].
  kbind. eapply (k_acquire tol Hr2); [done|auto|]. intros ? Hr3.
  kbind. eapply (k_modify tol Hr3); [done..|]. clear Hr3. intros ? Hr3.
  kbind. eapply wakeup_wp; [done|done|rewrite hadd_same, Hh; set_solver|]. clear Hr3. intros ? Hr3.
  eapply (k_release tol Hr3); [done|by rewrite hadd_same; left|]. intros ? Hr4.
  eapply Hsti; [|exact HQ1]. eapply krep_ext; [exact Hr4|]. intros. apply hdel_hadd. auto.
Qed.
End operations.

(** ** Operations that call the memory, file and disk code *)

Section env_operations.
Context {E : Type} {HE : procenv E} (tol : Prop) (Hew : env_wp (HE:=HE) tol).
Implicit Types (s : kst E) (vs : list pview) (n : Z) (ini : option nat) (cps : list (option nat))
  (H : holds) (c p : nat).

Lemma allocproc_wp s vs n ini cps H c o Q :
  krep s vs n ini cps H -> cps !! c = Some o -> ptable_lock ∉ H c -> 1 <= n < INT_MAX ->
  (forall s', krep s' vs n ini cps H -> Q None s') ->
  (forall s' j w w', vs !! j = Some w -> v_state w = UNUSED -> v_failed n w w' ->
     krep s' (<[j := w']> vs) (n + 1) ini cps H -> Q None s') ->
  (forall s' j w, vs !! j = Some w -> v_state w = UNUSED ->
     krep s' (<[j := v_alloc n w]> vs) (n + 1) ini cps H -> Q (Some j) s') ->
  wp tol (allocproc c) s Q.
Proof.
  intros Hr Hc Hl Hn HQ0 HQ1 HQ2.
  kbind. eapply (k_acquire tol Hr); [done..|]. intros s1 Hr1.
  kbind. apply wp_gets.
  destruct (find_unused 0 (procs s1)) as [j|] eqn:Hf.
  - destruct (krep_find_unused _ _ _ _ _ _ _ Hr1 Hf) as (w & Hw & Hs).
    assert (Hlt : (j < length vs)%nat) by by eapply lookup_lt_Some.
    kup Hr1. kbind. apply wp_gets. rewrite (kr_next _ _ _ _ _ _ Hr1). kup Hr1.
    kbind. apply wp_modify. rewrite s32_small by (unfold INT_MAX in Hn; lia).
    assert (Hr4 : krep (set_nextpid (n + 1) s2)
      (<[j := v_set_pid n (v_set_state EMBRYO w)]> vs) (n + 1) ini cps (hadd c ptable_lock H))
      by (by split; try apply Hr1).
    kbind. eapply (k_release tol Hr4); [done|by rewrite hadd_same; left|]. intros s5 Hr5.
    apply krep_ext with (H' := H) in Hr5; [|intros; by apply hdel_hadd].
    kenv Hr5 Hew. kup Hr5. destruct (Z.eqb_spec r 0) as [->|Hks].
    + kup Hr5. apply wp_ret. by eapply (HQ1 _ j w); [done|done| |exact Hr5].
    + kid Hr5. kid Hr5. kup Hr5. kenv Hr5 Hew. do 4 kid Hr5. kup Hr5.
      apply wp_ret. by eapply HQ2.
  - kbind. eapply (k_release tol Hr1); [done|by rewrite hadd_same; left|]. intros s2 Hr2.
    apply wp_ret, HQ0. eapply krep_ext; [exact Hr2|]. intros c'. by apply hdel_hadd.
Qed.

Lemma fork_files_wp fds : forall s vs n ini cps H cur np v w Q,
  krep s vs n ini cps H -> vs !! cur = Some v -> vs !! np = Some w ->
  Forall (fun i => i < NOFILE)%nat fds ->
  (forall s', krep s' vs n ini cps H -> Q () s') -> wp tol (fork_files cur np fds) s Q.
Proof.
  induction fds as [|i fds IH]; intros s vs n ini cps H cur np v w Q Hr Hv Hw Hf HQ; cbn [fork_files].
  { apply wp_ret. auto. }
  apply Forall_cons in Hf as [Hi Hf].
  kbind. eapply (k_getproc tol Hr); [done|]. intros p Hp Hpv Hsh.
  destruct (lookup_lt_is_Some_2 (ofile p) i) as [f Hfi]; [by rewrite (proj1 Hsh)|].
  kbind. rewrite Hfi. apply wp_deref. destruct f as [f|]; [|eauto].
  kenv Hr Hew. kid Hr. eauto.
Qed.

(** [fork] fails without an entry or without memory, and otherwise has filled
    one. *)
Lemma fork_begin_wp s vs n ini cps H c p v Q :
  krep s vs n ini cps H -> cps !! c = Some (Some p) -> ptable_lock ∉ H c -> 1 <= n < INT_MAX ->
  vs !! p = Some v -> v_state v = RUNNING -> v_cwd v = true ->
  (forall s', krep s' vs n ini cps H -> Q None s') ->
  (forall s' j w w', vs !! j = Some w -> v_state w = UNUSED -> v_failed n w w' ->
     krep s' (<[j := w']> vs) (n + 1) ini cps H -> Q None s') ->
  (forall s' j w, vs !! j = Some w -> v_state w = UNUSED ->
     krep s' (<[j := v_embryo n (Some p) w]> vs) (n + 1) ini cps H -> Q (Some (p, j)) s') ->
  wp tol (fork_begin c) s Q.
Proof.
  intros Hr Hc Hl Hn Hv Hs Hcw HQ0 HQ1 HQ2.
  kbind. eapply (k_curproc tol Hr); [done..|]. clear Hr. intros ? Hr.
  kbind. eapply allocproc_wp; [done..|apply HQ0|exact HQ1|].
  clear Hr. intros ? j w Hw Hws Hr.
  assert (Hlt : (j < length vs)%nat) by by eapply lookup_lt_Some.
  assert (Hpj : j <> p) by congruence.
  kbind. eapply (k_getproc tol Hr); [by rewrite list_lookup_insert_ne|]. intros q _ Hq Hqs.
  kenv Hr Hew. kup Hr. destruct (Z.eqb_spec r 0) as [->|Hpg].
  - kbind. eapply (k_getproc tol Hr); [klookup|]. intros u _ _ _.
    kenv Hr Hew. kup Hr. kup Hr. apply wp_ret. by eapply (HQ1 _ j w); [done|done| |exact Hr].
  - kid Hr. kup Hr. kid Hr. kid Hr.
    kbind. eapply (fork_files_wp _ _ _ _ _ _ _ p j); [done|klookup|klookup| |].
    { apply Forall_forall. intros i. rewrite elem_of_seq. lia. }
    clear Hr. intros ? Hr.
    assert (Hd : exists d, cwd q = Some d).
    { rewrite <- Hq in Hcw. cbn in Hcw. destruct (cwd q); [eauto|done]. }
    destruct Hd as [d ->]. kbind. apply wp_deref. kenv Hr Hew. kup Hr.
    kbind. eapply (k_getproc tol Hr); [klookup|]. intros u _ _ Hu.
    destruct (safestrcpy_name u (name q) Hu) as (nm & -> & Hnm).
    { left. destruct Hqs. unfold NAMELEN in *. lia. }
    pose proof (vsim_name nm Hnm). kbind. apply wp_deref. kid Hr.
    apply wp_ret. by eapply HQ2.
Qed.

(** [userinit] creates init. *)
Lemma userinit_wp s vs n ini cps H c o Q :
  tol -> krep s vs n ini cps H -> cps !! c = Some o -> ptable_lock ∉ H c -> 1 <= n < INT_MAX ->
  (forall s' j w, vs !! j = Some w -> v_state w = UNUSED ->
     krep s' (<[j := v_set_state RUNNABLE (v_embryo n (v_parent w) w)]> vs) (n + 1) (Some j) cps H ->
     Q () s') ->
  wp tol (userinit c) s Q.
Proof.
  intros Htol Hr Hc Hl Hn HQ.
  assert (Hinit : forall s vs n x, krep s vs n ini cps H -> krep (set_initproc x s) vs n x cps H)
    by (intros ? ? ? ? Hx; split; (apply Hx || done)).
  assert (Hfail : forall s' vs n, krep s' vs n ini cps H -> forall (k : Z -> nat -> K E ()),
    wp tol (modify (set_initproc None);; pg ← onenv env_setupkvm;
            p ← deref "userinit: no process" None; k pg p) s' Q).
  { intros s' vs' n' Hr' k. kbind. apply wp_modify. apply (Hinit _ _ _ None) in Hr'.
    kenv Hr' Hew. exact Htol. }
  kbind. eapply allocproc_wp; [done..| | |].
  - intros s' Hr'. eapply Hfail. exact Hr'.
  - intros s' j w w' _ _ _ Hr'. eapply Hfail. exact Hr'.
  - clear Hr. intros s' j w Hw Hs Hr. assert (Hlt : (j < length vs)%nat) by by eapply lookup_lt_Some.
    kbind. apply wp_modify. apply (Hinit _ _ _ (Some j)) in Hr. kenv Hr Hew. kbind. apply wp_deref.
    kup Hr. destruct (Z.eqb_spec r 0) as [->|Hpg]; [exact Htol|].
    kenv Hr Hew. kid Hr. kid Hr.
    kbind. eapply (k_getproc tol Hr); [klookup|]. intros u _ _ Hu.
    destruct (safestrcpy_name u initcode_name Hu) as (nm & -> & Hnm); [right; vm_compute; set_solver|].
    pose proof (vsim_name nm Hnm). kbind. apply wp_deref. kid Hr.
    kenv Hr Hew. kup Hr.
    kbind. eapply (k_acquire tol Hr); [done..|]. clear Hr. intros ? Hr. kup Hr.
    eapply (k_release tol Hr); [done|by rewrite hadd_same; left|]. clear Hr. intros ? Hr.
    eapply HQ; [done|done|]. eapply krep_ext; [exact Hr|]. intros. by apply hdel_hadd.
Qed.

Lemma exit_close_wp fds : forall s vs n ini cps H c o cur v Q,
  krep s vs n ini cps H -> cps !! c = Some o -> ptable_lock ∉ H c ->
  vs !! cur = Some v -> v_state v = RUNNING -> Forall (fun i => i < NOFILE)%nat fds ->
  (forall s' chs, krep s' (v_wakes chs vs) n ini cps H -> Q () s') ->
  wp tol (exit_close c cur fds) s Q.
Proof.
  induction fds as [|i fds IH]; intros s vs n ini cps H c o cur v Q Hr Hc Hl Hv Hs Hf HQ;
    cbn [exit_close].
  { apply wp_ret. by apply (HQ _ []). }
  apply Forall_cons in Hf as [Hi Hf].
  kbind. eapply (k_getproc tol Hr); [done|]. intros p Hp Hpv Hsh.
  destruct (lookup_lt_is_Some_2 (ofile p) i) as [f Hfi]; [by rewrite (proj1 Hsh)|].
  kbind. rewrite Hfi. apply wp_deref. destruct f as [f|]; [|by eapply IH].
  kenv Hr Hew. kbind. eapply wakeups_wp; [done..|]. clear Hr. intros s2 Hr.
  pose proof (v_wakes_running r vs cur v Hv Hs) as Hv'. kid Hr.
  eapply IH; [done..|]. intros ? chs Hr3. apply (HQ _ (r ++ chs)).
  unfold v_wakes. by rewrite foldl_app.
Qed.

Lemma exit_files_wp s vs n ini cps H c p v Q :
  krep s vs n ini cps H -> cps !! c = Some (Some p) -> ptable_lock ∉ H c ->
  vs !! p = Some v -> v_state v = RUNNING -> v_cwd v = true -> (ini = Some p -> tol) ->
  (forall s' chs, ini <> Some p ->
     krep s' (<[p := v_set_cwd false v]> (v_wakes chs vs)) n ini cps H -> Q p s') ->
  wp tol (exit_files c) s Q.
Proof.
  intros Hr Hc Hl Hv Hs Hcw Hini HQ.
  kbind. eapply (k_curproc tol Hr); [done..|]. clear Hr. intros ? Hr.
  kbind. apply wp_gets. rewrite (kr_init _ _ _ _ _ _ Hr).
  destruct (decide (Some p = ini)) as [Hi|Hi]; [by apply Hini|].
  kbind. eapply exit_close_wp; [done..| |].
  { apply Forall_forall. intros i. rewrite elem_of_seq. lia. }
  clear Hr. intros ? chs Hr. pose proof (v_wakes_running chs vs p v Hv Hs) as Hv'.
  kbind. eapply (k_getproc tol Hr); [done|]. intros q _ Hq _.
  assert (Hd : exists d, cwd q = Some d).
  { rewrite <- Hq in Hcw. cbn in Hcw. destruct (cwd q); [eauto|done]. }
  destruct Hd as [d ->]. kbind. apply wp_deref. kenv Hr Hew.
  kbind. eapply wakeups_wp; [done..|]. clear Hr. intros ? Hr.
  pose proof (v_wakes_running r _ p v Hv' Hs) as Hv2. kup Hr. apply wp_ret.
  apply (HQ _ (chs ++ r)); [done|]. unfold v_wakes. by rewrite foldl_app.
Qed.

Lemma wait_turn_wp s vs n ini cps H c p v Q :
  krep s vs n ini cps H -> cps !! c = Some (Some p) -> H c = [ptable_lock] -> vs !! p = Some v ->
  (forall r s' i w, vs !! i = Some w -> v_parent w = Some p -> v_state w = ZOMBIE ->
     krep s' (<[i := v_reap w]> vs) n ini cps (hdel c ptable_lock H) -> Q (Some r) s') ->
  (forall r s', krep s' vs n ini cps (hdel c ptable_lock H) -> Q (Some r) s') ->
  (forall s', v_killed v = false ->
     (forall j w, vs !! j = Some w -> v_parent w = Some p -> v_state w <> ZOMBIE) ->
     krep s' (<[p := v_stop SLEEPING (Some (ChanProc p)) AfterWait v]> vs) n ini cps H -> Q None s') ->
  wp tol (wait_turn c p) s Q.
Proof.
  intros Hr Hc Hh Hv HQ1 HQ2 HQ3. kbind. apply wp_gets.
  destruct (wait_scan p false 0 (procs s)) as [i|b] eqn:Hscan.
  - destruct (krep_scan_found _ _ _ _ _ _ _ _ Hr Hscan) as (w & Hw & Hwp & Hws).
    assert (Hlt : (i < length vs)%nat) by by eapply lookup_lt_Some.
    kbind. eapply (k_getproc tol Hr); [done|]. intros q _ _ _.
    kenv Hr Hew. kup Hr. kenv Hr Hew. kup Hr. kup Hr. kid Hr. kup Hr. kup Hr.
    kbind. eapply (k_release tol Hr); [done|by rewrite Hh; left|]. clear Hr. intros ? Hr.
    apply wp_ret. by eapply HQ1.
  - pose proof (krep_scan_none _ _ _ _ _ _ _ _ Hr Hscan) as Hnz.
    kbind. eapply (k_getproc tol Hr); [done|]. intros q _ Hq _.
    destruct (negb b || negb (killed q =? 0)) eqn:Hb.
    + kbind. eapply (k_release tol Hr); [done|by rewrite Hh; left|]. clear Hr. intros ? Hr.
      apply wp_ret. by apply HQ2.
    + apply orb_false_iff in Hb as [_ Hk].
      kbind. eapply sleep_save_wp; [done..|]. clear Hr. intros ? H' Hr Hh' Ho. apply wp_ret. apply HQ3.
      * by rewrite <- Hq.
      * done.
      * eapply krep_ext; [exact Hr|]. intros c'. destruct (decide (c' = c)) as [->|Hne]; [congruence|auto].
Qed.

(** What a dispatched thread does before it is out of the table lock. *)
Lemma resume_wp s vs n ini cps H c p v Q :
  krep s vs n ini cps H -> cps !! c = Some (Some p) -> H c = [ptable_lock] -> vs !! p = Some v ->
  v_after v <> Some AfterExit -> v_after v <> Some (AfterSleep ptable_lock) ->
  (forall s', v_after v = None \/ v_after v = Some AfterYield ->
     krep s' vs n ini cps (hdel c ptable_lock H) -> Q (Back None) s') ->
  (forall s' lk, v_after v = Some (AfterSleep lk) ->
     krep s' (<[p := v_set_chan None v]> vs) n ini cps (hadd c lk (hdel c ptable_lock H)) ->
     Q (BackLocked lk) s') ->
  (forall s1, v_after v = Some AfterWait ->
     krep s1 (<[p := v_set_chan None v]> vs) n ini cps H ->
     wp tol (wait_turn c p) s1
       (fun r s' => Q (match r with Some x => Back (Some x) | None => Asleep end) s')) ->
  wp tol (resume c p) s Q.
Proof.
  intros Hr Hc Hh Hv Hne Hns HQ1 HQ2 HQ3. kbind. eapply (k_getproc tol Hr); [done|].
  intros q _ Hq _. rewrite <- Hq in Hne, Hns, HQ1, HQ2, HQ3. cbn [v_after view] in *.
  destruct (kctx q) as [|ie after].
  - kbind. kbind. eapply (k_release tol Hr); [done|by rewrite Hh; left|]. clear Hr. intros ? Hr.
    kbind. apply wp_gets. apply wp_when; intros _; [|apply wp_ret, HQ1; auto].
    kbind. eapply (k_modify tol Hr); [done..|]. clear Hr. intros ? Hr.
    eapply (k_onenv tol Hr); [apply Hew|]. intros _ ? Hr2. apply wp_ret, HQ1; auto.
  - kbind. eapply sched_restore_wp; [done|done|by rewrite Hh|]. clear Hr. intros ? Hr.
    rewrite <- Hq in *. destruct after as [| | |lk]; [| done | |].
    + kbind. eapply (k_release tol Hr); [done|by rewrite Hh; left|]. clear Hr. intros ? Hr.
      apply wp_ret, HQ1; auto.
    + kbind. kbind. eapply (k_updproc tol Hr); [apply _|done|]. clear Hr. intros ? Hr.
      rewrite bool_decide_eq_false_2 by auto. apply wp_ret.
      kbind. eapply wp_mono; [eapply HQ3; [done|exact Hr]|].
      intros r ? HQ. apply wp_ret. exact HQ.
    + assert (lk <> ptable_lock) by congruence.
      kbind. kbind. eapply (k_updproc tol Hr); [apply _|done|]. clear Hr. intros ? Hr.
      rewrite bool_decide_eq_true_2 by done.
      kbind. eapply (k_release tol Hr); [done|by rewrite Hh; left|]. clear Hr. intros ? Hr.
      eapply (k_acquire tol Hr); [done| |].
      { rewrite hdel_same, Hh, filter_cons, decide_False by auto. apply not_elem_of_nil. }
      clear Hr. intros ? Hr. apply wp_ret. by apply HQ2.
Qed.

Lemma growproc_wp s vs n ini cps H c p v k Q :
  krep s vs n ini cps H -> cps !! c = Some (Some p) -> vs !! p = Some v ->
  v_ks v = true -> v_pg v = true ->
  (forall r s', krep s' vs n ini cps H -> Q r s') -> wp tol (growproc c k) s Q.
Proof.
  intros Hr Hc Hv Hks Hpg HQ.
  kbind. eapply (k_curproc tol Hr); [done..|]. clear Hr. intros ? Hr.
  kbind. eapply (k_getproc tol Hr); [done|]. intros q _ _ _.
  assert (Hend : forall s' x r, krep s' vs n ini cps H ->
    wp tol (updproc p (set_sz x);; switchuvm c p;; ret r) s' Q).
  { intros ? x r Hr'. kid Hr'. kbind. eapply switchuvm_wp; [done..|]. intros ? Hr2.
    apply wp_ret. by apply HQ. }
  destruct (0 <? k); [|destruct (k <? 0)].
  - kenv Hr Hew. destruct (r =? 0); [by apply wp_ret, HQ|by apply Hend].
  - kenv Hr Hew. destruct (r =? 0); [by apply wp_ret, HQ|by apply Hend].
  - by apply Hend.
Qed.
End env_operations.
