(* ===== verification/KernelInv.v ===== *)
(** The kernel refines the abstract process system, and what follows for
    every reachable state: CPUs and running processes, pids, the process tree,
    wakeups, and that the process code does not panic. *)

From stdpp Require Import functions.
From S2P Require Import Prelude Layout Rand Spinlock Held CString Proc ProcSpec Table ProcSim ProcOps.

(** ** Locks and CPUs between steps *)

Definition phase_held (ph : kphase) : list lockid :=
  match ph with Locked _ lk => [lk] | _ => [] end.

Lemma phase_holds_eq phs c ph : phs !! c = Some ph -> phase_holds phs c = phase_held ph.
Proof. unfold phase_holds. by intros ->. Qed.

Lemma phase_holds_set phs c ph ph0 H :
  phs !! c = Some ph0 -> H c = phase_held ph ->
  (forall c', c' <> c -> H c' = phase_holds phs c') ->
  forall c', H c' = phase_holds (<[c := ph]> phs) c'.
Proof.
  intros Hc Hh Ho c'. destruct (decide (c' = c)) as [->|Hne].
  - rewrite Hh. symmetry. apply phase_holds_eq, list_lookup_insert_eq. by eapply lookup_lt_Some.
  - rewrite Ho by done. unfold phase_holds. by rewrite list_lookup_insert_ne.
Qed.

Lemma hdel_hadd_other (H : holds) c l l' c' : c' <> c -> hdel c l (hadd c l' H) c' = H c'.
Proof. intros. by rewrite hdel_other, hadd_other. Qed.

Section simulation.
Context {E : Type} {HE : procenv E} (tol : Prop) (Hew : env_wp (HE:=HE) tol).

(** [sim vs n ini phs pos c ph0]: CPU [c], in phase [ph0], has done what the
    abstract system can do. *)
Definition sim (vs : list pview) (n : Z) (ini : option nat) (phs : list kphase)
    (pos : nat -> position) (c : nat) (ph0 : kphase) (r : kphase * option position) (s' : kst E) : Prop :=
  exists vs' n' ini',
    krep s' vs' n' ini' (phase_proc <$> <[c := r.1]> phs) (phase_holds (<[c := r.1]> phs)) /\
    rtc astep (Asys vs n ini phs pos) (Asys vs' n' ini' (<[c := r.1]> phs) (move ph0 r.2 pos)).

Context (s : kst E) (vs : list pview) (n : Z) (ini : option nat) (phs : list kphase)
  (pos : nat -> position) (c : nat) (ph : kphase).
Context (Hr : krep s vs n ini (phase_proc <$> phs) (phase_holds phs))
  (Hinv : ainv (Asys vs n ini phs pos)) (Hc : phs !! c = Some ph) (Hn : n < INT_MAX).

Lemma sim_cps : (phase_proc <$> phs) !! c = Some (phase_proc ph).
Proof. by rewrite list_lookup_fmap, Hc. Qed.

(** The phase does not change. *)
Lemma sim_same s' vs' n' ini' po :
  krep s' vs' n' ini' (phase_proc <$> phs) (phase_holds phs) ->
  rtc astep (Asys vs n ini phs pos) (Asys vs' n' ini' phs (move ph po pos)) ->
  sim vs n ini phs pos c ph (ph, po) s'.
Proof.
  intros Hr' Hs. exists vs', n', ini'. cbn. by rewrite list_insert_id.
Qed.

Lemma sim_move s' vs' n' ini' ph' po cps H :
  krep s' vs' n' ini' cps H -> cps = phase_proc <$> <[c := ph']> phs ->
  H c = phase_held ph' -> (forall c', c' <> c -> H c' = phase_holds phs c') ->
  rtc astep (Asys vs n ini phs pos) (Asys vs' n' ini' (<[c := ph']> phs) (move ph po pos)) ->
  sim vs n ini phs pos c ph (ph', po) s'.
Proof.
  intros Hr' -> Hh Ho Hs. exists vs', n', ini'. split; [|done].
  eapply krep_ext; [exact Hr'|]. by apply (phase_holds_set _ _ _ ph).
Qed.

Lemma sim_running p :
  phase_proc ph = Some p ->
  exists v, vs !! p = Some v /\ v_state v = RUNNING /\ v_ks v = true /\ v_pg v = true /\
    (pos p <> InExit -> v_cwd v = true).
Proof.
  intros Hp. destruct (c_cpu _ _ _ (ai_cpu _ Hinv) c ph p Hc Hp) as (v & Hv & Hs).
  destruct (Forall_lookup_1 _ _ _ _ (ai_entry _ Hinv) Hv) as (_ & _ & Hl & _).
  destruct Hl as (_ & _ & Hks & Hpg); [unfold live; congruence|].
  exists v. split_and!; try done. intros Hx. eapply (p_cwd _ _ _ (ai_pos _ Hinv)); [done| |done].
  unfold adult. by rewrite Hs.
Qed.

(** A process hands the CPU back to the scheduler. *)
Lemma sim_return s1 vs1 n1 ini1 p v H po o :
  krep s1 vs1 n1 ini1 (<[c := o]> (phase_proc <$> phs)) H -> H c = [ptable_lock] ->
  (forall c', c' <> c -> H c' = phase_holds phs c') -> vs1 !! p = Some v ->
  rtc astep (Asys vs n ini phs pos) (Asys vs1 n1 ini1 (<[c := Looping]> phs) (move ph po pos)) ->
  wp tol (scheduler_return c p) s1 (fun _ s' => sim vs n ini phs pos c ph (Looping, po) s').
Proof.
  intros Hr1 Hh Ho Hv Hs. eapply scheduler_return_wp; [exact Hr1| |done|done|].
  { apply list_lookup_insert_eq. rewrite length_fmap. by eapply lookup_lt_Some. }
  intros s2 Hr2. rewrite list_insert_insert_eq in Hr2. eapply sim_move; [exact Hr2| | | |done].
  - by rewrite list_fmap_insert.
  - rewrite hdel_same, Hh, filter_cons, decide_False by auto. done.
  - intros c' Hne. rewrite hdel_other by done. auto.
Qed.

Lemma sim_switch s1 vs1 n1 ini1 p v H po :
  krep s1 vs1 n1 ini1 (phase_proc <$> phs) H -> H c = [ptable_lock] ->
  (forall c', c' <> c -> H c' = phase_holds phs c') -> vs1 !! p = Some v ->
  rtc astep (Asys vs n ini phs pos) (Asys vs1 n1 ini1 (<[c := Looping]> phs) (move ph po pos)) ->
  wp tol (scheduler_return c p;; ret (Looping, po)) s1 (sim vs n ini phs pos c ph).
Proof.
  intros Hr1 Hh Ho Hv Hs. rewrite <- (list_insert_id _ _ _ sim_cps) in Hr1.
  kbind. by eapply sim_return.
Qed.

Lemma sim_wakes chs : forall vs0, rtc astep (Asys vs0 n ini phs pos) (Asys (v_wakes chs vs0) n ini phs pos).
Proof.
  induction chs as [|ch chs IH]; intros vs0; [done|]. eapply rtc_l; [apply A_wake|]. apply IH.
Qed.

Lemma sim_wakeup ch :
  wp tol (wakeup c ch;; ret (ph, None)) s (sim vs n ini phs pos c ph).
Proof.
  assert (Hl : ptable_lock ∉ phase_holds phs c).
  { rewrite (phase_holds_eq _ _ _ Hc). destruct ph as [| | |p lk] eqn:Hp; try (apply not_elem_of_nil).
    pose proof (c_locked _ _ _ (ai_cpu _ Hinv) c p lk Hc) as Hlk. intros Hx%list_elem_of_singleton.
    by apply Hlk. }
  kbind. eapply wakeup_wp; [exact Hr|apply sim_cps|done|]. intros s1 Hr1.
  apply wp_ret. eapply sim_same; [done|]. cbn. unfold move.
  destruct (phase_proc ph); apply rtc_once, A_wake.
Qed.

Lemma sim_tick :
  phase_held ph = [] ->
  wp tol (interrupt c (timer_intr c);; ret (ph, None)) s (sim vs n ini phs pos c ph).
Proof.
  intros Hh. assert (Hm : move ph None pos = pos) by (unfold move; by destruct (phase_proc ph)).
  kbind. eapply interrupt_wp; [exact Hr|apply sim_cps|by rewrite (phase_holds_eq _ _ _ Hc)| |];
    intros s1 Hr1; apply wp_ret; (eapply sim_same; [done|]); rewrite Hm.
  - done.
  - apply rtc_once, A_wake.
Qed.

Lemma sim_yield p :
  ph = Running p ->
  wp tol (yield_save c;; scheduler_return c p;; ret (Looping, None)) s (sim vs n ini phs pos c ph).
Proof.
  intros Hph. assert (Hp : phase_proc ph = Some p) by by rewrite Hph.
  destruct (sim_running p Hp) as (v & Hv & Hs & _).
  pose proof sim_cps as Hcps. rewrite Hp in Hcps.
  pose proof (phase_holds_eq _ _ _ Hc) as Hh. rewrite Hph in Hh.
  kbind. eapply yield_save_wp; [exact Hr|done|done|done|]. intros s1 Hr1.
  eapply sim_switch; [exact Hr1|by rewrite hadd_same, Hh|by intros; rewrite hadd_other| |].
  - apply list_lookup_insert_eq. by eapply lookup_lt_Some.
  - apply rtc_once. unfold move. rewrite Hp. eapply A_yield; [by rewrite Hc, Hph|done].
Qed.

Lemma sim_sleep p lk ch :
  ph = Locked p lk ->
  wp tol (sleep c ch lk;; scheduler_return c p;; ret (Looping, None)) s (sim vs n ini phs pos c ph).
Proof.
  intros Hph. assert (Hp : phase_proc ph = Some p) by by rewrite Hph.
  destruct (sim_running p Hp) as (v & Hv & Hs & _).
  pose proof sim_cps as Hcps. rewrite Hp in Hcps.
  pose proof (phase_holds_eq _ _ _ Hc) as Hh. rewrite Hph in Hh.
  kbind. eapply sleep_save_wp; [exact Hr|done|done|done|]. intros s1 H' Hr1 Hh' Ho.
  eapply sim_switch; [exact Hr1|done|done| |].
  - apply list_lookup_insert_eq. by eapply lookup_lt_Some.
  - apply rtc_once. unfold move. rewrite Hp. eapply A_sleep; [by rewrite Hc, Hph|done].
Qed.

Lemma sim_lock p lk :
  ph = Running p -> lk <> ptable_lock ->
  wp tol (onmach (acquire c lk);; ret (Locked p lk, None)) s (sim vs n ini phs pos c ph).
Proof.
  intros Hph Hlk. assert (Hp : phase_proc ph = Some p) by by rewrite Hph.
  pose proof (phase_holds_eq _ _ _ Hc) as Hh. rewrite Hph in Hh.
  kbind. eapply (k_acquire tol Hr); [apply sim_cps|by rewrite Hh; apply not_elem_of_nil|]. intros s1 Hr1.
  apply wp_ret. eapply sim_move; [exact Hr1| | | |].
  - rewrite list_fmap_insert, list_insert_id; [done|]. rewrite list_lookup_fmap, Hc. cbn. by rewrite Hp.
  - by rewrite hadd_same, Hh.
  - intros. by rewrite hadd_other.
  - apply rtc_once. unfold move. rewrite Hp. eapply A_lock; [by rewrite Hc, Hph|done].
Qed.

Lemma sim_unlock p lk :
  ph = Locked p lk ->
  wp tol (onmach (release c lk);; ret (Running p, None)) s (sim vs n ini phs pos c ph).
Proof.
  intros Hph. assert (Hp : phase_proc ph = Some p) by by rewrite Hph.
  pose proof (phase_holds_eq _ _ _ Hc) as Hh. rewrite Hph in Hh.
  kbind. eapply (k_release tol Hr); [apply sim_cps|by rewrite Hh; left|]. intros s1 Hr1.
  apply wp_ret. eapply sim_move; [exact Hr1| | | |].
  - rewrite list_fmap_insert, list_insert_id; [done|]. rewrite list_lookup_fmap, Hc. cbn. by rewrite Hp.
  - rewrite hdel_same, Hh. cbn [phase_held]. rewrite filter_cons, decide_False by auto. done.
  - intros. by rewrite hdel_other.
  - apply rtc_once. unfold move. rewrite Hp. eapply A_unlock. by rewrite Hc, Hph.
Qed.

Lemma sim_kill p k :
  ph = Running p -> wp tol (kill c k;; ret (ph, None)) s (sim vs n ini phs pos c ph).
Proof.
  intros Hph. pose proof (phase_holds_eq _ _ _ Hc) as Hh. rewrite Hph in Hh.
  assert (Hm : move ph None pos = pos) by (unfold move; by destruct (phase_proc ph)).
  kbind. eapply kill_wp; [exact Hr|apply sim_cps|by rewrite Hh; apply not_elem_of_nil| |].
  - intros r s1 Hr1. apply wp_ret. eapply sim_same; [done|]. by rewrite Hm.
  - intros r s1 i v Hv Hr1. apply wp_ret. eapply sim_same; [done|]. rewrite Hm.
    by apply rtc_once, A_kill.
Qed.

Lemma sim_renice p x k :
  ph = Running p -> wp tol (renice c x k;; ret (ph, None)) s (sim vs n ini phs pos c ph).
Proof.
  intros Hph. pose proof (phase_holds_eq _ _ _ Hc) as Hh. rewrite Hph in Hh.
  assert (Hm : move ph None pos = pos) by (unfold move; by destruct (phase_proc ph)).
  kbind. eapply renice_wp; [exact Hr|apply sim_cps|by rewrite Hh; apply not_elem_of_nil| |].
  - intros r s1 Hr1. apply wp_ret. eapply sim_same; [done|]. by rewrite Hm.
  - intros r s1 Hx Hr1. apply wp_ret. eapply sim_same; [done|]. rewrite Hm.
    apply rtc_once, A_renice. intros v. unfold v_renice.
    case_decide; [destruct (_ =? _)|].
    + exists x. auto.
    + exists (v_nice v). split; [by destruct v|auto].
    + exists (v_nice v). split; [by destruct v|auto].
Qed.

Lemma sim_fork_begin p :
  ph = Running p -> pos p = Outside ->
  wp tol (r ← fork_begin c;
          ret (ph, match r with Some (_, np) => Some (InFork np) | None => None end)) s
    (sim vs n ini phs pos c ph).
Proof.
  intros Hph Hpos. assert (Hp : phase_proc ph = Some p) by by rewrite Hph.
  destruct (sim_running p Hp) as (v & Hv & Hs & _ & _ & Hcw).
  pose proof sim_cps as Hcps. rewrite Hp in Hcps.
  pose proof (phase_holds_eq _ _ _ Hc) as Hh. rewrite Hph in Hh.
  pose proof (ai_next _ Hinv) as Hnx. cbn in Hnx.
  kbind. eapply (fork_begin_wp tol Hew); [exact Hr|exact Hcps|by rewrite Hh; apply not_elem_of_nil|lia|
    exact Hv|done|by apply Hcw; rewrite Hpos| | |].
  - intros s1 Hr1. apply wp_ret. eapply sim_same; [done|]. unfold move. by rewrite Hp.
  - intros s1 j w w' Hw Hws Hf Hr1. apply wp_ret. eapply sim_same; [done|]. unfold move. rewrite Hp.
    eapply rtc_once, A_fork_fail; done.
  - intros s1 j w Hw Hws Hr1. apply wp_ret. eapply sim_same; [done|]. unfold move. rewrite Hp.
    eapply rtc_once, A_fork_begin; try done. by rewrite Hc, Hph.
Qed.

Lemma sim_fork_end p np :
  ph = Running p -> pos p = InFork np ->
  wp tol (fork_end c np;; ret (ph, Some Outside)) s (sim vs n ini phs pos c ph).
Proof.
  intros Hph Hpos. assert (Hp : phase_proc ph = Some p) by by rewrite Hph.
  destruct (sim_running p Hp) as (v & Hv & Hs & _).
  pose proof (phase_holds_eq _ _ _ Hc) as Hh. rewrite Hph in Hh.
  destruct (p_fork _ _ _ (ai_pos _ Hinv) _ _ Hpos) as (w & Hw & Hws & Hwp). cbn in Hw.
  kbind. eapply fork_end_wp; [exact Hr|apply sim_cps|by rewrite Hh; apply not_elem_of_nil|exact Hv|exact Hw|
    exact Hwp|congruence|].
  intros r s1 Hr1. apply wp_ret. eapply sim_same; [done|]. unfold move. rewrite Hp.
  eapply rtc_once, A_fork_end; try done. by rewrite Hc, Hph.
Qed.

Lemma sim_exit_files p :
  ph = Running p -> pos p = Outside -> (ini = Some p -> tol) ->
  wp tol (exit_files c;; ret (ph, Some InExit)) s (sim vs n ini phs pos c ph).
Proof.
  intros Hph Hpos Hini. assert (Hp : phase_proc ph = Some p) by by rewrite Hph.
  destruct (sim_running p Hp) as (v & Hv & Hs & _ & _ & Hcw).
  pose proof sim_cps as Hcps. rewrite Hp in Hcps.
  pose proof (phase_holds_eq _ _ _ Hc) as Hh. rewrite Hph in Hh.
  kbind. eapply (exit_files_wp tol Hew); [exact Hr|exact Hcps|by rewrite Hh; apply not_elem_of_nil|exact Hv|
    done|by apply Hcw; rewrite Hpos|done|].
  intros s1 chs Hi Hr1. apply wp_ret. eapply sim_same; [done|]. unfold move. rewrite Hp.
  eapply rtc_r; [apply (sim_wakes chs)|]. eapply A_exit_files; try done.
  - by rewrite Hc, Hph.
  - by apply v_wakes_running.
Qed.

Lemma sim_exit p :
  ph = Running p -> pos p = InExit ->
  wp tol (exit_zombie c p;; scheduler_return c p;; ret (Looping, Some Outside)) s
    (sim vs n ini phs pos c ph).
Proof.
  intros Hph Hpos. assert (Hp : phase_proc ph = Some p) by by rewrite Hph.
  destruct (sim_running p Hp) as (v & Hv & Hs & _).
  pose proof sim_cps as Hcps. rewrite Hp in Hcps.
  pose proof (phase_holds_eq _ _ _ Hc) as Hh. rewrite Hph in Hh.
  kbind. eapply exit_zombie_wp; [exact Hr|done|done|done|done|]. intros s1 Hr1.
  eapply sim_switch; [exact Hr1|by rewrite hadd_same, Hh|by intros; rewrite hadd_other| |].
  - by rewrite lookup_a_exit, Hv.
  - unfold move. rewrite Hp. eapply rtc_once, A_exit; try done. by rewrite Hc, Hph.
Qed.

(** A turn of [wait], from a state the abstract system has reached. *)
Lemma sim_wait_turn s1 vs1 H p v :
  krep s1 vs1 n ini (<[c := Some p]> (phase_proc <$> phs)) H -> H c = [ptable_lock] ->
  (forall c', c' <> c -> H c' = phase_holds phs c') -> vs1 !! p = Some v ->
  rtc astep (Asys vs n ini phs pos) (Asys vs1 n ini (<[c := Running p]> phs) pos) ->
  wp tol (wait_turn c p) s1 (fun r s' =>
    match r with
    | Some _ => sim vs n ini phs pos c ph (Running p, None) s'
    | None => exists vs2 v', vs2 !! p = Some v' /\
        krep s' vs2 n ini (<[c := Some p]> (phase_proc <$> phs)) H /\
        rtc astep (Asys vs n ini phs pos) (Asys vs2 n ini (<[c := Looping]> phs) pos)
    end).
Proof.
  intros Hr1 Hh Ho Hv Hs.
  assert (Hclt : (c < length phs)%nat) by by eapply lookup_lt_Some.
  assert (Hm : move ph None pos = pos) by (unfold move; by destruct (phase_proc ph)).
  assert (Hcps : <[c := Some p]> (phase_proc <$> phs) = phase_proc <$> <[c := Running p]> phs)
    by by rewrite list_fmap_insert.
  assert (Hrun : <[c := Running p]> phs !! c = Some (Running p)) by by apply list_lookup_insert_eq.
  assert (Hd : hdel c ptable_lock H c = phase_held (Running p))
    by (rewrite hdel_same, Hh, filter_cons, decide_False by auto; done).
  assert (Hd' : forall c', c' <> c -> hdel c ptable_lock H c' = phase_holds phs c')
    by (intros; rewrite hdel_other by done; auto).
  eapply (wait_turn_wp tol Hew); [exact Hr1| |done|done| | |].
  - apply list_lookup_insert_eq. by rewrite length_fmap.
  - intros r s2 i w Hw Hwp Hws Hr2. eapply sim_move; [exact Hr2|done|done|done|]. rewrite Hm.
    eapply rtc_r; [exact Hs|]. by eapply A_reap.
  - intros r s2 Hr2. eapply sim_move; [exact Hr2|done|done|done|]. by rewrite Hm.
  - intros s2 Hk Hz Hr2. exists (<[p := v_stop SLEEPING (Some (ChanProc p)) AfterWait v]> vs1).
    eexists. split_and!; [|exact Hr2|].
    + apply list_lookup_insert_eq. by eapply lookup_lt_Some.
    + eapply rtc_r; [exact Hs|].
      replace (<[c := Looping]> phs) with (<[c := Looping]> (<[c := Running p]> phs))
        by apply list_insert_insert_eq.
      by eapply A_wait_sleep.
Qed.

Lemma sim_wait p :
  ph = Running p ->
  wp tol (r ← wait c;
          match r with
          | Some _ => ret (ph, None)
          | None => scheduler_return c p;; ret (Looping, None)
          end) s (sim vs n ini phs pos c ph).
Proof.
  intros Hph. assert (Hp : phase_proc ph = Some p) by by rewrite Hph.
  destruct (sim_running p Hp) as (v & Hv & Hs & _).
  pose proof sim_cps as Hcps. rewrite Hp in Hcps.
  pose proof (phase_holds_eq _ _ _ Hc) as Hh. rewrite Hph in Hh.
  assert (Hid : <[c := Some p]> (phase_proc <$> phs) = phase_proc <$> phs) by by apply list_insert_id.
  assert (Hidp : <[c := Running p]> phs = phs) by (apply list_insert_id; by rewrite Hc, Hph).
  kbind. kbind. eapply (k_curproc tol Hr); [done..|]. intros s1 Hr1.
  kbind. eapply (k_acquire tol Hr1); [done|by rewrite Hh; apply not_elem_of_nil|]. intros s2 Hr2.
  eapply wp_mono; [eapply (sim_wait_turn s2 vs); [rewrite Hid; exact Hr2| | |done|]|].
  - by rewrite hadd_same, Hh.
  - intros. by rewrite hadd_other.
  - by rewrite Hidp.
  - intros [r|] s3; cbn; [rewrite <- Hph; intros; by apply wp_ret|].
    intros (vs2 & v' & Hv' & Hr3 & Hst). rewrite Hid in Hr3.
    eapply sim_switch; [exact Hr3|by rewrite hadd_same, Hh|by intros; rewrite hadd_other|done|].
    unfold move. by rewrite Hp.
Qed.

Lemma sim_grow p k :
  ph = Running p -> wp tol (growproc c k;; ret (ph, None)) s (sim vs n ini phs pos c ph).
Proof.
  intros Hph. assert (Hp : phase_proc ph = Some p) by by rewrite Hph.
  destruct (sim_running p Hp) as (v & Hv & Hs & Hks & Hpg & _).
  pose proof sim_cps as Hcps. rewrite Hp in Hcps.
  kbind. eapply (growproc_wp tol Hew); [exact Hr|done..|]. intros r s1 Hr1.
  apply wp_ret. eapply sim_same; [done|]. unfold move. by rewrite Hp.
Qed.

Lemma sim_userinit :
  ph = Booting -> tol -> wp tol (userinit c;; ret (Looping, None)) s (sim vs n ini phs pos c ph).
Proof.
  intros Hph Htol. pose proof (ai_next _ Hinv) as Hnx. cbn in Hnx.
  pose proof (phase_holds_eq _ _ _ Hc) as Hh. rewrite Hph in Hh.
  assert (Hini : ini = None) by (eapply (c_boot _ _ _ (ai_cpu _ Hinv) c); by rewrite <- Hph).
  kbind. eapply (userinit_wp tol Hew); [done|exact Hr|apply sim_cps|by rewrite Hh; apply not_elem_of_nil|lia|].
  intros s1 j w Hw Hws Hr1. apply wp_ret. eapply sim_move; [exact Hr1| | |done|].
  - rewrite list_fmap_insert, list_insert_id; [done|]. by rewrite list_lookup_fmap, Hc, Hph.
  - by rewrite Hh.
  - unfold move. rewrite Hph, Hini. eapply rtc_once, A_userinit; try done. by rewrite Hc, Hph.
Qed.

Lemma sim_dispatch rt :
  ph = Looping ->
  wp tol (ph' ← dispatch c rt; ret (ph', None)) s (sim vs n ini phs pos c ph).
Proof.
  intros Hph. pose proof sim_cps as Hcps. rewrite Hph in Hcps.
  pose proof (phase_holds_eq _ _ _ Hc) as Hh. rewrite Hph in Hh.
  assert (Hm : forall po, move ph po pos = pos) by (intros; unfold move; by rewrite Hph).
  assert (Hclt : (c < length phs)%nat) by by eapply lookup_lt_Some.
  kbind. kbind. eapply scheduler_pick_wp; [exact Hr|done|done| | |].
  - intros i v Hv Hs. destruct (Forall_lookup_1 _ _ _ _ (ai_entry _ Hinv) Hv) as (_ & _ & Hl & _).
    destruct Hl as (_ & _ & ? & ?); [unfold live; congruence|done].
  - intros s1 Hr1. apply wp_ret, wp_ret. rewrite <- Hph. eapply sim_same; [done|]. by rewrite Hm.
  - intros s1 p v Hv Hs Hr1.
    destruct (Forall_lookup_1 _ _ _ _ (ai_entry _ Hinv) Hv) as (_ & _ & _ & Hw).
    destruct Hw as [Hne Hns]; [by left|].
    assert (Hlt : (p < length vs)%nat) by by eapply lookup_lt_Some.
    assert (Hgo : astep (Asys vs n ini phs pos)
      (Asys (<[p := v_go v]> vs) n ini (<[c := go_phase p (v_after v)]> phs) pos))
      by (apply A_dispatch; by rewrite ?Hc, ?Hph).
    assert (Hother : forall c', c' <> c -> hadd c ptable_lock (phase_holds phs) c' = phase_holds phs c')
      by (intros; by rewrite hadd_other).
    assert (Hd : hdel c ptable_lock (hadd c ptable_lock (phase_holds phs)) c = [])
      by (rewrite hdel_hadd; [done|by rewrite Hh; apply not_elem_of_nil]).
    kbind. eapply (resume_wp tol Hew); [exact Hr1| | |by apply list_lookup_insert_eq|done|done| | |].
    + apply list_lookup_insert_eq. by rewrite length_fmap.
    + by rewrite hadd_same, Hh.
    + intros s2 Haf Hr2. cbn in Haf. apply wp_ret, wp_ret. eapply sim_move; [exact Hr2| |done| |].
      * by rewrite list_fmap_insert.
      * intros. by apply hdel_hadd_other.
      * rewrite Hm. apply rtc_once. unfold v_go, go_phase in Hgo. by destruct Haf as [Ha|Ha]; rewrite Ha in Hgo; rewrite <- Ha in Hgo.
    + intros s2 lk Haf Hr2. cbn in Haf. rewrite list_insert_insert_eq in Hr2.
      apply wp_ret, wp_ret. eapply sim_move; [exact Hr2| | | |].
      * by rewrite list_fmap_insert.
      * by rewrite hadd_same, Hd.
      * intros. by rewrite hadd_other, hdel_hadd_other.
      * rewrite Hm. apply rtc_once. unfold v_go, go_phase in Hgo. rewrite Haf in Hgo.
        by rewrite <- Haf in Hgo.
    + intros s2 Haf Hr2. cbn in Haf. rewrite list_insert_insert_eq in Hr2.
      unfold go_phase in Hgo. rewrite Haf in Hgo.
      assert (Hgv : v_set_chan None (v_set_state RUNNING v) = v_go v).
      { destruct v. cbn in Haf. by subst. }
      rewrite Hgv in Hr2.
      eapply wp_mono; [eapply (sim_wait_turn s2 (<[p := v_go v]> vs)); [exact Hr2| |done| |]|].
      * by rewrite hadd_same, Hh.
      * by apply list_lookup_insert_eq.
      * by apply rtc_once.
      * intros [r|] s3; cbn; [intros; by apply wp_ret, wp_ret|].
        intros (vs2 & v' & Hv' & Hr3 & Hst).
        kbind. eapply sim_return; [exact Hr3|by rewrite hadd_same, Hh|done|done|by rewrite Hm].
Qed.
End simulation.

(** ** Refinement and invariant *)

Section kernel.
Context {E : Type} {HE : procenv E}.
Implicit Types x y : ksys E.

Lemma run_op_sim (tol : Prop) s vs n ini phs pos c ph o m :
  env_wp (HE:=HE) tol ->
  krep s vs n ini (phase_proc <$> phs) (phase_holds phs) ->
  ainv (Asys vs n ini phs pos) -> phs !! c = Some ph -> n < INT_MAX ->
  run_op c ph (pos_of ph pos) o = Some m ->
  (o = OpBoot -> tol) -> (o = OpExit -> ini = phase_proc ph -> tol) ->
  wp tol m s (sim vs n ini phs pos c ph).
Proof.
  intros Hew Hr Hinv Hc Hn Hop Hboot Hexit.
  destruct ph as [| |p|p lk]; unfold pos_of in Hop; cbn [phase_proc] in *;
    destruct o; cbn in Hop; try destruct (pos p) eqn:Hp; try case_decide; simplify_eq;
    first [by eapply sim_wakeup | by eapply sim_tick | by eapply sim_dispatch
      | by eapply sim_yield | by eapply sim_sleep | by eapply sim_lock | by eapply sim_unlock
      | by eapply sim_kill | by eapply sim_renice | by eapply sim_grow | by eapply sim_wait
      | by eapply sim_fork_begin | by eapply sim_fork_end | by eapply sim_exit
      | by eapply sim_exit_files; auto | by eapply sim_userinit; auto].
Qed.

Definition kinv (x : ksys E) : Prop := sys_ok x /\ ainv (abs x).

Lemma kinv_krep x :
  sys_ok x ->
  krep (k_st x) (view <$> procs (k_st x)) (nextpid (k_st x)) (initproc (k_st x))
    (phase_proc <$> k_phases x) (phase_holds (k_phases x)).
Proof. intros [Hs Hm]. by split. Qed.

Lemma kstep_astep x y : kinv x -> kstep x y -> sys_ok y /\ rtc astep (abs x) (abs y).
Proof.
  intros [Hok Hinv] Hstep. pose proof (kinv_krep x Hok) as Hr.
  destruct Hstep as [s phs pos c ph o m ph' po s' Hc Hop Hn Hm]; cbn in *.
  pose proof (run_op_sim True _ _ _ _ _ _ _ _ _ _ env_wp_True Hr Hinv Hc Hn Hop) as Hwp.
  eapply wp_Ok in Hwp; [|done|done|exact Hm].
  destruct Hwp as (vs' & n' & ini' & Hr' & Hst). cbn in *.
  split; [split; apply Hr'|]. unfold abs. cbn.
  by rewrite (kr_view _ _ _ _ _ _ Hr'), (kr_next _ _ _ _ _ _ Hr'), (kr_init _ _ _ _ _ _ Hr').
Qed.

Lemma rtc_ainv a b : rtc astep a b -> ainv a -> ainv b.
Proof. induction 1 as [|a b c Hab _ IH]; [done|]. intros Ha. by eapply IH, step_ainv. Qed.

Lemma kstep_kinv x y : kinv x -> kstep x y -> kinv y.
Proof.
  intros Hx Hs. destruct (kstep_astep x y Hx Hs) as [Hy Ha]. split; [done|].
  eapply rtc_ainv; [exact Ha|]. apply Hx.
Qed.

(** After [main] has set up the machine: an empty table, no locks held,
    interrupts nested nowhere, CPU [0] about to call [userinit], the others in
    the scheduler. *)
Definition booted (x : ksys E) : Prop :=
  procs (k_st x) = replicate NPROC proc0 /\
  nextpid (k_st x) = 1 /\ initproc (k_st x) = None /\
  k_phases x = Booting :: replicate (length (cpus (kmach (k_st x))) - 1) Looping /\
  (forall p, k_pos x p = Outside) /\
  (0 < length (cpus (kmach (k_st x))))%nat /\
  mach_wf (kmach (k_st x)) /\
  Forall (fun k => ncli k = 0 /\ cproc k = None) (cpus (kmach (k_st x))) /\
  (forall l, locked (getlock (kmach (k_st x)) l) = 0).

Definition reachable (x : ksys E) : Prop := exists x0, booted x0 /\ rtc kstep x0 x.

Lemma booted_phases x c ph :
  booted x -> k_phases x !! c = Some ph -> (c = 0%nat /\ ph = Booting) \/ ph = Looping.
Proof.
  intros (_ & _ & _ & -> & _) Hc. destruct c as [|c]; [by left; injection Hc as <-|].
  right. cbn in Hc. by apply lookup_replicate in Hc as [-> _].
Qed.

Lemma booted_kinv x : booted x -> kinv x.
Proof.
  intros Hb. pose proof (booted_phases x) as Hph.
  pose proof Hb as (Hps & Hn & Hi & Hphs & Hpos & Hlen & Hwf & Hcpu & Hlk).
  assert (Hview : forall i v, (view <$> procs (k_st x)) !! i = Some v -> v = view proc0).
  { intros i v. rewrite Hps, fmap_replicate. by intros [-> _]%lookup_replicate. }
  assert (Hnone : forall c ph, k_phases x !! c = Some ph -> phase_proc ph = None).
  { intros c ph Hc. by destruct (Hph c ph Hb Hc) as [[_ ->]| ->]. }
  split; [split|].
  - rewrite Hps. apply Forall_replicate. done.
  - split; try done.
    + intros c k Hk. rewrite Forall_lookup in Hcpu. destruct (Hcpu _ _ Hk) as [-> _].
      unfold phase_holds. destruct (k_phases x !! c) as [ph|] eqn:Hc; [|done].
      by destruct (Hph c ph Hb Hc) as [[_ ->]| ->].
    + intros c l. unfold held_by. rewrite Hlk. cbn. unfold phase_holds.
      destruct (k_phases x !! c) as [ph|] eqn:Hc;
        [destruct (Hph c ph Hb Hc) as [[_ ->]| ->]|]; set_solver.
    + intros c. unfold phase_holds. destruct (k_phases x !! c) as [ph|] eqn:Hc;
        [destruct (Hph c ph Hb Hc) as [[_ ->]| ->]|]; constructor.
    + apply list_eq. intros c. rewrite !list_lookup_fmap.
      destruct (cpus (kmach (k_st x)) !! c) as [k|] eqn:Hk, (k_phases x !! c) as [ph|] eqn:Hc; cbn.
      * rewrite (Hnone c ph Hc). rewrite Forall_lookup in Hcpu. by rewrite (proj2 (Hcpu _ _ Hk)).
      * apply lookup_lt_Some in Hk. apply lookup_ge_None in Hc. rewrite Hphs in Hc. cbn in Hc.
        rewrite length_replicate in Hc. lia.
      * apply lookup_ge_None in Hk. apply lookup_lt_Some in Hc. rewrite Hphs in Hc. cbn in Hc.
        rewrite length_replicate in Hc. lia.
      * done.
  - split; cbn.
    + rewrite Hn. unfold INT_MAX. lia.
    + apply Forall_lookup. intros i v ->%Hview. rewrite Hn.
      by split_and!.
    + rewrite Hi. split; try done.
      * intros i j v w ->%Hview _ Hl. by destruct Hl.
      * intros i v ->%Hview Hl. by destruct Hl.
      * intros _ i v ->%Hview. done.
    + split.
      * intros c ph i Hc Hp. by rewrite (Hnone c ph Hc) in Hp.
      * intros c1 c2 ph1 ph2 i Hc1 _ Hp. by rewrite (Hnone c1 ph1 Hc1) in Hp.
      * by intros i v ->%Hview.
      * intros c p lk Hc. by specialize (Hnone _ _ Hc).
      * done.
      * intros c1 c2 Hc1 Hc2.
        destruct (Hph c1 _ Hb Hc1) as [[-> _]|?], (Hph c2 _ Hb Hc2) as [[-> _]|?]; done.
    + split.
      * intros p j Hp. by rewrite Hpos in Hp.
      * intros p Hp. by rewrite Hpos in Hp.
      * intros p Hp. by rewrite Hpos in Hp.
      * intros i v ->%Hview Ha. by destruct Ha as [[] _].
    + by intros i v ->%Hview.
Qed.

Lemma reachable_kinv x : reachable x -> kinv x.
Proof.
  intros (x0 & Hb & Hs). apply booted_kinv in Hb. induction Hs as [|x y z Hxy _ IH]; [done|].
  by eapply IH, kstep_kinv.
Qed.
End kernel.
