(* ===== verification/Lottery.v ===== *)
(** The lottery: which process [scheduler] draws, how often, and that it
    starves none. *)

From S2P Require Import Prelude Layout Rand Spinlock CString Proc.

(** The tickets a table entry holds in the draw. *)
Definition weight (p : proc) : Z := if decide (state p = RUNNABLE) then nice_value p else 0.
Fixpoint tickets (ps : list proc) : Z :=
  match ps with [] => 0 | p :: ps => weight p + tickets ps end.

(** The nice values [renice], [fork] and [allocproc] can produce. *)
Definition nice_ok (p : proc) : Prop :=
  state p = RUNNABLE -> MIN_NICE_VALUE <= nice_value p <= MAX_NICE_VALUE.
Definition table_ok (ps : list proc) : Prop := (length ps <= NPROC)%nat /\ Forall nice_ok ps.

(** The process that wins with generator state [next]. *)
Definition draw (ps : list proc) (running_total next : Z) : option nat :=
  lottery_scan (u32 (Z.rem (fst (rand next)) (nice_sum ps) + 1)) running_total 0 0 ps.

(** ** Sums *)

Lemma weight_bounds p : nice_ok p -> 0 <= weight p <= MAX_NICE_VALUE.
Proof.
  intros H. unfold weight. case_decide as Hs; [|unfold MAX_NICE_VALUE; lia].
  specialize (H Hs). unfold MIN_NICE_VALUE in H. lia.
Qed.

Lemma tickets_bounds ps :
  Forall nice_ok ps -> 0 <= tickets ps <= MAX_NICE_VALUE * Z.of_nat (length ps).
Proof.
  induction 1 as [|p ps Hp _ IH]; cbn [tickets length]; [unfold MAX_NICE_VALUE; lia|].
  pose proof (weight_bounds p Hp). lia.
Qed.

Lemma tickets_app ps qs : tickets (ps ++ qs) = tickets ps + tickets qs.
Proof. induction ps as [|p ps IH]; cbn; lia. Qed.

Lemma nice_sum_loop_tickets ps : forall total,
  Forall nice_ok ps -> 0 <= total -> total + tickets ps < 2 ^ 31 ->
  nice_sum_loop total ps = total + tickets ps.
Proof.
  induction ps as [|p ps IH]; intros total Hok H0 Hlt; cbn in *; [lia|].
  inversion Hok as [|? ? Hp Hps]; subst.
  pose proof (weight_bounds p Hp) as Hw. pose proof (tickets_bounds ps Hps).
  unfold weight in *. case_decide; rewrite IH; try done; rewrite ?s32_small; lia.
Qed.

Lemma table_tickets_small ps : table_ok ps -> 0 <= tickets ps <= 6400.
Proof.
  intros [Hlen Hok]. pose proof (tickets_bounds ps Hok).
  unfold MAX_NICE_VALUE, NPROC in *. lia.
Qed.

Lemma nice_sum_tickets ps : table_ok ps -> nice_sum ps = tickets ps.
Proof.
  intros Hok. pose proof (table_tickets_small ps Hok). unfold nice_sum.
  rewrite nice_sum_loop_tickets; [lia|apply Hok|lia|lia].
Qed.

(** ** The winner of a ticket *)

(** Process [i] owns the tickets behind those of the entries before it. *)
Definition owns (ps : list proc) (i : nat) (r : Z) : Prop :=
  exists p, ps !! i = Some p /\ state p = RUNNABLE /\
    tickets (take i ps) < r <= tickets (take i ps) + nice_value p.

Lemma lottery_scan_owner ps : forall r rt check i,
  Forall nice_ok ps -> 0 <= check -> check + tickets ps < 2 ^ 31 ->
  check < r <= check + tickets ps ->
  exists j, lottery_scan r rt check i ps = Some (i + j)%nat /\ owns ps j (r - check).
Proof.
  induction ps as [|p ps IH]; intros r rt check i Hok H0 Hlt Hr; cbn [tickets] in *; [lia|].
  inversion Hok as [|? ? Hp Hps]; subst. cbn [lottery_scan].
  pose proof (weight_bounds p Hp) as Hw. pose proof (tickets_bounds ps Hps) as Ht.
  destruct (decide (state p <> RUNNABLE)) as [Hs|Hs].
  - unfold weight in *. rewrite decide_False in * by done.
    destruct (IH r (u32 (rt + nice_value p)) check (S i)) as (j & -> & q & Hq & Hrun & Hin);
      [done|lia..|].
    exists (S j). split; [f_equal; lia|]. exists q. cbn. unfold weight.
    rewrite decide_False by done. split_and!; [done|done|lia..].
  - apply dec_stable in Hs. unfold weight in *. rewrite decide_True in * by done.
    rewrite u32_small by lia.
    destruct (Z.ltb_spec (check + nice_value p) r) as [Hgt|Hle].
    + rewrite s32_small by lia.
      destruct (IH r rt (check + nice_value p) (S i)) as (j & -> & q & Hq & Hrun & Hin);
        [done|lia..|].
      exists (S j). split; [f_equal; lia|]. exists q. cbn. unfold weight.
      rewrite decide_True by done. split_and!; [done|done|lia..].
    + exists O. split; [f_equal; lia|]. exists p. cbn. split_and!; [done|done|lia..].
Qed.

(** Two entries never own the same ticket. *)
Lemma owns_inj ps i j r : Forall nice_ok ps -> owns ps i r -> owns ps j r -> i = j.
Proof.
  intros Hok (p & Hp & Hsp & Hip) (q & Hq & Hsq & Hiq).
  assert (Hmono : forall a b pa, (a < b)%nat -> ps !! a = Some pa -> state pa = RUNNABLE ->
            tickets (take a ps) + nice_value pa <= tickets (take b ps)).
  { intros a b pa Hab Ha Hsa.
    replace (take b ps) with (take (S a) ps ++ take (b - S a) (drop (S a) ps))
      by (rewrite take_take_drop; f_equal; lia).
    rewrite tickets_app, (take_S_r _ _ pa), tickets_app by done. cbn.
    unfold weight. rewrite decide_True by done.
    assert (Hf : Forall nice_ok (take (b - S a) (drop (S a) ps))) by auto using Forall_take, Forall_drop.
    pose proof (tickets_bounds _ Hf). lia. }
  destruct (Nat.lt_trichotomy i j) as [H|[H|H]]; [|done|].
  - pose proof (Hmono _ _ _ H Hp Hsp). lia.
  - pose proof (Hmono _ _ _ H Hq Hsq). lia.
Qed.

Lemma lottery_scan_iff ps r rt i :
  table_ok ps -> 1 <= r <= nice_sum ps ->
  lottery_scan r rt 0 0 ps = Some i <-> owns ps i r.
Proof.
  intros Hok Hr. rewrite nice_sum_tickets in Hr by done.
  pose proof (table_tickets_small ps Hok).
  destruct (lottery_scan_owner ps r rt 0 0) as (j & -> & Hj); [apply Hok|lia..|].
  rewrite Z.sub_0_r in Hj. cbn. split.
  - by intros [= ->].
  - intros Hi. f_equal. by eapply owns_inj; [apply Hok|..].
Qed.

Lemma owns_range ps i r : Forall nice_ok ps -> owns ps i r -> 1 <= r <= tickets ps.
Proof.
  intros Hok (p & Hp & Hs & Hr).
  rewrite <- (take_drop_middle ps i p Hp), tickets_app. cbn.
  unfold weight. rewrite decide_True by done.
  pose proof (tickets_bounds (take i ps) ltac:(by apply Forall_take)).
  pose proof (tickets_bounds (drop (S i) ps) ltac:(by apply Forall_drop)). lia.
Qed.

(** With a runnable process the loop always finds a winner. *)
Lemma lottery_total (ps : list proc) (rt next : Z) :
  table_ok ps -> 0 < nice_sum ps ->
  exists i p, draw ps rt next = Some i /\ ps !! i = Some p /\ state p = RUNNABLE.
Proof.
  intros Hok Hpos. pose proof (nice_sum_tickets ps Hok) as Hn.
  pose proof (table_tickets_small ps Hok) as Hsm. pose proof (rand_bounds next) as Hb.
  unfold draw. rewrite Z.rem_mod_nonneg by lia.
  pose proof (Z.mod_pos_bound (fst (rand next)) (nice_sum ps) Hpos).
  rewrite u32_small by lia.
  destruct (lottery_scan_owner ps (fst (rand next) mod nice_sum ps + 1) rt 0 0)
    as (j & -> & p & Hp & Hs & _); [apply Hok|lia..|]. eauto.
Qed.

Lemma prefix_tickets ps i p :
  Forall nice_ok ps -> ps !! i = Some p -> state p = RUNNABLE ->
  0 <= tickets (take i ps) /\ 1 <= nice_value p /\
  tickets (take i ps) + nice_value p <= tickets ps.
Proof.
  intros Hok Hp Hs.
  assert (Hpos : 1 <= nice_value p).
  { rewrite Forall_lookup in Hok. specialize (Hok _ _ Hp Hs). unfold MIN_NICE_VALUE in Hok. lia. }
  pose proof (tickets_bounds (take i ps) ltac:(by apply Forall_take)).
  assert (Ho : owns ps i (tickets (take i ps) + nice_value p)) by (exists p; split_and!; [done|done|lia..]).
  apply owns_range in Ho; [|done]. lia.
Qed.

(** The tickets of [i], as a test. *)
Lemma owns_iff ps i p r :
  ps !! i = Some p -> state p = RUNNABLE ->
  owns ps i r <-> tickets (take i ps) < r <= tickets (take i ps) + nice_value p.
Proof.
  intros Hp Hs. split; [|by exists p].
  intros (q & Hq & _ & Hr). rewrite Hp in Hq. by injection Hq as <-.
Qed.

Lemma lottery_scan_bool ps rt i p r :
  table_ok ps -> ps !! i = Some p -> state p = RUNNABLE -> 1 <= r <= nice_sum ps ->
  bool_decide (lottery_scan r rt 0 0 ps = Some i) =
  (tickets (take i ps) <? r) && (r <=? tickets (take i ps) + nice_value p).
Proof.
  intros Hok Hp Hs Hr. apply Bool.eq_iff_eq_true.
  rewrite bool_decide_eq_true, lottery_scan_iff, (owns_iff ps i p), andb_true_iff, Z.ltb_lt, Z.leb_le
    by done. done.
Qed.

(** C8. Of the tickets 1 .. nice_sum() exactly [nice_value] make a given
    runnable process the winner of the scan. *)
Theorem lottery_fair (ps : list proc) (rt : Z) (i : nat) (p : proc) :
  table_ok ps -> ps !! i = Some p -> state p = RUNNABLE ->
  countZ (fun r => bool_decide (lottery_scan r rt 0 0 ps = Some i)) 1 (Z.to_nat (nice_sum ps))
  = nice_value p.
Proof.
  intros Hok Hp Hs. pose proof (prefix_tickets ps i p (proj2 Hok) Hp Hs).
  pose proof (nice_sum_tickets ps Hok) as Hn.
  erewrite countZ_ext by (intros r Hr; apply lottery_scan_bool; [done..|lia]).
  rewrite countZ_interval by lia. lia.
Qed.

Lemma draw_ticket ps rt next :
  table_ok ps -> 0 < nice_sum ps ->
  draw ps rt next = lottery_scan (fst (rand next) mod nice_sum ps + 1) rt 0 0 ps.
Proof.
  intros Hok Hpos. pose proof (nice_sum_tickets ps Hok) as Hn.
  pose proof (table_tickets_small ps Hok) as Hsm. pose proof (rand_bounds next) as Hb.
  unfold draw. rewrite Z.rem_mod_nonneg by lia.
  pose proof (Z.mod_pos_bound (fst (rand next)) (nice_sum ps) Hpos).
  by rewrite u32_small by lia.
Qed.

(** The reduction of [rand] modulo nice_sum() is nearly fair: of the 65536
    values [rand] can return, a runnable process wins at least nice_value *
    (65536 / nice_sum) and at most nice_value more. *)
Theorem lottery_bias (ps : list proc) (rt : Z) (i : nat) (p : proc) :
  table_ok ps -> ps !! i = Some p -> state p = RUNNABLE ->
  let wins := countZ (fun v => bool_decide
      (lottery_scan (u32 (Z.rem v (nice_sum ps) + 1)) rt 0 0 ps = Some i)) 0 (Z.to_nat 65536) in
  nice_value p * (65536 / nice_sum ps) <= wins <= nice_value p * (65536 / nice_sum ps + 1).
Proof.
  intros Hok Hp Hs. cbv zeta. pose proof (prefix_tickets ps i p (proj2 Hok) Hp Hs) as Ht.
  pose proof (nice_sum_tickets ps Hok) as Hn. pose proof (table_tickets_small ps Hok) as Hsm.
  rewrite (countZ_ext _ (fun r => (tickets (take i ps) <=? r mod nice_sum ps) &&
     (r mod nice_sum ps <? tickets (take i ps) + nice_value p))).
  - rewrite countZ_mod, Z2Nat.id by lia.
    pose proof (Z.mod_pos_bound 65536 (nice_sum ps) ltac:(lia)). lia.
  - intros v Hv. rewrite Z2Nat.id in Hv by lia.
    pose proof (Z.mod_pos_bound v (nice_sum ps) ltac:(lia)).
    rewrite Z.rem_mod_nonneg, u32_small, (lottery_scan_bool ps rt i p) by (done || lia).
    apply Bool.eq_iff_eq_true. rewrite !andb_true_iff, !Z.ltb_lt, !Z.leb_le. lia.
Qed.

(** Some draw within the period of the generator picks [i]. *)
Lemma draw_reaches (ps : list proc) (rt next : Z) (i : nat) (p : proc) :
  table_ok ps -> ps !! i = Some p -> state p = RUNNABLE ->
  exists n, Z.of_nat n < 2 ^ 32 /\ draw ps rt (Nat.iter n rand_next next) = Some i.
Proof.
  intros Hok Hp Hs. pose proof (prefix_tickets ps i p (proj2 Hok) Hp Hs) as Ht.
  pose proof (nice_sum_tickets ps Hok) as Hn. pose proof (table_tickets_small ps Hok) as Hsm.
  destruct (rand_reaches next (tickets (take i ps)) ltac:(lia)) as (n & Hlt & Hr).
  exists n. split; [done|].
  rewrite draw_ticket, Hr, Z.mod_small by (done || lia).
  apply lottery_scan_iff; [done|lia|]. apply (owns_iff _ _ p); [done|done|lia].
Qed.

(** ** A table with three runnable processes of weights 1, 2 and 40 *)

Definition small_table : list proc :=
  [set_state RUNNABLE (set_nice_value 1 proc0); proc0;
   set_state RUNNABLE (set_nice_value 2 proc0); set_state RUNNABLE (set_nice_value 40 proc0)].

Lemma small_table_ok : table_ok small_table.
Proof.
  split; [vm_compute; lia|].
  repeat (constructor; [intros Hs; vm_compute in Hs; vm_compute; intuition congruence|]). constructor.
Qed.

Lemma lottery_fair_witness :
  countZ (fun r => bool_decide (lottery_scan r 0 0 0 small_table = Some 2%nat)) 1
    (Z.to_nat (nice_sum small_table)) = 2.
Proof.
  exact (lottery_fair small_table 0 2 (set_state RUNNABLE (set_nice_value 2 proc0))
    small_table_ok eq_refl eq_refl).
Defined.

Lemma lottery_bias_witness :
  let wins := countZ (fun v => bool_decide
      (lottery_scan (u32 (Z.rem v (nice_sum small_table) + 1)) 0 0 0 small_table = Some 2%nat)) 0
      (Z.to_nat 65536) in
  2 * (65536 / nice_sum small_table) <= wins <= 2 * (65536 / nice_sum small_table + 1).
Proof.
  exact (lottery_bias small_table 0 2 (set_state RUNNABLE (set_nice_value 2 proc0))
    small_table_ok eq_refl eq_refl).
Defined.
