(* ===== verification/KernelThms.v ===== *)
(** Theorems on the reachable states of the kernel. *)

From stdpp Require Import functions.
From S2P Require Import Prelude Layout Rand Spinlock Held CString Proc ProcSpec Table ProcSim ProcOps KernelInv Lottery.

(** ** Running the system *)

Section run.
Context {E : Type} {HE : procenv E}.

Definition kexec (x : ksys E) (c : nat) (o : kop) : option (ksys E) :=
  match k_phases x !! c with
  | None => None
  | Some ph =>
      match run_op c ph (pos_of ph (k_pos x)) o with
      | None => None
      | Some m =>
          if nextpid (k_st x) <? INT_MAX then
            match m (k_st x) with
            | Ok ((ph', po), s') => Some (Ksys s' (<[c := ph']> (k_phases x)) (move ph po (k_pos x)))
            | _ => None
            end
          else None
      end
  end.

Fixpoint kexecs (x : ksys E) (ops : list (nat * kop)) : option (ksys E) :=
  match ops with
  | [] => Some x
  | (c, o) :: ops => match kexec x c o with Some y => kexecs y ops | None => None end
  end.

Lemma kexec_kstep x c o y : kexec x c o = Some y -> kstep x y.
Proof.
  unfold kexec. destruct x as [s phs pos]. cbn.
  destruct (phs !! c) as [ph|] eqn:Hc; [|done].
  destruct (run_op c ph (pos_of ph pos) o) as [m|] eqn:Hm; [|done].
  destruct (Z.ltb_spec (nextpid s) INT_MAX); [|done].
  destruct (m s) as [[[ph' po] s']| | |] eqn:Hs; try done. intros [= <-]. by eapply K_step.
Qed.

Lemma kexecs_rtc ops : forall x y, kexecs x ops = Some y -> rtc kstep x y.
Proof.
  induction ops as [|[c o] ops IH]; intros x y Hy; cbn in Hy; [by simplify_eq|].
  destruct (kexec x c o) as [z|] eqn:Hz; [|done].
  eapply rtc_l; [by eapply kexec_kstep|by apply IH].
Qed.
End run.

(** ** The theorems *)

Section theorems.
Context {E : Type} {HE : procenv E}.
Implicit Types x y : ksys E.

Lemma reachable_view x i p :
  procs (k_st x) !! i = Some p -> a_procs (abs x) !! i = Some (view p).
Proof. intros Hp. cbn. by rewrite list_lookup_fmap, Hp. Qed.

Lemma reachable_cproc x c k p :
  reachable x -> cpus (kmach (k_st x)) !! c = Some k -> cproc k = Some p ->
  exists ph, k_phases x !! c = Some ph /\ phase_proc ph = Some p.
Proof.
  intros Hx Hk Hp. destruct (reachable_kinv x Hx) as [[_ Hm] _].
  pose proof (mr_procs _ _ _ Hm) as He. apply (f_equal (.!! c)) in He.
  rewrite !list_lookup_fmap, Hk in He. cbn in He. rewrite Hp in He.
  destruct (k_phases x !! c) as [ph|]; [|done]. injection He as He. eauto.
Qed.

Lemma reachable_phase x c ph p :
  reachable x -> k_phases x !! c = Some ph -> phase_proc ph = Some p ->
  exists k, cpus (kmach (k_st x)) !! c = Some k /\ cproc k = Some p.
Proof.
  intros Hx Hc Hp. destruct (reachable_kinv x Hx) as [[_ Hm] _].
  pose proof (mr_procs _ _ _ Hm) as He. apply (f_equal (.!! c)) in He.
  rewrite !list_lookup_fmap, Hc in He. cbn in He. rewrite Hp in He.
  destruct (cpus (kmach (k_st x)) !! c) as [k|]; [|done]. injection He as He. eauto.
Qed.

(** C1. Every run of the process code on any number of CPUs is a run of the
    abstract process system: from the booted machine, the critical sections of
    [scheduler], [sched], [yield], [sleep], [wakeup], [fork], [exit], [wait],
    [kill], [renice], [growproc], [userinit] and the clock interrupt, in any
    interleaving, only make the table changes the abstract steps allow. *)
Theorem kernel_refines x0 x :
  booted x0 -> rtc kstep x0 x -> rtc astep (abs x0) (abs x).
Proof.
  intros Hb Hs. apply booted_kinv in Hb. induction Hs as [|x y z Hxy _ IH]; [done|].
  destruct (kstep_astep x y Hb Hxy) as [_ Ha]. etrans; [exact Ha|].
  apply IH. by eapply kstep_kinv.
Qed.

(** C3. In every reachable state exactly the processes some CPU points to with
    [c->proc] are RUNNING, and no two CPUs point to the same process. *)
Theorem running_on_one_cpu x :
  reachable x ->
  (forall c k p, cpus (kmach (k_st x)) !! c = Some k -> cproc k = Some p ->
     exists q, procs (k_st x) !! p = Some q /\ state q = RUNNING) /\
  (forall c1 c2 k1 k2 p, cpus (kmach (k_st x)) !! c1 = Some k1 -> cpus (kmach (k_st x)) !! c2 = Some k2 ->
     cproc k1 = Some p -> cproc k2 = Some p -> c1 = c2) /\
  (forall p q, procs (k_st x) !! p = Some q -> state q = RUNNING ->
     exists c k, cpus (kmach (k_st x)) !! c = Some k /\ cproc k = Some p).
Proof.
  intros Hx. destruct (reachable_kinv x Hx) as [_ Hinv]. pose proof (ai_cpu _ Hinv) as Hcpu.
  split_and!.
  - intros c k p Hk Hp. destruct (reachable_cproc x c k p Hx Hk Hp) as (ph & Hc & Hph).
    destruct (c_cpu _ _ _ Hcpu c ph p Hc Hph) as (v & Hv & Hs).
    cbn in Hv. rewrite list_lookup_fmap in Hv. apply fmap_Some in Hv as (q & Hq & ->). eauto.
  - intros c1 c2 k1 k2 p Hk1 Hk2 Hp1 Hp2.
    destruct (reachable_cproc x c1 k1 p Hx Hk1 Hp1) as (ph1 & Hc1 & Hph1).
    destruct (reachable_cproc x c2 k2 p Hx Hk2 Hp2) as (ph2 & Hc2 & Hph2).
    by eapply (c_inj _ _ _ Hcpu).
  - intros p q Hq Hs. destruct (c_run _ _ _ Hcpu p (view q)) as (c & ph & Hc & Hph);
      [by apply reachable_view|done|].
    destruct (reachable_phase x c ph p Hx Hc Hph) as (k & Hk & Hp). eauto.
Qed.

(** In every reachable state live processes have positive pids below
    [nextpid] and no two of them share one. *)
Theorem pids_unique x i j p q :
  reachable x -> procs (k_st x) !! i = Some p -> procs (k_st x) !! j = Some q ->
  state p <> UNUSED -> state q <> UNUSED ->
  1 <= pid p < nextpid (k_st x) /\ (pid p = pid q -> i = j).
Proof.
  intros Hx Hp Hq Hsp Hsq. destruct (reachable_kinv x Hx) as [_ Hinv].
  apply reachable_view in Hp, Hq. split.
  - by apply (Forall_lookup_1 _ _ _ _ (ai_entry _ Hinv) Hp).
  - intros He. by apply (t_pid _ _ (ai_tree _ Hinv) i j (view p) (view q)).
Qed.

(** One step up the process tree. *)
Definition child_of (ps : list proc) (i j : nat) : Prop :=
  exists p, ps !! i = Some p /\ parent p = Some j.

(** C5. In every reachable state every live process reaches init by following
    [parent]: orphans are adopted and the parent pointers have no cycle. *)
Theorem process_tree x i0 i p :
  reachable x -> initproc (k_st x) = Some i0 ->
  procs (k_st x) !! i = Some p -> state p <> UNUSED ->
  rtc (child_of (procs (k_st x))) i i0.
Proof.
  intros Hx Hi0. destruct (reachable_kinv x Hx) as [_ Hinv]. pose proof (ai_tree _ Hinv) as Ht.
  revert i p.
  assert (Hind : forall k i p, 0 <= pid p -> (Z.to_nat (pid p) < k)%nat ->
    procs (k_st x) !! i = Some p -> state p <> UNUSED -> rtc (child_of (procs (k_st x))) i i0).
  { induction k as [|k IH]; intros i p Hpos Hk Hp Hs; [lia|].
    destruct (decide (i = i0)) as [->|Hne]; [done|].
    destruct (t_parent _ _ Ht i (view p)) as (j & w & Hj & Hw & Ha & Hlt);
      [by apply reachable_view|done|cbn; congruence|].
    cbn in Hw. rewrite list_lookup_fmap in Hw. apply fmap_Some in Hw as (q & Hq & ->). cbn in *.
    eapply rtc_l; [by exists p|].
    assert (Hqs : state q <> UNUSED) by apply Ha.
    destruct (Forall_lookup_1 _ _ _ _ (ai_entry _ Hinv) (reachable_view x j q Hq)) as (_ & _ & Hl & _).
    destruct (Hl Hqs) as [Hqp _]. cbn in Hqp.
    eapply (IH j q); [lia|lia|done|done]. }
  intros i p Hp Hs.
  destruct (Forall_lookup_1 _ _ _ _ (ai_entry _ Hinv) (reachable_view x i p Hp)) as (_ & _ & Hl & _).
  destruct (Hl Hs) as [Hpp _]. cbn in Hpp. by apply (Hind (S (Z.to_nat (pid p))) i p); [lia|lia|..].
Qed.

(** C4. No wakeup is lost between [exit] and [wait]: a process asleep in [wait]
    sleeps on its own channel, has not been killed and has no exited child, in
    every reachable state. *)
Theorem wait_not_lost x i p j q ie :
  reachable x -> procs (k_st x) !! i = Some p -> state p = SLEEPING ->
  kctx p = InSched ie AfterWait ->
  procs (k_st x) !! j = Some q -> parent q = Some i ->
  chan p = Some (ChanProc i) /\ killed p = 0 /\ state q <> ZOMBIE.
Proof.
  intros Hx Hp Hs Hk Hq Hpar. destruct (reachable_kinv x Hx) as [_ Hinv].
  apply reachable_view in Hp, Hq.
  destruct (ai_wait _ Hinv i (view p) Hp Hs) as (Hch & Hkl & Hz); [cbn; by rewrite Hk|].
  split_and!; [done| |by apply (Hz j (view q))].
  cbn in Hkl. apply negb_false_iff, Z.eqb_eq in Hkl. done.
Qed.

(** C2. In every reachable state every operation of the process code either
    returns or spins on a lock: none of the panics of [acquire], [release],
    [popcli], [mycpu], [sched], [sleep], [switchuvm] and [exit] (zombie exit)
    and no null process pointer is reached, provided the memory, file and disk
    code it calls does not panic and the pids have not run up to [INT_MAX]. Left
    out are boot without memory and init itself calling [exit]. *)
Theorem kernel_never_panics x c ph o m :
  env_wp (HE:=HE) False -> reachable x -> k_phases x !! c = Some ph ->
  nextpid (k_st x) < INT_MAX -> run_op c ph (pos_of ph (k_pos x)) o = Some m ->
  o <> OpBoot -> (o = OpExit -> initproc (k_st x) <> phase_proc ph) ->
  m (k_st x) = Spin \/ exists r s', m (k_st x) = Ok (r, s').
Proof.
  intros Hew Hx Hc Hn Hop Hb He. destruct (reachable_kinv x Hx) as [Hok Hinv].
  pose proof (run_op_sim False _ _ _ _ _ _ _ _ _ _ Hew (kinv_krep x Hok) Hinv Hc Hn Hop) as Hwp.
  specialize (Hwp Hb He). unfold wp in Hwp. destruct (m (k_st x)) as [[r s']| | |]; eauto; done.
Qed.

(** ** The lottery in the reachable states *)

Lemma astep_length a a' : astep a a' -> length (a_procs a') = length (a_procs a).
Proof.
  destruct 1; cbn; rewrite ?length_insert, ?length_fmap; try done.
  unfold a_exit, a_reparent. rewrite length_alter. destruct (existsb _ _); by rewrite !length_fmap.
Qed.

Lemma reachable_length x : reachable x -> length (procs (k_st x)) = NPROC.
Proof.
  intros (x0 & Hb & Hs).
  assert (Ha : rtc astep (abs x0) (abs x)).
  { pose proof (booted_kinv x0 Hb) as Hk. clear Hb. induction Hs as [|x y z Hxy _ IH]; [done|].
    destruct (kstep_astep x y Hk Hxy) as [_ Ha]. etrans; [exact Ha|]. apply IH. by eapply kstep_kinv. }
  assert (Hl : length (a_procs (abs x)) = length (a_procs (abs x0))).
  { clear Hb Hs. induction Ha as [|a b d Hab _ IH]; [done|]. by rewrite IH, (astep_length a b). }
  cbn in Hl. rewrite !length_fmap in Hl. rewrite Hl. destruct Hb as (-> & _).
  by rewrite length_replicate.
Qed.

Lemma reachable_table_ok x : reachable x -> table_ok (procs (k_st x)).
Proof.
  intros Hx. split; [by rewrite reachable_length|].
  destruct (reachable_kinv x Hx) as [_ Hinv]. apply Forall_lookup. intros i p Hp Hs.
  destruct (Forall_lookup_1 _ _ _ _ (ai_entry _ Hinv) (reachable_view x i p Hp)) as (_ & _ & Hl & _).
  apply Hl. unfold live. cbn. congruence.
Qed.

(** ** What an iteration of the scheduler chooses *)

Lemma onmach_inv {A} (m : M mach A) (s : kst E) a s' :
  onmach m s = Ok (a, s') -> exists m', s' = set_kmach m' s.
Proof.
  unfold onmach, zoom. destruct (m (kmach s)) as [[b m']| | |]; try done. intros [= _ <-]. eauto.
Qed.

Lemma keeps_rnext_onmach {A} (m : M mach A) : keeps (rnext (E:=E)) (onmach m).
Proof. by intros s a s' (m' & ->)%onmach_inv. Qed.

Lemma keeps_rnext_getproc i : keeps (rnext (E:=E)) (getproc i).
Proof. unfold getproc. eauto with keeps. Qed.
#[local] Hint Resolve keeps_rnext_onmach keeps_rnext_getproc : keeps.

Lemma keeps_rnext_updproc i f : keeps (rnext (E:=E)) (updproc i f).
Proof. unfold updproc. eauto with keeps. Qed.
#[local] Hint Resolve keeps_rnext_updproc : keeps.

Lemma keeps_rnext_uptime c : keeps (rnext (E:=E)) (uptime c).
Proof. unfold uptime. eauto 10 with keeps. Qed.
#[local] Hint Resolve keeps_rnext_uptime : keeps.

Lemma keeps_rnext_switchuvm c i : keeps (rnext (E:=E)) (switchuvm c i).
Proof. unfold switchuvm. eauto 10 with keeps. Qed.
#[local] Hint Resolve keeps_rnext_switchuvm : keeps.

Lemma pick_result {A} (m : K E ()) (o : A) s r s' :
  keeps (rnext (E:=E)) m -> (m;; ret o) s = Ok (r, s') -> r = o /\ rnext s' = rnext s.
Proof.
  intros Hk H. apply bind_inv in H as (a & s1 & H1 & H2). injection H2 as <- <-.
  split; [done|]. by eapply Hk.
Qed.

Lemma pick_dispatch c (p : nat) s (r : option nat) (s' : kst E) :
  (onmach (upd_cpu c (set_cproc (Some p)));;
   switchuvm c p;;
   updproc p (set_state RUNNING);;
   t ← uptime c;
   updproc p (set_ticks_begin (u32 t));;
   updproc p (fun q => set_sched_times (u32 (sched_times q + 1)) q);;
   ret (Some p)) s = Ok (r, s') ->
  r = Some p /\ rnext s' = rnext s.
Proof.
  intros H.
  apply bind_inv in H as (? & s1 & H1 & H). apply keeps_rnext_onmach in H1.
  apply bind_inv in H as (? & s2 & H2 & H). apply keeps_rnext_switchuvm in H2.
  apply bind_inv in H as (? & s3 & H3 & H). apply keeps_rnext_updproc in H3.
  apply bind_inv in H as (? & s4 & H4 & H). apply keeps_rnext_uptime in H4.
  apply bind_inv in H as (? & s5 & H5 & H). apply keeps_rnext_updproc in H5.
  apply bind_inv in H as (? & s6 & H6 & H). apply keeps_rnext_updproc in H6.
  injection H as <- <-. split; [done|congruence].
Qed.

(** The scheduler picks the draw and advances the generator. *)
Lemma scheduler_pick_draws (c : nat) (rt : Z) (s : kst E) o s' :
  scheduler_pick c rt s = Ok (o, s') ->
  o = (if 0 <? nice_sum (procs s) then draw (procs s) rt (rnext s) else None) /\
  rnext s' = (if 0 <? nice_sum (procs s) then rand_next (rnext s) else rnext s).
Proof.
  intros H. unfold scheduler_pick in H.
  apply bind_inv in H as ([] & s1 & H1 & H). apply onmach_inv in H1 as (m1 & ->).
  apply bind_inv in H as ([] & s2 & H2 & H). apply onmach_inv in H2 as (m2 & ->).
  apply bind_inv in H as (ps & s3 & H3 & H). injection H3 as <- <-. cbn [procs set_kmach] in H.
  destruct (0 <? nice_sum (procs s)); [|by apply pick_result in H; [|apply keeps_rnext_onmach]].
  apply bind_inv in H as (nx & s4 & H4 & H). injection H4 as <- <-.
  apply bind_inv in H as ([] & s5 & H5 & H). injection H5 as <-. cbv zeta in H. unfold draw.
  rewrite <- rand_snd. cbn [rnext set_kmach] in H.
  destruct (lottery_scan _ _ _ _ _) as [p|]; [by apply pick_dispatch in H|].
  by apply pick_result in H; [|apply keeps_rnext_onmach].
Qed.

(** C6. In a reachable state with a runnable process an iteration of the lottery
    [scheduler] never comes back empty-handed: unless it spins on a lock it
    returns the process that owns the ticket drawn from [rand], which is
    RUNNABLE, and advances the generator once. *)
Theorem scheduler_work_conserving x c (rt : Z) i p :
  reachable x -> k_phases x !! c = Some Looping ->
  procs (k_st x) !! i = Some p -> state p = RUNNABLE ->
  scheduler_pick c rt (k_st x) = Spin \/
  exists w q s', scheduler_pick c rt (k_st x) = Ok (Some w, s') /\
    draw (procs (k_st x)) rt (rnext (k_st x)) = Some w /\
    procs (k_st x) !! w = Some q /\ state q = RUNNABLE /\
    rnext s' = rand_next (rnext (k_st x)).
Proof.
  intros Hx Hc Hp Hs. destruct (reachable_kinv x Hx) as [Hok Hinv].
  pose proof (reachable_table_ok x Hx) as Hto.
  assert (Hsum : 0 < nice_sum (procs (k_st x))).
  { rewrite nice_sum_tickets by done. pose proof (prefix_tickets _ i p (proj2 Hto) Hp Hs). lia. }
  assert (Hwp : wp False (scheduler_pick c rt) (k_st x) (fun _ _ => True)).
  { eapply scheduler_pick_wp; [apply (kinv_krep x Hok)| | | |done|done].
    - by rewrite list_lookup_fmap, Hc.
    - unfold phase_holds. by rewrite Hc.
    - intros j v Hv Hvs. destruct (Forall_lookup_1 _ _ _ _ (ai_entry _ Hinv) Hv) as (_ & _ & Hl & _).
      destruct Hl as (_ & _ & ? & ?); [unfold live; congruence|done]. }
  destruct (scheduler_pick c rt (k_st x)) as [[o s']| | |] eqn:Hpick;
    [right|by unfold wp in Hwp; rewrite Hpick in Hwp..|by left].
  destruct (scheduler_pick_draws _ _ _ _ _ Hpick) as [-> Hrn].
  destruct (lottery_total (procs (k_st x)) rt (rnext (k_st x)) Hto Hsum) as (w & q & Hw & Hq & Hqs).
  apply Z.ltb_lt in Hsum. rewrite Hsum in *. rewrite Hw. by exists w, q, s'.
Qed.

(** ** Changing the weight of a process *)

(** [renice] returns 1 and changes nothing for a value outside [1,100];
    otherwise it returns 0 if a live process has the pid and 2 if none has, and
    sets the nice value of exactly that process. *)
Theorem renice_correct x c p nice_val n :
  reachable x -> k_phases x !! c = Some (Running p) ->
  let s := k_st x in
  if (nice_val <? MIN_NICE_VALUE) || (MAX_NICE_VALUE <? nice_val) then
    renice c nice_val n s = Ok (1, s)
  else
    renice c nice_val n s = Spin \/
    exists r s', renice c nice_val n s = Ok (r, s') /\
      (r = 0 <-> exists i q, procs s !! i = Some q /\ state q <> UNUSED /\ pid q = n) /\
      (r <> 0 -> r = 2 /\ procs s' = procs s) /\
      forall i q, procs s !! i = Some q -> state q <> UNUSED ->
        procs s' !! i = Some (if pid q =? n then set_nice_value nice_val q else q).
Proof.
  intros Hx Hc s. destruct (reachable_kinv x Hx) as [Hok Hinv].
  assert (Hwp : wp False (renice c nice_val n) s (fun _ _ => True)).
  { eapply renice_wp; [apply (kinv_krep x Hok)| | |done|done].
    - by rewrite list_lookup_fmap, Hc.
    - unfold phase_holds. rewrite Hc. apply not_elem_of_nil. }
  unfold renice in *. destruct (_ || _) eqn:Hb; [done|].
  apply orb_false_iff in Hb as [Hb1 Hb2]. apply Z.ltb_ge in Hb1, Hb2.
  unfold MIN_NICE_VALUE, MAX_NICE_VALUE in *.
  match goal with |- ?m s = Spin \/ _ => set (code := m) in * end.
  destruct (code s) as [[r s']| | |] eqn:Hcode; [right|by unfold wp in Hwp; rewrite Hcode in Hwp..|by left].
  subst code. apply bind_inv in Hcode as ([] & s1 & H1 & H). apply onmach_inv in H1 as (m1 & ->).
  apply bind_inv in H as (ps & s2 & H2 & H). injection H2 as <- <-.
  apply bind_inv in H as ([] & s3 & H3 & H). injection H3 as <-.
  apply bind_inv in H as ([] & s4 & H4 & H). apply onmach_inv in H4 as (m2 & ->).
  injection H as <- <-. eexists _, _. split; [done|]. cbn [procs set_kmach set_procs].
  assert (Hex : existsb (renice_match n) (procs s) = true <->
    exists i q, procs s !! i = Some q /\ state q <> UNUSED /\ pid q = n).
  { rewrite existsb_exists. split.
    - intros (q & Hq & Hm). apply list_elem_of_In, list_elem_of_lookup in Hq as [i Hi].
      unfold renice_match in Hm. apply andb_true_iff in Hm as [Hm1 Hm2].
      apply bool_decide_eq_true in Hm1. apply Z.eqb_eq in Hm2. eauto.
    - intros (i & q & Hi & Hs & Hn). exists q. split; [by apply list_elem_of_In; eapply list_elem_of_lookup_2|].
      unfold renice_match. rewrite bool_decide_eq_true_2, Hn, Z.eqb_refl; done. }
  split_and!.
  - rewrite <- Hex. by destruct (existsb _ _).
  - destruct (existsb _ _) eqn:He; [done|]. intros _. split; [done|].
    apply list_eq. intros i. rewrite list_lookup_fmap. destruct (procs s !! i) as [q|] eqn:Hq; [|done].
    cbn. unfold renice_proc. case_decide as Hs; [|done]. destruct (Z.eqb_spec (pid q) n); [|done].
    exfalso. assert (false = true) by (apply Hex; eauto). done.
  - intros i q Hi Hs. rewrite list_lookup_fmap, Hi. cbn. unfold renice_proc.
    rewrite decide_True, u32_small by (done || lia). done.
Qed.

(** C7. No runnable process starves: as long as the runnable processes and their
    weights stay as they are, each of them is drawn within the period of the
    generator, whatever its state. *)
Theorem runnable_not_starved x (rt : Z) i p :
  reachable x -> procs (k_st x) !! i = Some p -> state p = RUNNABLE ->
  exists n, Z.of_nat n < 2 ^ 32 /\
    draw (procs (k_st x)) rt (Nat.iter n rand_next (rnext (k_st x))) = Some i.
Proof. intros Hx. apply draw_reaches. by apply reachable_table_ok. Qed.
End theorems.

(** ** A small run

    Two CPUs, an environment that hands out pages and files and never fails. *)

Definition demo_env : procenv Z := {|
  env_kalloc := fun e => Ok (e, e + PGSIZE);
  env_kfree := fun _ => ret ();
  env_setupkvm := fun e => Ok (e, e + PGSIZE);
  env_inituvm := fun _ => ret ();
  env_allocuvm := fun _ _ newsz => ret newsz;
  env_deallocuvm := fun _ _ newsz => ret newsz;
  env_copyuvm := fun _ _ e => Ok (e, e + PGSIZE);
  env_freevm := fun _ => ret ();
  env_filedup := fun f => ret f;
  env_fileclose := fun _ => ret [];
  env_idup := fun i => ret i;
  env_iput_op := fun _ => ret [];
  env_namei_root := ret 0%nat;
  env_cmostime := ret (Rtcdate 0 0 0 1 1 2020);
  env_fsinit := ret ()
|}.

#[local] Existing Instance demo_env.

Lemma demo_env_safe : env_wp (HE:=demo_env) False.
Proof. by split. Qed.

Definition demo_cpu (id : Z) : cpu := Cpu id 0 0 None true id 0 0 0 0.
Definition demo0 : ksys Z :=
  Ksys (Kst (Mach [demo_cpu 0; demo_cpu 1] ∅ []) (replicate NPROC proc0) 1 None 0 1 true PGSIZE PGSIZE)
    [Booting; Looping] (fun _ => Outside).

Lemma demo0_booted : booted demo0.
Proof. repeat split; try done; repeat constructor; set_solver. Qed.

(** init forks; the child runs on CPU 0 and init, on CPU 1, waits. *)
Definition demo_ops : list (nat * kop) :=
  [(0%nat, OpBoot); (1%nat, OpSched 0); (1%nat, OpFork); (1%nat, OpFork); (0%nat, OpSched 0);
   (1%nat, OpWait)].
Definition demo1 : ksys Z := default demo0 (kexecs demo0 demo_ops).

Lemma demo1_reachable : reachable demo1.
Proof.
  exists demo0. split; [apply demo0_booted|]. apply (kexecs_rtc demo_ops).
  unfold demo1. destruct (kexecs demo0 demo_ops) as [y|] eqn:Hy; [done|]. by vm_compute in Hy.
Qed.

Definition demo_proc (i : nat) : proc := default proc0 (procs (k_st demo1) !! i).

Lemma demo_procs :
  procs (k_st demo1) !! 0%nat = Some (demo_proc 0) /\ procs (k_st demo1) !! 1%nat = Some (demo_proc 1).
Proof. split; by vm_compute. Qed.

Lemma kernel_refines_witness : rtc astep (abs demo0) (abs demo1).
Proof.
  apply (kernel_refines demo0 demo1 demo0_booted). apply (kexecs_rtc demo_ops).
  unfold demo1. destruct (kexecs demo0 demo_ops) as [y|] eqn:Hy; [done|]. by vm_compute in Hy.
Defined.

Lemma running_on_one_cpu_witness :
  exists c k, cpus (kmach (k_st demo1)) !! c = Some k /\ cproc k = Some 1%nat.
Proof.
  apply (proj2 (proj2 (running_on_one_cpu demo1 demo1_reachable)) 1%nat (demo_proc 1)).
  - apply demo_procs.
  - by vm_compute.
Defined.

Lemma pids_unique_witness : 1 <= pid (demo_proc 0) < nextpid (k_st demo1) /\
  (pid (demo_proc 0) = pid (demo_proc 1) -> 0%nat = 1%nat).
Proof.
  apply (pids_unique demo1 0 1 (demo_proc 0) (demo_proc 1) demo1_reachable);
    [apply demo_procs|apply demo_procs|by vm_compute|by vm_compute].
Defined.

Lemma process_tree_witness : rtc (child_of (procs (k_st demo1))) 1%nat 0%nat.
Proof.
  apply (process_tree demo1 0 1 (demo_proc 1) demo1_reachable);
    [by vm_compute|apply demo_procs|by vm_compute].
Defined.

Lemma wait_not_lost_witness :
  chan (demo_proc 0) = Some (ChanProc 0) /\ killed (demo_proc 0) = 0 /\ state (demo_proc 1) <> ZOMBIE.
Proof.
  eapply (wait_not_lost demo1 0 (demo_proc 0) 1 (demo_proc 1)); [apply demo1_reachable|
    apply demo_procs|by vm_compute|by vm_compute|apply demo_procs|by vm_compute].
Defined.

Lemma kernel_never_panics_witness :
  exists m, run_op 0 (Running 1) (pos_of (Running 1) (k_pos demo1)) OpExit = Some m /\
    (m (k_st demo1) = Spin \/ exists r s', m (k_st demo1) = Ok (r, s')).
Proof.
  eexists. split; [reflexivity|].
  eapply (kernel_never_panics demo1 0 (Running 1) OpExit); [apply demo_env_safe|apply demo1_reachable|
    by vm_compute|by vm_compute|reflexivity|done|by vm_compute].
Defined.

Lemma renice_correct_witness :
  renice 0 5 2 (k_st demo1) = Spin \/
  exists r s', renice 0 5 2 (k_st demo1) = Ok (r, s') /\
    (r = 0 <-> exists i q, procs (k_st demo1) !! i = Some q /\ state q <> UNUSED /\ pid q = 2) /\
    (r <> 0 -> r = 2 /\ procs s' = procs (k_st demo1)) /\
    forall i q, procs (k_st demo1) !! i = Some q -> state q <> UNUSED ->
      procs s' !! i = Some (if pid q =? 2 then set_nice_value 5 q else q).
Proof.
  apply (renice_correct demo1 0 1 5 2 demo1_reachable). by vm_compute.
Defined.

(** The child has given up the CPU and both CPUs look for work. *)
Definition demo2 : ksys Z := default demo0 (kexecs demo1 [(0%nat, OpYield)]).

Lemma demo2_reachable : reachable demo2.
Proof.
  destruct demo1_reachable as (x0 & Hb & Hs). exists x0. split; [done|]. etrans; [exact Hs|].
  apply (kexecs_rtc [(0%nat, OpYield)]). unfold demo2.
  destruct (kexecs demo1 _) as [y|] eqn:Hy; [done|]. by vm_compute in Hy.
Qed.

Definition demo2_proc : proc := default proc0 (procs (k_st demo2) !! 1%nat).

Lemma demo2_runnable : procs (k_st demo2) !! 1%nat = Some demo2_proc /\ state demo2_proc = RUNNABLE.
Proof. split; by vm_compute. Qed.

Lemma scheduler_work_conserving_witness :
  scheduler_pick 0 7 (k_st demo2) = Spin \/
  exists w q s', scheduler_pick 0 7 (k_st demo2) = Ok (Some w, s') /\
    draw (procs (k_st demo2)) 7 (rnext (k_st demo2)) = Some w /\
    procs (k_st demo2) !! w = Some q /\ state q = RUNNABLE /\
    rnext s' = rand_next (rnext (k_st demo2)).
Proof.
  apply (scheduler_work_conserving demo2 0 7 1 demo2_proc demo2_reachable);
    [by vm_compute|apply demo2_runnable..].
Defined.

Lemma runnable_not_starved_witness :
  exists n, Z.of_nat n < 2 ^ 32 /\
    draw (procs (k_st demo2)) 7 (Nat.iter n rand_next (rnext (k_st demo2))) = Some 1%nat.
Proof.
  apply (runnable_not_starved demo2 7 1 demo2_proc demo2_reachable); apply demo2_runnable.
Defined.

(** ** The lock order of [tickslock] and [ptable.lock]

    The clock interrupt wakes the sleepers while it holds [tickslock]; the
    scheduler reads the clock while it holds [ptable.lock]. *)

(** The lock operations CPU [c] performs in [m]. *)
Definition lock_ops {A} (c : nat) (m : K Z A) (s : kst Z) : list lockop :=
  match m s with
  | Ok (_, s') =>
      snd <$> filter (fun e => fst e = c) (drop (length (trace (kmach s))) (trace (kmach s')))
  | _ => []
  end.

Definition tick_ops : list lockop := lock_ops 0 (interrupt 0 (timer_intr 0)) (k_st demo2).
Definition sched_ops : list lockop := lock_ops 1 (scheduler_pick 1 0) (k_st demo2).

(** C38. The lock order is inverted: the clock interrupt takes [ptable.lock] (in
    [wakeup]) while it holds [tickslock], the scheduler takes [tickslock] (in
    [uptime]) while it holds [ptable.lock]. From a reachable state two CPUs that
    run these operations reach a state in which both spin for ever. *)
Theorem tick_scheduler_deadlock :
  exists m ks,
    rtc lstep (kmach (k_st demo2), [Core tick_ops Computing []; Core sched_ops Computing []]) (m, ks) /\
    (forall y, rtc lstep (m, ks) y -> y = (m, ks)) /\ Forall (fun k => prog k <> []) ks.
Proof.
  eexists _, _. split.
  - eapply rtc_l; [eapply (L_enter 0); vm_compute; reflexivity|].
    eapply rtc_l; [eapply (L_take 0); vm_compute; reflexivity|].
    eapply rtc_l; [eapply (L_record 0); vm_compute; reflexivity|].
    eapply rtc_l; [eapply (L_enter 1); vm_compute; reflexivity|].
    eapply rtc_l; [eapply (L_take 1); vm_compute; reflexivity|].
    eapply rtc_l; [eapply (L_record 1); vm_compute; reflexivity|].
    eapply rtc_l; [eapply (L_enter 0); vm_compute; reflexivity|].
    eapply rtc_l; [eapply (L_enter 1); vm_compute; reflexivity|].
    reflexivity.
  - split.
    + intros y. apply stuck_forever. repeat constructor; eexists; (split; [reflexivity|by vm_compute]).
    + by repeat constructor.
Qed.

(** ** The mark of [kill] on a free entry *)

Section kill_zero.
Context {E : Type} {HE : procenv E}.
Abbreviation kst := (@Proc.kst E).

Lemma leads_skip {S A B} (m : M S A) (k : A -> M S B) s Q : (forall a s', leads (k a) s' Q) -> leads (bind m k) s Q.
Proof. intros H. apply leads_bind. unfold leads at 1. destruct (m s) as [[a s']| | |]; [apply H|done..]. Qed.

(** The flags of all entries. *)
Definition killeds (s : kst) : list Z := killed <$> procs s.
Lemma killeds_onmach {A} (m : M mach A) : keeps killeds (onmach (E := E) m).
Proof. intros s a s' H. unfold onmach, zoom in H. destruct (m (kmach s)) as [[b k]| | |]; [|done..]. by injection H as <- <-. Qed.
Lemma killeds_onenv {A} (m : M E A) : keeps killeds (onenv m).
Proof. intros s a s' H. unfold onenv, zoom in H. destruct (m (env s)) as [[b k]| | |]; [|done..]. by injection H as <- <-. Qed.
Lemma killeds_updproc i f : (forall p, killed (f p) = killed p) -> keeps killeds (updproc (E := E) i f).
Proof.
  intros Hf s a s' H. unfold updproc, getproc in H. apply bind_inv in H as (p & s1 & Hp & [= <- <-]). apply bind_inv in Hp as (ps & s2 & [= <- <-] & Hp).
  destruct (procs s !! i) as [q|] eqn:Hq; [|done]. injection Hp as <- <-. unfold killeds. cbn. rewrite list_fmap_insert.
  apply list_insert_id. rewrite list_lookup_fmap, Hq. cbn. by rewrite Hf.
Qed.
#[local] Hint Resolve killeds_onmach killeds_onenv : keeps.
#[local] Hint Extern 1 (keeps killeds (updproc _ _)) => apply killeds_updproc; by intros [] : keeps.

Lemma killeds_allocproc c : keeps killeds (allocproc (E := E) c).
Proof. unfold allocproc. repeat first [apply keeps_bind; [solve [auto with keeps]|intros ?] | progress auto with keeps | case_match]. Qed.
Lemma killeds_fork_files cur np fds : keeps killeds (fork_files (E := E) cur np fds).
Proof.
  induction fds as [|fd fds IH]; cbn [fork_files]; [apply keeps_ret|]. unfold getproc.
  repeat first [exact IH | apply keeps_bind; [solve [auto with keeps]|intros ?] | progress auto with keeps | case_match].
Qed.
#[local] Hint Resolve killeds_allocproc killeds_fork_files : keeps.
Lemma killeds_fork_begin c : keeps killeds (fork_begin (E := E) c).
Proof. unfold fork_begin, curproc, getproc. repeat first [apply keeps_bind; [solve [auto 10 with keeps]|intros ?] | progress auto with keeps | case_match]. Qed.
Lemma killeds_fork_end c np : keeps killeds (fork_end (E := E) c np).
Proof. unfold fork_end, getproc. repeat first [apply keeps_bind; [solve [auto 10 with keeps]|intros ?] | progress auto with keeps | case_match]. Qed.

Lemma updproc_Ok i f (s : kst) u s' : updproc i f s = Ok (u, s') -> exists p, procs s !! i = Some p /\ procs s' = <[i := f p]> (procs s).
Proof.
  unfold updproc, getproc. intros H. apply bind_inv in H as (p & s1 & Hp & [= <- <-]). apply bind_inv in Hp as (ps & s2 & [= <- <-] & Hp).
  destruct (procs s !! i) as [q|] eqn:Hq; [|done]. injection Hp as <- <-. by exists q.
Qed.
Lemma onmach_procs {A} (m : M mach A) (s : kst) a s' : onmach m s = Ok (a, s') -> procs s' = procs s.
Proof. unfold onmach, zoom. destruct (m (kmach s)) as [[b k]| | |]; [|done..]. by intros [= <- <-]. Qed.
Lemma getproc_procs i p (s s' : kst) : getproc i s = Ok (p, s') -> procs s !! i = Some p /\ s' = s.
Proof. unfold getproc. intros H. apply bind_inv in H as (ps & s1 & [= <- <-] & H). destruct (procs s !! i) as [q|] eqn:Hq; [|done]. by injection H as <- <-. Qed.

(** The entry [allocproc] takes is the first free one. *)
Lemma allocproc_first c s : leads (allocproc (E := E) c) s (fun o _ => o = None \/ o = find_unused 0 (procs s)).
Proof.
  unfold allocproc. apply leads_bind. unfold leads at 1. destruct (onmach (acquire c ptable_lock) s) as [[[] s1]| | |] eqn:Ha; [|done..].
  assert (Hp := onmach_procs _ _ _ _ Ha).
  apply leads_bind. unfold gets, leads at 1. rewrite Hp. destruct (find_unused 0 (procs s)) as [p|].
  2: { apply leads_skip. intros. by left. }
  do 7 (apply leads_skip; intros). destruct (_ =? 0); [apply leads_skip; intros; by left|]. do 9 (apply leads_skip; intros). by right.
Qed.
Lemma fork_begin_first c s : leads (fork_begin (E := E) c) s (fun o _ => match o with Some (_, np) => find_unused 0 (procs s) = Some np | None => True end).
Proof.
  unfold fork_begin. apply leads_bind. unfold leads at 1. destruct (curproc c s) as [[cur s1]| | |] eqn:Hc; [|done..].
  assert (Hp : procs s1 = procs s).
  { unfold curproc in Hc. apply bind_inv in Hc as (o & s2 & Ho%onmach_procs & Hd). destruct o; [|done]. by injection Hd as _ <-. }
  apply leads_bind. eapply leads_mono; [apply allocproc_first|]. intros o s2 Ho. destruct o as [np|]; [|done]. rewrite Hp in Ho.
  destruct Ho as [|Ho]; [done|]. do 3 (apply leads_skip; intros). destruct (_ =? 0); [do 4 (apply leads_skip; intros); done|].
  do 11 (apply leads_skip; intros). by symmetry.
Qed.

(** [fork] makes the entry runnable and returns its pid. *)
Lemma fork_end_Ok c np (s : kst) v s' : fork_end c np s = Ok (v, s') -> exists p, procs s' !! np = Some p /\ state p = RUNNABLE /\ pid p = v.
Proof.
  unfold fork_end. intros H. apply bind_inv in H as (q & s1 & Hq & H). apply getproc_procs in Hq as [Hq ->].
  apply bind_inv in H as ([] & s2 & Ha%onmach_procs & H). apply bind_inv in H as ([] & s3 & Hu & H). apply updproc_Ok in Hu as (p & Hp & Hu).
  apply bind_inv in H as (q' & s4 & Hq' & H). apply getproc_procs in Hq' as [_ ->]. apply bind_inv in H as (pp & s5 & Hd & H).
  destruct (parent q'); [|done]. injection Hd as <- <-. apply bind_inv in H as (pa & s6 & Hpa & H). apply getproc_procs in Hpa as [_ ->].
  apply bind_inv in H as ([] & s7 & Hn & H). apply updproc_Ok in Hn as (p2 & Hp2 & Hn). apply bind_inv in H as ([] & s8 & Hr%onmach_procs & [= <- <-]).
  rewrite Hr, Hn. eexists. split; [apply list_lookup_insert_eq; by eapply lookup_lt_Some|].
  rewrite Hu, list_lookup_insert_eq in Hp2 by (by eapply lookup_lt_Some). injection Hp2 as <-. rewrite Ha, Hq in Hp. by injection Hp as <-.
Qed.

(** [kill] of a free entry sets its flag and nothing else. *)
Lemma kill_free c n j q (s : kst) r s' : find_pid n 0 (procs s) = Some j -> procs s !! j = Some q -> state q = UNUSED ->
  kill c n s = Ok (r, s') -> r = 0 /\ procs s' = <[j := set_killed 1 q]> (procs s).
Proof.
  intros Hf Hq Hs H. unfold kill in H. apply bind_inv in H as ([] & s1 & Ha%onmach_procs & H). apply bind_inv in H as (ps & s2 & [= <- <-] & H).
  rewrite Ha, Hf in H. apply bind_inv in H as ([] & s3 & Hu & H). apply updproc_Ok in Hu as (p & Hp & Hu). rewrite Ha, Hq in Hp. injection Hp as <-.
  apply bind_inv in H as (p & s4 & Hp & H). apply getproc_procs in Hp as [Hp ->]. rewrite Hu, Ha, list_lookup_insert_eq in Hp by (by eapply lookup_lt_Some).
  injection Hp as <-. rewrite bool_decide_false in H by (cbn; congruence). apply bind_inv in H as ([] & s5 & [= <-] & H).
  apply bind_inv in H as ([] & s6 & Hr%onmach_procs & [= <- <-]). split; [done|]. by rewrite Hr, Hu, Ha.
Qed.

Lemma find_unused_insert j q q' ps : forall k, ps !! j = Some q -> state q' = state q -> find_unused k (<[j := q']> ps) = find_unused k ps.
Proof.
  revert j. induction ps as [|p ps IH]; intros [|j] k Hj He; [done..| |]; cbn in *.
  - injection Hj as ->. by rewrite He.
  - by rewrite IH.
Qed.

(** A free entry with pid 0 that is the first free one is the first with pid 0:
    live processes have positive pids. *)
Lemma find_pid_free (x : ksys E) j q : reachable x -> find_unused 0 (procs (k_st x)) = Some j -> procs (k_st x) !! j = Some q -> pid q = 0 ->
  find_pid 0 0 (procs (k_st x)) = Some j.
Proof.
  intros Hx Hj Hq Hp. destruct (reachable_kinv x Hx) as [_ Hinv].
  destruct (find_unused_Some _ _ _ Hj) as (j0 & p & -> & Hp0 & _ & Hmin). cbn in Hq. 
  destruct (find_pid 0 0 (procs (k_st x))) as [i|] eqn:Hf.
  - destruct (find_pid_Some _ _ _ _ Hf) as (i0 & p' & -> & Hi & Hpid). cbn. f_equal.
    destruct (Nat.lt_trichotomy i0 j0) as [Hlt|[->|Hgt]]; [|done|].
    + assert (Hu := Hmin i0 p' Hlt Hi). assert (1 <= pid p') by (apply (Forall_lookup_1 _ _ _ _ (ai_entry _ Hinv) (reachable_view x i0 p' Hi)); done). lia.
    + exfalso. clear -Hf Hq Hp Hgt. revert Hf. enough (forall ps k i j, ps !! j = Some q -> find_pid 0 k ps = Some (k + i)%nat -> (i <= j)%nat) by (intros Hf; specialize (H _ 0%nat i0 j0 Hq Hf); lia).
      clear -Hp. induction ps as [|p ps IH]; intros k i j Hj; [done|]. cbn. destruct (Z.eqb_spec (pid p) 0) as [|Hne]; [intros [= He]; lia|].
      destruct j as [|j]; cbn in Hj; [by injection Hj as ->|]. intros Hf. destruct i as [|i]; [lia|].
      assert (i <= j)%nat; [|lia]. apply (IH (S k)); [done|]. rewrite Hf. f_equal. lia.
  - exfalso. apply find_pid_None in Hf. by apply (Forall_lookup_1 _ _ _ _ Hf Hq).
Qed.

(** C39. [kill] looks at the pid of unused entries. In any reachable state whose
    first free entry has pid 0, as it has from the boot on and again after a
    [wait], kill(0) returns 0 and marks that free entry; and the next [fork]
    that succeeds takes this entry and leaves the mark: its child is runnable
    and already killed. *)
Theorem kill_zero_dooms_next_child (x : ksys E) c j q r s1 cur np s2 v s3 :
  reachable x -> find_unused 0 (procs (k_st x)) = Some j -> procs (k_st x) !! j = Some q -> pid q = 0 ->
  kill c 0 (k_st x) = Ok (r, s1) -> fork_begin c s1 = Ok (Some (cur, np), s2) -> fork_end c np s2 = Ok (v, s3) ->
  state q = UNUSED /\ r = 0 /\ procs s1 = <[j := set_killed 1 q]> (procs (k_st x)) /\
  np = j /\ exists p, procs s3 !! j = Some p /\ state p = RUNNABLE /\ pid p = v /\ killed p = 1.
Proof.
  intros Hx Hj Hq Hp Hk Hf He. assert (Hfp := find_pid_free x j q Hx Hj Hq Hp).
  assert (Hs : state q = UNUSED). { destruct (find_unused_Some _ _ _ Hj) as (j0 & p & -> & Hp0 & Hs & _). cbn in Hq. congruence. }
  destruct (kill_free c 0 j q _ r s1 Hfp Hq Hs Hk) as [-> H1].
  assert (Hn := leads_Ok _ _ _ _ _ (fork_begin_first c s1) Hf). cbn in Hn. rewrite H1, (find_unused_insert j q) in Hn by done.
  rewrite Hj in Hn. injection Hn as <-. split_and!; [done|done|done|done|]. destruct (fork_end_Ok _ _ _ _ _ He) as (p & Hp3 & Hst & Hpid).
  exists p. split_and!; [done|done|done|]. assert (Hk3 : killeds s3 !! j = Some 1).
  { rewrite (killeds_fork_end _ _ _ _ _ He), (killeds_fork_begin _ _ _ _ Hf). unfold killeds. rewrite H1, list_fmap_insert.
    apply list_lookup_insert_eq. rewrite length_fmap. by eapply lookup_lt_Some. }
  unfold killeds in Hk3. rewrite list_lookup_fmap, Hp3 in Hk3. by injection Hk3.
Qed.
End kill_zero.

(** The child of init kills 0 and forks. *)
Definition demo_kill : @Proc.kst Z := match kill 0 0 (k_st demo1) with Ok (_, s) => s | _ => k_st demo1 end.
Definition demo_fork_begin : @Proc.kst Z := match fork_begin 0 demo_kill with Ok (_, s) => s | _ => demo_kill end.
Definition demo_fork_end : @Proc.kst Z := match fork_end 0 2 demo_fork_begin with Ok (_, s) => s | _ => demo_fork_begin end.

Lemma kill_zero_dooms_next_child_witness :
  exists p, procs demo_fork_end !! 2%nat = Some p /\ state p = RUNNABLE /\ pid p = 3 /\ killed p = 1.
Proof.
  assert (H1 : kill 0 0 (k_st demo1) = Ok (0, demo_kill)) by (vm_compute; reflexivity).
  assert (H2 : fork_begin 0 demo_kill = Ok (Some (1%nat, 2%nat), demo_fork_begin)) by (vm_compute; reflexivity).
  assert (H3 : fork_end 0 2 demo_fork_begin = Ok (3, demo_fork_end)) by (vm_compute; reflexivity).
  apply (kill_zero_dooms_next_child demo1 0 2 (demo_proc 2) 0 demo_kill 1 2 demo_fork_begin 3 demo_fork_end demo1_reachable);
    [by vm_compute|by vm_compute|by vm_compute|exact H1|exact H2|exact H3].
Defined.
