(* ===== verification/Thread.v ===== *)
(** The kernel side of one process: code that runs in steps between which other
    CPUs move, and that may give up its CPU and go on later on another one. *)

From S2P Require Import Prelude.

Section thread.
Context {S W : Type}.

(** [TStep m k] runs [m] to its end and goes on with its result; [TPark k] has
    switched to the scheduler and goes on, when it is dispatched, on some CPU and
    with what the switch returned; [TExit m] runs [m] and never goes on. *)
Inductive thread (A : Type) : Type :=
| TRet (a : A)
| TStep {B : Type} (m : M S B) (k : B -> thread A)
| TPark (k : nat -> W -> thread A)
| TExit (m : M S ()).
#[global] Arguments TRet {A} a.
#[global] Arguments TStep {A B} m k.
#[global] Arguments TPark {A} k.
#[global] Arguments TExit {A} m.

Fixpoint tbind {A B : Type} (t : thread A) (k : A -> thread B) : thread B :=
  match t with
  | TRet a => k a
  | TStep m k' => TStep m (fun x => tbind (k' x) k)
  | TPark k' => TPark (fun c w => tbind (k' c w) k)
  | TExit m => TExit m
  end.

(** [returns t s a s']: from [s] the thread can return [a] in [s'].  [R] is what
    the rest of the system does in between, and [resume] what the scheduler's
    switch to the thread does on a CPU. *)
Context (R : S -> S -> Prop) (resume : nat -> M S W).
Fixpoint returns {A : Type} (t : thread A) (s : S) (a : A) (s' : S) : Prop :=
  match t with
  | TRet b => b = a /\ s' = s
  | TStep m k => exists s1 b s2, R s s1 /\ m s1 = Ok (b, s2) /\ returns (k b) s2 a s'
  | TPark k => exists s1 c w s2, R s s1 /\ resume c s1 = Ok (w, s2) /\ returns (k c w) s2 a s'
  | TExit _ => False
  end.

Lemma returns_bind {A B : Type} (t : thread A) (k : A -> thread B) s b s' :
  returns (tbind t k) s b s' <-> exists a s1, returns t s a s1 /\ returns (k a) s1 b s'.
Proof.
  revert s. induction t as [a|C m k' IH|k' IH|m]; intros s; cbn [tbind returns].
  - split; [by intros H; exists a, s|]. by intros (a' & s1 & [-> ->] & H).
  - split.
    + intros (s1 & x & s2 & HR & Hm & H). apply IH in H as (a & s3 & H1 & H2). exists a, s3. split; [|done]. by exists s1, x, s2.
    + intros (a & s3 & (s1 & x & s2 & HR & Hm & H1) & H2). exists s1, x, s2. split; [done|]. split; [done|]. apply IH. by exists a, s3.
  - split.
    + intros (s1 & c & w & s2 & HR & Hm & H). apply IH in H as (a & s3 & H1 & H2). exists a, s3. split; [|done]. by exists s1, c, w, s2.
    + intros (a & s3 & (s1 & c & w & s2 & HR & Hm & H1) & H2). exists s1, c, w, s2. split; [done|]. split; [done|]. apply IH. by exists a, s3.
  - split; [done|]. by intros (a & s1 & H & _).
Qed.

(** A run in which the rest of the system moves only while the thread is
    parked: [inter] is what it does, and [c] the CPU that dispatches the thread. *)
Context (inter : S -> S) (c : nat).
Fixpoint trun {A : Type} (t : thread A) (s : S) : option (A * S) :=
  match t with
  | TRet a => Some (a, s)
  | TStep m k => match m s with Ok (b, s') => trun (k b) s' | _ => None end
  | TPark k => match resume c (inter s) with Ok (w, s') => trun (k c w) s' | _ => None end
  | TExit _ => None
  end.

Lemma trun_returns {A : Type} (t : thread A) s a s' :
  (forall s, R s s) -> (forall s, R s (inter s)) -> trun t s = Some (a, s') -> returns t s a s'.
Proof.
  intros H0 H1. revert s. induction t as [b|B m k IH|k IH|m]; intros s; cbn [trun returns].
  - by intros [= <- <-].
  - destruct (m s) as [[b s1]| | |] eqn:Hm; [|done..]. intros H. exists s, b, s1. auto.
  - destruct (resume c (inter s)) as [[w s1]| | |] eqn:Hm; [|done..]. intros H. exists (inter s), c, w, s1. auto.
  - done.
Qed.
End thread.
Arguments thread S W A : clear implicits.

(** Sequencing of threads. *)
Notation "x <~ t ; k" := (tbind t (fun x => k)) (at level 20, t at level 100, k at level 200, only parsing) : kernel_scope.
Notation "' x <~ t ; k" := (tbind t (fun x => k)) (at level 20, x pattern, t at level 100, k at level 200, only parsing) : kernel_scope.
Definition step {S W A} (m : M S A) : thread S W A := TStep m TRet.
