(* ===== verification/ProcDump.v ===== *)
(** What the kernel prints about itself: the listings of the process table,
    [procdump] and [proc_cps] of [proc.c], as the text they print, and [panic] of
    [console.c] with the backtrace of [getcallerpcs] ([spinlock.c]). *)

From stdpp Require Import strings.
From S2P Require Import Prelude Layout Spinlock CString Ulib Console Proc.

Definition zs (s : string) : list Z := (fun a => Z.of_N (Ascii.N_of_ascii a)) <$> String.list_ascii_of_string s.
Definition TAB : Z := 9.
Definition LF : Z := 10.

(** [states[]] of [procdump], with the blanks that pad it. *)
Definition state_name (st : procstate) : list Z :=
  match st with
  | UNUSED => zs "unused"
  | EMBRYO => zs "embryo"
  | SLEEPING => zs "sleep "
  | RUNNABLE => zs "runble"
  | RUNNING => zs "run   "
  | ZOMBIE => zs "zombie"
  end.

(** A [char] array up to its NUL. *)
Definition cname (p : proc) : list Z := cstr (length (name p)) (name p).

(** [cprintf("%d %s %s", ...)], the return addresses of a sleeping process, and
    the end of the line.  [pcs] are the values [getcallerpcs] finds. *)
Fixpoint dump_pcs (n : nat) (pcs : list Z) : list Z :=
  match n, pcs with
  | S n, pc :: pcs => if pc =? 0 then [] else [32] ++ cprintint pc 16 false ++ dump_pcs n pcs
  | _, _ => []
  end.
Definition dump_row (pcs : list Z) (p : proc) : option (list Z) :=
  match cformat (zs "%d %s %s") [Num (pid p); Str (Some (state_name (state p))); Str (Some (cname p))] with
  | Some l => Some (l ++ (if decide (state p = SLEEPING) then dump_pcs 10 pcs else []) ++ [LF])
  | None => None
  end.
Fixpoint procdump (pcs : nat -> list Z) (i : nat) (ps : list proc) : option (list Z) :=
  match ps with
  | [] => Some []
  | p :: ps =>
      if decide (state p = UNUSED) then procdump pcs (S i) ps else
      match dump_row (pcs i) p, procdump pcs (S i) ps with
      | Some l, Some r => Some (l ++ r)
      | _, _ => None
      end
  end.

Definition cps_header : list Z :=
  zs "pid" ++ [TAB] ++ zs "ppid" ++ [TAB] ++ zs "name" ++ [TAB] ++ zs "state" ++ [TAB] ++ zs "size" ++ [TAB] ++ zs "start_time" ++ [TAB; TAB] ++
  zs "ticks" ++ [TAB] ++ zs "sched" ++ [TAB] ++ zs "nice" ++ [LF].
Definition cps_fmt : list Z :=
  zs "%d" ++ [TAB] ++ zs "%d" ++ [TAB] ++ zs "%s" ++ [TAB] ++ zs "%s" ++ [TAB] ++ zs "%u" ++ [TAB] ++ zs "%u-%s%u-%u %u:%u:%u" ++ [TAB] ++
  zs "%u" ++ [TAB] ++ zs "%u" ++ [TAB] ++ zs "%u".
Definition cps_args (ps : list proc) (p : proc) : list carg :=
  let d := begin_date p in
  [Num (pid p); Num (match parent p with Some q => pid (nth q ps proc0) | None => 1 end); Str (Some (cname p)); Str (Some (state_name (state p)));
   Num (sz p); Num (year d); Str (Some (if month d <? 10 then zs "0" else [])); Num (month d); Num (day d); Num (hour d); Num (minute d); Num (second d);
   Num (ticks_total p); Num (sched_times p); Num (nice_value p)].
Definition cps_row (ps : list proc) (p : proc) : list Z := default [] (cformat cps_fmt (cps_args ps p)) ++ [LF].
Definition cps_text (ps : list proc) : list Z :=
  cps_header ++ concat (cps_row ps <$> filter (fun p => state p <> UNUSED) ps).

(** ** The backtrace and [panic] *)

(** [getcallerpcs(v, pcs)]: the return addresses of ten frames; [load] reads a
    word of memory. *)
Section backtrace.
Context (load : Z -> Z).
Fixpoint pcs_loop (n : nat) (ebp : Z) : list Z :=
  match n with
  | O => []
  | S n =>
      if (ebp =? 0) || (ebp <? KERNBASE) || (ebp =? 0xffffffff) then replicate (S n) 0
      else load (u32 (ebp + 4)) :: pcs_loop n (load ebp)
  end.
Definition getcallerpcs (v : Z) : list Z := pcs_loop 10 (u32 (v - 8)).

(** All of [pcs] is written, and only frames in the kernel's half of memory are
    followed. *)
Lemma getcallerpcs_length v : length (getcallerpcs v) = 10%nat.
Proof.
  assert (H : forall n ebp, length (pcs_loop n ebp) = n); [|apply H].
  induction n as [|n IH]; intros ebp; [done|]. cbn [pcs_loop]. destruct (_ || _); cbn [length]; [by rewrite length_replicate|by rewrite IH].
Qed.
End backtrace.

Definition set_panicked (s : cons) : cons := Cons (inp s) (crt s) (cpos s) (uart s) (sent s) true (readers s).
Fixpoint print_pcs (pcs : list Z) : C_ () :=
  match pcs with
  | [] => ret ()
  | pc :: pcs => cprintf (Some (zs " %p")) [Num pc];; print_pcs pcs
  end.
(** [panic] up to its endless loop; [id] is [lapicid()]. *)
Definition panic_prints (id : Z) (msg : list Z) (pcs : list Z) : C_ () :=
  cprintf (Some (zs "lapicid %d: panic: ")) [Num id];;
  cprintf (Some msg) [];;
  cprintf (Some [LF]) [];;
  print_pcs pcs;;
  modify set_panicked.

(** A panic freezes the other CPUs: from then on whoever prints a character
    stops. *)
Lemma panic_freezes id msg pcs s s' c : panic_prints id msg pcs s = Ok ((), s') -> consputc c s' = Spin.
Proof.
  unfold panic_prints. intros H. do 4 (apply bind_inv in H as (? & ? & _ & H)). injection H as <-. done.
Qed.
