(* ===== verification/SysProc.v ===== *)
(** The system calls on processes ([sysproc.c]), as threads of the calling
    process.  A call returns the CPU it ended on and its value. *)

From S2P Require Import Prelude Layout Spinlock CString Syscall Proc ProcSpec ProcSim Thread ProcDump KernelThms.

(** What these calls use besides [procenv]: the bytes of an address space, and
    the console. *)
Class sysenv (E : Type) := Sysenv {
  env_umem : E -> Z -> Z -> Z;
  env_print : list Z -> M E ()
}.

Section sysproc.
Context {E : Type} {HE : procenv E} {HS : sysenv E}.
Abbreviation kst := (@Proc.kst E).
Abbreviation K := (@Proc.K E).
Abbreviation T := (Thread.thread kst resumed).

(** [argint(n, &v)] for the running process. *)
Definition arg (c : nat) (n : Z) : K (option Z) :=
  cur ← curproc c;
  p ← getproc cur;
  e ← gets env;
  ret (argint n (Uproc (sz p) (tf_esp (tfv p)) (env_umem e (pgdir p)))).

(** [fork] and [exit] have two critical sections each. *)
Definition sys_fork (c : nat) : T (nat * Z) :=
  o <~ step (fork_begin c);
  match o with
  | None => TRet (c, -1)
  | Some (cur, np) => v <~ step (fork_end c np); TRet (c, v)
  end.

Definition sys_exit {A} (c : nat) : T A := TStep (exit_files c) (fun cur => TExit (exit_zombie c cur)).

(** A process that [wait] put to sleep scans the table again in the switch back
    to it, and returns with the value or sleeps once more. *)
Fixpoint wait_parked (fuel : nat) : T (nat * Z) :=
  match fuel with
  | O => TStep spin TRet
  | S fuel =>
      TPark (fun c r =>
        match r with
        | Back (Some v) => TRet (c, v)
        | Asleep => wait_parked fuel
        | _ => TExit (panic "wait")
        end)
  end.
Definition sys_wait (fuel : nat) (c : nat) : T (nat * Z) :=
  o <~ step (wait c);
  match o with
  | Some v => TRet (c, v)
  | None => wait_parked fuel
  end.

Definition sys_kill (c : nat) : K Z :=
  o ← arg c 0;
  match o with
  | None => ret (-1)
  | Some n => kill c n
  end.

Definition sys_getpid (c : nat) : K Z :=
  cur ← curproc c;
  p ← getproc cur;
  ret (pid p).

Definition sys_getppid (c : nat) : K Z :=
  cur ← curproc c;
  p ← getproc cur;
  match parent p with
  | None => ret 1
  | Some i => q ← getproc i; ret (pid q)
  end.

Definition sys_sbrk (c : nat) : K Z :=
  o ← arg c 0;
  match o with
  | None => ret (-1)
  | Some n =>
      cur ← curproc c;
      p ← getproc cur;
      let addr := s32 (sz p) in
      r ← growproc c n;
      ret (if r <? 0 then -1 else addr)
  end.

(** The loop of [sys_sleep], entered with [tickslock] held: [Some v] when the
    call returns, [None] when it has gone to sleep.  The comparison is between
    unsigned numbers. *)
Definition sleep_turn (c : nat) (ticks0 n : Z) : K (option Z) :=
  t ← gets ticks;
  if u32 (t - ticks0) <? u32 n then
    cur ← curproc c;
    p ← getproc cur;
    if negb (killed p =? 0) then
      onmach (release c tickslock);;
      ret (Some (-1))
    else
      sleep c chan_ticks tickslock;;
      ret None
  else
    onmach (release c tickslock);;
    ret (Some 0).
Fixpoint sleep_loop (fuel : nat) (c : nat) (ticks0 n : Z) : T (nat * Z) :=
  match fuel with
  | O => TStep spin TRet
  | S fuel =>
      o <~ step (sleep_turn c ticks0 n);
      match o with
      | Some v => TRet (c, v)
      | None => TPark (fun c r => match r with BackLocked _ => sleep_loop fuel c ticks0 n | _ => TExit (panic "sleep") end)
      end
  end.
Definition sys_sleep (fuel : nat) (c : nat) : T (nat * Z) :=
  o <~ step (arg c 0);
  match o with
  | None => TRet (c, -1)
  | Some n =>
      ticks0 <~ step (onmach (acquire c tickslock);; gets ticks);
      sleep_loop fuel c ticks0 n
  end.

Definition sys_uptime (c : nat) : K Z :=
  onmach (acquire c tickslock);;
  xticks ← gets ticks;
  onmach (release c tickslock);;
  ret (s32 xticks).

Definition proc_cps (c : nat) : K Z :=
  onmach (acquire c ptable_lock);;
  ps ← gets procs;
  onenv (env_print (cps_text ps));;
  onmach (release c ptable_lock);;
  ret 0.
Definition sys_cps (c : nat) : K Z := proc_cps c;; ret 0.

(** The results of [argint] are not looked at. *)
Definition sys_renice (c : nat) : K Z :=
  v ← arg c 0;
  n ← arg c 1;
  renice c (default 0 v) (default 0 n).

(** ** [sys_sleep] *)

Lemma keeps_onmach {A T0} (f : kst -> T0) (m : M mach A) : (forall k s, f (set_kmach k s) = f s) -> keeps f (onmach m).
Proof. intros Hf s a s' H. unfold onmach, zoom in H. destruct (m (kmach s)) as [[b k]| | |]; [|done..]. injection H as <- <-. apply Hf. Qed.
#[local] Hint Extern 1 (keeps _ (onmach _)) => apply keeps_onmach; done : keeps.

(** What no operation on locks changes of the machine: which CPUs there are and
    which process each runs. *)
Definition who (m : mach) : list (Z * Z * option nat) := (fun k => (apicid k, lapic_id k, cproc k)) <$> cpus m.

Lemma who_upd_cpu c f : (forall k, apicid (f k) = apicid k /\ lapic_id (f k) = lapic_id k /\ cproc (f k) = cproc k) -> keeps who (upd_cpu c f).
Proof.
  intros Hf m a m' H. unfold upd_cpu in H. apply bind_inv in H as (k & m1 & Hk & [= <- <-]). unfold this_cpu in Hk.
  apply bind_inv in Hk as (o & m2 & [= <- <-] & Hk). destruct (cpus m !! c) as [k'|] eqn:Hc; [|done]. injection Hk as <- <-.
  unfold who. cbn. rewrite list_fmap_insert. apply list_insert_id. rewrite list_lookup_fmap, Hc. cbn. by destruct (Hf k') as (-> & -> & ->).
Qed.
#[local] Hint Extern 1 (keeps who (upd_cpu _ _)) => apply who_upd_cpu; by intros [] : keeps.
Lemma who_mycpu c : keeps who (mycpu c).
Proof. unfold mycpu, read_if, this_cpu. solve_keeps. Qed.
#[local] Hint Resolve who_mycpu : keeps.
Lemma who_pushcli c : keeps who (pushcli c).
Proof. unfold pushcli, read_if, cli, this_cpu. solve_keeps. Qed.
Lemma who_popcli c : keeps who (popcli c).
Proof. unfold popcli, read_if, sti, this_cpu. solve_keeps. Qed.
#[local] Hint Resolve who_pushcli who_popcli : keeps.
Lemma who_holding c l : keeps who (holding c l).
Proof. unfold holding. solve_keeps. Qed.
#[local] Hint Resolve who_holding : keeps.
Lemma who_acquire c l : keeps who (acquire c l).
Proof. unfold acquire, xchg_loop. solve_keeps. Qed.
Lemma who_release c l : keeps who (release c l).
Proof. unfold release. solve_keeps. Qed.
Lemma who_myproc c : keeps who (myproc c).
Proof. unfold myproc, this_cpu. solve_keeps. Qed.

Lemma who_wf m m' : who m' = who m -> mach_wf m -> mach_wf m'.
Proof.
  intros Hw [H1 H2]. split.
  - replace (apicid <$> cpus m') with ((fun x => fst (fst x)) <$> who m'); [rewrite Hw|]; unfold who; by rewrite <- list_fmap_compose.
  - assert (H : Forall (fun x => fst (fst x) = snd (fst x)) (who m)) by (by apply Forall_fmap). rewrite <- Hw in H. by apply Forall_fmap in H.
Qed.
Lemma who_lookup m m' c k : who m' = who m -> cpus m !! c = Some k -> exists k', cpus m' !! c = Some k' /\ cproc k' = cproc k.
Proof.
  intros Hw Hk. assert (H : who m' !! c = Some (apicid k, lapic_id k, cproc k)) by (rewrite Hw; unfold who; by rewrite list_lookup_fmap, Hk).
  unfold who in H. rewrite list_lookup_fmap in H. destruct (cpus m' !! c) as [k'|]; [|done]. exists k'. split; [done|]. by injection H.
Qed.
(** [myproc] gives the process of its CPU. *)
Lemma myproc_inv c k m o m' : mach_wf m -> cpus m !! c = Some k -> myproc c m = Ok (o, m') -> o = cproc k.
Proof.
  intros Hwf Hk H. apply bind_inv in H as ([] & m1 & H1 & H). assert (W1 := who_pushcli _ _ _ _ H1). apply bind_inv in H as (i & m2 & H2 & H).
  assert (W2 := who_mycpu _ _ _ _ H2). apply mycpu_inv in H2 as [-> _]; [|by eapply who_wf]. apply bind_inv in H as (k' & m3 & H3 & H).
  apply bind_inv in H as ([] & m4 & _ & [= <- <-]). unfold this_cpu in H3. apply bind_inv in H3 as (q & m5 & [= <- <-] & H3).
  destruct (who_lookup m m2 c k) as (k2 & Hk2 & Hp); [by rewrite W2|done|]. rewrite Hk2 in H3. by injection H3 as <- <-.
Qed.

Definition kwho (s : kst) : list (Z * Z * option nat) := who (kmach s).
Lemma kwho_onmach {A} (m : M mach A) : keeps who m -> keeps kwho (onmach m).
Proof. intros Hm s a s' H. unfold onmach, zoom in H. destruct (m (kmach s)) as [[b k]| | |] eqn:E1; [|done..]. injection H as <- <-. exact (Hm _ _ _ E1). Qed.
Lemma kwho_curproc c : keeps kwho (curproc c).
Proof. unfold curproc. apply keeps_bind; [apply kwho_onmach, who_myproc|]. solve_keeps. Qed.
#[local] Hint Resolve kwho_curproc : keeps.

(** The time, and what another measure of it may depend on. *)
Definition timer (s : kst) : Z * E := (ticks s, env s).

Lemma arg_timer c n : keeps timer (arg c n).
Proof. unfold arg, curproc, getproc. solve_keeps. Qed.
Lemma arg_procs c n : keeps procs (arg c n).
Proof. unfold arg, curproc, getproc. solve_keeps. Qed.
Lemma arg_kwho c n : keeps kwho (arg c n).
Proof. unfold arg, getproc. solve_keeps. Qed.

Lemma sleep_timer c ch lk : keeps timer (sleep (E := E) c ch lk).
Proof. unfold sleep, sleep_save, sched_save, curproc, updproc, getproc. solve_keeps. Qed.

Lemma sleep_turn_timer c t0 n : keeps timer (sleep_turn c t0 n).
Proof. unfold sleep_turn, curproc, getproc. pose proof (sleep_timer c chan_ticks tickslock). solve_keeps. Qed.

Section sleep.
(** The process that calls, the rest of the system, and the switch to the
    process. *)
Context (me : nat) (R : kst -> kst -> Prop) (resume : nat -> M kst resumed).

(** The process runs on CPU [c]. *)
Definition mine (c : nat) (s : kst) : Prop :=
  mach_wf (kmach s) /\ (exists k, cpus (kmach s) !! c = Some k /\ cproc k = Some me) /\
  (exists p, procs s !! me = Some p /\ state p = RUNNING).
(** It goes on running there while it does not call [sched] itself, and it is
    continued on a CPU that runs it. *)
Hypothesis Hmine : forall c s s', R s s' -> mine c s -> mine c s'.
Hypothesis Hback : forall c s r s', resume c s = Ok (r, s') -> mine c s'.

(** The time in ticks since the boot, of which [ticks] is the last 32 bits; it
    does not go back. *)
Context (now : kst -> Z).
Hypothesis Hnow : forall s, u32 (now s) = u32 (ticks s).
Hypothesis Hsame : forall s s', timer s' = timer s -> now s' = now s.
Hypothesis Hmono : forall s s', R s s' -> now s <= now s'.
Hypothesis Hresume : forall c s r s', resume c s = Ok (r, s') -> now s <= now s'.

Lemma mine_kept {A} (m : K A) c s a s' : keeps procs m -> keeps kwho m -> m s = Ok (a, s') -> mine c s -> mine c s'.
Proof.
  intros Hp Hw H (H1 & (k & Hk & Hc) & H3). apply Hp in H as Hp'. apply Hw in H as Hw'. split_and!.
  - by eapply who_wf.
  - destruct (who_lookup _ _ c k Hw' Hk) as (k' & Hk' & He). exists k'. by rewrite He.
  - by rewrite Hp'.
Qed.

Lemma curproc_mine c s i s' : mine c s -> curproc c s = Ok (i, s') -> i = me.
Proof.
  intros (Hwf & (k & Hk & Hc) & _) H. unfold curproc in H. apply bind_inv in H as (o & s1 & H1 & H).
  unfold onmach, zoom in H1. destruct (myproc c (kmach s)) as [[o' m']| | |] eqn:Hm; [|done..]. injection H1 as <- <-.
  rewrite (myproc_inv c k _ _ _ Hwf Hk Hm), Hc in H. by injection H as <- <-.
Qed.

Lemma elapsed s0 s' : now s0 <= now s' -> u32 (ticks s' - ticks s0) <= now s' - now s0 /\
  (now s' < now s0 + 2 ^ 32 -> u32 (ticks s' - ticks s0) = now s' - now s0).
Proof.
  intros Hle. assert (He : u32 (ticks s' - ticks s0) = u32 (now s' - now s0)).
  { unfold u32 in *. rewrite Zminus_mod, <- (Hnow s'), <- (Hnow s0). by rewrite <- Zminus_mod. }
  rewrite He. split; [apply Z.mod_le; lia|]. intros Hlt. apply u32_small. lia.
Qed.

(** A turn that returns: the time is over, or the process was killed. *)
Lemma sleep_turn_Ok c t0 n s v s' : mine c s -> sleep_turn c t0 n s = Ok (Some v, s') ->
  mine c s' /\ ((v = 0 /\ u32 n <= u32 (ticks s' - t0)) \/ (v = -1 /\ exists p, procs s' !! me = Some p /\ killed p <> 0)).
Proof.
  intros Hm H. assert (Ht := sleep_turn_timer c t0 n _ _ _ H). unfold sleep_turn in H. apply bind_inv in H as (t & s1 & [= <- <-] & H).
  assert (Hrel : forall s1 s2, onmach (release c tickslock) s1 = Ok ((), s2) -> mine c s1 -> mine c s2).
  { intros s1 s2 H1. eapply mine_kept; [|apply kwho_onmach, who_release|exact H1]. by apply keeps_onmach. }
  destruct (Z.ltb_spec (u32 (ticks s - t0)) (u32 n)) as [Hlt|Hge].
  - apply bind_inv in H as (cur & s1 & Hcur & H). apply bind_inv in H as (p & s2 & Hp & H).
    assert (cur = me) as -> by (by eapply curproc_mine). unfold getproc in Hp. apply bind_inv in Hp as (ps & s3 & [= <- <-] & Hp).
    destruct (procs s1 !! me) as [q|] eqn:Hq; [|done]. injection Hp as <- <-.
    destruct (Z.eqb_spec (killed q) 0) as [|Hk]; cbn [negb] in H; [by apply bind_inv in H as ([] & s4 & _ & [=])|].
    apply bind_inv in H as ([] & s4 & Hr & [= <- <-]). split.
    + apply (Hrel s1 s4 Hr). eapply mine_kept; [|apply kwho_curproc|exact Hcur|done]. unfold curproc. solve_keeps.
    + right. split; [done|]. exists q. split; [|done]. by rewrite (keeps_onmach procs _ ltac:(done) _ _ _ Hr).
  - apply bind_inv in H as ([] & s4 & Hr & [= <- <-]). split; [by apply (Hrel s)|]. left. injection Ht as Ht _. by rewrite Ht.
Qed.

Lemma sleep_turn_done c s0 n s m : now s0 + u32 n <= now s < now s0 + 2 ^ 32 -> release c tickslock (kmach s) = Ok ((), m) ->
  sleep_turn c (ticks s0) n s = Ok (Some 0, set_kmach m s).
Proof.
  intros Hn Hr. assert (0 <= u32 n) by apply u32_range. destruct (elapsed s0 s ltac:(lia)) as [_ He]. unfold sleep_turn, gets, bind.
  rewrite He by lia. rewrite (proj2 (Z.ltb_ge _ _)) by lia. unfold onmach, zoom. by rewrite Hr.
Qed.

Lemma sleep_loop_returns t0 n fuel : forall c s c' v s', mine c s -> returns R resume (sleep_loop fuel c t0 n) s (c', v) s' ->
  mine c' s' /\ now s <= now s' /\
  ((v = 0 /\ u32 n <= u32 (ticks s' - t0)) \/ (v = -1 /\ exists p, procs s' !! me = Some p /\ killed p <> 0)).
Proof.
  induction fuel as [|fuel IH]; intros c s c' v s' Hm; cbn [sleep_loop returns].
  { by intros (s1 & b & s2 & _ & [=] & _). }
  intros (s1 & o & s2 & HR & Ho & H). apply (Hmine c _ _ HR) in Hm. apply Hmono in HR. assert (Ht := Hsame _ _ (sleep_turn_timer _ _ _ _ _ _ Ho)).
  destruct o as [w|].
  - destruct H as [[= <- <-] ->]. destruct (sleep_turn_Ok _ _ _ _ _ _ Hm Ho) as [H1 H2]. split_and!; [done|lia|done].
  - destruct H as (s3 & c1 & r & s4 & HR2 & Hr & H). apply Hmono in HR2. apply Hback in Hr as Hm4. apply Hresume in Hr. destruct r; [done| |done].
    apply IH in H as (H1 & H2 & H3); [|done]. split_and!; [done|lia|done].
Qed.

(** C12. [sys_sleep] sleeps for as long as it was asked: if it returns 0, at
    least the requested number of ticks has passed since the call, also if the
    32-bit counter has wrapped around, whatever the other processes did and
    however often the process was woken up before; it returns -1 only without an
    argument or if the calling process has been killed. And it does not
    oversleep: on a turn of its loop in which that time has passed, and not yet
    2^32 ticks, it gives the lock back and returns. The request counts as an
    unsigned number: a negative one is a very long time. Assumed of the rest of
    the system: time does not go back, and the process stays on its CPU until it
    gives it up and is continued on a CPU that runs it. *)
Theorem sleep_long_enough fuel c s c' v s' :
  mine c s -> returns R resume (sys_sleep fuel c) s (c', v) s' ->
  mine c' s' /\
  (exists s1 o s2, R s s1 /\ arg c 0 s1 = Ok (o, s2) /\
    match o with
    | None => v = -1
    | Some n => (v = 0 /\ now s + u32 n <= now s') \/ (v = -1 /\ exists p, procs s' !! me = Some p /\ killed p <> 0)
    end) /\
  (forall c2 s0 n s2 m, now s0 + u32 n <= now s2 < now s0 + 2 ^ 32 -> release c2 tickslock (kmach s2) = Ok ((), m) ->
     sleep_turn c2 (ticks s0) n s2 = Ok (Some 0, set_kmach m s2)).
Proof.
  intros Hm H. apply and_assoc. split; [|by intros; apply sleep_turn_done]. revert H. intros (s1 & o & s2 & HR & Ho & H).
  apply (Hmine c _ _ HR) in Hm. apply (mine_kept _ c _ _ _ (arg_procs c 0) (arg_kwho c 0) Ho) in Hm. assert (HR' := Hmono _ _ HR).
  assert (Ht := Hsame _ _ (arg_timer _ _ _ _ _ Ho)). cbn [returns tbind] in H. destruct o as [n|].
  2: { destruct H as [[= <- <-] ->]. split; [done|]. by exists s1, None, s2. }
  destruct H as (s3 & t0 & s4 & HR2 & Ht0 & H). apply (Hmine c _ _ HR2) in Hm. apply Hmono in HR2. apply bind_inv in Ht0 as ([] & s5 & Ha & [= <- <-]).
  assert (Ht5 := Hsame _ _ (keeps_onmach timer (acquire c tickslock) ltac:(done) s3 () s5 Ha)).
  apply (mine_kept _ c _ _ _ (keeps_onmach procs _ ltac:(done)) (kwho_onmach _ (who_acquire c tickslock)) Ha) in Hm.
  apply sleep_loop_returns in H as (Hm' & Hle & Hv); [|done]. split; [done|]. exists s1, (Some n), s2. split; [done|]. split; [done|].
  destruct Hv as [[-> Hn]|Hk]; [left|by right]. split; [done|]. destruct (elapsed s5 s' Hle) as [He _]. lia.
Qed.
End sleep.
End sysproc.

(** ** A run

    Process 1 of the demo asks for a sleep of two ticks, just before the counter
    wraps around; while it is parked, CPU 0 returns to its scheduler, takes a
    clock interrupt and draws again. *)

#[local] Existing Instance demo_env.

Definition demo_sysenv : sysenv Z := {| env_umem := fun _ _ a => if a =? 104 then 2 else 0; env_print := fun _ => ret () |}.
#[local] Existing Instance demo_sysenv.

Definition demo_sleeper : @Proc.kst Z :=
  set_ticks (2 ^ 32 - 1) (set_procs (alter (fun p => set_tfv (set_tf_esp 100 (tfv p)) p) 1%nat (procs (k_st demo1))) (k_st demo1)).
Definition demo_now (s : @Proc.kst Z) : Z := if u32 (ticks s) <? 100 then u32 (ticks s) + 2 ^ 32 else u32 (ticks s).
Definition demo_mine (s : @Proc.kst Z) : bool :=
  bool_decide (mach_wf (kmach s)) && bool_decide ((cproc <$> cpus (kmach s) !! 0%nat) = Some (Some 1%nat)) &&
  bool_decide ((state <$> procs s !! 1%nat) = Some RUNNING).
Definition demo_tick (s : @Proc.kst Z) : @Proc.kst Z :=
  if bool_decide ((state <$> procs s !! 1%nat) = Some RUNNING) then s else
  match (scheduler_return 0 1;; onmach (cli 0);; timer_intr 0;; scheduler_pick 0 0) s with
  | Ok (_, s') => if demo_now s <=? demo_now s' then s' else s
  | _ => s
  end.
Definition demo_resume (c : nat) (s : @Proc.kst Z) : outcome (resumed * @Proc.kst Z) :=
  match c with
  | O =>
      match resume 0 1 s with
      | Ok (r, s') => if demo_mine s' && (demo_now s <=? demo_now s') then Ok (r, s') else Spin
      | o => o
      end
  | _ => Spin
  end.
Definition demo_others (s s' : @Proc.kst Z) : Prop := s' = s \/ s' = demo_tick s.
Definition demo_slept : @Proc.kst Z :=
  match trun demo_resume demo_tick 0 (sys_sleep 5 0) demo_sleeper with Some (_, s') => s' | None => demo_sleeper end.

Lemma demo_mine_ok s : demo_mine s = true -> mine 1 0 s.
Proof.
  intros [[H1%bool_decide_eq_true H2%bool_decide_eq_true]%andb_true_iff H3%bool_decide_eq_true]%andb_true_iff. split; [done|].
  apply fmap_Some in H2 as (k & Hk & He). apply fmap_Some in H3 as (p & Hp & He'). split; [by exists k|by exists p].
Qed.
Lemma demo_tick_mine c s : mine 1 c s -> mine 1 c (demo_tick s).
Proof.
  intros Hm. unfold demo_tick. destruct Hm as (H1 & H2 & p & Hp & Hs). rewrite bool_decide_true by (by rewrite Hp; cbn; f_equal).
  split_and!; [done|done|by exists p].
Qed.
Lemma demo_tick_mono s : demo_now s <= demo_now (demo_tick s).
Proof.
  unfold demo_tick. case_bool_decide; [done|]. destruct ((scheduler_return 0 1;; _) s) as [[r s']| | |]; [|done..].
  destruct (Z.leb_spec (demo_now s) (demo_now s')); [done|lia].
Qed.
Lemma demo_resume_Ok c s r s' : demo_resume c s = Ok (r, s') -> mine 1 c s' /\ demo_now s <= demo_now s'.
Proof.
  unfold demo_resume. destruct c as [|c]; [|done]. destruct (resume 0 1 s) as [[r' s2]| | |]; [|done..].
  destruct (demo_mine s2) eqn:Hm; [|done]. destruct (Z.leb_spec (demo_now s) (demo_now s2)); [|done]. intros [= <- <-]. split; [by apply demo_mine_ok|done].
Qed.
Lemma demo_now_ticks s : u32 (demo_now s) = u32 (ticks s).
Proof.
  unfold demo_now, u32. destruct (_ <? 100); [|by rewrite Z.mod_mod]. rewrite <- Zplus_mod_idemp_r, Z_mod_same_full, Z.add_0_r. by rewrite Z.mod_mod.
Qed.
Lemma demo_sleep_runs : trun demo_resume demo_tick 0 (sys_sleep 5 0) demo_sleeper = Some ((0%nat, 0), demo_slept).
Proof. by vm_compute. Qed.

Lemma sleep_long_enough_witness : ticks demo_slept = 1 /\ exists s1 o s2, demo_others demo_sleeper s1 /\ arg 0 0 s1 = Ok (o, s2) /\
  match o with
  | None => 0 = -1
  | Some n => (0 = 0 /\ demo_now demo_sleeper + u32 n <= demo_now demo_slept) \/ (0 = -1 /\ exists p, procs demo_slept !! 1%nat = Some p /\ killed p <> 0)
  end.
Proof.
  split; [by vm_compute|].
  eapply (sleep_long_enough 1 demo_others demo_resume) with (fuel := 5%nat) (c := 0%nat) (c' := 0%nat).
  - intros c s s' [->| ->]; [done|apply demo_tick_mine].
  - intros c s r s' H. apply (demo_resume_Ok c s r s' H).
  - apply demo_now_ticks.
  - intros s s' [= H _]. unfold demo_now. by rewrite H.
  - intros s s' [->| ->]; [done|apply demo_tick_mono].
  - intros c s r s' H. apply (demo_resume_Ok c s r s' H).
  - apply demo_mine_ok. by vm_compute.
  - apply (trun_returns demo_others demo_resume demo_tick 0); [by left|by right|apply demo_sleep_runs].
Defined.
