(* ===== verification/Trap.v ===== *)
(** System call dispatch ([syscall] of [syscall.c]) and [trap] ([trap.c]), as
    threads of the process that was interrupted.

    The system calls on files are a parameter: they act on the state of the
    file code. *)

From S2P Require Import Prelude Layout Spinlock CString Syscall Console Proc Thread ProcDump SysProc ProcSpec ProcSim KernelThms.

Definition T_SYSCALL : Z := 64.
Definition T_IRQ0 : Z := 32.
Definition IRQ_TIMER : Z := 0.
Definition IRQ_KBD : Z := 1.
Definition IRQ_COM1 : Z := 4.
Definition IRQ_IDE : Z := 14.
Definition IRQ_SPURIOUS : Z := 31.

(** The interrupt handlers of the devices, with the channels they wake up, the
    interrupt controller and [rcr2()]. *)
Class trapenv (E : Type) := Trapenv {
  env_lapiceoi : M E ();
  env_ideintr : M E (list channel);
  env_kbdintr : M E (list channel);
  env_uartintr : M E (list channel);
  env_rcr2 : M E Z
}.

Section trap.
Context {E : Type} {HE : procenv E} {HS : sysenv E} {HT : trapenv E}.
Abbreviation kst := (@Proc.kst E).
Abbreviation K := (@Proc.K E).
Abbreviation T := (Thread.thread kst resumed).
Context (filecall : Z -> nat -> T (nat * Z)).

Definition print (fmt : list Z) (ap : list carg) : K () := onenv (env_print (default [] (cformat fmt ap))).

(** ** System calls *)

Definition NELEM_syscalls : Z := 25.

(** A call without a switch. *)
Definition call (c : nat) (m : K Z) : T (nat * Z) := v <~ step m; TRet (c, v).

(** [syscalls[num]]; the entry 0 is empty. *)
Definition syscalls (fuel : nat) (num : Z) (c : nat) : option (T (nat * Z)) :=
  if num =? 0 then None else Some (
  if num =? 1 then sys_fork c
  else if num =? 2 then sys_exit c
  else if num =? 3 then sys_wait fuel c
  else if num =? 6 then call c (sys_kill c)
  else if num =? 11 then call c (sys_getpid c)
  else if num =? 12 then call c (sys_sbrk c)
  else if num =? 13 then sys_sleep fuel c
  else if num =? 14 then call c (sys_uptime c)
  else if num =? 22 then call c (sys_getppid c)
  else if num =? 23 then call c (sys_cps c)
  else if num =? 24 then call c (sys_renice c)
  else filecall num c).

Definition set_eax (v : Z) (p : proc) : proc := set_tfv (set_tf_eax (u32 v) (tfv p)) p.

Definition syscall (fuel : nat) (c : nat) : T nat :=
  '(cur, num) <~ step (cur ← curproc c; p ← getproc cur; ret (cur, s32 (tf_eax (tfv p))));
  match (if (0 <? num) && (num <? NELEM_syscalls) then syscalls fuel num c else None) with
  | Some t =>
      '(c, v) <~ t;
      _ <~ step (updproc cur (set_eax v));
      TRet c
  | None =>
      _ <~ step (
        p ← getproc cur;
        print (zs "%d %s: unknown sys call %d" ++ [LF]) [Num (pid p); Str (Some (cname p)); Num num];;
        updproc cur (set_eax (-1)));
      TRet c
  end.

(** ** Traps *)

(** The [switch] over the trap number. *)
Definition handle (c : nat) (t : trapframe) : K () :=
  let n := tf_trapno t in
  if n =? T_IRQ0 + IRQ_TIMER then timer_intr c;; onenv env_lapiceoi
  else if n =? T_IRQ0 + IRQ_IDE then chs ← onenv env_ideintr; wakeups c chs;; onenv env_lapiceoi
  else if n =? T_IRQ0 + IRQ_IDE + 1 then ret ()
  else if n =? T_IRQ0 + IRQ_KBD then chs ← onenv env_kbdintr; wakeups c chs;; onenv env_lapiceoi
  else if n =? T_IRQ0 + IRQ_COM1 then chs ← onenv env_uartintr; wakeups c chs;; onenv env_lapiceoi
  else if (n =? T_IRQ0 + 7) || (n =? T_IRQ0 + IRQ_SPURIOUS) then
    i ← onmach (cpuid c);
    print (zs "cpu%d: spurious interrupt at %x:%x" ++ [LF]) [Num (Z.of_nat i); Num (tf_cs t); Num (tf_eip t)];;
    onenv env_lapiceoi
  else
    o ← onmach (myproc c);
    i ← onmach (cpuid c);
    cr2 ← onenv env_rcr2;
    match o with
    | Some cur =>
        if Z.land (tf_cs t) 3 =? 0 then
          print (zs "unexpected trap %d from cpu %d eip %x (cr2=0x%x)" ++ [LF]) [Num n; Num (Z.of_nat i); Num (tf_eip t); Num cr2];;
          panic "trap"
        else
          p ← getproc cur;
          print (zs "pid %d %s: trap %d err %d on cpu %d eip 0x%x addr 0x%x--kill proc" ++ [LF])
            [Num (pid p); Str (Some (cname p)); Num n; Num (tf_err t); Num (Z.of_nat i); Num (tf_eip t); Num cr2];;
          updproc cur (set_killed 1)
    | None =>
        print (zs "unexpected trap %d from cpu %d eip %x (cr2=0x%x)" ++ [LF]) [Num n; Num (Z.of_nat i); Num (tf_eip t); Num cr2];;
        panic "trap"
    end.

(** [myproc()] and what it points to. *)
Definition look (c : nat) : K (option (nat * proc)) :=
  o ← onmach (myproc c);
  match o with
  | None => ret None
  | Some i => p ← getproc i; ret (Some (i, p))
  end.

(** [myproc() && myproc()->killed && (tf->cs&3) == DPL_USER] *)
Definition doomed (t : trapframe) (o : option (nat * proc)) : bool :=
  match o with
  | None => false
  | Some (_, p) => negb (killed p =? 0) && (Z.land (tf_cs t) 3 =? DPL_USER)
  end.

Definition yield (c : nat) : T nat :=
  TStep (yield_save c) (fun _ => TPark (fun c r => match r with Back _ => TRet c | _ => TExit (panic "yield") end)).

(** [trap] with the frame [t] at the address [tfa]: the CPU it returns on and the
    process that then runs there, if there is one. *)
Definition trap (fuel : nat) (c : nat) (tfa : Z) (t : trapframe) : T (nat * option nat) :=
  if tf_trapno t =? T_SYSCALL then
    p <~ step (cur ← curproc c; getproc cur);
    if negb (killed p =? 0) then sys_exit c else
    _ <~ step (cur ← curproc c; updproc cur (fun p => set_tfv t (set_tf tfa p)));
    c <~ syscall fuel c;
    '(i, p) <~ step (cur ← curproc c; p ← getproc cur; ret (cur, p));
    if negb (killed p =? 0) then sys_exit c else TRet (c, Some i)
  else
    _ <~ step (handle c t);
    o <~ step (look c);
    if doomed t o then sys_exit c else
    o <~ step (look c);
    c <~ (match o with
          | Some (_, p) => if bool_decide (state p = RUNNING) && (tf_trapno t =? T_IRQ0 + IRQ_TIMER) then yield c else TRet c
          | None => TRet c
          end);
    o <~ step (look c);
    if doomed t o then sys_exit c else TRet (c, fst <$> o).

(** ** Theorems *)

Lemma getproc_Ok i p (s s' : kst) : getproc i s = Ok (p, s') -> procs s' !! i = Some p /\ s' = s.
Proof. unfold getproc. intros H. apply bind_inv in H as (ps & s1 & [= <- <-] & H). destruct (procs s !! i) as [q|] eqn:Hq; [|done]. by injection H as <- <-. Qed.

Lemma look_Ok c o (s s' : kst) : look c s = Ok (o, s') -> match o with Some (i, p) => procs s' !! i = Some p | None => True end.
Proof.
  intros H. apply bind_inv in H as (q & s1 & _ & H). destruct q as [i|]; [|by injection H as <- <-].
  apply bind_inv in H as (p & s2 & Hp & [= <- <-]). by apply getproc_Ok in Hp as [? _].
Qed.

Section exec.
Context (R : kst -> kst -> Prop) (resume : nat -> M kst resumed).

Lemma sys_exit_never {A} c s (a : A) s' : ~ returns R resume (sys_exit c) s a s'.
Proof. by intros (s1 & b & s2 & _ & _ & H). Qed.

(** C10. A process that has been killed does not get back to user space: when
    [trap] returns to user mode, from a system call or from an interrupt or
    fault, the flag of the process that runs is not set at the end of [trap];
    otherwise [trap] has called [exit]. *)
Theorem killed_stays_in_kernel fuel c tfa t s c' o s' :
  tf_trapno t = T_SYSCALL \/ Z.land (tf_cs t) 3 = DPL_USER ->
  returns R resume (trap fuel c tfa t) s (c', o) s' ->
  match o with Some i => exists p, procs s' !! i = Some p /\ killed p = 0 | None => tf_trapno t <> T_SYSCALL end.
Proof.
  intros Hu. unfold trap. destruct (Z.eqb_spec (tf_trapno t) T_SYSCALL) as [Hs|Hs]; intros H.
  - apply returns_bind in H as (p & s1 & _ & H). destruct (negb (killed p =? 0)); [by apply sys_exit_never in H|].
    apply returns_bind in H as ([] & s2 & _ & H). apply returns_bind in H as (c1 & s3 & _ & H). apply returns_bind in H as ([i q] & s4 & H1 & H2).
    destruct (Z.eqb_spec (killed q) 0) as [Hk|Hk]; cbn [negb] in H2; [|by apply sys_exit_never in H2]. destruct H2 as [[= <- <-] ->].
    destruct H1 as (s5 & b & s6 & _ & Hb & [-> ->]). apply bind_inv in Hb as (cur & s7 & _ & Hb). apply bind_inv in Hb as (p' & s8 & Hp & [= <- <- <-]).
    apply getproc_Ok in Hp as [Hp _]. by exists p'.
  - destruct Hu as [|Hu]; [done|]. apply returns_bind in H as ([] & s1 & _ & H). apply returns_bind in H as (o1 & s2 & _ & H).
    destruct (doomed t o1); [by apply sys_exit_never in H|]. apply returns_bind in H as (o2 & s3 & _ & H). apply returns_bind in H as (c1 & s4 & _ & H).
    apply returns_bind in H as (o3 & s5 & H1 & H2). destruct (doomed t o3) eqn:Hd; [by apply sys_exit_never in H2|]. destruct H2 as [[= <- <-] ->].
    destruct H1 as (s6 & b & s7 & _ & Hb & [-> ->]). apply look_Ok in Hb. destruct o3 as [[i p]|]; [|done]. exists p. split; [done|].
    cbn [doomed] in Hd. rewrite Hu, Z.eqb_refl, andb_true_r in Hd. apply negb_false_iff in Hd. by apply Z.eqb_eq.
Qed.

(** The trap numbers that [trap] knows. *)
Definition known_trap (n : Z) : Prop :=
  n ∈ [T_SYSCALL; T_IRQ0 + IRQ_TIMER; T_IRQ0 + IRQ_IDE; T_IRQ0 + IRQ_IDE + 1; T_IRQ0 + IRQ_KBD; T_IRQ0 + IRQ_COM1; T_IRQ0 + 7; T_IRQ0 + IRQ_SPURIOUS].

Lemma handle_fault c t s s' : ~ known_trap (tf_trapno t) -> handle c t s = Ok ((), s') ->
  Z.land (tf_cs t) 3 <> 0 /\ exists i m' p, myproc c (kmach s) = Ok (Some i, m') /\ procs s' !! i = Some p /\ killed p <> 0.
Proof.
  intros Hn. unfold known_trap in Hn. repeat rewrite not_elem_of_cons in Hn. destruct Hn as (H0 & H1 & H2 & H3 & H4 & H5 & H6 & H7 & _).
  unfold handle. rewrite !(proj2 (Z.eqb_neq (tf_trapno t) _)) by done. cbn [orb]. intros H. apply bind_inv in H as (o & s1 & Ho & H).
  unfold onmach, zoom in Ho. destruct (myproc c (kmach s)) as [[o' m']| | |] eqn:Hm; [|done..]. injection Ho as <- <-.
  apply bind_inv in H as (k & s2 & _ & H). apply bind_inv in H as (cr2 & s3 & _ & H). destruct o' as [i|].
  2: { by apply bind_inv in H as ([] & s4 & _ & [=]). }
  destruct (Z.eqb_spec (Z.land (tf_cs t) 3) 0) as [|Hcs]; [by apply bind_inv in H as ([] & s4 & _ & [=])|]. split; [done|].
  apply bind_inv in H as (p & s4 & _ & H). apply bind_inv in H as ([] & s5 & _ & H). exists i, m'. unfold updproc in H.
  apply bind_inv in H as (q & s6 & Hq & [= <-]). apply getproc_Ok in Hq as [Hq ->]. exists (set_killed 1 q). split; [done|]. split; [|done].
  cbn. apply list_lookup_insert_eq. by eapply lookup_lt_Some.
Qed.

(** A fault in user space ends the process, and a fault in the kernel is a
    panic: for a trap number it does not know, [trap] panics unless the fault
    was in user space, and then it does not return to the process, which it
    marks as killed and makes call [exit]. The rest of the system may do
    anything that leaves the process on its CPU and its flag set. *)
Theorem fault_is_fatal fuel c i tfa t s a s' :
  (forall s s' o m', R s s' -> myproc c (kmach s') = Ok (o, m') -> o = Some i) ->
  (forall s s' p, R s s' -> procs s !! i = Some p -> killed p <> 0 -> exists p', procs s' !! i = Some p' /\ killed p' <> 0) ->
  ~ known_trap (tf_trapno t) ->
  (Z.land (tf_cs t) 3 = 0 -> forall s', handle c t s <> Ok ((), s')) /\
  (Z.land (tf_cs t) 3 = DPL_USER -> ~ returns R resume (trap fuel c tfa t) s a s').
Proof.
  intros Hcur Hkill Hn. split; [intros H0 s1 Hh; by apply handle_fault in Hh as [? _]|]. intros Hu H. unfold trap in H.
  rewrite (proj2 (Z.eqb_neq (tf_trapno t) T_SYSCALL)) in H by (intros He; apply Hn; rewrite He; left).
  apply returns_bind in H as ([] & s1 & H1 & H). destruct H1 as (s2 & [] & s3 & HR & Hh & [_ ->]).
  apply (handle_fault _ _ _ _ Hn) in Hh as (_ & i' & m' & p & Hm & Hp & Hk). assert (Some i' = Some i) as [= ->] by exact (Hcur _ _ _ _ HR Hm).
  apply returns_bind in H as (o & s4 & H1 & H). destruct H1 as (s5 & o' & s6 & HR2 & Hl & [-> ->]). destruct (Hkill _ _ _ HR2 Hp Hk) as (p' & Hp' & Hk').
  unfold look in Hl. apply bind_inv in Hl as (q & s7 & Hq & Hl). unfold onmach, zoom in Hq. destruct (myproc c (kmach s5)) as [[q' m2]| | |] eqn:Hm2; [|done..].
  injection Hq as <- <-. rewrite (Hcur _ _ _ _ HR2 Hm2) in Hl. apply bind_inv in Hl as (p2 & s8 & Hg & [= <- <-]). apply getproc_Ok in Hg as [Hg ->].
  cbn in Hg. rewrite Hp' in Hg. injection Hg as <-. cbn [doomed] in H. rewrite Hu, (proj2 (Z.eqb_neq _ 0) Hk') in H. by apply sys_exit_never in H.
Qed.
End exec.
End trap.

(** ** Runs

    Process 1 of the demo calls [getpid]; then it divides by zero. *)

#[local] Existing Instance demo_env.
#[local] Existing Instance demo_sysenv.

Definition demo_trapenv : trapenv Z := {| env_lapiceoi := ret (); env_ideintr := ret []; env_kbdintr := ret []; env_uartintr := ret []; env_rcr2 := ret 0 |}.
#[local] Existing Instance demo_trapenv.

Definition demo_filecall (num : Z) (c : nat) : thread (@Proc.kst Z) resumed (nat * Z) := TRet (c, -1).
Definition demo_frame (trapno eax : Z) : trapframe :=
  set_tf_eax eax (Trapframe 0 0 0 0 0 0 0 0 0 0 0 0 trapno 0 0 27 0 0 0).
Definition demo_call := trun (fun c => resume c 1) id 0 (trap demo_filecall 5 0 0 (demo_frame T_SYSCALL 11)) (k_st demo1).

Definition demo_called : @Proc.kst Z := match demo_call with Some (_, s') => s' | None => k_st demo1 end.
Definition demo_stays (s s' : @Proc.kst Z) : Prop := s' = s /\ forall o m', myproc 0 (kmach s') = Ok (o, m') -> o = Some 1%nat.

Lemma killed_stays_in_kernel_witness : exists p, procs demo_called !! 1%nat = Some p /\ killed p = 0.
Proof.
  apply (killed_stays_in_kernel demo_filecall eq (fun c => resume c 1) 5 0 0 (demo_frame T_SYSCALL 11) (k_st demo1) 0%nat (Some 1%nat)).
  - by left.
  - apply (trun_returns eq (fun c => resume c 1) id 0); [done..|]. by vm_compute.
Defined.

Definition demo_fault : @Proc.kst Z := match onmach (cli 0) (k_st demo1) with Ok (_, s') => s' | _ => k_st demo1 end.
Lemma demo_fault_handled : (if handle 0 (demo_frame 0 0) demo_fault is Ok (_, s') then killed <$> procs s' !! 1%nat else None) = Some 1.
Proof. by vm_compute. Qed.

Lemma fault_is_fatal_witness :
  demo_stays demo_fault demo_fault /\
  ~ returns demo_stays (fun c => resume c 1) (trap demo_filecall 5 0 0 (demo_frame 0 0)) demo_fault (0%nat, Some 1%nat) demo_fault.
Proof.
  split; [split; [done|]; vm_compute; by intros o m' [= <- <-]|].
  apply (fault_is_fatal demo_filecall demo_stays (fun c => resume c 1) 5 0 1 0 (demo_frame 0 0)).
  - intros s s' o m' [_ H]. apply H.
  - intros s s' p [-> _] Hp Hk. by exists p.
  - unfold known_trap. vm_compute. set_solver.
  - by vm_compute.
Defined.
