(* ===== verification/Segments.v ===== *)
(** Segments and gates: the descriptors of [mmu.h], the segment table that
    [seginit] and [switchuvm] ([vm.c]) fill and the interrupt table that [tvinit]
    ([trap.c]) fills, and how the processor reads them.

    A descriptor is a [struct] of bit fields; the processor reads it as one
    64-bit word.  [lgdt], [lidt] and [ltr] load the address of a table. *)

From stdpp Require Import list.
From S2P Require Import Prelude Layout Proc Trap.

Definition SEG_KCODE : Z := 1.
Definition SEG_TSS : Z := 5.
Definition NSEGS : nat := 6.
Definition STA_X : Z := 0x8.
Definition STA_W : Z := 0x2.
Definition STA_R : Z := 0x2.
Definition STS_T32A : Z := 0x9.
Definition STS_IG32 : Z := 0xE.
Definition STS_TG32 : Z := 0xF.

Record segdesc := Segdesc {
  lim_15_0 : Z;
  base_15_0 : Z;
  base_23_16 : Z;
  sd_type : Z;
  sd_s : Z;
  sd_dpl : Z;
  sd_p : Z;
  lim_19_16 : Z;
  avl : Z;
  rsv1 : Z;
  db : Z;
  g : Z;
  base_31_24 : Z
}.
Definition set_s (v : Z) (d : segdesc) : segdesc :=
  Segdesc (lim_15_0 d) (base_15_0 d) (base_23_16 d) (sd_type d) v (sd_dpl d) (sd_p d) (lim_19_16 d) (avl d) (rsv1 d) (db d) (g d) (base_31_24 d).

Definition SEG (type base lim dpl : Z) : segdesc :=
  Segdesc (Z.land (Z.shiftr lim 12) 0xffff) (Z.land base 0xffff) (Z.land (Z.shiftr base 16) 0xff) type 1 dpl 1
    (Z.shiftr lim 28) 0 0 1 1 (Z.shiftr base 24).
Definition SEG16 (type base lim dpl : Z) : segdesc :=
  Segdesc (Z.land lim 0xffff) (Z.land base 0xffff) (Z.land (Z.shiftr base 16) 0xff) type 1 dpl 1
    (Z.shiftr lim 16) 0 0 1 0 (Z.shiftr base 24).

Definition seginit (gdt : list segdesc) : list segdesc :=
  let gdt := <[Z.to_nat SEG_KCODE := SEG (Z.lor STA_X STA_R) 0 0xffffffff 0]> gdt in
  let gdt := <[Z.to_nat SEG_KDATA := SEG STA_W 0 0xffffffff 0]> gdt in
  let gdt := <[Z.to_nat SEG_UCODE := SEG (Z.lor STA_X STA_R) 0 0xffffffff DPL_USER]> gdt in
  <[Z.to_nat SEG_UDATA := SEG STA_W 0 0xffffffff DPL_USER]> gdt.

Definition sizeof_taskstate : Z := 104.
(** The task state of the CPU, at [ts]: what [switchuvm] writes to its table. *)
Definition set_tss (ts : Z) (gdt : list segdesc) : list segdesc :=
  let gdt := <[Z.to_nat SEG_TSS := SEG16 STS_T32A ts (sizeof_taskstate - 1) 0]> gdt in
  alter (set_s 0) (Z.to_nat SEG_TSS) gdt.

(** [kvmalloc]: the page table of the scheduler, made and loaded. *)
Definition kvmalloc {E : Type} {HE : procenv E} (c : nat) : @Proc.K E () :=
  p ← onenv env_setupkvm;
  modify (set_kpgdir p);;
  switchkvm c.

Record gatedesc := Gatedesc {
  off_15_0 : Z;
  gd_cs : Z;
  gd_args : Z;
  gd_rsv1 : Z;
  gd_type : Z;
  gd_s : Z;
  gd_dpl : Z;
  gd_p : Z;
  off_31_16 : Z
}.
Definition SETGATE (istrap : bool) (sel off d : Z) : gatedesc :=
  Gatedesc (Z.land off 0xffff) sel 0 0 (if istrap then STS_TG32 else STS_IG32) 0 d 1 (Z.shiftr off 16).

(** [vectors] are the addresses of the entry points of [vectors.S]. *)
Fixpoint tvinit_loop (vectors : nat -> Z) (n i : nat) (idt : list gatedesc) : list gatedesc :=
  match n with
  | O => idt
  | S n => tvinit_loop vectors n (S i) (<[i := SETGATE false (Z.shiftl SEG_KCODE 3) (vectors i) 0]> idt)
  end.
Definition tvinit (vectors : nat -> Z) (idt : list gatedesc) : list gatedesc :=
  let idt := tvinit_loop vectors 256 0 idt in
  <[Z.to_nat T_SYSCALL := SETGATE true (Z.shiftl SEG_KCODE 3) (vectors (Z.to_nat T_SYSCALL)) DPL_USER]> idt.

(** ** Bit fields *)

(** Fields with their widths, the lowest first: a field keeps what fits. *)
Fixpoint pack (l : list (Z * Z)) : Z :=
  match l with
  | [] => 0
  | (v, n) :: l => v mod 2 ^ n + 2 ^ n * pack l
  end.
Definition bits (w lo n : Z) : Z := (w / 2 ^ lo) mod 2 ^ n.

Definition segdesc_word (d : segdesc) : Z :=
  pack [(lim_15_0 d, 16); (base_15_0 d, 16); (base_23_16 d, 8); (sd_type d, 4); (sd_s d, 1); (sd_dpl d, 2); (sd_p d, 1);
        (lim_19_16 d, 4); (avl d, 1); (rsv1 d, 1); (db d, 1); (g d, 1); (base_31_24 d, 8)].
Definition gatedesc_word (d : gatedesc) : Z :=
  pack [(off_15_0 d, 16); (gd_cs d, 16); (gd_args d, 5); (gd_rsv1 d, 3); (gd_type d, 4); (gd_s d, 1); (gd_dpl d, 2); (gd_p d, 1); (off_31_16 d, 16)].

(** The field that begins at bit [lo]. *)
Fixpoint field_at (l : list (Z * Z)) (lo : Z) : option (Z * Z) :=
  match l with
  | [] => None
  | (v, n) :: l => if lo =? 0 then Some (v, n) else field_at l (lo - n)
  end.

(** A field is read back where it was put. *)
Lemma bits_at l : forall lo v n, field_at l lo = Some (v, n) -> Forall (fun f => 0 < f.2) l -> 0 <= lo /\ bits (pack l) lo n = v mod 2 ^ n.
Proof.
  induction l as [|[x k] l IH]; intros lo v n Hf Hl; [done|]. inversion Hl as [|? ? Hk Hl']. subst. cbn in Hk. cbn [field_at] in Hf. cbn [pack].
  assert (H2 : 0 < 2 ^ k) by (apply Z.pow_pos_nonneg; lia). destruct (Z.eqb_spec lo 0) as [->|Hlo].
  - injection Hf as <- <-. split; [done|]. unfold bits. rewrite Z.pow_0_r, Z.div_1_r, Z.mul_comm, Z.mod_add by lia. by rewrite Z.mod_mod by lia.
  - destruct (IH _ _ _ Hf Hl') as [H0 <-]. split; [lia|]. unfold bits. replace (2 ^ lo) with (2 ^ k * 2 ^ (lo - k)) by (rewrite <- Z.pow_add_r by lia; f_equal; lia).
    assert (0 < 2 ^ (lo - k)) by (apply Z.pow_pos_nonneg; lia). rewrite <- Z.div_div by lia.
    rewrite (Z.mul_comm (2 ^ k)), Z.div_add by lia. by rewrite (Z.div_small (x mod 2 ^ k)) by (apply Z.mod_pos_bound; lia).
Qed.

(** ** How the processor reads a descriptor *)

Definition hw_dpl (w : Z) : Z := bits w 45 2.
Definition hw_present (w : Z) : Z := bits w 47 1.
Definition hw_type (w : Z) : Z := bits w 40 4.
Definition hw_s (w : Z) : Z := bits w 44 1.
(** Of a segment: base, and the last address of it. *)
Definition hw_base (w : Z) : Z := bits w 16 16 + 2 ^ 16 * bits w 32 8 + 2 ^ 24 * bits w 56 8.
Definition hw_limit (w : Z) : Z :=
  let lim := bits w 0 16 + 2 ^ 16 * bits w 48 4 in
  if bits w 55 1 =? 0 then lim else 4096 * lim + 4095.
(** Of a gate: where it leads. *)
Definition hw_offset (w : Z) : Z := bits w 0 16 + 2 ^ 16 * bits w 48 16.
Definition hw_selector (w : Z) : Z := bits w 16 16.

Ltac read_fields := repeat match goal with |- context [bits (pack ?l) ?lo ?n] => rewrite (proj2 (bits_at l lo _ n eq_refl ltac:(by repeat constructor))) end.

Lemma SEG_read type base lim dpl : 0 <= base < 2 ^ 32 -> 0 <= lim < 2 ^ 32 -> 0 <= dpl < 4 -> 0 <= type < 16 ->
  let w := segdesc_word (SEG type base lim dpl) in
  hw_base w = base /\ hw_limit w = 4096 * (lim / 4096) + 4095 /\ hw_dpl w = dpl /\ hw_present w = 1 /\ hw_type w = type /\ hw_s w = 1.
Proof.
  intros Hb Hl Hd Ht w. unfold w, hw_base, hw_limit, hw_dpl, hw_present, hw_type, hw_s, segdesc_word, SEG.
  cbn [lim_15_0 base_15_0 base_23_16 sd_type sd_s sd_dpl sd_p lim_19_16 avl rsv1 db g base_31_24].
  read_fields.
  rewrite !(Z.land_ones _ 16), !(Z.land_ones _ 8), !Z.shiftr_div_pow2 by lia. rewrite !Z.mod_mod by lia.
  change (1 mod 2 ^ 1) with 1. change (1 =? 0) with false. cbv iota. rewrite (Z.mod_small dpl), (Z.mod_small type) by lia.
  change (2 ^ 16) with 65536. change (2 ^ 12) with 4096. change (2 ^ 24) with 16777216. change (2 ^ 28) with 268435456. change (2 ^ 8) with 256. change (2 ^ 4) with 16. change (2 ^ 32) with 4294967296 in *.
  split; [Z.to_euclidean_division_equations; lia|]. split; [Z.to_euclidean_division_equations; lia|]. done.
Qed.

Lemma SETGATE_read istrap sel off d : 0 <= off < 2 ^ 32 -> 0 <= sel < 2 ^ 16 -> 0 <= d < 4 ->
  let w := gatedesc_word (SETGATE istrap sel off d) in
  hw_offset w = off /\ hw_selector w = sel /\ hw_dpl w = d /\ hw_present w = 1 /\ hw_s w = 0 /\ hw_type w = if istrap then STS_TG32 else STS_IG32.
Proof.
  intros Ho Hs Hd w. unfold w, hw_offset, hw_selector, hw_dpl, hw_present, hw_type, hw_s, gatedesc_word, SETGATE.
  cbn [off_15_0 gd_cs gd_args gd_rsv1 gd_type gd_s gd_dpl gd_p off_31_16].
  read_fields.
  rewrite !(Z.land_ones _ 16), !Z.shiftr_div_pow2 by lia. rewrite !Z.mod_mod by lia. rewrite (Z.mod_small sel), (Z.mod_small d) by lia.
  change (2 ^ 16) with 65536. change (2 ^ 32) with 4294967296 in *. split; [Z.to_euclidean_division_equations; lia|]. by destruct istrap.
Qed.
Lemma SEG16_read type base lim dpl : 0 <= base < 2 ^ 32 -> 0 <= lim < 2 ^ 16 -> 0 <= dpl < 4 -> 0 <= type < 16 ->
  let w := segdesc_word (set_s 0 (SEG16 type base lim dpl)) in
  hw_base w = base /\ hw_limit w = lim /\ hw_dpl w = dpl /\ hw_present w = 1 /\ hw_type w = type /\ hw_s w = 0.
Proof.
  intros Hb Hl Hd Ht w. unfold w, hw_base, hw_limit, hw_dpl, hw_present, hw_type, hw_s, segdesc_word, set_s, SEG16.
  cbn [lim_15_0 base_15_0 base_23_16 sd_type sd_s sd_dpl sd_p lim_19_16 avl rsv1 db g base_31_24]. read_fields.
  rewrite !(Z.land_ones _ 16), !(Z.land_ones _ 8), !Z.shiftr_div_pow2 by lia. rewrite !Z.mod_mod by lia.
  change (0 mod 2 ^ 1) with 0. change (1 mod 2 ^ 1) with 1. change (0 =? 0) with true. cbv iota. rewrite (Z.mod_small dpl), (Z.mod_small type) by lia.
  change (2 ^ 16) with 65536 in *. change (2 ^ 24) with 16777216. change (2 ^ 8) with 256. change (2 ^ 4) with 16. change (2 ^ 32) with 4294967296 in *.
  split; [Z.to_euclidean_division_equations; lia|]. split; [Z.to_euclidean_division_equations; lia|]. done.
Qed.

(** ** Protection *)

Lemma tvinit_loop_lookup vectors n : forall i idt j, (i + n <= length idt)%nat ->
  tvinit_loop vectors n i idt !! j = if bool_decide (i <= j < i + n)%nat then Some (SETGATE false (Z.shiftl SEG_KCODE 3) (vectors j) 0) else idt !! j.
Proof.
  induction n as [|n IH]; intros i idt j Hl; cbn [tvinit_loop]; [by rewrite bool_decide_false by lia|]. rewrite IH by (rewrite length_insert; lia).
  destruct (decide (i = j)) as [->|Hne].
  - rewrite bool_decide_false, (bool_decide_true (j <= j < j + S n)%nat) by lia. apply list_lookup_insert_eq. lia.
  - rewrite list_lookup_insert_ne by done. do 2 case_bool_decide; try done; lia.
Qed.
Lemma length_tvinit_loop vectors n : forall i idt, length (tvinit_loop vectors n i idt) = length idt.
Proof. induction n as [|n IH]; intros i idt; [done|]. cbn [tvinit_loop]. by rewrite IH, length_insert. Qed.

(** A flat segment for privilege level [dpl]. *)
Definition flat (gdt : list segdesc) (i : Z) (type dpl : Z) : Prop := exists d, gdt !! Z.to_nat i = Some d /\
  let w := segdesc_word d in
  hw_base w = 0 /\ hw_limit w = 2 ^ 32 - 1 /\ hw_present w = 1 /\ hw_s w = 1 /\ hw_type w = type /\ hw_dpl w = dpl.

Lemma seginit_flat gdt ts i type dpl : length gdt = NSEGS ->
  (i, type, dpl) ∈ [(SEG_KCODE, Z.lor STA_X STA_R, 0); (SEG_KDATA, STA_W, 0); (SEG_UCODE, Z.lor STA_X STA_R, DPL_USER); (SEG_UDATA, STA_W, DPL_USER)] ->
  flat (set_tss ts (seginit gdt)) i type dpl.
Proof.
  intros Hl Hi. exists (SEG type 0 0xffffffff dpl).
  assert (0 <= type < 16 /\ 0 <= dpl < 4 /\ set_tss ts (seginit gdt) !! Z.to_nat i = Some (SEG type 0 0xffffffff dpl)) as (Ht & Hd & Hlook).
  { do 6 (destruct gdt as [|? gdt]; [done|]). repeat (apply elem_of_cons in Hi as [[= -> -> ->]|Hi]; [done|]). by apply elem_of_nil in Hi. }
  split; [exact Hlook|]. by destruct (SEG_read type 0 0xffffffff dpl) as (? & ? & ? & ? & ? & ?).
Qed.

(** C11. The tables protect the kernel: of the 256 gates a program can call,
    with the [int] instruction, only that of the system calls, and all of them
    lead to the entry points of [vectors.S] in the kernel's code segment, with
    interrupts off but for system calls; the kernel's and the user's segments
    span the whole address space with privilege 0 and 3, the first process
    starts with those of privilege 3 and that level in its selectors, and the
    stack the processor changes to on the way in is found in the task state of
    the CPU. *)
Theorem user_enters_by_syscall vectors idt gdt ts :
  length idt = 256%nat -> length gdt = NSEGS -> (forall i, 0 <= vectors i < 2 ^ 32) -> 0 <= ts < 2 ^ 32 ->
  (forall i, (i < 256)%nat -> exists d, tvinit vectors idt !! i = Some d /\
    let w := gatedesc_word d in
    hw_present w = 1 /\ hw_offset w = vectors i /\ hw_selector w = 8 * SEG_KCODE /\
    (hw_dpl w = DPL_USER <-> Z.of_nat i = T_SYSCALL) /\ (hw_type w = STS_IG32 <-> Z.of_nat i <> T_SYSCALL)) /\
  let gdt := set_tss ts (seginit gdt) in
  flat gdt SEG_KCODE (Z.lor STA_X STA_R) 0 /\ flat gdt SEG_KDATA STA_W 0 /\
  flat gdt (tf_cs init_tf / 8) (Z.lor STA_X STA_R) DPL_USER /\ flat gdt (tf_ds init_tf / 8) STA_W DPL_USER /\ flat gdt (tf_ss init_tf / 8) STA_W DPL_USER /\
  Z.land (tf_cs init_tf) 7 = DPL_USER /\ Z.land (tf_ds init_tf) 7 = DPL_USER /\ Z.land (tf_ss init_tf) 7 = DPL_USER /\
  exists d, gdt !! Z.to_nat SEG_TSS = Some d /\
    let w := segdesc_word d in
    hw_base w = ts /\ hw_limit w = sizeof_taskstate - 1 /\ hw_present w = 1 /\ hw_s w = 0 /\ hw_type w = STS_T32A /\ hw_dpl w = 0.
Proof.
  intros Hi Hg Hv Ht. split.
  - intros i Hlt. unfold tvinit. destruct (decide (i = Z.to_nat T_SYSCALL)) as [->|Hne].
    + rewrite list_lookup_insert_eq by (rewrite length_tvinit_loop, Hi; done). eexists. split; [reflexivity|].
      destruct (SETGATE_read true (Z.shiftl SEG_KCODE 3) (vectors (Z.to_nat T_SYSCALL)) DPL_USER) as (-> & -> & -> & -> & _ & ->); [done..|]. by repeat split.
    + rewrite list_lookup_insert_ne by congruence. rewrite tvinit_loop_lookup by (rewrite Hi; lia). rewrite bool_decide_true by lia. eexists. split; [reflexivity|].
      destruct (SETGATE_read false (Z.shiftl SEG_KCODE 3) (vectors i) 0) as (-> & -> & -> & -> & _ & ->); [done..|].
      assert (Z.of_nat i <> T_SYSCALL) by (intros He; apply Hne; by rewrite <- He, Nat2Z.id). by repeat split.
  - cbn zeta. assert (Hf := fun i type dpl => seginit_flat gdt ts i type dpl Hg).
    split; [apply Hf; by left|]. split; [apply Hf; by right; left|]. split; [apply Hf; by right; right; left|].
    split; [apply Hf; by right; right; right; left|]. split; [apply Hf; by right; right; right; left|]. do 3 (split; [done|]).
    exists (set_s 0 (SEG16 STS_T32A ts (sizeof_taskstate - 1) 0)). split.
    + do 6 (destruct gdt as [|? gdt]; [done|]). done.
    + by destruct (SEG16_read STS_T32A ts (sizeof_taskstate - 1) 0) as (? & ? & ? & ? & ? & ?).
Qed.

Lemma user_enters_by_syscall_witness : exists d,
  tvinit (fun i => 0x80100000 + Z.of_nat i mod 256) (replicate 256 (Gatedesc 0 0 0 0 0 0 0 0 0)) !! 14%nat = Some d /\ hw_dpl (gatedesc_word d) <> DPL_USER.
Proof.
  destruct (user_enters_by_syscall (fun i => 0x80100000 + Z.of_nat i mod 256) (replicate 256 (Gatedesc 0 0 0 0 0 0 0 0 0))
    (replicate NSEGS (SEG16 0 0 0 0)) 0x80200000) as [H _].
  - done.
  - done.
  - intros i. assert (H := Z.mod_pos_bound (Z.of_nat i) 256). lia.
  - done.
  - destruct (H 14%nat) as (d & Hd & _ & _ & _ & Hdpl & _); [lia|]. exists d. split; [exact Hd|]. intros He. by apply Hdpl in He.
Defined.
