(* ===== verification/Devices.v ===== *)
(** The interrupt controllers, the clock and the serial port ([lapic.c],
    [ioapic.c], [picirq.c], [uart.c]).

    The code acts on devices by reading and writing ports and registers; it is
    run on the history of these accesses, newest first, and what a read returns
    is a parameter, any function of the history.  [microdelay] does nothing. *)

From Stdlib Require Import ZifyBool.
From S2P Require Import Prelude Layout Proc ProcDump Trap.

Inductive access :=
| In (port : Z)
| Out (port v : Z)
| Load (a : Z)
| Store (a v : Z)
| Store16 (a v : Z)
| Outs (port : Z) (bs : list Z)
| Message (text : list Z).

#[global] Instance rtcdate_eq_dec : EqDecision rtcdate.
Proof. solve_decision. Defined.
#[global] Instance access_eq_dec : EqDecision access.
Proof. solve_decision. Defined.

Section devices.
Context (answer : list access -> access -> Z).

Definition IO (A : Type) : Type := M (list access) A.

Definition inb (port : Z) : IO Z := fun h => Ok (u8 (answer h (In port)), In port :: h).
Definition outb (port v : Z) : IO () := modify (cons (Out port (u8 v))).
Definition load (a : Z) : IO Z := fun h => Ok (u32 (answer h (Load a)), Load a :: h).
Definition store (a v : Z) : IO () := modify (cons (Store a (u32 v))).
Definition outsl (port : Z) (bs : list Z) : IO () := modify (cons (Outs port bs)).
Definition store16 (a v : Z) : IO () := modify (cons (Store16 a (u16 v))).
Definition message (text : list Z) : IO () := modify (cons (Message text)).

(** ** The local APIC *)

Definition ID : Z := 0x0020 / 4.
Definition VER : Z := 0x0030 / 4.
Definition TPR : Z := 0x0080 / 4.
Definition EOI : Z := 0x00B0 / 4.
Definition SVR : Z := 0x00F0 / 4.
Definition ENABLE : Z := 0x00000100.
Definition ESR : Z := 0x0280 / 4.
Definition ICRLO : Z := 0x0300 / 4.
Definition INIT : Z := 0x00000500.
Definition STARTUP : Z := 0x00000600.
Definition DELIVS : Z := 0x00001000.
Definition ASSERT : Z := 0x00004000.
Definition LEVEL : Z := 0x00008000.
Definition BCAST : Z := 0x00080000.
Definition ICRHI : Z := 0x0310 / 4.
Definition TIMER : Z := 0x0320 / 4.
Definition X1 : Z := 0x0000000B.
Definition PERIODIC : Z := 0x00020000.
Definition PCINT : Z := 0x0340 / 4.
Definition LINT0 : Z := 0x0350 / 4.
Definition LINT1 : Z := 0x0360 / 4.
Definition ERROR : Z := 0x0370 / 4.
Definition MASKED : Z := 0x00010000.
Definition TICR : Z := 0x0380 / 4.
Definition TDCR : Z := 0x03E0 / 4.
Definition IRQ_ERROR : Z := 19.

(** [lapic] is the address of the registers, 0 if there are none. *)
Context (lapic : Z).

Definition lapicr (index : Z) : IO Z := load (lapic + 4 * index).
Definition lapicw (index value : Z) : IO () :=
  store (lapic + 4 * index) value;;
  lapicr ID;;
  ret ().

Fixpoint wait_delivery (fuel : nat) : IO () :=
  match fuel with
  | O => spin
  | S fuel => v ← lapicr ICRLO; if negb (Z.land v DELIVS =? 0) then wait_delivery fuel else ret ()
  end.

Definition lapicinit (fuel : nat) : IO () :=
  if lapic =? 0 then ret () else
  lapicw SVR (Z.lor ENABLE (T_IRQ0 + IRQ_SPURIOUS));;
  lapicw TDCR X1;;
  lapicw TIMER (Z.lor PERIODIC (T_IRQ0 + IRQ_TIMER));;
  lapicw TICR 10000000;;
  lapicw LINT0 MASKED;;
  lapicw LINT1 MASKED;;
  v ← lapicr VER;
  when (4 <=? Z.land (Z.shiftr v 16) 0xFF) (lapicw PCINT MASKED);;
  lapicw ERROR (T_IRQ0 + IRQ_ERROR);;
  lapicw ESR 0;;
  lapicw ESR 0;;
  lapicw EOI 0;;
  lapicw ICRHI 0;;
  lapicw ICRLO (Z.lor (Z.lor BCAST INIT) LEVEL);;
  wait_delivery fuel;;
  lapicw TPR 0.

Definition lapicid : IO Z :=
  if lapic =? 0 then ret 0 else v ← lapicr ID; ret (Z.shiftr v 24).

Definition lapiceoi : IO () := when (negb (lapic =? 0)) (lapicw EOI 0).

Definition CMOS_PORT : Z := 0x70.
Definition CMOS_RETURN : Z := 0x71.

Definition start_ipi (apicid addr : Z) : IO () :=
  lapicw ICRHI (Z.shiftl apicid 24);;
  lapicw ICRLO (Z.lor STARTUP (Z.shiftr addr 12)).
Definition lapicstartap (apicid addr : Z) : IO () :=
  outb CMOS_PORT 0xF;;
  outb (CMOS_PORT + 1) 0x0A;;
  let wrv := KERNBASE + Z.lor (Z.shiftl 0x40 4) 0x67 in
  store16 wrv 0;;
  store16 (wrv + 2) (Z.shiftr addr 4);;
  lapicw ICRHI (Z.shiftl apicid 24);;
  lapicw ICRLO (Z.lor (Z.lor INIT LEVEL) ASSERT);;
  lapicw ICRLO (Z.lor INIT LEVEL);;
  start_ipi apicid addr;;
  start_ipi apicid addr.

(** ** The date *)

Definition CMOS_STATA : Z := 0x0a.
Definition CMOS_STATB : Z := 0x0b.
Definition CMOS_UIP : Z := Z.shiftl 1 7.
Definition SECS : Z := 0x00.
Definition MINS : Z := 0x02.
Definition HOURS : Z := 0x04.
Definition DAY : Z := 0x07.
Definition MONTH : Z := 0x08.
Definition YEAR : Z := 0x09.

Definition cmos_read (reg : Z) : IO Z :=
  outb CMOS_PORT reg;;
  inb CMOS_RETURN.

Definition fill_rtcdate : IO rtcdate :=
  s ← cmos_read SECS;
  m ← cmos_read MINS;
  h ← cmos_read HOURS;
  d ← cmos_read DAY;
  mo ← cmos_read MONTH;
  y ← cmos_read YEAR;
  ret (Rtcdate s m h d mo y).

(** Two readings that agree, with no update in progress in between. *)
Fixpoint cmos_stable (fuel : nat) : IO rtcdate :=
  match fuel with
  | O => spin
  | S fuel =>
      t1 ← fill_rtcdate;
      a ← cmos_read CMOS_STATA;
      if negb (Z.land a CMOS_UIP =? 0) then cmos_stable fuel else
      t2 ← fill_rtcdate;
      if bool_decide (t1 = t2) then ret t1 else cmos_stable fuel
  end.

Definition CONV (x : Z) : Z := u32 (Z.shiftr x 4 * 10 + Z.land x 0xf).
Definition on_fields (f : Z -> Z) (d : rtcdate) : rtcdate :=
  Rtcdate (f (second d)) (f (minute d)) (f (hour d)) (f (day d)) (f (month d)) (f (year d)).
Definition add_year (n : Z) (d : rtcdate) : rtcdate :=
  Rtcdate (second d) (minute d) (hour d) (day d) (month d) (u32 (year d + n)).

Definition cmostime (fuel : nat) : IO rtcdate :=
  sb ← cmos_read CMOS_STATB;
  let bcd := Z.land sb (Z.shiftl 1 2) =? 0 in
  t1 ← cmos_stable fuel;
  ret (add_year 2000 (if bcd then on_fields CONV t1 else t1)).

(** ** The I/O APIC *)

Definition IOAPIC : Z := 0xFEC00000.
Definition REG_ID : Z := 0x00.
Definition REG_VER : Z := 0x01.
Definition REG_TABLE : Z := 0x10.
Definition INT_DISABLED : Z := 0x00010000.

Definition ioapicread (reg : Z) : IO Z :=
  store IOAPIC reg;;
  load (IOAPIC + 16).
Definition ioapicwrite (reg data : Z) : IO () :=
  store IOAPIC reg;;
  store (IOAPIC + 16) data.

Fixpoint ioapic_mask (n : nat) (i : Z) : IO () :=
  match n with
  | O => ret ()
  | S n =>
      ioapicwrite (REG_TABLE + 2 * i) (Z.lor INT_DISABLED (T_IRQ0 + i));;
      ioapicwrite (REG_TABLE + 2 * i + 1) 0;;
      ioapic_mask n (i + 1)
  end.
(** [ioapicid] is what [mpinit] found. *)
Definition ioapicinit (ioapicid : Z) : IO () :=
  v ← ioapicread REG_VER;
  let maxintr := Z.land (Z.shiftr v 16) 0xFF in
  w ← ioapicread REG_ID;
  when (negb (Z.shiftr w 24 =? ioapicid)) (message (zs "ioapicinit: id isn't equal to ioapicid; not a MP" ++ [LF]));;
  ioapic_mask (Z.to_nat (maxintr + 1)) 0.

Definition ioapicenable (irq cpunum : Z) : IO () :=
  ioapicwrite (REG_TABLE + 2 * irq) (T_IRQ0 + irq);;
  ioapicwrite (REG_TABLE + 2 * irq + 1) (Z.shiftl cpunum 24).

(** ** The interrupt controllers that are not used *)

Definition IO_PIC1 : Z := 0x20.
Definition IO_PIC2 : Z := 0xA0.

Definition picinit : IO () :=
  outb (IO_PIC1 + 1) 0xFF;;
  outb (IO_PIC2 + 1) 0xFF.

(** ** The serial port *)

Definition COM1 : Z := 0x3f8.

(** The wait for room in the transmitter: [i] of at most 128 polls. *)
Fixpoint uart_wait (n : nat) : IO () :=
  match n with
  | O => ret ()
  | S n => v ← inb (COM1 + 5); if Z.land v 0x20 =? 0 then uart_wait n else ret ()
  end.
Definition uart_send (present : bool) (c : Z) : IO () :=
  if negb present then ret () else
  uart_wait 128;;
  outb (COM1 + 0) c.
Fixpoint uart_puts (present : bool) (l : list Z) : IO () :=
  match l with
  | [] => ret ()
  | c :: l => uart_send present c;; uart_puts present l
  end.

(** Whether there is a serial port: the variable [uart]. *)
Definition uartinit : IO bool :=
  outb (COM1 + 2) 0;;
  outb (COM1 + 3) 0x80;;
  outb (COM1 + 0) (115200 / 9600);;
  outb (COM1 + 1) 0;;
  outb (COM1 + 3) 0x03;;
  outb (COM1 + 4) 0;;
  outb (COM1 + 1) 0x01;;
  v ← inb (COM1 + 5);
  if v =? 0xFF then ret false else
  inb (COM1 + 2);;
  inb (COM1 + 0);;
  ioapicenable IRQ_COM1 0;;
  uart_puts true (zs "xv6..." ++ [LF]);;
  ret true.

Definition uartgetc (present : bool) : IO Z :=
  if negb present then ret (-1) else
  v ← inb (COM1 + 5);
  if Z.land v 0x01 =? 0 then ret (-1) else inb (COM1 + 0).

(** The characters [consoleintr] gets from [getc] until it returns a negative
    number. *)
Fixpoint getc_all (fuel : nat) (getc : IO Z) : IO (list Z) :=
  match fuel with
  | O => spin
  | S fuel => c ← getc; if c <? 0 then ret [] else l ← getc_all fuel getc; ret (c :: l)
  end.

(** ** The interrupts that are let through *)

(** The registers of the I/O APIC as the writes leave them: a write to [IOAPIC]
    selects a register, a write to the data word goes to the one selected. *)
Fixpoint io_sel (h : list access) : Z :=
  match h with
  | [] => 0
  | Store a v :: h => if a =? IOAPIC then v else io_sel h
  | _ :: h => io_sel h
  end.
Fixpoint io_reg (h : list access) (r : Z) : Z :=
  match h with
  | [] => 0
  | Store a v :: h => if (a =? IOAPIC + 16) && (io_sel h =? r) then v else io_reg h r
  | _ :: h => io_reg h r
  end.
(** Entry [i] of the redirection table: configuration and destination. *)
Definition entry (h : list access) (i : Z) : Z * Z := (io_reg h (REG_TABLE + 2 * i), io_reg h (REG_TABLE + 2 * i + 1)).

Definition masked (i : Z) : Z * Z := (Z.lor INT_DISABLED (T_IRQ0 + i), 0).
Definition routed (i cpunum : Z) : Z * Z := (T_IRQ0 + i, Z.shiftl cpunum 24).
Definition maxintr (h : list access) : Z := Z.land (Z.shiftr (u32 (answer (Store IOAPIC REG_VER :: h) (Load (IOAPIC + 16)))) 16) 0xFF.

Fixpoint enable_all (l : list (Z * Z)) : IO () :=
  match l with
  | [] => ret ()
  | (irq, cpunum) :: l => ioapicenable irq cpunum;; enable_all l
  end.
(** The last CPU that [i] was enabled for. *)
Fixpoint enabled_for (i : Z) (l : list (Z * Z)) (o : option Z) : option Z :=
  match l with
  | [] => o
  | (irq, cpunum) :: l => enabled_for i l (if irq =? i then Some cpunum else o)
  end.

Lemma io_reg_write reg data h r : io_reg (Store (IOAPIC + 16) data :: Store IOAPIC reg :: h) r = if reg =? r then data else io_reg h r.
Proof. done. Qed.

Lemma entry_write2 i lo hi h j : 0 <= i < 2 ^ 16 -> 0 <= j ->
  entry (Store (IOAPIC + 16) hi :: Store IOAPIC (u32 (REG_TABLE + 2 * i + 1)) :: Store (IOAPIC + 16) lo :: Store IOAPIC (u32 (REG_TABLE + 2 * i)) :: h) j =
  if i =? j then (lo, hi) else entry h j.
Proof.
  intros Hi Hj. unfold entry. rewrite !io_reg_write. unfold REG_TABLE. rewrite !u32_small by lia.
  destruct (Z.eqb_spec i j) as [->|Hn].
  - rewrite !Z.eqb_refl. by rewrite (proj2 (Z.eqb_neq (16 + 2 * j + 1) (16 + 2 * j))) by lia.
  - by rewrite !(proj2 (Z.eqb_neq _ _)) by lia.
Qed.

Lemma ioapicenable_entry irq cpunum h : 0 <= irq < 256 -> 0 <= cpunum < 256 ->
  runs (ioapicenable irq cpunum) h (fun _ h' => forall j, 0 <= j -> entry h' j = if irq =? j then routed irq cpunum else entry h j).
Proof.
  intros Hi Hc. unfold ioapicenable, ioapicwrite, runs, bind, store, modify. intros j Hj. rewrite entry_write2 by lia.
  destruct (irq =? j); [|done]. unfold routed. rewrite !u32_small; [done|rewrite Z.shiftl_mul_pow2 by lia; lia|unfold T_IRQ0; lia].
Qed.

Lemma enable_all_entry l : forall h, Forall (fun e => 0 <= e.1 < 256 /\ 0 <= e.2 < 256) l ->
  runs (enable_all l) h (fun _ h' => forall j o, 0 <= j -> entry h j = from_option (routed j) (masked j) o ->
    entry h' j = from_option (routed j) (masked j) (enabled_for j l o)).
Proof.
  induction l as [|[irq cpunum] l IH]; intros h Hl; [by intros j o Hj|]. inversion Hl as [|? ? [Hi Hc] Hl']. subst. cbn [enable_all].
  apply runs_bind. eapply runs_mono; [apply ioapicenable_entry; done|]. intros [] h1 H1. eapply runs_mono; [by apply IH|].
  intros [] h' H j o Hj Ho. cbn [enabled_for]. apply H; [done|]. rewrite H1 by done. by destruct (Z.eqb_spec irq j) as [->|].
Qed.

Lemma ioapic_mask_entry n : forall i h, 0 <= i -> i + Z.of_nat n <= 256 ->
  runs (ioapic_mask n i) h (fun _ h' => forall j, 0 <= j -> entry h' j = if (i <=? j) && (j <? i + Z.of_nat n) then masked j else entry h j).
Proof.
  induction n as [|n IH]; intros i h Hi Hn.
  { intros j Hj. by replace ((i <=? j) && (j <? i + Z.of_nat 0)) with false by lia. }
  cbn [ioapic_mask]. unfold ioapicwrite, store, modify. unfold runs, bind at 1 2 3 4. cbn beta iota. fold (@bind (list access)).
  eapply runs_mono; [apply IH; lia|]. intros [] h' H j Hj. rewrite H, entry_write2 by lia.
  destruct (Z.eqb_spec i j) as [->|Hne].
  - replace ((j + 1 <=? j) && _) with false by lia. replace ((j <=? j) && _) with true by lia.
    unfold masked. rewrite (u32_small 0), u32_small; [done| |lia]. split; [apply Z.lor_nonneg; unfold INT_DISABLED, T_IRQ0; lia|].
    apply Z.log2_lt_cancel. rewrite Z.log2_lor by (unfold INT_DISABLED, T_IRQ0; lia). change (Z.log2 (2 ^ 32)) with 32.
    apply Z.max_lub_lt; [done|]. assert (Z.log2 (T_IRQ0 + j) <= Z.log2 (2 ^ 9)); [apply Z.log2_le_mono; unfold T_IRQ0; lia|]. change (Z.log2 (2 ^ 9)) with 9 in *. lia.
  - by replace ((i + 1 <=? j) && (j <? i + 1 + Z.of_nat n)) with ((i <=? j) && (j <? i + Z.of_nat (S n))) by lia.
Qed.

(** Only the interrupts that were asked for come through, each with the
    vector [trap] expects and to the CPU it was asked for last: after
    [ioapicinit] and any calls of [ioapicenable] every entry of the redirection
    table the chip has is masked, or enabled with vector [T_IRQ0] plus its
    number. *)
Theorem ioapic_routes ioapicid l h : Forall (fun e => 0 <= e.1 < 256 /\ 0 <= e.2 < 256) l ->
  runs (ioapicinit ioapicid;; enable_all l) h (fun _ h' => forall i, 0 <= i <= maxintr h ->
    entry h' i = from_option (routed i) (masked i) (enabled_for i l None)).
Proof.
  intros Hl. apply runs_bind. set (n := maxintr h). assert (Hn : 0 <= n <= 255).
  { unfold n, maxintr. rewrite (Z.land_ones _ 8) by lia. assert (H := Z.mod_pos_bound (Z.shiftr (u32 (answer (Store IOAPIC REG_VER :: h) (Load (IOAPIC + 16)))) 16) (2 ^ 8) ltac:(lia)). lia. }
  assert (Hm : runs (ioapicinit ioapicid) h (fun _ h' => forall j, 0 <= j <= n -> entry h' j = masked j)).
  { unfold ioapicinit. apply runs_bind. unfold ioapicread at 1, load, store, modify, runs at 1, bind at 1.
    apply runs_bind. unfold ioapicread at 1, load, store, modify, runs at 1, bind at 1. apply runs_bind.
    match goal with |- runs (when ?b ?m) ?s _ => apply (runs_mono (when b m) s (fun _ _ => True)); [by destruct b|] end.
    intros [] h1 _. match goal with |- runs (ioapic_mask (Z.to_nat (?e + 1)) 0) _ _ => change e with n end.
    eapply runs_mono; [apply ioapic_mask_entry; lia|]. intros [] h2 H j Hj. rewrite H by lia.
    by replace ((0 <=? j) && _) with true by lia. }
  eapply runs_mono; [exact Hm|]. intros [] h1 H1. eapply runs_mono; [by apply enable_all_entry|]. intros [] h2 H2 i Hi. apply H2; [lia|]. by apply H1.
Qed.

(** ** Starting another processor *)

(** The word last stored at [a], and the interrupts sent: destination and command
    of each write to the low half of the command register. *)
Fixpoint stored (h : list access) (a : Z) : Z :=
  match h with
  | [] => 0
  | Store b v :: h => if b =? a then v else stored h a
  | _ :: h => stored h a
  end.
Fixpoint ipis (h : list access) : list (Z * Z) :=
  match h with
  | [] => []
  | Store a v :: h => if a =? lapic + 4 * ICRLO then ipis h ++ [(stored h (lapic + 4 * ICRHI), v)] else ipis h
  | _ :: h => ipis h
  end.

Lemma lapicw_eq index v h : lapicw index v h = Ok ((), Load (lapic + 4 * ID) :: Store (lapic + 4 * index) (u32 v) :: h).
Proof. done. Qed.

Lemma stored_w i j v h : stored (Load (lapic + 4 * ID) :: Store (lapic + 4 * i) v :: h) (lapic + 4 * j) = if i =? j then v else stored h (lapic + 4 * j).
Proof. cbn [stored]. by replace (lapic + 4 * i =? lapic + 4 * j) with (i =? j) by lia. Qed.
Lemma stored_load i j h : stored (Load (lapic + 4 * i) :: h) j = stored h j.
Proof. done. Qed.
Ltac read_regs := rewrite !stored_w;
  repeat match goal with |- context [?a =? ?b] => let c := eval vm_compute in (a =? b) in change (a =? b) with c end; cbv iota.
Lemma ipis_w i v h : ipis (Load (lapic + 4 * ID) :: Store (lapic + 4 * i) v :: h) =
  if i =? ICRLO then ipis h ++ [(stored h (lapic + 4 * ICRHI), v)] else ipis h.
Proof. cbn [ipis]. by replace (lapic + 4 * i =? lapic + 4 * ICRLO) with (i =? ICRLO) by lia. Qed.

(** The startup interrupt carries the number of the page where the code is: the
    processor [apicid], and no other, is reset and told twice to start there; its
    reset vector points there too. *)
Lemma lapicstartap_sends apicid addr h : 0 <= apicid < 256 -> 0 <= addr < 2 ^ 20 -> addr mod 4096 = 0 ->
  runs (lapicstartap apicid addr) h (fun _ h' =>
    let dest := apicid * 2 ^ 24 in
    ipis h' = ipis h ++ [(dest, Z.lor (Z.lor INIT LEVEL) ASSERT); (dest, Z.lor INIT LEVEL);
                         (dest, Z.lor STARTUP (addr / 4096)); (dest, Z.lor STARTUP (addr / 4096))] /\
    Store16 (KERNBASE + 0x467) 0 ∈ h' /\ Store16 (KERNBASE + 0x469) (addr / 16) ∈ h').
Proof.
  intros Ha Hd Hp. assert (Hpage : 0 <= addr / 4096 < 256) by (split; [apply Z.div_pos; lia|apply Z.div_lt_upper_bound; lia]).
  assert (Hseg : 0 <= addr / 16 < 2 ^ 16) by (split; [apply Z.div_pos; lia|apply Z.div_lt_upper_bound; lia]).
  assert (Hdest : u32 (Z.shiftl apicid 24) = apicid * 2 ^ 24) by (rewrite Z.shiftl_mul_pow2 by lia; apply u32_small; lia).
  assert (Hip : u32 (Z.lor STARTUP (Z.shiftr addr 12)) = Z.lor STARTUP (addr / 4096)).
  { rewrite Z.shiftr_div_pow2 by lia. change (2 ^ 12) with 4096. apply u32_small. split; [apply Z.lor_nonneg; unfold STARTUP; lia|].
    apply Z.log2_lt_cancel. rewrite Z.log2_lor by (unfold STARTUP; lia). change (Z.log2 (2 ^ 32)) with 32. apply Z.max_lub_lt; [done|].
    assert (Z.log2 (addr / 4096) <= Z.log2 256) by (apply Z.log2_le_mono; lia). change (Z.log2 256) with 8 in *. lia. }
  unfold lapicstartap, start_ipi, runs, outb, store16, modify, bind. rewrite !lapicw_eq.
  rewrite Hdest, Hip, !ipis_w, !stored_w. rewrite Z.shiftr_div_pow2 by lia. change (2 ^ 4) with 16. unfold u16. rewrite (Z.mod_small (addr / 16)) by lia.
  split; [|split; repeat (left || right)].
  change (ICRLO =? ICRLO) with true. change (ICRHI =? ICRLO) with false. change (ICRLO =? ICRHI) with false. change (ICRHI =? ICRHI) with true. cbv iota.
  cbn [ipis]. by rewrite <- !app_assoc.
Qed.

(** ** The local interrupts *)

Section delivery.
(** The chip has delivered the command at some time. *)
Context (n : nat).
Hypothesis Hdeliv : forall h, (n <= length h)%nat -> Z.land (u32 (answer h (Load (lapic + 4 * ICRLO)))) DELIVS = 0.

Lemma wait_delivery_runs fuel : forall h, (n < fuel + length h)%nat -> (0 < fuel)%nat ->
  runs (wait_delivery fuel) h (fun _ h' => forall a, stored h' a = stored h a).
Proof.
  induction fuel as [|fuel IH]; intros h Hn Hf; [lia|]. cbn [wait_delivery]. unfold lapicr, load. unfold runs, bind.
  destruct (Z.eqb_spec (Z.land (u32 (answer h (Load (lapic + 4 * ICRLO)))) DELIVS) 0) as [Hd|Hd]; cbn [negb]; [done|].
  destruct (Nat.le_gt_cases n (length h)) as [Hle|Hgt]; [by destruct Hd; apply Hdeliv|].
  apply (IH (Load (lapic + 4 * ICRLO) :: h)); cbn [length]; lia.
Qed.

(** [lapicinit] leaves a clock that ticks with the vector of [IRQ_TIMER], the two
    lines of the old controllers masked, and nothing held back by priority. *)
Lemma lapicinit_sets fuel h : lapic <> 0 -> (n < fuel)%nat ->
  runs (lapicinit fuel) h (fun _ h' =>
    stored h' (lapic + 4 * SVR) = Z.lor ENABLE (T_IRQ0 + IRQ_SPURIOUS) /\
    stored h' (lapic + 4 * TIMER) = Z.lor PERIODIC (T_IRQ0 + IRQ_TIMER) /\ stored h' (lapic + 4 * TICR) = 10000000 /\
    stored h' (lapic + 4 * LINT0) = MASKED /\ stored h' (lapic + 4 * LINT1) = MASKED /\
    stored h' (lapic + 4 * ERROR) = T_IRQ0 + IRQ_ERROR /\ stored h' (lapic + 4 * TPR) = 0).
Proof.
  intros Hl Hf. unfold lapicinit. rewrite (proj2 (Z.eqb_neq lapic 0) Hl).
  do 6 (apply runs_bind; eapply runs_Ok; [apply lapicw_eq|]). apply runs_bind. eapply runs_Ok; [done|]. apply runs_bind.
  set (h1 := Load (lapic + 4 * VER) :: _). set (v := u32 _).
  apply (runs_mono _ h1 (fun _ h2 => forall j, j <> PCINT -> stored h2 (lapic + 4 * j) = stored h1 (lapic + 4 * j))).
  { destruct (4 <=? Z.land (Z.shiftr v 16) 255); cbn [when]; [|done]. eapply runs_Ok; [apply lapicw_eq|]. intros j Hj. rewrite stored_w.
    by rewrite (proj2 (Z.eqb_neq PCINT j)) by congruence. }
  intros [] h2 H2. do 6 (apply runs_bind; eapply runs_Ok; [apply lapicw_eq|]). apply runs_bind.
  eapply runs_mono; [apply wait_delivery_runs; lia|]. intros [] h3 H3. eapply runs_Ok; [apply lapicw_eq|].
  read_regs. rewrite !H3. read_regs. rewrite !H2 by done. unfold h1. rewrite !(stored_load VER). by read_regs.
Qed.
End delivery.

(** ** The serial port *)

(** A byte is sent once, after at most 128 looks at the line status. *)
Lemma uart_send_once c h : runs (uart_send true c) h (fun _ h' => exists n, (n <= 128)%nat /\ h' = Out (COM1 + 0) (u8 c) :: replicate n (In (COM1 + 5)) ++ h).
Proof.
  assert (H : forall k h, runs (uart_wait k) h (fun _ h' => exists n, (n <= k)%nat /\ h' = replicate n (In (COM1 + 5)) ++ h)).
  { induction k as [|k IH]; intros h0; [by exists 0%nat|]. cbn [uart_wait]. unfold inb, runs, bind.
    destruct (_ =? _); [|by exists 1%nat; split; [lia|]]. eapply runs_mono; [apply IH|]. intros [] h' (n & Hn & ->). exists (S n). split; [lia|].
    by rewrite replicate_S_end, <- app_assoc. }
  unfold uart_send. cbn [negb]. apply runs_bind. eapply runs_mono; [apply H|]. intros [] h' (n & Hn & ->). by exists n.
Qed.

Section receive.
(** [rx] are the bytes that arrive: the line status says whether one is left, and
    each reading of the data register takes the next one. *)
Context (rx : list Z).
Definition taken (h : list access) : nat := length (filter (fun a => a = In (COM1 + 0)) h).
Hypothesis Hbytes : Forall (fun c => 0 <= c < 256) rx.
Hypothesis Hline : forall h, Z.land (u8 (answer h (In (COM1 + 5)))) 0x01 = if (taken h <? length rx)%nat then 1 else 0.
Hypothesis Hdata : forall h c, rx !! taken h = Some c -> answer h (In (COM1 + 0)) = c.

(** An interrupt of the serial port takes all that has arrived, in order. *)
Lemma uart_drains fuel : forall h, (length rx - taken h < fuel)%nat ->
  runs (getc_all fuel (uartgetc true)) h (fun l h' => l = drop (taken h) rx /\ (length rx <= taken h')%nat).
Proof.
  induction fuel as [|fuel IH]; intros h Hf; [lia|]. cbn [getc_all]. apply runs_bind. unfold uartgetc. cbn [negb]. unfold inb at 1.
  unfold runs, bind. rewrite Hline. destruct (Nat.ltb_spec (taken h) (length rx)) as [Hlt|Hge].
  - destruct (lookup_lt_is_Some_2 rx (taken h) Hlt) as [c Hc]. change (1 =? 0) with false. cbv iota. unfold inb.
    set (h1 := In (COM1 + 5) :: h). assert (Ht : taken h1 = taken h) by done. rewrite (Hdata h1 c) by (by rewrite Ht).
    assert (Hr := proj1 (Forall_lookup _ _) Hbytes _ _ Hc). cbn beta in Hr. unfold u8. rewrite Z.mod_small by lia. rewrite (proj2 (Z.ltb_ge c 0)) by lia.
    assert (Ht1 : taken (In (COM1 + 0) :: h1) = S (taken h)) by (by unfold taken; rewrite filter_cons_True).
    change (runs (l ← getc_all fuel (uartgetc true); ret (c :: l)) (In (COM1 + 0) :: h1) (fun l h' => l = drop (taken h) rx /\ (length rx <= taken h')%nat)).
    apply runs_bind. eapply runs_mono; [apply IH; rewrite Ht1; lia|]. intros l h2 [-> Hl]. split; [|done]. rewrite Ht1. by rewrite (drop_S rx c (taken h)) by done.
  - change (0 =? 0) with true. cbv iota. unfold ret. change (-1 <? 0) with true. cbv iota. split; [by rewrite drop_ge by lia|exact Hge].
Qed.
End receive.

(** ** The date is one the clock showed *)

Section clock.
(** The chip: time is the number of accesses so far.  It keeps a date, which it
    shows in binary or in BCD as bit 2 of status B says.  Bit 7 of status A is
    set while it updates the date; until it is clear again the registers of the
    date hold anything. *)
Context (clock : nat -> rtcdate) (stata : nat -> Z) (statb : Z) (junk : nat -> Z -> Z).

Definition updating (t : nat) : bool := negb (Z.land (u8 (stata t)) CMOS_UIP =? 0).
Definition chip_code (x : Z) : Z := if Z.land statb (Z.shiftl 1 2) =? 0 then 16 * (x / 10) + x mod 10 else x.
Definition chip_date (t : nat) (reg : Z) : Z :=
  if reg =? SECS then chip_code (second (clock t))
  else if reg =? MINS then chip_code (minute (clock t))
  else if reg =? HOURS then chip_code (hour (clock t))
  else if reg =? DAY then chip_code (day (clock t))
  else if reg =? MONTH then chip_code (month (clock t))
  else if reg =? YEAR then chip_code (year (clock t))
  else 0.
Definition chip_reg (t : nat) (reg : Z) : Z :=
  if reg =? CMOS_STATA then stata t
  else if reg =? CMOS_STATB then statb
  else if updating t then junk t reg
  else chip_date t reg.
Hypothesis Hchip : forall h reg, answer (Out CMOS_PORT reg :: h) (In CMOS_RETURN) = chip_reg (length h) reg.

(** The date changes only in an update; an update takes at most [len] accesses,
    and the next one does not begin within 60 accesses of its end (the chip
    updates once a second). *)
Context (len : nat).
Hypothesis Hstill : forall t, updating t = false -> updating (S t) = false -> clock (S t) = clock t.
Hypothesis Hlen : forall t, exists t', (t <= t' <= t + len)%nat /\ updating t' = false.
Hypothesis Hgap : forall t t', updating t = true -> updating (S t) = false -> (t < t' <= t + 60)%nat -> updating t' = false.
Hypothesis Hstatb : 0 <= statb < 256.
Definition two_digits (d : rtcdate) : Prop :=
  0 <= second d < 100 /\ 0 <= minute d < 100 /\ 0 <= hour d < 100 /\ 0 <= day d < 100 /\ 0 <= month d < 100 /\ 0 <= year d < 100.
Hypothesis clock_digits : forall t, two_digits (clock t).

Lemma chip_code_small y : 0 <= y < 100 -> u8 (chip_code y) = chip_code y.
Proof. intros Hy. apply Z.mod_small. unfold chip_code. destruct (_ =? _); [|lia]. assert (H := Z_div_mod_eq_full y 10). assert (H' := Z.mod_pos_bound y 10). lia. Qed.

Lemma CONV_code y : 0 <= y < 100 -> (if Z.land statb (Z.shiftl 1 2) =? 0 then CONV (chip_code y) else chip_code y) = y.
Proof.
  intros Hy. unfold chip_code. destruct (_ =? _); [|done]. unfold CONV. rewrite Z.shiftr_div_pow2 by lia. rewrite (Z.land_ones _ 4) by lia.
  assert (H := Z_div_mod_eq_full y 10). assert (H' := Z.mod_pos_bound y 10 ltac:(lia)). change (2 ^ 4) with 16.
  replace (16 * (y / 10) + y mod 10) with (y mod 10 + (y / 10) * 16) by lia. rewrite Z.div_add, Z.mod_add, Z.div_small, Z.mod_small by lia. rewrite u32_small; lia.
Qed.

Lemma cmos_read_eq reg h : 0 <= reg < 256 -> cmos_read reg h = Ok (u8 (chip_reg (length h) reg), In CMOS_RETURN :: Out CMOS_PORT reg :: h).
Proof. intros Hr. unfold cmos_read, outb, inb, bind, modify. replace (u8 reg) with reg by (symmetry; by apply Z.mod_small). by rewrite Hchip. Qed.

(** No update from [a] to [b]: the date stays. *)
Definition quiet (a b : nat) : Prop := forall t, (a <= t <= b)%nat -> updating t = false.

Lemma quiet_clock a b t : quiet a b -> (a <= t <= b)%nat -> clock t = clock a.
Proof.
  intros Hq. induction t as [|t IH]; intros Ht; [by replace a with 0%nat by lia|]. destruct (decide (a = S t)) as [->|Hne]; [done|].
  rewrite Hstill, IH by (lia || (apply Hq; lia)). done.
Qed.

(** An update during the interval that is over at the end of it ended in it. *)
Lemma update_ended a n : updating a = true -> updating (a + n)%nat = false ->
  exists e, (a <= e < a + n)%nat /\ updating e = true /\ updating (S e) = false.
Proof.
  induction n as [|n IH]; intros Ha Hb; [rewrite Nat.add_0_r in Hb; congruence|].
  destruct (updating (a + n)%nat) eqn:Hn.
  - exists (a + n)%nat. rewrite <- Nat.add_succ_r. split_and!; [lia|lia|done|done].
  - destruct (IH Ha eq_refl) as (e & He & H1 & H2). exists e. split; [lia|done].
Qed.
Lemma quiet_dec a n : quiet a (a + n) \/ exists t, (a <= t <= a + n)%nat /\ updating t = true.
Proof.
  induction n as [|n [IH|(t & Ht & Hu)]].
  - destruct (updating a) eqn:Ha; [right; exists a; split; [lia|done]|left]. intros t Ht. by replace t with a by lia.
  - destruct (updating (a + S n)%nat) eqn:Ha; [right; exists (a + S n)%nat; split; [lia|done]|left].
    intros t Ht. destruct (decide (t = a + S n)%nat) as [->|]; [done|]. apply IH. lia.
  - right. exists t. split; [lia|done].
Qed.

(** A reading that begins at time [t]: six registers, one after the other. *)
Definition reading (t : nat) : rtcdate :=
  Rtcdate (u8 (chip_reg t SECS)) (u8 (chip_reg (2 + t) MINS)) (u8 (chip_reg (4 + t) HOURS))
    (u8 (chip_reg (6 + t) DAY)) (u8 (chip_reg (8 + t) MONTH)) (u8 (chip_reg (10 + t) YEAR)).

Lemma fill_reads h : exists h', fill_rtcdate h = Ok (reading (length h), h') /\ length h' = (12 + length h)%nat.
Proof. unfold fill_rtcdate. do 6 (erewrite bind_Ok by (apply cmos_read_eq; done)). by eexists. Qed.

Lemma reading_quiet t : quiet t (10 + t) -> reading t = on_fields chip_code (clock t).
Proof.
  intros Hq. unfold reading, chip_reg. cbn [Z.eqb SECS MINS HOURS DAY MONTH YEAR CMOS_STATA CMOS_STATB Pos.eqb].
  rewrite !Hq by lia. unfold chip_date. cbn [Z.eqb SECS MINS HOURS DAY MONTH YEAR Pos.eqb].
  rewrite !(quiet_clock t (10 + t) (_ + t)) by (done || lia).
  destruct (clock_digits t) as (H1 & H2 & H3 & H4 & H5 & H6). by rewrite !chip_code_small.
Qed.

(** Two readings that agree, with no update when the status was read in
    between, are a date: if an update fell into the first one, the second one
    is wholly after it. *)
Lemma reading_twice t : updating (12 + t) = false -> reading t = reading (14 + t) ->
  exists t0, (t <= t0 <= 14 + t)%nat /\ updating t0 = false /\ reading t = on_fields chip_code (clock t0).
Proof.
  intros Hs Heq. destruct (quiet_dec t 10) as [Hq|(a & Ha & Hu)].
  - exists t. split; [lia|]. split; [apply Hq; lia|]. apply reading_quiet. intros t' Ht'. apply Hq. lia.
  - destruct (update_ended a (12 + t - a) Hu) as (e & He & H1 & H2); [by replace (a + (12 + t - a))%nat with (12 + t)%nat by lia|].
    assert (Hq : quiet (S e) (e + 60)) by (intros t' Ht'; apply (Hgap e t' H1 H2); lia).
    exists (14 + t)%nat. split; [lia|]. split; [apply Hq; lia|]. rewrite Heq. apply reading_quiet. intros t' Ht'. apply Hq. lia.
Qed.

Definition shown (h : list access) (d : rtcdate) (h' : list access) : Prop :=
  exists t, (length h <= t <= length h')%nat /\ updating t = false /\ d = on_fields chip_code (clock t).

(** A turn of the loop gives a date, or goes on at most 26 accesses later; it
    gives one if there is no update meanwhile. *)
Lemma cmos_turn fuel h (Q : rtcdate -> list access -> Prop) :
  (forall d h', shown h d h' -> Q d h') ->
  (forall h1, (14 + length h <= length h1 <= 26 + length h)%nat -> ~ quiet (length h) (26 + length h) -> runs (cmos_stable fuel) h1 Q) ->
  runs (cmos_stable (S fuel)) h Q.
Proof.
  intros HQ Hnext. cbn [cmos_stable]. destruct (fill_reads h) as (h1 & E1 & L1). apply runs_bind. eapply runs_Ok; [exact E1|]. apply runs_bind.
  eapply runs_Ok; [by apply cmos_read_eq|]. change (chip_reg (length h1) CMOS_STATA) with (stata (length h1)). fold (updating (length h1)).
  destruct (updating (length h1)) eqn:Hup.
  { apply Hnext; cbn [length]; [lia|]. intros Hq. rewrite Hq in Hup by lia. done. }
  set (h2 := In CMOS_RETURN :: _). assert (L2 : length h2 = (14 + length h)%nat) by (cbn [h2 length]; lia).
  destruct (fill_reads h2) as (h3 & E3 & L3). apply runs_bind. eapply runs_Ok; [exact E3|]. rewrite L2. rewrite L1 in Hup.
  destruct (decide (reading (length h) = reading (14 + length h))) as [Heq|Hne].
  - rewrite bool_decide_true by done. destruct (reading_twice (length h) Hup Heq) as (t & Ht & Hu & Hr).
    apply HQ. exists t. split; [lia|done].
  - rewrite bool_decide_false by done. apply Hnext; [lia|]. intros Hq. apply Hne.
    rewrite !reading_quiet by (intros t' Ht'; apply Hq; lia). f_equal. symmetry. eapply quiet_clock; [exact Hq|lia].
Qed.

(** An update that ends at [e]: the loop ends soon after. *)
Lemma cmos_after e fuel : forall h, updating e = true -> updating (S e) = false -> (length h <= e + 27)%nat -> (e + 1 - length h < fuel)%nat ->
  runs (cmos_stable fuel) h (shown h).
Proof.
  induction fuel as [|fuel IH]; intros h H1 H2 Hh Hf; [lia|]. apply cmos_turn; [done|]. intros h1 Hh1 Hq.
  destruct (decide (length h <= e)%nat) as [Hle|Hgt].
  - eapply runs_mono; [apply IH; (done || lia)|]. intros d h' (t & Ht & Hd). exists t. split; [lia|done].
  - destruct Hq. intros t Ht. apply (Hgap e t H1 H2). lia.
Qed.

Lemma cmos_stable_runs fuel h : (len + 30 < fuel)%nat -> runs (cmos_stable fuel) h (shown h).
Proof.
  intros Hf. destruct (quiet_dec (length h) 26) as [Hq|(a & Ha & Hu)].
  - destruct fuel as [|fuel]; [lia|]. apply cmos_turn; [done|]. intros h1 _ []. intros t Ht. apply Hq. lia.
  - destruct (Hlen a) as (b & Hb & Hub). destruct (update_ended a (b - a) Hu) as (e & He & H1 & H2); [by replace (a + (b - a))%nat with b by lia|].
    apply (cmos_after e); (done || lia).
Qed.

(** C26. [cmostime] returns a date the clock had while it ran, complete and with
    the year in full, whether the chip counts in binary or in BCD, although the
    registers hold anything during an update of the chip, and an update may come
    at any point of the readings: it is for this that the code looks at the
    status between two readings that must agree. And it returns: [len] bounds
    the time of an update, and updates are at least 60 accesses apart. *)
Theorem cmostime_snapshot fuel h : (len + 30 < fuel)%nat ->
  runs (cmostime fuel) h (fun d h' => exists t, (length h <= t <= length h')%nat /\ updating t = false /\ d = add_year 2000 (clock t)).
Proof.
  intros Hf. unfold cmostime. apply runs_bind. eapply runs_Ok; [by apply cmos_read_eq|].
  change (chip_reg (length h) CMOS_STATB) with statb. unfold u8. rewrite (Z.mod_small statb) by lia. apply runs_bind.
  eapply runs_mono; [apply cmos_stable_runs; lia|]. intros d h' (t & Ht & Hu & ->). exists t. cbn [length] in Ht. split; [lia|]. split; [done|]. f_equal.
  destruct (clock_digits t) as (H1 & H2 & H3 & H4 & H5 & H6). destruct (clock t) as [s m hh d mo y]. cbn [second minute hour day month year] in *.
  assert (C := CONV_code). unfold on_fields. cbn [second minute hour day month year].
  destruct (Z.land statb (Z.shiftl 1 2) =? 0); by rewrite !C.
Qed.
End clock.
End devices.

(** ** Runs *)

Lemma ioapic_routes_witness :
  runs (ioapicinit (fun _ _ => 0x170011) 0;; enable_all [(IRQ_KBD, 0); (IRQ_IDE, 1)]) [] (fun _ h' =>
    forall i, 0 <= i <= maxintr (fun _ _ => 0x170011) [] -> entry h' i = from_option (routed i) (masked i) (enabled_for i [(IRQ_KBD, 0); (IRQ_IDE, 1)] None)).
Proof. apply (ioapic_routes (fun _ _ => 0x170011) 0 [(IRQ_KBD, 0); (IRQ_IDE, 1)] []). by repeat constructor. Defined.

(** The year ends during an update; the registers show 0x77 meanwhile. *)
Definition demo_clock (t : nat) : rtcdate := if (t <? 20)%nat then Rtcdate 59 59 23 31 12 19 else Rtcdate 0 0 0 1 1 20.
Definition demo_stata (t : nat) : Z := if (10 <=? t)%nat && (t <? 35)%nat then 0x80 else 0.
Definition demo_chip (h : list access) (a : access) : Z :=
  match h with Out _ reg :: h => chip_reg demo_clock demo_stata 2 (fun _ _ => 0x77) (length h) reg | _ => 0 end.
Lemma demo_updating t : updating demo_stata t = (10 <=? t)%nat && (t <? 35)%nat.
Proof. unfold updating, demo_stata. by destruct ((10 <=? t)%nat && (t <? 35)%nat). Qed.
Lemma cmostime_snapshot_witness :
  runs (cmostime demo_chip 60) [] (fun d h' => exists t, (0 <= t <= length h')%nat /\ updating demo_stata t = false /\ d = add_year 2000 (demo_clock t)).
Proof.
  apply (cmostime_snapshot demo_chip demo_clock demo_stata 2 (fun _ _ => 0x77)) with (len := 25%nat) (h := []).
  - done.
  - intros t. rewrite !demo_updating. unfold demo_clock. intros H1 H2. destruct (Nat.ltb_spec t 20), (Nat.ltb_spec (S t) 20); (done || lia).
  - intros t. destruct ((10 <=? t)%nat && (t <? 35)%nat) eqn:Ht; [exists 35%nat|exists t]; rewrite demo_updating; split; (done || lia).
  - intros t t'. rewrite !demo_updating. lia.
  - done.
  - intros t. unfold demo_clock. by destruct (t <? 20)%nat.
  - lia.
Defined.
