(* ===== verification/Ide.v ===== *)
(** What the disk driver ([ide.c]) tells the controller: the ports that
    [idewait], [ideinit] and [idestart] read and write, and that the drive is
    asked for what [Bio] says [idestart] does. *)

From S2P Require Import Prelude Bio Proc Trap Devices.

Definition SECTOR_SIZE : nat := 512.
Definition IDE_BSY : Z := 0x80.
Definition IDE_DRDY : Z := 0x40.
Definition IDE_DF : Z := 0x20.
Definition IDE_ERR : Z := 0x01.
Definition IDE_CMD_READ : Z := 0x20.
Definition IDE_CMD_WRITE : Z := 0x30.
Definition IDE_CMD_RDMUL : Z := 0xc4.
Definition IDE_CMD_WRMUL : Z := 0xc5.

Section ide.
Context (answer : list access -> access -> Z).
Abbreviation inb := (Devices.inb answer).

Fixpoint idewait (fuel : nat) (checkerr : bool) : IO Z :=
  match fuel with
  | O => spin
  | S fuel =>
      r ← inb 0x1f7;
      if negb (Z.land r (Z.lor IDE_BSY IDE_DRDY) =? IDE_DRDY) then idewait fuel checkerr
      else if checkerr && negb (Z.land r (Z.lor IDE_DF IDE_ERR) =? 0) then ret (-1) else ret 0
  end.

Fixpoint probe (n : nat) : IO bool :=
  match n with
  | O => ret false
  | S n => v ← inb 0x1f7; if negb (v =? 0) then ret true else probe n
  end.
(** Whether there is a disk 1: the variable [havedisk1]. *)
Definition ideinit (fuel : nat) (ncpu : Z) : IO bool :=
  ioapicenable IRQ_IDE (ncpu - 1);;
  idewait fuel false;;
  outb 0x1f6 (Z.lor 0xe0 (Z.shiftl 1 4));;
  d ← probe 1000;
  outb 0x1f6 (Z.lor 0xe0 (Z.shiftl 0 4));;
  ret d.

Definition idestart (fuel : nat) (b : buf) : IO () :=
  if FSSIZE <=? blockno b then panic "incorrect blockno" else
  let sector_per_block := Z.of_nat BSIZE / Z.of_nat SECTOR_SIZE in
  let sector := s32 (blockno b * sector_per_block) in
  let read_cmd := if sector_per_block =? 1 then IDE_CMD_READ else IDE_CMD_RDMUL in
  let write_cmd := if sector_per_block =? 1 then IDE_CMD_WRITE else IDE_CMD_WRMUL in
  if 7 <? sector_per_block then panic "idestart" else
  idewait fuel false;;
  outb 0x3f6 0;;
  outb 0x1f2 sector_per_block;;
  outb 0x1f3 (Z.land sector 0xff);;
  outb 0x1f4 (Z.land (Z.shiftr sector 8) 0xff);;
  outb 0x1f5 (Z.land (Z.shiftr sector 16) 0xff);;
  outb 0x1f6 (Z.lor (Z.lor 0xe0 (Z.shiftl (Z.land (dev b) 1) 4)) (Z.land (Z.shiftr sector 24) 0x0f));;
  if negb (Z.land (flags b) B_DIRTY =? 0) then
    outb 0x1f7 write_cmd;;
    outsl 0x1f0 (data b)
  else
    outb 0x1f7 read_cmd.

(** ** What the drive is asked for *)

(** The value last written to a port, and the command the drive gets: the
    drive, the number of the sector in 28 bits, the number of sectors, and the
    data of a write. *)
Fixpoint port (h : list access) (p : Z) : Z :=
  match h with
  | [] => 0
  | Out q v :: h => if q =? p then v else port h p
  | _ :: h => port h p
  end.
Inductive command := CRead | CWrite (bs : list Z) | COther.
Definition lba (h : list access) : Z :=
  port h 0x1f3 + 2 ^ 8 * port h 0x1f4 + 2 ^ 16 * port h 0x1f5 + 2 ^ 24 * Z.land (port h 0x1f6) 0x0f.
Definition drive (h : list access) : Z := Z.land (Z.shiftr (port h 0x1f6) 4) 1.
Definition asked (h : list access) : command :=
  match h with
  | Outs 0x1f0 bs :: h => if port h 0x1f7 =? IDE_CMD_WRITE then CWrite bs else COther
  | _ => if port h 0x1f7 =? IDE_CMD_READ then CRead else COther
  end.
(** What the command does to the disk. *)
Definition carry_out (h : list access) (s : bst) : bst :=
  match asked h with
  | CWrite bs => disk_write (drive h, lba h) bs s
  | _ => s
  end.

Section ready.
Context (n : nat).
Hypothesis Hready : forall h, (n <= length h)%nat -> Z.land (u8 (answer h (In 0x1f7))) (Z.lor IDE_BSY IDE_DRDY) = IDE_DRDY.

Lemma idewait_runs fuel : forall h, (n < fuel + length h)%nat -> (0 < fuel)%nat -> runs (idewait fuel false) h (fun r _ => r = 0).
Proof.
  induction fuel as [|fuel IH]; intros h Hn Hf; [lia|]. cbn [idewait]. unfold Devices.inb. unfold runs, bind.
  destruct (Z.eqb_spec (Z.land (u8 (answer h (In 0x1f7))) (Z.lor IDE_BSY IDE_DRDY)) IDE_DRDY) as [_|Hne]; cbn [negb andb]; [done|].
  destruct (Nat.le_gt_cases n (length h)) as [Hle|Hgt]; [by destruct Hne; apply Hready|]. apply (IH (In 0x1f7 :: h)); cbn [length]; lia.
Qed.

Lemma drive_bits dv sector : (dv = 0 \/ dv = 1) -> 0 <= sector < 2 ^ 24 ->
  u8 (Z.lor (Z.lor 0xe0 (Z.shiftl dv 4)) (Z.land (Z.shiftr sector 24) 0x0f)) = 0xe0 + 16 * dv.
Proof.
  intros Hd Hs. rewrite (Z.shiftr_div_pow2 sector) by lia. rewrite (Z.div_small sector) by lia. by destruct Hd as [-> | ->].
Qed.

(** C23. The drive is asked for the block the buffer is for: once the drive is
    ready, [idestart] returns having named the drive and, over four registers,
    the sector of the buffer, and what the drive then does is what the model of
    the buffer cache says [idestart] does to the disk, for reads and for writes.
    *)
Theorem idestart_asks fuel s i b h : (n < fuel)%nat ->
  bufs s !! i = Some b -> 0 <= blockno b < FSSIZE ->
  runs (idestart fuel b) h (fun _ h' =>
    drive h' = Z.land (dev b) 1 /\ lba h' = blockno b /\ port h' 0x1f2 = 1 /\
    asked h' = (if Z.land (flags b) B_DIRTY =? 0 then CRead else CWrite (data b)) /\
    Bio.idestart i s = Ok ((), carry_out h' s)).
Proof.
  intros Hf Hb Hn. unfold idestart. rewrite (proj2 (Z.leb_gt FSSIZE (blockno b))) by lia.
  change (Z.of_nat BSIZE / Z.of_nat SECTOR_SIZE) with 1. cbn [Z.eqb Pos.eqb Z.ltb Z.compare Pos.compare Pos.compare_cont].
  rewrite Z.mul_1_r. assert (Hmax : blockno b < 2 ^ 24) by (unfold FSSIZE in Hn; lia). rewrite s32_small by lia.
  apply runs_bind. eapply runs_mono; [apply idewait_runs; lia|]. intros r h1 _.
  assert (Hdv : Z.land (dev b) 1 = 0 \/ Z.land (dev b) 1 = 1).
  { rewrite (Z.land_ones _ 1) by lia. assert (H := Z.mod_pos_bound (dev b) (2 ^ 1) ltac:(lia)). change (2 ^ 1) with 2 in *. lia. }
  assert (Hdb := drive_bits _ (blockno b) Hdv ltac:(lia)).
  assert (Hstart : Bio.idestart i s = Ok ((), if Z.land (flags b) B_DIRTY =? 0 then s else disk_write (Z.land (dev b) 1, blockno b) (data b) s)).
  { unfold Bio.idestart. rewrite (bind_Ok _ _ _ _ _ (getbuf_eq i b s Hb)), (proj2 (Z.leb_gt FSSIZE (blockno b))) by lia. by destruct (Z.land (flags b) B_DIRTY =? 0). }
  assert (Hlba : blockno b mod 256 + 2 ^ 8 * ((blockno b / 256) mod 256) + 2 ^ 16 * ((blockno b / 65536) mod 256) = blockno b).
  { change (2 ^ 8) with 256. change (2 ^ 16) with 65536. change (2 ^ 24) with 16777216 in *. Z.to_euclidean_division_equations. lia. }
  unfold outb, outsl, modify, runs, bind. rewrite Hdb, !Z.shiftr_div_pow2 by lia. rewrite !(Z.land_ones _ 8) by lia.
  unfold u8. rewrite !Z.mod_mod by lia. change (2 ^ 8) with 256. change (2 ^ 16) with 65536.
  rewrite Hstart. destruct (Z.land (flags b) B_DIRTY =? 0); cbn [negb]; unfold carry_out, drive, lba, asked; cbn [port Z.eqb Pos.eqb].
  all: assert (Z.land (Z.shiftr (224 + 16 * Z.land (dev b) 1) 4) 1 = Z.land (dev b) 1) as -> by (by destruct Hdv as [-> | ->]).
  all: assert (Z.land (224 + 16 * Z.land (dev b) 1) 15 = 0) as -> by (by destruct Hdv as [-> | ->]).
  all: rewrite Z.mul_0_r, Z.add_0_r, Hlba; by repeat split.
Qed.
End ready.
End ide.

Lemma idestart_asks_witness :
  runs (idestart (fun _ _ => 0x40) 1 (Buf 6 1 1234 (Sleeplock 1 1) 1 zblock)) [] (fun _ h' =>
    drive h' = 1 /\ lba h' = 1234 /\ port h' 0x1f2 = 1 /\ asked h' = CWrite zblock /\
    Bio.idestart 0 (set_bufs [Buf 6 1 1234 (Sleeplock 1 1) 1 zblock] (boot_bst ∅ 1)) =
      Ok ((), carry_out h' (set_bufs [Buf 6 1 1234 (Sleeplock 1 1) 1 zblock] (boot_bst ∅ 1)))).
Proof.
  apply (idestart_asks (fun _ _ => 0x40) 0).
  - done.
  - lia.
  - done.
  - by vm_compute.
Defined.
