(* ===== verification/Programs.v ===== *)
(** The programs of user space that are clients of the system calls: [cat],
    [wc], [grep], [echo], [ls], [ln], [mkdir], [rm], [kill], [renice], [nice],
    [ps] and [random].

    A program acts on a world through the system calls, which are an interface
    ([usys]); what the programs rely on is stated as laws of it ([usys_ok]).  The
    arguments are the strings of [argv]; a function that may call [exit()] takes
    what follows its return as an argument. *)

From S2P Require Import Prelude Rand CString Ulib Grep ProcDump.

Record ustat := Ustat { u_type : Z; u_ino : Z; u_nlink : Z; u_size : Z }.

Class usys (W : Type) := Usys {
  u_read : Z -> Z -> M W (Z * list Z);  (* the result and the bytes stored *)
  u_write : Z -> list Z -> M W Z;
  u_open : list Z -> Z -> M W Z;
  u_close : Z -> M W Z;
  u_fstat : Z -> M W (Z * ustat);
  u_link : list Z -> list Z -> M W Z;
  u_mkdir : list Z -> M W Z;
  u_unlink : list Z -> M W Z;
  u_kill : Z -> M W Z;
  u_renice : Z -> Z -> M W Z;
  u_getpid : M W Z;
  u_cps : M W Z;
  u_exec : option (list Z) -> list (list Z) -> M W Z  (* a null path is None; if it returns *)
}.

Section programs.
Context {W : Type} {US : usys W}.
Abbreviation P := (M W ()).

Definition exit_ : P := ret ().

(** ** Printing *)

Definition putc (fd c : Z) : P := u_write fd [u8 c];; ret ().
Fixpoint putcs (fd : Z) (l : list Z) : P :=
  match l with
  | [] => ret ()
  | c :: l => putc fd c;; putcs fd l
  end.

(** Arguments of [printf]: a number, or the address of a string. *)
Inductive parg := PNum (v : Z) | PStr (l : list Z).
Definition arg_word (i : nat) (a : parg) : Z := match a with PNum v => v | PStr _ => Z.of_nat (S i) end.
Definition arg_str (args : list parg) (a : Z) : list Z :=
  match args !! pred (Z.to_nat a) with Some (PStr l) => l | _ => [] end.
Definition text_of (fmt : list Z) (args : list parg) : option (list Z) := printf (arg_str args) fmt (imap arg_word args).
Definition fprintf (fd : Z) (fmt : list Z) (args : list parg) : P :=
  match text_of fmt args with
  | Some l => putcs fd l
  | None => fault "printf: argument"
  end.

(** [argv[i]] *)
Definition argv_at (argv : list (list Z)) (i : nat) : M W (list Z) := deref "argv" (argv !! i).

(** ** cat *)

Definition sizeof_cat_buf : Z := 512.
Fixpoint cat (fuel : nat) (fd : Z) (k : P) : P :=
  match fuel with
  | O => spin
  | S fuel =>
      '(n, buf) ← u_read fd sizeof_cat_buf;
      if 0 <? n then
        r ← u_write 1 buf;
        if negb (r =? n) then fprintf 1 (zs "cat: write error" ++ [LF]) [];; exit_
        else cat fuel fd k
      else if n <? 0 then fprintf 1 (zs "cat: read error" ++ [LF]) [];; exit_
      else k
  end.
Fixpoint cat_files (fuel : nat) (args : list (list Z)) : P :=
  match args with
  | [] => exit_
  | a :: args =>
      fd ← u_open a 0;
      if fd <? 0 then fprintf 1 (zs "cat: cannot open %s" ++ [LF]) [PStr a];; exit_
      else cat fuel fd (u_close fd;; cat_files fuel args)
  end.
Definition cat_main (fuel : nat) (argv : list (list Z)) : P :=
  if (length argv <=? 1)%nat then cat fuel 0 exit_ else cat_files fuel (tail argv).

(** ** wc *)

Record wcst := Wcst { wc_l : Z; wc_w : Z; wc_c : Z; inword : bool }.
(** [strchr] in the string of a blank, CR, TAB, LF and VT. *)
Definition is_space (c : Z) : bool := match strchr [32; 13; 9; 10; 11] c with Some _ => true | None => false end.
Definition wc_char (s : wcst) (c : Z) : wcst :=
  let s := Wcst (wc_l s) (wc_w s) (s32 (wc_c s + 1)) (inword s) in
  let s := if c =? LF then Wcst (s32 (wc_l s + 1)) (wc_w s) (wc_c s) (inword s) else s in
  if is_space c then Wcst (wc_l s) (wc_w s) (wc_c s) false
  else if negb (inword s) then Wcst (wc_l s) (s32 (wc_w s + 1)) (wc_c s) true
  else s.
Fixpoint wc_loop (fuel : nat) (fd : Z) (s : wcst) : M W (Z * wcst) :=
  match fuel with
  | O => spin
  | S fuel =>
      '(n, buf) ← u_read fd 512;
      if 0 <? n then wc_loop fuel fd (foldl wc_char s buf) else ret (n, s)
  end.
Definition wc (fuel : nat) (fd : Z) (name : list Z) (k : P) : P :=
  '(n, s) ← wc_loop fuel fd (Wcst 0 0 0 false);
  if n <? 0 then fprintf 1 (zs "wc: read error" ++ [LF]) [];; exit_ else
  fprintf 1 (zs "%d %d %d %s" ++ [LF]) [PNum (wc_l s); PNum (wc_w s); PNum (wc_c s); PStr name];;
  k.
Fixpoint wc_files (fuel : nat) (args : list (list Z)) : P :=
  match args with
  | [] => exit_
  | a :: args =>
      fd ← u_open a 0;
      if fd <? 0 then fprintf 1 (zs "wc: cannot open %s" ++ [LF]) [PStr a];; exit_
      else wc fuel fd a (u_close fd;; wc_files fuel args)
  end.
Definition wc_main (fuel : nat) (argv : list (list Z)) : P :=
  if (length argv <=? 1)%nat then wc fuel 0 [] exit_ else wc_files fuel (tail argv).

(** ** grep *)

(** The lines of the buffer: those that match are written; what follows the last
    newline. *)
Fixpoint grep_write (fuel : nat) (pattern b : list Z) : M W (list Z) :=
  match fuel with
  | O => spin
  | S fuel =>
      match strchr_nl b with
      | None => ret b
      | Some (l, r) =>
          (if match_ pattern l then u_write 1 (l ++ [NL]);; ret () else ret ());;
          grep_write fuel pattern r
      end
  end.
(** [b] are the first [m] bytes of [buf]. *)
Fixpoint grep_fd (fuel : nat) (pattern b : list Z) (fd : Z) : P :=
  match fuel with
  | O => spin
  | S fuel =>
      '(n, bs) ← u_read fd (Z.of_nat sizeof_buf - Z.of_nat (length b) - 1);
      if 0 <? n then
        let b := b ++ bs in
        p ← grep_write (S (length b)) pattern b;
        grep_fd fuel pattern (if (length p =? length b)%nat then [] else p) fd
      else ret ()
  end.
Fixpoint grep_files (fuel : nat) (pattern : list Z) (args : list (list Z)) : P :=
  match args with
  | [] => exit_
  | a :: args =>
      fd ← u_open a 0;
      if fd <? 0 then fprintf 1 (zs "grep: cannot open %s" ++ [LF]) [PStr a];; exit_
      else grep_fd fuel pattern [] fd;; u_close fd;; grep_files fuel pattern args
  end.
Definition grep_main (fuel : nat) (argv : list (list Z)) : P :=
  if (length argv <=? 1)%nat then fprintf 2 (zs "usage: grep pattern [file ...]" ++ [LF]) [];; exit_ else
  pattern ← argv_at argv 1;
  if (length argv <=? 2)%nat then grep_fd fuel pattern [] 0;; exit_ else
  grep_files fuel pattern (drop 2 argv).

(** ** echo *)

Fixpoint echo_args (args : list (list Z)) : P :=
  match args with
  | [] => exit_
  | a :: args => fprintf 1 (zs "%s%s") [PStr a; PStr (match args with [] => [LF] | _ => [32] end)];; echo_args args
  end.
Definition echo_main (argv : list (list Z)) : P := echo_args (tail argv).

(** ** ln, mkdir, rm, kill, renice, nice, ps *)

Definition ln_main (argv : list (list Z)) : P :=
  if negb (length argv =? 3)%nat then fprintf 2 (zs "Usage: ln old new" ++ [LF]) [];; exit_ else
  old ← argv_at argv 1;
  new ← argv_at argv 2;
  r ← u_link old new;
  when (r <? 0) (fprintf 2 (zs "link %s %s: failed" ++ [LF]) [PStr old; PStr new]);;
  exit_.

(** The loop of [mkdir] and [rm]: up to the first call that fails. *)
Fixpoint each_until (call : list Z -> M W Z) (failed : list Z) (args : list (list Z)) : P :=
  match args with
  | [] => ret ()
  | a :: args =>
      r ← call a;
      if r <? 0 then fprintf 2 failed [PStr a] else each_until call failed args
  end.
Definition mkdir_main (argv : list (list Z)) : P :=
  if (length argv <? 2)%nat then fprintf 2 (zs "Usage: mkdir files..." ++ [LF]) [];; exit_ else
  each_until u_mkdir (zs "mkdir: %s failed to create" ++ [LF]) (tail argv);;
  exit_.
Definition rm_main (argv : list (list Z)) : P :=
  if (length argv <? 2)%nat then fprintf 2 (zs "Usage: rm files..." ++ [LF]) [];; exit_ else
  each_until u_unlink (zs "rm: %s failed to delete" ++ [LF]) (tail argv);;
  exit_.

Fixpoint kill_each (args : list (list Z)) : P :=
  match args with
  | [] => ret ()
  | a :: args => u_kill (atoi a);; kill_each args
  end.
Definition kill_main (argv : list (list Z)) : P :=
  if (length argv <? 2)%nat then fprintf 2 (zs "usage: kill pid..." ++ [LF]) [];; exit_ else
  kill_each (tail argv);;
  exit_.

Fixpoint renice_each (nice_val : Z) (args : list (list Z)) : P :=
  match args with
  | [] => ret ()
  | a :: args => u_renice nice_val (atoi a);; renice_each nice_val args
  end.
Definition renice_main (argv : list (list Z)) : P :=
  if (length argv <=? 2)%nat then fprintf 1 (zs " Not enough argument" ++ [LF]) [];; exit_ else
  v ← argv_at argv 1;
  renice_each (atoi v) (drop 2 argv);;
  exit_.

Definition nice_main (argv : list (list Z)) : P :=
  v ← argv_at argv 1;
  p ← u_getpid;
  u_renice (atoi v) p;;
  u_exec (argv !! 2%nat) (drop 2 argv);;
  exit_.

Definition ps_main : P := u_cps;; exit_.

(** ** random *)

Fixpoint random_loop (n : nat) (next : Z) : P :=
  match n with
  | O => ret ()
  | S n =>
      let '(v, next) := rand next in
      fprintf 1 (zs "random number is: %d" ++ [LF]) [PNum v];;
      random_loop n next
  end.
(** The first character of [argv[1]], a signed [char]. *)
Definition random_main (argv : list (list Z)) : P :=
  a ← argv_at argv 1;
  let c := default 0 (head a) in
  random_loop 10 (srand (if 128 <=? c then c - 256 else c));;
  exit_.

(** ** ls *)

Definition T_DIR : Z := 1.
Definition T_FILE : Z := 2.
Definition T_DEV : Z := 3.
Definition DIRSIZ : nat := 14.
Definition sizeof_dirent : Z := 16.
Definition SLASH : Z := 47.
Definition BLANK : Z := 32.

Definition filetype (sttype : Z) : Z :=
  if sttype =? T_DIR then 100 else if sttype =? T_FILE then 102 else if sttype =? T_DEV then 68 else 63.

(** What follows the last slash. *)
Fixpoint after_slash (path : list Z) : list Z :=
  match path with
  | [] => []
  | c :: path' => if bool_decide (SLASH ∈ path') then after_slash path' else if c =? SLASH then path' else c :: path'
  end.
Definition fmtname (path : list Z) : list Z :=
  let p := after_slash path in
  if (DIRSIZ <=? length p)%nat then p else p ++ replicate (DIRSIZ - length p) BLANK.

Definition ls_row (path : list Z) (st : ustat) : P :=
  fprintf 1 (zs "%s" ++ [TAB] ++ zs "%c" ++ [TAB] ++ zs "%d" ++ [TAB] ++ zs "%d" ++ [TAB] ++ zs "%d" ++ [LF])
    [PStr (fmtname path); PNum (filetype (u_type st)); PNum (u_nlink st); PNum (u_ino st); PNum (u_size st)].

(** [stat] of [ulib.c]. *)
Definition stat_ (n : list Z) : M W (Z * ustat) :=
  fd ← u_open n 0;
  if fd <? 0 then ret (-1, Ustat 0 0 0 0) else
  '(r, st) ← u_fstat fd;
  u_close fd;;
  ret (r, st).

(** [memset] of [ulib.c], on the memory of the program. *)
Fixpoint umemset (m : umem) (dst c : Z) (n : nat) : umem :=
  match n with
  | O => m
  | S n => umemset (ustore m dst (u8 c)) (dst + 1) c n
  end.

Definition de_inum (de : list Z) : Z := nth 0 de 0 + 2 ^ 8 * nth 1 de 0.
(** The name up to its end: [p[DIRSIZ] = 0] ends one that fills the field. *)
Definition de_name (de : list Z) : list Z := cstr DIRSIZ (drop 2 de).

Fixpoint ls_entries (fuel : nat) (fd : Z) (path : list Z) : P :=
  match fuel with
  | O => spin
  | S fuel =>
      '(n, de) ← u_read fd sizeof_dirent;
      if negb (n =? sizeof_dirent) then ret () else
      if de_inum de =? 0 then ls_entries fuel fd path else
      let buf := path ++ [SLASH] ++ de_name de in
      '(r, st) ← stat_ buf;
      (if r <? 0 then fprintf 1 (zs "ls: cannot stat %s" ++ [LF]) [PStr buf] else ls_row buf st);;
      ls_entries fuel fd path
  end.

Definition ls (fuel : nat) (path : list Z) : P :=
  fd ← u_open path 0;
  if fd <? 0 then fprintf 2 (zs "ls: cannot open %s" ++ [LF]) [PStr path] else
  '(r, st) ← u_fstat fd;
  if r <? 0 then fprintf 2 (zs "ls: cannot stat %s" ++ [LF]) [PStr path];; u_close fd;; ret () else
  (if u_type st =? T_FILE then ls_row path st
   else if u_type st =? T_DIR then
     if 512 <? strlen path + 1 + Z.of_nat DIRSIZ + 1 then fprintf 1 (zs "ls: path too long" ++ [LF]) []
     else ls_entries fuel fd path
   else ret ());;
  u_close fd;;
  ret ().
Fixpoint ls_each (fuel : nat) (args : list (list Z)) : P :=
  match args with
  | [] => ret ()
  | a :: args => ls fuel a;; ls_each fuel args
  end.
Definition ls_main (fuel : nat) (argv : list (list Z)) : P :=
  fprintf 1 (zs "%s" ++ [TAB; TAB] ++ zs "%s" ++ [TAB] ++ zs "%s" ++ [TAB] ++ zs "%s" ++ [TAB] ++ zs "%s" ++ [LF])
    [PStr (zs "name"); PStr (zs "type"); PStr (zs "# lks"); PStr (zs "ino #"); PStr (zs "size")];;
  (if (length argv <? 2)%nat then ls fuel (zs ".") else ls_each fuel (tail argv));;
  exit_.
End programs.

(** ** Laws of the system calls *)

(** [rest w fd] are the bytes that are still to be read from [fd], [out w] those
    written to descriptor 1, and [file w name] the contents of the file [name];
    [fds w] are the open descriptors and [slots w] is the number of free ones.
    From an open descriptor [read] returns some of what is left, and nothing only
    at the end; [write] takes all; [open] needs a free descriptor, which [close]
    gives back; and none of the calls here changes a file. *)
Class usys_ok (W : Type) {US : usys W} := UsysOk {
  rest : W -> Z -> list Z;
  out : W -> list Z;
  file : W -> list Z -> option (list Z);
  fds : W -> gset Z;
  slots : W -> nat;
  read_ok fd n w : fd ∈ fds w -> 0 < n -> exists bs w', u_read fd n w = Ok ((Z.of_nat (length bs), bs), w') /\
    (bs = [] -> rest w fd = []) /\ rest w fd = bs ++ rest w' fd /\ out w' = out w /\
    (file w', fds w', slots w') = (file w, fds w, slots w);
  write_ok bs w : 1 ∈ fds w -> exists w', u_write 1 bs w = Ok (Z.of_nat (length bs), w') /\
    (forall fd, rest w' fd = rest w fd) /\ out w' = out w ++ bs /\ (file w', fds w', slots w') = (file w, fds w, slots w);
  open_ok name w : exists fd w', u_open name 0 w = Ok (fd, w') /\ out w' = out w /\
    match file w name, slots w with
    | Some d, S n => 0 <= fd /\ (fd ∉ fds w) /\ rest w' fd = d /\ (file w', fds w', slots w') = (file w, {[fd]} ∪ fds w, n)
    | _, _ => fd < 0 /\ (file w', fds w', slots w') = (file w, fds w, slots w)
    end;
  close_ok fd w : fd ∈ fds w -> exists r w', u_close fd w = Ok (r, w') /\ out w' = out w /\
    (file w', fds w', slots w') = (file w, fds w ∖ {[fd]}, S (slots w))
}.

Section theorems.
Context {W : Type} {US : usys W} {UO : usys_ok W}.
Implicit Types (w : W).

(** What the calls on a descriptor leave. *)
Definition env w : (list Z -> option (list Z)) * gset Z * nat := (file w, fds w, slots w).
Lemma env_file w w' : env w' = env w -> file w' = file w.
Proof. by intros [= ->]. Qed.
Lemma env_open w w' fd : env w' = env w -> fd ∈ fds w -> fd ∈ fds w'.
Proof. by intros [= _ -> _]. Qed.
#[local] Hint Resolve env_file env_open : core.

Definition bytes_ok (l : list Z) : Prop := Forall (fun c => 0 <= c < 256) l.

Lemma putcs_runs l : forall w, 1 ∈ fds w -> bytes_ok l ->
  runs (putcs 1 l) w (fun _ w' => out w' = out w ++ l /\ env w' = env w).
Proof.
  induction l as [|c l IH]; intros w H1 Hl; [by cbn; rewrite app_nil_r|]. inversion Hl as [|? ? Hc Hl']. subst. cbn [putcs].
  apply runs_bind. unfold putc. apply runs_bind. destruct (write_ok [u8 c] w H1) as (w1 & E & _ & Ho & Hf). eapply runs_Ok; [exact E|].
  cbn. eapply runs_mono; [apply IH; [by eapply env_open|done]|]. intros [] w2 [Ho2 Hf2]. split; [|by rewrite Hf2]. rewrite Ho2, Ho, <- app_assoc. unfold u8. by rewrite Z.mod_small by lia.
Qed.

Lemma fprintf_runs fmt args l w : 1 ∈ fds w -> text_of fmt args = Some l -> bytes_ok l ->
  runs (fprintf 1 fmt args) w (fun _ w' => out w' = out w ++ l /\ env w' = env w).
Proof. intros H1 He Hl. unfold fprintf. rewrite He. by apply putcs_runs. Qed.

(** ** cat *)

Lemma cat_runs fuel : forall fd k w Q, fd ∈ fds w -> 1 ∈ fds w -> (length (rest w fd) < fuel)%nat ->
  (forall w', out w' = out w ++ rest w fd -> env w' = env w -> runs k w' Q) -> runs (cat fuel fd k) w Q.
Proof.
  induction fuel as [|fuel IH]; intros fd k w Q Hfd H1 Hf Hk; [lia|]. cbn [cat]. apply runs_bind.
  destruct (read_ok fd sizeof_cat_buf w Hfd ltac:(done)) as (bs & w1 & E & Hend & Hr & Ho & Hfl). eapply runs_Ok; [exact E|].
  destruct bs as [|c bs]; [apply Hk; [by rewrite Ho, Hend, app_nil_r|done]|]. set (b := c :: bs) in *.
  rewrite (proj2 (Z.ltb_lt 0 _)) by (unfold b; cbn; lia). apply runs_bind.
  destruct (write_ok b w1 (env_open _ _ _ Hfl H1)) as (w2 & E2 & Hr2 & Ho2 & Hf2). eapply runs_Ok; [exact E2|]. rewrite Z.eqb_refl. cbn [negb].
  rewrite Hr in Hf. rewrite length_app in Hf. assert (He : env w2 = env w) by (unfold env; by rewrite Hf2).
  apply IH; [by eapply env_open|by eapply env_open|rewrite Hr2; unfold b in Hf; cbn in Hf; lia|].
  intros w' Ho' Hf'. apply Hk; [|by rewrite Hf']. by rewrite Ho', Ho2, Hr2, Ho, Hr, <- app_assoc.
Qed.

(** What [cat] prints: the files one after the other, up to one that cannot be
    opened. *)
Fixpoint cat_text (files : list Z -> option (list Z)) (args : list (list Z)) : list Z :=
  match args with
  | [] => []
  | a :: args =>
      match files a with
      | Some d => d ++ cat_text files args
      | None => zs "cat: cannot open " ++ a ++ [LF]
      end
  end.

Lemma zs_bytes str : bytes_ok (zs str).
Proof.
  unfold zs. apply Forall_fmap, Forall_forall. intros a _. cbn. assert (H := Ascii.N_ascii_bounded a). lia.
Qed.
Lemma bytes_app l1 l2 : bytes_ok l1 -> bytes_ok l2 -> bytes_ok (l1 ++ l2).
Proof. intros. by apply Forall_app. Qed.
Lemma bytes_lf : bytes_ok [LF].
Proof. by repeat constructor. Qed.
#[local] Hint Resolve zs_bytes bytes_app bytes_lf : core.

(** The descriptor of a file that can be opened holds its contents, and closing it
    takes back what [open] did. *)
Definition opened (fd : Z) w : (list Z -> option (list Z)) * gset Z * nat := (file w, {[fd]} ∪ fds w, pred (slots w)).
Lemma open_runs name (k : Z -> M W ()) w Q : (0 < slots w)%nat ->
  (forall fd d w', file w name = Some d -> 0 <= fd -> fd ∉ fds w -> rest w' fd = d -> out w' = out w -> env w' = opened fd w -> runs (k fd) w' Q) ->
  (forall fd w', file w name = None -> fd < 0 -> out w' = out w -> env w' = env w -> runs (k fd) w' Q) ->
  runs (fd ← u_open name 0; k fd) w Q.
Proof.
  intros Hs H1 H2. apply runs_bind. destruct (open_ok name w) as (fd & w1 & E & Ho & Hm). eapply runs_Ok; [exact E|].
  destruct (file w name) as [d|] eqn:Hd; [|destruct Hm; by apply H2]. destruct (slots w) as [|n] eqn:Hn; [lia|].
  destruct Hm as (? & ? & ? & ?). apply (H1 fd d); try done. unfold opened. by rewrite Hn.
Qed.
Lemma close_runs fd (k : M W ()) w0 w Q : (0 < slots w0)%nat -> fd ∉ fds w0 -> env w = opened fd w0 ->
  (forall w', out w' = out w -> env w' = env w0 -> runs k w' Q) -> runs (u_close fd;; k) w Q.
Proof.
  intros Hs Hno He H. injection He as H1 H2 H3. apply runs_bind. destruct (close_ok fd w) as (r & w1 & E & Ho & Hf); [rewrite H2; set_solver|].
  eapply runs_Ok; [exact E|]. apply H; [done|]. unfold env. rewrite Hf, H1, H2, H3. f_equal; [|lia]. f_equal. set_solver.
Qed.
Lemma opened_open fd w w' : env w' = opened fd w -> fd ∈ fds w' /\ (1 ∈ fds w -> 1 ∈ fds w').
Proof. intros [= _ -> _]. set_solver. Qed.

Definition files_fit (w : W) (fuel : nat) (args : list (list Z)) : Prop :=
  forall a d, a ∈ args -> file w a = Some d -> (length d < fuel)%nat.
Lemma files_fit_cons w fuel a args : files_fit w fuel (a :: args) -> files_fit w fuel args.
Proof. intros H b d Hb. apply H. by right. Qed.

Lemma cat_files_runs fuel args : forall w, 1 ∈ fds w -> (0 < slots w)%nat -> Forall bytes_ok args -> files_fit w fuel args ->
  runs (cat_files fuel args) w (fun _ w' => out w' = out w ++ cat_text (file w) args).
Proof.
  induction args as [|a args IH]; intros w H1 Hsl Ha Hfit; [by cbn; rewrite app_nil_r|]. inversion Ha as [|? ? Hb Ha']. subst. cbn [cat_files cat_text].
  apply open_runs; [done|..].
  - intros fd d w1 Hd Hfd Hno Hr Ho Hf. destruct (opened_open _ _ _ Hf) as [Hin H1']. rewrite (proj2 (Z.ltb_ge fd 0) Hfd), Hd.
    apply cat_runs; [done|by apply H1'|rewrite Hr; by apply (Hfit a); [left|]|].
    intros w2 Ho2 Hf2. apply (close_runs fd _ w); [done|done|congruence|]. intros w3 Ho3 Hf3. assert (Hw := env_file _ _ Hf3).
    eapply runs_mono; [apply IH; [by eapply env_open|by injection Hf3 as _ _ ->|done|]|].
    + intros b e Hbe. rewrite Hw. by apply (files_fit_cons _ _ _ _ Hfit).
    + intros [] w4 ->. by rewrite Hw, Ho3, Ho2, Hr, Ho, <- app_assoc.
  - intros fd w1 Hd Hfd Ho Hf. rewrite (proj2 (Z.ltb_lt fd 0) Hfd), Hd. apply runs_bind.
    eapply runs_mono; [apply (fprintf_runs _ _ (zs "cat: cannot open " ++ a ++ [LF])); [by eapply env_open|reflexivity|auto]|].
    intros [] w2 [Ho2 _]. cbn. by rewrite Ho2, Ho.
Qed.

(** [cat] copies its files to its output, one after the other, whatever pieces
    [read] returns them in, up to one that it cannot open; and without arguments
    its input. *)
Theorem cat_copies fuel prog args w : 0 ∈ fds w -> 1 ∈ fds w -> (0 < slots w)%nat -> Forall bytes_ok args -> files_fit w fuel args -> (length (rest w 0) < fuel)%nat ->
  runs (cat_main fuel (prog :: args)) w (fun _ w' => out w' = out w ++ match args with [] => rest w 0 | _ => cat_text (file w) args end).
Proof.
  intros Hi H1 Hsl Ha Hfit H0. unfold cat_main. destruct args as [|a args].
  - cbn [length Nat.leb]. apply cat_runs; [done|done|done|]. by intros w' Ho Hf.
  - cbn [length Nat.leb tail]. by apply cat_files_runs.
Qed.

(** ** wc *)

(** A word starts at position [i]: no space there, and the start of the text or
    a space before it. *)
Definition word_start (t : list Z) (i : nat) : bool :=
  match t !! i with
  | None => false
  | Some c => negb (is_space c) && match i with O => true | S j => from_option is_space true (t !! j) end
  end.
Definition lines (t : list Z) : Z := Z.of_nat (length (List.filter (Z.eqb LF) t)).
Definition words (t : list Z) : Z := Z.of_nat (length (List.filter (word_start t) (seq 0 (length t)))).
Definition ends_in_word (t : list Z) : bool := from_option (fun c => negb (is_space c)) false (last t).

Lemma filter_length_le {A} (f : A -> bool) l : (length (List.filter f l) <= length l)%nat.
Proof. induction l as [|a l IH]; [done|]. cbn. destruct (f a); cbn; lia. Qed.
Lemma lines_bound t : 0 <= lines t <= Z.of_nat (length t).
Proof. unfold lines. assert (H := filter_length_le (Z.eqb LF) t). lia. Qed.
Lemma words_bound t : 0 <= words t <= Z.of_nat (length t).
Proof. unfold words. assert (H := filter_length_le (word_start t) (seq 0 (length t))). rewrite length_seq in H. lia. Qed.

Lemma lines_snoc t c : lines (t ++ [c]) = lines t + if c =? LF then 1 else 0.
Proof. unfold lines. rewrite List.filter_app, length_app. cbn [List.filter]. rewrite Z.eqb_sym. destruct (c =? LF); cbn [length]; lia. Qed.
Lemma words_snoc t c : words (t ++ [c]) = words t + if negb (is_space c) && negb (ends_in_word t) then 1 else 0.
Proof.
  unfold words. rewrite length_app. cbn [length]. rewrite Nat.add_1_r, seq_S, List.filter_app, length_app. cbn [List.filter plus].
  assert (Hs : List.filter (word_start (t ++ [c])) (seq 0 (length t)) = List.filter (word_start t) (seq 0 (length t))).
  { apply List.filter_ext_in. intros i Hi. apply List.in_seq in Hi. unfold word_start. rewrite lookup_app_l by lia. destruct i as [|j]; [done|].
    by rewrite lookup_app_l by lia. }
  rewrite Hs. assert (Hw : word_start (t ++ [c]) (length t) = negb (is_space c) && negb (ends_in_word t)).
  { unfold word_start, ends_in_word. rewrite list_lookup_middle by done. f_equal. destruct (length t) as [|j] eqn:Hl.
    - by apply nil_length_inv in Hl as ->.
    - rewrite lookup_app_l by lia. rewrite last_lookup, Hl. cbn [pred]. destruct (t !! j); cbn; by rewrite ?negb_involutive. }
  rewrite Hw. destruct (negb (is_space c) && negb (ends_in_word t)); cbn [length]; lia.
Qed.
Lemma ends_snoc t c : ends_in_word (t ++ [c]) = negb (is_space c).
Proof. unfold ends_in_word. by rewrite last_snoc. Qed.

Lemma wc_fold t : Z.of_nat (length t) < 2 ^ 31 ->
  foldl wc_char (Wcst 0 0 0 false) t = Wcst (lines t) (words t) (Z.of_nat (length t)) (ends_in_word t).
Proof.
  induction t as [|c t IH] using rev_ind; intros Hl; [done|]. rewrite length_app in *. cbn [length] in *.
  rewrite foldl_app, IH by lia. cbn [foldl]. rewrite lines_snoc, words_snoc, ends_snoc.
  assert (H1 := lines_bound t). assert (H2 := words_bound t). unfold wc_char. cbn [wc_l wc_w wc_c inword].
  rewrite (s32_small (Z.of_nat (length t) + 1)) by lia. replace (Z.of_nat (length t + 1)) with (Z.of_nat (length t) + 1) by lia.
  destruct (c =? LF), (is_space c), (ends_in_word t); cbn [wc_l wc_w wc_c inword negb andb]; rewrite ?s32_small by lia; by rewrite ?Z.add_0_r.
Qed.

Lemma wc_loop_runs fuel : forall fd s w, fd ∈ fds w -> (length (rest w fd) < fuel)%nat ->
  runs (wc_loop fuel fd s) w (fun r w' => r = (0, foldl wc_char s (rest w fd)) /\ out w' = out w /\ env w' = env w).
Proof.
  induction fuel as [|fuel IH]; intros fd s w Hfd Hf; [lia|]. cbn [wc_loop]. apply runs_bind.
  destruct (read_ok fd 512 w Hfd ltac:(done)) as (bs & w1 & E & Hend & Hr & Ho & Hfl). eapply runs_Ok; [exact E|].
  destruct bs as [|c bs]; [by rewrite Hend by done|]. rewrite (proj2 (Z.ltb_lt 0 _)) by (cbn; lia).
  rewrite Hr in Hf |- *. rewrite length_app in Hf. cbn in Hf. eapply runs_mono; [apply IH; [by eapply env_open|lia]|].
  intros r w2 (-> & Ho2 & Hf2). rewrite foldl_app. split; [done|]. split; [congruence|]. rewrite Hf2. exact Hfl.
Qed.

Definition dec (x : Z) : list Z := printint x 10 true.
Definition wc_row (name d : list Z) : list Z :=
  dec (lines d) ++ [BLANK] ++ dec (words d) ++ [BLANK] ++ dec (Z.of_nat (length d)) ++ [BLANK] ++ name ++ [LF].
Fixpoint wc_text (files : list Z -> option (list Z)) (args : list (list Z)) : list Z :=
  match args with
  | [] => []
  | a :: args =>
      match files a with
      | Some d => wc_row a d ++ wc_text files args
      | None => zs "wc: cannot open " ++ a ++ [LF]
      end
  end.

Lemma dec_bytes x : 0 <= x -> bytes_ok (dec x).
Proof.
  intros Hx. unfold dec, printint, printint_buf. rewrite (proj2 (Z.ltb_ge x 0)) by lia. rewrite andb_false_r, app_nil_r.
  apply Forall_forall. intros c Hc. assert (H := digits_digits 33 (u32 x) (proj1 (u32_range x))). rewrite forallb_forall in H.
  apply list_elem_of_In in Hc. apply H in Hc. unfold isdigit in Hc. apply andb_true_iff in Hc as [H1%Z.leb_le H2%Z.leb_le]. lia.
Qed.

Lemma wc_prints d name : Z.of_nat (length d) < 2 ^ 31 ->
  text_of (zs "%d %d %d %s" ++ [LF]) [PNum (lines d); PNum (words d); PNum (Z.of_nat (length d)); PStr name] = Some (wc_row name d).
Proof.
  intros Hl. assert (H1 := lines_bound d). assert (H2 := words_bound d).
  transitivity (Some (dec (s32 (lines d)) ++ [BLANK] ++ dec (s32 (words d)) ++ [BLANK] ++ dec (s32 (Z.of_nat (length d))) ++ [BLANK] ++ name ++ [LF])); [reflexivity|].
  unfold wc_row. by rewrite !s32_small by lia.
Qed.

Lemma wc_runs fuel fd name k w Q : fd ∈ fds w -> 1 ∈ fds w -> (length (rest w fd) < fuel)%nat -> Z.of_nat (length (rest w fd)) < 2 ^ 31 -> bytes_ok name ->
  (forall w', out w' = out w ++ wc_row name (rest w fd) -> env w' = env w -> runs k w' Q) -> runs (wc fuel fd name k) w Q.
Proof.
  intros Hfd H11 Hf Hl Hn Hk. unfold wc. apply runs_bind. eapply runs_mono; [by apply wc_loop_runs|]. intros [n s] w1 ([= -> ->] & Ho & Hfl).
  cbn [Z.ltb Z.compare]. apply runs_bind. rewrite wc_fold by done. cbn [wc_l wc_w wc_c].
  assert (H1 := lines_bound (rest w fd)). assert (H2 := words_bound (rest w fd)).
  eapply runs_mono; [apply fprintf_runs; [by eapply env_open|by apply wc_prints|]|].
  - unfold wc_row. repeat apply bytes_app; first [done|by repeat constructor|apply dec_bytes; lia].
  - intros [] w2 [Ho2 Hf2]. apply Hk; congruence.
Qed.

Lemma wc_files_runs fuel args : Z.of_nat fuel < 2 ^ 31 -> forall w, 1 ∈ fds w -> (0 < slots w)%nat -> Forall bytes_ok args -> files_fit w fuel args ->
  runs (wc_files fuel args) w (fun _ w' => out w' = out w ++ wc_text (file w) args).
Proof.
  intros Hmax. induction args as [|a args IH]; intros w H1 Hsl Ha Hfit; [by cbn; rewrite app_nil_r|]. inversion Ha as [|? ? Hb Ha']. subst. cbn [wc_files wc_text].
  apply open_runs; [done|..].
  - intros fd d w1 Hd Hfd Hno Hr Ho Hf. destruct (opened_open _ _ _ Hf) as [Hin H1'].
    rewrite (proj2 (Z.ltb_ge fd 0) Hfd), Hd. assert (Hlen := Hfit a d ltac:(left) Hd).
    apply wc_runs; [done|by apply H1'|rewrite Hr; lia|rewrite Hr; lia|done|].
    intros w2 Ho2 Hf2. apply (close_runs fd _ w); [done|done|congruence|]. intros w3 Ho3 Hf3. assert (Hw := env_file _ _ Hf3).
    eapply runs_mono; [apply IH; [by eapply env_open|by injection Hf3 as _ _ ->|done|]|].
    + intros b e Hbe. rewrite Hw. by apply (files_fit_cons _ _ _ _ Hfit).
    + intros [] w4 ->. by rewrite Hw, Ho3, Ho2, Hr, Ho, <- app_assoc.
  - intros fd w1 Hd Hfd Ho Hf. rewrite (proj2 (Z.ltb_lt fd 0) Hfd), Hd. apply runs_bind.
    eapply runs_mono; [apply (fprintf_runs _ _ (zs "wc: cannot open " ++ a ++ [LF])); [by eapply env_open|reflexivity|auto]|].
    intros [] w2 [Ho2 _]. cbn. by rewrite Ho2, Ho.
Qed.

(** C36. [wc] counts: for each of its files in turn it prints the number of its
    lines, of its words (a word starts at each character that is no space and
    follows a space or nothing) and of its bytes, whatever pieces [read] returns
    the file in, up to a file that it cannot open; and without arguments it does
    so for its input. Its input and output are open and a descriptor is free. *)
Theorem wc_counts fuel prog args w : 0 ∈ fds w -> 1 ∈ fds w -> (0 < slots w)%nat -> Forall bytes_ok args -> files_fit w fuel args -> (length (rest w 0) < fuel)%nat -> Z.of_nat fuel < 2 ^ 31 ->
  runs (wc_main fuel (prog :: args)) w (fun _ w' => out w' = out w ++ match args with [] => wc_row [] (rest w 0) | _ => wc_text (file w) args end).
Proof.
  intros Hi H1 Hsl Ha Hfit H0 Hmax. unfold wc_main. destruct args as [|a args].
  - cbn [length Nat.leb]. apply wc_runs; [done|done|done|lia|constructor|]. by intros w' Ho Hf.
  - cbn [length Nat.leb tail]. by apply wc_files_runs.
Qed.

(** ** grep *)

(** A file gives as many bytes as it is asked for, while it has them. *)
Definition full_reads : Prop := forall fd n w, fd ∈ fds w -> 0 < n ->
  runs (u_read fd n) w (fun r _ => length r.2 = Z.to_nat n `min` length (rest w fd))%nat.

Lemma strchr_nl_length b : forall l r, strchr_nl b = Some (l, r) -> (length r < length b)%nat.
Proof.
  induction b as [|c b IH]; intros l r; cbn; [done|]. destruct (c =? NL); [by intros [= <- <-]; lia|]. destruct (c =? 0); [done|].
  destruct (strchr_nl b) as [[l' r']|]; [|done]. intros [= <- <-]. specialize (IH _ _ eq_refl). lia.
Qed.

Lemma grep_write_runs pattern fuel : forall b w, 1 ∈ fds w -> (length b < fuel)%nat ->
  runs (grep_write fuel pattern b) w (fun p w' => (p = (grep_lines fuel pattern b).2 /\ (length p <= length b)%nat) /\
    out w' = out w ++ (grep_lines fuel pattern b).1 /\ (forall fd, rest w' fd = rest w fd) /\ env w' = env w).
Proof.
  induction fuel as [|fuel IH]; intros b w H1 Hf; [lia|]. cbn [grep_write grep_lines].
  destruct (strchr_nl b) as [[l r]|] eqn:Hs; [|by repeat split; cbn; rewrite ?app_nil_r]. apply runs_bind.
  assert (Hr : (length r < length b)%nat) by by apply (strchr_nl_length b l).
  assert (Hw : runs (if match_ pattern l then u_write 1 (l ++ [NL]);; ret () else ret ()) w (fun _ w' =>
    out w' = out w ++ (if match_ pattern l then l ++ [NL] else []) /\ (forall fd, rest w' fd = rest w fd) /\ env w' = env w)).
  { destruct (match_ pattern l); [|by repeat split; rewrite app_nil_r]. apply runs_bind. destruct (write_ok (l ++ [NL]) w H1) as (w1 & E & Hr1 & Ho & Hfl).
    by eapply runs_Ok; [exact E|]. }
  eapply runs_mono; [exact Hw|]. intros [] w1 (Ho1 & Hr1 & Hf1). eapply runs_mono; [apply IH; [by eapply env_open|lia]|].
  intros p w2 ((Hp & Hle) & Ho2 & Hr2 & Hf2). destruct (grep_lines fuel pattern r) as [o q]. cbn [fst snd] in *. repeat split; try congruence; [lia|by rewrite Ho2, Ho1, <- app_assoc].
Qed.

Lemma grep_fd_runs pattern fuel : full_reads -> forall b fd w, fd ∈ fds w -> 1 ∈ fds w -> (length b < sizeof_buf - 1)%nat -> (length (rest w fd) < fuel)%nat ->
  runs (grep_fd fuel pattern b fd) w (fun _ w' => out w' = out w ++ grep_loop fuel pattern b [rest w fd] /\ env w' = env w).
Proof.
  intros Hfull. induction fuel as [|fuel IH]; intros b fd w Hfd H1 Hb Hf; [lia|]. cbn [grep_fd grep_loop].
  set (k := (sizeof_buf - length b - 1)%nat). assert (Hk : Z.of_nat sizeof_buf - Z.of_nat (length b) - 1 = Z.of_nat k) by (unfold k; lia). rewrite Hk.
  apply runs_bind. assert (Hlen := Hfull fd (Z.of_nat k) w Hfd ltac:(lia)).
  destruct (read_ok fd (Z.of_nat k) w Hfd ltac:(lia)) as (bs & w1 & E & Hend & Hr & Ho & Hfl).
  unfold runs in Hlen. rewrite E in Hlen. cbn [snd] in Hlen. rewrite Nat2Z.id in Hlen. eapply runs_Ok; [exact E|].
  assert (Htake : take k (rest w fd) = bs).
  { rewrite Hr in *. rewrite length_app in Hlen. rewrite take_app. rewrite (take_ge bs) by lia. destruct (decide (k <= length bs)%nat).
    - replace (k - length bs)%nat with 0%nat by lia. by rewrite take_0, app_nil_r.
    - assert (length (rest w1 fd) = 0)%nat as H0 by lia. apply nil_length_inv in H0. by rewrite H0, take_nil, app_nil_r. }
  assert (Hdrop : drop k (rest w fd) = rest w1 fd).
  { rewrite <- (take_drop k (rest w fd)), Htake in Hr at 1. by apply app_inv_head in Hr. }
  rewrite Htake. destruct bs as [|c bs].
  { rewrite (bool_decide_true ([] = [])) by done. by split; [rewrite app_nil_r|]. }
  set (cs := c :: bs) in *.
  rewrite (proj2 (Z.ltb_lt 0 _)) by (unfold cs; cbn; lia). rewrite (bool_decide_false (cs = [])) by done. apply runs_bind.
  eapply runs_mono; [apply grep_write_runs; [by eapply env_open|lia]|]. intros p w2 ((Hp & Hle) & Ho2 & Hr2 & Hf2).
  destruct (grep_lines (S (length (b ++ cs))) pattern (b ++ cs)) as [o q]. cbn [fst snd] in *. subst p.
  assert (Hq : (length (if (length q =? length (b ++ cs))%nat then [] else q) < sizeof_buf - 1)%nat).
  { destruct (Nat.eqb_spec (length q) (length (b ++ cs))); [cbn; unfold sizeof_buf; lia|]. rewrite length_app in *. unfold k in *. lia. }
  assert (Hc : (length (rest w1 fd) < fuel)%nat) by (rewrite Hr, length_app in Hf; unfold cs in Hf; cbn in Hf; lia).
  assert (He : env w2 = env w) by (rewrite Hf2; exact Hfl).
  eapply runs_mono; [apply IH; [by eapply env_open|by eapply env_open|exact Hq|by rewrite Hr2]|]. intros [] w3 [Ho3 Hf3]. split; [|congruence].
  rewrite Ho3, Ho2, Ho, Hr2, <- app_assoc, Hdrop. do 2 f_equal.
  assert (Hb' : (if (length q =? length (b ++ cs))%nat then [] else q) = (if bool_decide (length q = length (b ++ cs)) then [] else q)).
  { destruct (Nat.eqb_spec (length q) (length (b ++ cs))); [by rewrite bool_decide_true|by rewrite bool_decide_false]. }
  rewrite Hb'. destruct (decide (rest w1 fd = [])) as [Hd|Hd]; [|by rewrite (bool_decide_false (rest w1 fd = [])) by done].
  rewrite (bool_decide_true (rest w1 fd = [])), Hd by done. destruct fuel; [done|]. cbn [grep_loop]. by rewrite take_nil.
Qed.

(** What [grep] prints: of each file the lines that match. *)
Fixpoint grep_text (pattern : list Z) (files : list Z -> option (list Z)) (args : list (list Z)) : list Z :=
  match args with
  | [] => []
  | a :: args =>
      match files a with
      | Some d => select pattern (text_lines d).1 ++ grep_text pattern files args
      | None => zs "grep: cannot open " ++ a ++ [LF]
      end
  end.

Lemma grep_files_runs pattern fuel args : full_reads -> forall w, 1 ∈ fds w -> (0 < slots w)%nat -> Forall bytes_ok args -> files_fit w fuel args ->
  (forall a d, a ∈ args -> file w a = Some d -> (0 ∉ d) /\ short_lines d) ->
  runs (grep_files fuel pattern args) w (fun _ w' => out w' = out w ++ grep_text pattern (file w) args).
Proof.
  intros Hfull. induction args as [|a args IH]; intros w H1 Hsl Ha Hfit Hgood; [by cbn; rewrite app_nil_r|]. inversion Ha as [|? ? Hb Ha']. subst.
  cbn [grep_files grep_text]. apply open_runs; [done|..].
  - intros fd d w1 Hd Hfd Hno Hr Ho Hf. destruct (opened_open _ _ _ Hf) as [Hin H1']. rewrite (proj2 (Z.ltb_ge fd 0) Hfd), Hd. assert (Hlen := Hfit a d ltac:(left) Hd).
    destruct (Hgood a d ltac:(left) Hd) as [Hz Hs]. apply runs_bind.
    eapply runs_mono; [apply grep_fd_runs; [done|done|by apply H1'|cbn; unfold sizeof_buf; lia|by rewrite Hr]|]. intros [] w2 [Ho2 Hf2].
    apply (close_runs fd _ w); [done|done|congruence|]. intros w3 Ho3 Hf3. assert (Hw := env_file _ _ Hf3).
    eapply runs_mono; [apply IH; [by eapply env_open|by injection Hf3 as _ _ ->|done| |]|].
    + intros b e Hbe. rewrite Hw. by apply (files_fit_cons _ _ _ _ Hfit).
    + intros b e Hbe. rewrite Hw. apply Hgood. by right.
    + intros [] w4 ->. rewrite Hw, Ho3, Ho2, Hr, Ho, <- app_assoc. do 2 f_equal.
      apply (grep_loop_file pattern fuel [] d); [apply not_elem_of_nil|done|done|done].
  - intros fd w1 Hd Hfd Ho Hf. rewrite (proj2 (Z.ltb_lt fd 0) Hfd), Hd. apply runs_bind.
    eapply runs_mono; [apply (fprintf_runs _ _ (zs "grep: cannot open " ++ a ++ [LF])); [by eapply env_open|reflexivity|auto]|].
    intros [] w2 [Ho2 _]. cbn. by rewrite Ho2, Ho.
Qed.

(** C37. [grep] prints, of each of its files in turn, exactly the lines in which
    the pattern matches, up to a file that it cannot open, for files without NUL
    bytes whose lines fit its buffer, of which [read] returns all that was asked
    for while it is there, as the file system does; what follows the last
    newline of a file is not a line. Its output is open and a descriptor is
    free. *)
Theorem grep_prints pattern fuel prog args w : full_reads -> 1 ∈ fds w -> (0 < slots w)%nat -> args <> [] -> Forall bytes_ok args -> files_fit w fuel args ->
  (forall a d, a ∈ args -> file w a = Some d -> (0 ∉ d) /\ short_lines d) ->
  runs (grep_main fuel (prog :: pattern :: args)) w (fun _ w' => out w' = out w ++ grep_text pattern (file w) args) /\
  forall l, match_ pattern l = true <-> matches pattern l.
Proof.
  intros Hfull H1 Hsl Hne Ha Hfit Hgood. split; [|intros l; apply match_spec]. unfold grep_main. destruct args as [|a args]; [done|].
  cbn [length Nat.leb]. apply runs_bind. eapply runs_Ok; [done|]. by apply grep_files_runs.
Qed.

(** ** echo and ls *)

Fixpoint echo_text (args : list (list Z)) : list Z :=
  match args with
  | [] => []
  | [a] => a ++ [LF]
  | a :: args => a ++ [BLANK] ++ echo_text args
  end.

(** [echo] prints its arguments with a blank between them and a newline at the
    end. *)
Lemma echo_prints prog args w : 1 ∈ fds w -> Forall bytes_ok args -> runs (echo_main (prog :: args)) w (fun _ w' => out w' = out w ++ echo_text args).
Proof.
  unfold echo_main. cbn [tail]. intros H1 Ha. revert w H1. induction Ha as [|a args Hb Ha IH]; intros w H1; [by cbn; rewrite app_nil_r|].
  cbn [echo_args]. set (sep := match args with [] => [LF] | _ => [32] end). apply runs_bind.
  assert (Hsep : bytes_ok sep) by (unfold sep; destruct args; by repeat constructor).
  eapply runs_mono; [apply (fprintf_runs _ _ (a ++ sep)); [done| |auto]|].
  { transitivity (Some (a ++ sep ++ [])); [reflexivity|by rewrite app_nil_r]. }
  intros [] w1 [Ho He]. eapply runs_mono; [apply IH; by eapply env_open|]. intros [] w2 ->. rewrite Ho, <- !app_assoc. do 2 f_equal. unfold sep. by destruct args.
Qed.

Lemma after_slash_id name : SLASH ∉ name -> after_slash name = name.
Proof.
  destruct name as [|c name]; intros Hn; [done|]. apply not_elem_of_cons in Hn as [Hc Hn]. cbn [after_slash].
  rewrite bool_decide_false by done. by rewrite (proj2 (Z.eqb_neq c SLASH)) by congruence.
Qed.
Lemma after_slash_app dir name : SLASH ∉ name -> after_slash (dir ++ SLASH :: name) = name.
Proof.
  intros Hn. induction dir as [|c dir IH]; cbn [app after_slash].
  - rewrite bool_decide_false by done. done.
  - rewrite bool_decide_true by set_solver. exact IH.
Qed.

(** A row of [ls] shows the name of the entry, without the directory and at
    least [DIRSIZ] wide. *)
Lemma fmtname_entry dir name : SLASH ∉ name ->
  fmtname (dir ++ SLASH :: name) = fmtname name /\ take (length name) (fmtname name) = name /\ (DIRSIZ <= length (fmtname name))%nat.
Proof.
  intros Hn. unfold fmtname. rewrite after_slash_app, after_slash_id by done. split; [done|].
  destruct (Nat.leb_spec DIRSIZ (length name)) as [Hle|Hgt]; [by rewrite take_ge|].
  rewrite take_app_length, length_app, length_replicate. split; [done|lia].
Qed.
End theorems.

Lemma umemset_spec n : forall m dst c a, umemset m dst c n a = if (dst <=? a) && (a <? dst + Z.of_nat n) then u8 c else m a.
Proof.
  induction n as [|n IH]; intros m dst c a; cbn [umemset].
  - destruct (Z.leb_spec dst a), (Z.ltb_spec a (dst + Z.of_nat 0)); cbn [andb]; try done; lia.
  - rewrite IH. unfold ustore. destruct (Z.leb_spec (dst + 1) a), (Z.ltb_spec a (dst + 1 + Z.of_nat n)), (Z.leb_spec dst a), (Z.ltb_spec a (dst + Z.of_nat (S n))), (Z.eqb_spec a dst); cbn [andb]; try done; lia.
Qed.

(** ** A world

    Files by name, descriptors by number; asked for [n] bytes, [read] returns at
    most [most n]. *)

Record uworld := Uworld { uw_files : list (list Z * list Z); uw_fds : list (option (list Z)); uw_slots : nat; uw_out : list Z }.
Definition uw_rest (w : uworld) (fd : Z) : list Z := default [] (mjoin (uw_fds w !! Z.to_nat fd)).
Definition uw_find (w : uworld) (name : list Z) : option (list Z) :=
  snd <$> find (fun f => bool_decide (f.1 = name)) (uw_files w).
Definition uw_isopen (w : uworld) (fd : Z) : bool := (0 <=? fd) && bool_decide (is_Some (mjoin (uw_fds w !! Z.to_nat fd))).
Definition uw_open (w : uworld) : gset Z := list_to_set (List.filter (uw_isopen w) (Z.of_nat <$> seq 0 (length (uw_fds w)))).

Lemma uw_open_elem w fd : fd ∈ uw_open w <-> 0 <= fd /\ exists d, uw_fds w !! Z.to_nat fd = Some (Some d).
Proof.
  unfold uw_open. rewrite elem_of_list_to_set, list_elem_of_In, List.filter_In, <- list_elem_of_In, list_elem_of_fmap. unfold uw_isopen. split.
  - intros [_ [H1%Z.leb_le [d Hd]%bool_decide_eq_true]%andb_true_iff]. split; [done|]. exists d. by destruct (uw_fds w !! Z.to_nat fd) as [[]|]; cbn in Hd; simplify_eq.
  - intros [H0 [d Hd]]. split; [|rewrite Hd; apply andb_true_iff; split; [by apply Z.leb_le|apply bool_decide_eq_true; by eexists]].
    exists (Z.to_nat fd). split; [lia|]. apply elem_of_seq. apply lookup_lt_Some in Hd. lia.
Qed.

Definition demo_usys (most : nat -> nat) : usys uworld := {|
  u_read := fun fd n w =>
    if uw_isopen w fd then
      let bs := take (most (Z.to_nat n)) (uw_rest w fd) in
      Ok ((Z.of_nat (length bs), bs), Uworld (uw_files w) (alter (fmap (drop (length bs))) (Z.to_nat fd) (uw_fds w)) (uw_slots w) (uw_out w))
    else Ok ((-1, []), w);
  u_write := fun fd bs w =>
    if uw_isopen w fd then Ok (Z.of_nat (length bs), Uworld (uw_files w) (uw_fds w) (uw_slots w) (if fd =? 1 then uw_out w ++ bs else uw_out w))
    else Ok (-1, w);
  u_open := fun name _ w =>
    match uw_find w name, uw_slots w with
    | Some d, S n => Ok (Z.of_nat (length (uw_fds w)), Uworld (uw_files w) (uw_fds w ++ [Some d]) n (uw_out w))
    | _, _ => Ok (-1, w)
    end;
  u_close := fun fd w =>
    if uw_isopen w fd then Ok (0, Uworld (uw_files w) (<[Z.to_nat fd := None]> (uw_fds w)) (S (uw_slots w)) (uw_out w))
    else Ok (-1, w);
  u_fstat := fun _ => ret (-1, Ustat 0 0 0 0);
  u_link := fun _ _ => ret (-1);
  u_mkdir := fun _ => ret (-1);
  u_unlink := fun _ => ret (-1);
  u_kill := fun _ => ret (-1);
  u_renice := fun _ _ => ret (-1);
  u_getpid := ret 1;
  u_cps := ret 0;
  u_exec := fun _ _ => ret (-1)
|}.

Lemma uw_isopen_elem w fd : fd ∈ uw_open w -> uw_isopen w fd = true.
Proof. intros [H0 [d Hd]]%uw_open_elem. unfold uw_isopen. rewrite Hd. apply andb_true_iff. split; [by apply Z.leb_le|apply bool_decide_eq_true; by eexists]. Qed.

Definition demo_usys_ok (most : nat -> nat) (Hmost : forall n, (0 < n)%nat -> (0 < most n)%nat) : @usys_ok uworld (demo_usys most).
Proof.
  refine (@UsysOk uworld (demo_usys most) uw_rest uw_out uw_find uw_open uw_slots _ _ _ _).
  - intros fd n w Hfd Hn. cbn [u_read demo_usys]. rewrite uw_isopen_elem by done. apply uw_open_elem in Hfd as [H0 [l Hl]].
    do 2 eexists. split; [reflexivity|]. set (k := most (Z.to_nat n)). assert (Hk : (0 < k)%nat) by (apply Hmost; lia).
    assert (Hr : uw_rest w fd = l) by (unfold uw_rest; by rewrite Hl). rewrite Hr. split; [|split; [|split; [done|]]].
    + destruct l as [|c l]; [done|]. by destruct k; [lia|].
    + unfold uw_rest. cbn [uw_fds]. rewrite list_lookup_alter_eq, Hl. cbn. transitivity (take k l ++ drop k l); [by rewrite take_drop|].
      rewrite length_take. destruct (Nat.le_gt_cases k (length l)); [by rewrite Nat.min_l by lia|]. rewrite Nat.min_r, !drop_ge by lia. done.
    + f_equal. f_equal. apply set_eq. intros fd'. rewrite !uw_open_elem. cbn [uw_fds]. f_equiv. destruct (decide (Z.to_nat fd' = Z.to_nat fd)) as [->|Hne].
      * rewrite list_lookup_alter_eq, Hl. cbn. naive_solver.
      * by rewrite list_lookup_alter_ne.
  - intros bs w H1. cbn [u_write demo_usys]. rewrite uw_isopen_elem by done. eexists. by split; [reflexivity|].
  - intros name w. cbn [u_open demo_usys]. destruct (uw_find w name) as [d|] eqn:Hd; [|do 2 eexists; by split; [reflexivity|]].
    destruct (uw_slots w) as [|n] eqn:Hn; [do 2 eexists; split; [reflexivity|]; by rewrite Hn|].
    do 2 eexists. split; [reflexivity|]. split; [done|]. split; [lia|]. split; [|split].
    + rewrite uw_open_elem, Nat2Z.id. intros [_ [e He%lookup_lt_Some]]. lia.
    + unfold uw_rest. cbn [uw_fds]. by rewrite Nat2Z.id, list_lookup_middle by done.
    + f_equal. f_equal. apply set_eq. intros fd'. rewrite elem_of_union, elem_of_singleton, !uw_open_elem. cbn [uw_fds]. split.
      * intros [H0 [e He]]. apply lookup_app_Some in He as [He|[Hle He]]; [right; by split; [|exists e]|].
        left. apply list_lookup_singleton_Some in He as [He _]. lia.
      * intros [->|[H0 [e He]]]; [split; [lia|]; exists d; by rewrite Nat2Z.id, list_lookup_middle by done|].
        split; [done|]. exists e. rewrite lookup_app_l; [done|by eapply lookup_lt_Some].
  - intros fd w Hfd. cbn [u_close demo_usys]. rewrite uw_isopen_elem by done. apply uw_open_elem in Hfd as [H0 [l Hl]].
    do 2 eexists. split; [reflexivity|]. split; [done|]. f_equal. f_equal. apply set_eq. intros fd'.
    rewrite elem_of_difference, elem_of_singleton, !uw_open_elem. cbn [uw_fds]. assert (Hlt := lookup_lt_Some _ _ _ Hl).
    destruct (decide (Z.to_nat fd' = Z.to_nat fd)) as [He|Hne].
    + rewrite He, list_lookup_insert_eq by done. split; [naive_solver|]. intros [[? _] ?]. lia.
    + rewrite list_lookup_insert_ne by done. split; [|naive_solver]. intros ?. split; [done|]. intros ->. done.
Defined.

(** Three bytes at a time, as from a pipe, or all, as from a file. *)
Definition by_three (n : nat) : nat := n `min` 3.
Lemma by_three_pos n : (0 < n)%nat -> (0 < by_three n)%nat.
Proof. unfold by_three. lia. Qed.
Definition pieces_ok := demo_usys_ok by_three by_three_pos.
Definition whole_ok := demo_usys_ok (fun n => n) (fun n H => H).

Definition demo_world : uworld := Uworld [(zs "a", zs "one two" ++ [LF]); (zs "b", zs " three  4 ")] (replicate 3 (Some [])) 13 [].
Lemma demo_open fd : (fd =? 0) || (fd =? 1) = true -> fd ∈ uw_open demo_world.
Proof. intros [H|H]%orb_true_iff; apply Z.eqb_eq in H as ->; apply uw_open_elem; (split; [lia|]); by exists []. Qed.

Lemma demo_files_fit : @files_fit uworld _ pieces_ok demo_world 20 [zs "a"; zs "b"; zs "c"].
Proof.
  intros a d Ha. repeat (apply elem_of_cons in Ha as [->|Ha]; [vm_compute; by intros [= <-]; lia|]). by apply elem_of_nil in Ha.
Qed.

Lemma wc_counts_witness :
  runs (@wc_main uworld (demo_usys by_three) 20 [zs "wc"; zs "a"; zs "b"; zs "c"]) demo_world (fun _ w' =>
    uw_out w' = zs "1 2 8 a" ++ [LF] ++ zs "0 2 10 b" ++ [LF] ++ zs "wc: cannot open c" ++ [LF]).
Proof.
  eapply runs_mono; [apply (@wc_counts uworld _ pieces_ok 20 (zs "wc") [zs "a"; zs "b"; zs "c"] demo_world)|].
  - by apply demo_open.
  - by apply demo_open.
  - apply Nat.ltb_lt. by vm_compute.
  - by repeat constructor.
  - apply demo_files_fit.
  - apply Nat.ltb_lt. by vm_compute.
  - done.
  - intros [] w' Ho. etransitivity; [exact Ho|]. by vm_compute.
Defined.

Lemma cat_copies_witness :
  runs (@cat_main uworld (demo_usys by_three) 20 [zs "cat"; zs "a"; zs "b"; zs "c"]) demo_world (fun _ w' =>
    uw_out w' = zs "one two" ++ [LF] ++ zs " three  4 cat: cannot open c" ++ [LF]).
Proof.
  eapply runs_mono; [apply (@cat_copies uworld _ pieces_ok 20 (zs "cat") [zs "a"; zs "b"; zs "c"] demo_world)|].
  - by apply demo_open.
  - by apply demo_open.
  - apply Nat.ltb_lt. by vm_compute.
  - by repeat constructor.
  - apply demo_files_fit.
  - apply Nat.ltb_lt. by vm_compute.
  - intros [] w' Ho. etransitivity; [exact Ho|]. by vm_compute.
Defined.

Lemma whole_reads : @full_reads uworld _ whole_ok.
Proof. intros fd n w Hfd Hn. unfold runs. cbn [u_read demo_usys snd]. rewrite uw_isopen_elem by done. cbn [snd]. by rewrite length_take. Qed.
Lemma demo_good a d : a ∈ [zs "a"; zs "c"] -> uw_find demo_world a = Some d -> (0 ∉ d) /\ short_lines d.
Proof.
  intros Ha. assert (Hd : uw_find demo_world a = Some d -> d = zs "one two" ++ [LF]).
  { repeat (apply elem_of_cons in Ha as [->|Ha]; [vm_compute; by intros [= <-]|]). by apply elem_of_nil in Ha. }
  intros ->%Hd. split; [apply (bool_decide_unpack _); by vm_compute|].
  intros l x r Hx _. apply (f_equal length) in Hx. rewrite !length_app in Hx. cbn in Hx. unfold sizeof_buf. lia.
Qed.

Lemma grep_prints_witness :
  runs (@grep_main uworld (demo_usys (fun n => n)) 20 [zs "grep"; zs "e.*o$"; zs "a"; zs "c"]) demo_world (fun _ w' =>
    uw_out w' = zs "one two" ++ [LF] ++ zs "grep: cannot open c" ++ [LF]).
Proof.
  destruct (@grep_prints uworld _ whole_ok (zs "e.*o$") 20 (zs "grep") [zs "a"; zs "c"] demo_world) as [H _].
  - apply whole_reads.
  - by apply demo_open.
  - apply Nat.ltb_lt. by vm_compute.
  - done.
  - by repeat constructor.
  - intros a d Ha. repeat (apply elem_of_cons in Ha as [->|Ha]; [vm_compute; by intros [= <-]; lia|]). by apply elem_of_nil in Ha.
  - apply demo_good.
  - eapply runs_mono; [exact H|]. intros [] w' Ho. etransitivity; [exact Ho|]. by vm_compute.
Defined.
